(* ===== verification/_CoqProject ===== *)
-Q . S2P
Prelude.v
Heap.v
Timer.v
MemPool.v
FixedPool.v
RingBuffer.v
GlobalMemory.v
Hash.v
Base64.v
ShmChannel.v
WebSocket.v
Table.v
TableCreate.v
TableSpec.v
CoChannel.v
Coroutine.v
Str.v
Protocol.v
LengthProtocol.v
Mqtt.v
Http2.v
Port.v
MessageBus.v
OutBuffer.v
Connections.v
ServerBase.v
ServerSpec.v
Dispatch.v
CStr.v
Utils.v
CoSocket.v
StrFormat.v
Multipart.v
HttpText.v
HttpRequest.v
HttpForm.v
HttpPort.v
Dns.v
LruCache.v
Redis.v
Socks5.v
HttpProxy.v
MimeType.v
StaticHandler.v
StaticRange.v
