(* ===== verification/Prelude.v ===== *)
(** * Verification of the Swoole core library

    Swoole is an asynchronous network engine in C++: an event loop with timers,
    coroutines with channels, servers of several processes that share memory and
    talk through pipes, and the protocols that they speak.  This library models the
    parts of its core that are algorithms on memory and on bytes, and proves what
    they promise.  Names of files are relative to [src/].

    ** Conventions

    Machine integers are [Z] with their wrap-around written out ([uN], [sN] below).
    Memory is a list of bytes or a finite map of objects by address; pointers are
    addresses or offsets.  A function of the code is a function into [option]:
    [None] is what the code must not do, an access outside of an object or through a
    dangling pointer, a failed assertion, a call of [abort], or a loop that ran out of
    fuel.  So a theorem that a function gives [Some] result says that the code is
    memory safe and returns.  Callbacks, allocators, hash functions, the kernel and
    the network are arguments: a callback is any function on the state that the code
    lets it change, [Socket::recv] and [writev] follow a script, which is arbitrary
    up to what the theorem in question says.  The comment of each theorem states its
    conditions; where the code fails outside of them, a lemma of the same file shows it.

    ** Parts

    - The event loop's data: [Heap.v] ([src/core/heap.cc]), the indexed binary heap,
      and on top of it [Timer.v] ([src/core/timer.cc]).  The heap is a priority queue
      under every sequence of operations ([heap_refines], [drain_sorted]);
      [Timer::select] runs only due timers, each at most once, and keeps its
      structures consistent whatever the callbacks add or remove
      ([select_correct]).  A timer that delays
      itself from its own callback breaks them ([delay_in_callback_dangles]).
    - Memory pools: [MemPool.v] is the interface of [include/swoole_memory.h], a class
      whose laws say that blocks are aligned, large enough and disjoint;
      [FixedPool.v], [RingBuffer.v] and [GlobalMemory.v] ([src/memory/]) are its
      implementations, with the linked list, the ring and the pages that the code
      keeps ([fixed_pool_sound], [ring_buffer_sound], [global_memory_sound]).
    - The shared-memory table: [Table.v] ([src/memory/table.cc]), rows with columns
      in chains behind the rows of the buckets; [TableCreate.v], the layout of a new
      table with its [FixedPool]; [TableSpec.v], the table as a bounded map
      ([table_refines]) and its iteration ([foreach_visits_all]).  The table is
      proved against the interface [SlicePool], which [FixedPool] implements.
    - [Hash.v] ([src/core/misc.cc], [src/core/crc32.cc]) and [Base64.v]
      ([src/core/base64.cc]): equivalence with reference definitions, and round
      trips.
    - [Utils.v] ([src/core/base.cc], [include/swoole_util.h]): functions that stand alone,
      with a lemma for each and what some of them get wrong.
    - [ShmChannel.v] ([src/core/channel.cc]): the message ring in shared memory is a
      bounded queue ([channel_refines]).
    - Coroutines: [Coroutine.v] ([src/coroutine/base.cc]) has the scheduler as a step
      relation; [coroutines_sound] is an invariant of every reachable state.
      [CoChannel.v] ([src/coroutine/channel.cc]) has the channel with its chains of
      resumptions ([co_channel_correct], [co_channel_progress],
      [co_channel_close_ends]).
    - Bytes of a connection: [Str.v] ([src/core/string.cc]), the buffer, which is a
      list of bytes ([string_refines]), with [StrFormat.v], what it prints
      ([format_impl] of [include/swoole_string.h], [sw_snprintf] and [swoole_itoa] of
      [src/core/base.cc]), and [CStr.v], the functions of the C library on bytes that
      the sources use; [Protocol.v] and [LengthProtocol.v]
      ([src/protocol/base.cc]), the receive loops that cut a stream into packets by
      an end mark or by a length.  Each delivers exactly the packets of the stream
      however the network cuts it ([eof_protocol_correct],
      [length_protocol_correct]); without [open_eof_split], where the mark is only
      looked for at the end of what was received, the packets end with the mark and
      keep every byte.  The second works with any instance of the class
      [LengthFunc]; instances are the default function, [Mqtt.v]
      ([src/protocol/mqtt.cc]), [Http2.v] ([src/protocol/http2.cc]) and WebSocket in
      [Port.v].  With the last three, and with the default function when it has a
      body offset, a hostile peer does no harm ([hostile_peer_harmless]); with body
      offset 0 it can write behind the buffer ([zero_length_overflows]).
    - [WebSocket.v] ([src/protocol/websocket.cc]): frames, masking, fragments.
      [Port.v] ([src/server/port.cc], [src/protocol/http.cc]): which protocol a
      connection speaks, and a message from [encode] through the network, the
      receive loop and the frame dispatcher to the workers
      ([websocket_message_delivered]).
    - [MessageBus.v] ([src/protocol/message_bus.cc]): messages in chunks through the
      datagram pipes between processes, from several senders at once
      ([message_bus_delivers]).
    - [OutBuffer.v]: the chunks that a socket still has to send ([src/core/buffer.cc]),
      with [Reactor::write], [writev] and the write event of [src/reactor/base.cc] and
      the sending of data and files in [src/network/socket.cc].  What the kernel takes
      is what was written, in its order ([output_in_order]), and it all goes out when the
      kernel goes on to take bytes ([output_drains]), unless a vectored write is cut
      exactly between two elements ([writev_boundary_corrupts]), a file is interrupted
      ([sendfile_interrupted]) or sent from its end ([sendfile_at_end_stuck]).
    - A server in base mode, where each worker has its own connections: [Connections.v]
      ([include/swoole_server.h], [src/server/master.cc], [src/server/reactor_thread.cc])
      has the lists of connections and sessions, [ServerBase.v] ([src/server/base.cc],
      [src/server/master.cc], [src/server/reactor_thread.cc],
      [src/server/reactor_process.cc]) the events of a connection and the calls of the
      program, also from its callbacks, with the output of [OutBuffer.v].
      [ServerSpec.v] has the invariant and what follows from it: sessions do not get
      each other's data, sockets are not used after they are freed, callbacks come in
      their order ([server_sessions_isolated]); the iterations over the connections
      are complete ([foreach_connection_complete]).
    - A server in process mode: [Dispatch.v] ([Server::schedule_worker] and
      [ProcessFactory] of [src/server/process.cc]) has the choice of a worker and the
      pipes in both directions, as a step relation over the connections of
      [Connections.v].  Messages of a session stay in order ([dispatch_in_order]).
    - HTTP/1: [HttpText.v], [HttpRequest.v] and [HttpForm.v] ([src/protocol/http.cc]) are
      the escapes and parameters, the search for the end of a request, and the forms
      with files, which [Multipart.v] ([thirdparty/multipart_parser.c]) takes apart.  The
      parser stays in its memory on every input ([multipart_parser_safe]) and gives back
      the parts of a form ([form_roundtrip]).  [HttpPort.v] is the receive function of
      an HTTP port ([readable_callback_http] of [src/server/port.cc]) on top of them:
      the workers get the requests of the stream ([http_requests_delivered]).
    - Files over HTTP: [StaticHandler.v] and [StaticRange.v]
      ([src/server/static_handler.cc]) go from the URL to a file, which is below the
      document root if that has no escapes ([static_file_confined], [root_decoded]), and from the [Range] header to the bytes
      of the answer ([range_response_consistent], [ranges_served]); [MimeType.v]
      ([src/protocol/mime_type.cc]) has the types of files.
    - [Redis.v] ([src/protocol/redis.cc]): requests in the stream
      ([redis_requests_delivered]), the table of the handlers ([handler_found]) and
      replies.
    - The socket of a coroutine: [CoSocket.v] ([src/coroutine/socket.cc]) receives
      packets, lines and bytes through one buffer and sends, waiting for events that may
      not come.  It uses the class [LengthFunc] as well, with what the class [HeaderFunc]
      adds, the functions of the default protocol, of WebSocket and of the program.  Packets
      are those of the stream ([co_packets_delivered]), and the ways to
      read can be mixed ([co_reads_in_order]).
    - Clients: [Dns.v] ([src/network/dns.cc]) asks for the addresses of a name and reads
      what comes back, whatever it is ([dns_lookup_safe], [dns_lookup_answers]);
      [LruCache.v] ([include/swoole_lru_cache.h]) keeps the answers
      ([lru_cache_keeps]); [Socks5.v] ([src/protocol/socks5.cc]) and [HttpProxy.v]
      ([src/protocol/http.cc]) connect through a proxy ([socks5_negotiation]).

    ** Fuel

    Loops that are not structural have fuel, which the theorems show to be enough:
    they state that there is a result.  The fuel is what bounds the loop: the number
    of elements of a heap, table, ring or tree, of due timers, of bytes of a key, a
    buffer or a message, of entries in the script of the environment.  The receive
    loops take a constant number of turns per byte or entry of the script: three in
    [LengthProtocol.v], two in [Redis.v].  In [OutBuffer.v] the loops have the bytes to
    append, to write, or in the queue; in the files on HTTP, DNS and the proxies the
    bytes between the position and the end of the data.  A handshake with a SOCKS5 proxy
    has four turns, the printing of a 64-bit number twenty, the doubling of an alignment
    sixty-four.  In [ServerBase.v] a callback of a close that closes another connection
    is nested at most once per connection, and the write event takes a turn per chunk
    and per answer of the kernel.  In [CoSocket.v] a call takes a turn per entry of the
    script and per event, a packet two per entry, a line one per byte of its limit.  In
    [Utils.v] the divisors have two turns per bit, and the pauses double until they reach
    31 bits.

    ** Not modelled

    What the kernel, the machine or a library does, so that there is no source to
    translate: sockets, files, processes, threads and signals ([src/network/],
    [src/os/]), the event loop over epoll and its like ([src/reactor/] apart from the
    write path), the switch of machine stacks ([src/coroutine/context.cc]), locks
    (atomic operations and pthread; operations on shared memory are considered one at a
    time), TLS (OpenSSL), the binding to PHP ([ext-src/], values of the Zend engine,
    but for the reading of Redis requests) and third-party code apart from the multipart
    parser.

    What has source of its own but is not part of this library: the server's
    processes and threads ([manager.cc], [thread.cc], [task_worker.cc] of
    [src/server/]), the coroutine versions of other system calls
    ([src/coroutine/system.cc], [hook.cc], [file.cc]), logging, error texts and
    options.

    Of the parts above: the notification pipe of the shared-memory channel, [bailout]
    and the time statistics of coroutines, the lookup of names with c-ares or
    [getaddrinfo], the comparison of dates for [If-Modified-Since].  Of the
    server: the timers of idle connections and of sending, heartbeats, client
    certificates, DTLS, and callbacks on the state of the output that call the server
    again.  Of the socket of
    coroutines: connecting, accepting, TLS, datagrams and vectors.  The text that a
    format of [printf] gives is an input where the code only passes it on.  Allocations
    succeed where the code throws or aborts when they do not; where it handles the
    failure, the result of the allocation is an input. *)

From Stdlib Require Import ZArith Lia.
From stdpp Require Export numbers base list gmap.

#[export] Set Warnings "-clear-no-such-hyp".

Declare Scope sw_scope.
Delimit Scope sw_scope with sw.
Open Scope Z_scope.

(** ** Machine integers

    A w-bit unsigned value is the [Z] between [0] and [2^w - 1]; the wrap-around
    of an unsigned operation is written out with [uN], the reinterpretation of
    its bits as a two's complement value with [sN]. *)

Definition uN (w z : Z) : Z := z mod 2 ^ w.
Definition sN (w z : Z) : Z := (z + 2 ^ (w - 1)) mod 2 ^ w - 2 ^ (w - 1).

Abbreviation u8 := (uN 8).
Abbreviation u16 := (uN 16).
Abbreviation u32 := (uN 32).
Abbreviation u64 := (uN 64).
Abbreviation s8 := (sN 8).
Abbreviation s16 := (sN 16).
Abbreviation s32 := (sN 32).
Abbreviation s64 := (sN 64).

Definition fits (w z : Z) : Prop := 0 <= z < 2 ^ w.

Lemma uN_fits w z : 0 <= w -> fits w (uN w z).
Proof. intros. apply Z.mod_pos_bound, Z.pow_pos_nonneg; lia. Qed.

Lemma uN_small w z : fits w z -> uN w z = z.
Proof. apply Z.mod_small. Qed.

Lemma sN_small w z : 0 < w -> - 2 ^ (w - 1) <= z < 2 ^ (w - 1) -> sN w z = z.
Proof.
  intros Hw Hz. unfold sN.
  replace (2 ^ w) with (2 * 2 ^ (w - 1)) by (rewrite <- Z.pow_succ_r by lia; f_equal; lia).
  rewrite Z.mod_small; lia.
Qed.

(** ** Lists indexed by [Z]

    A C array is a list; an access outside of it has no result. *)

Definition zget {A} (l : list A) (i : Z) : option A :=
  if 0 <=? i then l !! Z.to_nat i else None.

Definition zset {A} (l : list A) (i : Z) (x : A) : option (list A) :=
  if (0 <=? i) && (i <? Z.of_nat (length l)) then Some (<[Z.to_nat i := x]> l) else None.

Abbreviation zlen l := (Z.of_nat (length l)).

Section zlist.
Context {A : Type}.
Implicit Types (l : list A) (i j : Z) (x y : A).

Lemma zget_Some_bounds l i x : zget l i = Some x -> 0 <= i < zlen l.
Proof.
  unfold zget. destruct (Z.leb_spec 0 i) as [Hi|]; [|done].
  intros ?%lookup_lt_Some. lia.
Qed.

Lemma zget_in_bounds l i : 0 <= i < zlen l -> exists x, zget l i = Some x.
Proof.
  intros Hi. unfold zget. destruct (Z.leb_spec 0 i); [|lia].
  apply lookup_lt_is_Some. lia.
Qed.

Lemma zset_in_bounds l i x : 0 <= i < zlen l -> zset l i x = Some (<[Z.to_nat i := x]> l).
Proof.
  intros Hi. unfold zset.
  destruct (Z.leb_spec 0 i), (Z.ltb_spec i (zlen l)); [done|lia..].
Qed.

Lemma zset_Some l l' i x :
  zset l i x = Some l' -> 0 <= i < zlen l /\ l' = <[Z.to_nat i := x]> l.
Proof.
  unfold zset.
  destruct (Z.leb_spec 0 i), (Z.ltb_spec i (zlen l)); naive_solver.
Qed.

Lemma zset_length l l' i x : zset l i x = Some l' -> length l' = length l.
Proof. intros [_ ->]%zset_Some. apply length_insert. Qed.

Lemma zget_zset_eq l l' i x : zset l i x = Some l' -> zget l' i = Some x.
Proof.
  intros [Hi ->]%zset_Some. unfold zget.
  destruct (Z.leb_spec 0 i); [|lia]. apply list_lookup_insert_eq. lia.
Qed.

Lemma zget_zset_ne l l' i j x : zset l i x = Some l' -> i <> j -> zget l' j = zget l j.
Proof.
  intros [Hi ->]%zset_Some Hne. unfold zget.
  destruct (Z.leb_spec 0 j); [|done]. apply list_lookup_insert_ne. lia.
Qed.

Lemma zget_zset l l' i j x :
  zset l i x = Some l' -> zget l' j = if decide (i = j) then Some x else zget l j.
Proof.
  intros H. case_decide; subst; eauto using zget_zset_eq, zget_zset_ne.
Qed.

Lemma zget_app_l l1 l2 i : i < zlen l1 -> zget (l1 ++ l2) i = zget l1 i.
Proof. intros. unfold zget. case_match; [|done]. apply lookup_app_l. lia. Qed.

Lemma zget_app_r l1 l2 i : zlen l1 <= i -> zget (l1 ++ l2) i = zget l2 (i - zlen l1).
Proof.
  intros. unfold zget.
  destruct (Z.leb_spec 0 i), (Z.leb_spec 0 (i - zlen l1)); [|lia..].
  rewrite lookup_app_r; [|lia]. f_equal. lia.
Qed.
End zlist.

Lemma zset_in {A} (l : list A) i x : 0 <= i < zlen l -> exists l', zset l i x = Some l' /\ length l' = length l.
Proof.
  intros Hi. unfold zset. destruct (Z.leb_spec 0 i), (Z.ltb_spec i (zlen l)); try lia. simpl. eexists. split; [done|].
  apply length_insert.
Qed.

(** ** Blocks of memory

    [memcpy] out of and into an array; an access outside of it has no result. *)

Definition zsub {A} (l : list A) (off n : Z) : option (list A) :=
  if (0 <=? off) && (0 <=? n) && (off + n <=? zlen l)
  then Some (take (Z.to_nat n) (drop (Z.to_nat off) l)) else None.

Definition zblit {A} (l : list A) (off : Z) (src : list A) : option (list A) :=
  if (0 <=? off) && (off + zlen src <=? zlen l)
  then Some (take (Z.to_nat off) l ++ src ++ drop (Z.to_nat off + length src) l) else None.

Section blocks.
Context {A : Type}.
Implicit Types (l src : list A) (off n : Z).

Lemma zsub_Some l off n r :
  zsub l off n = Some r <->
  0 <= off /\ 0 <= n /\ off + n <= zlen l /\ r = take (Z.to_nat n) (drop (Z.to_nat off) l).
Proof.
  unfold zsub. destruct (Z.leb_spec 0 off), (Z.leb_spec 0 n), (Z.leb_spec (off + n) (zlen l)); simpl;
    (split; [intros [= <-] || intros [=]|intros (? & ? & ? & ->)]); done || lia.
Qed.

Lemma zsub_length l off n r : zsub l off n = Some r -> zlen r = n.
Proof. intros (? & ? & ? & ->)%zsub_Some. rewrite length_take, length_drop. lia. Qed.

Lemma zblit_Some l off src l' :
  zblit l off src = Some l' <->
  0 <= off /\ off + zlen src <= zlen l /\
  l' = take (Z.to_nat off) l ++ src ++ drop (Z.to_nat off + length src) l.
Proof.
  unfold zblit. destruct (Z.leb_spec 0 off), (Z.leb_spec (off + zlen src) (zlen l)); simpl;
    (split; [intros [= <-] || intros [=]|intros (? & ? & ->)]); done || lia.
Qed.

Lemma zblit_in_bounds l off src :
  0 <= off -> off + zlen src <= zlen l -> exists l', zblit l off src = Some l'.
Proof. intros ? ?. eexists. by apply zblit_Some. Qed.

Lemma zsub_in_bounds l off n :
  0 <= off -> 0 <= n -> off + n <= zlen l -> exists r, zsub l off n = Some r.
Proof. intros ? ? ?. eexists. by apply zsub_Some. Qed.

Lemma zblit_length l off src l' : zblit l off src = Some l' -> length l' = length l.
Proof. intros (? & ? & ->)%zblit_Some. rewrite !length_app, length_take, length_drop. lia. Qed.

(** A block reads back as it was written, the others do not change. *)
Lemma zsub_zblit l off src l' : zblit l off src = Some l' -> zsub l' off (zlen src) = Some src.
Proof.
  intros H. pose proof (zblit_length _ _ _ _ H). apply zblit_Some in H as (? & ? & ->).
  apply zsub_Some. split_and!; try lia. rewrite drop_app_length' by (rewrite length_take; lia).
  by rewrite take_app_length' by lia.
Qed.

(** A read in two parts, and of one element. *)
Lemma zsub_split l off n m r : 0 <= n -> 0 <= m -> zsub l off (n + m) = Some r ->
  exists r1 r2, r = r1 ++ r2 /\ zsub l off n = Some r1 /\ zsub l (off + n) m = Some r2.
Proof.
  intros Hn Hm (? & ? & ? & ->)%zsub_Some.
  exists (take (Z.to_nat n) (drop (Z.to_nat off) l)), (take (Z.to_nat m) (drop (Z.to_nat (off + n)) l)). split_and!.
  - rewrite (Z2Nat.inj_add off n), <- drop_drop, take_take_drop by lia. f_equal. lia.
  - apply zsub_Some. split_and!; [lia..|done].
  - apply zsub_Some. split_and!; [lia..|done].
Qed.

Lemma zsub_one l off x y : zget l off = Some x -> zsub l off 1 = Some [y] -> x = y.
Proof.
  intros Hx (? & _ & ? & E)%zsub_Some. unfold zget in Hx. destruct (Z.leb_spec 0 off); [|done].
  rewrite (drop_S _ _ _ Hx) in E. simpl in E. congruence.
Qed.

(** Reading the middle of a list. *)
Lemma zsub_app l1 l2 l3 : zsub (l1 ++ l2 ++ l3) (zlen l1) (zlen l2) = Some l2.
Proof.
  apply zsub_Some. rewrite !length_app. split_and!; [lia..|]. rewrite !Nat2Z.id, drop_app_length. by rewrite take_app_length.
Qed.

Lemma zsub_zget l off n r i : zsub l off n = Some r -> 0 <= i < n -> zget l (off + i) = zget r i.
Proof.
  intros (? & ? & ? & ->)%zsub_Some Hi. unfold zget. destruct (Z.leb_spec 0 (off + i)), (Z.leb_spec 0 i); try lia.
  rewrite lookup_take_lt by lia. rewrite lookup_drop. f_equal. lia.
Qed.

(** Writing one element. *)
Lemma zset_zblit l i x : zset l i x = zblit l i [x].
Proof.
  unfold zset, zblit. cbn [length]. destruct (Z.leb_spec 0 i); [|done]. cbn [andb].
  destruct (Z.ltb_spec i (zlen l)), (Z.leb_spec (i + Z.of_nat 1) (zlen l)); try lia; [|done].
  f_equal. rewrite insert_take_drop by lia. simpl. repeat f_equal. lia.
Qed.

(** Two writes side by side. *)
Lemma zblit_zblit l off a b l1 l2 :
  zblit l off a = Some l1 -> zblit l1 (off + zlen a) b = Some l2 -> zblit l off (a ++ b) = Some l2.
Proof.
  intros (? & ? & ->)%zblit_Some (? & Hb & ->)%zblit_Some. rewrite !length_app, length_take, length_drop in Hb.
  apply zblit_Some. rewrite length_app. split_and!; [lia|lia|].
  rewrite Z2Nat.inj_add, Nat2Z.id by lia. rewrite take_app_ge by (rewrite length_take; lia).
  rewrite length_take_le by lia. replace (Z.to_nat off + length a - Z.to_nat off)%nat with (length a) by lia.
  rewrite take_app_length, <- !app_assoc. do 3 f_equal.
  rewrite drop_app_ge by (rewrite length_take; lia). rewrite length_take_le by lia.
  rewrite drop_app_ge by lia. rewrite drop_drop. f_equal. lia.
Qed.

Lemma zblit_append l off a b : 0 <= off -> off + zlen a + zlen b <= zlen l ->
  (l1 ← zblit l off a; zblit l1 (off + zlen a) b) = zblit l off (a ++ b).
Proof.
  intros H0 H. destruct (zblit_in_bounds l off a) as [l1 E1]; [lia..|]. rewrite E1. cbn [mbind option_bind].
  pose proof (zblit_length _ _ _ _ E1). destruct (zblit_in_bounds l1 (off + zlen a) b) as [l2 E2]; [lia..|]. rewrite E2. symmetry. by eapply zblit_zblit.
Qed.

(** Reading inside of what was read. *)
Lemma zsub_zsub l off n r o k :
  zsub l off n = Some r -> 0 <= o -> 0 <= k -> o + k <= n -> zsub r o k = zsub l (off + o) k.
Proof.
  intros Hr Ho Hk Hn. pose proof (zsub_length _ _ _ _ Hr). apply zsub_Some in Hr as (? & ? & ? & ->).
  destruct (zsub_in_bounds l (off + o) k) as [x Hx]; [lia..|]. rewrite Hx. apply zsub_Some in Hx as (_ & _ & _ & ->).
  apply zsub_Some. split_and!; [lia..|]. rewrite skipn_firstn_comm, take_take, drop_drop.
  f_equal; [lia|]. f_equal. lia.
Qed.

Lemma zsub_zblit_ne l off src l' off' n :
  zblit l off src = Some l' -> off' + n <= off \/ off + zlen src <= off' ->
  zsub l' off' n = zsub l off' n.
Proof.
  intros H Hor. pose proof (zblit_length _ _ _ _ H) as Hlen. apply zblit_Some in H as (? & ? & ->).
  unfold zsub. rewrite Hlen. destruct (Z.leb_spec 0 off'), (Z.leb_spec 0 n), (Z.leb_spec (off' + n) (zlen l));
    simpl; try done. f_equal. apply list_eq. intros i. destruct (decide (i < Z.to_nat n)%nat) as [Hi|Hi].
  2: { rewrite !lookup_take_ge by lia. done. }
  rewrite !lookup_take_lt, !lookup_drop by lia. destruct Hor as [Hor|Hor].
  - rewrite lookup_app_l by (rewrite length_take; lia). by rewrite lookup_take_lt by lia.
  - rewrite lookup_app_r by (rewrite length_take; lia). rewrite length_take.
    rewrite lookup_app_r by lia. rewrite lookup_drop. f_equal. lia.
Qed.

Lemma take_min_length l (m : nat) : take (m `min` length l) l = take m l.
Proof. destruct (Nat.le_gt_cases m (length l)); [f_equal; lia|]. rewrite !take_ge; done || lia. Qed.
End blocks.

(** ** Lists of lists *)

Section concat.
Context {A : Type}.
Implicit Types (L : list (list A)) (l : list A).

Lemma concat_lookup L x : x ∈ concat L <-> exists i l, L !! i = Some l /\ x ∈ l.
Proof.
  rewrite list_elem_of_In, in_concat. split.
  - intros (l & [i Hi]%list_elem_of_In%list_elem_of_lookup & Hx%list_elem_of_In). eauto.
  - intros (i & l & Hi & Hx). exists l. split; apply list_elem_of_In; [by eapply list_elem_of_lookup_2|done].
Qed.

Lemma size_list_to_set_le `{Countable A} l : (size (list_to_set l : gset A) <= length l)%nat.
Proof.
  induction l as [|a l IH]; [done|]. cbn [list_to_set length].
  pose proof (size_union_alt ({[a]} : gset A) (list_to_set l)) as ->. rewrite size_singleton.
  pose proof (subseteq_size (list_to_set l ∖ {[a]}) (list_to_set l : gset A) ltac:(set_solver)). lia.
Qed.

Lemma NoDup_concat L :
  (forall i l, L !! i = Some l -> NoDup l) ->
  (forall i j li lj x, L !! i = Some li -> L !! j = Some lj -> x ∈ li -> x ∈ lj -> i = j) ->
  NoDup (concat L).
Proof.
  induction L as [|l L IH]; intros Hnd Hap; simpl; [constructor|]. apply NoDup_app. split_and!.
  - by apply (Hnd 0%nat).
  - intros x Hx (l' & [j Hj]%list_elem_of_In%list_elem_of_lookup & Hx'%list_elem_of_In)%list_elem_of_In%in_concat.
    by specialize (Hap 0%nat (S j) l l' x eq_refl Hj Hx Hx').
  - apply IH; [intros i; by apply (Hnd (S i))|]. intros i j li lj x Hi Hj Hxi Hxj.
    specialize (Hap (S i) (S j) li lj x Hi Hj Hxi Hxj). lia.
Qed.

Lemma concat_insert_length L i l l' :
  L !! i = Some l -> zlen (concat (<[i := l']> L)) = zlen (concat L) - zlen l + zlen l'.
Proof.
  revert i. induction L as [|k L IH]; intros [|i] Hi; simpl in *; simplify_eq.
  - rewrite !length_app. lia.
  - rewrite !length_app, !Nat2Z.inj_add, IH by done. lia.
Qed.
End concat.

(** ** Little-endian words *)

Fixpoint le_bytes (n : nat) (z : Z) : list Z :=
  match n with O => [] | S n => z mod 256 :: le_bytes n (z / 256) end.
Fixpoint le_value (l : list Z) : Z :=
  match l with [] => 0 | b :: l => b + 256 * le_value l end.
Definition byte (b : Z) : Prop := 0 <= b < 256.

Lemma le_bytes_length n z : length (le_bytes n z) = n.
Proof. revert z. induction n; intros; simpl; auto. Qed.

Lemma le_bytes_byte n z : Forall byte (le_bytes n z).
Proof.
  revert z. induction n as [|n IH]; intros z; constructor; [|done].
  apply Z.mod_pos_bound. lia.
Qed.

Lemma le_value_bytes n z : 0 <= z < 256 ^ Z.of_nat n -> le_value (le_bytes n z) = z.
Proof.
  revert z. induction n as [|n IH]; intros z Hz; simpl.
  - rewrite Z.pow_0_r in Hz. lia.
  - rewrite IH; [pose proof (Z.div_mod z 256); lia|].
    rewrite Nat2Z.inj_succ, Z.pow_succ_r in Hz by lia.
    split; [apply Z.div_pos; lia|apply Z.div_lt_upper_bound; lia].
Qed.

Lemma le_value_bounds l : Forall byte l -> 0 <= le_value l < 256 ^ zlen l.
Proof.
  induction 1 as [|b l Hb _ IH]; simpl; [lia|].
  rewrite Nat2Z.inj_succ, Z.pow_succ_r by lia. unfold byte in Hb. lia.
Qed.

Lemma le_bytes_value n l : Forall byte l -> length l = n -> le_bytes n (le_value l) = l.
Proof.
  intros Hl <-. induction Hl as [|b l Hb _ IH]; [done|]. unfold byte in Hb. cbn [length le_value le_bytes].
  replace ((b + 256 * le_value l) mod 256) with b by (symmetry; rewrite (Z.mul_comm 256), Z.mod_add by lia;
    apply Z.mod_small; lia).
  replace ((b + 256 * le_value l) / 256) with (le_value l) by (rewrite (Z.mul_comm 256), Z.div_add by lia;
    rewrite Z.div_small by lia; done).
  by rewrite IH.
Qed.

Lemma byte_lxor x y : byte x -> byte y -> byte (Z.lxor x y).
Proof.
  intros Hx Hy. unfold byte in *. split; [apply Z.lxor_nonneg; lia|]. destruct (decide (Z.lxor x y = 0)) as [->|Hne]; [lia|].
  assert (0 <= Z.lxor x y) by (apply Z.lxor_nonneg; lia). change 256 with (2 ^ 8). apply Z.log2_lt_pow2; [lia|].
  assert (forall z, 0 <= z < 256 -> Z.log2 z < 8) as Hlog.
  { intros z Hz. destruct (decide (z = 0)) as [->|]; [done|]. apply Z.log2_lt_pow2; lia. }
  pose proof (Z.log2_lxor x y ltac:(lia) ltac:(lia)). pose proof (Hlog x ltac:(lia)). pose proof (Hlog y ltac:(lia)). lia.
Qed.

(** The exclusive or of two numbers is that of their bytes. *)
Lemma lxor_byte x y a b : byte x -> byte y ->
  Z.lxor (x + 256 * a) (y + 256 * b) = Z.lxor x y + 256 * Z.lxor a b.
Proof.
  assert (forall x a, byte x -> x + 256 * a = Z.lxor x (Z.shiftl a 8)) as H.
  { clear. intros x a Hx. rewrite <- Z.add_nocarry_lxor; [rewrite Z.shiftl_mul_pow2 by lia; lia|].
    apply Z.bits_inj'. intros n Hn. rewrite Z.land_spec, Z.bits_0, Z.shiftl_spec by done.
    destruct (Z.ltb_spec n 8); [rewrite (Z.testbit_neg_r a) by lia; apply andb_false_r|].
    unfold byte in Hx. rewrite (Z.bits_above_log2 x n); [done|lia|]. destruct (decide (x = 0)) as [->|]; [simpl; lia|].
    assert (Z.log2 x < 8) by (apply Z.log2_lt_pow2; lia). lia. }
  intros Hx Hy. rewrite !H by auto using byte_lxor.
  rewrite Z.shiftl_lxor, !Z.lxor_assoc. f_equal. rewrite <- !Z.lxor_assoc. f_equal. apply Z.lxor_comm.
Qed.

Lemma le_value_lxor xs ys : Forall byte xs -> Forall byte ys -> length xs = length ys ->
  Z.lxor (le_value xs) (le_value ys) = le_value (zip_with Z.lxor xs ys).
Proof.
  intros Hx. revert ys. induction Hx as [|x xs Hx _ IH]; intros [|y ys] Hy Hl; try done.
  apply Forall_cons in Hy as [Hy Hys]. cbn [le_value zip_with]. rewrite lxor_byte, IH by (done || (simpl in Hl; lia)). done.
Qed.

Lemma lor_shiftl a b n : 0 <= n -> 0 <= b < 2 ^ n -> Z.lor (Z.shiftl a n) b = b + 2 ^ n * a.
Proof.
  intros Hn Hb. assert (Z.land (Z.shiftl a n) b = 0) as E.
  { apply Z.bits_inj'. intros k Hk. rewrite Z.land_spec, Z.bits_0, Z.shiftl_spec by done.
    destruct (Z.ltb_spec k n); [by rewrite (Z.testbit_neg_r a) by lia|].
    rewrite <- (Z.mod_small b (2 ^ n)) by done. rewrite Z.mod_pow2_bits_high by lia. apply andb_false_r. }
  rewrite <- Z.lxor_lor by done. rewrite <- Z.add_nocarry_lxor by done. rewrite Z.shiftl_mul_pow2 by done. lia.
Qed.

Lemma le_value_app l1 l2 : le_value (l1 ++ l2) = le_value l1 + 256 ^ zlen l1 * le_value l2.
Proof.
  induction l1 as [|b l1 IH]; [simpl; lia|]. cbn [app le_value length]. rewrite IH, Nat2Z.inj_succ, Z.pow_succ_r by lia. lia.
Qed.

(** Network byte order. *)
Definition be_value (l : list Z) : Z := le_value (rev l).
Definition be_bytes (n : nat) (z : Z) : list Z := rev (le_bytes n z).

Lemma be_bytes_length n z : length (be_bytes n z) = n.
Proof. unfold be_bytes. by rewrite length_rev, le_bytes_length. Qed.

Lemma be_bytes_byte n z : Forall byte (be_bytes n z).
Proof. unfold be_bytes. apply Forall_rev, le_bytes_byte. Qed.

Lemma be_value_bytes n z : 0 <= z < 256 ^ Z.of_nat n -> be_value (be_bytes n z) = z.
Proof. intros Hz. unfold be_value, be_bytes. rewrite rev_involutive. by apply le_value_bytes. Qed.

Lemma be_value_bounds l : Forall byte l -> 0 <= be_value l < 256 ^ zlen l.
Proof. intros Hl. unfold be_value. rewrite <- (length_rev l). apply le_value_bounds, Forall_rev, Hl. Qed.

Lemma Forall_zget {A} (Q : A -> Prop) l i x : Forall Q l -> zget l i = Some x -> Q x.
Proof. intros Hl Hx. unfold zget in Hx. destruct (0 <=? i); [|done]. by eapply Forall_lookup_1. Qed.

(** ** Automation *)

Create HintDb sw discriminated.
#[export] Hint Constants Opaque : sw.
#[export] Hint Resolve zget_Some_bounds zget_zset_eq uN_fits : sw.

(** Turn every boolean comparison in the context or in the goal into the
    proposition it decides. *)
Ltac bool_cases :=
  repeat match goal with
  | H : context [Z.leb ?a ?b] |- _ => destruct (Z.leb_spec a b)
  | H : context [Z.ltb ?a ?b] |- _ => destruct (Z.ltb_spec a b)
  | H : context [Z.eqb ?a ?b] |- _ => destruct (Z.eqb_spec a b)
  | |- context [Z.leb ?a ?b] => destruct (Z.leb_spec a b)
  | |- context [Z.ltb ?a ?b] => destruct (Z.ltb_spec a b)
  | |- context [Z.eqb ?a ?b] => destruct (Z.eqb_spec a b)
  end.

(** Step through an option-monad computation known to return a value. *)
Ltac inv_bind :=
  repeat match goal with
  | H : mbind _ _ = Some _ |- _ =>
      apply bind_Some in H; let x := fresh "x" in let E := fresh "E" in
      destruct H as (x & E & H)
  end.

(** Discharge the arithmetic premises of the hypotheses with [lia]. *)
Ltac spec_lia :=
  repeat match goal with
  | H : ?A -> ?B |- _ =>
      match type of A with Prop => idtac end;
      let HA := fresh in assert A as HA by lia; specialize (H HA); clear HA
  end.
