(* ===== verification/Heap.v ===== *)
(** * The indexed binary heap

    [src/core/heap.cc] and [include/swoole_heap.h]: an array of pointers to
    [HeapNode] objects in heap order, each node holding its own position in the
    array so that it can be removed or re-prioritised from outside.  The nodes
    live in a store, because callers keep pointers to them. *)

From stdpp Require Import base list gmap.
From Stdlib Require Import Sorted.
From S2P Require Import Prelude.

#[local] Ltac Zify.zify_post_hook ::= Z.to_euclidean_division_equations.

Abbreviation loc := positive (only parsing).

Section heap.
Context {D : Type}.

(** [struct HeapNode] *)
Record HeapNode := mkNode { priority : Z; position : Z; data : D }.

(** [Heap::Type] *)
Inductive heap_type := MIN_HEAP | MAX_HEAP.

(** [class Heap]: [nodes] is the allocated array ([size] pointers, the ones at
    and after [num] being stale), [store] the heap nodes that are allocated. *)
Record Heap := mkHeap {
  num : Z;
  size : Z;
  type : heap_type;
  nodes : list (option loc);
  store : gmap loc HeapNode;
}.

Definition set_nodes (h : Heap) ns st := mkHeap (num h) (size h) (type h) ns st.
Definition set_num (h : Heap) n := mkHeap n (size h) (type h) (nodes h) (store h).

(** The macros [left] and [parent]. *)
Definition left (i : Z) : Z := u32 (Z.shiftl i 1).
Definition parent (i : Z) : Z := Z.shiftr i 1.

(** [Heap::Heap] *)
Definition heap_make (n : Z) (t : heap_type) : Heap :=
  mkHeap 1 (u32 (n + 1)) t (replicate (Z.to_nat (n + 1)) None) ∅.

(** [Heap::count] *)
Definition count (h : Heap) : Z := u32 (num h - 1).

(** [Heap::compare] *)
Definition compare (h : Heap) (a b : Z) : bool :=
  match type h with MIN_HEAP => b <? a | MAX_HEAP => a <? b end.

(** A read of [nodes[i]], and of the node it points to. *)
Definition node_at (h : Heap) (i : Z) : option loc := mjoin (zget (nodes h) i).
Definition deref (h : Heap) (l : loc) : option HeapNode := store h !! l.
Definition priority_at (h : Heap) (i : Z) : option Z :=
  l ← node_at h i; n ← deref h l; Some (priority n).

(** [nodes[i] = l; l->position = i] *)
Definition put_at (h : Heap) (i : Z) (l : loc) : option Heap :=
  ns ← zset (nodes h) i (Some l);
  n ← store h !! l;
  Some (set_nodes h ns (<[l := mkNode (priority n) i (data n)]> (store h))).

(** [Heap::maxchild] *)
Definition maxchild (h : Heap) (i : Z) : option Z :=
  let child_i := left i in
  if num h <=? child_i then Some 0 else
  p ← priority_at h child_i;
  if u32 (child_i + 1) <? num h then
    q ← priority_at h (u32 (child_i + 1));
    Some (if compare h p q then u32 (child_i + 1) else child_i)
  else Some child_i.

(** The loop of [Heap::bubble_up], its final store included. *)
Fixpoint bubble_up_loop (fuel : nat) (h : Heap) (i : Z) (moving_node : loc) (mp : Z)
    : option Heap :=
  match fuel with
  | O => None
  | S fuel =>
      if 1 <? i then
        pp ← priority_at h (parent i);
        if compare h pp mp then
          l ← node_at h (parent i);
          h' ← put_at h i l;
          bubble_up_loop fuel h' (parent i) moving_node mp
        else put_at h i moving_node
      else put_at h i moving_node
  end.

(** [Heap::bubble_up] *)
Definition bubble_up (h : Heap) (i : Z) : option Heap :=
  moving_node ← node_at h i;
  n ← deref h moving_node;
  bubble_up_loop (Z.to_nat (num h)) h i moving_node (priority n).

(** The loop of [Heap::percolate_down], its final store included. *)
Fixpoint percolate_down_loop (fuel : nat) (h : Heap) (i : Z) (moving_node : loc) (mp : Z)
    : option Heap :=
  match fuel with
  | O => None
  | S fuel =>
      child_i ← maxchild h i;
      if child_i =? 0 then put_at h i moving_node else
      cp ← priority_at h child_i;
      if compare h mp cp then
        l ← node_at h child_i;
        h' ← put_at h i l;
        percolate_down_loop fuel h' child_i moving_node mp
      else put_at h i moving_node
  end.

(** [Heap::percolate_down] *)
Definition percolate_down (h : Heap) (i : Z) : option Heap :=
  moving_node ← node_at h i;
  n ← deref h moving_node;
  percolate_down_loop (Z.to_nat (num h) + 1)%nat h i moving_node (priority n).

(** The growth step of [Heap::push]: [realloc_ok] is whether [sw_realloc]
    returned memory; the new tail of the array is uninitialised. *)
Definition grow (h : Heap) : Heap :=
  let newsize := u32 (size h * 2) in
  mkHeap (num h) newsize (type h)
    (take (Z.to_nat newsize) (nodes h ++ replicate (Z.to_nat (newsize - size h)) None))
    (store h).

(** [Heap::push]: [l] is the address [new HeapNode] returned; the result is the
    heap and the returned pointer ([None] for [nullptr]). *)
Definition push (h : Heap) (realloc_ok : bool) (l : loc) (prio : Z) (d : D)
    : option (Heap * option loc) :=
  if (size h <=? num h) && negb realloc_ok then Some (h, None) else
  let h := if size h <=? num h then grow h else h in
  let i := num h in
  ns ← zset (nodes h) i (Some l);
  let h := mkHeap (u32 (num h + 1)) (size h) (type h) ns
             (<[l := mkNode prio 0 d]> (store h)) in
  h' ← bubble_up h i;
  Some (h', Some l).

(** [Heap::change_priority] *)
Definition change_priority (h : Heap) (new_priority : Z) (l : loc) : option Heap :=
  n ← deref h l;
  let h := set_nodes h (nodes h) (<[l := mkNode new_priority (position n) (data n)]> (store h)) in
  if compare h (priority n) new_priority then bubble_up h (position n)
  else percolate_down h (position n).

(** [delete node] *)
Definition delete_node (h : Heap) (l : loc) : Heap :=
  set_nodes h (nodes h) (delete l (store h)).

(** [Heap::remove] *)
Definition remove (h : Heap) (l : loc) : option Heap :=
  n ← deref h l;
  let pos := position n in
  let last := u32 (num h - 1) in
  let h := set_num h last in
  if pos =? last then
    ns ← zset (nodes h) pos None;
    Some (delete_node (set_nodes h ns (store h)) l)
  else
    m ← node_at h last;
    ns ← zset (nodes h) pos (Some m);
    let h := set_nodes h ns (store h) in
    mn ← deref h m;
    h' ← (if compare h (priority n) (priority mn) then bubble_up h pos
          else percolate_down h pos);
    Some (delete_node h' l).

(** [Heap::pop]: the data of the head, [None] for [nullptr]. *)
Definition pop (h : Heap) : option (Heap * option D) :=
  if count h =? 0 then Some (h, None) else
  head ← node_at h 1;
  let h := set_num h (u32 (num h - 1)) in
  m ← node_at h (num h);
  ns ← zset (nodes h) 1 (Some m);
  h' ← percolate_down (set_nodes h ns (store h)) 1;
  n ← deref h' head;
  Some (delete_node h' head, Some (data n)).

(** [Heap::peek] *)
Definition peek (h : Heap) : option (option D) :=
  if num h =? 1 then Some None else
  match zget (nodes h) 1 with
  | None => None
  | Some None => Some None
  | Some (Some l) => n ← deref h l; Some (Some (data n))
  end.

(** [Heap::top] *)
Definition top (h : Heap) : option (option loc) :=
  if num h =? 1 then Some None else zget (nodes h) 1.

(** ** The representation invariant *)

(** Both kinds of heap are min-heaps of the keys. *)
Definition key (h : Heap) (p : Z) : Z := match type h with MIN_HEAP => p | MAX_HEAP => - p end.
Definition key_at (h : Heap) (i : Z) : Z := key h (default 0 (priority_at h i)).

(** What a caller sees: the live nodes with their priority and their data. *)
Definition contents (h : Heap) : gmap loc (Z * D) :=
  (fun n => (priority n, data n)) <$> store h.

(** Array and store agree except at the hole [i], where the array is about to
    receive [m], and except for the nodes of [X], which are about to be freed. *)
Record linked (X : gset loc) (h : Heap) (i : Z) (m : loc) : Prop := {
  lk_num : 1 <= num h <= size h;
  lk_len : zlen (nodes h) = size h;
  lk_size : size h <= 2 ^ 31;
  lk_hole : 1 <= i < num h;
  lk_moving : is_Some (store h !! m);
  lk_moving_X : m ∉ X;
  lk_at j : 1 <= j < num h -> j <> i -> exists l n,
    node_at h j = Some l /\ store h !! l = Some n /\ position n = j /\ l <> m /\ l ∉ X;
  lk_pos l n : store h !! l = Some n -> l <> m -> l ∉ X ->
    1 <= position n < num h /\ position n <> i /\ node_at h (position n) = Some l;
}.

(** The invariant of a heap between two operations ([X] is empty). *)
Record heap_wf_except (X : gset loc) (h : Heap) : Prop := {
  wf_num : 1 <= num h <= size h;
  wf_len : zlen (nodes h) = size h;
  wf_size : size h <= 2 ^ 31;
  wf_at j : 1 <= j < num h -> exists l n,
    node_at h j = Some l /\ store h !! l = Some n /\ position n = j /\ l ∉ X;
  wf_pos l n : store h !! l = Some n -> l ∉ X ->
    1 <= position n < num h /\ node_at h (position n) = Some l;
  wf_ord j : 2 <= j < num h -> key_at h (parent j) <= key_at h j;
}.
Definition heap_wf : Heap -> Prop := heap_wf_except ∅.

(** The key of position [j] once [mp] is in the hole [i]. *)
Definition vkey (h : Heap) (i mp j : Z) : Z := if decide (j = i) then key h mp else key_at h j.
End heap.

Arguments HeapNode : clear implicits.
Arguments Heap : clear implicits.

(** ** Heap order as a property of the keys alone *)

Lemma parent_div i : parent i = i / 2.
Proof. unfold parent. rewrite Z.shiftr_div_pow2 by lia. done. Qed.

Lemma left_double i : 0 <= i < 2 ^ 31 -> left i = 2 * i.
Proof.
  intros. unfold left. rewrite Z.shiftl_mul_pow2 by lia.
  rewrite uN_small; [lia|]. unfold fits. lia.
Qed.

Section order.
Implicit Types (v : Z -> Z) (n i j c : Z).

Definition ordered v n := forall j, 2 <= j < n -> v (j / 2) <= v j.
Definition bridged v n i :=
  forall c, 2 <= c < n -> c / 2 = i -> 2 <= i -> v (i / 2) <= v c.
(** Ordered but between [i] and its parent. *)
Definition up_ordered v n i :=
  (forall j, 2 <= j < n -> j <> i -> v (j / 2) <= v j) /\ bridged v n i.
(** Ordered but between [i] and its children. *)
Definition down_ordered v n i :=
  (forall j, 2 <= j < n -> j / 2 <> i -> v (j / 2) <= v j) /\ bridged v n i.
Definition swapped v v' i c :=
  forall j, v' j = if decide (j = i) then v c else if decide (j = c) then v i else v j.

Lemma up_step v v' n i :
  up_ordered v n i -> 2 <= i < n -> v i < v (i / 2) -> swapped v v' i (i / 2) ->
  up_ordered v' n (i / 2).
Proof.
  intros [Ho Hb] Hi Hlt Hs. split.
  - intros j Hj Hne. rewrite !Hs.
    pose proof (Ho j Hj) as Hoj. pose proof (Hb j Hj) as Hbj.
    destruct (decide (j / 2 = i)) as [Ej|]; [rewrite Ej in *|];
      repeat case_decide; subst; spec_lia; try lia.
    + replace (j / 2) with (i / 2) in * by lia. lia.
  - intros c Hc Hci Hi2. rewrite !Hs.
    pose proof (Ho c Hc) as Hoc. pose proof (Ho (i / 2)) as Hop.
    rewrite Hci in Hoc. repeat case_decide; subst; spec_lia; lia.
Qed.

Lemma up_done v n i :
  up_ordered v n i -> i <= 1 \/ v (i / 2) <= v i -> ordered v n.
Proof.
  intros [Ho _] He j Hj. destruct (decide (j = i)); [subst; lia|auto].
Qed.

Lemma down_step v v' n i c :
  down_ordered v n i -> 2 <= c < n -> c / 2 = i -> v c < v i ->
  (forall j, 2 <= j < n -> j / 2 = i -> v c <= v j) -> swapped v v' i c ->
  down_ordered v' n c.
Proof.
  intros [Ho Hb] Hc Hci Hlt Hmin Hs. split.
  - intros j Hj Hne. rewrite !Hs.
    pose proof (Ho j Hj) as Hoj. pose proof (Hmin j Hj) as Hmj.
    pose proof (Hb c Hc Hci) as Hbc.
    destruct (decide (j / 2 = i)) as [Ej|]; [rewrite Ej in *|];
      repeat case_decide; subst; spec_lia; try lia.
  - intros j Hj Hjc _. rewrite !Hs.
    pose proof (Ho j Hj) as Hoj. rewrite Hjc in Hoj.
    repeat case_decide; subst; spec_lia; try lia.
Qed.

Lemma down_done v n i :
  down_ordered v n i -> (forall j, 2 <= j < n -> j / 2 = i -> v i <= v j) -> ordered v n.
Proof.
  intros [Ho _] Hc j Hj. destruct (decide (j / 2 = i)) as [E|]; [rewrite E|]; auto.
Qed.

Lemma up_ordered_ext v v' n i :
  (forall j, 1 <= j < n -> v' j = v j) -> up_ordered v n i -> up_ordered v' n i.
Proof.
  intros E [Ho Hb]. split.
  - intros j Hj Hji. rewrite !E by lia. auto.
  - intros c Hc Hci Hi. rewrite !E by lia. auto.
Qed.

Lemma down_ordered_ext v v' n i :
  (forall j, 1 <= j < n -> v' j = v j) -> down_ordered v n i -> down_ordered v' n i.
Proof.
  intros E [Ho Hb]. split.
  - intros j Hj Hji. rewrite !E by lia. auto.
  - intros c Hc Hci Hi. rewrite !E by lia. auto.
Qed.

(** Lowering or raising one key of an ordered heap. *)
Lemma ordered_lower v v' n i :
  ordered v n -> v' i <= v i -> (forall j, 1 <= j < n -> j <> i -> v' j = v j) ->
  up_ordered v' n i.
Proof.
  intros Ho Hle E. split.
  - intros j Hj Hji. rewrite (E j) by lia. specialize (Ho j Hj).
    destruct (decide (j / 2 = i)) as [Hi|]; [rewrite Hi in *; lia|]. rewrite E by lia. lia.
  - intros c Hc Hci Hi. rewrite !E by lia. pose proof (Ho c Hc) as H1.
    specialize (Ho i). spec_lia. rewrite Hci in H1. lia.
Qed.

Lemma ordered_raise v v' n i :
  ordered v n -> v i <= v' i -> (forall j, 1 <= j < n -> j <> i -> v' j = v j) ->
  down_ordered v' n i.
Proof.
  intros Ho Hle E. split.
  - intros j Hj Hji. rewrite (E (j / 2)) by lia. specialize (Ho j Hj).
    destruct (decide (j = i)) as [->|]; [lia|]. rewrite E by lia. lia.
  - intros c Hc Hci Hi. rewrite !E by lia. pose proof (Ho c Hc) as H1.
    specialize (Ho i). spec_lia. rewrite Hci in H1. lia.
Qed.

Lemma ordered_root v n j : ordered v n -> 1 <= j < n -> v 1 <= v j.
Proof.
  intros Ho. induction (Z.lt_wf 0 j) as [j _ IH]. intros Hj.
  destruct (decide (j = 1)) as [->|]; [lia|].
  specialize (Ho j). specialize (IH (j / 2)). spec_lia. lia.
Qed.
End order.

Section heap_lemmas.
Context {D : Type}.
Implicit Types (h : Heap D) (l m : loc) (i j c p : Z) (X : gset loc).

(** Nothing a caller can see changed. *)
Definition same (h h' : Heap D) : Prop :=
  num h' = num h /\ size h' = size h /\ type h' = type h /\ contents h' = contents h.

Lemma same_refl h : same h h.
Proof. done. Qed.
Lemma same_trans h1 h2 h3 : same h1 h2 -> same h2 h3 -> same h1 h3.
Proof. unfold same. intuition congruence. Qed.

(** Nothing the keys depend on changed. *)
Definition alike (h h' : Heap D) : Prop := type h' = type h /\ contents h' = contents h.
Lemma same_alike h h' : same h h' -> alike h h'.
Proof. unfold same, alike. tauto. Qed.

Lemma compare_key h a b : compare h a b = (key h b <? key h a).
Proof. unfold compare, key. destruct (type h); [done|]. bool_cases; lia. Qed.

Lemma key_alike h h' p : alike h h' -> key h' p = key h p.
Proof. intros [Ht _]. unfold key. by rewrite Ht. Qed.

Lemma contents_lookup h l : contents h !! l = (fun n => (priority n, data n)) <$> store h !! l.
Proof. apply lookup_fmap. Qed.

Lemma priority_at_contents h j :
  priority_at h j = l ← node_at h j; fst <$> contents h !! l.
Proof.
  unfold priority_at, deref. destruct (node_at h j) as [l|]; [|done]. simpl.
  rewrite contents_lookup. by destruct (store h !! l).
Qed.

Lemma key_at_eq h i l n :
  node_at h i = Some l -> store h !! l = Some n -> key_at h i = key h (priority n).
Proof. intros Hl Hn. unfold key_at, priority_at, deref. by rewrite Hl; simpl; rewrite Hn. Qed.

Lemma priority_at_eq h i l n :
  node_at h i = Some l -> store h !! l = Some n -> priority_at h i = Some (priority n).
Proof. intros Hl Hn. unfold priority_at, deref. by rewrite Hl; simpl; rewrite Hn. Qed.

Lemma node_at_zset h ns st i j l :
  zset (nodes h) i (Some l) = Some ns ->
  node_at (set_nodes h ns st) j = if decide (i = j) then Some l else node_at h j.
Proof.
  intros Hs. unfold node_at. simpl. rewrite (zget_zset _ _ _ _ _ Hs).
  by case_decide.
Qed.

Lemma put_at_spec h i l n :
  0 <= i < zlen (nodes h) -> store h !! l = Some n ->
  exists ns, put_at h i l =
      Some (set_nodes h ns (<[l := mkNode (priority n) i (data n)]> (store h))) /\
    zset (nodes h) i (Some l) = Some ns.
Proof.
  intros Hi Hn. unfold put_at. rewrite (zset_in_bounds _ _ _ Hi). simpl.
  rewrite Hn. eauto.
Qed.

(** Moving a pointer keeps the priorities and the data. *)
Lemma put_at_same h ns i l n :
  store h !! l = Some n ->
  same h (set_nodes h ns (<[l := mkNode (priority n) i (data n)]> (store h))).
Proof.
  intros Hn. repeat split. unfold contents. simpl. rewrite fmap_insert. simpl.
  apply insert_id. by rewrite lookup_fmap, Hn.
Qed.


Lemma key_at_moved h h' j :
  alike h h' -> node_at h' j = node_at h j -> key_at h' j = key_at h j.
Proof.
  intros Ha Hn. unfold key_at. rewrite (key_alike h h') by done.
  destruct Ha as [_ Hc]. by rewrite !priority_at_contents, Hn, Hc.
Qed.

(** One iteration of either loop: the node at [c] moves into the hole [i],
    and the hole is now at [c]. *)
Lemma linked_step X h i m c mp l :
  linked X h i m -> 1 <= c < num h -> c <> i -> node_at h c = Some l ->
  exists h', put_at h i l = Some h' /\ linked X h' c m /\ same h h' /\
    swapped (vkey h i mp) (vkey h' c mp) i c.
Proof.
  intros HL Hc Hne Hl. destruct HL as [Hnum Hlen Hsz Hi Hm HmX Hat Hpos].
  destruct (Hat c Hc Hne) as (l' & n & Hl' & Hn & Hp & Hlm & HlX).
  rewrite Hl in Hl'. injection Hl' as <-.
  destruct (put_at_spec h i l n) as (ns & -> & Hs); [lia|done|].
  eexists; split; [done|]. pose proof (put_at_same h ns i l n Hn) as Hsame.
  set (h' := set_nodes _ _ _) in *.
  assert (Hnode : forall j, node_at h' j = if decide (i = j) then Some l else node_at h j)
    by (intros; by apply node_at_zset).
  assert (Hstore : store h' = <[l := mkNode (priority n) i (data n)]> (store h)) by done.
  split_and!; [split|done|].
  - done.
  - unfold h'. simpl. by rewrite (zset_length _ _ _ _ Hs).
  - done.
  - done.
  - rewrite Hstore, lookup_insert_ne by done. done.
  - done.
  - intros j Hj Hjc. rewrite Hnode, Hstore. case_decide as Hij.
    + subst j. exists l. eexists. by rewrite lookup_insert_eq.
    + destruct (Hat j) as (l2 & n2 & ? & ? & ? & ? & ?); [done|congruence|].
      exists l2, n2. rewrite lookup_insert_ne; [done|]. intros ->. congruence.
  - intros l2 n2. rewrite Hstore, lookup_insert. case_decide as Hl2; intros Hn2 Hl2m Hl2X.
    + subst l2. injection Hn2 as <-. simpl. rewrite Hnode, decide_True by done. done.
    + destruct (Hpos l2 n2) as (? & ? & ?); [done..|].
      rewrite Hnode, decide_False by congruence. split; [done|]. split; [|done].
      intros Hp2. rewrite Hp2 in *. congruence.
  - intros j. unfold vkey. rewrite (key_alike h h') by (by apply same_alike).
    destruct (decide (j = c)) as [->|Hjc].
    + rewrite decide_False, (decide_True (P := i = i)) by done. done.
    + destruct (decide (j = i)) as [->|Hji].
      * rewrite decide_False by done.
        rewrite (key_at_eq h' i l (mkNode (priority n) i (data n))),
          (key_at_eq h c l n) by (rewrite ?Hnode, ?Hstore, ?decide_True, ?lookup_insert_eq; done).
        done.
      * apply key_at_moved; [by auto using same_alike|]. by rewrite Hnode, decide_False by congruence.
Qed.

(** The end of either loop: the moving node is stored in the hole. *)
Lemma linked_done X h i m mp d :
  linked X h i m -> contents h !! m = Some (mp, d) -> ordered (vkey h i mp) (num h) ->
  exists h', put_at h i m = Some h' /\ heap_wf_except X h' /\ same h h'.
Proof.
  intros [Hnum Hlen Hsz Hi [mn Hm] HmX Hat Hpos] Hmc Ho.
  rewrite contents_lookup, Hm in Hmc. injection Hmc as Hmp Hmd.
  destruct (put_at_spec h i m mn) as (ns & -> & Hs); [lia|done|].
  eexists; split; [done|]. pose proof (put_at_same h ns i m mn Hm) as Hsame.
  set (h' := set_nodes _ _ _) in *.
  assert (Hnode : forall j, node_at h' j = if decide (i = j) then Some m else node_at h j)
    by (intros; by apply node_at_zset).
  assert (Hstore : store h' = <[m := mkNode (priority mn) i (data mn)]> (store h)) by done.
  split; [|done]. split.
  - done.
  - unfold h'. simpl. by rewrite (zset_length _ _ _ _ Hs).
  - done.
  - intros j Hj. rewrite Hnode, Hstore. case_decide as Hij.
    + subst j. exists m. eexists. by rewrite lookup_insert_eq.
    + destruct (Hat j) as (l2 & n2 & ? & ? & ? & ? & ?); [done|congruence|].
      exists l2, n2. by rewrite lookup_insert_ne.
  - intros l2 n2. rewrite Hstore, lookup_insert. case_decide as Hl2; intros Hn2 Hl2X.
    + subst l2. injection Hn2 as <-. simpl. rewrite Hnode, decide_True by done. done.
    + destruct (Hpos l2 n2) as (? & ? & ?); [done..|].
      by rewrite Hnode, decide_False by congruence.
  - intros j Hj. rewrite parent_div.
    assert (Hk : forall k, key_at h' k = vkey h i mp k).
    { intros k. unfold vkey. case_decide as Hk; [subst k|].
      - rewrite (key_at_eq h' i m (mkNode (priority mn) i (data mn)))
          by (rewrite ?Hnode, ?Hstore, ?decide_True, ?lookup_insert_eq; done).
        rewrite (key_alike h h') by (by apply same_alike). by subst mp.
      - apply key_at_moved; [by auto using same_alike|]. by rewrite Hnode, decide_False by congruence. }
    rewrite !Hk. apply Ho. done.
Qed.

Lemma linked_key_at X h i m mp j :
  linked X h i m -> 1 <= j < num h -> j <> i ->
  exists l p, node_at h j = Some l /\ priority_at h j = Some p /\ vkey h i mp j = key h p.
Proof.
  intros HL Hj Hji. destruct (lk_at _ _ _ _ HL j Hj Hji) as (l & n & Hl & Hn & _).
  exists l, (priority n). split_and!; [done|by eapply priority_at_eq|].
  unfold vkey. rewrite decide_False by done. by eapply key_at_eq.
Qed.

Lemma bubble_up_loop_spec fuel X h i m mp d :
  i <= Z.of_nat fuel -> linked X h i m -> contents h !! m = Some (mp, d) ->
  up_ordered (vkey h i mp) (num h) i ->
  exists h', bubble_up_loop fuel h i m mp = Some h' /\ heap_wf_except X h' /\ same h h'.
Proof.
  revert h i. induction fuel as [|fuel IH]; intros h i Hf HL Hm Hup;
    pose proof (lk_hole _ _ _ _ HL) as Hi; [lia|].
  cbn [bubble_up_loop]. destruct (Z.ltb_spec 1 i) as [Hi1|Hi1]; cycle 1.
  { eapply linked_done; [done..|]. eapply up_done; [done|lia]. }
  rewrite parent_div.
  destruct (linked_key_at X h i m mp (i / 2)) as (l & p & Hl & Hp & Hv); [done|lia..|].
  rewrite Hp. simpl. rewrite compare_key.
  destruct (Z.ltb_spec (key h mp) (key h p)) as [Hlt|Hle].
  - rewrite Hl. simpl.
    destruct (linked_step X h i m (i / 2) mp l) as (h' & -> & HL' & Hs & Hsw); [done|lia|lia|done|].
    simpl. destruct (IH h' (i / 2)) as (h2 & Hb & Hwf & Hs2); [lia|done| | |].
    + destruct Hs as (_ & _ & _ & ->). done.
    + replace (num h') with (num h) by (symmetry; apply Hs).
      eapply up_step; [done|lia| |done].
      rewrite Hv. unfold vkey. rewrite decide_True by done. done.
    + exists h2. eauto using same_trans.
  - eapply linked_done; [done..|]. eapply up_done; [done|]. right.
    rewrite Hv. unfold vkey. rewrite decide_True by done. done.
Qed.

Lemma maxchild_spec X h i m mp :
  linked X h i m -> exists c, maxchild h i = Some c /\
    (c = 0 /\ num h <= 2 * i \/
     2 <= c < num h /\ c / 2 = i /\
     forall j, 2 <= j < num h -> j / 2 = i -> vkey h i mp c <= vkey h i mp j).
Proof.
  intros HL. pose proof (lk_hole _ _ _ _ HL). pose proof (lk_num _ _ _ _ HL).
  pose proof (lk_size _ _ _ _ HL).
  unfold maxchild. rewrite left_double by lia.
  destruct (Z.leb_spec (num h) (2 * i)); [eauto|].
  rewrite uN_small by (unfold fits; lia).
  destruct (linked_key_at X h i m mp (2 * i)) as (l & p & Hl & Hp & Hv); [done|lia..|].
  rewrite Hp. simpl. destruct (Z.ltb_spec (2 * i + 1) (num h)).
  - destruct (linked_key_at X h i m mp (2 * i + 1)) as (l' & p' & Hl' & Hp' & Hv');
      [done|lia..|].
    rewrite Hp'. simpl. eexists. split; [done|]. right. rewrite compare_key.
    destruct (Z.ltb_spec (key h p') (key h p)); (split; [lia|]); (split; [lia|]);
      intros j Hj Hji; (assert (j = 2 * i \/ j = 2 * i + 1) as [->| ->] by lia); lia.
  - eexists. split; [done|]. right. split; [lia|]. split; [lia|].
    intros j Hj Hji. assert (j = 2 * i) as -> by lia. done.
Qed.

Lemma percolate_down_loop_spec fuel X h i m mp d :
  num h - i <= Z.of_nat fuel -> linked X h i m -> contents h !! m = Some (mp, d) ->
  down_ordered (vkey h i mp) (num h) i ->
  exists h', percolate_down_loop fuel h i m mp = Some h' /\ heap_wf_except X h' /\ same h h'.
Proof.
  revert h i. induction fuel as [|fuel IH]; intros h i Hf HL Hm Hdn;
    pose proof (lk_hole _ _ _ _ HL) as Hi; [lia|].
  cbn [percolate_down_loop].
  assert (Hvi : vkey h i mp i = key h mp) by (unfold vkey; by rewrite decide_True).
  destruct (maxchild_spec X h i m mp HL) as (c & -> & [[-> Hn]|(Hc & Hci & Hmin)]).
  { simpl. eapply linked_done; [done..|]. eapply down_done; [done|]. intros; lia. }
  simpl. destruct (Z.eqb_spec c 0); [lia|].
  destruct (linked_key_at X h i m mp c) as (l & p & Hl & Hp & Hv); [done|lia..|].
  rewrite Hp. simpl. rewrite compare_key.
  destruct (Z.ltb_spec (key h p) (key h mp)) as [Hlt|Hle].
  - rewrite Hl. simpl.
    destruct (linked_step X h i m c mp l) as (h' & -> & HL' & Hs & Hsw); [done|lia|lia|done|].
    simpl. pose proof (proj1 Hs) as Hn.
    destruct (IH h' c) as (h2 & Hb & Hwf & Hs2); [lia|done| | |].
    + destruct Hs as (_ & _ & _ & ->). done.
    + rewrite Hn. eapply down_step; [done|done|done| |done|done]. lia.
    + exists h2. eauto using same_trans.
  - eapply linked_done; [done..|]. eapply down_done; [done|].
    intros j Hj Hji. specialize (Hmin j Hj Hji). lia.
Qed.

(** [bubble_up] and [percolate_down] when the only misplaced node is the one
    they are called on. *)
Lemma bubble_up_spec X h i m mp d :
  linked X h i m -> node_at h i = Some m -> contents h !! m = Some (mp, d) ->
  up_ordered (vkey h i mp) (num h) i ->
  exists h', bubble_up h i = Some h' /\ heap_wf_except X h' /\ same h h'.
Proof.
  intros HL Hi Hm Hup. pose proof (lk_hole _ _ _ _ HL).
  unfold bubble_up, deref. rewrite Hi. simpl.
  pose proof Hm as Hm'. rewrite contents_lookup in Hm'.
  destruct (store h !! m) as [mn|]; [|done]. injection Hm' as Hp Hd. simpl. rewrite Hp.
  eapply bubble_up_loop_spec; [lia|done..].
Qed.

Lemma percolate_down_spec X h i m mp d :
  linked X h i m -> node_at h i = Some m -> contents h !! m = Some (mp, d) ->
  down_ordered (vkey h i mp) (num h) i ->
  exists h', percolate_down h i = Some h' /\ heap_wf_except X h' /\ same h h'.
Proof.
  intros HL Hi Hm Hup. pose proof (lk_hole _ _ _ _ HL).
  unfold percolate_down, deref. rewrite Hi. simpl.
  pose proof Hm as Hm'. rewrite contents_lookup in Hm'.
  destruct (store h !! m) as [mn|]; [|done]. injection Hm' as Hp Hd. simpl. rewrite Hp.
  eapply percolate_down_loop_spec; [lia|done..].
Qed.

(** ** From the invariant to a hole and back *)

Lemma wf_ordered X h : heap_wf_except X h -> ordered (key_at h) (num h).
Proof. intros Hwf j Hj. rewrite <- parent_div. by apply (wf_ord _ _ Hwf). Qed.

Lemma wf_linked X h l n :
  heap_wf_except X h -> store h !! l = Some n -> l ∉ X ->
  linked X h (position n) l /\ node_at h (position n) = Some l.
Proof.
  intros [Hnum Hlen Hsz Hat Hpos _] Hn HX. destruct (Hpos l n Hn HX) as [Hp Hl].
  split; [|done]. split; [done|done|done|done|eauto|done|..].
  - intros j Hj Hne. destruct (Hat j Hj) as (l' & n' & ? & ? & ? & ?).
    exists l', n'. split_and!; try done. intros ->. congruence.
  - intros l' n' Hn' Hne HX'. destruct (Hpos l' n' Hn' HX') as [? ?].
    split; [done|]. split; [|done]. intros E. rewrite E in *. congruence.
Qed.

Lemma wf_deleted l h :
  heap_wf_except {[l]} h -> heap_wf (delete_node h l).
Proof.
  intros [Hnum Hlen Hsz Hat Hpos Hord].
  assert (Hk : forall j, 1 <= j < num h -> key_at (delete_node h l) j = key_at h j).
  { intros j Hj. destruct (Hat j Hj) as (l' & n' & Hl' & Hn' & _ & HX).
    rewrite (key_at_eq h j l' n'), (key_at_eq (delete_node h l) j l' n'); try done.
    simpl. rewrite lookup_delete_ne; [done|set_solver]. }
  split; [done|done|done|..].
  - intros j Hj. destruct (Hat j Hj) as (l' & n' & Hl' & Hn' & Hp & HX).
    exists l', n'. split_and!; [done| |done|set_solver]. simpl.
    rewrite lookup_delete_ne; [done|set_solver].
  - intros l' n'. simpl. rewrite lookup_delete_Some. intros [Hne Hn'] _.
    apply Hpos; [done|set_solver].
  - intros j Hj. simpl in Hj. rewrite !Hk by (rewrite ?parent_div; lia). by apply Hord.
Qed.

(** The last node takes the place of the removed node [l]. *)
Lemma wf_replace h l n m ns :
  heap_wf h -> store h !! l = Some n -> position n <> num h - 1 ->
  node_at h (num h - 1) = Some m -> zset (nodes h) (position n) (Some m) = Some ns ->
  let h' := set_nodes (set_num h (num h - 1)) ns (store h) in
  linked {[l]} h' (position n) m /\ node_at h' (position n) = Some m /\
  forall j p, 1 <= j < num h' -> j <> position n -> vkey h' (position n) p j = key_at h j.
Proof.
  intros Hwf Hn Hne Hm Hs h'. destruct Hwf as [Hnum Hlen Hsz Hat Hpos Hord].
  destruct (Hpos l n Hn) as [Hp Hl]; [set_solver|].
  destruct (Hat (num h - 1)) as (m' & mn & Hm' & Hmn & Hmp & _); [lia|].
  rewrite Hm in Hm'. injection Hm' as <-.
  assert (Hml : m <> l) by (intros ->; congruence).
  assert (Hnode : forall j, node_at h' j = if decide (position n = j) then Some m else node_at h j)
    by (intros; by apply (node_at_zset (set_num h (num h - 1)))).
  split_and!; [|by rewrite Hnode, decide_True|].
  - split; simpl; [lia| |done|lia|eauto|set_solver|..].
    + by rewrite (zset_length _ _ _ _ Hs).
    + intros j Hj Hji. rewrite Hnode, decide_False by congruence.
      destruct (Hat j) as (l' & n' & ? & ? & ? & _); [lia|].
      exists l', n'. split_and!; try done.
      * intros ->. assert (n' = mn) as -> by congruence. lia.
      * intros ->%elem_of_singleton. assert (n' = n) as -> by congruence. lia.
    + intros l' n' Hn' Hl'm Hl'X. destruct (Hpos l' n' Hn') as [? Hn2]; [set_solver|].
      assert (position n' <> num h - 1) by (intros E; rewrite E in *; congruence).
      assert (position n' <> position n)
        by (intros E; rewrite E in *; assert (l' = l) by congruence; set_solver).
      rewrite Hnode, decide_False by congruence. split; [lia|done].
  - intros j p Hj Hji. unfold vkey. rewrite decide_False by done.
    apply key_at_moved; [done|]. by rewrite Hnode, decide_False by congruence.
Qed.

Lemma wf_contents_key h l p d :
  heap_wf h -> contents h !! l = Some (p, d) ->
  exists n, store h !! l = Some n /\ priority n = p /\ data n = d /\
    key_at h (position n) = key h p /\ 1 <= position n < num h /\
    node_at h (position n) = Some l.
Proof.
  intros Hwf Hc. rewrite contents_lookup in Hc.
  destruct (store h !! l) as [n|] eqn:Hn; [|done]. injection Hc as <- <-.
  destruct (wf_pos _ _ Hwf l n Hn) as [Hp Hl]; [set_solver|].
  exists n. split_and!; try done; try lia. by eapply key_at_eq.
Qed.

Lemma contents_delete h l : contents (delete_node h l) = delete l (contents h).
Proof. unfold contents. simpl. by rewrite fmap_delete. Qed.
End heap_lemmas.

(** ** Correctness of the operations *)

Section heap_operations.
Context {D : Type}.
Implicit Types (h : Heap D) (l : loc) (p : Z) (d : D).

Lemma grow_wf h :
  heap_wf h -> num h < 2 ^ 30 -> size h <= num h ->
  heap_wf (grow h) /\ num h < size (grow h) /\ alike h (grow h) /\ store (grow h) = store h.
Proof.
  intros Hwf Hn Hs. pose proof (wf_num _ _ Hwf). pose proof (wf_len _ _ Hwf) as Hlen.
  assert (Hsz : u32 (size h * 2) = size h * 2) by (apply uN_small; unfold fits; lia).
  assert (Hns : nodes (grow h) = nodes h ++ replicate (Z.to_nat (size h)) None).
  { unfold grow. simpl. rewrite Hsz.
    replace (size h * 2 - size h) with (size h) by lia.
    apply take_ge. rewrite length_app, length_replicate. lia. }
  assert (Hnode : forall j, j < num h -> node_at (grow h) j = node_at h j).
  { intros j Hj. unfold node_at. rewrite Hns, zget_app_l by lia. done. }
  split_and!; [|unfold grow; simpl; rewrite Hsz; lia|done|done].
  destruct Hwf as [_ _ _ Hat Hpos Hord].
  assert (Hk : forall j, j < num h -> key_at (grow h) j = key_at h j).
  { intros j Hj. apply key_at_moved; [done|auto]. }
  split.
  - unfold grow; simpl. rewrite Hsz. lia.
  - rewrite Hns, length_app, length_replicate. unfold grow; simpl. rewrite Hsz. lia.
  - unfold grow; simpl. rewrite Hsz. lia.
  - intros j Hj. simpl in Hj. rewrite Hnode by lia. auto.
  - intros l n Hl HX. destruct (Hpos l n Hl HX) as [? ?]. simpl.
    by rewrite Hnode by lia.
  - intros j Hj. simpl in Hj. rewrite parent_div, !Hk by lia. rewrite <- parent_div. auto.
Qed.

(** A fresh node appended behind the last one is the hole of [bubble_up]. *)
Lemma append_linked h l p d ns :
  heap_wf h -> num h < size h -> store h !! l = None -> zset (nodes h) (num h) (Some l) = Some ns ->
  let h' := mkHeap (num h + 1) (size h) (type h) ns (<[l := mkNode p 0 d]> (store h)) in
  linked ∅ h' (num h) l /\ node_at h' (num h) = Some l /\
  up_ordered (vkey h' (num h) p) (num h') (num h).
Proof.
  intros [Hnum Hlen Hsz Hat Hpos Hord] Hlt Hl Hs h'.
  assert (Hnode : forall j, node_at h' j = if decide (num h = j) then Some l else node_at h j).
  { intros. unfold node_at, h'. simpl. rewrite (zget_zset _ _ _ _ _ Hs). by case_decide. }
  assert (Hk : forall j, 1 <= j < num h -> key_at h' j = key_at h j).
  { intros j Hj. destruct (Hat j Hj) as (l' & n' & Hl' & Hn' & _).
    rewrite (key_at_eq h j l' n'), (key_at_eq h' j l' n'); try done.
    - by rewrite Hnode, decide_False by lia.
    - simpl. rewrite lookup_insert_ne; [done|congruence]. }
  split_and!; [|by rewrite Hnode, decide_True|].
  - split; simpl; [lia| |done|lia| |set_solver|..].
    + by rewrite (zset_length _ _ _ _ Hs).
    + rewrite lookup_insert_eq. eauto.
    + intros j Hj Hne. destruct (Hat j) as (l' & n' & ? & ? & ? & ?); [lia|].
      exists l', n'. rewrite Hnode, decide_False by done.
      rewrite lookup_insert_ne by congruence. split_and!; try done. congruence.
    + intros l' n' Hn' Hne HX. rewrite lookup_insert_ne in Hn' by done.
      destruct (Hpos l' n' Hn' HX). rewrite Hnode, decide_False by lia. split; [lia|split;[lia|done]].
  - split.
    + intros j Hj Hne. simpl in Hj. unfold vkey. rewrite !decide_False by lia.
      rewrite !Hk by lia. rewrite <- parent_div. apply Hord. lia.
    + intros c Hc Hcn. simpl in Hc. lia.
Qed.

Lemma append_bubbles h l p d :
  heap_wf h -> num h < size h -> num h < 2 ^ 30 -> store h !! l = None ->
  exists ns h', zset (nodes h) (num h) (Some l) = Some ns /\
    bubble_up (mkHeap (u32 (num h + 1)) (size h) (type h) ns
                 (<[l := mkNode p 0 d]> (store h))) (num h) = Some h' /\
    heap_wf h' /\ contents h' = <[l := (p, d)]> (contents h) /\
    num h' = num h + 1 /\ type h' = type h.
Proof.
  intros Hwf Hlt Hn Hl. pose proof (wf_len _ _ Hwf). pose proof (wf_num _ _ Hwf).
  assert (Hs : zset (nodes h) (num h) (Some l) = Some (<[Z.to_nat (num h) := Some l]> (nodes h)))
    by (apply zset_in_bounds; lia).
  eexists. rewrite uN_small by (unfold fits; lia).
  destruct (append_linked h l p d _ Hwf Hlt Hl Hs) as (HL & Hnd & Hup). rewrite Hs. clear Hs.
  destruct (bubble_up_spec ∅ _ (num h) l p d HL Hnd) as (h' & Hb & Hwf' & Hs); [|done|].
  { by rewrite contents_lookup; simpl; rewrite lookup_insert_eq. }
  exists h'. split; [done|]. split; [exact Hb|]. split; [done|].
  destruct Hs as (Hn' & _ & Ht' & Hc'). simpl in *. rewrite Hc'. split; [|done].
  unfold contents. simpl. by rewrite fmap_insert.
Qed.

(** [Heap::push] adds exactly the new node (priority and data) to the
    contents, whether or not the array had to be reallocated, keeps the heap
    invariant (so that every node still knows its own position), and returns
    the node it added. *)
Lemma push_spec h realloc_ok l p d :
  heap_wf h -> num h < 2 ^ 30 -> store h !! l = None ->
  num h < size h \/ realloc_ok = true ->
  exists h', push h realloc_ok l p d = Some (h', Some l) /\ heap_wf h' /\
    contents h' = <[l := (p, d)]> (contents h) /\ num h' = num h + 1 /\ type h' = type h.
Proof.
  intros Hwf Hn Hl Hok. unfold push.
  assert (exists h1, (if size h <=? num h then grow h else h) = h1 /\ heap_wf h1 /\
            num h1 < size h1 /\ num h1 = num h /\ alike h h1 /\ store h1 = store h)
    as (h1 & -> & Hwf1 & Hlt & Hnum & Hal & Hst).
  { destruct (Z.leb_spec (size h) (num h)); [|unfold alike; by eauto 12].
    destruct (grow_wf h) as (? & ? & ? & ?); [done..|]. eauto 10. }
  destruct (append_bubbles h1 l p d) as (ns & h' & -> & Hb & Hwf' & Hc' & Hn' & Ht');
    [done|lia|lia|by rewrite Hst|].
  assert (Hskip : (size h <=? num h) && negb realloc_ok = false)
    by (destruct Hok as [| ->]; [bool_cases; simpl; lia|apply andb_false_r]).
  rewrite Hskip. cbn [mbind option_bind]. rewrite Hb. simpl.
  exists h'. rewrite Hc', Hn', Ht', Hnum, (proj1 Hal), (proj2 Hal). done.
Qed.

(** [Heap::change_priority] on any live node re-establishes the heap
    order, whichever direction the priority moved, and changes nothing but
    that node's priority. *)
Lemma change_priority_spec h l p p' d :
  heap_wf h -> contents h !! l = Some (p, d) ->
  exists h', change_priority h p' l = Some h' /\ heap_wf h' /\
    contents h' = <[l := (p', d)]> (contents h) /\ num h' = num h /\ type h' = type h.
Proof.
  intros Hwf Hc. destruct (wf_contents_key h l p d Hwf Hc)
    as (n & Hn & Hp & Hd & Hk & Hpos & Hnode).
  unfold change_priority, deref. rewrite Hn. cbn [mbind option_bind].
  set (h1 := set_nodes h (nodes h) _).
  destruct (wf_linked ∅ h l n) as [HL _]; [done|done|set_solver|].
  assert (HL1 : linked ∅ h1 (position n) l).
  { destruct HL as [? ? ? ? ? ? Hat1 Hpos1]. split; try done.
    - simpl. rewrite lookup_insert_eq. eauto.
    - intros j Hj Hne. destruct (Hat1 j Hj Hne) as (l' & n' & ? & ? & ? & ? & ?).
      exists l', n'. split_and!; try done. simpl. by rewrite lookup_insert_ne.
    - intros l' n'. simpl. intros Hn' Hne HX. rewrite lookup_insert_ne in Hn' by done.
      by apply Hpos1. }
  assert (Hc1 : contents h1 !! l = Some (p', d)).
  { rewrite contents_lookup. simpl. by rewrite lookup_insert_eq; simpl; rewrite Hd. }
  assert (Hv : forall j, 1 <= j < num h -> j <> position n ->
            vkey h1 (position n) p' j = key_at h j).
  { intros j Hj Hne. unfold vkey. rewrite decide_False by done.
    destruct (lk_at _ _ _ _ HL j Hj Hne) as (l' & n' & ? & ? & ? & ? & ?).
    rewrite (key_at_eq h j l' n'), (key_at_eq h1 j l' n'); try done.
    simpl. by rewrite lookup_insert_ne. }
  assert (Hvp : vkey h1 (position n) p' (position n) = key h p')
    by (unfold vkey; by rewrite decide_True).
  assert (Hcont : contents h1 = <[l := (p', d)]> (contents h)).
  { unfold contents, h1. simpl. by rewrite fmap_insert; simpl; rewrite Hd. }
  pose proof (wf_ordered _ _ Hwf) as Ho.
  change (compare h1 (priority n) p') with (compare h (priority n) p').
  rewrite compare_key, Hp. destruct (Z.ltb_spec (key h p') (key h p)).
  - destruct (bubble_up_spec ∅ h1 (position n) l p' d HL1 Hnode Hc1)
      as (h' & -> & Hwf' & Hnum' & _ & Ht' & Hc').
    { eapply ordered_lower; [done| |done]. rewrite Hvp, Hk. lia. }
    exists h'. by rewrite Hc', Hcont.
  - destruct (percolate_down_spec ∅ h1 (position n) l p' d HL1 Hnode Hc1)
      as (h' & -> & Hwf' & Hnum' & _ & Ht' & Hc').
    { eapply ordered_raise; [done| |done]. rewrite Hvp, Hk. lia. }
    exists h'. by rewrite Hc', Hcont.
Qed.

(** What replacing [l] by the last node and re-sifting establishes. *)
Definition removed (h : Heap D) (l : loc) (h' : Heap D) : Prop :=
  heap_wf h' /\ contents h' = delete l (contents h) /\ num h' = num h - 1 /\ type h' = type h.

(** Dropping the last node, once the rest of the array is unchanged. *)
Lemma last_removed h h1 l n :
  heap_wf h -> store h !! l = Some n -> position n = num h - 1 ->
  num h1 = num h - 1 -> size h1 = size h -> zlen (nodes h1) = size h -> alike h h1 ->
  delete l (store h1) = delete l (store h) ->
  (forall j, j < num h - 1 -> node_at h1 j = node_at h j) ->
  removed h l (delete_node h1 l).
Proof.
  intros [Hnum Hlen Hsz Hat Hpos Hord] Hn Hlast Hn1 Hsz1 Hlen1 Hal Hst Hnode.
  destruct (Hpos l n Hn) as [Hpl Hl]; [set_solver|].
  split; [|by rewrite contents_delete, (proj2 Hal); simpl; rewrite (proj1 Hal)].
  assert (Hk : forall j, 1 <= j < num h - 1 -> key_at (delete_node h1 l) j = key_at h j).
  { intros j Hj. destruct (Hat j) as (l' & n' & Hl' & Hn' & Hp' & _); [lia|].
    rewrite (key_at_eq h j l' n'), (key_at_eq _ j l' n'); try done.
    - apply (key_alike h h1); done.
    - by rewrite <- Hnode in Hl' by lia.
    - simpl. rewrite Hst, lookup_delete_ne; [done|]. intros ->. assert (n' = n) as -> by congruence. lia. }
  split; simpl.
  - lia.
  - lia.
  - lia.
  - intros j Hj. destruct (Hat j) as (l' & n' & ? & ? & ? & ?); [lia|].
    exists l', n'. split_and!; [by rewrite <- Hnode in * by lia| |done|set_solver].
    rewrite Hst, lookup_delete_ne; [done|]. intros ->. assert (n' = n) as -> by congruence. lia.
  - intros l' n' Hn' _. rewrite Hst, lookup_delete_Some in Hn'. destruct Hn' as [Hne Hn'].
    destruct (Hpos l' n' Hn') as [? Hn2]; [set_solver|].
    assert (position n' <> num h - 1).
    { intros E. rewrite E, <- Hlast in *. congruence. }
    split; [lia|]. by rewrite <- Hnode in Hn2 by lia.
  - intros j Hj. rewrite parent_div, !Hk by lia. rewrite <- parent_div. apply Hord. lia.
Qed.

(** Moving the last node over [l] and sifting it in the right direction. *)
Lemma resift_removed h l n :
  heap_wf h -> store h !! l = Some n -> position n <> num h - 1 ->
  exists m mn ns, node_at h (num h - 1) = Some m /\ store h !! m = Some mn /\
    zset (nodes h) (position n) (Some m) = Some ns /\
    let h1 := set_nodes (set_num h (num h - 1)) ns (store h) in
    (key h (priority mn) <= key h (priority n) ->
      exists h', bubble_up h1 (position n) = Some h' /\ same h1 h' /\
        removed h l (delete_node h' l)) /\
    (key h (priority n) <= key h (priority mn) ->
      exists h', percolate_down h1 (position n) = Some h' /\ same h1 h' /\
        removed h l (delete_node h' l)).
Proof.
  intros Hwf Hn Hne. pose proof (wf_len _ _ Hwf).
  destruct (wf_linked ∅ h l n) as [HLl Hnode]; [done|done|set_solver|].
  pose proof (lk_hole _ _ _ _ HLl) as Hpos. pose proof (wf_num _ _ Hwf).
  destruct (wf_at _ _ Hwf (num h - 1)) as (m & mn & Hm & Hmn & Hmp & _); [lia|].
  destruct (zget_in_bounds (nodes h) (position n)) as [? _]; [lia|].
  assert (exists ns, zset (nodes h) (position n) (Some m) = Some ns) as [ns Hs]
    by (rewrite zset_in_bounds by lia; eauto).
  exists m, mn, ns. do 3 (split; [done|]). intros h1.
  destruct (wf_replace h l n m ns Hwf Hn Hne Hm Hs) as (HL & Hnd & Hv).
  fold h1 in HL, Hnd, Hv.
  assert (Hcm : contents h1 !! m = Some (priority mn, data mn))
    by (rewrite contents_lookup; change (store h1) with (store h); by rewrite Hmn).
  assert (Hk : key_at h (position n) = key h (priority n)) by (by eapply key_at_eq).
  assert (Hvp : vkey h1 (position n) (priority mn) (position n) = key h (priority mn))
    by (unfold vkey; by rewrite decide_True).
  assert (Ho : ordered (key_at h) (num h1)).
  { intros j Hj. apply (wf_ordered _ _ Hwf). simpl in Hj. lia. }
  assert (Hdone : forall h', heap_wf_except {[l]} h' -> same h1 h' ->
            removed h l (delete_node h' l)).
  { intros h' Hwf' (Hn' & _ & Ht' & Hc'). split; [by apply wf_deleted|].
    rewrite contents_delete, Hc'. split; [done|]. by simpl; rewrite Hn', Ht'. }
  split; intros Hle.
  - destruct (bubble_up_spec {[l]} h1 (position n) m (priority mn) (data mn) HL Hnd Hcm)
      as (h' & Hb & Hwf' & Hsame); [|by eauto 10].
    eapply ordered_lower; [done|lia|]. eauto.
  - destruct (percolate_down_spec {[l]} h1 (position n) m (priority mn) (data mn) HL Hnd Hcm)
      as (h' & Hb & Hwf' & Hsame); [|by eauto 10].
    eapply ordered_raise; [done|lia|]. eauto.
Qed.

(** [Heap::remove] takes any live node out of the heap, wherever it is
    in the array, keeps the invariant, and loses no other node. *)
Lemma remove_spec h l p d :
  heap_wf h -> contents h !! l = Some (p, d) ->
  exists h', remove h l = Some h' /\ removed h l h'.
Proof.
  intros Hwf Hc. destruct (wf_contents_key h l p d Hwf Hc)
    as (n & Hn & Hp & Hd & Hk & Hpos & Hnode).
  pose proof (wf_len _ _ Hwf). pose proof (wf_num _ _ Hwf). pose proof (wf_size _ _ Hwf).
  unfold remove, deref. rewrite Hn. cbn [mbind option_bind].
  rewrite uN_small by (unfold fits; lia).
  destruct (Z.eqb_spec (position n) (num h - 1)) as [Hlast|Hne].
  - cbn [nodes set_num]. rewrite zset_in_bounds by lia. eexists. split; [done|].
    eapply last_removed; try done; simpl; [by rewrite length_insert|].
    intros j Hj. unfold node_at. simpl.
    erewrite zget_zset_ne; [done|apply zset_in_bounds; lia|lia].
  - destruct (resift_removed h l n Hwf Hn Hne) as (m & mn & ns & Hm & Hmn & Hs & Hup & Hdown).
    change (node_at (set_num h (num h - 1)) (num h - 1)) with (node_at h (num h - 1)).
    rewrite Hm. cbn [mbind option_bind nodes store set_num]. rewrite Hs.
    cbn [mbind option_bind store set_nodes]. rewrite Hmn. cbn [mbind option_bind].
    set (h1 := set_nodes _ _ _) in *.
    change (compare h1 (priority n) (priority mn)) with (compare h (priority n) (priority mn)).
    rewrite compare_key. destruct (Z.ltb_spec (key h (priority mn)) (key h (priority n))).
    + destruct Hup as (h' & -> & _ & ?); [lia|]. simpl. eauto.
    + destruct Hdown as (h' & -> & _ & ?); [lia|]. simpl. eauto.
Qed.

(** The root holds an extremal priority. *)
Lemma root_extremal h l p d l' p' d' :
  heap_wf h -> node_at h 1 = Some l -> contents h !! l = Some (p, d) ->
  contents h !! l' = Some (p', d') -> compare h p p' = false.
Proof.
  intros Hwf Hl Hc Hc'. rewrite compare_key.
  destruct (wf_contents_key h l p d Hwf Hc) as (n & Hn & _ & _ & Hk & Hp & Hnd).
  destruct (wf_contents_key h l' p' d' Hwf Hc') as (n' & _ & _ & _ & Hk' & Hp' & _).
  assert (Hpos : position n = 1).
  { destruct (wf_at _ _ Hwf 1) as (l2 & n2 & Hl2 & Hn2 & Hp2 & _); [lia|]. congruence. }
  rewrite Hpos in Hk. pose proof (ordered_root _ _ _ (wf_ordered _ _ Hwf) Hp').
  bool_cases; [lia|done].
Qed.

Lemma percolate_down_last h l n :
  num h = 1 -> node_at h 1 = Some l -> store h !! l = Some n ->
  percolate_down h 1 = put_at h 1 l.
Proof.
  intros H1 Hl Hn. unfold percolate_down, deref. rewrite Hl. cbn [mbind option_bind].
  rewrite Hn. cbn [mbind option_bind]. rewrite H1.
  change (Z.to_nat 1 + 1)%nat with 2%nat. cbn [percolate_down_loop].
  unfold maxchild. rewrite H1. done.
Qed.

(** The move of the last node to the root, and its descent. *)
Lemma pop_resift h l n :
  heap_wf h -> num h <> 1 -> node_at h 1 = Some l -> store h !! l = Some n -> position n = 1 ->
  let h1 := set_num h (num h - 1) in
  exists h', (m ← node_at h1 (num h1); ns ← zset (nodes h1) 1 (Some m);
              percolate_down (set_nodes h1 ns (store h1)) 1) = Some h' /\
    contents h' !! l = Some (priority n, data n) /\ removed h l (delete_node h' l).
Proof.
  intros Hwf Hn1 Hl Hn Hp1 h1. unfold h1. pose proof (wf_num _ _ Hwf).
  pose proof (wf_len _ _ Hwf).
  assert (Hc : contents h !! l = Some (priority n, data n)) by (by rewrite contents_lookup, Hn).
  change (node_at (set_num h (num h - 1))) with (node_at h). cbn [num nodes store set_num].
  destruct (decide (num h = 2)) as [Hn2|Hn2].
  - rewrite Hn2. change (2 - 1) with 1. rewrite Hl. cbn [mbind option_bind].
    rewrite zset_in_bounds by lia. cbn [mbind option_bind].
    erewrite percolate_down_last; [|done| |done];
      [|rewrite (node_at_zset _ _ _ 1 1 l), decide_True by (try apply zset_in_bounds; simpl; lia); done].
    destruct (put_at_spec (set_nodes (set_num h 1) (<[Z.to_nat 1:=Some l]> (nodes h)) (store h)) 1 l n)
      as (ns & -> & Hs); [simpl; rewrite length_insert; lia|done|].
    eexists. split; [done|].
    pose proof (put_at_same (set_nodes (set_num h 1) (<[Z.to_nat 1:=Some l]> (nodes h)) (store h))
                  ns 1 l n Hn) as (_ & _ & Ht' & Hc').
    split; [by rewrite Hc'|]. eapply last_removed; try done; simpl.
    + lia.
    + lia.
    + rewrite (zset_length _ _ _ _ Hs). simpl. by rewrite length_insert.
    + by rewrite delete_insert_eq.
    + intros j Hj. rewrite Hn2 in Hj. rewrite (node_at_zset _ _ _ 1 j l) by done.
      rewrite decide_False by lia. unfold node_at. simpl.
      erewrite zget_zset_ne; [done|apply zset_in_bounds; lia|lia].
  - destruct (resift_removed h l n Hwf Hn) as (m & mn & ns & Hm & Hmn & Hs & _ & Hdown); [lia|].
    rewrite Hp1 in Hs, Hdown. rewrite Hm. cbn [mbind option_bind]. rewrite Hs. cbn [mbind option_bind].
    destruct Hdown as (h' & Hd & (_ & _ & _ & Hcs) & Hrem).
    { assert (Hcm : contents h !! m = Some (priority mn, data mn)) by (by rewrite contents_lookup, Hmn).
      pose proof (root_extremal h l _ _ m _ _ Hwf Hl Hc Hcm) as Hx.
      rewrite compare_key in Hx. bool_cases; [done|lia]. }
    exists h'. split; [done|]. split; [|done]. by rewrite Hcs.
Qed.

(** [Heap::pop] on an empty heap returns [nullptr] and leaves it alone;
    on any other heap it returns the data of the node [Heap::top] points to,
    no live node comes before that node in the order of the heap, and exactly
    that node is gone from the heap, which is well-formed again. *)
Lemma pop_spec h :
  heap_wf h ->
  num h = 1 /\ pop h = Some (h, None) /\ contents h = ∅ \/
  exists h' l p d, top h = Some (Some l) /\ contents h !! l = Some (p, d) /\
    (forall l' p' d', contents h !! l' = Some (p', d') -> compare h p p' = false) /\
    pop h = Some (h', Some d) /\ removed h l h'.
Proof.
  intros Hwf. pose proof (wf_num _ _ Hwf). pose proof (wf_size _ _ Hwf).
  pose proof (wf_len _ _ Hwf).
  unfold pop, count. rewrite uN_small by (unfold fits; lia).
  destruct (decide (num h = 1)) as [Hn1|Hn1].
  { left. rewrite Hn1. split_and!; [done..|]. apply map_eq. intros l. rewrite lookup_empty.
    destruct (contents h !! l) as [[p d]|] eqn:Hc; [|done].
    destruct (wf_contents_key h l p d Hwf Hc) as (? & _ & _ & _ & _ & ? & _). lia. }
  right. destruct (wf_at _ _ Hwf 1) as (l & n & Hl & Hn & Hp1 & _); [lia|].
  assert (Hc : contents h !! l = Some (priority n, data n)) by (by rewrite contents_lookup, Hn).
  assert (Ht : top h = Some (Some l)).
  { unfold top. destruct (Z.eqb_spec (num h) 1); [lia|].
    unfold node_at in Hl. destruct (zget (nodes h) 1) as [[?|]|]; simpl in Hl; congruence. }
  destruct (Z.eqb_spec (num h - 1) 0); [lia|]. rewrite Hl. cbn [mbind option_bind].
  destruct (pop_resift h l n) as (h' & Hrun & Hc' & Hrem); [done..|].
  exists (delete_node h' l), l, (priority n), (data n).
  split_and!; [done|done|by intros; eapply root_extremal| |done].
  inv_bind. simpl in *. rewrite E. simpl. rewrite E0. simpl. rewrite Hrun. simpl.
  rewrite contents_lookup in Hc'. unfold deref.
  destruct (store h' !! l) as [n'|]; [|done]. simpl. by injection Hc' as _ ->.
Qed.

(** ** The root stays in place

    [Timer::select] keeps a pointer to the node on top of the heap while it
    runs a callback that may push and remove other nodes, and then pops the
    top: equal priorities must not bring another node to the top. *)

Lemma put_at_root h h' i l :
  put_at h i l = Some h' -> i <> 1 -> node_at h' 1 = node_at h 1 /\ same h h'.
Proof.
  unfold put_at. intros Hp Hi. inv_bind. injection Hp as <-.
  rewrite (node_at_zset _ _ _ i 1 l) by done. rewrite decide_False by done.
  split; [done|by apply put_at_same].
Qed.

Lemma priority_at_root h h' :
  node_at h' 1 = node_at h 1 -> same h h' -> priority_at h' 1 = priority_at h 1.
Proof. intros Hn (_ & _ & _ & Hc). by rewrite !priority_at_contents, Hn, Hc. Qed.

Lemma compare_same h h' a b : same h h' -> compare h' a b = compare h a b.
Proof. intros (_ & _ & Ht & _). unfold compare. by rewrite Ht. Qed.

Lemma bubble_up_loop_root fuel h h' i m mp rp :
  bubble_up_loop fuel h i m mp = Some h' -> 1 < i ->
  priority_at h 1 = Some rp -> compare h rp mp = false ->
  node_at h' 1 = node_at h 1.
Proof.
  revert h i. induction fuel as [|fuel IH]; intros h i Hb Hi Hr Hc; [done|].
  cbn [bubble_up_loop] in Hb. rewrite parent_div in Hb.
  destruct (Z.ltb_spec 1 i); [|lia].
  destruct (priority_at h (i / 2)) as [pp|] eqn:Hpp; [|done]. simpl in Hb.
  destruct (compare h pp mp) eqn:Hcmp; [|by apply put_at_root in Hb as [-> _]; [|lia]].
  inv_bind. destruct (put_at_root h x0 i x) as [Hn Hs]; [done|lia|].
  assert (i / 2 <> 1) by (intros E1; rewrite E1 in Hpp; congruence).
  rewrite <- Hn. eapply IH; [done|lia|by rewrite (priority_at_root h x0)|].
  by rewrite (compare_same h).
Qed.

Lemma percolate_down_loop_root fuel h h' i m mp :
  percolate_down_loop fuel h i m mp = Some h' -> 1 < i < 2 ^ 31 -> num h <= 2 ^ 31 ->
  node_at h' 1 = node_at h 1.
Proof.
  revert h i. induction fuel as [|fuel IH]; intros h i Hb Hi Hn; [done|].
  cbn [percolate_down_loop] in Hb.
  destruct (maxchild h i) as [c|] eqn:Hmc; [|done]. simpl in Hb.
  destruct (Z.eqb_spec c 0); [by apply put_at_root in Hb as [-> _]; [|lia]|].
  assert (Hcb : 1 < c < 2 ^ 31).
  { clear Hb. unfold maxchild in Hmc. rewrite left_double in Hmc by lia.
    destruct (Z.leb_spec (num h) (2 * i)); [congruence|].
    rewrite uN_small in Hmc by (unfold fits; lia). inv_bind.
    destruct (Z.ltb_spec (2 * i + 1) (num h)); inv_bind;
      [destruct (compare h x x0)|]; injection Hmc as <-; lia. }
  destruct (priority_at h c) as [cp|]; [|done]. simpl in Hb.
  destruct (compare h mp cp); [|by apply put_at_root in Hb as [-> _]; [|lia]].
  inv_bind. destruct (put_at_root h x0 i x) as [Hx Hs]; [done|lia|].
  rewrite <- Hx. eapply IH; [done|lia|]. by rewrite (proj1 Hs).
Qed.

Lemma push_keeps_root h h' ok l p d r rp rd :
  push h ok l p d = Some (h', Some l) -> heap_wf h -> num h < 2 ^ 30 -> store h !! l = None ->
  node_at h 1 = Some r -> contents h !! r = Some (rp, rd) -> 1 < num h ->
  compare h rp p = false -> node_at h' 1 = Some r.
Proof.
  intros Hp Hwf Hn Hl Hr Hrc Hn1 Hcmp. unfold push in Hp.
  destruct ((size h <=? num h) && negb ok); [by injection Hp|].
  assert (exists h1, (if size h <=? num h then grow h else h) = h1 /\ num h1 = num h /\
            node_at h1 1 = Some r /\ type h1 = type h /\ store h1 = store h)
    as (h1 & Eh1 & Hn2 & Hr1 & Ht1 & Hs1).
  { destruct (Z.leb_spec (size h) (num h)); [|by eauto 10].
    eexists. split; [done|]. pose proof (wf_num _ _ Hwf). pose proof (wf_len _ _ Hwf).
    assert (u32 (size h * 2) = size h * 2) as Hsz by (apply uN_small; unfold fits; lia).
    unfold grow, node_at in *. simpl. rewrite Hsz, take_ge, zget_app_l
      by (rewrite ?length_app, ?length_replicate; lia). done. }
  rewrite Eh1 in Hp. inv_bind. injection Hp as <-. rename E into Hz, E0 into Hb.
  unfold bubble_up in Hb. inv_bind.
  assert (Hnode : node_at (mkHeap (u32 (num h1 + 1)) (size h1) (type h1) x
            (<[l := mkNode p 0 d]> (store h1))) 1 = Some r).
  { unfold node_at in *. simpl. erewrite zget_zset_ne; [done|done|lia]. }
  assert (x1 = l) as ->.
  { unfold node_at in E. simpl in E. rewrite (zget_zset_eq _ _ _ _ Hz) in E. by injection E. }
  unfold deref in E0. simpl in E0. rewrite lookup_insert_eq in E0. injection E0 as <-.
  simpl in Hb. rewrite <- Hnode. eapply bubble_up_loop_root; [done|lia| |].
  - rewrite priority_at_contents, Hnode. simpl. rewrite contents_lookup. simpl.
    rewrite lookup_insert_ne by (intros ->; rewrite contents_lookup, Hl in Hrc; done).
    rewrite Hs1, <- contents_lookup, Hrc. done.
  - unfold compare in *. simpl. by rewrite Ht1.
Qed.

Lemma remove_keeps_root h h' l r :
  remove h l = Some h' -> heap_wf h -> node_at h 1 = Some r -> 1 < num h -> l <> r ->
  is_Some (store h !! l) -> node_at h' 1 = Some r.
Proof.
  intros Hrm Hwf Hr Hn1 Hne [n Hn]. unfold remove, deref in Hrm. rewrite Hn in Hrm.
  cbn [mbind option_bind] in Hrm.
  pose proof (wf_num _ _ Hwf). pose proof (wf_size _ _ Hwf).
  rewrite uN_small in Hrm by (unfold fits; lia).
  destruct (wf_pos _ _ Hwf l n Hn) as [Hp Hl]; [set_solver|].
  assert (Hp1 : position n <> 1) by (intros E; rewrite E in Hl; congruence).
  destruct (Z.eqb_spec (position n) (num h - 1)).
  - inv_bind. injection Hrm as <-. unfold node_at in *. simpl in *.
    by rewrite (zget_zset_ne _ _ _ 1 _ E).
  - destruct (wf_at _ _ Hwf (num h - 1)) as (m & mn & Hm & Hmn & _); [lia|].
    change (node_at (set_num h (num h - 1))) with (node_at h) in Hrm.
    rewrite Hm in Hrm. cbn [mbind option_bind] in Hrm.
    inv_bind. simpl in E0. rewrite Hmn in E0. injection E0 as <-. injection Hrm as <-.
    set (h1 := set_nodes _ _ _) in *. rename E into Hz, E1 into Hs, x into ns, x1 into h2.
    assert (Hnd : forall j, node_at h1 j = if decide (position n = j) then Some m else node_at h j)
      by (intros; by apply (node_at_zset (set_num h (num h - 1)))).
    assert (Hr1 : node_at h1 1 = Some r) by (by rewrite Hnd, decide_False).
    change (node_at (delete_node h2 l) 1) with (node_at h2 1). rewrite <- Hr1.
    destruct (compare h1 (priority n) (priority mn)) eqn:Hcmp.
    + unfold bubble_up, deref in Hs. rewrite Hnd, decide_True in Hs by done. cbn [mbind option_bind] in Hs.
      change (store h1) with (store h) in Hs. rewrite Hmn in Hs. cbn [mbind option_bind] in Hs.
      destruct (wf_at _ _ Hwf 1) as (r' & rn & Hr' & Hrn & _); [lia|].
      assert (r' = r) as -> by congruence.
      eapply bubble_up_loop_root; [done|lia|by eapply priority_at_eq|].
      change (compare h (priority rn) (priority mn) = false).
      eapply (root_extremal h r _ (data rn) m _ (data mn)); [done..| |];
        by rewrite contents_lookup, ?Hrn, ?Hmn.
    + unfold percolate_down, deref in Hs. rewrite Hnd, decide_True in Hs by done. cbn [mbind option_bind] in Hs.
      change (store h1) with (store h) in Hs. rewrite Hmn in Hs. cbn [mbind option_bind] in Hs.
      eapply percolate_down_loop_root; [done|lia|simpl; lia].
Qed.

(** A new heap is empty and well-formed. *)
Lemma heap_make_wf n t : 0 <= n < 2 ^ 31 -> heap_wf (heap_make (D := D) n t).
Proof.
  intros Hn. assert (u32 (n + 1) = n + 1) as Hu by (apply uN_small; unfold fits; lia).
  split; simpl; rewrite ?Hu, ?length_replicate; try lia. done.
Qed.
End heap_operations.

(** ** Refinement of an abstract priority queue *)

Section refinement.
Context {D : Type}.

(** The calls a client makes, with the addresses and allocation results the
    memory manager answers. *)
Inductive heap_op :=
  | OpPush (realloc_ok : bool) (l : loc) (p : Z) (d : D)
  | OpChange (p : Z) (l : loc)
  | OpRemove (l : loc)
  | OpPop.
Inductive heap_out := OutNode (l : option loc) | OutNone | OutData (d : option D).

Definition heap_exec (h : Heap D) (op : heap_op) : option (Heap D * heap_out) :=
  match op with
  | OpPush ok l p d => '(h', r) ← push h ok l p d; Some (h', OutNode r)
  | OpChange p l => h' ← change_priority h p l; Some (h', OutNone)
  | OpRemove l => h' ← remove h l; Some (h', OutNone)
  | OpPop => '(h', r) ← pop h; Some (h', OutData r)
  end.

(** The specification: a finite map of nodes, of which [pop] takes one that
    no other node comes before. *)
Definition before (t : heap_type) (a b : Z) : Prop :=
  match t with MIN_HEAP => a <= b | MAX_HEAP => b <= a end.

Inductive pq_step (t : heap_type) (q : gmap loc (Z * D)) : heap_op -> gmap loc (Z * D) -> heap_out -> Prop :=
  | pq_push ok l p d : q !! l = None -> pq_step t q (OpPush ok l p d) (<[l := (p, d)]> q) (OutNode (Some l))
  | pq_push_failed l p d : pq_step t q (OpPush false l p d) q (OutNode None)
  | pq_change p p' l d : q !! l = Some (p, d) -> pq_step t q (OpChange p' l) (<[l := (p', d)]> q) OutNone
  | pq_remove l : is_Some (q !! l) -> pq_step t q (OpRemove l) (delete l q) OutNone
  | pq_pop_empty : q = ∅ -> pq_step t q OpPop q (OutData None)
  | pq_pop l p d : q !! l = Some (p, d) ->
      (forall l' p' d', q !! l' = Some (p', d') -> before t p p') ->
      pq_step t q OpPop (delete l q) (OutData (Some d)).

(** What a caller has to respect: fresh addresses are fresh, and only live
    nodes are passed back. *)
Definition op_ok (q : gmap loc (Z * D)) (op : heap_op) : Prop :=
  match op with
  | OpPush _ l _ _ => q !! l = None
  | OpChange _ l | OpRemove l => is_Some (q !! l)
  | OpPop => True
  end.

Lemma compare_before h a b : compare (D := D) h a b = false -> before (type h) a b.
Proof. unfold compare, before. destruct (type h); bool_cases; intros; done || lia. Qed.

(** One operation on a well-formed heap with fewer than [2^30] nodes. *)
Lemma heap_exec_refines h op :
  heap_wf h -> num h < 2 ^ 30 -> op_ok (contents h) op ->
  exists h' out, heap_exec h op = Some (h', out) /\ heap_wf h' /\ type h' = type h /\
    num h' <= num h + 1 /\ pq_step (type h) (contents h) op (contents h') out.
Proof.
  intros Hwf Hn Hok. destruct op as [ok l p d|p l|l|]; simpl in *.
  - destruct (decide (num h < size h \/ ok = true)) as [Hm|Hm].
    + destruct (push_spec h ok l p d) as (h' & -> & ? & Hc' & ? & ?); [done|done| |done|].
      { rewrite contents_lookup in Hok. by destruct (store h !! l). }
      simpl. eexists _, _. split_and!; [done|done|done|lia|rewrite Hc'; by constructor].
    + assert (size h <= num h /\ ok = false) as [Hs ->] by (destruct ok; lia || tauto).
      unfold push. destruct (Z.leb_spec (size h) (num h)); [|lia]. simpl.
      eexists _, _. split_and!; [done|done|done|lia|by constructor].
  - destruct Hok as [[p0 d] Hc].
    destruct (change_priority_spec h l p0 p d) as (h' & -> & ? & Hc' & ? & ?); [done..|].
    simpl. eexists _, _. split_and!; [done|done|done|lia|rewrite Hc'; by econstructor].
  - destruct Hok as [[p0 d] Hc].
    destruct (remove_spec h l p0 d) as (h' & -> & ? & Hc' & ? & ?); [done..|].
    simpl. eexists _, _. split_and!; [done|done|done|lia|rewrite Hc'; constructor; eauto].
  - destruct (pop_spec h Hwf) as [(_ & -> & Hc)|(h' & l & p & d & _ & Hc & Hmin & -> & ? & Hc' & ? & ?)].
    + simpl. eexists _, _. split_and!; [done|done|done|lia|by constructor].
    + simpl. eexists _, _. split_and!; [done|done|done|lia|].
      rewrite Hc'. eapply pq_pop; [done|]. intros. eapply compare_before, Hmin. done.
Qed.

(** Running a list of calls, against the specification running it. *)
Fixpoint heap_run (h : Heap D) (ops : list heap_op) : option (Heap D * list heap_out) :=
  match ops with
  | [] => Some (h, [])
  | op :: ops => '(h', o) ← heap_exec h op; '(h', os) ← heap_run h' ops; Some (h', o :: os)
  end.

Inductive pq_run (t : heap_type) : gmap loc (Z * D) -> list heap_op -> gmap loc (Z * D) -> list heap_out -> Prop :=
  | pq_run_nil q : pq_run t q [] q []
  | pq_run_cons q q' q'' op ops o os :
      pq_step t q op q' o -> pq_run t q' ops q'' os -> pq_run t q (op :: ops) q'' (o :: os).

(** Every call respects [op_ok] in the state it is made in, whatever the
    earlier calls answered. *)
Fixpoint calls_ok (t : heap_type) (q : gmap loc (Z * D)) (ops : list heap_op) : Prop :=
  match ops with
  | [] => True
  | op :: ops => op_ok q op /\ forall q' o, pq_step t q op q' o -> calls_ok t q' ops
  end.

(** C40: a new heap refines the priority queue: for every sequence of fewer
    than [2^30 - 1] pushes, priority changes, removals and pops that passes
    fresh addresses and live nodes, no operation reads or writes outside the
    array or through a dangling node, and the answers are those of the
    abstract queue, in which [pop] takes a node no other node comes before. *)
Theorem heap_refines n t ops :
  0 <= n < 2 ^ 31 -> Z.of_nat (length ops) < 2 ^ 30 - 1 -> calls_ok t ∅ ops ->
  exists h outs, heap_run (heap_make n t) ops = Some (h, outs) /\ heap_wf h /\
    pq_run t ∅ ops (contents h) outs.
Proof.
  intros Hn Hlen.
  cut (forall h, heap_wf h -> type h = t -> num h + zlen ops <= 2 ^ 30 ->
         calls_ok t (contents h) ops ->
         exists h' outs, heap_run h ops = Some (h', outs) /\ heap_wf h' /\
           pq_run t (contents h) ops (contents h') outs).
  { intros H Hok. apply (H (heap_make n t)); [by apply heap_make_wf|done|simpl; lia|done]. }
  clear n Hn. induction ops as [|op ops IH]; intros h Hwf Ht Hb Hok; simpl in *.
  { eexists _, _. split_and!; [done|done|constructor]. }
  destruct Hok as [Hop Hrest].
  destruct (heap_exec_refines h op) as (h1 & o & -> & Hwf1 & Ht1 & Hn1 & Hstep); [done|lia|done|].
  rewrite Ht in Hstep. simpl.
  destruct (IH ltac:(lia) h1) as (h' & os & -> & Hwf' & Hrun); [done|congruence|lia|eauto|].
  simpl. eexists _, _. split_and!; [done|done|by econstructor].
Qed.

(** Popping until the heap is empty, noting the priority of each top. *)
Fixpoint drain (fuel : nat) (h : Heap D) : option (list (Z * D)) :=
  match fuel with
  | O => Some []
  | S fuel =>
      p ← priority_at h 1;
      '(h', d) ← pop h;
      d ← d;
      l ← drain fuel h';
      Some ((p, d) :: l)
  end.

(** Emptying a well-formed heap by [pop] returns every element exactly
    once, in non-decreasing (min-heap) or non-increasing (max-heap) order of
    the priorities. *)
Theorem drain_sorted h :
  heap_wf h ->
  exists l, drain (Z.to_nat (count h)) h = Some l /\
    l ≡ₚ (map_to_list (contents h)).*2 /\
    Sorted (fun a b => before (type h) a.1 b.1) l.
Proof.
  intros Hwf. pose proof (wf_num _ _ Hwf). pose proof (wf_size _ _ Hwf).
  unfold count. rewrite uN_small by (unfold fits; lia).
  remember (Z.to_nat (num h - 1)) as k eqn:Hk.
  assert (Hnum : num h = Z.of_nat k + 1) by lia. clear Hk.
  revert h Hwf H H0 Hnum. induction k as [|k IH]; intros h Hwf _ _ Hnum.
  { exists []. destruct (pop_spec h Hwf) as [(_ & _ & ->)|(h' & ? & ? & ? & _ & _ & _ & _ & Hwf' & _ & Hn' & _)].
    - rewrite map_to_list_empty. split_and!; [done|done|constructor].
    - pose proof (wf_num _ _ Hwf'). lia. }
  destruct (pop_spec h Hwf) as [(? & _)|(h' & l & p & d & Ht & Hc & Hmin & Hp & Hwf' & Hc' & Hn' & Ht')];
    [lia|].
  destruct (IH h') as (rest & Hd & Hperm & Hs); [done|apply Hwf'|apply Hwf'|lia|].
  assert (priority_at h 1 = Some p) as Hpr.
  { rewrite priority_at_contents. unfold node_at, top in *.
    destruct (num h =? 1); [done|]. rewrite Ht. simpl. by rewrite Hc. }
  cbn [drain]. rewrite Hpr. cbn [mbind option_bind]. rewrite Hp. cbn [mbind option_bind].
  rewrite Hd. cbn [mbind option_bind]. eexists. split; [done|]. split.
  - rewrite <- (insert_delete_id (contents h) l (p, d)) by done.
    rewrite map_to_list_insert by apply lookup_delete_eq. simpl. by rewrite Hperm, Hc'.
  - rewrite Ht' in Hs. constructor; [done|]. destruct rest as [|[p' d'] rest]; constructor. simpl.
    assert ((p', d') ∈ (map_to_list (contents h')).*2) as Hin by (rewrite <- Hperm; left).
    apply list_elem_of_fmap in Hin as ([l' [? ?]] & [= <- <-] & Hin%elem_of_map_to_list).
    rewrite Hc', lookup_delete_Some in Hin. eapply compare_before, Hmin. apply Hin.
Qed.
End refinement.

(** ** Witnesses *)

(** Two timers due at 10 and 20, after [heap_make 3 MIN_HEAP] and two pushes. *)
Definition demo_heap : Heap Z :=
  mkHeap 3 4 MIN_HEAP [None; Some 1%positive; Some 2%positive; None]
    {[ 1%positive := mkNode 10 1 100; 2%positive := mkNode 20 2 200 ]}.

Example demo_heap_built :
  ('(h, _) ← push (heap_make 3 MIN_HEAP) true 2%positive 20 200; '(h, _) ← push h true 1%positive 10 100; Some h)
  = Some demo_heap.
Proof. vm_compute. reflexivity. Qed.

Lemma demo_heap_wf : heap_wf demo_heap.
Proof.
  split; simpl; try lia.
  - intros j Hj. assert (j = 1 \/ j = 2) as [->| ->] by lia; eexists _, _; done.
  - intros l n [[<- <-]|[_ [<- <-]%lookup_singleton_Some]]%lookup_insert_Some _; done.
  - intros j Hj. assert (j = 2) as -> by lia. done.
Qed.

Lemma heap_refines_witness :
  exists h outs,
    heap_run (heap_make 3 MIN_HEAP)
      [OpPush true 2%positive 20 200; OpPush true 1%positive 10 100; OpPop; OpRemove 2%positive]
      = Some (h, outs) /\ heap_wf h /\
    pq_run MIN_HEAP ∅
      [OpPush true 2%positive 20 200; OpPush true 1%positive 10 100; OpPop; OpRemove 2%positive]
      (contents h) outs.
Proof.
  apply (heap_refines 3 MIN_HEAP); [lia|reflexivity|].
  simpl. split; [done|]. intros q1 o1 H1. inversion H1; subst; clear H1.
  split; [done|]. intros q2 o2 H2. inversion H2; subst; clear H2.
  split; [done|]. intros q3 o3 H3. inversion H3 as [| | | |Hq|l p d Hl Hmin]; subst; clear H3.
  - exfalso. apply (f_equal (fun m => m !! 1%positive)) in Hq. done.
  - rewrite lookup_insert_Some in Hl. destruct Hl as [[<- [= <- <-]]|[_ Hl]].
    + split; [|done]. simpl. eauto.
    + exfalso. apply lookup_singleton_Some in Hl as [<- [= <- <-]].
      specialize (Hmin 1%positive 10 100 eq_refl). simpl in Hmin. lia.
Defined.

Example demo_drain : drain 2 demo_heap = Some [(10, 100); (20, 200)].
Proof. vm_compute. reflexivity. Qed.
