(* ===== verification/Timer.v ===== *)
(** * The timer wheel

    [src/core/timer.cc] and [include/swoole_timer.h]: timers are kept in a
    min-heap ordered by the millisecond they are due and in a table indexed by
    their id; [Timer::select] runs every due timer and computes how long the
    event loop may sleep.  The callback of a timer is arbitrary code that may
    add and remove timers, the running one included. *)

From stdpp Require Import base list gmap relations.
From S2P Require Import Prelude Heap.

(** [TimerNode::Type] *)
Inductive tnode_type := TYPE_KERNEL | TYPE_PHP.

(** [struct TimerNode] (the callback and its private data are not fields here:
    they are the parameter [callback] of [select]). *)
Record TimerNode := mkTimerNode {
  id : Z;
  ttype : tnode_type;
  exec_msec : Z;
  interval : Z;
  exec_count : Z;
  tround : Z;
  removed : bool;
  heap_node : option loc;
}.

(** [class Timer]; [tnodes] are the allocated nodes, [timeout_msec] is the
    reactor's timeout, which the function [set] of a reactor timer assigns. *)
Record Timer := mkTimer {
  heap : Heap loc;
  map : gmap Z loc;
  tnodes : gmap loc TimerNode;
  round : Z;
  next_id : Z;
  current_id : Z;
  next_msec : Z;
  timeout_msec : Z;
}.

Definition with_heap t h := mkTimer h (map t) (tnodes t) (round t) (next_id t) (current_id t) (next_msec t) (timeout_msec t).
Definition with_nodes t m ns := mkTimer (heap t) m ns (round t) (next_id t) (current_id t) (next_msec t) (timeout_msec t).
Definition with_current t c := mkTimer (heap t) (map t) (tnodes t) (round t) (next_id t) c (next_msec t) (timeout_msec t).
Definition with_next t m := mkTimer (heap t) (map t) (tnodes t) (round t) (next_id t) (current_id t) m m.
Definition with_next_id t i := mkTimer (heap t) (map t) (tnodes t) (round t) i (current_id t) (next_msec t) (timeout_msec t).
Definition with_round t r := mkTimer (heap t) (map t) (tnodes t) r (next_id t) (current_id t) (next_msec t) (timeout_msec t).

Definition with_exec (n : TimerNode) (e c : Z) : TimerNode :=
  mkTimerNode (id n) (ttype n) e (interval n) c (tround n) (removed n) (heap_node n).
Definition mark_removed (n : TimerNode) : TimerNode :=
  mkTimerNode (id n) (ttype n) (exec_msec n) (interval n) (exec_count n) (tround n) true (heap_node n).

(** [Timer::Timer] (and [init_with_reactor]) *)
Definition timer_make : Timer := mkTimer (heap_make 1024 MIN_HEAP) ∅ ∅ 0 1 (-1) (-1) (-1).

(** [Timer::get] by id *)
Definition get (t : Timer) (i : Z) : option loc := map t !! i.

(** [Timer::count] *)
Definition count_timers (t : Timer) : nat := base.size (map t).

(** [Timer::add]: [now] is the value of [get_relative_msec()], [tl] and [hl]
    the addresses of the new [TimerNode] and [HeapNode], [realloc_ok] whether
    the heap could grow if it had to.  The result is the returned pointer. *)
Definition add (t : Timer) (now msec : Z) (persistent : bool) (tl hl : loc) (realloc_ok : bool)
    : option (Timer * option loc) :=
  if msec <=? 0 then Some (t, None) else
  let tid := next_id t in
  let t := with_next_id t (next_id t + 1) in
  let exec := now + msec in
  let t := if (next_msec t <? 0) || (msec <? next_msec t) then with_next t msec else t in
  '(h, r) ← push (heap t) realloc_ok hl (u64 exec) tl;
  let t := with_heap t h in
  match r with
  | None => Some (t, None)
  | Some hl =>
      let tnode := mkTimerNode tid TYPE_KERNEL exec (if persistent then msec else 0) 0
                     (round t) false (Some hl) in
      let m := match map t !! tid with Some _ => map t | None => <[tid := tl]> (map t) end in
      Some (with_nodes t m (<[tl := tnode]> (tnodes t)), Some tl)
  end.

(** [Timer::remove] of a node; [None] stands for a null pointer. *)
Definition remove_node (t : Timer) (tnode : option loc) : option (Timer * bool) :=
  match tnode with
  | None => Some (t, false)
  | Some tl =>
      n ← tnodes t !! tl;
      if removed n then Some (t, false) else
      if (0 <? current_id t) && (id n =? current_id t) then
        Some (with_nodes t (map t) (<[tl := mark_removed n]> (tnodes t)), true)
      else
        match map t !! id n with
        | None => Some (t, false)
        | Some _ =>
            h ← (match heap_node n with Some hl => remove (heap t) hl | None => Some (heap t) end);
            Some (with_nodes (with_heap t h) (delete (id n) (map t)) (delete tl (tnodes t)), true)
        end
  end.

(** [Timer::remove] by id *)
Definition remove_id (t : Timer) (i : Z) : option (Timer * bool) := remove_node t (get t i).

(** [Timer::delay] (and the [update] it ends with) *)
Definition delay (t : Timer) (now : Z) (tl : loc) (delay_ms : Z) : option Timer :=
  n ← tnodes t !! tl;
  let e := (if now <? 0 then exec_msec n else now) + delay_ms in
  hl ← heap_node n;
  h ← change_priority (heap t) (u64 e) hl;
  Some (with_nodes (with_heap t h) (map t) (<[tl := with_exec n e (exec_count n)]> (tnodes t))).

(** The loop that moves a persistent timer past [now]. *)
Fixpoint catch_up (fuel : nat) (exec interval now : Z) : option Z :=
  if now <? exec then Some exec else
  match fuel with O => None | S fuel => catch_up fuel (exec + interval) interval now end.

Section select.
(** The callbacks are closures: they run on the state [W] of the rest of the
    program besides the timer itself. *)
Context {W : Type}.
Variable callback : W -> Timer -> loc -> option (W * Timer).

(** The loop of [Timer::select]; the result is the state and the timer it
    stopped at ([None] when the heap ran empty). *)
Fixpoint select_loop (fuel : nat) (w : W) (t : Timer) (now : Z)
    : option (W * Timer * option TimerNode) :=
  match fuel with
  | O => None
  | S fuel =>
      tmp ← top (heap t);
      match tmp with
      | None => Some (w, t, None)
      | Some hl =>
          hn ← deref (heap t) hl;
          let tl := data hn in
          n ← tnodes t !! tl;
          if (now <? exec_msec n) || (tround n =? round t) then Some (w, t, Some n) else
          let t := with_current t (id n) in
          '(w, t) ← (if removed n then Some (w, t) else callback w t tl);
          let t := with_current t (-1) in
          n ← tnodes t !! tl;
          if (0 <? interval n) && negb (removed n) then
            e ← catch_up (Z.to_nat (now - exec_msec n + 1)) (exec_msec n) (interval n) now;
            h ← change_priority (heap t) (u64 e) hl;
            select_loop fuel w
              (with_nodes (with_heap t h) (map t)
                 (<[tl := with_exec n e (u64 (exec_count n + 1))]> (tnodes t))) now
          else
            '(h, _) ← pop (heap t);
            select_loop fuel w
              (with_nodes (with_heap t h) (delete (id n) (map t)) (delete tl (tnodes t))) now
      end
  end.

(** [Timer::select] *)
Definition select (w : W) (t : Timer) (now : Z) : option (W * Timer) :=
  '(w, t, tnode) ← select_loop (S (base.size (map t))) w t now;
  let t :=
    match tnode with
    | None => with_next t (-1)
    | Some n =>
        let m := exec_msec n - now in
        with_next t (if m <=? 0 then 1 else m)
    end in
  Some (w, with_round t (u64 (round t + 1))).
End select.

(** ** The invariant *)

(** Heap, table and allocated nodes describe the same set of timers; a node is
    only marked as removed while its own callback runs. *)
Record timer_wf (t : Timer) : Prop := {
  tw_heap : heap_wf (heap t);
  tw_min : type (heap t) = MIN_HEAP;
  tw_node tl n : tnodes t !! tl = Some n ->
    map t !! id n = Some tl /\ 0 <= exec_msec n < 2 ^ 63 /\ 0 <= interval n < 2 ^ 62 /\
    exists hl, heap_node n = Some hl /\ contents (heap t) !! hl = Some (exec_msec n, tl);
  tw_map i tl : map t !! i = Some tl -> exists n, tnodes t !! tl = Some n /\ id n = i;
  tw_heap_node hl p tl : contents (heap t) !! hl = Some (p, tl) ->
    exists n, tnodes t !! tl = Some n /\ heap_node n = Some hl;
  tw_ids i tl : map t !! i = Some tl -> 1 <= i < next_id t;
  tw_next : 1 <= next_id t;
  tw_removed tl n : tnodes t !! tl = Some n -> removed n = true ->
    0 < current_id t /\ id n = current_id t;
}.

(** ** The heap seen by the timer *)

Section heap_client.
Context {D : Type}.
Implicit Types (h : Heap D) (l r : loc).

Lemma top_node h r : heap_wf h -> top h = Some (Some r) <-> 1 < num h /\ node_at h 1 = Some r.
Proof.
  intros Hwf. pose proof (wf_num _ _ Hwf). unfold top, node_at.
  destruct (Z.eqb_spec (num h) 1) as [|Hne].
  - split; [done|lia].
  - destruct (zget (nodes h) 1) as [[x|]|]; simpl;
      (split; [intros ? | intros [_ ?]]; simplify_eq; done || (split; [lia|done])).
Qed.

Lemma top_cases h : heap_wf h ->
  top h = Some None /\ contents h = ∅ \/
  exists r p d, top h = Some (Some r) /\ contents h !! r = Some (p, d).
Proof.
  intros Hwf. destruct (pop_spec h Hwf) as [(Hn & _ & Hc)|(h' & l & p & d & Ht & Hc & _)].
  - left. unfold top. rewrite Hn. done.
  - right. eauto.
Qed.

Lemma top_min h r p d l p' d' :
  heap_wf h -> type h = MIN_HEAP -> top h = Some (Some r) -> contents h !! r = Some (p, d) ->
  contents h !! l = Some (p', d') -> p <= p'.
Proof.
  intros Hwf Ht [_ Hr]%top_node Hc Hl; [|done].
  pose proof (root_extremal _ _ _ _ _ _ _ Hwf Hr Hc Hl) as Hcmp.
  apply compare_before in Hcmp. by rewrite Ht in Hcmp.
Qed.

(** On a min-heap a push of a later priority and the removal of another node
    leave the top in place. *)
Lemma push_keeps_top h h' ok l p d r rp rd :
  heap_wf h -> type h = MIN_HEAP -> push h ok l p d = Some (h', Some l) -> num h < 2 ^ 30 ->
  store h !! l = None -> top h = Some (Some r) -> contents h !! r = Some (rp, rd) -> rp <= p ->
  heap_wf h' -> num h' = num h + 1 -> top h' = Some (Some r).
Proof.
  intros Hwf Ht Hp Hn Hl [Hn1 Hr]%top_node Hc Hle Hwf' Hn'; [|done].
  apply top_node; [done|]. split; [lia|].
  eapply push_keeps_root; try done. unfold compare. rewrite Ht. apply Z.ltb_ge. lia.
Qed.

Lemma remove_keeps_top h h' l r :
  heap_wf h -> remove h l = Some h' -> top h = Some (Some r) -> l <> r ->
  is_Some (contents h !! l) -> is_Some (contents h !! r) -> Heap.removed h l h' ->
  top h' = Some (Some r).
Proof.
  intros Hwf Hrm [Hn1 Hr]%top_node Hne Hl Hcr (Hwf' & Hc & Hn & _); [|done].
  assert (is_Some (store h !! l)) as Hst.
  { rewrite contents_lookup in Hl. by destruct (store h !! l); destruct Hl. }
  assert (node_at h' 1 = Some r) as Hr' by by eapply remove_keeps_root.
  apply top_node; [done|]. split; [|done].
  destruct Hcr as [[p d] Hcr].
  assert (contents h' !! r = Some (p, d)) as Hcr' by (rewrite Hc, lookup_delete_ne; done).
  destruct (wf_contents_key h' r p d Hwf' Hcr') as (? & _ & _ & _ & _ & ? & _). lia.
Qed.
End heap_client.

(** ** Adding and removing timers *)

Lemma timer_make_wf : timer_wf timer_make.
Proof.
  split; simpl; try done. by apply heap_make_wf.
Qed.

Lemma store_contents {D} (h : Heap D) l : store h !! l = None -> contents h !! l = None.
Proof. intros H. by rewrite contents_lookup, H. Qed.

(** The state [add] reaches before it pushes. *)
Definition add_start (t : Timer) (msec : Z) : Timer :=
  let t := with_next_id t (next_id t + 1) in
  if (next_msec t <? 0) || (msec <? next_msec t) then with_next t msec else t.

Lemma add_start_wf t msec :
  timer_wf t -> timer_wf (add_start t msec) /\
  heap (add_start t msec) = heap t /\ map (add_start t msec) = map t /\
  tnodes (add_start t msec) = tnodes t /\ round (add_start t msec) = round t /\
  current_id (add_start t msec) = current_id t /\ next_id (add_start t msec) = next_id t + 1.
Proof.
  intros [? ? ? ? ? Hids ? ?]. unfold add_start.
  destruct ((_ <? 0) || _); (split; [|done]); split; simpl; try done;
    try (intros i tl Hi; specialize (Hids i tl Hi)); lia.
Qed.

(** A new node [n] at [tl], in the table and in the heap. *)
Lemma insert_wf t h tl hl n :
  timer_wf t -> heap_wf h -> type h = MIN_HEAP ->
  contents h = <[hl := (exec_msec n, tl)]> (contents (heap t)) -> contents (heap t) !! hl = None ->
  heap_node n = Some hl -> tnodes t !! tl = None -> map t !! id n = None -> removed n = false ->
  0 <= exec_msec n < 2 ^ 63 -> 0 <= interval n < 2 ^ 62 -> 1 <= id n < next_id t ->
  timer_wf (with_nodes (with_heap t h) (<[id n := tl]> (map t)) (<[tl := n]> (tnodes t))).
Proof.
  intros Hwf Hwf' Ht Hc Hhc Hn Htl Hfresh Hrm He Hi Hid. split; simpl; [done|done|..].
  - intros tl' n' [[<- <-]|[Hne Hn']]%lookup_insert_Some; simpl.
    + rewrite lookup_insert_eq, Hn. split_and!; try done || lia.
      exists hl. by rewrite Hc, lookup_insert_eq.
    + destruct (tw_node _ Hwf tl' n' Hn') as (Hm & ? & ? & hl' & Hh & Hch).
      rewrite lookup_insert_ne by congruence. split_and!; try done || lia.
      exists hl'. split; [done|]. rewrite Hc, lookup_insert_ne; [done|]. congruence.
  - intros i tl' [[<- <-]|[Hne Hl]]%lookup_insert_Some.
    + rewrite lookup_insert_eq. eauto.
    + destruct (tw_map _ Hwf i tl' Hl) as (n' & Hn' & ?). exists n'.
      rewrite lookup_insert_ne by congruence. done.
  - intros hl' p' tl'. rewrite Hc. intros [[<- [= <- <-]]|[Hne Hl]]%lookup_insert_Some.
    + rewrite lookup_insert_eq. eauto.
    + destruct (tw_heap_node _ Hwf _ _ _ Hl) as (n' & Hn' & ?). exists n'.
      rewrite lookup_insert_ne by congruence. done.
  - intros i tl' [[<- <-]|[Hne Hl]]%lookup_insert_Some; [done|by eapply tw_ids].
  - apply Hwf.
  - intros tl' n' [[<- <-]|[Hne Hn']]%lookup_insert_Some; [congruence|by eapply tw_removed].
Qed.

(** The node [add] creates. *)
Definition new_node (t : Timer) (now msec : Z) (persistent : bool) (hl : loc) : TimerNode :=
  mkTimerNode (next_id t) TYPE_KERNEL (now + msec) (if persistent then msec else 0) 0 (round t)
    false (Some hl).

(** A successful [add]. *)
Lemma add_spec t now msec persistent tl hl ok :
  timer_wf t -> 0 <= now -> 0 < msec < 2 ^ 62 -> now + msec < 2 ^ 63 ->
  tnodes t !! tl = None -> store (heap t) !! hl = None -> num (heap t) < 2 ^ 30 ->
  num (heap t) < size (heap t) \/ ok = true ->
  exists h, push (heap t) ok hl (now + msec) tl = Some (h, Some hl) /\ heap_wf h /\
    num h = num (heap t) + 1 /\
    contents h = <[hl := (now + msec, tl)]> (contents (heap t)) /\
    let t' := with_nodes (with_heap (add_start t msec) h)
                (<[next_id t := tl]> (map t)) (<[tl := new_node t now msec persistent hl]> (tnodes t)) in
    add t now msec persistent tl hl ok = Some (t', Some tl) /\ timer_wf t'.
Proof.
  intros Hwf Hnow Hms Hexec Htl Hhl Hnum Hok.
  destruct (push_spec (heap t) ok hl (now + msec) tl) as (h & Hp & Hwf' & Hc & Hn & Ht);
    [apply Hwf|done..|].
  exists h. split_and!; [done..|].
  destruct (add_start_wf t msec Hwf) as (Hwf1 & Eh & Em & En & Er & Ec & Ei).
  pose proof (tw_next _ Hwf).
  assert (map t !! next_id t = None) as Hfresh.
  { destruct (map t !! next_id t) as [x|] eqn:E; [|done].
    pose proof (tw_ids _ Hwf _ _ E). lia. }
  split.
  - unfold add. destruct (Z.leb_spec msec 0); [lia|]. fold (add_start t msec).
    rewrite Eh, uN_small by (unfold fits; lia). rewrite Hp. cbn [mbind option_bind].
    cbn [map with_heap tnodes round with_nodes]. by rewrite Em, En, Er, Hfresh.
  - rewrite <- Em, <- En.
    apply (insert_wf (add_start t msec) h tl hl (new_node t now msec persistent hl));
      rewrite ?Eh, ?En, ?Em, ?Ei; simpl; try done || lia.
    + rewrite Ht. apply Hwf.
    + by apply store_contents.
    + destruct persistent; lia.
Qed.

(** An [add] that finds no memory for the heap. *)
Lemma add_failed t now msec persistent tl hl :
  timer_wf t -> 0 < msec -> size (heap t) <= num (heap t) ->
  add t now msec persistent tl hl false = Some (add_start t msec, None).
Proof.
  intros Hwf Hms Hfull. destruct (add_start_wf t msec Hwf) as (Hwf1 & Eh & _).
  unfold add. destruct (Z.leb_spec msec 0); [lia|]. fold (add_start t msec). unfold push.
  rewrite Eh. destruct (Z.leb_spec (size (heap t)) (num (heap t))); [|lia]. simpl.
  rewrite <- Eh. by destruct (add_start t msec).
Qed.

(** The node of a timer leaves the table and the heap. *)
Lemma delete_wf t h tl hl n :
  timer_wf t -> tnodes t !! tl = Some n -> heap_node n = Some hl -> Heap.removed (heap t) hl h ->
  timer_wf (with_nodes (with_heap t h) (delete (id n) (map t)) (delete tl (tnodes t))).
Proof.
  intros Hwf Hn Hh (Hwf' & Hc & _ & Ht).
  destruct (tw_node _ Hwf tl n Hn) as (Hm & _ & _ & ? & [= <-]%(eq_trans (eq_sym Hh)) & Hch).
  split; simpl; [done|rewrite Ht; apply Hwf|..|apply Hwf|].
  - intros tl' n' [Hne Hn']%lookup_delete_Some.
    destruct (tw_node _ Hwf tl' n' Hn') as (Hm' & ? & ? & hl' & Hh' & Hch').
    split_and!; try done || lia.
    + rewrite lookup_delete_ne; [done|]. congruence.
    + exists hl'. split; [done|]. rewrite Hc, lookup_delete_ne; [done|]. congruence.
  - intros i tl' [Hne Hi]%lookup_delete_Some. destruct (tw_map _ Hwf i tl' Hi) as (n' & Hn' & Hi').
    exists n'. rewrite lookup_delete_ne; [done|]. congruence.
  - intros hl' p' tl'. rewrite Hc. intros [Hne Hl]%lookup_delete_Some.
    destruct (tw_heap_node _ Hwf _ _ _ Hl) as (n' & Hn' & Hh'). exists n'.
    rewrite lookup_delete_ne; [done|]. congruence.
  - intros i tl' [_ Hi]%lookup_delete_Some. by eapply tw_ids.
  - intros tl' n' [_ Hn']%lookup_delete_Some. by eapply tw_removed.
Qed.

(** The node of the running timer is only marked. *)
Lemma mark_wf t tl n :
  timer_wf t -> tnodes t !! tl = Some n -> 0 < current_id t -> id n = current_id t ->
  timer_wf (with_nodes t (map t) (<[tl := mark_removed n]> (tnodes t))).
Proof.
  intros Hwf Hn Hcur Hid. split; simpl; try apply Hwf.
  - intros tl' n' [[<- <-]|[Hne Hn']]%lookup_insert_Some; [simpl|]; by eapply tw_node.
  - intros i tl' Hi. destruct (tw_map _ Hwf i tl' Hi) as (n' & Hn' & Hi').
    destruct (decide (tl = tl')) as [<-|Hne].
    + rewrite lookup_insert_eq. eexists. split; [done|]. simpl. congruence.
    + rewrite lookup_insert_ne by done. eauto.
  - intros hl p tl' Hl. destruct (tw_heap_node _ Hwf _ _ _ Hl) as (n' & Hn' & Hh').
    destruct (decide (tl = tl')) as [<-|Hne].
    + rewrite lookup_insert_eq. eexists. split; [done|]. simpl. congruence.
    + rewrite lookup_insert_ne by done. eauto.
  - intros tl' n' [[<- <-]|[Hne Hn']]%lookup_insert_Some; [done|by eapply tw_removed].
Qed.

(** [remove] of an allocated node. *)
Lemma remove_node_spec t tl n hl :
  timer_wf t -> tnodes t !! tl = Some n -> heap_node n = Some hl ->
  removed n = true /\ remove_node t (Some tl) = Some (t, false) \/
  removed n = false /\ 0 < current_id t /\ id n = current_id t /\
    remove_node t (Some tl) = Some (with_nodes t (map t) (<[tl := mark_removed n]> (tnodes t)), true) \/
  removed n = false /\ ~ (0 < current_id t /\ id n = current_id t) /\
    exists h, remove (heap t) hl = Some h /\ Heap.removed (heap t) hl h /\
      remove_node t (Some tl) =
        Some (with_nodes (with_heap t h) (delete (id n) (map t)) (delete tl (tnodes t)), true).
Proof.
  intros Hwf Hn Hh. unfold remove_node. rewrite Hn. cbn [mbind option_bind].
  destruct (removed n); [by left|]. right.
  destruct (Z.ltb_spec 0 (current_id t)), (Z.eqb_spec (id n) (current_id t)); simpl; [by left|..];
    right; (split; [done|]); (split; [lia|]);
    destruct (tw_node _ Hwf tl n Hn) as (-> & _ & _ & ? & [= <-]%(eq_trans (eq_sym Hh)) & Hch);
    rewrite Hh; destruct (remove_spec (heap t) hl _ _ (tw_heap _ Hwf) Hch) as (h & Hr & ?);
    rewrite Hr; eauto.
Qed.

(** ** What a callback may do *)

(** The calls open to a callback while [select] runs with the clock reading
    [now]: adding timers, at that time or later, and removing allocated ones. *)
Inductive api_step (now : Z) (t : Timer) : Timer -> Prop :=
  | api_add clock msec persistent tl hl ok t' r :
      0 <= now <= clock -> msec < 2 ^ 62 -> clock + msec < 2 ^ 63 ->
      tnodes t !! tl = None -> store (heap t) !! hl = None -> num (heap t) < 2 ^ 30 ->
      add t clock msec persistent tl hl ok = Some (t', r) -> api_step now t t'
  | api_remove tl t' r :
      (forall l, tl = Some l -> is_Some (tnodes t !! l)) ->
      remove_node t tl = Some (t', r) -> api_step now t t'.

(** The same timer, possibly marked as removed. *)
Definition same_timer (n n' : TimerNode) : Prop :=
  id n' = id n /\ exec_msec n' = exec_msec n /\ interval n' = interval n /\
  tround n' = tround n /\ heap_node n' = heap_node n.

(** [t'] comes after [t] in one run of [select]: timers are the old ones or
    were added in this round and are not due yet. *)
Record later (now : Z) (t t' : Timer) : Prop := {
  lt_round : round t' = round t;
  lt_current : current_id t' = current_id t;
  lt_node tl n' : tnodes t' !! tl = Some n' ->
    (exists n, tnodes t !! tl = Some n /\ same_timer n n') \/
    now < exec_msec n' /\ tround n' = round t;
}.

(** The timer [n0] at [tl] is running: it is still allocated and still at the
    top of the heap. *)
Definition running (now : Z) (hl tl : loc) (n0 : TimerNode) (t : Timer) : Prop :=
  top (heap t) = Some (Some hl) /\ heap_node n0 = Some hl /\ id n0 = current_id t /\
  0 < current_id t /\ exec_msec n0 <= now /\
  exists n, tnodes t !! tl = Some n /\ same_timer n0 n.

Lemma same_timer_refl n : same_timer n n.
Proof. done. Qed.
Lemma same_timer_trans n1 n2 n3 : same_timer n1 n2 -> same_timer n2 n3 -> same_timer n1 n3.
Proof. unfold same_timer. intuition congruence. Qed.

#[local] Hint Resolve same_timer_refl same_timer_trans : sw.

Lemma later_refl now t : later now t t.
Proof. split; eauto with sw. Qed.

Lemma later_trans now t1 t2 t3 : later now t1 t2 -> later now t2 t3 -> later now t1 t3.
Proof.
  intros [Hr1 Hc1 Hn1] [Hr2 Hc2 Hn2]. split; [congruence|congruence|]. intros tl n3 H3.
  destruct (Hn2 tl n3 H3) as [(n2 & H2 & S23)|[? ?]]; [|right; split; [done|congruence]].
  destruct (Hn1 tl n2 H2) as [(n1 & H1 & S12)|[? ?]]; [left; eauto with sw|].
  right. unfold same_timer in S23. intuition (congruence || lia).
Qed.

(** The heap node of an allocated timer. *)
Lemma node_heap t tl n hl :
  timer_wf t -> tnodes t !! tl = Some n -> heap_node n = Some hl ->
  contents (heap t) !! hl = Some (exec_msec n, tl).
Proof.
  intros Hwf Hn Hh. destruct (tw_node _ Hwf tl n Hn) as (_ & _ & _ & ? & Hh' & ?). congruence.
Qed.

(** Two allocated nodes with one id are one node. *)
Lemma node_id_inj t tl tl' n n' :
  timer_wf t -> tnodes t !! tl = Some n -> tnodes t !! tl' = Some n' -> id n = id n' -> tl = tl'.
Proof.
  intros Hwf Hn Hn' E. destruct (tw_node _ Hwf _ _ Hn) as [? _].
  destruct (tw_node _ Hwf _ _ Hn') as [? _]. congruence.
Qed.

(** A call made by a callback keeps the invariant, touches no other timer and
    leaves the running timer at the top of the heap. *)
Lemma add_step_ok now clock t msec persistent tl hl ok t' r :
  timer_wf t -> 0 <= now <= clock -> msec < 2 ^ 62 -> clock + msec < 2 ^ 63 ->
  tnodes t !! tl = None -> store (heap t) !! hl = None -> num (heap t) < 2 ^ 30 ->
  add t clock msec persistent tl hl ok = Some (t', r) ->
  timer_wf t' /\ later now t t' /\ forall rhl rtl n0, running now rhl rtl n0 t -> running now rhl rtl n0 t'.
Proof.
  intros Hwf Hnow Hms Hexec Htl Hhl Hnum Hadd.
  destruct (add_start_wf t msec Hwf) as (Hwf1 & Eh & Em & En & Er & Ec & Ei).
  destruct (Z.leb_spec msec 0) as [Hle|Hpos].
  { unfold add in Hadd. destruct (Z.leb_spec msec 0); [|lia]. injection Hadd as <- <-.
    auto using later_refl. }
  destruct (decide (num (heap t) < size (heap t) \/ ok = true)) as [Hok|Hok]; cycle 1.
  { assert (size (heap t) <= num (heap t) /\ ok = false) as [Hs ->] by (destruct ok; lia || tauto).
    rewrite add_failed in Hadd by done. injection Hadd as <- <-. split_and!; [done| |].
    - split; rewrite ?En; eauto with sw.
    - unfold running. by rewrite Eh, Ec, En. }
  destruct (add_spec t clock msec persistent tl hl ok) as (h & Hp & Hwfh & Hn & Hc & Ha & Hwf');
    [done|lia..|done|done|lia|done|].
  rewrite Ha in Hadd. injection Hadd as <- <-. split_and!; [done| |].
  - split; simpl; [done|done|]. intros tl' n' [[<- <-]|[Hne Hl]]%lookup_insert_Some; [right|left].
    + split; simpl; [lia|done].
    + eauto with sw.
  - intros rhl rtl n0 (Htop & Hh0 & Hid & Hcur & Hdue & n & Hrn & Hsame).
    unfold running. simpl. rewrite Ec. split_and!; try done.
    + destruct Hsame as (_ & He & _ & _ & Hh).
      apply (push_keeps_top (heap t) h ok hl (clock + msec) tl rhl (exec_msec n) rtl);
        try done || lia || apply Hwf.
      eapply node_heap; [done|done|congruence].
    + exists n. rewrite lookup_insert_ne by congruence. done.
Qed.

Lemma remove_step_ok now t tl t' r :
  timer_wf t -> (forall l, tl = Some l -> is_Some (tnodes t !! l)) ->
  remove_node t tl = Some (t', r) ->
  timer_wf t' /\ later now t t' /\ forall rhl rtl n0, running now rhl rtl n0 t -> running now rhl rtl n0 t'.
Proof.
  intros Hwf Hlive Hrm. destruct tl as [tl|].
  2: { injection Hrm as <- <-. auto using later_refl. }
  destruct (Hlive tl eq_refl) as [n Hn].
  destruct (tw_node _ Hwf tl n Hn) as (_ & _ & _ & hl & Hh & Hch).
  destruct (remove_node_spec t tl n hl Hwf Hn Hh)
    as [[_ E]|[(_ & Hcur & Hid & E)|(Hnr & Hncur & h & Hr & Hrem & E)]];
    rewrite E in Hrm; injection Hrm as <- <-.
  - auto using later_refl.
  - split_and!; [by apply mark_wf| |].
    + split; simpl; [done|done|]. intros tl' n' [[<- <-]|[Hne Hl]]%lookup_insert_Some; left; eauto with sw.
      by exists n.
    + intros rhl rtl n0 (Htop & Hh0 & Hid0 & _ & Hdue & n' & Hrn & Hsame).
      unfold running. simpl. split_and!; try done.
      destruct (decide (tl = rtl)) as [<-|Hne].
      * rewrite lookup_insert_eq. simplify_eq. by exists (mark_removed n).
      * rewrite lookup_insert_ne by done. eauto.
  - split_and!; [by eapply delete_wf| |].
    + split; simpl; [done|done|]. intros tl' n' [_ Hl]%lookup_delete_Some. left. eauto with sw.
    + intros rhl rtl n0 (Htop & Hh0 & Hid0 & Hcur & Hdue & n' & Hrn & Hsame).
      assert (tl <> rtl) as Hne.
      { intros ->. simplify_eq. destruct Hsame as (Hi & _). apply Hncur. split; congruence. }
      assert (heap_node n' = Some rhl) as Hh' by (destruct Hsame as (_ & _ & _ & _ & ->); done).
      pose proof (node_heap _ _ _ _ Hwf Hrn Hh') as Hcr.
      unfold running. simpl. split_and!; try done.
      * eapply (remove_keeps_top (heap t)); eauto; [apply Hwf|congruence].
      * exists n'. rewrite lookup_delete_ne by done. done.
Qed.

Lemma api_step_ok now t t' :
  rtc (api_step now) t t' -> timer_wf t ->
  timer_wf t' /\ later now t t' /\ forall hl tl n0, running now hl tl n0 t -> running now hl tl n0 t'.
Proof.
  induction 1 as [t|t1 t2 t3 Hstep _ IH]; intros Hwf; [auto using later_refl|].
  assert (timer_wf t2 /\ later now t1 t2 /\
    forall hl tl n0, running now hl tl n0 t1 -> running now hl tl n0 t2) as (Hwf2 & Hl & Hrun).
  { destruct Hstep; [by eapply add_step_ok|by eapply remove_step_ok]. }
  destruct (IH Hwf2) as (? & ? & ?). split_and!; [done|by eapply later_trans|eauto].
Qed.

(** ** One run of [select] *)

(** The first multiple of the interval after [now]. *)
Lemma catch_up_spec fuel exec interval now :
  0 < interval -> now - exec + 1 <= Z.of_nat fuel ->
  exists e k, catch_up fuel exec interval now = Some e /\ e = exec + k * interval /\ 0 <= k /\
    now < e /\ e <= Z.max exec (now + interval).
Proof.
  intros Hi. revert exec. induction fuel as [|fuel IH]; intros exec Hf; cbn [catch_up];
    destruct (Z.ltb_spec now exec).
  1,3: exists exec, 0; split_and!; [done|lia..].
  - lia.
  - destruct (IH (exec + interval)) as (e & k & -> & He & Hk & Hlt & Hb); [lia|].
    exists e, (k + 1). split_and!; [done|lia..].
Qed.

(** The ids of the timers that are due at [now] and were not added in this
    round. *)
Definition dueb (t : Timer) (now : Z) (tl : loc) : bool :=
  match tnodes t !! tl with
  | Some n => (exec_msec n <=? now) && negb (tround n =? round t)
  | None => false
  end.
Definition due_set (t : Timer) (now : Z) : gset Z :=
  dom (filter (fun il => dueb t now il.2 = true) (map t)).

Lemma elem_of_due_set t now i :
  timer_wf t ->
  i ∈ due_set t now <->
  exists tl n, tnodes t !! tl = Some n /\ id n = i /\ exec_msec n <= now /\ tround n <> round t.
Proof.
  intros Hwf. unfold due_set. rewrite elem_of_dom. split.
  - intros [tl [Hi Hd]%map_lookup_filter_Some]. simpl in Hd. unfold dueb in Hd.
    destruct (tw_map _ Hwf i tl Hi) as (n & Hn & Hid). rewrite Hn in Hd. exists tl, n.
    bool_cases; naive_solver.
  - intros (tl & n & Hn & Hid & He & Hr). exists tl. apply map_lookup_filter_Some.
    destruct (tw_node _ Hwf tl n Hn) as (Hm & _). split; [congruence|]. simpl. unfold dueb.
    rewrite Hn. bool_cases; naive_solver lia.
Qed.

Lemma due_set_size t now : (base.size (due_set t now) <= base.size (map t))%nat.
Proof.
  unfold due_set. rewrite size_dom. apply map_subseteq_size, map_filter_subseteq.
Qed.

Lemma later_due t t' now :
  timer_wf t -> timer_wf t' -> later now t t' -> due_set t' now ⊆ due_set t now.
Proof.
  intros Hwf Hwf' [Hr _ Hn] i. rewrite !elem_of_due_set by done.
  intros (tl & n' & Hn' & Hid & He & Hround).
  destruct (Hn tl n' Hn') as [(n & Hnn & (? & ? & ? & ? & ?))|[? ?]]; [|lia].
  exists tl, n. split_and!; [done|congruence|lia|congruence].
Qed.

(** Nothing is marked as removed while no callback runs. *)
Definition idle (t : Timer) : Prop := timer_wf t /\ current_id t = -1.

Lemma idle_not_removed t tl n : idle t -> tnodes t !! tl = Some n -> removed n = false.
Proof.
  intros [Hwf Hc] Hn. destruct (removed n) eqn:E; [|done].
  destruct (tw_removed _ Hwf tl n Hn E). lia.
Qed.

Lemma with_current_wf t c :
  timer_wf t -> (forall tl n, tnodes t !! tl = Some n -> removed n = false) ->
  timer_wf (with_current t c).
Proof.
  intros [] Hrm. split; simpl; try done. intros tl n Hn. by rewrite (Hrm tl n Hn).
Qed.

(** The running timer leaves: it ran once, or was removed. *)
Lemma finish_pop now t hl tl n0 :
  timer_wf t -> running now hl tl n0 t ->
  exists h d n, tnodes t !! tl = Some n /\ same_timer n0 n /\ pop (heap t) = Some (h, d) /\
    idle (with_current (with_nodes (with_heap t h) (delete (id n) (map t)) (delete tl (tnodes t))) (-1)).
Proof.
  intros Hwf (Htop & Hh0 & Hid & Hcur & _ & n & Hn & Hsame).
  destruct (pop_spec (heap t)) as [(_ & _ & Hc)|(h & l & p & d & Ht & Hc & _ & Hp & Hrem)];
    [apply Hwf| |].
  { assert (heap_node n = Some hl) as Hh by (destruct Hsame as (_ & _ & _ & _ & ->); done).
    pose proof (node_heap _ _ _ _ Hwf Hn Hh) as Hx. rewrite Hc in Hx. done. }
  rewrite Htop in Ht. injection Ht as <-. exists h, (Some d), n. split_and!; [done..|].
  split; [|done]. apply with_current_wf.
  - eapply delete_wf; [done|done| |done]. destruct Hsame as (_ & _ & _ & _ & ->). done.
  - simpl. intros tl' n' [Hne Hn']%lookup_delete_Some. destruct (removed n') eqn:E; [|done].
    destruct (tw_removed _ Hwf tl' n' Hn' E) as [_ Hid'].
    destruct Hne. eapply node_id_inj; [done..|]. destruct Hsame as [-> _]. congruence.
Qed.

(** A new due time for a timer. *)
Lemma reprio_wf t h tl hl n e c :
  timer_wf t -> tnodes t !! tl = Some n -> heap_node n = Some hl -> 0 <= e < 2 ^ 63 ->
  heap_wf h -> contents h = <[hl := (e, tl)]> (contents (heap t)) -> type h = type (heap t) ->
  timer_wf (with_nodes (with_heap t h) (map t) (<[tl := with_exec n e c]> (tnodes t))).
Proof.
  intros Hwf Hn Hh He Hwfh Hc Ht. pose proof (node_heap _ _ _ _ Hwf Hn Hh) as Hch.
  split; simpl; try done; try apply Hwf.
  - rewrite Ht. apply Hwf.
  - intros tl' n' [[<- <-]|[Hne Hn']]%lookup_insert_Some; simpl.
    + destruct (tw_node _ Hwf tl n Hn) as (? & _ & ? & _). split_and!; try done || lia.
      exists hl. by rewrite Hc, lookup_insert_eq.
    + destruct (tw_node _ Hwf tl' n' Hn') as (? & ? & ? & hl' & Hh' & Hch').
      split_and!; try done || lia. exists hl'. rewrite Hc, lookup_insert_ne; [done|]. congruence.
  - intros i tl' Hi. destruct (tw_map _ Hwf i tl' Hi) as (n' & Hn' & Hi').
    destruct (decide (tl = tl')) as [<-|Hne].
    + rewrite lookup_insert_eq. eexists. split; [done|]. simpl. congruence.
    + rewrite lookup_insert_ne by done. eauto.
  - intros hl' p tl'. rewrite Hc. intros [[<- [= <- <-]]|[Hne Hl]]%lookup_insert_Some.
    { rewrite lookup_insert_eq. eauto. }
    destruct (tw_heap_node _ Hwf _ _ _ Hl) as (n' & Hn' & Hh'). exists n'.
    rewrite lookup_insert_ne; [done|]. congruence.
  - intros tl' n' [[<- <-]|[Hne Hn']]%lookup_insert_Some;
      [exact (tw_removed _ Hwf tl n Hn)|by eapply tw_removed].
Qed.

(** The running timer is persistent and was not removed. *)
Lemma finish_persistent now t hl tl n0 n :
  timer_wf t -> running now hl tl n0 t -> 0 <= now < 2 ^ 62 ->
  tnodes t !! tl = Some n -> 0 < interval n -> removed n = false ->
  exists e h, catch_up (Z.to_nat (now - exec_msec n + 1)) (exec_msec n) (interval n) now = Some e /\
    now < e /\ u64 e = e /\ change_priority (heap t) e hl = Some h /\
    idle (with_current (with_nodes (with_heap t h) (map t)
            (<[tl := with_exec n e (u64 (exec_count n + 1))]> (tnodes t))) (-1)).
Proof.
  intros Hwf (Htop & Hh0 & Hid & Hcur & Hdue & n' & Hn' & Hsame) Hnow Hn Hi Hrm.
  rewrite Hn in Hn'. injection Hn' as <-.
  destruct (tw_node _ Hwf tl n Hn) as (_ & Hexec & Hint & _).
  destruct (catch_up_spec (Z.to_nat (now - exec_msec n + 1)) (exec_msec n) (interval n) now)
    as (e & k & He & _ & _ & Hlt & Hb); [done|lia|].
  assert (heap_node n = Some hl) as Hh by (destruct Hsame as (_ & _ & _ & _ & ->); done).
  assert (exec_msec n <= now) by (destruct Hsame as (_ & -> & _); done).
  destruct (change_priority_spec (heap t) hl (exec_msec n) e tl) as (h & Hcp & Hwfh & Hc & _ & Ht);
    [apply Hwf|by eapply node_heap|].
  exists e, h. split_and!; [done..| |done|].
  { apply uN_small. unfold fits. lia. }
  split; [|done]. apply with_current_wf.
  - eapply reprio_wf; try done. lia.
  - simpl. intros tl' m [[<- <-]|[Hne Hm]]%lookup_insert_Some; [done|].
    destruct (removed m) eqn:E; [|done]. destruct (tw_removed _ Hwf tl' m Hm E) as [_ Hid'].
    destruct Hne. eapply node_id_inj; [done..|]. destruct Hsame as [-> _]. congruence.
Qed.

Section select_proof.
Context {W : Type} (callback : W -> Timer -> loc -> option (W * Timer)) (now : Z).

(** [runs w ids w']: the callbacks of the timers [ids] ran in this order and
    took the rest of the program from [w] to [w']. *)
Inductive runs : W -> list Z -> W -> Prop :=
  | runs_nil w : runs w [] w
  | runs_cons w w' w'' t t' tl n ids :
      tnodes t !! tl = Some n -> current_id t = id n -> callback w t tl = Some (w', t') ->
      runs w' ids w'' -> runs w (id n :: ids) w''.

(** Callbacks return, and touch the timer through its interface only. *)
Definition callback_ok : Prop := forall w t tl n,
  timer_wf t -> tnodes t !! tl = Some n -> current_id t = id n ->
  exists w' t', callback w t tl = Some (w', t') /\ rtc (api_step now) t t'.

(** Where the loop stops. *)
Definition stopped (t : Timer) (r : option TimerNode) : Prop :=
  match r with
  | None => tnodes t = ∅
  | Some n => (exists tl, tnodes t !! tl = Some n) /\
      (forall tl' n', tnodes t !! tl' = Some n' -> exec_msec n <= exec_msec n') /\
      (now < exec_msec n \/ tround n = round t)
  end.

Lemma stopped_empty t : timer_wf t -> contents (heap t) = ∅ -> stopped t None.
Proof.
  intros Hwf Hc. apply map_empty. intros tl. destruct (tnodes t !! tl) as [n|] eqn:Hn; [|done].
  destruct (tw_node _ Hwf tl n Hn) as (_ & _ & _ & hl & _ & Hch). by rewrite Hc in Hch.
Qed.

Lemma stopped_top t hl p tl n :
  timer_wf t -> top (heap t) = Some (Some hl) -> contents (heap t) !! hl = Some (p, tl) ->
  tnodes t !! tl = Some n -> heap_node n = Some hl ->
  now < exec_msec n \/ tround n = round t -> stopped t (Some n).
Proof.
  intros Hwf Htop Hc Hn Hh Hor. split_and!; [by eauto| |done]. intros tl' n' Hn'.
  destruct (tw_node _ Hwf tl' n' Hn') as (_ & _ & _ & hl' & _ & Hch').
  pose proof (node_heap _ _ _ _ Hwf Hn Hh).
  eapply (top_min (heap t) hl); try done; apply Hwf.
Qed.

(** A timer that left or is no longer due is not due any more. *)
Lemma due_shrinks t t' tl n :
  timer_wf t -> timer_wf t' -> round t' = round t -> tnodes t !! tl = Some n ->
  (forall tl' n', tnodes t' !! tl' = Some n' ->
     tl' <> tl /\ tnodes t !! tl' = Some n' \/ now < exec_msec n') ->
  due_set t' now ⊆ due_set t now ∖ {[id n]}.
Proof.
  intros Hwf Hwf' Hr Hn H i. rewrite elem_of_difference, !elem_of_due_set by done.
  intros (tl' & n' & Hn' & Hi & He & Hround).
  destruct (H tl' n' Hn') as [[Hne Hnn]|?]; [|lia].
  split; [exists tl', n'; split_and!; try done; congruence|].
  rewrite elem_of_singleton. intros ->. apply Hne. exact (node_id_inj t tl' tl n' n Hwf Hnn Hn Hi).
Qed.

(** What [select] does once the callback of the top timer has returned. *)
Lemma select_finish fuel w t hl tl n0 :
  0 <= now < 2 ^ 62 -> timer_wf t -> running now hl tl n0 t ->
  exists t', idle t' /\ round t' = round t /\ due_set t' now ⊆ due_set t now ∖ {[id n0]} /\
    (let t := with_current t (-1) in
     n ← tnodes t !! tl;
     if (0 <? interval n) && negb (removed n) then
       e ← catch_up (Z.to_nat (now - exec_msec n + 1)) (exec_msec n) (interval n) now;
       h ← change_priority (heap t) (u64 e) hl;
       select_loop callback fuel w
         (with_nodes (with_heap t h) (map t)
            (<[tl := with_exec n e (u64 (exec_count n + 1))]> (tnodes t))) now
     else
       '(h, _) ← pop (heap t);
       select_loop callback fuel w
         (with_nodes (with_heap t h) (delete (id n) (map t)) (delete tl (tnodes t))) now)
    = select_loop callback fuel w t' now.
Proof.
  intros Hnow Hwf Hrun. destruct (finish_pop _ _ _ _ _ Hwf Hrun) as (h & d & n & Hn & Hsame & Hp & Hi1).
  cbn zeta. cbn [tnodes heap with_current]. rewrite Hn. cbn [mbind option_bind].
  replace (id n0) with (id n) by apply Hsame.
  destruct (Z.ltb_spec 0 (interval n)) as [Hint|]; [destruct (removed n) eqn:Hrm|]; cbn [andb negb].
  2: { destruct (finish_persistent _ _ _ _ _ n Hwf Hrun) as (e & h' & He & Hlt & Eu & Hcp & Hi2); [done..|].
    rewrite He. cbn [mbind option_bind]. rewrite Eu, Hcp. cbn [mbind option_bind].
    eexists. split_and!; [exact Hi2|done| |done].
    apply (due_shrinks t _ tl n); [done|apply Hi2|done|done|].
    simpl. intros tl' n' [[<- <-]|[Hne Hl]]%lookup_insert_Some; [by right|by left]. }
  all: rewrite Hp; cbn [mbind option_bind]; eexists; (split_and!; [exact Hi1|done| |done]);
    apply (due_shrinks t _ tl n); [done|apply Hi1|done|done|];
    simpl; intros tl' n' [Hne Hl]%lookup_delete_Some; by left.
Qed.

(** One iteration that runs the timer at the top of the heap. *)
Lemma select_iteration fuel w t hl p tl n :
  callback_ok -> 0 <= now < 2 ^ 62 -> idle t ->
  top (heap t) = Some (Some hl) -> contents (heap t) !! hl = Some (p, tl) ->
  tnodes t !! tl = Some n -> heap_node n = Some hl ->
  exec_msec n <= now -> tround n <> round t ->
  exists w' t', select_loop callback (S fuel) w t now = select_loop callback fuel w' t' now /\
    (forall ids w'', runs w' ids w'' -> runs w (id n :: ids) w'') /\
    idle t' /\ round t' = round t /\ due_set t' now ⊆ due_set t now ∖ {[id n]}.
Proof.
  intros Hcb Hnow Hidle Htop Hc Hn Hh Hdue Hround.
  pose proof (idle_not_removed t tl n Hidle Hn) as Hrm. pose proof (proj1 Hidle) as Hwf.
  destruct (tw_node _ Hwf tl n Hn) as (Hm & _ & _ & _).
  pose proof (tw_ids _ Hwf _ _ Hm) as Hid.
  assert (timer_wf (with_current t (id n))) as Hwf1.
  { apply with_current_wf; [done|]. intros. by eapply idle_not_removed. }
  destruct (Hcb w (with_current t (id n)) tl n Hwf1 Hn eq_refl) as (w' & t1 & Ecb & Hsteps).
  destruct (api_step_ok now _ _ Hsteps Hwf1) as (Hwf2 & Hlater & Hrun).
  assert (running now hl tl n t1) as Hr1.
  { apply Hrun. split_and!; try done; simpl; [lia|]. eauto using same_timer_refl. }
  assert (exists hn, deref (heap t) hl = Some hn /\ data hn = tl) as (hn & Ehn & Edata).
  { unfold deref. rewrite contents_lookup in Hc. destruct (store (heap t) !! hl); [|done].
    injection Hc as <- <-. eauto. }
  destruct (select_finish fuel w' t1 hl tl n Hnow Hwf2 Hr1) as (t' & Hi & Hr & Hd & E).
  exists w', t'. split_and!; [|intros; by eapply (runs_cons w w' _ (with_current t (id n)))|done|by rewrite Hr, (lt_round _ _ _ Hlater)|].
  - cbn [select_loop]. rewrite Htop. cbn [mbind option_bind]. rewrite Ehn. cbn [mbind option_bind].
    rewrite Edata, Hn. cbn [mbind option_bind].
    destruct (Z.ltb_spec now (exec_msec n)), (Z.eqb_spec (tround n) (round t)); [lia|lia|done|].
    cbn [orb]. rewrite Hrm, Ecb. cbn [mbind option_bind]. exact E.
  - pose proof (later_due _ _ _ Hwf1 Hwf2 Hlater) as Hsub. clear -Hd Hsub. set_solver.
Qed.

Lemma select_loop_spec fuel w t :
  callback_ok -> 0 <= now < 2 ^ 62 -> idle t -> (base.size (due_set t now) < fuel)%nat ->
  exists w' t' r ids, select_loop callback fuel w t now = Some (w', t', r) /\ idle t' /\
    round t' = round t /\ stopped t' r /\ runs w ids w' /\ NoDup ids /\
    (forall i, i ∈ ids -> i ∈ due_set t now).
Proof.
  intros Hcb Hnow. revert w t. induction fuel as [|fuel IH]; intros w t Hidle Hfuel; [lia|].
  pose proof (proj1 Hidle) as Hwf.
  destruct (top_cases (heap t)) as [[Ht Hc]|(hl & p & tl & Ht & Hc)]; [apply Hwf| |].
  { exists w, t, None, []. cbn [select_loop]. rewrite Ht.
    split_and!; try done; [by apply stopped_empty|constructor|constructor|].
    intros i []%not_elem_of_nil. }
  destruct (tw_heap_node _ Hwf _ _ _ Hc) as (n & Hn & Hh).
  destruct (decide (now < exec_msec n \/ tround n = round t)) as [Hstop|Hgo].
  - exists w, t, (Some n), []. split_and!; try done; [|by eapply stopped_top|constructor|constructor|].
    + cbn [select_loop]. rewrite Ht. cbn [mbind option_bind]. unfold deref.
      rewrite contents_lookup in Hc. destruct (store (heap t) !! hl) as [hn|]; [|done].
      injection Hc as <- <-. cbn [mbind option_bind]. rewrite Hn. cbn [mbind option_bind].
      destruct (Z.ltb_spec now (exec_msec n)), (Z.eqb_spec (tround n) (round t));
        (done || (exfalso; lia)).
    + intros i []%not_elem_of_nil.
  - assert (exec_msec n <= now /\ tround n <> round t) as [Hdue Hround] by lia.
    destruct (select_iteration fuel w t hl p tl n) as (w1 & t1 & -> & Hruns & Hi1 & Hr1 & Hsub); [done..|].
    assert (id n ∈ due_set t now) as Hin by (rewrite elem_of_due_set by done; eauto 6).
    destruct (IH w1 t1 Hi1) as (w' & t' & r & ids & -> & Hi' & Hr' & Hst & Hruns' & Hnd & Hall).
    { assert (base.size (due_set t1 now) < base.size (due_set t now))%nat; [|lia].
      apply subset_size. clear -Hsub Hin. set_solver. }
    exists w', t', r, (id n :: ids). split_and!; try done; [congruence|by apply Hruns| |].
    + constructor; [|done]. intros Hx%Hall. clear -Hsub Hx. set_solver.
    + intros i [->|Hx%Hall]%elem_of_cons; [done|]. clear -Hsub Hx. set_solver.
Qed.
End select_proof.

(** ** Theorems *)

(** C1: [Timer::select] returns whatever the callbacks do with timers through the public
    [add] and [remove]: no access to freed or unknown nodes, the heap, the table and the
    nodes still agree, each timer runs at most once, and only if it was due and not
    added since the previous run.  Afterwards either no timer is left and the event loop
    sleeps for ever (-1), or the sleep is the time to the earliest timer, at least one
    millisecond; that timer lies in the future unless it was added in this very round.
    Conditions: the callbacks return and use the timers only through add and remove, and
    the time is below 2^62 milliseconds. *)
Theorem select_correct {W} (callback : W -> Timer -> loc -> option (W * Timer)) now w t :
  callback_ok callback now -> 0 <= now < 2 ^ 62 -> idle t ->
  exists w' t' ids, select callback w t now = Some (w', t') /\ idle t' /\
    round t' = u64 (round t + 1) /\ timeout_msec t' = next_msec t' /\
    runs callback w ids w' /\ NoDup ids /\ (forall i, i ∈ ids -> i ∈ due_set t now) /\
    (tnodes t' = ∅ /\ next_msec t' = -1 \/
     exists tl n, tnodes t' !! tl = Some n /\ next_msec t' = Z.max 1 (exec_msec n - now) /\
       (forall tl' n', tnodes t' !! tl' = Some n' -> exec_msec n <= exec_msec n') /\
       (now < exec_msec n \/ tround n = round t)).
Proof.
  intros Hcb Hnow Hidle.
  destruct (select_loop_spec callback now (S (base.size (map t))) w t)
    as (w' & t' & r & ids & E & [Hwf Hc] & Hr & Hst & Hruns & Hnd & Hids); [done..| |].
  { pose proof (due_set_size t now). lia. }
  unfold select. rewrite E. cbn [mbind option_bind].
  eexists w', _, ids. split; [done|].
  assert (forall m, idle (with_round (with_next t' m) (u64 (round t' + 1)))) as Hi.
  { intros m. split; [|done]. by destruct Hwf; split. }
  destruct r as [n|]; simpl in Hst.
  - destruct Hst as ((tl & Hn) & Hmin & Hor).
    split_and!; try done; [simpl; by rewrite Hr|]. right. exists tl, n. simpl.
    split_and!; [done| |done|by rewrite <- Hr]. destruct (Z.leb_spec (exec_msec n - now) 0); lia.
  - split_and!; try done; [simpl; by rewrite Hr|]. by left.
Qed.

(** [Timer::add] rejects a delay that is not positive without a change of
    state; otherwise, when the heap has room or can grow, it returns a new node
    that is due [msec] from now, found under a new id, re-armed with the same
    period exactly if it is persistent, and shortens the sleep of the event
    loop to [msec] if it was longer; when the heap cannot grow it returns null
    and no timer changes. *)
Theorem add_correct t now msec persistent tl hl ok :
  idle t -> 0 <= now -> msec < 2 ^ 62 -> now + msec < 2 ^ 63 ->
  tnodes t !! tl = None -> store (heap t) !! hl = None -> num (heap t) < 2 ^ 30 ->
  exists t' r, add t now msec persistent tl hl ok = Some (t', r) /\ idle t' /\
    (msec <= 0 /\ r = None /\ t' = t \/
     0 < msec /\ (next_msec t' = if next_msec t <? 0 then msec else Z.min (next_msec t) msec) /\
     (r = None /\ ok = false /\ size (heap t) <= num (heap t) /\ tnodes t' = tnodes t /\ map t' = map t \/
      r = Some tl /\ get t (next_id t) = None /\ get t' (next_id t) = Some tl /\
      tnodes t' = <[tl := new_node t now msec persistent hl]> (tnodes t))).
Proof.
  intros [Hwf Hcur] Hnow Hms Hexec Htl Hhl Hnum.
  destruct (Z.leb_spec msec 0) as [Hle|Hpos].
  { unfold add. destruct (Z.leb_spec msec 0); [|lia]. eexists _, _. split; [done|]. split; [by split|]. auto. }
  destruct (add_start_wf t msec Hwf) as (Hwf1 & Eh & Em & En & Er & Ec & Ei).
  assert (next_msec (add_start t msec) = if next_msec t <? 0 then msec else Z.min (next_msec t) msec) as Hnext.
  { unfold add_start. simpl. bool_cases; simpl; lia. }
  destruct (decide (num (heap t) < size (heap t) \/ ok = true)) as [Hok|Hok].
  - destruct (add_spec t now msec persistent tl hl ok) as (h & Hp & Hwfh & Hn & Hc & -> & Hwf');
      [done|lia..|done|done|lia|done|].
    eexists _, _. split; [done|]. split; [split; [done|simpl; congruence]|]. right. split_and!; [done|done|]. right.
    split_and!; [done| |apply lookup_insert_eq|done]. unfold get.
    destruct (map t !! next_id t) as [x|] eqn:E; [|done]. pose proof (tw_ids _ Hwf _ _ E). lia.
  - assert (size (heap t) <= num (heap t) /\ ok = false) as [Hs ->] by (destruct ok; lia || tauto).
    rewrite add_failed by done. eexists _, _. split; [done|]. split; [split; [done|congruence]|]. right. auto 10.
Qed.

(** [Timer::remove] by id takes exactly that timer out of the table, the
    heap and memory and answers true; an unknown id, which includes every timer
    removed before, is answered with false and changes nothing; the running
    timer is only marked, so that [select] frees it after its callback. *)
Theorem remove_id_correct t i :
  timer_wf t ->
  exists t' b, remove_id t i = Some (t', b) /\ timer_wf t' /\
    match get t i with
    | None => b = false /\ t' = t
    | Some tl =>
        if decide (0 < current_id t /\ i = current_id t)
        then map t' = map t /\ heap t' = heap t /\
             (exists n, tnodes t !! tl = Some n /\ b = negb (removed n) /\
                        tnodes t' = <[tl := mark_removed n]> (tnodes t))
        else b = true /\ map t' = delete i (map t) /\ tnodes t' = delete tl (tnodes t) /\
             get t' i = None
    end.
Proof.
  intros Hwf. unfold remove_id. destruct (get t i) as [tl|] eqn:Hg; cycle 1.
  { by exists t, false. }
  unfold get in *. destruct (tw_map _ Hwf i tl Hg) as (n & Hn & Hid).
  destruct (tw_node _ Hwf tl n Hn) as (_ & _ & _ & hl & Hh & Hch).
  destruct (remove_node_spec t tl n hl Hwf Hn Hh)
    as [[Hrm ->]|[(Hrm & Hcur & Hid' & ->)|(Hrm & Hncur & h & Hr & Hrem & ->)]];
    eexists _, _; (split; [done|]).
  - split; [done|]. destruct (tw_removed _ Hwf tl n Hn Hrm) as [??].
    rewrite decide_True by (split; [done|congruence]). split_and!; [done..|].
    exists n. rewrite Hrm. split_and!; [done..|]. rewrite insert_id; [done|]. rewrite Hn.
    f_equal. unfold mark_removed. destruct n; simpl in *; congruence.
  - split; [by apply mark_wf|]. rewrite decide_True by (split; [done|congruence]).
    split_and!; [done..|]. exists n. by rewrite Hrm.
  - split; [by eapply delete_wf|]. rewrite decide_False by (rewrite <- Hid; done). simpl.
    rewrite Hid. split_and!; [done..|]. apply lookup_delete_eq.
Qed.

(** ** Witnesses *)

(** Two timers, due at 5 and at 8, seen one round later. *)
Definition demo_timer : option Timer :=
  '(t, _) ← add timer_make 0 5 false 1%positive 11%positive true;
  '(t, _) ← add t 0 8 true 2%positive 12%positive true;
  Some (with_round t 1).

Lemma demo_timer_idle : exists t, demo_timer = Some t /\ idle t.
Proof.
  assert (('(t, _) ← add timer_make 0 5 false 1%positive 11%positive true;
           Some (tnodes t !! 2%positive, store (heap t) !! 12%positive, num (heap t)))
          = Some (None, None, 2)) as H1 by (vm_compute; reflexivity).
  assert (is_Some demo_timer) as [t E] by (vm_compute; eauto).
  exists t. split; [exact E|]. unfold demo_timer in E.
  destruct (add timer_make 0 5 false 1 11 true) as [[t1 r1]|] eqn:E0; [|discriminate H1].
  injection H1 as Ht Hh Hn. cbn [mbind option_bind] in E.
  inv_bind. destruct x as [t2 r2]. injection E as <-.
  destruct (add_step_ok 0 0 timer_make 5 false 1 11 true t1 r1 timer_make_wf) as (Hwf1 & Hl1 & _);
    [done..|].
  destruct (add_step_ok 0 0 t1 8 true 2 12 true t2 r2 Hwf1) as (Hwf2 & Hl2 & _);
    [done || lia..|].
  split; [by destruct Hwf2; split|]. simpl. by rewrite (lt_current _ _ _ Hl2), (lt_current _ _ _ Hl1).
Qed.

(** A callback that removes its own timer. *)
Definition self_removing (w : nat) (t : Timer) (tl : loc) : option (nat * Timer) :=
  '(t, _) ← remove_node t (Some tl); Some (S w, t).

Lemma self_removing_ok now : callback_ok self_removing now.
Proof.
  intros w t tl n Hwf Hn _. unfold self_removing.
  destruct (tw_node _ Hwf tl n Hn) as (_ & _ & _ & hl & Hh & _).
  assert (forall t' b, remove_node t (Some tl) = Some (t', b) -> rtc (api_step now) t t') as Hstep.
  { intros. eapply rtc_once, api_remove; [|done]. intros ? [= <-]. eauto. }
  destruct (remove_node_spec t tl n hl Hwf Hn Hh)
    as [[_ E]|[(_ & _ & _ & E)|(_ & _ & h & _ & _ & E)]]; rewrite E; simpl; eauto.
Qed.

Lemma select_correct_witness : exists t, demo_timer = Some t /\
  exists w' t' ids, select self_removing 0%nat t 10 = Some (w', t') /\ idle t' /\
    round t' = u64 (round t + 1) /\ timeout_msec t' = next_msec t' /\
    runs self_removing 0%nat ids w' /\ NoDup ids /\ (forall i, i ∈ ids -> i ∈ due_set t 10) /\
    (tnodes t' = ∅ /\ next_msec t' = -1 \/
     exists tl n, tnodes t' !! tl = Some n /\ next_msec t' = Z.max 1 (exec_msec n - 10) /\
       (forall tl' n', tnodes t' !! tl' = Some n' -> exec_msec n <= exec_msec n') /\
       (10 < exec_msec n \/ tround n = round t)).
Proof.
  destruct demo_timer_idle as (t & E & Hi). exists t. split; [exact E|].
  exact (select_correct self_removing 10 0%nat t (self_removing_ok 10) ltac:(lia) Hi).
Defined.

(** ** Delaying the running timer *)

(** A callback that postpones its own timer. *)
Definition postpone (w : unit) (t : Timer) (tl : loc) : option (unit * Timer) :=
  t ← delay t 10 tl 100; Some (w, t).

(** The first iteration of [select] at time 10 on [demo_timer]: the callback of
    timer 1, then the pop and the release of timer 1. *)
Definition demo_postponed : option Timer :=
  t ← demo_timer;
  t ← delay (with_current t 1) 10 1%positive 100;
  '(h, _) ← pop (heap t);
  Some (with_nodes (with_heap (with_current t (-1)) h) (delete 1 (map t)) (delete 1%positive (tnodes t))).

Definition dangling_top (t : Timer) : bool :=
  match top (heap t) with
  | Some (Some hl) =>
      match deref (heap t) hl with
      | Some n => bool_decide (tnodes t !! data n = None)
      | None => false
      end
  | _ => false
  end.

Lemma postpone_iteration fuel t t2 hl hn n n2 h d :
  top (heap t) = Some (Some hl) -> deref (heap t) hl = Some hn -> tnodes t !! data hn = Some n ->
  (10 <? exec_msec n) || (tround n =? round t) = false -> removed n = false ->
  delay (with_current t (id n)) 10 (data hn) 100 = Some t2 ->
  tnodes t2 !! data hn = Some n2 -> interval n2 = 0 -> pop (heap t2) = Some (h, d) ->
  select_loop postpone (S fuel) tt t 10 =
  select_loop postpone fuel tt
    (with_nodes (with_heap (with_current t2 (-1)) h) (delete (id n2) (map t2))
       (delete (data hn) (tnodes t2))) 10.
Proof.
  intros Ht Hd Hn Hgo Hrm Hdel Hn2 Hi Hp. cbn [select_loop].
  rewrite Ht. cbn [mbind option_bind]. rewrite Hd. cbn [mbind option_bind].
  rewrite Hn. cbn [mbind option_bind]. rewrite Hgo, Hrm. unfold postpone.
  rewrite Hdel. cbn [mbind option_bind tnodes with_current]. rewrite Hn2. cbn [mbind option_bind].
  rewrite Hi. cbn [Z.ltb Z.compare andb heap with_current]. by rewrite Hp.
Qed.

(** A one-shot timer that calls [Timer::delay] on itself from its callback
    is no longer at the top of the heap when [select] pops, so that [select]
    pops another timer's heap node and releases the running one, whose heap
    node stays: the next iteration reads a freed [TimerNode]. *)
Theorem delay_in_callback_dangles : exists t t1,
  demo_timer = Some t /\ demo_postponed = Some t1 /\
  (forall fuel, select_loop postpone (S fuel) tt t 10 = select_loop postpone fuel tt t1 10) /\
  dangling_top t1 = true /\ select postpone tt t 10 = None.
Proof.
  assert ((t ← demo_timer; t2 ← delay (with_current t 1) 10 1%positive 100; '(_, d) ← pop (heap t2);
           Some (top (heap t), deref (heap t) 11%positive, tnodes t !! 1%positive, round t,
                 tnodes t2 !! 1%positive, d))
          = Some (Some (Some 11%positive), Some (mkNode 5 1 1%positive),
                  Some (mkTimerNode 1 TYPE_KERNEL 5 0 0 0 false (Some 11%positive)), 1,
                  Some (mkTimerNode 1 TYPE_KERNEL 110 0 0 0 false (Some 11%positive)),
                  Some 2%positive)) as H by (vm_compute; reflexivity).
  assert (dangling_top <$> demo_postponed = Some true) as Hdang by (vm_compute; reflexivity).
  assert ((t ← demo_timer; select postpone tt t 10) = None) as Hsel by (vm_compute; reflexivity).
  unfold demo_postponed in *.
  destruct demo_timer as [t|]; [|discriminate H]. cbn [mbind option_bind] in *.
  destruct (delay (with_current t 1) 10 1 100) as [t2|] eqn:E2; [|discriminate H].
  cbn [mbind option_bind] in *.
  destruct (pop (heap t2)) as [[h d]|] eqn:Ep; [|discriminate H]. cbn [mbind option_bind] in *.
  injection H as Htop Hderef Hn Hround Hn2 _. injection Hdang as Hdang.
  eexists t, _. split_and!; [done|done| |exact Hdang|exact Hsel].
  intros fuel.
  refine (postpone_iteration fuel t t2 _ _ _ _ h d Htop Hderef Hn _ eq_refl E2 Hn2 eq_refl Ep).
  by rewrite Hround.
Qed.
