(* ===== verification/MemPool.v ===== *)
(** * The memory pool interface

    [class MemoryPool] of [include/swoole_memory.h]: what [FixedPool],
    [RingBuffer] and [GlobalMemory] promise to their users.  Addresses are
    integers, [0] is the null pointer, and an allocation that was handed out is
    a region, kept in a map from its start to its length. *)

From stdpp Require Import base list gmap.
From S2P Require Import Prelude.

(** [SW_MEM_ALIGNED_SIZE] of a value computed in 64 bits *)
Definition aligned8 (n : Z) : Z := Z.land (n + 7) (Z.lnot 7).

Lemma aligned8_eq n : aligned8 n = 8 * ((n + 7) / 8).
Proof.
  unfold aligned8. change 7 with (Z.ones 3) at 2. rewrite <- Z.ldiff_land, Z.ldiff_ones_r by lia.
  rewrite Z.shiftr_div_pow2, Z.shiftl_mul_pow2 by lia. change (2 ^ 3) with 8. lia.
Qed.

Lemma aligned8_spec n : n <= aligned8 n < n + 8 /\ (8 | aligned8 n).
Proof.
  rewrite aligned8_eq. pose proof (Z.div_mod (n + 7) 8). pose proof (Z.mod_pos_bound (n + 7) 8).
  split; [lia|]. eexists. apply Z.mul_comm.
Qed.

Definition regions_disjoint (m : gmap Z Z) : Prop := forall a n b k,
  m !! a = Some n -> m !! b = Some k -> a <> b -> a + n <= b \/ b + k <= a.

Class MemoryPool (P E : Type) := {
  (** [alloc(size)], given what the environment [E] answers, and [free(ptr)] *)
  pool_alloc : P -> E -> Z -> option (P * Z);
  pool_free : P -> Z -> option P;
  (** the regions handed out, the sizes that may be asked for, the invariant *)
  pool_live : P -> gmap Z Z;
  pool_max : Z;
  pool_inv : P -> Prop;
  pool_env_ok : P -> E -> Prop;
  pool_alloc_ok p e size :
    pool_inv p -> pool_env_ok p e -> 0 < size <= pool_max ->
    exists p' ptr, pool_alloc p e size = Some (p', ptr) /\ pool_inv p' /\
      (ptr = 0 /\ pool_live p' = pool_live p \/
       ptr <> 0 /\ pool_live p !! ptr = None /\
       exists n, size <= n /\ pool_live p' = <[ptr := n]> (pool_live p));
  pool_free_ok p ptr :
    pool_inv p -> is_Some (pool_live p !! ptr) ->
    exists p', pool_free p ptr = Some p' /\ pool_inv p' /\
      forall b, b <> ptr -> pool_live p' !! b = pool_live p !! b;
  pool_regions p :
    pool_inv p -> regions_disjoint (pool_live p) /\
      forall a n, pool_live p !! a = Some n -> 0 < a /\ (8 | a);
}.

(** ** Programs that use a pool *)

Section client.
Context {P E : Type} `{MemoryPool P E}.

Inductive pool_op := Alloc (e : E) (size : Z) | Free (ptr : Z).

(** A client that keeps the blocks it owns with the sizes it asked for. *)
Definition pool_step (s : P * gmap Z Z) (op : pool_op) : option (P * gmap Z Z) :=
  let '(p, own) := s in
  match op with
  | Alloc e size =>
      '(p, ptr) ← pool_alloc p e size;
      Some (p, if ptr =? 0 then own else <[ptr := size]> own)
  | Free ptr => p ← pool_free p ptr; Some (p, delete ptr own)
  end.

Definition pool_op_ok (s : P * gmap Z Z) (op : pool_op) : Prop :=
  match op with
  | Alloc e size => pool_env_ok s.1 e /\ 0 < size <= pool_max
  | Free ptr => is_Some (s.2 !! ptr)
  end.

Fixpoint pool_run (s : P * gmap Z Z) (ops : list pool_op) : option (P * gmap Z Z) :=
  match ops with
  | [] => Some s
  | op :: ops => s ← pool_step s op; pool_run s ops
  end.

(** The client only frees what it owns. *)
Fixpoint pool_ops_ok (s : P * gmap Z Z) (ops : list pool_op) : Prop :=
  match ops with
  | [] => True
  | op :: ops => pool_op_ok s op /\ forall s', pool_step s op = Some s' -> pool_ops_ok s' ops
  end.

Definition owned (s : P * gmap Z Z) : Prop :=
  pool_inv s.1 /\ forall a n, s.2 !! a = Some n -> exists k, n <= k /\ pool_live s.1 !! a = Some k.

Lemma pool_step_ok s op : owned s -> pool_op_ok s op -> exists s', pool_step s op = Some s' /\ owned s'.
Proof.
  destruct s as [p own], op as [e size|ptr]; intros [Hinv Hown] Hok; simpl in *.
  - destruct Hok as [He Hs].
    destruct (pool_alloc_ok p e size) as (p' & ptr & -> & Hinv' & Hcase); [done..|].
    simpl. eexists. split; [done|]. split; [done|]. simpl. intros a n Ha.
    destruct (Z.eqb_spec ptr 0) as [->|Hptr].
    { destruct Hcase as [[_ ->]|(? & _)]; [by apply Hown|done]. }
    destruct Hcase as [[? _]|(_ & Hnew & k & Hk & ->)]; [done|].
    apply lookup_insert_Some in Ha as [[-> ->]|[Hne Ha]].
    + exists k. by rewrite lookup_insert_eq.
    + rewrite lookup_insert_ne by done. by apply Hown.
  - destruct (pool_free_ok p ptr) as (p' & -> & Hinv' & Hrest); [done| |].
    { destruct Hok as [n Hn]. destruct (Hown _ _ Hn) as (k & _ & ->). eauto. }
    simpl. eexists. split; [done|]. split; [done|]. simpl.
    intros a n [Hne Ha]%lookup_delete_Some. rewrite Hrest by done. by apply Hown.
Qed.

(** What a client can rely on, for any pool: all its calls return, and the
    blocks it owns are aligned and do not overlap. *)
Lemma pool_run_ok s ops :
  owned s -> pool_ops_ok s ops ->
  exists s', pool_run s ops = Some s' /\ pool_inv s'.1 /\ regions_disjoint s'.2 /\
    forall a n, s'.2 !! a = Some n -> 0 < a /\ (8 | a).
Proof.
  revert s. induction ops as [|op ops IH]; intros s Hs Hok; simpl in *.
  - exists s. destruct Hs as [Hinv Hown]. destruct (pool_regions _ Hinv) as [Hdisj Hal].
    split_and!; [done|done| |].
    + intros a n b k Ha Hb Hne. destruct (Hown _ _ Ha) as (n' & ? & Ha').
      destruct (Hown _ _ Hb) as (k' & ? & Hb'). destruct (Hdisj _ _ _ _ Ha' Hb' Hne); lia.
    + intros a n Ha. destruct (Hown _ _ Ha) as (? & _ & Ha'). by eapply Hal.
  - destruct Hok as [Hop Hrest]. destruct (pool_step_ok s op Hs Hop) as (s1 & E1 & Hs1).
    rewrite E1. simpl. apply IH; [done|]. by apply Hrest.
Qed.
End client.

(** ** Pools of equal slices

    What the hash table relies on: slices of one size out of a fixed set, which
    can all be in use before [alloc] fails. *)
Class SlicePool (P : Type) := {
  sp_alloc : P -> option (P * Z);
  sp_free : P -> Z -> option P;
  sp_all : P -> gset Z;
  sp_live : P -> gset Z;
  sp_inv : P -> Prop;
  sp_alloc_ok p :
    sp_inv p ->
    sp_live p = sp_all p /\ sp_alloc p = Some (p, 0) \/
    exists p' a, sp_alloc p = Some (p', a) /\ sp_inv p' /\ a ∈ sp_all p ∖ sp_live p /\
      sp_live p' = {[a]} ∪ sp_live p /\ sp_all p' = sp_all p;
  sp_free_ok p a :
    sp_inv p -> a ∈ sp_live p ->
    exists p', sp_free p a = Some p' /\ sp_inv p' /\ sp_live p' = sp_live p ∖ {[a]} /\
      sp_all p' = sp_all p;
  sp_nonnull p : sp_inv p -> 0 ∉ sp_all p;
}.
