(* ===== verification/FixedPool.v ===== *)
(** * The fixed-size slice pool

    [src/memory/fixed_pool.cc]: a block of memory cut into slices of one size,
    which are kept in a doubly linked list, the idle slices in front of the busy
    ones.  [alloc] takes the first slice and moves it to the end of the list,
    [free] moves a slice back to the front.  The slices are a store indexed by
    address; reading or writing at an address that is not a slice has no
    result. *)

From stdpp Require Import base list gmap.
From S2P Require Import Prelude MemPool.

(** [struct FixedPoolSlice]; [data] starts [sizeof_slice] bytes after it. *)
Record Slice := mkSlice { lock : Z; next : Z; prev : Z }.
Definition sizeof_slice : Z := 24.
Definition sizeof_impl : Z := 48.

(** [struct FixedPoolImpl] *)
Record Pool := mkPool {
  memory : Z;
  memory_size : Z;
  head : Z;
  tail : Z;
  slice_num : Z;
  slice_use : Z;
  slice_size : Z;
  slices : gmap Z Slice;
}.

Definition with_slices p ss := mkPool (memory p) (memory_size p) (head p) (tail p) (slice_num p) (slice_use p) (slice_size p) ss.
Definition with_head p h := mkPool (memory p) (memory_size p) h (tail p) (slice_num p) (slice_use p) (slice_size p) (slices p).
Definition with_tail p t := mkPool (memory p) (memory_size p) (head p) t (slice_num p) (slice_use p) (slice_size p) (slices p).
Definition with_use p u := mkPool (memory p) (memory_size p) (head p) (tail p) (slice_num p) u (slice_size p) (slices p).

(** Assignments to one field of the slice at an address. *)
Definition upd (f : Slice -> Slice) (p : Pool) (a : Z) : option Pool :=
  s ← slices p !! a; Some (with_slices p (<[a := f s]> (slices p))).
Definition put_lock (x : Z) : Pool -> Z -> option Pool := upd (fun s => mkSlice x (next s) (prev s)).
Definition put_next (x : Z) : Pool -> Z -> option Pool := upd (fun s => mkSlice (lock s) x (prev s)).
Definition put_prev (x : Z) : Pool -> Z -> option Pool := upd (fun s => mkSlice (lock s) (next s) x).

(** [FixedPoolImpl::init] *)
Fixpoint init_loop (n : nat) (cur : Z) (p : Pool) : option Pool :=
  match n with
  | O => Some p
  | S n =>
      let p := with_slices p (<[cur := mkSlice 0 0 0]> (slices p)) in
      p ← (if negb (head p =? 0)
           then p ← put_prev cur p (head p); put_next (head p) p cur
           else Some (with_tail p cur));
      init_loop n (cur + (sizeof_slice + slice_size p)) (with_head p cur)
  end.
Definition init (p : Pool) : option Pool := init_loop (Z.to_nat (slice_num p)) (memory p) p.

Inductive exn := InvalidParams | BadAlloc.

(** [FixedPool::FixedPool(slice_num, slice_size, shared)]; [mem] is the answer
    of [sw_malloc] or [sw_shm_malloc]. *)
Definition make (num sz mem : Z) : option (exn + Pool) :=
  if num <? 2 then Some (inl InvalidParams) else
  if 2 ^ 32 - 1 - 8 + 1 <? sz then Some (inl InvalidParams) else
  let sz := u32 (aligned8 sz) in
  let slice_memory_size := sizeof_slice + sz in
  if (2 ^ 64 - 1) / num <? slice_memory_size then Some (inl InvalidParams) else
  let size := num * slice_memory_size in
  if 2 ^ 64 - 1 - sizeof_impl <? size then Some (inl InvalidParams) else
  if mem =? 0 then Some (inl BadAlloc) else
  inr <$> init (mkPool (mem + sizeof_impl) size 0 0 num 0 sz ∅).

(** [FixedPool::FixedPool(slice_size, memory, size, shared)] *)
Definition make_in (sz mem size : Z) : option (exn + Pool) :=
  if (mem =? 0) || (size <=? sizeof_impl) then Some (inl InvalidParams) else
  if 2 ^ 32 - 1 - 8 + 1 <? sz then Some (inl InvalidParams) else
  let sz := u32 (aligned8 sz) in
  let size := size - sizeof_impl in
  let num := u32 (size / (sz + sizeof_slice)) in
  if num <? 2 then Some (inl InvalidParams) else
  inr <$> init (mkPool (mem + sizeof_impl) size 0 0 num 0 sz ∅).

Definition get_number_of_spare_slice (p : Pool) : Z := u32 (slice_num p - slice_use p).

(** [FixedPool::alloc]; a failed [assert] has no result. *)
Definition alloc (p : Pool) (size : Z) : option (Pool * Z) :=
  if slice_size p <? size then Some (p, 0) else
  let slice := head p in
  full ← (if slice =? 0 then Some true else s ← slices p !! slice; Some (negb (lock s =? 0)));
  if (full : bool) then
    if get_number_of_spare_slice p =? 0 then Some (p, 0) else None
  else
    p ← put_lock 1 p slice;
    let p := with_use p (u32 (slice_use p + 1)) in
    s ← slices p !! slice;
    let p := with_head p (next s) in
    p ← (if negb (head p =? 0) then put_prev 0 p (head p) else Some p);
    p ← put_next slice p (tail p);
    p ← put_next 0 p slice;
    p ← put_prev (tail p) p slice;
    Some (with_tail p slice, slice + sizeof_slice).

(** [FixedPool::free] *)
Definition free (p : Pool) (ptr : Z) : option Pool :=
  let slice := ptr - sizeof_slice in
  if negb ((memory p <? ptr) && (ptr <? memory p + memory_size p)) then None else
  s ← slices p !! slice;
  if negb (lock s =? 1) then None else
  let p := with_use p (u32 (slice_use p - 1)) in
  p ← put_lock 0 p slice;
  if slice =? head p then Some p else
  s ← slices p !! slice;
  p ← (if slice =? tail p then
         p ← put_next 0 p (prev s); Some (with_tail p (prev s))
       else
         p ← put_next (next s) p (prev s); put_prev (prev s) p (next s));
  p ← put_prev 0 p slice;
  p ← put_next (head p) p slice;
  p ← (if negb (head p =? 0) then put_prev slice p (head p) else Some p);
  Some (with_head p slice).

(** ** Doubly linked lists *)

(** [seg m pv l nx]: the slices [l] are linked in this order, between [pv] and
    [nx]. *)
Fixpoint seg (m : gmap Z Slice) (pv : Z) (l : list Z) (nx : Z) : Prop :=
  match l with
  | [] => True
  | a :: l' => (exists s, m !! a = Some s /\ next s = hd nx l' /\ prev s = pv) /\ seg m a l' nx
  end.

Lemma seg_app m pv l1 l2 nx :
  seg m pv (l1 ++ l2) nx <-> seg m pv l1 (hd nx l2) /\ seg m (List.last l1 pv) l2 nx.
Proof.
  revert pv. induction l1 as [|a l1 IH]; intros pv; [simpl; tauto|].
  cbn [app seg]. rewrite IH. replace (hd nx (l1 ++ l2)) with (hd (hd nx l2) l1) by (by destruct l1).
  replace (List.last (a :: l1) pv) with (List.last l1 a); [tauto|].
  destruct l1 as [|b l1]; [done|]. simpl. clear. revert b.
  induction l1 as [|c l1 IH]; intros; [done|]. apply (IH c).
Qed.

Lemma seg_ext m m' pv l nx :
  (forall a, a ∈ l -> m' !! a = m !! a) -> seg m pv l nx -> seg m' pv l nx.
Proof.
  revert pv. induction l as [|a l IH]; intros pv Hm; [done|]. cbn [seg].
  intros [Ha Hs]. rewrite Hm by left. split; [done|]. apply IH; [|done].
  intros b Hb. apply Hm. by right.
Qed.

Lemma seg_insert_ne m pv l nx a s : a ∉ l -> seg m pv l nx -> seg (<[a := s]> m) pv l nx.
Proof. intros Ha. apply seg_ext. intros b Hb. apply lookup_insert_ne. by intros <-. Qed.

(** Relinking the first element. *)
Lemma seg_put_prev m pv pv' a l nx s :
  seg m pv (a :: l) nx -> NoDup (a :: l) -> m !! a = Some s ->
  seg (<[a := mkSlice (lock s) (next s) pv']> m) pv' (a :: l) nx.
Proof.
  intros [(s' & Hs' & Hn & Hp) Hseg] [Hnotin _]%NoDup_cons Hs. simplify_eq. cbn [seg]. split.
  - eexists. rewrite lookup_insert_eq. done.
  - by apply seg_insert_ne.
Qed.

(** Relinking the last element. *)
Lemma seg_put_next m pv l a nx nx' s :
  seg m pv (l ++ [a]) nx -> NoDup (l ++ [a]) -> m !! a = Some s ->
  seg (<[a := mkSlice (lock s) nx' (prev s)]> m) pv (l ++ [a]) nx'.
Proof.
  rewrite !seg_app. intros [Hl [(s' & Hs' & Hn & Hp) _]] (_ & Hnotin & _)%NoDup_app Hs.
  simplify_eq. split.
  - apply seg_insert_ne; [|done]. intros Ha. apply (Hnotin _ Ha). left.
  - cbn [seg hd]. split; [|done]. eexists. rewrite lookup_insert_eq. done.
Qed.

(** ** The invariant *)

Definition stride (p : Pool) : Z := sizeof_slice + slice_size p.
Definition addr (p : Pool) (i : nat) : Z := memory p + Z.of_nat i * stride p.
Definition addrs (p : Pool) : list Z := addr p <$> seq 0 (Z.to_nat (slice_num p)).
Definition lock_of (p : Pool) (a : Z) : option Z := lock <$> slices p !! a.

(** The slices lie in the memory of the pool. *)
Record geometry (p : Pool) : Prop := {
  geo_num : 2 <= slice_num p < 2 ^ 32;
  geo_mem : 0 < memory p /\ (8 | memory p);
  geo_slice : 0 < slice_size p < 2 ^ 32 /\ (8 | slice_size p);
  geo_size : slice_num p * stride p <= memory_size p;
}.

Record pool_wf (p : Pool) (idle busy : list Z) : Prop := {
  fw_geo : geometry p;
  fw_seg : seg (slices p) 0 (idle ++ busy) 0;
  fw_head : head p = hd 0 (idle ++ busy);
  fw_tail : tail p = List.last (idle ++ busy) 0;
  fw_perm : idle ++ busy ≡ₚ addrs p;
  fw_use : slice_use p = zlen busy;
  fw_idle a : a ∈ idle -> lock_of p a = Some 0;
  fw_busy a : a ∈ busy -> lock_of p a = Some 1;
}.

(** The two pools have the same place and slice size. *)
Definition same_geometry (p p' : Pool) : Prop :=
  memory p' = memory p /\ memory_size p' = memory_size p /\ slice_num p' = slice_num p /\
  slice_size p' = slice_size p.

Lemma same_geometry_addrs p p' : same_geometry p p' -> addrs p' = addrs p.
Proof. intros (Hm & _ & Hn & Hs). unfold addrs, addr, stride. by rewrite Hm, Hn, Hs. Qed.

Lemma same_geometry_geometry p p' : same_geometry p p' -> geometry p -> geometry p'.
Proof.
  intros (Hm & Hz & Hn & Hs) [? ? ? ?]. split; unfold stride in *; rewrite ?Hm, ?Hz, ?Hn, ?Hs; done.
Qed.

Lemma stride_pos p : geometry p -> 0 < stride p.
Proof. intros [_ _ [? _] _]. unfold stride, sizeof_slice. lia. Qed.

Lemma addr_inj p i j : geometry p -> addr p i = addr p j -> i = j.
Proof. intros ?%stride_pos. unfold addr. nia. Qed.

Lemma addrs_NoDup p : geometry p -> NoDup (addrs p).
Proof.
  intros Hg. apply NoDup_fmap_2_strong; [|apply NoDup_seq].
  intros i j _ _. by apply addr_inj.
Qed.

Lemma elem_of_addrs p a :
  a ∈ addrs p <-> exists i, a = addr p i /\ Z.of_nat i < slice_num p.
Proof.
  unfold addrs. rewrite list_elem_of_fmap. split; intros (i & -> & Hi); exists i; (split; [done|]);
    rewrite elem_of_seq in *; lia.
Qed.

Lemma addr_pos p a : geometry p -> a ∈ addrs p -> 0 < a.
Proof.
  intros Hg (i & -> & _)%elem_of_addrs. pose proof (stride_pos p Hg).
  destruct (geo_mem p Hg). unfold addr. nia.
Qed.

Section wf_facts.
Context {p : Pool} {idle busy : list Z} (Hwf : pool_wf p idle busy).

Lemma wf_NoDup : NoDup (idle ++ busy).
Proof. rewrite (fw_perm _ _ _ Hwf). apply addrs_NoDup, Hwf. Qed.

Lemma wf_length : zlen (idle ++ busy) = slice_num p.
Proof.
  rewrite (fw_perm _ _ _ Hwf). unfold addrs. rewrite length_fmap, length_seq.
  pose proof (geo_num _ (fw_geo _ _ _ Hwf)). lia.
Qed.

Lemma wf_pos a : a ∈ idle ++ busy -> 0 < a.
Proof. rewrite (fw_perm _ _ _ Hwf). apply addr_pos, Hwf. Qed.
End wf_facts.

(** ** Assignments *)

Ltac psimpl := cbn [mbind option_bind with_use with_slices with_head with_tail slices slice_use tail head
  next prev lock memory memory_size slice_num slice_size].

Lemma upd_Some f p a s :
  slices p !! a = Some s -> upd f p a = Some (with_slices p (<[a := f s]> (slices p))).
Proof. intros Hs. unfold upd. by rewrite Hs. Qed.

Lemma lock_of_insert p (m : gmap Z Slice) a x s b :
  m !! a = Some s -> lock x = lock s -> lock <$> m !! b = lock_of p b ->
  lock <$> <[a := x]> m !! b = lock_of p b.
Proof.
  intros Hs Hx Hb. destruct (decide (a = b)) as [<-|Hne].
  - rewrite lookup_insert_eq. rewrite Hs in Hb. simpl in *. congruence.
  - by rewrite lookup_insert_ne.
Qed.

(** Reading a slice of a segment. *)
Lemma seg_lookup m pv l nx a : seg m pv l nx -> a ∈ l -> exists s, m !! a = Some s.
Proof.
  revert pv. induction l as [|b l IH]; intros pv; [by intros _ ?%elem_of_nil|].
  intros [(s & Hs & _) Hseg] [->|Ha]%elem_of_cons; eauto.
Qed.

Lemma hd_elem (a : Z) l : hd 0 (a :: l) ∈ a :: l.
Proof. left. Qed.

(** A segment moves its first element to the end; [m'] is the store after the
    assignments of [alloc] that touch other slices. *)
Lemma seg_rotate m a r rest st sr :
  seg m 0 (a :: r :: rest) 0 -> NoDup (a :: r :: rest) ->
  let t := List.last (r :: rest) 0 in
  m !! r = Some sr ->
  let m2 := <[r := mkSlice (lock sr) (next sr) 0]> m in
  m2 !! t = Some st ->
  let m3 := <[t := mkSlice (lock st) a (prev st)]> m2 in
  seg m3 0 (r :: rest) a.
Proof.
  intros [_ Hseg] [Hna Hnd]%NoDup_cons t Hr m2 Ht m3.
  assert (seg m2 0 (r :: rest) 0) as H2 by by eapply seg_put_prev.
  destruct (exists_last (l := r :: rest)) as (l & t' & Hl); [done|].
  assert (t = t') as -> by (subst t; rewrite Hl; apply last_last).
  rewrite Hl in *. by eapply seg_put_next.
Qed.

(** ** Allocation *)

(** The assignments of [alloc] rotate the list. *)
Lemma alloc_rotates p size a r rest :
  seg (slices p) 0 (a :: r :: rest) 0 -> NoDup (a :: r :: rest) ->
  (forall b, b ∈ a :: r :: rest -> 0 < b) ->
  head p = a -> tail p = List.last (r :: rest) 0 -> lock_of p a = Some 0 -> size <= slice_size p ->
  exists m', alloc p size = Some (mkPool (memory p) (memory_size p) r a (slice_num p)
                 (u32 (slice_use p + 1)) (slice_size p) m', a + sizeof_slice) /\
    seg m' 0 ((r :: rest) ++ [a]) 0 /\ lock <$> m' !! a = Some 1 /\
    forall b, b <> a -> lock <$> m' !! b = lock_of p b.
Proof.
  intros Hseg Hnd Hpos Hhd Htl Hla Hsize. destruct Hseg as [(sa & Hsa & Hna & Hpa) Hseg].
  unfold lock_of in Hla. rewrite Hsa in Hla. injection Hla as Hla. cbn [hd] in Hna.
  assert (0 < a) by (apply Hpos; left). assert (0 < r) by (apply Hpos; right; left).
  pose proof Hnd as [Hnotin _]%NoDup_cons. set (t := List.last (r :: rest) 0) in *.
  set (m1 := <[a := mkSlice 1 r 0]> (slices p)).
  assert (seg m1 0 (a :: r :: rest) 0) as H1.
  { split; [|by apply seg_insert_ne]. exists (mkSlice 1 r 0). split; [apply lookup_insert_eq|done]. }
  destruct (seg_lookup m1 a (r :: rest) 0 r (proj2 H1)) as [sr Hsr]; [left|].
  assert (t ∈ r :: rest) as Htin.
  { subst t. rewrite list_elem_of_In. destruct (exists_last (l := r :: rest)) as (l & t' & ->); [done|].
    rewrite last_last. apply in_or_app. right. by left. }
  set (m2 := <[r := mkSlice (lock sr) (next sr) 0]> m1).
  assert (exists st, m2 !! t = Some st) as [st Hst].
  { eapply seg_lookup; [|exact Htin]. eapply seg_put_prev; [apply H1| |done]. by apply NoDup_cons in Hnd as []. }
  pose proof (seg_rotate m1 a r rest st sr H1 Hnd Hsr Hst) as H3. fold t m2 in H3.
  set (m3 := <[t := mkSlice (lock st) a (prev st)]> m2) in *.
  assert (a <> t) as Hat by (intros ->; done). assert (a <> r) as Har by (intros ->; apply Hnotin; left).
  assert (m3 !! a = Some (mkSlice 1 r 0)) as H3a.
  { subst m3 m2 m1. by rewrite lookup_insert_ne, lookup_insert_ne, lookup_insert_eq. }
  exists (<[a := mkSlice 1 0 t]> (<[a := mkSlice 1 0 0]> m3)). split_and!.
  - unfold alloc. rewrite Hhd. destruct (Z.ltb_spec (slice_size p) size); [lia|].
    destruct (Z.eqb_spec a 0); [lia|]. rewrite Hsa. psimpl. rewrite Hla.
    cbn [negb Z.eqb]. unfold put_lock. rewrite (upd_Some _ _ _ _ Hsa), Hna, Hpa. psimpl. fold m1.
    replace (m1 !! a) with (Some (mkSlice 1 r 0)) by (symmetry; apply lookup_insert_eq).
    psimpl. destruct (Z.eqb_spec r 0); [lia|]. cbn [negb].
    unfold put_prev, put_next. erewrite upd_Some by exact Hsr. psimpl. rewrite Htl. fold m2.
    erewrite upd_Some by exact Hst. psimpl. fold m3.
    erewrite upd_Some by exact H3a. psimpl.
    erewrite upd_Some by apply lookup_insert_eq. psimpl. by rewrite Htl.
  - apply seg_app. split; [apply seg_insert_ne, seg_insert_ne; done|].
    split; [|done]. eexists. split; [apply lookup_insert_eq|done].
  - by rewrite lookup_insert_eq.
  - intros b Hb. rewrite !(lookup_insert_ne _ a) by done.
    eapply lock_of_insert; [exact Hst|done|]. eapply lock_of_insert; [exact Hsr|done|].
    unfold m1, lock_of. by rewrite lookup_insert_ne.
Qed.

Lemma slice_alloc_spec p idle busy a size :
  pool_wf p (a :: idle) busy -> size <= slice_size p ->
  exists p', alloc p size = Some (p', a + sizeof_slice) /\ pool_wf p' idle (busy ++ [a]) /\
    same_geometry p p'.
Proof.
  intros Hwf Hsize. pose proof (wf_NoDup Hwf) as Hnd. pose proof (wf_length Hwf) as Hlen.
  pose proof (geo_num _ (fw_geo _ _ _ Hwf)) as Hnum. pose proof (@wf_pos _ _ _ Hwf) as Hpos.
  destruct Hwf as [Hgeo Hseg Hhd Htl Hperm Huse Hidle Hbusy].
  cbn [app] in *. destruct (idle ++ busy) as [|r rest] eqn:Eo; [simpl in Hlen; lia|].
  destruct (alloc_rotates p size a r rest) as (m' & -> & Hseg' & Hla & Hlb); try done.
  { apply Hidle. left. }
  pose proof Hnd as [Hnotin _]%NoDup_cons. rewrite <- Eo in Hnotin.
  assert (zlen busy <= zlen (r :: rest)) as Hbl by (rewrite <- Eo, length_app; lia).
  eexists. split; [done|]. split; [|done].
  split; simpl; rewrite ?(assoc_L _ idle busy), ?Eo; try done.
  - by eapply same_geometry_geometry; [|exact Hgeo].
  - by rewrite last_last.
  - rewrite <- Hperm. rewrite Permutation_app_comm. done.
  - rewrite Huse, length_app. cbn [length] in *. rewrite uN_small; [lia|]. unfold fits. lia.
  - intros b Hb. unfold lock_of. simpl. rewrite Hlb; [|set_solver]. apply Hidle. by right.
  - intros b [Hb| ->%list_elem_of_singleton]%elem_of_app; unfold lock_of; simpl; [|done].
    rewrite Hlb; [by apply Hbusy|set_solver].
Qed.

(** Nothing is idle, or the request is too large. *)
Lemma alloc_fails p idle busy size :
  pool_wf p idle busy -> idle = [] \/ slice_size p < size -> alloc p size = Some (p, 0).
Proof.
  intros Hwf Hor. unfold alloc. destruct (Z.ltb_spec (slice_size p) size); [done|].
  destruct Hor as [->|]; [|lia]. pose proof (wf_length Hwf) as Hlen. cbn [app] in Hlen.
  pose proof (geo_num _ (fw_geo _ _ _ Hwf)) as Hnum.
  assert (get_number_of_spare_slice p = 0) as ->.
  { unfold get_number_of_spare_slice. by rewrite (fw_use _ _ _ Hwf), Hlen, Z.sub_diag. }
  rewrite (fw_head _ _ _ Hwf). cbn [app]. destruct busy as [|b busy]; [done|]. cbn [hd].
  pose proof (fw_busy _ _ _ Hwf b ltac:(left)) as Hb. unfold lock_of in Hb.
  destruct (slices p !! b) as [s|]; [|done]. injection Hb as Hb. simpl. rewrite Hb.
  by destruct (b =? 0).
Qed.

(** ** Release *)

(** Taking [a] out of the middle of a list. *)
Lemma seg_unlink m l1 x a l2 sx :
  seg m 0 ((l1 ++ [x]) ++ a :: l2) 0 -> NoDup ((l1 ++ [x]) ++ a :: l2) -> m !! x = Some sx ->
  let m2 := <[x := mkSlice (lock sx) (hd 0 l2) (prev sx)]> m in
  (l2 = [] -> seg m2 0 (l1 ++ [x]) 0) /\
  (forall y l2' sy, l2 = y :: l2' -> m2 !! y = Some sy ->
     seg (<[y := mkSlice (lock sy) (next sy) x]> m2) 0 ((l1 ++ [x]) ++ l2) 0).
Proof.
  intros [Hs1 Hs2]%seg_app Hnd Hx m2. cbn [hd] in Hs1.
  apply NoDup_app in Hnd as (Hnd1 & Hdisj & [Hna Hnd2]%NoDup_cons).
  assert (seg m2 0 (l1 ++ [x]) (hd 0 l2)) as H1 by by eapply seg_put_next.
  split; [intros ->; done|]. intros y l2' sy -> Hy.
  assert (x ∉ y :: l2') as Hxn.
  { intros Hin. apply (Hdisj x); [apply elem_of_app; right; left|right; done]. }
  assert (y ∉ l1 ++ [x]) as Hyn.
  { intros Hin. apply (Hdisj y Hin). right. left. }
  apply seg_app. split; [by apply seg_insert_ne|]. rewrite last_last.
  eapply seg_put_prev; [|done|done]. apply seg_insert_ne; [done|]. apply Hs2.
Qed.

Lemma last_cons_elem (d : Z) l a : List.last (a :: l) d ∈ a :: l.
Proof.
  destruct (exists_last (l := a :: l)) as (k & x & ->); [done|].
  rewrite last_last. apply elem_of_app. right. left.
Qed.

Lemma last_app_cons (d : Z) l1 a l2 : List.last (l1 ++ a :: l2) d = List.last (a :: l2) d.
Proof.
  destruct (exists_last (l := a :: l2)) as (k & x & ->); [done|].
  by rewrite (assoc_L (++)), !last_last.
Qed.

(** The part of [free] that takes [a] out of the list. *)
Lemma free_unlinks p a k x l2 s0 :
  seg (slices p) 0 ((k ++ [x]) ++ a :: l2) 0 -> NoDup ((k ++ [x]) ++ a :: l2) ->
  tail p = List.last ((k ++ [x]) ++ a :: l2) 0 -> slices p !! a = Some s0 ->
  exists m',
    (if a =? tail p then p ← put_next 0 p (prev s0); Some (with_tail p (prev s0))
     else p ← put_next (next s0) p (prev s0); put_prev (prev s0) p (next s0)) =
    Some (with_tail (with_slices p m') (List.last ((k ++ [x]) ++ l2) 0)) /\
    seg m' 0 ((k ++ [x]) ++ l2) 0 /\ m' !! a = Some s0 /\
    forall b, lock <$> m' !! b = lock_of p b.
Proof.
  intros Hseg Hnd Htl Hs0.
  pose proof Hnd as (_ & Hdisj & [Hna2 _]%NoDup_cons)%NoDup_app.
  pose proof Hseg as [Hseg1 [(s & Hs & Hn & Hp) Hseg2]]%seg_app.
  rewrite Hs0 in Hs. injection Hs as <-.
  rewrite last_last in Hp. cbn [hd] in Hseg1.
  assert (a <> x) as Hax.
  { intros ->. apply (Hdisj x); [apply elem_of_app; right; left|left]. }
  destruct (seg_lookup _ _ _ _ x Hseg1) as [sx Hsx]; [apply elem_of_app; right; left|].
  destruct (seg_unlink _ _ _ _ _ _ Hseg Hnd Hsx) as [Hlast Hmid].
  rewrite Htl, last_app_cons, Hp, Hn. unfold put_next, put_prev.
  set (m2 := <[x := mkSlice (lock sx) (hd 0 l2) (prev sx)]> (slices p)) in *.
  assert (m2 !! a = Some s0) as Ha2 by (subst m2; by rewrite lookup_insert_ne).
  assert (forall b, lock <$> m2 !! b = lock_of p b) as Hl2 by (intros b; by eapply lock_of_insert).
  destruct l2 as [|y l2].
  - rewrite Z.eqb_refl, (upd_Some _ _ _ _ Hsx). psimpl. exists m2. rewrite app_nil_r, last_last. split_and!; auto.
  - assert (a <> List.last (a :: y :: l2) 0) as Hne.
    { intros E. apply Hna2. rewrite E. apply (last_cons_elem 0 l2 y). }
    destruct (Z.eqb_spec a (List.last (a :: y :: l2) 0)); [done|].
    rewrite (upd_Some _ _ _ _ Hsx). psimpl. cbn [hd].
    assert (y <> x) as Hyx.
    { intros ->. apply (Hdisj x); [apply elem_of_app; right; left|right; left]. }
    assert (y <> a) as Hya by (intros ->; apply Hna2; left).
    destruct Hseg2 as [(sy & Hsy & _) _].
    assert (m2 !! y = Some sy) as Hy2 by (subst m2; by rewrite lookup_insert_ne).
    erewrite upd_Some by exact Hy2. psimpl. eexists. split_and!.
    + unfold with_tail, with_slices. psimpl. rewrite Htl, !last_app_cons. reflexivity.
    + by eapply Hmid.
    + by rewrite lookup_insert_ne.
    + intros b. by eapply lock_of_insert.
Qed.

(** The part of [free] that puts [a] in front. *)
Lemma free_pushes p a h0 l s0 :
  seg (slices p) 0 (h0 :: l) 0 -> NoDup (a :: h0 :: l) -> 0 < h0 -> head p = h0 ->
  slices p !! a = Some s0 ->
  exists m',
    (p ← put_prev 0 p a; p ← put_next (head p) p a;
     p ← (if negb (head p =? 0) then put_prev a p (head p) else Some p); Some (with_head p a)) =
    Some (with_head (with_slices p m') a) /\
    seg m' 0 (a :: h0 :: l) 0 /\ forall b, lock <$> m' !! b = lock_of p b.
Proof.
  intros Hseg [Hna Hnd]%NoDup_cons Hpos Hhd Hs0.
  assert (h0 <> a) as Hne by (intros ->; apply Hna; left).
  pose proof Hseg as [(sh & Hsh & _) _].
  unfold put_next, put_prev. rewrite (upd_Some _ _ _ _ Hs0). psimpl. rewrite Hhd.
  erewrite upd_Some by apply lookup_insert_eq. psimpl. rewrite Hhd.
  destruct (Z.eqb_spec h0 0); [lia|]. cbn [negb]. rewrite insert_insert_eq.
  set (m2 := <[a := mkSlice (lock s0) h0 0]> (slices p)).
  assert (m2 !! h0 = Some sh) as Hh2 by (subst m2; by rewrite lookup_insert_ne).
  erewrite upd_Some by exact Hh2. psimpl. eexists. split_and!; [done| |].
  - split.
    + eexists. rewrite lookup_insert_ne by done. split; [apply lookup_insert_eq|done].
    + eapply seg_put_prev; [by apply seg_insert_ne|done|done].
  - intros b. eapply lock_of_insert; [done|done|]. by eapply lock_of_insert.
Qed.

(** A busy slice that is not the head of the list goes to the front. *)
Lemma free_moves p a h0 l1 l2 :
  let order := (h0 :: l1) ++ a :: l2 in
  seg (slices p) 0 order 0 -> NoDup order -> 0 < h0 ->
  head p = h0 -> tail p = List.last order 0 ->
  lock_of p a = Some 1 -> memory p < a + sizeof_slice < memory p + memory_size p ->
  exists m', free p (a + sizeof_slice) =
      Some (mkPool (memory p) (memory_size p) a (List.last ((h0 :: l1) ++ l2) 0) (slice_num p)
              (u32 (slice_use p - 1)) (slice_size p) m') /\
    seg m' 0 (a :: (h0 :: l1) ++ l2) 0 /\ lock <$> m' !! a = Some 0 /\
    forall b, b <> a -> lock <$> m' !! b = lock_of p b.
Proof.
  intros order Hseg Hnd Hpos Hhd Htl Hla Hrange. subst order.
  destruct (exists_last (l := h0 :: l1)) as (k & x & Ek); [done|].
  pose proof (proj2 (proj1 (seg_app _ _ _ _ _) Hseg)) as [(s & Hs & Hn & Hp) Hseg2].
  unfold lock_of in Hla. rewrite Hs in Hla. injection Hla as Hla.
  pose proof Hnd as (_ & Hdisj & [Hna2 _]%NoDup_cons)%NoDup_app.
  assert (a ∉ h0 :: l1) as Hna1 by (intros Hin; apply (Hdisj a Hin); left).
  set (s0 := mkSlice 0 (next s) (prev s)).
  set (q := with_slices (with_use p (u32 (slice_use p - 1))) (<[a := s0]> (slices p))).
  assert (seg (slices q) 0 ((h0 :: l1) ++ a :: l2) 0) as Hq.
  { apply seg_app. apply seg_app in Hseg as [H1 _]. simpl slices. split; [by apply seg_insert_ne|].
    split; [|by apply seg_insert_ne]. exists s0. split; [apply lookup_insert_eq|done]. }
  rewrite Ek in Hq, Hnd, Htl.
  destruct (free_unlinks q a k x l2 s0 Hq Hnd) as (m2 & Eun & Hseg' & Ha2 & Hl2);
    [done|apply lookup_insert_eq|].
  rewrite <- Ek in *.
  set (q2 := with_tail (with_slices q m2) (List.last ((h0 :: l1) ++ l2) 0)) in *.
  destruct (free_pushes q2 a h0 (l1 ++ l2) s0) as (m3 & Epu & Hseg3 & Hl3); [done| |done|done|done|].
  { change (h0 :: l1 ++ l2) with ((h0 :: l1) ++ l2). by rewrite Permutation_middle. }
  exists m3. split_and!; [|done| |].
  - unfold free. replace (a + sizeof_slice - sizeof_slice) with a by lia.
    destruct (Z.ltb_spec (memory p) (a + sizeof_slice)); [|lia].
    destruct (Z.ltb_spec (a + sizeof_slice) (memory p + memory_size p)); [|lia]. cbn [andb negb].
    rewrite Hs. cbn [mbind option_bind]. rewrite Hla. cbn [Z.eqb Pos.eqb negb].
    assert (put_lock 0 (with_use p (u32 (slice_use p - 1))) a = Some q) as ->.
    { unfold put_lock. by erewrite upd_Some by exact Hs. }
    cbn [mbind option_bind]. change (head q) with (head p). rewrite Hhd.
    destruct (Z.eqb_spec a h0) as [->|]; [by destruct Hna1; left|].
    replace (slices q !! a) with (Some s0) by (symmetry; apply lookup_insert_eq).
    cbn [mbind option_bind]. rewrite Eun. cbn [mbind option_bind]. exact Epu.
  - rewrite Hl3. unfold lock_of. simpl. by rewrite Ha2.
  - intros b Hb. rewrite Hl3. unfold lock_of at 1. simpl. rewrite Hl2.
    unfold lock_of. simpl. by rewrite lookup_insert_ne.
Qed.

Lemma data_in_range p a :
  geometry p -> a ∈ addrs p ->
  memory p < a + sizeof_slice /\ a + sizeof_slice + slice_size p <= memory p + memory_size p.
Proof.
  intros Hg (i & -> & Hi)%elem_of_addrs. pose proof (stride_pos p Hg).
  destruct Hg as [_ _ _ Hsize]. unfold addr, stride, sizeof_slice in *. nia.
Qed.

(** [free] of a busy slice while every slice is busy and this one comes first:
    it stays where it is. *)
Lemma free_head p a b2 :
  pool_wf p [] (a :: b2) ->
  exists p', free p (a + sizeof_slice) = Some p' /\ pool_wf p' [a] b2 /\ same_geometry p p'.
Proof.
  intros Hwf. pose proof (wf_NoDup Hwf) as Hnd. pose proof (wf_length Hwf) as Hlen.
  pose proof (geo_num _ (fw_geo _ _ _ Hwf)) as Hnum.
  pose proof (geo_slice _ (fw_geo _ _ _ Hwf)) as Hsl.
  destruct Hwf as [Hgeo Hseg Hhd Htl Hperm Huse Hidle Hbusy]. cbn [app hd] in *.
  destruct (data_in_range p a Hgeo) as [Hr1 Hr2]; [rewrite <- Hperm; left|].
  pose proof (Hbusy a ltac:(left)) as Hla. destruct Hseg as [(s & Hs & Hn & Hp) Hseg].
  unfold lock_of in Hla. rewrite Hs in Hla. injection Hla as Hla.
  apply NoDup_cons in Hnd as [Hna Hnd].
  exists (with_slices (with_use p (u32 (slice_use p - 1))) (<[a := mkSlice 0 (next s) (prev s)]> (slices p))).
  split_and!; [|split; simpl; try done|done].
  - unfold free. replace (a + sizeof_slice - sizeof_slice) with a by lia.
    destruct (Z.ltb_spec (memory p) (a + sizeof_slice)); [|lia].
    destruct (Z.ltb_spec (a + sizeof_slice) (memory p + memory_size p)); [|lia]. cbn [andb negb].
    rewrite Hs. cbn [mbind option_bind]. rewrite Hla. cbn [Z.eqb Pos.eqb negb]. unfold put_lock.
    erewrite upd_Some by exact Hs. psimpl. by rewrite Hhd, Z.eqb_refl.
  - by eapply same_geometry_geometry; [|exact Hgeo].
  - split; [|by apply seg_insert_ne]. eexists. split; [apply lookup_insert_eq|done].
  - rewrite Huse in *. cbn [length] in *. rewrite uN_small; [|unfold fits]; lia.
  - intros b ->%list_elem_of_singleton. unfold lock_of. simpl. by rewrite lookup_insert_eq.
  - intros b Hb. unfold lock_of. simpl. rewrite lookup_insert_ne by (by intros ->).
    apply Hbusy. by right.
Qed.

(** [free] of a busy slice. *)
Lemma slice_free_spec p idle b1 a b2 :
  pool_wf p idle (b1 ++ a :: b2) ->
  exists p', free p (a + sizeof_slice) = Some p' /\ pool_wf p' (a :: idle) (b1 ++ b2) /\
    same_geometry p p'.
Proof.
  intros Hwf. destruct (idle ++ b1) as [|h0 l1] eqn:E1.
  { apply app_nil in E1 as [-> ->]. by apply free_head. }
  pose proof (wf_NoDup Hwf) as Hnd. pose proof (wf_length Hwf) as Hlen.
  pose proof (geo_num _ (fw_geo _ _ _ Hwf)) as Hnum. pose proof (@wf_pos _ _ _ Hwf) as Hpos.
  pose proof (geo_slice _ (fw_geo _ _ _ Hwf)) as Hsl.
  destruct Hwf as [Hgeo Hseg Hhd Htl Hperm Huse Hidle Hbusy].
  assert (lock_of p a = Some 1) as Hla by (apply Hbusy; apply elem_of_app; right; left).
  assert (u32 (slice_use p - 1) = zlen (b1 ++ b2)) as Huse'.
  { rewrite Huse in *. rewrite !length_app in *. cbn [length] in *. rewrite uN_small; [|unfold fits]; lia. }
  rewrite (assoc_L (++)), E1 in *.
  destruct (data_in_range p a Hgeo) as [Hr1 Hr2]; [rewrite <- Hperm; apply elem_of_app; right; left|].
  destruct (free_moves p a h0 l1 b2) as (m' & -> & Hseg' & Hl0 & Hlb); try done || lia.
  { apply Hpos. left. }
  assert ((a ∉ idle) /\ (a ∉ b1 ++ b2)) as [Hn1 Hn2].
  { rewrite <- E1, <- (assoc_L (++)), <- Permutation_middle, (Permutation_app_comm idle) in Hnd.
    cbn [app] in Hnd. apply NoDup_cons in Hnd as [Hnd _]. split; intros Hin; apply Hnd; set_solver. }
  eexists. split; [done|]. split; [|done].
  split; simpl; rewrite ?(assoc_L (++) idle b1), ?E1; try done.
  - by eapply same_geometry_geometry; [|exact Hgeo].
  - rewrite <- Hperm. apply (Permutation_middle (h0 :: l1) b2 a).
  - intros b [->|Hb]%elem_of_cons; unfold lock_of; simpl; [done|].
    rewrite Hlb by (by intros ->). by apply Hidle.
  - intros b Hb. unfold lock_of. simpl. rewrite Hlb by (by intros ->). apply Hbusy. set_solver.
Qed.

(** ** Construction *)

(** The list after [n] more slices from [cur] on. *)
Fixpoint pushed (n : nat) (cur st : Z) (l : list Z) : list Z :=
  match n with O => l | S n => pushed n (cur + st) st (cur :: l) end.

Lemma pushed_perm n cur st l :
  pushed n cur st l ≡ₚ ((fun i => cur + Z.of_nat i * st) <$> seq 0 n) ++ l.
Proof.
  revert cur l. induction n as [|n IH]; intros cur l; [done|]. cbn [pushed]. rewrite IH.
  cbn [seq fmap list_fmap app]. rewrite <- Permutation_middle.
  replace (cur + Z.of_nat 0 * st) with cur by lia. f_equiv. f_equiv.
  rewrite <- fmap_S_seq, <- list_fmap_compose. apply Permutation_refl', list_fmap_ext.
  intros k i _. simpl. lia.
Qed.

Lemma init_loop_spec n cur p l :
  seg (slices p) 0 l 0 -> NoDup l -> (forall b, b ∈ l -> 0 < b < cur) -> 0 < cur -> 0 < slice_size p ->
  head p = hd 0 l -> tail p = List.last l 0 -> (forall b, b ∈ l -> lock_of p b = Some 0) ->
  exists p', init_loop n cur p = Some p' /\ same_geometry p p' /\ slice_use p' = slice_use p /\
    let l' := pushed n cur (stride p) l in
    seg (slices p') 0 l' 0 /\ head p' = hd 0 l' /\ tail p' = List.last l' 0 /\
    forall b, b ∈ l' -> lock_of p' b = Some 0.
Proof.
  revert cur p l. induction n as [|n IH]; intros cur p l Hseg Hnd Hb Hcur Hsz Hhd Htl Hl.
  { exists p. by repeat split. }
  cbn [init_loop pushed]. set (p1 := with_slices p (<[cur := mkSlice 0 0 0]> (slices p))).
  assert (cur ∉ l) as Hcl by (intros H%Hb; lia).
  assert (exists m, (if negb (head p1 =? 0) then p ← put_prev cur p1 (head p1); put_next (head p) p cur
     else Some (with_tail p1 cur)) = Some (with_tail (with_slices p m) (List.last (cur :: l) 0)) /\
     seg m 0 (cur :: l) 0 /\ forall b, b ∈ cur :: l -> lock <$> m !! b = Some 0) as (m & -> & Hm & Hlm).
  { change (head p1) with (head p). rewrite Hhd. destruct l as [|h l].
    - exists (<[cur := mkSlice 0 0 0]> (slices p)). split_and!; [done| |].
      + split; [|done]. eexists. split; [apply lookup_insert_eq|done].
      + intros b ->%list_elem_of_singleton. by rewrite lookup_insert_eq.
    - cbn [hd]. assert (0 < h < cur) by (apply Hb; left). destruct (Z.eqb_spec h 0); [lia|]. cbn [negb].
      destruct (seg_lookup _ _ _ _ h Hseg) as [sh Hsh]; [left|].
      assert (slices p1 !! h = Some sh) as Hsh1 by (simpl; rewrite lookup_insert_ne; [done|lia]).
      unfold put_prev, put_next. rewrite (upd_Some _ _ _ _ Hsh1). psimpl. change (head p1) with (head p). rewrite Hhd.
      set (m1 := <[h := _]> (slices p1)).
      assert (m1 !! cur = Some (mkSlice 0 0 0)) as Hc1.
      { subst m1. rewrite lookup_insert_ne by lia. apply lookup_insert_eq. }
      erewrite upd_Some by exact Hc1. eexists. split_and!.
      + unfold p1, with_tail, with_slices. psimpl. rewrite Htl. reflexivity.
      + split; [eexists; split; [apply lookup_insert_eq|done]|]. apply seg_insert_ne; [done|].
        eapply seg_put_prev; [|done|done]. by apply seg_insert_ne.
      + intros b [->|Hin]%elem_of_cons; [by rewrite lookup_insert_eq|].
        rewrite lookup_insert_ne by (intros ->; done). specialize (Hl b Hin).
        rewrite <- Hl. eapply lock_of_insert; [done|done|]. unfold lock_of. simpl.
        rewrite lookup_insert_ne; [done|]. intros ->. done. }
  cbn [mbind option_bind].
  destruct (IH (cur + (sizeof_slice + slice_size p))
    (with_head (with_tail (with_slices p m) (List.last (cur :: l) 0)) cur) (cur :: l))
    as (p' & E & Hg & Hu & Hrest); try done.
  - by constructor.
  - unfold sizeof_slice. intros b [->|Hin%Hb]%elem_of_cons; lia.
  - unfold sizeof_slice. lia.
  - exists p'. split; [exact E|]. split; [exact Hg|]. split; [exact Hu|]. exact Hrest.
Qed.

Lemma init_spec p :
  geometry p -> slices p = ∅ -> head p = 0 -> tail p = 0 -> slice_use p = 0 ->
  exists p' idle, init p = Some p' /\ pool_wf p' idle [] /\ same_geometry p p'.
Proof.
  intros Hgeo Hs Hhd Htl Hu. pose proof (geo_slice _ Hgeo). pose proof (geo_mem _ Hgeo).
  destruct (init_loop_spec (Z.to_nat (slice_num p)) (memory p) p [])
    as (p' & E & Hg & Hu' & Hseg & Hh & Ht & Hl); try done || lia.
  - constructor.
  - intros b ?%elem_of_nil. done.
  - intros b ?%elem_of_nil. done.
  - exists p', (pushed (Z.to_nat (slice_num p)) (memory p) (stride p) []). split_and!; [exact E| |done].
    split; rewrite ?app_nil_r; try done.
    + by eapply same_geometry_geometry.
    + rewrite (same_geometry_addrs _ _ Hg), pushed_perm, app_nil_r. done.
    + by rewrite Hu', Hu.
    + intros b ?%elem_of_nil. done.
Qed.

(** ** The interfaces *)

(** The slices in use, and the addresses handed out for them. *)
Definition busy_set (p : Pool) : gset Z :=
  list_to_set (filter (fun a => lock_of p a = Some 1) (addrs p)).
Definition data_set (X : gset Z) : gset Z := set_map (fun a => a + sizeof_slice) X.
Definition live (p : Pool) : gmap Z Z := gset_to_gmap (slice_size p) (data_set (busy_set p)).
Definition pool_good (p : Pool) : Prop := exists idle busy, pool_wf p idle busy.

Lemma elem_of_data_set X b : b ∈ data_set X <-> b - sizeof_slice ∈ X.
Proof.
  unfold data_set. rewrite elem_of_map. split.
  - intros (a & -> & Ha). by replace (a + sizeof_slice - sizeof_slice) with a by lia.
  - intros Hb. exists (b - sizeof_slice). split; [lia|done].
Qed.

Lemma busy_set_spec p idle busy : pool_wf p idle busy -> busy_set p = list_to_set busy.
Proof.
  intros Hwf. apply set_eq. intros a. unfold busy_set.
  rewrite !elem_of_list_to_set, list_elem_of_filter, <- (fw_perm _ _ _ Hwf), elem_of_app. split.
  - intros [Hl [Hi|Hb]]; [|done]. rewrite (fw_idle _ _ _ Hwf a Hi) in Hl. done.
  - intros Hb. split; [by eapply fw_busy|by right].
Qed.

Lemma slice_live_lookup p idle busy b n :
  pool_wf p idle busy -> live p !! b = Some n <-> n = slice_size p /\ b - sizeof_slice ∈ busy.
Proof.
  intros Hwf. unfold live. rewrite lookup_gset_to_gmap_Some, elem_of_data_set, (busy_set_spec _ _ _ Hwf).
  rewrite elem_of_list_to_set. naive_solver.
Qed.

Lemma live_alloc p p' idle idle' busy a :
  pool_wf p idle busy -> pool_wf p' idle' (busy ++ [a]) -> same_geometry p p' ->
  live p' = <[a + sizeof_slice := slice_size p]> (live p).
Proof.
  intros Hwf Hwf' (_ & _ & _ & Hs). apply map_eq. intros b. apply option_eq. intros n.
  rewrite (slice_live_lookup _ _ _ _ _ Hwf'), lookup_insert_Some, (slice_live_lookup _ _ _ _ _ Hwf), Hs.
  rewrite elem_of_app, list_elem_of_singleton. split.
  - intros [-> [Hb|Hb]]; [|left; split; [lia|done]].
    destruct (decide (a + sizeof_slice = b)); auto.
  - intros [[<- <-]|[_ [-> Hb]]]; split; auto. right. lia.
Qed.

Lemma live_disjoint p : pool_good p ->
  regions_disjoint (live p) /\ forall a n, live p !! a = Some n -> 0 < a /\ (8 | a).
Proof.
  intros (idle & busy & Hwf). pose proof (fw_geo _ _ _ Hwf) as Hgeo. pose proof (stride_pos _ Hgeo) as Hst.
  assert (forall b n, live p !! b = Some n -> n = slice_size p /\
    exists i, b = addr p i + sizeof_slice) as Haddr.
  { intros b n [-> Hb]%(slice_live_lookup _ _ _ _ _ Hwf). split; [done|].
    assert (b - sizeof_slice ∈ addrs p) as (i & Hi & _)%elem_of_addrs.
    { rewrite <- (fw_perm _ _ _ Hwf). apply elem_of_app. by right. }
    exists i. lia. }
  split.
  - intros a n b k (-> & i & ->)%Haddr (-> & j & ->)%Haddr Hne. unfold addr, stride, sizeof_slice in *.
    destruct (Nat.lt_trichotomy i j) as [?|[->|?]]; [left; nia|done|right; nia].
  - intros a n (-> & i & ->)%Haddr. destruct (geo_mem _ Hgeo) as [Hm [km Hkm]].
    destruct (geo_slice _ Hgeo) as [Hs [ks Hks]]. unfold addr, stride, sizeof_slice in *.
    split; [nia|]. exists (km + Z.of_nat i * (3 + ks) + 3). rewrite Hkm, Hks. ring.
Qed.

#[export] Program Instance fixed_memory_pool : MemoryPool Pool unit := {
  pool_alloc p _ size := alloc p size;
  pool_free := free;
  pool_live := live;
  pool_max := 2 ^ 32 - 1;
  pool_inv := pool_good;
  pool_env_ok _ _ := True;
}.
Next Obligation.
  intros p _ size (idle & busy & Hwf) _ _.
  destruct (decide (slice_size p < size)) as [Hbig|Hfit].
  { rewrite (alloc_fails p idle busy) by auto. exists p, 0. split; [done|]. split; [by exists idle, busy|auto]. }
  destruct idle as [|a idle].
  { rewrite (alloc_fails p [] busy) by auto. exists p, 0. split; [done|]. split; [by exists [], busy|auto]. }
  destruct (slice_alloc_spec p idle busy a size Hwf) as (p' & -> & Hwf' & Hg); [lia|].
  pose proof (@wf_pos _ _ _ Hwf a ltac:(left)) as Hpos.
  exists p', (a + sizeof_slice). split; [done|]. split; [by exists idle, (busy ++ [a])|]. right.
  split; [unfold sizeof_slice; lia|]. split.
  - destruct (live p !! (a + sizeof_slice)) eqn:E; [|done].
    apply (slice_live_lookup _ _ _ _ _ Hwf) in E as [_ E].
    replace (a + sizeof_slice - sizeof_slice) with a in E by lia.
    pose proof (wf_NoDup Hwf) as Hnd. cbn [app] in Hnd. apply NoDup_cons in Hnd as [Hna _].
    destruct Hna. apply elem_of_app. by right.
  - exists (slice_size p). split; [lia|]. by eapply live_alloc.
Qed.
Next Obligation.
  intros p ptr (idle & busy & Hwf) [n [_ Hin]%(slice_live_lookup _ _ _ _ _ Hwf)].
  apply list_elem_of_split in Hin as (b1 & b2 & ->).
  destruct (slice_free_spec p idle b1 _ b2 Hwf) as (p' & E & Hwf' & Hg).
  replace (ptr - sizeof_slice + sizeof_slice) with ptr in E by lia.
  exists p'. split; [done|]. split; [by eexists _, _|]. intros b Hb. apply option_eq. intros k.
  rewrite (slice_live_lookup _ _ _ _ _ Hwf), (slice_live_lookup _ _ _ _ _ Hwf').
  destruct Hg as (_ & _ & _ & ->). rewrite !elem_of_app, elem_of_cons.
  split; [naive_solver|]. intros (-> & [?|[?|?]]); auto. lia.
Qed.
Next Obligation. exact live_disjoint. Qed.

#[export] Program Instance fixed_slice_pool : SlicePool Pool := {
  sp_alloc p := alloc p 0;
  sp_free := free;
  sp_all p := data_set (list_to_set (addrs p));
  sp_live p := data_set (busy_set p);
  sp_inv := pool_good;
}.
Next Obligation.
  intros p (idle & busy & Hwf). pose proof (geo_slice _ (fw_geo _ _ _ Hwf)) as Hs.
  destruct idle as [|a idle].
  - left. rewrite (alloc_fails p [] busy) by auto. split; [|done]. f_equal.
    rewrite (busy_set_spec _ _ _ Hwf). apply set_eq. intros a.
    rewrite !elem_of_list_to_set, <- (fw_perm _ _ _ Hwf). done.
  - right. destruct (slice_alloc_spec p idle busy a 0 Hwf) as (p' & -> & Hwf' & Hg); [lia|].
    exists p', (a + sizeof_slice). split; [done|]. split; [by exists idle, (busy ++ [a])|].
    rewrite (busy_set_spec _ _ _ Hwf), (busy_set_spec _ _ _ Hwf'), (same_geometry_addrs _ _ Hg).
    split_and!; [..|done].
    + rewrite elem_of_difference, !elem_of_data_set, !elem_of_list_to_set.
      replace (a + sizeof_slice - sizeof_slice) with a by lia. rewrite <- (fw_perm _ _ _ Hwf).
      pose proof (wf_NoDup Hwf) as Hnd. cbn [app] in *. apply NoDup_cons in Hnd as [Hna _].
      split; [left|]. intros Hb. apply Hna. apply elem_of_app. by right.
    + apply set_eq. intros b. rewrite elem_of_union, elem_of_singleton, !elem_of_data_set.
      rewrite !elem_of_list_to_set, elem_of_app, list_elem_of_singleton.
      split; intros [?|?]; auto; [left|right]; lia.
Qed.
Next Obligation.
  intros p b (idle & busy & Hwf). rewrite elem_of_data_set, (busy_set_spec _ _ _ Hwf), elem_of_list_to_set.
  intros (b1 & b2 & ->)%list_elem_of_split.
  destruct (slice_free_spec p idle b1 _ b2 Hwf) as (p' & E & Hwf' & Hg).
  replace (b - sizeof_slice + sizeof_slice) with b in E by lia.
  exists p'. split; [done|]. split; [by eexists _, _|].
  rewrite (busy_set_spec _ _ _ Hwf'), (same_geometry_addrs _ _ Hg). split; [|done].
  apply set_eq. intros c. rewrite elem_of_difference, elem_of_singleton, !elem_of_data_set.
  rewrite !elem_of_list_to_set, !elem_of_app, elem_of_cons.
  pose proof (wf_NoDup Hwf) as (_ & _ & (_ & Hd & [Hn _]%NoDup_cons)%NoDup_app)%NoDup_app.
  split.
  - intros Hc. split; [tauto|]. intros ->. destruct Hc as [Hc|Hc]; [|done]. apply (Hd _ Hc). left.
  - intros [[?|[?|?]] Hne]; auto. destruct Hne. lia.
Qed.
Next Obligation.
  intros p (idle & busy & Hwf). rewrite elem_of_data_set, elem_of_list_to_set. intros H.
  pose proof (addr_pos _ _ (fw_geo _ _ _ Hwf) H). unfold sizeof_slice in *. lia.
Qed.

(** ** Theorems *)

Lemma slice_make_good num sz mem :
  2 <= num < 2 ^ 31 -> 0 < sz < 2 ^ 31 -> 0 < mem -> (8 | mem) ->
  exists p idle, make num sz mem = Some (inr p) /\ pool_wf p idle [] /\
    slice_num p = num /\ slice_size p = aligned8 sz.
Proof.
  intros Hnum Hsz Hmem Hal. pose proof (aligned8_spec sz) as [Ha Hdiv]. unfold make.
  destruct (Z.ltb_spec num 2); [lia|]. destruct (Z.ltb_spec (2 ^ 32 - 1 - 8 + 1) sz); [lia|].
  rewrite uN_small by (unfold fits; lia). unfold sizeof_slice at 1, sizeof_impl at 1.
  assert (num * (24 + aligned8 sz) <= 2 ^ 63) as Hprod by nia.
  destruct (Z.ltb_spec ((2 ^ 64 - 1) / num) (24 + aligned8 sz)) as [Hov|_].
  { pose proof (Z.mul_succ_div_gt (2 ^ 64 - 1) num). nia. }
  unfold sizeof_slice at 1. destruct (Z.ltb_spec (2 ^ 64 - 1 - 48) (num * (24 + aligned8 sz))); [lia|].
  destruct (Z.eqb_spec mem 0); [lia|].
  destruct (init_spec (mkPool (mem + sizeof_impl) (num * (sizeof_slice + aligned8 sz)) 0 0 num 0 (aligned8 sz) ∅))
    as (p & idle & -> & Hwf & (_ & _ & Hn & Hs)); try done.
  - split; simpl; [lia| |split; [lia|done]|unfold stride; simpl; lia]. unfold sizeof_impl.
    split; [lia|]. apply Z.divide_add_r; [done|]. by exists 6.
  - exists p, idle. done.
Qed.

(** A pool in memory that has room for exactly [num] slices. *)
Lemma make_in_good num sz mem :
  2 <= num < 2 ^ 32 -> 0 < sz < 2 ^ 32 -> (8 | sz) -> 0 < mem -> (8 | mem) ->
  exists p idle, make_in sz mem (num * (sz + sizeof_slice) + sizeof_impl) = Some (inr p) /\ pool_wf p idle [] /\
    slice_num p = num /\ slice_size p = sz /\ memory p = mem + sizeof_impl.
Proof.
  intros Hnum Hsz Hdiv Hmem Hal. unfold make_in, sizeof_slice, sizeof_impl. destruct (Z.eqb_spec mem 0); [lia|].
  destruct (Z.leb_spec (num * (sz + 24) + 48) 48); [nia|]. cbn [orb].
  assert (sz <= 2 ^ 32 - 8) as Hsz8 by (destruct Hdiv as [q ->]; lia).
  destruct (Z.ltb_spec (2 ^ 32 - 1 - 8 + 1) sz); [lia|].
  assert (aligned8 sz = sz) as ->.
  { rewrite aligned8_eq. destruct Hdiv as [q ->]. replace (q * 8 + 7) with (7 + q * 8) by lia.
    rewrite Z.div_add by lia. change (7 / 8) with 0. lia. }
  rewrite (uN_small 32 sz) by (unfold fits; lia).
  replace (num * (sz + 24) + 48 - 48) with (num * (sz + 24)) by lia.
  rewrite Z.div_mul, uN_small by (unfold fits; lia). destruct (Z.ltb_spec num 2); [lia|].
  destruct (init_spec (mkPool (mem + 48) (num * (sz + 24)) 0 0 num 0 sz ∅))
    as (p & idle & -> & Hwf & (Hm & _ & Hn & Hs)); try done.
  - split; simpl; [lia| |split; [lia|done]|unfold stride, sizeof_slice; simpl; lia].
    split; [lia|]. apply Z.divide_add_r; [done|]. by exists 6.
  - exists p, idle. done.
Qed.

(** C17: a pool made of at least two slices serves any sequence of allocations and
    releases of owned blocks: every call returns, the blocks a client owns are 8-byte
    aligned, large enough and pairwise disjoint, and the list of slices, its two ends,
    the lock marks and the use counter stay consistent.  Conditions: the pool has at
    least two slices and both sizes are below 2^31, the memory is aligned, and the
    client frees only blocks that it owns. *)
Theorem fixed_pool_sound num sz mem (ops : list (pool_op (E := unit))) :
  2 <= num < 2 ^ 31 -> 0 < sz < 2 ^ 31 -> 0 < mem -> (8 | mem) ->
  exists p, make num sz mem = Some (inr p) /\
    (pool_ops_ok (p, ∅) ops ->
     exists p' own, pool_run (p, ∅) ops = Some (p', own) /\ (exists idle busy, pool_wf p' idle busy) /\
       regions_disjoint own /\ forall a n, own !! a = Some n -> 0 < a /\ (8 | a)).
Proof.
  intros Hnum Hsz Hmem Hal.
  destruct (slice_make_good num sz mem) as (p & idle & E & Hwf & _); [done..|]. exists p. split; [done|].
  intros Hops. destruct (pool_run_ok (p, ∅) ops) as ([p' own] & Erun & Hinv & Hd & Ha); [|done|].
  - split; [by exists idle, []|]. intros a n Hn. simpl in Hn. by rewrite lookup_empty in Hn.
  - exists p', own. done.
Qed.

(** A request that fits is refused exactly when every slice is in use, and
    the number of spare slices drops by one with a successful [alloc] and rises
    by one with [free]. *)
Theorem fixed_pool_counts p idle busy size :
  pool_wf p idle busy -> 0 <= size <= slice_size p ->
  get_number_of_spare_slice p = zlen idle /\
  (exists p' ptr, alloc p size = Some (p', ptr) /\
     (ptr = 0 <-> get_number_of_spare_slice p = 0) /\
     (ptr <> 0 -> get_number_of_spare_slice p' = get_number_of_spare_slice p - 1)) /\
  (forall a, a ∈ busy -> exists p', free p (a + sizeof_slice) = Some p' /\
     get_number_of_spare_slice p' = get_number_of_spare_slice p + 1).
Proof.
  intros Hwf Hsize.
  assert (forall p idle busy, pool_wf p idle busy -> get_number_of_spare_slice p = zlen idle) as Hspare.
  { clear. intros p idle busy Hwf. unfold get_number_of_spare_slice.
    pose proof (wf_length Hwf) as Hlen. pose proof (geo_num _ (fw_geo _ _ _ Hwf)).
    rewrite (fw_use _ _ _ Hwf), uN_small; rewrite length_app in Hlen; unfold fits; lia. }
  split_and!; [by eapply Hspare| |].
  - destruct idle as [|a idle].
    + rewrite (alloc_fails p [] busy) by auto. exists p, 0. rewrite (Hspare p [] busy Hwf). done.
    + destruct (slice_alloc_spec p idle busy a size Hwf) as (p' & -> & Hwf' & _); [lia|].
      pose proof (@wf_pos _ _ _ Hwf a ltac:(left)). exists p', (a + sizeof_slice). split; [done|].
      rewrite (Hspare _ _ _ Hwf), (Hspare _ _ _ Hwf'). cbn [length]. unfold sizeof_slice. lia.
  - intros a (b1 & b2 & ->)%list_elem_of_split.
    destruct (slice_free_spec p idle b1 a b2 Hwf) as (p' & -> & Hwf' & _). exists p'. split; [done|].
    rewrite (Hspare _ _ _ Hwf), (Hspare _ _ _ Hwf'). cbn [length]. lia.
Qed.

(** ** Witnesses *)

Lemma fixed_pool_sound_witness : exists p, make 4 100 4096 = Some (inr p) /\
  exists p' own, pool_run (p, ∅) [Alloc tt 10; Alloc tt 100; Alloc tt 200] = Some (p', own) /\
    (exists idle busy, pool_wf p' idle busy) /\
    regions_disjoint own /\ forall a n, own !! a = Some n -> 0 < a /\ (8 | a).
Proof.
  destruct (fixed_pool_sound 4 100 4096 [Alloc tt 10; Alloc tt 100; Alloc tt 200]) as (p & E & H);
    [lia|lia|lia|by exists 512|].
  exists p. split; [exact E|]. apply H. simpl. repeat (split; [split; [exact I|lia]|intros ? _]). exact I.
Defined.

