(* ===== verification/RingBuffer.v ===== *)
(** * The ring buffer pool

    [src/memory/ring_buffer.cc]: blocks are carved off in order behind a small
    header, released in any order by a mark in the header, and reclaimed in
    order when the next block is allocated.  [items] holds the headers by
    offset; what lies inside a block that was handed out belongs to the caller,
    so that headers there are forgotten. *)

From S2P Require Import Prelude MemPool.

(** [struct RingBufferItem] *)
Record Item := mkItem { lock : Z; index : Z; length : Z }.
Definition sizeof_item : Z := 8.
Definition sizeof_ring : Z := 32.

(** [struct RingBufferImpl] *)
Record Ring := mkRing {
  memory : Z;
  status : Z;
  size : Z;
  alloc_offset : Z;
  collect_offset : Z;
  alloc_count : Z;
  free_count : Z;
  items : gmap Z Item;
}.

Definition with_collect r o st c := mkRing (memory r) st (size r) (alloc_offset r) o (alloc_count r) c (items r).
Definition with_alloc r o st := mkRing (memory r) st (size r) o (collect_offset r) (alloc_count r) (free_count r) (items r).
Definition with_items r its c := mkRing (memory r) (status r) (size r) (alloc_offset r) (collect_offset r) (alloc_count r) c its.
Definition with_count r n := mkRing (memory r) (status r) (size r) (alloc_offset r) (collect_offset r) n (free_count r) (items r).

Inductive exn := InvalidParams | BadAlloc.

(** [RingBuffer::RingBuffer]; [mem] is the answer of the allocator. *)
Definition make (sz mem : Z) : exn + Ring :=
  if 2 ^ 32 - 1 - 8 + 1 <? sz then inl InvalidParams else
  let sz := u32 (aligned8 sz) in
  if sz <=? sizeof_ring + sizeof_item then inl InvalidParams else
  if mem =? 0 then inl BadAlloc else
  inr (mkRing (mem + sizeof_ring) 0 (sz - sizeof_ring) 0 0 0 0 ∅).

(** [RingBufferImpl::collect] *)
Fixpoint collect_loop (fuel : nat) (i : Z) (r : Ring) : option Ring :=
  if free_count r <=? i then Some r else
  match fuel with
  | O => None
  | S fuel =>
      item ← items r !! collect_offset r;
      if lock item =? 0 then
        let n_size := u32 (length item + sizeof_item) in
        let o := u32 (collect_offset r + n_size) in
        let fc := u32 (free_count r - 1) in
        let r :=
          if (size r <? o + sizeof_item) || (size r <=? o) then with_collect r 0 0 fc
          else with_collect r o (status r) fc in
        collect_loop fuel (i + 1) r
      else Some r
  end.
Definition collect (r : Ring) : option Ring := collect_loop (Z.to_nat (free_count r)) 0 r.

(** The headers that survive when [n] bytes at [o] are handed out. *)
Definition clobber (its : gmap Z Item) (o n : Z) : gmap Z Item :=
  filter (fun kv => kv.1 <= o \/ o + n <= kv.1) its.

(** The choice of the place, after [collect]. *)
Definition choose (r : Ring) (alloc_size : Z) : Ring * Z :=
  if status r =? 0 then
    if size r - sizeof_item <? u32 (alloc_offset r + alloc_size) then
      let skip_n := u32 (size r - alloc_offset r) in
      let r :=
        if sizeof_item <=? skip_n then
          let skip := mkItem 0 (from_option index 0 (items r !! alloc_offset r)) (skip_n - sizeof_item) in
          with_items r (<[alloc_offset r := skip]> (items r)) (u32 (free_count r + 1))
        else r in
      let r := with_alloc r 0 1 in
      (r, u32 (collect_offset r - alloc_offset r))
    else (r, u32 (size r - alloc_offset r))
  else (r, u32 (collect_offset r - alloc_offset r)).

(** [RingBuffer::alloc]; a failed [assert] has no result. *)
Definition alloc (r : Ring) (sz : Z) : option (Ring * Z) :=
  if sz <=? 0 then None else
  if 2 ^ 32 - 1 - 8 + 1 <? sz then Some (r, 0) else
  let sz := u32 (aligned8 sz) in
  if 2 ^ 32 - 1 - sizeof_item <? sz then Some (r, 0) else
  let alloc_size := u32 (sz + sizeof_item) in
  r ← (if 0 <? free_count r then collect r else Some r);
  let '(r, capacity) := choose r alloc_size in
  if capacity <? alloc_size then Some (r, 0) else
  let o := alloc_offset r in
  let item := mkItem 1 (u16 (alloc_count r)) sz in
  let r := with_items r (<[o := item]> (clobber (items r) o alloc_size)) (free_count r) in
  let r := with_alloc r (u32 (o + alloc_size)) (status r) in
  Some (with_count r (u32 (alloc_count r + 1)), memory r + o + sizeof_item).

(** [RingBuffer::free] *)
Definition free (r : Ring) (ptr : Z) : option Ring :=
  if negb ((memory r <=? ptr) && (ptr <=? memory r + size r)) then None else
  let o := ptr - sizeof_item - memory r in
  item ← items r !! o;
  if negb (lock item =? 1) then None else
  Some (with_items r (<[o := mkItem 0 (index item) (length item)]> (items r)) (u32 (free_count r + 1))).

(** ** The invariant *)

(** The blocks [l] follow each other from offset [o] to offset [e]. *)
Fixpoint chain (its : gmap Z Item) (o : Z) (l : list (Z * Item)) (e : Z) : Prop :=
  match l with
  | [] => o = e
  | (o', it) :: l' =>
      o' = o /\ its !! o = Some it /\ 0 <= length it /\ (8 | length it) /\ (lock it = 0 \/ lock it = 1) /\
      chain its (o + sizeof_item + length it) l' e
  end.

Definition unlocked (l : list (Z * Item)) : Z := zlen (filter (fun x => lock x.2 = 0) l).

(** [l1] are the blocks from the collect offset on; once the allocation offset
    has wrapped around they end with the memory, and [l2] are the blocks from
    the start of the memory on. *)
Record ring_wf (r : Ring) (l1 l2 : list (Z * Item)) : Prop := {
  rw_size : sizeof_item < size r < 2 ^ 32 /\ (8 | size r);
  rw_memory : 0 < memory r /\ (8 | memory r);
  rw_offsets : 0 <= collect_offset r /\ 0 <= alloc_offset r <= size r - sizeof_item /\
    (8 | collect_offset r) /\ (8 | alloc_offset r);
  rw_status : status r = 0 /\ chain (items r) (collect_offset r) l1 (alloc_offset r) /\ l2 = [] \/
    status r = 1 /\ chain (items r) (collect_offset r) l1 (size r) /\ l1 <> [] /\
      chain (items r) 0 l2 (alloc_offset r) /\ alloc_offset r <= collect_offset r;
  rw_free : free_count r = unlocked (l1 ++ l2);
  rw_locked o it : items r !! o = Some it -> lock it = 1 -> (o, it) ∈ l1 ++ l2;
}.

(** The regions handed out. *)
Definition live (r : Ring) : gmap Z Z :=
  kmap (fun o => memory r + o + sizeof_item) (length <$> filter (fun kv => lock kv.2 = 1) (items r)).

(** ** Chains *)

#[local] Hint Resolve Z.divide_add_r Z.divide_0_r Z.divide_refl : core.
Abbreviation block := (Z * Item)%type.
Implicit Types (l : list block) (its : gmap Z Item).

Lemma chain_app its o l1 l2 e :
  chain its o (l1 ++ l2) e <-> exists m, chain its o l1 m /\ chain its m l2 e.
Proof.
  revert o. induction l1 as [|[o' it] l1 IH]; intros o; cbn [app chain].
  - split; [eauto|]. by intros (m & <- & ?).
  - rewrite IH. naive_solver.
Qed.

Lemma chain_snoc its o l m it e :
  chain its o (l ++ [(m, it)]) e <->
  chain its o l m /\ its !! m = Some it /\ 0 <= length it /\ (8 | length it) /\
  (lock it = 0 \/ lock it = 1) /\ e = m + sizeof_item + length it.
Proof. rewrite chain_app. cbn [chain]. naive_solver. Qed.

Lemma chain_length its o l e : chain its o l e -> o + 8 * zlen l <= e.
Proof.
  revert o. induction l as [|[o' it] l IH]; intros o; cbn [chain].
  - intros <-. simpl. lia.
  - intros (-> & _ & Hl & _ & _ & H%IH). cbn [Datatypes.length]. unfold sizeof_item in *. lia.
Qed.

Lemma chain_elem its o l e o' it :
  chain its o l e -> (o', it) ∈ l ->
  its !! o' = Some it /\ o <= o' /\ o' + sizeof_item + length it <= e /\ 0 <= length it /\
  (lock it = 0 \/ lock it = 1) /\ ((8 | o) -> (8 | o')).
Proof.
  revert o. induction l as [|[a x] l IH]; intros o; [by intros _ ?%elem_of_nil|]. cbn [chain].
  intros (-> & Hx & Hl & Hd & Hlk & Hc) [[= -> ->]|Hin]%elem_of_cons.
  - pose proof (chain_length _ _ _ _ Hc). split_and!; try done; lia.
  - destruct (IH _ Hc Hin) as (? & ? & ? & ? & ? & Hdiv). unfold sizeof_item in *.
    split_and!; try done || lia. intros Ho. apply Hdiv. apply Z.divide_add_r; [|done].
    by apply Z.divide_add_r.
Qed.

Lemma chain_ext its its' o l e :
  (forall o' it, (o', it) ∈ l -> its' !! o' = its !! o') -> chain its o l e -> chain its' o l e.
Proof.
  revert o. induction l as [|[a x] l IH]; intros o H; [done|]. cbn [chain].
  intros (-> & Hx & ? & ? & ? & Hc). rewrite (H o x) by left. split_and!; try done.
  apply IH; [|done]. intros o' it Hin. apply (H o' it). by right.
Qed.

Lemma chain_div its o l e : chain its o l e -> (8 | o) -> (8 | e).
Proof.
  revert o. induction l as [|[a x] l IH]; intros o; cbn [chain]; [by intros <-|].
  intros (-> & _ & _ & Hd & _ & Hc) Ho. eapply IH; [done|]. unfold sizeof_item. auto.
Qed.

(** Offsets of a chain determine its blocks. *)
Lemma chain_fun its o l e o' it it' :
  chain its o l e -> (o', it) ∈ l -> its !! o' = Some it' -> it' = it.
Proof. intros Hc Hin Hl. destruct (chain_elem _ _ _ _ _ _ Hc Hin) as [? _]. congruence. Qed.

Lemma unlocked_app l1 l2 : unlocked (l1 ++ l2) = unlocked l1 + unlocked l2.
Proof. unfold unlocked. rewrite filter_app, length_app. lia. Qed.

Lemma unlocked_cons o it l : lock it = 0 \/ lock it = 1 -> unlocked ((o, it) :: l) = 1 - lock it + unlocked l.
Proof.
  unfold unlocked. intros [H|H].
  - rewrite filter_cons_True by done. cbn [Datatypes.length]. lia.
  - rewrite filter_cons_False by (simpl; lia). lia.
Qed.

Lemma unlocked_bounds l : 0 <= unlocked l <= zlen l.
Proof. unfold unlocked. pose proof (length_filter (fun x : block => lock x.2 = 0) l). lia. Qed.

Section wf.
Context {r : Ring} {l1 l2 : list block} (Hwf : ring_wf r l1 l2).

Lemma wf_collect_bound : collect_offset r <= size r - sizeof_item.
Proof.
  destruct (rw_offsets _ _ _ Hwf) as (_ & Ha & _).
  destruct (rw_status _ _ _ Hwf) as [(_ & Hc & _)|(_ & Hc & Hne & _)].
  - pose proof (chain_length _ _ _ _ Hc). lia.
  - destruct l1 as [|[o it] l]; [done|]. destruct Hc as (_ & _ & ? & _ & _ & Hc).
    pose proof (chain_length _ _ _ _ Hc). lia.
Qed.

Lemma wf_free_bound : 0 <= free_count r < 2 ^ 30.
Proof.
  rewrite (rw_free _ _ _ Hwf). pose proof (unlocked_bounds (l1 ++ l2)).
  destruct (rw_size _ _ _ Hwf) as [? _]. destruct (rw_offsets _ _ _ Hwf) as (? & ? & _).
  destruct (rw_status _ _ _ Hwf) as [(_ & Hc & ->)|(_ & Hc & _ & Hc' & ?)].
  - pose proof (chain_length _ _ _ _ Hc). rewrite app_nil_r in *. unfold sizeof_item in *. lia.
  - pose proof (chain_length _ _ _ _ Hc). pose proof (chain_length _ _ _ _ Hc').
    rewrite length_app in *. unfold sizeof_item in *. lia.
Qed.

(** A pending block, wherever it is. *)
Lemma wf_block o it : (o, it) ∈ l1 ++ l2 ->
  items r !! o = Some it /\ 0 <= o /\ o + sizeof_item + length it <= size r /\ 0 <= length it /\ (8 | o) /\
  (lock it = 0 \/ lock it = 1).
Proof.
  destruct (rw_offsets _ _ _ Hwf) as (? & ? & ? & ?).
  intros Hin. destruct (rw_status _ _ _ Hwf) as [(_ & Hc & ->)|(_ & Hc & _ & Hc' & ?)].
  - rewrite app_nil_r in Hin. destruct (chain_elem _ _ _ _ _ _ Hc Hin) as (? & ? & ? & ? & ? & ?).
    unfold sizeof_item in *. split_and!; auto; lia.
  - apply elem_of_app in Hin as [Hin|Hin].
    + destruct (chain_elem _ _ _ _ _ _ Hc Hin) as (? & ? & ? & ? & ? & ?). split_and!; auto; lia.
    + destruct (chain_elem _ _ _ _ _ _ Hc' Hin) as (? & ? & ? & ? & ? & ?). unfold sizeof_item in *.
      split_and!; auto; lia.
Qed.
End wf.

(** ** Reclaiming *)

(** What [collect] leaves alone. *)
Definition collected (r r' : Ring) : Prop :=
  items r' = items r /\ memory r' = memory r /\ size r' = size r /\
  alloc_offset r' = alloc_offset r /\ alloc_count r' = alloc_count r.

(** One iteration that finds a released block. *)
Lemma collect_step r l1 l2 it :
  ring_wf r l1 l2 -> items r !! collect_offset r = Some it -> lock it = 0 -> 0 < free_count r ->
  let o := u32 (collect_offset r + u32 (length it + sizeof_item)) in
  let fc := u32 (free_count r - 1) in
  let r' := if (size r <? o + sizeof_item) || (size r <=? o) then with_collect r 0 0 fc
            else with_collect r o (status r) fc in
  collected r r' /\ free_count r' = free_count r - 1 /\ exists l1' l2', ring_wf r' l1' l2'.
Proof.
  intros Hwf Hit Hlk Hfc o fc r'.
  pose proof (wf_free_bound Hwf) as Hfb. pose proof (wf_collect_bound Hwf) as Hcb.
  assert (fc = free_count r - 1) as Efc by (apply uN_small; unfold fits; lia).
  destruct Hwf as [[Hsz Hsd] Hmem (Hc0 & Ha0 & Hcd & Had) Hst Hfree Hlocked].
  destruct l1 as [|[co it'] l1].
  { destruct Hst as [(_ & _ & ->)|(_ & _ & ? & _)]; [|done]. unfold unlocked in Hfree. simpl in Hfree. lia. }
  unfold sizeof_item in *.
  assert (exists e, co = collect_offset r /\ it' = it /\ 0 <= length it /\ (8 | length it) /\
    chain (items r) (collect_offset r + 8 + length it) l1 e /\ e <= size r /\
    (status r = 0 /\ e = alloc_offset r /\ l2 = [] \/
     status r = 1 /\ e = size r /\ chain (items r) 0 l2 (alloc_offset r) /\
       alloc_offset r <= collect_offset r)) as (e & -> & -> & Hlen & Hdiv & Hch & He & Hcase).
  { destruct Hst as [(? & (-> & Hx & ? & ? & ? & ?) & ->)|(? & (-> & Hx & ? & ? & ? & ?) & _ & ? & ?)];
      rewrite Hit in Hx; injection Hx as <-; eexists; split_and!; eauto; lia. }
  pose proof (chain_length _ _ _ _ Hch) as Hle.
  assert (o = collect_offset r + 8 + length it) as Eo.
  { subst o. rewrite (uN_small 32 (length it + 8)) by (unfold fits; lia).
    rewrite uN_small; [lia|unfold fits; lia]. }
  assert (unlocked (((collect_offset r, it) :: l1) ++ l2) = 1 + unlocked (l1 ++ l2)) as Hun.
  { cbn [app]. rewrite unlocked_cons by (left; done). lia. }
  assert (forall o' x, items r !! o' = Some x -> lock x = 1 -> (o', x) ∈ l1 ++ l2) as Hlocked'.
  { intros o' x Hx Hx1. apply Hlocked in Hx; [|done]. cbn [app] in Hx.
    apply elem_of_cons in Hx as [[= -> ->]|?]; [congruence|done]. }
  destruct Hcase as [(Es & -> & ->)|(Es & -> & Hch2 & Hle2)].
  - assert (r' = with_collect r o (status r) fc) as ->.
    { subst r'. destruct (Z.ltb_spec (size r) (o + 8)), (Z.leb_spec (size r) o); done || lia. }
    split; [done|]. split; [done|]. exists l1, []. split; simpl; unfold sizeof_item; try done; [|left; by rewrite Eo|lia].
    rewrite Eo. split_and!; auto; lia.
  - destruct l1 as [|b l1].
    + cbn [chain] in Hch.
      assert (r' = with_collect r 0 0 fc) as ->.
      { subst r'. destruct (Z.ltb_spec (size r) (o + 8)); [done|lia]. }
      split; [done|]. split; [done|]. exists l2, []. rewrite app_nil_l in *.
      split; simpl; unfold sizeof_item; rewrite ?app_nil_r; try done; [left; done|lia].
    + cbn [Datatypes.length] in Hle. cbn [app] in Hun, Hfree, Hlocked'. assert (r' = with_collect r o (status r) fc) as ->.
      { subst r'. destruct (Z.ltb_spec (size r) (o + 8)), (Z.leb_spec (size r) o); done || lia. }
      split; [done|]. split; [done|]. exists (b :: l1), l2.
      split; simpl; unfold sizeof_item; try done; [|right; rewrite Eo; split; [done|split; [exact Hch|split; [done|split; [done|lia]]]]|lia].
      rewrite Eo. split_and!; auto; lia.
Qed.

Lemma collect_loop_spec fuel i r l1 l2 :
  ring_wf r l1 l2 -> 0 <= i -> free_count r - i <= Z.of_nat fuel ->
  exists r' l1' l2', collect_loop fuel i r = Some r' /\ ring_wf r' l1' l2' /\ collected r r'.
Proof.
  revert i r l1 l2. induction fuel as [|fuel IH]; intros i r l1 l2 Hwf Hi Hf; cbn [collect_loop];
    destruct (Z.leb_spec (free_count r) i) as [Hle|Hgt].
  1,3: exists r, l1, l2; split_and!; done.
  - lia.
  - assert (exists it, items r !! collect_offset r = Some it) as [it Hit].
    { pose proof (rw_free _ _ _ Hwf) as Hfree.
      destruct (rw_status _ _ _ Hwf) as [(_ & Hc & ->)|(_ & Hc & Hne & _)];
        (destruct l1 as [|[o it] l1]; [try done; unfold unlocked in Hfree; simpl in Hfree; lia|]);
        destruct Hc as (-> & ? & _); eauto. }
    rewrite Hit. cbn [mbind option_bind]. destruct (Z.eqb_spec (lock it) 0) as [H0|H0].
    + destruct (collect_step r l1 l2 it) as (Hcol & Hfc & l1' & l2' & Hwf'); [done|done|done|lia|].
      match goal with |- context [collect_loop fuel (i + 1) ?x] => set (r' := x) in * end.
      destruct (IH (i + 1) r' l1' l2') as (r'' & k1 & k2 & E & Hwf'' & Hcol'); [done|lia|lia|].
      exists r'', k1, k2. split_and!; [exact E|done|]. unfold collected in *. intuition congruence.
    + exists r, l1, l2. split_and!; done.
Qed.

Lemma collect_spec r l1 l2 :
  ring_wf r l1 l2 -> exists r' l1' l2', collect r = Some r' /\ ring_wf r' l1' l2' /\ collected r r'.
Proof. intros Hwf. eapply collect_loop_spec; [done|lia|]. pose proof (wf_free_bound Hwf). lia. Qed.

(** ** Placing a block *)

Lemma clobber_lookup its o n k :
  clobber its o n !! k = if decide (k <= o \/ o + n <= k) then its !! k else None.
Proof.
  apply option_eq. intros x. unfold clobber. rewrite map_lookup_filter_Some. simpl.
  case_decide; naive_solver.
Qed.

(** The headers after a block was placed. *)
Definition placed its (o n : Z) (it : Item) : gmap Z Item := <[o := it]> (clobber its o n).

Lemma placed_eq its o n it : placed its o n it !! o = Some it.
Proof. apply lookup_insert_eq. Qed.

Lemma placed_outside its o n it k : k < o \/ o + n <= k -> 0 < n -> placed its o n it !! k = its !! k.
Proof.
  intros Hk Hn. unfold placed. rewrite lookup_insert_ne by lia. rewrite clobber_lookup.
  rewrite decide_True by lia. done.
Qed.

Lemma placed_Some its o n it k x :
  placed its o n it !! k = Some x -> k = o /\ x = it \/ its !! k = Some x /\ (k < o \/ o + n <= k).
Proof.
  unfold placed. rewrite lookup_insert_Some, clobber_lookup. intros [[-> ->]|[Hne Hk]]; [by left|].
  case_decide; [|done]. right. split; [done|lia].
Qed.

(** [item->lock = 1] and the moves of the offset, for a block of [sz] bytes. *)
Definition place (r : Ring) (sz idx : Z) : Ring :=
  mkRing (memory r) (status r) (size r) (alloc_offset r + (sz + sizeof_item)) (collect_offset r)
    (u32 (alloc_count r + 1)) (free_count r)
    (placed (items r) (alloc_offset r) (sz + sizeof_item) (mkItem 1 idx sz)).

Lemma place_wf r l1 l2 sz idx :
  ring_wf r l1 l2 -> 0 < sz -> (8 | sz) ->
  (status r = 0 -> alloc_offset r + (sz + sizeof_item) <= size r - sizeof_item) ->
  (status r = 1 -> alloc_offset r + (sz + sizeof_item) <= collect_offset r) ->
  exists l1' l2', ring_wf (place r sz idx) l1' l2'.
Proof.
  intros Hwf Hsz Hd H0 H1. pose proof (wf_collect_bound Hwf) as Hcb.
  destruct Hwf as [[Hs Hsd] Hmem (Hc0 & Ha0 & Hcd & Had) Hst Hfree Hlocked].
  set (b := (alloc_offset r, mkItem 1 idx sz)). unfold sizeof_item in *.
  assert (forall l, unlocked (l ++ [b]) = unlocked l) as Hun.
  { intros l. rewrite unlocked_app. unfold b. rewrite unlocked_cons by (right; done).
    unfold unlocked. simpl. lia. }
  assert (forall o l e, chain (items r) o l e -> e <= alloc_offset r \/ alloc_offset r + (sz + 8) <= o ->
    chain (items (place r sz idx)) o l e) as Hext.
  { intros o l e Hch Ho. eapply chain_ext; [|done]. intros o' it Hin.
    destruct (chain_elem _ _ _ _ _ _ Hch Hin) as (_ & ? & ? & ? & _). unfold sizeof_item in *.
    simpl. apply placed_outside; unfold sizeof_item; lia. }
  assert (forall o l, chain (items r) o l (alloc_offset r) ->
    chain (items (place r sz idx)) o (l ++ [b]) (alloc_offset r + (sz + 8))) as Hsnoc.
  { intros o l Hch. apply chain_snoc. split; [apply Hext; [done|lia]|].
    split; [apply placed_eq|]. unfold sizeof_item. simpl. split_and!; auto; lia. }
  destruct Hst as [(Es & Hch & ->)|(Es & Hch & Hne & Hch2 & Hle)]; specialize (H0) as H0; spec_lia.
  - exists (l1 ++ [b]), []. split; simpl; unfold sizeof_item; try done.
    + split_and!; auto; lia.
    + left. split_and!; auto.
    + rewrite app_nil_r in *. by rewrite Hun.
    + rewrite app_nil_r in *. intros o it [[-> ->]|[Hit _]]%placed_Some Hlk; apply elem_of_app;
        [right; left|left; auto].
  - exists l1, (l2 ++ [b]). split; simpl; unfold sizeof_item; try done.
    + split_and!; auto; lia.
    + right. split_and!; auto.
    + by rewrite (assoc_L (++)), Hun.
    + rewrite (assoc_L (++)). intros o it [[-> ->]|[Hit _]]%placed_Some Hlk; apply elem_of_app;
        [right; left|left; auto].
Qed.

(** The rest of the memory is skipped, and the offset wraps around. *)
Definition skip (r : Ring) (idx : Z) : Ring :=
  mkRing (memory r) 1 (size r) 0 (collect_offset r) (alloc_count r) (free_count r + 1)
    (<[alloc_offset r := mkItem 0 idx (size r - alloc_offset r - sizeof_item)]> (items r)).

Lemma skip_wf r l1 l2 idx :
  ring_wf r l1 l2 -> status r = 0 -> exists l1' l2', ring_wf (skip r idx) l1' l2'.
Proof.
  intros Hwf Est. destruct Hwf as [[Hs Hsd] Hmem (Hc0 & Ha0 & Hcd & Had) Hst Hfree Hlocked].
  destruct Hst as [(_ & Hch & ->)|(? & _)]; [|lia]. unfold sizeof_item in *.
  set (b := (alloc_offset r, mkItem 0 idx (size r - alloc_offset r - 8))).
  rewrite app_nil_r in *. exists (l1 ++ [b]), []. split; simpl; unfold sizeof_item; try done.
  - split_and!; auto; lia.
  - right. split_and!; [done| |by destruct l1|done|lia]. apply chain_snoc. unfold sizeof_item. simpl.
    split_and!; auto; [|apply lookup_insert_eq|lia| |lia].
    + eapply chain_ext; [|done]. intros o it Hin.
      destruct (chain_elem _ _ _ _ _ _ Hch Hin) as (_ & ? & ? & ? & _). unfold sizeof_item in *.
      apply lookup_insert_ne. lia.
    + apply Z.divide_sub_r; [|by exists 1]. by apply Z.divide_sub_r.
  - rewrite app_nil_r, unlocked_app, Hfree. unfold b. rewrite unlocked_cons by (left; done).
    unfold unlocked. simpl. lia.
  - rewrite app_nil_r. intros o it [[-> <-]|[_ Hit]]%lookup_insert_Some Hlk; [done|].
    apply elem_of_app. left. auto.
Qed.

(** ** The regions handed out *)

Lemma ring_live_lookup r p n :
  live r !! p = Some n <->
  exists o it, p = memory r + o + sizeof_item /\ items r !! o = Some it /\ lock it = 1 /\ n = length it.
Proof.
  unfold live. assert (Inj eq eq (fun o => memory r + o + sizeof_item)) as Hinj by (intros ? ?; lia).
  rewrite lookup_kmap_Some by exact Hinj. split.
  - intros (o & -> & Ho). apply lookup_fmap_Some in Ho as (it & <- & [? ?]%map_lookup_filter_Some). eauto 6.
  - intros (o & it & -> & Hit & Hl & ->). exists o. split; [done|]. apply lookup_fmap_Some. exists it.
    split; [done|]. by apply map_lookup_filter_Some.
Qed.

(** Only the locks of the headers matter. *)
Lemma live_ext r r' :
  memory r' = memory r ->
  (forall o it, lock it = 1 -> items r' !! o = Some it <-> items r !! o = Some it) -> live r' = live r.
Proof.
  intros Hm Hext. apply map_eq. intros p. apply option_eq. intros n. rewrite !ring_live_lookup, Hm.
  split; intros (o & it & ? & ? & ? & ?); exists o, it; split_and!; try done; by apply Hext.
Qed.

Lemma live_collected r r' : collected r r' -> live r' = live r.
Proof. intros (Hi & Hm & _). apply live_ext; [done|]. by rewrite Hi. Qed.

Section placing.
Context {r : Ring} {l1 l2 : list block} (Hwf : ring_wf r l1 l2) (sz idx : Z).
Context (Hsz : 0 < sz).
Context (H1 : status r = 1 -> alloc_offset r + (sz + sizeof_item) <= collect_offset r).

(** No block that is still in use starts where the new one goes. *)
Lemma place_apart o it : items r !! o = Some it -> lock it = 1 ->
  o < alloc_offset r \/ alloc_offset r + (sz + sizeof_item) <= o.
Proof.
  intros Hit Hlk. pose proof (rw_locked _ _ _ Hwf o it Hit Hlk) as Hin.
  destruct (rw_status _ _ _ Hwf) as [(_ & Hc & ->)|(Es & Hc & _ & Hc' & ?)].
  - rewrite app_nil_r in Hin. destruct (chain_elem _ _ _ _ _ _ Hc Hin) as (_ & _ & ? & ? & _).
    unfold sizeof_item in *. lia.
  - specialize (H1 Es). apply elem_of_app in Hin as [Hin|Hin].
    + destruct (chain_elem _ _ _ _ _ _ Hc Hin) as (_ & ? & _). lia.
    + destruct (chain_elem _ _ _ _ _ _ Hc' Hin) as (_ & _ & ? & ? & _). unfold sizeof_item in *. lia.
Qed.

Lemma live_place :
  live r !! (memory r + alloc_offset r + sizeof_item) = None /\
  live (place r sz idx) = <[memory r + alloc_offset r + sizeof_item := sz]> (live r).
Proof.
  assert (live r !! (memory r + alloc_offset r + sizeof_item) = None) as Hnone.
  { destruct (live r !! _) as [n|] eqn:E; [|done].
    apply ring_live_lookup in E as (o & it & Ho & Hit & Hlk & _).
    replace o with (alloc_offset r) in * by lia. pose proof (place_apart _ _ Hit Hlk).
    unfold sizeof_item in *. lia. }
  split; [done|]. apply map_eq. intros p. apply option_eq. intros n.
  rewrite lookup_insert_Some, !ring_live_lookup. cbn [place memory items]. split.
  - intros (o & it & -> & [[-> ->]|[Hit ?]]%placed_Some & Hlk & ->); [by left|].
    right. split; [unfold sizeof_item in *; lia|]. eauto 6.
  - intros [[<- <-]|(Hne & o & it & -> & Hit & Hlk & ->)].
    + eexists _, _. split_and!; [done|apply placed_eq|done|done].
    + exists o, it. split_and!; try done. rewrite placed_outside; [done| |unfold sizeof_item; lia].
      by eapply place_apart.
Qed.
End placing.

Lemma live_skip r l1 l2 idx : ring_wf r l1 l2 -> status r = 0 -> live (skip r idx) = live r.
Proof.
  intros Hwf Est. apply live_ext; [done|]. intros o it Hlk. simpl. rewrite lookup_insert_Some. split.
  - intros [[_ <-]|[_ ?]]; [done|done].
  - intros Hit. right. split; [|done].
    pose proof (rw_locked _ _ _ Hwf o it Hit Hlk) as Hin.
    destruct (rw_status _ _ _ Hwf) as [(_ & Hc & ->)|(? & _)]; [|lia].
    rewrite app_nil_r in Hin. destruct (chain_elem _ _ _ _ _ _ Hc Hin) as (_ & _ & ? & ? & _).
    unfold sizeof_item in *. lia.
Qed.

Definition ring_good (r : Ring) : Prop := exists l1 l2, ring_wf r l1 l2.

(** ** Allocation and release *)

Lemma choose_spec r alloc_size :
  ring_good r -> exists r' capacity, choose r alloc_size = (r', capacity) /\ ring_good r' /\
    live r' = live r /\ memory r' = memory r /\
    (alloc_size <= capacity -> sizeof_item < alloc_size ->
     (status r' = 0 -> alloc_offset r' + alloc_size <= size r' - sizeof_item) /\
     (status r' = 1 -> alloc_offset r' + alloc_size <= collect_offset r')).
Proof.
  intros (l1 & l2 & Hwf). pose proof (wf_free_bound Hwf) as Hfb. pose proof (wf_collect_bound Hwf) as Hcb.
  destruct (rw_size _ _ _ Hwf) as [Hs _]. destruct (rw_offsets _ _ _ Hwf) as (Hc0 & Ha0 & _).
  unfold choose. destruct (Z.eqb_spec (status r) 0) as [Es|Es].
  - rewrite (uN_small 32 (size r - alloc_offset r)) by (unfold fits, sizeof_item in *; lia).
    destruct (Z.ltb_spec (size r - sizeof_item) (u32 (alloc_offset r + alloc_size))).
    + destruct (Z.leb_spec sizeof_item (size r - alloc_offset r)); [|lia].
      rewrite (uN_small 32 (free_count r + 1)) by (unfold fits; lia).
      cbn [with_items with_alloc collect_offset alloc_offset]. rewrite Z.sub_0_r, uN_small by (unfold fits, sizeof_item in *; lia).
      exists (skip r (from_option index 0 (items r !! alloc_offset r))), (collect_offset r). split_and!; try done.
      * by eapply skip_wf.
      * by eapply live_skip.
    + exists r, (size r - alloc_offset r). split_and!; try done; [by exists l1, l2|].
      intros Hcap Hpos. split; [|lia]. intros _.
      unfold sizeof_item in *. rewrite uN_small in H by (unfold fits; lia). lia.
  - assert (status r = 1 /\ alloc_offset r <= collect_offset r) as [Es1 Hle].
    { destruct (rw_status _ _ _ Hwf) as [(? & _)|(? & _ & _ & _ & ?)]; [lia|done]. }
    exists r, (collect_offset r - alloc_offset r).
    rewrite uN_small by (unfold fits, sizeof_item in *; lia). split_and!; try done; [by exists l1, l2|lia].
Qed.

Lemma ring_alloc_spec r sz :
  ring_good r -> 0 < sz <= 2 ^ 32 - 1 ->
  exists r' ptr, alloc r sz = Some (r', ptr) /\ ring_good r' /\
    (ptr = 0 /\ live r' = live r \/
     ptr <> 0 /\ live r !! ptr = None /\ live r' = <[ptr := aligned8 sz]> (live r)).
Proof.
  intros Hgood Hsz. pose proof (aligned8_spec sz) as [Hal Hdiv]. unfold alloc.
  destruct (Z.leb_spec sz 0); [lia|].
  destruct (Z.ltb_spec (2 ^ 32 - 1 - 8 + 1) sz); [exists r, 0; auto|].
  rewrite (uN_small 32 (aligned8 sz)) by (unfold fits; lia). set (n := aligned8 sz) in *.
  destruct (Z.ltb_spec (2 ^ 32 - 1 - sizeof_item) n); [exists r, 0; auto|].
  rewrite (uN_small 32 (n + sizeof_item)) by (unfold fits, sizeof_item in *; lia).
  assert (exists r1, (if 0 <? free_count r then collect r else Some r) = Some r1 /\ ring_good r1 /\
    live r1 = live r /\ memory r1 = memory r) as (r1 & -> & Hgood1 & Hlive1 & Hm1).
  { destruct (0 <? free_count r); [|eauto]. destruct Hgood as (l1 & l2 & Hwf).
    destruct (collect_spec r l1 l2 Hwf) as (r' & l1' & l2' & E & Hwf' & Hcol). exists r'.
    split_and!; [done|by exists l1', l2'|by apply live_collected|apply Hcol]. }
  cbn [mbind option_bind].
  destruct (choose_spec r1 (n + sizeof_item) Hgood1) as (r2 & cap & -> & (l1 & l2 & Hwf2) & Hlive2 & Hm2 & Hroom).
  destruct (Z.ltb_spec cap (n + sizeof_item)) as [|Hcap].
  { exists r2, 0. split_and!; [done|by exists l1, l2|left; split; congruence]. }
  specialize (Hroom Hcap ltac:(unfold sizeof_item; lia)) as [Hr0 Hr1].
  destruct (rw_size _ _ _ Hwf2) as [Hs _]. destruct (rw_offsets _ _ _ Hwf2) as (Hc0 & Ha0 & _).
  pose proof (wf_collect_bound Hwf2). destruct (rw_memory _ _ _ Hwf2) as [Hmem _].
  exists (place r2 n (u16 (alloc_count r2))), (memory r2 + alloc_offset r2 + sizeof_item).
  split; [|split; [eapply place_wf; [exact Hwf2|lia|done..]|right]].
  - rewrite (uN_small 32 (alloc_offset r2 + (n + sizeof_item))); [done|].
    unfold fits, sizeof_item in *. destruct (rw_status _ _ _ Hwf2) as [(? & _)|(? & _)]; spec_lia; lia.
  - destruct (live_place Hwf2 n (u16 (alloc_count r2)) ltac:(lia) Hr1) as [Hnone Hlive].
    rewrite <- Hlive1, <- Hlive2. split_and!; [unfold sizeof_item; lia|done|done].
Qed.

Lemma unlocked_unlock l1 l2 o it :
  lock it = 1 -> unlocked (l1 ++ (o, mkItem 0 (index it) (length it)) :: l2) = unlocked (l1 ++ (o, it) :: l2) + 1.
Proof.
  intros Hl. rewrite !unlocked_app, !unlocked_cons by auto. simpl. lia.
Qed.

(** A header of a chain is marked as released. *)
Lemma chain_unlock its o l e o' it k1 k2 :
  l = k1 ++ (o', it) :: k2 -> chain its o l e -> lock it = 1 ->
  chain (<[o' := mkItem 0 (index it) (length it)]> its) o
    (k1 ++ (o', mkItem 0 (index it) (length it)) :: k2) e.
Proof.
  intros -> Hch Hl. apply chain_app in Hch as (m & H1 & (-> & Hit & Hn & Hd & _ & H2)).
  apply chain_app. exists m. split.
  - eapply chain_ext; [|done]. intros a x Hin.
    destruct (chain_elem _ _ _ _ _ _ H1 Hin) as (_ & _ & ? & ? & _). unfold sizeof_item in *.
    apply lookup_insert_ne. lia.
  - cbn [chain lock length]. rewrite lookup_insert_eq. split_and!; auto.
    eapply chain_ext; [|done]. intros a x Hin.
    destruct (chain_elem _ _ _ _ _ _ H2 Hin) as (_ & ? & _). unfold sizeof_item in *.
    apply lookup_insert_ne. lia.
Qed.

Lemma elem_unlock (k1 k2 : list block) (o o' : Z) (it it' x : Item) :
  (o', x) ∈ k1 ++ (o, it) :: k2 -> o' <> o -> (o', x) ∈ k1 ++ (o, it') :: k2.
Proof. rewrite !elem_of_app, !elem_of_cons. naive_solver. Qed.

(** The header of a block in use is marked as released. *)
Lemma unlock_wf r l1 l2 o it :
  ring_wf r l1 l2 -> (o, it) ∈ l1 ++ l2 -> lock it = 1 ->
  ring_good (with_items r (<[o := mkItem 0 (index it) (length it)]> (items r)) (free_count r + 1)).
Proof.
  intros Hwf Hin Hlk. set (it' := mkItem 0 (index it) (length it)).
  assert (forall o' x, <[o := it']> (items r) !! o' = Some x -> lock x = 1 -> o' <> o /\ items r !! o' = Some x) as Hkeep.
  { intros o' x [[-> <-]|[? ?]]%lookup_insert_Some Hx; [done|auto]. }
  destruct Hwf as [Hs Hm Ho Hst Hf Hl].
  destruct Hst as [(Es & Hch & ->)|(Es & Hch & Hne & Hch2 & Hle)].
  - rewrite app_nil_r in *. apply list_elem_of_split in Hin as (k1 & k2 & Ek).
    exists (k1 ++ (o, it') :: k2), []. split; simpl; rewrite ?app_nil_r; try done.
    + left. split_and!; [done|by eapply chain_unlock|done].
    + unfold it'. rewrite unlocked_unlock by done. by rewrite Hf, Ek.
    + intros o' x Hx Hx1. destruct (Hkeep _ _ Hx Hx1) as [Hno Hx']. eapply elem_unlock; [|done].
      rewrite <- Ek. auto.
  - apply elem_of_app in Hin as [Hin|Hin]; pose proof Hin as (k1 & k2 & Ek)%list_elem_of_split.
    + exists (k1 ++ (o, it') :: k2), l2. split; simpl; try done.
      * right. split_and!; [done|by eapply chain_unlock|by destruct k1| |done].
        eapply chain_ext; [|done]. intros a x Hx.
        destruct (chain_elem _ _ _ _ _ _ Hch Hin) as (_ & ? & _).
        destruct (chain_elem _ _ _ _ _ _ Hch2 Hx) as (_ & _ & ? & ? & _). unfold sizeof_item in *.
        apply lookup_insert_ne. lia.
      * rewrite Hf, Ek, <- !(assoc_L (++)). unfold it'. cbn [app]. by rewrite unlocked_unlock.
      * intros o' x Hx Hx1. destruct (Hkeep _ _ Hx Hx1) as [Hno Hx']. rewrite <- (assoc_L (++)). cbn [app].
        eapply elem_unlock; [|done]. apply Hl in Hx'; [|done]. rewrite Ek, <- (assoc_L (++)) in Hx'. exact Hx'.
    + exists l1, (k1 ++ (o, it') :: k2). split; simpl; try done.
      * right. split_and!; [done| |done|by eapply chain_unlock|done].
        eapply chain_ext; [|done]. intros a x Hx.
        destruct (chain_elem _ _ _ _ _ _ Hch2 Hin) as (_ & _ & ? & ? & _).
        destruct (chain_elem _ _ _ _ _ _ Hch Hx) as (_ & ? & _). unfold sizeof_item in *.
        apply lookup_insert_ne. lia.
      * rewrite Hf, Ek, !(assoc_L (++)). unfold it'. by rewrite unlocked_unlock.
      * intros o' x Hx Hx1. destruct (Hkeep _ _ Hx Hx1) as [Hno Hx']. rewrite (assoc_L (++)).
        eapply elem_unlock; [|done]. apply Hl in Hx'; [|done]. rewrite Ek, (assoc_L (++)) in Hx'. exact Hx'.
Qed.

Lemma ring_free_spec r ptr n :
  ring_good r -> live r !! ptr = Some n ->
  exists r', free r ptr = Some r' /\ ring_good r' /\ live r' = delete ptr (live r).
Proof.
  intros (l1 & l2 & Hwf) (o & it & -> & Hit & Hlk & ->)%ring_live_lookup.
  pose proof (rw_locked _ _ _ Hwf o it Hit Hlk) as Hin. pose proof (wf_free_bound Hwf) as Hfb.
  destruct (wf_block Hwf o it Hin) as (_ & Ho0 & Ho1 & Hlen & _).
  destruct (rw_memory _ _ _ Hwf) as [Hmem _].
  exists (with_items r (<[o := mkItem 0 (index it) (length it)]> (items r)) (free_count r + 1)).
  split_and!; [|by eapply unlock_wf|].
  - unfold free, sizeof_item in *.
    destruct (Z.leb_spec (memory r) (memory r + o + 8)); [|lia].
    destruct (Z.leb_spec (memory r + o + 8) (memory r + size r)); [|lia]. cbn [andb negb].
    replace (memory r + o + 8 - 8 - memory r) with o by lia. rewrite Hit. cbn [mbind option_bind].
    rewrite Hlk. cbn [Z.eqb Pos.eqb negb]. rewrite uN_small by (unfold fits; lia). done.
  - apply map_eq. intros p. apply option_eq. intros n. rewrite lookup_delete_Some, !ring_live_lookup. simpl. split.
    + intros (o' & x & -> & [[<- <-]|[Hne Hx]]%lookup_insert_Some & Hx1 & ->); [done|].
      split; [lia|eauto 6].
    + intros (Hne & o' & x & -> & Hx & Hx1 & ->). exists o', x. split_and!; try done.
      rewrite lookup_insert_ne; [done|]. intros ->. done.
Qed.

Lemma ring_regions r : ring_good r ->
  regions_disjoint (live r) /\ forall a n, live r !! a = Some n -> 0 < a /\ (8 | a).
Proof.
  intros (l1 & l2 & Hwf). destruct (rw_memory _ _ _ Hwf) as [Hmem Hmd]. split.
  - intros a n b k (o & x & -> & Hx & Hlx & ->)%ring_live_lookup (o' & y & -> & Hy & Hly & ->)%ring_live_lookup Hne.
    enough (o + sizeof_item + length x <= o' \/ o' + sizeof_item + length y <= o) by (unfold sizeof_item in *; lia).
    pose proof (rw_locked _ _ _ Hwf o x Hx Hlx) as Hinx. pose proof (rw_locked _ _ _ Hwf o' y Hy Hly) as Hiny.
    assert (forall s e l u v p q, chain (items r) s l e -> (u, p) ∈ l -> (v, q) ∈ l -> u <> v ->
      u + sizeof_item + length p <= v \/ v + sizeof_item + length q <= u) as Hsame.
    { clear. intros s e l u v p q Hch (k1 & k2 & ->)%list_elem_of_split Hv Hne.
      apply chain_app in Hch as (m & H1 & (-> & _ & _ & _ & _ & H2)).
      apply elem_of_app in Hv as [Hv|[[=]|Hv]%elem_of_cons]; [|done|].
      - destruct (chain_elem _ _ _ _ _ _ H1 Hv) as (_ & _ & ? & _). by right.
      - destruct (chain_elem _ _ _ _ _ _ H2 Hv) as (_ & ? & _). by left. }
    destruct (rw_status _ _ _ Hwf) as [(_ & Hc & ->)|(_ & Hc & _ & Hc' & Hle)].
    { rewrite app_nil_r in *. eapply Hsame; [done..|lia]. }
    apply elem_of_app in Hinx as [Hinx|Hinx], Hiny as [Hiny|Hiny].
    + eapply Hsame; [exact Hc|done|done|lia].
    + destruct (chain_elem _ _ _ _ _ _ Hc Hinx) as (_ & ? & _), (chain_elem _ _ _ _ _ _ Hc' Hiny) as (_ & _ & ? & _). lia.
    + destruct (chain_elem _ _ _ _ _ _ Hc Hiny) as (_ & ? & _), (chain_elem _ _ _ _ _ _ Hc' Hinx) as (_ & _ & ? & _). lia.
    + eapply Hsame; [exact Hc'|done|done|lia].
  - intros a n (o & x & -> & Hx & Hlx & ->)%ring_live_lookup.
    pose proof (rw_locked _ _ _ Hwf o x Hx Hlx) as Hin. destruct (wf_block Hwf o x Hin) as (_ & ? & _ & _ & ? & _).
    unfold sizeof_item. split; [lia|]. auto.
Qed.

#[export] Program Instance ring_memory_pool : MemoryPool Ring unit := {
  pool_alloc r _ sz := alloc r sz;
  pool_free := free;
  pool_live := live;
  pool_max := 2 ^ 32 - 1;
  pool_inv := ring_good;
  pool_env_ok _ _ := True;
}.
Next Obligation.
  intros r e sz Hgood _ Hsz. destruct (ring_alloc_spec r sz Hgood Hsz) as (r' & ptr & E & Hg & Hcase).
  exists r', ptr. split_and!; [done|done|]. destruct Hcase as [?|(? & ? & ?)]; [by left|right].
  split_and!; [done|done|]. exists (aligned8 sz). split; [apply aligned8_spec|done].
Qed.
Next Obligation.
  intros r ptr Hgood [n Hn]. destruct (ring_free_spec r ptr n Hgood Hn) as (r' & E & Hg & Hl).
  exists r'. split_and!; [done|done|]. intros b Hb. rewrite Hl. by apply lookup_delete_ne.
Qed.
Next Obligation. exact ring_regions. Qed.

(** ** Theorems *)

Lemma ring_make_good sz mem :
  sizeof_ring + sizeof_item < sz < 2 ^ 31 -> 0 < mem -> (8 | mem) ->
  exists r, make sz mem = inr r /\ ring_wf r [] [].
Proof.
  intros Hsz Hmem Hd. pose proof (aligned8_spec sz) as [Hal Hdiv].
  unfold make, sizeof_ring, sizeof_item in *.
  destruct (Z.ltb_spec (2 ^ 32 - 1 - 8 + 1) sz); [lia|]. rewrite uN_small by (unfold fits; lia).
  destruct (Z.leb_spec (aligned8 sz) (32 + 8)); [lia|].
  destruct (Z.eqb_spec mem 0); [lia|]. eexists. split; [done|].
  split; simpl; unfold sizeof_item; try done.
  - split; [lia|]. apply Z.divide_sub_r; [done|]. by exists 4.
  - split; [lia|]. apply Z.divide_add_r; [done|]. by exists 4.
  - split_and!; auto; lia.
  - left. done.
Qed.

(** C19: a ring buffer serves any sequence of allocations and releases of owned blocks,
    in whatever order the blocks are released: no header is read that was overwritten,
    the blocks a client owns are aligned and pairwise disjoint, and the pending blocks
    keep tiling the used part of the memory.  Conditions: the memory is aligned, larger
    than the two headers and below 2 GB, and the client frees only blocks that it owns.
    *)
Theorem ring_buffer_sound sz mem (ops : list (pool_op (E := unit))) :
  sizeof_ring + sizeof_item < sz < 2 ^ 31 -> 0 < mem -> (8 | mem) ->
  exists r, make sz mem = inr r /\
    (pool_ops_ok (r, ∅) ops ->
     exists r' own, pool_run (r, ∅) ops = Some (r', own) /\ (exists l1 l2, ring_wf r' l1 l2) /\
       regions_disjoint own /\ forall a n, own !! a = Some n -> 0 < a /\ (8 | a)).
Proof.
  intros Hsz Hmem Hd. destruct (ring_make_good sz mem) as (r & E & Hwf); [done..|]. exists r.
  split; [done|]. intros Hops.
  destruct (pool_run_ok (r, ∅) ops) as ([r' own] & Erun & Hinv & Hdis & Ha); [|done|].
  - split; [by exists [], []|]. intros a n Hn. simpl in Hn. by rewrite lookup_empty in Hn.
  - exists r', own. done.
Qed.

(** [p] is the [i]-th block of a fresh ring of three blocks of 16 bytes. *)
Definition ring_scenario : option (list Z) :=
  match make 120 4096 with
  | inl _ => None
  | inr r =>
      '(r, p1) ← alloc r 16;
      '(r, p2) ← alloc r 16;
      '(r, p3) ← alloc r 16;
      r ← free r p1; r ← free r p2; r ← free r p3;
      '(r, p4) ← alloc r 48;
      '(r, p5) ← alloc r 48;
      Some [p1; p2; p3; p4; p5]
  end.

(** [collect] re-reads the shrinking counter of released blocks as its loop
    bound and so reclaims only half of them: with all three blocks released the
    next request fails, and the same request repeated at once succeeds. *)
Theorem collect_reclaims_half :
  ring_scenario = Some [4136; 4160; 4184; 0; 4136].
Proof. vm_compute. reflexivity. Qed.

(** ** Witnesses *)

Lemma ring_buffer_sound_witness : exists r, make 1024 4096 = inr r /\
  exists r' own, pool_run (r, ∅) [Alloc tt 10; Alloc tt 100; Alloc tt 2000] = Some (r', own) /\
    (exists l1 l2, ring_wf r' l1 l2) /\
    regions_disjoint own /\ forall a n, own !! a = Some n -> 0 < a /\ (8 | a).
Proof.
  destruct (ring_buffer_sound 1024 4096 [Alloc tt 10; Alloc tt 100; Alloc tt 2000]) as (r & E & H);
    [unfold sizeof_ring, sizeof_item; lia|lia|by exists 512|].
  exists r. split; [exact E|]. apply H. simpl. repeat (split; [split; [exact I|lia]|intros ? _]). exact I.
Defined.
