(* ===== verification/GlobalMemory.v ===== *)
(** * The global memory pool

    [src/memory/global_memory.cc]: pages of one size, from the last of which
    blocks are cut off one behind the other; nothing is ever reused.  [blocks]
    is the memory as far as the pool needs it: the size in the header of each
    block; [bytes] is what the blocks hold.  A pool in shared memory starts over with a page of its own in a
    process other than the one that made it. *)

From S2P Require Import Prelude MemPool.

(** [struct GlobalMemoryImpl] and the headers [struct MemoryBlock] *)
Record Global := mkGlobal {
  shared : bool;
  pagesize : Z;
  pages : list Z;
  alloc_offset : Z;
  create_pid : Z;
  blocks : gmap Z Z;
  bytes : Z -> Z;
}.
Definition sizeof_block : Z := 8.

(** What the system answers: [getpid()] and the address of a new page ([0] if
    there is no memory). *)
Record Env := mkEnv { env_pid : Z; env_page : Z }.

(** [GlobalMemoryImpl::new_page] *)
Definition new_page (g : Global) (e : Env) : Global * bool :=
  if env_page e =? 0 then (g, false)
  else (mkGlobal (shared g) (pagesize g) (pages g ++ [env_page e]) 0 (create_pid g) (blocks g) (bytes g), true).

(** [GlobalMemoryImpl::GlobalMemoryImpl] for a page size that is a multiple of
    that of the system; [mem] and [m] are what the memory holds already.  [None] is the
    exception [std::bad_alloc]. *)
Definition make_impl (psize : Z) (sh : bool) (mem : gmap Z Z) (m : Z -> Z) (e : Env) : option Global :=
  let '(g, ok) := new_page (mkGlobal sh psize [] 0 (env_pid e) mem m) e in
  if ok then Some g else None.

(** [sw_memset_zero(p, n)] *)
Definition sw_memset_zero (m : Z -> Z) (p n : Z) : Z -> Z := fun a => if (p <=? a) && (a <? p + n) then 0 else m a.

(** [GlobalMemory::alloc] *)
Definition alloc (g : Global) (e : Env) (size : Z) : option (Global * Z) :=
  let size := u32 (aligned8 size) in
  let alloc_size := u32 (sizeof_block + size) in
  if pagesize g <? alloc_size then Some (g, 0) else
  g ← (if shared g && negb (create_pid g =? env_pid e)
       then make_impl (pagesize g) (shared g) (blocks g) (bytes g) e else Some g);
  let '(g, ok) :=
    if pagesize g <? u32 (alloc_offset g + alloc_size) then new_page g e else (g, true) in
  if ok then
    page ← last (pages g);
    let block := page + alloc_offset g in
    Some (mkGlobal (shared g) (pagesize g) (pages g) (u32 (alloc_offset g + alloc_size)) (create_pid g)
            (<[block := size]> (blocks g)) (sw_memset_zero (bytes g) (block + sizeof_block) size), block + sizeof_block)
  else Some (g, 0).

(** [GlobalMemory::free] *)
Definition free (g : Global) (ptr : Z) : option Global := Some g.

(** [GlobalMemory::capacity] and [GlobalMemory::get_memory_size] *)
Definition capacity (g : Global) : Z := u32 (pagesize g - alloc_offset g).
Definition get_memory_size (g : Global) : Z := pagesize g * zlen (pages g).

(** ** The invariant *)

(** The regions handed out. *)
Definition live (g : Global) : gmap Z Z := kmap (fun a => a + sizeof_block) (blocks g).

(** [\[a, a + n)] meets no block. *)
Definition apart (g : Global) (a n : Z) : Prop := forall b k,
  blocks g !! b = Some k -> b + sizeof_block + k <= a \/ a + n <= b.

Record global_wf (g : Global) : Prop := {
  gw_pagesize : sizeof_block <= pagesize g < 2 ^ 31 /\ (8 | pagesize g);
  gw_offset : 0 <= alloc_offset g <= pagesize g /\ (8 | alloc_offset g);
  gw_page : exists page, last (pages g) = Some page /\ 0 < page /\ (8 | page) /\
    apart g (page + alloc_offset g) (pagesize g - alloc_offset g);
  gw_block b k : blocks g !! b = Some k -> 0 < b /\ 0 <= k /\ (8 | b);
  gw_disjoint b k b' k' : blocks g !! b = Some k -> blocks g !! b' = Some k' -> b <> b' ->
    b + sizeof_block + k <= b' \/ b' + sizeof_block + k' <= b;
}.

(** A page is fresh: aligned and apart from everything in use.  A forked
    process gets one. *)
Definition env_ok (g : Global) (e : Env) : Prop :=
  (env_page e <> 0 -> 0 < env_page e /\ (8 | env_page e) /\ apart g (env_page e) (pagesize g)) /\
  (shared g = true -> create_pid g <> env_pid e -> env_page e <> 0).

#[local] Instance block_inj : Inj eq eq (fun a => a + sizeof_block).
Proof. intros ? ?. lia. Qed.

Lemma page_live_lookup g p n :
  live g !! p = Some n <-> blocks g !! (p - sizeof_block) = Some n.
Proof.
  unfold live. rewrite (lookup_kmap_Some (fun a => a + sizeof_block)). split.
  - intros (a & -> & Ha). by replace (a + sizeof_block - sizeof_block) with a by lia.
  - intros Ha. exists (p - sizeof_block). split; [lia|done].
Qed.

(** The state with a new page, or in a new process. *)
Lemma fresh_page_wf g e pid :
  global_wf g -> env_ok g e -> env_page e <> 0 ->
  forall ps m, global_wf (mkGlobal (shared g) (pagesize g) (ps ++ [env_page e]) 0 pid (blocks g) m).
Proof.
  intros [[Hps Hpd] _ _ Hb Hd] [He _] Hne ps m. destruct (He Hne) as (Hpos & Hdiv & Hap).
  split; simpl; try done.
  - unfold sizeof_block in *. split; [lia|]. apply Z.divide_0_r.
  - exists (env_page e). rewrite last_snoc. split_and!; try done.
    by rewrite Z.add_0_r, Z.sub_0_r.
Qed.

(** Cutting a block off the last page. *)
Lemma cut_wf g page size m :
  global_wf g -> last (pages g) = Some page -> 0 <= size -> (8 | size) ->
  alloc_offset g + (sizeof_block + size) <= pagesize g ->
  blocks g !! (page + alloc_offset g) = None /\
  global_wf (mkGlobal (shared g) (pagesize g) (pages g) (alloc_offset g + (sizeof_block + size))
    (create_pid g) (<[page + alloc_offset g := size]> (blocks g)) m).
Proof.
  intros [Hps [Ho Hod] (page' & Hlast & Hpos & Hpd & Hap) Hb Hd] Hl Hs Hsd Hroom.
  rewrite Hl in Hlast. injection Hlast as <-. unfold apart, sizeof_block in *.
  assert (blocks g !! (page + alloc_offset g) = None) as Hnone.
  { destruct (blocks g !! (page + alloc_offset g)) as [k|] eqn:E; [|done].
    pose proof (Hb _ _ E). specialize (Hap _ _ E). lia. }
  split; [done|]. split; simpl; unfold sizeof_block; try done.
  - split; [lia|]. apply Z.divide_add_r; [done|]. apply Z.divide_add_r; [by exists 1|done].
  - exists page. split_and!; try done. unfold apart, sizeof_block. simpl.
    intros b k [[<- <-]|[_ Hbk]]%lookup_insert_Some; [lia|]. specialize (Hap _ _ Hbk). lia.
  - intros b k [[<- <-]|[_ Hbk]]%lookup_insert_Some; [|by eapply Hb].
    split_and!; try lia. by apply Z.divide_add_r.
  - intros b k b' k' [[<- <-]|[_ Hbk]]%lookup_insert_Some [[<- <-]|[_ Hbk']]%lookup_insert_Some Hne;
      [done|specialize (Hap _ _ Hbk'); lia|specialize (Hap _ _ Hbk); lia|by eapply Hd].
Qed.

Lemma page_alloc_spec g e size :
  global_wf g -> env_ok g e -> 0 < size <= 2 ^ 32 - 16 ->
  exists g' ptr, alloc g e size = Some (g', ptr) /\ global_wf g' /\
    (ptr = 0 /\ live g' = live g \/
     ptr <> 0 /\ live g !! ptr = None /\ live g' = <[ptr := aligned8 size]> (live g)).
Proof.
  intros Hwf He Hsize. pose proof (aligned8_spec size) as [Hal Hdiv]. unfold alloc.
  rewrite (uN_small 32 (aligned8 size)) by (unfold fits; lia). set (n := aligned8 size) in *.
  rewrite (uN_small 32 (sizeof_block + n)) by (unfold fits, sizeof_block; lia).
  destruct (Z.ltb_spec (pagesize g) (sizeof_block + n)); [exists g, 0; auto|].
  assert (exists g1, (if shared g && negb (create_pid g =? env_pid e)
       then make_impl (pagesize g) (shared g) (blocks g) (bytes g) e else Some g) = Some g1 /\ global_wf g1 /\
       pagesize g1 = pagesize g /\ blocks g1 = blocks g /\
       (pagesize g1 < alloc_offset g1 + (sizeof_block + n) -> env_ok g1 e)) as (g1 & -> & Hwf1 & Hp1 & Hb1 & He1).
  { destruct (shared g) eqn:Es; [destruct (Z.eqb_spec (create_pid g) (env_pid e))|]; simpl; [by eauto 10| |by eauto 10].
    assert (env_page e <> 0) as Hne by (apply He; auto). unfold make_impl, new_page.
    destruct (Z.eqb_spec (env_page e) 0); [done|]. eexists. split; [done|]. rewrite <- Es. split_and!; try done.
    - by apply (fresh_page_wf g e (env_pid e)).
    - simpl. lia. }
  cbn [mbind option_bind]. destruct (gw_offset _ Hwf1) as [Ho1 _]. destruct (gw_pagesize _ Hwf1) as [Hps1 _].
  rewrite (uN_small 32 (alloc_offset g1 + (sizeof_block + n))) by (unfold fits, sizeof_block in *; lia).
  assert (forall g2, global_wf g2 -> blocks g2 = blocks g ->
    alloc_offset g2 + (sizeof_block + n) <= pagesize g2 -> pagesize g2 = pagesize g ->
    exists g' ptr, (page ← last (pages g2);
      Some (mkGlobal (shared g2) (pagesize g2) (pages g2) (u32 (alloc_offset g2 + (sizeof_block + n)))
        (create_pid g2) (<[page + alloc_offset g2 := n]> (blocks g2)) (sw_memset_zero (bytes g2) (page + alloc_offset g2 + sizeof_block) n), page + alloc_offset g2 + sizeof_block))
      = Some (g', ptr) /\ global_wf g' /\
      (ptr = 0 /\ live g' = live g \/ ptr <> 0 /\ live g !! ptr = None /\ live g' = <[ptr := n]> (live g))) as Hcut.
  { intros g2 Hwf2 Hb2 Hroom Hp2. destruct (gw_page _ Hwf2) as (page & Hl & Hpos & _ & _).
    destruct (gw_offset _ Hwf2) as [Ho2 _].
    destruct (cut_wf g2 page n (sw_memset_zero (bytes g2) (page + alloc_offset g2 + sizeof_block) n) Hwf2 Hl) as [Hnone Hcwf]; [lia|done|done|].
    rewrite Hl. cbn [mbind option_bind]. rewrite uN_small by (unfold fits, sizeof_block in *; lia).
    eexists _, _. split; [done|]. split; [done|]. right.
    split; [unfold sizeof_block; lia|]. split.
    - destruct (live g !! _) as [k|] eqn:E; [|done]. apply page_live_lookup in E.
      replace (page + alloc_offset g2 + sizeof_block - sizeof_block) with (page + alloc_offset g2) in E by lia.
      congruence.
    - unfold live. simpl. rewrite Hb2. by rewrite (kmap_insert (fun a => a + sizeof_block)). }
  destruct (Z.ltb_spec (pagesize g1) (alloc_offset g1 + (sizeof_block + n))) as [Hfull|Hroom].
  - unfold new_page. destruct (Z.eqb_spec (env_page e) 0).
    + exists g1, 0. split_and!; [done|done|left]. unfold live. by rewrite Hb1.
    + apply Hcut; [by apply fresh_page_wf; [|apply He1|]|done|simpl; lia|done].
  - by apply Hcut.
Qed.

Lemma global_regions g : global_wf g ->
  regions_disjoint (live g) /\ forall a n, live g !! a = Some n -> 0 < a /\ (8 | a).
Proof.
  intros Hwf. unfold sizeof_block in *. split.
  - intros a n b k Ha%page_live_lookup Hb%page_live_lookup Hne.
    pose proof (gw_disjoint _ Hwf _ _ _ _ Ha Hb). unfold sizeof_block in *. lia.
  - intros a n (Hpos & _ & [d Hd])%page_live_lookup%(gw_block _ Hwf). unfold sizeof_block in *.
    split; [lia|]. exists (d + 1). lia.
Qed.

#[export] Program Instance global_memory_pool : MemoryPool Global Env := {
  pool_alloc := alloc;
  pool_free := free;
  pool_live := live;
  pool_max := 2 ^ 32 - 16;
  pool_inv := global_wf;
  pool_env_ok := env_ok;
}.
Next Obligation.
  intros g e size Hwf He Hs. destruct (page_alloc_spec g e size Hwf He Hs) as (g' & ptr & E & Hg & Hcase).
  exists g', ptr. split_and!; [done|done|]. destruct Hcase as [?|(? & ? & ?)]; [by left|right].
  split_and!; [done|done|]. exists (aligned8 size). split; [apply aligned8_spec|done].
Qed.
Next Obligation. intros g ptr Hwf _. by exists g. Qed.
Next Obligation. exact global_regions. Qed.

(** ** Theorems *)

Lemma page_make_good psize sh m e :
  sizeof_block <= psize < 2 ^ 31 -> (8 | psize) -> 0 < env_page e -> (8 | env_page e) ->
  exists g, make_impl psize sh ∅ m e = Some g /\ global_wf g.
Proof.
  intros Hp Hd Hpos Hpd. unfold make_impl, new_page. destruct (Z.eqb_spec (env_page e) 0); [lia|].
  eexists. split; [done|]. split; simpl; try done.
  - unfold sizeof_block in *. split; [lia|]. apply Z.divide_0_r.
  - exists (env_page e). split_and!; try done.
Qed.

(** The memory that is handed out holds zeros, whatever was there, and the blocks that are in
    use keep what they hold. *)
Lemma alloc_zeroes g e size g' ptr : global_wf g -> env_ok g e -> 0 < size <= 2 ^ 32 - 16 -> alloc g e size = Some (g', ptr) -> ptr <> 0 ->
  (forall a, ptr <= a < ptr + size -> bytes g' a = 0) /\ (forall p n a, live g !! p = Some n -> p <= a < p + n -> bytes g' a = bytes g a).
Proof.
  intros Hwf He Hs E Hp. pose proof (aligned8_spec size) as [Hal _].
  assert (bytes g' = sw_memset_zero (bytes g) ptr (aligned8 size)) as ->.
  { unfold alloc in E. rewrite (uN_small 32 (aligned8 size)) in E by (unfold fits; lia). destruct (_ <? _) in E; [by simplify_eq|].
    destruct (if shared g && negb (create_pid g =? env_pid e) then _ else _) as [g1|] eqn:Eg in E; [|done]. cbn [mbind option_bind] in E.
    assert (bytes g1 = bytes g) as Hb by (revert Eg; unfold make_impl, new_page; repeat case_match; intros; by simplify_eq).
    rewrite <- Hb. clear Eg Hb. unfold new_page in E. repeat case_match; simplify_eq; inv_bind; by simplify_eq. }
  destruct (page_alloc_spec g e size Hwf He Hs) as (g2 & ptr2 & E2 & Hwf2 & [[-> _]|(_ & Hnone & Hlive)]); [congruence|].
  rewrite E in E2. injection E2 as <- <-.
  destruct (global_regions g' Hwf2) as [Hdis _]. split; unfold sw_memset_zero.
  - intros a Ha. rewrite (proj2 (Z.leb_le _ _)), (proj2 (Z.ltb_lt _ _)) by lia. done.
  - intros p n a Hpn Ha. assert (p <> ptr) as Hne by congruence. destruct (Hdis p n ptr (aligned8 size)) as [?|?]; [by rewrite Hlive, lookup_insert_ne|by rewrite Hlive, lookup_insert_eq|done| |];
      destruct (Z.leb_spec ptr a), (Z.ltb_spec a (ptr + aligned8 size)); done || lia.
Qed.


(** The size computation of [GlobalMemory::alloc] is not guarded against
    overflow: a request of [2^32 - 8] bytes passes the check against the page
    size as a block of no bytes, and a second one is given the same address. *)
Theorem global_alloc_overflow :
  (g ← make_impl 4096 false ∅ (fun _ => 255) (mkEnv 1 65536);
   '(g, p1) ← alloc g (mkEnv 1 0) (2 ^ 32 - 8);
   '(g, p2) ← alloc g (mkEnv 1 0) (2 ^ 32 - 8);
   Some (p1, p2)) = Some (65544, 65544).
Proof. vm_compute. reflexivity. Qed.

(** ** Witnesses *)

