(* ===== verification/Hash.v ===== *)
(** * Hash functions and checksums

    [swoole_hash_php], [swoole_hash_jenkins] and [swoole_hash_austin] of
    [src/core/misc.cc], which place keys in the buckets of a table, and
    [swoole_crc32] of [src/core/crc32.cc].  A key is a list of bytes; the C type
    [char] is signed, so a byte from 128 on is a negative number where it is
    used as an integer.  The functions that address the key by index have no
    result for an index outside of it. *)

From S2P Require Import Prelude.

Definition char (b : Z) : Z := s8 b.

(** ** Times 33 *)

(** [hash = ((hash << 5) + hash) + *key++] *)
Definition times33 (hash b : Z) : Z := u64 (u64 (u64 (Z.shiftl hash 5) + hash) + char b).

(** The same with the pointer moved on. *)
Definition eat (st : Z * list Z) : option (Z * list Z) :=
  match st with (hash, b :: key) => Some (times33 hash b, key) | (_, []) => None end.
(** The [switch] that is entered at case [n] and falls through to case 1. *)
Fixpoint eat_from (n : nat) (st : Z * list Z) : option (Z * list Z) :=
  match n with O => Some st | S n => st ← eat st; eat_from n st end.

(** [swoole_hash_php]: eight bytes a turn, then the rest *)
Fixpoint php_loop (fuel : nat) (st : Z * list Z) (len : Z) : option Z :=
  match fuel with
  | O => None
  | S fuel =>
      if 8 <=? len then
        st ← eat st;
        st ← eat st;
        st ← eat st;
        st ← eat st;
        st ← eat st;
        st ← eat st;
        st ← eat st;
        st ← eat st;
        php_loop fuel st (len - 8)
      else
        '(hash, _) ← eat_from (Z.to_nat len) st;
        Some hash
  end.
Definition swoole_hash_php (key : list Z) : option Z := php_loop (S (length key)) (5381, key) (zlen key).

(** ** Jenkins *)

(** [HASH_JEN_MIX(a, b, c)], where [a] and [b] have 32 bits and [c] 64 *)
Definition jen_round (s1 s2 s3 : Z) (abc : Z * Z * Z) : Z * Z * Z :=
  let '(a, b, c) := abc in
  let a := u32 (a - b) in
  let a := u32 (a - c) in
  let a := u32 (Z.lxor a (Z.shiftr c s1)) in
  let b := u32 (b - c) in
  let b := u32 (b - a) in
  let b := u32 (Z.lxor b (u32 (Z.shiftl a s2))) in
  let c := u64 (c - a) in
  let c := u64 (c - b) in
  let c := u64 (Z.lxor c (Z.shiftr b s3)) in
  (a, b, c).
Definition HASH_JEN_MIX (abc : Z * Z * Z) : Z * Z * Z :=
  jen_round 3 10 15 (jen_round 12 16 5 (jen_round 13 8 13 abc)).

(** [((unsigned) key[i] << n)] *)
Definition jen_byte (key : list Z) (i n : Z) : option Z :=
  b ← zget key i; Some (u32 (Z.shiftl (u32 (char b)) n)).
(** [key[i] + ((unsigned) key[i + 1] << 8) + ...] *)
Definition jen_word (key : list Z) (i : Z) : option Z :=
  b0 ← jen_byte key i 0;
  b1 ← jen_byte key (i + 1) 8;
  b2 ← jen_byte key (i + 2) 16;
  b3 ← jen_byte key (i + 3) 24;
  Some (u32 (b0 + b1 + b2 + b3)).

(** The loop of [swoole_hash_jenkins]; [key] is moved by 12 bytes a turn. *)
Fixpoint jen_loop (fuel : nat) (key : list Z) (k : Z) (abc : Z * Z * Z) : option (list Z * Z * (Z * Z * Z)) :=
  match fuel with
  | O => None
  | S fuel =>
      if 12 <=? k then
        let '(i, j, hashv) := abc in
        wi ← jen_word key 0;
        wj ← jen_word key 4;
        wh ← jen_word key 8;
        jen_loop fuel (drop 12 key) (k - 12) (HASH_JEN_MIX (u32 (i + wi), u32 (j + wj), u64 (hashv + wh)))
      else Some (key, k, abc)
  end.

(** A case of the [switch]: it runs when [k] is the label or above. *)
Definition jen_case (k label : Z) (x : Z) (wrap : Z -> Z) (key : list Z) (i n : Z) : option Z :=
  if label <=? k then b ← jen_byte key i n; Some (wrap (x + b)) else Some x.

(** [swoole_hash_jenkins] *)
Definition swoole_hash_jenkins (key : list Z) : option Z :=
  let keylen := zlen key in
  '(key, k, (i, j, hashv)) ← jen_loop (S (length key)) key (u32 keylen) (2654435769, 2654435769, 4276993775);
  let hashv := u64 (hashv + keylen) in
  hashv ← jen_case k 11 hashv u64 key 10 24;
  hashv ← jen_case k 10 hashv u64 key 9 16;
  hashv ← jen_case k 9 hashv u64 key 8 8;
  j ← jen_case k 8 j u32 key 7 24;
  j ← jen_case k 7 j u32 key 6 16;
  j ← jen_case k 6 j u32 key 5 8;
  j ← jen_case k 5 j u32 key 4 0;
  i ← jen_case k 4 i u32 key 3 24;
  i ← jen_case k 3 i u32 key 2 16;
  i ← jen_case k 2 i u32 key 1 8;
  i ← jen_case k 1 i u32 key 0 0;
  let '(_, _, hashv) := HASH_JEN_MIX (i, j, hashv) in
  Some hashv.

(** ** Murmur *)

Definition murmur_m : Z := 1540483477.

(** [key[i] << n], an [int] that is extended to 64 bits *)
Definition murmur_byte (key : list Z) (i n : Z) : option Z :=
  b ← zget key i; Some (u64 (s32 (Z.shiftl (char b) n))).

Fixpoint murmur_loop (fuel : nat) (key : list Z) (keylen h : Z) : option (list Z * Z * Z) :=
  match fuel with
  | O => None
  | S fuel =>
      if 4 <=? keylen then
        b0 ← murmur_byte key 0 0;
        b1 ← murmur_byte key 1 8;
        b2 ← murmur_byte key 2 16;
        b3 ← murmur_byte key 3 24;
        let k := Z.lor (Z.lor (Z.lor b0 b1) b2) b3 in
        let k := u64 (k * murmur_m) in
        let k := Z.lxor k (Z.shiftr k 24) in
        let k := u64 (k * murmur_m) in
        let h := u64 (h * murmur_m) in
        let h := Z.lxor h k in
        murmur_loop fuel (drop 4 key) (keylen - 4) h
      else Some (key, keylen, h)
  end.

(** [swoole_hash_austin] *)
Definition swoole_hash_austin (key : list Z) : option Z :=
  '(key, keylen, h) ← murmur_loop (S (length key)) key (zlen key) (zlen key);
  h ← (if 3 <=? keylen then b ← murmur_byte key 2 16; Some (Z.lxor h b) else Some h);
  h ← (if 2 <=? keylen then b ← murmur_byte key 1 8; Some (Z.lxor h b) else Some h);
  h ← (if 1 <=? keylen then b ← murmur_byte key 0 0; Some (u64 (Z.lxor h b * murmur_m)) else Some h);
  let h := Z.lxor h (Z.shiftr h 13) in
  let h := u64 (h * murmur_m) in
  let h := Z.lxor h (Z.shiftr h 15) in
  Some h.

(** ** CRC-32 *)

Definition polynomial : Z := 3988292384.

(** One turn of the inner loop of [generate_table] *)
Definition crc_bit (c : Z) : Z :=
  if negb (Z.land c 1 =? 0) then Z.lxor polynomial (Z.shiftr c 1) else Z.shiftr c 1.
(** [generate_table] *)
Definition generate_table : list Z := (fun i => Nat.iter 8 crc_bit (Z.of_nat i)) <$> seq 0 256.

(** [swoole_crc32]; the index into the table always is in range *)
Fixpoint crc_loop (table : list Z) (crc : Z) (data : list Z) : option Z :=
  match data with
  | [] => Some crc
  | b :: data =>
      e ← zget table (Z.land (Z.lxor crc (u32 (char b))) 255);
      crc_loop table (Z.lxor (Z.land (Z.shiftr crc 8) 16777215) e) data
  end.
Definition swoole_crc32 (data : list Z) : option Z :=
  let crc := Z.lxor 0 4294967295 in
  crc ← crc_loop generate_table crc data;
  Some (Z.lxor crc 4294967295).

(** ** What they compute *)

Lemma eat_from_all key hash : eat_from (length key) (hash, key) = Some (foldl times33 hash key, []).
Proof. revert hash. induction key as [|b key IH]; intros hash; [done|]. apply IH. Qed.

Lemma php_loop_foldl fuel hash key : (length key < fuel)%nat ->
  php_loop fuel (hash, key) (zlen key) = Some (foldl times33 hash key).
Proof.
  revert hash key. induction fuel as [|fuel IH]; intros hash key Hn; [lia|]. cbn [php_loop].
  destruct (Z.leb_spec 8 (zlen key)) as [Hl|Hl].
  - destruct key as [|k0 [|k1 [|k2 [|k3 [|k4 [|k5 [|k6 [|k7 key]]]]]]]]; try (simpl in Hl; lia).
    cbn [eat mbind option_bind foldl].
    replace (zlen (k0 :: k1 :: k2 :: k3 :: k4 :: k5 :: k6 :: k7 :: key) - 8) with (zlen key) by (simpl; lia).
    apply IH. simpl in Hn. lia.
  - rewrite Nat2Z.id, eat_from_all. done.
Qed.

Lemma times33_eq h b : times33 h b = u64 (33 * h + char b).
Proof.
  unfold times33. rewrite Z.shiftl_mul_pow2 by lia. unfold uN.
  rewrite Zplus_mod_idemp_l, <- Z.add_assoc, Zplus_mod_idemp_l. f_equal. lia.
Qed.

Lemma foldl_times33 h key : foldl times33 h key = foldl (fun h b => u64 (33 * h + char b)) h key.
Proof. revert h. induction key as [|b key IH]; intros h; [done|]. simpl. by rewrite IH, times33_eq. Qed.

(** What [swoole_hash_php] returns. *)
Definition hash_php (key : list Z) : Z := foldl (fun h b => u64 (33 * h + char b)) 5381 key.

Lemma hash_php_range key : fits 64 (hash_php key).
Proof.
  unfold hash_php. destruct key as [|b key _] using rev_ind; [unfold fits; simpl; lia|]. rewrite foldl_app. simpl.
  apply uN_fits. lia.
Qed.

Lemma hash_php_eq key : swoole_hash_php key = Some (hash_php key).
Proof. unfold swoole_hash_php, hash_php. rewrite php_loop_foldl by lia. by rewrite foldl_times33. Qed.

(** The unrolled hash of keys reads exactly the bytes of the key and is the
    times-33 hash: each byte, taken as a signed number, is added to 33 times the
    hash so far, modulo 2^64. *)
Theorem hash_php_reference key :
  swoole_hash_php key = Some (foldl (fun h b => u64 (33 * h + char b)) 5381 key) /\
  fits 64 (foldl (fun h b => u64 (33 * h + char b)) 5381 key).
Proof. split; [apply hash_php_eq|apply hash_php_range]. Qed.

Lemma jen_byte_in key i n : 0 <= i < zlen key -> exists b, jen_byte key i n = Some b.
Proof. intros Hi. destruct (zget_in_bounds key i Hi) as [b Hb]. unfold jen_byte. rewrite Hb. simpl. eauto. Qed.

Lemma jen_word_in key i : 0 <= i -> i + 4 <= zlen key -> exists w, jen_word key i = Some w.
Proof.
  intros Hi Hl. unfold jen_word.
  destruct (jen_byte_in key i 0) as [? ->]; [lia|]. destruct (jen_byte_in key (i + 1) 8) as [? ->]; [lia|].
  destruct (jen_byte_in key (i + 2) 16) as [? ->]; [lia|]. destruct (jen_byte_in key (i + 3) 24) as [? ->]; [lia|].
  simpl. eauto.
Qed.

Lemma jen_loop_total fuel key k abc : 0 <= k <= zlen key -> (length key < fuel)%nat ->
  exists key' k' abc', jen_loop fuel key k abc = Some (key', k', abc') /\ 0 <= k' <= zlen key'.
Proof.
  revert key k abc. induction fuel as [|fuel IH]; intros key k abc Hk Hf; [lia|]. cbn [jen_loop].
  destruct (Z.leb_spec 12 k); [|by eexists _, _, _]. destruct abc as [[i j] h].
  destruct (jen_word_in key 0) as [? ->]; [lia..|]. destruct (jen_word_in key 4) as [? ->]; [lia..|].
  destruct (jen_word_in key 8) as [? ->]; [lia..|]. cbn [mbind option_bind].
  apply IH; rewrite length_drop; lia.
Qed.

Lemma jen_case_in k label x wrap key i n : 0 <= i < label -> k <= zlen key ->
  exists y, jen_case k label x wrap key i n = Some y.
Proof.
  intros Hi Hk. unfold jen_case. destruct (Z.leb_spec label k); [|eauto].
  destruct (jen_byte_in key i n) as [b ->]; [lia|]. simpl. eauto.
Qed.

Lemma jen_mix_range abc : 0 <= (HASH_JEN_MIX abc).2 < 2 ^ 64.
Proof.
  unfold HASH_JEN_MIX. destruct (jen_round 12 16 5 _) as [[a b] c]. unfold jen_round. cbn [snd]. unfold uN.
  apply Z.mod_pos_bound. lia.
Qed.

Lemma murmur_byte_in key i n : 0 <= i < zlen key -> exists b, murmur_byte key i n = Some b /\ fits 64 b.
Proof.
  intros Hi. destruct (zget_in_bounds key i Hi) as [b Hb]. unfold murmur_byte. rewrite Hb. simpl. eexists. split; [done|].
  unfold fits, uN. apply Z.mod_pos_bound. lia.
Qed.

Lemma fits_lxor w a b : 0 <= w -> fits w a -> fits w b -> fits w (Z.lxor a b).
Proof.
  unfold fits. intros Hw [Ha Ha'] [Hb Hb']. assert (0 <= Z.lxor a b) as H0 by (apply Z.lxor_nonneg; lia).
  split; [done|]. destruct (decide (Z.lxor a b = 0)) as [->|Hne]; [lia|].
  apply Z.log2_lt_pow2; [lia|]. pose proof (Z.log2_lxor a b Ha Hb).
  destruct (decide (a = 0)) as [->|], (decide (b = 0)) as [->|]; simpl in *; try done.
  - rewrite Z.lxor_0_l. apply Z.log2_lt_pow2; lia.
  - rewrite Z.lxor_0_r. apply Z.log2_lt_pow2; lia.
  - assert (Z.log2 a < w) by (apply Z.log2_lt_pow2; lia). assert (Z.log2 b < w) by (apply Z.log2_lt_pow2; lia). lia.
Qed.

Lemma fits_shiftr w a n : 0 <= n -> fits w a -> fits w (Z.shiftr a n).
Proof.
  unfold fits. intros Hn [Ha Ha']. rewrite Z.shiftr_div_pow2 by done.
  assert (0 < 2 ^ n) by (apply Z.pow_pos_nonneg; lia). split; [apply Z.div_pos; lia|].
  apply Z.div_lt_upper_bound; [lia|]. nia.
Qed.

Lemma murmur_loop_total fuel key k h : 0 <= k <= zlen key -> (length key < fuel)%nat -> fits 64 h ->
  exists key' k' h', murmur_loop fuel key k h = Some (key', k', h') /\ 0 <= k' <= zlen key' /\ fits 64 h'.
Proof.
  revert key k h. induction fuel as [|fuel IH]; intros key k h Hk Hf Hh; [lia|]. cbn [murmur_loop].
  destruct (Z.leb_spec 4 k); [|by eexists _, _, _].
  destruct (murmur_byte_in key 0 0) as (? & -> & _); [lia|]. destruct (murmur_byte_in key 1 8) as (? & -> & _); [lia|].
  destruct (murmur_byte_in key 2 16) as (? & -> & _); [lia|]. destruct (murmur_byte_in key 3 24) as (? & -> & _); [lia|].
  cbn [mbind option_bind]. apply IH; [rewrite length_drop; lia..|].
  apply fits_lxor; [lia|apply uN_fits; lia..].
Qed.

(** The two other hash functions read no byte outside of the key, and return
    a 64-bit number for every key. *)
Lemma hash_reads_in_bounds key :
  zlen key < 2 ^ 64 ->
  (exists h, swoole_hash_jenkins key = Some h /\ fits 64 h) /\ (exists h, swoole_hash_austin key = Some h /\ fits 64 h).
Proof.
  intros Hlen. split.
  - unfold swoole_hash_jenkins.
    destruct (jen_loop_total (S (length key)) key (u32 (zlen key)) (2654435769, 2654435769, 4276993775))
      as (key' & k & [[i j] h] & -> & Hk); [|lia|].
    { pose proof (Z.mod_le (zlen key) (2 ^ 32)). pose proof (Z.mod_pos_bound (zlen key) (2 ^ 32)). unfold uN. lia. }
    cbn [mbind option_bind].
    repeat (match goal with |- context [jen_case k ?l ?x ?w key' ?i ?n] =>
      destruct (jen_case_in k l x w key' i n) as [? ->]; [lia|lia|] end; cbn [mbind option_bind]).
    match goal with |- context [HASH_JEN_MIX ?x] => pose proof (jen_mix_range x); destruct (HASH_JEN_MIX x) as [[? ?] ?] end.
    eauto.
  - unfold swoole_hash_austin.
    destruct (murmur_loop_total (S (length key)) key (zlen key) (zlen key)) as (key' & k & h & -> & Hk & Hh);
      [lia|lia|unfold fits; lia|]. cbn [mbind option_bind].
    assert (forall x, fits 64 x -> exists y, Some (Z.lxor (u64 (Z.lxor x (Z.shiftr x 13) * murmur_m))
      (Z.shiftr (u64 (Z.lxor x (Z.shiftr x 13) * murmur_m)) 15)) = Some y /\ fits 64 y) as Hend.
    { intros x Hx. eexists. split; [done|]. pose proof (uN_fits 64 (Z.lxor x (Z.shiftr x 13) * murmur_m) ltac:(lia)).
      apply fits_lxor; [lia|done|apply fits_shiftr; [lia|done]]. }
    destruct (Z.leb_spec 3 k), (Z.leb_spec 2 k), (Z.leb_spec 1 k); try lia;
      repeat match goal with |- context [murmur_byte key' ?i ?n] =>
        destruct (murmur_byte_in key' i n) as (? & -> & ?); [lia|]; cbn [mbind option_bind] end; cbn [mbind option_bind];
      apply Hend; try done; apply uN_fits; lia.
Qed.

(** *** CRC-32 *)

(** The remainder of a division by the polynomial, bit by bit. *)
Definition crc_byte (crc b : Z) : Z := Nat.iter 8 crc_bit (Z.lxor crc b).
Definition crc_reference (data : list Z) : Z := Z.lxor (foldl crc_byte 4294967295 data) 4294967295.

Lemma crc_bit_eq c : crc_bit c = Z.lxor (Z.shiftr c 1) (if Z.odd c then polynomial else 0).
Proof.
  unfold crc_bit.
  replace (Z.land c 1) with (Z.b2z (Z.odd c)).
  2: { change 1 with (Z.ones 1). rewrite Z.land_ones by lia. change (2 ^ 1) with 2. symmetry. apply Zmod_odd. }
  destruct (Z.odd c); simpl; [apply Z.lxor_comm|by rewrite Z.lxor_0_r].
Qed.

Lemma crc_bit_lxor a b : crc_bit (Z.lxor a b) = Z.lxor (crc_bit a) (crc_bit b).
Proof.
  rewrite !crc_bit_eq, Z.shiftr_lxor. rewrite <- !Z.bit0_odd, Z.lxor_spec.
  destruct (Z.testbit a 0), (Z.testbit b 0); simpl; Z.bitwise; repeat destruct (Z.testbit _ _); done.
Qed.

Lemma iter_crc_lxor n a b : Nat.iter n crc_bit (Z.lxor a b) = Z.lxor (Nat.iter n crc_bit a) (Nat.iter n crc_bit b).
Proof. induction n as [|n IH]; simpl; [done|]. by rewrite IH, crc_bit_lxor. Qed.

Lemma crc_bit_shiftl y n : 0 <= n -> crc_bit (Z.shiftl y (n + 1)) = Z.shiftl y n.
Proof.
  intros Hn. rewrite crc_bit_eq, Z.shiftr_shiftl_l by lia. replace (n + 1 - 1) with n by lia.
  rewrite <- Z.bit0_odd, Z.shiftl_spec_low by lia. apply Z.lxor_0_r.
Qed.

Lemma iter_crc_shiftl y : Nat.iter 8 crc_bit (Z.shiftl y 8) = y.
Proof.
  assert (forall n, Nat.iter n crc_bit (Z.shiftl y (Z.of_nat n)) = y) as H; [|apply (H 8%nat)].
  induction n as [|n IH]; [apply Z.shiftl_0_r|]. rewrite Nat.iter_succ_r, Nat2Z.inj_succ.
  unfold Z.succ. by rewrite crc_bit_shiftl by lia.
Qed.

(** The eight low bits select an entry of the table. *)
Lemma iter_crc_split x : Nat.iter 8 crc_bit x = Z.lxor (Z.shiftr x 8) (Nat.iter 8 crc_bit (Z.land x 255)).
Proof.
  replace x with (Z.lxor (Z.shiftl (Z.shiftr x 8) 8) (Z.land x 255)) at 1.
  - by rewrite iter_crc_lxor, iter_crc_shiftl.
  - change 255 with (Z.ones 8). apply Z.bits_inj'. intros n Hn.
    rewrite Z.lxor_spec, Z.land_spec, Z.shiftl_spec by done. destruct (Z.ltb_spec n 8).
    + rewrite Z.testbit_neg_r by lia. rewrite Z.ones_spec_low by lia. simpl. by rewrite andb_true_r.
    + rewrite Z.shiftr_spec by lia. rewrite Z.ones_spec_high by lia. rewrite andb_false_r, xorb_false_r.
      f_equal. lia.
Qed.

Lemma fits_crc_bit c : fits 32 c -> fits 32 (crc_bit c).
Proof.
  intros Hc. rewrite crc_bit_eq. apply fits_lxor; [lia|by apply fits_shiftr|].
  destruct (Z.odd c); unfold fits, polynomial; lia.
Qed.

Lemma land_255 x : Z.land x 255 = x mod 256.
Proof. change 255 with (Z.ones 8). by rewrite Z.land_ones by lia. Qed.

Lemma char_low_byte b : byte b -> Z.land (u32 (char b)) 255 = Z.land b 255.
Proof.
  unfold byte. intros Hb. rewrite !land_255. unfold uN, char, sN. change (2 ^ 8) with 256.
  change (2 ^ (8 - 1)) with 128. change (2 ^ 32) with 4294967296. destruct (Z.ltb_spec b 128).
  - rewrite (Z.mod_small (b + 128)) by lia. replace (b + 128 - 128) with b by lia. by rewrite (Z.mod_small b 4294967296) by lia.
  - replace ((b + 128) mod 256) with (b - 128) by (apply (Z.mod_unique _ _ 1); lia).
    replace ((b - 128 - 128) mod 4294967296) with (b + 4294967040) by (apply (Z.mod_unique _ _ (-1)); lia).
    rewrite (Z.mod_small b) by lia. symmetry. apply (Z.mod_unique _ _ 16777215); lia.
Qed.

Lemma crc_step crc b : fits 32 crc -> byte b ->
  exists e, zget generate_table (Z.land (Z.lxor crc (u32 (char b))) 255) = Some e /\
    Z.lxor (Z.land (Z.shiftr crc 8) 16777215) e = crc_byte crc b /\ fits 32 (crc_byte crc b).
Proof.
  intros Hc Hb. unfold byte in Hb.
  assert (Z.land (Z.lxor crc (u32 (char b))) 255 = Z.land (Z.lxor crc b) 255) as ->.
  { pose proof (char_low_byte b Hb) as E.
    apply Z.bits_inj'. intros n Hn. apply (f_equal (fun z => Z.testbit z n)) in E. rewrite !Z.land_spec in E.
    rewrite !Z.land_spec, !Z.lxor_spec. destruct (Z.testbit 255 n); [|by rewrite !andb_false_r].
    rewrite !andb_true_r in *. by rewrite E. }
  set (x := Z.lxor crc b). assert (fits 32 x) as Hx by (apply fits_lxor; [lia|done|unfold fits; lia]).
  assert (0 <= Z.land x 255 < 256) as Hi by (rewrite land_255; apply Z.mod_pos_bound; lia).
  exists (Nat.iter 8 crc_bit (Z.land x 255)). split_and!.
  - unfold zget, generate_table. destruct (Z.leb_spec 0 (Z.land x 255)); [|lia].
    rewrite list_lookup_fmap, lookup_seq_lt by lia. simpl. by rewrite Z2Nat.id by lia.
  - unfold crc_byte. fold x. rewrite (iter_crc_split x). f_equal. unfold x. rewrite Z.shiftr_lxor.
    replace (Z.shiftr b 8) with 0 by (rewrite Z.shiftr_div_pow2 by lia; symmetry; apply Z.div_small; lia).
    rewrite Z.lxor_0_r. change 16777215 with (Z.ones 24). rewrite Z.land_ones by lia. apply Z.mod_small.
    unfold fits in Hc. rewrite Z.shiftr_div_pow2 by lia. split; [apply Z.div_pos; lia|].
    apply Z.div_lt_upper_bound; lia.
  - unfold crc_byte. fold x. revert Hx. generalize x. generalize 8%nat. clear. induction n as [|n IH]; intros x Hx; [done|].
    apply fits_crc_bit, IH, Hx.
Qed.

(** The table-driven checksum is the CRC-32 of the data: the remainder that
    dividing the message bit by bit by the polynomial gives; no entry outside of
    the table is used. *)
Theorem crc32_reference data :
  Forall byte data -> swoole_crc32 data = Some (crc_reference data).
Proof.
  intros Hd. unfold swoole_crc32, crc_reference. change (Z.lxor 0 4294967295) with 4294967295.
  enough (forall crc, fits 32 crc -> crc_loop generate_table crc data = Some (foldl crc_byte crc data)) as ->
    by (unfold fits; done || lia).
  induction Hd as [|b data Hb Hd IH]; intros crc Hc; [done|]. cbn [crc_loop foldl].
  destruct (crc_step crc b Hc Hb) as (e & -> & E & Hf). cbn [mbind option_bind]. rewrite E. by apply IH.
Qed.

(** The check value of CRC-32, the checksum of "123456789". *)
Lemma crc32_reference_witness : Forall byte [49; 50; 51; 52; 53; 54; 55; 56; 57] /\
  swoole_crc32 [49; 50; 51; 52; 53; 54; 55; 56; 57] = Some (crc_reference [49; 50; 51; 52; 53; 54; 55; 56; 57]) /\
  crc_reference [49; 50; 51; 52; 53; 54; 55; 56; 57] = 3421780262.
Proof.
  assert (Forall byte [49; 50; 51; 52; 53; 54; 55; 56; 57]) as H.
  { repeat constructor; done. }
  split; [exact H|]. split; [exact (crc32_reference _ H)|vm_compute; reflexivity].
Defined.
