(* ===== verification/Base64.v ===== *)
(** * Base64

    [src/core/base64.cc].  The loops over the input are recursions on the bytes
    that are left, with the index and the byte before; the output buffer is a
    list of bytes, and a write behind its end has no result. *)

From S2P Require Import Prelude.

(** ** Definitions *)

(** The encode table: A-Z, a-z, 0-9, + and / *)
Definition base64en : list Z :=
  [65; 66; 67; 68; 69; 70; 71; 72; 73; 74; 75; 76; 77; 78; 79; 80; 81; 82; 83; 84; 85; 86; 87; 88; 89; 90;
   97; 98; 99; 100; 101; 102; 103; 104; 105; 106; 107; 108; 109; 110; 111; 112; 113; 114; 115; 116; 117; 118; 119;
   120; 121; 122; 48; 49; 50; 51; 52; 53; 54; 55; 56; 57; 43; 47].
Definition BASE64_PAD : Z := 61.
Definition BASE64DE_FIRST : Z := 43.
Definition BASE64DE_LAST : Z := 122.

(** The decode table, from + to z *)
Definition base64de : list Z :=
  [62; -1; -1; -1; 63; 52; 53; 54;
   55; 56; 57; 58; 59; 60; 61; -1;
   -1; -1; -1; -1; -1; -1; 0; 1;
   2; 3; 4; 5; 6; 7; 8; 9;
   10; 11; 12; 13; 14; 15; 16; 17;
   18; 19; 20; 21; 22; 23; 24; 25;
   -1; -1; -1; -1; -1; -1; 26; 27;
   28; 29; 30; 31; 32; 33; 34; 35;
   36; 37; 38; 39; 40; 41; 42; 43;
   44; 45; 46; 47; 48; 49; 50; 51].

(** [out[j++] = base64en[n]] *)
Definition emit (st : list Z * Z) (n : Z) : option (list Z * Z) :=
  let '(out, j) := st in
  c ← zget base64en n; out ← zset out j c; Some (out, j + 1).
Definition pad (st : list Z * Z) : option (list Z * Z) :=
  let '(out, j) := st in out ← zset out j BASE64_PAD; Some (out, j + 1).

(** The loop of [base64_encode]; [prev] is the byte before [b]. *)
Fixpoint encode_loop (rest : list Z) (i prev : Z) (st : list Z * Z) : option (Z * Z * (list Z * Z)) :=
  match rest with
  | [] => Some (i, prev, st)
  | b :: rest =>
      let s := i mod 3 in
      st ← (if s =? 0 then emit st (Z.land (Z.shiftr b 2) 63)
            else if s =? 1 then emit st (Z.shiftl (Z.land prev 3) 4 + Z.land (Z.shiftr b 4) 15)
            else st ← emit st (Z.shiftl (Z.land prev 15) 2 + Z.land (Z.shiftr b 6) 3); emit st (Z.land b 63));
      encode_loop rest (i + 1) b st
  end.

(** [base64_encode]: the buffer and the length *)
Definition base64_encode (inp out : list Z) : option (list Z * Z) :=
  if zlen inp =? 0 then out ← zset out 0 0; Some (out, 0) else
  '(i, last, st) ← encode_loop inp 0 0 (out, 0);
  let i := i - 1 in
  '(out, j) ← (if i mod 3 =? 0 then st ← emit st (Z.shiftl (Z.land last 3) 4); st ← pad st; pad st
               else if i mod 3 =? 1 then st ← emit st (Z.shiftl (Z.land last 15) 2); pad st
               else Some st);
  out ← zset out j 0;
  Some (out, j).

(** [out[j] = v] and [out[j++] += v] on bytes *)
Definition store (out : list Z) (j v : Z) : option (list Z) := zset out j (u8 v).
Definition add_at (out : list Z) (j v : Z) : option (list Z) := x ← zget out j; zset out j (u8 (x + v)).

(** The loop of [base64_decode]: [None] in the answer is the return of 0. *)
Fixpoint decode_loop (inp rest : list Z) (i : Z) (out : list Z) (j : Z) : option (list Z * option Z) :=
  match rest with
  | [] => Some (out, Some j)
  | b :: rest =>
      let inlen := zlen inp in
      let s := i mod 4 in
      if b =? 61 then Some (out, Some j) else
      if (s8 b <? BASE64DE_FIRST) || (BASE64DE_LAST <? s8 b) then Some (out, None) else
      c ← zget base64de (s8 b - BASE64DE_FIRST);
      if c =? -1 then Some (out, None) else
      if s =? 0 then out ← store out j (Z.shiftl c 2); decode_loop inp rest (i + 1) out j
      else if s =? 1 then
        out ← add_at out j (Z.land (Z.shiftr c 4) 3);
        last ← (if i <? u64 (inlen - 3) then Some true else p ← zget inp (inlen - 2); Some (negb (p =? 61)));
        out ← (if (last : bool) then store out (j + 1) (Z.shiftl (Z.land c 15) 4) else Some out);
        decode_loop inp rest (i + 1) out (j + 1)
      else if s =? 2 then
        out ← add_at out j (Z.land (Z.shiftr c 2) 15);
        last ← (if i <? u64 (inlen - 2) then Some true else p ← zget inp (inlen - 1); Some (negb (p =? 61)));
        out ← (if (last : bool) then store out (j + 1) (Z.shiftl (Z.land c 3) 6) else Some out);
        decode_loop inp rest (i + 1) out (j + 1)
      else
        out ← add_at out j c;
        decode_loop inp rest (i + 1) out (j + 1)
  end.

(** [base64_decode] *)
Definition base64_decode (inp out : list Z) : option (list Z * Z) :=
  '(out, r) ← decode_loop inp inp 0 out 0;
  match r with
  | None => Some (out, 0)
  | Some j => out ← zset out j 0; Some (out, j)
  end.

(** ** The code of three bytes *)

Definition enc (n : Z) : Z := default 0 (base64en !! Z.to_nat n).

(** The encoding, three bytes at a time. *)
Fixpoint code (x : list Z) : list Z :=
  match x with
  | [] => []
  | [a] => [enc (a / 4); enc (a mod 4 * 16); 61; 61]
  | [a; b] => [enc (a / 4); enc (a mod 4 * 16 + b / 16); enc (b mod 16 * 4); 61]
  | a :: b :: c :: x =>
      enc (a / 4) :: enc (a mod 4 * 16 + b / 16) :: enc (b mod 16 * 4 + c / 64) :: enc (c mod 64) :: code x
  end.

Lemma zset_app {A} (d : list A) x r v : zset (d ++ x :: r) (zlen d) v = Some (d ++ v :: r).
Proof.
  unfold zset. destruct (Z.leb_spec 0 (zlen d)); [|lia]. simpl.
  rewrite length_app. simpl. destruct (Z.ltb_spec (zlen d) (Z.of_nat (length d + S (length r)))); [|lia].
  rewrite Nat2Z.id, insert_app_r_alt by lia. by rewrite Nat.sub_diag.
Qed.

Lemma land_ones_mod x n : 0 <= n -> Z.land x (2 ^ n - 1) = x mod 2 ^ n.
Proof. intros Hn. replace (2 ^ n - 1) with (Z.ones n) by (rewrite Z.ones_equiv; lia). by apply Z.land_ones. Qed.

Lemma land_3 x : Z.land x 3 = x mod 4. Proof. exact (land_ones_mod x 2 ltac:(lia)). Qed.
Lemma low_nibble x : Z.land x 15 = x mod 16. Proof. exact (land_ones_mod x 4 ltac:(lia)). Qed.
Lemma land_63 x : Z.land x 63 = x mod 64. Proof. exact (land_ones_mod x 6 ltac:(lia)). Qed.

#[local] Ltac Zify.zify_post_hook ::= Z.to_euclidean_division_equations.

(** Bit operations as arithmetic. *)
Ltac bits := unfold byte in *; rewrite ?land_3, ?low_nibble, ?land_63, ?Z.shiftr_div_pow2, ?Z.shiftl_mul_pow2 by lia;
  change (2 ^ 2) with 4; change (2 ^ 4) with 16; change (2 ^ 6) with 64.

Lemma enc_dec n : 0 <= n < 64 ->
  (enc n =? 61) = false /\ (s8 (enc n) <? BASE64DE_FIRST) || (BASE64DE_LAST <? s8 (enc n)) = false /\
  zget base64de (s8 (enc n) - BASE64DE_FIRST) = Some n /\ zget base64en n = Some (enc n).
Proof.
  intros Hn. assert (forallb (fun k : nat => let n := Z.of_nat k in
    negb (enc n =? 61) && negb ((s8 (enc n) <? BASE64DE_FIRST) || (BASE64DE_LAST <? s8 (enc n))) &&
    bool_decide (zget base64de (s8 (enc n) - BASE64DE_FIRST) = Some n) && bool_decide (zget base64en n = Some (enc n)))
    (seq 0 64) = true) as H by (vm_compute; reflexivity).
  rewrite forallb_forall in H. specialize (H (Z.to_nat n)). rewrite Z2Nat.id in H by lia.
  rewrite !andb_true_iff, !negb_true_iff, !bool_decide_eq_true in H. destruct H as [[[? ?] ?] ?]; [|done].
  apply in_seq. lia.
Qed.

Lemma emit_spec d y r n : 0 <= n < 64 -> emit (d ++ y :: r, zlen d) n = Some ((d ++ [enc n]) ++ r, zlen (d ++ [enc n])).
Proof.
  intros Hn. unfold emit. destruct (enc_dec n Hn) as (_ & _ & _ & ->). cbn [mbind option_bind]. rewrite zset_app.
  cbn [mbind option_bind]. rewrite <- app_assoc, length_app. simpl. repeat f_equal. lia.
Qed.

Lemma pad_spec d y r : pad (d ++ y :: r, zlen d) = Some ((d ++ [61]) ++ r, zlen (d ++ [61])).
Proof.
  unfold pad. rewrite zset_app. cbn [mbind option_bind]. rewrite <- app_assoc, length_app. simpl. repeat f_equal. lia.
Qed.

(** What follows the loop. *)
Definition encode_end (r : Z * Z * (list Z * Z)) : option (list Z * Z) :=
  let '(i, last, st) := r in
  let i := i - 1 in
  '(out, j) ← (if i mod 3 =? 0 then st ← emit st (Z.shiftl (Z.land last 3) 4); st ← pad st; pad st
               else if i mod 3 =? 1 then st ← emit st (Z.shiftl (Z.land last 15) 2); pad st
               else Some st);
  out ← zset out j 0;
  Some (out, j).

Ltac take_one r :=
  match goal with H : (_ < length _)%nat |- _ => destruct r as [|? r]; [simpl in H; clear - H; lia|] end.

Lemma encode_groups n x i prev d r : (length x <= n)%nat -> Forall byte x -> i mod 3 = 0 ->
  (length (code x) < length r)%nat ->
  exists r', (encode_loop x i prev (d ++ r, zlen d) ≫= encode_end) = Some (d ++ code x ++ 0 :: r', zlen (d ++ code x)).
Proof.
  revert x i prev d r. induction n as [|n IH]; intros x i prev d r Hn Hx Hi Hr.
  { destruct x; [|simpl in Hn; lia]. take_one r. exists r. simpl. replace ((i - 1) mod 3) with 2 by lia.
    simpl. rewrite zset_app. simpl. by rewrite app_nil_r. }
  destruct x as [|a [|b [|c x]]].
  - apply (IH [] i prev d r); [simpl; lia|done..].
  - apply Forall_cons in Hx as [Ha _]. do 5 take_one r. exists r. cbn [encode_loop]. rewrite Hi.
    cbn [Z.eqb Pos.eqb]. bits. rewrite emit_spec by lia. cbn [mbind option_bind]. unfold encode_end.
    replace (i + 1 - 1) with i by lia. rewrite Hi. cbn [Z.eqb Pos.eqb]. bits. rewrite emit_spec by lia. cbn [mbind option_bind].
    rewrite pad_spec. cbn [mbind option_bind]. rewrite pad_spec. cbn [mbind option_bind]. rewrite zset_app.
    cbn [mbind option_bind code]. rewrite <- !app_assoc. replace (a / 4 mod 64) with (a / 4) by lia. done.
  - apply Forall_cons in Hx as [Ha [Hb _]%Forall_cons]. do 5 take_one r. exists r. cbn [encode_loop]. rewrite Hi.
    cbn [Z.eqb Pos.eqb]. bits. rewrite emit_spec by lia. cbn [mbind option_bind]. replace ((i + 1) mod 3) with 1 by lia. cbn [Z.eqb Pos.eqb].
    rewrite emit_spec by lia. cbn [mbind option_bind]. unfold encode_end.
    replace ((i + 1 + 1 - 1) mod 3) with 1 by lia. cbn [Z.eqb Pos.eqb]. bits. rewrite emit_spec by lia. cbn [mbind option_bind].
    rewrite pad_spec. cbn [mbind option_bind]. rewrite zset_app.
    cbn [mbind option_bind code]. rewrite <- !app_assoc. replace (a / 4 mod 64) with (a / 4) by lia.
    replace (b / 16 mod 16) with (b / 16) by lia. done.
  - apply Forall_cons in Hx as [Ha [Hb [Hc Hx]%Forall_cons]%Forall_cons]. cbn [code length] in Hr. do 4 take_one r.
    cbn [encode_loop]. rewrite Hi. cbn [Z.eqb Pos.eqb]. bits. rewrite emit_spec by lia. cbn [mbind option_bind].
    replace ((i + 1) mod 3) with 1 by lia. cbn [Z.eqb Pos.eqb]. rewrite emit_spec by lia. cbn [mbind option_bind].
    replace ((i + 1 + 1) mod 3) with 2 by lia. cbn [Z.eqb Pos.eqb]. rewrite emit_spec by lia. cbn [mbind option_bind].
    rewrite emit_spec by lia. cbn [mbind option_bind].
    destruct (IH x (i + 1 + 1 + 1) c ((((d ++ [enc (a / 4 mod 64)]) ++ [enc (a mod 4 * 16 + b / 16 mod 16)]) ++
      [enc (b mod 16 * 4 + c / 64 mod 4)]) ++ [enc (c mod 64)]) r) as [r' E]; [simpl in *; lia|done|lia|simpl in *; lia|].
    exists r'. rewrite E. cbn [code]. rewrite <- !app_assoc. cbn [app].
    replace (a / 4 mod 64) with (a / 4) by lia. replace (b / 16 mod 16) with (b / 16) by lia.
    replace (c / 64 mod 4) with (c / 64) by lia. done.
Qed.

Lemma encode_spec x out : Forall byte x -> (length (code x) < length out)%nat ->
  exists r, base64_encode x out = Some (code x ++ 0 :: r, zlen (code x)).
Proof.
  intros Hx Hr. unfold base64_encode. destruct (Z.eqb_spec (zlen x) 0) as [Hz|Hz].
  - destruct x; [|simpl in Hz; lia]. take_one out. exists out. done.
  - destruct (encode_groups (length x) x 0 0 [] out) as [r E]; [done|done|done|done|]. exists r. exact E.
Qed.

(** ** Decoding *)

Lemma store_app d y r v : store (d ++ y :: r) (zlen d) v = Some (d ++ u8 v :: r).
Proof. apply zset_app. Qed.

Lemma add_at_app d y r v : add_at (d ++ y :: r) (zlen d) v = Some (d ++ u8 (y + v) :: r).
Proof.
  unfold add_at, zget. destruct (Z.leb_spec 0 (zlen d)); [|lia]. rewrite Nat2Z.id, list_lookup_middle by done.
  apply zset_app.
Qed.

(** The same one place further. *)
Lemma store_next d y z r v : store (d ++ y :: z :: r) (zlen d + 1) v = Some ((d ++ [y]) ++ u8 v :: r).
Proof.
  rewrite <- (store_app (d ++ [y]) z r v). rewrite length_app, <- app_assoc. f_equal. simpl. lia.
Qed.

Lemma store_next_snoc d y z r v : store ((d ++ [y]) ++ z :: r) (zlen d + 1) v = Some ((d ++ [y]) ++ u8 v :: r).
Proof. rewrite <- app_assoc. apply store_next. Qed.

(** Whether the next byte is started: [in[k]] is not a pad. *)
Definition more (inp : list Z) (i back k : Z) : option bool :=
  if i <? u64 (zlen inp - back) then Some true else p ← zget inp (zlen inp - k); Some (negb (p =? 61)).

(** One character of the alphabet is decoded. *)
Lemma decode_char inp n rest i out j : 0 <= n < 64 ->
  decode_loop inp (enc n :: rest) i out j =
  let s := i mod 4 in
  if s =? 0 then out ← store out j (Z.shiftl n 2); decode_loop inp rest (i + 1) out j
  else if s =? 1 then
    out ← add_at out j (Z.land (Z.shiftr n 4) 3);
    last ← more inp i 3 2;
    out ← (if (last : bool) then store out (j + 1) (Z.shiftl (Z.land n 15) 4) else Some out);
    decode_loop inp rest (i + 1) out (j + 1)
  else if s =? 2 then
    out ← add_at out j (Z.land (Z.shiftr n 2) 15);
    last ← more inp i 2 1;
    out ← (if (last : bool) then store out (j + 1) (Z.shiftl (Z.land n 3) 6) else Some out);
    decode_loop inp rest (i + 1) out (j + 1)
  else out ← add_at out j n; decode_loop inp rest (i + 1) out (j + 1).
Proof.
  intros Hn. destruct (enc_dec n Hn) as (E1 & E2 & E3 & _). cbn [decode_loop]. rewrite E1, E2, E3. cbn [mbind option_bind].
  destruct (Z.eqb_spec n (-1)); [lia|]. done.
Qed.

Lemma more_inside inp i back k : 0 <= i < zlen inp - back -> zlen inp < 2 ^ 64 -> 0 <= back -> more inp i back k = Some true.
Proof.
  intros Hi Hl Hb. unfold more. rewrite uN_small by (unfold fits; lia). destruct (Z.ltb_spec i (zlen inp - back)); [done|lia].
Qed.

Lemma more_at inp back k p : 0 <= zlen inp - back -> zlen inp < 2 ^ 64 -> 0 <= back -> zget inp (zlen inp - k) = Some p ->
  more inp (zlen inp - back) back k = Some (negb (p =? 61)).
Proof.
  intros Hi Hl Hb Hp. unfold more. rewrite uN_small by (unfold fits; lia).
  destruct (Z.ltb_spec (zlen inp - back) (zlen inp - back)); [lia|]. by rewrite Hp.
Qed.

Lemma zget_suffix (pre l : list Z) k : 0 <= k -> zget (pre ++ l) (zlen pre + k) = zget l k.
Proof.
  intros Hk. unfold zget. destruct (Z.leb_spec 0 (zlen pre + k)), (Z.leb_spec 0 k); try lia.
  rewrite lookup_app_r by lia. f_equal. lia.
Qed.

Lemma code_length n x : (length x <= n)%nat -> zlen (code x) = 4 * ((zlen x + 2) / 3).
Proof.
  revert x. induction n as [|n IH]; intros x Hn; destruct x as [|a [|b [|c x]]]; try done; simpl in Hn; try lia.
  cbn [code length]. assert (zlen (code x) = 4 * ((zlen x + 2) / 3)) as E by (apply IH; lia). lia.
Qed.

(** In the code of three bytes or more, every byte is started. *)
Lemma more_group pre e1 e2 e3 e4 x :
  let inp := pre ++ e1 :: e2 :: e3 :: e4 :: code x in
  zlen inp < 2 ^ 64 -> (e3 =? 61) = false -> (e4 =? 61) = false ->
  more inp (zlen pre + 1) 3 2 = Some true /\ more inp (zlen pre + 2) 2 1 = Some true.
Proof.
  intros inp Hl E3 E4.
  assert (zlen inp = zlen pre + 4 + zlen (code x)) as El by (unfold inp; rewrite length_app; simpl; lia).
  pose proof (code_length (length x) x ltac:(lia)) as Hc. destruct x as [|a x].
  - simpl in El. split.
    + replace (zlen pre + 1) with (zlen inp - 3) by lia. rewrite (more_at inp 3 2 e3); [by rewrite E3|lia|done|lia|].
      replace (zlen inp - 2) with (zlen pre + 2) by lia. unfold inp. by rewrite zget_suffix by lia.
    + replace (zlen pre + 2) with (zlen inp - 2) by lia. rewrite (more_at inp 2 1 e4); [by rewrite E4|lia|done|lia|].
      replace (zlen inp - 1) with (zlen pre + 3) by lia. unfold inp. by rewrite zget_suffix by lia.
  - cbn [length] in Hc. split; apply more_inside; lia.
Qed.

(** The four places of a character in its group. *)
Section places.
Context (inp rest : list Z) (n i : Z) (Hn : 0 <= n < 64).
Implicit Types (d r : list Z).

Lemma decode_0 d y r : i mod 4 = 0 ->
  decode_loop inp (enc n :: rest) i (d ++ y :: r) (zlen d) = decode_loop inp rest (i + 1) (d ++ u8 (n * 4) :: r) (zlen d).
Proof.
  intros Hi. rewrite decode_char by done. cbv zeta. rewrite Hi. cbn [Z.eqb Pos.eqb]. rewrite store_app. cbn [mbind option_bind].
  by bits.
Qed.

Lemma decode_1 d y z r : i mod 4 = 1 -> more inp i 3 2 = Some true ->
  decode_loop inp (enc n :: rest) i (d ++ y :: z :: r) (zlen d) =
  decode_loop inp rest (i + 1) ((d ++ [u8 (y + n / 16 mod 4)]) ++ u8 (n mod 16 * 16) :: r) (zlen (d ++ [u8 (y + n / 16 mod 4)])).
Proof.
  intros Hi Hm. rewrite decode_char by done. cbv zeta. rewrite Hi. cbn [Z.eqb Pos.eqb]. rewrite add_at_app. cbn [mbind option_bind].
  rewrite Hm. cbn [mbind option_bind]. rewrite store_next. cbn [mbind option_bind]. bits. rewrite length_app.
  do 2 f_equal. simpl. lia.
Qed.

Lemma decode_2 d y z r : i mod 4 = 2 -> more inp i 2 1 = Some true ->
  decode_loop inp (enc n :: rest) i (d ++ y :: z :: r) (zlen d) =
  decode_loop inp rest (i + 1) ((d ++ [u8 (y + n / 4 mod 16)]) ++ u8 (n mod 4 * 64) :: r) (zlen (d ++ [u8 (y + n / 4 mod 16)])).
Proof.
  intros Hi Hm. rewrite decode_char by done. cbv zeta. rewrite Hi. cbn [Z.eqb Pos.eqb]. rewrite add_at_app. cbn [mbind option_bind].
  rewrite Hm. cbn [mbind option_bind]. rewrite store_next. cbn [mbind option_bind]. bits. rewrite length_app.
  do 2 f_equal. simpl. lia.
Qed.

Lemma decode_3 d y r : i mod 4 = 3 ->
  decode_loop inp (enc n :: rest) i (d ++ y :: r) (zlen d) =
  decode_loop inp rest (i + 1) ((d ++ [u8 (y + n)]) ++ r) (zlen (d ++ [u8 (y + n)])).
Proof.
  intros Hi. rewrite decode_char by done. cbv zeta. rewrite Hi. cbn [Z.eqb Pos.eqb]. rewrite add_at_app. cbn [mbind option_bind].
  rewrite length_app, <- app_assoc. do 2 f_equal. simpl. lia.
Qed.

(** The last character before the padding. *)
Lemma decode_pad_1 d y r : i mod 4 = 1 -> more inp i 3 2 = Some false ->
  decode_loop inp (enc n :: 61 :: rest) i (d ++ y :: r) (zlen d) =
  Some (d ++ u8 (y + n / 16 mod 4) :: r, Some (zlen d + 1)).
Proof.
  intros Hi Hm. rewrite decode_char by done. cbv zeta. rewrite Hi. cbn [Z.eqb Pos.eqb]. rewrite add_at_app. cbn [mbind option_bind].
  rewrite Hm. cbn [mbind option_bind decode_loop]. bits. done.
Qed.

Lemma decode_pad_2 d y r : i mod 4 = 2 -> more inp i 2 1 = Some false ->
  decode_loop inp (enc n :: 61 :: rest) i (d ++ y :: r) (zlen d) =
  Some (d ++ u8 (y + n / 4 mod 16) :: r, Some (zlen d + 1)).
Proof.
  intros Hi Hm. rewrite decode_char by done. cbv zeta. rewrite Hi. cbn [Z.eqb Pos.eqb]. rewrite add_at_app. cbn [mbind option_bind].
  rewrite Hm. cbn [mbind option_bind decode_loop]. bits. done.
Qed.
End places.

(** The bytes that come out. *)
Lemma join_1 a m : byte a -> m / 16 mod 4 = a mod 4 -> u8 (u8 (a / 4 * 4) + m / 16 mod 4) = a.
Proof. unfold byte, uN. change (2 ^ 8) with 256. intros Ha ->. lia. Qed.
Lemma join_2 b m m' : byte b -> m mod 16 = b / 16 -> m' / 4 mod 16 = b mod 16 -> u8 (u8 (m mod 16 * 16) + m' / 4 mod 16) = b.
Proof. unfold byte, uN. change (2 ^ 8) with 256. intros Hb -> ->. lia. Qed.
Lemma join_3 c m : byte c -> m mod 4 = c / 64 -> u8 (u8 (m mod 4 * 64) + c mod 64) = c.
Proof. unfold byte, uN. change (2 ^ 8) with 256. intros Hc ->. lia. Qed.

Lemma decode_groups n x pre d r : (length x <= n)%nat -> Forall byte x -> zlen pre mod 4 = 0 ->
  zlen (pre ++ code x) < 2 ^ 64 -> (length x < length r)%nat ->
  exists y r', decode_loop (pre ++ code x) (code x) (zlen pre) (d ++ r) (zlen d) =
    Some (d ++ x ++ y :: r', Some (zlen d + zlen x)).
Proof.
  revert x pre d r. induction n as [|n IH]; intros x pre d r Hn Hx Hi Hl Hr.
  { destruct x; [|simpl in Hn; lia]. take_one r. eexists _, r. simpl. by rewrite Z.add_0_r. }
  destruct x as [|a [|b [|c x]]].
  - apply (IH [] pre d r); [simpl; lia|done..].
  - apply Forall_cons in Hx as [Ha _]. pose proof Ha as Ha'. unfold byte in Ha'. do 2 take_one r. cbn [code] in *.
    set (inp := pre ++ _) in *. assert (zlen inp = zlen pre + 4) as El by (unfold inp; rewrite length_app; simpl; lia).
    rewrite decode_0, decode_pad_1; try lia.
    + rewrite (join_1 a) by (done || lia). by eexists _, r.
    + replace (zlen pre + 1) with (zlen inp - 3) by lia. rewrite (more_at inp 3 2 61); [done|lia|done|lia|].
      replace (zlen inp - 2) with (zlen pre + 2) by lia. unfold inp. by rewrite zget_suffix by lia.
  - apply Forall_cons in Hx as [Ha [Hb _]%Forall_cons]. pose proof Ha as Ha'. pose proof Hb as Hb'. unfold byte in Ha', Hb'.
    do 3 take_one r. cbn [code] in *.
    set (inp := pre ++ _) in *. assert (zlen inp = zlen pre + 4) as El by (unfold inp; rewrite length_app; simpl; lia).
    rewrite decode_0, decode_1, decode_pad_2; try lia.
    + rewrite (join_1 a), (join_2 b) by (done || lia). eexists _, r. rewrite length_app, <- app_assoc. cbn [app length].
      do 3 f_equal. lia.
    + replace (zlen pre + 1 + 1) with (zlen inp - 2) by lia. rewrite (more_at inp 2 1 61); [done|lia|done|lia|].
      replace (zlen inp - 1) with (zlen pre + 3) by lia. unfold inp. by rewrite zget_suffix by lia.
    + replace (zlen pre + 1) with (zlen inp - 3) by lia. erewrite more_at; [|lia|done|lia|].
      2: { replace (zlen inp - 2) with (zlen pre + 2) by lia. unfold inp. by rewrite zget_suffix by lia. }
      destruct (enc_dec (b mod 16 * 4)) as (-> & _); [lia|done].
  - apply Forall_cons in Hx as [Ha [Hb [Hc Hx]%Forall_cons]%Forall_cons].
    pose proof Ha as Ha'. pose proof Hb as Hb'. pose proof Hc as Hc'. unfold byte in Ha', Hb', Hc'.
    cbn [code length] in *. do 4 take_one r.
    destruct (more_group pre (enc (a / 4)) (enc (a mod 4 * 16 + b / 16)) (enc (b mod 16 * 4 + c / 64)) (enc (c mod 64)) x)
      as [Hm1 Hm2]; [done|apply enc_dec; lia..|].
    rewrite decode_0, decode_1, decode_2, decode_3; try lia; [|by replace (zlen pre + 1 + 1) with (zlen pre + 2) by lia|done].
    rewrite (join_1 a), (join_2 b), (join_3 c) by (done || lia).
    set (e := [enc (a / 4); enc (a mod 4 * 16 + b / 16); enc (b mod 16 * 4 + c / 64); enc (c mod 64)]).
    change (enc (a / 4) :: _) with (e ++ code x) in Hl |- *. rewrite app_assoc in Hl |- *.
    replace (zlen pre + 1 + 1 + 1 + 1) with (zlen (pre ++ e)) by (rewrite length_app; simpl; lia).
    destruct (IH x (pre ++ e) (((d ++ [a]) ++ [b]) ++ [c]) (z2 :: r)) as (y & r' & ->); [lia|done|rewrite length_app; simpl; lia|done|simpl in *; lia|].
    exists y, r'. rewrite !length_app, <- !app_assoc. cbn [app length]. do 3 f_equal. lia.
Qed.

Definition BASE64_ENCODE_OUT_SIZE (s : Z) : Z := (s + 2) / 3 * 4.
Definition BASE64_DECODE_OUT_SIZE (s : Z) : Z := s / 4 * 3.

(** ** Bounds *)

Lemma add_at_in out j v : 0 <= j < zlen out -> exists out', add_at out j v = Some out' /\ length out' = length out.
Proof. intros Hj. unfold add_at. destruct (zget_in_bounds out j Hj) as [x ->]. by apply zset_in. Qed.

Lemma more_in inp i back k : 0 <= i -> 1 <= k < back -> back <= 3 -> i < zlen inp -> zlen inp < 2 ^ 64 ->
  exists b, more inp i back k = Some b.
Proof.
  intros Hi Hk Hb Hl Hm. unfold more. destruct (Z.ltb_spec i (u64 (zlen inp - back))) as [|Hge]; [eauto|].
  assert (back <= zlen inp).
  { destruct (Z.leb_spec back (zlen inp)); [done|]. unfold uN in Hge. change (2 ^ 64) with 18446744073709551616 in *. lia. }
  destruct (zget_in_bounds inp (zlen inp - k)) as [p ->]; [lia|]. simpl. eauto.
Qed.

Definition written (i : Z) : Z := i / 4 * 3 + Z.max 0 (i mod 4 - 1).

Lemma decode_loop_in inp rest i out : zlen inp < 2 ^ 64 -> 0 <= i -> i + zlen rest = zlen inp ->
  BASE64_DECODE_OUT_SIZE (zlen inp) + 2 < zlen out ->
  exists out' r, decode_loop inp rest i out (written i) = Some (out', r) /\ length out' = length out /\
    forall j, r = Some j -> 0 <= j <= BASE64_DECODE_OUT_SIZE (zlen inp) + 2.
Proof.
  unfold BASE64_DECODE_OUT_SIZE. revert i out. induction rest as [|b rest IH]; intros i out Hl Hi Hr Ho; simpl in Hr.
  { eexists _, _. split; [done|]. split; [done|]. intros j [= <-]. unfold written. lia. }
  cbn [decode_loop]. assert (0 <= written i /\ written i + 1 < zlen out) as [Hw0 Hw] by (unfold written; lia).
  assert (written i <= zlen inp / 4 * 3 + 2) by (unfold written; lia).
  destruct (b =? 61). { eexists _, _. split; [done|]. split; [done|]. by intros j [= <-]. }
  destruct (_ || _) eqn:Erange; [by eexists _, _|]. apply orb_false_iff in Erange as [E1 E2].
  unfold BASE64DE_FIRST, BASE64DE_LAST in *. destruct (zget_in_bounds base64de (s8 b - 43)) as [c ->]; [simpl; lia|].
  cbn [mbind option_bind]. destruct (c =? -1); [by eexists _, _|].
  destruct (Z.eqb_spec (i mod 4) 0) as [E|Hn0]; [|destruct (Z.eqb_spec (i mod 4) 1) as [E|Hn1]; [|destruct (Z.eqb_spec (i mod 4) 2) as [E|Hn2]]].
  - destruct (zset_in out (written i) (u8 (Z.shiftl c 2))) as (o1 & Es & El); [lia|]. unfold store. rewrite Es. cbn [mbind option_bind].
    rewrite <- El in *. replace (written i) with (written (i + 1)) by (unfold written; lia). apply IH; lia.
  - destruct (add_at_in out (written i) (Z.land (Z.shiftr c 4) 3)) as (o1 & -> & El); [lia|]. cbn [mbind option_bind].
    destruct (more_in inp i 3 2) as [m Em]; [lia..|]. unfold more in Em. rewrite Em. cbn [mbind option_bind].
    replace (written i + 1) with (written (i + 1)) in * by (unfold written; lia). rewrite <- El in *. destruct m.
    + destruct (zset_in o1 (written (i + 1)) (u8 (Z.shiftl (Z.land c 15) 4))) as (o2 & Es & El2); [unfold written; lia|].
      unfold store. rewrite Es. cbn [mbind option_bind]. rewrite <- El2 in *. apply IH; lia.
    + cbn [mbind option_bind]. apply IH; lia.
  - destruct (add_at_in out (written i) (Z.land (Z.shiftr c 2) 15)) as (o1 & -> & El); [lia|]. cbn [mbind option_bind].
    destruct (more_in inp i 2 1) as [m Em]; [lia..|]. unfold more in Em. rewrite Em. cbn [mbind option_bind].
    replace (written i + 1) with (written (i + 1)) in * by (unfold written; lia). rewrite <- El in *. destruct m.
    + destruct (zset_in o1 (written (i + 1)) (u8 (Z.shiftl (Z.land c 3) 6))) as (o2 & Es & El2); [unfold written; lia|].
      unfold store. rewrite Es. cbn [mbind option_bind]. rewrite <- El2 in *. apply IH; lia.
    + cbn [mbind option_bind]. apply IH; lia.
  - destruct (add_at_in out (written i) c) as (o1 & -> & El); [lia|]. cbn [mbind option_bind].
    replace (written i + 1) with (written (i + 1)) by (unfold written; lia). rewrite <- El in *. apply IH; lia.
Qed.

(** Decoding any input, well formed or not, returns and never writes outside
    of a buffer that is three bytes larger than [BASE64_DECODE_OUT_SIZE]. *)
Theorem base64_decode_in_bounds inp out :
  zlen inp < 2 ^ 64 -> BASE64_DECODE_OUT_SIZE (zlen inp) + 2 < zlen out ->
  exists out' n, base64_decode inp out = Some (out', n) /\ length out' = length out /\ 0 <= n < zlen out.
Proof.
  intros Hl Ho. destruct (decode_loop_in inp inp 0 out Hl) as (o1 & r & E & El & Hr); [done|lia|done|].
  unfold base64_decode. change (written 0) with 0 in E. rewrite E. cbn [mbind option_bind].
  unfold BASE64_DECODE_OUT_SIZE in *. destruct r as [j|].
  - specialize (Hr j eq_refl). destruct (zset_in o1 j 0) as (o2 & -> & El2); [lia|]. eexists _, j.
    split; [done|]. split; [congruence|lia].
  - eexists _, 0. split; [done|]. split; [done|lia].
Qed.

(** C23: decoding what was encoded gives the original bytes back, for all data; the code
    has the length [BASE64_ENCODE_OUT_SIZE] says, followed by a zero.  Conditions: the
    output buffers are large enough. *)
Theorem base64_roundtrip x out buf :
  Forall byte x -> zlen x < 2 ^ 62 -> BASE64_ENCODE_OUT_SIZE (zlen x) < zlen out -> zlen x < zlen buf ->
  exists r n r', base64_encode x out = Some (r, n) /\ n = BASE64_ENCODE_OUT_SIZE (zlen x) /\ zget r n = Some 0 /\
    base64_decode (take (Z.to_nat n) r) buf = Some (r', zlen x) /\ take (length x) r' = x.
Proof.
  unfold BASE64_ENCODE_OUT_SIZE. intros Hx Hlx Ho Hb. pose proof (code_length (length x) x ltac:(lia)) as Hc.
  destruct (encode_spec x out Hx) as [r E]; [lia|]. eexists _, _.
  destruct (decode_groups (length x) x [] [] buf) as (y & r' & Ed); [done|done|done|simpl; lia|lia|].
  exists (x ++ 0 :: r'). split; [exact E|]. rewrite Nat2Z.id, take_app_length. split; [lia|]. split.
  - unfold zget. destruct (Z.leb_spec 0 (zlen (code x))); [|lia]. by rewrite Nat2Z.id, list_lookup_middle.
  - unfold base64_decode. cbn [app length] in Ed. rewrite Z.add_0_l in Ed. change (Z.of_nat 0) with 0 in Ed.
    rewrite Ed. cbn [mbind option_bind]. rewrite zset_app. cbn [mbind option_bind]. split; [done|apply take_app_length].
Qed.

Lemma base64_roundtrip_witness : exists r n r', base64_encode [0; 255; 16; 7] (replicate 9 1) = Some (r, n) /\
  n = 8 /\ zget r n = Some 0 /\ base64_decode (take (Z.to_nat n) r) (replicate 5 1) = Some (r', 4) /\ take 4 r' = [0; 255; 16; 7].
Proof.
  apply (base64_roundtrip [0; 255; 16; 7] (replicate 9 1) (replicate 5 1)); [repeat constructor; done|done..].
Defined.
