(* ===== verification/ShmChannel.v ===== *)
(** * The shared-memory message channel

    [struct Channel] of [src/core/channel.cc]: a ring of messages, each stored as
    a 4-byte length and its bytes, in a block of memory that has room for one
    message behind its nominal end.  A message starts before the end and may
    run over it; the next one then starts at 0.  To its user the channel is a
    bounded queue. *)

From S2P Require Import Prelude.

(** ** Definitions *)

Definition SW_CHAN_LOCK : Z := 2.

(** [struct Channel]; the notification pipe is not represented. *)
Record Channel := mkChannel {
  head : Z;
  tail : Z;
  size : Z;
  head_tag : Z;
  tail_tag : Z;
  num : Z;
  bytes : Z;
  flags : Z;
  maxlen : Z;
  mem : list Z;
}.

(** [Channel::make]; [memory] are the bytes the allocator gives for a request of
    that size, or nothing.  A failed [assert] has no result. *)
Definition make (sz max fl : Z) (memory : Z -> option (list Z)) : option (option Channel) :=
  if sz <? max then None else
  match memory (sz + max + 4) with
  | None => Some None
  | Some m => Some (Some (mkChannel 0 0 sz 0 0 0 0 fl (s32 max) m))
  end.

(** [Channel::empty] and [Channel::full] *)
Definition empty (c : Channel) : bool := num c =? 0.
Definition full (c : Channel) : bool :=
  (head c =? tail c) && negb (tail_tag c =? head_tag c) || (u64 (bytes c + 4 * num c) =? size c).

(** [Channel::in]: the channel and whether the message was stored *)
Definition in_ (c : Channel) (data : list Z) : option (Channel * bool) :=
  let data_length := zlen data in
  if maxlen c <? data_length then Some (c, false) else
  if full c then Some (c, false) else
  let msize := s32 (4 + data_length) in
  if (tail c <? head c) && (head c - tail c <? msize) then Some (c, false) else
  let item := tail c in
  let '(tail', tag') :=
    if tail c <? head c then (tail c + msize, tail_tag c)
    else if size c <=? tail c + msize then (0, 1 - tail_tag c)
    else (tail c + msize, tail_tag c) in
  m ← zblit (mem c) item (le_bytes 4 data_length);
  m ← zblit m (item + 4) data;
  Some (mkChannel (head c) tail' (size c) (head_tag c) tag' (s32 (num c + 1)) (u64 (bytes c + data_length))
    (flags c) (maxlen c) m, true).

(** The message at [head] *)
Definition item_length (c : Channel) : option Z :=
  b ← zsub (mem c) (head c) 4; Some (s32 (le_value b)).

(** [Channel::out] into a buffer of [buffer_length] bytes: the message, or
    nothing *)
Definition out (c : Channel) (buffer_length : Z) : option (Channel * option (list Z)) :=
  if empty c then Some (c, None) else
  len ← item_length c;
  if buffer_length <? len then Some (c, None) else
  d ← zsub (mem c) (head c + 4) len;
  let h := head c + u64 (len + 4) in
  let '(h, tag) := if size c <=? h then (0, 1 - head_tag c) else (h, head_tag c) in
  Some (mkChannel h (tail c) (size c) tag (tail_tag c) (s32 (num c - 1)) (u64 (bytes c - len)) (flags c) (maxlen c)
    (mem c), Some d).

(** [Channel::peek], [Channel::push] and [Channel::pop]; the lock is free *)
Definition peek (c : Channel) (buffer_length : Z) : option (option (list Z)) :=
  if Z.land (flags c) SW_CHAN_LOCK =? 0 then None else
  if empty c then Some None else
  len ← item_length c;
  if buffer_length <? len then Some None else
  d ← zsub (mem c) (head c + 4) len;
  Some (Some d).
Definition push (c : Channel) (data : list Z) : option (Channel * bool) :=
  if Z.land (flags c) SW_CHAN_LOCK =? 0 then None else in_ c data.
Definition pop (c : Channel) (buffer_length : Z) : option (Channel * option (list Z)) :=
  if Z.land (flags c) SW_CHAN_LOCK =? 0 then None else out c buffer_length.

(** [Channel::count] and [Channel::get_bytes] *)
Definition count (c : Channel) : Z := num c.
Definition get_bytes (c : Channel) : Z := bytes c.

(** ** The layout *)

(** The messages [q] lie one after the other from [a] to [e], and each but the
    end starts before [limit]. *)
Fixpoint layout (m : list Z) (limit a : Z) (q : list (list Z)) (e : Z) : Prop :=
  match q with
  | [] => a = e
  | d :: q => a < limit /\ zsub m a 4 = Some (le_bytes 4 (zlen d)) /\ zsub m (a + 4) (zlen d) = Some d /\
      layout m limit (a + 4 + zlen d) q e
  end.

Definition footprint (q : list (list Z)) : Z := foldr (fun d n => 4 + zlen d + n) 0 q.

(** The two shapes of the ring: in order, or with the tail wrapped around. *)
Definition ring (c : Channel) (q : list (list Z)) : Prop :=
  head_tag c = tail_tag c /\ tail c < size c /\ layout (mem c) (size c) (head c) q (tail c) \/
  head_tag c <> tail_tag c /\ tail c <= head c /\ exists q1 q2 e, q = q1 ++ q2 /\ head c < size c /\ size c <= e /\
    layout (mem c) (size c) (head c) q1 e /\ layout (mem c) (head c) 0 q2 (tail c).

Record chan_wf (c : Channel) (q : list (list Z)) : Prop := {
  cw_max : 0 <= maxlen c <= size c;
  cw_size : 0 < size c < 2 ^ 30;
  cw_mem : zlen (mem c) = size c + maxlen c + 4;
  cw_head : 0 <= head c < size c;
  cw_tail : 0 <= tail c;
  cw_tags : (head_tag c = 0 \/ head_tag c = 1) /\ (tail_tag c = 0 \/ tail_tag c = 1);
  cw_num : num c = zlen q;
  cw_bytes : bytes c + 4 * zlen q = footprint q;
  cw_len : Forall (fun d => zlen d <= maxlen c) q;
  cw_ring : ring c q;
}.

Lemma layout_end m limit a q e : layout m limit a q e -> e = a + footprint q.
Proof.
  revert a. induction q as [|d q IH]; intros a; simpl; [lia|]. intros (_ & _ & _ & Hl). apply IH in Hl. lia.
Qed.

Lemma footprint_bound q : 4 * zlen q <= footprint q.
Proof. induction q as [|d q IH]; simpl; lia. Qed.

Lemma footprint_app q1 q2 : footprint (q1 ++ q2) = footprint q1 + footprint q2.
Proof. induction q1 as [|d q1 IH]; simpl; lia. Qed.

Lemma layout_app m limit a q d e : layout m limit a q e -> e < limit ->
  zsub m e 4 = Some (le_bytes 4 (zlen d)) -> zsub m (e + 4) (zlen d) = Some d ->
  layout m limit a (q ++ [d]) (e + 4 + zlen d).
Proof.
  revert a. induction q as [|d' q IH]; intros a; simpl.
  - intros <- ? ? ?. done.
  - intros (? & ? & ? & Hl) ? ? ?. split_and!; try done. by apply IH.
Qed.

(** Writes outside of the messages do not matter. *)
Lemma layout_frame m m' limit a q e lo hi :
  layout m limit a q e -> e <= lo \/ hi <= a ->
  (forall off n, off + n <= lo \/ hi <= off -> zsub m' off n = zsub m off n) -> layout m' limit a q e.
Proof.
  revert a. induction q as [|d q IH]; intros a Hl Hor Hm; [done|]. pose proof (layout_end _ _ _ _ _ Hl) as He.
  simpl in *. pose proof (footprint_bound q). destruct Hl as (? & ? & ? & Hl). rewrite !Hm by lia.
  split_and!; try done. apply IH; [done|lia|done].
Qed.

Lemma write_item m item d : 0 <= item -> item + 4 + zlen d <= zlen m -> zlen d < 2 ^ 31 ->
  exists m1 m2, zblit m item (le_bytes 4 (zlen d)) = Some m1 /\ zblit m1 (item + 4) d = Some m2 /\
    length m2 = length m /\ zsub m2 item 4 = Some (le_bytes 4 (zlen d)) /\ zsub m2 (item + 4) (zlen d) = Some d /\
    forall off n, off + n <= item \/ item + 4 + zlen d <= off -> zsub m2 off n = zsub m off n.
Proof.
  intros Hi Hm Hd. pose proof (le_bytes_length 4 (zlen d)) as Hl.
  destruct (zblit_in_bounds m item (le_bytes 4 (zlen d))) as [m1 E1]; [lia|lia|]. exists m1.
  pose proof (zblit_length _ _ _ _ E1) as L1.
  destruct (zblit_in_bounds m1 (item + 4) d) as [m2 E2]; [lia|lia|]. exists m2.
  pose proof (zblit_length _ _ _ _ E2) as L2. pose proof (zsub_zblit _ _ _ _ E1) as R1. pose proof (zsub_zblit _ _ _ _ E2) as R2.
  rewrite Hl in R1. split_and!; try done; [congruence| |].
  - rewrite (zsub_zblit_ne _ _ _ _ item 4 E2) by lia. exact R1.
  - intros off n Hor. rewrite (zsub_zblit_ne _ _ _ _ off n E2), (zsub_zblit_ne _ _ _ _ off n E1) by lia. done.
Qed.

Lemma layout_limit m limit limit' a q e : limit <= limit' -> layout m limit a q e -> layout m limit' a q e.
Proof.
  intros Hl. revert a. induction q as [|d q IH]; intros a; simpl; [done|]. intros (? & ? & ? & ?).
  split_and!; [lia|done|done|]. by apply IH.
Qed.

(** The last message starts before the limit. *)
Lemma layout_over m limit a q e max : layout m limit a q e -> a < limit -> 0 <= max ->
  Forall (fun d => zlen d <= max) q -> e < limit + 4 + max.
Proof.
  intros Hl Ha Hm Hf. revert a Hl Ha. induction Hf as [|d q Hd Hf IH]; intros a Hl Ha; simpl in Hl; [lia|].
  destruct Hl as (_ & _ & _ & Hl). destruct q as [|d' q]; [cbn in Hl, Hd; lia|].
  apply (IH _ Hl). cbn in Hl. lia.
Qed.

Section channel.
Context {c : Channel} {q : list (list Z)} (Hwf : chan_wf c q).

Lemma ring_footprint : footprint q < size c + maxlen c + 4.
Proof.
  destruct Hwf as [Hmax Hsz Hmem Hh Ht Htag Hn Hb Hlen Hring].
  destruct Hring as [(_ & Htl & Hl)|(_ & Hth & q1 & q2 & e & -> & Hhs & He & Hl1 & Hl2)].
  - apply layout_end in Hl. lia.
  - rewrite footprint_app. apply Forall_app in Hlen as [Hlen1 _].
    assert (e < size c + 4 + maxlen c) by (eapply layout_over; [done|lia|lia|done]).
    apply layout_end in Hl1. apply layout_end in Hl2. lia.
Qed.

Lemma counters_small : fits 64 (bytes c + 4 * num c) /\ 0 <= num c < 2 ^ 30.
Proof.
  pose proof ring_footprint. pose proof (footprint_bound q). destruct Hwf. unfold fits. lia.
Qed.

(** Why a message is refused. *)
Lemma refused (d : list Z) : full c = true \/ (tail c <? head c) && (head c - tail c <? 4 + zlen d) = true ->
  size c < footprint q + 4 + zlen d.
Proof.
  intros Hor. destruct Hwf as [Hmax Hsz Hmem Hh Ht Htag Hn Hb Hlen Hring]. pose proof counters_small as [Hs _].
  unfold full in Hor. rewrite uN_small in Hor by done.
  rewrite orb_true_iff, !andb_true_iff, negb_true_iff, !Z.eqb_eq, Z.eqb_neq, !Z.ltb_lt in Hor.
  destruct Hring as [(Heq & Htl & Hl)|(_ & Hth & q1 & q2 & e & -> & Hhs & He & Hl1 & Hl2)].
  - apply layout_end in Hl. pose proof (footprint_bound q). destruct Hor as [[[? ?]|?]|[? ?]]; lia.
  - rewrite footprint_app in *. apply layout_end in Hl1. apply layout_end in Hl2.
    destruct Hor as [[[? ?]|?]|[? ?]]; lia.
Qed.

Lemma in_spec (d : list Z) : zlen d < 2 ^ 31 - 4 ->
  exists c' b, in_ c d = Some (c', b) /\
    if (b : bool) then chan_wf c' (q ++ [d]) /\ flags c' = flags c /\ size c' = size c /\ maxlen c' = maxlen c
    else c' = c /\ (maxlen c < zlen d \/ size c < footprint q + 4 + zlen d).
Proof.
  intros Hd. pose proof counters_small as [Hs Hn2]. pose proof ring_footprint as Hfp. unfold in_.
  rewrite sN_small by lia. destruct (Z.ltb_spec (maxlen c) (zlen d)) as [|Hdm].
  { exists c, false. split; [done|]. split; [done|]. by left. }
  destruct (full c) eqn:Hfull; [exists c, false; split; [done|]; split; [done|]; right; apply refused; by left|].
  destruct (_ && _) eqn:Hroom; [exists c, false; split; [done|]; split; [done|]; right; apply refused; by right|].
  destruct Hwf as [Hmax Hsz Hmem Hh Ht Htag Hn Hb Hlen Hring].
  assert (tail c < size c /\ (tail c < head c -> tail c + 4 + zlen d <= head c)) as [Hts Hfit].
  { split; [destruct Hring as [(_ & ? & _)|(_ & ? & _)]; lia|]. intros Hlt.
    rewrite (proj2 (Z.ltb_lt _ _) Hlt), andb_true_l in Hroom. apply Z.ltb_ge in Hroom. lia. }
  destruct (write_item (mem c) (tail c) d) as (m1 & m2 & E1 & E2 & Hlm & Hw1 & Hw2 & Hframe); [lia|lia|lia|].
  destruct (if tail c <? head c then _ else _) as [tail' tag'] eqn:Ett. rewrite E1. cbn [mbind option_bind]. rewrite E2.
  cbn [mbind option_bind]. eexists _, true. split; [done|]. split; [|done].
  pose proof (footprint_app q [d]) as Hfa. simpl in Hfa.
  assert (Forall (fun d => zlen d <= maxlen c) (q ++ [d])) as Hlen' by (apply Forall_app; split; [done|by constructor]).
  assert (length (q ++ [d]) = S (length q)) as Hlq by (rewrite length_app; simpl; lia).
  destruct Hring as [(Heq & Htl & Hl)|(Hneq & Hth & q1 & q2 & e & -> & Hhs & He & Hl1 & Hl2)].
  - pose proof (layout_end _ _ _ _ _ Hl) as He. pose proof (footprint_bound q).
    destruct (Z.ltb_spec (tail c) (head c)); [lia|].
    assert (layout m2 (size c) (head c) (q ++ [d]) (tail c + 4 + zlen d)) as Hl'.
    { apply layout_app; try done. eapply (layout_frame _ _ _ _ _ _ (tail c) (tail c + 4 + zlen d) Hl); [by left; apply Z.le_refl|]. exact Hframe. }
    destruct (Z.leb_spec (size c) (tail c + (4 + zlen d))); injection Ett as <- <-; split; cbn [maxlen size mem head tail head_tag tail_tag num bytes];
      try done; try lia; rewrite ?Hlq, ?sN_small, ?uN_small by (unfold fits in *; lia); try lia.
    + right. cbn [head_tag tail_tag tail head mem size]. split; [lia|]. split; [lia|]. exists (q ++ [d]), [], (tail c + 4 + zlen d).
      split_and!; [by rewrite app_nil_r|lia|lia|done|done].
    + left. cbn [head_tag tail_tag tail head mem size]. split_and!; [done|lia|]. replace (tail c + (4 + zlen d)) with (tail c + 4 + zlen d) by lia. done.
  - assert (tail c < head c) as Hlt.
    { unfold full in Hfull. apply orb_false_iff in Hfull as [Hf _]. destruct (Z.eqb_spec (head c) (tail c)); [|lia].
      destruct (Z.eqb_spec (tail_tag c) (head_tag c)); [congruence|done]. }
    rewrite (proj2 (Z.ltb_lt _ _) Hlt) in Ett. injection Ett as <- <-. specialize (Hfit Hlt).
    pose proof (footprint_bound (q1 ++ q2)).
    split; cbn [maxlen size mem head tail head_tag tail_tag num bytes];
      try done; try lia; rewrite ?Hlq, ?sN_small, ?uN_small by (unfold fits in *; lia); try lia.
    right. cbn [head_tag tail_tag tail head mem size]. split; [done|]. split; [lia|]. exists q1, (q2 ++ [d]), e.
    split_and!; [by rewrite app_assoc|done|done| |].
    + eapply (layout_frame _ _ _ _ _ _ (tail c) (head c) Hl1); [by right; apply Z.le_refl|]. intros off n ?. apply Hframe. lia.
    + replace (tail c + (4 + zlen d)) with (tail c + 4 + zlen d) by lia. apply layout_app; try done.
      eapply (layout_frame _ _ _ _ _ _ (tail c) (head c) Hl2); [by left; apply Z.le_refl|]. intros off n ?. apply Hframe. lia.
Qed.

(** The first message. *)
Lemma item_spec d q' : q = d :: q' -> item_length c = Some (zlen d) /\ zsub (mem c) (head c + 4) (zlen d) = Some d.
Proof.
  intros ->. destruct Hwf as [Hmax Hsz Hmem Hh Ht Htag Hn Hb Hlen Hring]. apply Forall_cons in Hlen as [Hd _].
  assert (zsub (mem c) (head c) 4 = Some (le_bytes 4 (zlen d)) /\ zsub (mem c) (head c + 4) (zlen d) = Some d) as [E1 E2].
  { destruct Hring as [(_ & _ & (_ & ? & ? & _))|(_ & _ & q1 & q2 & e & Eq & ? & ? & Hl1 & _)]; [done|].
    destruct q1 as [|d1 q1]; [simpl in Hl1; lia|]. injection Eq as <- _. by destruct Hl1 as (_ & ? & ? & _). }
  split; [|done]. unfold item_length. rewrite E1. cbn [mbind option_bind].
  change (256 ^ Z.of_nat 4) with (2 ^ 32) in *. rewrite le_value_bytes by (change (256 ^ Z.of_nat 4) with (2 ^ 32); lia).
  by rewrite sN_small by lia.
Qed.

Lemma out_spec n :
  match q with
  | [] => out c n = Some (c, None)
  | d :: q' => if n <? zlen d then out c n = Some (c, None)
      else exists c', out c n = Some (c', Some d) /\ chan_wf c' q' /\ flags c' = flags c /\ size c' = size c /\
        maxlen c' = maxlen c
  end.
Proof.
  pose proof counters_small as [Hs Hn2]. pose proof ring_footprint as Hfp.
  pose proof item_spec as Hitem. unfold out, empty. destruct Hwf as [Hmax Hsz Hmem Hh Ht Htag Hn Hb Hlen Hring].
  rewrite Hn. destruct q as [|d q'] eqn:Eq; [done|]. destruct (Hitem d q' eq_refl) as [El Ed]. clear Hitem.
  destruct (Z.eqb_spec (zlen (d :: q')) 0); [simpl in *; lia|]. rewrite El. cbn [mbind option_bind].
  destruct (Z.ltb_spec n (zlen d)) as [|Hnd]; [done|]. rewrite Ed. cbn [mbind option_bind].
  apply Forall_cons in Hlen as [Hd Hlen]. pose proof (footprint_bound q'). cbn [footprint foldr] in Hb, Hfp. fold (footprint q') in *.
  rewrite (uN_small 64 (zlen d + 4)) by (unfold fits; lia).
  destruct (if size c <=? _ then _ else _) as [h tag] eqn:Eh.
  eexists. split; [done|]. split; [|done]. cbn [length] in *.
  assert (u64 (bytes c - zlen d) = bytes c - zlen d) as Eb by (apply uN_small; unfold fits; lia).
  destruct Hring as [(Heq & Htl & (_ & _ & _ & Hl))|(Hneq & Hth & q1 & q2 & e & Eqq & Hhs & He & Hl1 & Hl2)].
  - pose proof (layout_end _ _ _ _ _ Hl). destruct (Z.leb_spec (size c) (head c + (zlen d + 4))); [lia|]. injection Eh as <- <-.
    split; cbn [maxlen size mem head tail head_tag tail_tag num bytes]; try done; try lia; [by rewrite sN_small; lia|].
    left. split_and!; [done|done|]. cbn [maxlen size mem head tail]. by replace (head c + (zlen d + 4)) with (head c + 4 + zlen d) by lia.
  - destruct q1 as [|d1 q1]; [simpl in Hl1; lia|]. injection Eqq as <- ->. destruct Hl1 as (_ & _ & _ & Hl1).
    pose proof (layout_end _ _ _ _ _ Hl1) as He1. pose proof (layout_end _ _ _ _ _ Hl2) as He2.
    pose proof (footprint_bound q1). pose proof (footprint_bound q2).
    destruct (Z.leb_spec (size c) (head c + (zlen d + 4))) as [Hw|Hw]; injection Eh as <- <-;
      (split; cbn [maxlen size mem head tail head_tag tail_tag num bytes]; try done; try lia; [by rewrite sN_small; lia|]).
    + destruct q1 as [|d2 q1]; [|simpl in Hl1; lia]. left. cbn [maxlen size mem head tail head_tag tail_tag]. split_and!; [lia|lia|].
      eapply layout_limit; [|exact Hl2]. lia.
    + right. cbn [maxlen size mem head tail head_tag tail_tag]. split; [done|]. split; [lia|]. exists q1, q2, e.
      replace (head c + (zlen d + 4)) with (head c + 4 + zlen d) in * by lia.
      split_and!; [done|lia|done|done|]. eapply layout_limit; [|exact Hl2]. lia.
Qed.
End channel.

(** ** The queue *)

Inductive chan_op := Push (d : list Z) | Pop (n : Z) | Peek (n : Z).
Inductive chan_res := Pushed (ok : bool) | Popped (d : option (list Z)).

Definition chan_step (c : Channel) (o : chan_op) : option (Channel * chan_res) :=
  match o with
  | Push d => '(c, b) ← push c d; Some (c, Pushed b)
  | Pop n => '(c, r) ← pop c n; Some (c, Popped r)
  | Peek n => r ← peek c n; Some (c, Popped r)
  end.
Fixpoint chan_run (c : Channel) (ops : list chan_op) : option (Channel * list chan_res) :=
  match ops with
  | [] => Some (c, [])
  | o :: ops => '(c, r) ← chan_step c o; '(c, rs) ← chan_run c ops; Some (c, r :: rs)
  end.

(** A queue of messages that refuses a message that is too long or that does not
    fit, and does not hand out a message into a buffer that is too small.  The
    last message may run over the end of the memory. *)
Section queue.
Context (capacity max : Z).

Inductive queue_step : list (list Z) -> chan_op -> chan_res -> list (list Z) -> Prop :=
  | queue_push q d : zlen d <= max -> footprint (q ++ [d]) < capacity + max + 4 ->
      queue_step q (Push d) (Pushed true) (q ++ [d])
  | queue_refuse q d : max < zlen d \/ capacity < footprint q + 4 + zlen d -> queue_step q (Push d) (Pushed false) q
  | queue_pop q d n : zlen d <= n -> queue_step (d :: q) (Pop n) (Popped (Some d)) q
  | queue_peek q d n : zlen d <= n -> queue_step (d :: q) (Peek n) (Popped (Some d)) (d :: q)
  | queue_small q d n o : n < zlen d -> o = Pop n \/ o = Peek n -> queue_step (d :: q) o (Popped None) (d :: q)
  | queue_empty n o : o = Pop n \/ o = Peek n -> queue_step [] o (Popped None) [].

Inductive queue_run : list (list Z) -> list chan_op -> list chan_res -> list (list Z) -> Prop :=
  | queue_nil q : queue_run q [] [] q
  | queue_cons q q1 q2 o r ops rs : queue_step q o r q1 -> queue_run q1 ops rs q2 ->
      queue_run q (o :: ops) (r :: rs) q2.
End queue.

Definition op_ok (o : chan_op) : Prop := match o with Push d => zlen d < 2 ^ 31 - 4 | _ => True end.

Lemma make_wf sz max fl memory m : 0 <= max <= sz -> 0 < sz < 2 ^ 30 -> memory (sz + max + 4) = Some m ->
  zlen m = sz + max + 4 ->
  exists c, make sz max fl memory = Some (Some c) /\ chan_wf c [] /\ flags c = fl /\ size c = sz /\ maxlen c = max.
Proof.
  intros Hm Hs E Hl. unfold make. destruct (Z.ltb_spec sz max); [lia|]. rewrite E, sN_small by lia.
  eexists. split; [done|]. split; [|done]. split; simpl; try done; try lia. left. simpl. lia.
Qed.

Lemma chan_step_ok c q o : chan_wf c q -> Z.land (flags c) SW_CHAN_LOCK <> 0 -> op_ok o ->
  exists c' r q', chan_step c o = Some (c', r) /\ queue_step (size c) (maxlen c) q o r q' /\ chan_wf c' q' /\
    flags c' = flags c /\ size c' = size c /\ maxlen c' = maxlen c.
Proof.
  intros Hwf Hlock Hok. apply Z.eqb_neq in Hlock. destruct o as [d|n|n]; simpl; unfold push, pop, peek; rewrite Hlock.
  - destruct (in_spec Hwf d Hok) as (c' & b & -> & Hb). cbn [mbind option_bind]. destruct b.
    + destruct Hb as (Hwf' & ? & Es & Em). eexists _, _, _. split; [done|]. split; [|done].
      pose proof (cw_len _ _ Hwf') as [_ [Hd _]%Forall_cons]%Forall_app. pose proof (ring_footprint Hwf').
      rewrite Es, Em in *. by constructor.
    + destruct Hb as [-> ?]. eexists _, _, _. split; [done|]. split; [by constructor|done].
  - pose proof (out_spec Hwf n) as Ho. destruct q as [|d q].
    + rewrite Ho. eexists _, _, _. split; [done|]. split; [apply (queue_empty _ _ n); auto|done].
    + destruct (Z.ltb_spec n (zlen d)).
      * rewrite Ho. eexists _, _, _. split; [done|]. split; [apply (queue_small _ _ _ _ n); auto|done].
      * destruct Ho as (c' & -> & ?). eexists _, _, _. split; [done|]. split; [by constructor|done].
  - pose proof (item_spec Hwf) as Hitem. unfold empty. rewrite (cw_num _ _ Hwf). destruct q as [|d q].
    + eexists _, _, _. split; [done|]. split; [apply (queue_empty _ _ n); auto|done].
    + destruct (Hitem d q eq_refl) as [-> Ed]. destruct (Z.eqb_spec (zlen (d :: q)) 0); [simpl in *; lia|].
      cbn [mbind option_bind]. destruct (Z.ltb_spec n (zlen d)).
      * eexists _, _, _. split; [done|]. split; [apply (queue_small _ _ _ _ n); auto|done].
      * rewrite Ed. eexists _, _, _. split; [done|]. split; [by constructor|done].
Qed.

(** C11: a new channel is a bounded FIFO queue: any sequence of pushes, pops and peeks
    is memory safe, messages come out unchanged and in order, a push is refused only
    when the message is too long or does not fit next to the stored ones, and the
    counters are those of the queue.  Conditions: the channel has a lock, its size is
    below 1 GB and a message below 2 GB. *)
Theorem channel_refines sz max fl memory m ops :
  0 <= max <= sz -> 0 < sz < 2 ^ 30 -> memory (sz + max + 4) = Some m -> zlen m = sz + max + 4 ->
  Z.land fl SW_CHAN_LOCK <> 0 -> Forall op_ok ops ->
  exists c c' rs q, make sz max fl memory = Some (Some c) /\ chan_run c ops = Some (c', rs) /\
    queue_run sz max [] ops rs q /\ count c' = zlen q /\ get_bytes c' = zlen (concat q).
Proof.
  intros Hm Hs E Hl Hlock Hops. destruct (make_wf sz max fl memory m Hm Hs E Hl) as (c & Ec & Hwf & <- & <- & <-).
  exists c. enough (forall c q0, chan_wf c q0 -> Z.land (flags c) SW_CHAN_LOCK <> 0 -> exists c' rs q,
    chan_run c ops = Some (c', rs) /\ queue_run (size c) (maxlen c) q0 ops rs q /\ chan_wf c' q) as Hrun.
  { destruct (Hrun c [] Hwf Hlock) as (c' & rs & q & Er & Hq & Hwf'). exists c', rs, q. split_and!; [done..| |].
    - apply Hwf'.
    - pose proof (cw_bytes _ _ Hwf') as Hb. unfold get_bytes.
      assert (footprint q = 4 * zlen q + zlen (concat q)); [|lia].
      clear. induction q as [|d q IH]; [done|]. simpl. rewrite length_app. lia. }
  clear - Hops. induction Hops as [|o ops Ho Hops IH]; intros c q0 Hwf Hlock.
  { exists c, [], q0. split_and!; [done|constructor|done]. }
  destruct (chan_step_ok c q0 o Hwf Hlock Ho) as (c1 & r & q1 & E1 & Hq1 & Hwf1 & Ef & Es & Em).
  destruct (IH c1 q1 Hwf1) as (c' & rs & q & Er & Hq & Hwf'); [congruence|]. rewrite Es, Em in Hq.
  exists c', (r :: rs), q. simpl. rewrite E1. cbn [mbind option_bind]. rewrite Er. split_and!; [done| |done]. by econstructor.
Qed.

Definition demo_ops : list chan_op := [Push [1; 2; 3]; Push [4]; Pop 2; Pop 64; Push [5; 6]; Peek 64; Pop 64; Pop 64; Pop 64].

Lemma channel_refines_witness : exists c c' rs q,
  make 16 8 SW_CHAN_LOCK (fun n => Some (replicate (Z.to_nat n) 0)) = Some (Some c) /\
  chan_run c demo_ops = Some (c', rs) /\ queue_run 16 8 [] demo_ops rs q /\ count c' = zlen q /\ get_bytes c' = zlen (concat q).
Proof.
  apply (channel_refines 16 8 SW_CHAN_LOCK (fun n => Some (replicate (Z.to_nat n) 0)) (replicate 28 0) demo_ops).
  - lia.
  - lia.
  - reflexivity.
  - reflexivity.
  - vm_compute. discriminate.
  - repeat constructor; vm_compute; reflexivity.
Defined.

(** The answers to the example: the third message wraps around. *)
Lemma demo_run :
  (c ← make 16 8 SW_CHAN_LOCK (fun n => Some (replicate (Z.to_nat n) 0)); c ← c; r ← chan_run c demo_ops; Some r.2) =
  Some [Pushed true; Pushed true; Popped None; Popped (Some [1; 2; 3]); Pushed true; Popped (Some [4]); Popped (Some [4]);
        Popped (Some [5; 6]); Popped None].
Proof. vm_compute. reflexivity. Qed.
