(* ===== verification/WebSocket.v ===== *)
(** * WebSocket frames

    [src/protocol/websocket.cc] and [include/swoole_websocket.h]: the length of a
    packet from its first bytes, masking in blocks of eight bytes, encoding and
    decoding of frames, and the reassembly of fragmented messages of a connection.
    Received data and buffers are lists of bytes, addressed by offset; an access
    outside of them has no result.  Numbers are in little-endian order in memory
    and in network order on the wire. *)

From S2P Require Import Prelude.

(** ** Definitions *)

Definition SW_WEBSOCKET_HEADER_LEN : Z := 2.
Definition SW_WEBSOCKET_MASK_LEN : Z := 4.
Definition SW_WEBSOCKET_EXT16_MAX_LEN : Z := 65535.
Definition SW_WEBSOCKET_EXT16_LENGTH : Z := 126.
Definition SW_WEBSOCKET_EXT64_LENGTH : Z := 127.
Definition SW_WEBSOCKET_CONTROL_FRAME_PAYLOAD_MAX_LEN : Z := 125.
Definition SW_WEBSOCKET_CLOSE_CODE_LEN : Z := 2.
Definition SW_WEBSOCKET_CLOSE_REASON_MAX_LEN : Z := 123.
(** The constant mask key, "258E" *)
Definition SW_WEBSOCKET_MASK_DATA : list Z := [50; 53; 56; 69].

Definition FLAG_FIN : Z := 1.
Definition FLAG_RSV1 : Z := 4.
Definition FLAG_RSV2 : Z := 8.
Definition FLAG_RSV3 : Z := 16.
Definition FLAG_MASK : Z := 32.
Definition FLAG_ENCODE_HEADER_ONLY : Z := 64.

Definition OPCODE_CONTINUATION : Z := 0.
Definition OPCODE_TEXT : Z := 1.
Definition OPCODE_BINARY : Z := 2.
Definition OPCODE_CLOSE : Z := 8.
Definition OPCODE_PING : Z := 9.
Definition OPCODE_PONG : Z := 10.

(** [load_uint16], [load_uint32] and [load_uint64] *)
Definition load (n : nat) (buf : list Z) (off : Z) : option Z := b ← zsub buf off (Z.of_nat n); Some (le_value b).
(** [ntohs], [swoole_ntoh64] and their inverses *)
Definition ntoh (n : nat) (z : Z) : Z := le_value (rev (le_bytes n z)).

(** The bits of a byte; for them it does not matter that [char] is signed. *)
Definition bit (b n : Z) : bool := Z.testbit b n.

(** [get_package_length_impl]: the header length and the packet length, which is
    0 when more data is needed and -1 when the length is not valid *)
Definition get_package_length_impl (buf : list Z) (buf_size : Z) : option (Z * Z) :=
  if buf_size <? SW_WEBSOCKET_HEADER_LEN then Some (0, 0) else
  b1 ← zget buf 1;
  let mask := bit b1 7 in
  let payload_length := Z.land b1 127 in
  let header_len := SW_WEBSOCKET_HEADER_LEN in
  let finish (header_len payload_length : Z) :=
    let header_len := if mask then header_len + SW_WEBSOCKET_MASK_LEN else header_len in
    if mask && (buf_size <? header_len) then Some (header_len, 0) else
    if s64 payload_length <? 0 then Some (header_len, -1) else
    Some (header_len, s64 (header_len + payload_length)) in
  if payload_length =? SW_WEBSOCKET_EXT16_LENGTH then
    let header_len := header_len + 2 in
    if buf_size <? header_len then Some (header_len, 0) else
    v ← load 2 buf 2; finish header_len (ntoh 2 v)
  else if payload_length =? SW_WEBSOCKET_EXT64_LENGTH then
    let header_len := header_len + 8 in
    if buf_size <? header_len then Some (header_len, 0) else
    v ← load 8 buf 2; finish header_len (ntoh 8 v)
  else finish header_len payload_length.

(** [mask(data + off, len, mask_key)]: blocks of eight bytes, then the rest *)
Fixpoint mask_blocks (n : nat) (data : list Z) (off key64 : Z) : option (list Z) :=
  match n with
  | O => Some data
  | S n =>
      block ← load 8 data off;
      data ← zblit data off (le_bytes 8 (Z.lxor block key64));
      mask_blocks n data (off + 8) key64
  end.
Fixpoint mask_rest (n : nat) (data : list Z) (off i : Z) (mask_key : list Z) : option (list Z) :=
  match n with
  | O => Some data
  | S n =>
      b ← zget data (off + i);
      k ← zget mask_key (i mod SW_WEBSOCKET_MASK_LEN);
      data ← zset data (off + i) (Z.lxor b k);
      mask_rest n data off (i + 1) mask_key
  end.
Definition mask (data : list Z) (off len : Z) (mask_key : list Z) : option (list Z) :=
  let n := len / 8 in
  mask_value ← load 4 mask_key 0;
  let mask_key64 := Z.lor (Z.shiftl mask_value 32) mask_value in
  data ← mask_blocks (Z.to_nat n) data off mask_key64;
  mask_rest (Z.to_nat (len - n * 8)) data off (n * 8) mask_key.

(** [struct Header] and [struct Frame]; [payload] is an offset into the data *)
Record Header := mkHeader { FIN : bool; RSV1 : bool; RSV2 : bool; RSV3 : bool; OPCODE : Z; MASK : bool; LENGTH : Z }.
Record Frame := mkFrame {
  header : Header;
  mask_key : list Z;
  header_length : Z;
  payload_length : Z;
  payload : option Z;
}.

(** The two bytes of a header, and back *)
Definition header_bytes (h : Header) : list Z :=
  [OPCODE h mod 16 + 16 * Z.b2z (RSV3 h) + 32 * Z.b2z (RSV2 h) + 64 * Z.b2z (RSV1 h) + 128 * Z.b2z (FIN h);
   LENGTH h mod 128 + 128 * Z.b2z (MASK h)].
Definition parse_header (b0 b1 : Z) : Header :=
  mkHeader (bit b0 7) (bit b0 6) (bit b0 5) (bit b0 4) (Z.land b0 15) (bit b1 7) (Z.land b1 127).

(** [is_control_frame] *)
Definition is_control_frame (opcode : Z) : bool :=
  (opcode =? OPCODE_CLOSE) || (opcode =? OPCODE_PING) || (opcode =? OPCODE_PONG).

Definition has (flags f : Z) : bool := negb (Z.land flags f =? 0).

(** [encode]: the buffer and the result; what [String::append] does is to append *)
Definition encode (buffer data : list Z) (opcode flags : Z) : option (list Z * bool) :=
  let length := zlen data in
  if is_control_frame opcode && (negb (has flags FLAG_FIN) || (SW_WEBSOCKET_CONTROL_FRAME_PAYLOAD_MAX_LEN <? length))
  then Some (buffer, false) else
  let h len := mkHeader (has flags FLAG_FIN) (has flags FLAG_RSV1) false false opcode (has flags FLAG_MASK) len in
  let frame_header :=
    if length <? SW_WEBSOCKET_EXT16_LENGTH then header_bytes (h length)
    else if length <=? SW_WEBSOCKET_EXT16_MAX_LEN then
      header_bytes (h SW_WEBSOCKET_EXT16_LENGTH) ++ le_bytes 2 (ntoh 2 (u16 length))
    else header_bytes (h SW_WEBSOCKET_EXT64_LENGTH) ++ le_bytes 8 (ntoh 8 length) in
  let buffer := buffer ++ frame_header in
  if has flags FLAG_MASK then
    let buffer := buffer ++ SW_WEBSOCKET_MASK_DATA in
    if has flags FLAG_ENCODE_HEADER_ONLY then Some (buffer, true) else
    if 0 <? length then
      let offset := zlen buffer in
      buffer ← mask (buffer ++ data) offset length SW_WEBSOCKET_MASK_DATA;
      Some (buffer, true)
    else Some (buffer, true)
  else if (0 <? length) && negb (has flags FLAG_ENCODE_HEADER_ONLY) then Some (buffer ++ data, true)
  else Some (buffer, true).

(** [parse_frame]: the frame, or nothing where the code returns false *)
Definition parse_frame (data : list Z) (length : Z) : option (option Frame) :=
  b0 ← zget data 0;
  b1 ← zget data 1;
  let h := parse_header b0 b1 in
  '(header_len, total_length) ← get_package_length_impl data (u32 length);
  if (total_length <=? 0) || (length <? total_length) then Some None else
  let payload_length := total_length - header_len in
  if is_control_frame (OPCODE h) &&
     (RSV1 h || negb (FIN h) || (SW_WEBSOCKET_CONTROL_FRAME_PAYLOAD_MAX_LEN <? payload_length)) then Some None else
  if payload_length =? 0 then Some (Some (mkFrame h [] (u16 header_len) 0 None)) else
  key ← (if MASK h then zsub data (header_len - SW_WEBSOCKET_MASK_LEN) SW_WEBSOCKET_MASK_LEN else Some []);
  Some (Some (mkFrame h key (u16 header_len) payload_length (Some (u16 header_len)))).

(** [decode]: the data with the payload unmasked in place, and the frame *)
Definition decode (data : list Z) (length : Z) : option (list Z * option Frame) :=
  f ← parse_frame data length;
  match f with
  | None => Some (data, None)
  | Some f =>
      if MASK (header f) && (0 <? payload_length f) then
        p ← payload f;
        data ← mask data p (payload_length f) (mask_key f);
        Some (data, Some f)
      else Some (data, Some f)
  end.

(** [pack_close_frame] *)
Definition pack_close_frame (buffer : list Z) (code : Z) (reason : list Z) (flags : Z) : option (list Z * bool) :=
  if SW_WEBSOCKET_CLOSE_REASON_MAX_LEN <? zlen reason then Some (buffer, false) else
  encode buffer ([u8 (Z.shiftr code 8); u8 code] ++ reason) OPCODE_CLOSE (Z.lor flags FLAG_FIN).
(** [parse_close_code] *)
Definition parse_close_code (data : list Z) (off : Z) : option Z :=
  b0 ← zget data off; b1 ← zget data (off + 1); Some (Z.lor (Z.shiftl b0 8) b1).

(** [Frame::get_flags] and [get_ext_flags] *)
Definition get_flags (h : Header) : Z :=
  let add (flags : Z) (b : bool) (f : Z) := if b then Z.lor flags f else flags in
  add (add (add (add (add 0 (FIN h) FLAG_FIN) (RSV1 h) FLAG_RSV1) (RSV2 h) FLAG_RSV2) (RSV3 h) FLAG_RSV3) (MASK h) FLAG_MASK.
Definition get_ext_flags (opcode flags : Z) : Z := u16 (u16 (Z.shiftl opcode 8) + flags).

(** ** The frames of a connection *)

Definition STATUS_CLOSING : Z := 4.

(** The connection: the buffer of a fragmented message with its flags, and the
    status *)
Record Conn := mkConn { websocket_buffer : option (list Z * Z); websocket_status : Z }.

(** What [dispatch_frame] does: messages with their flags for the workers, and
    frames that are sent *)
Inductive event := Dispatch (ext_flags : Z) (data : list Z) | Send (frame : list Z).

(** [dispatch_frame]: the connection, the events, and whether it returns SW_OK *)
Definition dispatch_frame (package_max_length : Z) (conn : Conn) (data : list Z) : option (Conn * list event * bool) :=
  let length := zlen data in
  '(data, f) ← decode data length;
  match f with
  | None => Some (conn, [], false)
  | Some ws =>
      let h := header ws in
      let offset := length - payload_length ws in
      let ext_flags := get_ext_flags (OPCODE h) (get_flags h) in
      if OPCODE h =? OPCODE_CONTINUATION then
        match websocket_buffer conn with
        | None => Some (conn, [], false)
        | Some (buf, flags) =>
            let frame_length := s32 (length - offset) in
            if package_max_length <? zlen buf + frame_length then Some (conn, [], false) else
            part ← zsub data offset frame_length;
            let buf := buf ++ part in
            if FIN h then Some (mkConn None (websocket_status conn), [Dispatch (u16 (Z.lor flags FLAG_FIN)) buf], true)
            else Some (mkConn (Some (buf, flags)) (websocket_status conn), [], true)
        end
      else if (OPCODE h =? OPCODE_TEXT) || (OPCODE h =? OPCODE_BINARY) then
        part ← zsub data offset (length - offset);
        if negb (FIN h) then
          match websocket_buffer conn with
          | Some _ => Some (conn, [], false)
          | None => Some (mkConn (Some (part, ext_flags)) (websocket_status conn), [], true)
          end
        else Some (conn, [Dispatch ext_flags part], true)
      else if (OPCODE h =? OPCODE_PING) || (OPCODE h =? OPCODE_PONG) then
        if SW_WEBSOCKET_CONTROL_FRAME_PAYLOAD_MAX_LEN <? payload_length ws then Some (conn, [], false) else
        part ← (if payload_length ws =? 0 then Some []
                else let offset := if MASK h then SW_WEBSOCKET_HEADER_LEN + SW_WEBSOCKET_MASK_LEN else SW_WEBSOCKET_HEADER_LEN in
                     zsub data offset (length - offset));
        Some (conn, [Dispatch ext_flags part], true)
      else if OPCODE h =? OPCODE_CLOSE then
        if SW_WEBSOCKET_CONTROL_FRAME_PAYLOAD_MAX_LEN <? payload_length ws then Some (conn, [], false) else
        if negb (websocket_status conn =? STATUS_CLOSING) then
          part ← zsub data offset (length - offset);
          Some (conn, [Dispatch ext_flags part; Send ([136; payload_length ws] ++ part)], false)
        else Some (mkConn (websocket_buffer conn) 0, [], false)
      else Some (conn, [], true)
  end.

(** ** Masking *)

Definition key_at (key : list Z) (i : Z) : Z := default 0 (zget key (i mod SW_WEBSOCKET_MASK_LEN)).

(** The specification: byte [i] is combined with byte [i mod 4] of the key. *)
Fixpoint masked (key : list Z) (i : Z) (p : list Z) : list Z :=
  match p with [] => [] | b :: p => Z.lxor b (key_at key i) :: masked key (i + 1) p end.

Lemma masked_length key i p : length (masked key i p) = length p.
Proof. revert i. induction p as [|b p IH]; intros i; simpl; [done|]. by rewrite IH. Qed.

Lemma masked_app key i p1 p2 : masked key i (p1 ++ p2) = masked key i p1 ++ masked key (i + zlen p1) p2.
Proof.
  revert i. induction p1 as [|b p1 IH]; intros i; simpl; [by rewrite Z.add_0_r|]. rewrite IH. do 3 f_equal. lia.
Qed.

Lemma masked_shift key i k p : masked key (i + SW_WEBSOCKET_MASK_LEN * k) p = masked key i p.
Proof.
  revert i. induction p as [|b p IH]; intros i; [done|]. simpl. unfold key_at.
  replace ((i + SW_WEBSOCKET_MASK_LEN * k) mod SW_WEBSOCKET_MASK_LEN) with (i mod SW_WEBSOCKET_MASK_LEN).
  2: { rewrite Z.mul_comm, Z.mod_add; done. }
  f_equal. rewrite <- (IH (i + 1)). f_equal. lia.
Qed.

Lemma masked_involutive key i p : masked key i (masked key i p) = p.
Proof.
  revert i. induction p as [|b p IH]; intros i; simpl; [done|]. by rewrite IH, Z.lxor_assoc, Z.lxor_nilpotent, Z.lxor_0_r.
Qed.

Lemma masked_byte key i p : Forall byte key -> Forall byte p -> Forall byte (masked key i p).
Proof.
  intros Hk Hp. revert i. induction Hp as [|b p Hb _ IH]; intros i; constructor; [|apply IH].
  apply byte_lxor; [done|]. unfold key_at. destruct (zget _ _) eqn:E; [exact (Forall_zget _ _ _ _ Hk E)|done].
Qed.

Lemma load_Some n buf off b : zsub buf off (Z.of_nat n) = Some b -> load n buf off = Some (le_value b).
Proof. intros E. unfold load. by rewrite E. Qed.

Section mask.
Context (key : list Z) (Hk : length key = 4%nat) (Hkb : Forall byte key).

(** A block of eight bytes at once. *)
Lemma masked_block b : length b = 8%nat -> Forall byte b ->
  le_bytes 8 (Z.lxor (le_value b) (le_value (key ++ key))) = masked key 0 b.
Proof.
  intros Hb Hbb. rewrite le_value_lxor; [|done|by apply Forall_app|rewrite length_app; lia].
  rewrite le_bytes_value.
  - destruct key as [|k0 [|k1 [|k2 [|k3 [|]]]]]; try done. destruct b as [|b0 [|b1 [|b2 [|b3 [|b4 [|b5 [|b6 [|b7 [|]]]]]]]]]; done.
  - clear - Hbb Hkb. generalize (Forall_app_2 _ _ _ Hkb Hkb). generalize (key ++ key). intros ys Hys.
    revert ys Hys. induction Hbb as [|x xs Hx _ IH]; intros [|y ys] Hys; try constructor.
    + apply Forall_cons in Hys as [Hy _]. by apply byte_lxor.
    + apply Forall_cons in Hys as [_ Hys]. by apply IH.
  - rewrite length_zip_with, length_app. lia.
Qed.

Lemma mask_blocks_spec n data off p : zsub data off (Z.of_nat n * 8) = Some p -> Forall byte p ->
  exists data', mask_blocks n data off (le_value (key ++ key)) = Some data' /\ zblit data off (masked key 0 p) = Some data'.
Proof.
  revert data off p. induction n as [|n IH]; intros data off p Hp Hb.
  - exists data. split; [done|]. pose proof (zsub_length _ _ _ _ Hp). destruct p; [|simpl in *; lia].
    apply zsub_Some in Hp as (? & _ & ? & _). apply zblit_Some. simpl. split_and!; [lia|lia|]. by rewrite Nat.add_0_r, take_drop.
  - destruct (zsub_split data off 8 (Z.of_nat n * 8) p) as (p1 & p2 & -> & H1 & H2); [lia|lia|by rewrite <- Hp; f_equal; lia|].
    apply Forall_app in Hb as [Hb1 Hb2]. pose proof (zsub_length _ _ _ _ H1) as L1. cbn [mask_blocks].
    rewrite (load_Some 8 data off p1) by exact H1. cbn [mbind option_bind]. rewrite masked_block by (done || lia).
    pose proof (masked_length key 0 p1) as Lm. apply zsub_Some in H1 as (? & _ & ? & _).
    destruct (zblit_in_bounds data off (masked key 0 p1)) as [d1 E1]; [lia|lia|]. rewrite E1. cbn [mbind option_bind].
    destruct (IH d1 (off + 8) p2) as (d2 & -> & E2); [|done|].
    { rewrite (zsub_zblit_ne _ _ _ _ _ _ E1) by lia. exact H2. }
    exists d2. split; [done|]. rewrite masked_app, L1. change 8 with (SW_WEBSOCKET_MASK_LEN * 2). rewrite masked_shift.
    eapply zblit_zblit; [done|]. rewrite Lm, L1. exact E2.
Qed.

Lemma mask_rest_spec n data off i p : 0 <= i -> zsub data (off + i) (Z.of_nat n) = Some p ->
  exists data', mask_rest n data off i key = Some data' /\ zblit data (off + i) (masked key i p) = Some data'.
Proof.
  revert data i p. induction n as [|n IH]; intros data i p Hi Hp.
  - exists data. split; [done|]. pose proof (zsub_length _ _ _ _ Hp). destruct p; [|simpl in *; lia].
    apply zsub_Some in Hp as (? & _ & ? & _). apply zblit_Some. simpl. split_and!; [lia|lia|]. by rewrite Nat.add_0_r, take_drop.
  - destruct (zsub_split data (off + i) 1 (Z.of_nat n) p) as (p1 & p2 & -> & H1 & H2); [lia|lia|by rewrite <- Hp; f_equal; lia|].
    pose proof (zsub_length _ _ _ _ H1) as L1. destruct p1 as [|b [|]]; simpl in L1; try lia.
    pose proof H1 as (? & _ & ? & _)%zsub_Some. cbn [mask_rest].
    destruct (zget_in_bounds data (off + i)) as [b' Eb]; [lia|]. rewrite Eb. cbn [mbind option_bind].
    assert (b' = b) as -> by (eapply zsub_one; done).
    destruct (zget_in_bounds key (i mod SW_WEBSOCKET_MASK_LEN)) as [k Ek].
    { rewrite Hk. apply Z.mod_pos_bound. done. }
    rewrite Ek. cbn [mbind option_bind]. rewrite zset_zblit.
    destruct (zblit_in_bounds data (off + i) [Z.lxor b k]) as [d1 E1]; [lia|simpl; lia|]. rewrite E1. cbn [mbind option_bind].
    destruct (IH d1 (i + 1) p2) as (d2 & -> & E2); [lia| |].
    { rewrite (zsub_zblit_ne _ _ _ _ _ _ E1) by (simpl; lia). by rewrite <- H2, Z.add_assoc. }
    exists d2. split; [done|]. simpl. unfold key_at at 1. rewrite Ek. simpl.
    change (Z.lxor b k :: masked key (i + 1) p2) with ([Z.lxor b k] ++ masked key (i + 1) p2).
    eapply zblit_zblit; [done|]. rewrite <- E2. f_equal. simpl. lia.
Qed.

Lemma mask_spec data off len p : zsub data off len = Some p -> Forall byte p ->
  exists data', mask data off len key = Some data' /\ zblit data off (masked key 0 p) = Some data'.
Proof.
  intros Hp Hb. pose proof Hp as (Ho & Hl & Hd & _)%zsub_Some. unfold mask.
  pose proof (Z.div_mod len 8 ltac:(lia)) as Hdm. pose proof (Z.mod_pos_bound len 8 ltac:(lia)) as Hmod.
  assert (0 <= len / 8) as Hn by (apply Z.div_pos; lia). set (n := len / 8) in *.
  assert (zsub key 0 4 = Some key) as Ek.
  { apply zsub_Some. split_and!; [lia|lia|lia|]. rewrite drop_0, take_ge; [done|lia]. }
  rewrite (load_Some 4 key 0 key Ek). cbn [mbind option_bind].
  pose proof (le_value_bounds key Hkb) as Hkv. rewrite Hk in Hkv. change (256 ^ Z.of_nat 4) with (2 ^ 32) in Hkv.
  rewrite lor_shiftl by lia. replace (le_value key + 2 ^ 32 * le_value key) with (le_value (key ++ key))
    by (rewrite le_value_app, Hk; done).
  destruct (zsub_split data off (n * 8) (len - n * 8) p) as (p1 & p2 & -> & H1 & H2); [lia|lia|by rewrite <- Hp; f_equal; lia|].
  apply Forall_app in Hb as [Hb1 Hb2]. pose proof (zsub_length _ _ _ _ H1) as L1. pose proof (masked_length key 0 p1) as Lm.
  destruct (mask_blocks_spec (Z.to_nat n) data off p1) as (d1 & -> & E1); [by rewrite Z2Nat.id by lia|done|]. cbn [mbind option_bind].
  destruct (mask_rest_spec (Z.to_nat (len - n * 8)) d1 off (n * 8) p2) as (d2 & -> & E2); [lia| |].
  { rewrite Z2Nat.id by lia. rewrite (zsub_zblit_ne _ _ _ _ _ _ E1) by lia. exact H2. }
  exists d2. split; [done|]. rewrite masked_app, L1. eapply zblit_zblit; [done|]. rewrite Lm, L1. exact E2.
Qed.
End mask.

(** ** Headers *)

#[local] Ltac Zify.zify_post_hook ::= Z.to_euclidean_division_equations.

Lemma bit_eq b n x : 0 <= n -> (b / 2 ^ n) mod 2 = Z.b2z x -> bit b n = x.
Proof. intros Hn E. unfold bit. apply Z.b2z_inj. rewrite <- E. by apply Z.testbit_spec'. Qed.

Lemma land_127 x : Z.land x 127 = x mod 128.
Proof. change 127 with (Z.ones 7). by rewrite Z.land_ones by lia. Qed.
Lemma land_15 x : Z.land x 15 = x mod 16.
Proof. change 15 with (Z.ones 4). by rewrite Z.land_ones by lia. Qed.

Lemma b2z_range b : 0 <= Z.b2z b <= 1.
Proof. destruct b; simpl; lia. Qed.

Lemma parse_header_bytes h b0 b1 : 0 <= OPCODE h < 16 -> 0 <= LENGTH h < 128 -> header_bytes h = [b0; b1] ->
  parse_header b0 b1 = h /\ byte b0 /\ byte b1.
Proof.
  intros Ho Hl [= <- <-]. unfold parse_header. destruct h as [f r1 r2 r3 o mk l]. cbn [FIN RSV1 RSV2 RSV3 OPCODE MASK LENGTH] in *.
  pose proof (b2z_range f). pose proof (b2z_range r1). pose proof (b2z_range r2). pose proof (b2z_range r3). pose proof (b2z_range mk).
  split; [|unfold byte; lia]. f_equal; try (apply bit_eq; [lia|]; change (2 ^ 7) with 128; change (2 ^ 6) with 64; change (2 ^ 5) with 32; change (2 ^ 4) with 16; lia).
  - rewrite land_15. lia.
  - rewrite land_127. lia.
Qed.

Lemma ntoh_wire n z : 0 <= z < 256 ^ Z.of_nat n -> le_bytes n (ntoh n z) = be_bytes n z.
Proof.
  intros Hz. unfold ntoh, be_bytes. apply le_bytes_value; [apply Forall_rev, le_bytes_byte|by rewrite length_rev, le_bytes_length].
Qed.

Lemma ntoh_be n l : Forall byte l -> length l = n -> ntoh n (le_value l) = be_value l.
Proof. intros Hl Hn. unfold ntoh, be_value. by rewrite le_bytes_value. Qed.

(** What [get_package_length_impl] finds in any data. *)
Lemma package_length_spec data : Forall byte data -> zlen data < 2 ^ 32 ->
  exists h t, get_package_length_impl data (zlen data) = Some (h, t) /\
    (0 < t -> 2 <= h <= 14 /\ h <= zlen data /\ h <= t /\ (forall b1, zget data 1 = Some b1 -> bit b1 7 = true -> 6 <= h)).
Proof.
  intros Hb Hl. unfold get_package_length_impl, SW_WEBSOCKET_HEADER_LEN, SW_WEBSOCKET_MASK_LEN.
  destruct (Z.ltb_spec (zlen data) 2); [eexists _, _; split; [done|]; lia|].
  destruct (zget_in_bounds data 1) as [b1 E1]; [lia|]. rewrite E1. cbn [mbind option_bind].
  assert (Hfin : forall h pl, 2 <= h <= 10 -> h <= zlen data -> 0 <= pl < 2 ^ 64 -> exists h' t,
    (if bit b1 7 && (zlen data <? (if bit b1 7 then h + 4 else h)) then Some (if bit b1 7 then h + 4 else h, 0)
     else if s64 pl <? 0 then Some (if bit b1 7 then h + 4 else h, -1)
     else Some (if bit b1 7 then h + 4 else h, s64 ((if bit b1 7 then h + 4 else h) + pl))) = Some (h', t) /\
    (0 < t -> 2 <= h' <= 14 /\ h' <= zlen data /\ h' <= t /\ (forall b, Some b1 = Some b -> bit b 7 = true -> 6 <= h'))).
  { intros h pl Hh Hhl Hpl. set (h' := if bit b1 7 then h + 4 else h).
    assert (h <= h' <= h + 4 /\ (bit b1 7 = true -> h' = h + 4)) as [Hh' Hm] by (subst h'; destruct (bit b1 7); split; lia || done).
    destruct (bit b1 7 && (zlen data <? h')) eqn:Ec; [eexists _, _; split; [done|]; lia|].
    destruct (Z.ltb_spec (s64 pl) 0) as [|Hpos]; [eexists _, _; split; [done|]; lia|]. eexists _, _. split; [done|]. intros Ht.
    assert (h' <= zlen data).
    { subst h'. destruct (bit b1 7); [apply Z.ltb_ge in Ec; lia|lia]. }
    assert (s64 (h' + pl) = h' + pl).
    { unfold sN in *. change (2 ^ 64) with 18446744073709551616 in *. change (2 ^ (64 - 1)) with 9223372036854775808 in *. lia. }
    split_and!; [lia|lia|done|lia|]. intros b [= <-] Hbit. rewrite (Hm Hbit). lia. }
  assert (forall n, (n = 2 \/ n = 8)%nat -> 2 + Z.of_nat n <= zlen data -> exists v, load n data 2 = Some v /\ 0 <= ntoh n v < 2 ^ 64) as Hload.
  { intros n Hn Hlen. destruct (zsub_in_bounds data 2 (Z.of_nat n)) as [x Ex]; [lia..|]. exists (le_value x). split; [by apply load_Some|].
    pose proof (zsub_length _ _ _ _ Ex) as Lx. assert (Forall byte x) as Hbx.
    { apply zsub_Some in Ex as (_ & _ & _ & ->). by apply Forall_take, Forall_drop. }
    rewrite ntoh_be by (done || lia). pose proof (be_value_bounds x Hbx). destruct Hn as [-> | ->]; rewrite Lx in *; simpl in *; lia. }
  assert (byte b1) as Hb1 by (eapply Forall_zget; done). unfold byte in Hb1.
  destruct (Z.eqb_spec (Z.land b1 127) SW_WEBSOCKET_EXT16_LENGTH) as [E126|]; [|destruct (Z.eqb_spec (Z.land b1 127) SW_WEBSOCKET_EXT64_LENGTH) as [E127|]].
  - destruct (Z.ltb_spec (zlen data) (2 + 2)); [eexists _, _; split; [done|]; lia|].
    destruct (Hload 2%nat) as (v & -> & Hv); [by left|lia|]. cbn [mbind option_bind]. apply Hfin; lia.
  - destruct (Z.ltb_spec (zlen data) (2 + 8)); [eexists _, _; split; [done|]; lia|].
    destruct (Hload 8%nat) as (v & -> & Hv); [by right|lia|]. cbn [mbind option_bind]. apply Hfin; lia.
  - apply Hfin; [lia|lia|]. rewrite land_127. lia.
Qed.

(** ** Decoding any data *)

Record frame_in (data : list Z) (f : Frame) : Prop := {
  fi_header : 2 <= header_length f <= 14;
  fi_payload : 0 <= payload_length f /\ header_length f + payload_length f <= zlen data;
  fi_ptr : payload f = if payload_length f =? 0 then None else Some (header_length f);
  fi_key : 0 < payload_length f -> MASK (header f) = true ->
    length (mask_key f) = 4%nat /\ Forall byte (mask_key f) /\
    zsub data (header_length f - SW_WEBSOCKET_MASK_LEN) SW_WEBSOCKET_MASK_LEN = Some (mask_key f);
  fi_control : is_control_frame (OPCODE (header f)) = true ->
    FIN (header f) = true /\ RSV1 (header f) = false /\ payload_length f <= 125;
}.

Lemma parse_frame_spec data : Forall byte data -> 2 <= zlen data < 2 ^ 32 ->
  exists f, parse_frame data (zlen data) = Some f /\ forall fr, f = Some fr -> frame_in data fr.
Proof.
  intros Hb Hl. unfold parse_frame. destruct (zget_in_bounds data 0) as [b0 ->]; [lia|].
  destruct (zget_in_bounds data 1) as [b1 E1]; [lia|]. rewrite E1. cbn [mbind option_bind].
  rewrite uN_small by (unfold fits; lia). destruct (package_length_spec data Hb) as (h & t & -> & Hht); [lia|]. cbn [mbind option_bind].
  destruct (_ || _) eqn:Elen; [by eexists|]. apply orb_false_iff in Elen as [Et%Z.leb_gt Etl%Z.ltb_ge].
  destruct (Hht Et) as (Hh & Hhl & Hle & Hm). specialize (Hm b1 E1).
  destruct (_ && _) eqn:Ectl; [by eexists|].
  assert (is_control_frame (OPCODE (parse_header b0 b1)) = true ->
    FIN (parse_header b0 b1) = true /\ RSV1 (parse_header b0 b1) = false /\ t - h <= 125) as Hctl.
  { intros Hc. rewrite Hc in Ectl. simpl in Ectl. apply orb_false_iff in Ectl as [[Hr Hf]%orb_false_iff Hp%Z.ltb_ge].
    split_and!; [by apply negb_false_iff|done|done]. }
  rewrite (uN_small 16 h) by (unfold fits; lia).
  destruct (Z.eqb_spec (t - h) 0) as [E0|Hne].
  { eexists. split; [done|]. intros fr [= <-]. split; simpl; try done; try lia. intros Hc. destruct (Hctl Hc) as (? & ? & ?). split_and!; [done|done|lia]. }
  destruct (MASK (parse_header b0 b1)) eqn:Emask.
  - specialize (Hm Emask). destruct (zsub_in_bounds data (h - SW_WEBSOCKET_MASK_LEN) SW_WEBSOCKET_MASK_LEN) as [key Ek];
      [unfold SW_WEBSOCKET_MASK_LEN; lia..|]. rewrite Ek. cbn [mbind option_bind]. eexists. split; [done|]. intros fr [= <-].
    split; cbn [header_length payload_length payload header mask_key]; try done; try lia.
    + by destruct (Z.eqb_spec (t - h) 0).
    + intros _ _. pose proof (zsub_length _ _ _ _ Ek). unfold SW_WEBSOCKET_MASK_LEN in *. split_and!; [lia| |done].
      apply zsub_Some in Ek as (_ & _ & _ & ->). by apply Forall_take, Forall_drop.
  - cbn [mbind option_bind]. eexists. split; [done|]. intros fr [= <-].
    split; cbn [header_length payload_length payload header mask_key]; try done; try lia.
    + by destruct (Z.eqb_spec (t - h) 0).
    + congruence.
Qed.

Lemma decode_spec data : Forall byte data -> 2 <= zlen data < 2 ^ 32 ->
  exists data' f, decode data (zlen data) = Some (data', f) /\
    match f with
    | None => data' = data
    | Some f => frame_in data f /\ exists p, zsub data (header_length f) (payload_length f) = Some p /\
        zblit data (header_length f) (if MASK (header f) then masked (mask_key f) 0 p else p) = Some data'
    end.
Proof.
  intros Hb Hl. unfold decode. destruct (parse_frame_spec data Hb Hl) as (f & -> & Hf). cbn [mbind option_bind].
  destruct f as [f|]; [|by eexists _, _]. specialize (Hf f eq_refl). pose proof Hf as [Hh Hp Hptr Hkey _].
  destruct (zsub_in_bounds data (header_length f) (payload_length f)) as [p Ep]; [lia..|].
  assert (zblit data (header_length f) p = Some data) as Eid.
  { pose proof (zsub_length _ _ _ _ Ep). apply zblit_Some. split_and!; [lia|lia|]. apply zsub_Some in Ep as (_ & _ & _ & ->).
    rewrite length_take, length_drop, Nat.min_l by lia. rewrite <- drop_drop, take_drop. by rewrite take_drop. }
  destruct (MASK (header f)) eqn:Em; cbn [andb].
  - destruct (Z.ltb_spec 0 (payload_length f)) as [Hpos|Hz].
    + rewrite Hptr. destruct (Z.eqb_spec (payload_length f) 0); [lia|]. cbn [mbind option_bind].
      destruct (Hkey Hpos eq_refl) as (Hk & Hkb & _).
      destruct (mask_spec (mask_key f) Hk Hkb data (header_length f) (payload_length f) p) as (d' & -> & Ed); [done| |].
      { apply zsub_Some in Ep as (_ & _ & _ & ->). by apply Forall_take, Forall_drop. }
      cbn [mbind option_bind]. eexists _, _. split; [done|]. split; [done|]. exists p. by rewrite Em.
    + eexists _, _. split; [done|]. split; [done|]. exists p. rewrite Em. split; [done|].
      pose proof (zsub_length _ _ _ _ Ep). destruct p; [done|simpl in *; lia].
  - eexists _, _. split; [done|]. split; [done|]. exists p. by rewrite Em.
Qed.

(** Decoding any received bytes never reads or writes outside of them; a frame
    that is accepted lies inside of the data, its control frames are not
    fragmented, not compressed and at most 125 bytes long, and all that changes
    is the payload, which is unmasked byte by byte. *)
Theorem decode_safe data :
  Forall byte data -> 2 <= zlen data < 2 ^ 32 ->
  exists data' f, decode data (zlen data) = Some (data', f) /\
    match f with
    | None => data' = data
    | Some f => header_length f + payload_length f <= zlen data /\
        (is_control_frame (OPCODE (header f)) = true ->
          FIN (header f) = true /\ RSV1 (header f) = false /\ payload_length f <= 125) /\
        exists p, zsub data (header_length f) (payload_length f) = Some p /\
          zblit data (header_length f) (if MASK (header f) then masked (mask_key f) 0 p else p) = Some data'
    end.
Proof.
  intros Hb Hl. destruct (decode_spec data Hb Hl) as (d' & f & E & Hf). exists d', f. split; [done|].
  destruct f as [f|]; [|done]. destruct Hf as [[_ [_ ?] _ _ ?] ?]. done.
Qed.

Lemma decode_safe_witness : Forall byte [129; 130; 1; 2; 3; 4; 105; 107] /\
  exists data' f, decode [129; 130; 1; 2; 3; 4; 105; 107] 8 = Some (data', f) /\ data' = [129; 130; 1; 2; 3; 4; 104; 105].
Proof.
  assert (Forall byte [129; 130; 1; 2; 3; 4; 105; 107]) as Hb by (repeat constructor; done). split; [exact Hb|].
  destruct (decode_safe [129; 130; 1; 2; 3; 4; 105; 107] Hb) as (d & f & E & _); [simpl; lia|].
  exists d, f. split; [exact E|]. vm_compute in E. injection E as <- _. reflexivity.
Defined.

(** ** Encoding *)

(** The two forms of the length in a header. *)
Definition coded (L len : Z) (ext : list Z) : Prop :=
  L < 126 /\ len = L /\ ext = [] \/ 126 <= L <= 65535 /\ len = 126 /\ ext = be_bytes 2 L \/
  65535 < L /\ len = 127 /\ ext = be_bytes 8 L.

Section frame.
Context (data : list Z) (opcode flags : Z).
Context (Hdata : Forall byte data) (Hlen : zlen data < 2 ^ 31) (Hop : 0 <= opcode < 16).
Context (Honly : has flags FLAG_ENCODE_HEADER_ONLY = false).
Context (Hctl : is_control_frame opcode = true ->
  has flags FLAG_FIN = true /\ has flags FLAG_RSV1 = false /\ zlen data <= 125).

Definition header_of (len : Z) : Header :=
  mkHeader (has flags FLAG_FIN) (has flags FLAG_RSV1) false false opcode (has flags FLAG_MASK) len.
Definition key_of : list Z := if has flags FLAG_MASK then SW_WEBSOCKET_MASK_DATA else [].
Definition body_of : list Z := if has flags FLAG_MASK then masked SW_WEBSOCKET_MASK_DATA 0 data else data.
Definition frame_of (len : Z) (ext : list Z) : list Z := header_bytes (header_of len) ++ ext ++ key_of ++ body_of.

Lemma mask_data_ok : length SW_WEBSOCKET_MASK_DATA = 4%nat /\ Forall byte SW_WEBSOCKET_MASK_DATA.
Proof. split; [done|]. repeat constructor; done. Qed.

Lemma zblit_end (l a b : list Z) : length a = length b -> zblit (l ++ a) (zlen l) b = Some (l ++ b).
Proof.
  intros Hl. apply zblit_Some. rewrite length_app. split_and!; [lia|lia|]. rewrite Nat2Z.id, take_app_length, drop_ge by (rewrite length_app; lia).
  by rewrite app_nil_r.
Qed.

Lemma encode_frame buffer : exists len ext, coded (zlen data) len ext /\
  encode buffer data opcode flags = Some (buffer ++ frame_of len ext, true).
Proof.
  unfold encode. destruct (is_control_frame opcode && _) eqn:Ec.
  { exfalso. apply andb_true_iff in Ec as [Hc Hor]. destruct (Hctl Hc) as (Hf & _ & Hl). rewrite Hf in Hor. simpl in Hor.
    unfold SW_WEBSOCKET_CONTROL_FRAME_PAYLOAD_MAX_LEN in Hor. apply Z.ltb_lt in Hor. lia. }
  set (fh := if zlen data <? SW_WEBSOCKET_EXT16_LENGTH then _ else _).
  assert (exists len ext, coded (zlen data) len ext /\ fh = header_bytes (header_of len) ++ ext) as (len & ext & Hc & ->).
  { subst fh. unfold SW_WEBSOCKET_EXT16_LENGTH, SW_WEBSOCKET_EXT16_MAX_LEN, SW_WEBSOCKET_EXT64_LENGTH.
    destruct (Z.ltb_spec (zlen data) 126); [|destruct (Z.leb_spec (zlen data) 65535)].
    - exists (zlen data), []. split; [by left|by rewrite app_nil_r].
    - exists 126, (be_bytes 2 (zlen data)). rewrite uN_small, ntoh_wire by (unfold fits; simpl; lia). split; [right; left; split_and!; [lia|lia|done|done]|done].
    - exists 127, (be_bytes 8 (zlen data)). rewrite ntoh_wire by (simpl; lia). split; [right; right; split_and!; [lia|done|done]|done]. }
  exists len, ext. split; [done|]. rewrite Honly. unfold frame_of, key_of, body_of. destruct (has flags FLAG_MASK); cbn [negb].
  - destruct mask_data_ok as [Hk Hkb]. destruct (Z.ltb_spec 0 (zlen data)) as [Hpos|Hz].
    + set (pre := (buffer ++ _) ++ _).
      destruct (mask_spec SW_WEBSOCKET_MASK_DATA Hk Hkb (pre ++ data) (zlen pre) (zlen data) data) as (d' & -> & Ed); [|done|].
      { rewrite <- (app_nil_r data) at 1. apply zsub_app. }
      rewrite zblit_end in Ed by (by rewrite masked_length). injection Ed as <-. cbn [mbind option_bind].
      unfold pre. by rewrite <- !app_assoc.
    + destruct data; [|simpl in *; lia]. cbn [masked]. by rewrite app_nil_r, <- !app_assoc.
  - rewrite andb_true_r. destruct (Z.ltb_spec 0 (zlen data)) as [Hpos|Hz].
    + by rewrite <- !app_assoc.
    + destruct data; [|simpl in *; lia]. cbn [app]. by rewrite !app_nil_r.
Qed.

Lemma frame_shape len ext : coded (zlen data) len ext ->
  exists b0 b1, header_bytes (header_of len) = [b0; b1] /\ parse_header b0 b1 = header_of len /\ 0 <= len < 128 /\
    byte b0 /\ byte b1 /\ Forall byte ext /\ Forall byte key_of /\
    zlen (frame_of len ext) = 2 + zlen ext + zlen key_of + zlen data /\ zlen ext <= 8 /\
    zlen key_of = (if has flags FLAG_MASK then 4 else 0).
Proof.
  intros Hc. assert (0 <= len < 128) as Hlen2 by (destruct Hc as [(? & ? & _)|[(? & ? & _)|(? & ? & _)]]; lia).
  assert (exists b0 b1, header_bytes (header_of len) = [b0; b1]) as (b0 & b1 & Eh) by by eexists _, _. exists b0, b1.
  destruct (parse_header_bytes (header_of len) b0 b1) as (Hp & Hb0 & Hb1); [done|done|done|].
  assert (zlen body_of = zlen data) as Lb by (unfold body_of; destruct (has flags FLAG_MASK); [by rewrite masked_length|done]).
  split_and!; try done; try lia.
  - destruct Hc as [(_ & _ & ->)|[(_ & _ & ->)|(_ & _ & ->)]]; [constructor|apply be_bytes_byte..].
  - unfold key_of. destruct (has flags FLAG_MASK); [apply mask_data_ok|constructor].
  - unfold frame_of. rewrite Eh, !length_app. simpl. lia.
  - destruct Hc as [(_ & _ & ->)|[(_ & _ & ->)|(_ & _ & ->)]]; rewrite ?be_bytes_length; simpl; lia.
  - unfold key_of. by destruct (has flags FLAG_MASK).
Qed.

Lemma frame_package_length len ext : coded (zlen data) len ext ->
  get_package_length_impl (frame_of len ext) (zlen (frame_of len ext)) =
  Some (2 + zlen ext + zlen key_of, zlen (frame_of len ext)).
Proof.
  intros Hc. destruct (frame_shape len ext Hc) as (b0 & b1 & Eh & Hp & Hl & Hb0 & Hb1 & Hext & Hkey & Hlf & Hle & Hlk).
  unfold get_package_length_impl, SW_WEBSOCKET_HEADER_LEN, SW_WEBSOCKET_MASK_LEN.
  set (fr := frame_of len ext) in *. assert (zget fr 1 = Some b1) as -> by (unfold fr, frame_of; by rewrite Eh).
  cbn [mbind option_bind]. pose proof (f_equal MASK Hp) as Hm. pose proof (f_equal LENGTH Hp) as Hlen2.
  cbn [parse_header header_of MASK LENGTH] in Hm, Hlen2. rewrite Hm, Hlen2.
  destruct (Z.ltb_spec (zlen fr) 2); [lia|].
  assert (Hload : forall n, ext = be_bytes n (zlen data) -> 0 <= zlen data < 256 ^ Z.of_nat n ->
    load n fr 2 = Some (le_value ext) /\ ntoh n (le_value ext) = zlen data).
  { intros n -> Hr. split; [|rewrite ntoh_be by (apply be_bytes_byte || apply be_bytes_length); by apply be_value_bytes].
    apply load_Some. unfold fr, frame_of. rewrite Eh. rewrite <- (be_bytes_length n (zlen data)) at 2.
    exact (zsub_app [b0; b1] (be_bytes n (zlen data)) (key_of ++ body_of)). }
  assert (Hfin : forall h, h = 2 + zlen ext ->
    (if has flags FLAG_MASK && (zlen fr <? (if has flags FLAG_MASK then h + 4 else h)) then Some (if has flags FLAG_MASK then h + 4 else h, 0)
     else if s64 (zlen data) <? 0 then Some (if has flags FLAG_MASK then h + 4 else h, -1)
     else Some (if has flags FLAG_MASK then h + 4 else h, s64 ((if has flags FLAG_MASK then h + 4 else h) + zlen data))) =
    Some (2 + zlen ext + zlen key_of, zlen fr)).
  { intros h ->. rewrite sN_small by lia. destruct (Z.ltb_spec (zlen data) 0); [lia|]. destruct (has flags FLAG_MASK); cbn [andb].
    - destruct (Z.ltb_spec (zlen fr) (2 + zlen ext + 4)); [lia|]. rewrite sN_small by lia. do 2 f_equal; lia.
    - rewrite sN_small by lia. do 2 f_equal; lia. }
  unfold SW_WEBSOCKET_EXT16_LENGTH, SW_WEBSOCKET_EXT64_LENGTH.
  destruct Hc as [(? & -> & ->)|[(? & -> & Ee)|(? & -> & Ee)]].
  - destruct (Z.eqb_spec (zlen data) 126), (Z.eqb_spec (zlen data) 127); try lia. by apply Hfin.
  - cbn [Z.eqb Pos.eqb]. destruct (Hload 2%nat Ee) as [El En]; [simpl; lia|].
    assert (zlen ext = 2) as Le by (by rewrite Ee, be_bytes_length). destruct (Z.ltb_spec (zlen fr) (2 + 2)); [lia|].
    rewrite El. cbn [mbind option_bind]. rewrite En. apply Hfin. lia.
  - cbn [Z.eqb Pos.eqb]. destruct (Hload 8%nat Ee) as [El En]; [simpl; lia|].
    assert (zlen ext = 8) as Le by (by rewrite Ee, be_bytes_length). destruct (Z.ltb_spec (zlen fr) (2 + 8)); [lia|].
    rewrite El. cbn [mbind option_bind]. rewrite En. apply Hfin. lia.
Qed.

Lemma decode_frame len ext : coded (zlen data) len ext ->
  exists f, decode (frame_of len ext) (zlen (frame_of len ext)) =
    Some (header_bytes (header_of len) ++ ext ++ key_of ++ data, Some f) /\
    header f = header_of len /\ payload_length f = zlen data /\ header_length f = 2 + zlen ext + zlen key_of.
Proof.
  intros Hc. pose proof (frame_package_length len ext Hc) as Hpl.
  destruct (frame_shape len ext Hc) as (b0 & b1 & Eh & Hp & Hl & Hb0 & Hb1 & Hext & Hkey & Hlf & Hle & Hlk).
  assert (zlen key_of <= 4) by (destruct (has flags FLAG_MASK); lia).
  unfold decode, parse_frame. set (fr := frame_of len ext) in *.
  assert (zget fr 0 = Some b0 /\ zget fr 1 = Some b1) as [-> ->] by (unfold fr, frame_of; by rewrite Eh).
  cbn [mbind option_bind]. rewrite Hp. rewrite uN_small, Hpl by (unfold fits; lia). cbn [mbind option_bind].
  destruct (Z.leb_spec (zlen fr) 0); [lia|]. destruct (Z.ltb_spec (zlen fr) (zlen fr)); [lia|]. cbn [orb].
  replace (zlen fr - (2 + zlen ext + zlen key_of)) with (zlen data) by lia.
  destruct (is_control_frame _ && _) eqn:Ectl.
  { exfalso. apply andb_true_iff in Ectl as [Hcc Hor]. destruct (Hctl Hcc) as (Hf & Hr & Hd). simpl in Hor. rewrite Hf, Hr in Hor.
    simpl in Hor. unfold SW_WEBSOCKET_CONTROL_FRAME_PAYLOAD_MAX_LEN in Hor. apply Z.ltb_lt in Hor. lia. }
  rewrite uN_small by (unfold fits; lia). destruct (Z.eqb_spec (zlen data) 0) as [Hz|Hnz].
  { cbn [mbind option_bind header payload_length]. rewrite andb_false_r.
    assert (fr = header_bytes (header_of len) ++ ext ++ key_of ++ data) as Efr.
    { unfold fr, frame_of, body_of. destruct data; [|simpl in *; lia]. by destruct (has flags FLAG_MASK). }
    eexists. split; [by rewrite <- Efr|]. split_and!; [done|by rewrite Hz|done]. }
  cbn [MASK header_of]. destruct (has flags FLAG_MASK) eqn:Em.
  - assert (zsub fr (2 + zlen ext + zlen key_of - SW_WEBSOCKET_MASK_LEN) SW_WEBSOCKET_MASK_LEN = Some SW_WEBSOCKET_MASK_DATA) as ->.
    { unfold fr, frame_of, key_of. rewrite Em, app_assoc. unfold SW_WEBSOCKET_MASK_LEN.
      replace (2 + zlen ext + zlen SW_WEBSOCKET_MASK_DATA - 4) with (zlen (header_bytes (header_of len) ++ ext)) by (rewrite length_app, Eh; simpl; lia).
      change 4 with (zlen SW_WEBSOCKET_MASK_DATA). apply zsub_app. }
    cbn [mbind option_bind header payload_length payload mask_key MASK header_of]. rewrite Em. destruct (Z.ltb_spec 0 (zlen data)); [|lia]. cbn [andb].
    destruct mask_data_ok as [Hk Hkb].
    set (pre := header_bytes (header_of len) ++ ext ++ key_of).
    assert (fr = pre ++ body_of) as Efr by (unfold fr, frame_of, pre; by rewrite <- !app_assoc).
    assert (2 + zlen ext + zlen key_of = zlen pre) as -> by (unfold pre; rewrite Eh, !length_app; simpl; lia).
    assert (body_of = masked SW_WEBSOCKET_MASK_DATA 0 data) as Ebody by (unfold body_of; by rewrite Em).
    destruct (mask_spec SW_WEBSOCKET_MASK_DATA Hk Hkb fr (zlen pre) (zlen data) body_of) as (d' & -> & Ed).
    { rewrite Efr. rewrite <- (masked_length SW_WEBSOCKET_MASK_DATA 0 data), <- Ebody.
      rewrite <- (app_nil_r body_of) at 1. apply zsub_app. }
    { rewrite Ebody. by apply masked_byte. }
    rewrite Ebody, masked_involutive, Efr, Ebody in Ed. rewrite zblit_end in Ed by (by rewrite masked_length). injection Ed as <-.
    cbn [mbind option_bind]. eexists. split; [unfold pre; by rewrite <- !app_assoc|]. done.
  - cbn [mbind option_bind header payload_length payload mask_key MASK header_of]. rewrite Em. cbn [andb].
    assert (fr = header_bytes (header_of len) ++ ext ++ key_of ++ data) as <- by (unfold fr, frame_of, body_of; by rewrite Em).
    by eexists.
Qed.
End frame.

(** C25: encoding a message and decoding the frame gives the message back, with its
    opcode and flags, for every length of the payload and with or without a mask; the
    packet length computed from the frame is the length of the frame.  Conditions: the
    payload is below 2 GB, the whole frame is encoded and not only its header, and a
    control frame is final, without RSV1 and has at most 125 bytes. *)
Theorem websocket_roundtrip data opcode flags :
  Forall byte data -> zlen data < 2 ^ 31 -> 0 <= opcode < 16 -> has flags FLAG_ENCODE_HEADER_ONLY = false ->
  (is_control_frame opcode = true -> has flags FLAG_FIN = true /\ has flags FLAG_RSV1 = false /\ zlen data <= 125) ->
  exists frame data' f, encode [] data opcode flags = Some (frame, true) /\
    get_package_length_impl frame (zlen frame) = Some (header_length f, zlen frame) /\
    decode frame (zlen frame) = Some (data', Some f) /\
    OPCODE (header f) = opcode /\ FIN (header f) = has flags FLAG_FIN /\ RSV1 (header f) = has flags FLAG_RSV1 /\
    MASK (header f) = has flags FLAG_MASK /\ payload_length f = zlen data /\
    zsub data' (header_length f) (zlen data) = Some data.
Proof.
  intros Hd Hl Hop Honly Hctl.
  destruct (encode_frame data opcode flags Hd Hl Hop Honly Hctl []) as (len & ext & Hc & E).
  destruct (decode_frame data opcode flags Hd Hl Hop Hctl len ext Hc) as (f & Ed & Eh & Ep & Ehl).
  pose proof (frame_package_length data opcode flags Hl Hop len ext Hc) as Hpl.
  eexists _, _, f. split; [exact E|]. cbn [app]. rewrite Ehl. split; [exact Hpl|]. split; [exact Ed|]. rewrite Eh, Ep. split_and!; try done.
  pose proof (zsub_app (header_bytes (header_of opcode flags len) ++ ext ++ key_of flags) data []) as Hz.
  rewrite app_nil_r, <- !app_assoc in Hz. rewrite <- Hz. f_equal. rewrite !length_app. simpl. lia.
Qed.

Lemma websocket_roundtrip_witness : exists frame data' f,
  encode [] [104; 105] OPCODE_TEXT (Z.lor FLAG_FIN FLAG_MASK) = Some (frame, true) /\
  decode frame (zlen frame) = Some (data', Some f) /\ OPCODE (header f) = OPCODE_TEXT /\
  zsub data' (header_length f) 2 = Some [104; 105].
Proof.
  destruct (websocket_roundtrip [104; 105] OPCODE_TEXT (Z.lor FLAG_FIN FLAG_MASK)) as (fr & d & f & E1 & _ & E2 & E3 & _ & _ & _ & _ & E4).
  - repeat constructor; done.
  - done.
  - done.
  - done.
  - done.
  - exists fr, d, f. split; [exact E1|]. split; [exact E2|]. split; [exact E3|exact E4].
Defined.

(** ** Fragmented messages *)

(** The frames a peer sends: with or without a mask, final or not. *)
Definition base_flags (m fin : bool) : Z := Z.lor (if m then FLAG_MASK else 0) (if fin then FLAG_FIN else 0).
Definition part_frame (m fin : bool) (opcode : Z) (p : list Z) : option (list Z) :=
  '(frame, ok) ← encode [] p opcode (base_flags m fin); if (ok : bool) then Some frame else None.

(** What comes between the first and the last frame of a message: further parts,
    and pings. *)
Inductive item := Part (p : list Z) | Ping (p : list Z).
Definition item_frame (m : bool) (it : item) : option (list Z) :=
  match it with
  | Part p => part_frame m false OPCODE_CONTINUATION p
  | Ping p => part_frame m true OPCODE_PING p
  end.
Definition part_of (it : item) : list Z := match it with Part p => p | Ping _ => [] end.
Definition ext_of (m : bool) (opcode : Z) : Z := get_ext_flags opcode (Z.lor FLAG_FIN (if m then FLAG_MASK else 0)).
Definition ping_of (m : bool) (it : item) : list event :=
  match it with Part _ => [] | Ping p => [Dispatch (ext_of m OPCODE_PING) p] end.

(** The frames of a connection, one after the other, until one is refused. *)
Fixpoint dispatch_all (max : Z) (conn : Conn) (frames : list (list Z)) : option (Conn * list event * bool) :=
  match frames with
  | [] => Some (conn, [], true)
  | f :: frames =>
      '(conn, ev, ok) ← dispatch_frame max conn f;
      if (ok : bool) then '(conn, ev', ok) ← dispatch_all max conn frames; Some (conn, ev ++ ev', ok)
      else Some (conn, ev, false)
  end.

(** A frame of the peer, decoded. *)
Lemma part_frame_spec m fin opcode p : Forall byte p -> zlen p < 2 ^ 31 -> 0 <= opcode < 16 ->
  (is_control_frame opcode = true -> fin = true /\ zlen p <= 125) ->
  exists frame data' f len, part_frame m fin opcode p = Some frame /\ decode frame (zlen frame) = Some (data', Some f) /\
    header f = mkHeader fin false false false opcode m len /\ payload_length f = zlen p /\
    zsub data' (zlen frame - zlen p) (zlen p) = Some p /\
    (zlen p <= 125 -> zlen frame - zlen p = if m then 6 else 2) /\ zlen frame < 2 ^ 31 + 16.
Proof.
  intros Hp Hl Hop Hctl. set (flags := base_flags m fin).
  assert (has flags FLAG_ENCODE_HEADER_ONLY = false /\ has flags FLAG_FIN = fin /\ has flags FLAG_RSV1 = false /\ has flags FLAG_MASK = m)
    as (H1 & H2 & H3 & H4) by (by destruct m, fin).
  assert (is_control_frame opcode = true -> has flags FLAG_FIN = true /\ has flags FLAG_RSV1 = false /\ zlen p <= 125) as Hc.
  { intros Hc. destruct (Hctl Hc) as [-> ?]. rewrite H2, H3. done. }
  destruct (encode_frame p opcode flags Hp Hl Hop H1 Hc []) as (len & ext & Hcod & E). cbn [app] in E.
  destruct (decode_frame p opcode flags Hp Hl Hop Hc len ext Hcod) as (f & Ed & Eh & Ep & Ehl).
  destruct (frame_shape p opcode flags Hop len ext Hcod) as (b0 & b1 & _ & _ & _ & _ & _ & _ & _ & Hlf & Hle & Hlk).
  rewrite H4 in Hlk. exists (frame_of p opcode flags len ext). eexists _, f, len. unfold part_frame. fold flags. rewrite E. split; [done|]. split; [exact Ed|].
  split; [rewrite Eh; unfold header_of; by rewrite H2, H3, H4|]. split; [done|]. split_and!.
  - pose proof (zsub_app (header_bytes (header_of opcode flags len) ++ ext ++ key_of flags) p []) as Hz.
    rewrite app_nil_r, <- !app_assoc in Hz. rewrite <- Hz. f_equal. rewrite Hlf, !length_app. simpl. lia.
  - intros Hs. destruct Hcod as [(_ & _ & ->)|[(? & _)|(? & _)]]; [|lia..]. rewrite Hlf, Hlk. simpl. destruct m; lia.
  - rewrite Hlf, Hlk. destruct m; lia.
Qed.

(** The three frames of a fragmented message, and a ping in between. *)
Lemma dispatch_first m opcode p max st : opcode = OPCODE_TEXT \/ opcode = OPCODE_BINARY -> Forall byte p -> zlen p < 2 ^ 31 ->
  exists frame fl, part_frame m false opcode p = Some frame /\ u16 (Z.lor fl FLAG_FIN) = ext_of m opcode /\
    dispatch_frame max (mkConn None st) frame = Some (mkConn (Some (p, fl)) st, [], true).
Proof.
  intros Hop Hp Hl. destruct (part_frame_spec m false opcode p) as (fr & d & f & len & E & Ed & Eh & Ep & Ez & _); [done|done|unfold OPCODE_TEXT, OPCODE_BINARY in Hop; lia| |].
  { by destruct Hop as [-> | ->]. }
  exists fr, (get_ext_flags opcode (get_flags (mkHeader false false false false opcode m len))). split; [done|]. split.
  { destruct Hop as [-> | ->], m; vm_compute; reflexivity. }
  unfold dispatch_frame. rewrite Ed. cbn [mbind option_bind]. rewrite Eh, Ep. cbn [OPCODE FIN]. replace (zlen fr - (zlen fr - zlen p)) with (zlen p) by lia.
  rewrite Ez. by destruct Hop as [-> | ->].
Qed.

Lemma dispatch_part m fin buf fl p max st : Forall byte p -> zlen buf + zlen p <= max -> max < 2 ^ 31 ->
  exists frame, part_frame m fin OPCODE_CONTINUATION p = Some frame /\
    dispatch_frame max (mkConn (Some (buf, fl)) st) frame =
    if fin then Some (mkConn None st, [Dispatch (u16 (Z.lor fl FLAG_FIN)) (buf ++ p)], true)
    else Some (mkConn (Some (buf ++ p, fl)) st, [], true).
Proof.
  intros Hp Hl Hm. destruct (part_frame_spec m fin OPCODE_CONTINUATION p) as (fr & d & f & len & E & Ed & Eh & Ep & Ez & _); [done|lia|done|done|].
  exists fr. split; [done|]. unfold dispatch_frame. rewrite Ed. cbn [mbind option_bind]. rewrite Eh, Ep. cbn [OPCODE FIN].
  cbn [Z.eqb websocket_buffer OPCODE_CONTINUATION websocket_status]. replace (zlen fr - (zlen fr - zlen p)) with (zlen p) by lia.
  rewrite sN_small by lia. destruct (Z.ltb_spec max (zlen buf + zlen p)); [lia|]. rewrite Ez. by destruct fin.
Qed.

Lemma dispatch_ping m p max conn : Forall byte p -> zlen p <= 125 ->
  exists frame, part_frame m true OPCODE_PING p = Some frame /\
    dispatch_frame max conn frame = Some (conn, [Dispatch (ext_of m OPCODE_PING) p], true).
Proof.
  intros Hp Hl. destruct (part_frame_spec m true OPCODE_PING p) as (fr & d & f & len & E & Ed & Eh & Ep & Ez & Eo & _); [done|lia|done|done|].
  exists fr. split; [done|]. unfold dispatch_frame. rewrite Ed. cbn [mbind option_bind]. rewrite Eh, Ep. cbn [OPCODE FIN MASK].
  specialize (Eo Hl). cbn [Z.eqb Pos.eqb OPCODE_CONTINUATION OPCODE_PING OPCODE_TEXT OPCODE_BINARY orb].
  unfold SW_WEBSOCKET_CONTROL_FRAME_PAYLOAD_MAX_LEN. destruct (Z.ltb_spec 125 (zlen p)); [lia|].
  assert ((if zlen p =? 0 then Some [] else zsub d (if m then SW_WEBSOCKET_HEADER_LEN + SW_WEBSOCKET_MASK_LEN else SW_WEBSOCKET_HEADER_LEN)
    (zlen fr - (if m then SW_WEBSOCKET_HEADER_LEN + SW_WEBSOCKET_MASK_LEN else SW_WEBSOCKET_HEADER_LEN))) = Some p) as ->.
  { unfold SW_WEBSOCKET_HEADER_LEN, SW_WEBSOCKET_MASK_LEN. destruct (Z.eqb_spec (zlen p) 0); [destruct p; [done|simpl in *; lia]|].
    rewrite <- Ez. f_equal; destruct m; lia. }
  cbn [mbind option_bind]. do 4 f_equal. destruct m; vm_compute; reflexivity.
Qed.

(** A close frame carries its code. *)
Lemma close_frame_code (m : bool) code reason : 0 <= code < 2 ^ 16 -> Forall byte reason -> zlen reason <= 123 ->
  exists frame data' f, pack_close_frame [] code reason (if m then FLAG_MASK else 0) = Some (frame, true) /\
    decode frame (zlen frame) = Some (data', Some f) /\ OPCODE (header f) = OPCODE_CLOSE /\
    parse_close_code data' (zlen frame - payload_length f) = Some code.
Proof.
  intros Hc Hr Hl. set (p := [u8 (Z.shiftr code 8); u8 code] ++ reason).
  destruct (part_frame_spec m true OPCODE_CLOSE p) as (fr & d & f & len & E & Ed & Eh & Ep & Ez & _); [|simpl; lia|done|intros _; simpl; lia|].
  { repeat constructor; try done; apply (uN_fits 8); lia. }
  exists fr, d, f. unfold pack_close_frame. unfold SW_WEBSOCKET_CLOSE_REASON_MAX_LEN. destruct (Z.ltb_spec 123 (zlen reason)); [lia|].
  fold p. unfold part_frame, base_flags in E. split_and!.
  - destruct (encode [] p OPCODE_CLOSE _) as [[b [|]]|] eqn:Ee; simpl in E; congruence.
  - done.
  - by rewrite Eh.
  - unfold parse_close_code. rewrite Ep. assert (zlen p = 2 + zlen reason) as Lp by (unfold p; simpl; lia).
    rewrite <- (Z.add_0_r (zlen fr - zlen p)) at 1. rewrite !(zsub_zget _ _ _ _ _ Ez) by lia. simpl.
    f_equal. unfold uN. rewrite Z.shiftr_div_pow2 by lia. change (2 ^ 8) with 256. rewrite (Z.mod_small (code / 256)) by lia.
    rewrite lor_shiftl by (simpl; lia). change (2 ^ 8) with 256. lia.
Qed.

Definition item_ok (it : item) : Prop := match it with Part p => Forall byte p | Ping p => Forall byte p /\ zlen p <= 125 end.

(** A message that arrives in any number of fragments, with pings in between, is
    given to the workers once, when its last fragment is there, as the
    concatenation of the fragments and with the flags of an unfragmented message;
    the pings are given on as they come, and nothing is left in the connection. *)
Lemma fragments_reassembled m opcode p0 items p1 max st :
  opcode = OPCODE_TEXT \/ opcode = OPCODE_BINARY -> Forall byte p0 -> Forall item_ok items -> Forall byte p1 ->
  zlen p0 + zlen (concat (part_of <$> items)) + zlen p1 <= max -> max < 2 ^ 31 ->
  exists f0 fs f1, part_frame m false opcode p0 = Some f0 /\ mapM (item_frame m) items = Some fs /\
    part_frame m true OPCODE_CONTINUATION p1 = Some f1 /\
    dispatch_all max (mkConn None st) (f0 :: fs ++ [f1]) =
    Some (mkConn None st, concat (ping_of m <$> items) ++
            [Dispatch (ext_of m opcode) (p0 ++ concat (part_of <$> items) ++ p1)], true).
Proof.
  intros Hop Hp0 Hit Hp1 Hlen Hmax.
  destruct (dispatch_first m opcode p0 max st Hop Hp0) as (f0 & fl & E0 & Hfl & D0); [lia|].
  assert (forall buf, zlen buf + zlen (concat (part_of <$> items)) + zlen p1 <= max ->
    exists fs f1, mapM (item_frame m) items = Some fs /\ part_frame m true OPCODE_CONTINUATION p1 = Some f1 /\
      dispatch_all max (mkConn (Some (buf, fl)) st) (fs ++ [f1]) =
      Some (mkConn None st, concat (ping_of m <$> items) ++ [Dispatch (ext_of m opcode) (buf ++ concat (part_of <$> items) ++ p1)], true)) as Hrest.
  { clear D0 E0 Hlen. induction Hit as [|it items Hi Hit IH]; intros buf Hlen.
    - destruct (dispatch_part m true buf fl p1 max st Hp1) as (f1 & E1 & D1); [simpl in Hlen; lia|done|].
      exists [], f1. split_and!; [done|done|]. simpl. rewrite D1. simpl. by rewrite Hfl.
    - cbn [fmap list_fmap concat] in Hlen. fold (part_of <$> items) in Hlen. rewrite length_app in Hlen. destruct it as [p|p].
      + destruct (dispatch_part m false buf fl p max st Hi) as (f & E & D); [cbn [part_of] in Hlen; lia|done|].
        destruct (IH (buf ++ p)) as (fs & f1 & Es & E1 & D1); [rewrite length_app; cbn [part_of] in Hlen; lia|].
        exists (f :: fs), f1. cbn [mapM item_frame]. rewrite E. cbn [mbind option_bind]. rewrite Es. split_and!; [done|done|].
        cbn [dispatch_all app]. rewrite D. cbn [mbind option_bind]. rewrite D1. simpl. by rewrite <- !app_assoc.
      + destruct Hi as [Hi Hil]. destruct (dispatch_ping m p max (mkConn (Some (buf, fl)) st) Hi Hil) as (f & E & D).
        destruct (IH buf) as (fs & f1 & Es & E1 & D1); [cbn [part_of] in Hlen; simpl in *; lia|].
        exists (f :: fs), f1. cbn [mapM item_frame]. rewrite E. cbn [mbind option_bind]. rewrite Es. split_and!; [done|done|].
        cbn [dispatch_all app]. rewrite D. cbn [mbind option_bind]. rewrite D1. done. }
  destruct (Hrest p0 Hlen) as (fs & f1 & Es & E1 & D1). exists f0, fs, f1. split_and!; [done..|].
  cbn [dispatch_all]. rewrite D0. cbn [mbind option_bind]. by rewrite D1.
Qed.


(** A ping whose length is coded in the 16-bit form is accepted, but what is
    given to the workers as its data starts two bytes too early, inside of the
    mask key. *)
Theorem ping_long_form_shifted :
  exists conn', dispatch_frame 1024 (mkConn None 3) [137; 254; 0; 1; 10; 20; 30; 40; 75] =
    Some (conn', [Dispatch (ext_of true OPCODE_PING) [30; 40; 65]], true) /\
  exists f data', decode [137; 254; 0; 1; 10; 20; 30; 40; 75] 9 = Some (data', Some f) /\
    payload_length f = 1 /\ zsub data' (header_length f) 1 = Some [65].
Proof.
  eexists. split; [vm_compute; reflexivity|]. eexists _, _. split; [vm_compute; reflexivity|]. split; vm_compute; reflexivity.
Qed.
