(* ===== verification/Table.v ===== *)
(** * The shared-memory hash table

    [src/memory/table.cc] and [include/swoole_table.h]: a fixed array of rows,
    one per hash bucket, with rows for collisions out of a pool of slices,
    chained behind the row of the bucket.  A row holds its key and the bytes of
    its columns; each bucket is protected by the lock in its first row.  The
    rows are a store indexed by address, the pool is any [SlicePool] (in the
    program a [FixedPool]) and the hash function is a parameter, as the table
    lets its user replace it.  An operation has no result where the code would
    touch memory that is not a row, or wait for a lock that is never released. *)

From stdpp Require Import strings.
From S2P Require Import Prelude MemPool.

(** ** Columns and rows *)

(** [struct TableColumn] *)
Inductive col_type := TYPE_INT | TYPE_FLOAT | TYPE_STRING.
Record TableColumn := mkColumn { type : col_type; csize : Z; name : string; index : Z }.

(** [TableColumn::TableColumn] *)
Definition column_make (_name : string) (_type : col_type) (_size : Z) : TableColumn :=
  match _type with
  | TYPE_INT => mkColumn TYPE_INT 8 _name 0
  | TYPE_FLOAT => mkColumn TYPE_FLOAT 8 _name 0
  | TYPE_STRING => mkColumn TYPE_STRING (u32 (_size + 4)) _name 0
  end.

(** [struct TableRow]; the pid of the lock holder is left out. *)
Record TableRow := mkRow {
  lock_ : Z;
  active : bool;
  key_len : Z;
  next : Z;
  key : list Z;
  data : list Z;
}.
Definition SW_TABLE_KEY_SIZE : Z := 64.
Definition no_key : list Z := replicate 64 0.

Definition with_lock r x := mkRow x (active r) (key_len r) (next r) (key r) (data r).
Definition with_next r x := mkRow (lock_ r) (active r) (key_len r) x (key r) (data r).
Definition with_data r x := mkRow (lock_ r) (active r) (key_len r) (next r) (key r) x.

(** [TableRow::clear] *)
Definition row_clear (r : TableRow) : TableRow := mkRow (lock_ r) false 0 0 no_key (data r).

(** [TableRow::set_value]; [value] is [None] for a null pointer. *)
Definition set_value (r : TableRow) (col : TableColumn) (value : option (list Z)) (vlen : Z)
    : option TableRow :=
  match type col with
  | TYPE_INT | TYPE_FLOAT =>
      v ← value;
      b ← zsub v 0 8;
      d ← zblit (data r) (index col) b;
      Some (with_data r d)
  | TYPE_STRING =>
      let vlen := if csize col - 4 <? vlen then csize col - 4 else vlen in
      let vlen := match value with None => 0 | Some _ => vlen end in
      d ← zblit (data r) (index col) (le_bytes 4 vlen);
      if 0 <? vlen then
        v ← value;
        b ← zsub v 0 vlen;
        d ← zblit d (index col + 4) b;
        Some (with_data r d)
      else Some (with_data r d)
  end.

(** [TableRow::get_value] for the three types: the bytes of the value. *)
Definition get_value (r : TableRow) (col : TableColumn) : option (list Z) :=
  match type col with
  | TYPE_INT | TYPE_FLOAT => zsub (data r) (index col) 8
  | TYPE_STRING =>
      b ← zsub (data r) (index col) 4;
      zsub (data r) (index col + 4) (le_value b)
  end.

(** [TableColumn::clear] *)
Definition column_clear (col : TableColumn) (r : TableRow) : option TableRow :=
  match type col with
  | TYPE_STRING => set_value r col None 0
  | TYPE_FLOAT => set_value r col (Some (replicate 8 0)) 0
  | TYPE_INT => set_value r col (Some (replicate 8 0)) 0
  end.

(** [struct TableValue]; the column is given by its place in the table. *)
Record TableValue := mkValue { column : nat; vdata : list Z }.

(** [Table::apply_values] on the row itself *)
Fixpoint apply_values (cols : list TableColumn) (r : TableRow) (values : list TableValue) : option TableRow :=
  match values with
  | [] => Some r
  | v :: values =>
      col ← cols !! column v;
      r ← (match type col with
           | TYPE_STRING => set_value r col (Some (vdata v)) (zlen (vdata v))
           | _ =>
               b ← zsub (vdata v) 0 (csize col);
               d ← zblit (data r) (index col) b;
               Some (with_data r d)
           end);
      apply_values cols r values
  end.

(** [Table::match_values] *)
Fixpoint match_values (cols : list TableColumn) (r : TableRow) (expected : list TableValue) : option bool :=
  match expected with
  | [] => Some true
  | v :: expected =>
      col ← cols !! column v;
      same ← (match type col with
              | TYPE_STRING =>
                  b ← zsub (data r) (index col) 4;
                  let length := le_value b in
                  if negb (length =? zlen (vdata v)) then Some false
                  else if negb (length =? 0) then
                    x ← zsub (data r) (index col + 4) length;
                    y ← zsub (vdata v) 0 length;
                    Some (bool_decide (x = y))
                  else Some true
              | _ =>
                  x ← zsub (data r) (index col) (csize col);
                  y ← zsub (vdata v) 0 (csize col);
                  Some (bool_decide (x = y))
              end);
      if (same : bool) then match_values cols r expected else Some false
  end.

(** [Table::clear_row] *)
Fixpoint clear_row (cols : list TableColumn) (r : TableRow) : option TableRow :=
  match cols with
  | [] => Some r
  | col :: cols => r ← column_clear col r; clear_row cols r
  end.

(** ** The table *)

Section table.
Context {P : Type} `{SlicePool P}.

(** [struct TableIterator] *)
Record TableIterator := mkIterator { absolute_index : Z; collision_index : Z; current_ : TableRow }.

(** The counters of [class Table] *)
Record Stats := mkStats {
  row_num : Z;
  conflict_count : Z;
  insert_count : Z;
  delete_count : Z;
  update_count : Z;
  conflict_max_level : Z;
}.

(** [class Table] *)
Record Table := mkTable {
  column_list : list TableColumn;
  size : Z;
  mask : Z;
  item_size : Z;
  rows : list Z;
  mem : gmap Z TableRow;
  pool : P;
  stats : Stats;
  iterator : TableIterator;
}.
Context (hash_func : list Z -> Z).

Definition with_mem t m := mkTable (column_list t) (size t) (mask t) (item_size t) (rows t) m (pool t) (stats t) (iterator t).
Definition with_pool t p := mkTable (column_list t) (size t) (mask t) (item_size t) (rows t) (mem t) p (stats t) (iterator t).
Definition with_stats t s := mkTable (column_list t) (size t) (mask t) (item_size t) (rows t) (mem t) (pool t) s (iterator t).
Definition with_iterator t i := mkTable (column_list t) (size t) (mask t) (item_size t) (rows t) (mem t) (pool t) (stats t) i.

Definition add_rows s n := mkStats (u32 (row_num s + n)) (conflict_count s) (insert_count s) (delete_count s) (update_count s) (conflict_max_level s).
Definition count_conflict s level := mkStats (row_num s) (u64 (conflict_count s + 1)) (insert_count s) (delete_count s) (update_count s)
  (if conflict_max_level s <? level then level else conflict_max_level s).
Definition count_insert s := mkStats (row_num s) (conflict_count s) (u64 (insert_count s + 1)) (delete_count s) (update_count s) (conflict_max_level s).
Definition count_delete s := mkStats (row_num s) (conflict_count s) (insert_count s) (u64 (delete_count s + 1)) (update_count s) (conflict_max_level s).
Definition count_update s := mkStats (row_num s) (conflict_count s) (insert_count s) (delete_count s) (u64 (update_count s + 1)) (conflict_max_level s).

(** Writing to the row at an address. *)
Definition put_row (t : Table) (a : Z) (r : TableRow) : option Table :=
  _ ← mem t !! a; Some (with_mem t (<[a := r]> (mem t))).

(** [TableRow::lock] and [TableRow::unlock]; a lock that is taken is never
    released while the caller waits. *)
Definition lock (t : Table) (a : Z) : option Table :=
  r ← mem t !! a; if lock_ r =? 0 then put_row t a (with_lock r 1) else None.
Definition unlock (t : Table) (a : Z) : option Table :=
  r ← mem t !! a; put_row t a (with_lock r 0).

(** [Table::hash]: the row of the bucket *)
Definition hash (t : Table) (k : list Z) : option Z := zget (rows t) (Z.land (hash_func k) (mask t)).

(** [Table::is_valid_key_length] *)
Definition is_valid_key_length (keylen : Z) : bool := (0 <? keylen) && (keylen <? SW_TABLE_KEY_SIZE).

(** [Table::alloc_row] and [Table::free_row] *)
Definition alloc_row (t : Table) : option (Table * Z) :=
  '(p, a) ← sp_alloc (pool t); Some (with_pool t p, a).
Definition free_row (t : Table) (a : Z) : option Table :=
  r ← mem t !! a;
  t ← put_row t a (row_clear r);
  p ← sp_free (pool t) a;
  Some (with_pool t p).

(** [Table::init_row] *)
Definition init_row (t : Table) (a : Z) (k : list Z) : option Table :=
  r ← mem t !! a;
  k' ← zblit no_key 0 k;
  t ← put_row t a (mkRow (lock_ r) true (u8 (zlen k)) 0 k' (data r));
  Some (with_stats t (add_rows (stats t) 1)).

(** [sw_mem_equal] of the key of a row *)
Definition key_equal (r : TableRow) (k : list Z) : bool :=
  bool_decide (key_len r = zlen k /\ take (Z.to_nat (key_len r)) (key r) = k).

(** [Table::find_row]: the row (or 0), the previous row (or 0) and the conflict
    level.  No chain is longer than the number of rows. *)
Fixpoint find_loop (fuel : nat) (t : Table) (k : list Z) (row previous level : Z) : option (Z * Z * Z) :=
  match fuel with
  | O => None
  | S fuel =>
      r ← mem t !! row;
      if key_equal r k then Some (row, previous, level)
      else if next r =? 0 then Some (0, row, level)
      else find_loop fuel t k (next r) row (level + 1)
  end.
Definition find_row (t : Table) (root : Z) (k : list Z) : option (Z * Z * Z) :=
  r ← mem t !! root;
  if negb (active r) then Some (0, 0, 0)
  else find_loop (base.size (mem t)) t k root 0 1.

(** [Table::delete_row] *)
Definition delete_row (t : Table) (root row previous : Z) : option Table :=
  r ← mem t !! row;
  t ← (if (next r =? 0) && (row =? root) then put_row t row (row_clear r)
       else if row =? root then
         let nx := next r in
         n ← mem t !! nx;
         kb ← zsub (key n) 0 (key_len n + 1);
         k ← zblit (key r) 0 kb;
         db ← zsub (data n) 0 (item_size t);
         d ← zblit (data r) 0 db;
         t ← put_row t row (mkRow (lock_ r) (active r) (key_len n) (next n) k d);
         free_row t nx
       else
         p ← mem t !! previous;
         t ← put_row t previous (with_next p (next r));
         free_row t row);
  Some (with_stats t (add_rows (count_delete (stats t)) (-1))).

(** Applying a function to the row at an address. *)
Definition on_row (t : Table) (a : Z) (f : TableRow -> option TableRow) : option Table :=
  r ← mem t !! a; r ← f r; put_row t a r.

(** ** Operations *)

(** [Table::get]: the row and the locked row of the bucket (0 if the key is
    not valid). *)
Definition get (t : Table) (k : list Z) : option (Table * Z * Z) :=
  if negb (is_valid_key_length (zlen k)) then Some (t, 0, 0) else
  root ← hash t k;
  t ← lock t root;
  '(row, _, _) ← find_row t root k;
  Some (t, row, root).

(** [Table::exists] *)
Definition exists_ (t : Table) (k : list Z) : option (Table * bool) :=
  '(t, row, rowlock) ← get t k;
  t ← (if negb (rowlock =? 0) then unlock t rowlock else Some t);
  Some (t, negb (row =? 0)).

Definition FLAG_NEW_ROW : Z := 1.
Definition FLAG_CONFLICT : Z := 2.

(** [Table::set(key, keylen, rowlock, out_flags)]: the row, the locked row and
    the flags *)
Definition set_row (t : Table) (k : list Z) : option (Table * Z * Z * Z) :=
  if negb (is_valid_key_length (zlen k)) then Some (t, 0, 0, 0) else
  root ← hash t k;
  t ← lock t root;
  '(row, previous, level) ← find_row t root k;
  if row =? 0 then
    r0 ← mem t !! root;
    if active r0 then
      let t := with_stats t (count_conflict (stats t) level) in
      '(t, row) ← alloc_row t;
      if row =? 0 then Some (t, 0, root, 0) else
      t ← init_row t row k;
      p ← mem t !! previous;
      t ← put_row t previous (with_next p row);
      let flags := Z.lor (if 1 <? level then FLAG_CONFLICT else 0) FLAG_NEW_ROW in
      Some (with_stats t (count_insert (stats t)), row, root, flags)
    else
      t ← init_row t root k;
      Some (with_stats t (count_insert (stats t)), root, root, FLAG_NEW_ROW)
  else
    let flags := if negb (previous =? 0) then FLAG_CONFLICT else 0 in
    Some (with_stats t (count_update (stats t)), row, root, flags).

(** [Table::set(key, keylen, values, out_of_space)]: the result and whether the
    table is out of space *)
Definition set (t : Table) (k : list Z) (values : list TableValue) : option (Table * bool * bool) :=
  if negb (is_valid_key_length (zlen k)) then Some (t, false, false) else
  '(t, row, rowlock, flags) ← set_row t k;
  if row =? 0 then
    if negb (rowlock =? 0) then t ← unlock t rowlock; Some (t, false, true)
    else Some (t, false, false)
  else
    t ← (if negb (Z.land flags FLAG_NEW_ROW =? 0) then on_row t row (clear_row (column_list t)) else Some t);
    t ← on_row t row (fun r => apply_values (column_list t) r values);
    t ← unlock t rowlock;
    Some (t, true, false).

(** [Table::add] *)
Definition add (t : Table) (k : list Z) (values : list TableValue) : option (Table * bool * bool) :=
  if negb (is_valid_key_length (zlen k)) then Some (t, false, false) else
  root ← hash t k;
  t ← lock t root;
  '(found, previous, level) ← find_row t root k;
  if negb (found =? 0) then t ← unlock t root; Some (t, false, false) else
  r0 ← mem t !! root;
  '(t, row) ← (if active r0 then
      '(t, row) ← alloc_row t;
      if row =? 0 then Some (t, 0) else
      t ← init_row t row k;
      p ← mem t !! previous;
      t ← put_row t previous (with_next p row);
      Some (with_stats t (count_conflict (stats t) level), row)
    else
      t ← init_row t root k; Some (t, root));
  if row =? 0 then t ← unlock t root; Some (t, false, true) else
  t ← on_row t row (clear_row (column_list t));
  t ← on_row t row (fun r => apply_values (column_list t) r values);
  t ← unlock (with_stats t (count_insert (stats t))) root;
  Some (t, true, false).

(** [Table::update] *)
Definition update (t : Table) (k : list Z) (values : list TableValue) : option (Table * bool) :=
  if negb (is_valid_key_length (zlen k)) then Some (t, false) else
  root ← hash t k;
  t ← lock t root;
  '(row, _, _) ← find_row t root k;
  if row =? 0 then t ← unlock t root; Some (t, false) else
  t ← on_row t row (fun r => apply_values (column_list t) r values);
  t ← unlock (with_stats t (count_update (stats t))) root;
  Some (t, true).

(** [Table::cmpset] *)
Definition cmpset (t : Table) (k : list Z) (expected values : list TableValue) : option (Table * bool) :=
  if negb (is_valid_key_length (zlen k)) then Some (t, false) else
  root ← hash t k;
  t ← lock t root;
  '(row, _, _) ← find_row t root k;
  ok ← (if row =? 0 then Some false
        else r ← mem t !! row; match_values (column_list t) r expected);
  if negb ok then t ← unlock t root; Some (t, false) else
  t ← on_row t row (fun r => apply_values (column_list t) r values);
  t ← unlock (with_stats t (count_update (stats t))) root;
  Some (t, true).

(** [Table::cmpdel] *)
Definition cmpdel (t : Table) (k : list Z) (expected : list TableValue) : option (Table * bool) :=
  if negb (is_valid_key_length (zlen k)) then Some (t, false) else
  root ← hash t k;
  t ← lock t root;
  '(row, previous, _) ← find_row t root k;
  ok ← (if row =? 0 then Some false
        else r ← mem t !! row; match_values (column_list t) r expected);
  if negb ok then t ← unlock t root; Some (t, false) else
  t ← delete_row t root row previous;
  t ← unlock t root;
  Some (t, true).

(** [Table::getdel] of one column, or of the whole row *)
Definition getdel (t : Table) (k : list Z) (col : option TableColumn) : option (Table * option (list Z)) :=
  if negb (is_valid_key_length (zlen k)) then Some (t, None) else
  let snapshot_size := match col with None => item_size t | Some c => csize c end in
  root ← hash t k;
  t ← lock t root;
  '(row, previous, _) ← find_row t root k;
  if row =? 0 then t ← unlock t root; Some (t, None) else
  r ← mem t !! row;
  snapshot ← (if negb (snapshot_size =? 0)
              then zsub (data r) (match col with None => 0 | Some c => index c end) snapshot_size
              else Some []);
  t ← delete_row t root row previous;
  t ← unlock t root;
  Some (t, Some snapshot).

(** [Table::del] *)
Definition del (t : Table) (k : list Z) : option (Table * bool) :=
  if negb (is_valid_key_length (zlen k)) then Some (t, false) else
  root ← hash t k;
  t ← lock t root;
  '(row, previous, _) ← find_row t root k;
  if row =? 0 then t ← unlock t root; Some (t, false) else
  t ← delete_row t root row previous;
  t ← unlock t root;
  Some (t, true).

(** [Table::count] *)
Definition count (t : Table) : Z := row_num (stats t).

(** The method [get] of the PHP class: the field of a row is read under the
    lock of its bucket. *)
Definition fetch (t : Table) (k : list Z) (field : nat) : option (Table * option (list Z)) :=
  if negb (is_valid_key_length (zlen k)) then Some (t, None) else
  '(t, row, _rowlock) ← get t k;
  v ← (if row =? 0 then Some None
       else match column_list t !! field with
            | Some col => r ← mem t !! row; v ← get_value r col; Some (Some v)
            | None => Some None
            end);
  t ← (if negb (_rowlock =? 0) then unlock t _rowlock else Some t);
  Some (t, v).

(** *** Iteration *)

(** [Table::get_by_index] (0 for a null pointer) *)
Definition get_by_index (t : Table) (i : Z) : option Z :=
  a ← zget (rows t) i; r ← mem t !! a; Some (if active r then a else 0).

Definition with_current it r := mkIterator (absolute_index it) (collision_index it) r.
Definition with_absolute it n := mkIterator (u32 n) (collision_index it) (current_ it).
Definition with_collision it n := mkIterator (absolute_index it) (u32 n) (current_ it).

(** A row of zeroes, and [TableIterator::reset] *)
Definition zero_row (n : Z) : TableRow := mkRow 0 false 0 0 no_key (replicate (Z.to_nat n) 0).
Definition reset (t : Table) : TableIterator := mkIterator 0 0 (zero_row (item_size t)).
(** [Table::rewind] *)
Definition rewind (t : Table) : Table := with_iterator t (reset t).

(** The inner loop of [Table::forward]: the row at place [collision_index] of
    the chain, or 0. *)
Fixpoint nth_row (fuel : nat) (t : Table) (tmp_row : Z) (i : Z) : option Z :=
  match fuel with
  | O => None
  | S fuel =>
      if tmp_row =? 0 then Some 0
      else if i =? collision_index (iterator t) then Some tmp_row
      else r ← mem t !! tmp_row; nth_row fuel t (next r) (i + 1)
  end.

(** [Table::forward] *)
Fixpoint forward_loop (fuel : nat) (t : Table) : option Table :=
  match fuel with
  | O => None
  | S fuel =>
      let it := iterator t in
      if absolute_index it <? size t then
        row ← get_by_index t (absolute_index it);
        if row =? 0 then forward_loop fuel (with_iterator t (with_absolute it (absolute_index it + 1))) else
        t ← lock t row;
        r ← mem t !! row;
        if next r =? 0 then
          unlock (with_iterator t (with_current (with_absolute it (absolute_index it + 1)) r)) row
        else
          tmp_row ← nth_row (S (base.size (mem t))) t row 0;
          if tmp_row =? 0 then
            t ← unlock (with_iterator t (with_collision it 0)) row;
            forward_loop fuel (with_iterator t (with_absolute (iterator t) (absolute_index it + 1)))
          else
            c ← mem t !! tmp_row;
            unlock (with_iterator t (with_current (with_collision it (collision_index it + 1)) c)) row
      else
        let c := current_ it in
        Some (with_iterator t (with_current it (mkRow 0 false 0 0 no_key (data c))))
  end.
Definition forward (t : Table) : option Table := forward_loop (S (Z.to_nat (size t))) t.
End table.

(** ** The values of a row *)

(** The bytes of column [c] in the row data [d] are [v]. *)
Definition field (c : TableColumn) (d v : list Z) : Prop :=
  match type c with
  | TYPE_STRING => exists b, zsub d (index c) 4 = Some b /\ 0 <= le_value b <= csize c - 4 /\
      zsub d (index c + 4) (le_value b) = Some v
  | _ => zsub d (index c) 8 = Some v
  end.
Definition fields (cols : list TableColumn) (d : list Z) (vals : list (list Z)) : Prop :=
  Forall2 (fun c v => field c d v) cols vals.

(** The columns lie side by side in a row. *)
Record columns_ok (cols : list TableColumn) (total : Z) : Prop := {
  col_range i c : cols !! i = Some c -> 0 <= index c /\ index c + csize c <= total /\
    match type c with TYPE_STRING => 4 <= csize c < 2 ^ 32 | _ => csize c = 8 end;
  col_apart i j c c' : cols !! i = Some c -> cols !! j = Some c' -> i <> j ->
    index c + csize c <= index c' \/ index c' + csize c' <= index c;
}.

(** What is stored for a value, and what a new row holds. *)
Definition trunc (c : TableColumn) (v : list Z) : list Z :=
  match type c with TYPE_STRING => take (Z.to_nat (csize c - 4)) v | _ => take 8 v end.
Definition blank (c : TableColumn) : list Z :=
  match type c with TYPE_STRING => [] | _ => replicate 8 0 end.

(** The specification of [apply_values]. *)
Definition assign (cols : list TableColumn) (vals : list (list Z)) (v : TableValue) : list (list Z) :=
  match cols !! column v with Some c => <[column v := trunc c (vdata v)]> vals | None => vals end.
Definition assign_all (cols : list TableColumn) (values : list TableValue) (vals : list (list Z)) :=
  foldl (assign cols) vals values.

(** A caller passes columns of the table, and whole numbers for numbers. *)
Definition value_ok (cols : list TableColumn) (v : TableValue) : Prop :=
  exists c, cols !! column v = Some c /\ (type c <> TYPE_STRING -> 8 <= zlen (vdata v)).

(** [d'] is [d] but for the bytes of column [c]. *)
Definition only (c : TableColumn) (d d' : list Z) : Prop :=
  length d' = length d /\
  forall off n, off + n <= index c \/ index c + csize c <= off -> zsub d' off n = zsub d off n.

Lemma field_get r c v : field c (data r) v -> get_value r c = Some v.
Proof.
  unfold field, get_value. destruct (type c); [done|done|]. intros (b & -> & _ & ?). done.
Qed.

Lemma field_fun c d v v' : field c d v -> field c d v' -> v = v'.
Proof.
  unfold field. destruct (type c); [congruence|congruence|].
  intros (b & Hb & _ & Hv) (b' & Hb' & _ & Hv'). congruence.
Qed.

Lemma fields_fun cols d vals vals' : fields cols d vals -> fields cols d vals' -> vals = vals'.
Proof.
  intros H. revert vals'. induction H as [|c v cols vals Hv _ IH]; intros vals' H'; inversion H'; subst; [done|].
  f_equal; [by eapply field_fun|by apply IH].
Qed.

Lemma field_only cols total i j c c' d d' v :
  columns_ok cols total -> cols !! i = Some c -> cols !! j = Some c' -> i <> j ->
  only c d d' -> field c' d v -> field c' d' v.
Proof.
  intros Hok Hc Hc' Hne [_ Ho]. destruct (col_range _ _ Hok _ _ Hc') as (Hi & _ & Hs).
  pose proof (col_apart _ _ Hok _ _ _ _ Hc Hc' Hne) as Hap. unfold field.
  destruct (type c'); [rewrite Ho by lia; done|rewrite Ho by lia; done|].
  intros (b & Hb & Hl & Hv). exists b. rewrite !Ho by lia. done.
Qed.

(** Writing one column. *)
Lemma fields_insert cols total i c d d' v vals :
  columns_ok cols total -> cols !! i = Some c -> only c d d' -> field c d' v ->
  fields cols d vals -> fields cols d' (<[i := v]> vals).
Proof.
  intros Hok Hc Ho Hv Hf. apply Forall2_lookup. intros j.
  destruct (decide (i = j)) as [<-|Hne].
  - pose proof (Forall2_length _ _ _ Hf). rewrite Hc, list_lookup_insert_eq.
    + by constructor.
    + apply lookup_lt_Some in Hc. lia.
  - rewrite list_lookup_insert_ne by done. pose proof (proj1 (Forall2_lookup _ _ _) Hf j) as Hj.
    destruct (cols !! j) as [c'|] eqn:Ec, (vals !! j) as [v'|] eqn:Ev; inversion Hj; subst; constructor.
    eapply (field_only cols total i j); done.
Qed.

Lemma only_blit c d d' off b :
  zblit d off b = Some d' -> index c <= off -> off + zlen b <= index c + csize c -> only c d d'.
Proof.
  intros Hb Hl Hr. split; [by eapply zblit_length|]. intros. eapply zsub_zblit_ne; [done|]. lia.
Qed.

Lemma only_trans c d d' d'' : only c d d' -> only c d' d'' -> only c d d''.
Proof. intros [Hl Ho] [Hl' Ho']. split; [congruence|]. intros. by rewrite Ho', Ho. Qed.

Lemma le_value_4 n : 0 <= n < 2 ^ 32 -> le_value (le_bytes 4 n) = n.
Proof. intros. apply le_value_bytes. simpl. lia. Qed.

(** [TableRow::set_value] of a string, truncated to the column. *)
Lemma set_string_spec r c v vlen total :
  type c = TYPE_STRING -> 0 <= index c -> index c + csize c <= total -> zlen (data r) = total ->
  4 <= csize c < 2 ^ 32 -> match v with Some v => vlen = zlen v | None => vlen = 0 end ->
  exists d, set_value r c v vlen = Some (with_data r d) /\ only c (data r) d /\
    field c d (trunc c (default [] v)).
Proof.
  intros Ht Hi Hsz Hd Hc Hv. unfold set_value. rewrite Ht.
  set (n := match v with None => 0 | Some _ => if csize c - 4 <? vlen then csize c - 4 else vlen end).
  assert (Hn : 0 <= n <= csize c - 4 /\ n = zlen (trunc c (default [] v))).
  { unfold trunc. rewrite Ht. subst n. destruct v as [v|]; simpl; [|rewrite take_nil; simpl; lia].
    rewrite length_take. subst vlen. destruct (Z.ltb_spec (csize c - 4) (zlen v)); lia. }
  destruct Hn as [Hn En].
  replace (match v with None => 0 | _ => _ end) with n by (subst n; by destruct v).
  destruct (zblit_in_bounds (data r) (index c) (le_bytes 4 n)) as [d1 E1];
    [done|rewrite le_bytes_length; simpl; lia|].
  rewrite E1. cbn [mbind option_bind]. pose proof (zblit_length _ _ _ _ E1) as L1.
  assert (only c (data r) d1) as O1 by (eapply only_blit; [done|lia|rewrite le_bytes_length; simpl; lia]).
  pose proof (zsub_zblit _ _ _ _ E1) as R1. rewrite le_bytes_length in R1. change (Z.of_nat 4) with 4 in R1.
  destruct (Z.ltb_spec 0 n) as [Hpos|Hz].
  - destruct v as [v|]; [|simpl in n; lia]. cbn [mbind option_bind].
    assert (n = zlen (trunc c v)) as En' by exact En. clear En.
    assert (zsub v 0 n = Some (trunc c v)) as ->.
    { apply zsub_Some. unfold trunc in *. rewrite Ht in *. rewrite length_take in En'.
      split_and!; [lia..|]. rewrite drop_0, <- (take_min_length v (Z.to_nat (csize c - 4))).
      f_equal. lia. }
    cbn [mbind option_bind].
    destruct (zblit_in_bounds d1 (index c + 4) (trunc c v)) as [d2 E2]; [lia|rewrite L1; lia|].
    rewrite E2. cbn [mbind option_bind]. exists d2. split; [done|]. split.
    + eapply only_trans; [done|]. eapply only_blit; [done|lia|lia].
    + unfold field. rewrite Ht. exists (le_bytes 4 n). rewrite le_value_4 by lia. split_and!; try lia.
      * rewrite <- R1. eapply zsub_zblit_ne; [done|]. lia.
      * rewrite En'. by eapply zsub_zblit.
  - exists d1. split; [done|]. split; [done|]. unfold field. rewrite Ht. exists (le_bytes 4 n).
    rewrite le_value_4 by lia. split_and!; [done|lia|lia|].
    replace n with 0 by lia. apply zsub_Some. split_and!; [lia..|].
    destruct (trunc c (default [] v)) as [|? ?]; [done|]. simpl in En. lia.
Qed.

(** Storing a number: eight bytes. *)
Lemma set_number_spec r c v total :
  type c <> TYPE_STRING -> 0 <= index c -> index c + csize c <= total -> zlen (data r) = total ->
  csize c = 8 -> 8 <= zlen v ->
  exists b d, zsub v 0 8 = Some b /\ zblit (data r) (index c) b = Some d /\ only c (data r) d /\
    field c d (trunc c v).
Proof.
  intros Ht Hi Hsz Hd Hc Hv. destruct (zsub_in_bounds v 0 8) as [b Eb]; [lia..|].
  pose proof (zsub_length _ _ _ _ Eb) as Lb.
  destruct (zblit_in_bounds (data r) (index c) b) as [d Ed]; [lia..|].
  exists b, d. split_and!; [done|done|eapply only_blit; [done|lia..]|].
  pose proof (zsub_zblit _ _ _ _ Ed) as R. rewrite Lb in R.
  apply zsub_Some in Eb as (_ & _ & _ & ->). unfold field, trunc.
  destruct (type c); try done; by rewrite drop_0 in R.
Qed.

Lemma with_data_id r : with_data r (data r) = r.
Proof. by destruct r. Qed.

Lemma apply_values_spec cols total r values vals :
  columns_ok cols total -> zlen (data r) = total -> Forall (value_ok cols) values ->
  fields cols (data r) vals ->
  exists d, apply_values cols r values = Some (with_data r d) /\ zlen d = total /\
    fields cols d (assign_all cols values vals).
Proof.
  intros Hok Hlen Hv. revert r vals Hlen. induction Hv as [|v values (c & Hc & Hn) _ IH];
    intros r vals Hlen Hf; cbn [apply_values].
  { exists (data r). by rewrite with_data_id. }
  destruct (col_range _ _ Hok _ _ Hc) as (Hi & Hr & Hs). rewrite Hc. cbn [mbind option_bind].
  assert (exists d, match type c with
      | TYPE_STRING => set_value r c (Some (vdata v)) (zlen (vdata v))
      | _ => b ← zsub (vdata v) 0 (csize c); d ← zblit (data r) (index c) b; Some (with_data r d)
      end = Some (with_data r d) /\ only c (data r) d /\ field c d (trunc c (vdata v))) as (d & -> & Ho & Hfd).
  { destruct (type c) eqn:Ht.
    1,2: destruct (set_number_spec r c (vdata v) total) as (b & d & Eb & Ed & ? & ?);
      [first [done | lia | congruence | apply Hn; congruence]..|]; exists d; rewrite Hs, Eb; cbn [mbind option_bind]; rewrite Ed; done.
    destruct (set_string_spec r c (Some (vdata v)) (zlen (vdata v)) total) as (d & ? & ? & ?); try done. eauto. }
  cbn [mbind option_bind].
  destruct (IH (with_data r d) (<[column v := trunc c (vdata v)]> vals)) as (d' & E & Hl & Hf').
  - simpl. by rewrite (proj1 Ho).
  - by eapply fields_insert.
  - exists d'. split_and!; [exact E|done|]. unfold assign_all in *. cbn [foldl]. unfold assign at 2.
    by rewrite Hc.
Qed.

(** A new row, whatever its memory held. *)
Lemma clear_row_spec cols total r :
  columns_ok cols total -> zlen (data r) = total ->
  exists d, clear_row cols r = Some (with_data r d) /\ zlen d = total /\ fields cols d (blank <$> cols).
Proof.
  intros Hok. cut (forall pre rest r, cols = pre ++ rest -> zlen (data r) = total ->
    fields pre (data r) (blank <$> pre) ->
    exists d, clear_row rest r = Some (with_data r d) /\ zlen d = total /\ fields cols d (blank <$> cols)).
  { intros H Hl. apply (H [] cols); [done|done|constructor]. }
  clear r. intros pre rest. revert pre. induction rest as [|c rest IH]; intros pre r Ecols Hlen Hf.
  { rewrite app_nil_r in Ecols. subst pre. exists (data r). cbn [clear_row]. by rewrite with_data_id. }
  assert (cols !! length pre = Some c) as Hc by (rewrite Ecols; by apply list_lookup_middle).
  destruct (col_range _ _ Hok _ _ Hc) as (Hi & Hr & Hs). cbn [clear_row].
  assert (exists d, column_clear c r = Some (with_data r d) /\ only c (data r) d /\ field c d (blank c))
    as (d & -> & Ho & Hfd).
  { unfold column_clear, blank. destruct (type c) eqn:Ht.
    1,2: destruct (set_number_spec r c (replicate 8 0) total) as (b & d & Eb & Ed & ? & Hfd);
      [first [done | lia | congruence]..|]; exists d; unfold set_value; rewrite Ht; cbn [mbind option_bind];
      rewrite Eb; cbn [mbind option_bind]; rewrite Ed; (split_and!; [done|done|]);
      unfold trunc in Hfd; rewrite Ht in Hfd; exact Hfd.
    destruct (set_string_spec r c None 0 total) as (d & E & ? & Hfd); try done.
    exists d. split_and!; [done|done|]. unfold trunc in Hfd. rewrite Ht in Hfd. simpl in Hfd.
    by rewrite take_nil in Hfd. }
  cbn [mbind option_bind].
  destruct (IH (pre ++ [c]) (with_data r d)) as (d' & E & Hl' & Hf').
  - by rewrite <- (assoc_L (++)).
  - simpl. by rewrite (proj1 Ho).
  - rewrite fmap_app. apply Forall2_app; [|by repeat constructor]. apply Forall2_lookup. intros j.
    pose proof (proj1 (Forall2_lookup _ _ _) Hf j) as Hj.
    destruct (pre !! j) as [c'|] eqn:Ej; [|rewrite list_lookup_fmap, Ej in *; constructor].
    rewrite list_lookup_fmap, Ej in *. constructor. inversion Hj; subst.
    eapply (field_only _ _ (length pre) j); [exact Hok|done| | |done|done].
    + rewrite lookup_app_l; [done|]. by eapply lookup_lt_Some.
    + apply lookup_lt_Some in Ej. lia.
  - exists d'. done.
Qed.

(** Only the data of a row matters to the functions that write values. *)
Definition move_to (r : TableRow) (o : option TableRow) : option TableRow :=
  (fun y => with_data r (data y)) <$> o.

Lemma set_value_data r r' c v n : data r = data r' -> set_value r' c v n = move_to r' (set_value r c v n).
Proof.
  intros Hd. unfold set_value, move_to. rewrite <- Hd.
  destruct (type c); [destruct v as [v|]; [|done]|destruct v as [v|]; [|done]|]; cbn [mbind option_bind].
  1,2: destruct (zsub v 0 8); [|done]; cbn [mbind option_bind]; by destruct (zblit _ _ _).
  destruct (zblit _ _ _); [|done]. cbn [mbind option_bind]. case_match; [|done].
  destruct v; [|done]. cbn [mbind option_bind]. destruct (zsub _ _ _); [|done]. cbn [mbind option_bind].
  by destruct (zblit _ _ _).
Qed.

Lemma clear_row_data cols r r' : data r = data r' -> clear_row cols r' = move_to r' (clear_row cols r).
Proof.
  revert r r'. induction cols as [|c cols IH]; intros r r' Hd; cbn [clear_row].
  { unfold move_to. simpl. by rewrite Hd, with_data_id. }
  assert (column_clear c r' = move_to r' (column_clear c r)) as ->.
  { unfold column_clear. destruct (type c); by apply set_value_data. }
  destruct (column_clear c r) as [x|]; [|done]. unfold move_to at 1. cbn [mbind option_bind fmap option_map option_fmap].
  rewrite (IH x (with_data r' (data x))) by done. unfold move_to. by destruct (clear_row cols x).
Qed.

Lemma apply_values_data cols r r' values :
  data r = data r' -> apply_values cols r' values = move_to r' (apply_values cols r values).
Proof.
  revert r r'. induction values as [|v values IH]; intros r r' Hd; cbn [apply_values].
  { unfold move_to. simpl. by rewrite Hd, with_data_id. }
  destruct (cols !! column v) as [c|]; [|done]. cbn [mbind option_bind].
  set (w := fun r => match type c with
    | TYPE_STRING => set_value r c (Some (vdata v)) (zlen (vdata v))
    | _ => b ← zsub (vdata v) 0 (csize c); d ← zblit (data r) (index c) b; Some (with_data r d) end).
  change (mbind (fun r0 => apply_values cols r0 values) (w r') =
    move_to r' (mbind (fun r0 => apply_values cols r0 values) (w r))).
  assert (w r' = move_to r' (w r)) as ->.
  { subst w. simpl. destruct (type c); [..|by apply set_value_data]; rewrite <- Hd;
      (destruct (zsub _ _ _); [|done]); cbn [mbind option_bind]; by destruct (zblit _ _ _). }
  destruct (w r) as [x|]; [|done]. unfold move_to at 1. cbn [mbind option_bind fmap option_map option_fmap].
  rewrite (IH x (with_data r' (data x))) by done. unfold move_to. by destruct (apply_values cols x values).
Qed.

(** The specification of [match_values]. *)
Definition expects (cols : list TableColumn) (vals : list (list Z)) (v : TableValue) : Prop :=
  match cols !! column v with
  | Some c => vals !! column v = Some (match type c with TYPE_STRING => vdata v | _ => take 8 (vdata v) end)
  | None => False
  end.

Lemma match_values_spec cols total r expected vals :
  columns_ok cols total -> Forall (value_ok cols) expected -> fields cols (data r) vals ->
  exists b, match_values cols r expected = Some b /\ (b = true <-> Forall (expects cols vals) expected).
Proof.
  intros Hok Hv Hf. induction Hv as [|v expected (c & Hc & Hn) _ IH]; cbn [match_values].
  { exists true. split; [done|]. split; [constructor|done]. }
  destruct (col_range _ _ Hok _ _ Hc) as (Hi & Hr & Hs). rewrite Hc. cbn [mbind option_bind].
  destruct (Forall2_lookup_l _ _ _ _ _ Hf Hc) as (x & Hx & Hfx).
  assert (exists b, match type c with
      | TYPE_STRING =>
          b ← zsub (data r) (index c) 4;
          if negb (le_value b =? zlen (vdata v)) then Some false
          else if negb (le_value b =? 0) then
            x ← zsub (data r) (index c + 4) (le_value b); y ← zsub (vdata v) 0 (le_value b);
            Some (bool_decide (x = y))
          else Some true
      | _ => x ← zsub (data r) (index c) (csize c); y ← zsub (vdata v) 0 (csize c); Some (bool_decide (x = y))
      end = Some b /\ (b = true <-> expects cols vals v)) as (b & -> & Hb).
  { unfold expects. rewrite Hc, Hx. unfold field in Hfx. destruct (type c) eqn:Ht.
    1,2: rewrite Hs, Hfx; cbn [mbind option_bind];
      destruct (zsub_in_bounds (vdata v) 0 8) as [y Ey]; [lia|lia|apply Hn; congruence|];
      rewrite Ey; cbn [mbind option_bind]; eexists; (split; [done|]); rewrite bool_decide_eq_true;
      apply zsub_Some in Ey as (_ & _ & _ & ->); rewrite drop_0; split; [intros ->; done|by intros [= ->]].
    destruct Hfx as (lb & Hlb & Hl & Hdx). rewrite Hlb. cbn [mbind option_bind].
    pose proof (zsub_length _ _ _ _ Hdx) as Lx.
    destruct (Z.eqb_spec (le_value lb) (zlen (vdata v))) as [Heq|Hne]; cbn [negb].
    2: { exists false. split; [done|]. split; [done|]. intros [= ->]. lia. }
    destruct (Z.eqb_spec (le_value lb) 0) as [Hz|Hnz]; cbn [negb].
    - exists true. split; [done|]. split; [intros _|done]. f_equal.
      assert (x = []) as -> by (destruct x; [done|simpl in Lx; lia]).
      destruct (vdata v); [done|simpl in Heq; lia].
    - rewrite Hdx. cbn [mbind option_bind].
      destruct (zsub_in_bounds (vdata v) 0 (le_value lb)) as [y Ey]; [lia..|].
      rewrite Ey. cbn [mbind option_bind]. eexists. split; [done|]. rewrite bool_decide_eq_true.
      apply zsub_Some in Ey as (_ & _ & _ & ->). rewrite drop_0, take_ge by lia.
      split; [intros ->; done|by intros [= ->]]. }
  cbn [mbind option_bind]. destruct b.
  - destruct IH as (b & -> & Hb'). exists b. split; [done|]. rewrite Forall_cons, Hb'. tauto.
  - exists false. split; [done|]. rewrite Forall_cons. split; [done|]. intros [Hx' _]. by apply Hb in Hx'.
Qed.

(** ** The invariant *)

(** A row in a chain: its address, its key and its data. *)
Abbreviation entry := (Z * (list Z * list Z))%type.
Implicit Types (l : list entry) (m : gmap Z TableRow) (B : list (list entry)).

Definition rkey (r : TableRow) : list Z := take (Z.to_nat (key_len r)) (key r).

Definition row_holds (r : TableRow) (k d : list Z) : Prop :=
  active r = true /\ rkey r = k /\ 0 < key_len r < SW_TABLE_KEY_SIZE /\ zlen (key r) = SW_TABLE_KEY_SIZE /\
  data r = d.

(** The rows [l] are chained from address [a] on, and lead to address [e]. *)
Fixpoint seg m (a : Z) l (e : Z) : Prop :=
  match l with
  | [] => a = e
  | (b, (k, d)) :: l' => a = b /\ a <> 0 /\ exists r, m !! a = Some r /\ row_holds r k d /\ seg m (next r) l' e
  end.
Abbreviation chain m a l := (seg m a l 0).

(** The bucket whose first row is at [root]. *)
Definition bucket m (root : Z) l : Prop :=
  root <> 0 /\ exists r, m !! root = Some r /\
    if active r then chain m root l else l = [] /\ next r = 0.

Definition tails l : list Z := tail l.*1.
Definition footprint (root : Z) l : list Z := root :: tails l.

Section wf.
Context {P : Type} `{SlicePool P} (hash_func : list Z -> Z).
Abbreviation Table := (Table (P := P)).

(** [lk] are the rows that are locked, [B] the chains of the buckets. *)
Record table_wf (lk : gset Z) (t : Table) B : Prop := {
  tw_size : exists n, 0 <= n < 32 /\ size t = 2 ^ n /\ mask t = 2 ^ n - 1 /\ zlen (rows t) = size t;
  tw_len : length B = length (rows t);
  tw_bucket i root l : rows t !! i = Some root -> B !! i = Some l -> bucket (mem t) root l;
  tw_apart i j ri rj li lj a : rows t !! i = Some ri -> rows t !! j = Some rj ->
    B !! i = Some li -> B !! j = Some lj -> a ∈ footprint ri li -> a ∈ footprint rj lj -> i = j;
  tw_keys i l : B !! i = Some l -> NoDup l.*1 /\ NoDup l.*2.*1 /\
    forall a k d, (a, (k, d)) ∈ l -> Z.land (hash_func k) (mask t) = Z.of_nat i;
  tw_mem a : a ∈ rows t \/ a ∈ sp_all (pool t) -> exists r, mem t !! a = Some r /\
    zlen (data r) = item_size t /\ zlen (key r) = SW_TABLE_KEY_SIZE;
  tw_lock a r : mem t !! a = Some r -> lock_ r = if decide (a ∈ lk) then 1 else 0;
  tw_roots a : a ∈ rows t -> a ∉ sp_all (pool t);
  tw_live a : a ∈ sp_live (pool t) <-> exists i l, B !! i = Some l /\ a ∈ tails l;
  tw_sub a : a ∈ sp_live (pool t) -> a ∈ sp_all (pool t);
  tw_pool : sp_inv (pool t);
  tw_count : row_num (stats t) = zlen (concat B);
  tw_capacity : size t + Z.of_nat (base.size (sp_all (pool t))) < 2 ^ 32 - 1;
  tw_cols : columns_ok (column_list t) (item_size t);
}.

(** The table holds data [d] under key [k]. *)
Definition holds B (k d : list Z) : Prop := exists i l a, B !! i = Some l /\ (a, (k, d)) ∈ l.

(** What the user of the table sees: the values of the columns by key. *)
Definition repr (t : Table) (M : gmap (list Z) (list (list Z))) : Prop :=
  exists B, table_wf ∅ t B /\ (forall k d, holds B k d -> exists vals, fields (column_list t) d vals) /\
    forall k vals, M !! k = Some vals <-> exists d, holds B k d /\ fields (column_list t) d vals.
End wf.

(** ** Chains *)

Lemma bucket_chain m root l : bucket m root l -> l <> [] -> chain m root l.
Proof. intros (_ & r & _ & Hr) Hne. destruct (active r); [done|]. by destruct Hr. Qed.

Lemma seg_elem m a l e b k d : seg m a l e -> (b, (k, d)) ∈ l ->
  b <> 0 /\ exists r, m !! b = Some r /\ row_holds r k d.
Proof.
  revert a. induction l as [|[b' [k' d']] l IH]; intros a; [by intros _ ?%elem_of_nil|].
  intros (-> & Hne & r & Hr & Hh & Hc) [[= -> -> ->]|Hin]%elem_of_cons; eauto.
Qed.

(** Rows outside of a chain, and locks, do not matter to it. *)
Definition like (r r' : TableRow) : Prop := with_lock r 0 = with_lock r' 0.

Lemma like_refl r : like r r.
Proof. done. Qed.

Lemma like_holds r r' k d : like r r' -> row_holds r k d -> row_holds r' k d.
Proof.
  unfold like, with_lock, row_holds, rkey. intros [= Ha Hl Hn Hk Hd]. by rewrite Ha, Hl, Hk, Hd.
Qed.

Lemma row_seg_ext m m' a l e :
  (forall b r, b ∈ l.*1 -> m !! b = Some r -> exists r', m' !! b = Some r' /\ like r r') ->
  seg m a l e -> seg m' a l e.
Proof.
  revert a. induction l as [|[b [k d]] l IH]; intros a Hext; [done|].
  intros (-> & Hne & r & Hr & Hh & Hc). destruct (Hext b r) as (r' & Hr' & Hl); [left|done|].
  split; [done|]. split; [done|]. exists r'. split; [done|]. split; [by eapply like_holds|].
  assert (next r' = next r) as -> by (unfold like, with_lock in Hl; congruence).
  apply IH; [|done]. intros. apply Hext; [by right|done].
Qed.

Lemma row_seg_insert_ne m a l e b r : b ∉ l.*1 -> seg m a l e -> seg (<[b := r]> m) a l e.
Proof.
  intros Hb. apply row_seg_ext. intros c x Hc Hx. exists x. rewrite lookup_insert_ne; [done|]. by intros ->.
Qed.

Lemma row_seg_app m a l1 l2 e : seg m a (l1 ++ l2) e <-> exists b, seg m a l1 b /\ seg m b l2 e.
Proof.
  revert a. induction l1 as [|[b [k d]] l1 IH]; intros a; cbn [app seg].
  - split; [eauto|]. by intros (b & -> & ?).
  - setoid_rewrite IH. naive_solver.
Qed.

(** The next pointer of the last row decides where a segment leads. *)
Lemma seg_relink m a l p x e e' r :
  seg m a (l ++ [(p, x)]) e -> NoDup (l ++ [(p, x)]).*1 -> m !! p = Some r ->
  seg (<[p := with_next r e']> m) a (l ++ [(p, x)]) e'.
Proof.
  intros (b & H1 & H2)%row_seg_app Hnd Hr. rewrite fmap_app in Hnd.
  apply NoDup_app in Hnd as (_ & Hdisj & _). destruct x as [k d].
  destruct H2 as (-> & Hne & r' & Hr' & Hh & _). rewrite Hr in Hr'. injection Hr' as <-.
  apply row_seg_app. exists p. split.
  - apply row_seg_insert_ne; [|done]. intros Hin. apply (Hdisj p Hin). left.
  - cbn [seg]. split; [done|]. split; [done|]. eexists. rewrite lookup_insert_eq. split; [done|]. split; done.
Qed.

(** Writing the data of a row. *)
Lemma seg_write m a l1 b k d d' l2 e r :
  seg m a (l1 ++ (b, (k, d)) :: l2) e -> NoDup (l1 ++ (b, (k, d)) :: l2).*1 -> m !! b = Some r ->
  seg (<[b := with_data r d']> m) a (l1 ++ (b, (k, d')) :: l2) e.
Proof.
  intros (c & H1 & H2)%row_seg_app Hnd Hr. rewrite fmap_app in Hnd. cbn [fmap list_fmap] in Hnd.
  apply NoDup_app in Hnd as (_ & Hdisj & [Hn2 _]%NoDup_cons).
  destruct H2 as (-> & Hne & r' & Hr' & Hh & H2). rewrite Hr in Hr'. injection Hr' as <-.
  apply row_seg_app. exists b. split.
  - apply row_seg_insert_ne; [|done]. intros Hin. apply (Hdisj b Hin). left.
  - cbn [seg]. split; [done|]. split; [done|]. eexists. rewrite lookup_insert_eq. split; [done|].
    split; [by destruct Hh as (? & ? & ? & ? & _)|]. by apply row_seg_insert_ne.
Qed.

Lemma bucket_ext m m' root l :
  (forall b r, b ∈ footprint root l -> m !! b = Some r -> exists r', m' !! b = Some r' /\ like r r') ->
  bucket m root l -> bucket m' root l.
Proof.
  intros Hext (Hne & r & Hr & Hb). split; [done|]. destruct (Hext root r) as (r' & Hr' & Hl); [left|done|].
  exists r'. split; [done|]. assert (active r' = active r /\ next r' = next r) as [-> ->]
    by (unfold like, with_lock in Hl; split; congruence).
  destruct (active r); [|done]. eapply row_seg_ext; [|done]. intros b x Hin Hx. apply Hext; [|done].
  destruct l as [|[b' [k d]] l]; [by apply elem_of_nil in Hin|]. destruct Hb as (-> & _).
  exact Hin.
Qed.

Definition last_addr (a : Z) l : Z := match last l with Some e => e.1 | None => a end.

Lemma last_addr_cons a e l : last_addr a (e :: l) = last_addr e.1 l.
Proof. unfold last_addr. rewrite last_cons. by destruct (last l). Qed.

Lemma key_equal_spec r k d k' : row_holds r k d -> key_equal r k' = bool_decide (k = k').
Proof.
  intros (_ & Hk & Hl & Hlen & _). unfold key_equal, SW_TABLE_KEY_SIZE in *. fold (rkey r).
  apply bool_decide_ext. rewrite Hk. split; [tauto|]. intros <-. split; [|done].
  rewrite <- Hk. unfold rkey. rewrite length_take. lia.
Qed.

Section find.
Context {P : Type} `{SlicePool P}.

(** [find_row] returns the row with the key, the row before it and its place;
    or the end of the chain. *)
Lemma find_loop_spec fuel (t : Table (P := P)) k a previous level l :
  chain (mem t) a l -> l <> [] -> (length l <= fuel)%nat ->
  (exists l1 b d l2, l = l1 ++ (b, (k, d)) :: l2 /\ (k ∉ l1.*2.*1) /\
     find_loop fuel t k a previous level = Some (b, last_addr previous l1, level + zlen l1)) \/
  (k ∉ l.*2.*1) /\ find_loop fuel t k a previous level = Some (0, last_addr previous l, level + zlen l - 1).
Proof.
  revert a previous level l. induction fuel as [|fuel IH]; intros a previous level l Hc Hne Hf.
  { destruct l; [done|]. simpl in Hf. lia. }
  destruct l as [|[b [k' d]] l]; [done|]. destruct Hc as (-> & Hb & r & Hr & Hh & Hc).
  cbn [find_loop]. rewrite Hr. cbn [mbind option_bind]. rewrite (key_equal_spec _ _ _ k Hh).
  case_bool_decide as Hk.
  { subst k'. left. exists [], b, d, l. split_and!; [done|by intros ?%elem_of_nil|]. simpl.
    repeat f_equal. lia. }
  destruct l as [|e l].
  { simpl in Hc. rewrite Hc. right. split; [by intros [?| ?%elem_of_nil]%elem_of_cons|].
    simpl. repeat f_equal. lia. }
  assert (next r <> 0) as Hnx by (destruct e as [? [? ?]]; by destruct Hc as (_ & ? & _)).
  destruct (Z.eqb_spec (next r) 0); [done|].
  destruct (IH (next r) b (level + 1) (e :: l)) as [(l1 & b1 & d1 & l2 & E & Hn & ->)|[Hn ->]];
    [done|done|simpl in *; lia| |].
  - left. exists ((b, (k', d)) :: l1), b1, d1, l2. split_and!; [by rewrite E| |].
    + simpl. intros [?|?]%elem_of_cons; done.
    + rewrite last_addr_cons. do 2 f_equal. cbn [length]. lia.
  - right. split; [simpl in *; intros [?|?]%elem_of_cons; done|].
    rewrite (last_addr_cons _ (b, _)). do 2 f_equal. cbn [length]. lia.
Qed.
End find.

(** ** Lemmas on the invariant *)

Section invariant.
Context {P : Type} `{SlicePool P} (hash_func : list Z -> Z).
Context (Hhash : forall k, 0 <= hash_func k).
Abbreviation Table := (Table (P := P)).
Abbreviation wf := (table_wf hash_func).
Implicit Types (t : Table) (lk : gset Z) (k : list Z).

Lemma land_mask n x : 0 <= n -> 0 <= x -> 0 <= Z.land x (2 ^ n - 1) < 2 ^ n.
Proof.
  intros Hn Hx. replace (2 ^ n - 1) with (Z.ones n) by (rewrite Z.ones_equiv; lia).
  rewrite Z.land_ones by done. apply Z.mod_pos_bound, Z.pow_pos_nonneg; lia.
Qed.

(** The bucket of a key. *)
Lemma hash_spec lk t B k : wf lk t B ->
  exists i root l, hash hash_func t k = Some root /\ rows t !! i = Some root /\ B !! i = Some l /\
    Z.land (hash_func k) (mask t) = Z.of_nat i.
Proof.
  intros Hwf. destruct (tw_size _ _ _ _ Hwf) as (n & Hn & Hs & Hm & Hr).
  pose proof (land_mask n (hash_func k) ltac:(lia) (Hhash k)) as Hb. rewrite <- Hm in Hb.
  set (j := Z.land (hash_func k) (mask t)) in *.
  assert (Z.to_nat j < length (rows t))%nat as Hj by lia.
  destruct (lookup_lt_is_Some_2 _ _ Hj) as [root Hroot].
  destruct (lookup_lt_is_Some_2 B (Z.to_nat j)) as [l Hl]; [by rewrite (tw_len _ _ _ _ Hwf)|].
  exists (Z.to_nat j), root, l. split_and!; try done; [|lia].
  unfold hash. fold j. unfold zget. destruct (Z.leb_spec 0 j); [done|lia].
Qed.

(** Changing locks. *)
Lemma relock_wf lk lk' t m B :
  wf lk t B ->
  (forall a r, mem t !! a = Some r -> exists r', m !! a = Some r' /\ like r r') ->
  (forall a r', m !! a = Some r' -> lock_ r' = if decide (a ∈ lk') then 1 else 0) ->
  wf lk' (with_mem t m) B.
Proof.
  intros Hwf Hlike Hlock. destruct Hwf. split; simpl; try done.
  - intros i root l Hi Hl. eapply bucket_ext; [|by eapply tw_bucket0]. intros. by apply Hlike.
  - intros a Ha. destruct (tw_mem0 a Ha) as (r & Hr & Hd & Hk). destruct (Hlike a r Hr) as (r' & Hr' & Hl).
    exists r'. split; [done|]. unfold like, with_lock in Hl. injection Hl as ? ? ? <- <-. done.
Qed.

Lemma root_row lk t B root : wf lk t B -> root ∈ rows t -> exists r, mem t !! root = Some r.
Proof. intros Hwf Hr. destruct (tw_mem _ _ _ _ Hwf root) as (r & ? & _); eauto. Qed.

Lemma lock_spec t B root : wf ∅ t B -> root ∈ rows t ->
  exists m, lock t root = Some (with_mem t m) /\ wf {[root]} (with_mem t m) B.
Proof.
  intros Hwf Hroot. destruct (root_row _ _ _ _ Hwf Hroot) as [r Hr].
  exists (<[root := with_lock r 1]> (mem t)). split.
  - unfold lock, put_row. rewrite Hr. cbn [mbind option_bind].
    rewrite (tw_lock _ _ _ _ Hwf _ _ Hr). rewrite decide_False by set_solver. done.
  - eapply relock_wf; [done|..].
    + intros a x Hx. destruct (decide (root = a)) as [<-|Hne].
      * rewrite lookup_insert_eq. eexists. split; [done|]. simplify_eq. done.
      * rewrite lookup_insert_ne by done. exists x. done.
    + intros a x [[<- <-]|[Hne Hx]]%lookup_insert_Some; simpl.
      * by rewrite decide_True by set_solver.
      * rewrite (tw_lock _ _ _ _ Hwf _ _ Hx). rewrite !decide_False by set_solver. done.
Qed.

Lemma unlock_spec t B root : wf {[root]} t B -> root ∈ rows t ->
  exists m, unlock t root = Some (with_mem t m) /\ wf ∅ (with_mem t m) B.
Proof.
  intros Hwf Hroot. destruct (root_row _ _ _ _ Hwf Hroot) as [r Hr].
  exists (<[root := with_lock r 0]> (mem t)). split.
  - unfold unlock, put_row. by rewrite Hr.
  - eapply relock_wf; [done|..].
    + intros a x Hx. destruct (decide (root = a)) as [<-|Hne].
      * rewrite lookup_insert_eq. eexists. split; [done|]. simplify_eq. done.
      * rewrite lookup_insert_ne by done. exists x. done.
    + intros a x [[<- <-]|[Hne Hx]]%lookup_insert_Some; simpl.
      * by rewrite decide_False by set_solver.
      * rewrite (tw_lock _ _ _ _ Hwf _ _ Hx). rewrite !decide_False by set_solver. done.
Qed.

(** Every row of a chain is a row of the table. *)
Lemma bucket_addrs lk t B i root l : wf lk t B -> rows t !! i = Some root -> B !! i = Some l ->
  forall a, a ∈ l.*1 -> a ∈ footprint root l.
Proof.
  intros Hwf Hroot Hl a Ha. pose proof (tw_bucket _ _ _ _ Hwf _ _ _ Hroot Hl) as Hb.
  destruct l as [|[b [k d]] l]; [by apply elem_of_nil in Ha|].
  apply bucket_chain in Hb as (-> & _); [|done]. exact Ha.
Qed.

Lemma bucket_length lk t B i root l : wf lk t B -> rows t !! i = Some root -> B !! i = Some l ->
  (length l <= base.size (mem t))%nat.
Proof.
  intros Hwf Hroot Hl. destruct (tw_keys _ _ _ _ Hwf _ _ Hl) as (Hnd & _).
  rewrite <- (length_fmap fst l), <- (size_list_to_set (C := gset Z) l.*1), <- size_dom by done.
  apply subseteq_size. intros a. rewrite elem_of_list_to_set, elem_of_dom. intros Ha.
  apply list_elem_of_fmap in Ha as ([b [k d]] & -> & Hin). simpl.
  pose proof (tw_bucket _ _ _ _ Hwf _ _ _ Hroot Hl) as Hb.
  apply bucket_chain in Hb; [|by intros ->; apply elem_of_nil in Hin].
  destruct (seg_elem _ _ _ _ _ _ _ Hb Hin) as (_ & r & ? & _). eauto.
Qed.

(** [find_row] in a bucket. *)
Lemma find_row_spec lk t B i root l k : wf lk t B -> rows t !! i = Some root -> B !! i = Some l ->
  (exists l1 b d l2, l = l1 ++ (b, (k, d)) :: l2 /\ (k ∉ l1.*2.*1) /\
     find_row t root k = Some (b, last_addr 0 l1, 1 + zlen l1)) \/
  (k ∉ l.*2.*1) /\ find_row t root k = Some (0, last_addr 0 l, zlen l).
Proof.
  intros Hwf Hroot Hl. pose proof (tw_bucket _ _ _ _ Hwf _ _ _ Hroot Hl) as (Hne & r & Hr & Hb).
  unfold find_row. rewrite Hr. cbn [mbind option_bind]. destruct (active r) eqn:Ea; simpl.
  - assert (l <> []) as Hl0 by (by intros ->).
    destruct (find_loop_spec (base.size (mem t)) t k root 0 1 l Hb Hl0) as [?|[? ->]];
      [by eapply bucket_length|by left|right]. split; [done|]. do 2 f_equal. lia.
  - destruct Hb as [-> _]. right. split; [by intros ?%elem_of_nil|done].
Qed.

Lemma holds_bucket lk t B i l k d : wf lk t B -> B !! i = Some l ->
  Z.land (hash_func k) (mask t) = Z.of_nat i -> holds B k d <-> exists a, (a, (k, d)) ∈ l.
Proof.
  intros Hwf Hl Hk. split; [|intros (a & Ha); exists i, l, a; done].
  intros (j & l' & a & Hl' & Ha). destruct (tw_keys _ _ _ _ Hwf _ _ Hl') as (_ & _ & Hh).
  pose proof (Hh a k d Ha) as Hj. assert (i = j) as <- by lia. exists a. congruence.
Qed.

(** ** Changing one bucket *)

Definition same_shape t t' : Prop :=
  column_list t' = column_list t /\ size t' = size t /\ mask t' = mask t /\ item_size t' = item_size t /\
  rows t' = rows t /\ iterator t' = iterator t /\ sp_all (pool t') = sp_all (pool t).

(** The rows of [t'] are those of [t] with the same locks and sizes, and they
    are unchanged outside of the addresses [X]. *)
Definition same_rows (X : list Z) t t' : Prop :=
  (forall a r', mem t' !! a = Some r' -> exists r, mem t !! a = Some r /\ lock_ r' = lock_ r) /\
  (forall a r, mem t !! a = Some r -> exists r', mem t' !! a = Some r' /\
     (zlen (data r) = item_size t -> zlen (data r') = item_size t) /\
     (zlen (key r) = SW_TABLE_KEY_SIZE -> zlen (key r') = SW_TABLE_KEY_SIZE) /\
     ((a ∉ X) -> r' = r)).

Definition bucket_ok t (i : nat) l : Prop :=
  NoDup l.*1 /\ NoDup l.*2.*1 /\
  forall a k d, (a, (k, d)) ∈ l -> Z.land (hash_func k) (mask t) = Z.of_nat i.

(** The pool of [t'] has the slices of the new chain in use instead of those of
    the old one. *)
Definition pool_step t t' l l' : Prop :=
  sp_inv (pool t') /\ sp_all (pool t') = sp_all (pool t) /\
  (forall a, a ∈ sp_live (pool t') <-> a ∈ tails l' \/ a ∈ sp_live (pool t) /\ (a ∉ tails l)) /\
  (forall a, a ∈ tails l' -> a ∈ tails l \/ a ∈ sp_all (pool t) ∖ sp_live (pool t)).

Lemma update_wf lk t t' B i root l l' :
  wf lk t B -> rows t !! i = Some root -> B !! i = Some l ->
  same_shape t t' -> same_rows (footprint root l ++ tails l') t t' ->
  bucket (mem t') root l' -> bucket_ok t i l' -> pool_step t t' l l' ->
  row_num (stats t') = row_num (stats t) + zlen l' - zlen l ->
  wf lk t' (<[i := l']> B).
Proof.
  intros Hwf Hroot Hl (Ec & Es & Em & Ei & Er & _) [Hlk Hrows] Hb Hok (Hinv & Hall & Hlive & Hnew) Hnum.
  assert (Hfoot : forall j rj lj a, rows t !! j = Some rj -> B !! j = Some lj -> j <> i ->
    a ∈ footprint rj lj -> (a ∉ footprint root l) /\ (a ∉ tails l')).
  { intros j rj lj a Hrj Hlj Hne Ha. split.
    - intros Ha'. apply Hne. by eapply (tw_apart _ _ _ _ Hwf j i rj root lj l a).
    - intros Ha'. destruct (Hnew a Ha') as [Hold|[Hal Hnl]%elem_of_difference].
      + apply Hne. eapply (tw_apart _ _ _ _ Hwf j i rj root lj l a); try done. by right.
      + apply elem_of_cons in Ha as [->|Ha].
        * apply (tw_roots _ _ _ _ Hwf rj); [|done]. by eapply list_elem_of_lookup_2.
        * apply Hnl, (tw_live _ _ _ _ Hwf). eauto. }
  assert (Hlt : (i < length B)%nat) by by eapply lookup_lt_Some.
  split; rewrite ?Ec, ?Es, ?Em, ?Ei, ?Er, ?Hall; try apply Hwf; try done.
  - rewrite length_insert. apply Hwf.
  - intros j rj lj Hrj [[<- [<- _]]|[Hne Hlj]]%list_lookup_insert_Some; [congruence|].
    eapply bucket_ext; [|by eapply (tw_bucket _ _ _ _ Hwf)]. intros a r Ha Hr.
    destruct (Hfoot j rj lj a) as [Hf1 Hf2]; [done..|].
    destruct (Hrows a r Hr) as (r' & Hr' & _ & _ & Heq). exists r'. split; [done|].
    rewrite Heq; [done|]. rewrite elem_of_app. tauto.
  - intros j1 j2 r1 r2 l1 l2 a Hr1 Hr2 [[<- [<- _]]|[Hn1 Hl1]]%list_lookup_insert_Some
      [[<- [<- _]]|[Hn2 Hl2]]%list_lookup_insert_Some Ha1 Ha2; [done| | |by eapply tw_apart].
    + exfalso. destruct (Hfoot j2 r2 l2 a) as [Hf1 Hf2]; [done..|].
      apply elem_of_cons in Ha1 as [->|?]; [|done]. apply Hf1. rewrite Hroot in Hr1. injection Hr1 as <-. left.
    + exfalso. destruct (Hfoot j1 r1 l1 a) as [Hf1 Hf2]; [done..|].
      apply elem_of_cons in Ha2 as [->|?]; [|done]. apply Hf1. rewrite Hroot in Hr2. injection Hr2 as <-. left.
  - intros j lj [[<- [<- _]]|[Hne Hlj]]%list_lookup_insert_Some; [exact Hok|by eapply tw_keys].
  - intros a Ha. destruct (tw_mem _ _ _ _ Hwf a Ha) as (r & Hr & Hd & Hk).
    destruct (Hrows a r Hr) as (r' & Hr' & Hd' & Hk' & _). exists r'. auto.
  - intros a r' Hr'. destruct (Hlk a r' Hr') as (r & Hr & ->). by eapply tw_lock.
  - intros a. rewrite Hlive. split.
    + intros [Ha|[(j & lj & Hlj & Ha)%(tw_live _ _ _ _ Hwf) Hn]].
      * exists i, l'. split; [by apply list_lookup_insert_eq|done].
      * exists j, lj. split; [|done]. rewrite list_lookup_insert_ne; [done|]. intros ->. congruence.
    + intros (j & lj & [[<- [<- _]]|[Hne Hlj]]%list_lookup_insert_Some & Ha); [by left|right].
      split; [apply (tw_live _ _ _ _ Hwf); eauto|]. intros Ha'.
      destruct (lookup_lt_is_Some_2 (rows t) j) as [rj Hrj].
      { rewrite <- (tw_len _ _ _ _ Hwf). by eapply lookup_lt_Some. }
      destruct (Hfoot j rj lj a) as [Hf1 _]; [done..|by right|]. apply Hf1. by right.
  - intros a. rewrite Hlive. intros [Ha|[Ha _]]; [|by eapply tw_sub].
    destruct (Hnew a Ha) as [Hold|?]; [|set_solver]. eapply tw_sub; [done|]. apply (tw_live _ _ _ _ Hwf). eauto.
  - rewrite Hnum, (tw_count _ _ _ _ Hwf), (concat_insert_length _ _ _ _ Hl). lia.
Qed.

(** The entries fit into 32 bits. *)
Lemma count_bound lk t B : wf lk t B ->
  zlen (concat B) <= size t + Z.of_nat (base.size (sp_all (pool t))).
Proof.
  intros Hwf. assert (NoDup (concat ((fun l : list entry => l.*1) <$> B))) as Hnd.
  { apply NoDup_concat.
    - intros i x Hx. rewrite list_lookup_fmap in Hx. destruct (B !! i) as [l|] eqn:E; [|done].
      injection Hx as <-. by eapply tw_keys.
    - intros i j li lj x Hi Hj Hxi Hxj. rewrite list_lookup_fmap in Hi, Hj.
      destruct (B !! i) as [l|] eqn:Ei, (B !! j) as [l'|] eqn:Ej; try done. simplify_eq/=.
      destruct (lookup_lt_is_Some_2 (rows t) i) as [ri Hri].
      { rewrite <- (tw_len _ _ _ _ Hwf). by eapply lookup_lt_Some. }
      destruct (lookup_lt_is_Some_2 (rows t) j) as [rj Hrj].
      { rewrite <- (tw_len _ _ _ _ Hwf). by eapply lookup_lt_Some. }
      eapply (tw_apart _ _ _ _ Hwf i j ri rj); eauto using bucket_addrs. }
  replace (length (concat B)) with (length (concat ((fun l : list entry => l.*1) <$> B))).
  2: { clear. induction B as [|l B IH]; [done|]. rewrite fmap_cons. cbn [concat]. rewrite !length_app, length_fmap. lia. }
  destruct (tw_size _ _ _ _ Hwf) as (n & _ & _ & _ & Hr). rewrite <- Hr.
  rewrite <- (size_list_to_set (C := gset Z)) by exact Hnd.
  transitivity (Z.of_nat (base.size (list_to_set (rows t) ∪ sp_all (pool t) : gset Z))).
  - apply inj_le, subseteq_size. intros a. rewrite elem_of_list_to_set.
    intros (x & [i Hi]%list_elem_of_In%list_elem_of_lookup & Ha%list_elem_of_In)%list_elem_of_In%in_concat.
    rewrite list_lookup_fmap in Hi. destruct (B !! i) as [l|] eqn:El; [|done]. injection Hi as <-.
    destruct (lookup_lt_is_Some_2 (rows t) i) as [ri Hri].
    { rewrite <- (tw_len _ _ _ _ Hwf). by eapply lookup_lt_Some. }
    apply (bucket_addrs _ _ _ _ _ _ Hwf Hri El) in Ha. rewrite elem_of_union, elem_of_list_to_set.
    apply elem_of_cons in Ha as [->|Ha]; [left; by eapply list_elem_of_lookup_2|right].
    eapply tw_sub; [done|]. apply (tw_live _ _ _ _ Hwf). eauto.
  - pose proof (size_union_alt (list_to_set (rows t) : gset Z) (sp_all (pool t))) as Hu. rewrite Hu.
    pose proof (subseteq_size (sp_all (pool t) ∖ list_to_set (rows t)) (sp_all (pool t)) ltac:(set_solver)).
    pose proof (size_list_to_set_le (rows t)). lia.
Qed.

(** ** The steps of the operations *)

Lemma put_row_spec t a r0 r : mem t !! a = Some r0 ->
  put_row t a r = Some (with_mem t (<[a := r]> (mem t))).
Proof. intros Hr. unfold put_row. by rewrite Hr. Qed.

(** One row changes. *)
Lemma same_rows_insert X t a r r' :
  mem t !! a = Some r -> a ∈ X -> lock_ r' = lock_ r ->
  (zlen (data r) = item_size t -> zlen (data r') = item_size t) ->
  (zlen (key r) = SW_TABLE_KEY_SIZE -> zlen (key r') = SW_TABLE_KEY_SIZE) ->
  same_rows X t (with_mem t (<[a := r']> (mem t))).
Proof.
  intros Hr Ha Hl Hd Hk. split; simpl.
  - intros b x [[<- <-]|[Hne Hx]]%lookup_insert_Some; eauto.
  - intros b x Hx. destruct (decide (a = b)) as [<-|Hne].
    + rewrite lookup_insert_eq. exists r'. simplify_eq. split_and!; auto. done.
    + rewrite lookup_insert_ne by done. exists x. auto.
Qed.

Lemma same_rows_trans X t t1 t2 :
  item_size t1 = item_size t -> same_rows X t t1 -> same_rows X t1 t2 -> same_rows X t t2.
Proof.
  intros Hi [Hl1 Hr1] [Hl2 Hr2]. split.
  - intros a r2 H2. destruct (Hl2 a r2 H2) as (r1 & H1 & E2). destruct (Hl1 a r1 H1) as (r & Hr & E1).
    exists r. split; [done|congruence].
  - intros a r Hr. destruct (Hr1 a r Hr) as (r1 & H1 & Hd1 & Hk1 & Heq1).
    destruct (Hr2 a r1 H1) as (r2 & H2 & Hd2 & Hk2 & Heq2). exists r2. rewrite Hi in *.
    split_and!; auto. intros Ha. rewrite Heq2, Heq1; done.
Qed.

Lemma pool_same t t' l l' : sp_inv (pool t) -> pool t' = pool t -> tails l' = tails l ->
  (forall a, a ∈ tails l -> a ∈ sp_live (pool t)) -> pool_step t t' l l'.
Proof.
  intros Hinv Hp Ht Hl. unfold pool_step. rewrite Hp, Ht. split_and!; auto.
  intros a. split; [|intros [?|[? _]]; auto]. intros Ha. destruct (decide (a ∈ tails l)); auto.
Qed.

Lemma tails_live lk t B i l : wf lk t B -> B !! i = Some l -> forall a, a ∈ tails l -> a ∈ sp_live (pool t).
Proof. intros Hwf Hl a Ha. apply (tw_live _ _ _ _ Hwf). eauto. Qed.

(** Writing the data of a row that was found. *)
Lemma write_spec lk t B i root l1 b k d d' l2 f :
  wf lk t B -> rows t !! i = Some root -> B !! i = Some (l1 ++ (b, (k, d)) :: l2) ->
  (forall r, data r = d -> f r = Some (with_data r d')) -> zlen d' = item_size t ->
  exists m, on_row t b f = Some (with_mem t m) /\
    wf lk (with_mem t m) (<[i := l1 ++ (b, (k, d')) :: l2]> B).
Proof.
  intros Hwf Hroot Hl Hf Hd'. pose proof (tw_bucket _ _ _ _ Hwf _ _ _ Hroot Hl) as Hb.
  pose proof (tw_keys _ _ _ _ Hwf _ _ Hl) as (Hnd & Hkeys & Hh).
  set (l := l1 ++ (b, (k, d)) :: l2) in *.
  assert ((b, (k, d)) ∈ l) as Hin by (apply elem_of_app; right; left).
  assert (l <> []) as Hne by (intros E; rewrite E in Hin; by apply elem_of_nil in Hin).
  apply bucket_chain in Hb as Hch; [|done].
  destruct (seg_elem _ _ _ _ _ _ _ Hch Hin) as (_ & r & Hr & Hholds).
  assert (data r = d) as Hdr by apply Hholds.
  exists (<[b := with_data r d']> (mem t)). split.
  { unfold on_row. rewrite Hr. cbn [mbind option_bind]. rewrite (Hf r Hdr). cbn [mbind option_bind].
    by erewrite put_row_spec. }
  assert (Ekeys : (l1 ++ (b, (k, d')) :: l2).*2.*1 = l.*2.*1) by (subst l; by rewrite !fmap_app).
  assert (Eaddr : (l1 ++ (b, (k, d')) :: l2).*1 = l.*1) by (subst l; by rewrite !fmap_app).
  eapply update_wf; try done.
  - eapply same_rows_insert; try done.
    apply elem_of_app. left. eapply bucket_addrs; [done..|]. apply list_elem_of_fmap. by exists (b, (k, d)).
  - destruct Hb as (Hr0 & r0 & Hr0' & Ha). split; [done|]. simpl.
    destruct (decide (b = root)) as [->|Hbr].
    + rewrite lookup_insert_eq. eexists. split; [done|]. simplify_eq. simpl.
      destruct Hholds as [-> _]. by eapply seg_write.
    + rewrite lookup_insert_ne by done. exists r0. split; [done|].
      destruct (active r0); [by eapply seg_write|]. destruct Ha. done.
  - split_and!; [by rewrite Eaddr|by rewrite Ekeys|]. intros a k' x [Hx|[[= -> -> ->]|Hx]%elem_of_cons]%elem_of_app.
    + eapply (Hh a k' x). apply elem_of_app. by left.
    + by apply (Hh b k d).
    + eapply (Hh a k' x). apply elem_of_app. right. by right.
  - apply pool_same; [apply Hwf|done|unfold tails; by rewrite Eaddr|by eapply tails_live].
  - simpl. subst l. rewrite !length_app. simpl. lia.
Qed.

(** *** Insertion *)

(** The row [init_row] makes of [r]. *)
Definition new_row (r : TableRow) (k : list Z) : TableRow :=
  mkRow (lock_ r) true (zlen k) 0 (k ++ drop (length k) no_key) (data r).

Lemma valid_key (k : list Z) : is_valid_key_length (zlen k) = true <-> 0 < zlen k < 64.
Proof. unfold is_valid_key_length, SW_TABLE_KEY_SIZE. rewrite andb_true_iff, !Z.ltb_lt. done. Qed.

Lemma new_row_holds r k : is_valid_key_length (zlen k) = true -> row_holds (new_row r k) k (data r).
Proof.
  intros Hk%valid_key. unfold row_holds, rkey, SW_TABLE_KEY_SIZE. simpl. split_and!; try done; try lia.
  - rewrite Nat2Z.id. by rewrite take_app_length.
  - rewrite length_app, length_drop. unfold no_key. rewrite length_replicate. lia.
Qed.

Lemma init_row_spec t a r k :
  mem t !! a = Some r -> is_valid_key_length (zlen k) = true ->
  init_row t a k = Some (with_stats (with_mem t (<[a := new_row r k]> (mem t))) (add_rows (stats t) 1)).
Proof.
  intros Hr Hk%valid_key. unfold init_row. rewrite Hr. cbn [mbind option_bind].
  assert (zblit no_key 0 k = Some (k ++ drop (length k) no_key)) as ->.
  { apply zblit_Some. unfold no_key. rewrite length_replicate. split_and!; [lia|lia|done]. }
  cbn [mbind option_bind]. erewrite put_row_spec by exact Hr. cbn [mbind option_bind].
  rewrite uN_small by (unfold fits; lia). done.
Qed.

(** The first row of an empty bucket. *)
Lemma insert_root_wf lk t B i root r k s :
  wf lk t B -> rows t !! i = Some root -> B !! i = Some [] -> mem t !! root = Some r ->
  is_valid_key_length (zlen k) = true -> Z.land (hash_func k) (mask t) = Z.of_nat i ->
  row_num s = row_num (stats t) + 1 ->
  wf lk (with_stats (with_mem t (<[root := new_row r k]> (mem t))) s) (<[i := [(root, (k, data r))]]> B).
Proof.
  intros Hwf Hroot Hl Hr Hk Hh Hs. pose proof (tw_bucket _ _ _ _ Hwf _ _ _ Hroot Hl) as (Hne & _).
  pose proof (new_row_holds r k Hk) as Hholds.
  eapply update_wf; try done.
  - apply (same_rows_insert _ t root r (new_row r k)); try done; [apply elem_of_app; left; left|].
    intros _. apply Hholds.
  - split; [done|]. eexists. cbn [mem with_stats with_mem]. rewrite lookup_insert_eq. split; [done|].
    split; [done|]. split; [done|]. eexists. rewrite lookup_insert_eq. done.
  - split_and!; [apply NoDup_singleton|apply NoDup_singleton|].
    intros a k' d [= -> -> ->]%list_elem_of_singleton. done.
  - apply pool_same; [apply Hwf|done|done|by eapply tails_live].
  - simpl. lia.
Qed.

Lemma last_addr_elem a l : l <> [] -> exists l0 x, l = l0 ++ [(last_addr a l, x)].
Proof.
  intros Hne. destruct (exists_last Hne) as (l0 & [b x] & ->). exists l0, x.
  unfold last_addr. rewrite last_snoc. done.
Qed.

Lemma tails_app l1 l2 : l1 <> [] -> tails (l1 ++ l2) = tails l1 ++ l2.*1.
Proof. intros Hne. destruct l1; [done|]. unfold tails. simpl. by rewrite fmap_app. Qed.

(** A row out of the pool, behind the last row of the bucket. *)
Lemma insert_tail_wf lk t B i root l a p' k r rp s :
  wf lk t B -> rows t !! i = Some root -> B !! i = Some l -> l <> [] -> k ∉ l.*2.*1 ->
  is_valid_key_length (zlen k) = true -> Z.land (hash_func k) (mask t) = Z.of_nat i ->
  sp_inv p' -> a ∈ sp_all (pool t) ∖ sp_live (pool t) -> sp_live p' = {[a]} ∪ sp_live (pool t) ->
  sp_all p' = sp_all (pool t) -> mem t !! a = Some r -> mem t !! last_addr 0 l = Some rp ->
  row_num s = row_num (stats t) + 1 ->
  let m := <[last_addr 0 l := with_next rp a]> (<[a := new_row r k]> (mem t)) in
  wf lk (with_stats (with_pool (with_mem t m) p') s) (<[i := l ++ [(a, (k, data r))]]> B).
Proof.
  intros Hwf Hroot Hl Hne Hnk Hk Hh Hinv [Ha Hna]%elem_of_difference Hlive Hall Hr Hrp Hs m.
  pose proof (new_row_holds r k Hk) as Hholds.
  pose proof (tw_bucket _ _ _ _ Hwf _ _ _ Hroot Hl) as Hb.
  pose proof (tw_keys _ _ _ _ Hwf _ _ Hl) as (Hnd & Hkeys & Hhash').
  pose proof (bucket_addrs _ _ _ _ _ _ Hwf Hroot Hl) as Hfoot.
  assert (a ∉ l.*1) as Hal.
  { intros [->|Hin]%Hfoot%elem_of_cons.
    - eapply (tw_roots _ _ _ _ Hwf root); [by eapply list_elem_of_lookup_2|done].
    - apply Hna. by eapply tails_live. }
  destruct (last_addr_elem 0 l Hne) as (l0 & x & El). set (p := last_addr 0 l) in *.
  assert (p ∈ l.*1) as Hpl by (rewrite El, fmap_app; apply elem_of_app; right; left).
  assert (a <> p) as Hap by (intros ->; done).
  apply bucket_chain in Hb as Hch; [|done]. destruct Hb as (Hr0 & _).
  assert (a <> 0) as Ha0 by (intros ->; by apply (sp_nonnull _ (tw_pool _ _ _ _ Hwf))).
  eapply update_wf; try done.
  - apply (same_rows_trans _ t (with_mem t (<[a := new_row r k]> (mem t))));
      [done|apply (same_rows_insert _ t a r (new_row r k))|].
    + done.
    + rewrite tails_app by done. rewrite !elem_of_app. right. right. left.
    + done.
    + done.
    + intros _. apply Hholds.
    + set (t1 := with_mem t (<[a := new_row r k]> (mem t))).
      change (same_rows (footprint root l ++ tails (l ++ [(a, (k, data r))])) t1
        (with_mem t1 (<[p := with_next rp a]> (mem t1)))).
      apply (same_rows_insert _ t1 p rp (with_next rp a)); try done.
      * simpl. by rewrite lookup_insert_ne.
      * apply elem_of_app. left. by apply Hfoot.
  - assert (seg m root (l ++ [(a, (k, data r))]) 0) as Hseg.
    { apply row_seg_app. exists a. split.
      - rewrite El. eapply seg_relink; [|by rewrite <- El|by rewrite lookup_insert_ne].
        rewrite <- El. by apply row_seg_insert_ne.
      - cbn [seg]. split; [done|]. split; [done|]. exists (new_row r k). subst m.
        rewrite lookup_insert_ne, lookup_insert_eq by done. done. }
    split; [done|]. cbn [mem with_stats with_pool with_mem].
    destruct l as [|[b [kb db]] l]; [done|]. pose proof Hseg as (<- & _ & r1 & Hr1 & (Hact & _) & _).
    exists r1. split; [done|]. by rewrite Hact.
  - split_and!.
    + rewrite fmap_app. apply NoDup_app. split_and!; [done| |apply NoDup_singleton].
      intros b Hb ->%list_elem_of_singleton. done.
    + rewrite !fmap_app. apply NoDup_app. split_and!; [done| |apply NoDup_singleton].
      intros b Hb ->%list_elem_of_singleton. done.
    + intros b kb db [?|[= -> -> ->]%list_elem_of_singleton]%elem_of_app; [by eapply Hhash'|done].
  - unfold pool_step. cbn [pool with_stats with_pool]. rewrite tails_app by done. split_and!; try done.
    + intros b. rewrite Hlive, elem_of_union, elem_of_singleton, elem_of_app.
      change [(a, (k, data r))].*1 with [a]. rewrite list_elem_of_singleton.
      pose proof (tails_live _ _ _ _ _ Hwf Hl b).
      destruct (decide (b ∈ tails l)); tauto.
    + intros b [?| ->%list_elem_of_singleton]%elem_of_app; [by left|right]. by apply elem_of_difference.
  - rewrite length_app. simpl. lia.
Qed.

(** *** Deletion *)

Lemma free_row_spec t a r : mem t !! a = Some r -> sp_inv (pool t) -> a ∈ sp_live (pool t) ->
  exists p', free_row t a = Some (with_pool (with_mem t (<[a := row_clear r]> (mem t))) p') /\ sp_inv p' /\
    sp_live p' = sp_live (pool t) ∖ {[a]} /\ sp_all p' = sp_all (pool t).
Proof.
  intros Hr Hinv Ha. destruct (sp_free_ok (pool t) a Hinv Ha) as (p' & E & ? & ? & ?). exists p'.
  split; [|done]. unfold free_row. rewrite Hr. cbn [mbind option_bind].
  erewrite put_row_spec by exact Hr. cbn [mbind option_bind]. simpl. by rewrite E.
Qed.

(** The pool after the slice at [b] was released. *)
Lemma pool_freed t t' l l' b :
  sp_inv (pool t') -> sp_all (pool t') = sp_all (pool t) ->
  sp_live (pool t') = sp_live (pool t) ∖ {[b]} -> b ∈ tails l ->
  (forall a, a ∈ tails l -> a ∈ sp_live (pool t)) ->
  (forall a, a ∈ tails l' <-> a ∈ tails l /\ a <> b) -> pool_step t t' l l'.
Proof.
  intros Hinv Hall Hlive Hb Hin Htails. split_and!; [done|done|..].
  - intros a. rewrite Hlive, elem_of_difference, elem_of_singleton, Htails.
    pose proof (Hin a). destruct (decide (a ∈ tails l)); [|naive_solver]. tauto.
  - intros a [? _]%Htails. by left.
Qed.

Lemma row_clear_size (r : TableRow) :
  lock_ (row_clear r) = lock_ r /\ data (row_clear r) = data r /\ zlen (key (row_clear r)) = SW_TABLE_KEY_SIZE.
Proof. done. Qed.

(** The only row of its bucket. *)
Lemma delete_only_wf lk t B i root x r s :
  wf lk t B -> rows t !! i = Some root -> B !! i = Some [(root, x)] -> mem t !! root = Some r ->
  row_num s = row_num (stats t) - 1 ->
  wf lk (with_stats (with_mem t (<[root := row_clear r]> (mem t))) s) (<[i := []]> B).
Proof.
  intros Hwf Hroot Hl Hr Hs. pose proof (tw_bucket _ _ _ _ Hwf _ _ _ Hroot Hl) as (Hne & _).
  eapply update_wf; try done.
  - apply (same_rows_insert _ t root r (row_clear r)); try done. apply elem_of_app. left. left.
  - split; [done|]. eexists. cbn [mem with_stats with_mem]. rewrite lookup_insert_eq. done.
  - split_and!; [constructor|constructor|]. intros a k d ?%elem_of_nil. done.
  - apply pool_same; [apply Hwf|done|done|by eapply tails_live].
  - simpl. lia.
Qed.

Lemma bucket_ok_sub lk t B i l l' : wf lk t B -> B !! i = Some l ->
  NoDup l'.*1 -> l'.*2 `sublist_of` l.*2 -> bucket_ok t i l'.
Proof.
  intros Hwf Hl Hnd Hsub. destruct (tw_keys _ _ _ _ Hwf _ _ Hl) as (_ & Hkeys & Hh).
  split_and!; [done| |].
  - eapply sublist_NoDup; [exact Hkeys|]. by apply fmap_sublist.
  - intros a k d Hin. assert ((k, d) ∈ l.*2) as ([b y] & [= <-] & Hy)%list_elem_of_fmap; [|by eapply Hh].
    eapply elem_of_sublist; [|exact Hsub]. apply list_elem_of_fmap.
    by exists (a, (k, d)).
Qed.

(** A row behind the first one is unlinked and released. *)
Lemma delete_behind_wf lk t B i root l0 p x b y l2 rp r p' s :
  let l := (l0 ++ [(p, x)]) ++ (b, y) :: l2 in
  wf lk t B -> rows t !! i = Some root -> B !! i = Some l ->
  mem t !! p = Some rp -> mem t !! b = Some r ->
  sp_inv p' -> sp_live p' = sp_live (pool t) ∖ {[b]} -> sp_all p' = sp_all (pool t) ->
  row_num s = row_num (stats t) - 1 ->
  let m := <[b := row_clear r]> (<[p := with_next rp (next r)]> (mem t)) in
  wf lk (with_stats (with_pool (with_mem t m) p') s) (<[i := (l0 ++ [(p, x)]) ++ l2]> B).
Proof.
  intros l Hwf Hroot Hl Hrp Hr Hinv Hlive Hall Hs m.
  pose proof (tw_bucket _ _ _ _ Hwf _ _ _ Hroot Hl) as Hb.
  pose proof (tw_keys _ _ _ _ Hwf _ _ Hl) as (Hnd & _).
  pose proof (bucket_addrs _ _ _ _ _ _ Hwf Hroot Hl) as Hfoot.
  assert (l0 ++ [(p, x)] <> []) as Hne0 by by destruct l0.
  assert (l <> []) as Hne by (subst l; by destruct l0).
  apply bucket_chain in Hb as Hch; [|done]. destruct Hb as (Hr0 & _).
  assert (Eaddr : l.*1 = (l0 ++ [(p, x)]).*1 ++ b :: l2.*1) by (subst l; by rewrite !fmap_app).
  rewrite Eaddr in Hnd. pose proof Hnd as (Hnd1 & Hdisj & [Hb2 Hnd2]%NoDup_cons)%NoDup_app.
  assert (p ∈ (l0 ++ [(p, x)]).*1) as Hpin by (rewrite fmap_app; apply elem_of_app; right; left).
  assert (b <> p) as Hbp by (intros ->; apply (Hdisj p); [done|left]).
  assert (b ∉ (l0 ++ [(p, x)]).*1) as Hb1 by (intros Hin; apply (Hdisj b Hin); left).
  assert (seg m root ((l0 ++ [(p, x)]) ++ l2) 0) as Hseg.
  { apply row_seg_app in Hch as (c & H1 & H2). destruct y as [ky dy].
    destruct H2 as (-> & _ & r' & Hr' & _ & H2). rewrite Hr in Hr'. injection Hr' as <-.
    apply row_seg_app. exists (next r). split.
    - apply row_seg_insert_ne; [done|]. by eapply seg_relink.
    - apply row_seg_insert_ne; [done|]. apply row_seg_insert_ne; [|done].
      intros Hin. apply (Hdisj p); [done|by right]. }
  eapply update_wf; try done.
  - set (t1 := with_mem t (<[p := with_next rp (next r)]> (mem t))).
    apply (same_rows_trans _ t t1); [done|apply (same_rows_insert _ t p rp (with_next rp (next r))); try done|].
    + apply elem_of_app. left. apply Hfoot. rewrite Eaddr. apply elem_of_app. by left.
    + change (same_rows (footprint root l ++ tails ((l0 ++ [(p, x)]) ++ l2)) t1
        (with_mem t1 (<[b := row_clear r]> (mem t1)))).
      apply (same_rows_insert _ t1 b r (row_clear r)); try done.
      * simpl. by rewrite lookup_insert_ne.
      * apply elem_of_app. left. apply Hfoot. rewrite Eaddr. apply elem_of_app. right. left.
  - split; [done|]. cbn [mem with_stats with_pool with_mem].
    destruct ((l0 ++ [(p, x)]) ++ l2) as [|[c [kc dc]] l'] eqn:El; [by destruct l0|].
    pose proof Hseg as (<- & _ & r1 & Hr1 & (Hact & _) & _). exists r1. split; [done|]. by rewrite Hact.
  - eapply bucket_ok_sub; [done|done| |].
    + rewrite fmap_app. apply NoDup_app. split_and!; [done| |done].
      intros z Hz Hz'. apply (Hdisj z Hz). by right.
    + subst l. rewrite (fmap_app _ (l0 ++ [(p, x)]) l2), (fmap_app _ (l0 ++ [(p, x)]) (_ :: _)). apply sublist_app; [done|]. by apply sublist_cons.
  - eapply (pool_freed _ _ _ _ b); [done|done|done| |by eapply tails_live|].
    + subst l. rewrite tails_app by done. apply elem_of_app. right. left.
    + intros a. subst l. rewrite (tails_app (l0 ++ [(p, x)]) l2), (tails_app (l0 ++ [(p, x)]) (_ :: _)), !elem_of_app by done.
      rewrite fmap_cons, elem_of_cons. cbn [fst].
      assert (a ∈ tails (l0 ++ [(p, x)]) -> a <> b).
      { intros Hin ->. apply Hb1. unfold tails in Hin. destruct ((l0 ++ [(p, x)]).*1); [done|]. by right. }
      assert (a ∈ l2.*1 -> a <> b) by (intros Hin ->; done). tauto.
  - subst l. rewrite !length_app. simpl. lia.
Qed.

(** The first row takes over the contents of the second one, which is
    released. *)
Lemma delete_root_wf lk t B i root x b k2 d2 l2 r n key' p' s :
  let l := (root, x) :: (b, (k2, d2)) :: l2 in
  wf lk t B -> rows t !! i = Some root -> B !! i = Some l ->
  mem t !! root = Some r -> mem t !! b = Some n ->
  take (Z.to_nat (key_len n)) key' = k2 -> zlen key' = SW_TABLE_KEY_SIZE ->
  sp_inv p' -> sp_live p' = sp_live (pool t) ∖ {[b]} -> sp_all p' = sp_all (pool t) ->
  row_num s = row_num (stats t) - 1 ->
  let r' := mkRow (lock_ r) (active r) (key_len n) (next n) key' d2 in
  let m := <[b := row_clear n]> (<[root := r']> (mem t)) in
  wf lk (with_stats (with_pool (with_mem t m) p') s) (<[i := (root, (k2, d2)) :: l2]> B).
Proof.
  intros l Hwf Hroot Hl Hr Hn Hkey Hklen Hinv Hlive Hall Hs r' m.
  pose proof (tw_bucket _ _ _ _ Hwf _ _ _ Hroot Hl) as Hb.
  pose proof (tw_keys _ _ _ _ Hwf _ _ Hl) as (Hnd & _).
  apply bucket_chain in Hb as Hch; [|done]. destruct Hb as (Hr0 & _). destruct x as [k1 d1].
  destruct Hch as (_ & _ & rx & Hrx & (Hact & _) & Hch). rewrite Hr in Hrx. injection Hrx as <-.
  destruct Hch as (Hnext & Hb0 & rn & Hrn & Hholds & Hch). rewrite Hnext, Hn in Hrn. injection Hrn as <-.
  change l.*1 with (root :: b :: l2.*1) in Hnd.
  apply NoDup_cons in Hnd as [Hr1 [Hb1 Hnd]%NoDup_cons].
  assert (root <> b) as Hrb by (intros ->; apply Hr1; left).
  assert (zlen d2 = item_size t) as Hd2.
  { destruct (tw_mem _ _ _ _ Hwf b) as (rb & Hrb' & Hsz & _).
    - right. eapply tw_sub; [done|]. eapply tails_live; [done|exact Hl|]. left.
    - rewrite Hn in Hrb'. injection Hrb' as <-. by destruct Hholds as (_ & _ & _ & _ & <-). }
  assert (m !! root = Some r') as Hmr by (subst m; by rewrite lookup_insert_ne, lookup_insert_eq).
  assert (row_holds r' k2 d2) as Hholds'.
  { destruct Hholds as (_ & _ & Hlen & _ & _). unfold row_holds, rkey. simpl. done. }
  eapply update_wf; try done.
  - set (t1 := with_mem t (<[root := r']> (mem t))).
    apply (same_rows_trans _ t t1); [done|apply (same_rows_insert _ t root r r'); try done|].
    + apply elem_of_app. left. left.
    + change (same_rows (footprint root l ++ tails ((root, (k2, d2)) :: l2)) t1
        (with_mem t1 (<[b := row_clear n]> (mem t1)))).
      apply (same_rows_insert _ t1 b n (row_clear n)); try done.
      * simpl. by rewrite lookup_insert_ne.
      * apply elem_of_app. left. right. left.
  - split; [done|]. cbn [mem with_stats with_pool with_mem]. exists r'. split; [done|].
    replace (active r') with true by done. cbn [seg]. split; [done|]. split; [done|]. exists r'.
    split_and!; [done|done|]. apply row_seg_insert_ne; [done|]. apply row_seg_insert_ne; [|done].
    intros Hin. apply Hr1. by right.
  - eapply bucket_ok_sub; [done|exact Hl| |].
    + change ((root, (k2, d2)) :: l2).*1 with (root :: l2.*1). apply NoDup_cons. split; [|done].
      intros Hin. apply Hr1. by right.
    + subst l. change (((k2, d2) :: l2.*2) `sublist_of` ((k1, d1) :: (k2, d2) :: l2.*2)). by apply sublist_cons.
  - eapply (pool_freed _ _ _ _ b); [done|done|done|left|by eapply tails_live|].
    intros a. change (tails l) with (b :: l2.*1). change (tails (_ :: l2)) with l2.*1. rewrite elem_of_cons.
    assert (a ∈ l2.*1 -> a <> b) by (intros Hin ->; done). tauto.
  - subst l. simpl. lia.
Qed.

Lemma seg_next m a l1 b k d l2 r : chain m a (l1 ++ (b, (k, d)) :: l2) -> m !! b = Some r ->
  chain m (next r) l2.
Proof.
  intros (c & _ & H2)%row_seg_app Hr. destruct H2 as (-> & _ & r' & Hr' & _ & H2).
  rewrite Hr in Hr'. by injection Hr' as <-.
Qed.

(** [delete_row] of a row that was found takes its entry out of the bucket. *)
Lemma delete_row_spec lk t B i root l1 b k d l2 :
  wf lk t B -> rows t !! i = Some root -> B !! i = Some (l1 ++ (b, (k, d)) :: l2) ->
  exists m p' s l', delete_row t root b (last_addr 0 l1) = Some (with_stats (with_pool (with_mem t m) p') s) /\
    wf lk (with_stats (with_pool (with_mem t m) p') s) (<[i := l']> B) /\ l'.*2 = l1.*2 ++ l2.*2 /\
    sp_all p' = sp_all (pool t).
Proof.
  intros Hwf Hroot Hl. set (l := l1 ++ (b, (k, d)) :: l2) in *.
  pose proof (tw_bucket _ _ _ _ Hwf _ _ _ Hroot Hl) as Hb.
  assert (l <> []) as Hne by (subst l; by destruct l1). apply bucket_chain in Hb as Hch; [|done].
  assert ((b, (k, d)) ∈ l) as Hin by (apply elem_of_app; right; left).
  destruct (seg_elem _ _ _ _ _ _ _ Hch Hin) as (Hb0 & r & Hr & Hholds).
  pose proof (seg_next _ _ _ _ _ _ _ _ Hch Hr) as Hnext.
  pose proof (tw_keys _ _ _ _ Hwf _ _ Hl) as (Hnd & _).
  assert (u32 (row_num (stats t) + -1) = row_num (stats t) - 1) as Hnum.
  { rewrite (tw_count _ _ _ _ Hwf). pose proof (count_bound _ _ _ Hwf). pose proof (tw_capacity _ _ _ _ Hwf).
    assert (1 <= zlen (concat B)); [|apply uN_small; unfold fits; lia].
    pose proof (concat_insert_length B i l [] Hl). pose proof (Zle_0_nat (length (concat (<[i := []]> B)))).
    subst l. rewrite length_app in *. simpl in *. lia. }
  unfold delete_row. rewrite Hr. cbn [mbind option_bind].
  destruct (decide (l1 = [])) as [->|Hl1].
  - assert (b = root) as -> by (by destruct Hch as (-> & _)). rewrite Z.eqb_refl, andb_true_r.
    destruct l2 as [|[b2 [k2 d2]] l2].
    + simpl in Hnext. rewrite Hnext. cbn [Z.eqb]. erewrite put_row_spec by exact Hr. cbn [mbind option_bind].
      exists (<[root := row_clear r]> (mem t)), (pool t), (add_rows (count_delete (stats t)) (-1)), [].
      split; [done|]. split; [|done].
      by apply (delete_only_wf lk t B i root (k, d) r).
    + destruct Hnext as (Enext & Hn0 & n & Hn & Hnh & _). rewrite Enext in *.
      destruct (Z.eqb_spec b2 0); [done|]. rewrite Hn. cbn [mbind option_bind].
      pose proof Hnh as (_ & Hnk & Hnl & Hnkl & Hnd2). unfold SW_TABLE_KEY_SIZE in *.
      destruct (zsub_in_bounds (key n) 0 (key_len n + 1)) as [kb Ekb]; [lia..|]. rewrite Ekb. cbn [mbind option_bind].
      pose proof (zsub_length _ _ _ _ Ekb) as Lkb. pose proof Hholds as (_ & _ & _ & Hrkl & Hrd).
      unfold SW_TABLE_KEY_SIZE in *.
      destruct (zblit_in_bounds (key r) 0 kb) as [key' Ekey]; [lia..|]. rewrite Ekey. cbn [mbind option_bind].
      assert (zlen (data n) = item_size t /\ zlen (data r) = item_size t) as [Hszn Hszr].
      { split.
        - destruct (tw_mem _ _ _ _ Hwf b2) as (rb & Hrb & Hsz & _); [|by simplify_eq].
          right. eapply tw_sub; [done|]. eapply tails_live; [done|exact Hl|]. left.
        - destruct (tw_mem _ _ _ _ Hwf root) as (rb & Hrb & Hsz & _); [|by simplify_eq].
          left. by eapply list_elem_of_lookup_2. }
      assert (zsub (data n) 0 (item_size t) = Some (data n)) as ->.
      { apply zsub_Some. split_and!; [lia..|]. rewrite drop_0, take_ge; [done|lia]. }
      cbn [mbind option_bind].
      assert (zblit (data r) 0 (data n) = Some (data n)) as ->.
      { apply zblit_Some. split_and!; [lia..|]. simpl. rewrite drop_ge by lia. by rewrite app_nil_r. }
      cbn [mbind option_bind]. erewrite put_row_spec by exact Hr. cbn [mbind option_bind].
      set (t1 := with_mem t _).
      assert (root <> b2) as Hrb by (intros ->; apply NoDup_cons in Hnd as [Hx _]; apply Hx; left).
      destruct (free_row_spec t1 b2 n) as (p' & -> & Hpi & Hpl & Hpa); [|apply Hwf| |].
      { simpl. by rewrite lookup_insert_ne. }
      { eapply (tails_live lk t B i l); [done|exact Hl|]. left. }
      cbn [mbind option_bind]. eexists _, p', _, ((root, (k2, d2)) :: l2).
      split; [done|]. split; [|done]. cbn [mem t1 with_mem]. rewrite Hnd2.
      apply (delete_root_wf lk t B i root (k, d) b2 k2 d2 l2 r n key' p'); try done.
      * apply zblit_Some in Ekey as (_ & _ & ->). apply zsub_Some in Ekb as (_ & _ & _ & ->).
        rewrite drop_0. simpl. rewrite take_app_le, take_take; [|rewrite length_take; lia].
        rewrite <- Hnk. unfold rkey. f_equal. lia.
      * pose proof (zblit_length _ _ _ _ Ekey). unfold SW_TABLE_KEY_SIZE. lia.
  - assert (b ∈ tails l) as Hbt by (subst l; rewrite tails_app by done; apply elem_of_app; right; left).
    assert (b <> root) as Hbr.
    { intros ->. eapply (tw_roots _ _ _ _ Hwf root); [by eapply list_elem_of_lookup_2|].
      eapply tw_sub; [done|]. by eapply tails_live. }
    destruct (Z.eqb_spec b root); [done|]. rewrite andb_false_r.
    destruct (last_addr_elem 0 l1 Hl1) as (l0 & [kp dp] & El). set (p := last_addr 0 l1) in *.
    assert ((p, (kp, dp)) ∈ l) as Hpin.
    { subst l. rewrite El. rewrite !elem_of_app. left. right. left. }
    destruct (seg_elem _ _ _ _ _ _ _ Hch Hpin) as (_ & rp & Hrp & _). rewrite Hrp. cbn [mbind option_bind].
    erewrite put_row_spec by exact Hrp. cbn [mbind option_bind]. set (t1 := with_mem t _).
    assert (p <> b) as Hpb.
    { intros E. subst l. rewrite El, E, !fmap_app in Hnd.
      apply NoDup_app in Hnd as (_ & Hd & _). apply (Hd b); [apply elem_of_app; right; left|left]. }
    destruct (free_row_spec t1 b r) as (p' & -> & Hpi & Hpl & Hpa); [|apply Hwf|by apply (tails_live lk t B i l)|].
    { simpl. by rewrite lookup_insert_ne. }
    cbn [mbind option_bind]. eexists _, p', _, (l1 ++ l2). split; [done|].
    split; [|by rewrite fmap_app]. cbn [mem t1 with_mem]. unfold l in Hl. rewrite El in Hl |- *.
    by eapply (delete_behind_wf lk t B i root l0 p (kp, dp) b (k, d) l2 rp r p').
Qed.

(** ** The operations on the abstract map *)

Abbreviation Map := (gmap (list Z) (list (list Z))).

(** The bucket of [k] changed from [l] to [l'], where [k] now has the data [o]
    and the other keys are as before. *)
Lemma repr_update t t' B M i l l' k (o : option (list Z)) vals :
  wf ∅ t B -> (forall k d, holds B k d -> exists vals, fields (column_list t) d vals) ->
  (forall k vals, M !! k = Some vals <-> exists d, holds B k d /\ fields (column_list t) d vals) ->
  B !! i = Some l -> Z.land (hash_func k) (mask t) = Z.of_nat i ->
  wf ∅ t' (<[i := l']> B) -> column_list t' = column_list t -> mask t' = mask t ->
  (forall k' d', k' <> k -> (k', d') ∈ l'.*2 <-> (k', d') ∈ l.*2) ->
  (forall d', (k, d') ∈ l'.*2 <-> o = Some d') ->
  (forall d', o = Some d' -> fields (column_list t) d' vals) ->
  repr hash_func t' (match o with Some _ => <[k := vals]> M | None => delete k M end).
Proof.
  intros Hwf Hf HM Hl Hk Hwf' Ec Em Hother Hself Hvals.
  assert (Hl' : (<[i := l']> B) !! i = Some l') by (apply list_lookup_insert_eq; by eapply lookup_lt_Some).
  assert (Hpair : forall (l0 : list entry) k0 d0, (exists a, (a, (k0, d0)) ∈ l0) <-> (k0, d0) ∈ l0.*2).
  { intros l0 k0 d0. rewrite list_elem_of_fmap. split; [intros [a Ha]; by exists (a, (k0, d0))|].
    intros ([a ?] & [= <-] & Ha). eauto. }
  assert (Hholds : forall k' d', holds (<[i := l']> B) k' d' <->
    if decide (k' = k) then o = Some d' else holds B k' d').
  { intros k' d'. case_decide as Hkk.
    - subst k'. rewrite (holds_bucket _ _ _ _ _ _ _ Hwf' Hl') by congruence. by rewrite Hpair.
    - destruct (decide (Z.land (hash_func k') (mask t) = Z.of_nat i)) as [Hi|Hi].
      + rewrite (holds_bucket _ _ _ _ _ _ _ Hwf' Hl') by congruence.
        rewrite (holds_bucket _ _ _ _ _ _ _ Hwf Hl) by done. rewrite !Hpair. auto.
      + split; intros (j & lj & a & Hj & Ha); exists j, lj, a; (split; [|done]).
        * apply list_lookup_insert_Some in Hj as [(<- & <- & _)|[_ Hj]]; [|done].
          destruct (tw_keys _ _ _ _ Hwf' _ _ Hl') as (_ & _ & Hh). specialize (Hh _ _ _ Ha). congruence.
        * rewrite list_lookup_insert_ne; [done|]. intros <-.
          destruct (tw_keys _ _ _ _ Hwf _ _ Hj) as (_ & _ & Hh). specialize (Hh _ _ _ Ha). congruence. }
  exists (<[i := l']> B). rewrite Ec. split_and!; [done| |].
  - intros k' d' H'%Hholds. case_decide; [eauto|by eapply Hf].
  - intros k' vals'. setoid_rewrite Hholds. destruct o as [d0|].
    + destruct (decide (k' = k)) as [->|Hne].
      * rewrite lookup_insert_eq. split; [intros [= <-]; eauto|].
        intros (d' & [= <-] & Hd'). f_equal. eapply fields_fun; [by apply Hvals|done].
      * rewrite lookup_insert_ne by done. apply HM.
    + destruct (decide (k' = k)) as [->|Hne].
      * rewrite lookup_delete_eq. split; [done|]. by intros (? & ? & _).
      * rewrite lookup_delete_ne by done. apply HM.
Qed.

(** Where an operation starts: the bucket of the key is locked and searched. *)
Lemma open_bucket t M k :
  repr hash_func t M ->
  exists B i root l m, let t1 := with_mem t m in
    hash hash_func t k = Some root /\ lock t root = Some t1 /\ wf {[root]} t1 B /\
    rows t !! i = Some root /\ B !! i = Some l /\ Z.land (hash_func k) (mask t) = Z.of_nat i /\
    wf ∅ t B /\ (forall k d, holds B k d -> exists vals, fields (column_list t) d vals) /\
    (forall k vals, M !! k = Some vals <-> exists d, holds B k d /\ fields (column_list t) d vals) /\
    ((exists l1 b d l2 vals, l = l1 ++ (b, (k, d)) :: l2 /\ b <> 0 /\ M !! k = Some vals /\
        fields (column_list t) d vals /\ (k ∉ l1.*2.*1) /\ (k ∉ l2.*2.*1) /\
        find_row t1 root k = Some (b, last_addr 0 l1, 1 + zlen l1)) \/
     (k ∉ l.*2.*1) /\ M !! k = None /\ find_row t1 root k = Some (0, last_addr 0 l, zlen l)).
Proof.
  intros (B & Hwf & Hf & HM). destruct (hash_spec ∅ t B k Hwf) as (i & root & l & Eh & Hr & Hl & Hi).
  destruct (lock_spec t B root Hwf) as (m & El & Hwf1); [by eapply list_elem_of_lookup_2|].
  exists B, i, root, l, m. simpl. split_and!; try done.
  destruct (find_row_spec _ (with_mem t m) B i root l k Hwf1 Hr Hl) as [(l1 & b & d & l2 & -> & Hn1 & Ef)|[Hn Ef]].
  - left. destruct (Hf k d) as [vals Hv].
    { exists i, (l1 ++ (b, (k, d)) :: l2), b. split; [done|]. apply elem_of_app. right. left. }
    exists l1, b, d, l2, vals. split_and!; try done.
    + pose proof (tw_bucket _ _ _ _ Hwf _ _ _ Hr Hl) as Hb. apply bucket_chain in Hb; [|by destruct l1].
      eapply seg_elem; [exact Hb|]. apply elem_of_app. right. left.
    + apply HM. exists d. split; [|done]. exists i, (l1 ++ (b, (k, d)) :: l2), b. split; [done|].
      apply elem_of_app. right. left.
    + destruct (tw_keys _ _ _ _ Hwf _ _ Hl) as (_ & Hk & _). rewrite !fmap_app in Hk.
      apply NoDup_app in Hk as (_ & _ & [Hk _]%NoDup_cons). done.
  - right. split_and!; [done| |done]. destruct (M !! k) as [vals|] eqn:E; [|done].
    apply HM in E as (d & Hd & _). apply (holds_bucket _ _ _ _ _ _ _ Hwf Hl Hi) in Hd as [a Ha].
    destruct Hn. rewrite <- list_fmap_compose. apply list_elem_of_fmap. by exists (a, (k, d)).
Qed.

(** The columns and the capacity of a table are kept. *)
Definition kept t t' : Prop := column_list t' = column_list t /\ sp_all (pool t') = sp_all (pool t).

(** Where it ends without a change of the entries. *)
Lemma close_unchanged t B M root i m :
  wf {[root]} (with_mem t m) B -> rows t !! i = Some root ->
  (forall k d, holds B k d -> exists vals, fields (column_list t) d vals) ->
  (forall k vals, M !! k = Some vals <-> exists d, holds B k d /\ fields (column_list t) d vals) ->
  exists t', unlock (with_mem t m) root = Some t' /\ repr hash_func t' M /\ kept t t'.
Proof.
  intros Hwf Hr Hf HM. destruct (unlock_spec _ _ _ Hwf) as (m' & E & Hwf'); [by eapply list_elem_of_lookup_2|].
  eexists. split; [exact E|]. split; [|done]. exists B. done.
Qed.

Lemma with_stats_wf lk t B s : wf lk t B -> row_num s = row_num (stats t) -> wf lk (with_stats t s) B.
Proof. intros [] Hs. split; try done. simpl. by rewrite Hs. Qed.

Lemma invalid_key t M k : repr hash_func t M -> is_valid_key_length (zlen k) = false -> M !! k = None.
Proof.
  intros (B & Hwf & Hf & HM) Hk. destruct (M !! k) as [vals|] eqn:E; [|done].
  apply HM in E as (d & (i & l & a & Hl & Ha) & _).
  destruct (lookup_lt_is_Some_2 (rows t) i) as [ri Hri].
  { rewrite <- (tw_len _ _ _ _ Hwf). by eapply lookup_lt_Some. }
  pose proof (tw_bucket _ _ _ _ Hwf _ _ _ Hri Hl) as Hb.
  apply bucket_chain in Hb; [|by intros ->; apply elem_of_nil in Ha].
  destruct (seg_elem _ _ _ _ _ _ _ Hb Ha) as (_ & r & _ & (_ & <- & Hl1 & Hl2 & _)).
  exfalso. apply not_true_iff_false in Hk. apply Hk. apply valid_key. unfold SW_TABLE_KEY_SIZE in *.
  unfold rkey. rewrite length_take. lia.
Qed.

Lemma unlock_stats t B root i s m :
  wf {[root]} (with_mem t m) B -> rows t !! i = Some root -> row_num s = row_num (stats t) ->
  exists m', unlock (with_stats (with_mem t m) s) root = Some (with_stats (with_mem t m') s) /\
    wf ∅ (with_stats (with_mem t m') s) B.
Proof.
  intros Hwf Hr Hs. destruct (unlock_spec (with_stats (with_mem t m) s) B root) as (m' & E & Hwf').
  - by apply with_stats_wf.
  - by eapply list_elem_of_lookup_2.
  - exists m'. split; [exact E|exact Hwf'].
Qed.

(** The data of an entry has the size of the columns. *)
Lemma entry_size lk t B i root l a k d :
  wf lk t B -> rows t !! i = Some root -> B !! i = Some l -> (a, (k, d)) ∈ l -> zlen d = item_size t.
Proof.
  intros Hwf Hr Hl Ha. pose proof (tw_bucket _ _ _ _ Hwf _ _ _ Hr Hl) as Hb.
  apply bucket_chain in Hb; [|by intros ->; apply elem_of_nil in Ha].
  destruct (seg_elem _ _ _ _ _ _ _ Hb Ha) as (_ & r & Hra & (_ & _ & _ & _ & Ed)).
  destruct (tw_mem _ _ _ _ Hwf a) as (r' & Hr' & Hsz & _); [|congruence].
  assert (a ∈ footprint root l) as [->|Hin]%elem_of_cons.
  { eapply bucket_addrs; [done..|]. apply list_elem_of_fmap. by exists (a, (k, d)). }
  - left. by eapply list_elem_of_lookup_2.
  - right. eapply tw_sub; [done|]. by eapply tails_live.
Qed.

Lemma other_keys (l1 l2 : list entry) b b' k (d d' : list Z) k' x :
  k' <> k -> (k', x) ∈ (l1 ++ (b, (k, d)) :: l2).*2 <-> (k', x) ∈ (l1 ++ (b', (k, d')) :: l2).*2.
Proof.
  intros Hne. rewrite !fmap_app, !elem_of_app, !fmap_cons, !elem_of_cons. simpl. naive_solver.
Qed.

Lemma self_key (l1 l2 : list entry) b k (d x : list Z) : k ∉ l1.*2.*1 -> k ∉ l2.*2.*1 ->
  (k, x) ∈ (l1 ++ (b, (k, d)) :: l2).*2 <-> Some d = Some x.
Proof.
  intros H1 H2. rewrite fmap_app, elem_of_app, fmap_cons, elem_of_cons. simpl.
  assert (forall l : list entry, (k, x) ∈ l.*2 -> k ∈ l.*2.*1) as Hin.
  { intros l Hx. apply list_elem_of_fmap. by exists (k, x). }
  split.
  - intros [Hx|[[= ->]|Hx]]; [by apply Hin in Hx|done|by apply Hin in Hx].
  - intros [= ->]. right. by left.
Qed.

(** Values are written into a row that was found, and the bucket is unlocked. *)
Lemma write_close t t1 B M i root l1 b k d l2 d' vals f :
  wf ∅ t B -> (forall k d, holds B k d -> exists vals, fields (column_list t) d vals) ->
  (forall k vals, M !! k = Some vals <-> exists d, holds B k d /\ fields (column_list t) d vals) ->
  rows t !! i = Some root -> B !! i = Some (l1 ++ (b, (k, d)) :: l2) ->
  Z.land (hash_func k) (mask t) = Z.of_nat i -> k ∉ l1.*2.*1 -> k ∉ l2.*2.*1 ->
  same_shape t t1 -> wf {[root]} t1 B ->
  (forall r, data r = d -> f r = Some (with_data r d')) -> zlen d' = item_size t ->
  fields (column_list t) d' vals ->
  exists m, on_row t1 b f = Some (with_mem t1 m) /\
    forall s, row_num s = row_num (stats t1) ->
    exists t', unlock (with_stats (with_mem t1 m) s) root = Some t' /\
      repr hash_func t' (<[k := vals]> M) /\ kept t t'.
Proof.
  intros Hwf Hf HM Hr Hl Hk Hn1 Hn2 (Ec & Es & Em & Ei & Er & _ & Ea) Hwf1 Hfr Hd' Hv.
  destruct (write_spec _ t1 B i root l1 b k d d' l2 f Hwf1) as (m & E & Hwf2); [congruence|done|done|congruence|].
  exists m. split; [done|]. intros s Hs.
  destruct (unlock_stats t1 _ root i s m Hwf2) as (m' & E' & Hwf3); [congruence|done|].
  eexists. split; [exact E'|]. split; [|done].
  eapply (repr_update t _ B M i _ _ k (Some d') vals Hwf Hf HM Hl Hk Hwf3); try done.
  - intros. by apply other_keys.
  - intros. by apply self_key.
  - by intros ? [= <-].
Qed.

(** A new row behind the bucket [l] is cleared and filled. *)
Lemma fill_close t t2 B M i root l a k d0 values :
  wf ∅ t B -> (forall k d, holds B k d -> exists vals, fields (column_list t) d vals) ->
  (forall k vals, M !! k = Some vals <-> exists d, holds B k d /\ fields (column_list t) d vals) ->
  rows t !! i = Some root -> B !! i = Some l ->
  Z.land (hash_func k) (mask t) = Z.of_nat i -> k ∉ l.*2.*1 -> same_shape t t2 ->
  wf {[root]} t2 (<[i := l ++ [(a, (k, d0))]]> B) -> Forall (value_ok (column_list t)) values ->
  let cols := column_list t in
  exists m1 m2, on_row t2 a (clear_row cols) = Some (with_mem t2 m1) /\
    on_row (with_mem t2 m1) a (fun r => apply_values cols r values) = Some (with_mem t2 m2) /\
    forall s, row_num s = row_num (stats t2) ->
    exists t', unlock (with_stats (with_mem t2 m2) s) root = Some t' /\
      repr hash_func t' (<[k := assign_all cols values (blank <$> cols)]> M) /\ kept t t'.
Proof.
  intros Hwf Hf HM Hr Hl Hk Hn (Ec & Es & Em & Ei & Er & _ & Ea) Hwf2 Hvs cols.
  pose proof (tw_cols _ _ _ _ Hwf) as Hcols. assert (i < length B)%nat as Hlt by by eapply lookup_lt_Some.
  assert (Hl2 : (<[i := l ++ [(a, (k, d0))]]> B) !! i = Some (l ++ [(a, (k, d0))])) by by apply list_lookup_insert_eq.
  assert (zlen d0 = item_size t) as Hd0.
  { rewrite <- Ei. eapply (entry_size _ t2 _ i root _ a k d0 Hwf2); [congruence|done|].
    apply elem_of_app. right. left. }
  destruct (clear_row_spec cols (item_size t) (mkRow 0 true 0 0 [] d0) Hcols Hd0) as (d1 & E1 & Hd1 & Hf1).
  destruct (apply_values_spec cols (item_size t) (mkRow 0 true 0 0 [] d1) values (blank <$> cols) Hcols Hd1 Hvs Hf1)
    as (d2 & E2 & Hd2 & Hf2).
  destruct (write_spec _ t2 _ i root l a k d0 d1 [] (clear_row cols) Hwf2) as (m1 & Ew1 & Hwf3).
  { congruence. } { done. }
  { intros r Hrd. rewrite (clear_row_data cols (mkRow 0 true 0 0 [] d0) r) by done. by rewrite E1. }
  { congruence. }
  rewrite list_insert_insert_eq in Hwf3. exists m1.
  assert (Hl3 : (<[i := l ++ [(a, (k, d1))]]> B) !! i = Some (l ++ [(a, (k, d1))])) by by apply list_lookup_insert_eq.
  destruct (write_spec _ (with_mem t2 m1) _ i root l a k d1 d2 [] (fun r => apply_values cols r values) Hwf3)
    as (m2 & Ew2 & Hwf4).
  { simpl. congruence. } { done. }
  { intros r Hrd. rewrite (apply_values_data cols (mkRow 0 true 0 0 [] d1) r) by done. by rewrite E2. }
  { simpl. congruence. }
  rewrite list_insert_insert_eq in Hwf4. exists m2. split_and!; [done|exact Ew2|]. intros s Hs.
  destruct (unlock_stats t2 _ root i s m2 Hwf4) as (m' & E' & Hwf5); [congruence|done|].
  eexists. split; [exact E'|]. split; [|done].
  eapply (repr_update t _ B M i _ _ k (Some d2) _ Hwf Hf HM Hl Hk Hwf5); try done.
  - intros k' x Hne. rewrite fmap_app, elem_of_app. simpl. rewrite list_elem_of_singleton. naive_solver.
  - intros x. apply self_key; [done|by intros ?%elem_of_nil].
  - by intros ? [= <-].
Qed.

(** ** Each operation *)

Ltac open_table k :=
  match goal with Hr : repr hash_func ?t ?M |- _ =>
    destruct (open_bucket t M k Hr) as (B & i & root & l & m & Ehash & Elock & Hwf1 & Hroot & Hl & Hi & Hwf & Hf & HM &
      [(l1 & b & d & l2 & vals & -> & Hb0 & HMk & Hfd & Hn1 & Hn2 & Efind)|(Hn & HMk & Efind)]);
    rewrite Ehash; cbn [mbind option_bind]; rewrite Elock; cbn [mbind option_bind];
    rewrite Efind; cbn [mbind option_bind]
  end.

Lemma exists_ok t M k : repr hash_func t M ->
  exists t' b, exists_ hash_func t k = Some (t', b) /\ repr hash_func t' M /\
    (b = true <-> is_Some (M !! k)) /\ kept t t'.
Proof.
  intros Hrep. unfold exists_, get. destruct (is_valid_key_length (zlen k)) eqn:Ev; cbn [negb]; cycle 1.
  { simpl. exists t, false. rewrite (invalid_key t M k Hrep Ev). split; [done|]. split; [done|].
    split; [split; [done|by intros [? ?]]|done]. }
  assert (forall root i, rows t !! i = Some root -> (root =? 0) = false) as Hroot0.
  { destruct Hrep as (B & Hwf & _). intros root i Hr. apply Z.eqb_neq.
    destruct (lookup_lt_is_Some_2 B i) as [l Hl].
    { rewrite (tw_len _ _ _ _ Hwf). by eapply lookup_lt_Some. }
    by destruct (tw_bucket _ _ _ _ Hwf _ _ _ Hr Hl) as [? _]. }
  open_table k; rewrite (Hroot0 _ _ Hroot); cbn [negb];
    destruct (close_unchanged t B M root i m Hwf1 Hroot Hf HM) as (t' & -> & Hrep' & ?); cbn [mbind option_bind].
  - exists t', true. destruct (Z.eqb_spec b 0); [done|]. rewrite HMk. split; [done|]. split; [done|]. split; [split; [eauto|done]|done].
  - exists t', false. rewrite HMk. split; [done|]. split; [done|]. split; [split; [done|by intros [? ?]]|done].
Qed.

Lemma apply_found t values vals d :
  columns_ok (column_list t) (item_size t) -> zlen d = item_size t ->
  Forall (value_ok (column_list t)) values -> fields (column_list t) d vals ->
  exists d', (forall r, data r = d -> apply_values (column_list t) r values = Some (with_data r d')) /\
    zlen d' = item_size t /\ fields (column_list t) d' (assign_all (column_list t) values vals).
Proof.
  intros Hc Hd Hv Hf.
  destruct (apply_values_spec _ _ (mkRow 0 true 0 0 [] d) values vals Hc Hd Hv Hf) as (d' & E & ? & ?).
  exists d'. split; [|done]. intros r Hr. rewrite (apply_values_data _ (mkRow 0 true 0 0 [] d) r) by done.
  by rewrite E.
Qed.

Lemma found_size t B i root l1 b k d l2 :
  wf ∅ t B -> rows t !! i = Some root -> B !! i = Some (l1 ++ (b, (k, d)) :: l2) -> zlen d = item_size t.
Proof. intros Hwf Hr Hl. eapply entry_size; [done..|]. apply elem_of_app. right. left. Qed.

Lemma same_shape_mem t m : same_shape t (with_mem t m).
Proof. done. Qed.

Lemma update_ok t M k values : repr hash_func t M -> Forall (value_ok (column_list t)) values ->
  exists t' b, update hash_func t k values = Some (t', b) /\ kept t t' /\
    match M !! k with
    | Some vals => b = true /\ repr hash_func t' (<[k := assign_all (column_list t) values vals]> M)
    | None => b = false /\ repr hash_func t' M
    end.
Proof.
  intros Hrep Hv. unfold update. destruct (is_valid_key_length (zlen k)) eqn:Ev; cbn [negb]; cycle 1.
  { exists t, false. by rewrite (invalid_key t M k Hrep Ev). }
  open_table k; rewrite HMk.
  - destruct (Z.eqb_spec b 0); [done|]. cbn [column_list with_mem].
    destruct (apply_found t values vals d) as (d' & Hap & Hd' & Hfd'); [apply Hwf|by eapply found_size|done|done|].
    destruct (write_close t (with_mem t m) B M i root l1 b k d l2 d' _ _ Hwf Hf HM Hroot Hl Hi Hn1 Hn2
      (same_shape_mem t m) Hwf1 Hap Hd' Hfd') as (m2 & -> & Hclose). cbn [mbind option_bind].
    destruct (Hclose (count_update (stats t))) as (t' & E & ? & ?); [done|]. exists t', true.
    split_and!; try done. exact (f_equal (mbind (fun t => Some (t, true))) E).
  - cbn [Z.eqb]. destruct (close_unchanged t B M root i m Hwf1 Hroot Hf HM) as (t' & -> & ? & ?).
    exists t', false. done.
Qed.

(** The comparison of [cmpset] and [cmpdel]. *)
Lemma compare_found t m B i root l1 b k d l2 expected vals :
  wf ∅ t B -> wf {[root]} (with_mem t m) B -> rows t !! i = Some root ->
  B !! i = Some (l1 ++ (b, (k, d)) :: l2) ->
  Forall (value_ok (column_list t)) expected -> fields (column_list t) d vals ->
  exists ok, (r ← m !! b; match_values (column_list t) r expected) = Some ok /\
    (ok = true <-> Forall (expects (column_list t) vals) expected).
Proof.
  intros Hwf Hwf1 Hr Hl Hv Hfd. pose proof (tw_bucket _ _ _ _ Hwf1 _ _ _ Hr Hl) as Hb.
  apply bucket_chain in Hb; [|by destruct l1].
  destruct (seg_elem _ _ _ _ b k d Hb) as (_ & r & Hrm & (_ & _ & _ & _ & Ed)).
  { apply elem_of_app. right. left. }
  simpl in Hrm. rewrite Hrm. cbn [mbind option_bind]. rewrite <- Ed in Hfd.
  eapply match_values_spec; [apply Hwf|done|done].
Qed.

Lemma cmpset_ok t M k expected values : repr hash_func t M ->
  Forall (value_ok (column_list t)) expected -> Forall (value_ok (column_list t)) values ->
  exists t' b, cmpset hash_func t k expected values = Some (t', b) /\ kept t t' /\
    (b = true /\ (exists vals, M !! k = Some vals /\ Forall (expects (column_list t) vals) expected /\
       repr hash_func t' (<[k := assign_all (column_list t) values vals]> M)) \/
     b = false /\ repr hash_func t' M /\
       forall vals, M !! k = Some vals -> ~ Forall (expects (column_list t) vals) expected).
Proof.
  intros Hrep He Hv. unfold cmpset. destruct (is_valid_key_length (zlen k)) eqn:Ev; cbn [negb]; cycle 1.
  { exists t, false. rewrite (invalid_key t M k Hrep Ev). split_and!; [done..|]. by right. }
  open_table k; rewrite HMk.
  - destruct (Z.eqb_spec b 0); [done|]. cbn [mem with_mem column_list].
    destruct (compare_found t m B i root l1 b k d l2 expected vals) as (ok & -> & Hok); [done..|].
    cbn [mbind option_bind]. destruct ok; cbn [negb].
    + destruct (apply_found t values vals d) as (d' & Hap & Hd' & Hfd'); [apply Hwf|by eapply found_size|done|done|].
      destruct (write_close t (with_mem t m) B M i root l1 b k d l2 d' _ _ Hwf Hf HM Hroot Hl Hi Hn1 Hn2
        (same_shape_mem t m) Hwf1 Hap Hd' Hfd') as (m2 & -> & Hclose). cbn [mbind option_bind].
      destruct (Hclose (count_update (stats t))) as (t' & E & ? & ?); [done|]. exists t', true.
      split; [exact (f_equal (mbind (fun t => Some (t, true))) E)|]. split; [done|]. left. split; [done|].
      exists vals. split_and!; [done|by apply Hok|done].
    + destruct (close_unchanged t B M root i m Hwf1 Hroot Hf HM) as (t' & -> & ? & ?).
      exists t', false. split_and!; [done..|]. right. split_and!; [done..|]. intros ? [= <-] Hx%Hok. done.
  - cbn [Z.eqb mbind option_bind negb].
    destruct (close_unchanged t B M root i m Hwf1 Hroot Hf HM) as (t' & -> & ? & ?).
    exists t', false. split_and!; [done..|]. by right.
Qed.

(** A row that was found is deleted, and the bucket is unlocked. *)
Lemma delete_close t m B M i root l1 b k d l2 :
  wf ∅ t B -> (forall k d, holds B k d -> exists vals, fields (column_list t) d vals) ->
  (forall k vals, M !! k = Some vals <-> exists d, holds B k d /\ fields (column_list t) d vals) ->
  rows t !! i = Some root -> B !! i = Some (l1 ++ (b, (k, d)) :: l2) ->
  Z.land (hash_func k) (mask t) = Z.of_nat i -> k ∉ l1.*2.*1 -> k ∉ l2.*2.*1 ->
  wf {[root]} (with_mem t m) B ->
  exists t1 t', delete_row (with_mem t m) root b (last_addr 0 l1) = Some t1 /\
    unlock t1 root = Some t' /\ repr hash_func t' (delete k M) /\ kept t t'.
Proof.
  intros Hwf Hf HM Hr Hl Hk Hn1 Hn2 Hwf1.
  destruct (delete_row_spec _ (with_mem t m) B i root l1 b k d l2 Hwf1 Hr Hl)
    as (m1 & p' & s & l' & E & Hwf2 & El & Ea). eexists.
  destruct (unlock_spec _ _ root Hwf2) as (m2 & E' & Hwf3); [simpl; by eapply list_elem_of_lookup_2|].
  eexists. split; [exact E|]. split; [exact E'|]. split; [|done].
  assert (forall (l : list entry) x, (k, x) ∈ l.*2 -> k ∈ l.*2.*1) as Hin.
  { intros l x Hx. apply list_elem_of_fmap. by exists (k, x). }
  eapply (repr_update t _ B M i _ l' k None [] Hwf Hf HM Hl Hk Hwf3); try done.
  - intros k' x Hne. rewrite El, fmap_app, !elem_of_app, fmap_cons, elem_of_cons. simpl. naive_solver.
  - intros x. rewrite El, elem_of_app. split; [|done]. intros [Hx%Hin|Hx%Hin]; done.
Qed.

Lemma del_ok t M k : repr hash_func t M ->
  exists t' b, del hash_func t k = Some (t', b) /\ kept t t' /\
    repr hash_func t' (delete k M) /\ (b = true <-> is_Some (M !! k)).
Proof.
  intros Hrep. unfold del. destruct (is_valid_key_length (zlen k)) eqn:Ev; cbn [negb]; cycle 1.
  { exists t, false. pose proof (invalid_key t M k Hrep Ev) as HMk. rewrite HMk, delete_id by done.
    split_and!; [done..|]. split; [done|by intros [? ?]]. }
  open_table k; rewrite HMk.
  - destruct (Z.eqb_spec b 0); [done|].
    destruct (delete_close t m B M i root l1 b k d l2) as (t1 & t' & -> & E & ? & ?); [done..|].
    cbn [mbind option_bind]. rewrite E. exists t', true. split_and!; [done..|]. split; [eauto|done].
  - cbn [Z.eqb]. destruct (close_unchanged t B M root i m Hwf1 Hroot Hf HM) as (t' & -> & ? & ?).
    exists t', false. rewrite delete_id by done. split_and!; [done..|]. split; [done|by intros [? ?]].
Qed.

Lemma cmpdel_ok t M k expected : repr hash_func t M -> Forall (value_ok (column_list t)) expected ->
  exists t' b, cmpdel hash_func t k expected = Some (t', b) /\ kept t t' /\
    (b = true /\ repr hash_func t' (delete k M) /\
       (exists vals, M !! k = Some vals /\ Forall (expects (column_list t) vals) expected) \/
     b = false /\ repr hash_func t' M /\
       forall vals, M !! k = Some vals -> ~ Forall (expects (column_list t) vals) expected).
Proof.
  intros Hrep He. unfold cmpdel. destruct (is_valid_key_length (zlen k)) eqn:Ev; cbn [negb]; cycle 1.
  { exists t, false. rewrite (invalid_key t M k Hrep Ev). split_and!; [done..|]. by right. }
  open_table k; rewrite HMk.
  - destruct (Z.eqb_spec b 0); [done|]. cbn [mem with_mem column_list].
    destruct (compare_found t m B i root l1 b k d l2 expected vals) as (ok & -> & Hok); [done..|].
    cbn [mbind option_bind]. destruct ok; cbn [negb].
    + destruct (delete_close t m B M i root l1 b k d l2) as (t1 & t' & -> & E & ? & ?); [done..|].
      cbn [mbind option_bind]. rewrite E. exists t', true. split_and!; [done..|]. left. split_and!; [done..|].
      exists vals. split; [done|by apply Hok].
    + destruct (close_unchanged t B M root i m Hwf1 Hroot Hf HM) as (t' & -> & ? & ?).
      exists t', false. split_and!; [done..|]. right. split_and!; [done..|]. intros ? [= <-] Hx%Hok. done.
  - cbn [Z.eqb mbind option_bind negb].
    destruct (close_unchanged t B M root i m Hwf1 Hroot Hf HM) as (t' & -> & ? & ?).
    exists t', false. split_and!; [done..|]. by right.
Qed.

Lemma add_rows_one lk t B s : wf lk t B -> row_num s = row_num (stats t) ->
  row_num (add_rows s 1) = row_num (stats t) + 1.
Proof.
  intros Hwf Hs. simpl. rewrite Hs, (tw_count _ _ _ _ Hwf). apply uN_small.
  pose proof (tw_capacity _ _ _ _ Hwf). pose proof (count_bound _ _ _ Hwf). unfold fits. lia.
Qed.

(** A key that was not found: the place of the new row. *)
Lemma insert_found_root t B i root k :
  wf {[root]} t B -> rows t !! i = Some root -> B !! i = Some [] ->
  is_valid_key_length (zlen k) = true -> Z.land (hash_func k) (mask t) = Z.of_nat i ->
  exists r m d0, mem t !! root = Some r /\ active r = false /\
    let t2 := with_stats (with_mem t m) (add_rows (stats t) 1) in
    init_row t root k = Some t2 /\
    forall s, row_num s = row_num (stats t2) -> wf {[root]} (with_stats t2 s) (<[i := [(root, (k, d0))]]> B).
Proof.
  intros Hwf Hr Hl Hk Hi. destruct (tw_bucket _ _ _ _ Hwf _ _ _ Hr Hl) as (Hne & r & Hrr & Hb).
  destruct (active r) eqn:Ea; [simpl in Hb; congruence|].
  exists r, (<[root := new_row r k]> (mem t)), (data r). split; [done|]. split; [done|]. split.
  - by apply init_row_spec.
  - intros s Hs. simpl in Hs.
    apply (insert_root_wf {[root]} t B i root r k s); try done. rewrite Hs.
    exact (add_rows_one _ _ _ (stats t) Hwf eq_refl).
Qed.

(** The pool is exhausted, or a row comes out of it. *)
Lemma insert_found_tail t B i root l k s0 :
  wf {[root]} t B -> rows t !! i = Some root -> B !! i = Some l -> l <> [] -> k ∉ l.*2.*1 ->
  is_valid_key_length (zlen k) = true -> Z.land (hash_func k) (mask t) = Z.of_nat i ->
  row_num s0 = row_num (stats t) ->
  (exists r, mem t !! root = Some r /\ active r = true) /\
  let t0 := with_stats t s0 in
  (sp_live (pool t) = sp_all (pool t) /\ alloc_row t0 = Some (t0, 0) \/
   exists p' a d0 m1 rp m2, a <> 0 /\ sp_all p' = sp_all (pool t) /\ alloc_row t0 = Some (with_pool t0 p', a) /\
     let t1 := with_stats (with_pool (with_mem t m1) p') (add_rows s0 1) in
     init_row (with_pool t0 p') a k = Some t1 /\ mem t1 !! last_addr 0 l = Some rp /\
     put_row t1 (last_addr 0 l) (with_next rp a) = Some (with_mem t1 m2) /\
     forall s, row_num s = row_num (stats t1) ->
       wf {[root]} (with_stats (with_mem t1 m2) s) (<[i := l ++ [(a, (k, d0))]]> B)).
Proof.
  intros Hwf Hr Hl Hne Hnk Hk Hi Hs0. pose proof (tw_bucket _ _ _ _ Hwf _ _ _ Hr Hl) as Hb.
  apply bucket_chain in Hb as Hch; [|done]. split.
  { destruct Hb as (_ & r & Hrr & Hb). exists r. split; [done|]. by destruct (active r); [|destruct Hb]. }
  simpl. destruct (sp_alloc_ok (pool t) (tw_pool _ _ _ _ Hwf)) as [[Hfull E]|(p' & a & E & Hinv & Ha & Hlive & Hall)].
  { left. split; [done|]. unfold alloc_row. simpl. rewrite E. done. }
  right. pose proof Ha as [Haa Han]%elem_of_difference.
  destruct (tw_mem _ _ _ _ Hwf a) as (r & Hra & _); [by right|].
  destruct (last_addr_elem 0 l Hne) as (l0 & [kp dp] & El).
  destruct (seg_elem _ _ _ _ (last_addr 0 l) kp dp Hch) as (_ & rp & Hrp & _).
  { rewrite El at 2. apply elem_of_app. right. left. }
  assert (a <> last_addr 0 l) as Hap.
  { intros ->. assert (last_addr 0 l ∈ footprint root l) as [Hx|Hx]%elem_of_cons.
    - eapply bucket_addrs; [done..|]. rewrite El at 2. rewrite fmap_app. apply elem_of_app. right. left.
    - eapply (tw_roots _ _ _ _ Hwf root); [by eapply list_elem_of_lookup_2|congruence].
    - apply Han. by eapply tails_live. }
  exists p', a, (data r), (<[a := new_row r k]> (mem t)), rp,
    (<[last_addr 0 l := with_next rp a]> (<[a := new_row r k]> (mem t))). split; [|split; [|split]]; [| | |split_and!].
  - intros ->. by apply (sp_nonnull _ (tw_pool _ _ _ _ Hwf)).
  - done.
  - unfold alloc_row. simpl. by rewrite E.
  - by erewrite init_row_spec.
  - by rewrite lookup_insert_ne.
  - erewrite put_row_spec; [done|]. simpl. by rewrite lookup_insert_ne.
  - intros s Hs. simpl in Hs.
    apply (insert_tail_wf {[root]} t B i root l a p' k r rp s); try done. rewrite Hs.
    exact (add_rows_one _ _ _ s0 Hwf Hs0).
Qed.

(** A new row in the bucket [l] of a table of the shape of [t]. *)
Definition inserted (t t2 : Table) B i root l k a : Prop :=
  a <> 0 /\ same_shape t t2 /\ exists d0, wf {[root]} t2 (<[i := l ++ [(a, (k, d0))]]> B).

Lemma set_row_new t m B i root l k :
  hash hash_func t k = Some root -> lock t root = Some (with_mem t m) ->
  find_row (with_mem t m) root k = Some (0, last_addr 0 l, zlen l) ->
  wf {[root]} (with_mem t m) B -> rows t !! i = Some root -> B !! i = Some l -> k ∉ l.*2.*1 ->
  is_valid_key_length (zlen k) = true -> Z.land (hash_func k) (mask t) = Z.of_nat i ->
  sp_live (pool t) = sp_all (pool t) /\ (exists s, row_num s = row_num (stats t) /\
    set_row hash_func t k = Some (with_stats (with_mem t m) s, 0, root, 0)) \/
  exists t2 a flags, set_row hash_func t k = Some (t2, a, root, flags) /\ inserted t t2 B i root l k a /\
    (Z.land flags FLAG_NEW_ROW =? 0) = false.
Proof.
  intros Ehash Elock Efind Hwf1 Hroot Hl Hn Ev Hi. unfold set_row. rewrite Ev. cbn [negb].
  rewrite Ehash. cbn [mbind option_bind]. rewrite Elock. cbn [mbind option_bind]. rewrite Efind.
  cbn [mbind option_bind Z.eqb]. destruct (decide (l = [])) as [->|Hne].
  - destruct (insert_found_root (with_mem t m) B i root k) as (r & m1 & d0 & Hr & Ha & E & Hwf2); [done..|].
    rewrite Hr. cbn [mbind option_bind]. rewrite Ha, E. cbn [mbind option_bind]. right.
    destruct (tw_bucket _ _ _ _ Hwf1 _ _ _ Hroot Hl) as (Hr0 & _).
    eexists _, root, _. split; [done|]. split; [|done]. split_and!; [done|done|].
    exists d0. by apply (Hwf2 (count_insert (add_rows (stats t) 1))).
  - destruct (insert_found_tail (with_mem t m) B i root l k (count_conflict (stats t) (zlen l)))
      as ((r & Hr & Ha) & Hcase); [done..|].
    rewrite Hr. cbn [mbind option_bind]. rewrite Ha. change (stats (with_mem t m)) with (stats t).
    destruct Hcase as [[Hfull ->]|(p' & a & d0 & m1 & rp & m2 & Ha0 & Hall & -> & E1 & Hrp & E2 & Hwf2)]; cbn [mbind option_bind].
    + left. split; [done|]. by exists (count_conflict (stats t) (zlen l)).
    + right. destruct (Z.eqb_spec a 0); [done|]. rewrite E1. cbn [mbind option_bind]. rewrite Hrp. cbn [mbind option_bind].
      rewrite E2. cbn [mbind option_bind]. eexists _, a, _. split; [done|]. split; [|by destruct (1 <? zlen l)].
      split_and!; [done|done|]. exists d0. by apply (Hwf2 (count_insert _)).
Qed.

Lemma set_ok t M k values : repr hash_func t M -> Forall (value_ok (column_list t)) values ->
  exists t' b full, set hash_func t k values = Some (t', b, full) /\ kept t t' /\
    (b = true /\ full = false /\ is_valid_key_length (zlen k) = true /\
       repr hash_func t' (<[k := assign_all (column_list t) values (default (blank <$> column_list t) (M !! k))]> M) \/
     b = false /\ full = false /\ is_valid_key_length (zlen k) = false /\ repr hash_func t' M \/
     b = false /\ full = true /\ M !! k = None /\ sp_live (pool t) = sp_all (pool t) /\ repr hash_func t' M).
Proof.
  intros Hrep Hv. unfold set. destruct (is_valid_key_length (zlen k)) eqn:Ev; cbn [negb]; cycle 1.
  { exists t, false, false. split_and!; [done..|]. right. by left. }
  destruct (open_bucket t M k Hrep) as (B & i & root & l & m & Ehash & Elock & Hwf1 & Hroot & Hl & Hi & Hwf & Hf & HM &
    [(l1 & b & d & l2 & vals & -> & Hb0 & HMk & Hfd & Hn1 & Hn2 & Efind)|(Hn & HMk & Efind)]); rewrite HMk.
  - unfold set_row. rewrite Ev. cbn [negb]. rewrite Ehash. cbn [mbind option_bind]. rewrite Elock.
    cbn [mbind option_bind]. rewrite Efind. cbn [mbind option_bind].
    destruct (Z.eqb_spec b 0); [done|]. cbn [mbind option_bind]. destruct (Z.eqb_spec b 0); [done|].
    set (flags := if negb _ then FLAG_CONFLICT else 0).
    assert ((Z.land flags FLAG_NEW_ROW =? 0) = true) as -> by (subst flags; by destruct (negb _)).
    cbn [negb mbind option_bind column_list stats with_stats with_mem].
    destruct (apply_found t values vals d) as (d' & Hap & Hd' & Hfd'); [apply Hwf|by eapply found_size|done|done|].
    destruct (write_close t (with_stats (with_mem t m) (count_update (stats t))) B M i root l1 b k d l2 d' _ _ Hwf Hf HM Hroot Hl Hi Hn1 Hn2
      ltac:(done) ltac:(by apply with_stats_wf) Hap Hd' Hfd') as (m2 & -> & Hclose). cbn [mbind option_bind].
    destruct (Hclose (count_update (stats t))) as (t' & E & ? & ?); [done|]. exists t', true, false.
    split; [exact (f_equal (mbind (fun t => Some (t, true, false))) E)|]. split; [done|]. left. done.
  - destruct (set_row_new t m B i root l k) as [(Hfull & s & Hs & ->)|(t2 & a & flags & -> & (Ha0 & Hsh & d0 & Hwf2) & Hfl)];
      [done..| |]; cbn [mbind option_bind Z.eqb negb].
    + destruct (tw_bucket _ _ _ _ Hwf1 _ _ _ Hroot Hl) as (Hr0 & _). destruct (Z.eqb_spec root 0); [done|]. cbn [negb].
      destruct (unlock_stats t B root i s m Hwf1 Hroot Hs) as (m' & -> & Hwf3).
      eexists _, false, true. split_and!; [done..|]. right. right. split_and!; try done. exists B. done.
    + destruct (Z.eqb_spec a 0); [done|]. rewrite Hfl. cbn [negb].
      destruct (fill_close t t2 B M i root l a k d0 values) as (m3 & m4 & E2 & E3 & Hclose); [done..|].
      destruct Hsh as (Ec & _). rewrite Ec, E2.
      cbn [mbind option_bind]. change (column_list (with_mem t2 m3)) with (column_list t2). rewrite Ec, E3.
      cbn [mbind option_bind]. destruct (Hclose (stats t2) eq_refl) as (t' & E4 & ? & ?). exists t', true, false.
      split; [destruct t2; exact (f_equal (mbind (fun t => Some (t, true, false))) E4)|]. split; [done|]. left. done.
Qed.

Lemma add_row_new t m B i root l k :
  find_row (with_mem t m) root k = Some (0, last_addr 0 l, zlen l) ->
  wf {[root]} (with_mem t m) B -> rows t !! i = Some root -> B !! i = Some l -> k ∉ l.*2.*1 ->
  is_valid_key_length (zlen k) = true -> Z.land (hash_func k) (mask t) = Z.of_nat i ->
  let new r0 :=
    (if active r0 : bool then
       '(t, row) ← alloc_row (with_mem t m);
       if row =? 0 then Some (t, 0) else
       t ← init_row t row k;
       p ← mem t !! last_addr 0 l;
       t ← put_row t (last_addr 0 l) (with_next p row);
       Some (with_stats t (count_conflict (stats t) (zlen l)), row)
     else t ← init_row (with_mem t m) root k; Some (t, root)) in
  sp_live (pool t) = sp_all (pool t) /\ (exists r0, m !! root = Some r0 /\ new r0 = Some (with_mem t m, 0)) \/
  exists r0 t2 a, m !! root = Some r0 /\ new r0 = Some (t2, a) /\ inserted t t2 B i root l k a.
Proof.
  intros Efind Hwf1 Hroot Hl Hn Ev Hi new. destruct (decide (l = [])) as [->|Hne].
  - destruct (insert_found_root (with_mem t m) B i root k) as (r & m1 & d0 & Hr & Ha & E & Hwf2); [done..|].
    right. destruct (tw_bucket _ _ _ _ Hwf1 _ _ _ Hroot Hl) as (Hr0 & _).
    eexists r, _, root. split; [done|]. unfold new. rewrite Ha, E. split; [done|]. split_and!; [done|done|].
    exists d0. exact (Hwf2 (add_rows (stats t) 1) eq_refl).
  - destruct (insert_found_tail (with_mem t m) B i root l k (stats t)) as ((r & Hr & Ha) & Hcase); [done..|].
    change (with_stats (with_mem t m) (stats t)) with (with_mem t m) in Hcase.
    destruct Hcase as [[Hfull E]|(p' & a & d0 & m1 & rp & m2 & Ha0 & Hall & E & E1 & Hrp & E2 & Hwf2)].
    + left. split; [done|]. exists r. split; [done|]. unfold new. by rewrite Ha, E.
    + right. eexists r, _, a. split; [done|]. unfold new. rewrite Ha, E. cbn [mbind option_bind].
      destruct (Z.eqb_spec a 0); [done|]. rewrite E1. cbn [mbind option_bind]. rewrite Hrp. cbn [mbind option_bind].
      rewrite E2. split; [done|]. split_and!; [done|done|]. exists d0. by apply (Hwf2 (count_conflict _ _)).
Qed.

Lemma add_ok t M k values : repr hash_func t M -> Forall (value_ok (column_list t)) values ->
  exists t' b full, add hash_func t k values = Some (t', b, full) /\ kept t t' /\
    (b = true /\ full = false /\ M !! k = None /\ is_valid_key_length (zlen k) = true /\
       repr hash_func t' (<[k := assign_all (column_list t) values (blank <$> column_list t)]> M) \/
     b = false /\ full = false /\ (is_valid_key_length (zlen k) = false \/ is_Some (M !! k)) /\ repr hash_func t' M \/
     b = false /\ full = true /\ M !! k = None /\ sp_live (pool t) = sp_all (pool t) /\ repr hash_func t' M).
Proof.
  intros Hrep Hv. unfold add. destruct (is_valid_key_length (zlen k)) eqn:Ev; cbn [negb]; cycle 1.
  { exists t, false, false. split_and!; [done..|]. right. left. auto. }
  open_table k; rewrite HMk.
  - destruct (Z.eqb_spec b 0); [done|]. cbn [negb].
    destruct (close_unchanged t B M root i m Hwf1 Hroot Hf HM) as (t' & -> & ? & ?).
    exists t', false, false. split_and!; [done..|]. right. left. eauto.
  - cbn [Z.eqb negb]. change (mem (with_mem t m)) with m.
    destruct (add_row_new t m B i root l k) as [(Hfull & r0 & Hr0 & E)|(r0 & t2 & a & Hr0 & E & (Ha0 & Hsh & d0 & Hwf2))];
      [done..| |]; rewrite Hr0; cbn [mbind option_bind]; rewrite E; cbn [mbind option_bind Z.eqb].
    + destruct (close_unchanged t B M root i m Hwf1 Hroot Hf HM) as (t' & -> & ? & ?).
      exists t', false, true. split_and!; [done..|]. right. right. done.
    + destruct (Z.eqb_spec a 0); [done|].
      destruct (fill_close t t2 B M i root l a k d0 values) as (m3 & m4 & E2 & E3 & Hclose); [done..|].
      destruct Hsh as (Ec & _). rewrite Ec, E2.
      cbn [mbind option_bind]. change (column_list (with_mem t2 m3)) with (column_list t2). rewrite Ec, E3.
      cbn [mbind option_bind]. change (stats (with_mem t2 m4)) with (stats t2).
      destruct (Hclose (count_insert (stats t2)) eq_refl) as (t' & -> & ? & ?).
      exists t', true, false. split_and!; [done..|]. left. done.
Qed.

(** What [getdel] returns: the bytes of the row, or those of one column. *)
Definition column_at_0 (c : TableColumn) : TableColumn := mkColumn (type c) (csize c) (name c) 0.
Definition snapshot_of (cols : list TableColumn) (vals : list (list Z)) (j : option nat) (snapshot : list Z) : Prop :=
  match j with
  | None => fields cols snapshot vals
  | Some j => exists c v, cols !! j = Some c /\ vals !! j = Some v /\ field (column_at_0 c) snapshot v
  end.

Lemma field_snapshot c d v x : field c d v -> zsub d (index c) (csize c) = Some x ->
  match type c with TYPE_STRING => 4 <= csize c | _ => csize c = 8 end -> field (column_at_0 c) x v.
Proof.
  intros Hf Hx Hs. pose proof (fun o n => zsub_zsub d (index c) (csize c) x o n Hx) as Hsub.
  unfold field, column_at_0 in *. cbn [type csize index]. destruct (type c).
  1,2: rewrite Hsub by lia; by rewrite Z.add_0_r.
  destruct Hf as (b & Hb & Hl & Hv). exists b. rewrite !Hsub by lia. rewrite Z.add_0_r. done.
Qed.

Lemma getdel_ok t M k (j : option nat) : repr hash_func t M ->
  (forall j', j = Some j' -> (j' < length (column_list t))%nat) ->
  exists t' o, getdel hash_func t k (j' ← j; column_list t !! j') = Some (t', o) /\ kept t t' /\
    repr hash_func t' (delete k M) /\
    match M !! k with
    | None => o = None
    | Some vals => exists snapshot, o = Some snapshot /\ snapshot_of (column_list t) vals j snapshot
    end.
Proof.
  intros Hrep Hj. unfold getdel. destruct (is_valid_key_length (zlen k)) eqn:Ev; cbn [negb]; cycle 1.
  { exists t, None. pose proof (invalid_key t M k Hrep Ev) as HMk. rewrite HMk, delete_id by done. done. }
  open_table k; rewrite HMk.
  - destruct (Z.eqb_spec b 0); [done|].
    destruct (seg_elem m root (l1 ++ (b, (k, d)) :: l2) 0 b k d) as (_ & r & Hr & (_ & _ & _ & _ & Ed)).
    { apply bucket_chain; [|by destruct l1]. exact (tw_bucket _ _ _ _ Hwf1 _ _ _ Hroot Hl). }
    { apply elem_of_app. right. left. }
    cbn [mem with_mem]. rewrite Hr. cbn [mbind option_bind].
    assert (zlen d = item_size t) as Hsz by by eapply found_size.
    set (snap := if negb _ then _ else _).
    assert (exists x, snap = Some x /\ snapshot_of (column_list t) vals j x) as (x & -> & Hx).
    { subst snap. rewrite Ed. destruct j as [j|]; simpl.
      - destruct (lookup_lt_is_Some_2 (column_list t) j) as [c Hc]; [by apply Hj|]. rewrite Hc. simpl.
        pose proof (col_range _ _ (tw_cols _ _ _ _ Hwf) j c Hc) as (Hi0 & Hi1 & Ht).
        destruct (Forall2_lookup_l _ _ _ _ _ Hfd Hc) as (v & Hv & Hfv).
        destruct (zsub_in_bounds d (index c) (csize c)) as [x Ex]; [lia|destruct (type c); lia|lia|].
        destruct (Z.eqb_spec (csize c) 0); [destruct (type c); lia|]. simpl. exists x. split; [done|].
        exists c, v. split_and!; try done. eapply field_snapshot; [done..|]. destruct (type c); lia.
      - destruct (Z.eqb_spec (item_size t) 0) as [Hz|Hz]; simpl.
        + exists []. split; [done|]. destruct d; [done|simpl in Hsz; lia].
        + exists d. split; [|done]. apply zsub_Some. split_and!; [lia|lia|lia|]. rewrite drop_0. rewrite take_ge; [done|lia]. }
    cbn [mbind option_bind].
    destruct (delete_close t m B M i root l1 b k d l2) as (t1 & t' & -> & E & ? & ?); [done..|].
    cbn [mbind option_bind]. rewrite E. exists t', (Some x). split_and!; [done..|]. eauto.
  - cbn [Z.eqb]. destruct (close_unchanged t B M root i m Hwf1 Hroot Hf HM) as (t' & -> & ? & ?).
    exists t', None. rewrite delete_id by done. done.
Qed.

(** *** The number of entries *)

Lemma keys_NoDup lk t B : wf lk t B -> NoDup (concat B).*2.*1.
Proof.
  intros Hwf. rewrite <- list_fmap_compose.
  replace (fmap _ (concat B)) with (concat ((fun l : list entry => l.*2.*1) <$> B)).
  2: { clear. induction B as [|l B IH]; [done|]. rewrite fmap_cons. cbn [concat]. rewrite fmap_app, IH.
       by rewrite <- list_fmap_compose. }
  apply NoDup_concat.
  - intros i x Hx. rewrite list_lookup_fmap in Hx. destruct (B !! i) as [l|] eqn:E; [|done].
    injection Hx as <-. by eapply tw_keys.
  - intros i j li lj k Hi Hj Hki Hkj. rewrite list_lookup_fmap in Hi, Hj.
    destruct (B !! i) as [l|] eqn:Ei, (B !! j) as [l'|] eqn:Ej; try done. simplify_eq/=.
    apply list_elem_of_fmap in Hki as ([k1 d1] & -> & ([a1 ?] & [= <-] & H1)%list_elem_of_fmap).
    apply list_elem_of_fmap in Hkj as ([k2 d2] & E & ([a2 ?] & [= <-] & H2)%list_elem_of_fmap).
    simpl in E. subst k2. destruct (tw_keys _ _ _ _ Hwf _ _ Ei) as (_ & _ & Hh1).
    destruct (tw_keys _ _ _ _ Hwf _ _ Ej) as (_ & _ & Hh2). specialize (Hh1 _ _ _ H1). specialize (Hh2 _ _ _ H2). lia.
Qed.

Lemma count_ok t M : repr hash_func t M -> count t = Z.of_nat (base.size M).
Proof.
  intros (B & Hwf & Hf & HM). unfold count. rewrite (tw_count _ _ _ _ Hwf).
  pose proof (keys_NoDup _ _ _ Hwf) as Hnd.
  replace (length (concat B)) with (length (concat B).*2.*1) by by rewrite !length_fmap.
  rewrite <- (size_list_to_set (C := gset (list Z))) by exact Hnd. rewrite <- (size_dom (D := gset (list Z))).
  do 2 f_equal. apply set_eq. intros k. rewrite elem_of_list_to_set, elem_of_dom. split.
  - intros ([k1 d1] & -> & ([a1 ?] & [= <-] & (i & l & Hl & Ha)%concat_lookup)%list_elem_of_fmap)%list_elem_of_fmap.
    assert (holds B k1 d1) as Hh by (exists i, l, a1; done). destruct (Hf _ _ Hh) as [vals Hv].
    exists vals. apply HM. eauto.
  - intros (vals & (d & (i & l & a & Hl & Ha) & _)%HM). rewrite <- list_fmap_compose.
    apply list_elem_of_fmap. exists (a, (k, d)). split; [done|]. apply concat_lookup. eauto.
Qed.

(** When the pool is exhausted, all its rows are in the table. *)
Lemma full_size t M : repr hash_func t M -> sp_live (pool t) = sp_all (pool t) ->
  (base.size (sp_all (pool t)) <= base.size M)%nat.
Proof.
  intros Hrep Hfull. pose proof (count_ok t M Hrep) as Hc. destruct Hrep as (B & Hwf & _).
  unfold count in Hc. rewrite (tw_count _ _ _ _ Hwf) in Hc. rewrite <- Hfull.
  assert (sp_live (pool t) ⊆ list_to_set (concat B).*1) as Hsub.
  { intros a (i & l & Hl & Ha)%(tw_live _ _ _ _ Hwf). apply elem_of_list_to_set.
    assert (a ∈ l.*1) as ([? x] & -> & Hx)%list_elem_of_fmap.
    { unfold tails in Ha. destruct l.*1; [done|]. simpl in Ha. by right. }
    apply list_elem_of_fmap. eexists. split; [done|]. apply concat_lookup. eauto. }
  apply subseteq_size in Hsub. etransitivity; [exact Hsub|].
  etransitivity; [apply size_list_to_set_le|]. rewrite length_fmap. lia.
Qed.
End invariant.
