(* ===== verification/TableCreate.v ===== *)
(** * Making a table

    [Table::make], [Table::add_column], [Table::calc_memory_size] and
    [Table::create] of [src/memory/table.cc]: the size is rounded to a power of
    two, the columns are laid out side by side, and one block of shared memory
    is cut into the index of rows, the rows and a [FixedPool] of rows for
    collisions.  What is made is an empty table in the sense of [Table.v]. *)

From stdpp Require Import strings.
From S2P Require Import Prelude MemPool FixedPool Table Hash.

(** ** Definitions *)

(** A [float] is an integer times a negative power of two.  The product of such
    a number with a power of two is exact. *)
Record float := mkFloat { mantissa : Z; scale : Z }.
Definition flt (a b : float) : bool := mantissa a * 2 ^ scale b <? mantissa b * 2 ^ scale a.
Definition one : float := mkFloat 1 0.
(** [SW_TABLE_CONFLICT_PROPORTION]: 0.2 as a double and as a float *)
Definition proportion_double : float := mkFloat 3602879701896397 54.
Definition proportion_float : float := mkFloat 13421773 26.

Definition SW_TABLE_MAX_ROW_SIZE : Z := 2147483648.
Definition sizeof_TableRow : Z := 88.

(** [class Table] before the call of [create] *)
Record Builder := mkBuilder {
  b_size : Z;
  b_mask : Z;
  b_item_size : Z;
  b_columns : list TableColumn;
  conflict_proportion : float;
  created : bool;
}.

(** [while ((1U << i) < rows_size) i++] *)
Fixpoint size_loop (fuel : nat) (i rows_size : Z) : option Z :=
  match fuel with
  | O => None
  | S fuel => if u32 (Z.shiftl 1 i) <? rows_size then size_loop fuel (i + 1) rows_size else Some i
  end.

(** [Table::make]; [memory] is the answer of the allocator *)
Definition table_make (rows_size : Z) (proportion : float) (memory : Z) : option (option Builder) :=
  rows_size ← (if SW_TABLE_MAX_ROW_SIZE <=? rows_size then Some SW_TABLE_MAX_ROW_SIZE
               else i ← size_loop 32 6 rows_size; Some (u32 (Z.shiftl 1 i)));
  let proportion :=
    if flt one proportion then one
    else if flt proportion proportion_double then proportion_float
    else proportion in
  if memory =? 0 then Some None
  else Some (Some (mkBuilder rows_size (u32 (rows_size - 1)) 0 [] proportion false)).

(** [Table::get_column] *)
Definition get_column (b : Builder) (k : string) : option TableColumn :=
  list_find (fun c => name c = k) (b_columns b) ≫= fun x => Some x.2.

(** [Table::add_column] *)
Definition add_column (b : Builder) (_name : string) (_type : col_type) (_size : Z) : Builder * bool :=
  if created b then (b, false) else
  match get_column b _name with
  | Some _ => (b, false)
  | None =>
      if (match _type with TYPE_STRING => true | _ => false end) && (2 ^ 32 - 1 - 4 <? _size) then (b, false) else
      let col := column_make _name _type _size in
      if 2 ^ 64 - 1 - b_item_size b <? csize col then (b, false) else
      let col := mkColumn (type col) (csize col) (name col) (b_item_size b) in
      (mkBuilder (b_size b) (b_mask b) (b_item_size b + csize col) (b_columns b ++ [col])
         (conflict_proportion b) (created b), true)
  end.

(** [size_mul_overflow] and [size_add_overflow]: no result where the code
    returns true *)
Definition size_mul_overflow (a b : Z) : option Z :=
  if negb (a =? 0) && ((2 ^ 64 - 1) / a <? b) then None else Some (a * b).
Definition size_add_overflow (a b : Z) : option Z :=
  if 2 ^ 64 - 1 - a <? b then None else Some (a + b).

Definition conflict_row_num (b : Builder) : Z :=
  Z.shiftr (b_size b * mantissa (conflict_proportion b)) (scale (conflict_proportion b)).

(** [Table::calc_memory_size]: 0 on overflow *)
Definition calc_memory_size (b : Builder) : Z :=
  default 0 (
    _row_num ← size_add_overflow (b_size b) (conflict_row_num b);
    _row_memory_size ← size_add_overflow sizeof_TableRow (b_item_size b);
    let _row_memory_size := u64 (aligned8 _row_memory_size) in
    _memory_size ← size_mul_overflow _row_num _row_memory_size;
    conflict_pool_size ← size_mul_overflow (_row_num - b_size b) sizeof_slice;
    conflict_pool_size ← size_add_overflow conflict_pool_size sizeof_impl;
    _memory_size ← size_add_overflow _memory_size conflict_pool_size;
    rows_index_size ← size_mul_overflow (b_size b) 8;
    size_add_overflow _memory_size rows_index_size).

(** [Table::create]; [memory] is the answer of [sw_shm_malloc], whose memory is
    filled with zeroes.  There is no result when the constructor of the pool
    throws. *)
Definition create (b : Builder) (memory : Z) : option (Builder * option (Table (P := Pool))) :=
  if created b then Some (b, None) else
  let _memory_size := calc_memory_size b in
  if _memory_size =? 0 then Some (b, None) else
  let _row_memory_size := u64 (aligned8 (sizeof_TableRow + b_item_size b)) in
  if 2 ^ 32 - 1 <? _row_memory_size then Some (b, None) else
  if memory =? 0 then Some (b, None) else
  let _memory := memory + b_size b * 8 in
  let _memory_size := _memory_size - b_size b * 8 in
  let rows := (fun i => _memory + _row_memory_size * Z.of_nat i) <$> seq 0 (Z.to_nat (b_size b)) in
  let _memory := _memory + _row_memory_size * b_size b in
  let _memory_size := _memory_size - _row_memory_size * b_size b in
  match make_in (u32 _row_memory_size) _memory _memory_size with
  | Some (inr pool) =>
      let row := zero_row (b_item_size b) in
      let mem := gset_to_gmap row (list_to_set rows ∪ sp_all pool) in
      let b := mkBuilder (b_size b) (b_mask b) (b_item_size b) (b_columns b) (conflict_proportion b) true in
      Some (b, Some (mkTable (b_columns b) (b_size b) (b_mask b) (b_item_size b) rows mem pool
        (mkStats 0 0 0 0 0 0) (mkIterator 0 0 row)))
  | _ => None
  end.

(** ** The layout of the columns *)

Record builder_wf (b : Builder) : Prop := {
  bw_size : exists n, 6 <= n < 32 /\ b_size b = 2 ^ n /\ b_mask b = 2 ^ n - 1;
  bw_item : 0 <= b_item_size b < 2 ^ 64;
  bw_cols : columns_ok (b_columns b) (b_item_size b);
  bw_names : NoDup (name <$> b_columns b);
  bw_rows : 12 <= conflict_row_num b <= b_size b;
}.

Lemma size_loop_spec fuel i rows_size : 0 <= i -> i + Z.of_nat fuel = 38 -> 6 <= i <= 31 ->
  rows_size < 2 ^ 31 -> exists j, size_loop fuel i rows_size = Some j /\ i <= j <= 31 /\ rows_size <= 2 ^ j.
Proof.
  revert i. induction fuel as [|fuel IH]; intros i Hi Hf Hr Hs; [lia|]. cbn [size_loop].
  rewrite Z.shiftl_1_l. assert (2 ^ i <= 2 ^ 31) by (apply Z.pow_le_mono_r; lia).
  rewrite uN_small by (split; [apply Z.pow_nonneg; lia|lia]).
  destruct (Z.ltb_spec (2 ^ i) rows_size).
  - assert (i <> 31) by (intros ->; lia). destruct (IH (i + 1)) as (j & -> & ? & ?); [lia..|]. exists j. split_and!; [done|lia..].
  - exists i. split_and!; [done|lia..].
Qed.

(** A float is between the bounds [make] forces. *)
Lemma conflict_rows n m e : 6 <= n -> 0 <= e -> 0 <= m ->
  (mkFloat m e = one \/ mkFloat m e = proportion_float \/
   flt one (mkFloat m e) = false /\ flt (mkFloat m e) proportion_double = false) ->
  12 <= Z.shiftr (2 ^ n * m) e <= 2 ^ n.
Proof.
  intros Hn He Hm Hc. assert (0 < 2 ^ e) as Hpe by (apply Z.pow_pos_nonneg; lia).
  assert (64 <= 2 ^ n) as Hpn by (change 64 with (2 ^ 6); apply Z.pow_le_mono_r; lia).
  rewrite Z.shiftr_div_pow2 by done.
  assert (12 * 2 ^ e <= 64 * m /\ m <= 2 ^ e) as [Hlo Hhi].
  { destruct Hc as [[= -> ->]|[[= -> ->]|[H1 H2]]]; [simpl; lia|unfold proportion_float; simpl; lia|].
    unfold flt, one, proportion_double in *. cbn [mantissa scale] in *. rewrite Z.ltb_ge in *.
    change (2 ^ 54) with 18014398509481984 in *. change (2 ^ 0) with 1 in *. lia. }
  split.
  - apply Z.div_le_lower_bound; [lia|]. nia.
  - apply Z.div_le_upper_bound; [lia|]. nia.
Qed.

Lemma table_make_wf rows_size p memory : 0 <= rows_size < 2 ^ 32 -> 0 <= mantissa p -> 0 <= scale p -> memory <> 0 ->
  exists b, table_make rows_size p memory = Some (Some b) /\ builder_wf b /\ created b = false /\
    (rows_size <= b_size b \/ b_size b = SW_TABLE_MAX_ROW_SIZE).
Proof.
  intros Hr Hm Hs Hmem. unfold table_make.
  set (sz := if _ <=? _ then _ else _).
  assert (exists n, sz = Some (2 ^ n) /\ 6 <= n < 32 /\ (rows_size <= 2 ^ n \/ 2 ^ n = SW_TABLE_MAX_ROW_SIZE)) as (n & -> & Hn & Hle).
  { subst sz. unfold SW_TABLE_MAX_ROW_SIZE. destruct (Z.leb_spec 2147483648 rows_size).
    - exists 31. split_and!; [done|lia|lia|by right].
    - destruct (size_loop_spec 32 6 rows_size) as (j & -> & Hj & ?); [lia..|]. exists j. split_and!; [|lia|lia|by left].
      simpl. rewrite Z.shiftl_1_l, uN_small; [done|]. split; [apply Z.pow_nonneg; lia|apply Z.pow_lt_mono_r; lia]. }
  cbn [mbind option_bind]. destruct (Z.eqb_spec memory 0); [done|]. eexists. split; [done|].
  assert (1 <= 2 ^ n < 2 ^ 32) by (split; [apply (Z.pow_le_mono_r 2 0); lia|apply Z.pow_lt_mono_r; lia]).
  split; [|split; [done|done]]. split; simpl.
  - exists n. rewrite uN_small by (unfold fits; lia). done.
  - lia.
  - split; intros; by destruct i.
  - constructor.
  - unfold conflict_row_num. cbn [b_size conflict_proportion].
    destruct (flt one p) eqn:E1; [apply conflict_rows; [lia|done|done|by left]|].
    destruct (flt p proportion_double) eqn:E2; [apply conflict_rows; [lia|done|done|right; by left]|].
    destruct p as [m e]. apply conflict_rows; [lia|done|done|]. right. right. done.
Qed.

Lemma columns_ok_snoc cols total c : columns_ok cols total -> 0 <= total -> index c = total ->
  match type c with TYPE_STRING => 4 <= csize c < 2 ^ 32 | _ => csize c = 8 end ->
  columns_ok (cols ++ [c]) (total + csize c).
Proof.
  intros [Hr Ha] Ht Hi Hc. assert (0 <= csize c) by (destruct (type c); lia).
  assert (forall j c', (cols ++ [c]) !! j = Some c' -> cols !! j = Some c' \/ j = length cols /\ c' = c) as Hsnoc.
  { intros j c' [Hj|[Hl Hj]]%lookup_app_Some; [by left|right].
    destruct (j - length cols)%nat as [|q] eqn:E; [|done]. simpl in Hj. split; [lia|congruence]. }
  split.
  - intros j c' [Hj|[-> ->]]%Hsnoc; [|rewrite Hi; split_and!; [lia|lia|done]]. specialize (Hr _ _ Hj). split_and!; [lia|lia|]. apply Hr.
  - intros i j c1 c2 [Hc1|[-> ->]]%Hsnoc [Hc2|[-> ->]]%Hsnoc Hne; [by apply (Ha i j)| | |done].
    + left. specialize (Hr _ _ Hc1). lia.
    + right. specialize (Hr _ _ Hc2). lia.
Qed.

Lemma get_column_None b k : get_column b k = None -> k ∉ name <$> b_columns b.
Proof.
  unfold get_column. intros E (c & -> & [i Hi]%list_elem_of_lookup)%list_elem_of_fmap.
  destruct (list_find _ _) eqn:F; [done|]. apply list_find_None in F.
  rewrite Forall_lookup in F. by eapply F.
Qed.

Lemma add_column_wf b nm ty sz : 0 <= sz -> builder_wf b ->
  builder_wf (add_column b nm ty sz).1 /\ created (add_column b nm ty sz).1 = created b.
Proof.
  intros Hsz Hb. unfold add_column. destruct (created b) eqn:Ecr; [done|].
  destruct (get_column b nm) eqn:Eg; [done|].
  destruct (_ && _) eqn:Estr; [done|]. set (col := column_make nm ty sz).
  destruct (Z.ltb_spec (2 ^ 64 - 1 - b_item_size b) (csize col)); [done|]. simpl. split; [|done].
  assert (match type col with TYPE_STRING => 4 <= csize col < 2 ^ 32 | _ => csize col = 8 end /\ name col = nm) as [Hc Hnm].
  { subst col. unfold column_make. destruct ty; simpl; [done|done|]. simpl in Estr. apply Z.ltb_ge in Estr.
    rewrite uN_small by (unfold fits; lia). split; [lia|done]. }
  assert (0 <= csize col) by (destruct (type col); lia).
  destruct Hb as [Hs Hi Hcols Hn Hr]. split; simpl; [done|lia| | |done].
  - by apply (columns_ok_snoc _ _ (mkColumn (type col) (csize col) (name col) (b_item_size b))); [|lia| |].
  - rewrite fmap_app. apply NoDup_app. split_and!; [done| |apply NoDup_singleton].
    intros x Hx ->%list_elem_of_singleton. cbn [name] in Hx. rewrite Hnm in Hx. by apply get_column_None in Hx.
Qed.

(** ** The memory of the table *)

Definition row_memory_size (b : Builder) : Z := aligned8 (sizeof_TableRow + b_item_size b).

Lemma size_mul_overflow_Some a b x : size_mul_overflow a b = Some x -> x = a * b.
Proof. unfold size_mul_overflow. destruct (_ && _); congruence. Qed.
Lemma size_add_overflow_Some a b x : size_add_overflow a b = Some x -> x = a + b.
Proof. unfold size_add_overflow. destruct (_ <? _); congruence. Qed.

(** The size is that of the index, the rows and the pool. *)
Lemma calc_memory_size_eq b : 0 <= b_item_size b < 2 ^ 63 -> calc_memory_size b <> 0 ->
  calc_memory_size b = b_size b * 8 + row_memory_size b * b_size b +
    (conflict_row_num b * (row_memory_size b + sizeof_slice) + sizeof_impl).
Proof.
  intros Hi. unfold calc_memory_size. intros Hne.
  match type of Hne with default 0 ?o <> 0 => destruct o as [x|] eqn:E; [|done] end. simpl. clear Hne.
  inv_bind. repeat match goal with H : size_mul_overflow _ _ = Some _ |- _ => apply size_mul_overflow_Some in H
    | H : size_add_overflow _ _ = Some _ |- _ => apply size_add_overflow_Some in H end. subst.
  unfold row_memory_size in *. pose proof (aligned8_spec (sizeof_TableRow + b_item_size b)) as [Ha _].
  unfold sizeof_TableRow in *. rewrite uN_small by (unfold fits; lia). lia.
Qed.

(** A table of free rows is an empty table, whatever its pool. *)
Lemma empty_repr {P : Type} `{SlicePool P} hash_func cols n item rows (pool : P) stats it :
  0 <= n < 32 -> zlen rows = 2 ^ n -> NoDup rows -> 0 ∉ rows -> (forall a, a ∈ rows -> a ∉ sp_all pool) ->
  sp_live pool = ∅ -> sp_inv pool -> row_num stats = 0 -> 2 ^ n + Z.of_nat (base.size (sp_all pool)) < 2 ^ 32 - 1 ->
  0 <= item -> columns_ok cols item ->
  repr hash_func (mkTable cols (2 ^ n) (2 ^ n - 1) item rows
    (gset_to_gmap (zero_row item) (list_to_set rows ∪ sp_all pool)) pool stats it) ∅.
Proof.
  intros Hn Hlen Hnd H0 Hdisj Hlive Hinv Hst Hcap Hitem Hcols.
  set (B := replicate (length rows) ([] : list entry)).
  assert (forall i l, B !! i = Some l -> l = []) as HB by by intros i l [-> _]%lookup_replicate.
  assert (concat B = []) as Hconc by (unfold B; clear; induction (length rows); done).
  assert (forall a, a ∈ rows \/ a ∈ sp_all pool -> (gset_to_gmap (zero_row item) (list_to_set rows ∪ sp_all pool)) !! a = Some (zero_row item)) as Hm.
  { intros a Ha. apply lookup_gset_to_gmap_Some. rewrite elem_of_union, elem_of_list_to_set. done. }
  exists B. split_and!.
  - split; cbn [size mask Table.rows column_list item_size mem Table.pool Table.stats].
    + exists n. done.
    + apply length_replicate.
    + intros i root l Hr ->%HB. split; [intros ->; apply H0; by eapply list_elem_of_lookup_2|].
      exists (zero_row item). split; [apply Hm; left; by eapply list_elem_of_lookup_2|]. done.
    + intros i j ri rj li lj a Hi Hj ->%HB ->%HB ->%list_elem_of_singleton ->%list_elem_of_singleton.
      by eapply NoDup_lookup.
    + intros i l ->%HB. split_and!; [constructor|constructor|]. by intros ? ? ? ?%elem_of_nil.
    + intros a Ha. exists (zero_row item). split; [by apply Hm|]. simpl. rewrite length_replicate. split; [lia|done].
    + intros a r [_ <-]%lookup_gset_to_gmap_Some. rewrite decide_False by set_solver. done.
    + done.
    + intros a. rewrite Hlive. split; [set_solver|]. intros (i & l & ->%HB & []%elem_of_nil).
    + rewrite Hlive. set_solver.
    + done.
    + by rewrite Hst, Hconc.
    + done.
    + done.
  - intros k d (i & l & a & ->%HB & []%elem_of_nil).
  - intros k vals. rewrite lookup_empty. split; [done|]. intros (d & (i & l & a & ->%HB & []%elem_of_nil) & _).
Qed.

Lemma pool_all_range p a : geometry p -> a ∈ sp_all p ->
  memory p + sizeof_slice <= a /\ a + slice_size p <= memory p + slice_num p * stride p.
Proof.
  intros Hg (i & Ea & Hi)%elem_of_data_set%elem_of_list_to_set%elem_of_addrs. pose proof (stride_pos p Hg).
  unfold addr in Ea. assert (Z.of_nat i * stride p + stride p <= slice_num p * stride p) by nia.
  unfold stride in *. nia.
Qed.

Lemma pool_all_size p : geometry p -> base.size (sp_all p) = Z.to_nat (slice_num p).
Proof.
  intros Hg. assert (sp_all p = list_to_set ((fun a => a + sizeof_slice) <$> addrs p)) as ->.
  { apply set_eq. intros a. cbn [sp_all fixed_slice_pool].
    rewrite elem_of_data_set, !elem_of_list_to_set, list_elem_of_fmap. split.
    - intros Ha. exists (a - sizeof_slice). split; [lia|done].
    - intros (b & -> & Hb). by replace (b + sizeof_slice - sizeof_slice) with b by lia. }
  rewrite size_list_to_set; [|apply NoDup_fmap_2; [intros ? ? ?; lia|by apply addrs_NoDup]].
  unfold addrs. by rewrite !length_fmap, length_seq.
Qed.

(** What [create] answers.  The block of memory is large enough for the rows and
    the pool, which do not overlap. *)
Lemma create_spec b memory :
  builder_wf b -> created b = false -> b_item_size b < 2 ^ 63 -> 0 < memory -> (8 | memory) ->
  b_size b + conflict_row_num b < 2 ^ 32 - 1 ->
  if (calc_memory_size b =? 0) || (2 ^ 32 - 1 <? row_memory_size b) then create b memory = Some (b, None)
  else exists b' t, create b memory = Some (b', Some t) /\ created b' = true /\ column_list t = b_columns b /\
    repr hash_php t ∅ /\ Z.of_nat (base.size (sp_all (pool t))) = conflict_row_num b /\
    forall a, a ∈ rows t \/ a ∈ sp_all (pool t) -> memory + 8 * b_size b <= a /\
      a + sizeof_TableRow + b_item_size b <= memory + calc_memory_size b.
Proof.
  intros Hb Hcr Hitem Hmem Hal Hcap. unfold create. rewrite Hcr. destruct (Z.eqb_spec (calc_memory_size b) 0) as [|Hcalc]; [done|].
  destruct (bw_size b Hb) as (n & Hn & Hs & Hmask). pose proof (bw_rows b Hb) as Hc. pose proof (bw_item b Hb) as Hi.
  pose proof (aligned8_spec (sizeof_TableRow + b_item_size b)) as [Ha Hdiv].
  rewrite uN_small by (unfold fits, sizeof_TableRow in *; lia). fold (row_memory_size b) in *. cbn [orb].
  destruct (Z.ltb_spec (2 ^ 32 - 1) (row_memory_size b)) as [|Hrow]; [done|]. destruct (Z.eqb_spec memory 0); [lia|].
  pose proof (calc_memory_size_eq b ltac:(lia) Hcalc) as Ecalc.
  rewrite (uN_small 32) by (unfold fits, sizeof_TableRow in *; lia).
  set (rm := row_memory_size b) in *. set (rows := _ <$> seq _ _).
  replace (calc_memory_size b - b_size b * 8 - rm * b_size b)
    with (conflict_row_num b * (rm + sizeof_slice) + sizeof_impl) by lia.
  assert (0 < rm) by (unfold sizeof_TableRow in *; lia). assert (1 <= b_size b) by lia.
  destruct (make_in_good (conflict_row_num b) rm (memory + b_size b * 8 + rm * b_size b)) as (p & idle & -> & Hwf & Hpn & Hps & Hpm);
    [lia|lia|done|nia| |].
  { apply Z.divide_add_r; [apply Z.divide_add_r; [done|by apply Z.divide_factor_r]|by apply Z.divide_mul_l]. }
  eexists _, _. split; [done|]. split; [done|]. split; [done|]. cbn [pool Table.rows b_size b_mask b_item_size b_columns].
  pose proof (fw_geo _ _ _ Hwf) as Hg. rewrite (pool_all_size p Hg), Hpn.
  assert (Hrows : forall a, a ∈ rows -> memory + 8 * b_size b <= a /\ a + rm <= memory + b_size b * 8 + rm * b_size b).
  { intros a (j & -> & Hj%elem_of_seq)%list_elem_of_fmap.
    assert (rm * Z.of_nat j + rm <= rm * b_size b) by nia. nia. }
  assert (Hpool : forall a, a ∈ sp_all p -> memory + b_size b * 8 + rm * b_size b < a /\ a + rm <= memory + calc_memory_size b).
  { intros a Ha'. pose proof (pool_all_range p a Hg Ha') as Hr. rewrite Hps, Hpn, Hpm in Hr. unfold stride in Hr.
    rewrite Hps in Hr. unfold sizeof_slice, sizeof_impl in *. nia. }
  split_and!.
  - rewrite Hs, Hmask. apply empty_repr; try done; try lia.
    + subst rows. rewrite length_fmap, length_seq. lia.
    + apply NoDup_fmap_2; [intros ? ? ?; nia|apply NoDup_seq].
    + intros Hz%Hrows. lia.
    + intros a Hr%Hrows Hp%Hpool. lia.
    + cbn [sp_live fixed_slice_pool]. rewrite (busy_set_spec _ _ _ Hwf). apply set_eq. intros a.
      rewrite elem_of_data_set. set_solver.
    + by exists idle, [].
    + rewrite (pool_all_size p Hg), Hpn. lia.
    + by apply bw_cols.
  - lia.
  - intros a [Hr%Hrows|Hp%Hpool]; [|lia]. split; [lia|]. unfold sizeof_slice, sizeof_impl in *. nia.
Qed.

(** The columns a caller adds: the name, the type and the size of each. *)
Definition add_columns (b : Builder) (cols : list (string * col_type * Z)) : Builder :=
  foldl (fun b c => (add_column b c.1.1 c.1.2 c.2).1) b cols.

Lemma add_columns_wf b cols : Forall (fun c => 0 <= c.2) cols -> builder_wf b ->
  builder_wf (add_columns b cols) /\ created (add_columns b cols) = created b.
Proof.
  intros Hc. revert b. induction Hc as [|c cols Hc _ IH]; intros b Hb; [done|]. simpl.
  destruct (add_column_wf b c.1.1 c.1.2 c.2 Hc Hb) as [Hb1 E1]. destruct (IH _ Hb1) as [Hb2 E2].
  split; [done|]. congruence.
Qed.

(** C21: a table of any size and any columns is made with distinct columns that do not
    overlap; [create] then either refuses, because a size overflows, or gives an empty
    table with the promised number of rows for collisions, all of whose rows lie inside
    of the block of shared memory.  Conditions: the sizes of the rows and of the columns
    are not negative, and the memory that create gets is aligned. *)
Theorem table_create_ok rows_size p table cols memory :
  0 <= rows_size < 2 ^ 32 -> 0 <= mantissa p -> 0 <= scale p -> table <> 0 -> Forall (fun c => 0 <= c.2) cols ->
  0 < memory -> (8 | memory) ->
  exists b0, table_make rows_size p table = Some (Some b0) /\
    let b := add_columns b0 cols in
    NoDup (name <$> b_columns b) /\ columns_ok (b_columns b) (b_item_size b) /\
    (b_item_size b < 2 ^ 63 -> b_size b + conflict_row_num b < 2 ^ 32 - 1 ->
     if (calc_memory_size b =? 0) || (2 ^ 32 - 1 <? row_memory_size b) then create b memory = Some (b, None)
     else exists b' t, create b memory = Some (b', Some t) /\ created b' = true /\ column_list t = b_columns b /\
       repr hash_php t ∅ /\ Z.of_nat (base.size (sp_all (pool t))) = conflict_row_num b /\
       forall a, a ∈ rows t \/ a ∈ sp_all (pool t) -> memory + 8 * b_size b <= a /\
         a + sizeof_TableRow + b_item_size b <= memory + calc_memory_size b).
Proof.
  intros Hr Hm Hs Ht Hc Hmem Hal. destruct (table_make_wf rows_size p table Hr Hm Hs Ht) as (b0 & E & Hb0 & Hcr & _).
  exists b0. split; [done|]. destruct (add_columns_wf b0 cols Hc Hb0) as [Hb Hcr'].
  split; [apply Hb|]. split; [apply Hb|]. intros Hi Hcap. apply create_spec; try done. congruence.
Qed.

Definition demo_columns : list (string * col_type * Z) := [("id", TYPE_INT, 0); ("name", TYPE_STRING, 12)]%string.

Lemma table_create_ok_witness : exists b0, table_make 100 (mkFloat 1 1) 8 = Some (Some b0) /\
  let b := add_columns b0 demo_columns in
  exists b' t, create b 4096 = Some (b', Some t) /\ repr hash_php t ∅ /\
    Z.of_nat (base.size (sp_all (pool t))) = 64 /\ length (column_list t) = 2%nat.
Proof.
  destruct (table_create_ok 100 (mkFloat 1 1) 8 demo_columns 4096) as (b0 & E & _ & _ & Hok);
    [lia|done|done|done|repeat constructor; done|lia|by exists 512|].
  vm_compute in E. injection E as <-. eexists. split; [vm_compute; reflexivity|]. cbv zeta.
  specialize (Hok ltac:(vm_compute; reflexivity) ltac:(vm_compute; reflexivity)).
  set (b := add_columns _ _) in *.
  assert ((calc_memory_size b =? 0) || (2 ^ 32 - 1 <? row_memory_size b) = false) as Hc by (vm_compute; reflexivity).
  rewrite Hc in Hok. destruct Hok as (b' & t & Hcreate & _ & Hcols & Hrep & Hsz & _).
  exists b', t. split; [exact Hcreate|]. split; [exact Hrep|]. split.
  - rewrite Hsz. vm_compute. reflexivity.
  - rewrite Hcols. vm_compute. reflexivity.
Defined.

(** A table for the examples: 64 rows, 16 more for collisions. *)
Definition demo_table : option (Table (P := Pool)) :=
  match table_make 64 (mkFloat 1 2) 8 with
  | Some (Some b0) =>
      match create (add_columns b0 demo_columns) 4096 with Some (_, Some t) => Some t | _ => None end
  | _ => None
  end.

Lemma demo_table_repr : exists t, demo_table = Some t /\ repr hash_php t ∅ /\ length (column_list t) = 2%nat /\
  type <$> column_list t = [TYPE_INT; TYPE_STRING].
Proof.
  destruct (table_make_wf 64 (mkFloat 1 2) 8) as (b0 & E & Hb0 & Hcr & _); [lia|done|done|done|].
  unfold demo_table. rewrite E. destruct (add_columns_wf b0 demo_columns) as [Hb Hcr']; [repeat constructor; done|done|].
  vm_compute in E. injection E as <-. set (b := add_columns _ _) in *.
  pose proof (create_spec b 4096 Hb ltac:(congruence) ltac:(vm_compute; reflexivity) ltac:(lia) ltac:(by exists 512)
    ltac:(vm_compute; reflexivity)) as Hok.
  assert ((calc_memory_size b =? 0) || (2 ^ 32 - 1 <? row_memory_size b) = false) as Hc by (vm_compute; reflexivity).
  rewrite Hc in Hok. destruct Hok as (b' & t & -> & _ & Hcols & Hrep & _).
  exists t. rewrite Hcols. split_and!; [done|done|vm_compute; reflexivity..].
Qed.
