(* ===== verification/TableSpec.v ===== *)
(** * The hash table as a map

    The promise of the shared-memory table ([Table.v]): to its user it is a map
    from keys to the values of the columns, with a bounded number of entries.
    [spec_step] says what each operation answers and does to the map;
    [table_refines] that every sequence of operations of the table does so.
    Iteration visits every entry once. *)

From S2P Require Import Prelude MemPool FixedPool Table Hash TableCreate.

(** ** The operations *)

(** Columns are given by their place in the table. *)
Inductive TableOp :=
  | OpExists (k : list Z)
  | OpGet (k : list Z) (field : nat)
  | OpSet (k : list Z) (values : list TableValue)
  | OpAdd (k : list Z) (values : list TableValue)
  | OpUpdate (k : list Z) (values : list TableValue)
  | OpCmpset (k : list Z) (expected values : list TableValue)
  | OpCmpdel (k : list Z) (expected : list TableValue)
  | OpGetdel (k : list Z) (field : option nat)
  | OpDel (k : list Z)
  | OpCount.
Inductive TableAnswer :=
  | Flag (b : bool)
  | Stored (b out_of_space : bool)
  | Found (value : option (list Z))
  | Number (n : Z).

Section ops.
Context {P : Type} `{SlicePool P} (hash_func : list Z -> Z).
Abbreviation Table := (Table (P := P)).

Definition table_step (t : Table) (o : TableOp) : option (Table * TableAnswer) :=
  match o with
  | OpExists k => '(t, b) ← exists_ hash_func t k; Some (t, Flag b)
  | OpGet k field => '(t, v) ← fetch hash_func t k field; Some (t, Found v)
  | OpSet k values => '(t, b, full) ← set hash_func t k values; Some (t, Stored b full)
  | OpAdd k values => '(t, b, full) ← add hash_func t k values; Some (t, Stored b full)
  | OpUpdate k values => '(t, b) ← update hash_func t k values; Some (t, Flag b)
  | OpCmpset k expected values => '(t, b) ← cmpset hash_func t k expected values; Some (t, Flag b)
  | OpCmpdel k expected => '(t, b) ← cmpdel hash_func t k expected; Some (t, Flag b)
  | OpGetdel k field => '(t, v) ← getdel hash_func t k (j ← field; column_list t !! j); Some (t, Found v)
  | OpDel k => '(t, b) ← del hash_func t k; Some (t, Flag b)
  | OpCount => Some (t, Number (count t))
  end.

Fixpoint table_run (t : Table) (ops : list TableOp) : option (Table * list TableAnswer) :=
  match ops with
  | [] => Some (t, [])
  | o :: ops =>
      '(t, a) ← table_step t o;
      '(t, answers) ← table_run t ops;
      Some (t, a :: answers)
  end.

(** A loop over the table, as the iterator of the PHP class runs it: the keys
    and the data of the rows. *)
Fixpoint foreach_loop (fuel : nat) (t : Table) : option (Table * list (list Z * list Z)) :=
  match fuel with
  | O => None
  | S fuel =>
      let row := current_ (iterator t) in
      if key_len row =? 0 then Some (t, []) else
      t ← forward t;
      '(t, out) ← foreach_loop fuel t;
      Some (t, (take (Z.to_nat (key_len row)) (key row), data row) :: out)
  end.
Definition foreach (fuel : nat) (t : Table) : option (Table * list (list Z * list Z)) :=
  t ← forward (rewind t); foreach_loop fuel t.

(** A loop that deletes each entry it comes to. *)
Fixpoint foreach_del_loop (fuel : nat) (t : Table) : option (Table * list (list Z)) :=
  match fuel with
  | O => None
  | S fuel =>
      let row := current_ (iterator t) in
      if key_len row =? 0 then Some (t, []) else
      let k := take (Z.to_nat (key_len row)) (key row) in
      '(t, _) ← del hash_func t k;
      t ← forward t;
      '(t, out) ← foreach_del_loop fuel t;
      Some (t, k :: out)
  end.
Definition foreach_del (fuel : nat) (t : Table) : option (Table * list (list Z)) :=
  t ← forward (rewind t); foreach_del_loop fuel t.
End ops.

(** ** The specification *)

Section spec.
Context (cols : list TableColumn) (capacity : nat).
Implicit Types (M : gmap (list Z) (list (list Z))) (k : list Z).

Definition key_ok k : bool := is_valid_key_length (zlen k).
Definition fresh : list (list Z) := blank <$> cols.
Abbreviation assigned := (assign_all cols).
Abbreviation matches vals expected := (Forall (expects cols vals) expected).

(** Every operation, its answer and the map after it.  Storing a new key can
    fail for lack of space, but not while there are fewer entries than rows for
    collisions. *)
Inductive spec_step : gmap (list Z) (list (list Z)) -> TableOp -> TableAnswer -> gmap (list Z) (list (list Z)) -> Prop :=
  | spec_exists M k : spec_step M (OpExists k) (Flag (bool_decide (is_Some (M !! k)))) M
  | spec_get M k j : spec_step M (OpGet k j) (Found (vals ← M !! k; vals !! j)) M
  | spec_set M k values : key_ok k = true ->
      spec_step M (OpSet k values) (Stored true false) (<[k := assigned values (default fresh (M !! k))]> M)
  | spec_set_bad M k values : key_ok k = false -> spec_step M (OpSet k values) (Stored false false) M
  | spec_set_full M k values : M !! k = None -> (capacity <= base.size M)%nat ->
      spec_step M (OpSet k values) (Stored false true) M
  | spec_add M k values : key_ok k = true -> M !! k = None ->
      spec_step M (OpAdd k values) (Stored true false) (<[k := assigned values fresh]> M)
  | spec_add_bad M k values : key_ok k = false \/ is_Some (M !! k) ->
      spec_step M (OpAdd k values) (Stored false false) M
  | spec_add_full M k values : M !! k = None -> (capacity <= base.size M)%nat ->
      spec_step M (OpAdd k values) (Stored false true) M
  | spec_update M k values vals : M !! k = Some vals ->
      spec_step M (OpUpdate k values) (Flag true) (<[k := assigned values vals]> M)
  | spec_update_none M k values : M !! k = None -> spec_step M (OpUpdate k values) (Flag false) M
  | spec_cmpset M k expected values vals : M !! k = Some vals -> matches vals expected ->
      spec_step M (OpCmpset k expected values) (Flag true) (<[k := assigned values vals]> M)
  | spec_cmpset_no M k expected values : (forall vals, M !! k = Some vals -> ~ matches vals expected) ->
      spec_step M (OpCmpset k expected values) (Flag false) M
  | spec_cmpdel M k expected vals : M !! k = Some vals -> matches vals expected ->
      spec_step M (OpCmpdel k expected) (Flag true) (delete k M)
  | spec_cmpdel_no M k expected : (forall vals, M !! k = Some vals -> ~ matches vals expected) ->
      spec_step M (OpCmpdel k expected) (Flag false) M
  | spec_getdel M k field vals snapshot : M !! k = Some vals -> snapshot_of cols vals field snapshot ->
      spec_step M (OpGetdel k field) (Found (Some snapshot)) (delete k M)
  | spec_getdel_none M k field : M !! k = None -> spec_step M (OpGetdel k field) (Found None) M
  | spec_del M k : spec_step M (OpDel k) (Flag (bool_decide (is_Some (M !! k)))) (delete k M)
  | spec_count M : spec_step M OpCount (Number (Z.of_nat (base.size M))) M.

Inductive spec_run : gmap (list Z) (list (list Z)) -> list TableOp -> list TableAnswer -> gmap (list Z) (list (list Z)) -> Prop :=
  | spec_nil M : spec_run M [] [] M
  | spec_cons M M1 M2 o a ops answers : spec_step M o a M1 -> spec_run M1 ops answers M2 ->
      spec_run M (o :: ops) (a :: answers) M2.

(** What the caller has to respect: columns of the table, whole numbers. *)
Definition op_ok (o : TableOp) : Prop :=
  match o with
  | OpSet _ values | OpAdd _ values | OpUpdate _ values => Forall (value_ok cols) values
  | OpCmpset _ expected values => Forall (value_ok cols) expected /\ Forall (value_ok cols) values
  | OpCmpdel _ expected => Forall (value_ok cols) expected
  | OpGetdel _ (Some j) => (j < length cols)%nat
  | _ => True
  end.
End spec.

(** ** Refinement *)

Section refinement.
Context {P : Type} `{SlicePool P} (hash_func : list Z -> Z).
Context (Hhash : forall k, 0 <= hash_func k).
Abbreviation Table := (Table (P := P)).
Implicit Types (t : Table) (k : list Z).

Lemma repr_fields t M k vals : repr hash_func t M -> M !! k = Some vals -> length vals = length (column_list t).
Proof. intros (B & _ & _ & HM) (d & _ & Hd)%HM. symmetry. by eapply Forall2_length. Qed.

Lemma fetch_ok t M k j : repr hash_func t M ->
  exists t', fetch hash_func t k j = Some (t', vals ← M !! k; vals !! j) /\ repr hash_func t' M /\ kept t t'.
Proof.
  intros Hrep. unfold fetch, get. destruct (is_valid_key_length (zlen k)) eqn:Ev; cbn [negb]; cycle 1.
  { exists t. by rewrite (invalid_key hash_func t M k Hrep Ev). }
  destruct (open_bucket hash_func Hhash t M k Hrep) as (B & i & root & l & m & Eh & El & Hwf1 & Hroot & Hl & Hi & Hwf & Hf & HM & Hcase).
  assert ((root =? 0) = false) as Hr0.
  { apply Z.eqb_neq. by destruct (tw_bucket _ _ _ _ Hwf _ _ _ Hroot Hl). }
  destruct (close_unchanged hash_func Hhash t B M root i m Hwf1 Hroot Hf HM) as (t' & Eu & Hrep' & Hk).
  rewrite Eh. cbn [mbind option_bind]. rewrite El. cbn [mbind option_bind]. exists t'. split; [|done].
  destruct Hcase as [(l1 & b & d & l2 & vals & -> & Hb0 & HMk & Hfd & Hn1 & Hn2 & Ef)|(Hn & HMk & Ef)];
    rewrite Ef, HMk; cbn [mbind option_bind]; rewrite Hr0; cbn [negb].
  - destruct (Z.eqb_spec b 0); [done|]. cbn [column_list with_mem].
    destruct (column_list t !! j) as [c|] eqn:Ec.
    + destruct (Forall2_lookup_l _ _ _ _ _ Hfd Ec) as (v & -> & Hv).
      destruct (seg_elem m root (l1 ++ (b, (k, d)) :: l2) 0 b k d) as (_ & r & Hr & (_ & _ & _ & _ & Ed)).
      { apply bucket_chain; [|by destruct l1]. exact (tw_bucket _ _ _ _ Hwf1 _ _ _ Hroot Hl). }
      { apply elem_of_app. right. left. }
      cbn [mem with_mem]. rewrite Hr. cbn [mbind option_bind]. rewrite (field_get r c v) by congruence.
      cbn [mbind option_bind]. by rewrite Eu.
    + cbn [mbind option_bind]. rewrite Eu. rewrite lookup_ge_None_2; [done|].
      rewrite <- (Forall2_length _ _ _ Hfd). by apply lookup_ge_None_1.
  - cbn [Z.eqb mbind option_bind]. by rewrite Eu.
Qed.

Lemma flag_decide `{Decision Q} (b : bool) : (b = true <-> Q) -> b = bool_decide Q.
Proof. intros Hb. destruct b; symmetry; [apply bool_decide_eq_true|apply bool_decide_eq_false]; naive_solver. Qed.

(** Every operation of the table returns, answers as the map does, and leaves a
    table that represents the new map. *)
Lemma table_step_ok t M o :
  repr hash_func t M -> op_ok (column_list t) o ->
  exists t' a M', table_step hash_func t o = Some (t', a) /\ kept t t' /\ repr hash_func t' M' /\
    spec_step (column_list t) (base.size (sp_all (pool t))) M o a M'.
Proof.
  intros Hrep Hok. destruct o as [k|k j|k vs|k vs|k vs|k es vs|k es|k j|k|]; cbn [table_step op_ok] in *.
  - destruct (exists_ok hash_func Hhash t M k Hrep) as (t' & b & -> & ? & -> %flag_decide & ?).
    eexists _, _, _. split_and!; [done..|]. constructor.
  - destruct (fetch_ok t M k j Hrep) as (t' & -> & ? & ?). eexists _, _, _. split_and!; [done..|]. constructor.
  - destruct (set_ok hash_func Hhash t M k vs Hrep Hok) as (t' & b & full & -> & ? &
      [(-> & -> & ? & ?)|[(-> & -> & ? & ?)|(-> & -> & ? & Hfull & ?)]]); eexists _, _, _; (split_and!; [done..|]).
    + by constructor.
    + by constructor.
    + constructor; [done|]. by eapply full_size.
  - destruct (add_ok hash_func Hhash t M k vs Hrep Hok) as (t' & b & full & -> & ? &
      [(-> & -> & ? & ? & ?)|[(-> & -> & ? & ?)|(-> & -> & ? & Hfull & ?)]]); eexists _, _, _; (split_and!; [done..|]).
    + by constructor.
    + by constructor.
    + constructor; [done|]. by eapply full_size.
  - destruct (update_ok hash_func Hhash t M k vs Hrep Hok) as (t' & b & -> & ? & Hc).
    destruct (M !! k) eqn:E; destruct Hc as [-> ?]; eexists _, _, _; (split_and!; [done..|]); by constructor.
  - destruct Hok as [He Hv]. destruct (cmpset_ok hash_func Hhash t M k es vs Hrep He Hv) as (t' & b & -> & ? &
      [(-> & vals & ? & ? & ?)|(-> & ? & ?)]); eexists _, _, _; (split_and!; [done..|]); by econstructor.
  - destruct (cmpdel_ok hash_func Hhash t M k es Hrep Hok) as (t' & b & -> & ? &
      [(-> & ? & vals & ? & ?)|(-> & ? & ?)]); eexists _, _, _; (split_and!; [done..|]); by econstructor.
  - destruct (getdel_ok hash_func Hhash t M k j Hrep) as (t' & o & -> & ? & ? & Hc).
    { by intros j' ->. }
    destruct (M !! k) as [vals|] eqn:E.
    + destruct Hc as (x & -> & Hx). eexists _, _, _. split_and!; [done..|]. by econstructor.
    + subst o. rewrite delete_id in * by done. eexists _, _, _. split_and!; [done..|]. by constructor.
  - destruct (del_ok hash_func Hhash t M k Hrep) as (t' & b & -> & ? & ? & -> %flag_decide).
    eexists _, _, _. split_and!; [done..|]. constructor.
  - eexists _, _, _. split_and!; [done..|]. rewrite (count_ok hash_func t M Hrep). constructor.
Qed.
End refinement.

(** C2: any sequence of operations on a well-formed table, whatever its pool and its
    hash function, runs to its end and answers as a map from keys to values does, and
    the table it leaves represents that map.  Conditions: the hash function is not
    negative, and the values fit the columns they are given for. *)
Theorem table_refines {P : Type} `{SlicePool P} (hash_func : list Z -> Z) (t : Table (P := P)) M ops :
  (forall k, 0 <= hash_func k) ->
  repr hash_func t M -> Forall (op_ok (column_list t)) ops ->
  exists t' answers M', table_run hash_func t ops = Some (t', answers) /\ repr hash_func t' M' /\
    spec_run (column_list t) (base.size (sp_all (pool t))) M ops answers M'.
Proof.
  intros Hhash Hrep Hops. revert t M Hrep Hops. induction ops as [|o ops IH]; intros t M Hrep Hops.
  { exists t, [], M. split_and!; [done|done|constructor]. }
  apply Forall_cons in Hops as [Ho Hops].
  destruct (table_step_ok hash_func Hhash t M o Hrep Ho) as (t1 & a & M1 & E & [Ec Ep] & Hrep1 & Hs).
  destruct (IH t1 M1 Hrep1) as (t' & answers & M' & E' & Hrep' & Hs'); [by rewrite Ec|].
  rewrite Ec, Ep in Hs'. exists t', (a :: answers), M'. cbn [table_run]. rewrite E. cbn [mbind option_bind].
  rewrite E'. split_and!; [done|done|]. by econstructor.
Qed.

(** ** Iteration *)

Section iteration.
Context {P : Type} `{SlicePool P} (hash_func : list Z -> Z).
Context (Hhash : forall k, 0 <= hash_func k).
Abbreviation Table := (Table (P := P)).
Abbreviation wf := (table_wf hash_func).
Implicit Types (t : Table) (B : list (list entry)) (it : TableIterator) (rest : list entry).

(** [rest] are the rows the iterator still has to visit. *)
Definition at_pos B it rest : Prop :=
  exists i c, absolute_index it = Z.of_nat i /\ collision_index it = Z.of_nat c /\ (i <= length B)%nat /\
    (c = 0 \/ exists l, B !! i = Some l /\ (2 <= length l)%nat /\ c <= length l)%nat /\
    rest = drop c (default [] (B !! i)) ++ concat (drop (S i) B).

Lemma at_pos_intro B it i : absolute_index it = Z.of_nat i -> collision_index it = 0 -> (i <= length B)%nat ->
  at_pos B it (concat (drop i B)).
Proof.
  intros Hi Hc Hle. exists i, 0%nat. split_and!; [done|done|done|by left|]. rewrite drop_0.
  destruct (B !! i) as [l|] eqn:E; simpl.
  - by rewrite (drop_S _ _ _ E).
  - apply lookup_ge_None_1 in E. rewrite !drop_ge by lia. done.
Qed.

Lemma with_iterator_wf lk t B it : wf lk t B -> wf lk (with_iterator t it) B.
Proof. intros []. by split. Qed.

Lemma nth_row_spec fuel t a l i c :
  seg (mem t) a l 0 -> collision_index (iterator t) = Z.of_nat (i + c) -> (length l < fuel)%nat ->
  nth_row fuel t a (Z.of_nat i) = Some (match l !! c with Some e => e.1 | None => 0 end).
Proof.
  revert fuel a i c. induction l as [|[b [k d]] l IH]; intros fuel a i c Hs Hc Hf; simpl in Hf;
    (destruct fuel as [|fuel]; [lia|]); cbn [nth_row].
  { simpl in Hs. by subst a. }
  destruct Hs as (<- & Hne & r & Hr & _ & Hs). destruct (Z.eqb_spec a 0); [done|].
  destruct c as [|c]; destruct (Z.eqb_spec (Z.of_nat i) (collision_index (iterator t))); try lia; [done|].
  rewrite Hr. cbn [mbind option_bind]. replace (Z.of_nat i + 1) with (Z.of_nat (S i)) by lia.
  apply IH; [done|lia|lia].
Qed.

(** One call of [forward]: the current row is the next one, or is cleared at
    the end. *)
Definition forwarded t B rest t' : Prop :=
  wf ∅ t' B /\ kept t t' /\ size t' = size t /\
  match rest with
  | [] => key_len (current_ (iterator t')) = 0
  | (a, (k, d)) :: rest => row_holds (current_ (iterator t')) k d /\ at_pos B (iterator t') rest
  end.

Lemma forwarded_trans t t1 t' B rest : kept t t1 -> size t1 = size t -> forwarded t1 B rest t' -> forwarded t B rest t'.
Proof. intros [E1 E2] Es (Hwf & [E3 E4] & Es' & Hm). split_and!; [done|split; congruence|congruence|done]. Qed.

(** The bucket the iterator stands at is locked, and its row read. *)
Lemma forward_bucket t B i root l :
  wf ∅ t B -> rows t !! i = Some root -> B !! i = Some l ->
  get_by_index t (Z.of_nat i) = Some (if decide (l = []) then 0 else root) /\
  (l <> [] -> exists m r k d l', l = (root, (k, d)) :: l' /\ root <> 0 /\ lock t root = Some (with_mem t m) /\
    wf {[root]} (with_mem t m) B /\ m !! root = Some r /\ row_holds r k d /\
    seg m root l 0 /\ (next r = 0 <-> l' = [])).
Proof.
  intros Hwf Hroot Hl. pose proof (tw_bucket _ _ _ _ Hwf _ _ _ Hroot Hl) as (Hr0 & r & Hr & Hb). split.
  - unfold get_by_index, zget. destruct (Z.leb_spec 0 (Z.of_nat i)); [|lia]. rewrite Nat2Z.id, Hroot.
    cbn [mbind option_bind]. rewrite Hr. cbn [mbind option_bind]. destruct (active r).
    + rewrite decide_False; [done|]. by intros ->.
    + destruct Hb as [-> _]. done.
  - intros Hne. destruct (lock_spec hash_func Hhash t B root Hwf) as (m & E & Hwf1); [by eapply list_elem_of_lookup_2|].
    pose proof (tw_bucket _ _ _ _ Hwf1 _ _ _ Hroot Hl) as Hb1. apply bucket_chain in Hb1; [|done].
    destruct l as [|[b [k d]] l']; [done|]. pose proof Hb1 as (<- & _ & r1 & Hr1 & Hh & Hs).
    exists m, r1, k, d, l'. split_and!; try done. split; [intros Hn|intros ->; done].
    destruct l' as [|[b' [k' d']] l']; [done|]. destruct Hs as (_ & ? & _). done.
Qed.

Lemma unlock_iterator t m B root it :
  wf {[root]} (with_mem t m) B -> root ∈ rows t ->
  exists m', unlock (with_iterator (with_mem t m) it) root = Some (with_iterator (with_mem t m') it) /\
    wf ∅ (with_iterator (with_mem t m') it) B.
Proof.
  intros Hwf Hin. destruct (unlock_spec hash_func Hhash (with_iterator (with_mem t m) it) B root) as (m' & E & Hw);
    [by apply with_iterator_wf|done|]. exists m'. split; [exact E|exact Hw].
Qed.

(** The iterator stands inside of a chain. *)
Lemma forward_collision t m B i c root l b k d :
  wf {[root]} (with_mem t m) B -> rows t !! i = Some root -> B !! i = Some l -> seg m root l 0 ->
  (2 <= length l)%nat -> absolute_index (iterator t) = Z.of_nat i -> collision_index (iterator t) = Z.of_nat c ->
  l !! c = Some (b, (k, d)) ->
  b <> 0 /\ exists rb t', m !! b = Some rb /\
    unlock (with_iterator (with_mem t m)
      (with_current (with_collision (iterator t) (collision_index (iterator t) + 1)) rb)) root = Some t' /\
    forwarded t B (drop c l ++ concat (drop (S i) B)) t'.
Proof.
  intros Hwf Hroot Hl Hs Hl2 Hi Hc Ec.
  destruct (seg_elem _ _ _ _ b k d Hs) as (Hb0 & rb & Hrb & Hhb); [by eapply list_elem_of_lookup_2|].
  split; [done|]. pose proof (lookup_lt_Some _ _ _ Ec). pose proof (count_bound _ Hhash _ _ _ Hwf) as Hcb.
  assert (collision_index (with_collision (iterator t) (collision_index (iterator t) + 1)) = Z.of_nat (S c)) as Hcol.
  { simpl. rewrite Hc. rewrite uN_small; [lia|]. pose proof (tw_capacity _ _ _ _ Hwf).
    assert (length l <= length (concat B))%nat; [|unfold fits; lia].
    rewrite <- (take_drop_middle _ _ _ Hl), concat_app, length_app. simpl. rewrite length_app. lia. }
  destruct (unlock_iterator t m B root (with_current (with_collision (iterator t) (collision_index (iterator t) + 1)) rb))
    as (m' & E & Hw); [done|by eapply list_elem_of_lookup_2|].
  exists rb. eexists. split; [done|]. split; [exact E|]. split; [done|]. split; [done|]. split; [done|].
  rewrite (drop_S _ _ _ Ec). simpl. split; [done|]. exists i, (S c).
  split_and!; [done|exact Hcol| | |by rewrite Hl]; [pose proof (lookup_lt_Some _ _ _ Hl); lia|].
  right. exists l. split_and!; [done|done|lia].
Qed.

Lemma forward_loop_spec fuel t B rest i :
  wf ∅ t B -> at_pos B (iterator t) rest -> absolute_index (iterator t) = Z.of_nat i ->
  (length B < fuel + i)%nat -> exists t', forward_loop fuel t = Some t' /\ forwarded t B rest t'.
Proof.
  revert t rest i. induction fuel as [|fuel IH]; intros t rest i Hwf Hpos Hi Hf.
  { destruct Hpos as (i' & c & ? & _ & ? & _). lia. }
  pose proof (tw_size _ _ _ _ Hwf) as (n & Hn & Hsz & _ & Hlr). pose proof (tw_len _ _ _ _ Hwf) as HlB.
  assert (2 ^ n < 2 ^ 32) as Hpow by (apply Z.pow_lt_mono_r; lia).
  destruct Hpos as (i' & c & Hi' & Hc & Hle & Hcl & ->). assert (i' = i) as -> by lia.
  cbn [forward_loop]. destruct (Z.ltb_spec (absolute_index (iterator t)) (size t)) as [Hlt|Hge]; cycle 1.
  { eexists. split; [done|]. split; [by apply with_iterator_wf|]. split; [done|]. split; [done|].
    rewrite lookup_ge_None_2, (drop_ge B) by lia. simpl. rewrite drop_nil. done. }
  destruct (lookup_lt_is_Some_2 (rows t) i) as [root Hroot]; [lia|].
  destruct (lookup_lt_is_Some_2 B i) as [l Hl]; [lia|]. rewrite Hl. cbn [from_option id].
  assert (Habs : forall it, absolute_index (with_absolute it (absolute_index (iterator t) + 1)) = Z.of_nat (S i)).
  { intros it. cbn [with_absolute absolute_index]. rewrite Hi, uN_small by (unfold fits; lia). lia. }
  destruct (forward_bucket t B i root l Hwf Hroot Hl) as [Eg Hb]. rewrite Hi, Eg. rewrite <- Hi. cbn [mbind option_bind].
  destruct (decide (l = [])) as [->|Hne].
  { cbn [Z.eqb]. destruct (IH (with_iterator t (with_absolute (iterator t) (absolute_index (iterator t) + 1)))
      (concat (drop (S i) B)) (S i)) as (t' & E & Hfw).
    - by apply with_iterator_wf.
    - apply at_pos_intro; [apply Habs| |lia]. simpl. destruct Hcl as [->|(l & Hl' & ? & _)]; [done|rewrite Hl in Hl'; simplify_eq; simpl in *; lia].
    - apply Habs.
    - lia.
    - exists t'. split; [done|]. rewrite drop_nil. eapply forwarded_trans; [done|done|exact Hfw]. }
  destruct (Hb Hne) as (m & r & k & d & l' & El & Hr0 & Elk & Hwf1 & Hr & Hh & Hs & Hnext).
  destruct (Z.eqb_spec root 0); [done|]. rewrite Elk. cbn [mbind option_bind mem with_mem]. rewrite Hr. cbn [mbind option_bind].
  assert (root ∈ rows t) as Hin by by eapply list_elem_of_lookup_2.
  destruct (Z.eqb_spec (next r) 0) as [Hz|Hz].
  - apply Hnext in Hz as ->. subst l. destruct Hcl as [->|(l & Hl' & ? & _)]; [|rewrite Hl in Hl'; simplify_eq; simpl in *; lia].
    destruct (unlock_iterator t m B root (with_current (with_absolute (iterator t) (absolute_index (iterator t) + 1)) r))
      as (m' & E & Hw); [done..|].
    eexists. split; [exact E|]. split; [done|]. split; [done|]. split; [done|]. rewrite drop_0. simpl. split; [done|].
    apply at_pos_intro; [apply Habs|done|lia].
  - assert (nth_row (S (base.size m)) (with_mem t m) root (Z.of_nat 0) =
      Some (match l !! c with Some e => e.1 | None => 0 end)) as En.
    { apply nth_row_spec; [done|simpl; lia|]. pose proof (bucket_length _ _ _ _ _ _ _ Hwf1 Hroot Hl). simpl in *. lia. }
    change (Z.of_nat 0) with 0 in En. rewrite En. cbn [mbind option_bind].
    assert (2 <= length l)%nat as Hl2.
    { rewrite El. destruct l'; [by destruct Hz; apply Hnext|simpl; lia]. }
    destruct (l !! c) as [[b [k' d']]|] eqn:Ec; cbn [fst].
    + destruct (forward_collision t m B i c root l b k' d') as (Hb0 & rb & t' & Hrb & E & Hfw); [done..|].
      destruct (Z.eqb_spec b 0); [done|]. rewrite Hrb. cbn [mbind option_bind]. exists t'. done.
    + cbn [Z.eqb]. apply lookup_ge_None_1 in Ec.
      destruct (unlock_iterator t m B root (with_collision (iterator t) 0)) as (m' & -> & Hw); [done..|]. cbn [mbind option_bind].
      match goal with |- context [forward_loop fuel ?x] => set (t1 := x) end.
      destruct (IH t1 (concat (drop (S i) B)) (S i)) as (t' & E & Hfw).
      * by apply with_iterator_wf.
      * apply at_pos_intro; [apply Habs|done|lia].
      * apply Habs.
      * lia.
      * exists t'. split; [done|]. rewrite drop_ge by done. eapply forwarded_trans; [done|done|exact Hfw].
Qed.

Lemma forward_spec t B rest : wf ∅ t B -> at_pos B (iterator t) rest ->
  exists t', forward t = Some t' /\ forwarded t B rest t'.
Proof.
  intros Hwf Hpos. pose proof Hpos as (i & c & Hi & _ & Hle & _). eapply forward_loop_spec; [done..|].
  destruct (tw_size _ _ _ _ Hwf) as (n & _ & _ & _ & Hs). rewrite (tw_len _ _ _ _ Hwf) in *. lia.
Qed.

Lemma foreach_loop_spec t B rest t0 fuel : wf ∅ t B -> forwarded t0 B rest t -> (length rest < fuel)%nat ->
  exists t', foreach_loop fuel t = Some (t', rest.*2) /\ wf ∅ t' B /\ kept t0 t'.
Proof.
  revert t rest t0. induction fuel as [|fuel IH]; intros t rest t0 Hwf Hfw Hf; [lia|]. cbn [foreach_loop].
  destruct Hfw as (_ & Hk & Hsz & Hm). destruct rest as [|[a [k d]] rest].
  { rewrite Hm. exists t. done. }
  destruct Hm as ((_ & Hkey & Hlen & _ & Hd) & Hpos). destruct (Z.eqb_spec (key_len (current_ (iterator t))) 0); [lia|].
  destruct (forward_spec t B rest Hwf Hpos) as (t1 & -> & Hfw). cbn [mbind option_bind].
  destruct (IH t1 rest t) as (t' & -> & Hwf' & Hk'); [apply Hfw|done|simpl in Hf; lia|]. cbn [mbind option_bind].
  exists t'. split_and!; [|done|]; [|destruct Hk, Hk'; split; congruence].
  simpl. by rewrite <- Hkey, <- Hd.
Qed.

Lemma foreach_spec t B fuel : wf ∅ t B -> (length (concat B) < fuel)%nat ->
  exists t', foreach fuel t = Some (t', (concat B).*2) /\ wf ∅ t' B /\ kept t t'.
Proof.
  intros Hwf Hf. unfold foreach. destruct (forward_spec (rewind t) B (concat B)) as (t1 & -> & Hfw).
  - by apply with_iterator_wf.
  - apply (at_pos_intro B _ 0); [done|done|lia].
  - cbn [mbind option_bind]. destruct (foreach_loop_spec t1 B (concat B) (rewind t) fuel) as (t' & -> & Hwf' & Hk);
      [apply Hfw|done|done|]. exists t'. done.
Qed.
End iteration.

(** C13: a loop over a table that is not changed meanwhile comes to its end, visits
    every key of the map exactly once, and shows it with its values; the table
    still represents the same map. *)
Theorem foreach_visits_all {P : Type} `{SlicePool P} (hash_func : list Z -> Z) (t : Table (P := P)) M :
  (forall k, 0 <= hash_func k) -> repr hash_func t M ->
  exists t' out, foreach (S (Z.to_nat (count t))) t = Some (t', out) /\ repr hash_func t' M /\
    NoDup out.*1 /\ forall k vals, M !! k = Some vals <-> exists d, (k, d) ∈ out /\ fields (column_list t) d vals.
Proof.
  intros Hhash (B & Hwf & Hf & HM). destruct (foreach_spec hash_func Hhash t B (S (Z.to_nat (count t))) Hwf) as (t' & E & Hwf' & [Ec Ep]).
  { unfold count. rewrite (tw_count _ _ _ _ Hwf). lia. }
  exists t', (concat B).*2. split_and!; [done| |by eapply keys_NoDup|].
  - exists B. rewrite Ec. done.
  - intros k vals. rewrite HM. f_equiv. intros d. f_equiv. rewrite list_elem_of_fmap. split.
    + intros (i & l & a & Hl & Ha). exists (a, (k, d)). split; [done|]. apply concat_lookup. eauto.
    + intros ([a ?] & [= <-] & (i & l & Hl & Ha)%concat_lookup). exists i, l, a. done.
Qed.

(** ** Examples *)

Definition demo_ops : list TableOp :=
  [OpSet [97] [mkValue 0 (le_bytes 8 7); mkValue 1 [115; 119]]; OpSet [33] []; OpGet [97] 1; OpAdd [97] [];
   OpCmpset [33] [mkValue 0 (le_bytes 8 0)] [mkValue 0 (le_bytes 8 5)]; OpDel [97]; OpExists [97]; OpCount].

Lemma demo_ops_ok cols : length cols = 2%nat -> type <$> cols = [TYPE_INT; TYPE_STRING] -> Forall (op_ok cols) demo_ops.
Proof.
  destruct cols as [|c0 [|c1 [|]]]; try done. intros _ [= H0 H1].
  repeat constructor; simpl; eexists; (split; [reflexivity|]); try done; by rewrite H1.
Qed.

Lemma table_refines_witness : exists t t' answers M', demo_table = Some t /\
  table_run hash_php t demo_ops = Some (t', answers) /\ repr hash_php t' M' /\
  spec_run (column_list t) (base.size (sp_all (pool t))) ∅ demo_ops answers M'.
Proof.
  destruct demo_table_repr as (t & E & Hrep & Hlen & Hty).
  destruct (table_refines hash_php t ∅ demo_ops) as (t' & answers & M' & Hrun & Hrep' & Hspec).
  - intros k. apply (hash_php_range k).
  - exact Hrep.
  - apply demo_ops_ok; assumption.
  - exists t, t', answers, M'. split; [exact E|]. split; [exact Hrun|]. split; [exact Hrep'|exact Hspec].
Defined.

Lemma foreach_visits_all_witness : exists t t' out, demo_table = Some t /\
  foreach (S (Z.to_nat (count t))) t = Some (t', out) /\ repr hash_php t' ∅ /\ NoDup out.*1.
Proof.
  destruct demo_table_repr as (t & E & Hrep & _).
  destruct (foreach_visits_all hash_php t ∅) as (t' & out & Hrun & Hrep' & Hnd & _).
  - intros k. apply (hash_php_range k).
  - exact Hrep.
  - exists t, t', out. split; [exact E|]. split; [exact Hrun|]. split; [exact Hrep'|exact Hnd].
Defined.

(** The answers to the example. *)
Lemma demo_answers :
  (t ← demo_table; '(t, answers) ← table_run hash_php t demo_ops; Some answers) =
  Some [Stored true false; Stored true false; Found (Some [115; 119]); Stored false false; Flag true; Flag true;
        Flag false; Number 1].
Proof. vm_compute. reflexivity. Qed.

(** A loop that deletes the entries it visits can pass over entries: the
    first deletion shortens the chain the iterator stands in to one row, [forward]
    then keeps its old place in the chain, and in the next chain, of three rows,
    the first and the last are skipped and stay in the table. *)
Theorem foreach_del_skips :
  (t ← demo_table;
   '(t, _) ← table_run hash_php t [OpSet [33] []; OpSet [97] []; OpSet [34] []; OpSet [98] []; OpSet [162] []];
   '(t, visited) ← foreach_del hash_php 6 t;
   Some (visited, count t)) = Some ([[33]; [97]; [98]], 2).
Proof. vm_compute. reflexivity. Qed.
