(* ===== verification/CoChannel.v ===== *)
(** * The channel between coroutines

    [ChannelBase] and [ChannelImpl] of [src/coroutine/channel.cc] and
    [include/swoole_coroutine_channel.h]: a ring of values with queues of waiting
    producers and consumers.  A waiting coroutine is resumed in the middle of the
    operation of another one: it goes on at once, and may resume a third one,
    before the first operation returns.  [run_task] is this chain; between two
    chains any coroutine of the program can run.  The value of a waiting producer,
    which is on its stack, is kept next to it in the queue. *)

From S2P Require Import Prelude.

(** ** Definitions *)

(** [ChannelBase::ErrorCode] *)
Definition ERROR_OK : Z := 0.
Definition ERROR_TIMEOUT : Z := -1.
Definition ERROR_CLOSED : Z := -2.
Definition ERROR_CANCELED : Z := -3.

(** [class ChannelBase] and [class ChannelImpl] *)
Record Chan := mkChan {
  capacity : Z;
  closed : bool;
  error_ : Z;
  producer_queue : list (Z * Z);
  consumer_queue : list Z;
  data_queue : list Z;
  head_ : Z;
  tail_ : Z;
  count_ : Z;
  mask_ : Z;
}.

(** The constructors; [new T[capacity]] has the values [init] *)
Definition make (_capacity : Z) (init : Z -> list Z) : Chan :=
  let capacity := if _capacity =? 0 then 1 else _capacity in
  let mask := if Z.land capacity (capacity - 1) =? 0 then capacity - 1 else 0 in
  mkChan capacity false 0 [] [] (init capacity) 0 0 0 mask.

Definition with_error c e := mkChan (capacity c) (closed c) e (producer_queue c) (consumer_queue c) (data_queue c) (head_ c) (tail_ c) (count_ c) (mask_ c).
Definition with_closed c := mkChan (capacity c) true (error_ c) (producer_queue c) (consumer_queue c) (data_queue c) (head_ c) (tail_ c) (count_ c) (mask_ c).
Definition with_producers c q := mkChan (capacity c) (closed c) (error_ c) q (consumer_queue c) (data_queue c) (head_ c) (tail_ c) (count_ c) (mask_ c).
Definition with_consumers c q := mkChan (capacity c) (closed c) (error_ c) (producer_queue c) q (data_queue c) (head_ c) (tail_ c) (count_ c) (mask_ c).
Definition with_data c d h t n := mkChan (capacity c) (closed c) (error_ c) (producer_queue c) (consumer_queue c) d h t n (mask_ c).

(** [is_empty], [is_full] and [next] *)
Definition is_empty (c : Chan) : bool := count_ c =? 0.
Definition is_full (c : Chan) : bool := count_ c =? capacity c.
Definition next (c : Chan) (offset : Z) : Z :=
  if negb (mask_ c =? 0) then Z.land (offset + 1) (mask_ c)
  else if offset + 1 =? capacity c then 0 else offset + 1.

(** [pop_data] *)
Definition pop_data (c : Chan) : option (option Z * Chan) :=
  if count_ c =? 0 then Some (None, c) else
  v ← zget (data_queue c) (head_ c);
  Some (Some v, with_data c (data_queue c) (next c (head_ c)) (tail_ c) (count_ c - 1)).

(** What a coroutine gets from its call. *)
Inductive answer := Pushed (co v : Z) | Popped (co v : Z) | Failed (co code : Z).

(** A coroutine that goes on behind [wait_push] or [wait_pop]. *)
Inductive task := TPush (co v : Z) | TPop (co : Z).

(** [push_data] with [notify_consumer]; [pop] behind [wait_pop] with
    [notify_producer], whose coroutine checks [closed] once more *)
Fixpoint run_task (fuel : nat) (c : Chan) (t : task) : option (Chan * list answer) :=
  match fuel with
  | O => None
  | S fuel =>
      match t with
      | TPush co v =>
          if is_full c then Some (with_error c ERROR_TIMEOUT, [Failed co ERROR_TIMEOUT]) else
          d ← zset (data_queue c) (tail_ c) v;
          let c := with_data c d (head_ c) (next c (tail_ c)) (count_ c + 1) in
          match consumer_queue c with
          | [] => Some (c, [Pushed co v])
          | k :: ks =>
              '(c, out) ← run_task fuel (with_consumers c ks) (TPop k);
              Some (c, Pushed co v :: out)
          end
      | TPop co =>
          if closed c && is_empty c then Some (with_error c ERROR_CLOSED, [Failed co ERROR_CLOSED]) else
          '(r, c) ← pop_data c;
          match r with
          | None => Some (c, [Failed co (error_ c)])
          | Some v =>
              match producer_queue c with
              | [] => Some (c, [Popped co v])
              | (p, w) :: ps =>
                  let c := with_producers c ps in
                  if closed c then Some (with_error c ERROR_CLOSED, [Popped co v; Failed p ERROR_CLOSED]) else
                  '(c, out) ← run_task fuel c (TPush p w);
                  Some (c, Popped co v :: out)
              end
          end
      end
  end.

(** A chain resumes every waiting coroutine at most once. *)
Definition fuel (c : Chan) : nat := S (length (producer_queue c) + length (consumer_queue c)).

(** [wait_pop] and [wait_push] up to [yield], which appends the coroutine to its
    queue *)
Inductive wait := Refused (c : Chan) | Waiting (c : Chan) | Ready.
Definition wait_pop (c : Chan) (co : Z) : wait :=
  if closed c && is_empty c then Refused (with_error c ERROR_CLOSED) else
  if is_empty c || negb (length (consumer_queue c) =? 0)%nat then Waiting (with_consumers c (consumer_queue c ++ [co])) else Ready.
Definition wait_push (c : Chan) (co v : Z) : wait :=
  if closed c then Refused (with_error c ERROR_CLOSED) else
  if is_full c || negb (length (producer_queue c) =? 0)%nat then Waiting (with_producers c (producer_queue c ++ [(co, v)])) else Ready.

(** [ChannelImpl::pop] and [ChannelImpl::push] up to the point where the coroutine
    waits, or to the end *)
Definition after_wait (c : Chan) (co : Z) (w : wait) (t : task) : option (Chan * list answer) :=
  match w with
  | Refused c => Some (c, [Failed co ERROR_CLOSED])
  | Waiting c => Some (c, [])
  | Ready => run_task (fuel c) c t
  end.
Definition pop (c : Chan) (co : Z) : option (Chan * list answer) := after_wait c co (wait_pop c co) (TPop co).
Definition push (c : Chan) (co v : Z) : option (Chan * list answer) := after_wait c co (wait_push c co v) (TPush co v).

(** [timer_callback] and the cancel function of [yield]: the coroutine leaves its
    queue, and goes on in [wait_pop] or [wait_push] with an error *)
Definition consumer_remove (c : Chan) (co : Z) : Chan := with_consumers c (filter (fun k => k <> co) (consumer_queue c)).
Definition producer_remove (c : Chan) (co : Z) : Chan := with_producers c (filter (fun p => p.1 <> co) (producer_queue c)).
Definition timer_callback (c : Chan) (consumer : bool) (co : Z) : Chan :=
  if consumer then consumer_remove c co else producer_remove c co.
Definition wake (c : Chan) (consumer : bool) (co code : Z) : Chan * list answer :=
  (with_error (timer_callback c consumer co) code, [Failed co code]).

(** [ChannelBase::close]: the flag is set, then the waiting coroutines are resumed
    one by one; each of them can run the program before the next one *)
Definition close (c : Chan) : Chan * bool := if closed c then (c, false) else (with_closed c, true).
Definition close_next (c : Chan) : option (Chan * list answer) :=
  match producer_queue c with
  | (p, _) :: ps => Some (with_error (with_producers c ps) ERROR_CLOSED, [Failed p ERROR_CLOSED])
  | [] =>
      match consumer_queue c with
      | k :: ks => run_task (fuel c) (with_consumers c ks) (TPop k)
      | [] => Some (c, [])
      end
  end.

(** The loops of [close], when no coroutine that they resume uses the channel *)
Fixpoint close_loop (n : nat) (c : Chan) : option (Chan * list answer) :=
  match producer_queue c, consumer_queue c with
  | [], [] => Some (c, [])
  | _, _ =>
      match n with
      | O => None
      | S n => '(c, o) ← close_next c; '(c, out) ← close_loop n c; Some (c, o ++ out)
      end
  end.

(** [length], [consumer_num] and [producer_num] *)
Definition length_ (c : Chan) : Z := count_ c.
Definition consumer_num (c : Chan) : nat := length (consumer_queue c).
Definition producer_num (c : Chan) : nat := length (producer_queue c).

(** What the program can do to a channel: calls of coroutines that run, a timer or
    a cancellation of one that waits, [close] and each turn of its loops. *)
Inductive event :=
  | EPush (co v : Z) | EPop (co : Z) | EWake (consumer : bool) (co code : Z) | EClose | ECloseNext.

Definition waiting (c : Chan) : list Z := (producer_queue c).*1 ++ consumer_queue c.

Definition enabled (c : Chan) (e : event) : bool :=
  match e with
  | EPush co _ | EPop co => bool_decide (co ∉ waiting c)
  | EWake true co code => bool_decide (co ∈ consumer_queue c) && ((code =? ERROR_TIMEOUT) || (code =? ERROR_CANCELED))
  | EWake false co code => bool_decide (co ∈ (producer_queue c).*1) && ((code =? ERROR_TIMEOUT) || (code =? ERROR_CANCELED))
  | EClose => true
  | ECloseNext => closed c
  end.

Definition step (c : Chan) (e : event) : option (Chan * list answer) :=
  match e with
  | EPush co v => push c co v
  | EPop co => pop c co
  | EWake consumer co code => Some (wake c consumer co code)
  | EClose => Some ((close c).1, [])
  | ECloseNext => close_next c
  end.

Definition caller (e : event) : list Z := match e with EPush co _ | EPop co => [co] | _ => [] end.

(** The channels that a program can reach, with the calls it made and the answers
    they got. *)
Inductive reach (k : Z) (init : Z -> list Z) : Chan -> list Z -> list answer -> Prop :=
  | reach_make : reach k init (make k init) [] []
  | reach_step c calls out e c' o :
      reach k init c calls out -> enabled c e = true -> step c e = Some (c', o) ->
      reach k init c' (calls ++ caller e) (out ++ o).

Definition pushed (out : list answer) : list Z := omap (fun a => match a with Pushed _ v => Some v | _ => None end) out.
Definition popped (out : list answer) : list Z := omap (fun a => match a with Popped _ v => Some v | _ => None end) out.
Definition answered (a : answer) : Z := match a with Pushed co _ | Popped co _ | Failed co _ => co end.

(** ** The ring *)

Record ring_wf (c : Chan) (vs : list Z) : Prop := {
  rw_cap : 1 <= capacity c;
  rw_mask : mask_ c = 0 \/ exists n, 1 <= n /\ capacity c = 2 ^ n /\ mask_ c = 2 ^ n - 1;
  rw_data : zlen (data_queue c) = capacity c;
  rw_head : 0 <= head_ c < capacity c;
  rw_tail : tail_ c = (head_ c + zlen vs) mod capacity c;
  rw_count : count_ c = zlen vs;
  rw_full : zlen vs <= capacity c;
  rw_ring i v : vs !! i = Some v -> zget (data_queue c) ((head_ c + Z.of_nat i) mod capacity c) = Some v;
}.

(** Both forms of [next] are the successor modulo the capacity. *)
Lemma next_mod c h : 1 <= capacity c ->
  (mask_ c = 0 \/ exists n, 1 <= n /\ capacity c = 2 ^ n /\ mask_ c = 2 ^ n - 1) ->
  0 <= h < capacity c -> next c h = (h + 1) mod capacity c.
Proof.
  intros Hc Hm Hh. unfold next. destruct Hm as [->|(n & Hn & Ec & ->)]; cbn [Z.eqb negb].
  - destruct (Z.eqb_spec (h + 1) (capacity c)) as [->|].
    + by rewrite Z.mod_same by lia.
    + rewrite Z.mod_small by lia. done.
  - assert (2 <= 2 ^ n) by (apply (Z.pow_le_mono_r 2 1); lia). destruct (Z.eqb_spec (2 ^ n - 1) 0); [lia|]. cbn [negb].
    replace (2 ^ n - 1) with (Z.ones n) by (rewrite Z.ones_equiv; lia). rewrite Z.land_ones by lia. by rewrite Ec.
Qed.

(** Slots at different distances below the capacity are different. *)
Lemma slot_ne k h i j : 1 <= k -> 0 <= i < j -> j < k -> (h + i) mod k <> (h + j) mod k.
Proof.
  intros Hk Hi Hj E. assert ((j - i) mod k = 0) as H0.
  { replace (j - i) with ((h + j) - (h + i)) by lia. rewrite Zminus_mod, E, Z.sub_diag. apply Z.mod_0_l. lia. }
  rewrite Z.mod_small in H0 by lia. lia.
Qed.

Lemma mod_succ k x : 1 <= k -> (x mod k + 1) mod k = (x + 1) mod k.
Proof. intros Hk. rewrite <- (Z.add_mod_idemp_l x 1) by lia. done. Qed.

Lemma ring_push c vs v : ring_wf c vs -> is_full c = false ->
  exists d, zset (data_queue c) (tail_ c) v = Some d /\
    ring_wf (with_data c d (head_ c) (next c (tail_ c)) (count_ c + 1)) (vs ++ [v]).
Proof.
  intros [] Hf. unfold is_full in Hf. apply Z.eqb_neq in Hf. assert (0 <= tail_ c < capacity c) as Ht by (rewrite rw_tail0; apply Z.mod_pos_bound; lia).
  destruct (zset_in (data_queue c) (tail_ c) v) as (d & Hd & Hl); [lia|]. exists d. split; [done|].
  constructor; cbn; try done; try lia.
  - rewrite next_mod, rw_tail0, mod_succ, length_app by (done || lia). f_equal. cbn [length]. lia.
  - rewrite length_app. cbn [length]. lia.
  - rewrite length_app. cbn [length]. lia.
  - intros i w [Hi|[Hi Hw]]%lookup_app_Some.
    + pose proof (lookup_lt_Some _ _ _ Hi). rewrite (zget_zset_ne _ _ _ _ _ Hd); [by apply rw_ring0|].
      rewrite rw_tail0. intros E. symmetry in E. revert E. apply slot_ne; lia.
    + apply list_lookup_singleton_Some in Hw as [Ei ->]. replace (head_ c + Z.of_nat i) with (head_ c + zlen vs) by lia.
      rewrite <- rw_tail0. eauto using zget_zset_eq.
Qed.

Lemma ring_pop c v vs : ring_wf c (v :: vs) ->
  pop_data c = Some (Some v, with_data c (data_queue c) (next c (head_ c)) (tail_ c) (count_ c - 1)) /\
  ring_wf (with_data c (data_queue c) (next c (head_ c)) (tail_ c) (count_ c - 1)) vs.
Proof.
  intros []. cbn [length] in *. pose proof (rw_ring0 0%nat v eq_refl) as H0. rewrite Z.add_0_r, Z.mod_small in H0 by lia. split.
  - unfold pop_data. destruct (Z.eqb_spec (count_ c) 0); [lia|]. by rewrite H0.
  - constructor; cbn; try done; try lia.
    + rewrite next_mod by done. apply Z.mod_pos_bound. lia.
    + rewrite next_mod, Z.add_mod_idemp_l, rw_tail0 by (done || lia). f_equal. lia.
    + intros i w Hi. rewrite next_mod, Z.add_mod_idemp_l by (done || lia).
      rewrite <- (rw_ring0 (S i) w Hi). do 2 f_equal. lia.
Qed.

(** The ring does not see the other fields. *)
Lemma ring_same c c' vs : ring_wf c vs -> capacity c' = capacity c -> data_queue c' = data_queue c -> head_ c' = head_ c ->
  tail_ c' = tail_ c -> count_ c' = count_ c -> mask_ c' = mask_ c -> ring_wf c' vs.
Proof. intros [] E1 E2 E3 E4 E5 E6. constructor; rewrite ?E1, ?E2, ?E3, ?E4, ?E5, ?E6; done. Qed.

(** ** Chains of resumed coroutines *)

(** Nobody waits for what is there. *)
Definition wakes (c : Chan) : Prop :=
  (consumer_queue c = [] \/ count_ c = 0 \/ closed c = true) /\ (producer_queue c = [] \/ count_ c = capacity c \/ closed c = true).

(** What an operation with callers [cos] does: the values stay in order, and every
    caller has its answer or waits. *)
Record outcome (c : Chan) (vs : list Z) (cos : list Z) (c' : Chan) (out : list answer) (vs' : list Z) : Prop := {
  oc_ring : ring_wf c' vs';
  oc_wakes : wakes c';
  oc_order : vs ++ pushed out = popped out ++ vs';
  oc_calls : cos ++ waiting c ≡ₚ (answered <$> out) ++ waiting c';
  oc_closed : closed c = true -> closed c' = true;
  oc_cap : capacity c' = capacity c;
}.

Ltac ring_of H := eapply ring_same; [exact H|reflexivity..].

Lemma push_task n c vs co v : ring_wf c vs -> wakes c -> closed c = false -> is_full c = false -> (fuel c <= n)%nat ->
  producer_queue c = [] ->
  exists c' out vs', run_task n c (TPush co v) = Some (c', out) /\ outcome c vs [co] c' out vs'.
Proof.
  intros Hr [Hc Hp] Hcl Hf Hn Hq. destruct n as [|n]; [unfold fuel in Hn; lia|]. cbn [run_task]. rewrite Hf.
  destruct (ring_push _ _ v Hr Hf) as (d & -> & Hr'). cbn [mbind option_bind]. cbv zeta.
  destruct (consumer_queue c) as [|k ks] eqn:Ek; cbn [consumer_queue with_data]; rewrite Ek.
  - eexists _, _, _. split; [done|]. constructor; [exact Hr'| |done| |done|done].
    + split; cbn; [by left|]. by left.
    + by unfold waiting; cbn; rewrite Ek.
  - destruct Hc as [?|[Hc|?]]; [done| |congruence]. assert (vs = []) as -> by (apply length_zero_iff_nil; pose proof (rw_count _ _ Hr); lia).
    destruct n as [|n]; [unfold fuel in Hn; rewrite Ek in Hn; cbn in Hn; lia|]. cbn [run_task closed with_consumers with_data]. rewrite Hcl. cbn [andb].
    edestruct (ring_pop (with_consumers (with_data c d (head_ c) (next c (tail_ c)) (count_ c + 1)) ks) v []) as [-> Hr2]; [ring_of Hr'|].
    cbn [mbind option_bind producer_queue with_data with_consumers]. rewrite Hq. cbn [mbind option_bind].
    eexists _, _, _. split; [done|]. constructor; [exact Hr2| |done| |done|done].
    + split; cbn; [right; left; lia|]. by left.
    + unfold waiting. cbn. rewrite Ek, Hq. cbn. done.
Qed.

Lemma pop_task n c v vs co : ring_wf c (v :: vs) -> wakes c -> consumer_queue c = [] \/ closed c = true -> (fuel c <= n)%nat ->
  exists c' out vs', run_task n c (TPop co) = Some (c', out) /\ outcome c (v :: vs) [co] c' out vs'.
Proof.
  intros Hr [Hc Hp] Hq Hn. destruct n as [|n]; [unfold fuel in Hn; lia|]. cbn [run_task].
  pose proof (rw_count _ _ Hr) as Hcnt. cbn [length] in Hcnt.
  unfold is_empty. destruct (Z.eqb_spec (count_ c) 0); [lia|]. rewrite andb_false_r.
  destruct (ring_pop _ _ _ Hr) as [-> Hr']. cbn [mbind option_bind producer_queue with_data].
  destruct (producer_queue c) as [|[p w] ps] eqn:Ep.
  - eexists _, _, _. split; [done|]. constructor; [exact Hr'| |by rewrite app_nil_r| |done|done].
    + split; cbn; [naive_solver|]. by left.
    + unfold waiting. cbn. rewrite Ep. done.
  - cbn [with_producers closed with_data]. destruct (closed c) eqn:Hcl.
    + eexists _, _, _. split; [done|]. constructor; [ring_of Hr'| |by rewrite app_nil_r| |done|done].
      * split; cbn; rewrite Hcl; auto.
      * unfold waiting. cbn. rewrite Ep. cbn. done.
    + destruct Hq as [Hq|?]; [|done]. destruct Hp as [?|[Hp|?]]; [done| |congruence].
      set (c1 := with_producers _ _). assert (ring_wf c1 vs) as Hr1 by ring_of Hr'.
      destruct n as [|n]; [unfold fuel in Hn; rewrite Ep in Hn; cbn in Hn; lia|]. cbn [run_task].
      assert (is_full c1 = false) as Hf by (unfold is_full; cbn; apply Z.eqb_neq; lia). rewrite Hf.
      destruct (ring_push _ _ w Hr1 Hf) as (d & -> & Hr2). cbn [mbind option_bind consumer_queue with_data c1 with_producers]. rewrite Hq.
      cbn [mbind option_bind]. eexists _, _, _. split; [done|]. constructor; [exact Hr2| |done| |done|done].
      * split; cbn; [by left|]. right; left. lia.
      * unfold waiting. cbn. rewrite Ep, Hq. cbn. rewrite !app_nil_r. done.
Qed.

(** ** Steps *)

Lemma filter_id {A} (P : A -> Prop) `{forall x, Decision (P x)} (l : list A) : (forall x, x ∈ l -> P x) -> filter P l = l.
Proof.
  induction l as [|a l IH]; intros Hl; [done|]. rewrite filter_cons_True by (apply Hl; left). f_equal. apply IH. intros x Hx. apply Hl. by right.
Qed.

Lemma remove_perm {A} (f : A -> Z) (l : list A) x : NoDup (f <$> l) -> x ∈ f <$> l ->
  f <$> l ≡ₚ x :: (f <$> filter (fun a => f a <> x) l).
Proof.
  induction l as [|a l IH]; intros Hn Hx; [by apply elem_of_nil in Hx|]. rewrite fmap_cons in *. apply NoDup_cons in Hn as [Ha Hn].
  destruct (decide (f a = x)) as [<-|Hne].
  - rewrite filter_cons_False by naive_solver. apply perm_skip. clear Hx IH.
    rewrite filter_id; [done|]. intros y Hy E. apply Ha. rewrite <- E. apply list_elem_of_fmap. eauto.
  - rewrite filter_cons_True by done. rewrite fmap_cons. apply elem_of_cons in Hx as [?|Hx]; [congruence|].
    rewrite (IH Hn Hx) at 1. apply perm_swap.
Qed.

Lemma filter_nil_or {A} (P : A -> Prop) `{forall x, Decision (P x)} (l : list A) (Q : Prop) : l = [] \/ Q -> filter P l = [] \/ Q.
Proof. intros [->|?]; auto. Qed.

Lemma chan_pop_ok c vs co : ring_wf c vs -> wakes c -> exists c' out vs', pop c co = Some (c', out) /\ outcome c vs [co] c' out vs'.
Proof.
  intros Hr Hw. pose proof (rw_count _ _ Hr) as Hcnt. pose proof Hw as [Hc Hp]. unfold pop, wait_pop, is_empty. destruct (Z.eqb_spec (count_ c) 0) as [E|E].
  - assert (vs = []) as -> by (apply length_zero_iff_nil; lia). rewrite andb_true_r. destruct (closed c) eqn:Hcl; cbn [orb after_wait].
    + eexists _, _, _. split; [done|]. constructor; [ring_of Hr|split; cbn; rewrite ?Hcl; auto|done|done|done|done].
    + eexists _, _, _. split; [done|]. constructor; [ring_of Hr|split; cbn; rewrite ?Hcl; auto|done| |done|done].
      unfold waiting. cbn. rewrite (app_assoc _ _ [co]). apply Permutation_cons_append.
  - rewrite andb_false_r. destruct vs as [|v vs]; [cbn in Hcnt; lia|]. cbn [orb]. destruct (consumer_queue c) as [|k ks] eqn:Ek; cbn [length Nat.eqb negb after_wait].
    + apply pop_task; auto.
    + destruct Hc as [?|[?|Hcl]]; [done|lia|].
      eexists _, _, _. split; [done|]. constructor; [ring_of Hr|split; cbn; rewrite ?Hcl; auto| | |done|done].
      * cbn. by rewrite app_nil_r.
      * unfold waiting. cbn. rewrite Ek. change (k :: ks ++ [co]) with ((k :: ks) ++ [co]). rewrite (app_assoc _ _ [co]). apply Permutation_cons_append.
Qed.

Lemma chan_push_ok c vs co v : ring_wf c vs -> wakes c -> exists c' out vs', push c co v = Some (c', out) /\ outcome c vs [co] c' out vs'.
Proof.
  intros Hr Hw. pose proof Hw as [Hc Hp]. unfold push, wait_push. destruct (closed c) eqn:Hcl; cbn [after_wait].
  - eexists _, _, _. split; [done|]. constructor; [ring_of Hr|split; cbn; rewrite ?Hcl; auto|cbn; by rewrite app_nil_r|done|done|done].
  - destruct (is_full c || _) eqn:E; cbn [after_wait].
    + eexists _, _, _. split; [done|]. constructor; [ring_of Hr| |cbn; by rewrite app_nil_r| |done|done].
      * split; cbn; [by rewrite Hcl|]. right; left. apply orb_true_iff in E as [E%Z.eqb_eq|E%negb_true_iff%Nat.eqb_neq]; [done|].
        destruct Hp as [Hp|[?|?]]; [rewrite Hp in E; done|done|congruence].
      * unfold waiting. cbn. rewrite fmap_app. cbn. rewrite <- app_assoc. cbn. apply Permutation_middle.
    + apply orb_false_iff in E as [Ef E%negb_false_iff%Nat.eqb_eq%length_zero_iff_nil]. by apply push_task.
Qed.

Lemma close_next_ok c vs : ring_wf c vs -> wakes c -> closed c = true ->
  exists c' out vs', close_next c = Some (c', out) /\ outcome c vs [] c' out vs'.
Proof.
  intros Hr Hw Hcl. unfold close_next. destruct (producer_queue c) as [|[p w] ps] eqn:Ep.
  - destruct (consumer_queue c) as [|k ks] eqn:Ek.
    + eexists _, _, _. split; [done|]. constructor; [exact Hr|done|cbn; by rewrite app_nil_r|done|done|done].
    + assert (ring_wf (with_consumers c ks) vs) as Hr' by ring_of Hr.
      assert (wakes (with_consumers c ks)) as Hw' by (split; cbn; rewrite ?Hcl; auto). destruct vs as [|v vs].
      * unfold fuel. cbn [run_task closed with_consumers is_empty count_]. rewrite Hcl. unfold is_empty. cbn. rewrite (rw_count _ _ Hr). cbn.
        eexists _, _, _. split; [done|]. constructor; [ring_of Hr|done|done| |done|done].
        unfold waiting. cbn. rewrite Ep, Ek. done.
      * destruct (pop_task (fuel c) _ _ _ k Hr' Hw') as (c' & out & vs' & -> & []).
        { by right. } { unfold fuel. cbn. rewrite Ep, Ek. cbn. lia. }
        exists c', out, vs'. split; [done|]. constructor; try done. rewrite <- oc_calls0.
        unfold waiting. cbn. rewrite Ep, Ek. done.
  - eexists _, _, _. split; [done|]. constructor; [ring_of Hr|split; cbn; rewrite ?Hcl; auto|cbn; by rewrite app_nil_r| |done|done].
    unfold waiting. cbn. rewrite Ep. done.
Qed.

Lemma wake_ok c vs consumer co code : ring_wf c vs -> wakes c -> NoDup (waiting c) -> enabled c (EWake consumer co code) = true ->
  exists c' out vs', Some (wake c consumer co code) = Some (c', out) /\ outcome c vs [] c' out vs'.
Proof.
  intros Hr [Hc Hp] Hn He. apply NoDup_app in Hn as (Hn1 & _ & Hn2). eexists _, _, vs. split; [done|].
  destruct consumer; cbn in He; apply andb_true_iff in He as [He%bool_decide_eq_true _];
    (constructor; [ring_of Hr|split; cbn; by try apply filter_nil_or|cbn; by rewrite app_nil_r| |done|done]); unfold waiting; cbn.
  - pose proof (remove_perm id (consumer_queue c) co) as H. rewrite !list_fmap_id in H. unfold id in H.
    rewrite (H Hn2 He) at 1. symmetry. apply Permutation_middle.
  - rewrite (remove_perm fst (producer_queue c) co Hn1 He) at 1. done.
Qed.

Lemma step_ok c vs e : ring_wf c vs -> wakes c -> NoDup (waiting c) -> enabled c e = true ->
  exists c' out vs', step c e = Some (c', out) /\ outcome c vs (caller e) c' out vs'.
Proof.
  intros Hr Hw Hn He. destruct e; cbn [step caller].
  - by apply chan_push_ok.
  - by apply chan_pop_ok.
  - by apply wake_ok.
  - unfold close. destruct (closed c) eqn:Hcl; (eexists _, _, _; split; [done|]); (constructor; [ring_of Hr| |cbn; by rewrite app_nil_r|done|done|done]); [done|].
    split; cbn; rewrite ?Hcl; auto.
  - by apply close_next_ok.
Qed.

(** The test of the constructor for a power of two. *)
Lemma land_pred_pow x : 2 <= x -> Z.land x (x - 1) = 0 -> exists n, 1 <= n /\ x = 2 ^ n.
Proof.
  intros Hx E. exists (Z.log2 x). assert (1 <= Z.log2 x) by (apply (Z.log2_le_mono 2); lia). split; [done|].
  pose proof (Z.log2_spec x ltac:(lia)) as [Hl Hu]. destruct (decide (x = 2 ^ Z.log2 x)) as [|Hne]; [done|].
  assert (Z.log2 (x - 1) = Z.log2 x) as Hlog by (apply Z.log2_unique; lia).
  pose proof (f_equal (fun z => Z.testbit z (Z.log2 x)) E) as Hb. cbn in Hb. rewrite Z.land_spec, Z.bits_0, Z.bit_log2 in Hb by lia.
  rewrite <- Hlog, Z.bit_log2 in Hb by lia. done.
Qed.

Lemma make_ok k init : 0 <= k -> (forall n, 0 <= n -> zlen (init n) = n) -> ring_wf (make k init) [] /\ wakes (make k init) /\ waiting (make k init) = [].
Proof.
  intros Hk Hi. split; [|by split; [split; left|]]. assert (1 <= capacity (make k init)) as Hc by (cbn; destruct (Z.eqb_spec k 0); lia).
  constructor; try done; cbn in *; try lia.
  - set (cap := if k =? 0 then 1 else k) in *. destruct (Z.eqb_spec (Z.land cap (cap - 1)) 0) as [E|]; [|by left].
    destruct (Z.eqb_spec cap 1) as [->|]; [by left|]. right. destruct (land_pred_pow cap) as (b & Hb & ->); [lia|done|]. by exists b.
  - rewrite Hi; [done|lia].
Qed.

Definition chan_ok (c : Chan) (calls : list Z) (out : list answer) (vs : list Z) : Prop :=
  ring_wf c vs /\ wakes c /\ NoDup (waiting c) /\ pushed out = popped out ++ vs /\ calls ≡ₚ (answered <$> out) ++ waiting c.

Lemma chan_ok_step c calls out vs e : chan_ok c calls out vs -> enabled c e = true ->
  exists c' o vs', step c e = Some (c', o) /\ chan_ok c' (calls ++ caller e) (out ++ o) vs' /\ capacity c' = capacity c.
Proof.
  intros (Hr & Hw & Hn & Ho & Hp) He. destruct (step_ok _ _ _ Hr Hw Hn He) as (c' & o & vs' & E & []).
  exists c', o, vs'. split; [done|]. split; [|done]. split_and!; try done.
  - assert (NoDup (caller e ++ waiting c)) as Hn'.
    { apply NoDup_app. split_and!; [by destruct e; cbn; repeat constructor; auto using not_elem_of_nil| |done].
      intros x Hx Hx'. destruct e; cbn in Hx, He; try (by apply elem_of_nil in Hx); apply list_elem_of_singleton in Hx as ->;
        by apply bool_decide_eq_true in He. }
    rewrite oc_calls0 in Hn'. by apply NoDup_app in Hn' as (_ & _ & ?).
  - unfold pushed, popped in *. rewrite !omap_app, Ho, <- !app_assoc. by f_equal.
  - rewrite Hp, fmap_app, <- !app_assoc, (Permutation_app_comm (waiting c)), oc_calls0. done.
Qed.

Lemma reach_ok k init c calls out : 0 <= k -> (forall n, 0 <= n -> zlen (init n) = n) -> reach k init c calls out ->
  exists vs, chan_ok c calls out vs /\ capacity c = Z.max 1 k.
Proof.
  intros Hk Hi. induction 1 as [|c calls out e c' o _ (vs & IH & Hc) He Hs].
  - destruct (make_ok k init Hk Hi) as (Hr & Hw & Hq). exists []. split; [split_and!; try done|].
    + rewrite Hq. constructor.
    + cbn. destruct (Z.eqb_spec k 0); lia.
  - destruct (chan_ok_step _ _ _ _ _ IH He) as (c2 & o2 & vs' & E & Hok & Hcap). simplify_eq. exists vs'. split; [done|congruence].
Qed.

(** ** Properties *)

(** C6: the channel between coroutines is a bounded queue, for every program: at
    each point that any sequence of calls, timeouts, cancellations and closings
    reaches, the next step does not fail; the values handed out are the values
    taken in, in the same order, followed by the at most [capacity] ones still
    inside; every call has one answer or its coroutine waits in one queue; and on a
    channel that is open no consumer waits while there is a value, no producer
    while there is room. *)
Theorem co_channel_correct k init c calls out : 0 <= k -> (forall n, 0 <= n -> zlen (init n) = n) -> reach k init c calls out ->
  exists vs,
    pushed out = popped out ++ vs /\ length_ c = zlen vs /\ zlen vs <= Z.max 1 k /\
    calls ≡ₚ (answered <$> out) ++ waiting c /\ NoDup (waiting c) /\
    (closed c = false -> (consumer_queue c <> [] -> vs = []) /\ (producer_queue c <> [] -> zlen vs = Z.max 1 k)) /\
    (forall e, enabled c e = true -> is_Some (step c e)).
Proof.
  intros Hk Hi H. destruct (reach_ok k init c calls out Hk Hi H) as (vs & Hok & Hcap). exists vs.
  pose proof Hok as (Hr & [Hc Hp] & Hn & Ho & Hcalls). pose proof (rw_count _ _ Hr) as Hcnt. pose proof (rw_full _ _ Hr).
  split_and!; try done; try lia.
  - intros Hcl. split; intros Hq.
    + destruct Hc as [?|[?|?]]; [done| |congruence]. apply length_zero_iff_nil. lia.
    + destruct Hp as [?|[?|?]]; [done|lia|congruence].
  - intros e He. destruct (chan_ok_step _ _ _ _ _ Hok He) as (? & ? & ? & -> & _). done.
Qed.

(** A turn of the loops of [close] answers at least one coroutine. *)
Lemma close_next_answers c c' o : close_next c = Some (c', o) -> waiting c <> [] -> o <> [].
Proof.
  unfold close_next, waiting, fuel. intros H Hw ->. destruct (producer_queue c) as [|[p w] ps]; [|done].
  destruct (consumer_queue c) as [|k ks]; [done|]. cbn [run_task] in H. repeat case_match; simplify_eq; inv_bind; repeat case_match; simplify_eq; inv_bind; try done.
  all: repeat case_match; simplify_eq; inv_bind; simplify_eq.
Qed.

Lemma close_loop_ok n c vs : ring_wf c vs -> wakes c -> closed c = true -> (length (waiting c) <= n)%nat ->
  exists c' out vs', close_loop n c = Some (c', out) /\ waiting c' = [] /\ outcome c vs [] c' out vs'.
Proof.
  revert c vs. induction n as [|n IH]; intros c vs Hr Hw Hcl Hn; cbn [close_loop].
  all: destruct (decide (waiting c = [])) as [E|E];
    [unfold waiting in E; apply app_eq_nil in E as [E1%fmap_nil_inv E2]; rewrite E1, E2; eexists _, _, _; split; [done|];
     split; [by unfold waiting; rewrite E1, E2|constructor; try done; cbn; by rewrite app_nil_r]|].
  - destruct (waiting c); [done|cbn in Hn; lia].
  - destruct (close_next_ok c vs Hr Hw Hcl) as (c1 & o & vs1 & Ec & []). pose proof (close_next_answers _ _ _ Ec E) as Ho.
    assert (length (waiting c1) <= n)%nat as Hn1.
    { pose proof (Permutation_length oc_calls0) as Hl. rewrite !length_app, length_fmap in Hl. cbn in Hl. destruct o; [done|cbn in Hl; lia]. }
    destruct (IH c1 vs1 oc_ring0 oc_wakes0 (oc_closed0 Hcl) Hn1) as (c2 & out & vs2 & El & Hq & []). rewrite Ec. cbn [mbind option_bind]. rewrite El. cbn [mbind option_bind].
    exists c2, (o ++ out), vs2. split; [by unfold waiting in E; destruct (producer_queue c), (consumer_queue c)|]. split; [done|]. constructor; try done.
    + unfold pushed, popped in *. rewrite !omap_app, <- app_assoc, <- oc_order1, !app_assoc. by f_equal.
    + rewrite oc_calls0, fmap_app, <- app_assoc. cbn in oc_calls1. by rewrite oc_calls1.
    + auto.
    + congruence.
Qed.

(** C33: [close] ends: its loops resume every coroutine that waits once, and behind
    it nobody waits; the values inside stay in order, for [pop] to hand out.  Here the
    coroutines that it resumes do not use the channel before it has ended; calls between
    the turns of the loops are events of [reach], as in the theorem on the order. *)
Theorem co_channel_close_ends k init c calls out : 0 <= k -> (forall n, 0 <= n -> zlen (init n) = n) ->
  reach k init c calls out -> closed c = false ->
  exists c' o vs, close_loop (producer_num c + consumer_num c) (close c).1 = Some (c', o) /\
    waiting c' = [] /\ waiting c ≡ₚ answered <$> o /\ pushed (out ++ o) = popped (out ++ o) ++ vs /\ length_ c' = zlen vs.
Proof.
  intros Hk Hi H Hcl. destruct (reach_ok k init c calls out Hk Hi H) as (vs & Hok & _). pose proof Hok as (_ & _ & _ & Ho & _).
  destruct (chan_ok_step _ _ _ _ EClose Hok eq_refl) as (c1 & o1 & vs1 & E & (Hr & Hw & _ & Ho1 & _) & _).
  cbn in E. unfold close in *. rewrite Hcl in *. injection E as <- <-. rewrite app_nil_r in Ho1. cbn [fst].
  edestruct (close_loop_ok (producer_num c + consumer_num c)) as (c' & o & vs' & El & Hq & []); [exact Hr|exact Hw|done| |].
  { unfold waiting, producer_num, consumer_num. cbn. by rewrite length_app, length_fmap. }
  exists c', o, vs'. rewrite Hq, app_nil_r in oc_calls0. split_and!; try done.
  - unfold pushed, popped in *. by rewrite !omap_app, Ho1, <- !app_assoc, oc_order0.
  - exact (rw_count _ _ oc_ring0).
Qed.

(** C31: a wait on an open channel ends with the next call of the other side: a
    [push] hands its value to the consumer that waits longest before it returns,
    and a [pop] takes the oldest value and lets the producer that waits longest
    put its value in the place that it made. *)
Theorem co_channel_progress k init c calls out : 0 <= k -> (forall n, 0 <= n -> zlen (init n) = n) ->
  reach k init c calls out -> closed c = false ->
  (forall co v w ws, consumer_queue c = w :: ws -> exists c', push c co v = Some (c', [Pushed co v; Popped w v]) /\ consumer_queue c' = ws) /\
  (forall co p w ps, producer_queue c = (p, w) :: ps -> exists c' v, pop c co = Some (c', [Popped co v; Pushed p w]) /\ producer_queue c' = ps).
Proof.
  intros Hk Hi H Hcl. destruct (reach_ok k init c calls out Hk Hi H) as (vs & (Hr & [Hc Hp] & _) & _).
  pose proof (rw_cap _ _ Hr) as Hcap. pose proof (rw_count _ _ Hr) as Hcnt. split.
  - intros co v w ws Eq. destruct Hc as [?|[Hc|?]]; [congruence| |congruence]. assert (vs = []) as -> by (apply length_zero_iff_nil; lia).
    assert (producer_queue c = []) as Ep by (destruct Hp as [?|[?|?]]; [done|lia|congruence]).
    assert (is_full c = false) as Ef by (unfold is_full; apply Z.eqb_neq; lia).
    unfold push, wait_push. rewrite Hcl, Ef, Ep. cbn [orb length Nat.eqb negb after_wait]. unfold fuel. rewrite Ep, Eq. cbn [length Nat.add run_task].
    rewrite Ef. destruct (ring_push _ _ v Hr Ef) as (d & -> & Hr'). cbn [mbind option_bind]. cbv zeta. cbn [consumer_queue with_data]. rewrite Eq.
    cbn [run_task closed with_consumers with_data]. rewrite Hcl. cbn [andb].
    edestruct (ring_pop (with_consumers (with_data c d (head_ c) (next c (tail_ c)) (count_ c + 1)) ws) v []) as [-> _]; [ring_of Hr'|].
    cbn [mbind option_bind producer_queue with_data with_consumers]. rewrite Ep. cbn [mbind option_bind]. by eexists.
  - intros co p w ps Eq. destruct Hp as [?|[Hp|?]]; [congruence| |congruence]. destruct vs as [|v vs]; [cbn in Hcnt; lia|].
    assert (consumer_queue c = []) as Ek by (destruct Hc as [?|[?|?]]; [done|lia|congruence]).
    assert (is_empty c = false) as Ee by (unfold is_empty; apply Z.eqb_neq; lia).
    unfold pop, wait_pop. rewrite Hcl, Ee, Ek. cbn [andb orb length Nat.eqb negb after_wait]. unfold fuel. rewrite Eq, Ek. cbn [length Nat.add run_task].
    rewrite Hcl. cbn [andb]. destruct (ring_pop _ _ _ Hr) as [-> Hr']. cbn [mbind option_bind producer_queue with_data]. rewrite Eq. cbv zeta.
    set (c1 := with_producers _ _). change (closed c1) with (closed c). rewrite Hcl. assert (ring_wf c1 vs) as Hr1 by ring_of Hr'. cbn [run_task].
    assert (is_full c1 = false) as Ef by (unfold is_full; cbn; apply Z.eqb_neq; lia). rewrite Ef.
    destruct (ring_push _ _ w Hr1 Ef) as (d & -> & _). cbn [mbind option_bind consumer_queue with_data c1 with_producers]. rewrite Ek. by eexists _, _.
Qed.

(** A consumer waits, a producer resumes it; the channel of one value fills, a
    second producer waits and times out, and the channel is closed. *)
Definition demo_events : list event :=
  [EPop 1; EPush 2 10; EPush 2 11; EPush 3 12; EPush 4 13; EWake false 3 ERROR_TIMEOUT; EPop 1; EClose; EPop 1; EPop 1].

Fixpoint replay (c : Chan) (calls : list Z) (out : list answer) (es : list event) : option (Chan * list Z * list answer) :=
  match es with
  | [] => Some (c, calls, out)
  | e :: es => if enabled c e then '(c, o) ← step c e; replay c (calls ++ caller e) (out ++ o) es else None
  end.

Lemma replay_reach k init es c calls out c2 calls2 out2 :
  reach k init c calls out -> replay c calls out es = Some (c2, calls2, out2) -> reach k init c2 calls2 out2.
Proof.
  revert c calls out. induction es as [|e es IH]; cbn; intros c calls out Hr H; [by simplify_eq|].
  destruct (enabled c e) eqn:He; [|done]. destruct (step c e) as [[c' o]|] eqn:Es; [|done]. cbn in H. eapply IH; [|exact H]. by econstructor.
Qed.

Lemma co_channel_correct_witness :
  let init n := repeat 0 (Z.to_nat n) in
  exists c calls out, replay (make 1 init) [] [] demo_events = Some (c, calls, out) /\
    out = [Pushed 2 10; Popped 1 10; Pushed 2 11; Failed 3 ERROR_TIMEOUT; Popped 1 11; Pushed 4 13; Popped 1 13; Failed 1 ERROR_CLOSED] /\
    exists vs, pushed out = popped out ++ vs /\ length_ c = zlen vs.
Proof.
  cbv zeta. eexists _, _, _. split; [vm_compute; reflexivity|]. split; [reflexivity|].
  edestruct (co_channel_correct 1 (fun n => repeat 0 (Z.to_nat n))) as (vs & H1 & H2 & _); [lia| |..|exists vs; split; [exact H1|exact H2]].
  - intros n Hn. rewrite repeat_length. lia.
  - eapply (replay_reach _ _ demo_events _ _ _ _ _ _ (reach_make _ _)). vm_compute. reflexivity.
Defined.

Lemma co_channel_close_ends_witness :
  let init n := repeat 0 (Z.to_nat n) in
  exists c o, (c' ← replay (make 1 init) [] [] [EPush 1 5; EPush 2 6; EPush 3 7]; close_loop 2 (close c'.1.1).1) = Some (c, o) /\
    o = [Failed 2 ERROR_CLOSED; Failed 3 ERROR_CLOSED] /\ waiting c = [].
Proof.
  cbv zeta. eexists _, _. split; [vm_compute; reflexivity|]. split; [reflexivity|].
  edestruct (co_channel_close_ends 1 (fun n => repeat 0 (Z.to_nat n))) as (c' & o & vs & E & Hq & _).
  - lia.
  - intros n Hn. rewrite repeat_length. lia.
  - eapply (replay_reach _ _ [EPush 1 5; EPush 2 6; EPush 3 7] _ _ _ _ _ _ (reach_make _ _)). vm_compute. reflexivity.
  - reflexivity.
  - vm_compute in E. injection E as <- _. exact Hq.
Defined.

Lemma co_channel_progress_witness :
  let init n := repeat 0 (Z.to_nat n) in
  exists c c', replay (make 2 init) [] [] [EPop 1; EPop 2] = Some c /\ push c.1.1 3 7 = Some (c', [Pushed 3 7; Popped 1 7]) /\ consumer_queue c' = [2].
Proof.
  cbv zeta. eexists. edestruct (co_channel_progress 2 (fun n => repeat 0 (Z.to_nat n))) as [Hpush _].
  - lia.
  - intros n Hn. rewrite repeat_length. lia.
  - eapply (replay_reach _ _ [EPop 1; EPop 2] _ _ _ _ _ _ (reach_make _ _)). vm_compute. reflexivity.
  - reflexivity.
  - destruct (Hpush 3 7 1 [2] eq_refl) as (c' & E & Hq). exists c'. split; [vm_compute; reflexivity|]. split; [exact E|exact Hq].
Defined.
