(* ===== verification/Coroutine.v ===== *)
(** * Coroutines

    [class Coroutine] of [src/coroutine/base.cc] and
    [include/swoole_coroutine.h]: creation, [yield], [resume], [cancel] and the end
    of a coroutine, with the tree of origins that is kept in the nodes.

    The coroutines are in a store by address; a read through a pointer that is not
    in the store gives [None].  [stack] is not a variable of the code: it is the
    machine's own stack of contexts, the one that [Context::swap_in] enters on top
    and [Context::swap_out] leaves.  The callbacks of the embedding program
    ([on_yield], [on_resume], [on_close]) do not change this state, and there is no
    bailout. *)

From S2P Require Import Prelude.

(** ** Definitions *)

(** [enum State] and [enum ResumeCode] *)
Inductive State := STATE_INIT | STATE_WAITING | STATE_RUNNING | STATE_END.
Inductive ResumeCode := RC_OK | RC_TIMEDOUT | RC_CANCELED.
#[export] Instance State_eq_dec : EqDecision State.
Proof. solve_decision. Defined.
#[export] Instance ResumeCode_eq_dec : EqDecision ResumeCode.
Proof. solve_decision. Defined.

(** [class Coroutine]; the null pointer is [None], [cancel_fn_] says whether there
    is a function *)
Record Coroutine := mkCo {
  state : State;
  resume_code_ : ResumeCode;
  cid : Z;
  origin : option Z;
  first_child : option Z;
  prev_sibling : option Z;
  next_sibling : option Z;
  cancel_fn_ : bool;
}.

Definition set_state s c := mkCo s (resume_code_ c) (cid c) (origin c) (first_child c) (prev_sibling c) (next_sibling c) (cancel_fn_ c).
Definition set_code r c := mkCo (state c) r (cid c) (origin c) (first_child c) (prev_sibling c) (next_sibling c) (cancel_fn_ c).
Definition set_orig o c := mkCo (state c) (resume_code_ c) (cid c) o (first_child c) (prev_sibling c) (next_sibling c) (cancel_fn_ c).
Definition set_first o c := mkCo (state c) (resume_code_ c) (cid c) (origin c) o (prev_sibling c) (next_sibling c) (cancel_fn_ c).
Definition set_prev o c := mkCo (state c) (resume_code_ c) (cid c) (origin c) (first_child c) o (next_sibling c) (cancel_fn_ c).
Definition set_next o c := mkCo (state c) (resume_code_ c) (cid c) (origin c) (first_child c) (prev_sibling c) o (cancel_fn_ c).
Definition set_cancel_fn b c := mkCo (state c) (resume_code_ c) (cid c) (origin c) (first_child c) (prev_sibling c) (next_sibling c) b.

Abbreviation Store := (gmap Z Coroutine).

(** An assignment to a field through the pointer [a] *)
Definition upd (h : Store) (a : Z) (f : Coroutine -> Coroutine) : option Store := c ← h !! a; Some (<[a := f c]> h).

(** [Coroutine::set_origin] *)
Definition unlink (h : Store) (this p : Z) : option Store :=
  c ← h !! this;
  h ← (match prev_sibling c with
       | Some q => upd h q (set_next (next_sibling c))
       | None => upd h p (set_first (next_sibling c))
       end);
  h ← (match next_sibling c with
       | Some n => upd h n (set_prev (prev_sibling c))
       | None => Some h
       end);
  upd h this (fun c => set_next None (set_prev None c)).

Definition link (h : Store) (this q : Z) : option Store :=
  p ← h !! q;
  h ← upd h this (set_next (first_child p));
  h ← (match first_child p with
       | Some n => upd h n (set_prev (Some this))
       | None => Some h
       end);
  upd h q (set_first (Some this)).

Definition set_origin (h : Store) (this : Z) (co : option Z) : option Store :=
  c ← h !! this;
  if decide (origin c = co) then Some h else
  h ← (match origin c with Some p => unlink h this p | None => Some h end);
  h ← upd h this (set_orig co);
  match co with Some q => link h this q | None => Some h end.

(** The loop of [Coroutine::close] over the children *)
Fixpoint clear_children (n : nat) (h : Store) (this : Z) : option Store :=
  c ← h !! this;
  match first_child c with
  | None => Some h
  | Some child =>
      match n with
      | O => None
      | S n =>
          k ← h !! child;
          h ← upd h this (set_first (next_sibling k));
          h ← upd h child (fun k => set_next None (set_prev None (set_orig None k)));
          clear_children n h this
      end
  end.

(** The static members and the machine's stack of contexts *)
Record Sched := mkSched {
  heap : Store;
  coroutines : gmap Z Z;
  current : option Z;
  last_cid : Z;
  peak_num : Z;
  stack : list Z;
}.

Definition initial : Sched := mkSched ∅ ∅ None 0 0 [].

Definition count (s : Sched) : Z := Z.of_nat (size (coroutines s)).
Definition get_by_cid (s : Sched) (cid : Z) : option Z := coroutines s !! cid.
Definition get_current_cid (s : Sched) : option Z :=
  match current s with Some a => c ← heap s !! a; Some (cid c) | None => Some (-1) end.
Definition get_origin_cid (s : Sched) (a : Z) : option Z :=
  c ← heap s !! a;
  match origin c with Some p => o ← heap s !! p; Some (cid o) | None => Some (-1) end.

(** [set_origin(current); current = this; ctx.swap_in()] *)
Definition enter (s : Sched) (h : Store) (this : Z) : option Sched :=
  h ← set_origin h this (current s);
  Some (mkSched h (coroutines s) (Some this) (last_cid s) (peak_num s) (this :: stack s)).

(** The constructor and [run], up to the body of the coroutine *)
Definition construct (s : Sched) (a : Z) : Sched :=
  let cid := last_cid s + 1 in
  let registry := <[cid := a]> (coroutines s) in
  let n := Z.of_nat (size registry) in
  mkSched (<[a := mkCo STATE_INIT RC_OK cid None None None None false]> (heap s)) registry (current s) cid
    (if peak_num s <? n then n else peak_num s) (stack s).
Definition create (s : Sched) (a : Z) : option Sched :=
  let s := construct s a in
  s ← enter s (heap s) a;
  h ← upd (heap s) a (set_state STATE_RUNNING);
  Some (mkSched h (coroutines s) (current s) (last_cid s) (peak_num s) (stack s)).

(** [yield], without and with a cancel function; the resumer goes on *)
Definition yield (s : Sched) (this : Z) (cancelable : bool) : option Sched :=
  if negb (bool_decide (current s = Some this)) then None else
  h ← upd (heap s) this (fun c => set_code RC_OK (set_state STATE_WAITING (if cancelable then set_cancel_fn true c else c)));
  c ← h !! this;
  Some (mkSched h (coroutines s) (origin c) (last_cid s) (peak_num s) (tail (stack s))).

(** [resume], up to the return of [yield] in the coroutine, which drops its cancel
    function *)
Definition resume (s : Sched) (this : Z) : option Sched :=
  if bool_decide (current s = Some this) then None else
  h ← upd (heap s) this (set_state STATE_RUNNING);
  s ← enter s h this;
  h ← upd (heap s) this (set_cancel_fn false);
  Some (mkSched h (coroutines s) (current s) (last_cid s) (peak_num s) (stack s)).

(** The timer of [yield_ex] *)
Definition timeout (s : Sched) (this : Z) : option Sched :=
  h ← upd (heap s) this (set_code RC_TIMEDOUT);
  resume (mkSched h (coroutines s) (current s) (last_cid s) (peak_num s) (stack s)) this.

(** [cancel], with the cancel function of [yield_ex] *)
Definition cancel (s : Sched) (this : Z) : option (bool * Sched) :=
  c ← heap s !! this;
  if negb (cancel_fn_ c) then Some (false, s) else
  h ← upd (heap s) this (fun c => set_code RC_CANCELED (set_cancel_fn false c));
  s ← resume (mkSched h (coroutines s) (current s) (last_cid s) (peak_num s) (stack s)) this;
  Some (true, s).

(** [yield_ex] after the coroutine was resumed *)
Definition yield_ex_result (c : Coroutine) : bool :=
  negb (bool_decide (resume_code_ c = RC_TIMEDOUT)) && negb (bool_decide (resume_code_ c = RC_CANCELED)).

(** The body of the coroutine on top returned: [swap_out], then [check_end] and
    [close] in its resumer; [delete] takes it out of the store *)
Definition close (s : Sched) (this : Z) : option Sched :=
  if negb (bool_decide (current s = Some this)) then None else
  h ← upd (heap s) this (set_state STATE_END);
  c ← h !! this;
  h ← clear_children (size h) h this;
  h ← set_origin h this None;
  Some (mkSched (delete this h) (delete (cid c) (coroutines s)) (origin c) (last_cid s) (peak_num s) (tail (stack s))).

(** ** Programs *)

(** What the context on top of the stack can do next.  A coroutine is only resumed,
    or timed out, while it waits. *)
Inductive step : Sched -> Sched -> Prop :=
  | step_create s a s' : heap s !! a = None -> create s a = Some s' -> step s s'
  | step_yield s a rest cancelable s' : stack s = a :: rest -> yield s a cancelable = Some s' -> step s s'
  | step_resume s a c s' : heap s !! a = Some c -> state c = STATE_WAITING -> resume s a = Some s' -> step s s'
  | step_timeout s a c s' : heap s !! a = Some c -> state c = STATE_WAITING -> timeout s a = Some s' -> step s s'
  | step_cancel s a c b s' : heap s !! a = Some c -> cancel s a = Some (b, s') -> step s s'
  | step_close s a rest s' : stack s = a :: rest -> close s a = Some s' -> step s s'.

Definition reachable : Sched -> Prop := rtc step initial.

(** The pointers of a coroutine to others. *)
Definition pointers (c : Coroutine) : list Z := omap id [origin c; first_child c; prev_sibling c; next_sibling c].

(** No operation that the program can use next fails. *)
Definition never_stuck (s : Sched) : Prop :=
  (forall a, heap s !! a = None -> is_Some (create s a)) /\
  (forall a rest b, stack s = a :: rest -> is_Some (yield s a b) /\ is_Some (close s a)) /\
  (forall a A, heap s !! a = Some A -> is_Some (cancel s a) /\ (state A = STATE_WAITING -> is_Some (resume s a) /\ is_Some (timeout s a))).

(** ** Lists of siblings *)

Definition hd_or (L : list Z) (nx : option Z) : option Z := match L with [] => nx | c :: _ => Some c end.
Definition last_or (pr : option Z) (L : list Z) : option Z := match last L with Some c => Some c | None => pr end.

(** The children [L] of [p] are linked, between [pr] and [nx]. *)
Fixpoint seg (h : Store) (p : Z) (pr : option Z) (L : list Z) (nx : option Z) : Prop :=
  match L with
  | [] => True
  | c :: L =>
      (exists C, h !! c = Some C /\ origin C = Some p /\ prev_sibling C = pr /\ next_sibling C = hd_or L nx) /\ seg h p (Some c) L nx
  end.

Lemma last_or_cons pr c L : last_or pr (c :: L) = last_or (Some c) L.
Proof. unfold last_or. rewrite last_cons. by destruct (last L). Qed.

Lemma sib_app h p pr L1 L2 nx : seg h p pr (L1 ++ L2) nx <-> seg h p pr L1 (hd_or L2 nx) /\ seg h p (last_or pr L1) L2 nx.
Proof.
  revert pr. induction L1 as [|c L1 IH]; intros pr; [cbn; tauto|]. cbn [app seg]. rewrite IH, last_or_cons.
  assert (hd_or (L1 ++ L2) nx = hd_or L1 (hd_or L2 nx)) as -> by (by destruct L1). tauto.
Qed.

(** The fields that the lists use. *)
Definition same_links (C D : Coroutine) : Prop := origin C = origin D /\ prev_sibling C = prev_sibling D /\ next_sibling C = next_sibling D.

Lemma seg_frame h h' p pr L nx : (forall x C, x ∈ L -> h !! x = Some C -> exists D, h' !! x = Some D /\ same_links C D) ->
  seg h p pr L nx -> seg h' p pr L nx.
Proof.
  revert pr. induction L as [|c L IH]; intros pr Hf; [done|]. cbn. intros [(C & HC & E1 & E2 & E3) Hs]. split.
  - destruct (Hf c C) as (D & HD & F1 & F2 & F3); [left|done|]. exists D. split_and!; [done|congruence..].
  - apply IH; [|done]. intros x X Hx. apply Hf. by right.
Qed.

Lemma sib_insert_ne h p pr L nx x D : x ∉ L -> seg h p pr L nx -> seg (<[x := D]> h) p pr L nx.
Proof.
  intros Hx. apply seg_frame. intros y C Hy HC. exists C. split; [|done]. rewrite lookup_insert_ne; [done|naive_solver].
Qed.

Lemma sib_lookup h p pr L nx x : seg h p pr L nx -> x ∈ L -> exists C, h !! x = Some C /\ origin C = Some p.
Proof.
  revert pr. induction L as [|c L IH]; intros pr Hs Hx; [by apply elem_of_nil in Hx|]. destruct Hs as [(C & ? & ? & _) Hs].
  apply elem_of_cons in Hx as [->|Hx]; eauto.
Qed.

(** A new successor of the last, a new predecessor of the first. *)
Lemma seg_set_next h p pr L z nx nx' C : z ∉ L -> seg h p pr (L ++ [z]) nx -> h !! z = Some C ->
  seg (<[z := set_next nx' C]> h) p pr (L ++ [z]) nx'.
Proof.
  intros Hz. rewrite !sib_app. intros [H1 [(C' & HC & E1 & E2 & E3) _]] Hh. assert (C' = C) as -> by congruence. split.
  - by apply sib_insert_ne.
  - cbn. split; [|done]. exists (set_next nx' C). rewrite lookup_insert_eq. done.
Qed.

Lemma seg_set_prev h p pr pr' z L nx C : z ∉ L -> seg h p pr (z :: L) nx -> h !! z = Some C ->
  seg (<[z := set_prev pr' C]> h) p pr' (z :: L) nx.
Proof.
  intros Hz [(C' & HC & E1 & E2 & E3) Hs] Hh. assert (C' = C) as -> by congruence. split; [|by apply sib_insert_ne].
  exists (set_prev pr' C). rewrite lookup_insert_eq. done.
Qed.

(** ** The tree of origins *)

(** Each coroutine keeps the list of those it is the origin of. *)
Record tree (h : Store) (kids : Z -> list Z) : Prop := {
  tr_first p P : h !! p = Some P -> first_child P = hd_or (kids p) None;
  tr_dead p : h !! p = None -> kids p = [];
  tr_nodup p : NoDup (kids p);
  tr_seg p : seg h p None (kids p) None;
  tr_root c C : h !! c = Some C -> origin C = None -> prev_sibling C = None /\ next_sibling C = None;
  tr_origin c C p : h !! c = Some C -> origin C = Some p -> c ∈ kids p /\ p <> c;
}.

Lemma tree_kid h kids p x : tree h kids -> x ∈ kids p -> exists C, h !! x = Some C /\ origin C = Some p.
Proof. intros Ht. apply sib_lookup with None None, (tr_seg _ _ Ht). Qed.

Lemma tree_alive h kids c C p : tree h kids -> h !! c = Some C -> origin C = Some p -> exists P, h !! p = Some P.
Proof.
  intros Ht Hc Ho. destruct (tr_origin _ _ Ht _ _ _ Hc Ho) as [Hk _]. destruct (h !! p) eqn:E; [eauto|].
  rewrite (tr_dead _ _ Ht p E) in Hk. by apply elem_of_nil in Hk.
Qed.

(** The tree does not see the other fields. *)
Lemma tree_same h h' kids : tree h kids ->
  (forall x, match h !! x, h' !! x with Some C, Some D => same_links C D /\ first_child C = first_child D | None, None => True | _, _ => False end) ->
  tree h' kids.
Proof.
  intros [] Hx. constructor; try done.
  - intros p P HP. specialize (Hx p). rewrite HP in Hx. destruct (h !! p) eqn:E; [|done]. rewrite <- (proj2 Hx). eauto.
  - intros p HP. specialize (Hx p). rewrite HP in Hx. destruct (h !! p) eqn:E; [done|]. eauto.
  - intros p. eapply seg_frame; [|done]. intros x C _ HC. specialize (Hx x). rewrite HC in Hx. destruct (h' !! x); [|done]. naive_solver.
  - intros c C HC Ho. specialize (Hx c). rewrite HC in Hx. destruct (h !! c) eqn:E; [|done]. destruct Hx as [(E1 & E2 & E3) _].
    rewrite <- E2, <- E3. eapply tr_root0; [done|congruence].
  - intros c C p HC Ho. specialize (Hx c). rewrite HC in Hx. destruct (h !! c) eqn:E; [|done]. destruct Hx as [(E1 & _) _].
    eapply tr_origin0; [done|congruence].
Qed.

Lemma tree_upd h kids a C D : tree h kids -> h !! a = Some C -> same_links C D -> first_child C = first_child D -> tree (<[a := D]> h) kids.
Proof.
  intros Ht HC Hl Hf. apply (tree_same h); [done|]. intros x. destruct (decide (x = a)) as [->|].
  - by rewrite HC, lookup_insert_eq.
  - rewrite lookup_insert_ne by done. by destruct (h !! x).
Qed.

(** What a change of links leaves: everything but the siblings of [X] and the first
    child of [F]. *)
Definition data_eq (C D : Coroutine) : Prop :=
  state D = state C /\ resume_code_ D = resume_code_ C /\ cid D = cid C /\ cancel_fn_ D = cancel_fn_ C /\ origin D = origin C.

Definition chg (h h' : Store) (X F : list Z) : Prop :=
  forall x, match h !! x, h' !! x with
  | Some C, Some D => data_eq C D /\ (x ∉ X -> same_links C D) /\ (x ∉ F -> first_child C = first_child D)
  | None, None => True
  | _, _ => False
  end.

Lemma chg_refl h X F : chg h h X F.
Proof. intros x. by destruct (h !! x). Qed.

Lemma chg_insert h a C D X F : h !! a = Some C -> data_eq C D ->
  (a ∉ X -> same_links C D) -> (a ∉ F -> first_child C = first_child D) -> chg h (<[a := D]> h) X F.
Proof.
  intros HC Hd Hl Hf x. destruct (decide (x = a)) as [->|].
  - rewrite HC, lookup_insert_eq. done.
  - rewrite lookup_insert_ne by done. by destruct (h !! x).
Qed.

Lemma chg_trans h1 h2 h3 X F : chg h1 h2 X F -> chg h2 h3 X F -> chg h1 h3 X F.
Proof.
  intros H1 H2 x. specialize (H1 x). specialize (H2 x). destruct (h1 !! x), (h2 !! x), (h3 !! x); try done. destruct H1 as ((?&?&?&?&?) & H1 & H1'), H2 as ((?&?&?&?&?) & H2 & H2').
  split; [|split].
  - split_and!; congruence.
  - intros Hx. destruct (H1 Hx) as (?&?&?), (H2 Hx) as (?&?&?). split_and!; congruence.
  - intros Hx. rewrite H1'; auto.
Qed.

Lemma chg_Some h h' X F x C : chg h h' X F -> h !! x = Some C ->
  exists D, h' !! x = Some D /\ data_eq C D /\ (x ∉ X -> same_links C D) /\ (x ∉ F -> first_child C = first_child D).
Proof. intros H HC. specialize (H x). rewrite HC in H. destruct (h' !! x); [eauto|done]. Qed.

Lemma chg_Some_inv h h' X F x D : chg h h' X F -> h' !! x = Some D ->
  exists C, h !! x = Some C /\ data_eq C D /\ (x ∉ X -> same_links C D) /\ (x ∉ F -> first_child C = first_child D).
Proof. intros H HC. specialize (H x). rewrite HC in H. destruct (h !! x); [eauto|done]. Qed.

Lemma seg_chg h h' X F p pr L nx : chg h h' X F -> (forall x, x ∈ L -> x ∉ X) -> seg h p pr L nx -> seg h' p pr L nx.
Proof. intros Hc Hd. apply seg_frame. intros x C Hx HC. destruct (chg_Some _ _ _ _ _ _ Hc HC) as (D & ? & _ & ? & _). eauto. Qed.

Lemma upd_eq h a C f : h !! a = Some C -> upd h a f = Some (<[a := f C]> h).
Proof. unfold upd. by intros ->. Qed.

(** The predecessor of [c], or the origin, gets the successor of [c]. *)
Lemma unlink_prev h p L1 c L2 P : NoDup (L1 ++ c :: L2) -> h !! p = Some P -> seg h p None (L1 ++ c :: L2) None ->
  exists h', (match last_or None L1 with
              | Some q => upd h q (set_next (hd_or L2 None))
              | None => upd h p (set_first (hd_or L2 None))
              end) = Some h' /\
    chg h h' L1 (if decide (L1 = []) then [p] else []) /\ seg h' p None L1 (hd_or L2 None) /\
    (L1 = [] -> first_child <$> h' !! p = Some (hd_or L2 None)).
Proof.
  intros Hn HP [Hs _]%sib_app. cbn [hd_or] in Hs. destruct L1 as [|z L1 _] using rev_ind.
  - cbn. rewrite (upd_eq _ _ _ _ HP). eexists. split; [done|]. split; [|split; [done|by rewrite lookup_insert_eq]].
    apply (chg_insert _ _ _ _ _ _ HP); [done..|]. intros []. by apply list_elem_of_singleton.
  - unfold last_or. rewrite last_snoc, decide_False by (by destruct L1).
    destruct (sib_lookup _ _ _ _ _ z Hs) as (Z & HZ & _); [apply elem_of_app; right; by apply list_elem_of_singleton|].
    rewrite (upd_eq _ _ _ _ HZ). eexists. split; [done|]. split; [|split; [|by destruct L1]].
    + apply (chg_insert _ _ _ _ _ _ HZ); [done| |done]. intros []. apply elem_of_app. right. by apply list_elem_of_singleton.
    + eapply seg_set_next; [|done|done]. rewrite <- app_assoc in Hn. apply NoDup_app in Hn as (_ & Hn & _). intros Hz. apply (Hn z Hz). left.
Qed.

(** The first of a list gets a new predecessor. *)
Lemma unlink_next h p pr pr0 L2 : NoDup L2 -> seg h p pr0 L2 None ->
  exists h', (match hd_or L2 None with Some n => upd h n (set_prev pr) | None => Some h end) = Some h' /\
    chg h h' L2 [] /\ seg h' p pr L2 None.
Proof.
  intros Hn Hs. destruct L2 as [|z L2]; cbn [hd_or].
  - exists h. split; [done|]. split; [apply chg_refl|done].
  - pose proof Hs as [(Z & HZ & _) _]. rewrite (upd_eq _ _ _ _ HZ). eexists. split; [done|]. split.
    + apply (chg_insert _ _ _ _ _ _ HZ); [done| |done]. intros []. left.
    + eapply seg_set_prev; [|done|done]. by apply NoDup_cons in Hn as [? _].
Qed.

Lemma chg_mono h h' X X' F F' : chg h h' X F -> X ⊆ X' -> F ⊆ F' -> chg h h' X' F'.
Proof.
  intros H HX HF x. specialize (H x). destruct (h !! x), (h' !! x); try done. destruct H as (? & H1 & H2). split_and!; auto.
Qed.

(** The kids of the other coroutines are not those of [p]. *)
Lemma kids_disjoint h kids p q x : tree h kids -> x ∈ kids p -> x ∈ kids q -> p = q.
Proof. intros Ht (C & HC & Ho)%(tree_kid _ _ _ _ Ht) (C' & HC' & Ho')%(tree_kid _ _ _ _ Ht). congruence. Qed.

Definition kids_set (kids : Z -> list Z) (p : Z) (L : list Z) (q : Z) : list Z := if decide (q = p) then L else kids q.

Lemma unlink_chg h kids c C p L1 L2 : tree h kids -> h !! c = Some C -> kids p = L1 ++ c :: L2 ->
  exists h', unlink h c p = Some h' /\ chg h h' (L1 ++ c :: L2) (if decide (L1 = []) then [p] else []) /\
    seg h' p None (L1 ++ L2) None /\ h' !! c = Some (set_next None (set_prev None C)) /\
    (L1 = [] -> first_child <$> h' !! p = Some (hd_or L2 None)).
Proof.
  intros Ht HC Ek. pose proof (tr_seg _ _ Ht p) as Hs. pose proof (tr_nodup _ _ Ht p) as Hn. rewrite Ek in Hs, Hn.
  assert (c ∈ kids p) as Hck by (rewrite Ek; apply elem_of_app; right; left).
  destruct (tree_kid _ _ _ _ Ht Hck) as (C' & HC' & Ho). assert (C' = C) as -> by congruence.
  destruct (tr_origin _ _ Ht _ _ _ HC Ho) as [_ Hpc]. destruct (tree_alive _ _ _ _ _ Ht HC Ho) as (P & HP).
  pose proof Hn as (Hn1 & Hd1 & [Hc2 Hn2]%NoDup_cons)%NoDup_app.
  assert (c ∉ L1) as Hc1 by (intros Hx; apply (Hd1 c Hx); left).
  pose proof Hs as [_ Hs2]%sib_app. cbn [seg] in Hs2. destruct Hs2 as [(C' & HC2 & _ & Epr & Enx) Hs2]. assert (C' = C) as -> by congruence.
  destruct (unlink_prev h p L1 c L2 P Hn HP Hs) as (h1 & E1 & Hch1 & Hs1 & Hf1).
  assert (seg h1 p (Some c) L2 None) as Hs2' by (eapply seg_chg; [exact Hch1| |done]; intros x Hx Hx'; apply (Hd1 x Hx'); by right).
  destruct (unlink_next h1 p (last_or None L1) _ L2 Hn2 Hs2') as (h2 & E2 & Hch2 & Hs3).
  assert (h2 !! c = Some C) as HC3.
  { assert (c ∉ (if decide (L1 = []) then [p] else [])) as HcF by (case_decide; [rewrite list_elem_of_singleton; congruence|apply not_elem_of_nil]).
    destruct (chg_Some _ _ _ _ _ _ Hch1 HC) as (D1 & HD1 & (?&?&?&?&?) & Hl1 & Hf).
    destruct (chg_Some _ _ _ _ _ _ Hch2 HD1) as (D2 & HD2 & (?&?&?&?&?) & Hl2 & Hf').
    destruct (Hl1 Hc1) as (?&?&?), (Hl2 Hc2) as (?&?&?). specialize (Hf HcF). specialize (Hf' (not_elem_of_nil _)).
    rewrite HD2. f_equal. destruct C, D2. cbn in *. f_equal; congruence. }
  exists (<[c := set_next None (set_prev None C)]> h2). unfold unlink. rewrite HC. cbn [mbind option_bind]. rewrite Epr, Enx, E1. cbn [mbind option_bind].
  rewrite E2. cbn [mbind option_bind]. rewrite (upd_eq _ _ _ _ HC3). split; [done|]. split_and!.
  - eapply chg_trans; [eapply chg_mono; [exact Hch1|set_solver|done]|]. eapply chg_trans; [eapply chg_mono; [exact Hch2|set_solver|set_solver]|].
    apply (chg_insert _ _ _ _ _ _ HC3); [done| |done]. intros []. apply elem_of_app. right. left.
  - apply sib_insert_ne; [rewrite elem_of_app; tauto|]. apply sib_app. split; [|exact Hs3].
    eapply seg_chg; [exact Hch2| |exact Hs1]. intros x Hx Hx'. apply (Hd1 x Hx). by right.
  - by rewrite lookup_insert_eq.
  - intros EL. rewrite lookup_insert_ne by done. specialize (Hf1 EL). destruct (h1 !! p) as [P1|] eqn:HP1; [|done].
    destruct (chg_Some _ _ _ _ _ _ Hch2 HP1) as (D2 & -> & _ & _ & Hf). cbn in *. by rewrite <- (Hf (not_elem_of_nil _)).
Qed.

Lemma unlink_tree h kids c C p : tree h kids -> h !! c = Some C -> origin C = Some p ->
  exists h' L L1 L2, unlink h c p = Some h' /\ chg h h' (kids p) L /\ h' !! c = Some (set_next None (set_prev None C)) /\ kids p = L1 ++ c :: L2 /\
    tree (<[c := set_orig None (set_next None (set_prev None C))]> h') (kids_set kids p (L1 ++ L2)).
Proof.
  intros Ht HC Ho. destruct (tr_origin _ _ Ht _ _ _ HC Ho) as [Hck Hpc]. pose proof (list_elem_of_split _ _ Hck) as (L1 & L2 & Ek).
  destruct (unlink_chg h kids c C p L1 L2 Ht HC Ek) as (h' & E & Hch & Hs & HC' & Hf). exists h', (if decide (L1 = []) then [p] else []), L1, L2. rewrite Ek.
  split_and!; try done. pose proof (tr_nodup _ _ Ht p) as Hn. rewrite Ek in Hn. rewrite <- Permutation_middle in Hn. apply NoDup_cons in Hn as [Hc12 Hn]. constructor.
  - intros q Q. unfold kids_set. destruct (decide (q = c)) as [->|Hqc].
    + rewrite lookup_insert_eq, decide_False by done. intros [= <-]. cbn. by apply (tr_first _ _ Ht).
    + rewrite lookup_insert_ne by done. intros HQ. destruct (chg_Some_inv _ _ _ _ _ _ Hch HQ) as (Q0 & HQ0 & _ & _ & Hf0). destruct (decide (q = p)) as [Hq|Hq].
      * subst q. destruct (decide (L1 = [])) as [EL|EL].
        { specialize (Hf EL). rewrite HQ in Hf. injection Hf as ->. by rewrite EL. }
        rewrite <- Hf0, (tr_first _ _ Ht _ _ HQ0), Ek by apply not_elem_of_nil. by destruct L1.
      * rewrite <- Hf0, (tr_first _ _ Ht _ _ HQ0); [done|]. case_decide; [by rewrite list_elem_of_singleton|apply not_elem_of_nil].
  - intros q [Hq Hqc]%lookup_insert_None. unfold kids_set. rewrite decide_False.
    + apply (tr_dead _ _ Ht). specialize (Hch q). rewrite Hq in Hch. by destruct (h !! q).
    + intros ->. destruct (tree_alive _ _ _ _ _ Ht HC Ho) as (P & HP). destruct (chg_Some _ _ _ _ _ _ Hch HP) as (? & ? & _). congruence.
  - intros q. unfold kids_set. destruct (decide (q = p)); [done|apply (tr_nodup _ _ Ht)].
  - intros q. unfold kids_set. destruct (decide (q = p)) as [Hq|Hq].
    + subst q. by apply sib_insert_ne.
    + apply sib_insert_ne; [intros Hx; apply Hq; symmetry; by eapply kids_disjoint|]. eapply seg_chg; [exact Hch| |apply (tr_seg _ _ Ht)].
      intros x Hx Hx'. rewrite <- Ek in Hx'. apply Hq. by eapply kids_disjoint.
  - intros x X. destruct (decide (x = c)) as [->|Hxc]; [rewrite lookup_insert_eq; by intros [= <-]|].
    rewrite lookup_insert_ne by done. intros HX HoX. destruct (chg_Some_inv _ _ _ _ _ _ Hch HX) as (X0 & HX0 & (_&_&_&_&E5) & Hl & _).
    assert (x ∉ L1 ++ c :: L2) as Hx. { rewrite <- Ek. intros (X1 & ? & ?)%(tree_kid _ _ _ _ Ht). congruence. }
    destruct (Hl Hx) as (? & <- & <-). apply (tr_root _ _ Ht _ _ HX0). congruence.
  - intros x X q. destruct (decide (x = c)) as [->|Hxc]; [rewrite lookup_insert_eq; by intros [= <-]|].
    rewrite lookup_insert_ne by done. intros HX HoX. destruct (chg_Some_inv _ _ _ _ _ _ Hch HX) as (X0 & HX0 & (_&_&_&_&E5) & _).
    destruct (tr_origin _ _ Ht x X0 q HX0) as [Hk ?]; [congruence|]. split; [|done]. unfold kids_set. destruct (decide (q = p)) as [Hq|Hq]; [|done].
    subst q. rewrite Ek in Hk. revert Hk. rewrite !elem_of_app, elem_of_cons. naive_solver.
Qed.

Lemma link_tree h kids c C q Q : tree h kids -> h !! c = Some C -> origin C = None -> h !! q = Some Q -> q <> c ->
  exists h' D, link (<[c := set_orig (Some q) C]> h) c q = Some h' /\ chg (<[c := D]> h) h' (kids q) [q] /\ data_eq (set_orig (Some q) C) D /\
    tree h' (kids_set kids q (c :: kids q)).
Proof.
  intros Ht HC Ho HQ Hqc. set (D := set_next (first_child Q) (set_orig (Some q) C)).
  assert (forall p, c ∉ kids p) as Hck by (intros p (C' & ? & ?)%(tree_kid _ _ _ _ Ht); congruence).
  destruct (unlink_next (<[c := D]> h) q (Some c) None (kids q) (tr_nodup _ _ Ht q)) as (h2 & E2 & Hch2 & Hs2); [by apply sib_insert_ne, (tr_seg _ _ Ht)|].
  assert (exists Q2, h2 !! q = Some Q2) as (Q2 & HQ2).
  { edestruct (chg_Some _ _ _ _ q Q Hch2) as (Q2 & ? & _); [by rewrite lookup_insert_ne|eauto]. }
  pose (h3 := <[q := set_first (Some c) Q2]> h2). exists h3, D.
  assert (chg (<[c := D]> h) h3 (kids q) [q]) as Hch.
  { eapply chg_trans; [eapply chg_mono; [exact Hch2|done|set_solver]|]. apply (chg_insert _ _ _ _ _ _ HQ2); [done..|]. intros []. by apply list_elem_of_singleton. }
  assert (h3 !! c = Some D) as HD.
  { unfold h3. rewrite lookup_insert_ne by done. edestruct (chg_Some _ _ _ _ c D Hch2) as (D2 & -> & (?&?&?&?&?) & Hl & Hf); [by rewrite lookup_insert_eq|].
    destruct (Hl (Hck q)) as (?&?&?). specialize (Hf (not_elem_of_nil _)). f_equal. destruct D, D2; cbn in *; f_equal; congruence. }
  split_and!; [|done..|].
  { unfold link. rewrite lookup_insert_ne, HQ by done. cbn [mbind option_bind]. rewrite (upd_eq _ c (set_orig (Some q) C)) by (by rewrite lookup_insert_eq).
    cbn [mbind option_bind]. rewrite insert_insert_eq. fold D. rewrite (tr_first _ _ Ht _ _ HQ), E2. cbn [mbind option_bind]. by rewrite (upd_eq _ _ _ _ HQ2). }
  assert (seg h3 q (Some c) (kids q) None) as Hs3.
  { eapply seg_frame; [|exact Hs2]. intros x X _ HX. unfold h3. destruct (decide (x = q)) as [->|]; [rewrite lookup_insert_eq|exists X; by rewrite lookup_insert_ne].
    eexists. split; [done|]. assert (X = Q2) as -> by congruence. done. }
  destruct (tr_root _ _ Ht _ _ HC Ho) as [Epr Enx]. constructor.
  - intros p P HP. unfold kids_set. destruct (decide (p = q)) as [->|Hpq]; [unfold h3 in HP; rewrite lookup_insert_eq in HP; by simplify_eq|].
    destruct (chg_Some_inv _ _ _ _ _ _ Hch HP) as (P0 & HP0 & _ & _ & Hf). rewrite <- Hf by (by rewrite list_elem_of_singleton).
    destruct (decide (p = c)) as [->|]; [rewrite lookup_insert_eq in HP0; injection HP0 as <-; exact (tr_first _ _ Ht _ _ HC)|].
    rewrite lookup_insert_ne in HP0 by done. by apply (tr_first _ _ Ht).
  - intros p HP. unfold kids_set. destruct (decide (p = q)) as [->|]; [unfold h3 in HP; by rewrite lookup_insert_eq in HP|].
    specialize (Hch p). rewrite HP in Hch. apply (tr_dead _ _ Ht). destruct (decide (p = c)) as [->|]; [congruence|]. rewrite lookup_insert_ne in Hch by done. by destruct (h !! p).
  - intros p. unfold kids_set. destruct (decide (p = q)) as [->|]; [|apply (tr_nodup _ _ Ht)]. apply NoDup_cons. split; [done|apply (tr_nodup _ _ Ht)].
  - intros p. unfold kids_set. destruct (decide (p = q)) as [->|Hpq].
    + split; [|done]. exists D. split_and!; try done. cbn. by apply (tr_first _ _ Ht).
    + eapply seg_chg; [exact Hch| |apply sib_insert_ne, (tr_seg _ _ Ht); done]. intros x Hx Hx'. apply Hpq. by eapply kids_disjoint.
  - intros x X HX HoX. destruct (chg_Some_inv _ _ _ _ _ _ Hch HX) as (X0 & HX0 & (_&_&_&_&E5) & Hl & _).
    destruct (decide (x = c)) as [->|Hxc]; [rewrite HD in HX; injection HX as <-; discriminate HoX|]. rewrite lookup_insert_ne in HX0 by done.
    destruct Hl as (_ & <- & <-); [intros (X1 & ? & ?)%(tree_kid _ _ _ _ Ht); congruence|]. apply (tr_root _ _ Ht _ _ HX0). congruence.
  - intros x X p HX HoX. unfold kids_set. destruct (decide (x = c)) as [->|Hxc]; [rewrite HD in HX; injection HX as <-; injection HoX as <-; rewrite decide_True by done; split; [left|done]|].
    destruct (chg_Some_inv _ _ _ _ _ _ Hch HX) as (X0 & HX0 & (_&_&_&_&E5) & _). rewrite lookup_insert_ne in HX0 by done.
    destruct (tr_origin _ _ Ht x X0 p HX0) as [Hk ?]; [congruence|]. split; [|done]. destruct (decide (p = q)) as [->|]; [by right|done].
Qed.

(** [h'] is [h] with the origin of each [x] changed by [f], and other links. *)
Definition moved (h h' : Store) (f : Z -> option Z -> option Z) : Prop :=
  forall x, match h !! x, h' !! x with
  | Some C, Some D => state D = state C /\ resume_code_ D = resume_code_ C /\ cid D = cid C /\ cancel_fn_ D = cancel_fn_ C /\ origin D = f x (origin C)
  | None, None => True
  | _, _ => False
  end.

Definition orig_to (c : Z) (co : option Z) (x : Z) (o : option Z) : option Z := if decide (x = c) then co else o.

Lemma moved_chg h h0 h' X F f : chg h0 h' X F -> moved h h0 f -> moved h h' f.
Proof.
  intros Hc Hm x. specialize (Hc x). specialize (Hm x). destruct (h !! x), (h0 !! x), (h' !! x); try done.
  destruct Hc as ((?&?&?&?&?) & _), Hm as (?&?&?&?&?). split_and!; congruence.
Qed.

Lemma moved_insert h h' c C D co X F : chg h h' X F -> h !! c = Some C -> data_eq (set_orig co C) D -> moved h (<[c := D]> h') (orig_to c co).
Proof.
  intros Hc HC (E1&E2&E3&E4&E5) x. specialize (Hc x). unfold orig_to. destruct (decide (x = c)) as [->|].
  - rewrite HC, lookup_insert_eq. done.
  - rewrite lookup_insert_ne by done. destruct (h !! x), (h' !! x); try done. destruct Hc as ((?&?&?&?&?) & _). done.
Qed.

Lemma data_eq_trans A B C : data_eq A B -> data_eq B C -> data_eq A C.
Proof. intros (?&?&?&?&?) (?&?&?&?&?). split_and!; congruence. Qed.

(** [set_origin] keeps the tree and moves one coroutine. *)
Lemma set_origin_ok h kids c C co : tree h kids -> h !! c = Some C -> co <> Some c -> (forall q, co = Some q -> is_Some (h !! q)) ->
  exists h' kids', set_origin h c co = Some h' /\ tree h' kids' /\ moved h h' (orig_to c co).
Proof.
  intros Ht HC Hne Hal. unfold set_origin. rewrite HC. cbn [mbind option_bind]. case_decide as Eo.
  { exists h, kids. split_and!; try done. intros x. destruct (h !! x) eqn:E; [|done]. split_and!; try done. unfold orig_to. case_decide; [|done]. congruence. }
  assert (exists h1 kids1 C1 X F, (match origin C with Some p => unlink h c p | None => Some h end) = Some h1 /\ chg h h1 X F /\
    h1 !! c = Some C1 /\ data_eq C C1 /\ tree (<[c := set_orig None C1]> h1) kids1) as (h1 & kids1 & C1 & X & F & -> & Hch & HC1 & Hd & Ht1).
  { destruct (origin C) as [p|] eqn:Eorig.
    - destruct (unlink_tree _ _ _ _ _ Ht HC Eorig) as (h1 & L & L1 & L2 & ? & ? & ? & ? & ?). by eexists h1, _, _, _, _.
    - exists h, kids, C, [], []. split_and!; try done; [apply chg_refl|]. rewrite insert_id; [done|]. rewrite HC. f_equal. destruct C; cbn in *. by rewrite Eorig. }
  cbn [mbind option_bind]. rewrite (upd_eq _ _ _ _ HC1). cbn [mbind option_bind]. destruct co as [q|].
  - assert (q <> c) as Hqc by congruence. destruct (Hal q eq_refl) as [Q0 HQ0]. destruct (chg_Some _ _ _ _ _ _ Hch HQ0) as (Q & HQ & _).
    edestruct (link_tree _ kids1 c (set_orig None C1) q Q Ht1) as (h' & D & E & Hch' & Hd' & Ht'); [by rewrite lookup_insert_eq|done|by rewrite lookup_insert_ne|done|].
    rewrite insert_insert_eq in E. exists h', (kids_set kids1 q (c :: kids1 q)). split_and!; [done|done|].
    rewrite insert_insert_eq in Hch'. eapply moved_chg; [exact Hch'|]. eapply moved_insert; [exact Hch|exact HC|]. eapply data_eq_trans; [|exact Hd'].
    destruct Hd as (?&?&?&?&?). done.
  - exists (<[c := set_orig None C1]> h1), kids1. split_and!; [done|done|]. eapply moved_insert; [exact Hch|exact HC|]. destruct Hd as (?&?&?&?&?). done.
Qed.

(** The loop of [close] cuts the children off. *)
Definition cut (k : Coroutine) : Coroutine := set_next None (set_prev None (set_orig None k)).

Lemma clear_children_spec n h a A pr L : h !! a = Some A -> seg h a pr L None -> first_child A = hd_or L None -> NoDup L -> a ∉ L -> (length L <= n)%nat ->
  exists h', clear_children n h a = Some h' /\
    forall x, h' !! x = if decide (x ∈ L) then cut <$> h !! x else if decide (x = a) then set_first None <$> h !! x else h !! x.
Proof.
  revert n h A pr. induction L as [|c L IH]; intros n h A pr HA Hs Hf Hn Ha Hl.
  - exists h. split; [by destruct n; cbn; rewrite HA; cbn; rewrite Hf|]. intros x. rewrite decide_False by apply not_elem_of_nil.
    case_decide; [subst|done]. rewrite HA. cbn. f_equal. destruct A; cbn in *. by rewrite Hf.
  - destruct n as [|n]; [cbn in Hl; lia|]. cbn [clear_children]. rewrite HA. cbn [mbind option_bind]. rewrite Hf. cbn [hd_or].
    destruct Hs as [(C & HC & Ho & Ep & En) Hs]. rewrite HC. cbn [mbind option_bind]. rewrite (upd_eq _ _ _ _ HA). cbn [mbind option_bind].
    apply not_elem_of_cons in Ha as [Hac HaL]. apply NoDup_cons in Hn as [Hc Hn].
    rewrite (upd_eq _ c C) by (by rewrite lookup_insert_ne). cbn [mbind option_bind]. fold (cut C).
    edestruct (IH n (<[c := cut C]> (<[a := set_first (next_sibling C) A]> h)) (set_first (next_sibling C) A) (Some c)) as (h' & -> & Hh'); try done.
    + by rewrite lookup_insert_ne, lookup_insert_eq by done.
    + apply sib_insert_ne; [done|]. by apply sib_insert_ne.
    + cbn in Hl. lia.
    + exists h'. split; [done|]. intros x. rewrite Hh'. destruct (decide (x ∈ L)) as [Hx|Hx].
      * rewrite decide_True by (by right). rewrite !lookup_insert_ne by (intros ->; done). done.
      * destruct (decide (x = c)) as [->|Hxc].
        { rewrite lookup_insert_eq, decide_False, decide_True, HC by (done || left). done. }
        rewrite lookup_insert_ne by done. destruct (decide (x ∈ c :: L)) as [Hx'|_]; [apply elem_of_cons in Hx' as [?|?]; done|].
        case_decide; [subst; by rewrite lookup_insert_eq, HA|by rewrite lookup_insert_ne].
Qed.

Lemma kids_le_size h kids a : tree h kids -> (length (kids a) <= size h)%nat.
Proof.
  intros Ht. rewrite <- (size_list_to_set (C := gset Z) (kids a)) by apply (tr_nodup _ _ Ht). rewrite <- size_dom. apply subseteq_size.
  intros x. rewrite elem_of_list_to_set, elem_of_dom. intros (C & -> & _)%(tree_kid _ _ _ _ Ht). done.
Qed.

Lemma clear_children_ok h kids a A : tree h kids -> h !! a = Some A ->
  exists h', clear_children (size h) h a = Some h' /\ tree h' (kids_set kids a []) /\
    moved h h' (fun x o => if decide (o = Some a) then None else o).
Proof.
  intros Ht HA. assert (a ∉ kids a) as Haa by (intros Hx; destruct (tree_kid _ _ _ _ Ht Hx) as (A' & HA' & Ho); by destruct (tr_origin _ _ Ht _ _ _ HA' Ho)).
  destruct (clear_children_spec (size h) h a A None (kids a) HA (tr_seg _ _ Ht a) (tr_first _ _ Ht _ _ HA) (tr_nodup _ _ Ht a) Haa (kids_le_size _ _ _ Ht)) as (h' & E & Hh').
  exists h'. split; [done|]. assert (forall x C, h !! x = Some C -> x ∈ kids a <-> origin C = Some a) as Hka.
  { intros x C HC. split; [intros (C' & ? & ?)%(tree_kid _ _ _ _ Ht); congruence|]. intros Ho. by apply (tr_origin _ _ Ht _ _ _ HC Ho). }
  split.
  - constructor.
    + intros p P. rewrite Hh'. unfold kids_set. case_decide as Hp.
      * intros (C & HC & ->)%fmap_Some. rewrite decide_False by (intros ->; done). exact (tr_first _ _ Ht _ _ HC).
      * case_decide; [by intros (C & HC & ->)%fmap_Some|]. apply (tr_first _ _ Ht).
    + intros p. rewrite Hh'. unfold kids_set. intros Hp. destruct (decide (p = a)); [done|]. apply (tr_dead _ _ Ht).
      destruct (decide (p ∈ kids a)); [by apply fmap_None in Hp|done].
    + intros p. unfold kids_set. case_decide; [constructor|apply (tr_nodup _ _ Ht)].
    + intros p. unfold kids_set. case_decide as Hp; [done|]. eapply seg_frame; [|apply (tr_seg _ _ Ht)]. intros x C Hx HC. rewrite Hh', decide_False.
      * case_decide; [subst x; rewrite HC; by eexists|by exists C].
      * intros Hx'. apply Hp. symmetry. by eapply kids_disjoint.
    + intros x X. rewrite Hh'. case_decide; [by intros (C & HC & ->)%fmap_Some|]. case_decide; [|apply (tr_root _ _ Ht)].
      intros (C & HC & ->)%fmap_Some. exact (tr_root _ _ Ht _ _ HC).
    + intros x X p HX Ho. assert (exists C, h !! x = Some C /\ origin C = Some p /\ x ∉ kids a) as (C & HC & HoC & Hx).
      { rewrite Hh' in HX. case_decide as Hx; [by apply fmap_Some in HX as (C & _ & ->)|]. case_decide; [apply fmap_Some in HX as (C & HC & ->)|]; eauto. }
      destruct (tr_origin _ _ Ht _ _ _ HC HoC). split; [|done]. unfold kids_set. rewrite decide_False; [done|]. intros ->. done.
  - intros x. rewrite Hh'. destruct (h !! x) as [C|] eqn:HC; [|repeat case_decide; done]. case_decide as Hx.
    + cbn. rewrite decide_True; [done|]. by apply (Hka x).
    + case_decide; cbn; rewrite decide_False; try done; by rewrite <- (Hka x C HC).
Qed.

(** A coroutine without links can be taken out, or put in. *)
Lemma tree_delete h kids a A : tree h kids -> h !! a = Some A -> origin A = None -> kids a = [] -> tree (delete a h) kids.
Proof.
  intros Ht HA Ho Hk. constructor.
  - intros p P [_ HP]%lookup_delete_Some. by apply (tr_first _ _ Ht).
  - intros p [->|HP]%lookup_delete_None; [done|by apply (tr_dead _ _ Ht)].
  - apply (tr_nodup _ _ Ht).
  - intros p. eapply seg_frame; [|apply (tr_seg _ _ Ht)]. intros x C Hx HC. exists C. split; [|done]. rewrite lookup_delete_ne; [done|].
    intros <-. destruct (tree_kid _ _ _ _ Ht Hx) as (? & ? & ?). congruence.
  - intros x X [_ HX]%lookup_delete_Some. exact (tr_root _ _ Ht _ _ HX).
  - intros x X p [_ HX]%lookup_delete_Some. exact (tr_origin _ _ Ht _ _ _ HX).
Qed.

Lemma tree_new h kids a A : tree h kids -> h !! a = None -> origin A = None -> first_child A = None -> prev_sibling A = None -> next_sibling A = None ->
  tree (<[a := A]> h) kids.
Proof.
  intros Ht HA Ho Hf Hp Hn. constructor.
  - intros p P [[-> <-]|[_ HP]]%lookup_insert_Some; [by rewrite (tr_dead _ _ Ht)|by apply (tr_first _ _ Ht)].
  - intros p [HP _]%lookup_insert_None. by apply (tr_dead _ _ Ht).
  - apply (tr_nodup _ _ Ht).
  - intros p. apply sib_insert_ne; [|apply (tr_seg _ _ Ht)]. intros (? & ? & ?)%(tree_kid _ _ _ _ Ht). congruence.
  - intros x X [[-> <-]|[_ HX]]%lookup_insert_Some; [done|exact (tr_root _ _ Ht _ _ HX)].
  - intros x X p [[-> <-]|[_ HX]]%lookup_insert_Some; [congruence|exact (tr_origin _ _ Ht _ _ _ HX)].
Qed.

(** ** The stack of contexts *)

(** Each coroutine of the stack has the one below it as its origin. *)
Fixpoint chain (h : Store) (st : list Z) : Prop :=
  match st with
  | [] => True
  | a :: st => (exists A, h !! a = Some A /\ origin A = hd_or st None) /\ chain h st
  end.

Definition runs (A : Coroutine) : Prop := state A = STATE_RUNNING /\ cancel_fn_ A = false.
Definition waits (A : Coroutine) : Prop := state A = STATE_WAITING /\ resume_code_ A = RC_OK.

Record threads (h : Store) (st : list Z) : Prop := {
  th_chain : chain h st;
  th_nodup : NoDup st;
  th_state a A : h !! a = Some A -> (a ∈ st /\ runs A) \/ ((a ∉ st) /\ waits A);
}.

Lemma chain_frame h h' st : chain h st ->
  (forall x C, x ∈ st -> h !! x = Some C -> (forall p, origin C = Some p -> p ∈ st) -> exists D, h' !! x = Some D /\ origin D = origin C) -> chain h' st.
Proof.
  induction st as [|a st IH]; cbn; [done|]. intros [(A & HA & Ho) Hc] Hf. split.
  - destruct (Hf a A) as (D & HD & E); [left|done| |exists D; split; congruence]. rewrite Ho. intros p Hp. right. destruct st; [done|]. cbn in Hp. simplify_eq. left.
  - apply IH; [done|]. intros x C Hx HC Hp. apply Hf; [by right|done|]. intros p ?. right. auto.
Qed.

Lemma chain_alive h st a : chain h st -> a ∈ st -> is_Some (h !! a).
Proof.
  induction st as [|b st IH]; intros Hc Ha; [by apply elem_of_nil in Ha|]. destruct Hc as [(A & HA & _) Hc]. apply elem_of_cons in Ha as [->|Ha]; eauto.
Qed.

(** [a] comes on top. *)
Lemma threads_push h h' st a D : chain h st -> NoDup st -> a ∉ st -> (forall x C, x <> a -> h !! x = Some C -> (x ∈ st /\ runs C) \/ ((x ∉ st) /\ waits C)) ->
  moved h h' (orig_to a (hd_or st None)) -> h' !! a = Some D ->
  threads (<[a := set_cancel_fn false (set_state STATE_RUNNING D)]> h') (a :: st).
Proof.
  intros Hc Hn Ha Hs Hm HD. constructor.
  - split.
    + eexists. rewrite lookup_insert_eq. split; [done|]. cbn. specialize (Hm a). rewrite HD in Hm. destruct (h !! a); [|done].
      destruct Hm as (_&_&_&_&->). unfold orig_to. by rewrite decide_True.
    + apply (chain_frame h); [done|]. intros x C Hx HC _. assert (x <> a) by (by intros ->). rewrite lookup_insert_ne by done. specialize (Hm x). rewrite HC in Hm.
      destruct (h' !! x) as [X|]; [|done]. exists X. split; [done|]. destruct Hm as (_&_&_&_&->). unfold orig_to. by rewrite decide_False.
  - by apply NoDup_cons.
  - intros x X [[<- <-]|[Hx HX]]%lookup_insert_Some; [left; split; [left|done]|]. specialize (Hm x). rewrite HX in Hm. destruct (h !! x) as [C|] eqn:HC; [|done].
    destruct Hm as (E1&E2&_&E4&_). unfold runs, waits. rewrite E1, E2, E4. destruct (Hs x C) as [[? ?]|[? ?]]; [done..| |].
    + left. split; [by right|done].
    + right. split; [|done]. rewrite not_elem_of_cons. split; [congruence|done].
Qed.

(** ** The state of the scheduler *)

Record registry_wf (h : Store) (r : gmap Z Z) (last : Z) : Prop := {
  rg_in a A : h !! a = Some A -> r !! cid A = Some a /\ 1 <= cid A <= last;
  rg_of i a : r !! i = Some a -> exists A, h !! a = Some A /\ cid A = i;
}.

Record sched_wf (s : Sched) (kids : Z -> list Z) : Prop := {
  sw_tree : tree (heap s) kids;
  sw_threads : threads (heap s) (stack s);
  sw_current : current s = hd_or (stack s) None;
  sw_registry : registry_wf (heap s) (coroutines s) (last_cid s);
  sw_last : 0 <= last_cid s;
  sw_peak : count s <= peak_num s;
}.

Lemma registry_moved h h' r last f : registry_wf h r last -> moved h h' f -> registry_wf h' r last.
Proof.
  intros [Hi Ho] Hm. constructor.
  - intros a A HA. specialize (Hm a). rewrite HA in Hm. destruct (h !! a) as [C|] eqn:HC; [|done]. destruct Hm as (_&_&->&_). by apply Hi.
  - intros i a Ha. destruct (Ho i a Ha) as (A & HA & <-). specialize (Hm a). rewrite HA in Hm. destruct (h' !! a) as [C|] eqn:HC; [|done].
    exists C. destruct Hm as (_&_&->&_). done.
Qed.

Lemma registry_upd h r last a A A' : registry_wf h r last -> h !! a = Some A -> cid A' = cid A -> registry_wf (<[a := A']> h) r last.
Proof.
  intros [Hi Ho] HA E. constructor.
  - intros b B [[<- <-]|[_ HB]]%lookup_insert_Some; [rewrite E; by apply Hi|by apply Hi].
  - intros i b Hb. destruct (Ho i b Hb) as (B & HB & <-). destruct (decide (a = b)) as [->|Hne].
    + exists A'. rewrite lookup_insert_eq. split; [done|congruence].
    + exists B. by rewrite lookup_insert_ne.
Qed.

Lemma enter_wf h kids st a A r last peak : tree h kids -> chain h st -> NoDup st -> a ∉ st ->
  (forall x C, x <> a -> h !! x = Some C -> (x ∈ st /\ runs C) \/ ((x ∉ st) /\ waits C)) ->
  h !! a = Some A -> registry_wf h r last -> 0 <= last -> Z.of_nat (size r) <= peak ->
  exists h1 kids1 D, set_origin h a (hd_or st None) = Some h1 /\ h1 !! a = Some D /\
    state D = state A /\ resume_code_ D = resume_code_ A /\ cancel_fn_ D = cancel_fn_ A /\
    sched_wf (mkSched (<[a := set_cancel_fn false (set_state STATE_RUNNING D)]> h1) r (Some a) last peak (a :: st)) kids1.
Proof.
  intros Ht Hc Hn Ha Hs HA Hr Hl Hp. destruct (set_origin_ok h kids a A (hd_or st None) Ht HA) as (h1 & kids1 & E & Ht1 & Hm).
  { intros E. apply Ha. destruct st; [done|]. cbn in E. simplify_eq. left. }
  { intros q E. apply (chain_alive h st); [done|]. destruct st; [done|]. cbn in E. simplify_eq. left. }
  pose proof (Hm a) as Hma. rewrite HA in Hma. destruct (h1 !! a) as [D|] eqn:HD; [|done]. destruct Hma as (?&?&?&?&?).
  exists h1, kids1, D. split_and!; try done. constructor; cbn; try done.
  - by eapply tree_upd.
  - by eapply threads_push.
  - eapply registry_upd; [by eapply registry_moved|exact HD|done].
Qed.

Lemma threads_lookup h st a A : threads h st -> h !! a = Some A -> state A = STATE_WAITING -> (a ∉ st) /\ waits A.
Proof. intros Ht HA Hs. destruct (th_state _ _ Ht _ _ HA) as [[_ [? _]]|?]; [congruence|done]. Qed.

(** [resume] of a coroutine that waits, after its code was set to [code]. *)
Lemma resume_ok s kids a A code b : sched_wf s kids -> heap s !! a = Some A -> state A = STATE_WAITING ->
  exists s' kids' D, resume (mkSched (<[a := set_code code (set_cancel_fn b A)]> (heap s)) (coroutines s) (current s) (last_cid s) (peak_num s) (stack s)) a = Some s' /\
    sched_wf s' kids' /\ stack s' = a :: stack s /\ heap s' !! a = Some D /\ resume_code_ D = code.
Proof.
  intros [Ht Hth Hcur Hr Hl Hp] HA Hs. destruct (threads_lookup _ _ _ _ Hth HA Hs) as [Ha _]. pose proof Hth as [Hc Hn Hst].
  set (A1 := set_state STATE_RUNNING (set_code code (set_cancel_fn b A))).
  destruct (enter_wf (<[a := A1]> (heap s)) kids (stack s) a A1 (coroutines s) (last_cid s) (peak_num s)) as (h1 & kids1 & D & E & HD & E1 & E2 & E3 & Hwf); try done.
  - by eapply tree_upd.
  - apply (chain_frame (heap s)); [done|]. intros x C Hx HC _. exists C. rewrite lookup_insert_ne by (by intros ->). done.
  - intros x C Hx. rewrite lookup_insert_ne by done. apply Hst.
  - by rewrite lookup_insert_eq.
  - by eapply registry_upd.
  - eexists _, kids1, _. split; [|split; [exact Hwf|]].
    + unfold resume. cbn [heap current]. rewrite bool_decide_eq_false_2.
      2: { rewrite Hcur. intros Ec. apply Ha. destruct (stack s); [done|]. cbn in Ec. simplify_eq. left. }
      erewrite (upd_eq _ a) by (by rewrite lookup_insert_eq). cbn [mbind option_bind]. rewrite insert_insert_eq. unfold enter. cbn [heap current stack coroutines last_cid peak_num].
      fold A1. rewrite Hcur, E. cbn [mbind option_bind heap coroutines current last_cid peak_num stack]. rewrite (upd_eq _ _ _ _ HD). cbn [mbind option_bind].
      do 3 f_equal. destruct D. cbn in *. by rewrite E1.
    + cbn [heap stack]. split; [done|]. rewrite lookup_insert_eq. split; [done|]. cbn. by rewrite E2.
Qed.

Lemma set_code_id A : set_code (resume_code_ A) (set_cancel_fn (cancel_fn_ A) A) = A.
Proof. by destruct A. Qed.

Lemma sched_upd_id s a A : heap s !! a = Some A ->
  mkSched (<[a := A]> (heap s)) (coroutines s) (current s) (last_cid s) (peak_num s) (stack s) = s.
Proof. intros HA. rewrite insert_id by done. by destruct s. Qed.

(** The ways to wake a coroutine that waits. *)
Lemma resume_wf s kids a A : sched_wf s kids -> heap s !! a = Some A -> state A = STATE_WAITING ->
  exists s' kids' D, resume s a = Some s' /\ sched_wf s' kids' /\ stack s' = a :: stack s /\ heap s' !! a = Some D /\ resume_code_ D = RC_OK.
Proof.
  intros Hwf HA Hs. destruct (threads_lookup _ _ _ _ (sw_threads _ _ Hwf) HA Hs) as [_ [_ Hc]].
  pose proof (resume_ok s kids a A (resume_code_ A) (cancel_fn_ A) Hwf HA Hs) as H. by rewrite set_code_id, sched_upd_id, Hc in H.
Qed.

Lemma timeout_wf s kids a A : sched_wf s kids -> heap s !! a = Some A -> state A = STATE_WAITING ->
  exists s' kids' D, timeout s a = Some s' /\ sched_wf s' kids' /\ stack s' = a :: stack s /\ heap s' !! a = Some D /\ resume_code_ D = RC_TIMEDOUT.
Proof.
  intros Hwf HA Hs. unfold timeout. rewrite (upd_eq _ _ _ _ HA). cbn [mbind option_bind].
  pose proof (resume_ok s kids a A RC_TIMEDOUT (cancel_fn_ A) Hwf HA Hs) as H. by destruct A.
Qed.

Lemma cancel_wf s kids a A : sched_wf s kids -> heap s !! a = Some A ->
  if cancel_fn_ A then
    exists s' kids' D, cancel s a = Some (true, s') /\ sched_wf s' kids' /\ stack s' = a :: stack s /\ heap s' !! a = Some D /\ resume_code_ D = RC_CANCELED
  else cancel s a = Some (false, s).
Proof.
  intros Hwf HA. unfold cancel. rewrite HA. cbn [mbind option_bind]. destruct (cancel_fn_ A) eqn:Ec; [|done]. cbn [negb].
  assert (state A = STATE_WAITING) as Hs. { destruct (th_state _ _ (sw_threads _ _ Hwf) _ _ HA) as [[_ [_ ?]]|[_ [? _]]]; [congruence|done]. }
  rewrite (upd_eq _ _ _ _ HA). cbn [mbind option_bind].
  destruct (resume_ok s kids a A RC_CANCELED false Hwf HA Hs) as (s' & kids' & D & E & ? & ? & ? & ?). rewrite E. cbn. by exists s', kids', D.
Qed.

Lemma create_wf s kids a : sched_wf s kids -> heap s !! a = None ->
  exists s' kids', create s a = Some s' /\ sched_wf s' kids' /\ stack s' = a :: stack s.
Proof.
  intros [Ht Hth Hcur Hr Hl Hp] HA. pose proof Hth as [Hc Hn Hst]. unfold create, construct. cbv zeta. cbn [heap current stack coroutines last_cid peak_num].
  set (A := mkCo STATE_INIT RC_OK (last_cid s + 1) None None None None false). set (r := <[last_cid s + 1 := a]> (coroutines s)).
  assert (a ∉ stack s) as Ha by (intros Hx; destruct (chain_alive _ _ _ Hc Hx); congruence).
  destruct (enter_wf (<[a := A]> (heap s)) kids (stack s) a A r (last_cid s + 1)
    (if peak_num s <? Z.of_nat (size r) then Z.of_nat (size r) else peak_num s)) as (h1 & kids1 & D & E & HD & E1 & E2 & E3 & Hwf); try done.
  - by apply tree_new.
  - apply (chain_frame (heap s)); [done|]. intros x C Hx HC _. exists C. rewrite lookup_insert_ne by (by intros ->). done.
  - intros x C Hx. rewrite lookup_insert_ne by done. apply Hst.
  - by rewrite lookup_insert_eq.
  - destruct Hr as [Hi Ho]. constructor.
    + intros b B [[<- <-]|[Hb HB]]%lookup_insert_Some; [cbn; unfold r; rewrite lookup_insert_eq; split; [done|lia]|].
      destruct (Hi b B HB) as [? ?]. unfold r. rewrite lookup_insert_ne by lia. split; [done|lia].
    + intros i b [[<- <-]|[Hi' Hb]]%lookup_insert_Some; [exists A; by rewrite lookup_insert_eq|].
      destruct (Ho i b Hb) as (B & HB & ?). exists B. rewrite lookup_insert_ne by (intros ->; congruence). done.
  - lia.
  - destruct (Z.ltb_spec (peak_num s) (Z.of_nat (size r))); lia.
  - eexists _, kids1. split; [|split; [exact Hwf|done]]. unfold enter. cbn [heap current stack coroutines last_cid peak_num].
    rewrite Hcur, E. cbn [mbind option_bind heap coroutines current last_cid peak_num stack]. rewrite (upd_eq _ _ _ _ HD). cbn [mbind option_bind].
    do 3 f_equal. destruct D. cbn in *. by rewrite E3.
Qed.

Lemma yield_wf s kids a rest b : sched_wf s kids -> stack s = a :: rest ->
  exists s' kids' D, yield s a b = Some s' /\ sched_wf s' kids' /\ stack s' = rest /\ heap s' !! a = Some D /\ waits D /\ cancel_fn_ D = b.
Proof.
  intros [Ht Hth Hcur Hr Hl Hp] Es. pose proof Hth as [Hc Hn Hst]. rewrite Es in *. pose proof Hc as [(A & HA & Ho) Hc']. apply NoDup_cons in Hn as [Ha Hn].
  unfold yield. rewrite Hcur, Es, bool_decide_eq_true_2 by done. cbn [negb tail]. rewrite (upd_eq _ _ _ _ HA). cbn [mbind option_bind]. rewrite lookup_insert_eq. cbn [mbind option_bind].
  eexists _, kids, _. split; [done|]. cbn [heap stack tail]. rewrite lookup_insert_eq. split.
  - constructor; cbn; try done.
    + eapply tree_upd; [done|exact HA|..]; by destruct b.
    + constructor; [|done|].
      * apply (chain_frame (heap s)); [done|]. intros x C Hx HC _. exists C. rewrite lookup_insert_ne by (by intros ->). done.
      * intros x X [[<- <-]|[Hx HX]]%lookup_insert_Some; [right; split; [done|by destruct b]|].
        destruct (Hst x X HX) as [[Hx' ?]|[Hx' ?]]; [left|right]; (split; [|done]); [|by apply not_elem_of_cons in Hx' as [_ ?]].
        apply elem_of_cons in Hx' as [?|?]; [congruence|done].
    + by destruct b.
    + eapply registry_upd; [done|exact HA|by destruct b].
  - split_and!; try done; try (by destruct b). destruct b; [done|]. cbn. destruct (Hst a A HA) as [[_ [_ ?]]|[Hx _]]; [done|]. by apply not_elem_of_cons in Hx as [? _].
Qed.

Lemma close_wf s kids a rest : sched_wf s kids -> stack s = a :: rest ->
  exists s' kids', close s a = Some s' /\ sched_wf s' kids' /\ stack s' = rest /\ heap s' !! a = None.
Proof.
  intros [Ht Hth Hcur Hr Hl Hp] Es. pose proof Hth as [Hc Hn Hst]. rewrite Es in *. pose proof Hc as [(A & HA & Ho) Hc']. apply NoDup_cons in Hn as [Ha Hn].
  unfold close. rewrite Hcur, Es, bool_decide_eq_true_2 by done. cbn [negb tail]. rewrite (upd_eq _ _ _ _ HA). cbn [mbind option_bind]. rewrite lookup_insert_eq. cbn [mbind option_bind].
  set (A1 := set_state STATE_END A). set (h := <[a := A1]> (heap s)). assert (h !! a = Some A1) as HA1 by (by unfold h; rewrite lookup_insert_eq).
  assert (tree h kids) as Ht1 by (by eapply tree_upd). destruct (clear_children_ok h kids a A1 Ht1 HA1) as (h2 & -> & Ht2 & Hm2). cbn [mbind option_bind].
  pose proof (Hm2 a) as Hma. rewrite HA1 in Hma. destruct (h2 !! a) as [A2|] eqn:HA2; [|done]. destruct Hma as (_&_&Ecid&_&_).
  destruct (set_origin_ok h2 _ a A2 None Ht2 HA2) as (h3 & kids3 & -> & Ht3 & Hm3); [done..|]. cbn [mbind option_bind].
  assert (forall x X, h3 !! x = Some X -> exists C, h !! x = Some C /\ state X = state C /\ resume_code_ X = resume_code_ C /\ cid X = cid C /\ cancel_fn_ X = cancel_fn_ C /\
    origin X = if decide (x = a) then None else if decide (origin C = Some a) then None else origin C) as Hback.
  { intros x X HX. specialize (Hm2 x). specialize (Hm3 x). rewrite HX in Hm3. destruct (h2 !! x) as [B|]; [|done]. destruct (h !! x) as [C|]; [|done].
    exists C. destruct Hm2 as (?&?&?&?&?), Hm3 as (?&?&?&?&E5). unfold orig_to in E5. split_and!; try congruence. rewrite E5. by case_decide. }
  assert (forall x C, h !! x = Some C -> exists X, h3 !! x = Some X) as Hfwd.
  { intros x C HC. specialize (Hm2 x). specialize (Hm3 x). rewrite HC in Hm2. destruct (h2 !! x); [|done]. destruct (h3 !! x); [eauto|done]. }
  destruct (Hfwd a A1 HA1) as (A3 & HA3). destruct (Hback a A3 HA3) as (A1' & HA1' & _ & _ & Ecid3 & _ & Ho3). rewrite decide_True in Ho3 by done. assert (A1' = A1) as -> by congruence.
  eexists _, kids3. split; [done|]. split; [|split; [done|cbn; by rewrite lookup_delete_eq]]. constructor; cbn; try done.
  - eapply tree_delete; [done|exact HA3|done|]. destruct (kids3 a) as [|k L] eqn:Ek; [done|]. destruct (tree_kid _ _ a k Ht3) as (K & HK & HoK); [rewrite Ek; left|].
    destruct (Hback k K HK) as (C & _ & _ & _ & _ & _ & Ho4). repeat case_decide; congruence.
  - constructor; [|done|].
    + apply (chain_frame (heap s)); [done|]. intros x C Hx HC Hp'. assert (x <> a) as Hxa by (by intros ->). assert (h !! x = Some C) as HC1 by (by unfold h; rewrite lookup_insert_ne).
      rewrite lookup_delete_ne by done. destruct (Hfwd x C HC1) as (X & HX). exists X. split; [done|]. destruct (Hback x X HX) as (C' & HC' & _ & _ & _ & _ & ->).
      assert (C' = C) as -> by congruence. rewrite !decide_False; [done| |done]. intros Hoa. apply Ha. by apply Hp'.
    + intros x X [Hxa HX]%lookup_delete_Some. destruct (Hback x X HX) as (C & HC & E1 & E2 & _ & E4 & _). unfold h in HC. rewrite lookup_insert_ne in HC by done.
      unfold runs, waits. rewrite E1, E2, E4. destruct (Hst x C HC) as [[Hx' ?]|[Hx' ?]]; [left|right]; (split; [|done]); [|by apply not_elem_of_cons in Hx' as [_ ?]].
      apply elem_of_cons in Hx' as [?|?]; [congruence|done].
  - destruct Hr as [Hi Hof]. constructor.
    + intros x X [Hxa HX]%lookup_delete_Some. destruct (Hback x X HX) as (C & HC & _ & _ & -> & _). unfold h in HC. rewrite lookup_insert_ne in HC by done.
      destruct (Hi x C HC) as [HrC ?]. split; [|done]. rewrite lookup_delete_ne; [done|]. intros Ec. destruct (Hi a A HA) as [HrA _]. rewrite Ec in HrA. congruence.
    + intros i x [Hne Hx]%lookup_delete_Some. destruct (Hof i x Hx) as (C & HC & Eci). destruct (decide (x = a)) as [->|Hxa]; [exfalso; apply Hne; congruence|].
      destruct (Hfwd x C) as (X & HX); [by unfold h; rewrite lookup_insert_ne|]. exists X. rewrite lookup_delete_ne by done. split; [done|].
      destruct (Hback x X HX) as (C' & HC' & _ & _ & -> & _). unfold h in HC'. rewrite lookup_insert_ne in HC' by done. congruence.
  - unfold count. cbn. pose proof (map_subseteq_size _ _ (delete_subseteq (coroutines s) (cid A))). unfold count in Hp. lia.
Qed.

(** ** Reachable states *)

Lemma initial_wf : sched_wf initial (fun _ => []).
Proof.
  constructor; cbn; try done; constructor; cbn; try done; try constructor; intros *; rewrite ?lookup_empty; done.
Qed.

Lemma step_wf s kids s' : sched_wf s kids -> step s s' -> exists kids', sched_wf s' kids'.
Proof.
  intros Hwf Hs. destruct Hs as [s a s' Ha E|s a rest b s' Hs E|s a A s' Ha Hw E|s a A s' Ha Hw E|s a A b s' Ha E|s a rest s' Hs E].
  - destruct (create_wf s kids a Hwf Ha) as (s1 & kids' & E' & ? & _). simplify_eq. eauto.
  - destruct (yield_wf s kids a rest b Hwf Hs) as (s1 & kids' & D & E' & ? & _). simplify_eq. eauto.
  - destruct (resume_wf s kids a A Hwf Ha Hw) as (s1 & kids' & D & E' & ? & _). simplify_eq. eauto.
  - destruct (timeout_wf s kids a A Hwf Ha Hw) as (s1 & kids' & D & E' & ? & _). simplify_eq. eauto.
  - pose proof (cancel_wf s kids a A Hwf Ha) as Hc. destruct (cancel_fn_ A).
    + destruct Hc as (s1 & kids' & D & E' & ? & _). simplify_eq. eauto.
    + rewrite E in Hc. simplify_eq. eauto.
  - destruct (close_wf s kids a rest Hwf Hs) as (s1 & kids' & E' & ? & _). simplify_eq. eauto.
Qed.

Lemma reachable_wf s : reachable s -> exists kids, sched_wf s kids.
Proof.
  revert s. apply (rtc_ind_r (fun s => exists kids, sched_wf s kids) initial); [eexists; apply initial_wf|].
  intros s s' _ Hs (kids & Hwf). by eapply step_wf.
Qed.

Lemma wf_never_stuck s kids : sched_wf s kids -> never_stuck s.
Proof.
  intros Hwf. split_and!.
  - intros a Ha. destruct (create_wf s kids a Hwf Ha) as (? & ? & -> & _). done.
  - intros a rest b Hs. destruct (yield_wf s kids a rest b Hwf Hs) as (? & ? & ? & -> & _), (close_wf s kids a rest Hwf Hs) as (? & ? & -> & _). done.
  - intros a A Ha. split.
    + pose proof (cancel_wf s kids a A Hwf Ha) as Hc. destruct (cancel_fn_ A); [destruct Hc as (? & ? & ? & -> & _); done|by rewrite Hc].
    + intros Hw. destruct (resume_wf s kids a A Hwf Ha Hw) as (? & ? & ? & -> & _), (timeout_wf s kids a A Hwf Ha Hw) as (? & ? & ? & -> & _). done.
Qed.

Lemma seg_pointers h p pr L nx x C q : seg h p pr L nx -> x ∈ L -> h !! x = Some C ->
  (prev_sibling C = Some q -> q ∈ L \/ pr = Some q) /\ (next_sibling C = Some q -> q ∈ L \/ nx = Some q).
Proof.
  revert pr. induction L as [|c L IH]; intros pr Hs Hx HC; [by apply elem_of_nil in Hx|]. destruct Hs as [(C' & HC' & _ & E1 & E2) Hs].
  apply elem_of_cons in Hx as [->|Hx].
  - assert (C' = C) as -> by congruence. rewrite E1, E2. split; [by right|]. destruct L; cbn; [by right|]. intros [= ->]. left. right. left.
  - destruct (IH (Some c) Hs Hx HC) as [H1 H2]. split.
    + intros [?|[= <-]]%H1; left; [by right|left].
    + intros [?|?]%H2; [left; by right|by right].
Qed.

Lemma tree_pointers h kids a A p : tree h kids -> h !! a = Some A -> p ∈ pointers A -> is_Some (h !! p).
Proof.
  intros Ht HA Hp. assert (forall q x, x ∈ kids q -> is_Some (h !! x)) as Hkid by (intros q x (? & -> & _)%(tree_kid _ _ _ _ Ht); done).
  unfold pointers in Hp. apply list_elem_of_omap in Hp as (o & Ho & Hop). cbn in Hop. subst o.
  rewrite !elem_of_cons, elem_of_nil in Ho. destruct Ho as [Ho|[Ho|[Ho|[Ho|[]]]]]; symmetry in Ho.
  - destruct (tree_alive _ _ _ _ _ Ht HA Ho) as (? & ->). done.
  - rewrite (tr_first _ _ Ht _ _ HA) in Ho. apply (Hkid a). destruct (kids a); [done|]. cbn in Ho. simplify_eq. left.
  - destruct (origin A) as [q|] eqn:Eo; [|destruct (tr_root _ _ Ht _ _ HA Eo); congruence]. destruct (tr_origin _ _ Ht _ _ _ HA Eo) as [Hk _].
    destruct (seg_pointers _ _ _ _ _ _ _ p (tr_seg _ _ Ht q) Hk HA) as [H1 _]. destruct (H1 Ho); [eauto|done].
  - destruct (origin A) as [q|] eqn:Eo; [|destruct (tr_root _ _ Ht _ _ HA Eo); congruence]. destruct (tr_origin _ _ Ht _ _ _ HA Eo) as [Hk _].
    destruct (seg_pointers _ _ _ _ _ _ _ p (tr_seg _ _ Ht q) Hk HA) as [_ H1]. destruct (H1 Ho); [eauto|done].
Qed.

Lemma chain_lookup h st i a A : chain h st -> st !! i = Some a -> h !! a = Some A -> origin A = st !! S i.
Proof.
  revert i. induction st as [|b st IH]; intros i Hc Hi HA; [done|]. destruct Hc as [(B & HB & Ho) Hc]. destruct i as [|i]; cbn in *; [|by apply IH].
  simplify_eq. rewrite Ho. by destruct st.
Qed.

(** ** Properties *)

(** C3: in every state that a program of coroutines reaches, no coroutine has a
    pointer to a released one; the coroutines that run are exactly those whose
    context is on the machine's stack, each with the one below it, which resumed
    it, as its origin, and [current] is the one on top; the registry has exactly the
    coroutines that live; and none of the operations that can come next fails. *)
Theorem coroutines_sound s : reachable s ->
  (forall a A p, heap s !! a = Some A -> p ∈ pointers A -> is_Some (heap s !! p)) /\
  NoDup (stack s) /\ current s = stack s !! 0%nat /\
  (forall i a A, stack s !! i = Some a -> heap s !! a = Some A -> origin A = stack s !! S i) /\
  (forall a A, heap s !! a = Some A -> state A = if decide (a ∈ stack s) then STATE_RUNNING else STATE_WAITING) /\
  (forall i a, get_by_cid s i = Some a <-> exists A, heap s !! a = Some A /\ cid A = i) /\
  count s <= peak_num s /\ never_stuck s.
Proof.
  intros (kids & Hwf)%reachable_wf. pose proof Hwf as [Ht Hth Hcur Hr _ Hp]. pose proof Hth as [Hc Hn Hst]. split_and!; try done.
  - intros a A p. by eapply tree_pointers.
  - rewrite Hcur. by destruct (stack s).
  - intros i a A. by apply chain_lookup.
  - intros a A HA. destruct (Hst a A HA) as [[? [? _]]|[? [? _]]]; [by rewrite decide_True|by rewrite decide_False].
  - intros i a. unfold get_by_cid. destruct Hr as [Hi Ho]. split; [apply Ho|]. intros (A & HA & <-). by apply Hi.
  - by eapply wf_never_stuck.
Qed.

(** [yield_ex] says how its coroutine was woken: [true] behind [resume], [false]
    behind the timeout and behind [cancel], which refuses a coroutine that cannot be
    cancelled and leaves it alone; and the [yield] that follows gives control back
    to where it came from. *)
Theorem yield_ex_answers s a A : reachable s -> heap s !! a = Some A -> state A = STATE_WAITING ->
  (exists s' D, resume s a = Some s' /\ heap s' !! a = Some D /\ yield_ex_result D = true /\
    forall b, exists s2, yield s' a b = Some s2 /\ stack s2 = stack s /\ current s2 = current s) /\
  (exists s' D, timeout s a = Some s' /\ heap s' !! a = Some D /\ yield_ex_result D = false) /\
  (if cancel_fn_ A then exists s' D, cancel s a = Some (true, s') /\ heap s' !! a = Some D /\ yield_ex_result D = false
   else cancel s a = Some (false, s)).
Proof.
  intros (kids & Hwf)%reachable_wf HA Hs. unfold yield_ex_result. split_and!.
  - destruct (resume_wf s kids a A Hwf HA Hs) as (s' & kids' & D & E & Hwf' & Hst & HD & Hc). exists s', D. rewrite Hc. split_and!; try done.
    intros b. destruct (yield_wf s' kids' a (stack s) b Hwf' Hst) as (s2 & kids2 & D2 & E2 & Hwf2 & Hst2 & _). exists s2. split_and!; try done.
    rewrite (sw_current _ _ Hwf2), (sw_current _ _ Hwf). by rewrite Hst2.
  - destruct (timeout_wf s kids a A Hwf HA Hs) as (s' & kids' & D & E & _ & _ & HD & Hc). exists s', D. by rewrite Hc.
  - pose proof (cancel_wf s kids a A Hwf HA) as Hc. destruct (cancel_fn_ A); [|done]. destruct Hc as (s' & kids' & D & E & _ & _ & HD & Hc).
    exists s', D. by rewrite Hc.
Qed.

(** Programs as lists of operations, for examples. *)
Inductive op := OCreate (a : Z) | OYield (cancelable : bool) | OResume (a : Z) | OTimeout (a : Z) | OCancel (a : Z) | OClose.

Definition is_waiting (s : Sched) (a : Z) : bool := match heap s !! a with Some A => bool_decide (state A = STATE_WAITING) | None => false end.

Definition exec (s : Sched) (o : op) : option Sched :=
  match o with
  | OCreate a => if heap s !! a is Some _ then None else create s a
  | OYield b => a ← stack s !! 0%nat; yield s a b
  | OResume a => if is_waiting s a then resume s a else None
  | OTimeout a => if is_waiting s a then timeout s a else None
  | OCancel a => '(_, s) ← cancel s a; Some s
  | OClose => a ← stack s !! 0%nat; close s a
  end.

Fixpoint exec_all (s : Sched) (os : list op) : option Sched :=
  match os with [] => Some s | o :: os => s ← exec s o; exec_all s os end.

Lemma is_waiting_true s a : is_waiting s a = true -> exists A, heap s !! a = Some A /\ state A = STATE_WAITING.
Proof. unfold is_waiting. destruct (heap s !! a) as [A|]; [|done]. intros ?%bool_decide_eq_true. eauto. Qed.

Lemma exec_step s o s' : exec s o = Some s' -> step s s'.
Proof.
  destruct o as [a|b|a|a|a|]; cbn.
  - destruct (heap s !! a) eqn:E; [done|]. by apply step_create.
  - destruct (stack s) as [|a rest] eqn:E; [done|]. by eapply step_yield.
  - destruct (is_waiting s a) eqn:E; [|done]. apply is_waiting_true in E as (A & ? & ?). by eapply step_resume.
  - destruct (is_waiting s a) eqn:E; [|done]. apply is_waiting_true in E as (A & ? & ?). by eapply step_timeout.
  - destruct (cancel s a) as [[b s1]|] eqn:E; [|done]. cbn. intros [= <-]. destruct (heap s !! a) as [A|] eqn:EA; [by eapply step_cancel|].
    unfold cancel in E. by rewrite EA in E.
  - destruct (stack s) as [|a rest] eqn:E; [done|]. by eapply step_close.
Qed.

Lemma exec_reachable os s s' : reachable s -> exec_all s os = Some s' -> reachable s'.
Proof.
  revert s. induction os as [|o os IH]; cbn; intros s Hr H; [by simplify_eq|]. destruct (exec s o) as [s1|] eqn:E; [|done].
  apply (IH s1); [|done]. eapply rtc_r; [exact Hr|]. by eapply exec_step.
Qed.

(** Coroutine 10 starts 20, which waits, then 30, which is cancelled by 10 and ends;
    10 ends while 20 still waits. *)
Definition demo_ops : list op := [OCreate 10; OCreate 20; OYield true; OCreate 30; OYield true; OCancel 30; OClose; OClose].

Lemma coroutines_sound_witness : exists s, exec_all initial demo_ops = Some s /\ stack s = [] /\ is_waiting s 20 = true /\ never_stuck s.
Proof.
  eexists. split; [vm_compute; reflexivity|]. split; [reflexivity|]. split; [reflexivity|].
  apply coroutines_sound. eapply (exec_reachable demo_ops); [apply rtc_refl|]. vm_compute. reflexivity.
Defined.

Lemma yield_ex_answers_witness : exists s s', exec_all initial demo_ops = Some s /\ timeout s 20 = Some s' /\
  (D ← heap s' !! 20; Some (yield_ex_result D)) = Some false.
Proof.
  eexists _, _. split; [vm_compute; reflexivity|]. split; [vm_compute; reflexivity|].
  edestruct (fun s => yield_ex_answers s 20) as (_ & (s' & D & E & HD & Hy) & _); [eapply (exec_reachable demo_ops); [apply rtc_refl|vm_compute; reflexivity]|vm_compute; reflexivity|reflexivity|].
  vm_compute in E. injection E as <-. cbn [heap] in *. rewrite HD. cbn. by rewrite Hy.
Defined.
