(* ===== verification/Str.v ===== *)
(** * The byte buffer [String]

    [class String] of [src/core/string.cc] and [include/swoole_string.h]: a block
    of memory with the length that is in use and a working offset, which the
    receive loops of the protocols fill and cut.  The memory is the list of its
    bytes; an access outside of it has no result.  An allocation that fails makes
    the code throw before it changes the object; the model is the other case. *)

From S2P Require Import Prelude MemPool.

(** ** Definitions *)

(** What the code relies on of [Allocator::malloc]: memory of the size asked for,
    with any contents. *)
Class Allocator := {
  fresh : Z -> list Z;
  fresh_length n : 0 <= n -> zlen (fresh n) = n;
}.

#[export] Instance zero_allocator : Allocator.
Proof.
  refine {| fresh n := repeat 0 (Z.to_nat n) |}. intros n Hn. rewrite repeat_length. lia.
Defined.

(** [class String]; [allocator] says whether there is one *)
Record Str := mkStr { mem : list Z; slen : Z; ssize : Z; soff : Z; sallocator : bool }.

Section string.
Context `{Allocator}.

(** [Allocator::realloc] *)
Definition realloc (m : list Z) (n : Z) : list Z := take (Z.to_nat n) m ++ drop (length m) (fresh n).

(** [String::String()], [String::alloc] and [String::String(data, length)] *)
Definition empty_string : Str := mkStr [] 0 0 0 false.
Definition alloc (n : Z) : Str :=
  let n := u64 (aligned8 n) in mkStr (fresh n) 0 n 0 true.
Definition of_bytes (d : list Z) : option Str :=
  let s := alloc (u64 (zlen d + 1)) in
  m ← zblit (mem s) 0 d;
  m ← zset m (zlen d) 0;
  Some (mkStr m (zlen d) (ssize s) (soff s) true).

(** [String::copy] and [String::move], the latter with what is left of the source *)
Definition copy (src : Str) : option Str :=
  let s := alloc (ssize src) in
  d ← zsub (mem src) 0 (slen src);
  m ← zblit (mem s) 0 d;
  Some (mkStr m (slen src) (ssize s) (soff src) true).
Definition move (src : Str) : Str * Str :=
  (mkStr (mem src) (slen src) (ssize src) (soff src) (sallocator src), mkStr [] 0 0 0 (sallocator src)).

(** [String::reserve] *)
Definition reserve (s : Str) (new_size : Z) : option Str :=
  if ssize s =? 0 then Some (alloc new_size) else
  if negb (sallocator s) then None else
  let n := u64 (aligned8 new_size) in
  Some (mkStr (realloc (mem s) n) (slen s) n (soff s) true).
Definition reserve_for (s : Str) (new_size : Z) : option Str :=
  if ssize s <? new_size then reserve s new_size else Some s.

(** [String::extend(new_size)] and [String::extend_align] *)
Definition extend (s : Str) (new_size : Z) : option Str :=
  if ssize s <? new_size then reserve s new_size else None.
Fixpoint align_loop (fuel : nat) (a new_size : Z) : option Z :=
  if a <? new_size then match fuel with O => None | S fuel => align_loop fuel (u64 (a * 2)) new_size end else Some a.
Definition extend_align (s : Str) (new_size : Z) : option Str :=
  a ← align_loop 64 (u64 (aligned8 (u64 (ssize s * 2)))) new_size;
  reserve s a.

(** [String::append(data, length)], [String::append(const String &)] *)
Definition append (s : Str) (d : list Z) : option Str :=
  let new_size := u64 (slen s + zlen d) in
  s ← reserve_for s new_size;
  m ← zblit (mem s) (slen s) d;
  Some (mkStr m (u64 (slen s + zlen d)) (ssize s) (soff s) (sallocator s)).
Definition append_string (s a : Str) : option Str := d ← zsub (mem a) 0 (slen a); append s d.

(** [String::write] *)
Definition write (s : Str) (off : Z) (d : list Z) : option Str :=
  let new_length := u64 (off + zlen d) in
  s ← reserve_for s new_length;
  m ← zblit (mem s) off d;
  Some (mkStr m (if slen s <? new_length then new_length else slen s) (ssize s) (soff s) (sallocator s)).

(** [String::grow] *)
Definition grow (s : Str) (incr_value : Z) : option Str :=
  let s := mkStr (mem s) (u64 (slen s + incr_value)) (ssize s) (soff s) (sallocator s) in
  if (0 <? incr_value) && (ssize s <=? slen s) then reserve s (Z.max (u64 (ssize s * 2)) (slen s)) else Some s.

(** [String::substr] *)
Definition substr (s : Str) (off len : Z) : option Str :=
  if slen s <? u64 (off + len) then Some empty_string else
  d ← zsub (mem s) off len;
  append (alloc len) d.

(** [String::pop]: the old memory is handed to the caller *)
Definition pop (s : Str) (init_size : Z) : option (list Z * Str) :=
  if slen s <? soff s then None else
  if negb (sallocator s) then None else
  let len := slen s - soff s in
  let alloc_size := u64 (aligned8 (if len =? 0 then init_size else Z.max len init_size)) in
  m ← (if 0 <? len then d ← zsub (mem s) (soff s) len; zblit (fresh alloc_size) 0 d else Some (fresh alloc_size));
  Some (mem s, mkStr m len alloc_size 0 true).

(** [String::reduce] *)
Definition reduce (s : Str) (off : Z) : option Str :=
  if negb ((0 <=? off) && (off <=? slen s)) then None else
  if off =? 0 then Some s else
  let len := slen s - off in
  if len =? 0 then Some (mkStr (mem s) 0 (ssize s) 0 (sallocator s)) else
  d ← zsub (mem s) off len;
  m ← zblit (mem s) 0 d;
  Some (mkStr m len (ssize s) 0 (sallocator s)).

(** [String::release] *)
Definition release (s : Str) : list Z * Str := (mem s, mkStr [] 0 0 0 (sallocator s)).

(** [String::repeat] *)
Fixpoint append_loop (n : nat) (s : Str) (d : list Z) : option Str :=
  match n with O => Some s | S n => s ← append s d; append_loop n s d end.
Definition repeat_ (s : Str) (d : list Z) (n : Z) : option Str :=
  if negb (0 <? n) then None else
  if zlen d =? 1 then
    c ← zget d 0;
    s ← reserve_for s (u64 (slen s + n));
    m ← zblit (mem s) (slen s) (repeat c (Z.to_nat n));
    Some (mkStr m (u64 (slen s + n)) (ssize s) (soff s) (sallocator s))
  else append_loop (Z.to_nat n) s d.

(** [String::clear] and [String::set_null_terminated] *)
Definition clear (s : Str) : Str := mkStr (mem s) 0 (ssize s) 0 (sallocator s).
Definition set_null_terminated (s : Str) : option Str :=
  s ← (if slen s =? ssize s then extend s (u64 (slen s + 1)) else Some s);
  m ← zset (mem s) (slen s) 0;
  Some (mkStr m (slen s) (ssize s) (soff s) (sallocator s)).

(** [String::starts_with], [String::ends_with] and [String::equals] *)
Definition starts_with (s : Str) (needle : list Z) : option bool :=
  if slen s <? zlen needle then Some false else d ← zsub (mem s) 0 (zlen needle); Some (bool_decide (d = needle)).
Definition ends_with (s : Str) (needle : list Z) : option bool :=
  if slen s <? zlen needle then Some false else d ← zsub (mem s) (slen s - zlen needle) (zlen needle); Some (bool_decide (d = needle)).
Definition equals (s : Str) (data : list Z) : option bool :=
  if negb (slen s =? zlen data) then Some false else d ← zsub (mem s) 0 (zlen data); Some (bool_decide (d = data)).

(** [swoole_strnstr] from the position [p] of the memory [m] on *)
Fixpoint strnstr_loop (n : nat) (m : list Z) (p : Z) (needle : list Z) : option (option Z) :=
  match n with
  | O => Some None
  | S n =>
      c ← zget m p;
      d ← zget needle 0;
      if c =? d then
        w ← zsub m p (zlen needle);
        if decide (w = needle) then Some (Some p) else strnstr_loop n m (p + 1) needle
      else strnstr_loop n m (p + 1) needle
  end.
Definition strnstr (m : list Z) (p len : Z) (needle : list Z) : option (option Z) :=
  let haystack_length := u32 len in
  let needle_length := u32 (zlen needle) in
  if needle_length =? 0 then None else
  if needle_length <=? haystack_length
  then strnstr_loop (Z.to_nat (haystack_length - needle_length + 1)) m p needle else Some None.

Definition contains (s : Str) (needle : list Z) : option bool :=
  r ← strnstr (mem s) 0 (slen s) needle; Some (match r with Some _ => true | None => false end).

(** [String::split]; the handler works on a state of its own and says whether to go
    on.  [start] is [start_addr - str] and [off0] the variable [_offset]. *)
Section split.
Context {T : Type} (handler : T -> list Z -> T * bool).

Fixpoint split_loop (fuel : nat) (s : Str) (delimiter : list Z) (start off0 : Z) (t : T) (pos : option Z) : option (T * Z * Str) :=
  match pos with
  | Some p =>
      match fuel with
      | O => None
      | S fuel =>
          let len := p - start + zlen delimiter in
          d ← zsub (mem s) (start - off0) (len + off0);
          let '(t, go) := handler t d in
          if negb go then Some (t, -1, s) else
          let s := mkStr (mem s) (slen s) (ssize s) (soff s + len) (sallocator s) in
          let start := soff s in
          pos ← strnstr (mem s) start (slen s - soff s) delimiter;
          split_loop fuel s delimiter start 0 t pos
      end
  | None =>
      let s := if off0 =? soff s then mkStr (mem s) (slen s) (ssize s) (slen s - zlen delimiter) (sallocator s) else s in
      Some (t, start - off0, s)
  end.
Definition split (s : Str) (delimiter : list Z) (t : T) : option (T * Z * Str) :=
  pos ← strnstr (mem s) (soff s) (slen s - soff s) delimiter;
  split_loop (Z.to_nat (slen s) + 1) s delimiter (soff s) (soff s) t pos.
End split.
End string.

(** ** Programs *)

(** The bytes in use. *)
Definition contents (s : Str) : list Z := take (Z.to_nat (slen s)) (mem s).

Inductive sop :=
  | SAppend (d : list Z) | SWrite (off : Z) (d : list Z) | SReduce (off : Z) | SClear | SRepeat (d : list Z) (n : Z) | SNull
  | SSeek (off : Z) | SCopy | SPop (init_size : Z) | SSubstr (off len : Z)
  | SStarts (d : list Z) | SEnds (d : list Z) | SEquals (d : list Z) | SContains (d : list Z).

(** What an operation leaves and what it answers: bytes, or a boolean as [1] or
    [0].  [SSeek] sets the public field [offset]. *)
Definition bit (b : bool) : list Z := [if b then 1 else 0].
Definition str_step `{Allocator} (s : Str) (op : sop) : option (Str * list Z) :=
  match op with
  | SAppend d => s ← append s d; Some (s, [])
  | SWrite off d => s ← write s off d; Some (s, [])
  | SReduce off => s ← reduce s off; Some (s, [])
  | SClear => Some (clear s, [])
  | SRepeat d n => s ← repeat_ s d n; Some (s, [])
  | SNull => s ← set_null_terminated s; Some (s, [])
  | SSeek off => Some (mkStr (mem s) (slen s) (ssize s) off (sallocator s), [])
  | SCopy => s ← copy s; Some (s, [])
  | SPop n => '(m, s') ← pop s n; Some (s', take (Z.to_nat (soff s)) m)
  | SSubstr off len => r ← substr s off len; Some (s, contents r)
  | SStarts d => b ← starts_with s d; Some (s, bit b)
  | SEnds d => b ← ends_with s d; Some (s, bit b)
  | SEquals d => b ← equals s d; Some (s, bit b)
  | SContains d => b ← contains s d; Some (s, bit b)
  end.

Fixpoint str_run `{Allocator} (s : Str) (ops : list sop) : option (Str * list (list Z)) :=
  match ops with
  | [] => Some (s, [])
  | op :: ops => '(s, o) ← str_step s op; '(s, os) ← str_run s ops; Some (s, o :: os)
  end.

(** The same on a list of bytes with the working offset. *)
Fixpoint find (d l : list Z) : option nat :=
  if bool_decide (take (length d) l = d) then Some 0%nat else match l with [] => None | _ :: l => S <$> find d l end.
Definition occurs (d l : list Z) : bool := match find d l with Some _ => true | None => false end.

Definition spec_step (st : list Z * Z) (op : sop) : list Z * Z * list Z :=
  let '(l, o) := st in
  match op with
  | SAppend d => (l ++ d, o, [])
  | SWrite off d => (take (Z.to_nat off) l ++ d ++ drop (Z.to_nat off + length d) l, o, [])
  | SReduce off => (drop (Z.to_nat off) l, if off =? 0 then o else 0, [])
  | SClear => ([], 0, [])
  | SRepeat d n => (l ++ concat (repeat d (Z.to_nat n)), o, [])
  | SNull | SCopy => (l, o, [])
  | SSeek off => (l, off, [])
  | SPop _ => (drop (Z.to_nat o) l, 0, take (Z.to_nat o) l)
  | SSubstr off len => (l, o, if zlen l <? off + len then [] else take (Z.to_nat len) (drop (Z.to_nat off) l))
  | SStarts d => (l, o, bit (bool_decide (take (length d) l = d)))
  | SEnds d => (l, o, bit (bool_decide (drop (length l - length d) l = d)))
  | SEquals d => (l, o, bit (bool_decide (l = d)))
  | SContains d => (l, o, bit (occurs d l))
  end.

Fixpoint spec_run (st : list Z * Z) (ops : list sop) : list Z * Z * list (list Z) :=
  match ops with
  | [] => (st, [])
  | op :: ops => let '(st, o) := spec_step st op in let '(st, os) := spec_run st ops in (st, o :: os)
  end.

(** Calls within the bounds of the buffer, below the limits of [size_t]. *)
Definition max_len : Z := 2 ^ 62.

Definition op_ok (st : list Z * Z) (op : sop) : Prop :=
  let '(l, o) := st in
  match op with
  | SAppend d => zlen l + zlen d <= max_len
  | SWrite off d => 0 <= off <= zlen l /\ off + zlen d <= max_len
  | SReduce off => 0 <= off <= zlen l
  | SRepeat d n => 0 < n /\ zlen l + n * zlen d <= max_len
  | SSeek off => 0 <= off <= zlen l
  | SNull => zlen l < max_len
  | SPop n => o <= zlen l <= max_len /\ 0 < n <= max_len
  | SSubstr off len => 0 <= off /\ 0 <= len /\ off + len <= max_len
  | SContains d => 1 <= zlen d < 2 ^ 32 /\ zlen l < 2 ^ 32
  | _ => True
  end.

Fixpoint ops_ok (st : list Z * Z) (ops : list sop) : Prop :=
  match ops with
  | [] => True
  | op :: ops => op_ok st op /\ ops_ok (spec_step st op).1 ops
  end.

(** ** Lemmas *)

(** The invariant of the class. *)
Record str_wf (s : Str) : Prop := {
  st_mem : zlen (mem s) = ssize s;
  st_len : 0 <= slen s <= ssize s;
  st_size : ssize s < 2 ^ 63;
  st_alloc : ssize s = 0 \/ sallocator s = true;
  st_null : ssize s = 0 -> soff s = 0;
  st_align : (8 | ssize s);
}.

Lemma u64_id z : 0 <= z < 2 ^ 64 -> u64 z = z.
Proof. apply uN_small. Qed.

Lemma take_zlen {A} (l : list A) n : 0 <= n <= zlen l -> zlen (take (Z.to_nat n) l) = n.
Proof. intros. rewrite length_take. lia. Qed.

Section lemmas.
Context `{Allocator}.
Implicit Types (s : Str) (d : list Z).

Lemma contents_length s : str_wf s -> zlen (contents s) = slen s.
Proof. intros []. unfold contents. apply take_zlen. lia. Qed.

Lemma contents_sub s off n : str_wf s -> 0 <= off -> 0 <= n -> off + n <= slen s ->
  zsub (mem s) off n = Some (take (Z.to_nat n) (drop (Z.to_nat off) (contents s))).
Proof.
  intros [] ? ? ?. apply zsub_Some. split_and!; [lia..|]. unfold contents. rewrite skipn_firstn_comm, take_take. f_equal. lia.
Qed.

Lemma aligned_bound n : 0 <= n <= max_len -> u64 (aligned8 n) = aligned8 n /\ n <= aligned8 n < 2 ^ 63 /\ (8 | aligned8 n).
Proof.
  intros Hn. unfold max_len in Hn. pose proof (aligned8_spec n) as [? ?]. split; [|by split; [lia|]]. apply u64_id. lia.
Qed.

Lemma alloc_wf n : 0 <= n <= max_len -> str_wf (alloc n) /\ contents (alloc n) = [] /\ n <= ssize (alloc n).
Proof.
  intros Hn. destruct (aligned_bound n Hn) as (E & ? & ?). unfold alloc. rewrite E. split; [|split; [done|cbn; lia]].
  constructor; cbn; try done; try lia; try (by right). apply fresh_length. lia.
Qed.

(** [s'] has the contents of [s] in memory that may be larger. *)
Record resized s s' : Prop := {
  rz_wf : str_wf s';
  rz_contents : contents s' = contents s;
  rz_len : slen s' = slen s;
  rz_off : soff s' = soff s;
}.

Lemma resized_refl s : str_wf s -> resized s s.
Proof. by constructor. Qed.

Lemma realloc_contents m k n : 0 <= k <= zlen m -> k <= n -> take (Z.to_nat k) (realloc m n) = take (Z.to_nat k) m.
Proof.
  intros. unfold realloc. rewrite take_app_le by (rewrite length_take; lia). rewrite take_take. f_equal. lia.
Qed.

Lemma realloc_length m n : 0 <= n -> zlen (realloc m n) = n.
Proof. intros. unfold realloc. rewrite length_app, length_take, length_drop. pose proof (fresh_length n). lia. Qed.

Lemma reserve_ok s n : str_wf s -> 0 < n -> slen s <= n <= max_len -> exists s', reserve s n = Some s' /\ resized s s' /\ n <= ssize s'.
Proof.
  intros Hwf Hpos Hn. pose proof Hwf as []. unfold reserve. destruct (Z.eqb_spec (ssize s) 0) as [E|E].
  - destruct (alloc_wf n) as (? & ? & ?); [lia|]. eexists. split; [done|]. split; [|done]. assert (slen s = 0) as E0 by lia. constructor; [done| |cbn; lia|].
    + unfold contents in *. by rewrite E0.
    + cbn. symmetry. auto.
  - destruct st_alloc0 as [?| ->]; [done|]. cbn [negb]. destruct (aligned_bound n) as (-> & ? & ?); [lia|]. eexists. split; [done|]. split; [|cbn; lia]. constructor; cbn; try done.
    + constructor; cbn; try done; try lia; try (by right). apply realloc_length. lia.
    + unfold contents. cbn. apply realloc_contents; lia.
Qed.

Lemma reserve_for_ok s n : str_wf s -> n <= max_len -> slen s <= n \/ n <= ssize s ->
  exists s', reserve_for s n = Some s' /\ resized s s' /\ n <= ssize s'.
Proof.
  intros Hwf Hn Hl. pose proof (st_len _ Hwf). unfold reserve_for. destruct (Z.ltb_spec (ssize s) n).
  - apply reserve_ok; [done|lia|lia].
  - exists s. split; [done|]. split; [by apply resized_refl|lia].
Qed.

Lemma blit_take {A} (m d : list A) (o l n : nat) : (o <= l <= length m)%nat -> n = (l `max` (o + length d))%nat ->
  take n (take o m ++ d ++ drop (o + length d) m) = take o (take l m) ++ d ++ drop (o + length d) (take l m).
Proof.
  intros Ho ->. rewrite !take_app, !length_take, !take_take, skipn_firstn_comm. f_equal; [f_equal; lia|]. f_equal.
  - apply take_ge. lia.
  - f_equal. lia.
Qed.

(** Bytes written into the memory at [off], at most at the end of the contents. *)
Lemma blit_contents s off d m len : str_wf s -> 0 <= off <= slen s -> zblit (mem s) off d = Some m ->
  len = Z.max (slen s) (off + zlen d) ->
  str_wf (mkStr m len (ssize s) (soff s) (sallocator s)) /\
  contents (mkStr m len (ssize s) (soff s) (sallocator s)) = take (Z.to_nat off) (contents s) ++ d ++ drop (Z.to_nat off + length d) (contents s).
Proof.
  intros [] Ho Hm ->. pose proof (zblit_length _ _ _ _ Hm) as Hl. apply zblit_Some in Hm as (_ & Hb & ->). split.
  - constructor; cbn [mem slen ssize soff sallocator]; try done; lia.
  - unfold contents. cbn [mem slen]. apply blit_take; lia.
Qed.

Lemma append_ok s d : str_wf s -> slen s + zlen d <= max_len ->
  exists s', append s d = Some s' /\ str_wf s' /\ contents s' = contents s ++ d /\ slen s' = slen s + zlen d /\ soff s' = soff s.
Proof.
  intros Hwf Hb. pose proof (st_len _ Hwf). unfold append. unfold max_len in *. rewrite (u64_id (slen s + zlen d)) by lia.
  destruct (reserve_for_ok s (slen s + zlen d)) as (s1 & -> & [Hwf1 Hc1 Hl1 Ho1] & Hs1); [done|unfold max_len; lia|left; lia|]. cbn [mbind option_bind].
  destruct (zblit_in_bounds (mem s1) (slen s1) d) as (m & Hm); [lia|pose proof (st_mem _ Hwf1); lia|]. rewrite Hm. cbn [mbind option_bind]. rewrite Hl1 in *.
  rewrite (u64_id (slen s + zlen d)) by lia. eexists. split; [done|].
  destruct (blit_contents s1 (slen s1) d m (slen s + zlen d)) as [? E]; [done|lia|by rewrite Hl1|lia|]. split; [done|]. rewrite E, Hc1. split; [|done].
  pose proof (contents_length _ Hwf). rewrite take_ge, drop_ge, app_nil_r by lia. done.
Qed.

Lemma write_ok s off d : str_wf s -> 0 <= off <= slen s -> off + zlen d <= max_len ->
  exists s', write s off d = Some s' /\ str_wf s' /\ soff s' = soff s /\
    contents s' = take (Z.to_nat off) (contents s) ++ d ++ drop (Z.to_nat off + length d) (contents s).
Proof.
  intros Hwf Ho Hb. pose proof (st_len _ Hwf). unfold write. unfold max_len in *. rewrite (u64_id (off + zlen d)) by lia.
  destruct (reserve_for_ok s (off + zlen d)) as (s1 & -> & [Hwf1 Hc1 Hl1 Ho1] & Hs1); [done|unfold max_len; lia|lia|]. cbn [mbind option_bind].
  destruct (zblit_in_bounds (mem s1) off d) as (m & Hm); [lia|pose proof (st_mem _ Hwf1); lia|]. rewrite Hm. cbn [mbind option_bind].
  eexists. split; [done|]. destruct (blit_contents s1 off d m (if slen s1 <? off + zlen d then off + zlen d else slen s1)) as [? E]; [done|lia|done| |].
  { destruct (Z.ltb_spec (slen s1) (off + zlen d)); lia. }
  split; [done|]. split; [done|]. by rewrite E, Hc1.
Qed.

Lemma reduce_ok s off : str_wf s -> 0 <= off <= slen s ->
  exists s', reduce s off = Some s' /\ str_wf s' /\ contents s' = drop (Z.to_nat off) (contents s) /\ ssize s' = ssize s /\
    soff s' = (if off =? 0 then soff s else 0) /\ slen s' = slen s - off.
Proof.
  intros Hwf Ho. pose proof (contents_length _ Hwf). pose proof Hwf as []. unfold reduce.
  destruct (Z.leb_spec 0 off), (Z.leb_spec off (slen s)); try lia. cbn [andb negb]. destruct (Z.eqb_spec off 0) as [->|Hne].
  { exists s. split_and!; try done. lia. }
  destruct (Z.eqb_spec (slen s - off) 0) as [E|E].
  { eexists. split; [done|]. split; [constructor; cbn; try done; lia|]. rewrite (drop_ge (contents s)) by lia. cbn. split_and!; done || lia. }
  rewrite (contents_sub s off (slen s - off)) by (done || lia). cbn [mbind option_bind]. rewrite (take_ge (drop _ _)) by (rewrite length_drop; lia).
  destruct (zblit_in_bounds (mem s) 0 (drop (Z.to_nat off) (contents s))) as (m & Hm); [lia|rewrite length_drop; lia|]. rewrite Hm. cbn [mbind option_bind].
  pose proof (zblit_length _ _ _ _ Hm). apply zblit_Some in Hm as (_ & Hb & Hm). eexists. split; [done|].
  split; [constructor; cbn; try done; lia|]. split_and!; try done. unfold contents at 1. cbn [mem slen]. rewrite Hm. change (Z.to_nat 0) with 0%nat. rewrite take_0. cbn [app Nat.add].
  rewrite take_app_le by (rewrite length_drop; lia). apply take_ge. rewrite length_drop. lia.
Qed.

Lemma clear_ok s : str_wf s -> str_wf (clear s) /\ contents (clear s) = [].
Proof. intros []. split; [|done]. constructor; cbn; try done; lia. Qed.

Lemma append_loop_ok n s d : str_wf s -> slen s + Z.of_nat n * zlen d <= max_len ->
  exists s', append_loop n s d = Some s' /\ str_wf s' /\ contents s' = contents s ++ concat (repeat d n) /\ soff s' = soff s.
Proof.
  revert s. induction n as [|n IH]; intros s Hwf Hb; cbn [append_loop repeat concat].
  - exists s. rewrite app_nil_r. done.
  - destruct (append_ok s d) as (s1 & -> & Hwf1 & Hc1 & Hl1 & Ho1); [done|lia|]. cbn [mbind option_bind].
    destruct (IH s1) as (s2 & -> & ? & E & ?); [done|lia|]. exists s2. rewrite E, Hc1, app_assoc. split_and!; try done. congruence.
Qed.

Lemma concat_repeat_one {A} (c : A) n : concat (repeat [c] n) = repeat c n.
Proof. induction n; cbn; [done|by f_equal]. Qed.

Lemma repeat_ok s d n : str_wf s -> 0 < n -> slen s + n * zlen d <= max_len ->
  exists s', repeat_ s d n = Some s' /\ str_wf s' /\ contents s' = contents s ++ concat (repeat d (Z.to_nat n)) /\ soff s' = soff s.
Proof.
  intros Hwf Hn Hb. unfold repeat_. destruct (Z.ltb_spec 0 n); [|lia]. cbn [negb]. destruct (Z.eqb_spec (zlen d) 1) as [E|E].
  - destruct d as [|c [|? ?]]; cbn [length] in *; try lia. change (zget [c] 0) with (Some c). cbn [mbind option_bind]. rewrite concat_repeat_one.
    pose proof (append_ok s (repeat c (Z.to_nat n)) Hwf) as Ha. unfold append in Ha. rewrite repeat_length, Z2Nat.id in Ha by lia.
    destruct Ha as (s' & Ea & ? & ? & _ & ?); [lia|]. exists s'. done.
  - apply append_loop_ok; [done|]. rewrite Z2Nat.id by lia. done.
Qed.

Lemma set_null_ok s : str_wf s -> slen s < max_len ->
  exists s', set_null_terminated s = Some s' /\ str_wf s' /\ contents s' = contents s /\ soff s' = soff s /\ 0 < ssize s'.
Proof.
  intros Hwf Hb. pose proof (st_len _ Hwf). unfold set_null_terminated, extend, max_len in *.
  assert (exists s1, (if slen s =? ssize s then if ssize s <? u64 (slen s + 1) then reserve s (u64 (slen s + 1)) else None else Some s) = Some s1 /\
    resized s s1 /\ slen s < ssize s1) as (s1 & -> & [Hwf1 Hc1 Hl1 Ho1] & Hs1).
  { rewrite u64_id by lia. destruct (Z.eqb_spec (slen s) (ssize s)); [|exists s; split_and!; [done|by apply resized_refl|lia]].
    destruct (Z.ltb_spec (ssize s) (slen s + 1)); [|lia]. destruct (reserve_ok s (slen s + 1)) as (s1 & -> & ? & ?); [done|lia|unfold max_len; lia|].
    exists s1. split_and!; [done|done|lia]. }
  cbn [mbind option_bind]. pose proof Hwf1 as []. destruct (zset_in (mem s1) (slen s1) 0) as (m & Hm & Hlm); [lia|]. rewrite Hm. cbn [mbind option_bind].
  eexists. split; [done|]. split_and!; cbn; try done; [constructor; cbn; try done; lia| |lia].
  rewrite <- Hc1. unfold contents. cbn. apply zset_Some in Hm as [_ ->]. rewrite take_insert_ge; [done|lia].
Qed.

Lemma copy_ok s : str_wf s -> exists s', copy s = Some s' /\ str_wf s' /\ contents s' = contents s /\ soff s' = soff s /\ ssize s' = ssize s.
Proof.
  intros Hwf. pose proof Hwf as []. unfold copy, alloc.
  assert (u64 (aligned8 (ssize s)) = ssize s) as ->.
  { destruct st_align0 as [k Hk]. rewrite aligned8_eq, Hk. replace ((k * 8 + 7) / 8) with k by (apply (Z.div_unique _ _ _ 7); lia). rewrite Z.mul_comm. apply u64_id. lia. }
  cbn [mem ssize soff]. rewrite (contents_sub s 0 (slen s)) by (done || lia). cbn [mbind option_bind]. rewrite drop_0, (take_ge (contents s)) by (pose proof (contents_length s Hwf); lia).
  pose proof (fresh_length (ssize s) ltac:(lia)) as Hf. pose proof (contents_length s Hwf) as Hcl.
  destruct (zblit_in_bounds (fresh (ssize s)) 0 (contents s)) as (m & Hm); [lia|lia|]. rewrite Hm. cbn [mbind option_bind].
  pose proof (zblit_length _ _ _ _ Hm). apply zblit_Some in Hm as (_ & _ & Hm). eexists. split; [done|].
  split_and!; try done; [constructor; cbn; try done; try lia; by right|]. unfold contents at 1. cbn [mem slen]. rewrite Hm. change (Z.to_nat 0) with 0%nat. rewrite take_0. cbn [app].
  rewrite take_app_le by lia. apply take_ge. lia.
Qed.

Lemma pop_ok s n : str_wf s -> 0 < ssize s -> 0 <= soff s <= slen s -> slen s <= max_len -> 0 < n <= max_len ->
  exists s', pop s n = Some (mem s, s') /\ str_wf s' /\ contents s' = drop (Z.to_nat (soff s)) (contents s) /\ soff s' = 0 /\ 0 < ssize s'.
Proof.
  intros Hwf Hs Ho Hl Hn. pose proof Hwf as []. unfold pop. destruct (Z.ltb_spec (slen s) (soff s)); [lia|]. destruct st_alloc0 as [?| ->]; [lia|]. cbn [negb].
  set (k := if slen s - soff s =? 0 then n else Z.max (slen s - soff s) n).
  assert (0 < k <= max_len /\ slen s - soff s <= k) as Hk by (unfold k; destruct (Z.eqb_spec (slen s - soff s) 0); lia).
  destruct (aligned_bound k) as (-> & ? & ?); [lia|]. pose proof (fresh_length (aligned8 k) ltac:(lia)) as Hf. pose proof (contents_length s Hwf) as Hcl.
  destruct (Z.ltb_spec 0 (slen s - soff s)) as [Hlt|Hge].
  - rewrite (contents_sub s) by (done || lia). cbn [mbind option_bind]. rewrite (take_ge (drop _ _)) by (rewrite length_drop; lia).
    destruct (zblit_in_bounds (fresh (aligned8 k)) 0 (drop (Z.to_nat (soff s)) (contents s))) as (m & Hm); [lia|rewrite length_drop; lia|]. rewrite Hm. cbn [mbind option_bind].
    pose proof (zblit_length _ _ _ _ Hm). apply zblit_Some in Hm as (_ & _ & Hm). eexists. split; [done|]. split_and!; cbn; try done; try lia; [constructor; cbn; try done; try lia; by right|].
    unfold contents at 1. cbn [mem slen]. rewrite Hm. change (Z.to_nat 0) with 0%nat. rewrite take_0. cbn [app]. rewrite take_app_le by (rewrite length_drop; lia). apply take_ge. rewrite length_drop. lia.
  - cbn [mbind option_bind]. eexists. split; [done|]. split_and!; cbn; try done; try lia; [constructor; cbn; try done; try lia; by right|].
    unfold contents at 1. cbn [mem slen]. rewrite (drop_ge (contents s)) by lia. replace (slen s - soff s) with 0 by lia. done.
Qed.

Lemma substr_ok s off len : str_wf s -> 0 <= off -> 0 <= len -> off + len <= max_len ->
  exists r, substr s off len = Some r /\ str_wf r /\ contents r = if slen s <? off + len then [] else take (Z.to_nat len) (drop (Z.to_nat off) (contents s)).
Proof.
  intros Hwf Ho Hl Hb. unfold substr. rewrite u64_id by (unfold max_len in *; lia). destruct (Z.ltb_spec (slen s) (off + len)).
  - exists empty_string. split; [done|]. split; [|done]. constructor; cbn; try done; try lia; by exists 0.
  - rewrite (contents_sub s) by (done || lia). cbn [mbind option_bind]. destruct (alloc_wf len) as (Ha & Ec & _); [lia|].
    destruct (append_ok (alloc len) (take (Z.to_nat len) (drop (Z.to_nat off) (contents s)))) as (r & -> & ? & E & _); [done|cbn; rewrite length_take; lia|].
    exists r. split; [done|]. split; [done|]. by rewrite E, Ec.
Qed.

(** ** Searching *)

Lemma find_short d l : (length l < length d)%nat -> find d l = None.
Proof.
  induction l as [|x l IH]; intros Hl; cbn [find]; (rewrite bool_decide_eq_false_2; [|intros E; apply (f_equal length) in E; rewrite length_take in E; lia]).
  - done.
  - rewrite IH; [done|]. cbn in Hl. lia.
Qed.

Lemma strnstr_loop_spec n m p d l : d <> [] -> zsub m p (Z.of_nat n + zlen d - 1) = Some l ->
  strnstr_loop n m p d = Some ((fun i => p + Z.of_nat i) <$> find d l).
Proof.
  intros Hd. revert p l. induction n as [|n IH]; intros p l Hl.
  - cbn [strnstr_loop]. rewrite find_short; [done|]. apply zsub_length in Hl. lia.
  - cbn [strnstr_loop]. pose proof (zsub_length _ _ _ _ Hl) as Hlen. destruct d as [|d0 d]; [done|]. cbn [length] in *. destruct l as [|x l]; [cbn in Hlen; lia|].
    assert (zget m p = Some x) as Hx. { rewrite <- (Z.add_0_r p). rewrite (zsub_zget _ _ _ _ 0 Hl) by lia. done. }
    assert (zsub m p (zlen (d0 :: d)) = Some (take (length (d0 :: d)) (x :: l))) as Hw.
    { rewrite <- (Z.add_0_r p) at 1. rewrite <- (zsub_zsub _ _ _ _ 0 (zlen (d0 :: d)) Hl) by (cbn [length]; lia). apply zsub_Some. cbn [length] in *. split_and!; [lia..|].
      rewrite drop_0. f_equal. lia. }
    assert (zsub m (p + 1) (Z.of_nat n + Z.of_nat (S (length d)) - 1) = Some l) as Hl'.
    { rewrite <- (zsub_zsub _ _ _ _ 1 _ Hl) by lia. apply zsub_Some. cbn [length] in *. split_and!; [lia..|]. change (drop (Z.to_nat 1) (x :: l)) with (drop 0 l). rewrite drop_0, take_ge by lia. done. }
    rewrite Hx. cbn [mbind option_bind]. change (zget (d0 :: d) 0) with (Some d0). cbn [mbind option_bind]. cbn [length] in Hw. rewrite Hw. cbn [mbind option_bind].
    cbn [find length]. specialize (IH (p + 1) l Hl'). destruct (Z.eqb_spec x d0) as [->|Hne].
    + destruct (decide (take (S (length d)) (d0 :: l) = d0 :: d)) as [E|E].
      * rewrite bool_decide_eq_true_2 by done. cbn. f_equal. f_equal. lia.
      * rewrite bool_decide_eq_false_2 by done. rewrite IH. destruct (find (d0 :: d) l); cbn; do 2 f_equal; lia.
    + rewrite bool_decide_eq_false_2 by (cbn; congruence). rewrite IH. destruct (find (d0 :: d) l); cbn; do 2 f_equal; lia.
Qed.

Lemma strnstr_spec s p d : str_wf s -> 1 <= zlen d < 2 ^ 32 -> slen s < 2 ^ 32 -> 0 <= p <= slen s ->
  strnstr (mem s) p (slen s - p) d = Some ((fun i => p + Z.of_nat i) <$> find d (drop (Z.to_nat p) (contents s))).
Proof.
  intros Hwf Hd Hs Hp. unfold strnstr. rewrite !uN_small by (unfold fits; lia). destruct (Z.eqb_spec (zlen d) 0); [lia|].
  pose proof (contents_length s Hwf) as Hcl. destruct (Z.leb_spec (zlen d) (slen s - p)).
  - apply strnstr_loop_spec; [by destruct d|]. rewrite (contents_sub s) by (done || lia). f_equal. rewrite take_ge; [done|]. rewrite length_drop. lia.
  - rewrite find_short; [done|]. rewrite length_drop. lia.
Qed.
End lemmas.

(** ** Refinement *)

Section refinement.
Context `{Allocator}.

(** [s] is in memory and stands for the bytes [st.1] with the offset [st.2]. *)
Definition stands (s : Str) (st : list Z * Z) : Prop := str_wf s /\ 0 < ssize s /\ contents s = st.1 /\ soff s = st.2 /\ 0 <= soff s.

Lemma stands_resized (s' : Str) (l : list Z) o : str_wf s' -> contents s' = l -> soff s' = o -> 0 <= o -> 0 < slen s' \/ 0 < ssize s' -> stands s' (l, o).
Proof. intros Hwf <- <- Ho Hs. pose proof (st_len _ Hwf). split_and!; try done. lia. Qed.

Lemma reserve_for_size s n s' : 0 < ssize s -> reserve_for s n = Some s' -> str_wf s' -> n <= ssize s' -> 0 < ssize s'.
Proof.
  intros Hs E Hwf Hn. unfold reserve_for in E. destruct (Z.ltb_spec (ssize s) n); [lia|]. by simplify_eq.
Qed.

(** Memory never shrinks to nothing. *)
Lemma append_size s d s' : str_wf s -> slen s + zlen d <= max_len -> 0 < ssize s -> append s d = Some s' -> 0 < ssize s'.
Proof.
  intros Hwf Hb Hs E. unfold append in E. pose proof (st_len _ Hwf). rewrite u64_id in E by (unfold max_len in *; lia).
  destruct (reserve_for_ok s (slen s + zlen d)) as (s1 & E1 & [] & ?); [done|done|left; lia|]. rewrite E1 in E. cbn [mbind option_bind] in E. inv_bind. simplify_eq. cbn.
  by eapply reserve_for_size.
Qed.

Lemma append_loop_size n s d s' : str_wf s -> slen s + Z.of_nat n * zlen d <= max_len -> 0 < ssize s -> append_loop n s d = Some s' -> 0 < ssize s'.
Proof.
  revert s. induction n as [|n IH]; intros s Hwf Hb Hs E; cbn [append_loop] in E; [by simplify_eq|].
  destruct (append_ok s d) as (s1 & E1 & Hwf1 & _ & Hl1 & _); [done|lia|]. rewrite E1 in E. cbn [mbind option_bind] in E.
  apply (IH s1); [done|lia| |done]. eapply append_size; [exact Hwf| |exact Hs|exact E1]. lia.
Qed.

Lemma write_size s off d s' : str_wf s -> 0 <= off <= slen s -> off + zlen d <= max_len -> 0 < ssize s -> write s off d = Some s' -> 0 < ssize s'.
Proof.
  intros Hwf Ho Hb Hs E. unfold write in E. pose proof (st_len _ Hwf). rewrite u64_id in E by (unfold max_len in *; lia).
  destruct (reserve_for_ok s (off + zlen d)) as (s1 & E1 & [] & ?); [done|done|lia|]. rewrite E1 in E. cbn [mbind option_bind] in E. inv_bind. simplify_eq. cbn.
  by eapply reserve_for_size.
Qed.

Lemma repeat_size s d n s' : str_wf s -> 0 < n -> slen s + n * zlen d <= max_len -> 0 < ssize s -> repeat_ s d n = Some s' -> 0 < ssize s'.
Proof.
  intros Hwf Hn Hb Hs E. unfold repeat_ in E. destruct (Z.ltb_spec 0 n); [|lia]. cbn [negb] in E. pose proof (st_len _ Hwf). destruct (Z.eqb_spec (zlen d) 1) as [Ed|Ed].
  - destruct d as [|c [|? ?]]; cbn [length] in *; try lia. change (zget [c] 0) with (Some c) in E. cbn [mbind option_bind] in E. rewrite u64_id in E by (unfold max_len in *; lia).
    destruct (reserve_for_ok s (slen s + n)) as (s1 & E1 & [] & ?); [done|lia|left; lia|]. rewrite E1 in E. cbn [mbind option_bind] in E. inv_bind. simplify_eq. cbn.
    by eapply reserve_for_size.
  - eapply append_loop_size; [exact Hwf| |exact Hs|exact E]. rewrite Z2Nat.id by lia. done.
Qed.

Lemma str_step_ok s st op : stands s st -> op_ok st op ->
  exists s' o, str_step s op = Some (s', o) /\ stands s' (spec_step st op).1 /\ o = (spec_step st op).2.
Proof.
  destruct st as [l o]. intros (Hwf & Hs & El & Eoff & Hoff) Hok. cbn [fst snd] in *. subst l o. pose proof (contents_length s Hwf) as Hcl. pose proof (st_len _ Hwf).
  destruct op; cbn [str_step spec_step op_ok fst snd] in *; rewrite ?Hcl in *.
  - destruct (append_ok s d) as (s' & E & ? & Ec & ? & Eo); [done|lia|]. pose proof (append_size _ _ _ Hwf Hok Hs E). rewrite E. eexists _, _. split; [done|]. by split; [apply stands_resized|]; auto.
  - destruct Hok. destruct (write_ok s off d) as (s' & E & ? & Eo & Ec); [done|lia|lia|]. assert (0 < ssize s') by (eapply (write_size s off d); eauto).
    rewrite E. eexists _, _. split; [done|]. by split; [apply stands_resized|]; auto.
  - destruct (reduce_ok s off) as (s' & E & ? & Ec & Es & Eo & ?); [done|lia|]. rewrite E. eexists _, _. split; [done|]. split; [|done].
    apply stands_resized; try done; [destruct (off =? 0); lia|right; lia].
  - eexists _, _. split; [done|]. split; [|done]. destruct (clear_ok s Hwf). by apply stands_resized; auto.
  - destruct Hok. destruct (repeat_ok s d n) as (s' & E & ? & Ec & Eo); [done|lia|lia|]. assert (0 < ssize s') by (eapply (repeat_size s d n); eauto).
    rewrite E. eexists _, _. split; [done|]. by split; [apply stands_resized|]; auto.
  - destruct (set_null_ok s) as (s' & E & ? & Ec & Eo & ?); [done|lia|]. rewrite E. eexists _, _. split; [done|]. by split; [apply stands_resized|]; auto.
  - eexists _, _. split; [done|]. split; [|done]. split_and!; try done; [|cbn; lia]. destruct Hwf. constructor; cbn; try done. lia.
  - destruct (copy_ok s Hwf) as (s' & E & ? & Ec & Eo & Es). rewrite E. eexists _, _. split; [done|]. split; [|done]. apply stands_resized; try done. right. lia.
  - destruct Hok. destruct (pop_ok s init_size) as (s' & E & ? & Ec & Eo & ?); [done|lia|lia|lia|lia|]. rewrite E. cbn [mbind option_bind]. eexists _, _. split; [done|].
    split; [by apply stands_resized; auto|]. unfold contents. rewrite take_take. f_equal. lia.
  - destruct Hok as (? & ? & ?). destruct (substr_ok s off len) as (r & E & ? & Ec); [done|lia|lia|lia|]. rewrite E. eexists _, _. split; [done|]. done.
  - unfold starts_with. destruct (Z.ltb_spec (slen s) (zlen d)).
    + eexists _, _. split; [done|]. split; [done|]. rewrite bool_decide_eq_false_2; [done|]. intros E%(f_equal length). rewrite length_take in E. lia.
    + rewrite (contents_sub s) by (done || lia). cbn [mbind option_bind]. eexists _, _. split; [done|]. split; [done|]. by rewrite Nat2Z.id.
  - unfold ends_with. destruct (Z.ltb_spec (slen s) (zlen d)).
    + eexists _, _. split; [done|]. split; [done|]. rewrite bool_decide_eq_false_2; [done|]. intros E%(f_equal length). rewrite length_drop in E. lia.
    + rewrite (contents_sub s) by (done || lia). cbn [mbind option_bind]. eexists _, _. split; [done|]. split; [done|]. rewrite take_ge by (rewrite length_drop; lia).
      replace (Z.to_nat (slen s - zlen d)) with (length (contents s) - length d)%nat by lia. done.
  - unfold equals. destruct (Z.eqb_spec (slen s) (zlen d)) as [E|E]; cbn [negb].
    + rewrite (contents_sub s) by (done || lia). cbn [mbind option_bind]. eexists _, _. split; [done|]. split; [done|]. rewrite drop_0, take_ge by lia. done.
    + eexists _, _. split; [done|]. split; [done|]. rewrite bool_decide_eq_false_2; [done|]. intros Ed%(f_equal length). lia.
  - destruct Hok. unfold contains, occurs. pose proof (strnstr_spec s 0 d Hwf) as E. rewrite Z.sub_0_r, drop_0 in E. rewrite E by lia. cbn [mbind option_bind].
    eexists _, _. split; [done|]. split; [done|]. by destruct (find d (contents s)).
Qed.
End refinement.

(** ** Properties *)

(** C35: a [String] is a list of bytes: every program of calls within the bounds
    returns, keeps the invariant of the class, and leaves and answers what the same
    program does on a list; for every allocator. *)
Theorem string_refines `{Allocator} n ops : 0 < n <= max_len -> ops_ok ([], 0) ops ->
  exists s outs, str_run (alloc n) ops = Some (s, outs) /\ str_wf s /\
    (contents s, soff s, outs) = spec_run ([], 0) ops.
Proof.
  intros Hn. assert (stands (alloc n) ([], 0)) as Hs.
  { destruct (alloc_wf n) as (? & ? & ?); [lia|]. split_and!; done || lia. }
  revert Hs. generalize (alloc n) as s, (@nil Z, 0) as st. induction ops as [|op ops IH]; intros s st Hs Hok; cbn [str_run spec_run].
  - exists s, []. destruct st as [l o], Hs as (? & _ & ? & ? & _). cbn in *. split_and!; try done. congruence.
  - destruct Hok as [Hop Hok]. destruct (str_step_ok s st op Hs Hop) as (s1 & o1 & -> & Hs1 & ->). cbn [mbind option_bind].
    destruct (spec_step st op) as [st1 o1]. cbn [fst snd] in *. destruct (IH s1 st1 Hs1 Hok) as (s2 & outs & -> & Hwf2 & E). cbn [mbind option_bind].
    destruct (spec_run st1 ops) as [st2 os]. eexists _, _. split; [done|]. split; [done|]. by simplify_eq.
Qed.

Definition demo_sops : list sop :=
  [SAppend [1; 2; 3]; SRepeat [7] 2; SWrite 1 [9; 9]; SContains [9; 7]; SSubstr 3 2; SReduce 2; SSeek 1; SPop 4; SEnds [7]; SNull].

Lemma string_refines_witness :
  exists s outs, str_run (alloc 2) demo_sops = Some (s, outs) /\ contents s = [7; 7] /\ outs !! 3%nat = Some [1] /\
    (contents s, soff s, outs) = spec_run ([], 0) demo_sops.
Proof.
  destruct (string_refines 2 demo_sops) as (s & outs & E & _ & Hr); [unfold max_len; lia|vm_compute; intuition (discriminate || reflexivity)|].
  exists s, outs. split; [exact E|]. rewrite Hr. change (spec_run ([], 0) demo_sops) with (([7; 7], 0, (spec_run ([], 0) demo_sops).2) : list Z * Z * list (list Z)) in Hr.
  injection Hr as -> _ ->. split; [reflexivity|]. split; reflexivity.
Defined.
