(* ===== verification/Protocol.v ===== *)
(** * Receiving packets: the connection, and packets that end with a mark

    [Protocol::recv_with_eof_protocol] and [Protocol::recv_split_by_eof] of
    [src/protocol/base.cc], which cut the stream of a connection at each
    occurrence of an end mark.  The connection is what the receive loops see of
    it: the buffer, the packets given to [onPackage] so far, the bytes that the
    peer sent and that were not read, and a script that says what the calls of
    [Socket::recv] find: at most so many of these bytes, an error, or the end. *)

From S2P Require Import Prelude MemPool Str.

(** ** Definitions *)

(** The results of the receive functions, and [Socket::catch_error] *)
Definition SW_OK : Z := 0.
Definition SW_ERR : Z := -1.

Inductive errno :=
  | EFAULT | EBADF | ENOENT | ECONNRESET | ECONNABORTED | EPIPE | ENOTCONN | ETIMEDOUT | ECONNREFUSED | ENETDOWN
  | ENETUNREACH | EHOSTDOWN | EHOSTUNREACH | SSL_BAD_CLIENT | SSL_RESET | EAGAIN | NO_ERROR | ENOBUFS | EOTHER.
Inductive ReturnCode := SW_INVALID | SW_CLOSE | SW_WAIT | SW_ERROR.

(** [abort] is no result *)
Definition catch_error (err : errno) : option ReturnCode :=
  match err with
  | EFAULT => None
  | EBADF | ENOENT => Some SW_INVALID
  | ECONNRESET | ECONNABORTED | EPIPE | ENOTCONN | ETIMEDOUT | ECONNREFUSED | ENETDOWN | ENETUNREACH | EHOSTDOWN
  | EHOSTUNREACH | SSL_BAD_CLIENT | SSL_RESET => Some SW_CLOSE
  | EAGAIN | NO_ERROR | ENOBUFS => Some SW_WAIT
  | EOTHER => Some SW_ERROR
  end.

(** What the receive loops do with an error of [recv] *)
Definition recv_failed (err : errno) : option Z :=
  r ← catch_error err; Some (match r with SW_CLOSE => SW_ERR | _ => SW_OK end).

Inductive answer := Take (k : Z) | Shut | Fail (err : errno).

(** What the loops use of [struct Socket], with the environment *)
Record Conn := mkConn {
  buffer : Str;
  recv_wait : bool;
  skip_recv : bool;
  removed : bool;
  packets : list (list Z);
  input : list Z;
  script : list answer;
}.

Definition with_buffer c b := mkConn b (recv_wait c) (skip_recv c) (removed c) (packets c) (input c) (script c).
Definition with_wait c w := mkConn (buffer c) w (skip_recv c) (removed c) (packets c) (input c) (script c).
Definition with_skip c w := mkConn (buffer c) (recv_wait c) w (removed c) (packets c) (input c) (script c).
Definition with_env c i s := mkConn (buffer c) (recv_wait c) (skip_recv c) (removed c) (packets c) i s.
Definition with_packet c p r := mkConn (buffer c) (recv_wait c) (skip_recv c) r (packets c ++ [p]) (input c) (script c).
Definition with_offset (s : Str) o := mkStr (mem s) (slen s) (ssize s) o (sallocator s).

(** [Socket::recv] of at most [n] bytes *)
Definition recv (c : Conn) (n : Z) : (errno + list Z) * Conn :=
  match script c with
  | [] => (inl EAGAIN, c)
  | Fail e :: sc => (inl e, with_env c (input c) sc)
  | Shut :: sc => (inr [], with_env c (input c) sc)
  | Take k :: sc =>
      if n =? 0 then (inr [], with_env c (input c) sc) else
      match input c with
      | [] => (inl EAGAIN, with_env c [] sc)
      | _ =>
          let m := Z.to_nat (Z.min (Z.max 1 k) n) in
          (inr (take m (input c)), with_env c (drop m (input c)) sc)
      end
  end.

(** The received bytes are in the memory of the buffer, [buffer->length += n] *)
Definition store (s : Str) (d : list Z) : option Str :=
  m ← zblit (mem s) (slen s) d;
  Some (mkStr m (slen s + zlen d) (ssize s) (soff s) (sallocator s)).

Definition SW_BUFFER_SIZE_STD : Z := 8192.

(** [swoole_size_align] *)
Definition size_align (size pagesize : Z) : Z := size + (pagesize - size mod pagesize).

(** The settings of the protocol, and the program: what [onPackage] returns and
    whether it removed the socket *)
Record EofProtocol := mkEof { split_by_eof : bool; package_eof : list Z; eof_max_length : Z }.

Section eof.
Context `{Allocator} (proto : EofProtocol) (onPackage : list Z -> Z * bool) (ssl : bool) (ssl_pending : list Z -> bool) (pagesize : Z).

Definition dispatch (c : Conn) (p : list Z) : Conn * Z := let '(r, rm) := onPackage p in (with_packet c p (removed c || rm), r).

(** [Protocol::recv_split_by_eof] *)
Inductive split_result := S_CONTINUE | S_CLOSE | S_OK.
Definition split_handler (c : Conn) (d : list Z) : Conn * bool :=
  let '(c, r) := dispatch c d in
  if r <? 0 then (c, false) else if removed c then (c, false) else (c, true).
Definition cut_buffer (b : Str) (n eof_len : Z) : option Str :=
  if n <? slen b then
    b ← reduce b n;
    let offset := slen b - eof_len in
    Some (with_offset b (if 0 <? offset then offset else 0))
  else Some (clear b).
Definition recv_split_by_eof (c : Conn) : option (Conn * split_result) :=
  let eof_len := zlen (package_eof proto) in
  if slen (buffer c) <? eof_len then Some (c, S_CONTINUE) else
  '(c, n, b) ← split split_handler (buffer c) (package_eof proto) c;
  let c := with_buffer c b in
  if removed c || (n <? 0) then Some (c, S_CLOSE) else
  if n =? 0 then Some (c, S_CONTINUE) else
  b ← cut_buffer b n eof_len;
  Some (with_buffer c b, if ssl then S_CONTINUE else S_OK).

(** What follows when no packet is complete: the length limit, more memory *)
Definition grow_buffer (c : Conn) (recv_again : bool) : option (Conn * option bool) :=
  let b := buffer c in
  if slen b =? eof_max_length proto then Some (c, None) else
  if slen b =? ssize b then
    b ← (if ssize b <? eof_max_length proto then
           let extend_size := u32 (size_align (u64 (ssize b * 2)) pagesize) in
           extend b (if eof_max_length proto <? extend_size then eof_max_length proto else extend_size)
         else Some b);
    Some (with_buffer c b, Some true)
  else Some (c, Some recv_again).

(** [Protocol::recv_with_eof_protocol] *)
Fixpoint recv_eof_loop (fuel : nat) (c : Conn) (recv_again : bool) : option (Conn * Z) :=
  match fuel with
  | O => None
  | S fuel =>
      let buf_size := Z.min (ssize (buffer c) - slen (buffer c)) SW_BUFFER_SIZE_STD in
      match recv c buf_size with
      | (inl e, c) => r ← recv_failed e; Some (c, r)
      | (inr [], c) => Some (c, SW_ERR)
      | (inr d, c) =>
          b ← store (buffer c) d;
          let c := with_buffer c b in
          let eof_len := zlen (package_eof proto) in
          if slen b <? eof_len then Some (c, SW_OK) else
          let more (c : Conn) (recv_again : bool) :=
            '(c, again) ← grow_buffer c recv_again;
            match again with
            | None => Some (c, SW_ERR)
            | Some true => recv_eof_loop fuel c true
            | Some false => Some (c, SW_OK)
            end in
          if split_by_eof proto then
            '(c, r) ← recv_split_by_eof c;
            match r with
            | S_CONTINUE => more c true
            | S_CLOSE => Some (c, SW_ERR)
            | S_OK => Some (c, SW_OK)
            end
          else
            e ← zsub (mem b) (slen b - eof_len) eof_len;
            if decide (e = package_eof proto) then
              let c := with_buffer c (with_offset b (slen b)) in
              p ← zsub (mem b) 0 (slen b);
              let '(c, r) := dispatch c p in
              if r <? 0 then Some (c, SW_ERR) else
              if removed c then Some (c, SW_OK) else
              let c := with_buffer c (clear (buffer c)) in
              if ssl && ssl_pending (input c) then recv_eof_loop fuel c recv_again else Some (c, SW_OK)
            else more c recv_again
      end
  end.

(** Every turn of the loop asks the script once. *)
Definition recv_with_eof_protocol (c : Conn) : option (Conn * Z) := recv_eof_loop (S (length (script c))) c false.

(** The reactor calls it for every event, as long as it does not fail. *)
Fixpoint eof_events (n : nat) (c : Conn) : option (Conn * Z) :=
  match n with
  | O => Some (c, SW_OK)
  | S n => '(c, r) ← recv_with_eof_protocol c; if r <? 0 then Some (c, r) else eof_events n c
  end.
End eof.

(** ** The packets of a stream *)

(** A packet ends with the first occurrence of the mark. *)
Fixpoint eof_frames (fuel : nat) (eof l : list Z) : list (list Z) * list Z :=
  match fuel with
  | O => ([], l)
  | S fuel =>
      match find eof l with
      | Some i =>
          let k := (i + length eof)%nat in
          let '(fs, rest) := eof_frames fuel eof (drop k l) in (take k l :: fs, rest)
      | None => ([], l)
      end
  end.
Definition frames (eof l : list Z) : list (list Z) * list Z := eof_frames (length l) eof l.

(** ** Searching *)

Definition match_at (d l : list Z) (i : nat) : Prop := take (length d) (drop i l) = d.

Lemma match_at_length d l i : match_at d l i -> (i + length d <= length l)%nat \/ d = [].
Proof. intros E%(f_equal length). rewrite length_take, length_drop in E. destruct d; [by right|]. left. cbn [length] in *. lia. Qed.

Lemma find_Some d l i : find d l = Some i -> match_at d l i /\ forall j, (j < i)%nat -> ~ match_at d l j.
Proof.
  revert i. induction l as [|x l IH]; intros i; cbn [find]; case_bool_decide as E.
  - intros [= <-]. split; [done|lia].
  - done.
  - intros [= <-]. split; [done|lia].
  - intros (k & Hk & ->)%fmap_Some. destruct (IH k Hk) as [H1 H2]. split; [done|]. intros [|j] Hj; [done|]. apply H2. lia.
Qed.

Lemma find_None d l : find d l = None -> forall j, ~ match_at d l j.
Proof.
  induction l as [|x l IH]; cbn [find]; case_bool_decide as E; intros H j; try done.
  - unfold match_at. by rewrite drop_nil.
  - apply fmap_None in H. destruct j as [|j]; [done|]. by apply IH.
Qed.

Lemma find_intro d l i : match_at d l i -> (forall j, (j < i)%nat -> ~ match_at d l j) -> find d l = Some i.
Proof.
  intros Hi Hj. destruct (find d l) as [k|] eqn:E.
  - destruct (find_Some _ _ _ E) as [Hk Hk']. f_equal. destruct (Nat.lt_trichotomy k i) as [?|[?|?]]; [by destruct (Hj k)|done|by destruct (Hk' i)].
  - by destruct (find_None _ _ E i).
Qed.

Lemma match_at_app d l m i : (i + length d <= length l)%nat -> match_at d (l ++ m) i <-> match_at d l i.
Proof.
  intros Hi. unfold match_at. rewrite drop_app_le by lia. rewrite take_app_le by (rewrite length_drop; lia). done.
Qed.

Lemma find_app d l m i : d <> [] -> find d l = Some i -> find d (l ++ m) = Some i.
Proof.
  intros Hd [Hi Hj]%find_Some. destruct (match_at_length _ _ _ Hi); [|done]. apply find_intro; [by apply match_at_app|].
  intros j Hlt. rewrite match_at_app by lia. by apply Hj.
Qed.

(** A search that starts behind positions without a match. *)
Lemma find_skip d l p : (forall j, (j < p)%nat -> ~ match_at d l j) -> find d l = Nat.add p <$> find d (drop p l).
Proof.
  intros Hp. destruct (find d (drop p l)) as [i|] eqn:E; cbn.
  - apply find_Some in E as [Hi Hj]. unfold match_at in Hi. rewrite drop_drop in Hi. apply find_intro; [done|]. intros j Hlt.
    destruct (decide (j < p)%nat); [by apply Hp|]. specialize (Hj (j - p)%nat). unfold match_at in *. rewrite drop_drop in Hj. replace (p + (j - p))%nat with j in Hj by lia. apply Hj. lia.
  - destruct (find d l) as [i|] eqn:E'; [|done]. apply find_Some in E' as [Hi _]. destruct (decide (i < p)%nat); [by destruct (Hp i)|].
    exfalso. apply (find_None _ _ E (i - p)). unfold match_at in *. rewrite drop_drop. by replace (p + (i - p))%nat with i by lia.
Qed.

(** A position that is only completed by the bytes [m] is close to the end. *)
Lemma find_tail d l m j : find d l = None -> match_at d (l ++ m) j -> d <> [] -> (length l < j + length d)%nat.
Proof.
  intros Hf Hm Hd. destruct (decide (j + length d <= length l)%nat) as [Hle|]; [|lia]. exfalso. apply (find_None _ _ Hf j). by apply match_at_app in Hm.
Qed.

Lemma eof_frames_fuel n m eof l : eof <> [] -> (length l <= n)%nat -> (length l <= m)%nat -> eof_frames n eof l = eof_frames m eof l.
Proof.
  intros He. revert m l. induction n as [|n IH]; intros m l Hn Hm.
  - destruct l; [|cbn in Hn; lia]. destruct m; [done|]. cbn [eof_frames]. rewrite find_short; [done|]. destruct eof; [done|cbn; lia].
  - destruct m as [|m]; [destruct l; [|cbn in Hm; lia]; cbn [eof_frames]; rewrite find_short; [done|]; destruct eof; [done|cbn; lia]|].
    cbn [eof_frames]. destruct (find eof l) as [i|]; [|done]. rewrite (IH m); [done|..]; rewrite length_drop; destruct eof; done || (cbn; lia).
Qed.

Lemma frames_eq eof l : eof <> [] ->
  frames eof l = match find eof l with
                 | Some i => let k := (i + length eof)%nat in (take k l :: (frames eof (drop k l)).1, (frames eof (drop k l)).2)
                 | None => ([], l)
                 end.
Proof.
  intros He. unfold frames at 1. rewrite (eof_frames_fuel (length l) (S (length l))) by (done || lia). cbn [eof_frames].
  destruct (find eof l) as [i|]; [|done]. cbv zeta. unfold frames. rewrite (eof_frames_fuel (length l) (length (drop (i + length eof) l))) by (done || rewrite length_drop; lia).
  by destruct (eof_frames _ _ _).
Qed.

(** The induction that follows the cuts. *)
Lemma frames_ind (P : list Z -> Prop) eof : eof <> [] ->
  (forall l, find eof l = None -> P l) ->
  (forall l i, find eof l = Some i -> P (drop (i + length eof) l) -> P l) -> forall l, P l.
Proof.
  intros He Hn Hs l. remember (length l) as n eqn:E. assert (length l <= n)%nat as Hl by lia. clear E. revert l Hl.
  induction n as [|n IH]; intros l Hl; destruct (find eof l) as [i|] eqn:Ef; [|by apply Hn| |by apply Hn].
  - destruct l; [|cbn in Hl; lia]. apply (Hs _ i Ef). rewrite drop_nil. apply Hn. apply find_short. destruct eof; [done|cbn; lia].
  - apply (Hs _ i Ef), IH. rewrite length_drop. destruct eof; [done|cbn; lia].
Qed.

Lemma frames_rest eof l : eof <> [] -> concat (frames eof l).1 ++ (frames eof l).2 = l /\ find eof (frames eof l).2 = None.
Proof.
  intros He. revert l. apply (frames_ind _ eof He).
  - intros l Hf. rewrite frames_eq, Hf by done. done.
  - intros l i Hf [IH1 IH2]. rewrite frames_eq, Hf by done. cbn. split; [|done]. rewrite <- app_assoc, IH1. apply take_drop.
Qed.

Lemma frames_app eof l m : eof <> [] ->
  frames eof (l ++ m) = ((frames eof l).1 ++ (frames eof ((frames eof l).2 ++ m)).1, (frames eof ((frames eof l).2 ++ m)).2).
Proof.
  intros He. revert l. apply (frames_ind _ eof He).
  - intros l Hf. rewrite (frames_eq eof l), Hf by done. cbn [fst snd app]. by destruct (frames eof (l ++ m)).
  - intros l i Hf IH. pose proof (find_app _ _ m _ He Hf) as Hf'. pose proof (find_Some _ _ _ Hf) as [Hi _]. destruct (match_at_length _ _ _ Hi); [|done].
    rewrite (frames_eq eof (l ++ m)), Hf' by done. rewrite (frames_eq eof l), Hf by done. cbv zeta. cbn [fst snd app]. rewrite drop_app_le, take_app_le by lia. rewrite IH. done.
Qed.

(** ** [String::split] finds the packets *)

Section split.
Context {T : Type} (handler : T -> list Z -> T * bool) (I : T -> Prop) (f : T -> list Z -> T).
Hypothesis handler_goes_on : forall t d, I t -> handler t d = (f t d, true) /\ I (f t d).

Lemma with_offset_wf s o : str_wf s -> 0 < ssize s -> str_wf (with_offset s o).
Proof. intros [] Hs. constructor; cbn; try done. lia. Qed.

Lemma split_loop_ok fuel s d t p : str_wf s -> 1 <= zlen d < 2 ^ 32 -> slen s < 2 ^ 32 -> soff s = p -> 0 < p <= slen s -> I t ->
  (length (drop (Z.to_nat p) (contents s)) < fuel)%nat ->
  let fr := frames d (drop (Z.to_nat p) (contents s)) in
  split_loop handler fuel s d p 0 t ((fun i => p + Z.of_nat i) <$> find d (drop (Z.to_nat p) (contents s))) =
    Some (fold_left f fr.1 t, slen s - zlen fr.2, with_offset s (slen s - zlen fr.2)) /\ I (fold_left f fr.1 t).
Proof.
  intros Hwf Hd Hs. assert (d <> []) as Hd' by (intros ->; cbn in Hd; lia). revert s t p Hwf Hs. induction fuel as [|fuel IH]; intros s t p Hwf Hs Hp Hpl Ht Hf; [lia|].
  pose proof (contents_length s Hwf) as Hcl. cbv zeta. rewrite frames_eq by done. destruct (find d (drop (Z.to_nat p) (contents s))) as [i|] eqn:Ef; cbn [fmap option_fmap option_map split_loop].
  - pose proof (find_Some _ _ _ Ef) as [Hi _]. destruct (match_at_length _ _ _ Hi) as [Hil|]; [|done]. rewrite length_drop in *.
    replace (p + Z.of_nat i - p + zlen d) with (Z.of_nat (i + length d)) by lia. rewrite Z.sub_0_r, Z.add_0_r.
    rewrite (contents_sub s) by (done || lia). cbn [mbind option_bind]. rewrite Nat2Z.id. set (fr := take (i + length d) (drop (Z.to_nat p) (contents s))).
    destruct (handler_goes_on t fr Ht) as [-> Ht']. cbn [negb]. set (s' := mkStr _ _ _ _ _).
    assert (str_wf s') as Hwf' by (apply (with_offset_wf s); [done|pose proof (st_len _ Hwf); lia]). change (slen s) with (slen s'). change (mem s) with (mem s').
    assert (soff s' = p + Z.of_nat (i + length d)) as Eoff by (cbn; lia). rewrite (strnstr_spec s') by (done || cbn; lia). cbn [mbind option_bind].
    assert (drop (Z.to_nat (soff s')) (contents s') = drop (i + length d) (drop (Z.to_nat p) (contents s))) as Edrop.
    { rewrite drop_drop. change (contents s') with (contents s). f_equal. lia. }
    destruct (IH s' (f t fr) (soff s') Hwf') as [E HI]; [done|done|cbn; lia|done|rewrite Edrop, !length_drop; lia|]. cbv zeta in E, HI. rewrite Edrop in *. rewrite E. cbn [fst snd fold_left]. done.
  - destruct (Z.eqb_spec 0 (soff s)); [lia|]. cbn [fst snd fold_left]. split; [|done]. rewrite length_drop. do 2 f_equal; [f_equal; lia|]. destruct s. unfold with_offset. cbn in *. f_equal. lia.
Qed.

Lemma split_ok s d t : str_wf s -> 1 <= zlen d < 2 ^ 32 -> zlen d <= slen s < 2 ^ 32 -> 0 <= soff s <= slen s -> I t ->
  (forall j, (j < Z.to_nat (soff s))%nat -> ~ match_at d (contents s) j) ->
  let fr := frames d (contents s) in
  let n := if decide (fr.1 = []) then 0 else slen s - zlen fr.2 in
  split handler s d t = Some (fold_left f fr.1 t, n, with_offset s (if decide (fr.1 = []) then slen s - zlen d else n)) /\ I (fold_left f fr.1 t).
Proof.
  intros Hwf Hd Hs Ho Ht Hj. assert (d <> []) as Hd' by (intros ->; cbn in Hd; lia). pose proof (contents_length s Hwf) as Hcl. cbv zeta. rewrite (frames_eq d (contents s)), (find_skip _ _ _ Hj) by done.
  unfold split. rewrite (strnstr_spec s) by (done || lia). cbn [mbind option_bind].
  destruct (find d (drop (Z.to_nat (soff s)) (contents s))) as [i|] eqn:Ef; cbn [fmap option_fmap option_map].
  - pose proof (find_Some _ _ _ Ef) as [Hi _]. destruct (match_at_length _ _ _ Hi) as [Hil|]; [|done]. rewrite length_drop in *.
    set (k := (Z.to_nat (soff s) + i + length d)%nat). rewrite Nat.add_1_r. cbn [split_loop].
    replace (soff s + Z.of_nat i - soff s + zlen d + soff s) with (Z.of_nat k) by lia. rewrite Z.sub_diag. rewrite (contents_sub s) by (done || lia). cbn [mbind option_bind]. rewrite drop_0, Nat2Z.id.
    set (fr := take k (contents s)). destruct (handler_goes_on t fr Ht) as [-> Ht']. cbn [negb]. set (s' := mkStr _ _ _ _ _).
    assert (str_wf s') as Hwf' by (apply (with_offset_wf s); [done|pose proof (st_len _ Hwf); lia]). assert (soff s' = Z.of_nat k) as Eoff by (cbn; lia). change (slen s) with (slen s'). change (mem s) with (mem s').
    rewrite (strnstr_spec s') by (done || cbn; lia). cbn [mbind option_bind].
    assert (drop (Z.to_nat (soff s')) (contents s') = drop k (contents s)) as Edrop by (change (contents s') with (contents s); f_equal; lia).
    destruct (split_loop_ok (Z.to_nat (slen s)) s' d (f t fr) (soff s')) as [E HI]; [done|done|cbn; lia|done|cbn; lia|done|rewrite Edrop, length_drop; lia|]. cbv zeta in E, HI. rewrite Edrop in *.
    cbn [fst snd fold_left]. rewrite !decide_False by done. change (slen s') with (slen s) in *. rewrite E. done.
  - rewrite Nat.add_1_r. cbn [split_loop fst snd fold_left]. rewrite Z.eqb_refl, Z.sub_diag, !decide_True by done. done.
Qed.
End split.

(** ** The receive loop *)

Definition benign (a : answer) : Prop := match a with Take _ | Fail EAGAIN => True | _ => False end.

(** A stream whose packets respect the length limit. *)
Definition legal_stream (eof : list Z) (max : Z) (l : list Z) : Prop :=
  Forall (fun p => zlen p <= max) (frames eof l).1 /\ zlen (frames eof l).2 < max.

(** What was received so far. *)
Definition received (c : Conn) : list Z := concat (packets c) ++ contents (buffer c).

Lemma store_ok s d : str_wf s -> slen s + zlen d <= ssize s ->
  exists s', store s d = Some s' /\ str_wf s' /\ contents s' = contents s ++ d /\ soff s' = soff s /\ slen s' = slen s + zlen d /\ ssize s' = ssize s.
Proof.
  intros Hwf Hl. pose proof (st_mem _ Hwf). pose proof (st_len _ Hwf). unfold store. destruct (zblit_in_bounds (mem s) (slen s) d) as (m & Hm); [lia|lia|]. rewrite Hm. cbn [mbind option_bind].
  destruct (blit_contents s (slen s) d m (slen s + zlen d)) as [? E]; [done|lia|done|lia|]. eexists. split; [done|]. split; [done|]. rewrite E.
  pose proof (contents_length s Hwf). rewrite take_ge, drop_ge, app_nil_r by lia. done.
Qed.

(** A call of [recv] with a script of bytes and pauses. *)
Lemma recv_cases c n : 0 < n -> Forall benign (script c) ->
  (exists c', recv c n = (inl EAGAIN, c') /\ buffer c' = buffer c /\ packets c' = packets c /\ input c' = input c /\ removed c' = removed c /\
    recv_wait c' = recv_wait c /\ skip_recv c' = skip_recv c /\ Forall benign (script c')) \/
  (exists d i sc, recv c n = (inr d, with_env c i sc) /\ d <> [] /\ zlen d <= n /\ d ++ i = input c /\ Forall benign sc /\ (length sc < length (script c))%nat).
Proof.
  intros Hn Hs. unfold recv. destruct (script c) as [|a sc] eqn:Es; [left; exists c; rewrite Es; by split_and!|]. apply Forall_cons in Hs as [Ha Hs].
  destruct a as [k| |e]; cbn in Ha; [|done|destruct e; try done; left; by eexists].
  destruct (Z.eqb_spec n 0); [lia|]. destruct (input c) as [|x i] eqn:Ei; [left; eexists; split; [done|]; cbn; by rewrite ?Ei|]. right.
  eexists _, _, _. split; [done|]. destruct (Z.to_nat (Z.min (Z.max 1 k) n)) as [|m] eqn:Em; [lia|]. cbn [take drop]. split_and!; [done| | |done|cbn; lia].
  - cbn [length]. rewrite length_take. lia.
  - cbn. f_equal. apply take_drop.
Qed.

Section eof_proof.
Context `{Allocator} (proto : EofProtocol) (onPackage : list Z -> Z * bool) (ssl : bool) (ssl_pending : list Z -> bool) (pagesize : Z).
Let eof := package_eof proto.
Let max := eof_max_length proto.
Hypothesis Heof : 1 <= zlen eof <= 8.
Hypothesis Hmax : max < 2 ^ 30.
Hypothesis Hpage : 0 < pagesize <= 2 ^ 20.
Hypothesis Hpack : forall p, 0 <= (onPackage p).1 /\ (onPackage p).2 = false.

Record eof_inv (St : list Z) (c : Conn) : Prop := {
  ei_wf : str_wf (buffer c);
  ei_size : slen (buffer c) < ssize (buffer c);
  ei_removed : removed c = false;
  ei_stream : received c ++ input c = St;
  ei_frames : frames eof (received c) = (packets c, contents (buffer c));
  ei_off : 0 <= soff (buffer c) <= Z.max 0 (slen (buffer c) - zlen eof);
  ei_script : Forall benign (script c);
}.

Lemma eof_nonempty : eof <> [].
Proof. intros E. rewrite E in Heof. cbn in Heof. lia. Qed.

(** What is pending is shorter than a packet may be. *)
Lemma pending_short St ps r R i : legal_stream eof max St -> frames eof R = (ps, r) -> R ++ i = St -> zlen r < max.
Proof.
  intros [Hf Hr] HR <-. pose proof eof_nonempty as He. pose proof (frames_rest eof R He) as [_ Hn]. rewrite HR in Hn. cbn [snd] in Hn.
  rewrite frames_app, HR in Hf, Hr by done. cbn [fst snd] in *. rewrite (frames_eq eof (r ++ i)) in Hf, Hr by done. destruct (find eof (r ++ i)) as [k|] eqn:Ek; cbn [fst snd] in *.
  - apply Forall_app in Hf as [_ Hf]. apply Forall_cons in Hf as [Hf _]. apply find_Some in Ek as [Hm _]. pose proof (find_tail _ _ _ _ Hn Hm He).
    destruct (match_at_length _ _ _ Hm); [|done]. rewrite length_take in Hf. lia.
  - rewrite length_app in Hr. lia.
Qed.

Lemma fold_packets fs c : removed c = false ->
  fold_left (fun c d => with_packet c d false) fs c = mkConn (buffer c) (recv_wait c) (skip_recv c) false (packets c ++ fs) (input c) (script c).
Proof.
  revert c. induction fs as [|p fs IH]; intros c Hr; cbn [fold_left].
  - rewrite app_nil_r. destruct c. cbn in *. by rewrite Hr.
  - rewrite IH by done. cbn. by rewrite <- app_assoc.
Qed.

Lemma handler_ok c d : removed c = false -> split_handler onPackage c d = (with_packet c d false, true) /\ removed (with_packet c d false) = false.
Proof.
  intros Hr. unfold split_handler, dispatch. destruct (Hpack d) as [H1 H2]. destruct (onPackage d) as [r rm]. cbn in *. subst rm. rewrite Hr. cbn.
  destruct (Z.ltb_spec r 0); [lia|done].
Qed.
(** The state between the calls of [recv_split_by_eof] and [recv]. *)
Record cut (c c' : Conn) : Prop := {
  ct_wf : str_wf (buffer c');
  ct_size : ssize (buffer c') = ssize (buffer c);
  ct_removed : removed c' = false;
  ct_received : received c' = received c;
  ct_frames : frames eof (received c') = (packets c', contents (buffer c'));
  ct_off : 0 <= soff (buffer c') <= Z.max 0 (slen (buffer c') - zlen eof);
  ct_input : input c' = input c;
  ct_script : script c' = script c;
}.

Lemma cut_buffer_ok b n : str_wf b -> 0 < n <= slen b -> 0 < ssize b ->
  exists b', cut_buffer b n (zlen eof) = Some b' /\ str_wf b' /\ contents b' = drop (Z.to_nat n) (contents b) /\ ssize b' = ssize b /\
    0 <= soff b' <= Z.max 0 (slen b' - zlen eof).
Proof.
  intros Hb Hn Hs. pose proof (contents_length _ Hb). unfold cut_buffer. destruct (Z.ltb_spec n (slen b)).
  - destruct (reduce_ok b n) as (b' & -> & Hb' & Hc & Hbs & _ & Hl); [done|lia|]. cbn [mbind option_bind]. eexists. split; [done|]. cbn [soff slen ssize with_offset].
    split_and!; try done; [apply with_offset_wf; [done|lia]| |]; destruct (Z.ltb_spec 0 (slen b' - zlen eof)); lia.
  - eexists. split; [done|]. destruct (clear_ok b Hb). split_and!; try done; cbn; try lia. symmetry. apply drop_ge. lia.
Qed.

Lemma recv_split_ok c old d : str_wf (buffer c) -> removed c = false -> frames eof (concat (packets c) ++ old) = (packets c, old) ->
  contents (buffer c) = old ++ d -> 0 <= soff (buffer c) <= Z.max 0 (zlen old - zlen eof) -> zlen eof <= slen (buffer c) < 2 ^ 32 ->
  exists c' r, recv_split_by_eof proto onPackage ssl c = Some (c', r) /\ cut c c' /\
    (r = S_CONTINUE \/ r = S_OK /\ slen (buffer c') < ssize (buffer c')).
Proof.
  intros Hwf Hr Hf Hc Ho Hl. pose proof eof_nonempty as He. pose proof (contents_length _ Hwf) as Hcl. pose proof (st_len _ Hwf) as Hsl. rewrite Hc, length_app in Hcl.
  assert (find eof old = None) as Hold by (pose proof (frames_rest eof (concat (packets c) ++ old) He) as [_ Hn]; by rewrite Hf in Hn).
  assert (frames eof (received c) = (packets c ++ (frames eof (contents (buffer c))).1, (frames eof (contents (buffer c))).2)) as Hrec.
  { unfold received. rewrite Hc, (app_assoc _ old d), frames_app, Hf by done. done. }
  pose proof (frames_rest eof (contents (buffer c)) He) as [Hcat Hnone]. unfold recv_split_by_eof. fold eof. destruct (Z.ltb_spec (slen (buffer c)) (zlen eof)); [lia|].
  destruct (split_ok (split_handler onPackage) (fun c => removed c = false) (fun c d => with_packet c d false) handler_ok (buffer c) eof c) as [-> _]; [done|lia|lia|lia|done| |].
  { intros j Hj Hm. rewrite Hc in Hm. pose proof (find_tail _ _ _ _ Hold Hm He). lia. }
  cbn [mbind option_bind]. rewrite (fold_packets _ _ Hr). set (fr := frames eof (contents (buffer c))) in *. cbn [with_buffer removed orb].
  pose proof (with_offset_wf (buffer c)) as Hwo. destruct (decide (fr.1 = [])) as [Efr|Efr].
  - eexists _, _. split; [done|]. split; [|by left]. rewrite Efr, app_nil_r in *. cbn in Hcat. constructor; try done.
    + apply Hwo; [done|lia].
    + change (received _) with (received c). rewrite Hrec. f_equal. exact Hcat.
    + cbn. lia.
  - assert (zlen fr.2 < slen (buffer c)) as Hlt.
    { rewrite <- (contents_length _ Hwf). rewrite <- Hcat, length_app. destruct fr.1 as [|f fs] eqn:Ef; [done|]. cbn [concat]. rewrite length_app.
      assert (f <> []); [|destruct f; [done|cbn; lia]]. unfold fr in Ef. rewrite frames_eq in Ef by done. destruct (find eof (contents (buffer c))) as [i|] eqn:Ei; [|done].
      cbn in Ef. injection Ef as <- _. apply find_Some in Ei as [Hm _]. destruct (match_at_length _ _ _ Hm) as [Hb|]; [|done].
      intros E%(f_equal length). rewrite length_take in E. cbn in E. lia. }
    destruct (Z.ltb_spec (slen (buffer c) - zlen fr.2) 0); [lia|]. destruct (Z.eqb_spec (slen (buffer c) - zlen fr.2) 0); [lia|]. cbn [slen with_offset].
    set (c1 := mkConn _ _ _ _ _ _ _). set (b1 := with_offset _ _).
    destruct (cut_buffer_ok b1 (slen (buffer c) - zlen fr.2)) as (b & -> & Hb & Hbc & Hbs & Hbo); [apply Hwo; [done|lia]|cbn; lia|cbn; lia|].
    change (contents b1) with (contents (buffer c)) in Hbc. rewrite <- Hcat in Hbc. rewrite drop_app_length' in Hbc.
    2: { apply Nat2Z.inj. rewrite Z2Nat.id by lia. rewrite <- (contents_length _ Hwf), <- Hcat, length_app. lia. }
    cbn [mbind option_bind]. eexists _, _. split; [done|]. pose proof (contents_length _ Hb) as Hbl. rewrite Hbc in Hbl. split.
    + match goal with |- cut c ?c2 => assert (received c2 = received c) as Erec end.
      { unfold received. cbn. rewrite Hbc, <- Hcat, concat_app, <- app_assoc. done. }
      constructor; try done. rewrite Erec, Hrec. cbn. by rewrite Hbc.
    + destruct ssl; [by left|]. right. split; [done|]. cbn. change (ssize b1) with (ssize (buffer c)) in Hbs. lia.
Qed.

Lemma grow_buffer_ok c1 again : str_wf (buffer c1) -> slen (buffer c1) < max -> exists c2 again',
  grow_buffer proto pagesize c1 again = Some (c2, Some again') /\ (again = true -> again' = true) /\ str_wf (buffer c2) /\ slen (buffer c2) < ssize (buffer c2) /\ removed c2 = removed c1 /\
    received c2 = received c1 /\ packets c2 = packets c1 /\ contents (buffer c2) = contents (buffer c1) /\ soff (buffer c2) = soff (buffer c1) /\
    slen (buffer c2) = slen (buffer c1) /\ input c2 = input c1 /\ script c2 = script c1.
Proof.
  intros Hwf Hl. pose proof (st_len _ Hwf). unfold grow_buffer. fold max. destruct (Z.eqb_spec (slen (buffer c1)) max); [lia|].
  destruct (Z.eqb_spec (slen (buffer c1)) (ssize (buffer c1))) as [E|E].
  - destruct (Z.ltb_spec (ssize (buffer c1)) max); [|lia]. unfold size_align. rewrite (u64_id (ssize (buffer c1) * 2)) by lia.
    pose proof (Z.mod_pos_bound (ssize (buffer c1) * 2) pagesize ltac:(lia)). rewrite uN_small by (unfold fits; lia).
    set (k := ssize (buffer c1) * 2 + _). set (e := if max <? k then max else k). assert (ssize (buffer c1) < e <= max) as Hn by (unfold e; destruct (Z.ltb_spec max k); lia).
    unfold extend. destruct (Z.ltb_spec (ssize (buffer c1)) e); [|lia]. destruct (reserve_ok (buffer c1) e) as (b & -> & [] & ?); [done|lia|unfold max_len; lia|].
    cbn [mbind option_bind]. eexists _, _. split; [done|]. cbn. unfold received. cbn. rewrite rz_contents. split_and!; try done; lia.
  - exists c1, again. split_and!; try done. lia.
Qed.

Lemma eof_loop_ok St fuel c again : split_by_eof proto = true -> legal_stream eof max St -> eof_inv St c -> (length (script c) < fuel)%nat ->
  exists c', recv_eof_loop proto onPackage ssl ssl_pending pagesize fuel c again = Some (c', SW_OK) /\ eof_inv St c'.
Proof.
  intros Hsplit Hlegal. revert c again. induction fuel as [|fuel IH]; intros c again Hc Hf; [lia|]. pose proof Hc as []. cbn [recv_eof_loop]. cbv zeta. pose proof eof_nonempty as He.
  pose proof (st_len _ ei_wf0) as Hsl. destruct (recv_cases c (Z.min (ssize (buffer c) - slen (buffer c)) SW_BUFFER_SIZE_STD)) as [(c1 & -> & E1 & E2 & E3 & E4 & _ & _ & E5)|(d & i & sc & -> & Hd & Hdl & Hdi & Hsc & Hlt)].
  { unfold SW_BUFFER_SIZE_STD. lia. }
  { done. }
  { cbn. exists c1. split; [done|]. constructor; unfold received; rewrite ?E1, ?E2, ?E3, ?E4; try done. }
  cbn [with_env buffer]. destruct d as [|x d]; [done|]. set (D := x :: d) in *. destruct (store_ok (buffer c) D) as (b & -> & Hb & Hbc & Hbo & Hbl & Hbs); [done|lia|]. cbn [mbind option_bind].
  set (c1 := with_buffer _ b). assert (received c1 = received c ++ D) as Hr1 by (unfold received; cbn; by rewrite Hbc, app_assoc).
  pose proof (contents_length _ Hb) as Hbcl. pose proof (contents_length _ ei_wf0) as Hccl.
  assert (received c1 ++ i = St) as Hst by (rewrite Hr1, <- app_assoc, Hdi; done).
  pose proof (frames_app eof (received c) D He) as Hfr. rewrite <- Hr1, ei_frames0 in Hfr. cbn [fst snd] in Hfr. rewrite <- Hbc in Hfr.
  fold eof. destruct (Z.ltb_spec (slen b) (zlen eof)) as [Hshort|Hlong].
  { exists c1. split; [done|]. constructor; try done.
    - pose proof (st_align _ Hb) as [k Hk]. cbn. lia.
    - rewrite Hfr, frames_eq, find_short by (done || lia). cbn. by rewrite app_nil_r.
    - cbn. lia. }
  rewrite Hsplit. destruct (frames eof (contents b)) as [fs r] eqn:Efr. cbn [fst snd] in Hfr. pose proof (pending_short St _ _ _ _ Hlegal Hfr Hst) as Hrmax.
  assert (slen b < 2 ^ 31).
  { pose proof (pending_short St _ _ _ _ Hlegal ei_frames0 ei_stream0). pose proof (st_size _ Hb). unfold SW_BUFFER_SIZE_STD in Hdl. lia. }
  destruct (recv_split_ok c1 (contents (buffer c)) D) as (c2 & res & -> & Hcut & Hres); [done|done|exact ei_frames0|done|cbn; rewrite Hbo; lia|cbn; lia|]. cbn [mbind option_bind].
  pose proof Hcut as []. assert (contents (buffer c2) = r) as Hc2. { rewrite ct_received0, Hfr in ct_frames0. by injection ct_frames0 as _ <-. }
  destruct Hres as [-> | [-> Hlt2]].
  - destruct (grow_buffer_ok c2 true) as (c3 & a3 & -> & Ha3 & Hw3 & Hs3 & Hr3 & Hrec3 & Hp3 & Hc3 & Ho3 & Hl3 & Hi3 & Hsc3); [done|rewrite <- (contents_length _ ct_wf0), Hc2; done|]. rewrite (Ha3 eq_refl). cbn [mbind option_bind].
    apply IH; [|rewrite Hsc3, ct_script0; cbn; lia]. constructor; try done.
    + by rewrite Hr3.
    + by rewrite Hrec3, ct_received0, Hi3, ct_input0.
    + rewrite Hrec3, ct_frames0, Hp3, Hc3. done.
    + rewrite Ho3, Hl3. done.
    + by rewrite Hsc3, ct_script0.
  - exists c2. split; [done|]. constructor; try done; [by rewrite ct_received0, ct_input0|by rewrite ct_script0].
Qed.

(** Without splitting, a packet is all that was received when the mark is at its end. *)
Record whole_inv (St : list Z) (c : Conn) : Prop := {
  wi_wf : str_wf (buffer c);
  wi_size : slen (buffer c) < ssize (buffer c);
  wi_removed : removed c = false;
  wi_stream : received c ++ input c = St;
  wi_packets : Forall (suffix eof) (packets c);
  wi_rest : ~ eof `suffix_of` contents (buffer c);
  wi_script : Forall benign (script c);
}.

Lemma not_suffix_short l : zlen l < zlen eof -> ~ eof `suffix_of` l.
Proof. intros Hl Hs%suffix_length. lia. Qed.

Lemma ends_with_suffix l : zlen eof <= zlen l -> drop (length l - length eof) l = eof <-> eof `suffix_of` l.
Proof.
  intros Hl. split.
  - intros E. exists (take (length l - length eof) l). rewrite <- E at 2. by rewrite take_drop.
  - intros [k ->]. rewrite length_app. replace (length k + length eof - length eof)%nat with (length k) by lia. by rewrite drop_app_length.
Qed.

Lemma whole_loop_ok St fuel c again : split_by_eof proto = false -> zlen St < max -> whole_inv St c -> (length (script c) < fuel)%nat ->
  exists c', recv_eof_loop proto onPackage ssl ssl_pending pagesize fuel c again = Some (c', SW_OK) /\ whole_inv St c'.
Proof.
  intros Hsplit Hlegal. revert c again. induction fuel as [|fuel IH]; intros c again Hc Hf; [lia|]. pose proof Hc as []. cbn [recv_eof_loop]. cbv zeta. pose proof eof_nonempty as He.
  pose proof (st_len _ wi_wf0) as Hsl. destruct (recv_cases c (Z.min (ssize (buffer c) - slen (buffer c)) SW_BUFFER_SIZE_STD)) as [(c1 & -> & E1 & E2 & E3 & E4 & _ & _ & E5)|(d & i & sc & -> & Hd & Hdl & Hdi & Hsc & Hlt)].
  { unfold SW_BUFFER_SIZE_STD. lia. }
  { done. }
  { cbn. exists c1. split; [done|]. constructor; unfold received; rewrite ?E1, ?E2, ?E3, ?E4; try done. }
  cbn [with_env buffer]. destruct d as [|x d]; [done|]. set (D := x :: d) in *. destruct (store_ok (buffer c) D) as (b & -> & Hb & Hbc & Hbo & Hbl & Hbs); [done|lia|]. cbn [mbind option_bind].
  set (c1 := with_buffer _ b). pose proof (contents_length _ Hb) as Hbcl. pose proof (st_len _ Hb) as Hsb.
  assert (received c1 ++ i = St) as Hst by (unfold received; cbn; rewrite Hbc, app_assoc, <- app_assoc; fold (received c); by rewrite Hdi).
  assert (slen b < max) as Hsm by (rewrite <- Hbcl; apply (f_equal length) in Hst; unfold received in Hst; rewrite !length_app in Hst; cbn in Hst; lia).
  fold eof. destruct (Z.ltb_spec (slen b) (zlen eof)) as [Hshort|Hlong].
  { exists c1. split; [done|]. constructor; try done; [pose proof (st_align _ Hb) as [k Hk]; cbn; lia|apply not_suffix_short; cbn; lia]. }
  rewrite Hsplit. rewrite (contents_sub b (slen b - zlen eof) (zlen eof)) by (done || lia). cbn [mbind option_bind]. rewrite (take_ge (drop _ _)) by (rewrite length_drop; lia).
  replace (Z.to_nat (slen b - zlen eof)) with (length (contents b) - length eof)%nat by lia. pose proof (ends_with_suffix (contents b) ltac:(lia)) as Hsuf. case_decide as Ed.
  - rewrite (contents_sub b 0 (slen b)) by (done || lia). cbn [mbind option_bind]. change (Z.to_nat 0) with 0%nat. rewrite drop_0, take_ge by lia. unfold dispatch. destruct (Hpack (contents b)) as [P1 P2]. destruct (onPackage (contents b)) as [r rm]. cbn in P1, P2. subst rm.
    destruct (Z.ltb_spec r 0); [lia|]. cbn [removed with_packet with_buffer c1 with_env]. rewrite wi_removed0. cbn [orb].
    match goal with |- context [if ?t then recv_eof_loop _ _ _ _ _ _ ?c2 _ else _] => assert (whole_inv St c2) as Hc2; [|destruct t; [apply IH; [done|cbn; lia]|by exists c2]] end.
    destruct (clear_ok (with_offset b (slen b))) as [Hwc Hcc]; [apply with_offset_wf; [done|lia]|]. constructor; cbn [buffer with_buffer packets removed input script with_packet with_env c1]; try done.
    + cbn. pose proof (st_align _ Hb) as [k Hk]. lia.
    + rewrite <- Hst. unfold received. cbn [buffer with_buffer packets with_packet with_env c1]. rewrite Hcc, concat_app. cbn [concat]. by rewrite !app_nil_r.
    + apply Forall_app. split; [done|]. apply Forall_singleton. by apply Hsuf.
    + rewrite Hcc. apply not_suffix_short. cbn. lia.
  - destruct (grow_buffer_ok c1 again) as (c3 & a3 & -> & _ & Hw3 & Hs3 & Hr3 & Hrec3 & Hp3 & Hc3 & Ho3 & Hl3 & Hi3 & Hsc3); [done|done|]. cbn [mbind option_bind].
    assert (whole_inv St c3) as Hinv.
    { constructor; try done; [by rewrite Hr3|by rewrite Hrec3, Hi3|by rewrite Hp3|rewrite Hc3; change (contents (buffer c1)) with (contents b); tauto|by rewrite Hsc3]. }
    destruct a3; [|by exists c3]. apply IH; [done|]. rewrite Hsc3. cbn. lia.
Qed.

(** The events, in both modes *)
Definition stream_ok (St : list Z) : Prop := if split_by_eof proto then legal_stream eof max St else zlen St < max.
Definition packets_inv (St : list Z) (c : Conn) : Prop := if split_by_eof proto then eof_inv St c else whole_inv St c.

Lemma eof_events_ok St n c : stream_ok St -> packets_inv St c ->
  exists c', eof_events proto onPackage ssl ssl_pending pagesize n c = Some (c', SW_OK) /\ packets_inv St c'.
Proof.
  intros Hlegal. revert c. induction n as [|n IH]; intros c Hc; cbn [eof_events]; [by exists c|]. unfold recv_with_eof_protocol.
  assert (exists c', recv_eof_loop proto onPackage ssl ssl_pending pagesize (S (length (script c))) c false = Some (c', SW_OK) /\ packets_inv St c') as (c1 & -> & Hc1).
  { revert Hlegal Hc. unfold stream_ok, packets_inv. destruct (split_by_eof proto) eqn:Es; intros Hlegal Hc; [apply eof_loop_ok|apply whole_loop_ok]; done || lia. }
  cbn [mbind option_bind]. cbn. by apply IH.
Qed.
End eof_proof.

(** ** Properties *)

(** A new connection over which the bytes [st] will come. *)
Definition new_conn `{Allocator} (size : Z) (st : list Z) (sc : list answer) : Conn := mkConn (alloc size) false false false [] st sc.

(** C8: packets that end with a mark: however the network cuts the stream, the
    receive loop stays inside its buffer, never fails, and keeps every byte in a packet or
    in the buffer, in order.  With [open_eof_split] it gives to the program exactly the
    packets of what it received, each up to and with the first occurrence of the mark; the
    rest waits in the buffer.  The packets have to respect [package_max_length].  Without
    it the mark is only looked for at the end of what was received: every packet that is
    given to the program ends with the mark, but may have others inside of it, and what
    waits does not end with it; here the whole stream has to be shorter than
    [package_max_length].  The network may make [recv] wait, but does not fail, and the
    program takes the packets and does not close the connection; the mark has 1 to 8
    bytes and the limit is below 1 GB. *)
Theorem eof_protocol_correct `{Allocator} proto onPackage ssl ssl_pending pagesize size st sc n :
  1 <= zlen (package_eof proto) <= 8 -> eof_max_length proto < 2 ^ 30 -> 0 < pagesize <= 2 ^ 20 ->
  (forall p, 0 <= (onPackage p).1 /\ (onPackage p).2 = false) -> 0 < size <= max_len -> Forall benign sc ->
  (if split_by_eof proto then legal_stream (package_eof proto) (eof_max_length proto) st else zlen st < eof_max_length proto) ->
  exists c, eof_events proto onPackage ssl ssl_pending pagesize n (new_conn size st sc) = Some (c, SW_OK) /\
    received c ++ input c = st /\
    if split_by_eof proto then frames (package_eof proto) (received c) = (packets c, contents (buffer c))
    else Forall (suffix (package_eof proto)) (packets c) /\ ~ package_eof proto `suffix_of` contents (buffer c).
Proof.
  intros He Hm Hp Hpk Hsz Hsc Hl. destruct (alloc_wf size) as (Hwf & Hc & Hge); [lia|].
  assert (received (new_conn size st sc) = []) as Er by (unfold received; cbn [new_conn packets buffer concat app]; exact Hc).
  destruct (eof_events_ok proto onPackage ssl ssl_pending pagesize He Hm Hp Hpk st n (new_conn size st sc) Hl) as (c & E & Hi).
  - unfold packets_inv. destruct (split_by_eof proto); constructor; rewrite ?Er; try done; try (cbn in *; lia). cbn [new_conn buffer]. rewrite Hc. apply not_suffix_short. cbn. lia.
  - exists c. split; [done|]. revert Hi. unfold packets_inv. destruct (split_by_eof proto); by intros [].
Qed.

Lemma eof_protocol_correct_witness :
  let proto := mkEof true [13; 10] 100 in
  exists c, eof_events proto (fun _ => (0, false)) false (fun _ => false) 4096 5
      (new_conn 8 [97; 13; 10; 98; 99; 13; 10; 100] [Take 2; Take 100; Take 3; Take 1; Take 1]) = Some (c, SW_OK) /\
    packets c = [[97; 13; 10]; [98; 99; 13; 10]] /\ received c ++ input c = [97; 13; 10; 98; 99; 13; 10; 100].
Proof.
  cbv zeta. destruct (eof_protocol_correct (mkEof true [13; 10] 100) (fun _ => (0, false)) false (fun _ => false) 4096 8
    [97; 13; 10; 98; 99; 13; 10; 100] [Take 2; Take 100; Take 3; Take 1; Take 1] 5) as (c & E & Hr & _).
  - cbn [package_eof length]. lia.
  - reflexivity.
  - lia.
  - intros p. cbn [fst snd]. split; [lia|reflexivity].
  - unfold max_len. lia.
  - by repeat constructor.
  - vm_compute. split; [by repeat constructor|reflexivity].
  - exists c. split; [exact E|]. split; [|exact Hr]. vm_compute in E. injection E as <-. reflexivity.
Defined.
