(* ===== verification/LengthProtocol.v ===== *)
(** * Packets that carry their length

    [Protocol::recv_with_length_protocol] of [src/protocol/base.cc] with
    [Protocol::default_length_func] and [swoole_unpack].  The receive loop works
    with any function that finds the length of a packet in its first bytes; what
    it relies on is the class [LengthFunc], which the default function, MQTT,
    HTTP/2 and WebSocket implement. *)

From Stdlib Require Import Ascii.
From S2P Require Import Prelude MemPool Str Protocol.

(** ** Definitions *)

(** [get_package_length] as a function of the bytes in the buffer: 0 when more are
    needed, negative when the packet is malformed.  [lf_header] is
    [package_length_offset + package_length_size]. *)
Class LengthFunc := {
  lf_header : Z;
  lf_get : list Z -> option Z;
  lf_header_pos : 0 < lf_header;
  lf_total l : Forall byte l -> l <> [] -> is_Some (lf_get l);
  lf_stable l m r : Forall byte (l ++ m) -> lf_get l = Some r -> r <> 0 -> lf_get (l ++ m) = Some r;
  lf_enough l m : Forall byte (l ++ m) -> lf_header <= zlen l -> lf_get (l ++ m) = lf_get l;
}.

(** The labels of [recv_with_length_protocol] *)
Inductive label := DO_RECV | DO_DISPATCH | DO_GET_LENGTH.

Section length_protocol.
Context `{Allocator} `{LengthFunc} (package_max_length : Z) (onPackage : list Z -> Z * bool) (ssl : bool).

Fixpoint length_loop (fuel : nat) (c : Conn) (recv_size : Z) (l : label) : option (Conn * Z) :=
  match fuel with
  | O => None
  | S fuel =>
      let b := buffer c in
      match l with
      | DO_RECV =>
          if removed c then Some (c, SW_OK) else
          let recv_size := u32 (if 0 <? soff b then soff b - slen b else lf_header) in
          match recv c recv_size with
          | (inl e, c) => r ← recv_failed e; Some (c, r)
          | (inr [], c) => Some (c, SW_ERR)
          | (inr d, c) =>
              b ← store (buffer c) d;
              let c := with_buffer c b in
              if recv_wait c then
                if soff b <=? slen b then length_loop fuel c recv_size DO_DISPATCH
                else if ssl then length_loop fuel c recv_size DO_RECV else Some (c, SW_OK)
              else length_loop fuel c recv_size DO_GET_LENGTH
          end
      | DO_DISPATCH =>
          p ← zsub (mem b) 0 (soff b);
          let '(c, r) := dispatch onPackage c p in
          if r <? 0 then Some (c, SW_ERR) else
          if removed c then Some (c, SW_OK) else
          let c := with_wait c false in
          if soff b <? slen b then
            b ← reduce b (soff b);
            length_loop fuel (with_buffer c b) recv_size DO_GET_LENGTH
          else
            let c := with_buffer c (clear b) in
            if ssl then length_loop fuel c recv_size DO_RECV else Some (c, SW_OK)
      | DO_GET_LENGTH =>
          buf ← zsub (mem b) 0 (slen b);
          package_length ← lf_get buf;
          if package_length <? 0 then Some (c, SW_ERR) else
          if package_length =? 0 then Some (c, if slen b =? recv_size then SW_ERR else SW_OK) else
          if package_max_length <? package_length then Some (c, SW_ERR) else
          b ← (if ssize b <? package_length then extend b package_length else Some b);
          let c := with_wait (with_buffer c (with_offset b package_length)) true in
          length_loop fuel c recv_size (if package_length <=? slen b then DO_DISPATCH else DO_RECV)
      end
  end.

(** Every turn asks the script, or looks at bytes in the buffer that no earlier turn
    looked at. *)
Definition turns (c : Conn) : nat := (3 * (length (script c) + length (input c) + Z.to_nat (slen (buffer c))) + 3)%nat.

(** [no_size]: [get_package_length_size] is set and gives 0 *)
Definition recv_with_length_protocol (no_size : bool) (c : Conn) : option (Conn * Z) :=
  if no_size then Some (c, SW_ERR) else
  if skip_recv c then length_loop (turns c) (with_skip c false) 0 DO_GET_LENGTH else length_loop (turns c) c 0 DO_RECV.

(** The reactor calls it for every event, as long as it does not fail. *)
Fixpoint length_events (n : nat) (c : Conn) : option (Conn * Z) :=
  match n with
  | O => Some (c, SW_OK)
  | S n => '(c, r) ← recv_with_length_protocol false c; if r <? 0 then Some (c, r) else length_events n c
  end.
End length_protocol.

(** ** The default length function *)

(** [swoole_type_size] and [swoole_unpack] on a little-endian machine; [-1] for an
    unknown type *)
Definition swoole_type_size (t : ascii) : Z :=
  match t with
  | "c" | "C" => 1
  | "s" | "S" | "n" | "v" => 2
  | "l" | "L" | "N" | "V" => 4
  | "q" | "Q" | "J" | "P" => 8
  | _ => 0
  end%char.

Definition read_le (n : Z) (buf : list Z) (off : Z) : option Z := b ← zsub buf off n; Some (le_value b).
Definition read_be (n : Z) (buf : list Z) (off : Z) : option Z := b ← zsub buf off n; Some (be_value b).

Definition swoole_unpack (t : ascii) (buf : list Z) (off : Z) : option Z :=
  match t with
  | "c" => v ← read_le 1 buf off; Some (s8 v)
  | "C" => read_le 1 buf off
  | "s" => v ← read_le 2 buf off; Some (s16 v)
  | "S" | "v" => read_le 2 buf off
  | "n" => read_be 2 buf off
  | "i" | "l" => v ← read_le 4 buf off; Some (s32 v)
  | "I" | "L" | "V" => read_le 4 buf off
  | "N" => read_be 4 buf off
  | "q" | "Q" | "P" => v ← read_le 8 buf off; Some (s64 v)
  | "J" => v ← read_be 8 buf off; Some (s64 v)
  | _ => Some (-1)
  end%char.

Record LengthConfig := mkLength { package_length_type : ascii; package_length_size : Z; package_length_offset : Z; package_body_offset : Z }.

Definition default_length_func (p : LengthConfig) (buf : list Z) : option Z :=
  if package_length_size p =? 0 then Some SW_ERR else
  if zlen buf <? package_length_offset p + package_length_size p then Some 0 else
  body_length ← swoole_unpack (package_length_type p) buf (package_length_offset p);
  if body_length <? 0 then Some SW_ERR else
  Some (s64 (package_body_offset p + body_length)).

(** [ListenPort::set_length_protocol] *)
Definition set_length_protocol (length_offset : Z) (length_type : ascii) (body_offset : Z) : LengthConfig :=
  mkLength length_type (u8 (swoole_type_size length_type)) (u16 length_offset) (u16 body_offset).

(** ** The packets of a stream *)

Section len_frames.
Context `{LengthFunc} (max : Z).

(** The length of the packet at the front, when it is there as a whole *)
Definition next_frame (l : list Z) : option nat :=
  match l, lf_get l with
  | _ :: _, Some r => if (0 <? r) && (r <=? max) && (r <=? zlen l) then Some (Z.to_nat r) else None
  | _, _ => None
  end.
Fixpoint len_frames_loop (fuel : nat) (l : list Z) : list (list Z) * list Z :=
  match fuel with
  | O => ([], l)
  | S fuel =>
      match next_frame l with
      | Some k => let '(fs, rest) := len_frames_loop fuel (drop k l) in (take k l :: fs, rest)
      | None => ([], l)
      end
  end.
Definition len_frames (l : list Z) : list (list Z) * list Z := len_frames_loop (length l) l.

(** No packet can follow: the length is refused, or is not found in a whole header. *)
Definition malformed (l : list Z) : Prop :=
  l <> [] /\ exists r, lf_get l = Some r /\ (r < 0 \/ max < r \/ r = 0 /\ lf_header <= zlen l).

(** A length function that always finds the length in a whole header. *)
Definition finds_length : Prop := forall l, Forall byte l -> lf_header <= zlen l -> lf_get l <> Some 0.

(** *** Lemmas *)

Lemma next_frame_Some l k : next_frame l = Some k <->
  lf_get l = Some (Z.of_nat k) /\ (0 < k <= length l)%nat /\ Z.of_nat k <= max.
Proof.
  unfold next_frame. destruct l as [|x l]; [split; [done|intros (_ & ? & _); cbn in *; lia]|]. destruct (lf_get _) as [r|]; [|by split; [|intros []]].
  destruct (Z.ltb_spec 0 r), (Z.leb_spec r max), (Z.leb_spec r (zlen (x :: l))); cbn [andb]; split; intros E; try done; try (destruct E as ([= ->] & ? & ?); lia).
  - injection E as <-. split; [f_equal; lia|]. lia.
  - destruct E as ([= ->] & ? & ?). by rewrite Nat2Z.id.
Qed.

Lemma next_frame_None l r : lf_get l = Some r -> r <= 0 \/ max < r \/ zlen l < r -> next_frame l = None.
Proof. intros Hr Hs. destruct (next_frame l) as [k|] eqn:E; [|done]. apply next_frame_Some in E as (E & ? & ?). rewrite Hr in E. injection E as ->. lia. Qed.

Lemma len_frames_loop_fuel n m l : (length l <= n)%nat -> (length l <= m)%nat -> len_frames_loop n l = len_frames_loop m l.
Proof.
  assert (next_frame [] = None) as Hnil by done. revert m l. induction n as [|n IH]; intros m l Hn Hm.
  - destruct l; [|cbn in Hn; lia]. by destruct m.
  - destruct m as [|m]; [by destruct l; [|cbn in Hm; lia]|]. cbn [len_frames_loop]. destruct (next_frame l) as [k|] eqn:E; [|done].
    apply next_frame_Some in E as (_ & ? & _). rewrite (IH m); [done|rewrite length_drop; lia..].
Qed.

Lemma len_frames_eq l :
  len_frames l = match next_frame l with Some k => (take k l :: (len_frames (drop k l)).1, (len_frames (drop k l)).2) | None => ([], l) end.
Proof.
  unfold len_frames at 1. rewrite (len_frames_loop_fuel (length l) (S (length l))) by lia. cbn [len_frames_loop].
  destruct (next_frame l) as [k|]; [|done]. unfold len_frames. rewrite (len_frames_loop_fuel (length l) (length (drop k l))) by (rewrite ?length_drop; lia).
  by destruct (len_frames_loop _ _).
Qed.

(** The induction that follows the cuts. *)
Lemma len_frames_ind (P : list Z -> Prop) :
  (forall l, next_frame l = None -> P l) -> (forall l k, next_frame l = Some k -> P (drop k l) -> P l) -> forall l, P l.
Proof.
  intros Hn Hs l. remember (length l) as n eqn:E. assert (length l <= n)%nat as Hl by lia. clear E. revert l Hl.
  induction n as [|n IH]; intros l Hl; destruct (next_frame l) as [k|] eqn:Ef; [|by apply Hn| |by apply Hn]; apply next_frame_Some in Ef as Hk.
  - lia.
  - apply (Hs _ k Ef), IH. rewrite length_drop. lia.
Qed.

Lemma next_frame_app l m k : Forall byte (l ++ m) -> next_frame l = Some k -> next_frame (l ++ m) = Some k.
Proof.
  intros Hb (Hg & Hk & Hm)%next_frame_Some. apply next_frame_Some. rewrite length_app. split; [|lia]. apply lf_stable; [done|done|lia].
Qed.

Lemma len_frames_app l m : Forall byte (l ++ m) ->
  len_frames (l ++ m) = ((len_frames l).1 ++ (len_frames ((len_frames l).2 ++ m)).1, (len_frames ((len_frames l).2 ++ m)).2).
Proof.
  revert l. apply (len_frames_ind (fun l => Forall byte (l ++ m) -> _)).
  - intros l Hf _. rewrite (len_frames_eq l), Hf. cbn [fst snd app]. by destruct (len_frames (l ++ m)).
  - intros l k Hf IH Hb. pose proof (next_frame_app _ m _ Hb Hf) as Hf'. apply next_frame_Some in Hf as Hk.
    rewrite (len_frames_eq (l ++ m)), Hf', (len_frames_eq l), Hf. cbn [fst snd app]. rewrite drop_app_le, take_app_le by lia. rewrite IH; [done|].
    rewrite <- drop_app_le by lia. by apply Forall_drop.
Qed.

Lemma len_frames_cut l k : next_frame l = Some k -> len_frames l = (take k l :: (len_frames (drop k l)).1, (len_frames (drop k l)).2).
Proof. intros E. by rewrite len_frames_eq, E. Qed.

Lemma len_frames_none l : next_frame l = None -> len_frames l = ([], l).
Proof. intros E. by rewrite len_frames_eq, E. Qed.

(** A packet that stands for itself, and a stream of such packets. *)
Definition packet_ok (p : list Z) : Prop := Forall byte p /\ lf_get p = Some (zlen p) /\ 0 < zlen p <= max.

Lemma len_frames_concat ps l : Forall packet_ok ps -> Forall byte l ->
  len_frames (concat ps ++ l) = (ps ++ (len_frames l).1, (len_frames l).2) /\ Forall byte (concat ps).
Proof.
  intros Hps Hl. induction Hps as [|p ps (Hb & Hg & Hz) _ [IH IHb]]; [split; [change (concat [] ++ l) with l; rewrite app_nil_l; by destruct (len_frames l)|done]|]. cbn [concat]. rewrite <- app_assoc. assert (Forall byte (p ++ concat ps)) as Hbc by by apply Forall_app.
  split; [|done]. rewrite (len_frames_cut (p ++ _) (length p)).
  - rewrite drop_app_length, take_app_length, IH. done.
  - apply next_frame_app; [rewrite app_assoc; by apply Forall_app|]. apply next_frame_Some. split; [done|lia].
Qed.

(** More bytes do not repair a malformed packet. *)
Lemma malformed_app l m : 0 <= max -> Forall byte (l ++ m) -> malformed l -> malformed (len_frames (l ++ m)).2.
Proof.
  intros Hmax Hb (Hne & r & Hr & Hbad). assert (lf_get (l ++ m) = Some r) as Hr'.
  { destruct (decide (r = 0)) as [->|]; [|by apply lf_stable]. rewrite lf_enough; [done|done|lia]. }
  rewrite len_frames_none.
  - split; [by destruct l|]. exists r. split; [done|]. cbn [snd]. rewrite length_app. lia.
  - apply (next_frame_None _ r Hr'). lia.
Qed.
End len_frames.

(** ** The receive loop *)

(** A script without [EFAULT], on which [catch_error] aborts. *)
Definition sane (a : answer) : Prop := a <> Fail EFAULT.

(** What a call of [recv] leaves as it was. *)
Definition only_env (c c' : Conn) : Prop :=
  buffer c' = buffer c /\ packets c' = packets c /\ input c' = input c /\ removed c' = removed c /\
  recv_wait c' = recv_wait c /\ skip_recv c' = skip_recv c.

Lemma recv_sane_cases c n : 0 < n -> Forall sane (script c) ->
  (exists e c' r, recv c n = (inl e, c') /\ recv_failed e = Some r /\ only_env c c' /\ Forall sane (script c') /\
    (r = SW_OK \/ r = SW_ERR) /\ (Forall benign (script c) -> r = SW_OK /\ Forall benign (script c'))) \/
  (exists c', recv c n = (inr [], c') /\ only_env c c' /\ ~ Forall benign (script c)) \/
  (exists d i a sc, recv c n = (inr d, with_env c i sc) /\ d <> [] /\ zlen d <= n /\ d ++ i = input c /\ script c = a :: sc).
Proof.
  intros Hn Hs. unfold recv. destruct (script c) as [|a sc] eqn:Es.
  { left. exists EAGAIN, c, SW_OK. rewrite Es. split_and!; try done. by left. }
  apply Forall_cons in Hs as [Ha Hs]. destruct a as [k| |e].
  - destruct (Z.eqb_spec n 0); [lia|]. destruct (input c) as [|x i] eqn:Ei.
    + left. eexists EAGAIN, _, SW_OK. split; [done|]. unfold only_env. cbn. rewrite Ei. split_and!; try done; [by left|]. by intros [_ ?]%Forall_cons.
    + right. right. destruct (Z.to_nat (Z.min (Z.max 1 k) n)) as [|m] eqn:Em; [lia|]. eexists _, _, _, _. split; [done|]. cbn [take drop]. split_and!; try done.
      * cbn [length]. rewrite length_take. lia.
      * cbn. f_equal. apply take_drop.
  - right. left. eexists. split; [done|]. split; [done|]. by intros [? _]%Forall_cons.
  - left. assert (exists r, recv_failed e = Some r /\ (r = SW_OK \/ r = SW_ERR) /\ (benign (Fail e) -> r = SW_OK)) as (r & Hr & Hor & Hok).
    { unfold sane in Ha. destruct e; try done; eexists; (split; [done|]); split; auto; done. }
    eexists e, _, r. split; [done|]. split_and!; try done. intros [? ?]%Forall_cons. split; [by apply Hok|done].
Qed.

Section length_proof.
Context `{Allocator} `{LengthFunc} (max : Z) (onPackage : list Z -> Z * bool) (ssl : bool) (St : list Z).
Hypothesis Hmax : 0 <= max < 2 ^ 31.
Hypothesis Hheader : lf_header < 2 ^ 31.
Hypothesis HSt : Forall byte St.

Definition well_formed_stream : Prop := ~ malformed max (len_frames max St).2.
Hypothesis Hlive : finds_length \/ well_formed_stream.

(** The program accepts the packets. *)
Definition accepts : Prop := forall p, 0 <= (onPackage p).1 /\ (onPackage p).2 = false.
Definition quiet (c : Conn) : Prop := well_formed_stream /\ accepts /\ Forall benign (script c).

(** The packets given to the program are the first ones of the stream. *)
Definition delivered (c : Conn) : Prop := packets c `prefix_of` (len_frames max St).1.

(** What holds at every label; [bytes] are the contents of the buffer. *)
Record len_common (c : Conn) : Prop := {
  lc_wf : str_wf (buffer c);
  lc_size : 2 * lf_header <= ssize (buffer c);
  lc_removed : removed c = false;
  lc_skip : skip_recv c = false;
  lc_stream : received c ++ input c = St;
  lc_frames : len_frames max (received c) =
    (packets c ++ (len_frames max (contents (buffer c))).1, (len_frames max (contents (buffer c))).2);
  lc_script : Forall sane (script c);
}.

(** The state between two calls: a header comes in, or a packet whose length is known. *)
Record len_inv (c : Conn) : Prop := {
  li_common : len_common c;
  li_pending : next_frame max (contents (buffer c)) = None;
  li_state :
    if recv_wait c then slen (buffer c) < soff (buffer c) <= ssize (buffer c) /\ soff (buffer c) <= max /\ lf_get (contents (buffer c)) = Some (soff (buffer c))
    else soff (buffer c) = 0 /\ slen (buffer c) < lf_header;
}.

(** The state at a label. *)
Definition at_label (c : Conn) (recv_size : Z) (l : label) : Prop :=
  let b := buffer c in
  match l with
  | DO_RECV => len_inv c
  | DO_DISPATCH => len_common c /\ recv_wait c = true /\ next_frame max (contents b) = Some (Z.to_nat (soff b)) /\ 0 < soff b <= slen b /\
      (recv_size = lf_header \/ slen b = soff b)
  | DO_GET_LENGTH => len_common c /\ recv_wait c = false /\ soff b = 0 /\ 0 < slen b /\ recv_size = lf_header
  end.

(** What the loop gives back. *)
Definition outcome (q : Prop) (res : Conn * Z) : Prop :=
  let '(c, r) := res in
  delivered c /\ (r = SW_OK /\ (len_inv c /\ (q -> quiet c) \/ removed c = true /\ skip_recv c = false /\ ~ q) \/ r = SW_ERR /\ ~ q).
Definition weight (l : label) : nat := match l with DO_RECV => 0 | DO_DISPATCH => 1 | DO_GET_LENGTH => 2 end.
Definition measure (c : Conn) (l : label) : nat := (3 * (length (script c) + length (input c) + Z.to_nat (slen (buffer c))) + weight l)%nat.
Definition loop_ok (fuel : nat) : Prop := forall c recv_size l, at_label c recv_size l -> (measure c l < fuel)%nat ->
  exists res, length_loop max onPackage ssl fuel c recv_size l = Some res /\ outcome (quiet c) res.

Lemma outcome_mono (q q' : Prop) res : (q' -> q) -> outcome q res -> outcome q' res.
Proof. destruct res as [c r]. cbn. intros Hq [? [[-> [[? ?]|(? & ? & ?)]]|[-> ?]]]; split; try done; [left|left|right]; (split; [done|]); try tauto. Qed.

Lemma common_stream c : len_common c ->
  len_frames max St = (packets c ++ (len_frames max (contents (buffer c) ++ input c)).1, (len_frames max (contents (buffer c) ++ input c)).2).
Proof.
  intros []. assert (Forall byte (received c ++ input c)) as Hb by by rewrite lc_stream0.
  assert (Forall byte (contents (buffer c) ++ input c)) as Hb' by (unfold received in Hb; rewrite <- app_assoc in Hb; by apply Forall_app in Hb as []).
  rewrite <- lc_stream0, len_frames_app, lc_frames0 by done. cbn [fst snd]. rewrite (len_frames_app max (contents (buffer c))) by done. cbn [fst snd]. by rewrite <- app_assoc.
Qed.

Lemma common_delivered c : len_common c -> delivered c.
Proof. intros Hc. unfold delivered. rewrite (common_stream c Hc). by eexists. Qed.

Lemma contents_bytes c : len_common c -> Forall byte (contents (buffer c) ++ input c).
Proof. intros []. rewrite <- lc_stream0 in HSt. unfold received in HSt. rewrite <- app_assoc in HSt. by apply Forall_app in HSt as []. Qed.

Lemma common_wellformed c : len_common c -> well_formed_stream -> ~ malformed max (contents (buffer c)).
Proof.
  intros Hc Hw Hm. apply Hw. rewrite (common_stream c Hc). cbn [snd]. apply malformed_app; [lia|by apply contents_bytes|done].
Qed.

Lemma extend_len b n : str_wf b -> 0 < n <= max -> exists b', (if ssize b <? n then extend b n else Some b) = Some b' /\ resized b b' /\ n <= ssize b' /\ ssize b <= ssize b'.
Proof.
  intros Hwf Hn. pose proof (st_len _ Hwf). unfold extend. destruct (Z.ltb_spec (ssize b) n).
  - destruct (reserve_ok b n) as (b' & E & Hr & Hs); [done|lia|unfold max_len; lia|]. exists b'. split_and!; try done. lia.
  - exists b. split_and!; [done|by apply resized_refl|lia|lia].
Qed.
(** The part [_do_get_length] *)
Lemma get_length_ok fuel c rs : loop_ok fuel -> at_label c rs DO_GET_LENGTH -> (measure c DO_GET_LENGTH < S fuel)%nat ->
  exists res, length_loop max onPackage ssl (S fuel) c rs DO_GET_LENGTH = Some res /\ outcome (quiet c) res.
Proof.
  intros IH (Hc & Hw & Ho & Hl & ->) Hf. pose proof Hc as []. pose proof (contents_length _ lc_wf0) as Hcl. pose proof (st_len _ lc_wf0) as Hsl. cbn [length_loop]. cbv zeta.
  rewrite contents_sub by (done || lia). cbn [mbind option_bind]. change (Z.to_nat 0) with 0%nat. rewrite drop_0, take_ge by lia.
  assert (contents (buffer c) <> []) as Hne by (intros E; rewrite E in Hcl; cbn in Hcl; lia). pose proof (contents_bytes c Hc) as Hb. apply Forall_app in Hb as Hb'. destruct Hb' as [Hb' _].
  destruct (lf_total (contents (buffer c)) Hb' Hne) as (r & Hr). rewrite Hr. cbn [mbind option_bind]. pose proof (common_delivered c Hc) as Hd.
  assert (r < 0 \/ max < r \/ r = 0 /\ lf_header <= slen (buffer c) -> ~ quiet c) as Hbad.
  { intros Hr' (Hq & _ & _). apply (common_wellformed c Hc Hq). split; [done|]. exists r. split; [done|]. by rewrite Hcl. }
  destruct (Z.ltb_spec r 0); [eexists; split; [done|]; split; [done|]; right; split; [done|]; apply Hbad; lia|].
  destruct (Z.eqb_spec r 0) as [->|Hr0].
  { eexists. split; [done|]. split; [done|]. destruct (Z.eqb_spec (slen (buffer c)) lf_header); [right; split; [done|]; apply Hbad; lia|]. left. split; [done|]. left. split; [|done].
    assert (~ lf_header <= slen (buffer c)). { intros Hle. destruct Hlive as [Hz|Hz]; [apply (Hz (contents (buffer c))); [done|lia|done]|]. apply (common_wellformed c Hc Hz). split; [done|]. exists 0. split; [done|]. lia. }
    constructor; [done| |by rewrite Hw; split; [|lia]]. apply (next_frame_None _ _ _ Hr). lia. }
  destruct (Z.ltb_spec max r); [eexists; split; [done|]; split; [done|]; right; split; [done|]; apply Hbad; lia|].
  destruct (extend_len (buffer c) r) as (b & -> & [Hbwf Hbc Hbl Hbo] & Hbs & Hbs'); [done|lia|]. cbn [mbind option_bind].
  set (c1 := with_wait _ true). assert (len_common c1) as Hc1.
  { constructor; try done; [apply with_offset_wf; [done|lia]|cbn; lia|..]; unfold received; change (contents (buffer c1)) with (contents b); by rewrite Hbc. }
  assert (slen b = slen (buffer c)) as Ebl by done. unfold measure in *. cbn [weight] in *.
  assert (contents (buffer c1) = contents (buffer c)) as Ec1 by exact Hbc.
  destruct (Z.leb_spec r (slen b)); (edestruct (IH c1) as (res & E & Hres); [| |exists res; split; [exact E|]; by apply (outcome_mono (quiet c1))]).
  - split; [done|]. split; [done|]. rewrite Ec1. cbn [buffer c1 with_wait with_buffer with_offset soff slen]. split; [|split; [lia|by left]]. apply next_frame_Some. rewrite Hr, Z2Nat.id by lia. split; [done|]. lia.
  - cbn -[Z.mul]. lia.
  - constructor; [done| |]; rewrite Ec1; [|cbn; split_and!; [lia..|done]]. apply (next_frame_None _ _ _ Hr). lia.
  - cbn -[Z.mul]. lia.
Qed.

(** The packet in front leaves the buffer. *)
Lemma cut_common c b : len_common c -> next_frame max (contents (buffer c)) = Some (Z.to_nat (soff (buffer c))) -> 0 < soff (buffer c) <= slen (buffer c) ->
  str_wf b -> contents b = drop (Z.to_nat (soff (buffer c))) (contents (buffer c)) -> ssize b = ssize (buffer c) ->
  len_common (with_buffer (with_wait (with_packet c (take (Z.to_nat (soff (buffer c))) (contents (buffer c))) false) false) b).
Proof.
  intros [] Hn Ho Hb Hbc Hbs. set (k := Z.to_nat (soff (buffer c))) in *. set (c1 := with_buffer _ b).
  assert (received c1 = received c) as Hrec. { unfold received. cbn. rewrite Hbc, concat_app. cbn. by rewrite app_nil_r, <- app_assoc, take_drop. }
  constructor; try done; [cbn; lia|by rewrite Hrec|]. rewrite Hrec, lc_frames0, (len_frames_cut max _ k Hn). change (contents (buffer c1)) with (contents b). rewrite Hbc. cbn. by rewrite <- app_assoc.
Qed.

(** The part [_do_dispatch] *)
Lemma dispatch_ok fuel c rs : loop_ok fuel -> at_label c rs DO_DISPATCH -> (measure c DO_DISPATCH < S fuel)%nat ->
  exists res, length_loop max onPackage ssl (S fuel) c rs DO_DISPATCH = Some res /\ outcome (quiet c) res.
Proof.
  intros IH (Hc & Hw & Hn & Ho & Hrs) Hf. pose proof Hc as []. pose proof (contents_length _ lc_wf0) as Hcl. pose proof (st_len _ lc_wf0) as Hsl. cbn [length_loop]. cbv zeta.
  rewrite contents_sub by (done || lia). cbn [mbind option_bind]. change (Z.to_nat 0) with 0%nat. rewrite drop_0. set (p := take _ _).
  unfold dispatch. destruct (onPackage p) as [r rm] eqn:Ep. rewrite lc_removed0. cbn [orb].
  assert (r < 0 \/ rm = true -> ~ quiet c) as Hbad. { intros Hr (_ & Hq & _). specialize (Hq p). rewrite Ep in Hq. cbn in Hq. destruct Hq, Hr; [lia|congruence]. }
  assert (delivered (with_packet c p rm)) as Hd.
  { unfold delivered. rewrite (common_stream c Hc). apply (next_frame_app _ _ (input c)) in Hn; [|by apply contents_bytes]. rewrite (len_frames_cut max _ _ Hn). cbn.
    rewrite take_app_le by lia. exists (len_frames max (drop (Z.to_nat (soff (buffer c))) (contents (buffer c) ++ input c))).1. by rewrite <- app_assoc. }
  destruct (Z.ltb_spec r 0). { eexists. split; [done|]. split; [done|]. right. split; [done|]. apply Hbad. by left. }
  destruct rm; cbn [removed with_packet]. { eexists. split; [done|]. split; [done|]. left. split; [done|]. right. split; [done|]. split; [done|]. apply Hbad. by right. }
  unfold measure in *. cbn [weight] in *. destruct (Z.ltb_spec (soff (buffer c)) (slen (buffer c))).
  - destruct (reduce_ok (buffer c) (soff (buffer c))) as (b & -> & Hb & Hbc & Hbs & Hbo & Hbl); [done|lia|]. cbn [mbind option_bind].
    pose proof (cut_common c b Hc Hn Ho Hb Hbc Hbs) as Hc1. set (c1 := with_buffer _ b) in *. destruct (Z.eqb_spec (soff (buffer c)) 0); [lia|].
    edestruct (IH c1 rs DO_GET_LENGTH) as (res & E & Hres); [| |exists res; split; [exact E|]; by apply (outcome_mono (quiet c1))]; [|unfold measure; cbn -[Nat.mul]; lia].
    split; [done|]. split; [done|]. cbn. split; [lia|]. split; [lia|]. destruct Hrs; [done|lia].
  - destruct (clear_ok (buffer c) lc_wf0) as [Hb Hbc]. assert (len_inv (with_buffer (with_wait (with_packet c p false) false) (clear (buffer c)))) as Hc1.
    { constructor; [|done|cbn; pose proof lf_header_pos; lia]. apply cut_common; try done. rewrite Hbc. symmetry. apply drop_ge. lia. }
    set (c1 := with_buffer _ _) in *. destruct ssl eqn:Essl.
    + edestruct (IH c1 rs DO_RECV) as (res & E & Hres); [| |exists res; split; [by rewrite Essl in E|]; by apply (outcome_mono (quiet c1))]; [done|unfold measure; cbn -[Nat.mul]; lia].
    + eexists. split; [done|]. split; [by apply common_delivered, Hc1|]. left. split; [done|]. by left.
Qed.

(** Received bytes come into the buffer. *)
Lemma store_common c d i a sc : len_inv c -> slen (buffer c) + zlen d <= ssize (buffer c) -> d ++ i = input c -> script c = a :: sc ->
  exists b, store (buffer c) d = Some b /\ len_common (with_buffer (with_env c i sc) b) /\ contents b = contents (buffer c) ++ d /\
    soff b = soff (buffer c) /\ slen b = slen (buffer c) + zlen d /\ ssize b = ssize (buffer c).
Proof.
  intros [[] Hp _] Hl Hdi Hsc. destruct (store_ok (buffer c) d) as (b & E & Hb & Hbc & Hbo & Hbl & Hbs); [done|lia|]. exists b. split; [done|]. split_and!; try done.
  set (c1 := with_buffer _ b). assert (received c1 = received c ++ d) as Hr1 by (unfold received; cbn; by rewrite Hbc, app_assoc).
  assert (received c1 ++ input c1 = St) as Hst by (rewrite Hr1, <- app_assoc; cbn; by rewrite Hdi).
  constructor; try done; [cbn; lia| |cbn; rewrite Hsc in lc_script0; by apply Forall_cons in lc_script0 as []]. rewrite Hr1, len_frames_app, lc_frames0.
  - rewrite (len_frames_none _ _ Hp). cbn [fst snd]. rewrite app_nil_r. change (contents (buffer c1)) with (contents b). by rewrite Hbc.
  - rewrite <- Hr1. rewrite <- Hst in HSt. by apply Forall_app in HSt as [].
Qed.

Lemma only_env_inv c c' : only_env c c' -> Forall sane (script c') -> len_inv c -> len_inv c'.
Proof.
  intros (E1 & E2 & E3 & E4 & E5 & E6) Hs [[] ? ?]. constructor; [constructor|..]; unfold received; rewrite ?E1, ?E2, ?E3, ?E4, ?E5, ?E6; try done.
Qed.

(** The part [_do_recv] *)
Lemma do_recv_ok fuel c rs : loop_ok fuel -> len_inv c -> (measure c DO_RECV < S fuel)%nat ->
  exists res, length_loop max onPackage ssl (S fuel) c rs DO_RECV = Some res /\ outcome (quiet c) res.
Proof.
  intros IH Hc Hf. pose proof Hc as [[] Hp Hst]. pose proof (st_len _ lc_wf0) as Hsl. pose proof lf_header_pos as Hhp. cbn [length_loop]. cbv zeta. rewrite lc_removed0.
  set (n := if 0 <? soff (buffer c) then _ else _). assert (0 < n < 2 ^ 32 /\ slen (buffer c) + n <= ssize (buffer c) /\ (recv_wait c = false -> n = lf_header) /\
    (recv_wait c = true -> slen (buffer c) + n = soff (buffer c))) as (Hn & Hfit & Hnf & Hnt).
  { unfold n. destruct (recv_wait c), (Z.ltb_spec 0 (soff (buffer c))); split_and!; try done; lia. }
  rewrite (uN_small _ n) by (unfold fits; lia). destruct (recv_sane_cases c n) as [(e & c1 & r & -> & -> & Hoe & Hsc & Hor & Hq)|[(c1 & -> & Hoe & Hq)|(d & i & a & sc & -> & Hd & Hdl & Hdi & Hsc)]]; [lia|done|..].
  - cbn [mbind option_bind]. eexists. split; [done|]. pose proof (only_env_inv _ _ Hoe Hsc Hc) as Hc1. split; [by apply common_delivered, Hc1|].
    destruct Hor as [-> | ->]; [left|right]; (split; [done|]).
    + left. split; [done|]. intros (? & ? & Hb). split_and!; try done. by apply Hq.
    + intros (_ & _ & Hb). by destruct (Hq Hb).
  - eexists. split; [done|]. split; [unfold delivered; destruct Hoe as (_ & -> & _); by apply common_delivered, Hc|]. right. split; [done|]. by intros (_ & _ & ?).
  - destruct d as [|x d]; [done|]. set (D := x :: d) in *. destruct (store_common c D i a sc Hc) as (b & Eb & Hc1 & Hbc & Hbo & Hbl & Hbs); [lia|done|done|].
    cbn [with_env buffer]. rewrite Eb. cbn [mbind option_bind]. set (c1 := with_buffer _ b) in *. assert (quiet c -> quiet c1) as Hq.
    { intros (? & ? & Hb). rewrite Hsc in Hb. apply Forall_cons in Hb as []. by split_and!. }
    assert (0 < zlen D) as HD by (cbn; lia). assert (zlen D + Z.of_nat (length i) = Z.of_nat (length (input c))) as HDi by (rewrite <- Hdi, length_app; lia).
    assert (measure c1 DO_GET_LENGTH < fuel)%nat as Hm by (unfold measure in *; rewrite Hsc in Hf; cbn -[Nat.mul zlen D] in *; lia).
    change (recv_wait c1) with (recv_wait c). destruct (recv_wait c) eqn:Ew.
    + specialize (Hnt eq_refl). destruct Hst as ((? & ?) & ? & Hg). pose proof (contents_bytes _ Hc1) as Hby. change (contents (buffer c1)) with (contents b) in Hby. apply Forall_app in Hby as [Hby _].
      assert (lf_get (contents b) = Some (soff b)) as Hg1. { rewrite Hbc in *. rewrite Hbo. apply lf_stable; [done|done|lia]. } pose proof (contents_length b (lc_wf _ Hc1)) as Hcl.
      destruct (Z.leb_spec (soff b) (slen b)).
      * edestruct (IH c1 n DO_DISPATCH) as (res & E & Hres); [| |exists res; split; [exact E|]; by apply (outcome_mono (quiet c1))]; [|unfold measure in *; cbn [weight] in *; lia].
        split; [done|]. split; [done|]. change (buffer c1) with b. split; [|split; [lia|right; lia]]. apply next_frame_Some. rewrite Hg1, Z2Nat.id by lia. split; [done|]. lia.
      * assert (len_inv c1) as Hi1.
        { constructor; [done| |]; change (buffer c1) with b; [|change (recv_wait c1) with (recv_wait c); rewrite Ew; split_and!; try done; lia].
          apply (next_frame_None _ _ _ Hg1). lia. }
        destruct ssl eqn:Essl.
        -- edestruct (IH c1 n DO_RECV) as (res & E & Hres); [| |exists res; split; [by rewrite Essl in E|]; by apply (outcome_mono (quiet c1))]; [done|unfold measure in *; cbn [weight] in *; lia].
        -- eexists. split; [done|]. split; [by apply common_delivered|]. left. split; [done|]. by left.
    + rewrite (Hnf eq_refl) in *. edestruct (IH c1 lf_header DO_GET_LENGTH) as (res & E & Hres); [| |exists res; split; [exact E|]; by apply (outcome_mono (quiet c1))]; [|done].
      split; [done|]. split; [done|]. change (buffer c1) with b. destruct Hst. split_and!; [lia|lia|done].
Qed.

Lemma length_loop_ok fuel : loop_ok fuel.
Proof.
  induction fuel as [|fuel IH]; intros c rs l Hl Hf; [lia|]. destruct l; [by apply do_recv_ok|by apply dispatch_ok|by apply get_length_ok].
Qed.

Lemma length_events_ok n c q : outcome q (c, SW_OK) -> exists res, length_events max onPackage ssl n c = Some res /\ outcome q res.
Proof.
  revert c. induction n as [|n IH]; intros c Hc; cbn [length_events]; [by eexists|]. unfold recv_with_length_protocol.
  pose proof Hc as [Hd [[_ [[Hi Hq]|(Hr & Hs & Hq)]]|[? ?]]]; [| |done].
  - rewrite (lc_skip _ (li_common _ Hi)). destruct (length_loop_ok (turns c) c 0 DO_RECV Hi) as ([c1 r] & -> & Hres); [unfold turns, measure, weight; lia|]. cbn [mbind option_bind].
    apply (outcome_mono _ q _ Hq) in Hres. destruct (Z.ltb_spec r 0); [by eexists|]. apply IH. destruct Hres as [? [[-> ?]|[-> ?]]]; [|done]. split; [done|]. by left.
  - rewrite Hs. assert (turns c = S (pred (turns c))) as -> by (unfold turns; lia). cbn [length_loop]. rewrite Hr. cbn. by apply IH.
Qed.
End length_proof.

(** ** The default length function keeps the contract *)

Lemma zsub_app_l (l m : list Z) off n : off + n <= zlen l -> zsub (l ++ m) off n = zsub l off n.
Proof.
  intros Hl. destruct (zsub l off n) as [d|] eqn:E.
  - apply zsub_Some in E as (? & ? & ? & ->). apply zsub_Some. rewrite length_app. split_and!; [lia..|]. rewrite drop_app_le, take_app_le by (rewrite ?length_drop; lia). done.
  - destruct (zsub (l ++ m) off n) as [d|] eqn:E'; [|done]. apply zsub_Some in E' as (? & ? & ? & ->). assert (is_Some (zsub l off n)) as [? ?]; [|congruence].
    eexists. by apply zsub_Some.
Qed.

(** A configuration as [set_length_protocol] makes it from a known type. *)
Record length_config_ok (p : LengthConfig) : Prop := {
  lp_size : package_length_size p = swoole_type_size (package_length_type p);
  lp_known : 0 < package_length_size p;
  lp_offset : 0 <= package_length_offset p < 2 ^ 16;
  lp_body : 0 <= package_body_offset p < 2 ^ 16;
}.

Lemma s64_range w z : 0 < w <= 64 -> - 2 ^ 63 <= sN w z < 2 ^ 63.
Proof.
  intros Hw. unfold sN. pose proof (Z.mod_pos_bound (z + 2 ^ (w - 1)) (2 ^ w) ltac:(apply Z.pow_pos_nonneg; lia)). assert (2 ^ w = 2 * 2 ^ (w - 1)) as E by (rewrite <- Z.pow_succ_r by lia; f_equal; lia).
  assert (2 ^ (w - 1) <= 2 ^ 63) by (apply Z.pow_le_mono_r; lia). lia.
Qed.

(** A known type reads as many bytes as [swoole_type_size] says. *)
Lemma unpack_cases t : 0 < swoole_type_size t -> exists f,
  (forall b, Forall byte b -> zlen b = swoole_type_size t -> - 2 ^ 63 <= f b < 2 ^ 63) /\
  forall buf off, swoole_unpack t buf off = (b ← zsub buf off (swoole_type_size t); Some (f b)).
Proof.
  intros Ht. assert (forall n (f : Z -> Z) buf off, (v ← read_le n buf off; Some (f v)) = (b ← zsub buf off n; Some (f (le_value b)))) as Hle.
  { intros n f buf off. unfold read_le. by destruct (zsub buf off n). }
  assert (forall n b, Forall byte b -> zlen b = n -> 0 < n <= 4 -> (- 2 ^ 63 <= le_value b < 2 ^ 63) /\ (- 2 ^ 63 <= be_value b < 2 ^ 63)) as Hv.
  { intros n b Hb Hn Hn4. pose proof (le_value_bounds b Hb). pose proof (be_value_bounds b Hb). assert (256 ^ zlen b <= 256 ^ 4) by (apply Z.pow_le_mono_r; lia). lia. }
  destruct t as [[] [] [] [] [] [] [] []]; try (cbn in Ht; lia); cbn -[zsub sN Z.pow];
    first [exists (fun b => le_value b); split; [intros b Hb Hn; eapply Hv; [done|exact Hn|lia]|reflexivity]
          | exists (fun b => be_value b); split; [intros b Hb Hn; eapply Hv; [done|exact Hn|lia]|reflexivity]
          | exists (fun b => s8 (le_value b)); split; [intros; apply s64_range; lia|by intros; apply Hle]
          | exists (fun b => s16 (le_value b)); split; [intros; apply s64_range; lia|by intros; apply Hle]
          | exists (fun b => s32 (le_value b)); split; [intros; apply s64_range; lia|by intros; apply Hle]
          | exists (fun b => s64 (le_value b)); split; [intros; apply s64_range; lia|by intros; apply Hle]
          | exists (fun b => s64 (be_value b)); split; [intros; apply s64_range; lia|intros buf off; unfold read_be; by destruct (zsub buf off _)]].
Qed.

(** A length function that answers 0 until a header of [n] bytes is there, and then
    what the header says. *)
Definition reads_header (n : Z) (get : list Z -> option Z) (f : list Z -> Z) : Prop :=
  forall buf, Forall byte buf -> get buf = if zlen buf <? n then Some 0 else Some (f (take (Z.to_nat n) buf)).

Definition fixed_header (n : Z) (get : list Z -> option Z) (Hn : 0 < n) (Hg : exists f, reads_header n get f) : LengthFunc.
Proof.
  refine {| lf_header := n; lf_get := get |}; [done|..].
  - intros l Hb _. destruct Hg as (f & Hf). rewrite Hf by done. by destruct (_ <? _).
  - intros l m r Hb. pose proof Hb as [Hl _]%Forall_app. destruct Hg as (f & Hf). rewrite !Hf by done. rewrite length_app.
    destruct (Z.ltb_spec (zlen l) n); intros [= <-]; [done|]. intros _. destruct (Z.ltb_spec (Z.of_nat (length l + length m)) n); [lia|]. by rewrite take_app_le by lia.
  - intros l m Hb Hh. pose proof Hb as [Hl _]%Forall_app. destruct Hg as (f & Hf). rewrite !Hf by done. rewrite length_app.
    destruct (Z.ltb_spec (zlen l) n); [lia|]. destruct (Z.ltb_spec (Z.of_nat (length l + length m)) n); [lia|]. by rewrite take_app_le by lia.
Defined.

Lemma default_reads_header p : length_config_ok p -> exists f,
  reads_header (package_length_offset p + package_length_size p) (default_length_func p) f /\
  (0 < package_body_offset p -> forall h, Forall byte h -> zlen h = package_length_offset p + package_length_size p -> f h <> 0).
Proof.
  intros []. rewrite lp_size0 in *. destruct (unpack_cases (package_length_type p) lp_known0) as (f & Hfb & Hf). set (n := swoole_type_size _) in *. set (off := package_length_offset p) in *.
  exists (fun h => let v := f (drop (Z.to_nat off) h) in if v <? 0 then SW_ERR else s64 (package_body_offset p + v)). split.
  - intros buf Hb. unfold default_length_func. fold off. rewrite Hf, lp_size0. fold n.
    destruct (Z.eqb_spec n 0); [lia|]. destruct (Z.ltb_spec (zlen buf) (off + n)); [done|]. destruct (zsub_in_bounds buf off n) as (d & Hd); [lia..|]. rewrite Hd. cbn [mbind option_bind].
    apply zsub_Some in Hd as (_ & _ & _ & ->). rewrite skipn_firstn_comm. replace (Z.to_nat (off + n) - Z.to_nat off)%nat with (Z.to_nat n) by lia. by destruct (_ <? 0).
  - intros Hbody h Hh Hl. cbv zeta. specialize (Hfb (drop (Z.to_nat off) h) (Forall_drop _ _ _ Hh)). rewrite length_drop in Hfb. specialize (Hfb ltac:(lia)).
    destruct (Z.ltb_spec (f (drop (Z.to_nat off) h)) 0); [done|]. unfold sN. intros E. set (v := f _) in *. pose proof (Z.div_mod (package_body_offset p + v + 2 ^ (64 - 1)) (2 ^ 64) ltac:(lia)). lia.
Qed.

Definition default_length (p : LengthConfig) (Hp : length_config_ok p) : LengthFunc.
Proof.
  apply (fixed_header (package_length_offset p + package_length_size p) (default_length_func p)).
  - destruct Hp. lia.
  - destruct (default_reads_header p Hp) as (f & Hf & _). by exists f.
Defined.

Lemma default_finds_length p Hp : 0 < package_body_offset p -> @finds_length (default_length p Hp).
Proof.
  intros Hb l Hl Hh. change (lf_header) with (package_length_offset p + package_length_size p) in Hh. change (default_length_func p l <> Some 0). destruct (default_reads_header p Hp) as (f & Hf & Hnz).
  rewrite Hf by done. destruct (Z.ltb_spec (zlen l) (package_length_offset p + package_length_size p)); [lia|]. intros [= E]. revert E. destruct Hp. apply Hnz; [done|by apply Forall_take|]. rewrite take_zlen; lia.
Qed.

(** ** A length of zero *)

(** The length is a big-endian word at the front and counts the whole packet. *)
Definition plain_config : LengthConfig := set_length_protocol 0 "N"%char 0.
Lemma plain_config_ok : length_config_ok plain_config.
Proof. constructor; vm_compute; intuition discriminate. Qed.
Definition plain_length : LengthFunc := default_length plain_config plain_config_ok.

Section zero_length.
Context `{Allocator} (max : Z).
#[local] Existing Instance plain_length.
Definition yes (p : list Z) : Z * bool := (0, false).

Lemma zeros_length k : (4 <= k)%nat -> lf_get (repeat 0 k) = Some 0.
Proof.
  intros Hk. change (default_length_func plain_config (repeat 0 k) = Some 0). unfold default_length_func. rewrite repeat_length. change (package_length_size plain_config) with 4.
  change (package_length_offset plain_config) with 0. destruct (Z.eqb_spec 4 0); [done|]. destruct (Z.ltb_spec (Z.of_nat k) (0 + 4)); [lia|].
  change (package_length_type plain_config) with "N"%char. cbn [swoole_unpack]. unfold read_be. do 4 (destruct k as [|k]; [lia|]). cbn [repeat].
  assert (zsub (0 :: 0 :: 0 :: 0 :: repeat 0 k) 0 4 = Some [0; 0; 0; 0]) as -> by (apply zsub_Some; cbn [length]; split_and!; try lia; done). reflexivity.
Qed.

Record zero_state (c : Conn) (L k : nat) : Prop := {
  zs_wf : str_wf (buffer c);
  zs_off : soff (buffer c) = 0;
  zs_flags : removed c = false /\ skip_recv c = false /\ recv_wait c = false;
  zs_contents : contents (buffer c) = repeat 0 L;
  zs_length : (L mod 4 = 3)%nat;
  zs_input : input c = repeat 0 (4 * k);
  zs_script : script c = repeat (Take 4) k;
}.

(** Four more bytes are appended, whether they fit or not. *)
Lemma zero_step c L k : zero_state c L (S k) ->
  match recv_with_length_protocol max yes false false c with
  | Some (c', r) => r = SW_OK /\ zero_state c' (L + 4) k /\ ssize (buffer c') = ssize (buffer c)
  | None => True
  end.
Proof.
  intros [Hwf Ho (Hr & Hs & Hw) Hc Hm Hi Hsc]. unfold recv_with_length_protocol. rewrite Hs. set (fuel := turns c). assert (exists m, fuel = S (S m)) as (m & ->) by (exists (fuel - 2)%nat; unfold fuel, turns; lia).
  cbn [length_loop]. cbv zeta. rewrite Hr, Ho. change (u32 (if 0 <? 0 then 0 - slen (buffer c) else lf_header)) with 4. unfold recv. rewrite Hsc, Hi. cbn [repeat].
  replace (4 * S k)%nat with (4 + 4 * k)%nat by lia. rewrite repeat_app. cbn [repeat app Z.eqb]. change (Z.to_nat (Z.min (Z.max 1 4) 4)) with 4%nat. cbn [take drop with_env buffer]. rewrite take_0, drop_0.
  destruct (store (buffer c) [0; 0; 0; 0]) as [b|] eqn:Eb; cbn [mbind option_bind]; [|done]. pose proof (contents_length _ Hwf) as Hcl. rewrite Hc, repeat_length in Hcl.
  assert (slen (buffer c) + 4 <= ssize (buffer c)) as Hfit. { unfold store in Eb. destruct (zblit _ _ _) as [mm|] eqn:Em; [|done]. apply zblit_Some in Em as (? & Hz & _). pose proof (st_mem _ Hwf). cbn [length] in Hz. lia. }
  destruct (store_ok (buffer c) [0; 0; 0; 0]) as (b' & Eb' & Hb & Hbc & Hbo & Hbl & Hbs); [done|cbn; lia|]. rewrite Eb in Eb'. injection Eb' as <-. change (zlen [0; 0; 0; 0]) with 4 in Hbl.
  cbn [with_buffer with_env recv_wait buffer]. rewrite Hw. cbn [buffer]. pose proof (contents_length _ Hb) as Hbcl. rewrite (contents_sub b) by (done || lia). cbn [mbind option_bind]. change (Z.to_nat 0) with 0%nat. rewrite drop_0, take_ge by lia.
  assert (3 <= L)%nat by (destruct L as [|[|[|L]]]; cbn in Hm; lia). assert (contents b = repeat 0 (L + 4)) as Hb4 by (rewrite Hbc, Hc, repeat_app; done). rewrite Hb4, zeros_length by lia. cbn.
  destruct (Z.eqb_spec (slen b) 4); [lia|]. split; [done|]. split; [|done]. constructor; try done; [cbn; lia|]. rewrite <- (Nat.mul_1_l 4) at 1. by rewrite Nat.Div0.mod_add.
Qed.

Lemma zeros_overflow k c L : zero_state c L k -> ssize (buffer c) < Z.of_nat (L + 4 * k) -> exists n, length_events max yes false n c = None.
Proof.
  revert c L. induction k as [|k IH]; intros c L Hz Hs.
  - destruct Hz. pose proof (contents_length _ zs_wf0) as Hcl. rewrite zs_contents0, repeat_length in Hcl. pose proof (st_len _ zs_wf0). lia.
  - pose proof (zero_step c L k Hz) as Hstep. destruct (recv_with_length_protocol max yes false false c) as [[c' r]|] eqn:E; [|exists 1%nat; cbn [length_events]; by rewrite E].
    destruct Hstep as (-> & Hz' & Hs'). destruct (IH c' (L + 4)%nat Hz') as (n & Hn); [lia|]. exists (S n). cbn [length_events]. rewrite E. cbn. exact Hn.
Qed.
End zero_length.

(** ** Properties *)

Lemma new_conn_inv `{Allocator} `{LengthFunc} max size st sc : 2 * lf_header <= size <= max_len -> Forall sane sc -> len_inv max st (new_conn size st sc).
Proof.
  intros Hs Hsc. pose proof lf_header_pos. destruct (alloc_wf size) as (Hwf & Hc & Hge); [lia|].
  assert (received (new_conn size st sc) = []) as Er by (unfold received; cbn [new_conn packets buffer concat app]; exact Hc).
  constructor; [constructor|..]; rewrite ?Er; try done; cbn in *; lia.
Qed.

Lemma length_run `{Allocator} `{LengthFunc} max onPackage ssl size st sc n :
  0 <= max < 2 ^ 31 -> lf_header < 2 ^ 31 -> 2 * lf_header <= size <= max_len -> Forall byte st ->
  ~ malformed max (len_frames max st).2 -> (forall p, 0 <= (onPackage p).1 /\ (onPackage p).2 = false) -> Forall benign sc ->
  exists c, length_events max onPackage ssl n (new_conn size st sc) = Some (c, SW_OK) /\
    received c ++ input c = st /\ len_frames max (received c) = (packets c, contents (buffer c)).
Proof.
  intros Hm Hh Hs Hb Hw Hp Hsc. assert (Forall sane sc) as Hsc' by (eapply Forall_impl; [exact Hsc|]; intros [] ?; [done|done|]; by destruct err).
  pose proof (new_conn_inv max size st sc Hs Hsc') as Hi. pose proof (common_delivered max st Hb _ (li_common _ _ _ Hi)) as Hd.
  destruct (length_events_ok max onPackage ssl st Hm Hh Hb (or_intror Hw) n (new_conn size st sc) True) as ([c r] & -> & Hres).
  - split; [by apply Hd|]. left. split; [done|]. left. split; [done|]. by intros _.
  - destruct Hres as [_ [[-> [[Hc _]|(_ & _ & [])]]|[_ []]]]; try done. exists c. split; [done|]. destruct Hc as [[] Hn _]. split; [done|]. rewrite lc_frames0, (len_frames_none _ _ Hn). cbn. by rewrite app_nil_r.
Qed.

(** A stream of packets, for the protocols that use the loop. *)
Lemma packets_delivered `{Allocator} `{LengthFunc} max onPackage ssl size ps sc n :
  0 <= max < 2 ^ 31 -> lf_header < 2 ^ 31 -> 2 * lf_header <= size <= max_len -> Forall (packet_ok max) ps ->
  (forall p, 0 <= (onPackage p).1 /\ (onPackage p).2 = false) -> Forall benign sc ->
  exists c, length_events max onPackage ssl n (new_conn size (concat ps) sc) = Some (c, SW_OK) /\ packets c `prefix_of` ps /\ (input c = [] -> packets c = ps).
Proof.
  intros Hm Hh Hs Hps Hp Hsc. destruct (len_frames_concat max ps [] Hps) as [E Hb]; [done|]. rewrite !app_nil_r in E. cbn in E.
  destruct (length_run max onPackage ssl size (concat ps) sc n) as (c & Ec & Hst & Hf); try done; [rewrite E; by intros [? _]|]. exists c. split; [done|].
  assert (Forall byte (received c ++ input c)) as Hb' by by rewrite Hst. pose proof (len_frames_app max (received c) (input c) Hb') as Ea. rewrite Hst, E, Hf in Ea. injection Ea as Ea1 Ea2. split; [by eexists|].
  intros Hi. rewrite Hi, app_nil_r in Hst. rewrite Hst, E in Hf. by injection Hf.
Qed.

(** C9: packets that carry their length: however the network cuts the stream, the
    receive loop stays inside its buffer, never fails, and gives to the program, in
    order, exactly the packets of what it received, each as long as the length function
    says; the rest waits in the buffer.  It holds for every length function that keeps
    its contract and every stream without a malformed packet.  Conditions: the buffer
    has room for two headers, the limit is below 2 GB, recv may wait but does not fail,
    and the program takes the packets and does not close the connection. *)
Theorem length_protocol_correct `{Allocator} `{LengthFunc} max onPackage ssl size st sc n :
  0 <= max < 2 ^ 31 -> lf_header < 2 ^ 31 -> 2 * lf_header <= size <= max_len -> Forall byte st ->
  ~ malformed max (len_frames max st).2 -> (forall p, 0 <= (onPackage p).1 /\ (onPackage p).2 = false) -> Forall benign sc ->
  exists c, length_events max onPackage ssl n (new_conn size st sc) = Some (c, SW_OK) /\
    received c ++ input c = st /\ len_frames max (received c) = (packets c, contents (buffer c)).
Proof. apply length_run. Qed.

Lemma length_protocol_correct_witness :
  let st := [0; 0; 0; 5; 97; 0; 0; 0; 4; 0; 0; 0; 6; 98; 99; 0; 0] in
  exists c, @length_events zero_allocator plain_length 100 yes false 8 (@new_conn zero_allocator 8 st [Take 2; Take 100; Take 3; Take 2; Take 9; Take 9; Take 9; Take 1]) = Some (c, SW_OK) /\
    packets c = [[0; 0; 0; 5; 97]; [0; 0; 0; 4]; [0; 0; 0; 6; 98; 99]] /\ received c ++ input c = st.
Proof.
  cbv zeta. destruct (@length_protocol_correct zero_allocator plain_length 100 yes false 8 [0; 0; 0; 5; 97; 0; 0; 0; 4; 0; 0; 0; 6; 98; 99; 0; 0]
    [Take 2; Take 100; Take 3; Take 2; Take 9; Take 9; Take 9; Take 1] 8) as (c & E & Hr & _).
  - lia.
  - reflexivity.
  - split; [vm_compute; discriminate|unfold max_len; lia].
  - repeat constructor; done.
  - intros (_ & r & Hr & Hbad). vm_compute in Hr. injection Hr as <-. change (0 < 0 \/ 100 < 0 \/ 0 = 0 /\ 4 <= 2) in Hbad. lia.
  - intros p. cbn. lia.
  - by repeat constructor.
  - exists c. split; [exact E|]. split; [|exact Hr]. vm_compute in E. injection E as <-. reflexivity.
Defined.

(** With a length function that finds the length in every whole header, no bytes, no
    errors of [recv] and no answers of the program make the loop leave its buffer. *)
Lemma length_run_safe `{Allocator} `{LengthFunc} max onPackage ssl size st sc n :
  0 <= max < 2 ^ 31 -> lf_header < 2 ^ 31 -> 2 * lf_header <= size <= max_len -> finds_length -> Forall byte st -> Forall sane sc ->
  exists c r, length_events max onPackage ssl n (new_conn size st sc) = Some (c, r) /\ packets c `prefix_of` (len_frames max st).1.
Proof.
  intros Hm Hh Hs Hf Hb Hsc. pose proof (new_conn_inv max size st sc Hs Hsc) as Hi. pose proof (common_delivered max st Hb _ (li_common _ _ _ Hi)) as Hd.
  destruct (length_events_ok max onPackage ssl st Hm Hh Hb (or_introl Hf) n (new_conn size st sc) (quiet max onPackage st (new_conn size st sc))) as ([c r] & -> & Hres).
  - split; [by apply Hd|]. left. split; [done|]. left. by split.
  - exists c, r. split; [done|]. by destruct Hres.
Qed.

(** When the length counts the whole packet, a length of zero is taken for a
    length that is not there yet.  A peer that sends three zero bytes and then only
    zero bytes makes the loop append four bytes at every event until it writes
    behind the buffer, whatever its size and whatever [package_max_length]. *)
Theorem zero_length_overflows `{Allocator} max size : 8 <= size <= max_len ->
  exists st sc n, Forall benign sc /\ Forall byte st /\ @length_events _ plain_length max yes false n (new_conn size st sc) = None.
Proof.
  intros Hs. destruct (alloc_wf size) as (Hwf & Hc & Hge); [lia|]. set (k := Z.to_nat (ssize (alloc size))). exists (repeat 0 (3 + 4 * k)), (Take 3 :: repeat (Take 4) k).
  assert (Forall benign (Take 3 :: repeat (Take 4) k) /\ Forall byte (repeat 0 (3 + 4 * k))) as [Hb1 Hb2].
  { split; [constructor; [done|]|]; apply Forall_forall; intros x Hx%list_elem_of_In%repeat_spec; by subst. }
  pose proof (st_len _ Hwf). set (c := new_conn size _ _). destruct (store_ok (buffer c) [0; 0; 0]) as (b & Eb & Hb & Hbc & Hbo & Hbl & Hbs); [done|cbn in *; lia|].
  set (c1 := with_buffer (with_env c (repeat 0 (4 * k)) (repeat (Take 4) k)) b). assert (@recv_with_length_protocol _ plain_length max yes false false c = Some (c1, SW_OK)) as E.
  { unfold recv_with_length_protocol. change (skip_recv c) with false. assert (exists m, turns c = S (S m)) as (m & ->) by (exists (turns c - 2)%nat; unfold turns; lia).
    cbn [length_loop]. cbv zeta. change (removed c) with false. change (soff (buffer c)) with 0. change (u32 (if 0 <? 0 then 0 - slen (buffer c) else lf_header)) with 4. unfold recv.
    change (script c) with (Take 3 :: repeat (Take 4) k). change (input c) with (0 :: 0 :: 0 :: repeat 0 (4 * k)). cbn [Z.eqb]. change (Z.to_nat (Z.min (Z.max 1 3) 4)) with 3%nat. cbn [take drop].
    rewrite take_0, drop_0. cbn [with_env buffer]. rewrite Eb. cbn [mbind option_bind with_buffer with_env recv_wait buffer c new_conn].
    change (slen (buffer c)) with 0 in Hbl. rewrite (contents_sub b) by (done || (cbn in *; lia)). cbn [mbind option_bind]. pose proof (contents_length _ Hb). change (Z.to_nat 0) with 0%nat. rewrite drop_0, take_ge, Hbc by lia.
    change (slen (buffer c)) with 0 in Hbl. cbn in Hbl. rewrite Hbl. reflexivity. }
  destruct (@zeros_overflow _ max k c1 3) as (n & Hn).
  - by constructor.
  - change (ssize (buffer c1)) with (ssize b). rewrite Hbs. change (ssize (buffer c)) with (ssize (alloc size)). unfold k. lia.
  - exists (S n). split; [done|]. split; [done|]. cbn [length_events]. rewrite E. cbn. exact Hn.
Qed.

Lemma zero_length_overflows_witness : exists st sc n, Forall benign sc /\ Forall byte st /\
  @length_events zero_allocator plain_length 2097152 yes false n (new_conn 8192 st sc) = None.
Proof. apply (zero_length_overflows 2097152 8192). unfold max_len. lia. Defined.
