(* ===== verification/Mqtt.v ===== *)
(** * The length of an MQTT packet

    [src/protocol/mqtt.cc]: the remaining length of the fixed header, in one to four
    bytes of seven bits, with the contract of a length function. *)

From S2P Require Import Prelude MemPool Str Protocol LengthProtocol.

(** ** Definitions *)

Definition SW_MQTT_MIN_LENGTH_SIZE : Z := 1.
Definition SW_MQTT_MAX_LENGTH_SIZE : Z := 4.
Definition SW_MQTT_MAX_PAYLOAD_SIZE : Z := 268435455.

(** What [set_protocol] changes of the protocol *)
Definition set_protocol (p : LengthConfig) : LengthConfig := mkLength (package_length_type p) SW_MQTT_MAX_LENGTH_SIZE 1 0.

(** The loop of [get_package_length]: the length and the number of its bytes, or the
    value that is returned at once *)
Fixpoint variable_header (fuel : nat) (buf : list Z) (recv_size mul length count : Z) : option (Z + Z * Z) :=
  match fuel with
  | O => None
  | S fuel =>
      let count := count + 1 in
      byte ← zget buf count;
      let length := length + Z.land byte 127 * mul in
      let mul := mul * 128 in
      if Z.land byte 128 =? 0 then Some (inr (length, count)) else
      if SW_MQTT_MAX_LENGTH_SIZE <=? count then Some (inl SW_ERR) else
      if recv_size <=? count then Some (inl 0) else
      variable_header fuel buf recv_size mul length count
  end.

Definition get_package_length (buf : list Z) (buf_size : Z) : option Z :=
  let recv_variable_header_size := u32 (buf_size - 1) in
  if recv_variable_header_size <? SW_MQTT_MIN_LENGTH_SIZE then Some 0 else
  r ← variable_header 4 buf recv_variable_header_size 1 0 0;
  Some (match r with
        | inl r => r
        | inr (length, count) => if SW_MQTT_MAX_PAYLOAD_SIZE <? length then SW_ERR else length + count + 1
        end).

(** ** Lemmas *)

(** What the first bytes say, as a function on lists: the loop sees the bytes behind
    the first one. *)
Fixpoint scan (fuel : nat) (l : list Z) (mul length count : Z) : Z + Z * Z :=
  match fuel, l with
  | S fuel, b :: l =>
      let count := count + 1 in
      let length := length + Z.land b 127 * mul in
      if Z.land b 128 =? 0 then inr (length, count) else
      if SW_MQTT_MAX_LENGTH_SIZE <=? count then inl SW_ERR else scan fuel l (mul * 128) length count
  | _, _ => inl 0
  end.

Lemma scan_short n l mul length count k : (n <= k)%nat -> scan n (take k l) mul length count = scan n l mul length count.
Proof.
  revert l mul length count k. induction n as [|n IH]; intros l mul length count k Hk; [by destruct l|]. destruct k as [|k]; [lia|]. destruct l as [|b l]; [done|].
  cbn [take scan]. cbv zeta. rewrite IH by lia. done.
Qed.

Lemma variable_header_scan n buf size mul length count : (n = 4 - Z.to_nat count)%nat -> 0 <= count < 4 -> count + 1 < size -> size <= zlen buf ->
  variable_header n buf (size - 1) mul length count = Some (scan n (take (Z.to_nat (size - 1 - count)) (drop (Z.to_nat (count + 1)) buf)) mul length count).
Proof.
  revert mul length count. induction n as [|n IH]; intros mul length count Hn Hc Hl Hs; [lia|]. cbn [variable_header]. cbv zeta.
  destruct (zget_in_bounds buf (count + 1)) as (b & Hb); [lia|]. rewrite Hb. cbn [mbind option_bind]. unfold zget in Hb. destruct (Z.leb_spec 0 (count + 1)); [|lia].
  rewrite (drop_S _ _ _ Hb). destruct (Z.to_nat (size - 1 - count)) as [|k] eqn:Ek; [lia|]. cbn [take scan]. destruct (Z.eqb_spec (Z.land b 128) 0); [done|].
  unfold SW_MQTT_MAX_LENGTH_SIZE. destruct (Z.leb_spec 4 (count + 1)); [done|]. destruct (Z.leb_spec (size - 1) (count + 1)).
  - assert (k = 0)%nat as -> by lia. rewrite take_0. by destruct n.
  - rewrite IH by lia. do 2 f_equal. f_equal; [lia|]. f_equal. lia.
Qed.

(** The length that the first bytes give. *)
Definition answer_of (r : Z + Z * Z) : Z :=
  match r with inl r => r | inr (length, count) => if SW_MQTT_MAX_PAYLOAD_SIZE <? length then SW_ERR else length + count + 1 end.

(** [buf_size] has 32 bits. *)
Definition size32 (l : list Z) : Z := Z.min (zlen l) (2 ^ 32 - 1).

Lemma get_package_length_scan buf : buf <> [] -> get_package_length buf (size32 buf) = Some (answer_of (scan 4 (drop 1 buf) 1 0 0)).
Proof.
  intros Hne. assert (1 <= size32 buf <= 2 ^ 32 - 1 /\ size32 buf <= zlen buf) as [Hl Hle] by (unfold size32; destruct buf; [done|cbn [length]; lia]).
  unfold get_package_length. rewrite uN_small by (unfold fits; lia). unfold SW_MQTT_MIN_LENGTH_SIZE. destruct (Z.ltb_spec (size32 buf - 1) 1).
  - unfold size32 in *. destruct buf as [|x [|? ?]]; cbn [length] in *; [lia|done|lia].
  - rewrite (variable_header_scan 4 buf) by lia. cbn [mbind option_bind]. do 2 f_equal. change (Z.to_nat (0 + 1)) with 1%nat. rewrite Z.sub_0_r. unfold size32 in *.
    destruct (Z.min_spec (zlen buf) (2 ^ 32 - 1)) as [[? E]|[? E]]; rewrite E in *.
    + rewrite take_ge by (rewrite length_drop; lia). done.
    + by rewrite scan_short by lia.
Qed.

(** Once the answer is not 0, or four bytes are there, more bytes do not change it. *)
Lemma scan_app n l m mul length count : scan n l mul length count <> inl 0 \/ (n <= List.length l)%nat ->
  scan n (l ++ m) mul length count = scan n l mul length count.
Proof.
  revert l mul length count. induction n as [|n IH]; intros l mul length count Hs; [by destruct l, m|]. destruct l as [|b l]; [destruct Hs; [done|cbn in *; lia]|].
  cbn [app scan] in *. cbv zeta in *. destruct (Z.land b 128 =? 0); [done|]. destruct (SW_MQTT_MAX_LENGTH_SIZE <=? count + 1); [done|]. apply IH. destruct Hs; [by left|right; cbn in *; lia].
Qed.

(** The answer of the loop is positive or an error, and 0 only without its bytes. *)
Lemma scan_range n l mul length count : Forall byte l -> 0 <= length -> 0 <= mul -> 0 <= count -> (n = 4 - Z.to_nat count)%nat ->
  match scan n l mul length count with
  | inl r => r = SW_ERR \/ r = 0 /\ (List.length l < n)%nat \/ n = 0%nat
  | inr (v, k) => 0 <= v /\ count < k <= 4
  end.
Proof.
  intros Hb. revert l Hb mul length count. induction n as [|n IH]; intros l Hb mul length count Hl Hm Hc Hn; [destruct l; cbn; auto|]. destruct l as [|b l]; [right; left; cbn; lia|].
  cbn [scan]. cbv zeta. apply Forall_cons in Hb as [Hb Hbs]. assert (0 <= Z.land b 127) by (rewrite Z.land_comm; apply Z.land_nonneg; lia).
  destruct (Z.land b 128 =? 0); [nia|]. unfold SW_MQTT_MAX_LENGTH_SIZE. destruct (Z.leb_spec 4 (count + 1)); [by left|].
  specialize (IH l Hbs (mul * 128) (length + Z.land b 127 * mul) (count + 1) ltac:(nia) ltac:(lia) ltac:(lia) ltac:(lia)).
  destruct (scan n l _ _ _) as [r|[v k]]; [|lia]. destruct IH as [?|[[? ?]|?]]; [by left|right; left; cbn; lia|lia].
Qed.

#[export] Instance mqtt_length : LengthFunc.
Proof.
  refine {| lf_header := 1 + SW_MQTT_MAX_LENGTH_SIZE; lf_get := fun buf => get_package_length buf (size32 buf) |}; [done|..].
  - intros l _ Hne. rewrite get_package_length_scan by done. done.
  - intros l m r Hb E Hr. destruct l as [|x l]; [by vm_compute in E|]. cbn [app]. rewrite get_package_length_scan in E |- * by done. change (drop 1 (x :: l)) with l in E. change (drop 1 (x :: l ++ m)) with (l ++ m).
    assert (r = answer_of (scan 4 l 1 0 0)) as -> by congruence. rewrite scan_app; [done|]. left. intros Es. by rewrite Es in Hr.
  - intros l m Hb Hl. unfold SW_MQTT_MAX_LENGTH_SIZE in Hl. destruct l as [|x l]; cbn [length] in Hl; [lia|]. cbn [app]. rewrite !get_package_length_scan by done. change (drop 1 (x :: l)) with l. change (drop 1 (x :: l ++ m)) with (l ++ m). rewrite scan_app; [done|]. right. lia.
Defined.

Lemma mqtt_finds_length : finds_length.
Proof.
  intros l Hb Hl. change lf_header with 5 in Hl. destruct l as [|x l]; cbn [length] in Hl; [lia|]. cbn [lf_get mqtt_length]. rewrite get_package_length_scan by done. change (drop 1 (x :: l)) with l. intros E.
  apply Forall_cons in Hb as [_ Hb]. pose proof (scan_range 4 l 1 0 0 Hb ltac:(lia) ltac:(lia) ltac:(lia) eq_refl) as Hr. destruct (scan 4 l 1 0 0) as [r|[v k]]; cbn [answer_of] in E; injection E as E.
  - destruct Hr as [->|[[_ ?]|?]]; [done|lia|done].
  - destruct (_ <? v); [done|lia].
Qed.

(** ** Properties *)

(** The remaining length as the standard encodes it: seven bits at a time, the lowest
    first, a set high bit when more follow *)
Fixpoint remaining_length (fuel : nat) (x : Z) : list Z :=
  match fuel with
  | O => [x]
  | S fuel => if x <? 128 then [x] else x mod 128 + 128 :: remaining_length fuel (x / 128)
  end.
Definition mqtt_packet (first : Z) (body : list Z) : list Z := first :: remaining_length 3 (zlen body) ++ body.

Lemma land_high b : byte b -> (Z.land b 128 =? 0) = (b <? 128) /\ Z.land b 127 = b mod 128.
Proof.
  intros Hb. unfold byte in Hb. split; [|change 127 with (Z.ones 7); by rewrite Z.land_ones by lia].
  assert (Z.testbit b 7 = (128 <=? b)) as Ht.
  { rewrite Z.testbit_eqb by lia. change (2 ^ 7) with 128. destruct (Z.leb_spec 128 b); [assert (b / 128 = 1) as -> by (symmetry; apply (Z.div_unique b 128 1 (b - 128)); lia)|rewrite Z.div_small by lia]; done. }
  assert (Z.land b 128 = if Z.testbit b 7 then 128 else 0) as ->.
  { apply Z.bits_inj'. intros i Hi. rewrite Z.land_spec. change 128 with (2 ^ 7) at 1. rewrite Z.pow2_bits_eqb by lia. destruct (Z.eqb_spec 7 i) as [<-|Hne].
    - rewrite andb_true_r. by destruct (Z.testbit b 7).
    - rewrite andb_false_r. destruct (Z.testbit b 7); [|by rewrite Z.bits_0]. change 128 with (2 ^ 7). by rewrite Z.pow2_bits_false by lia. }
  rewrite Ht. destruct (Z.leb_spec 128 b), (Z.ltb_spec b 128); (lia || done).
Qed.

Lemma scan_cons n b l mul length count : scan (S n) (b :: l) mul length count =
  if Z.land b 128 =? 0 then inr (length + Z.land b 127 * mul, count + 1) else
  if SW_MQTT_MAX_LENGTH_SIZE <=? count + 1 then inl SW_ERR else scan n l (mul * 128) (length + Z.land b 127 * mul) (count + 1).
Proof. done. Qed.

Lemma remaining_scan n x rest mul len count : 0 <= x < 128 ^ Z.of_nat (S n) -> (n = 3 - Z.to_nat count)%nat -> 0 <= count <= 3 ->
  scan (S n) (remaining_length n x ++ rest) mul len count = inr (len + x * mul, count + zlen (remaining_length n x)) /\ Forall byte (remaining_length n x).
Proof.
  revert x mul len count. induction n as [|n IH]; intros x mul len count Hx Hn Hc; rewrite Nat2Z.inj_succ, Z.pow_succ_r in Hx by lia.
  - cbn in Hx. assert (byte x) as Hb by (unfold byte; lia). destruct (land_high x Hb) as [E1 E2]. cbn [remaining_length app]. rewrite scan_cons, E1, E2, Z.mod_small by lia.
    destruct (Z.ltb_spec x 128); [|lia]. split; [done|by apply Forall_singleton].
  - cbn [remaining_length]. destruct (Z.ltb_spec x 128).
    + assert (byte x) as Hb by (unfold byte; lia). destruct (land_high x Hb) as [E1 E2]. cbn [app]. rewrite scan_cons, E1, E2, Z.mod_small by lia.
      destruct (Z.ltb_spec x 128); [|lia]. split; [done|by apply Forall_singleton].
    + pose proof (Z.mod_pos_bound x 128 ltac:(lia)). assert (byte (x mod 128 + 128)) as Hb by (unfold byte; lia). destruct (land_high _ Hb) as [E1 E2]. cbn [app]. rewrite scan_cons, E1, E2.
      destruct (Z.ltb_spec (x mod 128 + 128) 128); [lia|]. unfold SW_MQTT_MAX_LENGTH_SIZE. destruct (Z.leb_spec 4 (count + 1)); [lia|].
      edestruct (IH (x / 128) (mul * 128)) as [-> Hbs]; [split; [by apply Z.div_pos; lia|apply Z.div_lt_upper_bound; lia]|lia|lia|]. split; [|by constructor].
      f_equal. f_equal; [|cbn [length]; lia]. replace ((x mod 128 + 128) mod 128) with (x mod 128) by (rewrite <- (Z.mul_1_l 128) at 3; by rewrite Z.mod_add, Z.mod_mod by lia).
      pose proof (Z.div_mod x 128 ltac:(lia)). nia.
Qed.

Lemma mqtt_packet_ok max first body : byte first -> Forall byte body -> zlen body <= SW_MQTT_MAX_PAYLOAD_SIZE -> zlen (mqtt_packet first body) <= max ->
  packet_ok max (mqtt_packet first body).
Proof.
  intros Hf Hb Hl Hm. unfold SW_MQTT_MAX_PAYLOAD_SIZE in Hl. destruct (remaining_scan 3 (zlen body) body 1 0 0) as [Hs Hr]; [cbn -[length]; lia|done|lia|].
  split; [|split]; [by constructor; [|apply Forall_app]| |unfold mqtt_packet in *; cbn [length] in *; lia]. cbn [lf_get mqtt_length]. rewrite get_package_length_scan by done.
  change (drop 1 (mqtt_packet first body)) with (remaining_length 3 (zlen body) ++ body). rewrite Hs. cbn [answer_of]. unfold SW_MQTT_MAX_PAYLOAD_SIZE.
  destruct (Z.ltb_spec 268435455 (0 + zlen body * 1)); [lia|]. unfold mqtt_packet. cbn [length]. rewrite length_app. f_equal. lia.
Qed.

(** C24: MQTT packets: every packet whose remaining length is encoded as the standard
    says, up to the largest length that it allows, has the length that
    [get_package_length] finds; a stream of such packets, however the network cuts it,
    comes out of the receive loop packet by packet.  Conditions: each packet is within
    the limit, which is below 2 GB, the buffer has at least 10 bytes, recv may wait but
    does not fail, and the program takes the packets and does not close the connection.
    *)
Theorem mqtt_packets_delivered `{Allocator} max onPackage ssl size (msgs : list (Z * list Z)) sc n :
  0 <= max < 2 ^ 31 -> 10 <= size <= max_len ->
  Forall (fun m => byte m.1 /\ Forall byte m.2 /\ zlen m.2 <= SW_MQTT_MAX_PAYLOAD_SIZE /\ zlen (mqtt_packet m.1 m.2) <= max) msgs ->
  (forall p, 0 <= (onPackage p).1 /\ (onPackage p).2 = false) -> Forall benign sc ->
  let ps := (fun m => mqtt_packet m.1 m.2) <$> msgs in
  exists c, length_events max onPackage ssl n (new_conn size (concat ps) sc) = Some (c, SW_OK) /\ packets c `prefix_of` ps /\ (input c = [] -> packets c = ps).
Proof.
  intros Hm Hs Hmsgs Hp Hsc ps. apply packets_delivered; try done. unfold ps. apply Forall_fmap. eapply Forall_impl; [exact Hmsgs|]. intros [f b] (? & ? & ? & ?). by apply mqtt_packet_ok.
Qed.

Lemma mqtt_packets_delivered_witness :
  let msgs := [(192, []); (48, repeat 7 130)] in
  exists c, length_events 1024 yes false 4 (new_conn 16 (concat ((fun m => mqtt_packet m.1 m.2) <$> msgs)) [Take 1; Take 9; Take 2; Take 200]) = Some (c, SW_OK) /\
    packets c = [[192; 0]; 48 :: 130 :: 1 :: repeat 7 130].
Proof.
  cbv zeta. destruct (mqtt_packets_delivered 1024 yes false 16 [(192, []); (48, repeat 7 130)] [Take 1; Take 9; Take 2; Take 200] 4) as (c & E & _ & Hc).
  - lia.
  - unfold max_len. lia.
  - repeat constructor; try done; try (vm_compute; discriminate).
  - intros p. cbn. lia.
  - by repeat constructor.
  - exists c. split; [exact E|]. assert (input c = []) as Hi by (vm_compute in E; injection E as <-; reflexivity). rewrite (Hc Hi). reflexivity.
Defined.
