(* ===== verification/Http2.v ===== *)
(** * HTTP/2 frames, settings and header values

    [src/protocol/http2.cc] and the inline functions of [include/swoole_http2.h]:
    the frame header and its length function, the default settings, the SETTINGS
    frame, and the values of the [content-length] and [:status] headers. *)

From Stdlib Require Import String.
From S2P Require Import Prelude MemPool Str Protocol LengthProtocol.
#[local] Open Scope Z_scope.

(** ** Definitions *)

Definition SW_HTTP2_TYPE_SETTINGS : Z := 4.
Definition SW_HTTP2_FRAME_HEADER_SIZE : Z := 9.
Definition SW_HTTP2_SETTING_OPTION_SIZE : Z := 6.
Definition SW_HTTP2_SETTING_FRAME_SIZE : Z := SW_HTTP2_FRAME_HEADER_SIZE + SW_HTTP2_SETTING_OPTION_SIZE * 6.

(** [get_length], [get_frame_length] and [set_frame_header]; the buffer is given from
    the position of the header on *)
Definition get_length (buf : list Z) : option Z :=
  b0 ← zget buf 0; b1 ← zget buf 1; b2 ← zget buf 2;
  Some (Z.shiftl b0 16 + Z.shiftl b1 8 + b2).
Definition get_frame_length (buf : list Z) : option Z :=
  if zlen buf <? SW_HTTP2_FRAME_HEADER_SIZE then Some 0 else
  len ← get_length buf; Some (len + SW_HTTP2_FRAME_HEADER_SIZE).
Definition set_frame_header (buffer : list Z) (off type length flags stream_id : Z) : option (list Z) :=
  b ← zset buffer off (u8 (Z.shiftr length 16));
  b ← zset b (off + 1) (u8 (Z.shiftr length 8));
  b ← zset b (off + 2) (u8 length);
  b ← zset b (off + 3) type;
  b ← zset b (off + 4) flags;
  zblit b (off + 5) (be_bytes 4 stream_id).

(** [enum swHttp2SettingId]; other values stand for themselves *)
Inductive SettingId := HEADER_TABLE_SIZE | ENABLE_PUSH | MAX_CONCURRENT_STREAMS | INIT_WINDOW_SIZE | MAX_FRAME_SIZE | MAX_HEADER_LIST_SIZE | UNKNOWN (id : Z).
Definition id_value (id : SettingId) : Z :=
  match id with
  | HEADER_TABLE_SIZE => 1 | ENABLE_PUSH => 2 | MAX_CONCURRENT_STREAMS => 3 | INIT_WINDOW_SIZE => 4 | MAX_FRAME_SIZE => 5
  | MAX_HEADER_LIST_SIZE => 6 | UNKNOWN id => id
  end.

Record Settings := mkSettings {
  header_table_size : Z;
  enable_push : Z;
  max_concurrent_streams : Z;
  init_window_size : Z;
  max_frame_size : Z;
  max_header_list_size : Z;
}.

(** The static variables of the file *)
Record Globals := mkGlobals { max_headers : Z; default_settings : Settings }.
Definition initial : Globals := mkGlobals 1000 (mkSettings (2 ^ 12) 0 128 (2 ^ 16 - 1) (2 ^ 14) (2 ^ 32 - 1)).

Definition put_setting (s : Settings) (id : SettingId) (value : Z) : Settings :=
  match id with
  | HEADER_TABLE_SIZE => mkSettings value (enable_push s) (max_concurrent_streams s) (init_window_size s) (max_frame_size s) (max_header_list_size s)
  | ENABLE_PUSH => mkSettings (header_table_size s) value (max_concurrent_streams s) (init_window_size s) (max_frame_size s) (max_header_list_size s)
  | MAX_CONCURRENT_STREAMS => mkSettings (header_table_size s) (enable_push s) value (init_window_size s) (max_frame_size s) (max_header_list_size s)
  | INIT_WINDOW_SIZE => mkSettings (header_table_size s) (enable_push s) (max_concurrent_streams s) value (max_frame_size s) (max_header_list_size s)
  | MAX_FRAME_SIZE => mkSettings (header_table_size s) (enable_push s) (max_concurrent_streams s) (init_window_size s) value (max_header_list_size s)
  | MAX_HEADER_LIST_SIZE => mkSettings (header_table_size s) (enable_push s) (max_concurrent_streams s) (init_window_size s) (max_frame_size s) value
  | UNKNOWN _ => s
  end.
Definition put_default_setting (g : Globals) (id : SettingId) (value : Z) : Globals := mkGlobals (max_headers g) (put_setting (default_settings g) id value).
Definition get_default_setting (g : Globals) (id : SettingId) : Z :=
  let s := default_settings g in
  match id with
  | HEADER_TABLE_SIZE => header_table_size s
  | ENABLE_PUSH => enable_push s
  | MAX_CONCURRENT_STREAMS => max_concurrent_streams s
  | INIT_WINDOW_SIZE => init_window_size s
  | MAX_FRAME_SIZE => max_frame_size s
  | MAX_HEADER_LIST_SIZE => max_header_list_size s
  | UNKNOWN _ => 0
  end.
Definition get_http2_max_headers (g : Globals) : Z := max_headers g.
Definition set_http2_max_headers (g : Globals) (value : Z) : Globals := if 0 <? value then mkGlobals value (default_settings g) else g.
Definition init_settings (g : Globals) : Settings :=
  mkSettings (get_default_setting g HEADER_TABLE_SIZE) (get_default_setting g ENABLE_PUSH) (get_default_setting g MAX_CONCURRENT_STREAMS)
    (get_default_setting g INIT_WINDOW_SIZE) (get_default_setting g MAX_FRAME_SIZE) (get_default_setting g MAX_HEADER_LIST_SIZE).

(** [pack_setting_item] at a position of the buffer, and [pack_setting_frame]: the
    buffer and the number of bytes *)
Definition pack_setting_item (buf : list Z) (off : Z) (id : SettingId) (value : Z) : option (list Z) :=
  buf ← zblit buf off (be_bytes 2 (id_value id));
  zblit buf (off + 2) (be_bytes 4 value).
Definition pack_setting_frame (buf : list Z) (s : Settings) (server_side : bool) : option (list Z * Z) :=
  let size := SW_HTTP2_SETTING_OPTION_SIZE * (if server_side then 5 else 6) in
  buf ← set_frame_header buf 0 SW_HTTP2_TYPE_SETTINGS size 0 0;
  let p := SW_HTTP2_FRAME_HEADER_SIZE in
  buf ← pack_setting_item buf p HEADER_TABLE_SIZE (header_table_size s);
  let p := p + SW_HTTP2_SETTING_OPTION_SIZE in
  '(buf, p) ← (if server_side then Some (buf, p)
               else buf ← pack_setting_item buf p ENABLE_PUSH (enable_push s); Some (buf, p + SW_HTTP2_SETTING_OPTION_SIZE));
  buf ← pack_setting_item buf p MAX_CONCURRENT_STREAMS (max_concurrent_streams s);
  let p := p + SW_HTTP2_SETTING_OPTION_SIZE in
  buf ← pack_setting_item buf p INIT_WINDOW_SIZE (init_window_size s);
  let p := p + SW_HTTP2_SETTING_OPTION_SIZE in
  buf ← pack_setting_item buf p MAX_FRAME_SIZE (max_frame_size s);
  let p := p + SW_HTTP2_SETTING_OPTION_SIZE in
  buf ← pack_setting_item buf p MAX_HEADER_LIST_SIZE (max_header_list_size s);
  let p := p + SW_HTTP2_SETTING_OPTION_SIZE in
  Some (buf, p).

(** [unpack_setting_data]; the callback works on a state and gives true for
    [SW_SUCCESS] *)
Section unpack.
Context {T : Type} (cb : T -> Z -> Z -> T * bool).
Fixpoint unpack_loop (fuel : nat) (buf : list Z) (off length : Z) (t : T) : option (T * bool) :=
  if negb (0 <? length) then Some (t, true) else
  match fuel with
  | O => None
  | S fuel =>
      id ← zsub buf off 2;
      value ← zsub buf (off + 2) 4;
      let '(t, rc) := cb t (be_value id) (be_value value) in
      if rc then unpack_loop fuel buf (off + 6) (length - 6) t else Some (t, false)
  end.
Definition unpack_setting_data (buf : list Z) (length : Z) (t : T) : option (T * bool) := unpack_loop (Z.to_nat length) buf 0 length t.
End unpack.

(** [send_setting_frame]: the bytes that are sent, from an array on the stack *)
Definition send_setting_frame `{Allocator} (g : Globals) : option (list Z) :=
  '(frame, n) ← pack_setting_frame (fresh SW_HTTP2_SETTING_FRAME_SIZE) (default_settings g) true; zsub frame 0 n.

(** [parse_content_length]: the value, when the bytes are one *)
Fixpoint content_length_loop (value : list Z) (max_body_size content_length : Z) : option Z :=
  match value with
  | [] => Some content_length
  | ch :: value =>
      if (ch <? 48) || (57 <? ch) then None else
      let digit := ch - 48 in
      if (2 ^ 64 - 1 - digit) / 10 <? content_length then None else
      let content_length := u64 (content_length * 10 + digit) in
      if max_body_size <? content_length then None else
      content_length_loop value max_body_size content_length
  end.
Definition parse_content_length (value : list Z) (max_body_size : Z) : option Z :=
  if zlen value =? 0 then None else content_length_loop value max_body_size 0.

(** [parse_status_code] *)
Fixpoint status_loop (value : list Z) (status_code : Z) : option Z :=
  match value with
  | [] => Some status_code
  | ch :: value => if (ch <? 48) || (57 <? ch) then None else status_loop value (u16 (status_code * 10 + (ch - 48)))
  end.
Definition parse_status_code (value : list Z) : option Z :=
  if negb (zlen value =? 3) then None else
  status_code ← status_loop value 0;
  if (status_code <? 100) || (599 <? status_code) then None else Some status_code.

(** [get_type], [get_type_color] and [get_flag_string], for the logs *)
Definition get_type (type : Z) : string :=
  match type with
  | 0 => "DATA"%string
  | 1 => "HEADERS"%string
  | 2 => "PRIORITY"%string
  | 3 => "RST_STREAM"%string
  | 4 => "SETTINGS"%string
  | 5 => "PUSH_PROMISE"%string
  | 6 => "PING"%string
  | 7 => "GOAWAY"%string
  | 8 => "WINDOW_UPDATE"%string
  | 9 => "CONTINUATION"%string
  | _ => "UNKNOWN"%string
  end.
Inductive color := SW_COLOR_RED | SW_COLOR_GREEN | SW_COLOR_MAGENTA | SW_COLOR_WHITE.
Definition get_type_color (type : Z) : color :=
  if (type =? 0) || (type =? 8) then SW_COLOR_MAGENTA else
  if (type =? 1) || (type =? 4) || (type =? 5) || (type =? 9) then SW_COLOR_GREEN else
  if (type =? 6) || (type =? 2) then SW_COLOR_WHITE else SW_COLOR_RED.
Definition get_flag_string (flags : Z) : string :=
  let add (str : string) (flag : Z) (s : string) := if Z.land flags flag =? 0 then str else (str ++ s)%string in
  let str := add (add (add (add (add EmptyString 1 "ACK|"%string) 1 "END_STREAM|"%string) 4 "END_HEADERS|"%string) 8 "PADDED|"%string) 32 "PRIORITY|"%string in
  match str with
  | EmptyString => "none"%string
  | _ => if (substring (String.length str - 1) 1 str =? "|")%string then substring 0 (String.length str - 1) str else "none"%string
  end.

(** ** Frames *)

(** A frame as the standard lays it out *)
Definition http2_frame (type flags stream_id : Z) (payload : list Z) : list Z :=
  be_bytes 3 (zlen payload) ++ [type; flags] ++ be_bytes 4 stream_id ++ payload.

Lemma zget_cons x (l : list Z) i : 0 <= i -> zget (x :: l) (i + 1) = zget l i.
Proof. intros Hi. change (x :: l) with ([x] ++ l). rewrite zget_app_r by (cbn; lia). f_equal. cbn. lia. Qed.

Lemma get_length_spec b0 b1 b2 l : byte b0 -> byte b1 -> byte b2 -> get_length (b0 :: b1 :: b2 :: l) = Some (be_value [b0; b1; b2]).
Proof.
  intros H0 H1 H2. unfold get_length. change (zget (b0 :: b1 :: b2 :: l) 0) with (Some b0). change (zget (b0 :: b1 :: b2 :: l) 1) with (Some b1). change (zget (b0 :: b1 :: b2 :: l) 2) with (Some b2).
  cbn [mbind option_bind]. rewrite !Z.shiftl_mul_pow2 by lia. f_equal. unfold be_value. cbn [rev app le_value]. lia.
Qed.

Lemma http2_reads_header : exists f, reads_header SW_HTTP2_FRAME_HEADER_SIZE get_frame_length f /\ forall h, Forall byte h -> 0 < f h.
Proof.
  exists (fun h => be_value (take 3 h) + SW_HTTP2_FRAME_HEADER_SIZE). split.
  - intros buf Hb. unfold get_frame_length. destruct (Z.ltb_spec (zlen buf) SW_HTTP2_FRAME_HEADER_SIZE) as [|Hl]; [done|]. unfold SW_HTTP2_FRAME_HEADER_SIZE in *.
    destruct buf as [|b0 [|b1 [|b2 l]]]; cbn [length] in Hl; try lia. do 3 apply Forall_cons in Hb as [? Hb]. rewrite get_length_spec by done. cbn [mbind option_bind]. rewrite take_take. done.
  - intros h Hh. pose proof (be_value_bounds (take 3 h) (Forall_take _ _ _ Hh)). unfold SW_HTTP2_FRAME_HEADER_SIZE. lia.
Qed.

#[export] Instance http2_length : LengthFunc.
Proof.
  apply (fixed_header SW_HTTP2_FRAME_HEADER_SIZE get_frame_length); [done|]. destruct http2_reads_header as (f & Hf & _). by exists f.
Defined.

Lemma http2_finds_length : finds_length.
Proof.
  intros l Hl Hh. change (lf_header) with SW_HTTP2_FRAME_HEADER_SIZE in Hh. change (get_frame_length l <> Some 0). destruct http2_reads_header as (f & Hf & Hp).
  rewrite Hf by done. destruct (Z.ltb_spec (zlen l) SW_HTTP2_FRAME_HEADER_SIZE); [lia|]. intros [= E]. specialize (Hp _ (Forall_take _ (Z.to_nat SW_HTTP2_FRAME_HEADER_SIZE) _ Hl)). lia.
Qed.

Lemma be_zlen n z : zlen (be_bytes n z) = Z.of_nat n.
Proof. by rewrite be_bytes_length. Qed.

Lemma http2_frame_ok max type flags stream_id payload : byte type -> byte flags -> Forall byte payload -> zlen payload < 2 ^ 24 ->
  zlen payload + 9 <= max -> packet_ok max (http2_frame type flags stream_id payload).
Proof.
  intros Ht Hf Hp Hl Hm. assert (zlen (http2_frame type flags stream_id payload) = 9 + zlen payload) as Hz.
  { unfold http2_frame. rewrite !length_app, !Nat2Z.inj_add, !be_zlen. cbn [length]. lia. }
  split; [|split; [|lia]].
  - unfold http2_frame. rewrite !Forall_app, !Forall_cons. split_and!; done || apply be_bytes_byte.
  - change (get_frame_length (http2_frame type flags stream_id payload) = Some (zlen (http2_frame type flags stream_id payload))). unfold get_frame_length. rewrite Hz. unfold SW_HTTP2_FRAME_HEADER_SIZE.
    destruct (Z.ltb_spec (9 + zlen payload) 9); [lia|]. unfold http2_frame. pose proof (be_bytes_byte 3 (zlen payload)) as Hb. pose proof (be_zlen 3 (zlen payload)) as Hbl. pose proof (be_value_bytes 3 (zlen payload) ltac:(cbn -[length]; lia)) as Hv.
    destruct (be_bytes 3 (zlen payload)) as [|b0 [|b1 [|b2 [|? ?]]]]; cbn [length] in Hbl; try lia. do 3 apply Forall_cons in Hb as [? Hb]. cbn [app]. rewrite get_length_spec by done. cbn [mbind option_bind]. rewrite Hv. f_equal. lia.
Qed.

(** ** The SETTINGS frame *)

Definition item (id value : Z) : list Z := be_bytes 2 id ++ be_bytes 4 value.
Definition setting_items (s : Settings) (server_side : bool) : list (Z * Z) :=
  (1, header_table_size s) :: (if server_side then [] else [(2, enable_push s)]) ++
  [(3, max_concurrent_streams s); (4, init_window_size s); (5, max_frame_size s); (6, max_header_list_size s)].
Definition items_bytes (l : list (Z * Z)) : list Z := concat ((fun it => item it.1 it.2) <$> l).

Definition settings_ok (s : Settings) : Prop :=
  fits 32 (header_table_size s) /\ fits 32 (enable_push s) /\ fits 32 (max_concurrent_streams s) /\ fits 32 (init_window_size s) /\
  fits 32 (max_frame_size s) /\ fits 32 (max_header_list_size s).

Lemma item_length id v : zlen (item id v) = 6.
Proof. unfold item. rewrite length_app, Nat2Z.inj_add, !be_zlen. done. Qed.

Lemma items_length l : zlen (items_bytes l) = 6 * zlen l.
Proof. induction l as [|it l IH]; [done|]. unfold items_bytes in *. cbn [fmap list_fmap concat length]. rewrite length_app, Nat2Z.inj_add, item_length, IH. lia. Qed.

(** What is written so far stays, and the next item follows it. *)
Lemma pack_setting_item_ok done rest buf off id v : buf = done ++ rest -> zlen done = off -> 6 <= zlen rest ->
  pack_setting_item buf off id v = Some ((done ++ item (id_value id) v) ++ drop 6 rest).
Proof.
  intros -> <- Hr. unfold pack_setting_item. destruct (zblit_in_bounds (done ++ rest) (zlen done) (be_bytes 2 (id_value id))) as (b & Hb); [lia|rewrite length_app, be_zlen; lia|]. rewrite Hb. cbn [mbind option_bind].
  destruct (zblit_in_bounds b (zlen done + 2) (be_bytes 4 v)) as (b' & Hb'); [lia|apply zblit_length in Hb; rewrite Hb, length_app, be_zlen; lia|]. rewrite Hb'.
  pose proof (zblit_zblit (done ++ rest) (zlen done) (be_bytes 2 (id_value id)) (be_bytes 4 v) b b' Hb) as Hz. rewrite be_zlen in Hz. specialize (Hz Hb'). apply zblit_Some in Hz as (_ & _ & ->).
  assert (length (item (id_value id) v) = 6%nat) as Hi by (pose proof (item_length (id_value id) v); lia). fold (item (id_value id) v). rewrite Hi, Nat2Z.id, take_app_length, drop_app_ge by lia.
  rewrite <- app_assoc. repeat f_equal. lia.
Qed.

Lemma zset_at (pre post : list Z) x i y : zlen pre = i -> zset (pre ++ x :: post) i y = Some (pre ++ y :: post).
Proof.
  intros <-. unfold zset. rewrite length_app. cbn [length]. bool_cases; try lia. cbn [andb]. rewrite Nat2Z.id. by rewrite insert_app_r_alt, Nat.sub_diag by lia.
Qed.

Lemma set_frame_header_ok buf type length flags stream_id : 9 <= zlen buf -> 0 <= length < 2 ^ 24 -> 0 <= type < 256 -> 0 <= flags < 256 ->
  set_frame_header buf 0 type length flags stream_id = Some ((be_bytes 3 length ++ [type; flags] ++ be_bytes 4 stream_id) ++ drop 9 buf).
Proof.
  intros Hl Hlen Ht Hf. do 9 (destruct buf as [|? buf]; [cbn [List.length] in Hl; lia|]). unfold set_frame_header.
  assert (be_bytes 3 length = [u8 (Z.shiftr length 16); u8 (Z.shiftr length 8); u8 length]) as ->.
  { unfold be_bytes. cbn [le_bytes rev app]. rewrite !Z.shiftr_div_pow2 by lia. unfold uN. change (2 ^ 8) with 256. change (2 ^ 16) with (256 * 256). rewrite <- Z.div_div by lia. done. }
  do 5 (match goal with |- context [zset ?l ?i ?y] => eassert (zset l i y = Some _) as -> by first
    [exact (zset_at [] _ _ _ _ eq_refl) | exact (zset_at [_] _ _ _ _ eq_refl) | exact (zset_at [_; _] _ _ _ _ eq_refl)
    | exact (zset_at [_; _; _] _ _ _ _ eq_refl) | exact (zset_at [_; _; _; _] _ _ _ _ eq_refl)] end; cbn [mbind option_bind app]).
  match goal with |- context [zblit ?l _ ?d] => destruct (zblit_in_bounds l (0 + 5) d) as (b & Hb); [lia|rewrite be_zlen; cbn [List.length] in *; lia|]; rewrite Hb end.
  apply zblit_Some in Hb as (_ & _ & ->). unfold be_bytes. done.
Qed.

Lemma pack_setting_frame_ok buf s server : SW_HTTP2_SETTING_FRAME_SIZE <= zlen buf ->
  exists rest, pack_setting_frame buf s server = Some (http2_frame SW_HTTP2_TYPE_SETTINGS 0 0 (items_bytes (setting_items s server)) ++ rest,
    zlen (http2_frame SW_HTTP2_TYPE_SETTINGS 0 0 (items_bytes (setting_items s server)))).
Proof.
  intros Hl. change SW_HTTP2_SETTING_FRAME_SIZE with 45 in Hl. unfold pack_setting_frame. rewrite set_frame_header_ok by (destruct server; unfold SW_HTTP2_SETTING_OPTION_SIZE, SW_HTTP2_TYPE_SETTINGS; lia). cbn [mbind option_bind].
  set (h := be_bytes 3 _ ++ _). assert (zlen h = 9) as Hh by (unfold h; rewrite !length_app, !be_bytes_length; done).
  destruct server; unfold SW_HTTP2_FRAME_HEADER_SIZE, SW_HTTP2_SETTING_OPTION_SIZE in *; cbv zeta;
  repeat (erewrite pack_setting_item_ok; [|reflexivity|rewrite ?length_app, ?Nat2Z.inj_add, ?item_length, ?Hh; lia|rewrite ?length_drop; lia]; cbn [mbind option_bind]); eexists; f_equal; f_equal.
Qed.

(** Bytes in sixes are settings. *)
Lemma items_of_bytes n (buf : list Z) : Forall byte buf -> length buf = (6 * n)%nat ->
  exists l, buf = items_bytes l /\ Forall (fun it => fits 16 it.1 /\ fits 32 it.2) l.
Proof.
  revert buf. induction n as [|n IH]; intros b Hbb Hbl; [destruct b; [by exists []|cbn in Hbl; lia]|]. do 6 (destruct b as [|? b]; [cbn in Hbl; lia|]). do 6 apply Forall_cons in Hbb as [? Hbb].
  destruct (IH b Hbb) as (l & -> & Hl); [cbn in Hbl; lia|]. assert (Forall byte [z; z0] /\ Forall byte [z1; z2; z3; z4]) as [Hid Hv] by by rewrite !Forall_cons.
  exists ((be_value [z; z0], be_value [z1; z2; z3; z4]) :: l). split; [|constructor; [split; by apply be_value_bounds|done]].
  unfold items_bytes. cbn [fmap list_fmap concat fst snd]. unfold item, be_bytes, be_value. rewrite !le_bytes_value by (done || by apply Forall_rev). done.
Qed.

Section items.
Context {T : Type} (cb : T -> Z -> Z -> T * bool).

(** The settings one after the other, until one is refused. *)
Fixpoint run_items (l : list (Z * Z)) (t : T) : T * bool :=
  match l with
  | [] => (t, true)
  | (id, v) :: l => let '(t, rc) := cb t id v in if rc then run_items l t else (t, false)
  end.

Lemma unpack_items fuel pre l t : Forall (fun it => fits 16 it.1 /\ fits 32 it.2) l -> (length l <= fuel)%nat ->
  unpack_loop cb fuel (pre ++ items_bytes l) (zlen pre) (6 * zlen l) t = Some (run_items l t).
Proof.
  revert fuel pre t. induction l as [|[id v] l IH]; intros fuel pre t Hl Hf; [by destruct fuel|]. destruct fuel as [|fuel]; [cbn in Hf; lia|]. apply Forall_cons in Hl as [[Hid Hv] Hl]. cbn [fst snd] in *.
  cbn [unpack_loop]. destruct (Z.ltb_spec 0 (6 * zlen ((id, v) :: l))); [|cbn [length] in *; lia]. cbn [negb run_items].
  assert (pre ++ items_bytes ((id, v) :: l) = pre ++ be_bytes 2 id ++ be_bytes 4 v ++ items_bytes l) as E by (unfold items_bytes; cbn [fmap list_fmap concat fst snd]; unfold item; by rewrite <- !app_assoc).
  rewrite E. pose proof (zsub_app pre (be_bytes 2 id) (be_bytes 4 v ++ items_bytes l)) as E1. rewrite be_zlen in E1. change (Z.of_nat 2) with 2 in E1. rewrite E1. cbn [mbind option_bind].
  pose proof (zsub_app (pre ++ be_bytes 2 id) (be_bytes 4 v) (items_bytes l)) as E2. rewrite length_app, Nat2Z.inj_add, !be_zlen, <- app_assoc in E2. change (Z.of_nat 4) with 4 in E2. change (Z.of_nat 2) with 2 in E2. rewrite E2. cbn [mbind option_bind].
  rewrite !be_value_bytes by (unfold fits in *; cbn; lia). destruct (cb t id v) as [t' []]; [|done]. assert (zlen (pre ++ item id v) = zlen pre + 6) as Ep by (rewrite length_app, Nat2Z.inj_add, item_length; done).
  replace (pre ++ be_bytes 2 id ++ be_bytes 4 v ++ items_bytes l) with ((pre ++ item id v) ++ items_bytes l) by (unfold item; by rewrite <- !app_assoc). rewrite <- Ep.
  replace (6 * zlen ((id, v) :: l) - 6) with (6 * zlen l) by (cbn [length]; lia). apply IH; [done|cbn in Hf; lia].
Qed.

(** With a callback that accepts, what is not a whole number of settings is read
    beyond its end. *)
Lemma unpack_beyond fuel buf off length t : (forall t id v, (cb t id v).2 = true) -> 0 <= off -> 0 < length -> off + length = zlen buf -> length mod 6 <> 0 ->
  unpack_loop cb fuel buf off length t = None.
Proof.
  intros Hcb. revert off length t. induction fuel as [|fuel IH]; intros off length t Ho Hp Hl Hm; cbn [unpack_loop]; (destruct (Z.ltb_spec 0 length); [|lia]); cbn [negb]; [done|].
  destruct (zsub buf off 2); cbn [mbind option_bind]; [|done]. destruct (zsub buf (off + 2) 4) eqn:E; cbn [mbind option_bind]; [|done]. apply zsub_Some in E as (_ & _ & E & _).
  specialize (Hcb t (be_value l) (be_value l0)). destruct (cb t _ _) as [t' rc]. cbn in Hcb. subst rc. assert (length <> 6) by (intros ->; done).
  apply IH; [lia..|]. replace (length - 6) with (length + (-1) * 6) by lia. by rewrite Z.mod_add by lia.
Qed.
End items.

(** ** Values of headers *)

Definition digit (ch : Z) : Prop := 48 <= ch <= 57.
Definition decimal (value : list Z) : Z := fold_left (fun n ch => n * 10 + (ch - 48)) value 0.

Lemma decimal_mono value n : Forall digit value -> 0 <= n -> n <= fold_left (fun n ch => n * 10 + (ch - 48)) value n.
Proof.
  intros Hv. revert n. induction Hv as [|ch value Hc _ IH]; intros n Hn; cbn [fold_left]; [lia|]. unfold digit in Hc. specialize (IH (n * 10 + (ch - 48)) ltac:(lia)). lia.
Qed.

Lemma content_length_loop_ok value max n r : 0 <= n -> 0 <= max < 2 ^ 64 -> n <= max ->
  content_length_loop value max n = Some r <-> Forall digit value /\ r = fold_left (fun n ch => n * 10 + (ch - 48)) value n /\ r <= max.
Proof.
  revert n. induction value as [|ch value IH]; intros n Hn Hm Hnm; cbn [content_length_loop fold_left].
  - split; [intros [= <-]; by repeat split|intros (_ & -> & _); done].
  - rewrite Forall_cons. unfold digit at 1. destruct (Z.ltb_spec ch 48), (Z.ltb_spec 57 ch); cbn [orb]; try (split; [done|intros [[? _] _]; lia]).
    pose proof (Z.div_mod (2 ^ 64 - 1 - (ch - 48)) 10 ltac:(lia)). pose proof (Z.mod_pos_bound (2 ^ 64 - 1 - (ch - 48)) 10 ltac:(lia)).
    destruct (Z.ltb_spec ((2 ^ 64 - 1 - (ch - 48)) / 10) n).
    { split; [done|]. intros ([_ Hd] & -> & Hr). pose proof (decimal_mono value (n * 10 + (ch - 48)) Hd ltac:(lia)). lia. }
    rewrite u64_id by lia. destruct (Z.ltb_spec max (n * 10 + (ch - 48))).
    { split; [done|]. intros ([_ Hd] & -> & Hr). pose proof (decimal_mono value (n * 10 + (ch - 48)) Hd ltac:(lia)). lia. }
    rewrite IH by lia. split; [intros (? & ? & ?)|intros ([_ ?] & ? & ?)]; repeat split; done || lia.
Qed.

Lemma status_loop_ok value n r : 0 <= n -> Forall byte value -> (n + 1) * 10 ^ zlen value <= 2 ^ 16 ->
  status_loop value n = Some r <-> Forall digit value /\ r = fold_left (fun n ch => n * 10 + (ch - 48)) value n.
Proof.
  revert n. induction value as [|ch value IH]; intros n Hn Hb Hl; cbn [status_loop fold_left].
  - split; [intros [= <-]; by repeat split|intros (_ & ->); done].
  - rewrite Forall_cons. apply Forall_cons in Hb as [_ Hb]. unfold digit at 1. destruct (Z.ltb_spec ch 48), (Z.ltb_spec 57 ch); cbn [orb]; try (split; [done|intros [[? _] _]; lia]).
    cbn [length] in Hl. rewrite Nat2Z.inj_succ, Z.pow_succ_r in Hl by lia. pose proof (Z.pow_pos_nonneg 10 (zlen value) ltac:(lia) ltac:(lia)).
    rewrite uN_small by (unfold fits; nia). rewrite IH by (done || nia). split; [intros (? & ?)|intros ([_ ?] & ?)]; repeat split; done || lia.
Qed.

(** ** Properties *)

(** The receiver of a SETTINGS frame keeps what it is told. *)
Definition keep (s : Settings) (id v : Z) : Settings * bool :=
  (put_setting s (match id with 1 => HEADER_TABLE_SIZE | 2 => ENABLE_PUSH | 3 => MAX_CONCURRENT_STREAMS | 4 => INIT_WINDOW_SIZE | 5 => MAX_FRAME_SIZE
                  | 6 => MAX_HEADER_LIST_SIZE | _ => UNKNOWN id end) v, true).

(** C28: a SETTINGS frame that is packed into the buffer that [send_setting_frame] uses is
    one frame of the length function and of the standard's layout, and unpacking
    its payload gives to the receiver, in order, every setting of the sender: a
    client's frame makes the receiver's settings equal to the sender's, a server's
    frame all of them but [enable_push]. *)
Theorem settings_roundtrip buf s server (t : Settings) : SW_HTTP2_SETTING_FRAME_SIZE <= zlen buf -> settings_ok s ->
  exists frame rest, pack_setting_frame buf s server = Some (frame ++ rest, zlen frame) /\
    packet_ok (2 ^ 24) frame /\
    unpack_setting_data keep (drop 9 frame) (zlen frame - 9) t = Some (if server then put_setting s ENABLE_PUSH (enable_push t) else s, true) /\
    unpack_setting_data (fun t id v => (t ++ [(id, v)], true)) (drop 9 frame) (zlen frame - 9) [] = Some (setting_items s server, true).
Proof.
  intros Hl (H1 & H2 & H3 & H4 & H5 & H6). destruct (pack_setting_frame_ok buf s server Hl) as (rest & E). set (items := items_bytes (setting_items s server)) in *.
  assert (zlen items = 6 * zlen (setting_items s server)) as Hi by apply items_length. assert (zlen items <= 36) as Hi36 by (rewrite Hi; destruct server; cbn; lia).
  assert (Forall (fun it => fits 16 it.1 /\ fits 32 it.2) (setting_items s server)) as Hfit by (destruct server; unfold setting_items; cbn [app]; rewrite !Forall_cons; cbn [fst snd]; split_and!; done).
  assert (Forall byte items) as Hb. { unfold items, items_bytes. apply Forall_concat, Forall_fmap, Forall_true. intros [id v]. apply Forall_app. split; apply be_bytes_byte. }
  exists (http2_frame SW_HTTP2_TYPE_SETTINGS 0 0 items), rest. split; [exact E|]. split; [apply http2_frame_ok; done || lia|].
  assert (drop 9 (http2_frame SW_HTTP2_TYPE_SETTINGS 0 0 items) = items) as Hd by done.
  assert (zlen (http2_frame SW_HTTP2_TYPE_SETTINGS 0 0 items) - 9 = zlen items) as Hz by (unfold http2_frame; rewrite !length_app, !Nat2Z.inj_add, !be_zlen; cbn [length]; lia).
  rewrite Hd, Hz, Hi. unfold unpack_setting_data, items.
  split; rewrite (unpack_items _ _ [] (setting_items s server)) by (done || lia); destruct s, t, server; reflexivity.
Qed.

Lemma settings_roundtrip_witness : exists frame rest,
  pack_setting_frame (repeat 0 45) (default_settings initial) true = Some (frame ++ rest, zlen frame) /\
  unpack_setting_data (fun t id v => (t ++ [(id, v)], true)) (drop 9 frame) (zlen frame - 9) [] =
    Some ([(1, 4096); (3, 128); (4, 65535); (5, 16384); (6, 4294967295)], true).
Proof.
  destruct (settings_roundtrip (repeat 0 45) (default_settings initial) true (default_settings initial)) as (frame & rest & E & _ & _ & Hu).
  - vm_compute. discriminate.
  - vm_compute. intuition discriminate.
  - exists frame, rest. split; [exact E|exact Hu].
Defined.

(** A SETTINGS payload is read beyond its end exactly when its length is not a
    multiple of six, when the callback accepts the settings: the length comes from
    the peer's frame header and nothing checks it. *)
Theorem settings_read_beyond {T} (cb : T -> Z -> Z -> T * bool) buf (t : T) : (forall t id v, (cb t id v).2 = true) -> Forall byte buf ->
  unpack_setting_data cb buf (zlen buf) t = None <-> ~ (6 | zlen buf).
Proof.
  intros Hcb Hb. split.
  - intros E [k Hk]. destruct (items_of_bytes (Z.to_nat k) buf Hb) as (l & -> & Hl); [lia|]. unfold unpack_setting_data in E. rewrite items_length in E. rewrite (unpack_items cb _ [] l) in E by (done || lia). done.
  - intros Hd. apply unpack_beyond; [done|lia|destruct buf; [exfalso; apply Hd; by exists 0|cbn; lia]|lia|]. intros E. apply Hd. by apply Z.mod_divide.
Qed.

(** The values of [content-length] and [:status]: a content length is accepted
    exactly when it consists of one or more decimal digits and its value is at most
    the limit, however many digits there are, and then the value is the result; a
    status code exactly when it has three digits and lies between 100 and 599. *)
Theorem header_values_parsed value max r : 0 <= max < 2 ^ 64 -> Forall byte value ->
  (parse_content_length value max = Some r <-> value <> [] /\ Forall digit value /\ r = decimal value /\ r <= max) /\
  (parse_status_code value = Some r <-> length value = 3%nat /\ Forall digit value /\ r = decimal value /\ 100 <= r <= 599).
Proof.
  intros Hm Hb. split.
  - unfold parse_content_length, decimal. destruct (Z.eqb_spec (zlen value) 0) as [E|E]; [destruct value; [|cbn in E; lia]; split; [done|by intros []]|].
    rewrite content_length_loop_ok by lia. split; [intros (? & ? & ?)|intros (_ & ? & ? & ?)]; split_and!; try done. by intros ->.
  - unfold parse_status_code, decimal. destruct (Z.eqb_spec (zlen value) 3) as [E|E]; cbn [negb]; [|split; [done|intros []; lia]].
    assert (forall r, status_loop value 0 = Some r <-> Forall digit value /\ r = fold_left (fun n ch => n * 10 + (ch - 48)) value 0) as Hs by (intros r'; apply status_loop_ok; [lia|done|rewrite E; lia]).
    destruct (status_loop value 0) as [v|]; cbn [mbind option_bind].
    + destruct (proj1 (Hs v) eq_refl) as [Hd ->]. set (n := fold_left _ value 0). destruct (Z.ltb_spec n 100), (Z.ltb_spec 599 n); cbn [orb]; try (split; [done|intros (_ & _ & -> & ?); lia]).
      split; [intros [= <-]; split_and!; done || lia|by intros (_ & _ & -> & _)].
    + split; [done|]. intros (_ & Hd & -> & _). by apply Hs.
Qed.

