(* ===== verification/Port.v ===== *)
(** * Ports: from the bytes of a connection to messages

    How a listening port picks the protocol of its connections
    ([ListenPort::init_protocol] of [src/server/port.cc], the functions of
    [src/protocol/http.cc] that look at the state of the connection), WebSocket as a
    user of the receive loop, and the way of a WebSocket message from the sender's
    [encode] over a network that cuts the stream as it likes to the workers. *)

From Stdlib Require Import Ascii.
From S2P Require Import Prelude MemPool WebSocket Str Protocol LengthProtocol Mqtt Http2.

(** ** Definitions *)

Definition SW_WEBSOCKET_FRAME_HEADER_SIZE : Z := SW_WEBSOCKET_HEADER_LEN + SW_WEBSOCKET_MASK_LEN + 8.
Definition SW_DATA_EOF_MAXLEN : Z := 8.
Definition STATUS_HANDSHAKE : Z := 2.

(** The functions that the pointers of [Protocol] and [ListenPort] can hold *)
Inductive length_func := default_length_func | http_get_package_length | http2_get_frame_length | websocket_get_package_length | mqtt_get_package_length.
Inductive package_func := dispatch_task | http_dispatch_frame | websocket_dispatch_frame.
Inductive read_func := readable_callback_eof | readable_callback_length | readable_callback_http | readable_callback_redis | readable_callback_raw.

(** What [init_protocol] reads and writes; [length_size_func] is true when
    [get_package_length_size] is set *)
Record ListenPort := mkPort {
  is_dgram : bool;
  is_dtls : bool;
  open_eof_check : bool;
  open_length_check : bool;
  open_http_protocol : bool;
  open_http2_protocol : bool;
  open_websocket_protocol : bool;
  open_mqtt_protocol : bool;
  open_redis_protocol : bool;
  package_eof_len : Z;
  config : LengthConfig;
  get_length_func : option length_func;
  length_size_func : bool;
  on_package : option package_func;
  on_read : option read_func;
}.

Definition set_protocol_of (p : ListenPort) (eof_len : Z) (cfg : LengthConfig) (f : option length_func) (sf : bool) (pk : option package_func) (rd : read_func) : ListenPort :=
  mkPort (is_dgram p) (is_dtls p) (open_eof_check p) (open_length_check p) (open_http_protocol p) (open_http2_protocol p) (open_websocket_protocol p)
    (open_mqtt_protocol p) (open_redis_protocol p) eof_len cfg f sf pk (Some rd).

Definition with_size (c : LengthConfig) (size : Z) : LengthConfig := mkLength (package_length_type c) size (package_length_offset c) (package_body_offset c).
Definition without_offsets (c : LengthConfig) : LengthConfig := mkLength (package_length_type c) (package_length_size c) 0 0.

Definition init_protocol (p : ListenPort) : ListenPort :=
  let c := config p in
  if is_dgram p && negb (is_dtls p) then p else
  if open_eof_check p then
    set_protocol_of p (if SW_DATA_EOF_MAXLEN <? package_eof_len p then SW_DATA_EOF_MAXLEN else package_eof_len p) c (get_length_func p) (length_size_func p)
      (Some dispatch_task) readable_callback_eof
  else if open_length_check p then
    set_protocol_of p (package_eof_len p) c (if decide (package_length_type c = zero) then get_length_func p else Some default_length_func) (length_size_func p)
      (Some dispatch_task) readable_callback_length
  else if open_http_protocol p then
    let '(c, f, sf, pk) :=
      if open_http2_protocol p && open_websocket_protocol p then (c, Some http_get_package_length, true, Some http_dispatch_frame)
      else if open_http2_protocol p then (with_size c SW_HTTP2_FRAME_HEADER_SIZE, Some http2_get_frame_length, length_size_func p, Some dispatch_task)
      else if open_websocket_protocol p then
        (with_size c SW_WEBSOCKET_FRAME_HEADER_SIZE, Some websocket_get_package_length, length_size_func p, Some websocket_dispatch_frame)
      else (c, get_length_func p, length_size_func p, on_package p) in
    set_protocol_of p (package_eof_len p) (without_offsets c) f sf pk readable_callback_http
  else if open_mqtt_protocol p then
    set_protocol_of p (package_eof_len p) (set_protocol c) (Some mqtt_get_package_length) (length_size_func p) (Some dispatch_task) readable_callback_length
  else if open_redis_protocol p then
    set_protocol_of p (package_eof_len p) c (get_length_func p) (length_size_func p) (Some dispatch_task) readable_callback_redis
  else set_protocol_of p (package_eof_len p) c (get_length_func p) (length_size_func p) (on_package p) readable_callback_raw.

(** The part of a connection that the HTTP functions look at *)
Record Connection := mkConnection { conn_websocket_status : Z; http2_stream : bool }.

(** [websocket::get_package_length] *)
Definition get_package_length (buf : list Z) : option Z := '(_, total) ← get_package_length_impl buf (zlen buf); Some total.

(** [http_server::get_package_length], [get_package_length_size] and [dispatch_frame] *)
Definition http_package_length (conn : Connection) (buf : list Z) : option Z :=
  if STATUS_HANDSHAKE <=? conn_websocket_status conn then get_package_length buf
  else if http2_stream conn then get_frame_length buf else Some SW_ERR.
Definition get_package_length_size (conn : Connection) : Z :=
  if STATUS_HANDSHAKE <=? conn_websocket_status conn then SW_WEBSOCKET_FRAME_HEADER_SIZE
  else if http2_stream conn then SW_HTTP2_FRAME_HEADER_SIZE else 0.
Definition http_dispatch (conn : Connection) : option package_func :=
  if STATUS_HANDSHAKE <=? conn_websocket_status conn then Some websocket_dispatch_frame
  else if http2_stream conn then Some dispatch_task else None.

(** The calls through the pointers, for a connection of the port *)
Definition call_get_package_length (p : ListenPort) (conn : Connection) (buf : list Z) : option Z :=
  f ← get_length_func p;
  match f with
  | default_length_func => LengthProtocol.default_length_func (config p) buf
  | http_get_package_length => http_package_length conn buf
  | http2_get_frame_length => get_frame_length buf
  | websocket_get_package_length => get_package_length buf
  | mqtt_get_package_length => Mqtt.get_package_length buf (size32 buf)
  end.
Definition call_package_length_size (p : ListenPort) (conn : Connection) : Z :=
  if length_size_func p then get_package_length_size conn else package_length_size (config p).
Definition call_on_package (p : ListenPort) (conn : Connection) : option package_func :=
  f ← on_package p;
  match f with http_dispatch_frame => http_dispatch conn | f => Some f end.
(** [readable_callback_http] leaves a connection that left HTTP/1 to
    [readable_callback_length] *)
Definition call_on_read (p : ListenPort) (conn : Connection) : option read_func :=
  f ← on_read p;
  Some (match f with
        | readable_callback_http => if (STATUS_HANDSHAKE <=? conn_websocket_status conn) || http2_stream conn then readable_callback_length else readable_callback_http
        | f => f
        end).

(** ** WebSocket as a user of the receive loop *)

Lemma load_app n (l m : list Z) off : off + Z.of_nat n <= zlen l -> load n (l ++ m) off = load n l off.
Proof. intros Hl. unfold load. by rewrite zsub_app_l. Qed.

Lemma load_is_Some n (l : list Z) off : 0 <= off -> off + Z.of_nat n <= zlen l -> is_Some (load n l off).
Proof. intros Ho Hl. unfold load. destruct (zsub_in_bounds l off (Z.of_nat n)) as (d & ->); [lia..|]. by eexists. Qed.

(** Once the answer is not 0, or the longest header is there, more bytes do not
    change it. *)
Lemma package_length_app l m r : get_package_length l = Some r -> r <> 0 \/ SW_WEBSOCKET_FRAME_HEADER_SIZE <= zlen l -> get_package_length (l ++ m) = Some r.
Proof.
  unfold get_package_length, get_package_length_impl. change SW_WEBSOCKET_FRAME_HEADER_SIZE with 14. unfold SW_WEBSOCKET_HEADER_LEN, SW_WEBSOCKET_MASK_LEN. rewrite length_app, Nat2Z.inj_add.
  destruct (Z.ltb_spec (zlen l) 2); [cbn; intros [= <-] [?|?]; [done|lia]|]. destruct (Z.ltb_spec (zlen l + zlen m) 2); [lia|]. rewrite zget_app_l by lia. destruct (zget l 1) as [b1|]; [|done]. cbn [mbind option_bind].
  destruct (Z.land b1 127 =? SW_WEBSOCKET_EXT16_LENGTH); [|destruct (Z.land b1 127 =? SW_WEBSOCKET_EXT64_LENGTH)].
  - destruct (Z.ltb_spec (zlen l) (2 + 2)); [cbn; intros [= <-] [?|?]; [done|lia]|]. destruct (Z.ltb_spec (zlen l + zlen m) (2 + 2)); [lia|]. rewrite load_app by lia. destruct (load 2 l 2) as [v|]; [|done]. cbn [mbind option_bind].
    destruct (WebSocket.bit b1 7); cbn [andb]; [|done]. destruct (Z.ltb_spec (zlen l) (2 + 2 + 4)); [cbn; intros [= <-] [?|?]; [done|lia]|]. by destruct (Z.ltb_spec (zlen l + zlen m) (2 + 2 + 4)); [lia|].
  - destruct (Z.ltb_spec (zlen l) (2 + 8)); [cbn; intros [= <-] [?|?]; [done|lia]|]. destruct (Z.ltb_spec (zlen l + zlen m) (2 + 8)); [lia|]. rewrite load_app by lia. destruct (load 8 l 2) as [v|]; [|done]. cbn [mbind option_bind].
    destruct (WebSocket.bit b1 7); cbn [andb]; [|done]. destruct (Z.ltb_spec (zlen l) (2 + 8 + 4)); [cbn; intros [= <-] [?|?]; [done|lia]|]. by destruct (Z.ltb_spec (zlen l + zlen m) (2 + 8 + 4)); [lia|].
  - destruct (WebSocket.bit b1 7); cbn [andb]; [|done]. destruct (Z.ltb_spec (zlen l) (2 + 4)); [cbn; intros [= <-] [?|?]; [done|lia]|]. by destruct (Z.ltb_spec (zlen l + zlen m) (2 + 4)); [lia|].
Qed.

(** It is defined, and finds the length in every whole header. *)
Lemma package_length_defined l : Forall byte l -> exists r, get_package_length l = Some r /\ (SW_WEBSOCKET_FRAME_HEADER_SIZE <= zlen l -> r <> 0).
Proof.
  intros Hb. unfold get_package_length, get_package_length_impl. change SW_WEBSOCKET_FRAME_HEADER_SIZE with 14. unfold SW_WEBSOCKET_HEADER_LEN, SW_WEBSOCKET_MASK_LEN.
  assert (forall (b : bool) h v, 2 <= h <= 14 -> exists r, ('(_, total) ← (if b && (zlen l <? h) then Some (h, 0) else if s64 v <? 0 then Some (h, -1) else Some (h, s64 (h + v))); Some total) = Some r /\ (0 <= v < 2 ^ 64 -> 14 <= zlen l -> r <> 0)) as Hfin.
  { intros b h v Hh. destruct (b && (zlen l <? h)) eqn:E; [eexists; split; [done|]; intros _ ?; destruct b; [|done]; cbn in E; apply Z.ltb_lt in E; lia|]. destruct (Z.ltb_spec (s64 v) 0) as [|Hv]; [by eexists|]. eexists. split; [done|].
    intros Hv' _ E0. unfold sN in *. pose proof (Z.mod_pos_bound (v + 2 ^ (64 - 1)) (2 ^ 64) ltac:(lia)). pose proof (Z.div_mod (h + v + 2 ^ (64 - 1)) (2 ^ 64) ltac:(lia)). pose proof (Z.div_mod (v + 2 ^ (64 - 1)) (2 ^ 64) ltac:(lia)). lia. }
  assert (forall n (k : Z), 0 <= ntoh n k < 256 ^ Z.of_nat n) as Hn.
  { intros n k. unfold ntoh. pose proof (le_value_bounds (rev (le_bytes n k)) (Forall_rev (le_bytes_byte n k))) as Hv. by rewrite length_rev, le_bytes_length in Hv. }
  destruct (Z.ltb_spec (zlen l) 2); [eexists; split; [done|]; lia|]. destruct (zget_in_bounds l 1) as (b1 & ->); [lia|]. cbn [mbind option_bind].
  destruct (Z.eqb_spec (Z.land b1 127) SW_WEBSOCKET_EXT16_LENGTH); [|destruct (Z.eqb_spec (Z.land b1 127) SW_WEBSOCKET_EXT64_LENGTH)].
  - destruct (Z.ltb_spec (zlen l) (2 + 2)); [eexists; split; [done|]; lia|]. destruct (load_is_Some 2 l 2) as (v & ->); [lia..|]. cbn [mbind option_bind].
    specialize (Hn 2%nat v). destruct (Hfin (WebSocket.bit b1 7) (if WebSocket.bit b1 7 then 2 + 2 + 4 else 2 + 2) (ntoh 2 v)) as (r & E & Hr); [destruct (WebSocket.bit b1 7); lia|]. exists r. split; [by destruct (WebSocket.bit b1 7)|]. intros Hl. apply Hr; cbn in *; lia.
  - destruct (Z.ltb_spec (zlen l) (2 + 8)); [eexists; split; [done|]; lia|]. destruct (load_is_Some 8 l 2) as (v & ->); [lia..|]. cbn [mbind option_bind].
    specialize (Hn 8%nat v). destruct (Hfin (WebSocket.bit b1 7) (if WebSocket.bit b1 7 then 2 + 8 + 4 else 2 + 8) (ntoh 8 v)) as (r & E & Hr); [destruct (WebSocket.bit b1 7); lia|]. exists r. split; [by destruct (WebSocket.bit b1 7)|]. intros Hl. apply Hr; cbn in *; lia.
  - destruct (Hfin (WebSocket.bit b1 7) (if WebSocket.bit b1 7 then 2 + 4 else 2) (Z.land b1 127)) as (r & E & Hr); [destruct (WebSocket.bit b1 7); lia|]. exists r. split; [by destruct (WebSocket.bit b1 7)|]. intros Hl. apply Hr; [|lia].
    rewrite land_127. pose proof (Z.mod_pos_bound b1 128 ltac:(lia)). lia.
Qed.

#[export] Instance websocket_length : LengthFunc.
Proof.
  refine {| lf_header := SW_WEBSOCKET_FRAME_HEADER_SIZE; lf_get := get_package_length |}; [done|..].
  - intros l Hb _. destruct (package_length_defined l Hb) as (r & E & _). by exists r.
  - intros l m r _ E Hr. apply package_length_app; [done|by left].
  - intros l m [Hb _]%Forall_app Hl. destruct (package_length_defined l Hb) as (r & E & _). rewrite E. apply package_length_app; [done|by right].
Defined.

Lemma websocket_finds_length : @finds_length websocket_length.
Proof. intros l Hb Hl E. destruct (package_length_defined l Hb) as (r & E' & Hr). change (get_package_length l = Some 0) in E. rewrite E' in E. injection E as ->. by apply Hr. Qed.

Lemma part_frame_length m fin opcode p : Forall byte p -> zlen p < 2 ^ 31 -> 0 <= opcode < 16 -> (is_control_frame opcode = true -> fin = true /\ zlen p <= 125) ->
  exists frame, part_frame m fin opcode p = Some frame /\ Forall byte frame /\ get_package_length frame = Some (zlen frame) /\ 0 < zlen frame <= zlen p + 14.
Proof.
  intros Hp Hl Hop Hctl. set (flags := base_flags m fin).
  assert (has flags FLAG_ENCODE_HEADER_ONLY = false /\ has flags FLAG_FIN = fin /\ has flags FLAG_RSV1 = false /\ has flags FLAG_MASK = m) as (H1 & H2 & H3 & H4) by (by destruct m, fin).
  assert (is_control_frame opcode = true -> has flags FLAG_FIN = true /\ has flags FLAG_RSV1 = false /\ zlen p <= 125) as Hc by (intros Hc; destruct (Hctl Hc) as [-> ?]; by rewrite H2, H3).
  destruct (encode_frame p opcode flags Hp Hl Hop H1 Hc []) as (len & ext & Hcod & E). cbn [app] in E.
  destruct (frame_shape p opcode flags Hop len ext Hcod) as (b0 & b1 & Eh & _ & _ & Hb0 & Hb1 & Hext & Hkey & Hlf & Hle & Hlk). exists (frame_of p opcode flags len ext). unfold part_frame. fold flags. rewrite E. split; [done|].
  split_and!; [| |lia|rewrite H4 in Hlk; destruct m; lia].
  - unfold frame_of. rewrite Eh, !Forall_app, !Forall_cons. split_and!; try done. unfold body_of. destruct (has flags FLAG_MASK); [|done]. apply masked_byte; [apply mask_data_ok|done].
  - unfold get_package_length. rewrite (frame_package_length p opcode flags Hl Hop len ext Hcod). done.
Qed.

(** The frames of a message, as the receive loop sees them. *)
Lemma message_frames_ok m opcode p0 items p1 max f0 fs f1 : opcode = OPCODE_TEXT \/ opcode = OPCODE_BINARY -> Forall byte p0 -> Forall item_ok items -> Forall byte p1 ->
  zlen p0 + zlen (concat (part_of <$> items)) + zlen p1 + 14 <= max -> 139 <= max < 2 ^ 31 ->
  part_frame m false opcode p0 = Some f0 -> mapM (item_frame m) items = Some fs -> part_frame m true OPCODE_CONTINUATION p1 = Some f1 ->
  Forall (@packet_ok websocket_length max) (f0 :: fs ++ [f1]).
Proof.
  intros Hop H0 Hit H1 Hl Hmax E0 Es E1. assert (forall fin op p f, 0 <= op < 16 -> (is_control_frame op = true -> fin = true /\ zlen p <= 125) -> Forall byte p -> zlen p + 14 <= max ->
    part_frame m fin op p = Some f -> @packet_ok websocket_length max f) as Hok.
  { intros fin op p f Hop' Hctl Hp Hlp E. destruct (part_frame_length m fin op p) as (f' & E' & Hb & Hg & Hz); [done|lia|done|done|]. rewrite E in E'. injection E' as <-. split_and!; try done; lia. }
  constructor; [|apply Forall_app; split; [|apply Forall_singleton]].
  - apply (Hok false opcode p0); try done; [unfold OPCODE_TEXT, OPCODE_BINARY in Hop; lia|by destruct Hop as [-> | ->]|lia].
  - clear E0 E1. revert fs Es Hl. induction Hit as [|it items Hi Hit IH]; intros fs Es Hl; [cbn in Es; by injection Es as <-|]. cbn [mapM] in Es. destruct (item_frame m it) as [f|] eqn:Ef; [|done]. cbn [mbind option_bind] in Es.
    destruct (mapM (item_frame m) items) as [fs'|] eqn:Efs; [|done]. injection Es as <-. cbn [fmap list_fmap concat] in Hl. fold (part_of <$> items) in Hl. rewrite length_app in Hl. constructor; [|apply IH; [done|lia]].
    destruct it as [p|p]; cbn [item_frame item_ok part_of] in *; [apply (Hok false OPCODE_CONTINUATION p)|apply (Hok true OPCODE_PING p)]; try done; try lia; by destruct Hi.
  - apply (Hok true OPCODE_CONTINUATION p1); try done. lia.
Qed.

(** The protocol of a WebSocket connection, whether the port offers HTTP/2 or not. *)
Lemma websocket_protocol p conn : is_dgram p = false -> open_eof_check p = false -> open_length_check p = false -> open_http_protocol p = true ->
  open_websocket_protocol p = true -> length_size_func p = false -> STATUS_HANDSHAKE <= conn_websocket_status conn ->
  let q := init_protocol p in
  call_on_read q conn = Some readable_callback_length /\ call_on_package q conn = Some websocket_dispatch_frame /\
  package_length_offset (config q) + call_package_length_size q conn = @lf_header websocket_length /\ forall buf, call_get_package_length q conn buf = @lf_get websocket_length buf.
Proof.
  intros E1 E2 E3 E4 E5 E6 Hs q. assert ((STATUS_HANDSHAKE <=? conn_websocket_status conn) = true) as Hb by by apply Z.leb_le. unfold q, init_protocol. rewrite E1, E2, E3, E4, E5. cbn [andb].
  destruct (open_http2_protocol p); cbn; unfold call_on_read, call_on_package, call_package_length_size, call_get_package_length; cbn; rewrite ?E6; unfold http_dispatch, get_package_length_size, http_package_length; rewrite ?Hb; done.
Qed.

(** ** Properties *)

(** The protocols whose length function finds the length in every whole header; for
    the default one, when the length does not count the bytes before the body. *)
Inductive framing :=
  | F_default (p : LengthConfig) (Hp : length_config_ok p) (Hb : 0 < package_body_offset p)
  | F_mqtt | F_http2 | F_websocket.
Definition framing_length (k : framing) : LengthFunc :=
  match k with
  | F_default p Hp _ => default_length p Hp
  | F_mqtt => mqtt_length
  | F_http2 => http2_length
  | F_websocket => websocket_length
  end.

Lemma framing_header k : 0 < @lf_header (framing_length k) < 2 ^ 17.
Proof.
  destruct k as [p Hp Hb| | |]; [|done..]. change (0 < package_length_offset p + package_length_size p < 2 ^ 17). pose proof (lp_offset _ Hp). pose proof (lp_known _ Hp). rewrite (lp_size _ Hp) in *.
  assert (swoole_type_size (package_length_type p) <= 8); [|lia]. destruct (package_length_type p) as [[] [] [] [] [] [] [] []]; done.
Qed.

(** C12: a hostile peer cannot harm the receive loop of MQTT, HTTP/2, WebSocket or the
    length protocol with a body offset: whatever bytes come, however they are cut,
    whatever errors [recv] reports (but [EFAULT], a wrong address, on which
    [catch_error] aborts by intention) and whatever the program answers, the loop stays
    inside a buffer that has room for two headers, and ends, and the packets that the
    program got are the first ones of the stream.  Conditions: the buffer has room for
    two headers and the limit of packets is below 2 GB. *)
Theorem hostile_peer_harmless `{Allocator} k max onPackage ssl size st sc n :
  0 <= max < 2 ^ 31 -> 2 * @lf_header (framing_length k) <= size <= max_len -> Forall byte st -> Forall sane sc ->
  exists c r, @length_events _ (framing_length k) max onPackage ssl n (new_conn size st sc) = Some (c, r) /\
    packets c `prefix_of` (@len_frames (framing_length k) max st).1.
Proof.
  intros Hm Hs Hb Hsc. pose proof (framing_header k). apply (@length_run_safe _ (framing_length k)); [done|lia|done| |done|done].
  destruct k as [p Hp Hbo| | |]; [by apply default_finds_length|apply mqtt_finds_length|apply http2_finds_length|apply websocket_finds_length].
Qed.

Lemma hostile_peer_harmless_witness :
  exists c, @length_events zero_allocator http2_length 100 yes false 4
      (@new_conn zero_allocator 18 [0; 0; 1; 0; 0; 0; 0; 0; 1; 97; 255; 255; 255; 0; 0; 0; 0; 0; 0] [Take 9; Take 3; Take 9; Fail ECONNRESET]) = Some (c, SW_ERR) /\
    packets c = [[0; 0; 1; 0; 0; 0; 0; 0; 1; 97]].
Proof.
  destruct (@hostile_peer_harmless zero_allocator F_http2 100 yes false 18 [0; 0; 1; 0; 0; 0; 0; 0; 1; 97; 255; 255; 255; 0; 0; 0; 0; 0; 0]
    [Take 9; Take 3; Take 9; Fail ECONNRESET] 4) as (c & r & E & Hr).
  - lia.
  - split; [vm_compute; discriminate|unfold max_len; lia].
  - repeat constructor; done.
  - by repeat constructor.
  - exists c. assert (r = SW_ERR /\ packets c = [[0; 0; 1; 0; 0; 0; 0; 0; 1; 97]]) as [-> Hp] by (vm_compute in E; injection E as <- <-; done). split; [exact E|exact Hp].
Defined.

(** C10: a WebSocket message over the network.  The sender encodes it in any number of
    fragments, with pings in between; the network cuts the bytes as it likes.  On a port
    with WebSocket, with or without HTTP/2, the connection is read by
    [readable_callback_length] with the length function of WebSocket; the receive loop
    never fails and delivers the frames in order, and when everything was read,
    dispatching them gives to the workers the pings and then the message, once and
    whole.  Conditions: the port checks neither an end mark nor a length, the connection
    is past the handshake, the payload with 14 bytes of header is within the limit (139
    bytes to 2 GB), pings have at most 125 bytes, recv may wait but does not fail, and
    the program takes the frames and does not close the connection. *)
Theorem websocket_message_delivered `{Allocator} p conn m opcode p0 items p1 max st onPackage ssl size sc n :
  is_dgram p = false -> open_eof_check p = false -> open_length_check p = false -> open_http_protocol p = true ->
  open_websocket_protocol p = true -> length_size_func p = false -> STATUS_HANDSHAKE <= conn_websocket_status conn ->
  opcode = OPCODE_TEXT \/ opcode = OPCODE_BINARY -> Forall byte p0 -> Forall item_ok items -> Forall byte p1 ->
  zlen p0 + zlen (concat (part_of <$> items)) + zlen p1 + 14 <= max -> 139 <= max < 2 ^ 31 ->
  28 <= size <= max_len -> (forall p, 0 <= (onPackage p).1 /\ (onPackage p).2 = false) -> Forall benign sc ->
  let q := init_protocol p in
  (call_on_read q conn = Some readable_callback_length /\ call_on_package q conn = Some websocket_dispatch_frame /\
   package_length_offset (config q) + call_package_length_size q conn = @lf_header websocket_length /\
   forall buf, call_get_package_length q conn buf = @lf_get websocket_length buf) /\
  exists f0 fs f1 c, part_frame m false opcode p0 = Some f0 /\ mapM (item_frame m) items = Some fs /\ part_frame m true OPCODE_CONTINUATION p1 = Some f1 /\
    @length_events _ websocket_length max onPackage ssl n (new_conn size (concat (f0 :: fs ++ [f1])) sc) = Some (c, SW_OK) /\
    packets c `prefix_of` (f0 :: fs ++ [f1]) /\
    (input c = [] -> dispatch_all max (WebSocket.mkConn None st) (packets c) =
       Some (WebSocket.mkConn None st, concat (ping_of m <$> items) ++ [Dispatch (ext_of m opcode) (p0 ++ concat (part_of <$> items) ++ p1)], true)).
Proof.
  intros E1 E2 E3 E4 E5 E6 Hst Hop H0 Hit H1 Hl Hmax Hsz Hpk Hsc q. split; [by apply websocket_protocol|].
  destruct (fragments_reassembled m opcode p0 items p1 max st Hop H0 Hit H1) as (f0 & fs & f1 & F0 & Fs & F1 & D); [lia..|]. pose proof (message_frames_ok _ _ _ _ _ _ _ _ _ Hop H0 Hit H1 Hl Hmax F0 Fs F1) as Hok.
  destruct (@packets_delivered _ websocket_length max onPackage ssl size (f0 :: fs ++ [f1]) sc n) as (c & Ec & Hpre & Hall); [lia|done|done|done|done|done|].
  exists f0, fs, f1, c. split_and!; try done. intros Hi. by rewrite (Hall Hi).
Qed.

Definition demo_port : ListenPort :=
  mkPort false false false false true true true false false 4 (set_length_protocol 0 "N"%char 0) None false None None.

Lemma websocket_message_delivered_witness : exists f0 fs f1 c,
  part_frame true false OPCODE_TEXT [115] = Some f0 /\ mapM (item_frame true) [Ping [1]; Part [119; 111]] = Some fs /\ part_frame true true OPCODE_CONTINUATION [111; 108; 101] = Some f1 /\
  @length_events _ websocket_length 1024 yes false 9 (new_conn 32 (concat (f0 :: fs ++ [f1])) (repeat (Take 7) 9)) = Some (c, SW_OK) /\
  dispatch_all 1024 (WebSocket.mkConn None 3) (packets c) =
  Some (WebSocket.mkConn None 3, [Dispatch (ext_of true OPCODE_PING) [1]; Dispatch (ext_of true OPCODE_TEXT) [115; 119; 111; 111; 108; 101]], true).
Proof.
  destruct (websocket_message_delivered demo_port (mkConnection 3 false) true OPCODE_TEXT [115] [Ping [1]; Part [119; 111]] [111; 108; 101] 1024 3 yes false 32 (repeat (Take 7) 9) 9)
    as (_ & f0 & fs & f1 & c & F0 & Fs & F1 & E & _ & Hd).
  - reflexivity.
  - reflexivity.
  - reflexivity.
  - reflexivity.
  - reflexivity.
  - reflexivity.
  - vm_compute. discriminate.
  - left. reflexivity.
  - repeat constructor; done.
  - repeat constructor; done.
  - repeat constructor; done.
  - vm_compute. discriminate.
  - lia.
  - unfold max_len. lia.
  - intros p. cbn. lia.
  - by repeat constructor.
  - exists f0, fs, f1, c. split; [exact F0|]. split; [exact Fs|]. split; [exact F1|]. split; [exact E|]. rewrite Hd; [reflexivity|].
    vm_compute in F0, Fs, F1. injection F0 as <-. injection Fs as <-. injection F1 as <-. vm_compute in E. injection E as <-. reflexivity.
Defined.
