(* ===== verification/MessageBus.v ===== *)
(** * The message bus between the processes of a server

    [MessageBus] of [src/protocol/message_bus.cc] and
    [include/swoole_message_bus.h] over datagram pipes.  A message that does not fit
    into one datagram is sent in chunks; the chunks of several senders come in any
    order through one pipe, and the receiver puts each message together in a pool of
    strings.  The pipe is the queue of its datagrams; a sender has a script of what
    its calls of [writev] do. *)

From S2P Require Import Prelude MemPool Str.

(** ** Definitions *)

Record DataHead := mkHead {
  fd : Z;
  msg_id : Z;
  len : Z;
  reactor_id : Z;
  type : Z;
  flags : Z;
  server_fd : Z;
  ext_flags : Z;
  reserved : Z;
  time : Z;
}.
Definition with_flags (h : DataHead) f := mkHead (fd h) (msg_id h) (len h) (reactor_id h) (type h) f (server_fd h) (ext_flags h) (reserved h) (time h).
Definition with_len (h : DataHead) n := mkHead (fd h) (msg_id h) n (reactor_id h) (type h) (flags h) (server_fd h) (ext_flags h) (reserved h) (time h).
Definition with_id (h : DataHead) i := mkHead (fd h) i (len h) (reactor_id h) (type h) (flags h) (server_fd h) (ext_flags h) (reserved h) (time h).

Definition sizeof_DataHead : Z := 40.
Definition SW_IPC_MSG_MIN : Z := 2048 - sizeof_DataHead.
Definition SW_WORKER_MAX_RECV_CHUNK_COUNT : Z := 32.

Definition SW_EVENT_DATA_PTR : Z := 2.
Definition SW_EVENT_DATA_CHUNK : Z := 4.
Definition SW_EVENT_DATA_BEGIN : Z := 8.
Definition SW_EVENT_DATA_END : Z := 16.
Definition SW_EVENT_DATA_OBJ_PTR : Z := 32.

Definition has_flag (h : DataHead) (f : Z) : bool := negb (Z.land (flags h) f =? 0).
Definition is_begin (h : DataHead) : bool := has_flag h SW_EVENT_DATA_BEGIN.
Definition is_chunked (h : DataHead) : bool := has_flag h SW_EVENT_DATA_CHUNK.
Definition is_end (h : DataHead) : bool := has_flag h SW_EVENT_DATA_END.

(** A datagram of the pipe *)
Definition dgram : Type := DataHead * list Z.

(** *** Sending *)

(** The errors of a write that [catch_write_pipe_error] tells apart, on Linux *)
Inductive pipe_errno := ENOBUFS | EMSGSIZE | EOTHER.
Inductive send_result := Sent | Failed (err : pipe_errno).
Definition reduce_size (err : pipe_errno) : bool := match err with ENOBUFS | EMSGSIZE => true | EOTHER => false end.

(** The calls of [writev]; without a script they succeed *)
Definition send (script : list send_result) : send_result * list send_result :=
  match script with [] => (Sent, []) | r :: script => (r, script) end.

(** The loop of [MessageBus::write]: the datagrams that were sent, and the result *)
Fixpoint chunk_loop (fuel : nat) (script : list send_result) (info : DataHead) (payload : list Z) (l_payload offset max_length : Z) : option (list dgram * bool) :=
  if negb (0 <? l_payload) then Some ([], true) else
  match fuel with
  | O => None
  | S fuel =>
      let '(info, copy_n) := if max_length <? l_payload then (info, max_length) else (with_flags info (Z.lor (flags info) SW_EVENT_DATA_END), l_payload) in
      data ← zsub payload offset copy_n;
      match send script with
      | (Failed err, script) =>
          if reduce_size err && (SW_IPC_MSG_MIN <? max_length) then
            let info := if is_end info then with_flags info (Z.ldiff (flags info) SW_EVENT_DATA_END) else info in
            chunk_loop fuel script info payload l_payload offset SW_IPC_MSG_MIN
          else Some ([], false)
      | (Sent, script) =>
          let next := if is_begin info then with_flags info (Z.ldiff (flags info) SW_EVENT_DATA_BEGIN) else info in
          '(ds, ok) ← chunk_loop fuel script next payload (l_payload - copy_n) (offset + copy_n) max_length;
          Some ((info, data) :: ds, ok)
      end
  end.

(** [MessageBus::write]; [id] is what the generator of the ids gives, [payload] the
    data unless the pointer is null *)
Definition write (buffer_size : Z) (always_chunked : bool) (id : Z) (script : list send_result) (info : DataHead) (payload : option (list Z)) : option (list dgram * bool) :=
  let l_payload := len info in
  let max_length := u32 (buffer_size - sizeof_DataHead) in
  let info := with_id info id in
  let chunks script max_length payload :=
    chunk_loop (Z.to_nat l_payload + 1) script (with_len (with_flags info (Z.lor SW_EVENT_DATA_CHUNK SW_EVENT_DATA_BEGIN)) l_payload) payload l_payload 0 max_length in
  match payload with
  | Some payload =>
      if l_payload =? 0 then
        match send script with
        | (Sent, _) => Some ([(with_len (with_flags info 0) 0, [])], true)
        | (Failed _, _) => Some ([], false)
        end
      else if negb always_chunked && (l_payload <=? max_length) then
        data ← zsub payload 0 l_payload;
        match send script with
        | (Sent, _) => Some ([(with_len (with_flags info 0) l_payload, data)], true)
        | (Failed err, script) =>
            if reduce_size err && (SW_IPC_MSG_MIN <? max_length) then chunks script SW_IPC_MSG_MIN payload else Some ([], false)
        end
      else chunks script max_length payload
  | None =>
      match send script with
      | (Sent, _) => Some ([(with_len (with_flags info 0) 0, [])], true)
      | (Failed _, _) => Some ([], false)
      end
  end.

(** *** Receiving *)

(** [PipeBuffer] with the memory behind the header; [ptr] is the pointer that
    [prepare_packet] or [pass] writes over its first bytes: to a string of the pool,
    or to the data of a task *)
Inductive pointer := NoPtr | StringPtr (id : Z) | TaskPtr (data : list Z).
Record PipeBuffer := mkBuffer { info : DataHead; area : list Z; ptr : pointer }.
Record Bus := mkBus { buffer_size : Z; buffer : PipeBuffer; packet_pool : gmap Z Str }.
Definition with_buf b x := mkBus (buffer_size b) x (packet_pool b).
Definition with_pool b p := mkBus (buffer_size b) (buffer b) p.

Section receive.
Context `{Allocator}.

(** [alloc_buffer] *)
Definition zero_head : DataHead := mkHead 0 0 0 0 0 0 0 0 0 0.
Definition make_bus (size : Z) : Bus := mkBus size (mkBuffer zero_head (fresh (size - sizeof_DataHead)) NoPtr) ∅.

(** [pass], [get_packet], [move_packet] and [pop] *)
Definition pass (b : Bus) (task : DataHead) (data : list Z) : Bus :=
  if 0 <? len task then with_buf b (mkBuffer (with_len (with_flags task SW_EVENT_DATA_PTR) 16) (area (buffer b)) (TaskPtr data))
  else with_buf b (mkBuffer task (area (buffer b)) (ptr (buffer b))).
Definition get_packet (b : Bus) : option (list Z) :=
  let i := info (buffer b) in
  if has_flag i SW_EVENT_DATA_PTR then match ptr (buffer b) with TaskPtr d => Some d | _ => None end
  else if has_flag i SW_EVENT_DATA_OBJ_PTR then
    match ptr (buffer b) with StringPtr id => s ← packet_pool b !! id; zsub (mem s) 0 (slen s) | _ => None end
  else zsub (area (buffer b)) 0 (len i).
Definition move_packet (b : Bus) : Bus * option (list Z) :=
  match packet_pool b !! msg_id (info (buffer b)) with
  | Some s => (with_pool b (<[msg_id (info (buffer b)) := mkStr [] (slen s) (ssize s) (soff s) (sallocator s)]> (packet_pool b)), Some (mem s))
  | None => (b, None)
  end.
Definition pop (b : Bus) : Bus :=
  if is_end (info (buffer b)) then with_pool b (delete (msg_id (info (buffer b))) (packet_pool b)) else b.

(** [get_packet_buffer]: the pool with the string of the message *)
Definition get_packet_buffer (b : Bus) : option (Bus * Str) :=
  let i := info (buffer b) in
  match packet_pool b !! msg_id i with
  | Some s => Some (b, s)
  | None => if negb (is_begin i) then None else let s := alloc (len i) in Some (with_pool b (<[msg_id i := s]> (packet_pool b)), s)
  end.

(** [prepare_packet]: the counter and what to do *)
Inductive verdict := SW_READY | SW_CONTINUE | SW_WAIT.
Definition prepare_packet (b : Bus) (recv_chunk_count : Z) : Bus * Z * verdict :=
  let i := info (buffer b) in
  let recv_chunk_count := u16 (recv_chunk_count + 1) in
  if negb (is_end i) then (b, recv_chunk_count, if SW_WORKER_MAX_RECV_CHUNK_COUNT <=? recv_chunk_count then SW_WAIT else SW_CONTINUE)
  else (with_buf b (mkBuffer (with_flags i (Z.lor (flags i) SW_EVENT_DATA_OBJ_PTR)) (area (buffer b)) (StringPtr (msg_id i))), recv_chunk_count, SW_READY).

(** [read_with_buffer]: the state, the rest of the pipe and the result; an empty pipe
    is [EAGAIN].  A datagram that is longer than the memory is cut. *)
Fixpoint read_with_buffer (pipe : list dgram) (b : Bus) (recv_chunk_count : Z) : option (Bus * list dgram * Z) :=
  match pipe with
  | [] => Some (b, [], 0)
  | (h, payload) :: pipe =>
      let data := take (Z.to_nat (buffer_size b - sizeof_DataHead)) payload in
      area' ← zblit (area (buffer b)) 0 data;
      let b := with_buf b (mkBuffer h area' NoPtr) in
      let recv_n := sizeof_DataHead + zlen data in
      let recv_chunk_count := u16 (recv_chunk_count + 1) in
      if negb (is_chunked h) then Some (b, pipe, recv_n) else
      match get_packet_buffer b with
      | None => Some (b, pipe, -1)
      | Some (b, s) =>
          d ← zsub (area (buffer b)) 0 (recv_n - sizeof_DataHead);
          s ← append s d;
          let b := with_pool b (<[msg_id h := s]> (packet_pool b)) in
          match prepare_packet b recv_chunk_count with
          | (b, _, SW_READY) => Some (b, pipe, recv_n)
          | (b, n, SW_CONTINUE) => read_with_buffer pipe b n
          | (b, _, SW_WAIT) => Some (b, pipe, 0)
          end
      end
  end.

(** [read]: looks at the header first and reads the data of a chunk directly into its
    string *)
Fixpoint read (pipe : list dgram) (b : Bus) (recv_chunk_count : Z) : option (Bus * list dgram * Z) :=
  match pipe with
  | [] => Some (b, [], 0)
  | (h, payload) :: pipe =>
      let b := with_buf b (mkBuffer h (area (buffer b)) (ptr (buffer b))) in
      if negb (is_chunked h) then
        let data := take (Z.to_nat (len h)) payload in
        area' ← zblit (area (buffer b)) 0 data;
        Some (with_buf b (mkBuffer h area' NoPtr), pipe, sizeof_DataHead + zlen data)
      else
      match get_packet_buffer b with
      | None => Some (b, pipe, 0)
      | Some (b, s) =>
          let remain_len := u64 (len h - slen s) in
          let data := take (Z.to_nat (Z.min (buffer_size b - sizeof_DataHead) remain_len)) payload in
          m ← zblit (mem s) (slen s) data;
          let s := mkStr m (slen s + zlen data) (ssize s) (soff s) (sallocator s) in
          let b := with_pool b (<[msg_id h := s]> (packet_pool b)) in
          let recv_n := sizeof_DataHead + zlen data in
          match prepare_packet b recv_chunk_count with
          | (b, _, SW_READY) => Some (b, pipe, recv_n)
          | (b, n, SW_CONTINUE) => read pipe b n
          | (b, _, SW_WAIT) => Some (b, pipe, 0)
          end
      end
  end.

(** The receiver calls one of them for every event, takes the packet that is complete
    and releases it ([ReactorThread_onPipeRead], [Worker_onPipeReceive]). *)
Fixpoint receive (direct : bool) (n : nat) (pipe : list dgram) (b : Bus) : option (Bus * list dgram * list (DataHead * list Z)) :=
  match n with
  | O => Some (b, pipe, [])
  | S n =>
      '(b, pipe, r) ← (if direct then read pipe b 0 else read_with_buffer pipe b 0);
      if 0 <? r then
        p ← get_packet b;
        let h := info (buffer b) in
        '(b, pipe, out) ← receive direct n pipe (pop b);
        Some (b, pipe, (h, p) :: out)
      else receive direct n pipe b
  end.
End receive.

(** ** The datagrams of a message *)

(** The header of a chunk *)
Definition chunk_flags (first last : bool) : Z :=
  Z.lor SW_EVENT_DATA_CHUNK (Z.lor (if first then SW_EVENT_DATA_BEGIN else 0) (if last then SW_EVENT_DATA_END else 0)).
Definition chunk_head (h : DataHead) (first last : bool) : DataHead := with_flags h (chunk_flags first last).

(** The chunks of the data [pl], the first one at the front when [first]; [ok] when
    all of them were sent *)
Inductive chunk_seq (max : Z) (h : DataHead) : bool -> list Z -> list dgram -> bool -> Prop :=
  | cs_stop first pl : chunk_seq max h first pl [] false
  | cs_last first pl : 0 < zlen pl <= max -> chunk_seq max h first pl [(chunk_head h first true, pl)] true
  | cs_more first p pl ds ok : 0 < zlen p <= max -> pl <> [] -> chunk_seq max h false pl ds ok ->
      chunk_seq max h first (p ++ pl) ((chunk_head h first false, p) :: ds) ok.

(** The datagrams of a message: one without flags, or its chunks *)
Definition wire (max : Z) (h : DataHead) (pl : list Z) (ds : list dgram) (ok : bool) : Prop :=
  len h = zlen pl /\ (ds = [(with_flags h 0, pl)] /\ ok = true /\ zlen pl <= max \/ pl <> [] /\ chunk_seq max h true pl ds ok \/ ds = [] /\ ok = false).

(** ** Sending *)

Lemma with_flags_twice h f g : with_flags (with_flags h f) g = with_flags h g.
Proof. done. Qed.

Lemma chunk_loop_ok max h fuel script first pre pl extra max_length :
  pl <> [] -> 0 < max_length <= max -> (Z.to_nat (zlen pl) + (if (SW_IPC_MSG_MIN <? max_length)%Z then 1 else 0) <= fuel)%nat ->
  exists ds ok, chunk_loop fuel script (chunk_head h first false) (pre ++ pl ++ extra) (zlen pl) (zlen pre) max_length = Some (ds, ok) /\ chunk_seq max h first pl ds ok.
Proof.
  revert script first pre pl max_length. induction fuel as [|fuel IH]; intros script first pre pl max_length Hne Hmax Hf.
  { exfalso. destruct pl; [done|cbn in Hf; lia]. }
  assert (0 < zlen pl) as Hpos by (destruct pl; [done|cbn; lia]). cbn [chunk_loop]. destruct (Z.ltb_spec 0 (zlen pl)); [|lia]. cbn [negb].
  destruct (Z.ltb_spec max_length (zlen pl)) as [Hlong|Hshort].
  - assert (pl = take (Z.to_nat max_length) pl ++ drop (Z.to_nat max_length) pl) as Epl by (symmetry; apply take_drop). set (p := take (Z.to_nat max_length) pl) in *. set (r := drop (Z.to_nat max_length) pl) in *.
    assert (zlen p = max_length) as Hp by (unfold p; rewrite take_zlen; lia). assert (zlen r = zlen pl - max_length) as Hr by (unfold r; rewrite length_drop; lia).
    assert (zsub (pre ++ pl ++ extra) (zlen pre) max_length = Some p) as ->. { rewrite Epl, <- app_assoc, <- Hp. apply zsub_app. } cbn [mbind option_bind].
    assert (r <> []) as Hrne by (intros E; rewrite E in Hr; cbn in Hr; lia). destruct (send script) as [[|err] script'].
    + replace (if is_begin (chunk_head h first false) then _ else _) with (chunk_head h false false) by (by destruct first).
      destruct (IH script' false (pre ++ p) r max_length) as (ds & ok & E & Hs); [done|done|lia|]. rewrite Hr in E.
      replace ((pre ++ p) ++ r ++ extra) with (pre ++ pl ++ extra) in E by (rewrite Epl, <- !app_assoc; done). rewrite length_app, Nat2Z.inj_add, Hp in E. rewrite E. cbn [mbind option_bind].
      eexists _, _. split; [done|]. rewrite Epl. apply cs_more; [lia|done|done].
    + destruct (reduce_size err && (SW_IPC_MSG_MIN <? max_length)) eqn:Er; [|eexists _, _; split; [done|constructor]]. apply andb_true_iff in Er as [_ Er]. rewrite Er in Hf. apply Z.ltb_lt in Er.
      replace (if is_end (chunk_head h first false) then _ else _) with (chunk_head h first false) by (by destruct first). apply IH; [done|unfold SW_IPC_MSG_MIN, sizeof_DataHead in *; lia|]. rewrite Z.ltb_irrefl. lia.
  - replace (with_flags (chunk_head h first false) (Z.lor (flags (chunk_head h first false)) SW_EVENT_DATA_END)) with (chunk_head h first true) by (by destruct first).
    rewrite zsub_app. cbn [mbind option_bind]. destruct (send script) as [[|err] script'].
    + rewrite Z.sub_diag. assert (forall i o s, chunk_loop fuel s i (pre ++ pl ++ extra) 0 o max_length = Some ([], true)) as -> by (by destruct fuel). eexists _, _. split; [done|]. apply cs_last. lia.
    + destruct (reduce_size err && (SW_IPC_MSG_MIN <? max_length)) eqn:Er; [|eexists _, _; split; [done|constructor]]. apply andb_true_iff in Er as [_ Er]. rewrite Er in Hf. apply Z.ltb_lt in Er.
      replace (if is_end (chunk_head h first true) then _ else _) with (chunk_head h first false) by (by destruct first). apply IH; [done|unfold SW_IPC_MSG_MIN, sizeof_DataHead in *; lia|]. rewrite Z.ltb_irrefl. lia.
Qed.

(** The message that a call of [write] is about. *)
Definition sent_head (id : Z) (i : DataHead) (payload : option (list Z)) : DataHead :=
  with_len (with_id i id) (match payload with Some _ => len i | None => 0 end).
Definition sent_body (i : DataHead) (payload : option (list Z)) : list Z :=
  match payload with Some d => take (Z.to_nat (len i)) d | None => [] end.
Definition sendable (i : DataHead) (payload : option (list Z)) : Prop :=
  0 <= len i < 2 ^ 32 /\ match payload with Some d => len i <= zlen d | None => True end.

Lemma bus_write_ok bs always id script i payload : sizeof_DataHead < bs < 2 ^ 32 -> sendable i payload ->
  exists ds ok, write bs always id script i payload = Some (ds, ok) /\ wire (bs - sizeof_DataHead) (sent_head id i payload) (sent_body i payload) ds ok.
Proof.
  intros Hbs [Hl Hp]. unfold write, sizeof_DataHead in *. rewrite uN_small by (unfold fits; lia). destruct payload as [d|].
  2: { destruct (send script) as [[|] ?]; eexists _, _; (split; [done|]); split; try done; [left; split; [done|]; split; [done|cbn; lia]|by right; right]. }
  assert (zlen (sent_body i (Some d)) = len i) as Hb by (cbn; rewrite take_zlen; lia). destruct (Z.eqb_spec (len i) 0) as [E0|E0].
  { destruct (send script) as [[|] ?]; eexists _, _; (split; [done|]); (split; [by rewrite Hb|]); [left|by right; right]. assert (sent_body i (Some d) = []) as -> by (cbn; by rewrite E0). unfold sent_head, with_flags, with_len, with_id. cbn. rewrite E0. split_and!; try done. lia. }
  set (h := sent_head id i (Some d)). assert (sent_body i (Some d) <> []) as Hne by (intros E; rewrite E in Hb; cbn in Hb; lia).
  assert (forall script max_length, 0 < max_length <= bs - 40 -> exists ds ok,
    chunk_loop (Z.to_nat (len i) + 1) script (with_len (with_flags (with_id i id) (Z.lor SW_EVENT_DATA_CHUNK SW_EVENT_DATA_BEGIN)) (len i)) d (len i) 0 max_length = Some (ds, ok) /\
    wire (bs - 40) h (sent_body i (Some d)) ds ok) as Hchunks.
  { intros sc ml Hml. destruct (chunk_loop_ok (bs - 40) h (Z.to_nat (len i) + 1) sc true [] (sent_body i (Some d)) (drop (Z.to_nat (len i)) d) ml) as (ds & ok & E & Hs); [done|done|rewrite Hb; destruct (_ <? _); lia|].
    rewrite Hb in E. cbn [app sent_body] in E. rewrite take_drop in E. exists ds, ok. split; [exact E|]. split; [by rewrite Hb|]. right. by left. }
  destruct (negb always && (len i <=? bs - 40)) eqn:Es; [|apply Hchunks; lia]. apply andb_true_iff in Es as [_ Es]. apply Z.leb_le in Es.
  destruct (zsub_in_bounds d 0 (len i)) as (dd & Ed); [lia..|]. rewrite Ed. cbn [mbind option_bind]. apply zsub_Some in Ed as (_ & _ & _ & ->). change (Z.to_nat 0) with 0%nat. rewrite drop_0.
  destruct (send script) as [[|err] sc].
  - eexists _, _. split; [done|]. split; [by rewrite Hb|]. left. split; [done|]. split; [done|lia].
  - destruct (reduce_size err && (SW_IPC_MSG_MIN <? bs - 40)) eqn:Er; [apply andb_true_iff in Er as [_ Er]; apply Z.ltb_lt in Er; apply Hchunks; unfold SW_IPC_MSG_MIN, sizeof_DataHead in *; lia|].
    eexists _, _. split; [done|]. split; [by rewrite Hb|]. by right; right.
Qed.

(** ** Receiving *)

Definition final (d : dgram) : bool := negb (is_chunked d.1) || is_end d.1.
Definition id_of (d : dgram) : Z := msg_id d.1.
Abbreviation of_id i := (filter (fun d : dgram => id_of d = i)).

(** What a datagram in the middle of its message looks like. *)
Lemma chunk_seq_at max h first pl seen d rest ok : chunk_seq max h first pl (seen ++ d :: rest) ok ->
  exists last r, d.1 = chunk_head h (first && bool_decide (seen = [])) last /\ 0 < zlen d.2 <= max /\ pl = concat (seen.*2) ++ d.2 ++ r /\
    Forall (fun d => final d = false) seen /\ (if last then r = [] /\ rest = [] /\ ok = true else True).
Proof.
  revert first pl. induction seen as [|e seen IH]; intros first pl Hs; cbn [app] in Hs.
  - rewrite bool_decide_eq_true_2, andb_true_r by done. inversion Hs; subst; cbn.
    + exists true, []. rewrite app_nil_r. split_and!; try done; lia.
    + exists false, pl0. split_and!; try done; lia.
  - rewrite bool_decide_eq_false_2, andb_false_r by done. inversion Hs; subst.
    + by destruct seen.
    + destruct (IH false pl0) as (last & r & E1 & E2 & E3 & E4 & E5); [done|]. exists last, r. cbn [fmap list_fmap concat]. split_and!; try done; try lia.
      * rewrite E3, <- app_assoc. done.
      * constructor; [by destruct first|done].
Qed.

Lemma wire_at max h pl seen d rest ok : wire max h pl (seen ++ d :: rest) ok ->
  (seen = [] /\ rest = [] /\ d = (with_flags h 0, pl) /\ ok = true /\ zlen pl <= max) \/
  exists last r, d.1 = chunk_head h (bool_decide (seen = [])) last /\ 0 < zlen d.2 <= max /\ pl = concat (seen.*2) ++ d.2 ++ r /\
    Forall (fun d => final d = false) seen /\ (if last then r = [] /\ rest = [] /\ ok = true else True).
Proof.
  intros [Hl [(E & -> & Hm)|[[Hne Hs]|[E _]]]]; [| |by destruct seen].
  - left. destruct seen as [|e [|? ?]]; [|done..]. injection E as -> ->. done.
  - right. apply (chunk_seq_at max h true pl seen d rest ok Hs).
Qed.

Definition rd `{Allocator} (direct : bool) (pipe : list dgram) (b : Bus) (n : Z) : option (Bus * list dgram * Z) :=
  if direct then read pipe b n else read_with_buffer pipe b n.

(** Data that fits behind the contents. *)
Lemma fill_ok `{Allocator} s d : str_wf s -> slen s + zlen d <= ssize s -> slen s + zlen d < 2 ^ 63 ->
  exists m, let s' := mkStr m (slen s + zlen d) (ssize s) (soff s) (sallocator s) in
    zblit (mem s) (slen s) d = Some m /\ append s d = Some s' /\ str_wf s' /\ contents s' = contents s ++ d.
Proof.
  intros Hwf Hl Hu. pose proof (st_mem _ Hwf). pose proof (st_len _ Hwf). destruct (zblit_in_bounds (mem s) (slen s) d) as (m & Hm); [lia|lia|]. exists m. cbv zeta. split; [done|]. split.
  - unfold append, reserve_for. rewrite u64_id by lia. destruct (Z.ltb_spec (ssize s) (slen s + zlen d)); [lia|]. cbn [mbind option_bind]. rewrite Hm. cbn [mbind option_bind]. by rewrite u64_id by lia.
  - destruct (blit_contents s (slen s) d m (slen s + zlen d)) as [? E]; [done|lia|done|lia|]. split; [done|]. rewrite E. pose proof (contents_length s Hwf). rewrite take_ge, drop_ge, app_nil_r by lia. done.
Qed.

Section reader.
Context `{Allocator} (bs : Z) (hd : Z -> DataHead) (body : Z -> list Z) (ok : Z -> bool) (whole : list dgram).
Hypothesis Hbs : sizeof_DataHead < bs < 2 ^ 32.
Hypothesis Hmsg : forall i, msg_id (hd i) = i /\ zlen (body i) < 2 ^ 32 /\ wire (bs - sizeof_DataHead) (hd i) (body i) (of_id i whole) (ok i).

(** What is in the pool of a message after the datagrams [pre]. *)
Definition partial (i : Z) (pre : list dgram) : option (list Z) :=
  match of_id i pre with [] => None | ds => if existsb final ds then None else Some (concat (ds.*2)) end.

Record bus_inv (pre : list dgram) (b : Bus) : Prop := {
  bi_size : buffer_size b = bs;
  bi_area : zlen (area (buffer b)) = bs - sizeof_DataHead;
  bi_pool i : match packet_pool b !! i with
              | None => partial i pre = None
              | Some s => partial i pre = Some (contents s) /\ str_wf s /\ zlen (body i) <= ssize s
              end;
}.

Lemma of_id_at pre d post : whole = pre ++ d :: post -> of_id (id_of d) whole = of_id (id_of d) pre ++ d :: of_id (id_of d) post.
Proof. intros ->. rewrite filter_app, filter_cons_True by done. done. Qed.

Lemma existsb_final ds : Forall (fun d => final d = false) ds -> existsb final ds = false.
Proof. induction 1 as [|d ds Hd _ IH]; [done|]. cbn. by rewrite Hd. Qed.

Lemma partial_other i pre d : i <> id_of d -> partial i (pre ++ [d]) = partial i pre.
Proof. intros Hne. unfold partial. rewrite filter_app, (filter_cons_False _ d) by congruence. cbn. by rewrite app_nil_r. Qed.

Lemma partial_same pre d : Forall (fun d => final d = false) (of_id (id_of d) pre) ->
  partial (id_of d) (pre ++ [d]) = if final d then None else Some (concat ((of_id (id_of d) pre).*2) ++ d.2).
Proof.
  intros Hf. unfold partial. rewrite filter_app, (filter_cons_True _ d) by done. cbn [filter list_filter]. change (filter _ []) with ([] : list dgram).
  destruct (of_id (id_of d) pre ++ [d]) as [|e ds] eqn:E; [by destruct (of_id (id_of d) pre)|]. rewrite <- E. rewrite existsb_app, existsb_final by done. cbn [existsb orb]. rewrite orb_false_r.
  destruct (final d); [done|]. rewrite fmap_app, concat_app. cbn. by rewrite app_nil_r.
Qed.

(** The string into which the next chunk goes. *)
Lemma get_string pre d b a p last : bus_inv pre b -> d.1 = chunk_head (hd (id_of d)) (bool_decide (of_id (id_of d) pre = [])) last -> Forall (fun d => final d = false) (of_id (id_of d) pre) ->
  exists b2 s, get_packet_buffer (with_buf b (mkBuffer d.1 a p)) = Some (b2, s) /\ buffer b2 = mkBuffer d.1 a p /\ buffer_size b2 = bs /\
    (forall s', <[id_of d := s']> (packet_pool b2) = <[id_of d := s']> (packet_pool b)) /\
    str_wf s /\ contents s = concat ((of_id (id_of d) pre).*2) /\ zlen (body (id_of d)) <= ssize s.
Proof.
  intros [Hs Ha Hp] Hd Hf. destruct (Hmsg (id_of d)) as (Hid & Hbl & Hlen & _). specialize (Hp (id_of d)). unfold get_packet_buffer. cbn [with_buf buffer info packet_pool]. change (msg_id d.1) with (id_of d).
  destruct (packet_pool b !! id_of d) as [s|] eqn:E.
  - destruct Hp as (Hp & Hwf & Hsz). eexists _, s. split; [done|]. split_and!; try done. unfold partial in Hp. destruct (of_id (id_of d) pre) as [|e ds] eqn:Eds; [done|]. rewrite <- Eds in *. rewrite existsb_final in Hp by done. by injection Hp.
  - assert (of_id (id_of d) pre = []) as Enil. { unfold partial in Hp. destruct (of_id (id_of d) pre) as [|e ds] eqn:Eds; [done|]. rewrite <- Eds in *. by rewrite existsb_final in Hp. }
    rewrite Enil in *. rewrite bool_decide_eq_true_2 in Hd by done. rewrite Hd. assert (is_begin (chunk_head (hd (id_of d)) true last) = true) as -> by (by destruct last). cbn [negb].
    assert (len (chunk_head (hd (id_of d)) true last) = zlen (body (id_of d))) as -> by done. destruct (alloc_wf (zlen (body (id_of d)))) as (Hwf & Hc & Hge); [unfold max_len; lia|].
    eexists _, _. split; [done|]. split; [done|]. split_and!; try done. intros s'. cbn [with_pool with_buf packet_pool]. apply insert_insert_eq.
Qed.

(** The state after the data of a datagram was stored. *)
Definition stored (b : Bus) (pre : list dgram) (d : dgram) (b1 : Bus) : Prop :=
  buffer_size b1 = bs /\ zlen (area (buffer b1)) = bs - sizeof_DataHead /\ info (buffer b1) = d.1 /\
  if is_chunked d.1 then exists s, packet_pool b1 = <[id_of d := s]> (packet_pool b) /\ str_wf s /\ contents s = concat ((of_id (id_of d) pre).*2) ++ d.2 /\ zlen (body (id_of d)) <= ssize s
  else packet_pool b1 = packet_pool b /\ zsub (area (buffer b1)) 0 (len d.1) = Some (body (id_of d)).

(** Both functions store a datagram alike. *)
Lemma rd_cons direct pre d post pipe b n : bus_inv pre b -> whole = pre ++ d :: post -> exists b1 n', stored b pre d b1 /\
  rd direct (d :: pipe) b n =
    if negb (is_chunked d.1) then Some (b1, pipe, sizeof_DataHead + zlen d.2) else
    match prepare_packet b1 n' with
    | (b, _, SW_READY) => Some (b, pipe, sizeof_DataHead + zlen d.2)
    | (b, n, SW_CONTINUE) => rd direct pipe b n
    | (b, _, SW_WAIT) => Some (b, pipe, 0)
    end.
Proof.
  intros Hb Hw. pose proof Hb as [Hs Ha _]. destruct (Hmsg (id_of d)) as (Hid & Hbl & Hwi). pose proof Hwi as [Hlen _]. rewrite (of_id_at pre d post Hw) in Hwi.
  apply wire_at in Hwi as [(Es & _ & Ed & _ & Hm)|(last & r & Ed & Hdl & Hbody & Hf & _)].
  - pose proof (f_equal fst Ed) as E1. pose proof (f_equal snd Ed) as E2. cbn [fst snd] in E1, E2. clear Ed.
    destruct (zblit_in_bounds (area (buffer b)) 0 d.2) as (a & Hz); [lia|rewrite E2; lia|]. exists (with_buf b (mkBuffer d.1 a NoPtr)), 0.
    assert (is_chunked d.1 = false) as Hch by (by rewrite E1). assert (len d.1 = zlen d.2) as Hld by (by rewrite E1, E2). rewrite <- E2 in Hm. split.
    + unfold stored. rewrite Hch. cbn. split_and!; try done; [by rewrite (zblit_length _ _ _ _ Hz)|]. rewrite Hld. apply zsub_zblit in Hz. by rewrite Hz, E2.
    + rewrite Hch. cbn [negb]. destruct d as [h p]. cbn [fst snd] in *. destruct direct; cbn [rd read read_with_buffer with_buf buffer area]; rewrite Hch; cbn [negb].
      * rewrite take_ge by lia. by rewrite Hz.
      * rewrite Hs, take_ge by lia. by rewrite Hz.
  - assert (is_chunked d.1 = true) as Hch by (rewrite Ed; by destruct (bool_decide _), last). assert (zlen (concat ((of_id (id_of d) pre).*2)) + zlen d.2 <= zlen (body (id_of d))) as Hfit by (rewrite Hbody, !length_app; lia).
    assert (len d.1 = zlen (body (id_of d))) as Hld by (by rewrite Ed). unfold stored. rewrite Hch. cbn [negb]. destruct d as [h p]. cbn [fst snd] in *.
    destruct direct; cbn [rd read read_with_buffer]; rewrite Hch; cbn [negb].
    + destruct (get_string pre (h, p) b (area (buffer b)) (ptr (buffer b)) last Hb Ed Hf) as (b2 & s & Eg & Eb & Ebs & Eins & Hwf & Hc & Hsz). cbn [fst] in Eg. rewrite Eg. pose proof (contents_length s Hwf) as Hcl. rewrite Hc in Hcl.
      destruct (fill_ok s p Hwf) as (m & Hz & _ & Hwf' & Hc'); [lia|lia|]. rewrite Hld, u64_id by lia. rewrite Ebs, take_ge by lia. rewrite Hz. cbn [mbind option_bind].
      eexists _, n. split; [|reflexivity]. cbn. rewrite Eb. cbn. split_and!; try done. eexists. split; [apply Eins|]. split_and!; try done. by rewrite Hc', Hc.
    + rewrite Hs, take_ge by lia. destruct (zblit_in_bounds (area (buffer b)) 0 p) as (a & Hz); [lia|lia|]. rewrite Hz. cbn [mbind option_bind].
      destruct (get_string pre (h, p) b a NoPtr last Hb Ed Hf) as (b2 & s & Eg & Eb & Ebs & Eins & Hwf & Hc & Hsz). cbn [fst] in Eg. rewrite Eg. pose proof (contents_length s Hwf) as Hcl. rewrite Hc in Hcl.
      destruct (fill_ok s p Hwf) as (m & _ & Happ & Hwf' & Hc'); [lia|lia|]. rewrite Eb. cbn [area]. replace (sizeof_DataHead + zlen p - sizeof_DataHead) with (zlen p) by lia. rewrite (zsub_zblit _ _ _ _ Hz). cbn [mbind option_bind].
      rewrite Happ. cbn [mbind option_bind]. eexists _, (u16 (n + 1)). split; [|reflexivity]. cbn. rewrite Eb. cbn. split_and!; try done; [by rewrite (zblit_length _ _ _ _ Hz)|]. eexists. split; [apply Eins|]. split_and!; try done. by rewrite Hc', Hc.
Qed.

Lemma at_pipe pre d post : whole = pre ++ d :: post ->
  Forall (fun d => final d = false) (of_id (id_of d) pre) /\
  if is_chunked d.1 then
    exists first last, d.1 = chunk_head (hd (id_of d)) first last /\ (last = true -> concat ((of_id (id_of d) pre).*2) ++ d.2 = body (id_of d))
  else of_id (id_of d) pre = [] /\ d.1 = with_flags (hd (id_of d)) 0.
Proof.
  intros Hw. destruct (Hmsg (id_of d)) as (Hid & Hbl & Hwi). rewrite (of_id_at pre d post Hw) in Hwi.
  apply wire_at in Hwi as [(Es & _ & Ed & _)|(last & r & Ed & _ & Hbody & Hf & Hl)].
  - pose proof (f_equal fst Ed) as E1. cbn [fst] in E1. rewrite Es. split; [constructor|]. assert (is_chunked d.1 = false) as -> by (by rewrite E1). done.
  - split; [done|]. assert (is_chunked d.1 = true) as -> by (rewrite Ed; by destruct (bool_decide _), last). eexists _, last. split; [exact Ed|]. intros ->. destruct Hl as (-> & _). by rewrite Hbody, app_nil_r.
Qed.

(** The pool after a datagram: its message is in it, or is gone when it was the last. *)
Lemma inv_step pre d post b b1 : whole = pre ++ d :: post -> bus_inv pre b -> buffer_size b1 = bs -> zlen (area (buffer b1)) = bs - sizeof_DataHead ->
  (if final d then packet_pool b1 = delete (id_of d) (packet_pool b)
   else exists s, packet_pool b1 = <[id_of d := s]> (packet_pool b) /\ str_wf s /\ contents s = concat ((of_id (id_of d) pre).*2) ++ d.2 /\ zlen (body (id_of d)) <= ssize s) ->
  bus_inv (pre ++ [d]) b1.
Proof.
  intros Hw [Hs Ha Hp] Hs1 Ha1 Hpool. destruct (at_pipe pre d post Hw) as [Hf _]. constructor; [done|done|]. intros i. pose proof (partial_same pre d Hf) as Hsame. specialize (Hp i). destruct (decide (i = id_of d)) as [->|Hne].
  - destruct (final d).
    + by rewrite Hpool, lookup_delete_eq.
    + destruct Hpool as (s & -> & Hwf & Hc & Hsz). rewrite lookup_insert_eq. split_and!; try done. by rewrite Hsame, Hc.
  - rewrite partial_other by done. destruct (final d).
    + by rewrite Hpool, lookup_delete_ne by done.
    + destruct Hpool as (s & -> & _). by rewrite lookup_insert_ne by done.
Qed.

(** What a call that completes a message gives. *)
Definition complete (pre : list dgram) (d : dgram) (b : Bus) : Prop :=
  with_flags (info (buffer b)) 0 = with_flags (hd (id_of d)) 0 /\ get_packet b = Some (body (id_of d)) /\ bus_inv (pre ++ [d]) (pop b).

Lemma plain_complete pre d post b b1 : whole = pre ++ d :: post -> bus_inv pre b -> stored b pre d b1 -> is_chunked d.1 = false -> complete pre d b1.
Proof.
  intros Hw Hb (Hs & Ha & Hi & Hst) Hch. destruct (at_pipe pre d post Hw) as [_ Hat]. rewrite Hch in Hst, Hat. destruct Hat as [Hnil Hd]. destruct Hst as [Hpool Hz]. split_and!.
  - by rewrite Hi, Hd.
  - unfold get_packet. rewrite Hi. assert (has_flag d.1 SW_EVENT_DATA_PTR = false) as -> by (by rewrite Hd). assert (has_flag d.1 SW_EVENT_DATA_OBJ_PTR = false) as -> by (by rewrite Hd). done.
  - assert (pop b1 = b1) as -> by (unfold pop; rewrite Hi, Hd; done). apply (inv_step pre d post b); try done. unfold final. rewrite Hch. cbn [negb orb]. rewrite Hpool. symmetry. apply delete_id.
    pose proof (bi_pool _ _ Hb (id_of d)) as Hp. destruct (packet_pool b !! id_of d); [|done]. destruct Hp as [Hp _]. unfold partial in Hp. by rewrite Hnil in Hp.
Qed.

Lemma chunk_complete pre d post b b1 n : whole = pre ++ d :: post -> bus_inv pre b -> stored b pre d b1 -> is_chunked d.1 = true ->
  if final d then exists b2 n2, prepare_packet b1 n = (b2, n2, SW_READY) /\ complete pre d b2
  else exists n2 v, prepare_packet b1 n = (b1, n2, v) /\ v <> SW_READY /\ bus_inv (pre ++ [d]) b1.
Proof.
  intros Hw Hb (Hs & Ha & Hi & Hst) Hch. destruct (at_pipe pre d post Hw) as [_ Hat]. rewrite Hch in Hst, Hat. destruct Hat as (first & last & Hd & Hbody). assert (final d = last) as Ef by (unfold final; rewrite Hch, Hd; by destruct first, last).
  pose proof Hst as (s & Hpool & Hwf & Hc & Hsz). unfold prepare_packet. rewrite Hi. assert (is_end d.1 = last) as Ee by (rewrite Hd; by destruct first, last). rewrite Ef, Ee. destruct last; cbn [negb].
  - eexists _, _. split; [done|]. specialize (Hbody eq_refl). assert (id_of d = msg_id (chunk_head (hd (id_of d)) first true)) as Eid by (rewrite <- Hd; done). split_and!.
    + cbn. rewrite Hd. done.
    + unfold get_packet. cbn [with_buf buffer info ptr packet_pool]. assert (forall f, has_flag (with_flags d.1 (Z.lor (flags d.1) SW_EVENT_DATA_OBJ_PTR)) f = negb (Z.land (Z.lor (chunk_flags first true) SW_EVENT_DATA_OBJ_PTR) f =? 0)) as Hfl by (rewrite Hd; done).
      rewrite !Hfl. replace (negb (Z.land (Z.lor (chunk_flags first true) SW_EVENT_DATA_OBJ_PTR) SW_EVENT_DATA_PTR =? 0)) with false by (by destruct first).
      replace (negb (Z.land (Z.lor (chunk_flags first true) SW_EVENT_DATA_OBJ_PTR) SW_EVENT_DATA_OBJ_PTR =? 0)) with true by (by destruct first).
      change (msg_id d.1) with (id_of d). rewrite Hpool, lookup_insert_eq. cbn [mbind option_bind]. pose proof (contents_length s Hwf). pose proof (st_len _ Hwf). rewrite (contents_sub s) by (done || lia). change (Z.to_nat 0) with 0%nat. rewrite drop_0, take_ge by lia. by rewrite Hc, Hbody.
    + unfold pop. cbn [with_buf buffer info]. assert (is_end (with_flags d.1 (Z.lor (flags d.1) SW_EVENT_DATA_OBJ_PTR)) = true) as -> by (rewrite Hd; by destruct first).
      apply (inv_step pre d post b); try done. rewrite Ef. cbn. rewrite Hpool. change (msg_id d.1) with (id_of d). apply delete_insert_eq.
  - eexists _, _. split; [done|]. split; [by destruct (_ <=? _)|]. apply (inv_step pre d post b); try done. by rewrite Ef.
Qed.

(** A call goes through datagrams up to the last one of a message, or to where it
    gives up for now. *)
Lemma rd_ok direct pre post b n : whole = pre ++ post -> bus_inv pre b -> exists b' seg post' r,
  rd direct post b n = Some (b', post', r) /\ post = seg ++ post' /\ (post <> [] -> seg <> []) /\
  (r = 0 /\ Forall (fun d => final d = false) seg /\ bus_inv (pre ++ seg) b' \/
   0 < r /\ exists seg0 d, seg = seg0 ++ [d] /\ Forall (fun d => final d = false) seg0 /\ final d = true /\ complete (pre ++ seg0) d b').
Proof.
  revert pre b n. induction post as [|d post IH]; intros pre b n Hw Hb.
  { exists b, [], [], 0. split; [by destruct direct|]. split; [done|]. split; [done|]. left. rewrite app_nil_r. done. }
  destruct (rd_cons direct pre d post post b n Hb Hw) as (b1 & n' & Hst & ->). destruct (is_chunked d.1) eqn:Hch; cbn [negb].
  - pose proof (chunk_complete pre d post b b1 n' Hw Hb Hst Hch) as Hc. destruct (final d) eqn:Ef.
    + destruct Hc as (b2 & n2 & -> & Hcom). eexists b2, [d], post, _. split; [done|]. split; [done|]. split; [done|]. right. unfold sizeof_DataHead. split; [lia|]. exists [], d. rewrite app_nil_r. done.
    + destruct Hc as (n2 & v & -> & Hv & Hb1). destruct v; [done| |].
      * destruct (IH (pre ++ [d]) b1 n2) as (b' & seg & post' & r & E & -> & _ & Hr); [by rewrite <- app_assoc|done|]. exists b', (d :: seg), post', r. split; [exact E|]. split; [done|]. split; [done|].
        destruct Hr as [(-> & Hf & Hb')|(Hr & seg0 & e & -> & Hf & He & Hcom)]; [left|right]; (split; [done|]); rewrite <- app_assoc in *; cbn [app] in *; [by split; [constructor|]|]. exists (d :: seg0), e. split_and!; try done. by constructor.
      * exists b1, [d], post, 0. split; [done|]. split; [done|]. split; [done|]. left. split; [done|]. split; [by constructor|done].
  - assert (final d = true) as Ef by (unfold final; by rewrite Hch). eexists b1, [d], post, _. split; [done|]. split; [done|]. split; [done|]. right. unfold sizeof_DataHead. split; [lia|]. exists [], d. rewrite app_nil_r. split_and!; try done. by apply (plain_complete pre d post b).
Qed.

Definition message (i : Z) : DataHead * list Z := (with_flags (hd i) 0, body i).
Definition deliveries (pipe : list dgram) : list (DataHead * list Z) := omap (fun d => if final d then Some (message (id_of d)) else None) pipe.

Lemma deliveries_none seg : Forall (fun d => final d = false) seg -> deliveries seg = [].
Proof. induction 1 as [|d seg Hd _ IH]; [done|]. unfold deliveries in *. cbn. by rewrite Hd. Qed.

(** As many calls as there are datagrams deliver all messages. *)
Lemma receive_ok direct n pre post b : whole = pre ++ post -> bus_inv pre b -> (length post <= n)%nat ->
  exists b' out, receive direct n post b = Some (b', [], out) /\ bus_inv whole b' /\ (fun m => (with_flags m.1 0, m.2)) <$> out = deliveries post.
Proof.
  revert pre post b. induction n as [|n IH]; intros pre post b Hw Hb Hn; cbn [receive].
  { destruct post; [|cbn in Hn; lia]. rewrite app_nil_r in Hw. subst pre. by exists b, []. }
  change (if direct then read post b 0 else read_with_buffer post b 0) with (rd direct post b 0). destruct (rd_ok direct pre post b 0 Hw Hb) as (b' & seg & post' & r & -> & -> & Hne & Hr). cbn [mbind option_bind].
  assert (length post' <= n)%nat as Hn'. { rewrite length_app in Hn. destruct seg; [destruct post'; [cbn; lia|by destruct (Hne ltac:(done))]|cbn in Hn; lia]. } unfold deliveries. rewrite omap_app.
  destruct Hr as [(-> & Hf & Hb')|(Hr & seg0 & d & -> & Hf & Hd & Hh & Hp & Hb')].
  - rewrite Z.ltb_irrefl. destruct (IH (pre ++ seg) post' b') as (b2 & out & E & Hb2 & Ho); [by rewrite <- app_assoc|done|done|]. exists b2, out. split; [exact E|]. split; [done|]. pose proof (deliveries_none seg Hf) as E0. unfold deliveries in E0. by rewrite E0.
  - destruct (Z.ltb_spec 0 r); [|lia]. rewrite Hp. cbn [mbind option_bind]. destruct (IH (pre ++ seg0 ++ [d]) post' (pop b')) as (b2 & out & E & Hb2 & Ho); [by rewrite <- !app_assoc in *|by rewrite app_assoc|done|].
    rewrite E. cbn [mbind option_bind]. eexists _, _. split; [done|]. split; [done|]. rewrite omap_app. pose proof (deliveries_none seg0 Hf) as E0. unfold deliveries in E0. rewrite E0. cbn. rewrite Hd. cbn. by rewrite Hh, Ho.
Qed.

End reader.

(** ** Several senders *)

(** The pipe takes the datagrams of the messages in any order that keeps the order
    within each message. *)
Inductive interleave : list (list dgram) -> list dgram -> Prop :=
  | il_done L : Forall (eq []) L -> interleave L []
  | il_take L k d ds pipe : L !! k = Some (d :: ds) -> interleave (<[k := ds]> L) pipe -> interleave L (d :: pipe).

Lemma interleave_perm L pipe : interleave L pipe -> pipe ≡ₚ concat L.
Proof.
  induction 1 as [L HL|L k d ds pipe Hk _ IH].
  - induction HL as [|l L <- _ IH]; [done|]. exact IH.
  - rewrite IH. clear IH. revert k Hk. induction L as [|l L IH]; intros [|k] Hk; cbn in *; try done; [by injection Hk as ->|]. rewrite <- (IH k Hk). by rewrite Permutation_middle.
Qed.

Lemma interleave_only (P : dgram -> Prop) `{!forall d, Decision (P d)} L pipe k ds : interleave L pipe -> L !! k = Some ds ->
  (forall j l, L !! j = Some l -> j <> k -> Forall (fun d => ~ P d) l) -> Forall P ds -> filter P pipe = ds.
Proof.
  intros HL. revert ds. induction HL as [L HL|L j d l pipe Hj _ IH]; intros ds Hk Ho Hp.
  - rewrite Forall_forall in HL. apply HL, (list_elem_of_lookup_2 _ _ _ Hk).
  - destruct (decide (j = k)) as [->|Hne].
    + rewrite Hk in Hj. injection Hj as ->. apply Forall_cons in Hp as [Hd Hp]. rewrite filter_cons_True by done. f_equal. apply IH; [apply list_lookup_insert_eq; by apply lookup_lt_Some in Hk| |done].
      intros i l' Hi Hik. rewrite list_lookup_insert_ne in Hi by done. by apply (Ho i).
    + pose proof (Ho j _ Hj Hne) as Hd. apply Forall_cons in Hd as [Hd Hl]. rewrite filter_cons_False by done. apply IH; [by rewrite list_lookup_insert_ne| |done].
      intros i l' Hi Hik. destruct (decide (i = j)) as [->|Hij]; [|rewrite list_lookup_insert_ne in Hi by done; by apply (Ho i)].
      rewrite list_lookup_insert_eq in Hi by (by apply lookup_lt_Some in Hj). by injection Hi as <-.
Qed.

(** A call of [write] *)
Record Call := mkCall { c_id : Z; c_always : bool; c_script : list send_result; c_info : DataHead; c_payload : option (list Z) }.
Definition do_write (bs : Z) (c : Call) : option (list dgram * bool) := write bs (c_always c) (c_id c) (c_script c) (c_info c) (c_payload c).
Definition c_message (c : Call) : DataHead * list Z := (with_flags (sent_head (c_id c) (c_info c) (c_payload c)) 0, sent_body (c_info c) (c_payload c)).

Lemma wire_ids max h pl ds ok : wire max h pl ds ok -> Forall (fun d => id_of d = msg_id h) ds.
Proof.
  intros [_ [(-> & _)|[[_ Hs]|[-> _]]]]; [by repeat constructor| |constructor]. induction Hs; [constructor|by repeat constructor|by constructor].
Qed.

(** Each message that was sent completely is delivered once, no other is. *)
Lemma wire_deliveries max hd body ds o i : msg_id (hd i) = i -> wire max (hd i) (body i) ds o -> deliveries hd body ds = if o then [message hd body i] else [].
Proof.
  intros Hid [_ [(-> & -> & _)|[[_ Hs]|[-> ->]]]]; [unfold deliveries, id_of; cbn; by rewrite Hid| |done].
  induction Hs as [first pl|first pl|first p pl ds o _ _ _ IH]; [done|..]; unfold deliveries in *; cbn.
  - assert (final (chunk_head (hd i) first true, pl) = true) as -> by (by destruct first). unfold id_of. cbn. by rewrite Hid.
  - assert (final (chunk_head (hd i) first false, p) = false) as -> by (by destruct first). exact IH.
Qed.

Section senders.
Context (bs : Z) (calls : list Call) (sent : list (list dgram * bool)).
Hypothesis Hids : NoDup (c_id <$> calls).
Hypothesis Hsend : Forall (fun c => sendable (c_info c) (c_payload c)) calls.
Hypothesis Hsent : Forall2 (fun c r => wire (bs - sizeof_DataHead) (sent_head (c_id c) (c_info c) (c_payload c)) (sent_body (c_info c) (c_payload c)) r.1 r.2) calls sent.

Definition find_call (i : Z) : option (nat * Call) := list_find (fun c => c_id c = i) calls.
Definition head_of (i : Z) : DataHead :=
  match find_call i with Some (_, c) => sent_head (c_id c) (c_info c) (c_payload c) | None => with_len (with_id zero_head i) 0 end.
Definition body_of (i : Z) : list Z := match find_call i with Some (_, c) => sent_body (c_info c) (c_payload c) | None => [] end.
Definition ok_of (i : Z) : bool := match find_call i with Some (k, _) => from_option snd false (sent !! k) | None => false end.

Lemma find_call_at k c : calls !! k = Some c -> find_call (c_id c) = Some (k, c).
Proof.
  intros Hk. apply list_find_Some. split_and!; [done|done|]. intros j c' Hj Hjk E. pose proof (NoDup_lookup (c_id <$> calls) j k (c_id c) Hids) as Hn. rewrite !list_lookup_fmap, Hj, Hk in Hn. cbn in Hn. rewrite E in Hn. specialize (Hn eq_refl eq_refl). lia.
Qed.

Lemma sent_ids j ds : sent.*1 !! j = Some ds -> exists c, calls !! j = Some c /\ Forall (fun d => id_of d = c_id c) ds.
Proof.
  intros Hj. apply list_lookup_fmap_Some in Hj as ([l o] & -> & Hj). destruct (Forall2_lookup_r _ _ _ _ _ Hsent Hj) as (c & Hc & Hw). exists c. split; [done|]. cbn. apply (wire_ids _ _ _ _ _ Hw).
Qed.

(** Every datagram of the pipe belongs to a call. *)
Lemma pipe_call pipe d : interleave (sent.*1) pipe -> d ∈ pipe -> exists k c, find_call (id_of d) = Some (k, c).
Proof.
  intros Hil Hin. rewrite (interleave_perm _ _ Hil) in Hin. apply list_elem_of_In, in_concat in Hin as (ds & Hds%list_elem_of_In & Hin%list_elem_of_In). apply list_elem_of_lookup in Hds as [j Hj].
  destruct (sent_ids j ds Hj) as (c & Hc & Hall). rewrite Forall_forall in Hall. exists j, c. rewrite (Hall d Hin). by apply find_call_at.
Qed.

Lemma messages_wire pipe i : interleave (sent.*1) pipe ->
  msg_id (head_of i) = i /\ zlen (body_of i) < 2 ^ 32 /\ wire (bs - sizeof_DataHead) (head_of i) (body_of i) (of_id i pipe) (ok_of i).
Proof.
  intros Hil. unfold head_of, body_of, ok_of. destruct (find_call i) as [[k c]|] eqn:E.
  - apply list_find_Some in E as (Hk & Ei & _). destruct (Forall2_lookup_l _ _ _ _ _ Hsent Hk) as ([ds o] & Hs & Hw). rewrite Hs. cbn [from_option snd fst] in *. split; [done|].
    rewrite Forall_forall in Hsend. destruct (Hsend c (list_elem_of_lookup_2 _ _ _ Hk)) as [Hl Hp]. split.
    { unfold sent_body. destruct (c_payload c); [rewrite length_take|cbn]; lia. }
    rewrite (interleave_only (fun d => id_of d = i) (sent.*1) pipe k ds); try done; [by rewrite list_lookup_fmap, Hs| |].
    + intros j l Hj Hjk. destruct (sent_ids j l Hj) as (c' & Hc' & Hl'). eapply Forall_impl; [exact Hl'|]. intros d Hd Hd'. apply Hjk. pose proof (find_call_at j c' Hc') as F1. pose proof (find_call_at k c Hk) as F2. cbn in Hd'. rewrite <- Hd, Hd', <- Ei, F2 in F1. by injection F1 as ->.
    + rewrite <- Ei. apply (wire_ids _ _ _ _ _ Hw).
  - split; [done|]. split; [done|]. split; [done|]. right. right. split; [|done]. destruct (of_id i pipe) as [|d l] eqn:Ef; [done|]. exfalso. assert (d ∈ of_id i pipe) as Hd by (rewrite Ef; left).
    apply list_elem_of_filter in Hd as [Hd Hin]. destruct (pipe_call pipe d Hil Hin) as (k & c & Hc). cbn in Hd. by rewrite Hd, E in Hc.
Qed.

Lemma call_message k c : calls !! k = Some c -> message head_of body_of (c_id c) = c_message c.
Proof. intros Hk. unfold message, head_of, body_of. by rewrite (find_call_at k c Hk). Qed.
End senders.

Lemma deliveries_concat hd body (L : list (list dgram)) : deliveries hd body (concat L) = concat (deliveries hd body <$> L).
Proof. induction L as [|l L IH]; [done|]. cbn [concat fmap list_fmap]. unfold deliveries at 1. rewrite omap_app. f_equal. exact IH. Qed.

(** ** Properties *)

(** The message whose last datagram is [d]. *)
Definition message_at (calls : list Call) (d : dgram) : option (DataHead * list Z) :=
  if final d then (fun kc => c_message kc.2) <$> list_find (fun c => c_id c = id_of d) calls else None.

(** C5: messages between processes.  Any number of senders write messages of any length
    to a pipe, in one datagram or in chunks, with sizes that are reduced when the kernel
    asks for it, and some of the writes fail half-way; their datagrams mix in the pipe.
    Every [write] returns; the receiver, with [read] or with [read_with_buffer], stays
    inside its memory, and after as many calls as there are datagrams the pipe is empty
    and it got each message whose [write] succeeded once, whole and with its header, in
    the order of the last datagrams, and nothing else.  Conditions: the message ids are
    distinct, the buffer is larger than the header of a datagram and below 4 GB, and a
    message has at least the bytes that its header says. *)
Theorem message_bus_delivers `{Allocator} bs calls : sizeof_DataHead < bs < 2 ^ 32 -> NoDup (c_id <$> calls) ->
  Forall (fun c => sendable (c_info c) (c_payload c)) calls ->
  exists sent, mapM (do_write bs) calls = Some sent /\ forall direct pipe, interleave (sent.*1) pipe ->
    exists b out, receive direct (length pipe) pipe (make_bus bs) = Some (b, [], out) /\
      let got := (fun m => (with_flags m.1 0, m.2)) <$> out in
      got = omap (message_at calls) pipe /\
      got ≡ₚ omap (fun cr : Call * (list dgram * bool) => if cr.2.2 then Some (c_message cr.1) else None) (zip calls sent).
Proof.
  intros Hbs Hids Hsend. assert (exists sent, mapM (do_write bs) calls = Some sent /\
    Forall2 (fun c r => wire (bs - sizeof_DataHead) (sent_head (c_id c) (c_info c) (c_payload c)) (sent_body (c_info c) (c_payload c)) r.1 r.2) calls sent) as (sent & Es & Hsent).
  { clear Hids. induction Hsend as [|c calls Hc _ (sent & Es & Hs)]; [by exists []|]. destruct (bus_write_ok bs (c_always c) (c_id c) (c_script c) (c_info c) (c_payload c) Hbs Hc) as (ds & o & Ew & Hw).
    exists ((ds, o) :: sent). change (do_write bs c = Some (ds, o)) in Ew. cbn [mapM]. rewrite Ew. cbn [mbind option_bind]. rewrite Es. split; [done|by constructor]. }
  exists sent. split; [done|]. intros direct pipe Hil. pose proof (fun i => messages_wire bs calls sent Hids Hsend Hsent pipe i Hil) as Hmsg.
  destruct (receive_ok bs (head_of calls) (body_of calls) (ok_of calls sent) pipe Hbs Hmsg direct (length pipe) [] pipe (make_bus bs)) as (b & out & E & _ & Ho); [done| |lia|].
  { constructor; [done| |by intros i]. cbn. apply fresh_length. unfold sizeof_DataHead in *. lia. }
  exists b, out. split; [done|]. cbv zeta. rewrite Ho. split.
  - unfold deliveries. apply list_omap_ext, Forall_Forall2_diag, Forall_forall. intros d Hd. unfold message_at. destruct (final d); [|done].
    destruct (pipe_call bs calls sent Hids Hsent pipe d Hil Hd) as (k & c & Hc). unfold message, head_of, body_of. rewrite Hc. unfold find_call in Hc. by rewrite Hc.
  - unfold deliveries. rewrite (interleave_perm _ _ Hil). fold (deliveries (head_of calls) (body_of calls) (concat (sent.*1))). rewrite deliveries_concat.
    assert (forall k c (r : list dgram * bool), calls !! k = Some c -> sent !! k = Some r -> deliveries (head_of calls) (body_of calls) r.1 = if r.2 then [c_message c] else []) as Hd.
    { intros k c r Hk Hr. rewrite <- (call_message calls Hids k c Hk). pose proof (Forall2_lookup_lr _ _ _ _ _ _ Hsent Hk Hr) as Hw. apply (wire_deliveries (bs - sizeof_DataHead)); unfold head_of, body_of; rewrite (find_call_at calls Hids k c Hk); done. }
    clear - Hsent Hd. revert Hd. generalize (deliveries (head_of calls) (body_of calls)). intros f Hd. induction Hsent as [|c r calls sent _ _ IH]; [done|]. cbn. rewrite (Hd 0%nat c r) by done.
    destruct r as [ds []]; cbn; [constructor|]; apply IH; intros k c' r'; exact (Hd (S k) c' r').
Qed.

Definition demo_head (n : Z) : DataHead := mkHead 5 0 n 1 2 0 3 0 0 0.
Definition demo_calls : list Call :=
  [mkCall 1 false [] (demo_head 6) (Some [1; 2; 3; 4; 5; 6]); mkCall 2 false [] (demo_head 2) (Some [7; 8]);
   mkCall 3 false [Sent; Failed EOTHER] (demo_head 5) (Some [9; 9; 9; 9; 9])].

Lemma message_bus_delivers_witness : exists sent pipe b out,
  mapM (do_write 44) demo_calls = Some sent /\ interleave (sent.*1) pipe /\
  receive true (length pipe) pipe (make_bus 44) = Some (b, [], out) /\ out.*2 = [[7; 8]; [1; 2; 3; 4; 5; 6]].
Proof.
  destruct (message_bus_delivers 44 demo_calls) as (sent & Es & Hall).
  - unfold sizeof_DataHead. lia.
  - refine (bool_decide_unpack (NoDup (c_id <$> demo_calls)) _). vm_compute. exact I.
  - repeat constructor; vm_compute; intuition discriminate.
  - set (p1 := (chunk_head (sent_head 1 (demo_head 6) (Some [])) true false, [1; 2; 3; 4])). set (p2 := (with_flags (sent_head 2 (demo_head 2) (Some [])) 0, [7; 8])).
    set (p3 := (chunk_head (sent_head 3 (demo_head 5) (Some [])) true false, [9; 9; 9; 9])). set (p4 := (chunk_head (sent_head 1 (demo_head 6) (Some [])) false true, [5; 6])).
    assert (sent = [([p1; p4], true); ([p2], true); ([p3], false)]) as -> by (vm_compute in Es; injection Es as <-; reflexivity).
    assert (interleave [[p1; p4]; [p2]; [p3]] [p1; p2; p3; p4]) as Hil.
    { apply (il_take _ 0 _ [p4]); [reflexivity|]. apply (il_take _ 1 _ []); [reflexivity|]. apply (il_take _ 2 _ []); [reflexivity|]. apply (il_take _ 0 _ []); [reflexivity|]. apply il_done. by repeat constructor. }
    destruct (Hall true [p1; p2; p3; p4] Hil) as (b & out & E & _ & _). exists [([p1; p4], true); ([p2], true); ([p3], false)], [p1; p2; p3; p4], b, out.
    split; [exact Es|]. split; [exact Hil|]. split; [exact E|]. vm_compute in E. injection E as _ <-. reflexivity.
Defined.
