(* ===== verification/OutBuffer.v ===== *)
(** * The output of a connection

    [Buffer] of [src/core/buffer.cc], the queue of chunks that a socket still has to
    send, and the functions that fill and empty it: [Reactor::_write],
    [Reactor::_writev] and [Reactor::_writable_callback] of [src/reactor/base.cc],
    [Socket::handle_send], [Socket::handle_sendfile] and [Socket::sendfile_async] of
    [src/network/socket.cc].  The bytes that the kernel took are the list [wire]; a
    script says what the next calls of [send], [writev] and [sendfile] do: take at
    most so many bytes, or fail.  When the script is over the kernel takes nothing
    more ([EAGAIN]). *)

From S2P Require Import Prelude MemPool Str Protocol.

(** ** Definitions *)

(** [struct SendfileRequest], with the contents of the file *)
Record SendfileRequest := mkTask { tfile : list Z; tbegin : Z; tend : Z; corked : Z }.

(** [BufferChunk::Type] and the union [value]: the bytes of a data chunk, the task
    of a file *)
Inductive ChunkType := TYPE_DATA | TYPE_SENDFILE | TYPE_CLOSE.
Inductive Value := v_none | v_str (str : list Z) | v_ptr (task : SendfileRequest).
Record BufferChunk := mkChunk { ctype : ChunkType; clength : Z; coffset : Z; cvalue : Value; csize : Z }.
Record Buffer := mkBuffer { bchunk_size : Z; total_length : Z; queue_ : list BufferChunk }.

Definition INT_MAX : Z := 2 ^ 31 - 1.

Section buffer.
Context `{Allocator}.

(** [BufferChunk::BufferChunk] and [Buffer::Buffer] *)
Definition new_chunk (type : ChunkType) (size : Z) : BufferChunk :=
  mkChunk type 0 0 (match type with TYPE_DATA => if 0 <? size then v_str (fresh size) else v_none | _ => v_none end) size.
Definition new_buffer (chunk_size : Z) : Buffer := mkBuffer (if chunk_size =? 0 then INT_MAX else chunk_size) 0 [].

(** [Buffer::alloc]; the chunk is the last one of the queue *)
Definition alloc (b : Buffer) (type : ChunkType) (size : Z) : Buffer :=
  mkBuffer (bchunk_size b) (total_length b) (queue_ b ++ [new_chunk type size]).

(** [Buffer::pop] *)
Definition pop (b : Buffer) : option Buffer :=
  match queue_ b with
  | [] => None
  | c :: q => Some (mkBuffer (bchunk_size b) (u32 (total_length b - clength c)) q)
  end.

(** [Buffer::empty] *)
Definition empty_buffer (b : option Buffer) : bool :=
  match b with None => true | Some b => match queue_ b with [] => true | _ => false end end.

(** The chunk that was allocated last, and a change of it *)
Definition back (b : Buffer) : option BufferChunk := last (queue_ b).
Definition put_back (b : Buffer) (c : BufferChunk) (added : Z) : Buffer :=
  mkBuffer (bchunk_size b) (u32 (total_length b + added)) (removelast (queue_ b) ++ [c]).

(** [memcpy(chunk->value.str + chunk->length, pos, n)]; [chunk->length += n] *)
Definition fill_chunk (c : BufferChunk) (d : list Z) : option BufferChunk :=
  match cvalue c with
  | v_str m => m ← zblit m (clength c) d; Some (mkChunk (ctype c) (u32 (clength c + zlen d)) (coffset c) (v_str m) (csize c))
  | _ => None
  end.

(** [Buffer::append(data, size)] *)
Fixpoint append_loop (fuel : nat) (b : Buffer) (pos : list Z) : option Buffer :=
  match pos, fuel with
  | [], _ => Some b
  | _, O => None
  | _, S fuel =>
      let n := if bchunk_size b <=? zlen pos then bchunk_size b else zlen pos in
      c ← fill_chunk (new_chunk TYPE_DATA n) (take (Z.to_nat n) pos);
      append_loop fuel (put_back (alloc b TYPE_DATA n) c n) (drop (Z.to_nat n) pos)
  end.
Definition append (b : Buffer) (data : list Z) : option Buffer :=
  match data with [] => None | _ => append_loop (length data) b data end.

(** [Buffer::append(iov, iovcnt, offset)]: [iov] is what is left of the vector, from
    index [i] on; [pos] what is left of its first element; [chunk] whether there is a
    current chunk, which is the last one *)
Fixpoint append_iov_loop (fuel : nat) (b : Buffer) (iov : list (list Z)) (pos : list Z) (offset length : Z) (chunk : bool) : option Buffer :=
  match fuel with O => None | S fuel =>
    let copy (b : Buffer) (pos : list Z) (length chunk_remain_len : Z) :=
      let n := Z.min (zlen pos) chunk_remain_len in
      c ← back b;
      c ← fill_chunk c (take (Z.to_nat n) pos);
      let b := put_back b c n in
      if zlen pos =? n then
        match tail iov with
        | [] => Some b
        | v :: _ => append_iov_loop fuel b (tail iov) v 0 (length - n) true
        end
      else append_iov_loop fuel b iov (drop (Z.to_nat n) pos) 0 (length - n) true in
    if chunk then
      c ← back b;
      if csize c =? clength c then append_iov_loop fuel b iov pos offset length false
      else copy b pos length (csize c - clength c)
    else
      v ← head iov;
      if (0 <? offset) && (zlen v <=? offset) then
        append_iov_loop fuel b (tail iov) pos (offset - zlen v) (length - zlen v) false
      else
        let pos := if 0 <? offset then drop (Z.to_nat offset) v else pos in
        let length := if 0 <? offset then length - offset else length in
        let chunk_remain_len := if bchunk_size b <=? length then bchunk_size b else length in
        copy (alloc b TYPE_DATA chunk_remain_len) pos length chunk_remain_len
  end.
Definition iov_length (iov : list (list Z)) : Z := zlen (concat iov).
Definition append_iov (b : Buffer) (iov : list (list Z)) (offset : Z) : option Buffer :=
  match iov with
  | [] => Some b
  | v :: _ =>
      if forallb (fun v => 0 <? zlen v) iov then
        let length := iov_length iov in
        if (offset <? 0) || (length <=? offset) then Some b
        else append_iov_loop (2 * Z.to_nat length + List.length iov + 1) b iov v offset length false
      else None
  end.
End buffer.

(** What a call of the kernel does: it takes at most so many bytes, it is interrupted
    by a signal, it fails *)
Inductive answer := Sent (k : Z) | Intr | Failed (e : errno).

(** What the functions use of [struct Socket], the bytes that the kernel took, what
    its next calls do, and the value of [errno]: [None] is [EINTR] *)
Record Socket := mkSocket {
  out_buffer : option Buffer;
  buffer_size : Z;
  schunk_size : Z;
  nonblock : bool;
  ssl_send_ : bool;
  ssl : bool;
  dont_restart : bool;
  ev_read : bool;
  ev_write : bool;
  removed : bool;
  close_wait : bool;
  send_wait : bool;
  closed : bool;
  wire : list Z;
  kernel : list answer;
  errno_ : option errno;
}.
Definition with_out s b := mkSocket b (buffer_size s) (schunk_size s) (nonblock s) (ssl_send_ s) (ssl s) (dont_restart s) (ev_read s) (ev_write s) (removed s) (close_wait s) (send_wait s) (closed s) (wire s) (kernel s) (errno_ s).
Definition with_size s n := mkSocket (out_buffer s) n (schunk_size s) (nonblock s) (ssl_send_ s) (ssl s) (dont_restart s) (ev_read s) (ev_write s) (removed s) (close_wait s) (send_wait s) (closed s) (wire s) (kernel s) (errno_ s).
Definition with_nonblock s := mkSocket (out_buffer s) (buffer_size s) (schunk_size s) true (ssl_send_ s) (ssl s) (dont_restart s) (ev_read s) (ev_write s) (removed s) (close_wait s) (send_wait s) (closed s) (wire s) (kernel s) (errno_ s).
Definition with_events s r w rm := mkSocket (out_buffer s) (buffer_size s) (schunk_size s) (nonblock s) (ssl_send_ s) (ssl s) (dont_restart s) r w rm (close_wait s) (send_wait s) (closed s) (wire s) (kernel s) (errno_ s).
Definition with_waits s c w := mkSocket (out_buffer s) (buffer_size s) (schunk_size s) (nonblock s) (ssl_send_ s) (ssl s) (dont_restart s) (ev_read s) (ev_write s) (removed s) c w (closed s) (wire s) (kernel s) (errno_ s).
Definition with_closed s := mkSocket (out_buffer s) (buffer_size s) (schunk_size s) (nonblock s) (ssl_send_ s) (ssl s) (dont_restart s) (ev_read s) (ev_write s) (removed s) (close_wait s) (send_wait s) true (wire s) (kernel s) (errno_ s).
Definition with_kernel s w k e := mkSocket (out_buffer s) (buffer_size s) (schunk_size s) (nonblock s) (ssl_send_ s) (ssl s) (dont_restart s) (ev_read s) (ev_write s) (removed s) (close_wait s) (send_wait s) (closed s) w k e.

Definition SW_SOCKET_BUFFER_SIZE : Z := 8388608.
Definition SW_SEND_BUFFER_SIZE : Z := 65536.
Definition SW_SENDFILE_CHUNK_SIZE : Z := 65536.
Definition SW_SOCKET_CORK_MIN_SIZE : Z := 65536.

(** A system call that sends [d]: the number of bytes that were taken, or a failure *)
Definition sys_send (s : Socket) (d : list Z) : Socket * Z :=
  match kernel s with
  | [] => (with_kernel s (wire s) [] (Some EAGAIN), -1)
  | Sent k :: sc =>
      let n := Z.min (Z.max 1 k) (zlen d) in
      (with_kernel s (wire s ++ take (Z.to_nat n) d) sc (errno_ s), n)
  | Intr :: sc => (with_kernel s (wire s) sc None, -1)
  | Failed e :: sc => (with_kernel s (wire s) sc (Some e), -1)
  end.

(** [Socket::send]: an interrupted call is repeated *)
Fixpoint send_loop (fuel : nat) (s : Socket) (d : list Z) : option (Socket * Z) :=
  let '(s, r) := sys_send s d in
  if (r <? 0) && (match errno_ s with None => negb (dont_restart s) | _ => false end) then
    match fuel with O => None | S fuel => send_loop fuel s d end
  else Some (s, r).
Definition send (s : Socket) (d : list Z) : option (Socket * Z) := send_loop (length (kernel s)) s d.

(** [Socket::catch_write_error(errno)]; [EINTR] is one of the other errors *)
Definition catch_write_error (s : Socket) : option ReturnCode :=
  match errno_ s with None => Some SW_ERROR | Some e => catch_error e end.

(** [Reactor::add_write_event] and [Reactor::remove_write_event], on a socket that can
    be added to the event loop *)
Definition add_write_event (s : Socket) : Socket :=
  if ev_read s then with_events s (ev_read s) true (removed s) else with_events s false true false.
Definition remove_write_event (s : Socket) : Socket :=
  if ev_read s then with_events s true false (removed s) else with_events s false false true.

Section reactor.
Context `{Allocator}.

(** [Reactor::write_func]; [append_fn] gets what the last call of [send_fn] returned *)
Definition alloc_out (s : Socket) : Socket :=
  let s := match out_buffer s with None => with_out s (Some (new_buffer (schunk_size s))) | _ => s end in
  if ev_write s then s else add_write_event s.
Fixpoint do_send (fuel : nat) (s : Socket) (len : Z) (send_fn : Socket -> option (Socket * Z)) (append_fn : Socket -> Z -> option Socket) : option (Socket * Z) :=
  '(s, retval) ← send_fn s;
  if 0 <? retval then
    if len =? retval then Some (s, retval) else
    s ← append_fn (alloc_out s) retval; Some (s, len)
  else
    code ← catch_write_error s;
    match code with
    | SW_WAIT => s ← append_fn (alloc_out s) retval; Some (s, len)
    | _ =>
        match errno_ s with
        | None => match fuel with O => None | S fuel => do_send fuel s len send_fn append_fn end
        | Some _ => Some (s, SW_ERR)
        end
    end.
Definition write_func (s : Socket) (len : Z) (send_fn : Socket -> option (Socket * Z)) (append_fn : Socket -> Z -> option Socket) : option (Socket * Z) :=
  let s := if buffer_size s =? 0 then with_size s SW_SOCKET_BUFFER_SIZE else s in
  let s := if nonblock s then s else with_nonblock s in
  if buffer_size s <? u32 len then Some (s, SW_ERR) else
  if empty_buffer (out_buffer s) then
    if ssl_send_ s then s ← append_fn (alloc_out s) 0; Some (s, len)
    else do_send (length (kernel s)) s len send_fn append_fn
  else
    b ← out_buffer s;
    if buffer_size s <? total_length b + len then Some (s, SW_ERR) else
    s ← append_fn s 0; Some (s, len).

(** [Reactor::_write] and [Reactor::_writev]; the size that is given to
    [Buffer::append] has 32 bits *)
Definition append_to (f : Buffer -> option Buffer) (s : Socket) : option Socket :=
  b ← out_buffer s; b ← f b; Some (with_out s (Some b)).
Definition write (s : Socket) (buf : list Z) : option (Socket * Z) :=
  write_func s (zlen buf) (fun s => send s buf)
    (fun s send_bytes =>
       let offset := if 0 <? send_bytes then send_bytes else 0 in
       append_to (fun b => append b (take (Z.to_nat (u32 (zlen buf - offset))) (drop (Z.to_nat offset) buf))) s).
Definition writev (s : Socket) (iov : list (list Z)) : option (Socket * Z) :=
  if ssl s then Some (s, SW_ERR) else
  write_func s (iov_length iov) (fun s => Some (sys_send s (concat iov)))
    (fun s send_bytes => append_to (fun b => append_iov b iov (if 0 <? send_bytes then send_bytes else 0)) s).

(** [check_sendfile_parameters], for a file that can be opened, and
    [Socket::sendfile_async] *)
Definition check_sendfile_parameters (file : list Z) (begin length : Z) : option Z :=
  if zlen file =? 0 then None else
  let e := if length =? 0 then zlen file else begin + length in
  if (begin <? 0) || (zlen file <? e) then None else Some e.
Definition sendfile_async (s : Socket) (file : list Z) (offset length : Z) : Socket * Z :=
  match check_sendfile_parameters file offset length with
  | None => (s, SW_ERR)
  | Some e =>
      let b := match out_buffer s with None => new_buffer SW_SEND_BUFFER_SIZE | Some b => b end in
      (with_out s (Some (mkBuffer (bchunk_size b) (total_length b)
         (queue_ b ++ [mkChunk TYPE_SENDFILE 0 0 (v_ptr (mkTask file offset e 0)) 0]))), SW_OK)
  end.
End reactor.

(** The front chunk is removed or replaced *)
Definition pop_out (s : Socket) : option Socket :=
  b ← out_buffer s; b ← pop b; Some (with_out s (Some b)).
Definition put_front (s : Socket) (c : BufferChunk) : option Socket :=
  b ← out_buffer s;
  match queue_ b with [] => None | _ :: q => Some (with_out s (Some (mkBuffer (bchunk_size b) (total_length b) (c :: q)))) end.

(** [Socket::handle_send] *)
Definition handle_send (s : Socket) (c : BufferChunk) : option (Socket * Z) :=
  let sendn := u32 (clength c - coffset c) in
  if sendn =? 0 then s ← pop_out s; Some (s, SW_OK) else
  m ← (match cvalue c with v_str m => Some m | _ => None end);
  d ← zsub m (coffset c) sendn;
  '(s, ret) ← send s d;
  if ret <? 0 then
    code ← catch_write_error s;
    match code with
    | SW_CLOSE => Some (with_waits s true (send_wait s), SW_ERR)
    | SW_WAIT => Some (with_waits s (close_wait s) true, SW_ERR)
    | _ => Some (s, SW_OK)
    end
  else if ret =? sendn then s ← pop_out s; Some (s, SW_OK)
  else
    s ← put_front s (mkChunk (ctype c) (clength c) (u32 (coffset c + ret)) (cvalue c) (csize c));
    if ret <? sendn then Some (with_waits s (close_wait s) true, SW_ERR) else Some (s, SW_OK).

(** [get_sendfile_chunk_size]; the system call [sendfile], which moves the offset and
    returns 0 at the end of the file *)
Definition get_sendfile_chunk_size (begin e : Z) : Z :=
  let real_length := u64 (e - begin) in
  if SW_SENDFILE_CHUNK_SIZE <? real_length then SW_SENDFILE_CHUNK_SIZE else real_length.
Definition sys_sendfile (s : Socket) (t : SendfileRequest) (n : Z) : Socket * SendfileRequest * Z :=
  match take (Z.to_nat n) (drop (Z.to_nat (tbegin t)) (tfile t)) with
  | [] => (s, t, 0)
  | d => let '(s, r) := sys_send s d in (s, if 0 <? r then mkTask (tfile t) (tbegin t + r) (tend t) (corked t) else t, r)
  end.

(** [Socket::handle_sendfile]; [cork_ok] is what [Socket::cork] returns *)
Definition handle_sendfile (cork_ok : bool) (s : Socket) (c : BufferChunk) : option (Socket * Z) :=
  t ← (match cvalue c with v_ptr t => Some t | _ => None end);
  let t := if corked t =? 0 then
    mkTask (tfile t) (tbegin t) (tend t) (if (SW_SOCKET_CORK_MIN_SIZE <? tend t - tbegin t) && cork_ok then 1 else -1) else t in
  let sendn := get_sendfile_chunk_size (tbegin t) (tend t) in
  let '(s, t, rv) := sys_sendfile s t sendn in
  let keep (t : SendfileRequest) := put_front s (mkChunk (ctype c) (clength c) (coffset c) (v_ptr t) (csize c)) in
  code ← (if rv <=? 0 then catch_write_error s else Some SW_INVALID);
  match code with
  | SW_ERROR => s ← pop_out s; Some (s, SW_OK)
  | SW_CLOSE => s ← keep t; Some (with_waits s true (send_wait s), SW_ERR)
  | SW_WAIT => s ← keep t; Some (with_waits s (close_wait s) true, SW_ERR)
  | SW_INVALID => if tbegin t =? tend t then s ← pop_out s; Some (s, SW_OK) else s ← keep t; Some (s, SW_OK)
  end.

(** [Reactor::_writable_callback]; [closed] says that the socket was closed, or that
    the close event was triggered *)
Fixpoint writable_loop (fuel : nat) (cork_ok : bool) (s : Socket) : option (Socket * bool) :=
  if empty_buffer (out_buffer s) then Some (s, true) else
  match fuel with O => None | S fuel =>
    b ← out_buffer s; c ← head (queue_ b);
    match ctype c with
    | TYPE_CLOSE => Some (with_closed s, false)
    | _ =>
        '(s, ret) ← (match ctype c with TYPE_SENDFILE => handle_sendfile cork_ok s c | _ => handle_send s c end);
        if ret <? 0 then
          if close_wait s then Some (with_closed s, false)
          else if send_wait s then Some (s, false)
          else writable_loop fuel cork_ok s
        else writable_loop fuel cork_ok s
    end
  end.
Definition queue_length (s : Socket) : nat := match out_buffer s with None => 0 | Some b => length (queue_ b) end.
Definition writable_callback (cork_ok : bool) (s : Socket) : option Socket :=
  '(s, finished) ← writable_loop (S (queue_length s + length (kernel s))) cork_ok s;
  Some (if finished : bool then if empty_buffer (out_buffer s) then remove_write_event s else s else s).

(** [Reactor::drain_write_buffer]; the list says what the calls of
    [Socket::wait_event] return *)
Fixpoint drain_write_buffer (cork_ok : bool) (s : Socket) (waits : list bool) : option Socket :=
  if empty_buffer (out_buffer s) then Some s else
  match waits with
  | [] | false :: _ => Some s
  | true :: waits =>
      s ← writable_callback cork_ok s;
      if close_wait s || removed s then Some s else drain_write_buffer cork_ok s waits
  end.

(** [Client_tcp_sendfile_async] *)
Definition tcp_sendfile_async `{Allocator} (s : Socket) (file : list Z) (offset length : Z) : Socket * Z :=
  let '(s, r) := sendfile_async s file offset length in
  if r <? 0 then (s, r) else (if ev_write s then s else add_write_event s, SW_OK).

(** ** The invariant *)

(** What a chunk, a buffer and a socket still have to send. *)
Definition chunk_bytes (c : BufferChunk) : list Z :=
  match cvalue c with
  | v_none => []
  | v_str m => drop (Z.to_nat (coffset c)) (take (Z.to_nat (clength c)) m)
  | v_ptr t => take (Z.to_nat (tend t - tbegin t)) (drop (Z.to_nat (tbegin t)) (tfile t))
  end.
Definition buffer_bytes (b : Buffer) : list Z := concat (chunk_bytes <$> queue_ b).
Definition pending (s : Socket) : list Z := match out_buffer s with None => [] | Some b => buffer_bytes b end.

Section proof.
Context `{Allocator} (files server : bool).

(** [files] says whether there are files in the queue, [server] whether it is the queue
    of a server connection: it may have close marks, and the server has rules of its own
    for its length and for the write event. *)
Inductive chunk_wf : BufferChunk -> Prop :=
  | data_wf len off m size : 0 <= off <= len -> len <= zlen m -> len < 2 ^ 32 ->
      chunk_wf (mkChunk TYPE_DATA len off (v_str m) size)
  | file_wf t size : files = true -> 0 <= tbegin t < tend t -> tend t <= zlen (tfile t) -> tend t < 2 ^ 63 ->
      chunk_wf (mkChunk TYPE_SENDFILE 0 0 (v_ptr t) size)
  | close_wf size : server = true -> chunk_wf (mkChunk TYPE_CLOSE 0 0 v_none size).

Fixpoint queued (q : list BufferChunk) : Z := match q with [] => 0 | c :: q => clength c + queued q end.

Record buffer_wf (b : Buffer) : Prop := {
  bw_chunk : 0 < bchunk_size b < 2 ^ 32;
  bw_chunks : Forall chunk_wf (queue_ b);
  bw_total : total_length b = queued (queue_ b);
  bw_bound : total_length b < 2 ^ 32;
}.

(** The limit of the buffer; before the first write it may be unset. *)
Definition limit (s : Socket) : Z := if buffer_size s =? 0 then SW_SOCKET_BUFFER_SIZE else buffer_size s.

Record inv (s : Socket) : Prop := {
  iv_size : 0 <= buffer_size s < 2 ^ 32;
  iv_chunk : 0 <= schunk_size s < 2 ^ 32;
  iv_out : forall b, out_buffer s = Some b -> buffer_wf b /\ (server = false -> total_length b <= limit s);
  iv_event : server = false -> empty_buffer (out_buffer s) = false -> ev_write s = true;
}.

(** ** Lemmas *)

Lemma queued_app q1 q2 : queued (q1 ++ q2) = queued q1 + queued q2.
Proof. induction q1 as [|c q1 IH]; simpl; lia. Qed.

Lemma queued_nonneg q : Forall chunk_wf q -> 0 <= queued q.
Proof. induction 1 as [|c q Hc _ IH]; simpl; [lia|]. destruct Hc; simpl; lia. Qed.

Lemma zblit_all {A} (l src : list A) : length src = length l -> zblit l 0 src = Some src.
Proof.
  intros Hl. apply zblit_Some. split_and!; [lia|lia|]. rewrite drop_ge by lia. simpl. by rewrite app_nil_r.
Qed.

Lemma new_chunk_fill n d : 0 < n < 2 ^ 32 -> zlen d = n ->
  fill_chunk (new_chunk TYPE_DATA n) d = Some (mkChunk TYPE_DATA n 0 (v_str d) n).
Proof.
  intros Hn Hd. unfold new_chunk, fill_chunk. destruct (Z.ltb_spec 0 n); [|lia]. cbn [cvalue clength ctype coffset csize].
  rewrite zblit_all by (pose proof (fresh_length n); lia). simpl. by rewrite Hd, uN_small by (unfold fits; lia).
Qed.

Lemma put_back_alloc b c n : put_back (alloc b TYPE_DATA n) c n = mkBuffer (bchunk_size b) (u32 (total_length b + n)) (queue_ b ++ [c]).
Proof. unfold put_back, alloc. cbn [queue_ bchunk_size total_length]. by rewrite removelast_last. Qed.

(** A chunk that is added to the end of a buffer. *)
Lemma buffer_wf_snoc b c : buffer_wf b -> chunk_wf c -> total_length b + clength c < 2 ^ 32 ->
  buffer_wf (mkBuffer (bchunk_size b) (total_length b + clength c) (queue_ b ++ [c])).
Proof.
  intros [Hc Hf Ht Hb] Hw Hl. split; cbn [bchunk_size queue_ total_length]; [done| | |done].
  - apply Forall_app. split; [done|by constructor].
  - rewrite queued_app. simpl. lia.
Qed.

Lemma buffer_bytes_snoc k n b c : buffer_bytes (mkBuffer k n (queue_ b ++ [c])) = buffer_bytes b ++ chunk_bytes c.
Proof. unfold buffer_bytes. cbn [queue_]. rewrite fmap_app, concat_app. simpl. by rewrite app_nil_r. Qed.

(** What adding bytes to a buffer does. *)
Definition appended (b b' : Buffer) (d : list Z) : Prop :=
  buffer_wf b' /\ total_length b' = total_length b + zlen d /\ buffer_bytes b' = buffer_bytes b ++ d.

Lemma buffer_append_loop_ok fuel b pos : buffer_wf b -> (length pos <= fuel)%nat -> total_length b + zlen pos < 2 ^ 32 ->
  exists b', append_loop fuel b pos = Some b' /\ appended b b' pos.
Proof.
  revert b pos. induction fuel as [|fuel IH]; intros b pos Hw Hf Hl.
  - destruct pos; [|simpl in Hf; lia]. exists b. split; [done|]. split_and!; [done|simpl; lia|by rewrite app_nil_r].
  - destruct pos as [|x pos']; [exists b; split; [done|]; split_and!; [done|simpl; lia|by rewrite app_nil_r]|].
    set (pos := x :: pos') in *. assert (0 < zlen pos) by (unfold pos; simpl; lia). cbn [append_loop].
    change (match pos with [] => Some b | _ :: _ => ?f end) with f.
    set (n := if bchunk_size b <=? zlen pos then bchunk_size b else zlen pos).
    pose proof (bw_chunk b Hw) as Hc. assert (0 <= total_length b) as Hnn by (rewrite (bw_total b Hw); apply queued_nonneg, Hw).
    assert (0 < n <= zlen pos) as Hn by (unfold n; destruct (Z.leb_spec (bchunk_size b) (zlen pos)); lia).
    rewrite new_chunk_fill by (rewrite ?length_take; lia). cbn [mbind option_bind].
    rewrite put_back_alloc, uN_small by (unfold fits; lia).
    set (c := mkChunk TYPE_DATA n 0 (v_str (take (Z.to_nat n) pos)) n).
    assert (chunk_wf c) as Hcw by (constructor; rewrite ?length_take; lia).
    edestruct (IH _ (drop (Z.to_nat n) pos) (buffer_wf_snoc b c Hw Hcw ltac:(cbn [clength c]; lia)))
      as (b' & E & Hw' & Ht & Hb); [rewrite length_drop; lia|cbn [total_length clength c]; rewrite length_drop; lia|].
    exists b'. split; [exact E|]. split_and!; [done| |].
    + rewrite Ht. cbn [total_length clength c]. rewrite length_drop. lia.
    + rewrite Hb, buffer_bytes_snoc, <- app_assoc. f_equal. unfold chunk_bytes, c. cbn [cvalue clength coffset].
      rewrite drop_0, take_take, Nat.min_id. apply take_drop.
Qed.

Lemma appended_nonempty b b' d : buffer_wf b -> appended b b' d -> d <> [] -> queue_ b' <> [].
Proof.
  intros Hw (Hw' & Ht & _) Hd Hq. rewrite (bw_total b' Hw'), (bw_total b Hw), Hq in Ht.
  pose proof (queued_nonneg _ (bw_chunks b Hw)). destruct d; [done|]. simpl in Ht. lia.
Qed.

Lemma buffer_append_ok b d : buffer_wf b -> d <> [] -> total_length b + zlen d < 2 ^ 32 -> exists b', append b d = Some b' /\ appended b b' d.
Proof. intros Hw Hd Hl. destruct d; [done|]. by apply buffer_append_loop_ok. Qed.

(** The last chunk, which is being filled. *)
Definition open_chunk (b : Buffer) (room : Z) : Prop :=
  exists q len m, queue_ b = q ++ [mkChunk TYPE_DATA len 0 (v_str m) (zlen m)] /\ room = zlen m - len.

Lemma alloc_open b n : buffer_wf b -> 0 < n < 2 ^ 32 ->
  buffer_wf (alloc b TYPE_DATA n) /\ total_length (alloc b TYPE_DATA n) = total_length b /\
  buffer_bytes (alloc b TYPE_DATA n) = buffer_bytes b /\ open_chunk (alloc b TYPE_DATA n) n.
Proof.
  intros Hw Hn. pose proof (fresh_length n ltac:(lia)) as Hf.
  assert (new_chunk TYPE_DATA n = mkChunk TYPE_DATA 0 0 (v_str (fresh n)) n) as Ec by (unfold new_chunk; by destruct (Z.ltb_spec 0 n); [|lia]).
  unfold alloc. rewrite Ec. assert (chunk_wf (mkChunk TYPE_DATA 0 0 (v_str (fresh n)) n)) as Hcw by (constructor; lia).
  pose proof (buffer_wf_snoc b _ Hw Hcw) as Hs. cbn [clength] in Hs. rewrite Z.add_0_r in Hs. split_and!; [apply Hs, Hw|done| |].
  - rewrite buffer_bytes_snoc. unfold chunk_bytes. simpl. by rewrite app_nil_r.
  - exists (queue_ b), 0, (fresh n). rewrite Hf. split; [done|lia].
Qed.

(** One step of the copy into the last chunk. *)
Lemma fill_back b d room : buffer_wf b -> open_chunk b room -> zlen d <= room -> total_length b + zlen d < 2 ^ 32 ->
  exists c c', back b = Some c /\ csize c - clength c = room /\ fill_chunk c d = Some c' /\
    appended b (put_back b c' (zlen d)) d /\ open_chunk (put_back b c' (zlen d)) (room - zlen d) /\
    bchunk_size (put_back b c' (zlen d)) = bchunk_size b.
Proof.
  intros Hw (q & len & m & Hq & ->) Hd Ht. set (c := mkChunk TYPE_DATA len 0 (v_str m) (zlen m)) in *.
  pose proof (bw_chunks b Hw) as Hf. rewrite Hq in Hf. apply Forall_app in Hf as [Hfq Hfc]. apply Forall_inv in Hfc.
  assert (0 <= len <= zlen m) as Hlen by (inversion Hfc; lia).
  pose proof (queued_nonneg _ Hfq) as Hnn. pose proof (bw_total b Hw) as Htot. rewrite Hq, queued_app in Htot. unfold c in Htot. cbn [queued clength] in Htot.
  destruct (zblit_in_bounds m len d) as [m' Hm']; [lia..|]. pose proof (zblit_length _ _ _ _ Hm') as Hl'.
  set (c' := mkChunk TYPE_DATA (len + zlen d) 0 (v_str m') (zlen m)).
  assert (chunk_wf c') as Hcw by (constructor; lia).
  assert (chunk_bytes c' = chunk_bytes c ++ d) as Hb.
  { unfold chunk_bytes, c', c. cbn [cvalue clength coffset]. rewrite !drop_0. apply zblit_Some in Hm' as (_ & Hin & ->).
    rewrite Z2Nat.inj_add, Nat2Z.id by lia. rewrite app_assoc, take_app_le by (rewrite length_app, length_take; lia).
    rewrite take_ge; [done|rewrite length_app, length_take; lia]. }
  assert (put_back b c' (zlen d) = mkBuffer (bchunk_size b) (total_length b + zlen d) (q ++ [c'])) as Ep.
  { unfold put_back. rewrite Hq, removelast_last, uN_small by (unfold fits; lia). done. }
  exists c, c'. split_and!; [unfold back; rewrite Hq; apply last_snoc|done| | | |by rewrite Ep].
  - unfold fill_chunk, c, c'. cbn [cvalue clength ctype coffset csize]. rewrite Hm'. cbn [mbind option_bind]. by rewrite uN_small by (unfold fits; lia).
  - rewrite Ep. split_and!; [|done|].
    + split; cbn [bchunk_size queue_ total_length]; [apply Hw|apply Forall_app; split; [done|by constructor]| |lia].
      rewrite queued_app. unfold c'. cbn [queued clength]. lia.
    + unfold buffer_bytes. cbn [queue_]. rewrite Hq, !fmap_app, !concat_app. simpl. rewrite Hb, !app_nil_r. by rewrite app_assoc.
  - rewrite Ep. exists q, (len + zlen d), m'. cbn [queue_]. rewrite Hl'. split; [done|lia].
Qed.

Lemma appended_trans b1 b2 b3 d e : appended b1 b2 d -> appended b2 b3 e -> appended b1 b3 (d ++ e).
Proof.
  intros (_ & Ht & Hb) (Hw & Ht' & Hb'). split_and!; [done| |by rewrite Hb', Hb, app_assoc]. rewrite length_app. lia.
Qed.

Lemma append_iov_loop_ok fuel b iov pos chunk room : buffer_wf b -> iov <> [] -> pos <> [] -> Forall (fun v => v <> []) (tail iov) ->
  let rest := pos ++ concat (tail iov) in
  total_length b + zlen rest < 2 ^ 32 -> (chunk = true -> open_chunk b room) ->
  (2 * length rest + (if chunk then 1 else 0) < fuel)%nat ->
  exists b', append_iov_loop fuel b iov pos 0 (zlen rest) chunk = Some b' /\ appended b b' rest.
Proof.
  revert b iov pos chunk room. induction fuel as [|fuel IH]; intros b iov pos chunk room Hw Hi Hp Hv rest Ht Ho Hf; [lia|].
  assert (0 <= total_length b) as Hnn by (rewrite (bw_total b Hw); apply queued_nonneg, Hw).
  assert (0 < zlen pos) as Hp0 by (destruct pos; [done|simpl; lia]).
  assert (length rest = (length pos + length (concat (tail iov)))%nat) as Hr by apply length_app.
  (* the copy *)
  assert (forall b0 r, buffer_wf b0 -> total_length b0 = total_length b -> buffer_bytes b0 = buffer_bytes b -> open_chunk b0 r -> 0 < r ->
    (2 * length rest < fuel + 1)%nat ->
    exists b', (let n := Z.min (zlen pos) r in
      c ← back b0; c ← fill_chunk c (take (Z.to_nat n) pos); let b := put_back b0 c n in
      if zlen pos =? n then match tail iov with [] => Some b | v :: _ => append_iov_loop fuel b (tail iov) v 0 (zlen rest - n) true end
      else append_iov_loop fuel b iov (drop (Z.to_nat n) pos) 0 (zlen rest - n) true) = Some b' /\ appended b b' rest) as Hcopy.
  { intros b0 r Hw0 Ht0 Hb0 Ho0 Hr0 Hf0. cbv zeta. set (n := Z.min (zlen pos) r).
    assert (zlen (take (Z.to_nat n) pos) = n) as Hn by (rewrite length_take; lia).
    destruct (fill_back b0 (take (Z.to_nat n) pos) r Hw0 Ho0) as (c & c' & -> & _ & E & Ha & Ho1 & _); [lia..|].
    cbn [mbind option_bind]. rewrite E. cbn [mbind option_bind]. rewrite Hn in Ha, Ho1. set (b1 := put_back b0 c' n) in *.
    assert (appended b b1 (take (Z.to_nat n) pos)) as Ha' by (destruct Ha as (? & Hx & Hy); split_and!; [done|lia|by rewrite Hy, Hb0]).
    destruct Ha' as (Hw1 & Ht1 & Hb1). rewrite Hn in Ht1. clearbody b1. clear Ha E. destruct (Z.eqb_spec (zlen pos) n) as [En|En].
    - assert (take (Z.to_nat n) pos = pos) as Etk by (apply take_ge; lia). rewrite Etk in *.
      destruct (tail iov) as [|v vs] eqn:Ev.
      { exists b1. split; [done|]. unfold rest. rewrite ?Ev. simpl. rewrite app_nil_r. by split_and!; [done|lia|]. }
      apply Forall_cons in Hv as [Hv Hvs]. assert (rest = pos ++ v ++ concat vs) as Hrest by (unfold rest; by rewrite ?Ev).
      edestruct (IH b1 (v :: vs) v true (r - n) Hw1) as (b' & E' & Ha2); [done|done|done| |done| |].
      + simpl. rewrite Hrest in Ht. rewrite length_app in Ht. lia.
      + simpl. rewrite Hrest, length_app in Hf0. lia.
      + simpl in E'. exists b'. split; [rewrite <- E'; f_equal; rewrite Hrest, !length_app; lia|]. rewrite Hrest.
        eapply appended_trans; [|exact Ha2]. split_and!; [done|lia|done].
    - assert (n < zlen pos) by lia. assert (zlen (drop (Z.to_nat n) pos) = zlen pos - n) as Hd by (rewrite length_drop; lia).
      edestruct (IH b1 iov (drop (Z.to_nat n) pos) true (r - n) Hw1) as (b' & E' & Ha2);
        [done|intros Hx; rewrite Hx in Hd; simpl in Hd; lia|done| |done| |].
      + rewrite length_app. lia.
      + rewrite length_app. lia.
      + exists b'. split; [rewrite <- E'; f_equal; rewrite length_app; lia|].
        replace rest with (take (Z.to_nat n) pos ++ drop (Z.to_nat n) pos ++ concat (tail iov)) by (unfold rest; by rewrite app_assoc, take_drop).
        eapply appended_trans; [|exact Ha2]. split_and!; [done|lia|done]. }
  cbn [append_iov_loop]. destruct chunk.
  - specialize (Ho eq_refl). destruct Ho as (q & len & m & Hq & ->). assert (back b = Some (mkChunk TYPE_DATA len 0 (v_str m) (zlen m))) as Hbk
      by (unfold back; rewrite Hq; apply last_snoc).
    rewrite Hbk. cbn [mbind option_bind csize clength]. destruct (Z.eqb_spec (zlen m) len) as [|Hne].
    + edestruct (IH b iov pos false 0 Hw Hi Hp Hv) as (b' & E' & Ha); [done|done|fold rest; lia|]. by exists b'.
    + pose proof (bw_chunks b Hw) as Hcs. rewrite Hq in Hcs. apply Forall_app in Hcs as [_ Hcs]. apply Forall_inv in Hcs.
      specialize (Hcopy b (zlen m - len) Hw eq_refl eq_refl). rewrite Hbk in Hcopy.
      apply Hcopy; [by exists q, len, m|inversion Hcs; lia|lia].
  - destruct iov as [|v iov]; [done|]. cbn [head mbind option_bind Z.ltb Z.compare andb].
    set (n := if bchunk_size b <=? zlen rest then bchunk_size b else zlen rest).
    assert (0 < n < 2 ^ 32) as Hn by (unfold n; pose proof (bw_chunk b Hw); destruct (Z.leb_spec (bchunk_size b) (zlen rest)); lia).
    destruct (alloc_open b n Hw Hn) as (Hw0 & Ht0 & Hb0 & Ho0). apply (Hcopy _ n Hw0 Ht0 Hb0 Ho0); lia.
Qed.

(** [k] bytes are a number of whole elements of the vector, and there are more. *)
Definition inner_boundary (iov : list (list Z)) (k : Z) : Prop :=
  exists l r, iov = l ++ r /\ r <> [] /\ 0 < k /\ zlen (concat l) = k.

Lemma append_iov_skip iov fuel b pos offset : buffer_wf b -> Forall (fun v => v <> []) iov -> 0 < offset < zlen (concat iov) ->
  ~ inner_boundary iov offset -> total_length b + zlen (concat iov) < 2 ^ 32 -> (2 * length (concat iov) + length iov < fuel)%nat ->
  exists b', append_iov_loop fuel b iov pos offset (zlen (concat iov)) false = Some b' /\
    appended b b' (drop (Z.to_nat offset) (concat iov)).
Proof.
  intros Hw. revert fuel offset. induction iov as [|v iov IH]; intros fuel offset Hv Ho Hnb Ht Hf; [simpl in Ho; lia|].
  apply Forall_cons in Hv as [Hv Hvs]. assert (0 < zlen v) by (destruct v; [done|simpl; lia]).
  destruct fuel as [|fuel]; [lia|]. cbn [concat] in *. rewrite length_app in *. cbn [length] in Hf.
  destruct (Z.leb_spec (zlen v) offset) as [Hle|Hlt].
  - assert (zlen v <> offset) as Hne.
    { intros <-. apply Hnb. exists [v], iov. simpl. rewrite app_nil_r. split_and!; [done| |lia|lia]. intros ->. simpl in *. lia. }
    edestruct (IH fuel (offset - zlen v)) as (b' & E & Ha); [done|lia| |lia|lia|].
    + intros (l & r & -> & Hr & _ & Hk). apply Hnb. exists (v :: l), r. split_and!; [done|done|lia|]. simpl. rewrite length_app. lia.
    + exists b'. split.
      * cbn [append_iov_loop head mbind option_bind tail]. destruct (Z.ltb_spec 0 offset), (Z.leb_spec (zlen v) offset); try lia. cbn [andb].
        rewrite <- E. f_equal; lia.
      * rewrite drop_app_ge by lia. replace (Z.to_nat offset - length v)%nat with (Z.to_nat (offset - zlen v)) by lia. done.
  - assert (append_iov_loop (S fuel) b (v :: iov) pos offset (Z.of_nat (length v + length (concat iov))) false =
      append_iov_loop (S fuel) b (v :: iov) (drop (Z.to_nat offset) v) 0 (Z.of_nat (length v + length (concat iov)) - offset) false) as ->.
    { cbn [append_iov_loop head mbind option_bind tail]. by destruct (Z.ltb_spec 0 offset), (Z.leb_spec (zlen v) offset); try lia. }
    edestruct (append_iov_loop_ok (S fuel) b (v :: iov) (drop (Z.to_nat offset) v) false 0) as (b' & E & Ha);
      [done|done|intros Hx%(f_equal length); rewrite length_drop in Hx; simpl in Hx; lia|done| |done| |].
    + simpl. rewrite length_app, length_drop. lia.
    + simpl tail. rewrite length_app, length_drop. lia.
    + exists b'. cbn [tail] in *. split; [rewrite <- E; f_equal; rewrite length_app, length_drop; lia|]. by rewrite drop_app_le by lia.
Qed.

Lemma append_iov_ok b iov offset : buffer_wf b -> Forall (fun v => v <> []) iov -> 0 <= offset < iov_length iov ->
  ~ inner_boundary iov offset -> total_length b + iov_length iov < 2 ^ 32 ->
  exists b', append_iov b iov offset = Some b' /\ appended b b' (drop (Z.to_nat offset) (concat iov)).
Proof.
  intros Hw Hv Ho Hnb Ht. unfold append_iov, iov_length in *. destruct iov as [|v iov]; [simpl in Ho; lia|].
  assert (forallb (fun v => 0 <? zlen v) (v :: iov) = true) as ->.
  { apply forallb_forall. intros x Hx%list_elem_of_In. rewrite Forall_forall in Hv. specialize (Hv x Hx).
    destruct x; [done|]. apply Z.ltb_lt. cbn [length]. lia. }
  destruct (Z.ltb_spec offset 0), (Z.leb_spec (zlen (concat (v :: iov))) offset); try lia. cbn [orb].
  rewrite Nat2Z.id. destruct (decide (offset = 0)) as [->|Hne].
  - apply Forall_cons in Hv as [Hv Hvs]. change (Z.to_nat 0) with 0%nat. rewrite drop_0.
    eapply (append_iov_loop_ok _ b (v :: iov) v false 0); [done|done|done|done|done|done|]. simpl. lia.
  - apply append_iov_skip; [done|done|lia|done|done|lia].
Qed.

(** What a call of the kernel changes. *)
Record kernel_step (s s' : Socket) : Prop := {
  ks_state : s' = with_kernel s (wire s') (kernel s') (errno_ s');
  ks_kernel : kernel s' `suffix_of` kernel s;
}.

Definition orderly (a : answer) : Prop :=
  match a with Failed EFAULT => False | Intr | Failed EOTHER => files = false | _ => True end.

Definition takes (a : answer) : Prop := match a with Sent _ => True | _ => False end.

(** [d] was sent with the result [r]. *)
Record sent (s s' : Socket) (d : list Z) (r : Z) : Prop := {
  st_step : kernel_step s s';
  st_result : 0 < r <= zlen d /\ wire s' = wire s ++ take (Z.to_nat r) d /\ (exists k, Sent k ∈ kernel s /\ r = Z.min (Z.max 1 k) (zlen d)) \/
    r = -1 /\ wire s' = wire s /\ (errno_ s' = None /\ files = false \/ exists e, errno_ s' = Some e /\ orderly (Failed e));
  st_used : kernel s <> [] -> (length (kernel s') < length (kernel s))%nat;
  st_over : kernel s = [] -> r = -1 /\ errno_ s' = Some EAGAIN;
  st_takes : Forall takes (kernel s) -> kernel s <> [] -> 0 < r;
}.

Lemma with_kernel_id s : with_kernel s (wire s) (kernel s) (errno_ s) = s.
Proof. by destruct s. Qed.

Lemma kernel_step_trans s1 s2 s3 : kernel_step s1 s2 -> kernel_step s2 s3 -> kernel_step s1 s3.
Proof.
  intros [E1 H1] [E2 H2]. split; [|by etrans]. rewrite E2. rewrite E1 at 1. done.
Qed.

Lemma sys_send_ok s d : d <> [] -> Forall orderly (kernel s) -> sent s (sys_send s d).1 d (sys_send s d).2.
Proof.
  intros Hd Hk. assert (0 < zlen d) by (destruct d; [done|simpl; lia]). unfold sys_send. destruct (kernel s) as [|a ks] eqn:Ek.
  - split; [split; [done|by rewrite Ek]|right; split_and!; [done|done|]|by rewrite Ek|done|by rewrite Ek]. right. by eexists.
  - apply Forall_cons in Hk as [Ha Hk]. destruct a as [k| |e]; cbn [fst snd].
    + split; [split; [done|rewrite Ek; by exists [Sent k]]|left; split_and!; [lia|lia|done|]|intros _; rewrite Ek; simpl; lia|by rewrite Ek|lia].
      exists k. rewrite Ek. split; [left|done].
    + split; [split; [done|rewrite Ek; by exists [Intr]]|right; split_and!; [done|done|by left]|intros _; rewrite Ek; simpl; lia|by rewrite Ek|rewrite Ek; by intros []%Forall_cons].
    + split; [split; [done|rewrite Ek; by exists [Failed e]]|right; split_and!; [done|done|right; by eexists]|intros _; rewrite Ek; simpl; lia|by rewrite Ek|rewrite Ek; by intros []%Forall_cons].
Qed.

Lemma orderly_suffix ks ks' : ks' `suffix_of` ks -> Forall orderly ks -> Forall orderly ks'.
Proof. intros [l ->] [_ H']%Forall_app. done. Qed.

Lemma sent_suffix s s' d r : sent s s' d r -> kernel s' `suffix_of` kernel s.
Proof. by intros [[_ ?] _ _ _ _]. Qed.

Lemma send_loop_ok fuel s d : d <> [] -> Forall orderly (kernel s) -> (length (kernel s) <= fuel)%nat ->
  exists s' r, send_loop fuel s d = Some (s', r) /\ sent s s' d r.
Proof.
  intros Hd. revert s. induction fuel as [|fuel IH]; intros s Hk Hf; cbn [send_loop];
    pose proof (sys_send_ok s d Hd Hk) as Hs; destruct (sys_send s d) as [s1 r1]; cbn [fst snd] in Hs.
  - destruct (kernel s) eqn:Ek; [|simpl in Hf; lia]. destruct (st_over _ _ _ _ Hs Ek) as [-> He]. rewrite He. simpl. eauto.
  - destruct ((r1 <? 0) && match errno_ s1 with None => negb (dont_restart s1) | Some _ => false end) eqn:Eb; [|eauto].
    assert (kernel s <> []) as Hne.
    { intros E0. destruct (st_over _ _ _ _ Hs E0) as [-> He]. rewrite He in Eb. done. }
    pose proof (st_used _ _ _ _ Hs Hne) as Hu. destruct (IH s1) as (s' & r & E & Hs');
      [eapply orderly_suffix; [by eapply sent_suffix|done]|lia|]. rewrite E. exists s', r. split; [done|].
    destruct Hs as [Hst Hres _ _ Htk], Hs' as [Hst' Hres' Hu' Ho' _]. apply andb_prop in Eb as [Hr1%Z.ltb_lt _].
    destruct Hres as [[? _]|(_ & Hw1 & _)]; [lia|]. split; [by eapply kernel_step_trans| |intros _|done|intros Hall _; specialize (Htk Hall Hne); lia].
    + rewrite Hw1 in Hres'. destruct Hres' as [(? & ? & k & Hin & ?)|?]; [left|by right]. split_and!; [lia|lia|done|].
      exists k. split; [|done]. destruct Hst as [_ [l ->]]. apply elem_of_app. by right.
    + destruct (kernel s1) eqn:E1; [|specialize (Hu' ltac:(done)); lia]. destruct Hst' as [_ Hsuf]. rewrite E1 in Hsuf.
      apply suffix_nil_inv in Hsuf. rewrite Hsuf. simpl in Hu. simpl. lia.
Qed.

Lemma send_ok s d : d <> [] -> Forall orderly (kernel s) -> exists s' r, send s d = Some (s', r) /\ sent s s' d r.
Proof. intros. by apply send_loop_ok. Qed.

(** A call of the kernel keeps what is queued. *)
Lemma kernel_step_inv s s' : kernel_step s s' -> inv s -> inv s' /\ pending s' = pending s /\ out_buffer s' = out_buffer s /\ closed s' = closed s /\
  ev_write s' = ev_write s /\ close_wait s' = close_wait s /\ limit s' = limit s.
Proof. intros [-> _] [? ? ? ?]. split_and!; done || by split. Qed.

Lemma catch_write_orderly s e : errno_ s = Some e -> orderly (Failed e) -> exists code, catch_write_error s = Some code.
Proof. intros He Ho. unfold catch_write_error. rewrite He. destruct e; simpl; eauto. done. Qed.

Lemma new_buffer_wf n : 0 <= n < 2 ^ 32 -> buffer_wf (new_buffer n).
Proof. intros Hn. unfold new_buffer, INT_MAX. split; simpl; [destruct (Z.eqb_spec n 0); lia|constructor|done|lia]. Qed.

Lemma empty_pending s : empty_buffer (out_buffer s) = true -> pending s = [].
Proof. unfold pending, empty_buffer, buffer_bytes. by destruct (out_buffer s) as [[? ? []]|]. Qed.

(** What the writing functions promise. *)
Definition written (s s' : Socket) (d : list Z) (r : Z) : Prop :=
  inv s' /\ closed s' = closed s /\ close_wait s' = close_wait s /\ kernel s' `suffix_of` kernel s /\
  (r = zlen d /\ wire s' ++ pending s' = wire s ++ pending s ++ d \/ r = SW_ERR /\ wire s' = wire s /\ pending s' = pending s).

Lemma alloc_out_ok s : inv s -> empty_buffer (out_buffer s) = true ->
  exists b, out_buffer (alloc_out s) = Some b /\ buffer_wf b /\ queue_ b = [] /\ ev_write (alloc_out s) = true /\
    buffer_size (alloc_out s) = buffer_size s /\ schunk_size (alloc_out s) = schunk_size s /\ closed (alloc_out s) = closed s /\
    close_wait (alloc_out s) = close_wait s /\ kernel (alloc_out s) = kernel s /\ wire (alloc_out s) = wire s.
Proof.
  intros Hi He. pose proof (new_buffer_wf _ (iv_chunk s Hi)) as Hn. pose proof (iv_out s Hi) as Ho. unfold alloc_out, add_write_event.
  destruct (out_buffer s) as [b|] eqn:Eo; cbn [with_out ev_write ev_read].
  - exists b. destruct (Ho b eq_refl) as [Hb _]. simpl in He. destruct (queue_ b) eqn:Eq; [|done].
    destruct (ev_write s) eqn:Ew, (ev_read s); cbn [with_events out_buffer ev_write buffer_size schunk_size closed close_wait kernel wire]; by rewrite ?Eo, ?Ew.
  - exists (new_buffer (schunk_size s)). destruct (ev_write s) eqn:Ew, (ev_read s); by cbn [with_events with_out out_buffer ev_write buffer_size schunk_size closed close_wait kernel wire].
Qed.

(** The rest of the data goes into the empty buffer. *)
Lemma buffered s s0 d r (append_fn : Socket -> Z -> option Socket) : inv s -> empty_buffer (out_buffer s) = true -> buffer_size s <> 0 ->
  d <> [] -> zlen d <= buffer_size s -> r < zlen d -> kernel_step s s0 ->
  wire s0 = wire s ++ take (Z.to_nat (if 0 <? r then r else 0)) d ->
  (forall s1 b, out_buffer s1 = Some b -> buffer_wf b -> total_length b + zlen d < 2 ^ 32 ->
    exists b', append_fn s1 r = Some (with_out s1 (Some b')) /\ appended b b' (drop (Z.to_nat (if 0 <? r then r else 0)) d)) ->
  exists s', append_fn (alloc_out s0) r = Some s' /\ written s s' d (zlen d).
Proof.
  intros Hi He Hz Hd Hl Hr Hst Hw Ha. destruct (kernel_step_inv _ _ Hst Hi) as (Hi0 & Hp0 & Ho0 & Hc0 & _ & Hcw0 & Hl0).
  rewrite <- Ho0 in He. assert (buffer_size s0 = buffer_size s) as Hbs by (by destruct Hst as [-> _]).
  destruct (alloc_out_ok s0 Hi0 He) as (b & Hb & Hbw & Hq & Hev & H1 & H2 & H3 & H4 & H5 & H6).
  pose proof (iv_size s Hi) as Hsz. pose proof (bw_total b Hbw) as Ht. rewrite Hq in Ht. simpl in Ht.
  destruct (Ha (alloc_out s0) b Hb Hbw) as (b' & E & Hbw' & Ht' & Hb'); [lia|]. exists (with_out (alloc_out s0) (Some b')). split; [done|].
  assert (buffer_bytes b = []) as Hnil by (unfold buffer_bytes; by rewrite Hq). rewrite Hnil in Hb'.
  split; [|split_and!; cbn [with_out closed close_wait kernel]; [by rewrite H3|by rewrite H4|by rewrite H5; destruct Hst|]].
  - split; cbn [with_out buffer_size schunk_size out_buffer ev_write]; [by rewrite H1, Hbs|rewrite H2; apply Hi0| |by intros].
    intros b1 [= <-]. split; [done|]. unfold limit. cbn [with_out buffer_size]. rewrite H1, Hbs.
    destruct (Z.eqb_spec (buffer_size s) 0); [done|]. rewrite Ht', length_drop. lia.
  - left. split; [done|]. rewrite <- Hp0, (empty_pending s0 He). unfold pending. cbn [with_out wire out_buffer]. rewrite H6, Hw, Hb', <- app_assoc.
    simpl. by rewrite take_drop.
Qed.

Section write_func.
Context (d : list Z) (send_fn : Socket -> option (Socket * Z)) (append_fn : Socket -> Z -> option Socket) (good : Z -> Prop).
Hypothesis Hd : d <> [].
Hypothesis send_fn_ok : forall s, Forall orderly (kernel s) -> exists s' r, send_fn s = Some (s', r) /\ sent s s' d r.
Hypothesis append_fn_ok : forall s b r, good r -> r < zlen d -> out_buffer s = Some b -> buffer_wf b -> total_length b + zlen d < 2 ^ 32 ->
  exists b', append_fn s r = Some (with_out s (Some b')) /\ appended b b' (drop (Z.to_nat (if 0 <? r then r else 0)) d).
Hypothesis good_0 : forall r, r <= 0 -> good r.

Lemma do_send_ok fuel s s0 : inv s -> empty_buffer (out_buffer s) = true -> buffer_size s <> 0 -> zlen d <= buffer_size s ->
  Forall orderly (kernel s) -> (forall k, Sent k ∈ kernel s -> good (Z.max 1 k)) ->
  kernel_step s s0 -> wire s0 = wire s -> (length (kernel s0) <= fuel)%nat ->
  exists s' r, do_send fuel s0 (zlen d) send_fn append_fn = Some (s', r) /\ written s s' d r.
Proof.
  intros Hi He Hz Hl Hk Hg. revert s0. induction fuel as [|fuel IH]; intros s0 Hst0 Hw0 Hf; cbn [do_send];
    (destruct (send_fn_ok s0) as (s1 & r1 & -> & Hs); [eapply orderly_suffix; [apply Hst0|done]|]); cbn [mbind option_bind];
    pose proof (kernel_step_trans _ _ _ Hst0 (st_step _ _ _ _ Hs)) as Hst;
    (destruct (st_result _ _ _ _ Hs) as [(Hr & Hw & k & Hin & Hrk)|(-> & Hw & Herr)]; rewrite Hw0 in Hw).
  1,3: destruct (Z.ltb_spec 0 r1); [|lia]; destruct (Z.eqb_spec (zlen d) r1) as [<-|Hne];
    [exists s1, (zlen d); split; [done|]; destruct (kernel_step_inv _ _ Hst Hi) as (Hi1 & Hp1 & _ & ? & _ & ? & _);
     split_and!; [done|done|done|apply Hst|left; split; [done|]]; rewrite Hw, Hp1, (empty_pending s He), Nat2Z.id, take_ge by done; by rewrite app_nil_r
    |destruct (buffered s s1 d r1 append_fn) as (s' & -> & Hwr); try done; [lia| |intros; apply append_fn_ok; try done; [|lia]|];
     [by destruct (Z.ltb_spec 0 r1); [|lia]|replace r1 with (Z.max 1 k) by lia; apply Hg; destruct Hst0 as [_ [l ->]]; apply elem_of_app; by right|];
     cbn [mbind option_bind]; eauto].
  - assert (kernel s0 = []) as E0 by (destruct (kernel s0); [done|simpl in Hf; lia]). destruct (st_over _ _ _ _ Hs E0) as [_ Hea].
    cbn [Z.ltb Z.compare]. unfold catch_write_error. rewrite Hea. cbn [catch_error mbind option_bind].
    destruct (buffered s s1 d (-1) append_fn) as (s' & -> & Hwr); try done; [lia|simpl; by rewrite app_nil_r|intros; apply append_fn_ok; try done; [apply good_0; lia|lia]|].
    cbn [mbind option_bind]. eauto.
  - cbn [Z.ltb Z.compare]. assert (exists code, catch_write_error s1 = Some code) as [code Ec].
    { destruct Herr as [[En _]|(e & Ee & Ho)]; [unfold catch_write_error; rewrite En; eauto|by eapply catch_write_orderly]. }
    rewrite Ec. cbn [mbind option_bind].
    assert (exists s' r, match code with SW_WAIT => s ← append_fn (alloc_out s1) (-1); Some (s, zlen d) | _ =>
      match errno_ s1 with None => do_send fuel s1 (zlen d) send_fn append_fn | Some _ => Some (s1, SW_ERR) end end = Some (s', r) /\ written s s' d r) as Hgoal.
    { assert (exists s' r, match errno_ s1 with None => do_send fuel s1 (zlen d) send_fn append_fn | Some _ => Some (s1, SW_ERR) end = Some (s', r) /\ written s s' d r).
      { destruct (errno_ s1) as [e|] eqn:Ee.
        - exists s1, SW_ERR. split; [done|]. destruct (kernel_step_inv _ _ Hst Hi) as (Hi1 & Hp1 & _ & ? & _ & ? & _).
          split_and!; [done|done|done|apply Hst|by right].
        - apply IH; [done|done|]. destruct (decide (kernel s0 = [])) as [E0|E0]; [destruct (st_over _ _ _ _ Hs E0); congruence|].
          pose proof (st_used _ _ _ _ Hs E0). lia. }
      destruct code; try done.
      destruct (buffered s s1 d (-1) append_fn) as (s' & -> & Hwr); try done; [lia|simpl; by rewrite app_nil_r|intros; apply append_fn_ok; try done; [apply good_0; lia|lia]|].
      cbn [mbind option_bind]. eauto. }
    done.
Qed.

Lemma write_func_ok s : inv s -> zlen d < 2 ^ 32 -> Forall orderly (kernel s) -> (forall k, Sent k ∈ kernel s -> good (Z.max 1 k)) ->
  exists s' r, write_func s (zlen d) send_fn append_fn = Some (s', r) /\ written s s' d r.
Proof.
  intros Hi Hl Hk Hg. unfold write_func.
  set (s1 := if buffer_size s =? 0 then with_size s SW_SOCKET_BUFFER_SIZE else s). set (s2 := if nonblock s1 then s1 else with_nonblock s1).
  assert (inv s2 /\ out_buffer s2 = out_buffer s /\ buffer_size s2 = limit s /\ limit s <> 0 /\ closed s2 = closed s /\
    close_wait s2 = close_wait s /\ kernel s2 = kernel s /\ wire s2 = wire s) as (Hi2 & Ho & Hb & Hz & Hc & Hcw & Hkk & Hw).
  { destruct Hi as [H1 H2 H3 H4]. unfold s2, s1, limit in *. destruct (Z.eqb_spec (buffer_size s) 0) as [E|E]; cbn [with_size nonblock];
    destruct (nonblock s); cbn [with_nonblock with_size out_buffer buffer_size closed close_wait kernel wire];
    split_and!; try done; (split; cbn [with_nonblock with_size out_buffer buffer_size schunk_size ev_write]; try done;
      intros b Hb; destruct (H3 b Hb); split; [done|]; unfold limit; cbn [with_nonblock with_size buffer_size]; simpl; by rewrite ?(proj2 (Z.eqb_neq _ _) E)). }
  assert (forall s' r, written s2 s' d r -> written s s' d r) as Hback.
  { intros s' r (? & ? & ? & ? & ?). unfold written, pending in *. rewrite <- Ho, <- Hc, <- Hcw, <- Hkk, <- Hw. done. }
  assert (pending s2 = pending s) as Hp by (unfold pending; by rewrite Ho).
  clearbody s2. clear s1. rewrite uN_small by (unfold fits; lia).
  destruct (Z.ltb_spec (buffer_size s2) (zlen d)).
  { exists s2, SW_ERR. split; [done|]. apply Hback. split_and!; try done. by right. }
  destruct (empty_buffer (out_buffer s2)) eqn:Ee.
  - destruct (ssl_send_ s2).
    + destruct (buffered s2 s2 d 0 append_fn) as (s' & -> & Hwr); try done; [by rewrite Hb|destruct d; [done|simpl; lia]| | | |].
      * split; [by rewrite with_kernel_id|done].
      * simpl. by rewrite app_nil_r.
      * intros. apply append_fn_ok; try done; [by apply good_0|]. destruct d; [done|simpl; lia].
      * cbn [mbind option_bind]. eauto.
    + edestruct (do_send_ok (length (kernel s2)) s2 s2) as (s' & r & -> & Hwr); try done; [by rewrite Hb|by rewrite Hkk|by rewrite Hkk| |eauto].
      split; [by rewrite with_kernel_id|done].
  - destruct (out_buffer s2) as [b|] eqn:Eo; [|done]. cbn [mbind option_bind].
    destruct (Z.ltb_spec (buffer_size s2) (total_length b + zlen d)).
    { exists s2, SW_ERR. split; [done|]. apply Hback. split_and!; try done. by right. }
    destruct (iv_out s2 Hi2 b Eo) as [Hbw Hbl]. pose proof (iv_size s2 Hi2).
    destruct (append_fn_ok s2 b 0) as (b' & -> & Ha); [by apply good_0|destruct d; [done|simpl; lia]|done|done|lia|].
    cbn [mbind option_bind]. eexists _, _. split; [done|]. apply Hback. destruct Ha as (Hbw' & Ht' & Hb'). simpl in Ht', Hb'. rewrite drop_0 in *.
    split_and!; [|done|done|done|left; split; [done|]].
    + split; cbn [with_out buffer_size schunk_size out_buffer ev_write]; [apply Hi2|apply Hi2| |intros Hsv _; apply (iv_event s2 Hi2 Hsv); by rewrite Eo].
      intros b1 [= <-]. split; [done|]. unfold limit. cbn [with_out buffer_size]. rewrite Hb. destruct (Z.eqb_spec (limit s) 0); [done|]. lia.
    + cbn [with_out wire]. unfold pending. cbn [with_out out_buffer]. by rewrite Eo, Hb'.
Qed.
End write_func.

Lemma reactor_write_ok s d : inv s -> d <> [] -> zlen d < 2 ^ 32 -> Forall orderly (kernel s) ->
  exists s' r, write s d = Some (s', r) /\ written s s' d r.
Proof.
  intros Hi Hd Hl Hk. apply (write_func_ok d _ _ (fun _ => True)); try done.
  - intros s0 Hs0. by apply send_ok.
  - intros s0 b r _ Hr Hb Hw Ht. unfold append_to. rewrite Hb. cbn [mbind option_bind].
    set (o := if 0 <? r then r else 0). assert (0 <= o < zlen d) as Ho by (unfold o; destruct (Z.ltb_spec 0 r); [lia|destruct d; [done|simpl; lia]]).
    rewrite take_ge by (rewrite length_drop, uN_small by (unfold fits; lia); lia).
    destruct (buffer_append_ok b (drop (Z.to_nat o) d) Hw) as (b' & -> & Ha); [|rewrite length_drop; lia|].
    + intros Hx%(f_equal length). rewrite length_drop in Hx. simpl in Hx. lia.
    + cbn [mbind option_bind]. eauto.
Qed.

(** The kernel does not stop exactly between two elements. *)
Definition stops_inside (iov : list (list Z)) (a : answer) : Prop := match a with Sent k => ~ inner_boundary iov (Z.max 1 k) | _ => True end.

Lemma writev_ok s iov : inv s -> concat iov <> [] -> Forall (fun v => v <> []) iov -> iov_length iov < 2 ^ 31 -> ssl s = false ->
  Forall orderly (kernel s) -> Forall (stops_inside iov) (kernel s) ->
  exists s' r, writev s iov = Some (s', r) /\ written s s' (concat iov) r.
Proof.
  intros Hi Hd Hv Hl Hs Hk Hb. unfold writev. rewrite Hs. unfold iov_length in *.
  apply (write_func_ok (concat iov) _ _ (fun r => ~ inner_boundary iov r)); try done.
  - intros s0 Hs0. eexists _, _. split; [|by apply sys_send_ok]. f_equal. apply surjective_pairing.
  - intros s0 b r Hr Hlt Eb Hw Ht. unfold append_to. rewrite Eb. cbn [mbind option_bind].
    destruct (append_iov_ok b iov (if 0 <? r then r else 0) Hw Hv) as (b' & -> & Ha).
    + unfold iov_length. destruct (Z.ltb_spec 0 r); [lia|]. destruct (concat iov); [done|simpl; lia].
    + destruct (Z.ltb_spec 0 r); [done|]. intros (l & r' & _ & _ & ? & _). lia.
    + done.
    + cbn [mbind option_bind]. eauto.
  - intros r Hr (l & r' & _ & _ & ? & _). lia.
  - lia.
  - intros k Hin. rewrite Forall_forall in Hb. exact (Hb _ Hin).
Qed.

Lemma sendfile_ok s file offset len : inv s -> files = true -> 0 <= offset < zlen file -> 0 <= len -> zlen file < 2 ^ 63 ->
  let '(s', r) := tcp_sendfile_async s file offset len in
  inv s' /\ closed s' = closed s /\ close_wait s' = close_wait s /\ kernel s' = kernel s /\ wire s' = wire s /\
  (r = SW_OK /\ pending s' = pending s ++ take (Z.to_nat (if len =? 0 then zlen file - offset else len)) (drop (Z.to_nat offset) file) \/
   r = SW_ERR /\ s' = s).
Proof.
  intros Hi Hf Ho Hlen Hmax. unfold tcp_sendfile_async, sendfile_async, check_sendfile_parameters.
  destruct (Z.eqb_spec (zlen file) 0); [lia|]. set (e := if len =? 0 then zlen file else offset + len).
  destruct (Z.ltb_spec offset 0); [lia|]. cbn [orb]. destruct (Z.ltb_spec (zlen file) e); [simpl; split_and!; try done; by right|].
  assert (offset < e) as He by (unfold e; destruct (Z.eqb_spec len 0); lia).
  set (b := match out_buffer s with None => new_buffer SW_SEND_BUFFER_SIZE | Some b => b end).
  assert (buffer_wf b /\ (server = false -> total_length b <= limit s) /\ pending s = buffer_bytes b) as (Hw & Hl & Hp).
  { unfold b, pending. pose proof (iv_size s Hi). destruct (out_buffer s) as [b0|] eqn:Eo; [destruct (iv_out s Hi b0 Eo); done|].
    split_and!; [apply new_buffer_wf; done|intros _; unfold limit; simpl; destruct (Z.eqb_spec (buffer_size s) 0); unfold SW_SOCKET_BUFFER_SIZE; lia|done]. }
  set (c := mkChunk TYPE_SENDFILE 0 0 (v_ptr (mkTask file offset e 0)) 0).
  assert (chunk_wf c) as Hcw by (constructor; simpl; done || lia).
  pose proof (buffer_wf_snoc b c Hw Hcw) as Hs. cbn [clength c] in Hs. rewrite Z.add_0_r in Hs. specialize (Hs (bw_bound b Hw)).
  set (s1 := with_out s _). cbn [SW_OK Z.ltb Z.compare]. set (s2 := if ev_write s1 then s1 else add_write_event s1).
  assert (ev_write s2 = true /\ out_buffer s2 = out_buffer s1 /\ buffer_size s2 = buffer_size s /\ schunk_size s2 = schunk_size s /\
    closed s2 = closed s /\ close_wait s2 = close_wait s /\ kernel s2 = kernel s /\ wire s2 = wire s) as (K1 & K2 & K3 & K4 & K5 & K6 & K7 & K8).
  { unfold s2, add_write_event. destruct (ev_write s1) eqn:Ew; [done|]. by destruct (ev_read s1). }
  split_and!; try done.
  - split; [by rewrite K3; apply Hi|by rewrite K4; apply Hi| |done]. rewrite K2. intros b1 [= <-]. split; [exact Hs|].
    unfold limit. by rewrite K3.
  - left. split; [done|]. unfold pending at 1. rewrite K2. unfold s1. cbn [with_out out_buffer]. rewrite buffer_bytes_snoc, Hp. f_equal.
    unfold chunk_bytes, c. cbn [cvalue tend tbegin tfile]. f_equal. unfold e. destruct (Z.eqb_spec len 0); f_equal; lia.
Qed.

(** Changes of the chunk at the front. *)
Lemma front_pop s b c q : inv s -> out_buffer s = Some b -> queue_ b = c :: q ->
  exists s' b', pop_out s = Some s' /\ s' = with_out s (Some b') /\ queue_ b' = q /\ inv s' /\ pending s = chunk_bytes c ++ pending s'.
Proof.
  intros Hi Eo Eq. destruct (iv_out s Hi b Eo) as [[Hc Hf Ht Hb] Hl]. rewrite Eq in Hf, Ht. apply Forall_cons in Hf as [Hcw Hf].
  simpl in Ht. pose proof (queued_nonneg _ Hf). assert (0 <= clength c) by (destruct Hcw; simpl; lia).
  unfold pop_out, pop. rewrite Eo. cbn [mbind option_bind]. rewrite Eq. cbn [mbind option_bind]. rewrite uN_small by (unfold fits; lia).
  eexists _, _. split_and!; [done|done|done| |].
  - split; cbn [with_out buffer_size schunk_size out_buffer ev_write]; [apply Hi|apply Hi| |intros Hsv _; apply (iv_event s Hi Hsv); rewrite Eo; simpl; by rewrite Eq].
    intros b1 [= <-]. cbn [total_length]. split; [split; cbn [bchunk_size queue_ total_length]; done || lia|]. unfold limit in *. cbn [with_out buffer_size]. intros Hsv. specialize (Hl Hsv). lia.
  - unfold pending, buffer_bytes. cbn [with_out out_buffer queue_]. by rewrite Eo, Eq.
Qed.

Lemma front_put s b c q c' : inv s -> out_buffer s = Some b -> queue_ b = c :: q -> chunk_wf c' -> clength c' = clength c ->
  exists s' b', put_front s c' = Some s' /\ s' = with_out s (Some b') /\ queue_ b' = c' :: q /\ inv s' /\ pending s' = chunk_bytes c' ++ concat (chunk_bytes <$> q).
Proof.
  intros Hi Eo Eq Hcw' Hlen. destruct (iv_out s Hi b Eo) as [[Hc Hf Ht Hb] Hl]. rewrite Eq in Hf, Ht. apply Forall_cons in Hf as [Hcw Hf].
  unfold put_front. rewrite Eo. cbn [mbind option_bind]. rewrite Eq. eexists _, _. split_and!; [done|done|done| |done].
  split; cbn [with_out buffer_size schunk_size out_buffer ev_write]; [apply Hi|apply Hi| |intros Hsv _; apply (iv_event s Hi Hsv); rewrite Eo; simpl; by rewrite Eq].
  intros b1 [= <-]. split; [|unfold limit in *; cbn [with_out buffer_size total_length]; done].
  split; cbn [bchunk_size queue_ total_length]; [done|by constructor| |done]. simpl in *. lia.
Qed.

Lemma with_waits_inv s a b : inv s -> inv (with_waits s a b).
Proof. intros [? ? ? ?]. by split. Qed.

(** One turn of the loop that sends. *)
Record handled (s s' : Socket) (r : Z) : Prop := {
  hd_inv : inv s';
  hd_bytes : wire s' ++ pending s' = wire s ++ pending s;
  hd_kernel : kernel s' `suffix_of` kernel s;
  hd_closed : closed s' = closed s;
  hd_result :
    r = SW_OK /\ close_wait s' = close_wait s /\ (queue_length s' + length (kernel s') < queue_length s + length (kernel s))%nat \/
    r = SW_ERR /\ (close_wait s' = true \/ send_wait s' = true /\ close_wait s' = close_wait s);
  hd_progress : Forall takes (kernel s) -> close_wait s' = close_wait s /\
    (kernel s' = kernel s /\ wire s' = wire s /\ (kernel s <> [] -> r = SW_OK) \/ zlen (wire s) < zlen (wire s'));
  hd_wire : wire s `prefix_of` wire s';
}.


(** The bytes of a chunk of data, and of a chunk of a file, when some of them were sent. *)
Lemma data_rest len off m size r : 0 <= off -> 0 <= r -> off + r <= len -> len <= zlen m ->
  chunk_bytes (mkChunk TYPE_DATA len off (v_str m) size) =
  take (Z.to_nat r) (chunk_bytes (mkChunk TYPE_DATA len off (v_str m) size)) ++ chunk_bytes (mkChunk TYPE_DATA len (off + r) (v_str m) size).
Proof.
  intros. unfold chunk_bytes. cbn [cvalue coffset clength]. rewrite Z2Nat.inj_add by lia. rewrite <- drop_drop. by rewrite take_drop.
Qed.

Lemma handle_send_ok s b c q len off m size : inv s -> Forall orderly (kernel s) -> out_buffer s = Some b -> queue_ b = c :: q ->
  c = mkChunk TYPE_DATA len off (v_str m) size -> exists s' r, handle_send s c = Some (s', r) /\ handled s s' r.
Proof.
  intros Hi Hk Eo Eq Ec. destruct (iv_out s Hi b Eo) as [Hbw _]. pose proof (bw_chunks b Hbw) as Hf. rewrite Eq in Hf. apply Forall_cons in Hf as [Hcw _].
  assert (0 <= off <= len /\ len <= zlen m /\ len < 2 ^ 32) as (Ho & Hm & H32) by (rewrite Ec in Hcw; inversion Hcw; done).
  assert (forall s1, inv s1 -> out_buffer s1 = Some b -> queue_length s1 = length (c :: q)) as Hql by (intros s1 _ E1; unfold queue_length; by rewrite E1, Eq).
  unfold handle_send. replace (clength c) with len by (by rewrite Ec). replace (coffset c) with off by (by rewrite Ec). rewrite uN_small by (unfold fits; lia).
  destruct (Z.eqb_spec (len - off) 0) as [Hz|Hz].
  - destruct (front_pop s b c q Hi Eo Eq) as (s' & b' & -> & -> & Hq' & Hi' & Hp). cbn [mbind option_bind]. eexists _, _. split; [done|].
    assert (chunk_bytes c = []) as Hnil.
    { rewrite Ec. unfold chunk_bytes. cbn [cvalue coffset clength]. apply drop_ge. rewrite length_take. lia. }
    rewrite Hnil in Hp. split; [done|by rewrite Hp|done|done| |intros _; split; [done|by left]|done]. left. split_and!; [done|done|].
    rewrite (Hql s Hi Eo). unfold queue_length. cbn [with_out out_buffer kernel]. rewrite Hq'. simpl. lia.
  - replace (cvalue c) with (v_str m) by (by rewrite Ec). cbn [mbind option_bind]. destruct (zsub_in_bounds m off (len - off)) as [d Hd]; [lia..|]. rewrite Hd. cbn [mbind option_bind].
    pose proof (zsub_length _ _ _ _ Hd) as Hdl. assert (d = chunk_bytes c) as Hdc.
    { rewrite Ec. unfold chunk_bytes. cbn [cvalue coffset clength]. apply zsub_Some in Hd as (_ & _ & _ & ->). rewrite skipn_firstn_comm. f_equal. lia. }
    destruct (send_ok s d) as (s1 & r & -> & Hs); [intros ->; simpl in Hdl; lia|done|]. cbn [mbind option_bind].
    destruct Hs as [Hst Hres Hu Hov Htk]. destruct (kernel_step_inv _ _ Hst Hi) as (Hi1 & Hp1 & Eo1 & Hc1 & _ & Hcw1 & _). rewrite Eo in Eo1.
    assert (pending s = chunk_bytes c ++ concat (chunk_bytes <$> q)) as Hps by (unfold pending, buffer_bytes; by rewrite Eo, Eq).
    assert (forall s', kernel s' = kernel s1 -> wire s' = wire s1 -> r < 0 -> close_wait s' = close_wait s1 -> forall r', (kernel s = [] -> r' = SW_ERR) ->
      Forall takes (kernel s) -> close_wait s' = close_wait s /\ (kernel s' = kernel s /\ wire s' = wire s /\ (kernel s <> [] -> r' = SW_OK) \/ zlen (wire s) < zlen (wire s'))) as Hprog.
    { intros s' Ek' Ew' Hr0 Ecw r' Hr' Hall. destruct (decide (kernel s = [])) as [E0|E0]; [|specialize (Htk Hall E0); lia].
      split; [congruence|]. left. destruct Hst as [_ Hsuf]. rewrite E0 in Hsuf. apply suffix_nil_inv in Hsuf. destruct Hres as [[? _]|(_ & Hw & _)]; [lia|].
      split_and!; congruence. }
    destruct Hres as [(Hr & Hw & _)|(-> & Hw & Herr)].
    + assert (kernel s <> []) as Hne by (intros E0; destruct (Hov E0); lia). specialize (Hu Hne).
      destruct (Z.ltb_spec r 0); [lia|]. assert (zlen (wire s) < zlen (wire s1)) as Hgrow by (rewrite Hw, length_app, length_take; lia).
      destruct (Z.eqb_spec r (len - off)) as [->|Hpart].
      * destruct (front_pop s1 b c q Hi1 Eo1 Eq) as (s' & b' & -> & -> & Hq' & Hi' & Hp). cbn [mbind option_bind]. eexists _, _. split; [done|].
        rewrite take_ge in Hw by lia. split; [done| |apply Hst|done| |intros _; split; [done|by right]|cbn [with_waits with_out wire]; rewrite ?Hw2, ?Hw; by eexists].
        -- rewrite <- Hp1, Hp. cbn [with_out wire]. rewrite Hw, Hdc, <- app_assoc. done.
        -- left. split_and!; [done|done|]. rewrite (Hql s Hi Eo). unfold queue_length. cbn [with_out out_buffer kernel]. rewrite Hq'. simpl. lia.
      * set (c' := mkChunk _ _ _ _ _). assert (u32 (off + r) = off + r) as Hu32 by (apply uN_small; unfold fits; lia).
        assert (c' = mkChunk TYPE_DATA len (off + r) (v_str m) size) as Ec' by (unfold c'; rewrite Hu32; by rewrite Ec). clearbody c'.
        assert (chunk_wf c') as Hcw' by (rewrite Ec'; constructor; lia).
        destruct (front_put s1 b c q c' Hi1 Eo1 Eq Hcw') as (s' & b' & -> & -> & Hq' & Hi' & Hp); [by rewrite Ec, Ec'|]. cbn [mbind option_bind].
        destruct (Z.ltb_spec r (len - off)); [|lia]. eexists _, _. split; [done|].
        split; [by apply with_waits_inv| |apply Hst|done|right; split; [done|by right]|intros _; split; [done|by right]|cbn [with_waits with_out wire]; rewrite ?Hw2, ?Hw; by eexists].
        change (pending (with_waits ?s _ _)) with (pending s). rewrite Hp, Hps. cbn [with_waits with_out wire]. rewrite Hw, Hdc, <- !app_assoc. f_equal.
        rewrite app_assoc. f_equal. rewrite Ec, Ec'. symmetry. apply data_rest; lia.
    + cbn [Z.ltb Z.compare]. assert (exists code, catch_write_error s1 = Some code) as [code Ecode].
      { destruct Herr as [[En _]|(e & Ee & Hoe)]; [unfold catch_write_error; rewrite En; eauto|by eapply catch_write_orderly]. }
      rewrite Ecode. cbn [mbind option_bind]. assert (wire s1 ++ pending s1 = wire s ++ pending s) as Hb1 by congruence.
      assert (handled s s1 SW_OK \/ kernel s = []) as Hok.
      { destruct (decide (kernel s = [])) as [E0|E0]; [by right|left]. specialize (Hu E0). split; [done|done|apply Hst|done| |apply Hprog; done|by rewrite Hw].
        left. split_and!; [done|done|]. rewrite (Hql s Hi Eo), (Hql s1 Hi1 Eo1). lia. }
      assert (kernel s = [] -> code = SW_WAIT) as Hwait by (intros E0; destruct (Hov E0) as [_ He]; unfold catch_write_error in Ecode; rewrite He in Ecode; by injection Ecode).
      destruct code; try (destruct Hok as [Hok|E0]; [by eexists _, _|specialize (Hwait E0); done]).
      * eexists _, _. split; [done|]. split; [by apply with_waits_inv|done|apply Hst|done|right; split; [done|by left]| |cbn [with_waits wire]; by rewrite ?Hw2, Hw].
        intros Hall. destruct (decide (kernel s = [])) as [E0|E0]; [specialize (Hwait E0); done|specialize (Htk Hall E0); lia].
      * eexists _, _. split; [done|]. split; [by apply with_waits_inv|done|apply Hst|done|right; split; [done|by right]| |cbn [with_waits wire]; by rewrite ?Hw2, Hw].
        apply Hprog; done.
Qed.

Lemma handle_sendfile_ok cork_ok s b c q t size : inv s -> Forall orderly (kernel s) -> out_buffer s = Some b -> queue_ b = c :: q ->
  c = mkChunk TYPE_SENDFILE 0 0 (v_ptr t) size -> exists s' r, handle_sendfile cork_ok s c = Some (s', r) /\ handled s s' r.
Proof.
  intros Hi Hk Eo Eq Ec. destruct (iv_out s Hi b Eo) as [Hbw _]. pose proof (bw_chunks b Hbw) as Hf. rewrite Eq in Hf. apply Forall_cons in Hf as [Hcw _].
  assert (files = true /\ 0 <= tbegin t < tend t /\ tend t <= zlen (tfile t) /\ tend t < 2 ^ 63) as (Hfl & Hb & He & H63) by (rewrite Ec in Hcw; inversion Hcw; done).
  unfold handle_sendfile. replace (cvalue c) with (v_ptr t) by (by rewrite Ec). cbn [mbind option_bind].
  set (t1 := if corked t =? 0 then _ else t). assert (tfile t1 = tfile t /\ tbegin t1 = tbegin t /\ tend t1 = tend t) as (Ef & Eb & Ee) by (unfold t1; by destruct (corked t =? 0)).
  clearbody t1. rewrite Eb, Ee. set (n := get_sendfile_chunk_size (tbegin t) (tend t)).
  assert (0 < n <= tend t - tbegin t) as Hn.
  { unfold n, get_sendfile_chunk_size, SW_SENDFILE_CHUNK_SIZE. rewrite uN_small by (unfold fits; lia). destruct (Z.ltb_spec 65536 (tend t - tbegin t)); lia. }
  clearbody n. unfold sys_sendfile. rewrite Ef, Eb. set (d := take (Z.to_nat n) (drop (Z.to_nat (tbegin t)) (tfile t))).
  assert (zlen d = n) as Hd by (unfold d; rewrite length_take, length_drop; lia). assert (d <> []) as Hdn by (intros Hx; rewrite Hx in Hd; simpl in Hd; lia).
  assert (chunk_bytes c = d ++ take (Z.to_nat (tend t - tbegin t - n)) (drop (Z.to_nat (tbegin t + n)) (tfile t))) as Hcb.
  { rewrite Ec. unfold chunk_bytes, d. cbn [cvalue]. rewrite Z2Nat.inj_add, <- drop_drop by lia. rewrite take_take_drop. f_equal. lia. }
  clearbody d. pose proof (sys_send_ok s d Hdn Hk) as Hs. destruct d as [|x d'] eqn:Ed; [done|]. rewrite <- Ed in *. destruct (sys_send s d) as [s1 r] eqn:Esnd. cbn [fst snd] in Hs.
  destruct Hs as [Hst Hres Hu Hov Htk]. destruct (kernel_step_inv _ _ Hst Hi) as (Hi1 & Hp1 & Eo1 & Hc1 & _ & Hcw1 & _). rewrite Eo in Eo1.
  assert (pending s = chunk_bytes c ++ concat (chunk_bytes <$> q)) as Hps by (unfold pending, buffer_bytes; by rewrite Eo, Eq).
  assert (queue_length s = S (length q)) as Hql by (unfold queue_length; by rewrite Eo, Eq).
  (* the chunk stays at the front, with its task at [tbegin t + k] *)
  assert (forall k tk, 0 <= k < tend t - tbegin t -> tfile tk = tfile t -> tbegin tk = tbegin t + k -> tend tk = tend t ->
    exists s2, put_front s1 (mkChunk (ctype c) (clength c) (coffset c) (v_ptr tk) (csize c)) = Some s2 /\ inv s2 /\ kernel s2 = kernel s1 /\
      closed s2 = closed s /\ close_wait s2 = close_wait s /\ wire s2 = wire s1 /\ queue_length s2 = queue_length s /\
      pending s = take (Z.to_nat k) (chunk_bytes c) ++ pending s2) as Hkeep.
  { intros k tk Hkk Etf Etb Ete. set (c' := mkChunk _ _ _ _ _).
    assert (c' = mkChunk TYPE_SENDFILE 0 0 (v_ptr tk) size) as Ec' by (unfold c'; by rewrite Ec). clearbody c'.
    assert (chunk_wf c') as Hcw' by (rewrite Ec'; constructor; rewrite ?Etf, ?Etb, ?Ete; done || lia).
    destruct (front_put s1 b c q c' Hi1 Eo1 Eq Hcw') as (s2 & b' & -> & -> & Hq' & Hi' & Hp); [by rewrite Ec, Ec'|].
    eexists. split_and!; try done; [rewrite Hql; unfold queue_length; cbn [with_out out_buffer]; by rewrite Hq'|]. rewrite Hp, Hps, app_assoc. f_equal.
    rewrite Ec, Ec'. unfold chunk_bytes. cbn [cvalue]. rewrite Etf, Etb, Ete, take_take, Z2Nat.inj_add, <- drop_drop by lia.
    rewrite Nat.min_l by lia. rewrite take_take_drop. f_equal. lia. }
  destruct Hres as [(Hr & Hw & _)|(-> & Hw & Herr)].
  - assert (kernel s <> []) as Hne by (intros E0; destruct (Hov E0); lia). specialize (Hu Hne).
    assert (zlen (wire s) < zlen (wire s1)) as Hgrow by (rewrite Hw, length_app, length_take; lia).
    destruct (Z.ltb_spec 0 r); [|lia]. cbn [tbegin tend]. destruct (Z.leb_spec r 0); [lia|]. cbn [mbind option_bind]. rewrite Ee.
    destruct (Z.eqb_spec (tbegin t + r) (tend t)) as [Hend|Hend].
    + destruct (front_pop s1 b c q Hi1 Eo1 Eq) as (s' & b' & -> & -> & Hq' & Hi' & Hp). cbn [mbind option_bind]. eexists _, _. split; [done|].
      split; [done| |apply Hst|done| |intros _; split; [done|by right]|cbn [with_waits with_out wire]; rewrite ?Hw2, ?Hw; by eexists].
      * rewrite <- Hp1, Hp, Hcb. cbn [with_out wire]. rewrite Hw, take_ge by lia. replace (tend t - tbegin t - n) with 0 by lia.
        simpl. rewrite app_nil_r, <- app_assoc. done.
      * left. split_and!; [done|done|]. rewrite Hql. unfold queue_length. cbn [with_out out_buffer kernel]. rewrite Hq'. lia.
    + destruct (Hkeep r (mkTask (tfile t) (tbegin t + r) (tend t) (corked t1))) as (s2 & E2 & Hi2 & Hk2 & Hc2 & Hcw2 & Hw2 & Hq2 & Hp2); [lia|done..|].
      rewrite E2. cbn [mbind option_bind]. eexists _, _. split; [done|].
      split; [done| |rewrite Hk2; apply Hst|done|left; split_and!; [done|done|rewrite Hk2, Hq2; lia]|intros _; split; [done|right; by rewrite Hw2]|cbn [with_waits with_out wire]; rewrite ?Hw2, ?Hw; by eexists].
      rewrite Hp2, Hw2, Hw, <- app_assoc. do 2 f_equal. rewrite Hcb, take_app_le by lia. done.
  - cbn [Z.ltb Z.leb Z.compare]. destruct Herr as [[_ Hff]|(e & Een & Hoe)]; [congruence|].
    destruct (catch_write_orderly s1 e Een Hoe) as [code Ecode]. rewrite Ecode. cbn [mbind option_bind]. rewrite Eb, Ee.
    assert (code <> SW_ERROR) as Hnerr.
    { intros ->. unfold catch_write_error in Ecode. rewrite Een in Ecode. destruct e; simpl in Ecode, Hoe; congruence. }
    assert (kernel s = [] -> code = SW_WAIT) as Hwait by (intros E0; destruct (Hov E0) as [_ Hea]; unfold catch_write_error in Ecode; rewrite Hea in Ecode; by injection Ecode).
    destruct (Hkeep 0 t1) as (s2 & E2 & Hi2 & Hk2 & Hc2 & Hcw2 & Hw2 & Hq2 & Hp2); [lia|done|lia|done|]. simpl in Hp2.
    assert (wire s2 ++ pending s2 = wire s ++ pending s) as Hbytes by congruence.
    destruct code; [| | |done].
    + destruct (Z.eqb_spec (tbegin t) (tend t)); [lia|]. rewrite E2. cbn [mbind option_bind].
      assert (kernel s <> []) as Hne by (intros E0; specialize (Hwait E0); done). eexists _, _. split; [done|].
      split; [done|done|rewrite Hk2; apply Hst|done|left; split_and!; [done|done|rewrite Hk2, Hq2; specialize (Hu Hne); lia]| |cbn [with_waits wire]; by rewrite ?Hw2, Hw].
      intros Hall. specialize (Htk Hall Hne). lia.
    + rewrite E2. cbn [mbind option_bind]. eexists _, _. split; [done|].
      split; [by apply with_waits_inv|done|cbn [with_waits kernel]; rewrite Hk2; apply Hst|done|right; split; [done|by left]| |cbn [with_waits wire]; by rewrite ?Hw2, Hw].
      intros Hall. destruct (decide (kernel s = [])) as [E0|E0]; [specialize (Hwait E0); done|specialize (Htk Hall E0); lia].
    + rewrite E2. cbn [mbind option_bind]. eexists _, _. split; [done|].
      split; [by apply with_waits_inv|done|cbn [with_waits kernel]; rewrite Hk2; apply Hst|done|right; split; [done|by right]| |cbn [with_waits wire]; by rewrite ?Hw2, Hw].
      intros Hall. destruct (decide (kernel s = [])) as [E0|E0]; [|specialize (Htk Hall E0); lia]. split; [done|]. left. cbn [with_waits kernel wire].
      destruct Hst as [_ Hsuf]. rewrite E0 in *. apply suffix_nil_inv in Hsuf. split_and!; congruence.
Qed.

(** [Reactor::_writable_callback] *)
Lemma writable_loop_ok fuel cork_ok s : server = false -> inv s -> closed s = false -> close_wait s = false -> Forall orderly (kernel s) -> (queue_length s + length (kernel s) < fuel)%nat ->
  exists s' f, writable_loop fuel cork_ok s = Some (s', f) /\ inv s' /\ wire s' ++ pending s' = wire s ++ pending s /\
    wire s `prefix_of` wire s' /\ (closed s' = false -> close_wait s' = false) /\ (f = true -> empty_buffer (out_buffer s') = true /\ closed s' = false) /\
    (Forall takes (kernel s) -> closed s' = false /\ (kernel s <> [] -> pending s' = [] /\ f = true \/ zlen (wire s) < zlen (wire s'))).
Proof.
  intros Hsv. revert s. induction fuel as [|fuel IH]; intros s Hi Hc Hcw Hk Hf; [lia|]. cbn [writable_loop].
  destruct (empty_buffer (out_buffer s)) eqn:Ee.
  { exists s, true. split_and!; try done. intros _. split; [done|]. intros _. left. by split; [apply empty_pending|]. }
  destruct (out_buffer s) as [b|] eqn:Eo; [|done]. cbn [mbind option_bind]. simpl in Ee. destruct (queue_ b) as [|c q] eqn:Eq; [done|]. cbn [head mbind option_bind].
  destruct (iv_out s Hi b Eo) as [Hbw _]. pose proof (bw_chunks b Hbw) as Hfa. rewrite Eq in Hfa. apply Forall_cons in Hfa as [Hcwf _].
  assert (exists s1 r, (match ctype c with TYPE_SENDFILE => handle_sendfile cork_ok s c | _ => handle_send s c end) = Some (s1, r) /\ handled s s1 r /\ ctype c <> TYPE_CLOSE) as (s1 & r & Eh & Hh & Hnc).
  { destruct Hcwf as [len off m size|t size|size Hx]; [| |congruence].
    - destruct (handle_send_ok s b _ q len off m size Hi Hk Eo Eq eq_refl) as (s1 & r & E & Hh). by exists s1, r.
    - destruct (handle_sendfile_ok cork_ok s b _ q t size Hi Hk Eo Eq eq_refl) as (s1 & r & E & Hh). by exists s1, r. }
  destruct Hh as [Hi1 Hb1 Hk1 Hc1 Hres Hprog Hpre1].
  assert (exists s' f, ('(s, ret) ← (match ctype c with TYPE_SENDFILE => handle_sendfile cork_ok s c | _ => handle_send s c end);
    if ret <? 0 then if close_wait s then Some (with_closed s, false) else if send_wait s then Some (s, false) else writable_loop fuel cork_ok s
    else writable_loop fuel cork_ok s) = Some (s', f) /\ inv s' /\ wire s' ++ pending s' = wire s ++ pending s /\
    wire s `prefix_of` wire s' /\ (closed s' = false -> close_wait s' = false) /\ (f = true -> empty_buffer (out_buffer s') = true /\ closed s' = false) /\
    (Forall takes (kernel s) -> closed s' = false /\ (kernel s <> [] -> pending s' = [] /\ f = true \/ zlen (wire s) < zlen (wire s')))) as Hgoal.
  { rewrite Eh. cbn [mbind option_bind]. destruct Hres as [(-> & Hcw1 & Hm)|(-> & Hw)].
    - cbn [SW_OK Z.ltb Z.compare]. destruct (IH s1) as (s' & f & E & Hi' & Hb' & Hpre & Hcl' & Hfin & Hpr); [done|congruence|congruence|by eapply orderly_suffix|lia|].
      exists s', f. split_and!; [done|done|congruence|by etrans|done|done|]. intros Hall. destruct (Hprog Hall) as [_ Hp].
      assert (Forall takes (kernel s1)) as Hall1 by (destruct Hk1 as [l Hl]; rewrite Hl in Hall; by apply Forall_app in Hall as [_ ?]).
      destruct (Hpr Hall1) as [Hcl Hp']. split; [done|]. intros Hne. destruct Hp as [(Hkk & Hww & _)|Hgrow].
      + rewrite <- Hww. apply Hp'. by rewrite Hkk.
      + right. apply prefix_length in Hpre. lia.
    - cbn [SW_ERR Z.ltb Z.compare]. destruct (close_wait s1) eqn:Ecw.
      + exists (with_closed s1), false. split_and!; try done; [by destruct Hi1|]. intros Hall. destruct (Hprog Hall) as [? _]. congruence.
      + destruct Hw as [?|[-> ?]]; [done|]. exists s1, false. split_and!; try done. intros Hall. destruct (Hprog Hall) as [_ Hp]. split; [congruence|].
        intros Hne. destruct Hp as [(_ & _ & Hr)|?]; [specialize (Hr Hne); done|by right]. }
  by destruct (ctype c).
Qed.

Lemma remove_write_inv s : inv s -> empty_buffer (out_buffer s) = true -> inv (remove_write_event s).
Proof.
  intros [H1 H2 H3 H4] He. unfold remove_write_event. destruct (ev_read s);
    (split; cbn [with_events buffer_size schunk_size out_buffer ev_write]; try done; rewrite He; done).
Qed.

Lemma writable_callback_ok cork_ok s : server = false -> inv s -> closed s = false -> close_wait s = false -> Forall orderly (kernel s) ->
  exists s', writable_callback cork_ok s = Some s' /\ inv s' /\ wire s' ++ pending s' = wire s ++ pending s /\
    (closed s' = false -> close_wait s' = false) /\
    (Forall takes (kernel s) -> closed s' = false /\
      (kernel s <> [] -> pending s' = [] /\ ev_write s' = false \/ (length (pending s') < length (pending s))%nat)).
Proof.
  intros Hsv Hi Hc Hcw Hk. destruct (writable_loop_ok (S (queue_length s + length (kernel s))) cork_ok s Hsv Hi Hc Hcw Hk) as (s1 & f & E & Hi1 & Hb & _ & Hcl & Hf & Hp); [lia|].
  unfold writable_callback. rewrite E. cbn [mbind option_bind].
  assert (zlen (wire s) < zlen (wire s1) -> (length (pending s1) < length (pending s))%nat) as Hgrow by (apply (f_equal length) in Hb; rewrite !length_app in Hb; lia).
  destruct f.
  - destruct (Hf eq_refl) as [He1 Hc1]. rewrite He1. exists (remove_write_event s1).
    assert (wire (remove_write_event s1) = wire s1 /\ pending (remove_write_event s1) = pending s1 /\ closed (remove_write_event s1) = closed s1 /\
      close_wait (remove_write_event s1) = close_wait s1 /\ ev_write (remove_write_event s1) = false) as (E1 & E2 & E3 & E4 & E5)
      by (unfold remove_write_event; by destruct (ev_read s1)).
    split_and!; [done|by apply remove_write_inv|by rewrite E1, E2|by rewrite E3, E4|]. intros _. rewrite E3. split; [done|]. intros _. left.
    split; [by rewrite E2; apply empty_pending|done].
  - exists s1. split_and!; try done. intros Hall. destruct (Hp Hall) as [Hcl1 Hpr]. split; [done|]. intros Hne. destruct (Hpr Hne) as [[_ ?]|?]; [done|]. right. auto.
Qed.
End proof.

(** ** The output as a stream *)

Inductive op := OWrite (d : list Z) | OWritev (iov : list (list Z)) | OSendfile (file : list Z) (offset len : Z) | OWritable.

(** An operation, with what the kernel does during it; a closed socket takes none *)
Definition step `{Allocator} (cork_ok : bool) (s : Socket) (o : op) (ks : list answer) : option (Socket * Z) :=
  if closed s then Some (s, SW_ERR) else
  let s := with_kernel s (wire s) ks (errno_ s) in
  match o with
  | OWrite d => write s d
  | OWritev iov => writev s iov
  | OSendfile file offset len => Some (tcp_sendfile_async s file offset len)
  | OWritable => s ← writable_callback cork_ok s; Some (s, SW_ERR)
  end.
Fixpoint run `{Allocator} (cork_ok : bool) (s : Socket) (prog : list (op * list answer)) : option (Socket * list Z) :=
  match prog with
  | [] => Some (s, [])
  | (o, ks) :: prog => '(s, r) ← step cork_ok s o ks; '(s, rs) ← run cork_ok s prog; Some (s, r :: rs)
  end.

(** A new socket *)
Definition new_socket (size chunk : Z) (read tls : bool) : Socket :=
  mkSocket None size chunk false false tls false read false false false false false [] [] (Some NO_ERROR).

(** What an operation is asked to send, and what a program sends when its operations
    have these results *)
Definition bytes_of (o : op) : list Z :=
  match o with
  | OWrite d => d
  | OWritev iov => concat iov
  | OSendfile file offset len => take (Z.to_nat (if len =? 0 then zlen file - offset else len)) (drop (Z.to_nat offset) file)
  | OWritable => []
  end.
Fixpoint accepted (prog : list (op * list answer)) (rs : list Z) : list Z :=
  match prog, rs with (o, _) :: prog, r :: rs => (if 0 <=? r then bytes_of o else []) ++ accepted prog rs | _, _ => [] end.

Definition op_ok (files : bool) (p : op * list answer) : Prop :=
  Forall (orderly files) p.2 /\
  match p.1 with
  | OWrite d => d <> [] /\ zlen d < 2 ^ 32
  | OWritev iov => concat iov <> [] /\ Forall (fun v => v <> []) iov /\ iov_length iov < 2 ^ 31 /\ Forall (stops_inside iov) p.2
  | OSendfile file offset len => files = true /\ 0 <= offset < zlen file /\ 0 <= len /\ zlen file < 2 ^ 63
  | OWritable => True
  end.

Section stream.
Context `{Allocator} (files cork_ok : bool).

Lemma out_step_ok s o ks : inv files false s -> (closed s = false -> close_wait s = false) -> op_ok files (o, ks) ->
  exists s' r, step cork_ok s o ks = Some (s', r) /\ inv files false s' /\ (closed s' = false -> close_wait s' = false) /\
    wire s' ++ pending s' = wire s ++ pending s ++ (if 0 <=? r then bytes_of o else []).
Proof.
  intros Hi Hcw [Hk Ho]. unfold step. destruct (closed s) eqn:Hc.
  { exists s, SW_ERR. split_and!; try done; [congruence|]. simpl. by rewrite app_nil_r. }
  specialize (Hcw eq_refl). set (s0 := with_kernel s (wire s) ks (errno_ s)).
  assert (inv files false s0) as Hi0 by (by destruct Hi). cbn [fst snd] in Hk, Ho.
  assert (forall s' d r, written files false s0 s' d r -> inv files false s' /\ (closed s' = false -> close_wait s' = false) /\
    wire s' ++ pending s' = wire s ++ pending s ++ (if 0 <=? r then d else [])) as Hwr.
  { intros s' d r (Hi' & Hc' & Hcw' & _ & Hor). split_and!; [done|by rewrite Hcw'|]. destruct Hor as [[-> E]|(-> & E1 & E2)].
    - destruct (Z.leb_spec 0 (zlen d)); [done|lia].
    - simpl. rewrite app_nil_r, E1, E2. done. }
  destruct o as [d|iov|file offset len|].
  - destruct Ho as [Hd Hl]. destruct (reactor_write_ok files false s0 d Hi0 Hd Hl Hk) as (s' & r & E & Hw). exists s', r. split; [done|]. by apply Hwr.
  - destruct Ho as (Hd & Hv & Hl & Hst). destruct (ssl s) eqn:Es.
    + exists s0, SW_ERR. unfold writev. replace (ssl s0) with true by done. split_and!; try done. simpl. by rewrite app_nil_r.
    + destruct (writev_ok files false s0 iov Hi0 Hd Hv Hl Es Hk Hst) as (s' & r & E & Hw). exists s', r. split; [done|]. by apply Hwr.
  - destruct Ho as (Hf & Hoff & Hlen & Hmax). pose proof (sendfile_ok files false s0 file offset len Hi0 Hf Hoff Hlen Hmax) as Hs.
    destruct (tcp_sendfile_async s0 file offset len) as [s' r]. exists s', r. destruct Hs as (Hi' & Hc' & Hcw' & _ & Hw' & Hor).
    split_and!; [done|done|by rewrite Hcw'|]. rewrite Hw'. destruct Hor as [[-> ->]|[-> ->]]; [done|]. simpl. by rewrite app_nil_r.
  - destruct (writable_callback_ok files false cork_ok s0 eq_refl Hi0 Hc Hcw Hk) as (s' & -> & Hi' & Hb & Hcl & _). cbn [mbind option_bind].
    exists s', SW_ERR. split_and!; try done. simpl. by rewrite app_nil_r, Hb.
Qed.

Lemma run_ok s prog : inv files false s -> (closed s = false -> close_wait s = false) -> Forall (op_ok files) prog ->
  exists s' rs, run cork_ok s prog = Some (s', rs) /\ inv files false s' /\ (closed s' = false -> close_wait s' = false) /\
    wire s' ++ pending s' = wire s ++ pending s ++ accepted prog rs.
Proof.
  revert s. induction prog as [|[o ks] prog IH]; intros s Hi Hc Hp.
  { exists s, []. split_and!; try done. simpl. by rewrite app_nil_r. }
  apply Forall_cons in Hp as [Ho Hp]. destruct (out_step_ok s o ks Hi Hc Ho) as (s1 & r & E1 & Hi1 & Hc1 & Hb1).
  destruct (IH s1 Hi1 Hc1 Hp) as (s' & rs & E' & Hi' & Hc' & Hb'). exists s', (r :: rs). cbn [run]. rewrite E1. cbn [mbind option_bind]. rewrite E'.
  cbn [mbind option_bind]. split_and!; try done. cbn [accepted]. rewrite Hb', app_assoc, Hb1, <- !app_assoc. done.
Qed.

Lemma new_socket_inv size chunk read tls : 0 <= size < 2 ^ 32 -> 0 <= chunk < 2 ^ 32 -> inv files false (new_socket size chunk read tls).
Proof. intros. by split. Qed.

Lemma run_app s p1 p2 s1 r1 : run cork_ok s p1 = Some (s1, r1) -> run cork_ok s (p1 ++ p2) = '(s2, r2) ← run cork_ok s1 p2; Some (s2, r1 ++ r2).
Proof.
  revert s r1. induction p1 as [|[o ks] p1 IH]; intros s r1 E; cbn [run app] in *.
  - injection E as <- <-. by destruct (run cork_ok s p2) as [[]|].
  - destruct (step cork_ok s o ks) as [[s0 r]|]; [|done]. cbn [mbind option_bind] in *. destruct (run cork_ok s0 p1) as [[s1' rs]|] eqn:E1; [|done].
    cbn [mbind option_bind] in E. injection E as -> <-. rewrite (IH s0 rs E1). by destruct (run cork_ok s1 p2) as [[]|].
Qed.

(** Calls of the write event, during each of which the kernel takes something. *)
Lemma drains s ns : inv files false s -> closed s = false -> close_wait s = false -> (length (pending s) < length ns)%nat ->
  exists s' rs, run cork_ok s ((fun k => (OWritable, [Sent k])) <$> ns) = Some (s', rs) /\ pending s' = [] /\ wire s' = wire s ++ pending s /\
    ev_write s' = false /\ closed s' = false.
Proof.
  revert s. induction ns as [|k ns IH]; intros s Hi Hc Hcw Hl; [simpl in Hl; lia|]. cbn [fmap list_fmap run]. unfold step. rewrite Hc.
  set (s0 := with_kernel s (wire s) [Sent k] (errno_ s)). assert (inv files false s0) as Hi0 by (by destruct Hi).
  destruct (writable_callback_ok files false cork_ok s0 eq_refl Hi0 Hc Hcw) as (s1 & -> & Hi1 & Hb & Hcl & Hp); [by repeat constructor|]. cbn [mbind option_bind].
  destruct Hp as [Hc1 Hp]; [by repeat constructor|]. specialize (Hp ltac:(done)). change (wire s0 ++ pending s0) with (wire s ++ pending s) in Hb.
  change (pending s0) with (pending s) in Hp. destruct ns as [|k' ns].
  - destruct Hp as [[Hnil Hev]|Hlt]; [|simpl in Hl; lia]. exists s1, [SW_ERR]. split_and!; try done. rewrite <- Hb, Hnil. by rewrite app_nil_r.
  - destruct (IH s1 Hi1 Hc1 (Hcl Hc1)) as (s' & rs & E & Hpn & Hw & Hev & Hc'); [destruct Hp as [[-> _]|?]; cbn [length] in *; lia|].
    fold (fmap (M := list) (fun k => (OWritable, [Sent k]))) in *. change (list_fmap _ _ ?f ?l) with (f <$> l). rewrite E. cbn [mbind option_bind]. eexists _, _. split; [done|]. split_and!; try done. by rewrite Hw.
Qed.
End stream.

(** ** Theorems *)

(** C14: the output of a connection of the reactor.  For the programs of writes, vectored writes, files and write events of
    [op_ok] no operation loops or touches memory outside of the chunks; what went to the
    kernel followed by what is queued is exactly the data of the calls that succeeded, in
    their order (a call succeeds completely or not at all), the queue never exceeds the
    buffer size, and while something is queued the write event is set.  The conditions:
    the kernel takes any part of the data, refuses it, or fails, but not with EFAULT; it
    does not cut a vectored write exactly between two elements
    ([writev_boundary_corrupts]); a program that sends files meets neither EINTR nor an
    error that [catch_error] does not know ([sendfile_interrupted]), and sends a file
    from a position before its end ([sendfile_at_end_stuck]); data and the elements of a
    vector are not empty, a write is shorter than 4 GB and a vector shorter than 2 GB. *)
Theorem output_in_order `{Allocator} files cork_ok size chunk read tls prog :
  0 <= size < 2 ^ 32 -> 0 <= chunk < 2 ^ 32 -> Forall (op_ok files) prog ->
  exists s rs, run cork_ok (new_socket size chunk read tls) prog = Some (s, rs) /\ wire s ++ pending s = accepted prog rs /\
    (forall b, out_buffer s = Some b -> queued (queue_ b) <= limit s) /\ (pending s <> [] -> ev_write s = true).
Proof.
  intros Hs Hc Hp. destruct (run_ok files cork_ok (new_socket size chunk read tls) prog) as (s & rs & E & Hi & _ & Hb); [by apply new_socket_inv|done|done|].
  exists s, rs. split_and!; [done|done| |].
  - intros b Hb'. destruct (iv_out _ _ _ Hi b Hb') as [Hw Hl]. rewrite <- (bw_total _ _ _ Hw). by apply Hl.
  - intros Hne. apply (iv_event _ _ _ Hi eq_refl). destruct (empty_buffer (out_buffer s)) eqn:He; [|done]. by apply empty_pending in He.
Qed.

(** C34: nothing stays queued.  After a program of the kind of [output_in_order] (the
    conditions of [op_ok]: no EFAULT, no vectored write cut between two elements, no EINTR
    and no unknown error when files are sent, files from a position before their end,
    data that is not empty and below the length limits) that left the connection open,
    as many write events as there are queued bytes, and one more, during each of which
    the kernel takes at least one byte, send everything that was accepted, in order, and
    then the write event is taken off. *)
Theorem output_drains `{Allocator} files cork_ok size chunk read tls prog ns :
  0 <= size < 2 ^ 32 -> 0 <= chunk < 2 ^ 32 -> Forall (op_ok files) prog ->
  exists s rs, run cork_ok (new_socket size chunk read tls) prog = Some (s, rs) /\
    (closed s = false -> (length (pending s) < length ns)%nat ->
     exists s' rs', run cork_ok (new_socket size chunk read tls) (prog ++ ((fun k => (OWritable, [Sent k])) <$> ns)) = Some (s', rs') /\
       wire s' = accepted prog rs /\ pending s' = [] /\ ev_write s' = false).
Proof.
  intros Hs Hc Hp. destruct (run_ok files cork_ok (new_socket size chunk read tls) prog) as (s & rs & E & Hi & Hcw & Hb); [by apply new_socket_inv|done|done|].
  exists s, rs. split; [done|]. intros Hcl Hlen. destruct (drains files cork_ok s ns Hi Hcl (Hcw Hcl) Hlen) as (s' & rs' & E' & Hpn & Hw & Hev & _).
  exists s', (rs ++ rs'). rewrite (run_app cork_ok _ _ _ _ _ E), E'. cbn [mbind option_bind]. split_and!; try done. by rewrite Hw.
Qed.

(** A program: a write that the kernel takes in part, a vectored write and a file
    behind it, and a write event. *)
Definition demo_prog : list (op * list answer) :=
  [(OWrite [1; 2; 3; 4; 5], [Sent 2]); (OWritev [[6; 7]; [8]], []); (OSendfile [0; 9; 10; 11] 1 2, []); (OWritable, [Sent 3; Sent 1])].

Lemma demo_prog_ok : Forall (op_ok true) demo_prog.
Proof. by repeat constructor. Qed.

Lemma output_in_order_witness :
  exists s rs, run true (new_socket 0 4 true false) demo_prog = Some (s, rs) /\ wire s ++ pending s = [1; 2; 3; 4; 5; 6; 7; 8; 9; 10] /\
    wire s = [1; 2; 3; 4; 5; 6] /\ ev_write s = true.
Proof.
  destruct (output_in_order true true 0 4 true false demo_prog) as (s & rs & E & Hb & _ & Hev); [lia|lia|apply demo_prog_ok|].
  exists s, rs. assert (wire s = [1; 2; 3; 4; 5; 6] /\ pending s = [7; 8; 9; 10]) as [Hw Hp] by (vm_compute in E; injection E as <- <-; done).
  split_and!; [exact E|rewrite Hw, Hp; done|exact Hw|apply Hev; rewrite Hp; done].
Defined.

Lemma output_drains_witness :
  exists s' rs', run true (new_socket 0 4 true false) (demo_prog ++ ((fun k => (OWritable, [Sent k])) <$> [1; 1; 1; 1; 1])) = Some (s', rs') /\
    wire s' = [1; 2; 3; 4; 5; 6; 7; 8; 9; 10] /\ pending s' = [] /\ ev_write s' = false.
Proof.
  destruct (output_drains true true 0 4 true false demo_prog [1; 1; 1; 1; 1]) as (s & rs & E & Hd); [lia|lia|apply demo_prog_ok|].
  assert (closed s = false /\ length (pending s) = 4%nat /\ accepted demo_prog rs = [1; 2; 3; 4; 5; 6; 7; 8; 9; 10]) as (Hc & Hl & Ha) by (vm_compute in E; injection E as <- <-; done).
  destruct (Hd Hc) as (s' & rs' & E' & Hw & Hp & Hev); [rewrite Hl; simpl; lia|].
  exists s', rs'. split_and!; [exact E'|rewrite Hw; exact Ha|exact Hp|exact Hev].
Defined.

(** ** What goes wrong *)

(** A vectored write that the kernel cuts exactly between its two elements is
    corrupted: it is reported as sent, but the first element is queued again in place
    of the second one. *)
Theorem writev_boundary_corrupts cork_ok read a b c d e :
  exists s, run cork_ok (new_socket 0 0 read false) [(OWritev [[a; b]; [c; d; e]], [Sent 2])] = Some (s, [5]) /\
    wire s = [a; b] /\ pending s = [a; b].
Proof. eexists. split; [destruct read; vm_compute; reflexivity|done]. Qed.

(** While the kernel answers with an error that [catch_error] does not know, the write
    event does not return: it sends again and again. *)
Lemma writable_spins n d : d <> [] -> zlen d < 2 ^ 32 ->
  let s ks := mkSocket (Some (mkBuffer INT_MAX (zlen d) [mkChunk TYPE_DATA (zlen d) 0 (v_str d) (zlen d)])) 8192 0 true false false false true true false false false false [] ks None in
  writable_loop (S (S n)) true (s (repeat (Failed EOTHER) n)) = Some (with_waits (with_kernel (s []) [] [] (Some EAGAIN)) false true, false).
Proof.
  intros Hd Hl s. assert (0 < zlen d) by (destruct d; [done|simpl; lia]). assert (zsub d 0 (zlen d) = Some d) as Hsub.
  { apply zsub_Some. split_and!; [lia..|]. by rewrite drop_0, Nat2Z.id, take_ge. }
  assert (forall e0 n, writable_loop (S (S n)) true (with_kernel (s []) [] (repeat (Failed EOTHER) n) e0) = Some (with_waits (with_kernel (s []) [] [] (Some EAGAIN)) false true, false)) as Hall; [|apply (Hall None)].
  clear n. intros e0 n. revert e0. induction n as [|n IH]; intros e0.
  - cbn [repeat writable_loop]. unfold handle_send. cbn [with_kernel s out_buffer empty_buffer queue_ mbind option_bind head ctype clength coffset cvalue].
    rewrite Z.sub_0_r, uN_small by (unfold fits; lia). destruct (Z.eqb_spec (zlen d) 0); [lia|]. rewrite Hsub. done.
  - specialize (IH (Some EOTHER)). remember (S n) as m. cbn [writable_loop]. unfold handle_send. cbn [with_kernel s out_buffer empty_buffer queue_ mbind option_bind head ctype clength coffset cvalue].
    rewrite Z.sub_0_r, uN_small by (unfold fits; lia). destruct (Z.eqb_spec (zlen d) 0); [lia|]. rewrite Hsub. subst m. cbn [repeat]. exact IH.
Qed.

(** A signal during [sendfile] drops the rest of the file. *)
Lemma sendfile_interrupted a b c :
  exists s, run true (new_socket 0 0 true false) [(OSendfile [a; b; c] 0 0, []); (OWritable, [Sent 1; Intr])] = Some (s, [SW_OK; SW_ERR]) /\
    wire s = [a] /\ pending s = [].
Proof. eexists. split; [vm_compute; reflexivity|done]. Qed.

(** A file that is sent from its end on is accepted, but never finished: nothing that
    is written later leaves the queue, whatever the kernel would take. *)
Lemma sendfile_at_end_stuck a b c kss :
  exists s rs, run true (new_socket 0 0 true false) ([(OSendfile [a; b] 2 0, []); (OWrite [c], [])] ++ ((OWritable,.) <$> kss)) = Some (s, SW_OK :: 1 :: rs) /\
    wire s = [] /\ pending s = [c].
Proof.
  destruct (run true (new_socket 0 0 true false) [(OSendfile [a; b] 2 0, []); (OWrite [c], [])]) as [[s0 r0]|] eqn:E0; [|vm_compute in E0; done].
  rewrite (run_app true _ _ _ _ _ E0). vm_compute in E0. injection E0 as <- <-.
  set (t k := mkTask [a; b] 2 2 k). set (q k := [mkChunk TYPE_SENDFILE 0 0 (v_ptr (t k)) 0; mkChunk TYPE_DATA 1 0 (v_str [c]) 1]).
  set (st k w ks := mkSocket (Some (mkBuffer 65536 1 (q k))) 8388608 0 true false false false true true false false w false [] ks (Some NO_ERROR)).
  assert (forall k w ks0 ks, k = 0 \/ k = -1 -> step true (st k w ks0) OWritable ks = Some (st (-1) true ks, SW_ERR)) as Hstep
    by (intros k w ks0 ks [-> | ->]; vm_compute; reflexivity).
  assert (forall k w ks0, k = 0 \/ k = -1 -> exists rs k' w' ks', run true (st k w ks0) ((OWritable,.) <$> kss) = Some (st k' w' ks', rs)) as Hrun.
  { clearbody st. induction kss as [|ks kss IH]; intros k w ks0 Hk; [by eexists _, _, _, _|]. rewrite fmap_cons. cbn [run]. rewrite (Hstep k w ks0 ks Hk).
    cbn [mbind option_bind]. destruct (IH (-1) true ks (or_intror eq_refl)) as (rs & k' & w' & ks' & ->). cbn [mbind option_bind]. by eexists _, _, _, _. }
  destruct (Hrun 0 false [] (or_introl eq_refl)) as (rs & k' & w' & ks' & E). match goal with |- context [run true ?x _] => change x with (st 0 false []) end.
  rewrite E. cbn [mbind option_bind]. eexists _, _. split; [done|]. done.
Qed.
