(* ===== verification/Connections.v ===== *)
(** * Connections and sessions of a server

    A worker of a server in base mode: the list of connections by file descriptor, the
    list of sessions, which the workers share, and the ways in and out of them
    ([Server::add_connection], [close_connection], [get_connection_verify] and the
    iterations of [src/server/master.cc], [src/server/reactor_thread.cc] and
    [include/swoole_server.h]).  Arrays that start with zeros are finite maps with a
    default; [None] is an access outside of them, through a null pointer or to a socket
    that is freed, or an overflow of a signed counter. *)

From S2P Require Import Prelude Str Protocol OutBuffer.

(** ** Definitions *)

Definition SW_SESSION_LIST_SIZE : Z := 1 * 1024 * 1024.

(** [struct Session] *)
Record Session := mkSession { sess_id : Z; sess_fd : Z; sess_reactor : Z }.
Definition no_session : Session := mkSession 0 0 0.

(** The fields of [struct Connection] that are 0 or 1 *)
Inductive flag := f_ssl | f_ssl_ready | f_overflow | f_high_watermark | f_close_actively | f_close_queued | f_closing
  | f_close_reset | f_peer_closed | f_protect | f_close_notify | f_close_force | f_closed.
#[export] Instance flag_eq_dec : EqDecision flag.
Proof. solve_decision. Defined.

(** [struct Connection]; [csocket] is the address of the socket *)
Record Connection := mkConn {
  active : bool;
  cfd : Z;
  session_id : Z;
  reactor_id : Z;
  recv_queued_bytes : Z;
  send_queued_bytes : Z;
  csocket : option nat;
  server_fd : Z;
  has : flag -> bool;
}.
Definition no_connection : Connection := mkConn false 0 0 0 0 0 None 0 (fun _ => false).
Definition set_flag (f : flag) (v : bool) (c : Connection) : Connection :=
  mkConn (active c) (cfd c) (session_id c) (reactor_id c) (recv_queued_bytes c) (send_queued_bytes c) (csocket c) (server_fd c)
    (fun g => if decide (g = f) then v else has c g).
Definition set_queued (r s : Z) (c : Connection) : Connection :=
  mkConn (active c) (cfd c) (session_id c) (reactor_id c) r s (csocket c) (server_fd c) (has c).

(** [struct Socket]: what the output needs of it, its descriptor, the connection that
    [object] points to, and whether it was freed *)
Record Sock := mkSock { sfd : Z; io : Socket; object : option Z; direct_send : bool; freed : bool }.

(** What happens: a connection gets a session and a socket, the callbacks of the
    program are called, the peer closes, data is sent or given to another worker *)
Inductive event :=
  | EvAccept (id : Z) (a : nat)
  | EvConnect (id : Z)
  | EvReceive (id : Z) (d : list Z)
  | EvClose (id reactor : Z)
  | EvBufferFull (id : Z)
  | EvBufferEmpty (id : Z)
  | EvPeerClosed (id : Z)
  | EvSend (id : Z) (d : list Z) (ok : bool)
  | EvForward (worker id : Z).

(** The state of the worker with what it shares with the others ([Server] and
    [ServerGS]) *)
Record State := mkState {
  connection_list : gmap Z Connection;
  session_list : gmap Z Session;
  session_round : Z;
  min_fd : Z;
  max_fd : Z;
  accept_count : Z;
  close_count : Z;
  abort_count : Z;
  connection_num : Z;
  sockets : list Sock;
  trace : list event;
}.
Definition with_conns st m := mkState m (session_list st) (session_round st) (min_fd st) (max_fd st) (accept_count st) (close_count st) (abort_count st) (connection_num st) (sockets st) (trace st).
Definition with_sessions st m r := mkState (connection_list st) m r (min_fd st) (max_fd st) (accept_count st) (close_count st) (abort_count st) (connection_num st) (sockets st) (trace st).
Definition with_fds st mn mx := mkState (connection_list st) (session_list st) (session_round st) mn mx (accept_count st) (close_count st) (abort_count st) (connection_num st) (sockets st) (trace st).
Definition with_counts st a c b n := mkState (connection_list st) (session_list st) (session_round st) (min_fd st) (max_fd st) a c b n (sockets st) (trace st).
Definition with_sockets st l := mkState (connection_list st) (session_list st) (session_round st) (min_fd st) (max_fd st) (accept_count st) (close_count st) (abort_count st) (connection_num st) l (trace st).
Definition emit (e : event) st := mkState (connection_list st) (session_list st) (session_round st) (min_fd st) (max_fd st) (accept_count st) (close_count st) (abort_count st) (connection_num st) (sockets st) (trace st ++ [e]).

Definition conn_at (st : State) (i : Z) : Connection := default no_connection (connection_list st !! i).
Definition upd_conn (i : Z) (f : Connection -> Connection) (st : State) : State :=
  with_conns st (<[i := f (conn_at st i)]> (connection_list st)).

(** A socket that is freed must not be used *)
Definition get_socket (st : State) (a : nat) : option Sock :=
  s ← sockets st !! a; if freed s then None else Some s.
Definition put_socket (a : nat) (s : Sock) (st : State) : State := with_sockets st (<[a := s]> (sockets st)).
Definition set_io (s : Sock) (x : Socket) : Sock := mkSock (sfd s) x (object s) (direct_send s) (freed s).

(** What the program calls: [Server::send] with what the kernel does meanwhile,
    [sendfile], [close], and the pause and resumption of receiving *)
Inductive call :=
  | CSend (id : Z) (d : list Z) (ks : list answer)
  | CFile (id : Z) (file : list Z) (offset len : Z)
  | CClose (id : Z) (reset : bool)
  | CPause (id : Z)
  | CResume (id : Z).

(** The settings of the server and of its port.  A callback is what the program calls
    in it, which may depend on everything that happened before. *)
Record Config := mkConfig {
  max_connection : Z;
  worker_id : Z;
  socket_buffer_size : Z;
  buffer_high_watermark : Z;
  buffer_low_watermark : Z;
  enable_delay_receive : bool;
  listen_fd : Z;
  onConnect : option (list event -> Z -> list call);
  onReceive : list event -> Z -> list Z -> list call;
  onClose : option (list event -> Z -> list call);
  onBufferFull : bool;
  onBufferEmpty : bool;
}.

Section lookup.
Context (cfg : Config).

(** [Server::get_session]; the remainder of C has the sign of the number *)
Definition session_index (id : Z) : Z := Z.rem id SW_SESSION_LIST_SIZE.
Definition get_session (st : State) (id : Z) : option Session :=
  if 0 <=? session_index id then Some (default no_session (session_list st !! session_index id)) else None.
Definition put_session (st : State) (id : Z) (s : Session) : State :=
  with_sessions st (<[session_index id := s]> (session_list st)) (session_round st).

(** [Server::get_connection]: the index of a connection, or null *)
Definition get_connection (fd : Z) : option Z := if max_connection cfg <=? u32 fd then None else Some fd.

(** [Server::get_connection_verify_no_ssl], [get_connection_verify],
    [get_connection_by_session_id], [get_connection_for_iterator] *)
Definition get_connection_verify_no_ssl (st : State) (id : Z) : option (option Z) :=
  s ← get_session st id;
  match get_connection (sess_fd s) with
  | None => Some None
  | Some i =>
      let c := conn_at st i in
      if negb (active c) then Some None else
      if negb (sess_id s =? id) || negb (session_id c =? id) then Some None else Some (Some i)
  end.
Definition get_connection_verify (st : State) (id : Z) : option (option Z) :=
  c ← get_connection_verify_no_ssl st id;
  match c with
  | None => Some None
  | Some i => if has (conn_at st i) f_ssl && negb (has (conn_at st i) f_ssl_ready) then Some None else Some (Some i)
  end.
Definition get_connection_by_session_id (st : State) (id : Z) : option (option Z) :=
  s ← get_session st id; Some (get_connection (sess_fd s)).
Definition get_connection_for_iterator (st : State) (fd : Z) : option Z :=
  match get_connection fd with
  | None => None
  | Some i =>
      let c := conn_at st i in
      if active c && negb (has c f_closed) then if has c f_ssl && negb (has c f_ssl_ready) then None else Some i else None
  end.

(** [Server::is_valid_connection]: only sockets of connections are at active entries *)
Definition is_valid_connection (st : State) (i : option Z) : bool :=
  match i with Some i => match csocket (conn_at st i) with Some _ => active (conn_at st i) | None => false end | None => false end.

(** [Server::foreach_connection]: the connections that it calls back with, when the
    callback does not change the list; [Server::get_client_list] *)
Fixpoint visit (n : nat) (st : State) (fd : Z) : list Z :=
  match n with
  | O => []
  | S n => (if is_valid_connection st (get_connection fd) then [fd] else []) ++ visit n st (fd + 1)
  end.
Definition foreach_connection (st : State) : list Z := visit (Z.to_nat (max_fd st - min_fd st + 1)) st (min_fd st).

Fixpoint client_loop (n : nat) (st : State) (fd find_count : Z) : list Z :=
  match n with
  | O => []
  | S n =>
      match get_connection_for_iterator st fd with
      | Some i =>
          if 0 <? session_id (conn_at st i) then
            session_id (conn_at st i) :: (if find_count - 1 <=? 0 then [] else client_loop n st (fd + 1) (find_count - 1))
          else if find_count <=? 0 then [] else client_loop n st (fd + 1) find_count
      | None => if find_count <=? 0 then [] else client_loop n st (fd + 1) find_count
      end
  end.
Definition get_client_list (st : State) (start find_count : Z) : option (option (list Z)) :=
  c ← (if start =? 0 then Some (Some (min_fd st)) else
       c ← get_connection_verify st start; Some (match c with Some i => Some (cfd (conn_at st i)) | None => None end));
  match c with
  | None => Some None
  | Some fd => if max_fd st <=? fd then Some (Some []) else
      Some (Some (client_loop (Z.to_nat (max_fd st - fd)) st (fd + 1) find_count))
  end.

(** [Server::add_connection]: the search for a session, and the new connection.  What
    it does with addresses, socket options and the counters of the port is left out. *)
Fixpoint find_slot (n : nat) (st : State) (id : Z) : option (option Z) :=
  match n with
  | O => Some None
  | S n =>
      if 2 ^ 63 <=? id + 1 then None else
      s ← get_session st (id + 1);
      if sess_fd s =? 0 then Some (Some (id + 1)) else find_slot n st (id + 1)
  end.
Definition add_connection (st : State) (a : nat) (tls : bool) : option (State * option Z) :=
  s ← get_socket st a;
  let fd := sfd s in
  let rid := u8 (worker_id cfg) in
  let st := upd_conn fd (fun c => mkConn false 0 0 0 0 0 None (server_fd c) (fun f => if decide (f = f_closed) then has c f else false)) st in
  id ← find_slot (Z.to_nat (max_connection cfg)) st (session_round st);
  match id with
  | None => Some (st, None)
  | Some id =>
      let st := put_session st id (mkSession id fd rid) in
      let st := with_sessions st (session_list st) id in
      let st := put_socket a (mkSock fd (with_events (with_size (io s) (socket_buffer_size cfg)) (ev_read (io s)) (ev_write (io s)) true)
        (Some fd) (if tls then direct_send s else true) (freed s)) st in
      let st := upd_conn fd (fun c => mkConn true fd id rid (recv_queued_bytes c) (send_queued_bytes c) (Some a) (listen_fd cfg)
        (fun f => if decide (f = f_closed) then false else if decide (f = f_ssl) then tls else has c f)) st in
      let st := if max_fd st <? fd then with_fds st (min_fd st) fd else if fd <? min_fd st then with_fds st fd (max_fd st) else st in
      let st := with_counts st (accept_count st + 1) (close_count st) (abort_count st) (u32 (connection_num st + 1)) in
      Some (emit (EvAccept id a) st, Some fd)
  end.

(** [Server::close_connection]: the buffers and timers of the connection are given back,
    its session is free again, [max_fd] goes down to the next connection *)
Fixpoint find_max_fd (n : nat) (st : State) (fd : Z) : Z :=
  match n with
  | O => fd
  | S n => if negb (is_valid_connection st (get_connection fd)) && (min_fd st <? fd) then find_max_fd n st (fd - 1) else fd
  end.
Definition del_event (s : Sock) : Sock := set_io s (with_events (io s) false false true).
Definition close_connection (st : State) (a : nat) : option State :=
  s ← get_socket st a;
  i ← object s;
  let s := if removed (io s) then s else del_event s in
  let st := with_counts st (accept_count st) (close_count st + 1) (abort_count st) (u32 (connection_num st - 1)) in
  sess ← get_session st (session_id (conn_at st i));
  let st := put_session st (session_id (conn_at st i)) (mkSession (sess_id sess) 0 (sess_reactor sess)) in
  let fd := sfd s in
  let st := if fd =? max_fd st then with_fds st (min_fd st) (find_max_fd (Z.to_nat (fd - 1 - min_fd st)) st (fd - 1)) else st in
  let st := upd_conn i (fun c => set_flag f_closed true
    (mkConn false (cfd c) (session_id c) (reactor_id c) (recv_queued_bytes c) (send_queued_bytes c) None (server_fd c) (has c))) st in
  Some (put_socket a (mkSock (sfd s) (io s) (object s) (direct_send s) true) st).

(** [Server::abort_connection] *)
Definition abort_connection (st : State) (a : nat) : option State :=
  s ← get_socket st a;
  let st := with_counts st (accept_count st) (close_count st) (abort_count st + 1) (connection_num st) in
  match object s with
  | Some _ => close_connection st a
  | None => Some (put_socket a (mkSock (sfd s) (io s) (object s) (direct_send s) true) st)
  end.
End lookup.
