(* ===== verification/ServerBase.v ===== *)
(** * A worker of a server in base mode

    The events of a connection and the calls of the program: accepting
    ([Server::accept_connection], [connection_incoming] of [src/server/master.cc]),
    receiving ([ReactorThread_onRead] of [src/server/reactor_thread.cc],
    [readable_callback_raw] of [src/server/port.cc], [BaseFactory::dispatch] of
    [src/server/base.cc], [worker_accept_event] of [src/server/worker.cc]), sending
    ([Server::send_to_connection], [ReactorThread_onWrite]) and closing
    ([BaseFactory::end], [ReactorProcess_onClose] of [src/server/reactor_process.cc]).
    Callbacks of the program can send, close, pause and resume; the callback of a
    close can close other connections, so that it is called again before it returns. *)

From S2P Require Import Prelude Str Protocol OutBuffer Connections.

(** ** Definitions *)

Inductive send_type := TData (d : list Z) (ks : list answer) | TFile (file : list Z) (offset len : Z) | TClose | TPause | TResume.

Section server.
Context `{Allocator} (cfg : Config) (cork_ok : bool).

(** [BaseFactory::notify] for the events on the output, whose callbacks call nothing,
    with their part of [worker_accept_event] *)
Definition notify_buffer (st : State) (i : Z) (e : Z -> event) (set : bool) : State :=
  let c := conn_at st i in
  if negb (active c) || has c f_closed then st else
  if set then emit (e (session_id c)) st else st.

(** The direct send: an interrupted call is repeated *)
Fixpoint direct_loop (fuel : nat) (x : Socket) (d : list Z) : option (Socket * Z) :=
  '(x, n) ← send x d;
  if (n =? zlen d) || (0 <? n) then Some (x, n) else
  match errno_ x with
  | None => match fuel with O => None | S fuel => direct_loop fuel x d end
  | Some _ => Some (x, 0)
  end.

(** [Server::send_to_connection] in base mode, in parts: the end of it, which sets the
    write event; the data that is queued; the whole function *)
Definition set_writable (s : Sock) : Sock := if ev_write (io s) then s else set_io s (add_write_event (io s)).
Definition need_buffer (s : Sock) : Sock :=
  match out_buffer (io s) with None => set_io s (with_out (io s) (Some (new_buffer SW_SEND_BUFFER_SIZE))) | Some _ => s end.
Definition queue_data (st : State) (i : Z) (a : nat) (s : Sock) (d : list Z) : option (State * bool) :=
  let c := conn_at st i in
  if has c f_peer_closed then Some (put_socket a s st, false) else
  b ← out_buffer (io s);
  let full := buffer_size (io s) <=? total_length b in
  let st := if full then upd_conn i (set_flag f_overflow true) st else st in
  let st := if full && onBufferEmpty cfg && negb (onBufferFull cfg) then upd_conn i (set_flag f_high_watermark true) st else st in
  b ← append b d;
  let s := set_io s (with_out (io s) (Some b)) in
  let st := upd_conn i (fun c => set_queued (recv_queued_bytes c) (total_length b) c) st in
  let st := if onBufferFull cfg && negb (has (conn_at st i) f_high_watermark) && (buffer_high_watermark cfg <=? total_length b) then
    upd_conn i (set_flag f_high_watermark true) (notify_buffer st i EvBufferFull true) else st in
  Some (put_socket a (set_writable s) st, true).
Definition send_to_connection (st : State) (t : send_type) (id : Z) : option (State * bool) :=
  i ← (match t with TClose => get_connection_verify_no_ssl cfg st id | _ => get_connection_verify cfg st id end);
  match i with
  | None => Some (st, false)
  | Some i =>
      let c := conn_at st i in
      if has c f_overflow then Some (st, false) else
      a ← csocket c;
      s ← get_socket st a;
      let empty := empty_buffer (out_buffer (io s)) in
      match t with
      | TClose =>
          if has c f_close_reset || has c f_close_force || has c f_peer_closed || empty then
            st ← close_connection cfg st a; Some (st, true)
          else
            b ← out_buffer (io s);
            let s := set_io s (with_out (io s) (Some (alloc b TYPE_CLOSE 0))) in
            Some (put_socket a (set_writable s) (upd_conn i (set_flag f_close_queued true) st), true)
      | TPause =>
          if removed (io s) || negb (ev_read (io s)) then Some (st, true) else
          Some (put_socket a (if ev_write (io s) then set_io s (with_events (io s) false true (removed (io s))) else del_event s) st, true)
      | TResume =>
          if negb (removed (io s)) || ev_read (io s) then Some (st, true) else
          Some (put_socket a (if ev_write (io s) then set_io s (with_events (io s) true true (removed (io s)))
                              else set_io s (with_events (io s) true false false)) st, true)
      | TFile file offset len =>
          let s := if empty then need_buffer s else s in
          let '(x, r) := sendfile_async (io s) file offset len in
          if r <? 0 then Some (put_socket a (set_io s x) st, false) else
          Some (put_socket a (set_writable (set_io s x)) st, true)
      | TData d ks =>
          let s := set_io s (with_kernel (io s) (wire (io s)) ks (errno_ (io s))) in
          if empty then
            if direct_send s then
              '(x, n) ← direct_loop (length ks) (io s) d;
              if n =? zlen d then Some (put_socket a (set_io s x) st, true) else
              queue_data st i a (need_buffer (set_io s x)) (drop (Z.to_nat n) d)
            else queue_data st i a (need_buffer s) d
          else queue_data st i a s d
      end
  end.

(** [BaseFactory::finish], and [Server::send], [Server::sendfile] and the two calls of
    [Server::feedback] on top of it; a message for another worker is written to its
    pipe *)
Definition finish (st : State) (t : send_type) (id : Z) : option (State * bool) :=
  s ← get_session st id;
  if negb (sess_reactor s =? worker_id cfg) then Some (emit (EvForward (sess_reactor s) id) st, true) else
  '(st, ok) ← send_to_connection st t id;
  Some (match t with
        | TData d _ => emit (EvSend id d ok) st
        | TFile file offset len => emit (EvSend id (bytes_of (OSendfile file offset len)) ok) st
        | _ => st
        end, ok).
Definition sendfile (st : State) (id : Z) (file : list Z) (offset len : Z) : option (State * bool) :=
  if id <=? 0 then Some (st, false) else
  if zlen file <=? offset then Some (st, false) else
  finish st (TFile file offset len) id.
Definition feedback (st : State) (t : send_type) (id : Z) : option (State * bool) :=
  i ← get_connection_verify cfg st id;
  match i with None => Some (st, false) | Some i => send_to_connection st t (session_id (conn_at st i)) end.

(** [BaseFactory::end], with the callback of the close; [fuel] bounds how deep the
    callbacks are nested *)
Definition run_calls (do_call : State -> call -> option State) : State -> list call -> option State :=
  fix go st l := match l with [] => Some st | c :: l => st ← do_call st c; go st l end.
Definition do_call_with (end_ : State -> Z -> bool -> bool -> option (State * bool)) (st : State) (c : call) : option State :=
  '(st, _) ← (match c with
              | CSend id d ks => finish st (TData d ks) id
              | CFile id file offset len => sendfile st id file offset len
              | CClose id reset => end_ st id reset true
              | CPause id => feedback st TPause id
              | CResume id => feedback st TResume id
              end);
  Some st.
Fixpoint end_ (fuel : nat) (st : State) (id : Z) (reset actively : bool) : option (State * bool) :=
  match fuel with O => None | S fuel =>
    s ← get_session st id;
    if sess_fd s =? 0 then Some (st, false) else
    if negb (sess_reactor s =? worker_id cfg) then Some (emit (EvForward (sess_reactor s) id) st, true) else
    i ← get_connection_verify_no_ssl cfg st id;
    match i with
    | None => Some (st, false)
    | Some i =>
        let st := if reset then upd_conn i (set_flag f_close_reset true) st else st in
        let st := if actively then upd_conn i (set_flag f_close_actively true) st else st in
        let c := conn_at st i in
        if has c f_closing then Some (st, false) else
        if negb (has c f_close_force || has c f_close_reset) && has c f_closed then Some (st, false) else
        let st := upd_conn i (set_flag f_closing true) st in
        st ← (match onClose cfg with
              | Some cb =>
                  if has c f_closed then Some st else
                  let st := upd_conn i (set_flag f_closed true) st in
                  let calls := cb (trace st) id in
                  let st := emit (EvClose id (if has c f_close_actively then -1 else reactor_id c)) st in
                  run_calls (do_call_with (end_ fuel)) st calls
              | None => Some st
              end);
        let st := upd_conn i (set_flag f_closing false) st in
        let c := conn_at st i in
        match csocket c with
        | None => Some (st, false)
        | Some a =>
            s ← get_socket st a;
            if empty_buffer (out_buffer (io s)) || has c f_close_reset || has c f_peer_closed || has c f_close_force then
              st ← close_connection cfg st a; Some (st, true)
            else
              b ← out_buffer (io s);
              Some (put_socket a (set_io s (with_out (io s) (Some (alloc b TYPE_CLOSE 0)))) (upd_conn i (set_flag f_close_queued true) st), true)
        end
    end
  end.

(** Callbacks are nested at most once per connection. *)
Definition fuel_of (st : State) : nat := S (size (connection_list st)).
Definition end_call (st : State) (id : Z) (reset actively : bool) : option (State * bool) := end_ (fuel_of st) st id reset actively.
Definition do_call (st : State) (c : call) : option State := do_call_with end_call st c.
Definition do_calls (st : State) (l : list call) : option State := run_calls do_call st l.

(** [Server::notify] and [BaseFactory::notify] for the begin and the end of a connection,
    with their part of [worker_accept_event] *)
Definition notify_connect (st : State) (i : Z) : option (State * bool) :=
  let c := conn_at st i in
  if negb (active c) || has c f_closed then Some (st, false) else
  match onConnect cfg with
  | Some cb =>
      let calls := cb (trace st) (session_id c) in
      st ← do_calls (emit (EvConnect (session_id c)) st) calls; Some (st, true)
  | None => Some (st, true)
  end.
Definition notify_close (st : State) (i : Z) : option (State * bool) :=
  let c := conn_at st i in
  if negb (active c) || has c f_closed then Some (st, false) else
  '(st, _) ← end_call st (session_id c) false false; Some (st, true).

(** [ReactorProcess_onClose], the error handler of the reactor *)
Definition on_close (st : State) (a : nat) : option State :=
  s ← get_socket st a;
  match get_connection cfg (sfd s) with
  | None => Some st
  | Some i =>
      let c := conn_at st i in
      if negb (active c) then Some st else
      if removed (io s) then close_connection cfg st a else
      let st := put_socket a (del_event s) st in
      if has c f_close_queued then close_connection cfg st a else
      let st := emit (EvPeerClosed (session_id c)) (upd_conn i (set_flag f_peer_closed true) st) in
      '(st, _) ← notify_close st i; Some st
  end.

(** [Server::connection_incoming] (without the timers of idle connections) and one turn
    of [Server::accept_connection]; [add_ok] is what the event loop answers *)
Definition connection_incoming (st : State) (i : Z) (a : nat) (add_ok : bool) : option (State * bool) :=
  s ← get_socket st a;
  let added := put_socket a (set_io s (with_events (io s) true false false)) st in
  if has (conn_at st i) f_ssl then Some (if add_ok then added else st, add_ok) else
  if negb (enable_delay_receive cfg) && negb add_ok then Some (st, false) else
  let st := if enable_delay_receive cfg then st else added in
  match onConnect cfg with Some _ => notify_connect st i | None => Some (st, true) end.
Definition new_sock (fd : Z) (tls : bool) : Sock :=
  mkSock fd (mkSocket None 0 SW_SEND_BUFFER_SIZE true false tls false false false false false false false [] [] (Some NO_ERROR)) None false false.
Definition accept_connection (st : State) (fd : Z) (tls ssl_ok add_ok : bool) : option State :=
  let a := length (sockets st) in
  let st := with_sockets st (sockets st ++ [new_sock fd tls]) in
  if max_connection cfg <=? fd then abort_connection cfg st a else
  if tls && negb ssl_ok then abort_connection cfg st a else
  '(st, c) ← add_connection cfg st a tls;
  match c with
  | None => abort_connection cfg st a
  | Some i => '(st, ok) ← connection_incoming st i a add_ok; if ok : bool then Some st else abort_connection cfg st a
  end.

(** [BaseFactory::dispatch] of received data, with its part of [worker_accept_event]
    and [Worker_discard_data], and [Server::dispatch_task] *)
Definition accept_data (st : State) (id : Z) (d : list Z) : option State :=
  i ← get_connection_verify cfg st id;
  match i with
  | None => Some st
  | Some i =>
      let st := upd_conn i (fun c => set_queued (u32 (recv_queued_bytes c - zlen d)) (send_queued_bytes c) c) st in
      if has (conn_at st i) f_closed then Some st else
      let calls := onReceive cfg (trace st) id d in
      do_calls (emit (EvReceive id d) st) calls
  end.
Definition dispatch (st : State) (fd : Z) (d : list Z) : option (State * bool) :=
  match get_connection cfg fd with
  | None => Some (st, false)
  | Some i =>
      let c := conn_at st i in
      if negb (active c) || has c f_closed then Some (st, false) else
      st ← accept_data st (session_id c) d; Some (st, true)
  end.
Definition dispatch_task (st : State) (a : nat) (d : list Z) : option State :=
  s ← get_socket st a;
  i ← object s;
  let st := upd_conn i (fun c => set_queued (u32 (recv_queued_bytes c + zlen d)) (send_queued_bytes c) c) st in
  '(st, ok) ← dispatch st (cfd (conn_at st i)) d;
  Some (if ok : bool then st else upd_conn i (fun c => set_queued (u32 (recv_queued_bytes c - zlen d)) (send_queued_bytes c) c) st).

(** [ReactorThread_onRead] with [ReactorThread_verify_ssl_state] (without client
    certificates) and [ListenPort::readable_callback_raw]; what the handshake and [recv]
    do is an input.  When the callback closed the connection, nothing is dispatched; with
    [enable_delay_receive] the connection is closed twice. *)
Inductive handshake := HsWait | HsReady | HsError.
Inductive received := RData (d : list Z) | RAgain | RClosed.
Definition readable_callback_raw (st : State) (a : nat) (r : received) : option State :=
  match r with
  | RData d => dispatch_task st a d
  | RAgain => Some st
  | RClosed => on_close st a
  end.
Definition on_read (st : State) (a : nat) (hs : handshake) (r : received) : option State :=
  s ← get_socket st a;
  match get_connection cfg (sfd s) with
  | None => Some st
  | Some i =>
      let c := conn_at st i in
      if server_fd c =? 0 then Some st else
      if negb (has c f_ssl) || has c f_ssl_ready then readable_callback_raw st a r else
      match hs with
      | HsWait => Some st
      | HsError => abort_connection cfg st a
      | HsReady =>
          let st := upd_conn i (set_flag f_ssl_ready true) st in
          st ← (match onConnect cfg with Some _ => '(st, _) ← notify_connect st i; Some st | None => Some st end);
          match get_socket st a with
          | None => if enable_delay_receive cfg then None else Some st
          | Some s =>
              if enable_delay_receive cfg then
                if removed (io s) then abort_connection cfg st a else
                readable_callback_raw (put_socket a (del_event s) st) a r
              else readable_callback_raw st a r
          end
      end
  end.

(** [ReactorThread_onWrite]: the loop over the chunks, and what comes before and after
    it *)
Inductive write_end := WDone | WClose | WError.
Fixpoint write_loop (fuel : nat) (s : Sock) (queued : Z) : option (Sock * Z * write_end) :=
  if empty_buffer (out_buffer (io s)) then Some (s, queued, WDone) else
  match fuel with O => None | S fuel =>
    b ← out_buffer (io s); c ← head (queue_ b);
    match ctype c with
    | TYPE_CLOSE => Some (s, queued, WClose)
    | TYPE_SENDFILE =>
        '(x, ret) ← handle_sendfile cork_ok (io s) c;
        if ret <? 0 then
          if close_wait x then Some (set_io s x, queued, WError) else
          if send_wait x then Some (set_io s x, queued, WDone) else write_loop fuel (set_io s x) queued
        else write_loop fuel (set_io s x) queued
    | TYPE_DATA =>
        '(x, ret) ← handle_send (io s) c;
        if ret <? 0 then
          if close_wait x then Some (set_io s x, queued, WError) else
          if send_wait x then Some (set_io s x, queued, WDone) else write_loop fuel (set_io s x) queued
        else
          b ← out_buffer x; write_loop fuel (set_io s x) (total_length b)
    end
  end.
Definition out_length (s : Sock) : Z := match out_buffer (io s) with Some b => total_length b | None => 0 end.
Definition on_write (st : State) (a : nat) (ks : list answer) : option State :=
  s ← get_socket st a;
  match get_connection cfg (sfd s) with
  | None => Some st
  | Some i =>
      if negb (active (conn_at st i)) then Some st else
      if has (conn_at st i) f_close_notify then
        if has (conn_at st i) f_ssl && negb (has (conn_at st i) f_ssl_ready) then close_connection cfg st a else
        '(st, _) ← notify_close st i; Some (upd_conn i (set_flag f_close_notify false) st)
      else
      let s := set_io s (with_kernel (io s) (wire (io s)) ks (errno_ (io s))) in
      '(s, queued, e) ← write_loop (S (queue_length (io s) + length ks)) s (send_queued_bytes (conn_at st i));
      let st := put_socket a s (upd_conn i (fun c => set_queued (recv_queued_bytes c) queued c) st) in
      match e with
      | WClose => close_connection cfg st a
      | WError => on_close st a
      | WDone =>
          let c := conn_at st i in
          let st := if has c f_overflow && (out_length s <? buffer_size (io s)) then upd_conn i (set_flag f_overflow false) st else st in
          let st := if onBufferEmpty cfg && has c f_high_watermark && (out_length s <=? buffer_low_watermark cfg) then
            notify_buffer (upd_conn i (set_flag f_high_watermark false) st) i EvBufferEmpty true else st in
          Some (if negb (has c f_peer_closed) && negb (removed (io s)) && empty_buffer (out_buffer (io s)) then
            put_socket a (set_io s (with_events (io s) true false (removed (io s)))) st else st)
      end
  end.

(** ** What happens to a worker

    The event loop calls the handlers for the sockets that it watches; the program calls
    from elsewhere, a timer for example; another worker takes or gives back a session, or
    changes the range of the descriptors, which is shared too.
    What cannot happen (an event of a socket that is not watched, a descriptor that is
    in use, a session that is not of another worker) changes nothing. *)
Inductive op :=
  | OAccept (fd : Z) (tls ssl_ok add_ok : bool)
  | ORead (a : nat) (hs : handshake) (r : received)
  | OWrite (a : nat) (ks : list answer)
  | OHup (a : nat)
  | OCall (c : call)
  | OTake (id fd reactor : Z)
  | OGive (id : Z)
  | OFds (mn mx : Z).

Definition watched (st : State) (a : nat) : bool := match get_socket st a with Some s => negb (removed (io s)) | None => false end.
Definition fd_free (st : State) (fd : Z) : bool :=
  (0 <? fd) && negb (fd =? listen_fd cfg) && forallb (fun s => freed s || negb (sfd s =? fd)) (sockets st).
Definition step (st : State) (o : op) : option State :=
  match o with
  | OAccept fd tls ssl_ok add_ok => if fd_free st fd then accept_connection st fd tls ssl_ok add_ok else Some st
  | ORead a hs r => if watched st a then on_read st a hs r else Some st
  | OWrite a ks => if watched st a then on_write st a ks else Some st
  | OHup a => if watched st a then on_close st a else Some st
  | OCall c => do_call st c
  | OTake id fd reactor =>
      s ← get_session st id;
      if (session_round st <? id) && (sess_fd s =? 0) && (0 <? fd) && negb (reactor =? worker_id cfg) then
        Some (with_sessions st (<[session_index id := mkSession id fd reactor]> (session_list st)) id) else Some st
  | OGive id =>
      s ← get_session st id;
      if (sess_id s =? id) && negb (sess_reactor s =? worker_id cfg) then
        Some (put_session st id (mkSession (sess_id s) 0 (sess_reactor s))) else Some st
  | OFds mn mx => Some (with_fds st mn mx)
  end.
Fixpoint run (st : State) (prog : list op) : option State :=
  match prog with [] => Some st | o :: prog => st ← step st o; run st prog end.

(** The worker when it starts, with the session ids going on from [round] *)
Definition start (round : Z) : State :=
  mkState {[ listen_fd cfg := mkConn false (listen_fd cfg) 0 0 0 0 None 0 (fun _ => false) ]} ∅ round (listen_fd cfg) (listen_fd cfg) 0 0 0 0 [] [].
End server.
