(* ===== verification/ServerSpec.v ===== *)
(** * What a worker in base mode promises

    The invariant of the connections, sessions and sockets of [ServerBase.v], that every
    event and every call keeps it, and what follows: a session id stands for one
    connection for ever, what goes out on a connection is what was sent to its session,
    and the iterations find every connection. *)

From S2P Require Import Prelude MemPool Str Protocol OutBuffer Connections ServerBase.

(** ** The output of a socket *)

(** What handling a chunk leaves as it is. *)
Definition same_socket (x y : Socket) : Prop :=
  buffer_size y = buffer_size x /\ ev_read y = ev_read x /\ ev_write y = ev_write x /\ removed y = removed x /\ dont_restart y = dont_restart x.

(** The front chunk is gone, or has the same length. *)
Definition front_changed (x y : Socket) : Prop :=
  exists b b' c q, out_buffer x = Some b /\ out_buffer y = Some b' /\ queue_ b = c :: q /\
    (queue_ b' = q \/ exists c', queue_ b' = c' :: q /\ clength c' = clength c).

Lemma same_kernel_step x y : kernel_step x y -> same_socket x y /\ out_buffer y = out_buffer x.
Proof. intros [-> _]. done. Qed.

Lemma pop_front x y b c q : out_buffer x = Some b -> queue_ b = c :: q -> pop_out x = Some y -> same_socket x y /\ front_changed x y.
Proof.
  intros Eo Eq. unfold pop_out, pop. rewrite Eo. cbn [mbind option_bind]. rewrite Eq. cbn [mbind option_bind]. intros [= <-].
  split; [done|]. eexists b, _, c, q. cbn [with_out out_buffer]. by split_and!; [| | |left].
Qed.

Lemma put_front_changed x y b c q c' : out_buffer x = Some b -> queue_ b = c :: q -> put_front x c' = Some y -> clength c' = clength c ->
  same_socket x y /\ front_changed x y.
Proof.
  intros Eo Eq. unfold put_front. rewrite Eo. cbn [mbind option_bind]. rewrite Eq. intros [= <-] El.
  split; [done|]. eexists b, _, c, q. cbn [with_out out_buffer]. split_and!; [done|done|done|right; by exists c'].
Qed.

Lemma same_socket_trans x y z : same_socket x y -> same_socket y z -> same_socket x z.
Proof. unfold same_socket. intros (? & ? & ? & ? & ?) (? & ? & ? & ? & ?). split_and!; congruence. Qed.

(** A change after a call of the kernel, which does not touch the queue. *)
Lemma front_after x y z : out_buffer y = out_buffer x -> front_changed y z -> front_changed x z.
Proof. unfold front_changed. intros E. by setoid_rewrite E. Qed.

Lemma front_same x y b c q : out_buffer x = Some b -> queue_ b = c :: q -> out_buffer y = Some b -> front_changed x y.
Proof. intros E1 E2 E3. exists b, b, c, q. split_and!; [done..|right; by exists c]. Qed.

Section handle.
Context `{Allocator} (files : bool).

Lemma handle_send_frame x y b c q r : Forall (orderly files) (kernel x) -> out_buffer x = Some b -> queue_ b = c :: q ->
  handle_send x c = Some (y, r) -> same_socket x y /\ front_changed x y.
Proof.
  intros Hk Eo Eq. unfold handle_send. destruct (u32 (clength c - coffset c) =? 0) eqn:Ez.
  { destruct (pop_out x) eqn:Ep; [|done]. cbn [mbind option_bind]. intros [= <- <-]. by eapply pop_front. }
  destruct (cvalue c) as [|m|]; try done. cbn [mbind option_bind]. destruct (zsub m _ _) as [d|] eqn:Ed; [|done]. cbn [mbind option_bind].
  assert (d <> []) as Hd. { intros ->. apply zsub_length in Ed. apply Z.eqb_neq in Ez. simpl in Ed. lia. }
  destruct (send_ok files x d Hd Hk) as (x1 & n & E1 & Hs). rewrite E1. cbn [mbind option_bind].
  destruct (same_kernel_step _ _ (st_step _ _ _ _ _ Hs)) as [Hs1 Eo1]. rewrite Eo in Eo1.
  assert (forall z, same_socket x1 z -> front_changed x1 z -> same_socket x z /\ front_changed x z) as Hback.
  { intros z Hz Hf. split; [by eapply same_socket_trans|]. eapply front_after; [|exact Hf]. congruence. }
  assert (forall z b, with_waits x1 z b = y -> same_socket x y /\ front_changed x y) as Hw.
  { intros z b' <-. apply Hback; [done|]. by eapply front_same. }
  destruct (n <? 0).
  - destruct (catch_write_error x1) as [[]|]; [| | | |done]; cbn [mbind option_bind]; intros [= <- <-]; eauto.
    all: apply Hback; [done|by eapply front_same].
  - destruct (n =? _); [|].
    + destruct (pop_out x1) as [x2|] eqn:Ep; [|done]. cbn [mbind option_bind]. intros [= <- <-].
      destruct (pop_front _ _ _ _ _ Eo1 Eq Ep). by apply Hback.
    + destruct (put_front x1 _) as [x2|] eqn:Ep; [|done]. cbn [mbind option_bind].
      destruct (put_front_changed _ _ _ _ _ _ Eo1 Eq Ep eq_refl) as [Hp Hf]. destruct (n <? _); intros [= <- <-]; by apply Hback.
Qed.

Lemma handle_sendfile_frame cork_ok x y b c q r : Forall (orderly files) (kernel x) -> out_buffer x = Some b -> queue_ b = c :: q ->
  handle_sendfile cork_ok x c = Some (y, r) -> same_socket x y /\ front_changed x y.
Proof.
  intros Hk Eo Eq. unfold handle_sendfile. destruct (cvalue c) as [| |t]; try done. cbn [mbind option_bind].
  set (t1 := if corked t =? 0 then _ else t). clearbody t1. destruct (sys_sendfile x t1 _) as [[x1 t2] n] eqn:Es.
  assert (same_socket x x1 /\ out_buffer x1 = Some b) as [Hs1 Eo1].
  { unfold sys_sendfile in Es. destruct (take _ _) as [|z d] eqn:Ed; [by injection Es as <- <- <-|].
    pose proof (sys_send_ok files x (z :: d) ltac:(done) Hk) as Hs. destruct (sys_send x (z :: d)) as [x2 n2]. injection Es as <- <- <-.
    destruct (same_kernel_step _ _ (st_step _ _ _ _ _ Hs)) as [? E]. split; [done|]. simpl in E. congruence. }
  assert (forall z, same_socket x1 z -> front_changed x1 z -> same_socket x z /\ front_changed x z) as Hback.
  { intros z Hz Hf. split; [by eapply same_socket_trans|]. eapply front_after; [|exact Hf]. congruence. }
  destruct (if n <=? 0 then catch_write_error x1 else Some SW_INVALID) as [code|]; [|done]. cbn [mbind option_bind].
  destruct (pop_out x1) as [x2|] eqn:Ep; [destruct (pop_front _ _ _ _ _ Eo1 Eq Ep)|];
    (destruct (put_front x1 _) as [x3|] eqn:Ef; [destruct (put_front_changed _ _ _ _ _ _ Eo1 Eq Ef eq_refl)|]);
    destruct code; cbn [mbind option_bind]; try (destruct (tbegin t2 =? tend t2)); cbn [mbind option_bind];
    intros [= <- <-]; by apply Hback.
Qed.
End handle.

(** ** The invariant *)

(** The sends to a session with their results; the session of a callback. *)
Definition sends (id : Z) (tr : list event) : list (list Z * bool) :=
  omap (fun e => match e with EvSend j d ok => if decide (j = id) then Some (d, ok) else None | _ => None end) tr.
Definition callback_of (e : event) : option Z :=
  match e with EvConnect id | EvReceive id _ | EvClose id _ | EvBufferFull id | EvBufferEmpty id => Some id | _ => None end.
Definition close_called (id : Z) (tr : list event) : Prop := exists r, EvClose id r ∈ tr.

(** What goes out for a send: all of it when it succeeds and nothing when it fails; only
    when the peer has closed ([pc]), a send that fails may leave its first bytes. *)
Definition piece (pc : Prop) (p : list Z) (e : list Z * bool) : Prop :=
  p `prefix_of` e.1 /\ (e.2 = true -> p = e.1) /\ (e.2 = false -> p = [] \/ pc).
Definition stream (pc : Prop) (log : list (list Z * bool)) (out : list Z) : Prop :=
  exists ps, out = concat ps /\ Forall2 (piece pc) ps log.

(** No callback of a session comes after the one of its close. *)
Definition quiet (tr : list event) : Prop :=
  forall pre e post id, tr = pre ++ e :: post -> callback_of e = Some id -> ~ close_called id pre.

Definition total (x : Socket) : Z := match out_buffer x with Some b => total_length b | None => 0 end.
Definition inflight (fl : option (Z * list Z)) (id : Z) : list Z :=
  match fl with Some (j, p) => if decide (j = id) then p else [] | None => [] end.

Section invariant.
Context `{Allocator} (cfg : Config) (files fds : bool) (B L : Z).

(** The output of a connection; a server lets the queue grow over its limit once. *)
Record io_ok (ovf : bool) (x : Socket) : Prop := {
  io_inv : inv files true x;
  io_size : buffer_size x = B;
  io_total : total x < B + 2 * L;
  io_room : ovf = false -> total x < B + L;
}.

(** An open connection with its socket and its session. *)
Record conn_ok (st : State) (i : Z) (a : nat) (s : Sock) : Prop := {
  co_index : 0 < i < max_connection cfg;
  co_fd : cfd (conn_at st i) = i;
  co_server : server_fd (conn_at st i) = listen_fd cfg;
  co_socket : csocket (conn_at st i) = Some a;
  co_sock : sockets st !! a = Some s;
  co_live : freed s = false;
  co_sfd : sfd s = i;
  co_object : object s = Some i;
  co_session : session_list st !! session_index (session_id (conn_at st i)) = Some (mkSession (session_id (conn_at st i)) i (worker_id cfg));
  co_id : 0 < session_id (conn_at st i) <= session_round st;
  co_accept : EvAccept (session_id (conn_at st i)) a ∈ trace st;
  co_io : io_ok (has (conn_at st i) f_overflow) (io s);
  co_notify : has (conn_at st i) f_close_notify = false;
  co_peer : has (conn_at st i) f_peer_closed = true -> EvPeerClosed (session_id (conn_at st i)) ∈ trace st;
  co_open : has (conn_at st i) f_closed = false -> ~ close_called (session_id (conn_at st i)) (trace st);
  co_ssl : has (conn_at st i) f_ssl = true -> enable_delay_receive cfg = false;
}.

(** What went out of the socket [s] of the session [id], and what is still to go. *)
Definition output_ok (tr : list event) (fl : option (Z * list Z)) (id : Z) (s : Sock) : Prop :=
  exists out, stream (EvPeerClosed id ∈ tr) (sends id tr) out /\
    if freed s then wire (io s) `prefix_of` out else wire (io s) ++ pending (io s) = out ++ inflight fl id.

Record winv (fl : option (Z * list Z)) (st : State) : Prop := {
  w_round : 0 <= session_round st;
  w_conn : forall i, active (conn_at st i) = true -> exists a s, conn_ok st i a s;
  w_sock : forall a s i, sockets st !! a = Some s -> freed s = false -> object s = Some i ->
    active (conn_at st i) = true /\ csocket (conn_at st i) = Some a;
  w_accept : forall id a, EvAccept id a ∈ trace st -> 0 < id <= session_round st /\
    exists s, sockets st !! a = Some s /\ output_ok (trace st) fl id s;
  w_unique : forall id a id' a', EvAccept id a ∈ trace st -> EvAccept id' a' ∈ trace st -> id = id' <-> a = a';
  w_none : forall id, (forall a, EvAccept id a ∉ trace st) -> Forall (fun e => e.2 = false) (sends id (trace st)) /\ ~ close_called id (trace st);
  w_quiet : quiet (trace st);
  w_fds : fds = true -> min_fd st <= max_fd st + 1 /\ forall i, active (conn_at st i) = true -> min_fd st <= i <= max_fd st;
}.

(** ** Lemmas on the parts *)

Lemma conn_at_upd st i j f : conn_at (upd_conn i f st) j = if decide (j = i) then f (conn_at st i) else conn_at st j.
Proof.
  unfold conn_at, upd_conn. cbn [with_conns connection_list]. case_decide as Hd.
  - subst. by rewrite lookup_insert_eq.
  - by rewrite lookup_insert_ne.
Qed.

Lemma sends_snoc id tr e : sends id (tr ++ [e]) = sends id tr ++ match e with EvSend j d ok => if decide (j = id) then [(d, ok)] else [] | _ => [] end.
Proof. unfold sends. rewrite omap_app. f_equal. destruct e; try done. simpl. by case_decide. Qed.

Lemma stream_snoc pc log out p e : stream pc log out -> piece pc p e -> stream pc (log ++ [e]) (out ++ p).
Proof.
  intros (ps & -> & Hf) Hp. exists (ps ++ [p]). split; [rewrite concat_app; simpl; by rewrite app_nil_r|].
  apply Forall2_app; [done|]. by constructor.
Qed.

Lemma stream_mono (pc pc' : Prop) log out : (pc -> pc') -> stream pc log out -> stream pc' log out.
Proof.
  intros Hpc (ps & -> & Hf). exists ps. split; [done|]. eapply Forall2_impl; [exact Hf|]. intros p e (H1 & H2 & H3). split_and!; [done|done|].
  intros He. destruct (H3 He); auto.
Qed.

Lemma quiet_snoc tr e : quiet tr -> (forall id, callback_of e = Some id -> ~ close_called id tr) -> quiet (tr ++ [e]).
Proof.
  intros Hq He pre e' post id E Hc. destruct post as [|x post] using rev_ind.
  - apply app_inj_tail in E as [-> ->]. eauto.
  - rewrite app_comm_cons, app_assoc in E. apply app_inj_tail in E as [-> _]. eauto.
Qed.

Lemma close_called_snoc id tr e : close_called id (tr ++ [e]) -> close_called id tr \/ exists r, e = EvClose id r.
Proof. intros (r & [?|Hin]%elem_of_app); [left; by exists r|right]. apply list_elem_of_singleton in Hin as <-. eauto. Qed.

(** The session that an event is about. *)
Definition about (id : Z) (e : event) : Prop :=
  match e with
  | EvAccept _ _ => False
  | EvForward _ _ => True
  | EvConnect j | EvReceive j _ | EvClose j _ | EvBufferFull j | EvBufferEmpty j | EvPeerClosed j | EvSend j _ _ => j = id
  end.

Lemma about_accept id es : Forall (about id) es -> forall j a, EvAccept j a ∉ es.
Proof. intros Hf j a Hin. by apply (proj1 (Forall_forall _ _) Hf) in Hin. Qed.

Lemma about_sends id es j : Forall (about id) es -> j <> id -> sends j es = [].
Proof.
  intros Hf Hne. induction Hf as [|e es He _ IH]; [done|]. unfold sends in *. cbn [omap list_omap].
  destruct e; try exact IH. simpl in He. subst. rewrite decide_False by done. exact IH.
Qed.

Lemma about_close id es j tr : Forall (about id) es -> j <> id -> close_called j (tr ++ es) -> close_called j tr.
Proof.
  intros Hf Hne (r & [?|Hin]%elem_of_app); [by exists r|]. by apply (proj1 (Forall_forall _ _) Hf) in Hin.
Qed.

Lemma about_peer id es j tr : Forall (about id) es -> j <> id -> EvPeerClosed j ∈ tr ++ es -> EvPeerClosed j ∈ tr.
Proof. intros Hf Hne [?|Hin]%elem_of_app; [done|]. by apply (proj1 (Forall_forall _ _) Hf) in Hin. Qed.

Lemma about_output id es j tr fl fl' s : Forall (about id) es -> j <> id -> inflight fl' j = inflight fl j ->
  output_ok tr fl j s -> output_ok (tr ++ es) fl' j s.
Proof.
  intros Hf Hne Hfl (out & Hs & Ho). exists out. rewrite Hfl. split; [|done].
  assert (sends j (tr ++ es) = sends j tr) as -> by (unfold sends; rewrite omap_app; fold (sends j es); rewrite (about_sends id) by done; apply app_nil_r).
  eapply stream_mono; [|exact Hs]. intros ?. apply elem_of_app. by left.
Qed.

(** A step that changes one open connection, its socket, and what happened. *)
Record touched (st st' : State) (i : Z) (a : nat) (c' : Connection) (s' : Sock) (es : list event) : Prop := {
  t_conn : forall j, conn_at st' j = if decide (j = i) then c' else conn_at st j;
  t_sock : sockets st' = <[a := s']> (sockets st);
  t_sess : session_list st' = session_list st;
  t_round : session_round st' = session_round st;
  t_min : min_fd st' = min_fd st;
  t_max : max_fd st' = max_fd st;
  t_trace : trace st' = trace st ++ es;
}.

(** What the step keeps of the connection. *)
Record kept (st st' : State) (i : Z) (a : nat) (c' : Connection) (s' : Sock) : Prop := {
  k_conn : active c' = true /\ cfd c' = i /\ server_fd c' = listen_fd cfg /\ csocket c' = Some a /\ session_id c' = session_id (conn_at st i);
  k_sock : sfd s' = i /\ object s' = Some i /\ freed s' = false;
  k_io : io_ok (has c' f_overflow) (io s');
  k_notify : has c' f_close_notify = false;
  k_peer : has c' f_peer_closed = true -> EvPeerClosed (session_id c') ∈ trace st';
  k_open : has c' f_closed = false -> ~ close_called (session_id c') (trace st');
  k_ssl : has c' f_ssl = has (conn_at st i) f_ssl;
}.

Lemma conn_ok_ext st st' i a s : conn_ok st i a s -> conn_at st' i = conn_at st i -> sockets st' !! a = sockets st !! a ->
  session_list st' !! session_index (session_id (conn_at st i)) = session_list st !! session_index (session_id (conn_at st i)) ->
  session_round st <= session_round st' -> (forall e, e ∈ trace st -> e ∈ trace st') ->
  (close_called (session_id (conn_at st i)) (trace st') -> close_called (session_id (conn_at st i)) (trace st)) -> conn_ok st' i a s.
Proof.
  intros [H1 H2 H3 H4 H5 H6 H7 H8 H9 H10 H11 H12 H13 H14 H15 H16] Ec Es El Er Ht Hc. split; rewrite ?Ec, ?Es, ?El; try done; [lia|eauto|eauto|].
  intros Hf Hx. exact (H15 Hf (Hc Hx)).
Qed.

Lemma conn_ok_other st st' i a c' s' es j aj sj fl : winv fl st -> touched st st' i a c' s' es -> conn_ok st i a (default s' (sockets st !! a)) ->
  Forall (about (session_id (conn_at st i))) es -> j <> i -> conn_ok st j aj sj -> conn_ok st' j aj sj.
Proof.
  intros Hw [Tc Ts Tl Tr _ _ Tt] Hi He Hne Hj.
  assert (conn_at st' j = conn_at st j) as Ec by (rewrite Tc; by rewrite decide_False).
  assert (aj <> a) as Ha.
  { intros ->. pose proof (co_sock _ _ _ _ Hj) as E. pose proof (co_sfd _ _ _ _ Hj). pose proof (co_sfd _ _ _ _ Hi) as E2. rewrite E in E2. simpl in E2. congruence. }
  assert (session_id (conn_at st j) <> session_id (conn_at st i)) as Hid.
  { intros E. apply Ha. eapply (w_unique _ _ Hw); [apply Hj|apply Hi|done]. }
  apply (conn_ok_ext st); rewrite ?Tl, ?Tr, ?Tt; try done.
  - rewrite Ts. by rewrite list_lookup_insert_ne by done.
  - intros e Hin. apply elem_of_app. by left.
  - by apply (about_close _ _ _ _ He Hid).
Qed.

Lemma winv_touch fl fl' st st' i a s c' s' es : winv fl st -> active (conn_at st i) = true -> conn_ok st i a s ->
  touched st st' i a c' s' es -> kept st st' i a c' s' ->
  Forall (about (session_id (conn_at st i))) es ->
  (forall j, j <> session_id (conn_at st i) -> inflight fl' j = inflight fl j) ->
  output_ok (trace st') fl' (session_id (conn_at st i)) s' -> quiet (trace st') -> winv fl' st'.
Proof.
  intros Hw Hact Hi Ht Hk He Hfl Ho Hq. pose proof Ht as [Tc Ts Tl Tr Tmin Tmax Tt]. destruct Hk as [(K1 & K2 & K3 & K4 & K5) (K6 & K7 & K8) K9 K10 K11 K12 K13].
  assert (conn_at st' i = c') as Ec by (rewrite Tc; by rewrite decide_True).
  pose proof (co_sock _ _ _ _ Hi) as Es. assert (a < length (sockets st))%nat as Hlt by (by eapply lookup_lt_Some).
  assert (sockets st' !! a = Some s') as Es' by (rewrite Ts; by apply list_lookup_insert_eq).
  assert (forall j, active (conn_at st' j) = true -> active (conn_at st j) = true) as Hactive.
  { intros j. rewrite Tc. case_decide; [by subst|done]. }
  assert (forall j b, EvAccept j b ∈ trace st' <-> EvAccept j b ∈ trace st) as Hacc.
  { intros j b. rewrite Tt, elem_of_app. split; [|by left]. intros [?|Hin]; [done|]. by apply (about_accept _ _ He) in Hin. }
  split.
  - rewrite Tr. apply Hw.
  - intros j Hj. destruct (decide (j = i)) as [->|Hne].
    + exists a, s'. split; rewrite ?Ec; try done; rewrite ?K5, ?Tl, ?Tr; [apply Hi|apply Hi|apply Hi| |rewrite K13; apply Hi]. apply Hacc, Hi.
    + destruct (w_conn _ _ Hw j (Hactive j Hj)) as (aj & sj & Hcj). exists aj, sj. eapply conn_ok_other; try done. by rewrite Es.
  - intros b sb j Hb Hf Hob. rewrite Ts in Hb. destruct (decide (b = a)) as [->|Hne].
    + rewrite list_lookup_insert_eq in Hb by done. injection Hb as <-. rewrite K7 in Hob. injection Hob as <-. by rewrite Ec.
    + rewrite list_lookup_insert_ne in Hb by done. destruct (w_sock _ _ Hw b sb j Hb Hf Hob) as [Ha Hc].
      rewrite Tc. case_decide as Hd; [|done]. subst j. rewrite (co_socket _ _ _ _ Hi) in Hc. congruence.
  - intros id b Hin%Hacc. destruct (w_accept _ _ Hw id b Hin) as (Hid & sb & Hb & Hob). rewrite Tr. split; [done|].
    destruct (decide (b = a)) as [->|Hne].
    + exists s'. split; [done|]. assert (id = session_id (conn_at st i)) as -> by (eapply (w_unique _ _ Hw); [done|apply Hi|done]). done.
    + exists sb. split; [rewrite Ts; by rewrite list_lookup_insert_ne|]. rewrite Tt. eapply about_output; [done| | |done].
      * intros ->. apply Hne. eapply (w_unique _ _ Hw); [done|apply Hi|done].
      * apply Hfl. intros ->. apply Hne. eapply (w_unique _ _ Hw); [done|apply Hi|done].
  - intros id b id' b' H1%Hacc H2%Hacc. by eapply (w_unique _ _ Hw).
  - intros id Hno. assert (id <> session_id (conn_at st i)) as Hne by (intros ->; eapply Hno, Hacc, Hi).
    destruct (w_none _ _ Hw id) as [Hs Hc]; [intros b Hin; by eapply Hno, Hacc|]. rewrite Tt. split.
    + unfold sends. rewrite omap_app. fold (sends id es). rewrite (about_sends _ _ _ He Hne). by rewrite app_nil_r.
    + intros Hx. apply Hc. by eapply about_close.
  - done.
  - intros Hfd. rewrite Tmin, Tmax. destruct (w_fds _ _ Hw Hfd) as [? Hr]. split; [done|]. intros j Hj. apply Hr. by apply Hactive.
Qed.

(** A change of the connection only. *)
Lemma winv_conn fl st i a s g : winv fl st -> active (conn_at st i) = true -> conn_ok st i a s ->
  kept st (upd_conn i g st) i a (g (conn_at st i)) s -> winv fl (upd_conn i g st).
Proof.
  intros Hw Ha Hi Hk. eapply (winv_touch fl fl); try done.
  - split; try done; [intros j; apply conn_at_upd| |by rewrite app_nil_r]. symmetry. apply list_insert_id, Hi.
  - destruct (w_accept _ _ Hw _ _ (co_accept _ _ _ _ Hi)) as (_ & s0 & E & Ho). rewrite (co_sock _ _ _ _ Hi) in E. by injection E as <-.
  - apply Hw.
Qed.

(** The flags that only the connection knows of. *)
Definition plain_flag (f : flag) : bool := match f with f_overflow | f_close_notify | f_peer_closed | f_closed | f_ssl => false | _ => true end.

Lemma set_flag_same f g v c : f <> g -> has (set_flag f v c) g = has c g.
Proof. intros. unfold set_flag. cbn [has]. by rewrite decide_False by congruence. Qed.
Lemma set_flag_eq f v c : has (set_flag f v c) f = v.
Proof. unfold set_flag. cbn [has]. by rewrite decide_True. Qed.

(** The connection is the same, but for its flags and counters. *)
Lemma kept_conn st st' i a s c' s' : conn_ok st i a s -> active (conn_at st i) = true ->
  (active c', cfd c', session_id c', csocket c', server_fd c') = (active (conn_at st i), cfd (conn_at st i), session_id (conn_at st i), csocket (conn_at st i), server_fd (conn_at st i)) ->
  (forall f, plain_flag f = false -> has c' f = has (conn_at st i) f) -> trace st' = trace st ->
  (sfd s', object s', freed s') = (sfd s, object s, freed s) -> io_ok (has c' f_overflow) (io s') -> kept st st' i a c' s'.
Proof.
  intros Hi Ha [= E1 E2 E3 E4 E5] Hf Et [= F1 F2 F3] Hio. destruct Hi. split; rewrite ?Et; try done.
  - split_and!; congruence.
  - split_and!; congruence.
  - by rewrite Hf by done.
  - rewrite Hf by done. by rewrite E3.
  - rewrite Hf by done. by rewrite E3.
  - by apply Hf.
Qed.

Lemma winv_flag fl st i f v : winv fl st -> active (conn_at st i) = true -> plain_flag f = true -> winv fl (upd_conn i (set_flag f v) st).
Proof.
  intros Hw Ha Hf. destruct (w_conn _ _ Hw i Ha) as (a & s & Hi). eapply winv_conn; [done|done|done|]. eapply kept_conn; try done.
  - intros g Hg. apply set_flag_same. intros ->. congruence.
  - rewrite set_flag_same; [apply Hi|]. intros ->. done.
Qed.

(** ** Looking up sessions *)

Context (Hmax : 0 < max_connection cfg <= SW_SESSION_LIST_SIZE) (Hwid : 0 <= worker_id cfg < 256).

Lemma session_index_nonneg id : 0 <= id -> 0 <= session_index id.
Proof. intros. apply Z.rem_nonneg; [done|lia]. Qed.

Lemma get_session_total st id : 0 <= id -> get_session st id = Some (default no_session (session_list st !! session_index id)).
Proof. intros Hid. unfold get_session. apply session_index_nonneg in Hid. by destruct (Z.leb_spec 0 (session_index id)); [|lia]. Qed.

Lemma get_connection_in i : 0 <= i < max_connection cfg -> get_connection cfg i = Some i.
Proof.
  intros. unfold get_connection, SW_SESSION_LIST_SIZE in *. rewrite uN_small by (unfold fits; lia). by destruct (Z.leb_spec (max_connection cfg) i); [lia|].
Qed.

Lemma get_connection_Some fd i : get_connection cfg fd = Some i -> i = fd.
Proof. unfold get_connection. by destruct (max_connection cfg <=? u32 fd); intros [=]. Qed.

(** The session id of an open connection leads to it, any other to nothing. *)
Lemma verify_open fl st i : winv fl st -> active (conn_at st i) = true -> get_connection_verify_no_ssl cfg st (session_id (conn_at st i)) = Some (Some i).
Proof.
  intros Hw Ha. destruct (w_conn _ _ Hw i Ha) as (a & s & Hi). unfold get_connection_verify_no_ssl.
  rewrite get_session_total by (pose proof (co_id _ _ _ _ Hi); lia). rewrite (co_session _ _ _ _ Hi). cbn [from_option id mbind option_bind sess_fd sess_id].
  rewrite get_connection_in by (pose proof (co_index _ _ _ _ Hi); lia). rewrite Ha, Z.eqb_refl. done.
Qed.

Lemma verify_total st id : 0 <= id -> exists r, get_connection_verify_no_ssl cfg st id = Some r /\
  forall i, r = Some i -> active (conn_at st i) = true /\ session_id (conn_at st i) = id.
Proof.
  intros Hid. unfold get_connection_verify_no_ssl. rewrite get_session_total by done. cbn [mbind option_bind].
  set (s := default no_session _). destruct (get_connection cfg (sess_fd s)) as [i|]; [|by exists None].
  destruct (active (conn_at st i)) eqn:Ha; [|by exists None]. cbn [negb].
  destruct (Z.eqb_spec (sess_id s) id), (Z.eqb_spec (session_id (conn_at st i)) id); cbn [negb orb]; try (by exists None).
  exists (Some i). split; [done|]. by intros ? [= <-].
Qed.

Lemma verify_ssl_total st id : 0 <= id -> exists r, get_connection_verify cfg st id = Some r /\
  forall i, r = Some i -> active (conn_at st i) = true /\ session_id (conn_at st i) = id.
Proof.
  intros Hid. unfold get_connection_verify. destruct (verify_total st id Hid) as (r & -> & Hr). cbn [mbind option_bind].
  destruct r as [i|]; [|by exists None]. destruct (_ && _); [by exists None|]. by exists (Some i).
Qed.

Lemma get_socket_ok st i a s : conn_ok st i a s -> get_socket st a = Some s.
Proof. intros Hi. unfold get_socket. rewrite (co_sock _ _ _ _ Hi). cbn [mbind option_bind]. by rewrite (co_live _ _ _ _ Hi). Qed.

(** ** Closing a connection *)

Lemma find_max_spec n st f : (Z.to_nat (f - min_fd st) <= n)%nat -> let m := find_max_fd cfg n st f in
  m <= f /\ (forall j, m < j <= f -> is_valid_connection st (get_connection cfg j) = false) /\ (m = f \/ min_fd st <= m).
Proof.
  revert f. induction n as [|n IH]; intros f Hn; cbn [find_max_fd]; [split_and!; [lia|lia|by left]|].
  destruct (is_valid_connection st (get_connection cfg f)) eqn:Ev; cbn [negb andb]; [split_and!; [lia|lia|by left]|].
  destruct (Z.ltb_spec (min_fd st) f); [|split_and!; [lia|lia|by left]].
  destruct (IH (f - 1)) as (H1 & H2 & H3); [lia|]. split_and!; [lia| |lia]. intros j Hj.
  destruct (decide (j = f)) as [->|]; [done|]. apply H2. lia.
Qed.

Lemma valid_active fl st i : winv fl st -> active (conn_at st i) = true -> is_valid_connection st (get_connection cfg i) = true.
Proof.
  intros Hw Ha. destruct (w_conn _ _ Hw i Ha) as (a & s & Hi). rewrite get_connection_in by (pose proof (co_index _ _ _ _ Hi); lia).
  unfold is_valid_connection. by rewrite (co_socket _ _ _ _ Hi).
Qed.

Lemma session_apart fl st i j : winv fl st -> active (conn_at st i) = true -> active (conn_at st j) = true -> i <> j ->
  session_index (session_id (conn_at st j)) <> session_index (session_id (conn_at st i)).
Proof.
  intros Hw Hi Hj Hne E. destruct (w_conn _ _ Hw i Hi) as (a & s & Hci), (w_conn _ _ Hw j Hj) as (b & t & Hcj).
  pose proof (co_session _ _ _ _ Hci) as E1. pose proof (co_session _ _ _ _ Hcj) as E2. rewrite E, E1 in E2. by injection E2.
Qed.

(** Sockets are not made, and do not change their connection. *)
Definition same_objects (st st' : State) : Prop := forall a s', sockets st' !! a = Some s' -> freed s' = false ->
  exists s, sockets st !! a = Some s /\ freed s = false /\ object s = object s'.

Lemma same_objects_insert st st' a s s' : sockets st !! a = Some s -> sockets st' = <[a := s']> (sockets st) ->
  (freed s' = false -> freed s = false /\ object s = object s') -> same_objects st st'.
Proof.
  intros Hs E Hf b t Hb Hl. rewrite E in Hb. destruct (decide (b = a)) as [->|Hne].
  - rewrite list_lookup_insert_eq in Hb by (by eapply lookup_lt_Some). injection Hb as <-. destruct (Hf Hl). eauto.
  - rewrite list_lookup_insert_ne in Hb by done. eauto.
Qed.

(** What closing does to the connections. *)
Record closed_conn (st st' : State) (i : Z) : Prop := {
  cl_other : forall j, j <> i -> conn_at st' j = conn_at st j;
  cl_conn : active (conn_at st' i) = false;
  cl_trace : trace st' = trace st;
  cl_round : session_round st' = session_round st;
  cl_socks : length (sockets st') = length (sockets st);
  cl_objects : same_objects st st';
}.

Lemma close_ok st i a s : winv None st -> active (conn_at st i) = true -> conn_ok st i a s ->
  exists st', close_connection cfg st a = Some st' /\ winv None st' /\ closed_conn st st' i.
Proof.
  intros Hw Ha Hi. pose proof (co_id _ _ _ _ Hi) as Hid. unfold close_connection. rewrite (get_socket_ok _ _ _ _ Hi). cbn [mbind option_bind].
  rewrite (co_object _ _ _ _ Hi). cbn [mbind option_bind]. rewrite get_session_total by (cbn; unfold conn_at in *; cbn; lia). cbn [mbind option_bind].
  set (s1 := if removed (io s) then s else del_event s).
  assert (sfd s1 = i /\ wire (io s1) = wire (io s)) as [Hfd Hwire] by (unfold s1; destruct (removed (io s)); split; try done; apply Hi).
  set (st1 := put_session _ _ _). rewrite Hfd.
  assert (forall j, conn_at st1 j = conn_at st j) as Ec1 by done. set (id := session_id (conn_at st i)) in *.
  set (st2 := if i =? max_fd st1 then _ else st1). set (f := fun c : Connection => _). set (s2 := mkSock _ _ _ _ true).
  assert (forall j, conn_at st2 j = conn_at st j) as Ec2 by (unfold st2; destruct (i =? max_fd st1); done).
  assert (session_list st2 = <[session_index id := mkSession id 0 (worker_id cfg)]> (session_list st)) as El.
  { assert (session_list st2 = session_list st1) as -> by (unfold st2; by destruct (i =? max_fd st1)). unfold st1, put_session. cbn [with_sessions session_list].
    change (session_id (conn_at (with_counts st _ _ _ _) i)) with id. cbn [with_counts session_list]. unfold id. rewrite (co_session _ _ _ _ Hi). done. }
  assert (sockets st2 = sockets st /\ trace st2 = trace st /\ session_round st2 = session_round st) as (E1 & E2 & E3) by (unfold st2; by destruct (i =? max_fd st1)).
  set (st3 := put_socket a s2 (upd_conn i f st2)). exists st3. split; [done|].
  assert (forall j, conn_at st3 j = if decide (j = i) then f (conn_at st i) else conn_at st j) as Ec3.
  { intros j. change (conn_at st3 j) with (conn_at (upd_conn i f st2) j). rewrite conn_at_upd, !Ec2. done. }
  assert (sockets st3 = <[a := s2]> (sockets st)) as Es3 by (unfold st3; cbn [put_socket with_sockets sockets upd_conn with_conns]; by rewrite E1).
  assert (trace st3 = trace st) as Et3 by exact E2. assert (session_round st3 = session_round st) as Er3 by exact E3.
  assert (session_list st3 = session_list st2) as El3 by done.
  assert (a < length (sockets st))%nat as Hlt by (eapply lookup_lt_Some, Hi).
  assert (forall j, active (conn_at st3 j) = true -> j <> i /\ active (conn_at st j) = true) as Hact.
  { intros j. rewrite Ec3. case_decide; [done|]. by split. }
  split; [|split; [intros j Hj; rewrite Ec3; by rewrite decide_False|rewrite Ec3; by rewrite decide_True|done|done|rewrite Es3; apply length_insert|]].
  2: { eapply same_objects_insert; [apply Hi|exact Es3|done]. }
  split.
  - rewrite Er3. apply Hw.
  - intros j [Hne Hj]%Hact. destruct (w_conn _ _ Hw j Hj) as (b & t & Hcj). exists b, t. pose proof (session_apart _ _ i j Hw Ha Hj ltac:(done)) as Hap.
    assert (b <> a) as Hb. { intros ->. pose proof (co_sock _ _ _ _ Hcj) as X. rewrite (co_sock _ _ _ _ Hi) in X. injection X as ->. pose proof (co_sfd _ _ _ _ Hi). pose proof (co_sfd _ _ _ _ Hcj). congruence. }
    apply (conn_ok_ext st); rewrite ?Ec3, ?decide_False by done; rewrite ?Et3, ?Er3; try done.
    + rewrite Es3. by rewrite list_lookup_insert_ne by done.
    + rewrite El3, El. by rewrite lookup_insert_ne by done.
  - intros b t j Hb Hf Ho. rewrite Es3 in Hb. destruct (decide (b = a)) as [->|Hne].
    + rewrite list_lookup_insert_eq in Hb by done. by injection Hb as <-.
    + rewrite list_lookup_insert_ne in Hb by done. destruct (w_sock _ _ Hw b t j Hb Hf Ho) as [Hj Hc]. rewrite Ec3. case_decide; [|done].
      subst j. rewrite (co_socket _ _ _ _ Hi) in Hc. congruence.
  - intros j b Hin. rewrite Et3 in Hin. destruct (w_accept _ _ Hw j b Hin) as (Hj & t & Hb & Ho). rewrite Er3. split; [done|]. rewrite Es3, Et3.
    destruct (decide (b = a)) as [->|Hne]; [|exists t; by rewrite list_lookup_insert_ne by done].
    exists s2. rewrite list_lookup_insert_eq by done. split; [done|]. destruct Ho as (out & Hs & Ho). exists out. split; [done|]. cbn [freed s2 io].
    rewrite Hwire. rewrite (co_sock _ _ _ _ Hi) in Hb. injection Hb as <-. rewrite (co_live _ _ _ _ Hi) in Ho. cbn [inflight] in Ho. rewrite app_nil_r in Ho. by eexists.
  - rewrite Et3. apply Hw.
  - rewrite Et3. apply Hw.
  - rewrite Et3. apply Hw.
  - intros Hfds. destruct (w_fds _ _ Hw Hfds) as [Hmm Hr]. pose proof (Hr i Ha) as Hri.
    assert (min_fd st3 = min_fd st) as -> by (unfold st3, st2; cbn [put_socket with_sockets upd_conn with_conns min_fd]; by destruct (i =? max_fd st1)).
    assert (max_fd st3 = if i =? max_fd st then find_max_fd cfg (Z.to_nat (i - 1 - min_fd st)) st1 (i - 1) else max_fd st) as ->.
    { unfold st3, st2. cbn [put_socket with_sockets upd_conn with_conns max_fd]. change (max_fd st1) with (max_fd st). by destruct (i =? max_fd st). }
    destruct (Z.eqb_spec i (max_fd st)) as [Em|Em]; [|split; [done|intros j [_ Hj]%Hact; by apply Hr]].
    destruct (find_max_spec (Z.to_nat (i - 1 - min_fd st)) st1 (i - 1)) as (M1 & M2 & M3); [done|]. set (m := find_max_fd _ _ _ _) in *. clearbody m.
    change (min_fd st1) with (min_fd st) in M3. split; [lia|]. intros j [Hne Hj]%Hact. pose proof (Hr j Hj). split; [lia|].
    destruct (Z.le_gt_cases j m); [done|]. specialize (M2 j ltac:(lia)). pose proof (valid_active _ _ j Hw Hj) as Hv.
    assert (is_valid_connection st1 (get_connection cfg j) = is_valid_connection st (get_connection cfg j)) by done. congruence.
Qed.

(** ** A new connection *)

(** Entries that are not in use do not matter. *)
Lemma winv_dead fl st i g : winv fl st -> active (conn_at st i) = false -> active (g (conn_at st i)) = false -> winv fl (upd_conn i g st).
Proof.
  intros Hw Hi Hg. assert (forall j, active (conn_at (upd_conn i g st) j) = true -> j <> i /\ active (conn_at st j) = true) as Hact.
  { intros j. rewrite conn_at_upd. case_decide; [congruence|done]. }
  destruct Hw as [W1 W2 W3 W4 W5 W6 W7 W8]. split; try done.
  - intros j [Hne Hj]%Hact. destruct (W2 j Hj) as (a & s & Hc). exists a, s. eapply conn_ok_ext; try done. rewrite conn_at_upd. by rewrite decide_False.
  - intros a s j Hs Hf Ho. destruct (W3 a s j Hs Hf Ho) as [Hj Hc]. rewrite conn_at_upd. case_decide; [congruence|done].
  - intros Hfd. destruct (W8 Hfd) as [? Hr]. split; [done|]. intros j [_ Hj]%Hact. by apply Hr.
Qed.

Lemma find_slot_ok n st id : 0 <= id -> id + Z.of_nat n < 2 ^ 63 -> exists r, find_slot n st id = Some r /\
  forall j, r = Some j -> id < j <= id + Z.of_nat n /\ sess_fd (default no_session (session_list st !! session_index j)) = 0.
Proof.
  revert id. induction n as [|n IH]; intros id Hid Hn; cbn [find_slot]; [by exists None|].
  destruct (Z.leb_spec (2 ^ 63) (id + 1)); [lia|]. rewrite get_session_total by lia. cbn [mbind option_bind].
  destruct (Z.eqb_spec (sess_fd (default no_session (session_list st !! session_index (id + 1)))) 0) as [E|E].
  - exists (Some (id + 1)). split; [done|]. intros j [= <-]. split; [lia|done].
  - destruct (IH (id + 1)) as (r & -> & Hr); [lia..|]. exists r. split; [done|]. intros j Hj. destruct (Hr j Hj). split; [lia|done].
Qed.

Lemma stream_failed pc log : Forall (fun e : list Z * bool => e.2 = false) log -> stream pc log [].
Proof.
  intros Hf. exists (replicate (length log) []). split; [clear; by induction (length log)|]. induction Hf as [|e log He _ IH]; [constructor|].
  simpl. constructor; [|apply IH]. split_and!; [apply prefix_nil|congruence|by left].
Qed.

(** A socket that [accept] gave. *)
Record fresh_sock (st : State) (a : nat) (s : Sock) : Prop := {
  fs_sock : sockets st !! a = Some s;
  fs_live : freed s = false;
  fs_object : object s = None;
  fs_index : 0 < sfd s < max_connection cfg;
  fs_free : active (conn_at st (sfd s)) = false;
  fs_new : forall id, EvAccept id a ∉ trace st;
  fs_wire : wire (io s) = [] /\ out_buffer (io s) = None;
  fs_inv : inv files true (io s);
}.

Context (HB : 0 < B) (HL : 0 < L) (HBL : B + 2 * L < 2 ^ 32) (Hsize : socket_buffer_size cfg = B).

(** What a new connection changes. *)
Record added_conn (st st' : State) (a : nat) (fd id : Z) : Prop := {
  ad_conn : active (conn_at st' fd) = true /\ csocket (conn_at st' fd) = Some a /\ has (conn_at st' fd) f_closed = false /\
    has (conn_at st' fd) f_closing = false;
  ad_other : forall j, j <> fd -> conn_at st' j = conn_at st j;
  ad_trace : trace st' = trace st ++ [EvAccept id a];
  ad_round : session_round st < session_round st' <= session_round st + max_connection cfg;
  ad_socks : length (sockets st') = length (sockets st);
  ad_sockets : forall b, b <> a -> sockets st' !! b = sockets st !! b;
}.

Lemma fresh_conn_ok st st' a s s' id c : fresh_sock st a s -> winv None st -> session_round st < id ->
  sockets st' = <[a := s']> (sockets st) -> conn_at st' (sfd s) = c ->
  (sfd s', object s', freed s') = (sfd s, Some (sfd s), freed s) -> wire (io s') = [] -> out_buffer (io s') = None -> inv files true (io s') -> buffer_size (io s') = B ->
  (cfd c, session_id c, csocket c, server_fd c) = (sfd s, id, Some a, listen_fd cfg) ->
  (forall f, f <> f_ssl -> has c f = false) ->
  session_list st' !! session_index id = Some (mkSession id (sfd s) (worker_id cfg)) -> session_round st' = id -> trace st' = trace st ++ [EvAccept id a] ->
  (has c f_ssl = true -> enable_delay_receive cfg = false) ->
  conn_ok st' (sfd s) a s'.
Proof.
  intros [F1 F2 F3 F4 F5 F6 F7 F8] Hw Hr Es Ec [= S1 S2 S3] Hwi Hou Hinv Hbs [= C1 C2 C3 C4] Hfl Hse Ero Et Hdl. pose proof (w_round _ _ Hw).
  split; rewrite ?Ec, ?C2, ?Ero, ?Et; try done; try congruence; try lia.
  - rewrite Es. apply list_lookup_insert_eq. by eapply lookup_lt_Some.
  - apply elem_of_app. right. by left.
  - split; unfold total; rewrite ?Hou; [done|done|lia|lia].
  - by rewrite Hfl by done.
  - rewrite Hfl by done. done.
  - intros _ [Hc|[r [=]]]%close_called_snoc. destruct (w_none _ _ Hw id) as [_ Hn]; [|done].
    intros b Hb. destruct (w_accept _ _ Hw _ _ Hb). lia.
Qed.

Lemma winv_add st st' a s s' id : winv None st -> fresh_sock st a s -> session_round st < id ->
  sess_fd (default no_session (session_list st !! session_index id)) = 0 ->
  (forall j, j <> sfd s -> conn_at st' j = conn_at st j) -> active (conn_at st' (sfd s)) = true -> conn_ok st' (sfd s) a s' ->
  sockets st' = <[a := s']> (sockets st) -> wire (io s') = [] -> out_buffer (io s') = None ->
  session_list st' = <[session_index id := mkSession id (sfd s) (worker_id cfg)]> (session_list st) -> session_round st' = id ->
  trace st' = trace st ++ [EvAccept id a] ->
  (min_fd st', max_fd st') = (if max_fd st <? sfd s then (min_fd st, sfd s) else if sfd s <? min_fd st then (sfd s, max_fd st) else (min_fd st, max_fd st)) ->
  winv None st'.
Proof.
  intros Hw Hf Hid Hslot Ec Ha Hnew Es Hwi Hou El Er Et Efd. pose proof (w_round _ _ Hw). pose proof (fs_free _ _ _ Hf) as Hdead.
  assert (a < length (sockets st))%nat as Hlt by (eapply lookup_lt_Some, Hf).
  assert (forall j b, EvAccept j b ∈ trace st' <-> EvAccept j b ∈ trace st \/ j = id /\ b = a) as Hacc.
  { intros j b. rewrite Et, elem_of_app, list_elem_of_singleton. split; [intros [?|[= -> ->]]; auto|intros [?|[-> ->]]; auto]. }
  assert (forall j b, EvAccept j b ∈ trace st -> j < id /\ b <> a) as Hold.
  { intros j b Hin. destruct (w_accept _ _ Hw _ _ Hin) as [? _]. split; [lia|]. intros ->. by eapply (fs_new _ _ _ Hf). }
  assert (forall j, sends j (trace st') = sends j (trace st)) as Hsends by (intros j; rewrite Et, sends_snoc; apply app_nil_r).
  assert (forall j, close_called j (trace st') -> close_called j (trace st)) as Hcl by (intros j; rewrite Et; by intros [?|[? [=]]]%close_called_snoc).
  split.
  - lia.
  - intros j Hj. destruct (decide (j = sfd s)) as [->|Hne]; [eauto|]. rewrite Ec in Hj by done. destruct (w_conn _ _ Hw j Hj) as (b & t & Hc). exists b, t.
    assert (b <> a) by (apply (Hold _ _ (co_accept _ _ _ _ Hc))). assert (session_index (session_id (conn_at st j)) <> session_index id) as Hap.
    { intros E. rewrite <- E, (co_session _ _ _ _ Hc) in Hslot. simpl in Hslot. pose proof (co_index _ _ _ _ Hc). lia. }
    apply (conn_ok_ext st); [done|by apply Ec|rewrite Es; by rewrite list_lookup_insert_ne|rewrite El; by rewrite lookup_insert_ne|lia| |apply Hcl].
    intros e He. rewrite Et. apply elem_of_app. by left.
  - intros b t j Hb Hl Ho. rewrite Es in Hb. destruct (decide (b = a)) as [->|Hne].
    + rewrite list_lookup_insert_eq in Hb by done. injection Hb as <-. rewrite (co_object _ _ _ _ Hnew) in Ho. injection Ho as <-. split; [done|apply Hnew].
    + rewrite list_lookup_insert_ne in Hb by done. destruct (w_sock _ _ Hw b t j Hb Hl Ho) as [? ?]. rewrite Ec; [done|]. intros ->. congruence.
  - intros j b [Hin|[-> ->]]%Hacc.
    + destruct (Hold _ _ Hin). destruct (w_accept _ _ Hw j b Hin) as (? & t & Hb & out & Hs & Ho). split; [lia|]. exists t.
      split; [rewrite Es; by rewrite list_lookup_insert_ne|]. exists out. rewrite Hsends. split; [|done]. eapply stream_mono; [|done]. rewrite Et. intros ?. apply elem_of_app. by left.
    + split; [lia|]. exists s'. split; [rewrite Es; by apply list_lookup_insert_eq|]. exists []. rewrite Hsends. destruct (w_none _ _ Hw id) as [Hn _]; [intros b Hb; destruct (Hold _ _ Hb); lia|].
      split; [by apply stream_failed|]. rewrite (co_live _ _ _ _ Hnew). unfold pending. by rewrite Hwi, Hou.
  - intros j b j' b' [H1|[-> ->]]%Hacc [H2|[-> ->]]%Hacc; [by eapply (w_unique _ _ Hw)| | |done].
    + destruct (Hold _ _ H1). split; intros; [lia|done].
    + destruct (Hold _ _ H2). split; intros; [lia|congruence].
  - intros j Hno. rewrite Hsends. destruct (w_none _ _ Hw j) as [? Hn]; [intros b Hb; eapply Hno, Hacc; by left|]. split; [done|]. auto.
  - rewrite Et. apply quiet_snoc; [apply Hw|done].
  - intros Hfds. destruct (w_fds _ _ Hw Hfds) as [Hmm Hr]. pose proof (fs_index _ _ _ Hf).
    assert (forall j, active (conn_at st' j) = true -> j = sfd s \/ min_fd st <= j <= max_fd st) as Hj.
    { intros j Hj. destruct (decide (j = sfd s)); [by left|right]. rewrite Ec in Hj by done. by apply Hr. }
    destruct (Z.ltb_spec (max_fd st) (sfd s)), (Z.ltb_spec (sfd s) (min_fd st)); injection Efd as E1 E2; rewrite E1, E2; (split; [lia|]);
      intros j Hx; destruct (Hj j Hx); lia.
Qed.

Lemma inv_resize x n r w rm : inv files true x -> 0 <= n < 2 ^ 32 -> inv files true (with_events (with_size x n) r w rm).
Proof. intros [I1 I2 I3 I4] Hn. split; [done|done| |done]. intros b Hb. destruct (I3 b Hb). by split. Qed.

Lemma add_connection_ok st a s (tls : bool) : (tls = true -> enable_delay_receive cfg = false) -> winv None st -> fresh_sock st a s -> session_round st + max_connection cfg < 2 ^ 63 ->
  exists st' r, add_connection cfg st a tls = Some (st', r) /\ winv None st' /\
    (r = Some (sfd s) /\ (exists id, added_conn st st' a (sfd s) id) \/
     r = None /\ fresh_sock st' a s /\ trace st' = trace st /\ session_round st' = session_round st /\ sockets st' = sockets st).
Proof.
  intros Htls Hw Hf Hround. pose proof (fs_free _ _ _ Hf) as Hdead. unfold add_connection, get_socket. rewrite (fs_sock _ _ _ Hf). cbn [mbind option_bind].
  rewrite (fs_live _ _ _ Hf). cbn [mbind option_bind]. set (z := fun c : Connection => _). set (st1 := upd_conn (sfd s) z st).
  assert (winv None st1) as Hw1 by (by apply winv_dead). assert (forall j, j <> sfd s -> conn_at st1 j = conn_at st j) as Ec1.
  { intros j Hj. unfold st1. rewrite conn_at_upd. by rewrite decide_False. }
  assert (conn_at st1 (sfd s) = z (conn_at st (sfd s))) as Ez by (unfold st1; rewrite conn_at_upd; by rewrite decide_True).
  assert (fresh_sock st1 a s) as Hf1 by (destruct Hf; split; try done; by rewrite Ez).
  destruct (find_slot_ok (Z.to_nat (max_connection cfg)) st1 (session_round st1)) as (r & -> & Hr); [apply Hw|change (session_round st1) with (session_round st); lia|].
  cbn [mbind option_bind]. destruct r as [id|].
  2: { exists st1, None. split; [done|]. split; [done|]. right. by split_and!. }
  destruct (Hr id eq_refl) as [Hid Hslot]. change (session_round st1) with (session_round st) in Hid. rewrite Z2Nat.id in Hid by lia.
  set (st2 := put_session _ _ _). set (s' := mkSock _ _ _ _ _). set (g := fun c : Connection => _).
  set (st5 := upd_conn (sfd s) g _). set (st6 := if max_fd st5 <? sfd s then _ else _).
  assert (forall j, conn_at st6 j = if decide (j = sfd s) then g (z (conn_at st (sfd s))) else conn_at st j) as Ec.
  { intros j. transitivity (conn_at st5 j); [unfold st6; by destruct (max_fd st5 <? sfd s), (sfd s <? min_fd st5)|]. unfold st5. rewrite conn_at_upd.
    change (conn_at (put_socket _ _ _) ?k) with (conn_at st1 k). rewrite Ez. case_decide; [done|by apply Ec1]. }
  set (st7 := emit (EvAccept id a) _). exists st7, (Some (sfd s)). split; [done|].
  assert (sockets st6 = <[a := s']> (sockets st) /\ session_list st6 = <[session_index id := mkSession id (sfd s) (u8 (worker_id cfg))]> (session_list st) /\
    session_round st6 = id /\ trace st6 = trace st) as (E1 & E2 & E3 & E4) by (unfold st6; by destruct (max_fd st5 <? sfd s), (sfd s <? min_fd st5)).
  rewrite uN_small in E2 by (unfold fits; lia).
  assert (conn_ok st7 (sfd s) a s') as Hok.
  { eapply (fresh_conn_ok st st7 a s s' id); try done; [lia|apply Hf|apply Hf|unfold s'; cbn [io]; rewrite Hsize; apply inv_resize; [apply Hf|lia]| | | | |].
    - change (conn_at st7 (sfd s)) with (conn_at st6 (sfd s)). rewrite Ec. by rewrite decide_True.
    - change (conn_at st7 (sfd s)) with (conn_at st6 (sfd s)). rewrite Ec. rewrite decide_True by done. intros f Hne. cbn [g has z].
      case_decide; [done|]. by rewrite decide_False.
    - change (session_list st7) with (session_list st6). rewrite E2. apply lookup_insert_eq.
    - cbn [st7 emit trace with_counts]. by rewrite E4.
    - change (conn_at st7 (sfd s)) with (conn_at st6 (sfd s)). rewrite Ec. by rewrite decide_True. }
  split.
  - eapply (winv_add st st7 a s s' id); try done; [lia| | | | | |].
    + intros j Hj. change (conn_at st7 j) with (conn_at st6 j). rewrite Ec. by rewrite decide_False.
    + change (conn_at st7 (sfd s)) with (conn_at st6 (sfd s)). rewrite Ec. by rewrite decide_True.
    + apply Hf.
    + apply Hf.
    + cbn [st7 emit trace with_counts]. by rewrite E4.
    + unfold st7, st6. cbn [emit with_counts min_fd max_fd]. change (max_fd st5) with (max_fd st). change (min_fd st5) with (min_fd st).
      by destruct (max_fd st <? sfd s), (sfd s <? min_fd st).
  - left. split; [done|]. exists id. split.
    + change (conn_at st7 (sfd s)) with (conn_at st6 (sfd s)). rewrite Ec. by rewrite decide_True.
    + intros j Hj. change (conn_at st7 j) with (conn_at st6 j). rewrite Ec. by rewrite decide_False.
    + cbn [st7 emit trace with_counts]. by rewrite E4.
    + change (session_round st7) with (session_round st6). lia.
    + change (sockets st7) with (sockets st6). rewrite E1. apply length_insert.
    + intros b Hb. change (sockets st7) with (sockets st6). rewrite E1. by rewrite list_lookup_insert_ne.
Qed.

(** ** Steps on one connection *)

Lemma touched_refl st i a s : conn_ok st i a s -> touched st st i a (conn_at st i) s [].
Proof. intros Hi. split; try done; [intros j; by case_decide; subst| |by rewrite app_nil_r]. symmetry. apply list_insert_id, Hi. Qed.

Lemma touched_upd st st1 i a c s es g : touched st st1 i a c s es -> touched st (upd_conn i g st1) i a (g c) s es.
Proof.
  intros [T1 T2 T3 T4 T5 T6 T7]. split; try done. intros j. rewrite conn_at_upd, !T1. rewrite (decide_True (P := i = i)) by done. by case_decide.
Qed.

Lemma touched_emit st st1 i a c s es e : touched st st1 i a c s es -> touched st (emit e st1) i a c s (es ++ [e]).
Proof. intros [T1 T2 T3 T4 T5 T6 T7]. split; try done. cbn [emit trace]. by rewrite T7, app_assoc. Qed.

Lemma touched_put st st1 i a c s s' es : touched st st1 i a c s es -> touched st (put_socket a s' st1) i a c s' es.
Proof. intros [T1 T2 T3 T4 T5 T6 T7]. split; try done. cbn [put_socket with_sockets sockets]. by rewrite T2, list_insert_insert_eq. Qed.

Lemma touched_conn st st1 i a c s es : touched st st1 i a c s es -> conn_at st1 i = c.
Proof. intros [T1 _ _ _ _ _ _]. rewrite T1. by rewrite decide_True. Qed.

(** What steps that do not accept keep of the connections: none is opened again, and one
    that is being closed stays. *)
Definition open_conn (st : State) (i : Z) : bool := active (conn_at st i) && negb (has (conn_at st i) f_closed).
Record framed (st st' : State) : Prop := {
  fr_open : forall i, open_conn st' i = true -> open_conn st i = true;
  fr_closing : forall i, active (conn_at st i) = true -> has (conn_at st i) f_closing = true ->
    active (conn_at st' i) = true /\ has (conn_at st' i) f_closing = true /\ csocket (conn_at st' i) = csocket (conn_at st i) /\
    session_id (conn_at st' i) = session_id (conn_at st i);
  fr_round : session_round st' = session_round st;
  fr_socks : length (sockets st') = length (sockets st);
  fr_trace : trace st `prefix_of` trace st';
  fr_objects : same_objects st st';
}.

Lemma framed_refl st : framed st st.
Proof. split; try done. intros a s. eauto. Qed.

Lemma framed_trans st1 st2 st3 : framed st1 st2 -> framed st2 st3 -> framed st1 st3.
Proof.
  intros [A1 A2 A3 A4 A5 A6] [B1 B2 B3 B4 B5 B6]. split; [auto| |congruence|congruence|by etrans|].
  2: { intros a s Hs Hf. destruct (B6 a s Hs Hf) as (s2 & Hs2 & Hf2 & <-). by apply A6. }
  intros i Hi Hc. destruct (A2 i Hi Hc) as (H1 & H2 & H3 & H4). destruct (B2 i H1 H2) as (H1' & H2' & H3' & H4'). split_and!; congruence.
Qed.

Lemma framed_touched st st' i a c' s s' es : sockets st !! a = Some s -> freed s = false -> object s = object s' -> touched st st' i a c' s' es -> active (conn_at st i) = true ->
  (active c', csocket c', session_id c') = (true, csocket (conn_at st i), session_id (conn_at st i)) ->
  (has (conn_at st i) f_closing = true -> has c' f_closing = true) -> (has (conn_at st i) f_closed = true -> has c' f_closed = true) -> framed st st'.
Proof.
  intros Hs Hf Hob [T1 T2 T3 T4 T5 T6 T7] Ha [= E1 E2 E3] Hcl Hcd. split.
  - intros j. unfold open_conn. rewrite T1. case_decide; [subst|done]. rewrite Ha, E1. cbn [andb]. intros Hx. destruct (has (conn_at st i) f_closed) eqn:E; [|done].
    by rewrite Hcd in Hx.
  - intros j Hj Hc. rewrite T1. case_decide; [subst|done]. split_and!; auto.
  - done.
  - rewrite T2. apply length_insert.
  - rewrite T7. by eexists.
  - by eapply same_objects_insert.
Qed.

Lemma framed_closed st st' i : closed_conn st st' i -> has (conn_at st i) f_closing = false -> framed st st'.
Proof.
  intros [C1 C2 C3 C4 C5 C6] Hc. split; [| |done|done|by rewrite C3|done].
  - intros j. unfold open_conn. destruct (decide (j = i)) as [->|Hne]; [by rewrite C2|]. by rewrite C1.
  - intros j Hj Hcj. destruct (decide (j = i)) as [->|Hne]; [congruence|]. by rewrite C1.
Qed.

(** ** Sending on a socket *)

Lemma direct_loop_ok fuel x d : d <> [] -> Forall (orderly files) (kernel x) -> (length (kernel x) <= fuel)%nat ->
  exists y n, direct_loop fuel x d = Some (y, n) /\ kernel_step x y /\ 0 <= n <= zlen d /\ wire y = wire x ++ take (Z.to_nat n) d.
Proof.
  intros Hd. revert x. induction fuel as [|fuel IH]; intros x Hk Hf; cbn [direct_loop]; (destruct (send_ok files x d Hd Hk) as (y & r & -> & Hs));
    cbn [mbind option_bind]; pose proof (st_step _ _ _ _ _ Hs) as Hst; (destruct (st_result _ _ _ _ _ Hs) as [(Hr & Hw & _)|(-> & Hw & Herr)]).
  1,3: destruct (Z.ltb_spec 0 r); [|lia]; rewrite orb_true_r; exists y, r; split_and!; [done|done|lia|lia|done].
  all: destruct (Z.eqb_spec (-1) (zlen d)) as [?|_]; [lia|]; cbn [orb Z.ltb Z.compare].
  - destruct (kernel x) eqn:Ek; [|simpl in Hf; lia]. destruct (st_over _ _ _ _ _ Hs Ek) as [_ ->]. exists y, 0. split_and!; [done|done|lia|lia|by rewrite app_nil_r].
  - destruct (errno_ y) as [e|] eqn:Ee; [exists y, 0; split_and!; [done|done|lia|lia|by rewrite app_nil_r]|].
    assert (kernel x <> []) as Hne by (intros E; destruct (st_over _ _ _ _ _ Hs E); congruence). pose proof (st_used _ _ _ _ _ Hs Hne).
    destruct (IH y) as (z & n & -> & Hz & Hn & Hwz); [eapply orderly_suffix; [apply Hst|done]|lia|].
    exists z, n. split_and!; [done|by eapply kernel_step_trans|lia|lia|by rewrite Hwz, Hw].
Qed.

Lemma io_ok_step ovf x y : io_ok ovf x -> kernel_step x y -> io_ok ovf y /\ pending y = pending x /\ out_buffer y = out_buffer x.
Proof.
  intros [I1 I2 I3 I4] Hk. destruct (kernel_step_inv _ _ _ _ Hk I1) as (Hi & Hp & Ho & _). destruct (same_kernel_step _ _ Hk) as [(Hb & _) _].
  split_and!; [|done|done]. split; unfold total in *; rewrite ?Ho, ?Hb; done.
Qed.

Lemma io_ok_kernel ovf x ks e : io_ok ovf x -> io_ok ovf (with_kernel x (wire x) ks e).
Proof. intros [[J1 J2 J3 J4] I2 I3 I4]. by split. Qed.

Lemma io_ok_events ovf x r w rm : io_ok ovf x -> io_ok ovf (with_events x r w rm).
Proof. intros [[J1 J2 J3 J4] I2 I3 I4]. by split. Qed.

Lemma need_buffer_ok ovf s : io_ok ovf (io s) -> exists b, out_buffer (io (need_buffer s)) = Some b /\ io_ok ovf (io (need_buffer s)) /\
  wire (io (need_buffer s)) = wire (io s) /\ pending (io (need_buffer s)) = pending (io s) /\
  (sfd (need_buffer s), object (need_buffer s), freed (need_buffer s)) = (sfd s, object s, freed s).
Proof.
  intros Hi. unfold need_buffer. destruct (out_buffer (io s)) as [b|] eqn:Eo; [by exists b|].
  exists (new_buffer SW_SEND_BUFFER_SIZE). unfold set_io, pending. cbn [io with_out out_buffer wire sfd object freed]. rewrite Eo. split_and!; try done.
  destruct Hi as [[J1 J2 J3 J4] I2 I3 I4]. split; [|done|unfold total; cbn; lia|intros _; unfold total; cbn; lia].
  split; [done|done| |done]. intros b [= <-]. split; [by apply new_buffer_wf|done].
Qed.

Lemma set_writable_io s : exists r w rm, set_writable s = set_io s (with_events (io s) r w rm).
Proof.
  unfold set_writable, add_write_event. destruct (ev_write (io s)) eqn:E; [|destruct (ev_read (io s)); eauto].
  exists (ev_read (io s)), true, (removed (io s)). rewrite <- E. by destruct s as [? [] ? ? ?].
Qed.

(** ** Sending to a connection *)

Lemma output_more tr es id s s' p : output_ok tr None id s -> sends id es = [] -> freed s = false -> freed s' = false ->
  wire (io s') ++ pending (io s') = wire (io s) ++ pending (io s) ++ p -> output_ok (tr ++ es) (Some (id, p)) id s'.
Proof.
  intros (out & Hs & Ho) He Hf Hf' Hb. rewrite Hf in Ho. cbn [inflight] in Ho. rewrite app_nil_r in Ho. exists out. split.
  - unfold sends. rewrite omap_app. fold (sends id tr) (sends id es). rewrite He, app_nil_r. eapply stream_mono; [|exact Hs]. intros ?. apply elem_of_app. by left.
  - rewrite Hf'. cbn [inflight]. rewrite decide_True by done. by rewrite Hb, app_assoc, Ho.
Qed.

Lemma output_conn st i a s fl : winv fl st -> conn_ok st i a s -> output_ok (trace st) fl (session_id (conn_at st i)) s.
Proof.
  intros Hw Hi. destruct (w_accept _ _ Hw _ _ (co_accept _ _ _ _ Hi)) as (_ & s' & E & Ho). rewrite (co_sock _ _ _ _ Hi) in E. by injection E as ->.
Qed.

Lemma io_ok_append x b d : io_ok false x -> out_buffer x = Some b -> d <> [] -> zlen d <= L ->
  exists b', append b d = Some b' /\ io_ok (B <=? total_length b) (with_out x (Some b')) /\ buffer_bytes b' = buffer_bytes b ++ d.
Proof.
  intros [I1 I2 I3 I4] Eo Hd Hl. destruct (iv_out _ _ _ I1 b Eo) as [Hw _]. specialize (I4 eq_refl). unfold total in *. rewrite Eo in I3, I4.
  destruct (buffer_append_ok files true b d Hw Hd) as (b' & E & Hw' & Ht & Hb); [lia|]. exists b'. split_and!; [done| |done].
  split; unfold total; cbn [with_out out_buffer buffer_size]; [|done|lia|intros ?%Z.leb_gt; lia].
  destruct I1 as [J1 J2 J3 J4]. split; try done. intros b1 [= <-]. by split.
Qed.

(** A step that leaves the connection as it is but for [overflow], [high_watermark] and
    the counters, and may call back about the output. *)
Definition output_flag (f : flag) : bool := match f with f_overflow | f_high_watermark | f_close_queued => true | _ => false end.
Definition mild (c c' : Connection) : Prop :=
  (active c', cfd c', session_id c', csocket c', server_fd c') = (active c, cfd c, session_id c, csocket c, server_fd c) /\
  forall f, output_flag f = false -> has c' f = has c f.

Lemma mild_refl c : mild c c.
Proof. done. Qed.
Lemma mild_flag f v c c' : mild c c' -> output_flag f = true -> mild c (set_flag f v c').
Proof. intros [E Hh] Hf. split; [done|]. intros g Hg. rewrite set_flag_same by (intros ->; congruence). by apply Hh. Qed.
Lemma mild_queued r n c c' : mild c c' -> mild c (set_queued r n c').
Proof. done. Qed.

Lemma winv_mild st st' i a s c' s' es p : winv None st -> active (conn_at st i) = true -> conn_ok st i a s ->
  touched st st' i a c' s' es -> mild (conn_at st i) c' -> (sfd s', object s', freed s') = (sfd s, object s, freed s) ->
  io_ok (has c' f_overflow) (io s') -> wire (io s') ++ pending (io s') = wire (io s) ++ pending (io s) ++ p ->
  es = [] \/ (exists e, es = [e] /\ (e = EvBufferFull (session_id (conn_at st i)) \/ e = EvBufferEmpty (session_id (conn_at st i)))) /\ has (conn_at st i) f_closed = false ->
  winv (Some (session_id (conn_at st i), p)) st' /\ framed st st'.
Proof.
  intros Hw Ha Hi Ht [[= M1 M2 M3 M4 M5] Hm] [= S1 S2 S3] Hio Hb Hes. pose proof (touched_conn _ _ _ _ _ _ _ Ht) as Ec. set (id := session_id (conn_at st i)) in *.
  assert (Forall (about id) es) as Hab by (destruct Hes as [->|[(e & -> & [->| ->]) _]]; by repeat constructor).
  assert (sends id es = []) as Hse by (destruct Hes as [->|[(e & -> & [->| ->]) _]]; done).
  assert (forall j, close_called j (trace st') -> close_called j (trace st)) as Hcl.
  { intros j. rewrite (t_trace _ _ _ _ _ _ _ Ht). intros (r & [?|Hin]%elem_of_app); [by exists r|]. destruct Hes as [->|[(e & -> & [->| ->]) _]]; set_solver. }
  assert (has c' f_closed = has (conn_at st i) f_closed /\ has c' f_closing = has (conn_at st i) f_closing) as [Hcd Hcg] by (split; apply Hm; done).
  split.
  - eapply (winv_touch None); try done.
    + split.
      * split_and!; [congruence|rewrite M2; apply Hi|rewrite M5; apply Hi|rewrite M4; apply Hi|done].
      * split_and!; [rewrite S1; apply Hi|rewrite S2; apply Hi|rewrite S3; apply Hi].
      * done.
      * rewrite Hm by done. apply Hi.
      * rewrite Hm by done. intros Hp. rewrite M3, (t_trace _ _ _ _ _ _ _ Ht). apply elem_of_app. left. by apply (co_peer _ _ _ _ Hi).
      * rewrite Hcd, M3. intros Hc Hx. by apply (co_open _ _ _ _ Hi Hc), Hcl.
      * by apply Hm.
    + intros j Hj. cbn [inflight]. by rewrite decide_False.
    + rewrite (t_trace _ _ _ _ _ _ _ Ht). eapply output_more; [by apply (output_conn st i a)|done|apply Hi|rewrite S3; apply Hi|done].
    + rewrite (t_trace _ _ _ _ _ _ _ Ht). destruct Hes as [->|[(e & -> & He) Hc]]; [rewrite app_nil_r; apply Hw|]. apply quiet_snoc; [apply Hw|].
      intros j Hj. assert (j = id) as -> by (destruct He as [->| ->]; by injection Hj). by apply (co_open _ _ _ _ Hi).
  - eapply framed_touched; [apply Hi|apply Hi|done|done|done|by rewrite M1, M3, M4, Ha|by rewrite Hcg|by rewrite Hcd].
Qed.

(** The connection while data is queued. *)
Lemma queue_touched st i a s s1 (full : bool) b : conn_ok st i a s -> active (conn_at st i) = true -> has (conn_at st i) f_overflow = false ->
  let st1 := if full then upd_conn i (set_flag f_overflow true) st else st in
  let st2 := if full && onBufferEmpty cfg && negb (onBufferFull cfg) then upd_conn i (set_flag f_high_watermark true) st1 else st1 in
  let st3 := upd_conn i (fun c => set_queued (recv_queued_bytes c) (total_length b) c) st2 in
  let st4 := if onBufferFull cfg && negb (has (conn_at st3 i) f_high_watermark) && (buffer_high_watermark cfg <=? total_length b) then
    upd_conn i (set_flag f_high_watermark true) (notify_buffer st3 i EvBufferFull true) else st3 in
  exists c' es, touched st (put_socket a s1 st4) i a c' s1 es /\ mild (conn_at st i) c' /\ has c' f_overflow = full /\
    (es = [] \/ (exists e, es = [e] /\ (e = EvBufferFull (session_id (conn_at st i)) \/ e = EvBufferEmpty (session_id (conn_at st i)))) /\ has (conn_at st i) f_closed = false).
Proof.
  intros Hi Ha Ho st1 st2 st3 st4.
  assert (exists c1, touched st st1 i a c1 s [] /\ mild (conn_at st i) c1 /\ has c1 f_overflow = full) as (c1 & T1 & M1 & O1).
  { unfold st1. destruct full; eexists; (split; [first [apply touched_upd|idtac]; by apply touched_refl|]); (split; [|done || apply set_flag_eq]); [apply mild_flag; [done|done]|done]. }
  assert (exists c2, touched st st2 i a c2 s [] /\ mild (conn_at st i) c2 /\ has c2 f_overflow = full) as (c2 & T2 & M2 & O2).
  { unfold st2. destruct (_ && _ && _); [|by exists c1]. exists (set_flag f_high_watermark true c1). split; [by apply touched_upd|].
    split; [apply mild_flag; [done|done]|by rewrite set_flag_same]. }
  pose proof (touched_upd _ _ _ _ _ _ _ (fun c => set_queued (recv_queued_bytes c) (total_length b) c) T2) as T3. fold st3 in T3. cbv beta in T3. set (c3 := set_queued (recv_queued_bytes c2) (total_length b) c2) in T3.
  assert (mild (conn_at st i) c3) as M3 by (by apply mild_queued). assert (has c3 f_overflow = full) as O3 by done. unfold st4. clearbody st3 c3. clear st4 st2 T1 T2 M1 M2 O1. destruct (_ && _ && _) eqn:Ew; [|exists c3, []; split; [exact (touched_put _ _ _ _ _ _ s1 _ T3)|auto]].
  pose proof (touched_conn _ _ _ _ _ _ _ T3) as E3. pose proof M3 as [[= A1 A2 A3 A4 A5] Hh]. unfold notify_buffer. rewrite E3, A1, Ha, A3. cbn [negb orb].
  exists (set_flag f_high_watermark true c3). rewrite (Hh f_closed) by done. destruct (has (conn_at st i) f_closed) eqn:Ec.
  - exists []. split_and!; [by eapply touched_put, touched_upd|apply mild_flag; [done|done]|by rewrite set_flag_same|by left].
  - exists [EvBufferFull (session_id (conn_at st i))]. split_and!; [eapply touched_put, touched_upd, (touched_emit _ _ _ _ _ _ [] _ T3)|apply mild_flag; [done|done]|by rewrite set_flag_same|right; eauto].
Qed.

Lemma queue_data_ok st i a s s1 b p d : winv None st -> active (conn_at st i) = true -> conn_ok st i a s -> has (conn_at st i) f_overflow = false ->
  (sfd s1, object s1, freed s1) = (sfd s, object s, freed s) -> io_ok false (io s1) -> out_buffer (io s1) = Some b ->
  wire (io s1) ++ pending (io s1) = wire (io s) ++ pending (io s) ++ p -> d <> [] -> zlen d <= L ->
  exists st' ok, queue_data cfg st i a s1 d = Some (st', ok) /\ framed st st' /\
    (ok = true /\ winv (Some (session_id (conn_at st i), p ++ d)) st' \/
     ok = false /\ winv (Some (session_id (conn_at st i), p)) st' /\ EvPeerClosed (session_id (conn_at st i)) ∈ trace st').
Proof.
  intros Hw Ha Hi Hov Hs Hio Eo Hb Hd Hl. unfold queue_data. destruct (has (conn_at st i) f_peer_closed) eqn:Ep.
  - eexists _, false. split; [done|].
    destruct (winv_mild st (put_socket a s1 st) i a s (conn_at st i) s1 [] p) as [Hw' Hf]; try done; [by eapply touched_put, touched_refl|by rewrite Hov|by left|].
    split; [done|]. right. split_and!; [done|done|]. by apply (co_peer _ _ _ _ Hi).
  - rewrite Eo. cbn [mbind option_bind]. rewrite (io_size _ _ Hio). destruct (io_ok_append (io s1) b d Hio Eo Hd Hl) as (b' & E & Hio' & Hbb).
    set (st1 := if B <=? total_length b then _ else st). rewrite E. cbn [mbind option_bind]. set (s2 := set_io s1 _).
    destruct (set_writable_io s2) as (r & w & rm & Ew). eexists _, true. split; [done|].
    destruct (queue_touched st i a s (set_writable s2) (B <=? total_length b) b' Hi Ha Hov) as (c' & es & T & M & O & He). fold st1 in T.
    destruct (winv_mild st _ i a s c' (set_writable s2) es (p ++ d) Hw Ha Hi T M) as [Hw' Hf]; [by rewrite Ew|rewrite Ew, O; by apply io_ok_events| |done|auto].
    rewrite Ew. unfold s2, pending in *. cbn [set_io io with_events with_out wire out_buffer]. rewrite Eo in Hb. rewrite Hbb, !app_assoc, Hb, <- !app_assoc. done.
Qed.

(** ** The calls that send *)

Lemma winv_flight st id : winv None st -> winv (Some (id, [])) st.
Proof.
  intros [W1 W2 W3 W4 W5 W6 W7 W8]. split; try done. intros j a Hin. destruct (W4 j a Hin) as (? & s & Hs & out & Hst & Ho). split; [done|]. exists s. split; [done|].
  exists out. split; [done|]. destruct (freed s); [done|]. cbn [inflight]. by case_decide.
Qed.

Lemma winv_unflight st id : winv (Some (id, [])) st -> winv None st.
Proof.
  intros [W1 W2 W3 W4 W5 W6 W7 W8]. split; try done. intros j a Hin. destruct (W4 j a Hin) as (? & s & Hs & out & Hst & Ho). split; [done|]. exists s. split; [done|].
  exists out. split; [done|]. destruct (freed s); [done|]. cbn [inflight] in *. by case_decide.
Qed.

(** Recording what happened outside of the connections. *)
Lemma winv_emit fl fl' st e : winv fl st -> (forall id a, e <> EvAccept id a) -> callback_of e = None ->
  (forall id a s, EvAccept id a ∈ trace st -> sockets st !! a = Some s -> output_ok (trace st) fl id s -> output_ok (trace st ++ [e]) fl' id s) ->
  (forall id, (forall a, EvAccept id a ∉ trace st) -> Forall (fun e => e.2 = false) (sends id [e])) -> winv fl' (emit e st).
Proof.
  intros [W1 W2 W3 W4 W5 W6 W7 W8] He Hcb Hout Hno.
  assert (forall j a, EvAccept j a ∈ trace (emit e st) -> EvAccept j a ∈ trace st) as Hacc.
  { intros j a [?|Hx%list_elem_of_singleton]%elem_of_app; [done|]. by apply eq_sym, He in Hx. }
  assert (forall j, close_called j (trace (emit e st)) -> close_called j (trace st)) as Hcl by (intros j [?|[r ->]]%close_called_snoc; done).
  split; try done.
  - intros j Hj. destruct (W2 j Hj) as (a & s & Hc). exists a, s. apply (conn_ok_ext st); try done; [|apply Hcl]. intros x Hx. apply elem_of_app. by left.
  - intros j a Hin%Hacc. destruct (W4 j a Hin) as (? & s & Hs & Ho). split; [done|]. exists s. split; [done|]. by apply (Hout _ a).
  - intros j a j' a' H1%Hacc H2%Hacc. by apply W5.
  - intros j Hj. assert (forall a, EvAccept j a ∉ trace st) as Hj' by (intros a Hin; eapply Hj, elem_of_app; by left).
    destruct (W6 j Hj') as [Hs Hc]. split; [|auto]. cbn [emit trace]. unfold sends. rewrite omap_app. apply Forall_app. split; [done|by apply Hno].
  - cbn [emit trace]. apply quiet_snoc; [done|]. by rewrite Hcb.
Qed.

Lemma winv_forward st w id : winv None st -> winv None (emit (EvForward w id) st).
Proof.
  intros Hw. apply (winv_emit None); try done. intros j a s _ _ (out & Hs & Ho). exists out. split; [|done]. rewrite sends_snoc, app_nil_r.
  eapply stream_mono; [|done]. intros ?. apply elem_of_app. by left.
Qed.

Lemma winv_sent st id p d ok : winv (Some (id, p)) st -> piece (EvPeerClosed id ∈ trace st) p (d, ok) ->
  (ok = true -> exists a, EvAccept id a ∈ trace st) -> winv None (emit (EvSend id d ok) st).
Proof.
  intros Hw Hp Hok. apply (winv_emit (Some (id, p))); try done.
  - intros j a s _ _ (out & Hs & Ho). unfold output_ok. rewrite sends_snoc. assert (stream (EvPeerClosed j ∈ trace st ++ [EvSend id d ok]) (sends j (trace st)) out) as Hs'.
    { eapply stream_mono; [|done]. intros ?. apply elem_of_app. by left. }
    destruct (decide (id = j)) as [->|Hne].
    + exists (out ++ p). split.
      * apply stream_snoc; [done|]. destruct Hp as (P1 & P2 & P3). split_and!; [done|done|]. intros E. destruct (P3 E); [by left|right]. apply elem_of_app. by left.
      * cbn [inflight] in *. rewrite decide_True in Ho by done. rewrite app_nil_r. destruct (freed s); [by apply prefix_app_r|done].
    + exists out. rewrite app_nil_r. split; [done|]. cbn [inflight] in *. by rewrite decide_False in Ho.
  - intros j Hj. unfold sends. simpl. case_decide; [|done]. subst. constructor; [|done]. simpl. destruct ok; [|done]. destruct (Hok eq_refl) as [a Ha]. by apply Hj in Ha.
Qed.

(** What a call that sends promises. *)
Definition sent_ok (st st' : State) (id : Z) (d : list Z) (ok : bool) : Prop :=
  framed st st' /\ exists p, winv (Some (id, p)) st' /\ piece (EvPeerClosed id ∈ trace st') p (d, ok) /\ (ok = true -> exists a, EvAccept id a ∈ trace st').

Lemma nothing_sent st id d : winv None st -> sent_ok st st id d false.
Proof. intros Hw. split; [apply framed_refl|]. exists []. split_and!; [by apply winv_flight|by split_and!; [apply prefix_nil| |left]|done]. Qed.

Lemma queued_sent st st' i id d n ok : active (conn_at st i) = true -> session_id (conn_at st i) = id -> winv None st ->
  framed st st' -> 0 <= n <= zlen d ->
  (ok = true /\ winv (Some (id, take (Z.to_nat n) d ++ drop (Z.to_nat n) d)) st' \/
   ok = false /\ winv (Some (id, take (Z.to_nat n) d)) st' /\ EvPeerClosed id ∈ trace st') -> sent_ok st st' id d ok.
Proof.
  intros Ha Hid Hw Hf Hn Hor. split; [done|]. destruct (w_conn _ _ Hw i Ha) as (a & s & Hi). pose proof (co_accept _ _ _ _ Hi) as Hacc. rewrite Hid in Hacc.
  destruct Hor as [[-> Hw']|(-> & Hw' & Hp)].
  - rewrite take_drop in Hw'. exists d. split_and!; [done|done|]. intros _. exists a. eapply elem_of_prefix; [exact Hacc|apply Hf].
  - exists (take (Z.to_nat n) d). split_and!; [done|split_and!; [apply prefix_take|done|by right]|done].
Qed.

Lemma send_data_ok st id d ks : winv None st -> 0 <= id -> d <> [] -> zlen d <= L -> Forall (orderly files) ks ->
  exists st' ok, send_to_connection cfg st (TData d ks) id = Some (st', ok) /\ sent_ok st st' id d ok.
Proof.
  intros Hw Hid Hd Hl Hk. unfold send_to_connection. destruct (verify_ssl_total st id Hid) as (r & -> & Hr). cbn [mbind option_bind].
  destruct r as [i|]; [|eexists _, _; split; [done|by apply nothing_sent]]. destruct (Hr i eq_refl) as [Ha Eid]. destruct (w_conn _ _ Hw i Ha) as (a & s & Hi).
  destruct (has (conn_at st i) f_overflow) eqn:Eov; [eexists _, _; split; [done|by apply nothing_sent]|].
  rewrite (co_socket _ _ _ _ Hi). cbn [mbind option_bind]. rewrite (get_socket_ok _ _ _ _ Hi). cbn [mbind option_bind].
  set (s1 := set_io s _). pose proof (co_io _ _ _ _ Hi) as Hio. rewrite Eov in Hio.
  assert (io_ok false (io s1)) as Hio1 by (by apply io_ok_kernel). assert (zlen d <> 0) as Hz by (destruct d; [done|simpl; lia]).
  assert (forall s2 n, (sfd s2, object s2, freed s2) = (sfd s, object s, freed s) -> io_ok false (io s2) -> 0 <= n -> n < zlen d ->
    wire (io s2) ++ pending (io s2) = wire (io s) ++ pending (io s) ++ take (Z.to_nat n) d ->
    (empty_buffer (out_buffer (io s)) = true \/ exists b, out_buffer (io s2) = Some b) ->
    let s3 := if empty_buffer (out_buffer (io s)) then need_buffer s2 else s2 in
    exists st' ok, queue_data cfg st i a s3 (drop (Z.to_nat n) d) = Some (st', ok) /\ sent_ok st st' id d ok) as Hq.
  { intros s2 n E2 Hio2 Hn0 Hn Hb He s3.
    assert (exists b, out_buffer (io s3) = Some b /\ io_ok false (io s3) /\ wire (io s3) ++ pending (io s3) = wire (io s2) ++ pending (io s2) /\ (sfd s3, object s3, freed s3) = (sfd s2, object s2, freed s2)) as (b & E3 & Hio3 & Hb3 & Es3).
    { unfold s3. destruct (empty_buffer (out_buffer (io s))); [|destruct He as [?|[b ?]]; [done|by exists b]]. destruct (need_buffer_ok false s2 Hio2) as (b & X1 & X2 & X3 & X4 & X5). exists b. split_and!; congruence. }
    destruct (queue_data_ok st i a s s3 b (take (Z.to_nat n) d) (drop (Z.to_nat n) d) Hw Ha Hi Eov) as (st' & ok & E & Hf & Hor); [congruence|done|done|congruence| |rewrite length_drop; lia|].
    { intros Hx%(f_equal length). rewrite length_drop in Hx. simpl in Hx. lia. }
    exists st', ok. split; [done|]. rewrite Eid in Hor. eapply queued_sent; [exact Ha|done|done|done| |done]. lia. }
  assert (wire (io s1) ++ pending (io s1) = wire (io s) ++ pending (io s) ++ take (Z.to_nat 0) d) as Hb0 by (simpl; by rewrite app_nil_r).
  destruct (empty_buffer (out_buffer (io s))) eqn:Ee.
  - destruct (direct_send s1).
    + destruct (direct_loop_ok (length ks) (io s1) d Hd Hk) as (y & n & -> & Hst & Hn & Hwy); [done|]. cbn [mbind option_bind].
      destruct (io_ok_step _ _ _ Hio1 Hst) as (Hioy & Hpy & Hoy). assert (pending y = []) as Hpn by (rewrite Hpy; by apply empty_pending).
      assert (wire y ++ pending y = wire (io s) ++ pending (io s) ++ take (Z.to_nat n) d) as Hby.
      { rewrite Hpn, Hwy, (empty_pending (io s) Ee), app_nil_r. done. }
      destruct (Z.eqb_spec n (zlen d)) as [->|Hne].
      * eexists _, _. split; [done|]. destruct (winv_mild st (put_socket a (set_io s1 y) st) i a s (conn_at st i) (set_io s1 y) [] d) as [Hw' Hf]; try done;
          [by eapply touched_put, touched_refl|by rewrite Eov|change (io (set_io s1 y)) with y; rewrite Hby, take_ge by lia; done|by left|]. rewrite Eid in Hw'.
        eapply (queued_sent st _ i id d 0); [done|done|done|done|lia|]. left. split; [done|]. by simpl.
      * destruct (Hq (set_io s1 y) n) as (st' & ok & E & Hs); [done|done|lia|lia|done|by left|]. eauto.
    + destruct (Hq s1 0) as (st' & ok & E & Hs); [done|done|lia|lia|done|by left|]. eauto.
  - destruct (Hq s1 0) as (st' & ok & E & Hs); [done|done|lia|lia|done| |eauto]. right.
    destruct (out_buffer (io s)) as [b|] eqn:Eo; [by exists b|done].
Qed.

Lemma sendfile_io ovf x file offset len : io_ok ovf x -> files = true -> 0 <= offset < zlen file -> 0 <= len -> zlen file < 2 ^ 63 ->
  let '(y, r) := sendfile_async x file offset len in
  r = SW_ERR /\ y = x \/
  r = SW_OK /\ forall rd w rm, io_ok ovf (with_events y rd w rm) /\ wire y ++ pending y = wire x ++ pending x ++ bytes_of (OSendfile file offset len).
Proof.
  intros Hio Hf Ho Hlen Hmx. pose proof (sendfile_ok files true x file offset len (io_inv _ _ Hio) Hf Ho Hlen Hmx) as Hs. unfold tcp_sendfile_async in Hs.
  unfold sendfile_async in *. destruct (check_sendfile_parameters file offset len) as [e|]; [|by left].
  set (b := match out_buffer x with None => _ | Some b => b end) in *. set (y := with_out x _) in *. right. split; [done|]. intros rd w rm.
  cbn [SW_OK Z.ltb Z.compare] in Hs. set (z := if ev_write y then y else add_write_event y) in Hs.
  assert (out_buffer z = out_buffer y /\ wire z = wire y /\ buffer_size z = buffer_size y /\ schunk_size z = schunk_size y) as (Z1 & Z2 & Z3 & Z4)
    by (unfold z, add_write_event; destruct (ev_write y), (ev_read y); done).
  destruct Hs as ([J1 J2 J3 J4] & _ & _ & _ & Hw & Hor). rewrite Z1 in J3. rewrite Z3 in J1. rewrite Z4 in J2. destruct Hor as [[_ Hp]|[[=] _]]. split.
  - destruct Hio as [_ I2 I3 I4]. assert (total y = total x) as Ht by (unfold total, y, b; cbn [with_out out_buffer total_length]; by destruct (out_buffer x)).
    split; unfold total in *; cbn [with_events out_buffer buffer_size]; [|done|by rewrite Ht|by rewrite Ht]. split; try done. intros b1 Hb1. destruct (J3 b1 Hb1). by split.
  - assert (pending z = pending y) as <- by (unfold pending; by rewrite Z1). rewrite Hp. done.
Qed.

Lemma send_file_ok st id file offset len : winv None st -> 0 <= id -> files = true -> 0 <= offset < zlen file -> 0 <= len -> zlen file < 2 ^ 63 ->
  exists st' ok, send_to_connection cfg st (TFile file offset len) id = Some (st', ok) /\ sent_ok st st' id (bytes_of (OSendfile file offset len)) ok.
Proof.
  intros Hw Hid Hf Ho Hlen Hmx. set (d := bytes_of _). unfold send_to_connection. destruct (verify_ssl_total st id Hid) as (r & -> & Hr). cbn [mbind option_bind].
  destruct r as [i|]; [|eexists _, _; split; [done|by apply nothing_sent]]. destruct (Hr i eq_refl) as [Ha Eid]. destruct (w_conn _ _ Hw i Ha) as (a & s & Hi).
  destruct (has (conn_at st i) f_overflow) eqn:Eov; [eexists _, _; split; [done|by apply nothing_sent]|].
  rewrite (co_socket _ _ _ _ Hi). cbn [mbind option_bind]. rewrite (get_socket_ok _ _ _ _ Hi). cbn [mbind option_bind].
  pose proof (co_io _ _ _ _ Hi) as Hio. rewrite Eov in Hio. set (s1 := if empty_buffer (out_buffer (io s)) then need_buffer s else s).
  assert (io_ok false (io s1) /\ wire (io s1) = wire (io s) /\ pending (io s1) = pending (io s) /\ (sfd s1, object s1, freed s1) = (sfd s, object s, freed s)) as (Hio1 & Hw1 & Hp1 & Es1).
  { unfold s1. destruct (empty_buffer (out_buffer (io s))); [|done]. destruct (need_buffer_ok false s Hio) as (b & _ & X2 & X3 & X4 & X5). done. }
  pose proof (sendfile_io false (io s1) file offset len Hio1 Hf Ho Hlen Hmx) as Hx. destruct (sendfile_async (io s1) file offset len) as [x r].
  destruct Hx as [[-> ->]|[-> Hx]]; cbn [SW_OK SW_ERR Z.ltb Z.compare]; eexists _, _; (split; [done|]).
  - destruct (winv_mild st (put_socket a (set_io s1 (io s1)) st) i a s (conn_at st i) (set_io s1 (io s1)) [] []) as [Hw' Hfr]; try done;
      [by eapply touched_put, touched_refl|by rewrite Eov|cbn [set_io io]; by rewrite app_nil_r, Hw1, Hp1|by left|]. rewrite Eid in Hw'.
    split; [done|]. exists []. split_and!; [done|by split_and!; [apply prefix_nil| |left]|done].
  - destruct (set_writable_io (set_io s1 x)) as (rd & w & rm & ->). cbn [set_io io]. destruct (Hx rd w rm) as [Hiox Hb].
    match goal with |- sent_ok _ (put_socket a ?s2 st) _ _ _ => destruct (winv_mild st (put_socket a s2 st) i a s (conn_at st i) s2 [] d) as [Hw' Hfr] end; try done;
      [by eapply touched_put, touched_refl|by rewrite Eov|rewrite <- Hw1, <- Hp1; exact Hb|by left|]. rewrite Eid in Hw'.
    eapply (queued_sent st _ i id d 0); [done|done|done|done|lia|]. left. split; [done|]. by simpl.
Qed.

(** The pause and the resumption of receiving. *)
Lemma feedback_ok st t id : winv None st -> 0 <= id -> t = TPause \/ t = TResume -> exists st' ok, feedback cfg st t id = Some (st', ok) /\ winv None st' /\ framed st st'.
Proof.
  intros Hw Hid Ht. unfold feedback. destruct (verify_ssl_total st id Hid) as (r & -> & Hr). cbn [mbind option_bind].
  destruct r as [i|]; [|eexists _, _; split; [done|by split; [|apply framed_refl]]]. destruct (Hr i eq_refl) as [_ ->]. clear i Hr.
  unfold send_to_connection. assert (match t with TClose => get_connection_verify_no_ssl cfg st id | _ => get_connection_verify cfg st id end = get_connection_verify cfg st id) as -> by (by destruct Ht as [->| ->]).
  destruct (verify_ssl_total st id Hid) as (r & -> & Hr). cbn [mbind option_bind].
  destruct r as [i|]; [|eexists _, _; split; [done|by split; [|apply framed_refl]]]. destruct (Hr i eq_refl) as [Ha Eid]. destruct (w_conn _ _ Hw i Ha) as (a & s & Hi).
  destruct (has (conn_at st i) f_overflow) eqn:Eov; [eexists _, _; split; [done|by split; [|apply framed_refl]]|].
  rewrite (co_socket _ _ _ _ Hi). cbn [mbind option_bind]. rewrite (get_socket_ok _ _ _ _ Hi). cbn [mbind option_bind].
  assert (forall r w rm, winv None (put_socket a (set_io s (with_events (io s) r w rm)) st) /\ framed st (put_socket a (set_io s (with_events (io s) r w rm)) st)) as Hev.
  { intros r w rm. destruct (winv_mild st (put_socket a (set_io s (with_events (io s) r w rm)) st) i a s (conn_at st i) (set_io s (with_events (io s) r w rm)) [] []) as [Hw' Hf]; try done;
      [by eapply touched_put, touched_refl|apply io_ok_events, Hi|cbn [set_io io]; by rewrite app_nil_r|by left|]. split; [|done]. by apply (winv_unflight _ (session_id (conn_at st i))). }
  destruct Ht as [->| ->]; [destruct (_ || _)|destruct (_ || _)]; try (eexists _, _; split; [done|by split; [|apply framed_refl]]);
    destruct (ev_write (io s)); eexists _, _; (split; [done|]); apply Hev.
Qed.

Lemma framed_emit st e : framed st (emit e st).
Proof. split; try done; [by eexists|]. intros a s. eauto. Qed.

(** Calls that the program may make. *)
Definition call_ok (c : call) : Prop :=
  match c with
  | CSend id d ks => 0 <= id /\ d <> [] /\ zlen d <= L /\ Forall (orderly files) ks
  | CFile id file offset len => files = true /\ 0 <= offset /\ 0 <= len /\ zlen file < 2 ^ 63
  | CClose id _ | CPause id | CResume id => 0 <= id
  end.

Lemma send_finish_ok st t id d : winv None st -> 0 <= id ->
  (forall st' ok, send_to_connection cfg st t id = Some (st', ok) -> sent_ok st st' id d ok) -> (exists r, send_to_connection cfg st t id = Some r) ->
  (match t with TData d' _ => d' = d | TFile file offset len => bytes_of (OSendfile file offset len) = d | _ => False end) ->
  exists st' ok, finish cfg st t id = Some (st', ok) /\ winv None st' /\ framed st st'.
Proof.
  intros Hw Hid Hsend [[st1 ok] E] Ht. unfold finish. rewrite get_session_total by done. cbn [mbind option_bind].
  destruct (negb _); [eexists _, _; split; [done|]; split; [by apply winv_forward|apply framed_emit]|].
  rewrite E. cbn [mbind option_bind]. destruct (Hsend _ _ E) as (Hf & p & Hw1 & Hp & Hacc). pose proof (winv_sent _ _ _ _ _ Hw1 Hp Hacc) as Hw2.
  exists (emit (EvSend id d ok) st1), ok. split; [destruct t; subst; done|]. split; [done|]. eapply framed_trans; [done|apply framed_emit].
Qed.

(** ** The end of a connection *)

Definition unclosed (st : State) : gset Z := filter (fun i => open_conn st i = true) (dom (connection_list st)).

Lemma elem_of_unclosed st i : i ∈ unclosed st <-> open_conn st i = true.
Proof.
  unfold unclosed. rewrite elem_of_filter, elem_of_dom. split; [by intros []|]. intros Ho. split; [done|]. unfold open_conn, conn_at in Ho.
  destruct (connection_list st !! i); [done|]. done.
Qed.

Lemma framed_unclosed st st' : framed st st' -> unclosed st' ⊆ unclosed st.
Proof. intros Hf i. rewrite !elem_of_unclosed. apply Hf. Qed.

Lemma framed_flag st i f v : active (conn_at st i) = true -> (f = f_closing -> v = true) -> (f = f_closed -> v = true) -> framed st (upd_conn i (set_flag f v) st).
Proof.
  intros Ha H1 H2. split; try done; [| |intros a s; eauto].
  - intros j. unfold open_conn. rewrite conn_at_upd. case_decide; [subst|done]. cbn [set_flag active has]. rewrite Ha. cbn [andb].
    destruct (has (conn_at st i) f_closed) eqn:E; [|done]. case_decide; [|done]. by rewrite H2 by done.
  - intros j Hj Hc. rewrite conn_at_upd. case_decide; [subst|done]. split_and!; try done. cbn [set_flag has]. case_decide; [|done]. by apply H1.
Qed.

Lemma framed_unclosing st st' i : framed st st' -> has (conn_at st i) f_closing = false -> framed st (upd_conn i (set_flag f_closing false) st').
Proof.
  intros [F1 F2 F3 F4 F5 F6] Hc. split; try done.
  - intros j Hj. apply F1. unfold open_conn in *. rewrite conn_at_upd in Hj. by case_decide; subst.
  - intros j Ha Hj. rewrite conn_at_upd. case_decide; [congruence|by apply F2].
Qed.

Lemma framed_then_closed st st1 st2 i : framed st st1 -> closed_conn st1 st2 i -> has (conn_at st i) f_closing = false -> framed st st2.
Proof.
  intros [F1 F2 F3 F4 F5 F6] [C1 C2 C3 C4 C5 C6] Hc. split; [| |congruence|congruence|by rewrite C3|].
  3: { intros a s Hs Hf. destruct (C6 a s Hs Hf) as (s2 & Hs2 & Hf2 & <-). by apply F6. }
  - intros j Hj. apply F1. unfold open_conn in *. destruct (decide (j = i)) as [->|Hne]; [by rewrite C2 in Hj|by rewrite C1 in Hj].
  - intros j Ha Hj. destruct (decide (j = i)) as [->|Hne]; [congruence|]. rewrite C1 by done. by apply F2.
Qed.

(** The close mark in the queue. *)
Lemma close_mark_ok st i a s b : winv None st -> active (conn_at st i) = true -> conn_ok st i a s -> out_buffer (io s) = Some b ->
  let st' := put_socket a (set_io s (with_out (io s) (Some (alloc b TYPE_CLOSE 0)))) (upd_conn i (set_flag f_close_queued true) st) in
  winv None st' /\ framed st st'.
Proof.
  intros Hw Ha Hi Eo. cbv zeta. set (s' := set_io s _). pose proof (co_io _ _ _ _ Hi) as [I1 I2 I3 I4]. destruct (iv_out _ _ _ I1 b Eo) as [Hbw _].
  assert (chunk_wf files true (new_chunk TYPE_CLOSE 0)) as Hc by (by apply close_wf).
  pose proof (buffer_wf_snoc files true b _ Hbw Hc) as Hs. cbn [new_chunk clength] in Hs. rewrite Z.add_0_r in Hs. specialize (Hs (bw_bound _ _ _ Hbw)).
  destruct (winv_mild st (put_socket a s' (upd_conn i (set_flag f_close_queued true) st)) i a s (set_flag f_close_queued true (conn_at st i)) s' [] []) as [Hw' Hf]; try done.
  - by eapply touched_put, touched_upd, touched_refl.
  - apply mild_flag; [apply mild_refl|done].
  - rewrite set_flag_same by done. unfold total in *. rewrite Eo in I3, I4. split; [|done|done|done]. destruct I1 as [J1 J2 J3 J4]. split; try done. intros b1 [= <-]. by split.
  - unfold s', pending. cbn [set_io io with_out wire out_buffer]. unfold alloc. rewrite buffer_bytes_snoc, Eo. cbn [new_chunk chunk_bytes cvalue]. by rewrite !app_nil_r.
  - by left.
  - split; [by eapply winv_unflight|done].
Qed.

Lemma run_calls_ok (do : State -> call -> option State) st l :
  (forall st1 c, winv None st1 -> framed st st1 -> call_ok c -> exists st2, do st1 c = Some st2 /\ winv None st2 /\ framed st1 st2) ->
  winv None st -> Forall call_ok l -> exists st', run_calls do st l = Some st' /\ winv None st' /\ framed st st'.
Proof.
  intros Hdo. assert (forall st0, winv None st0 -> framed st st0 -> Forall call_ok l -> exists st', run_calls do st0 l = Some st' /\ winv None st' /\ framed st st') as Hall.
  { induction l as [|c l IH]; intros st0 Hw Hf Hl; cbn [run_calls]; [by exists st0|]. apply Forall_cons in Hl as [Hc Hl].
    destruct (Hdo st0 c Hw Hf Hc) as (st1 & -> & Hw1 & Hf1). cbn [mbind option_bind]. apply IH; [done|by eapply framed_trans|done]. }
  intros Hw Hl. apply Hall; [done|apply framed_refl|done].
Qed.

(** A call, when [end_] does what it should. *)
Lemma call_with_ok e st c : (forall id r, 0 <= id -> exists st' ok, e st id r true = Some (st', ok) /\ winv None st' /\ framed st st') ->
  winv None st -> call_ok c -> exists st', do_call_with cfg e st c = Some st' /\ winv None st' /\ framed st st'.
Proof.
  intros He Hw Hc. unfold do_call_with. destruct c as [id d ks|id file offset len|id reset|id|id]; cbn [call_ok] in Hc.
  - destruct Hc as (Hid & Hd & Hl & Hk). destruct (send_data_ok st id d ks Hw Hid Hd Hl Hk) as (st1 & ok & E & Hs).
    destruct (send_finish_ok st (TData d ks) id d Hw Hid) as (st' & r & -> & Hw' & Hf); [intros ? ? X; rewrite E in X; by injection X as <- <-|eauto|done|]. eauto.
  - destruct Hc as (Hf & Ho & Hlen & Hmx). unfold sendfile. destruct (Z.leb_spec id 0); [eexists; split; [done|]; by split; [|apply framed_refl]|].
    destruct (Z.leb_spec (zlen file) offset); [eexists; split; [done|]; by split; [|apply framed_refl]|].
    destruct (send_file_ok st id file offset len Hw ltac:(lia) Hf ltac:(lia) Hlen Hmx) as (st1 & ok & E & Hs).
    destruct (send_finish_ok st (TFile file offset len) id (bytes_of (OSendfile file offset len)) Hw ltac:(lia)) as (st' & r & -> & Hw' & Hfr); [intros ? ? X; rewrite E in X; by injection X as <- <-|eauto|done|]. eauto.
  - destruct (He id reset Hc) as (st' & ok & -> & Hw' & Hf). cbn [mbind option_bind]. eauto.
  - destruct (feedback_ok st TPause id Hw Hc) as (st' & ok & -> & Hw' & Hf); [by left|]. cbn [mbind option_bind]. eauto.
  - destruct (feedback_ok st TResume id Hw Hc) as (st' & ok & -> & Hw' & Hf); [by right|]. cbn [mbind option_bind]. eauto.
Qed.

Context (Hclose : forall cb, onClose cfg = Some cb -> forall tr id, 0 <= id -> Forall call_ok (cb tr id)).

(** The callback of a close is called: the connection counts as closed, so that it is
    not called again. *)
Lemma close_called_ok st i r : winv None st -> active (conn_at st i) = true -> has (conn_at st i) f_closed = false ->
  let st1 := emit (EvClose (session_id (conn_at st i)) r) (upd_conn i (set_flag f_closed true) (upd_conn i (set_flag f_closing true) st)) in
  winv None st1 /\ has (conn_at st1 i) f_closing = true /\ active (conn_at st1 i) = true /\ framed st st1 /\ unclosed st1 ⊂ unclosed st.
Proof.
  intros Hw Ha Hc. cbv zeta. set (st0 := upd_conn i (set_flag f_closed true) _). set (st1 := emit _ st0). destruct (w_conn _ _ Hw i Ha) as (a & s & Hi).
  set (c' := set_flag f_closed true (set_flag f_closing true (conn_at st i))).
  assert (touched st st1 i a c' s [EvClose (session_id (conn_at st i)) r]) as Ht
    by (apply (touched_emit _ _ _ _ _ _ []); do 2 apply touched_upd; by apply touched_refl).
  pose proof (touched_conn _ _ _ _ _ _ _ Ht) as Ec. pose proof (t_trace _ _ _ _ _ _ _ Ht) as Et.
  assert (framed st st1) as Hf by (eapply framed_touched; [apply Hi|apply Hi| |exact Ht|done|by cbn; rewrite Ha|done|done]; done).
  split_and!; [|by rewrite Ec|by rewrite Ec|done|].
  - eapply (winv_touch None None); try done.
    + pose proof Hi as [H1 H2 H3 H4 H5 H6 H7 H8 H9 H10 H11 H12 H13 H14 H15 H16]. split; try done. cbn [c' set_flag has session_id]. intros Hp. rewrite Et. apply elem_of_app. left. auto.
    + by constructor.
    + rewrite Et. destruct (output_conn st i a s None Hw Hi) as (out & Hs & Ho). exists out. split; [|done]. rewrite sends_snoc, app_nil_r. eapply stream_mono; [|done]. intros ?. apply elem_of_app. by left.
    + rewrite Et. apply quiet_snoc; [apply Hw|]. intros j [= <-]. by apply (co_open _ _ _ _ Hi).
  - split; [by apply framed_unclosed|]. intros Hx. specialize (Hx i). rewrite !elem_of_unclosed in Hx. unfold open_conn in Hx. rewrite Ec, Ha, Hc in Hx. unfold c' in Hx. rewrite set_flag_eq, andb_false_r in Hx. by specialize (Hx eq_refl).
Qed.

Lemma end_ok fuel st id reset actively : winv None st -> 0 <= id -> (size (unclosed st) < fuel)%nat ->
  exists st' ok, end_ cfg fuel st id reset actively = Some (st', ok) /\ winv None st' /\ framed st st'.
Proof.
  revert st id reset actively. induction fuel as [|fuel IH]; intros st id reset actively Hw Hid Hsz; [lia|]. cbn [end_].
  assert (forall ok : bool, exists st' r, Some (st, ok) = Some (st', r) /\ winv None st' /\ framed st st') as Hskip by (intros ok; eexists _, _; split; [done|]; by split; [|apply framed_refl]).
  rewrite get_session_total by done. cbn [mbind option_bind]. destruct (_ =? 0); [apply Hskip|].
  destruct (negb _); [eexists _, _; split; [done|]; split; [by apply winv_forward|apply framed_emit]|].
  destruct (verify_total st id Hid) as (r & -> & Hr). cbn [mbind option_bind]. destruct r as [i|]; [|apply Hskip]. destruct (Hr i eq_refl) as [Ha Eid].
  set (st1 := if reset then _ else st). set (st2 := if actively then _ else st1).
  assert (winv None st2 /\ framed st st2 /\ active (conn_at st2 i) = true /\ session_id (conn_at st2 i) = id /\ has (conn_at st2 i) f_closing = has (conn_at st i) f_closing) as (Hw2 & Hf2 & Ha2 & Eid2 & Ecl2).
  { assert (winv None st1 /\ framed st st1 /\ active (conn_at st1 i) = true /\ session_id (conn_at st1 i) = id /\ has (conn_at st1 i) f_closing = has (conn_at st i) f_closing) as (Hw1 & Hf1 & Ha1 & Eid1 & Ecl1).
    { unfold st1. destruct reset; [|by split_and!; [|apply framed_refl| | |]]. rewrite !conn_at_upd, !decide_True by done.
      split_and!; [apply winv_flag; [done|done|done]|by apply framed_flag|done|done|by rewrite set_flag_same]. }
    unfold st2. destruct actively; [|done]. rewrite !conn_at_upd, !decide_True by done.
    split_and!; [apply winv_flag; [done|done|done]|eapply framed_trans; [done|by apply framed_flag]|done|done|by rewrite set_flag_same]. }
  clearbody st2. clear st1. destruct (has (conn_at st2 i) f_closing) eqn:Eclosing; [by eexists _, _|].
  destruct (_ && _); [by eexists _, _|]. set (st3 := upd_conn i (set_flag f_closing true) st2).
  assert (has (conn_at st i) f_closing = false) as Ecl by congruence.
  (* the callback *)
  assert (exists st4, match onClose cfg with
      | Some cb => if has (conn_at st2 i) f_closed then Some st3 else
          run_calls (do_call_with cfg (end_ cfg fuel)) (emit (EvClose id (if has (conn_at st2 i) f_close_actively then -1 else reactor_id (conn_at st2 i))) (upd_conn i (set_flag f_closed true) st3))
            (cb (trace (upd_conn i (set_flag f_closed true) st3)) id)
      | None => Some st3 end = Some st4 /\ winv None st4 /\ framed st2 st4 /\ active (conn_at st4 i) = true /\ has (conn_at st4 i) f_closing = true) as (st4 & E4 & Hw4 & Hf4 & Ha4 & Hc4).
  { assert (winv None st3 /\ framed st2 st3 /\ active (conn_at st3 i) = true /\ has (conn_at st3 i) f_closing = true) as H3.
    { unfold st3. rewrite conn_at_upd, decide_True by done. split_and!; [apply winv_flag; [done|done|done]|by apply framed_flag|done|apply set_flag_eq]. }
    destruct (onClose cfg) as [cb|] eqn:Ecb; [|by exists st3]. destruct (has (conn_at st2 i) f_closed) eqn:Ecd; [by exists st3|].
    destruct (close_called_ok st2 i (if has (conn_at st2 i) f_close_actively then -1 else reactor_id (conn_at st2 i)) Hw2 Ha2 Ecd) as (Hw5 & Hc5 & Ha5 & Hf5 & Hu5).
    rewrite Eid2 in *. fold st3 in Hw5, Hc5, Ha5, Hf5, Hu5. set (st5 := emit _ _) in *. clearbody st5.
    pose proof (subset_size _ _ Hu5) as Hlt. pose proof (subseteq_size _ _ (framed_unclosed _ _ Hf2)) as Hle.
    destruct (run_calls_ok (do_call_with cfg (end_ cfg fuel)) st5 (cb (trace (upd_conn i (set_flag f_closed true) st3)) id)) as (st6 & E6 & Hw6 & Hf6); [|done|by apply Hclose|].
    - intros st6 c Hw6 Hf6 Hc. apply call_with_ok; [|done|done]. intros j r Hj. apply IH; [done|done|]. pose proof (subseteq_size _ _ (framed_unclosed _ _ Hf6)). lia.
    - exists st6. destruct (fr_closing _ _ Hf6 i Ha5 Hc5) as (? & ? & _). split_and!; [done|done|by eapply framed_trans|done|done]. }
  rewrite E4. cbn [mbind option_bind]. clear E4. set (st5 := upd_conn i (set_flag f_closing false) st4).
  assert (winv None st5) as Hw5 by (apply winv_flag; [done|done|done]). assert (active (conn_at st5 i) = true) as Ha5 by (unfold st5; rewrite conn_at_upd; by rewrite decide_True).
  assert (framed st st5) as Hf5 by (apply framed_unclosing; [by eapply framed_trans|done]).
  destruct (w_conn _ _ Hw5 i Ha5) as (a & s & Hi). rewrite (co_socket _ _ _ _ Hi), (get_socket_ok _ _ _ _ Hi). cbn [mbind option_bind]. clearbody st5.
  destruct (_ || _) eqn:Edo.
  - destruct (close_ok st5 i a s Hw5 Ha5 Hi) as (st6 & -> & Hw6 & Hcl). cbn [mbind option_bind]. eexists _, _. split; [done|]. split; [done|]. by eapply framed_then_closed.
  - destruct (out_buffer (io s)) as [b|] eqn:Eo; [|done]. cbn [mbind option_bind]. destruct (close_mark_ok st5 i a s b Hw5 Ha5 Hi Eo) as [Hw6 Hf6].
    eexists _, _. split; [done|]. split; [done|]. by eapply framed_trans.
Qed.

(** ** The events *)

(** Between the events every socket that is not freed belongs to a connection. *)
Definition rest (st : State) : Prop := forall a s, sockets st !! a = Some s -> freed s = false -> exists i, object s = Some i.

Lemma rest_same st st' : same_objects st st' -> rest st -> rest st'.
Proof. intros Hs Hr a s Ha Hf. destruct (Hs a s Ha Hf) as (s0 & Ha0 & Hf0 & <-). by apply (Hr a). Qed.

(** What an event promises. *)
Record after (st st' : State) : Prop := {
  af_winv : winv None st';
  af_rest : rest st';
  af_round : session_round st' = session_round st;
  af_trace : trace st `prefix_of` trace st';
}.

Lemma after_framed st st' : rest st -> winv None st' -> framed st st' -> after st st'.
Proof. intros Hr Hw Hf. split; [done|eapply rest_same; [apply Hf|done]|apply Hf|apply Hf]. Qed.

Lemma after_closed st st' i : rest st -> winv None st' -> closed_conn st st' i -> after st st'.
Proof. intros Hr Hw [C1 C2 C3 C4 C5 C6]. split; [done|by eapply rest_same|done|by rewrite C3]. Qed.

Lemma after_refl st : winv None st -> rest st -> after st st.
Proof. intros. by split. Qed.

Lemma after_trans st1 st2 st3 : after st1 st2 -> after st2 st3 -> after st1 st3.
Proof. intros [A1 A2 A3 A4] [B1 B2 B3 B4]. split; [done|done|congruence|by etrans]. Qed.

Lemma live_conn st a s : winv None st -> rest st -> get_socket st a = Some s -> exists i, conn_ok st i a s /\ active (conn_at st i) = true.
Proof.
  intros Hw Hr Hg. unfold get_socket in Hg. destruct (sockets st !! a) as [s0|] eqn:Es; [|done]. cbn [mbind option_bind] in Hg.
  destruct (freed s0) eqn:Ef; [done|]. injection Hg as ->. destruct (Hr a s Es Ef) as [i Hi]. destruct (w_sock _ _ Hw a s i Es Ef Hi) as [Ha Hc].
  destruct (w_conn _ _ Hw i Ha) as (a' & s' & Hok). pose proof (co_socket _ _ _ _ Hok) as E. rewrite Hc in E. injection E as <-.
  pose proof (co_sock _ _ _ _ Hok) as E'. rewrite Es in E'. injection E' as <-. eauto.
Qed.

Lemma end_call_ok st id reset actively : winv None st -> 0 <= id -> exists st' ok, end_call cfg st id reset actively = Some (st', ok) /\ winv None st' /\ framed st st'.
Proof.
  intros Hw Hid. apply end_ok; [done|done|]. unfold fuel_of, unclosed.
  pose proof (subseteq_size (filter (fun i => open_conn st i = true) (dom (connection_list st))) (dom (connection_list st)) ltac:(set_solver)) as Hle.
  rewrite size_dom in Hle. lia.
Qed.

Lemma do_call_ok st c : winv None st -> call_ok c -> exists st', do_call cfg st c = Some st' /\ winv None st' /\ framed st st'.
Proof. intros Hw Hc. apply call_with_ok; [|done|done]. intros id r Hid. by apply end_call_ok. Qed.

Lemma do_calls_ok st l : winv None st -> Forall call_ok l -> exists st', do_calls cfg st l = Some st' /\ winv None st' /\ framed st st'.
Proof. intros Hw Hl. apply run_calls_ok; [|done|done]. intros st1 c Hw1 _ Hc. by apply do_call_ok. Qed.

Lemma notify_close_ok st i : winv None st -> exists st' ok, notify_close cfg st i = Some (st', ok) /\ winv None st' /\ framed st st'.
Proof.
  intros Hw. unfold notify_close. destruct (active (conn_at st i)) eqn:Ha; [|eexists _, _; split; [done|]; by split; [|apply framed_refl]]. cbn [negb orb].
  destruct (has _ _); [eexists _, _; split; [done|]; by split; [|apply framed_refl]|]. destruct (w_conn _ _ Hw i Ha) as (a & s & Hi).
  destruct (end_call_ok st (session_id (conn_at st i)) false false Hw) as (st' & ok & -> & Hw' & Hf); [pose proof (co_id _ _ _ _ Hi); lia|]. cbn [mbind option_bind]. eauto.
Qed.

(** The events that a socket is watched for change. *)
Lemma winv_events st i a s r w rm : winv None st -> active (conn_at st i) = true -> conn_ok st i a s ->
  let st' := put_socket a (set_io s (with_events (io s) r w rm)) st in winv None st' /\ framed st st'.
Proof.
  intros Hw Ha Hi. cbv zeta. set (s' := set_io s _).
  destruct (winv_mild st (put_socket a s' st) i a s (conn_at st i) s' [] []) as [Hw' Hf]; try done;
    [by eapply touched_put, touched_refl|apply io_ok_events, Hi|cbn [s' set_io io]; by rewrite app_nil_r|by left|]. split; [by eapply winv_unflight|done].
Qed.

Lemma peer_closed_ok st i a s : winv None st -> active (conn_at st i) = true -> conn_ok st i a s ->
  let st' := emit (EvPeerClosed (session_id (conn_at st i))) (upd_conn i (set_flag f_peer_closed true) (put_socket a (del_event s) st)) in
  winv None st' /\ framed st st'.
Proof.
  intros Hw Ha Hi. cbv zeta. set (st' := emit _ _). set (c' := set_flag f_peer_closed true (conn_at st i)).
  assert (touched st st' i a c' (del_event s) [EvPeerClosed (session_id (conn_at st i))]) as Ht
    by (apply (touched_emit _ _ _ _ _ _ []); apply touched_upd; eapply touched_put; by apply touched_refl).
  pose proof (t_trace _ _ _ _ _ _ _ Ht) as Et. split.
  - eapply (winv_touch None None); try done.
    + pose proof Hi as [H1 H2 H3 H4 H5 H6 H7 H8 H9 H10 H11 H12 H13 H14 H15 H16]. split; try done; [by apply io_ok_events| |].
      * intros _. rewrite Et. apply elem_of_app. right. by left.
      * cbn [c' set_flag has session_id]. intros Hc. rewrite Et. intros [?|[? [=]]]%close_called_snoc. by apply H15.
    + by constructor.
    + rewrite Et. destruct (output_conn st i a s None Hw Hi) as (out & Hs & Ho). exists out. split; [|done]. rewrite sends_snoc, app_nil_r. eapply stream_mono; [|done]. intros ?. apply elem_of_app. by left.
    + rewrite Et. apply quiet_snoc; [apply Hw|done].
  - eapply (framed_touched st st' i a c' s (del_event s)); [apply Hi|apply Hi|done|exact Ht|done|by cbn; rewrite Ha|done|done].
Qed.

Lemma close_again st st1 i a : winv None st1 -> framed st st1 -> active (conn_at st1 i) = true -> csocket (conn_at st1 i) = Some a -> rest st ->
  exists st2, close_connection cfg st1 a = Some st2 /\ after st st2.
Proof.
  intros Hw1 Hf1 Ha1 Hc1 Hr. destruct (w_conn _ _ Hw1 i Ha1) as (a' & s & Hi). pose proof (co_socket _ _ _ _ Hi) as E. rewrite Hc1 in E. injection E as <-.
  destruct (close_ok st1 i a s Hw1 Ha1 Hi) as (st2 & E & Hw2 & Hcl). exists st2. split; [done|].
  eapply (after_trans _ st1); [by apply after_framed|]. eapply after_closed; [|done|done]. eapply rest_same; [apply Hf1|done].
Qed.

Lemma on_close_ok st a s : winv None st -> rest st -> get_socket st a = Some s -> exists st', on_close cfg st a = Some st' /\ after st st'.
Proof.
  intros Hw Hr Hg. unfold on_close. rewrite Hg. cbn [mbind option_bind]. destruct (live_conn st a s Hw Hr Hg) as (i & Hi & Ha). rewrite (co_sfd _ _ _ _ Hi).
  rewrite get_connection_in by (pose proof (co_index _ _ _ _ Hi); lia). rewrite Ha. cbn [negb].
  destruct (removed (io s)); [apply (close_again st st i a); [done|apply framed_refl|done|apply Hi|done]|].
  destruct (has (conn_at st i) f_close_queued).
  - destruct (winv_events st i a s false false true Hw Ha Hi) as [Hw1 Hf1]. apply (close_again st _ i a); [done|done|done|apply Hi|done].
  - destruct (peer_closed_ok st i a s Hw Ha Hi) as [Hw1 Hf1]. set (st1 := emit _ _) in *. destruct (notify_close_ok st1 i Hw1) as (st2 & ok & -> & Hw2 & Hf2).
    cbn [mbind option_bind]. exists st2. split; [done|]. apply after_framed; [done|done|by eapply framed_trans].
Qed.

Context (Hconnect : forall cb, onConnect cfg = Some cb -> forall tr id, 0 <= id -> Forall call_ok (cb tr id)).
Context (Hreceive : forall tr id d, 0 <= id -> Forall call_ok (onReceive cfg tr id d)).

(** A callback of an open connection is called. *)
Lemma server_callback_ok st i e : winv None st -> active (conn_at st i) = true -> has (conn_at st i) f_closed = false ->
  about (session_id (conn_at st i)) e -> callback_of e = Some (session_id (conn_at st i)) -> (forall r, e <> EvClose (session_id (conn_at st i)) r) ->
  winv None (emit e st) /\ framed st (emit e st).
Proof.
  intros Hw Ha Hc He Hcb Hne. split; [|apply framed_emit]. destruct (w_conn _ _ Hw i Ha) as (a & s & Hi).
  pose proof (touched_emit _ _ _ _ _ _ _ e (touched_refl st i a s Hi)) as Ht. cbn [app] in Ht. eapply (winv_touch None None); try done.
  - pose proof Hi as [H1 H2 H3 H4 H5 H6 H7 H8 H9 H10 H11 H12 H13 H14 H15 H16]. split; try done.
    + intros Hp. apply elem_of_app. left. auto.
    + intros _ [?|[r ->]]%close_called_snoc; [by apply H15|by apply (Hne r)].
  - by constructor.
  - destruct (output_conn st i a s None Hw Hi) as (out & Hs & Ho). exists out. split; [|done]. cbn [emit trace]. rewrite sends_snoc.
    replace (match e with EvSend _ _ _ => _ | _ => _ end) with (@nil (list Z * bool)) by (by destruct e). rewrite app_nil_r. eapply stream_mono; [|done]. intros ?. apply elem_of_app. by left.
  - cbn [emit trace]. apply quiet_snoc; [apply Hw|]. intros j Hj. rewrite Hcb in Hj. injection Hj as <-. by apply (co_open _ _ _ _ Hi).
Qed.

Lemma notify_connect_ok st i : winv None st -> exists st' ok, notify_connect cfg st i = Some (st', ok) /\ winv None st' /\ framed st st' /\ (ok = false -> st' = st).
Proof.
  intros Hw. unfold notify_connect. destruct (active (conn_at st i)) eqn:Ha; [|eexists _, _; split; [done|]; by split_and!; [|apply framed_refl|]]. cbn [negb orb].
  destruct (has (conn_at st i) f_closed) eqn:Hc; [eexists _, _; split; [done|]; by split_and!; [|apply framed_refl|]|].
  destruct (onConnect cfg) as [cb|] eqn:Ecb; [|eexists _, _; split; [done|]; by split_and!; [|apply framed_refl|]].
  destruct (server_callback_ok st i (EvConnect (session_id (conn_at st i))) Hw Ha Hc) as [Hw1 Hf1]; [done..|].
  destruct (w_conn _ _ Hw i Ha) as (a & s & Hi). pose proof (co_id _ _ _ _ Hi).
  destruct (do_calls_ok _ (cb (trace st) (session_id (conn_at st i))) Hw1 (Hconnect _ eq_refl (trace st) (session_id (conn_at st i)) ltac:(lia))) as (st' & -> & Hw' & Hf'). cbn [mbind option_bind].
  eexists _, _. split; [done|]. split_and!; [done|by eapply framed_trans|done].
Qed.

(** The counters of the bytes that wait. *)
Lemma winv_queued st i r n : winv None st -> active (conn_at st i) = true -> let st' := upd_conn i (fun c => set_queued (r c) (n c) c) st in winv None st' /\ framed st st'.
Proof.
  intros Hw Ha. cbv zeta. destruct (w_conn _ _ Hw i Ha) as (a & s & Hi). set (g := fun c => _).
  destruct (winv_mild st (upd_conn i g st) i a s (g (conn_at st i)) s [] []) as [Hw' Hf]; try done;
    [by apply touched_upd, touched_refl|apply Hi|by rewrite app_nil_r|by left|]. split; [by eapply winv_unflight|done].
Qed.

Lemma accept_data_ok st id d : winv None st -> 0 <= id -> exists st', accept_data cfg st id d = Some st' /\ winv None st' /\ framed st st'.
Proof.
  intros Hw Hid. unfold accept_data. destruct (verify_ssl_total st id Hid) as (r & -> & Hr). cbn [mbind option_bind].
  destruct r as [i|]; [|eexists; split; [done|]; by split; [|apply framed_refl]]. destruct (Hr i eq_refl) as [Ha Eid].
  destruct (winv_queued st i (fun c => u32 (recv_queued_bytes c - zlen d)) send_queued_bytes Hw Ha) as [Hw1 Hf1].
  set (st1 := upd_conn i _ st) in *. assert (active (conn_at st1 i) = true /\ session_id (conn_at st1 i) = id) as [Ha1 Eid1] by (unfold st1; rewrite conn_at_upd; by rewrite decide_True).
  clearbody st1. destruct (has (conn_at st1 i) f_closed) eqn:Hc; [by eexists|].
  destruct (server_callback_ok st1 i (EvReceive id d) Hw1 Ha1 Hc) as [Hw2 Hf2]; [done|by rewrite Eid1|done|].
  destruct (do_calls_ok _ (onReceive cfg (trace st1) id d) Hw2 (Hreceive _ _ _ Hid)) as (st3 & -> & Hw3 & Hf3). exists st3. split; [done|]. split; [done|].
  eapply framed_trans; [done|by eapply framed_trans].
Qed.

Lemma dispatch_task_ok st a s d : winv None st -> rest st -> get_socket st a = Some s -> exists st', dispatch_task cfg st a d = Some st' /\ after st st'.
Proof.
  intros Hw Hr Hg. unfold dispatch_task. rewrite Hg. cbn [mbind option_bind]. destruct (live_conn st a s Hw Hr Hg) as (i & Hi & Ha). rewrite (co_object _ _ _ _ Hi). cbn [mbind option_bind].
  destruct (winv_queued st i (fun c => u32 (recv_queued_bytes c + zlen d)) send_queued_bytes Hw Ha) as [Hw1 Hf1].
  set (st1 := upd_conn i _ st) in *. assert (active (conn_at st1 i) = true /\ cfd (conn_at st1 i) = i /\ 0 <= session_id (conn_at st1 i)) as (Ha1 & Ef1 & Hid1).
  { unfold st1; rewrite conn_at_upd; rewrite decide_True by done. split_and!; [done|apply Hi|]. pose proof (co_id _ _ _ _ Hi). cbn [set_queued session_id]. lia. }
  clearbody st1. unfold dispatch. rewrite Ef1, get_connection_in by (pose proof (co_index _ _ _ _ Hi); lia). rewrite Ha1. cbn [negb orb].
  destruct (has (conn_at st1 i) f_closed).
  - destruct (winv_queued st1 i (fun c => u32 (recv_queued_bytes c - zlen d)) send_queued_bytes Hw1 Ha1) as [Hw2 Hf2]. eexists. split; [done|].
    apply after_framed; [done|done|by eapply framed_trans].
  - destruct (accept_data_ok st1 (session_id (conn_at st1 i)) d Hw1 Hid1) as (st2 & -> & Hw2 & Hf2). eexists. split; [done|].
    apply after_framed; [done|done|by eapply framed_trans].
Qed.

Lemma readable_ok st a s r : winv None st -> rest st -> get_socket st a = Some s -> exists st', readable_callback_raw cfg st a r = Some st' /\ after st st'.
Proof.
  intros Hw Hr Hg. destruct r; cbn [readable_callback_raw]; [by eapply dispatch_task_ok|eexists; split; [done|by apply after_refl]|by eapply on_close_ok].
Qed.

Lemma winv_counts fl st a c b n : winv fl st -> winv fl (with_counts st a c b n).
Proof. intros [W1 W2 W3 W4 W5 W6 W7 W8]. split; try done. intros i Hi. destruct (W2 i Hi) as (x & s & Hc). exists x, s. by apply (conn_ok_ext st). Qed.

Lemma framed_counts st a c b n : framed st (with_counts st a c b n).
Proof. split; try done. intros x s. eauto. Qed.

Lemma abort_ok st0 st i a s : winv None st -> rest st0 -> framed st0 st -> conn_ok st i a s -> active (conn_at st i) = true ->
  exists st', abort_connection cfg st a = Some st' /\ after st0 st'.
Proof.
  intros Hw Hr Hf Hi Ha. unfold abort_connection. rewrite (get_socket_ok _ _ _ _ Hi). cbn [mbind option_bind]. rewrite (co_object _ _ _ _ Hi).
  eapply (close_again st0 _ i a); [by apply winv_counts|eapply framed_trans; [done|apply framed_counts]|done|apply Hi|done].
Qed.

Lemma on_read_ok st a s hs r : winv None st -> rest st -> get_socket st a = Some s -> 0 < listen_fd cfg -> exists st', on_read cfg st a hs r = Some st' /\ after st st'.
Proof.
  intros Hw Hr Hg Hl. unfold on_read. rewrite Hg. cbn [mbind option_bind]. destruct (live_conn st a s Hw Hr Hg) as (i & Hi & Ha). rewrite (co_sfd _ _ _ _ Hi).
  rewrite get_connection_in by (pose proof (co_index _ _ _ _ Hi); lia). rewrite (co_server _ _ _ _ Hi). destruct (Z.eqb_spec (listen_fd cfg) 0); [lia|].
  destruct (has (conn_at st i) f_ssl) eqn:Essl; [|by eapply readable_ok]. cbn [negb orb]. destruct (has (conn_at st i) f_ssl_ready); [by eapply readable_ok|].
  pose proof (co_ssl _ _ _ _ Hi Essl) as Hdl. destruct hs.
  - eexists. split; [done|by apply after_refl].
  - set (st1 := upd_conn i _ st). assert (winv None st1) as Hw1 by (by apply winv_flag). assert (framed st st1) as Hf1 by (by apply framed_flag).
    assert (exists st2, match onConnect cfg with Some _ => '(st, _) ← notify_connect cfg st1 i; Some st | None => Some st1 end = Some st2 /\ winv None st2 /\ framed st st2) as (st2 & -> & Hw2 & Hf2).
    { destruct (notify_connect_ok st1 i Hw1) as (st2 & ok & -> & Hw2 & Hf2 & _). destruct (onConnect cfg); [|by exists st1]. exists st2. split; [done|]. split; [done|by eapply framed_trans]. }
    cbn [mbind option_bind]. rewrite Hdl. pose proof (after_framed _ _ Hr Hw2 Hf2) as Haf. destruct (get_socket st2 a) as [s2|] eqn:Eg; [|by eexists].
    destruct (readable_ok st2 a s2 r Hw2 (af_rest _ _ Haf) Eg) as (st3 & -> & Haf3). exists st3. split; [done|]. by eapply (after_trans _ st2).
  - eapply (abort_ok st st i a s); [done|done|apply framed_refl|done|done].
Qed.

(** A socket without a connection comes, changes, and goes. *)
Lemma winv_sockets st l : winv None st -> (forall a s, sockets st !! a = Some s -> object s <> None \/ (exists id, EvAccept id a ∈ trace st) -> l !! a = Some s) ->
  (forall a s, l !! a = Some s -> sockets st !! a = Some s \/ object s = None) -> winv None (with_sockets st l).
Proof.
  intros Hw Hold Hnew. pose proof Hw as [W1 W2 W3 W4 W5 W6 W7 W8]. split; try done.
  - intros i Hi. destruct (W2 i Hi) as (a & s & Hc). exists a, s. apply (conn_ok_ext st); try done. cbn [with_sockets sockets]. rewrite (co_sock _ _ _ _ Hc).
    apply Hold; [apply Hc|]. left. by rewrite (co_object _ _ _ _ Hc).
  - intros a s i Ha Hf Ho. destruct (Hnew a s Ha) as [Hs|Hs]; [by apply (W3 a s)|congruence].
  - intros id a Hin. destruct (W4 id a Hin) as (? & s & Hs & Ho). split; [done|]. exists s. split; [|done]. apply Hold; [done|eauto].
Qed.

Lemma incoming_ok st i a s add_ok : winv None st -> active (conn_at st i) = true -> conn_ok st i a s ->
  exists st' ok, connection_incoming cfg st i a add_ok = Some (st', ok) /\ winv None st' /\ framed st st' /\
    (ok = false -> active (conn_at st' i) = true /\ csocket (conn_at st' i) = Some a).
Proof.
  intros Hw Ha Hi. pose proof (co_socket _ _ _ _ Hi) as Hc. unfold connection_incoming. rewrite (get_socket_ok _ _ _ _ Hi). cbn [mbind option_bind].
  destruct (winv_events st i a s true false false Hw Ha Hi) as [Hw1 Hf1]. set (st1 := put_socket a _ st) in *.
  assert (active (conn_at st1 i) = true /\ csocket (conn_at st1 i) = Some a) as H1 by done.
  assert (forall st0 : State, winv None st0 -> framed st st0 -> active (conn_at st0 i) = true /\ csocket (conn_at st0 i) = Some a -> forall ok, exists st' r, Some (st0, ok) = Some (st', r) /\ winv None st' /\ framed st st' /\
    (r = false -> active (conn_at st' i) = true /\ csocket (conn_at st' i) = Some a)) as Hret by (intros; eexists _, _; by split_and!).
  pose proof (framed_refl st). destruct (has (conn_at st i) f_ssl); [destruct add_ok; by apply Hret|]. destruct (_ && _); [by apply Hret|].
  set (st2 := if enable_delay_receive cfg then st else st1). assert (winv None st2 /\ framed st st2 /\ active (conn_at st2 i) = true /\ csocket (conn_at st2 i) = Some a) as (Hw2 & Hf2 & H2)
    by (unfold st2; by destruct (enable_delay_receive cfg)).
  destruct (notify_connect_ok st2 i Hw2) as (st3 & ok & E3 & Hw3 & Hf3 & Hok). destruct (onConnect cfg) as [cb|]; [|by apply Hret]. rewrite E3.
  eexists _, _. split; [done|]. split_and!; [done|by eapply framed_trans|]. intros ->. by rewrite Hok.
Qed.

Lemma server_accept_ok st fd (tls ssl_ok add_ok : bool) : winv None st -> rest st -> fd_free cfg st fd = true -> (tls = true -> enable_delay_receive cfg = false) ->
  session_round st + max_connection cfg < 2 ^ 63 -> exists st', accept_connection cfg st fd tls ssl_ok add_ok = Some st' /\ winv None st' /\ rest st' /\
    session_round st <= session_round st' <= session_round st + max_connection cfg /\ trace st `prefix_of` trace st'.
Proof.
  intros Hw Hr Hfree Htls Hround. unfold fd_free in Hfree. apply andb_prop in Hfree as [Hfree Hall]. apply andb_prop in Hfree as [Hpos%Z.ltb_lt _].
  unfold accept_connection. set (a := length (sockets st)). set (s := new_sock fd tls). set (st1 := with_sockets st _).
  assert (sockets st1 !! a = Some s) as Es by (cbn [st1 with_sockets sockets]; rewrite lookup_app_r by lia; unfold a; by rewrite Nat.sub_diag).
  assert (forall id, EvAccept id a ∉ trace st) as Hno. { intros id Hin. destruct (w_accept _ _ Hw _ _ Hin) as (_ & s' & Hs & _). apply lookup_lt_Some in Hs. unfold a in Hs. lia. }
  assert (winv None st1) as Hw1.
  { apply winv_sockets; [done| |]; intros b t Hb; [intros _; by apply lookup_app_l_Some|]. apply lookup_app_Some in Hb as [?|[_ Hb]]; [by left|right].
    apply list_lookup_singleton_Some in Hb as [_ <-]. done. }
  (* the socket goes before it has a connection *)
  assert (forall st2, winv None st2 -> sockets st2 = sockets st1 -> trace st2 = trace st -> session_round st2 = session_round st ->
    exists st', abort_connection cfg st2 a = Some st' /\ winv None st' /\ rest st' /\ session_round st <= session_round st' <= session_round st + max_connection cfg /\ trace st `prefix_of` trace st') as Hdrop.
  { intros st2 Hw2 E2 Et2 Er2. unfold abort_connection, get_socket. rewrite E2, Es. cbn [mbind option_bind s new_sock freed object].
    set (st3 := with_counts _ _ _ _ _). eexists. split; [done|]. split_and!; [|intros b t Hb Hf|cbn; lia|cbn; lia|cbn; by rewrite Et2].
    - apply winv_sockets; [by apply winv_counts| |]; cbn [st3 with_counts sockets trace].
      + intros b t Hb Ho. rewrite E2 in *. rewrite list_lookup_insert_ne; [done|]. intros <-. rewrite Es in Hb. injection Hb as <-. destruct Ho as [?|[id Hin]]; [done|].
        rewrite Et2 in Hin. by apply Hno in Hin.
      + intros b t Hb. rewrite E2 in *. destruct (decide (b = a)) as [->|Hne]; [|rewrite list_lookup_insert_ne in Hb by done; by left].
        rewrite list_lookup_insert_eq in Hb by (by eapply lookup_lt_Some). injection Hb as <-. by right.
    - cbn [put_socket with_sockets sockets st3 with_counts] in Hb. rewrite E2 in Hb. destruct (decide (b = a)) as [->|Hne].
      + rewrite list_lookup_insert_eq in Hb by (by eapply lookup_lt_Some). by injection Hb as <-.
      + rewrite list_lookup_insert_ne in Hb by done. cbn [st1 with_sockets sockets] in Hb. apply lookup_app_Some in Hb as [Hb|[? Hb]]; [by apply (Hr b)|].
        apply list_lookup_singleton_Some in Hb as [? _]. unfold a in Hne. lia. }
  destruct (Z.leb_spec (max_connection cfg) fd); [by apply Hdrop|]. destruct (tls && negb ssl_ok); [by apply Hdrop|].
  assert (fresh_sock st1 a s) as Hfs.
  { split; try done. destruct (active (conn_at st1 (sfd s))) eqn:Ha; [|done]. destruct (w_conn _ _ Hw fd Ha) as (b & t & Hi).
    apply forallb_forall with (x := t) in Hall; [|apply list_elem_of_In, (list_elem_of_lookup_2 _ b), Hi]. rewrite (co_live _ _ _ _ Hi), (co_sfd _ _ _ _ Hi), Z.eqb_refl in Hall. done. }
  destruct (add_connection_ok st1 a s tls Htls Hw1 Hfs Hround) as (st2 & r & -> & Hw2 & Hor). cbn [mbind option_bind]. destruct Hor as [(-> & id & Had)|(-> & _ & Et & Er & Esk)]; [|by apply Hdrop].
  cbn [sfd s new_sock] in Had |- *. destruct (ad_conn _ _ _ _ _ Had) as (Ha2 & Hc2 & _). destruct (w_conn _ _ Hw2 fd Ha2) as (a' & s2 & Hi2).
  pose proof (co_socket _ _ _ _ Hi2) as E. rewrite Hc2 in E. injection E as <-. assert (rest st2) as Hr2.
  { intros b t Hb Hf. destruct (decide (b = a)) as [->|Hne]; [rewrite (co_sock _ _ _ _ Hi2) in Hb; injection Hb as <-; exists fd; apply Hi2|].
    rewrite (ad_sockets _ _ _ _ _ Had) in Hb by done. cbn [st1 with_sockets sockets] in Hb. apply lookup_app_Some in Hb as [Hb|[? Hb]]; [by apply (Hr b)|].
    apply list_lookup_singleton_Some in Hb as [? _]. unfold a in Hne. lia. }
  pose proof (ad_round _ _ _ _ _ Had) as Hrd. pose proof (ad_trace _ _ _ _ _ Had) as Htr. change (session_round st1) with (session_round st) in Hrd. change (trace st1) with (trace st) in Htr.
  assert (forall st', after st2 st' -> winv None st' /\ rest st' /\ session_round st <= session_round st' <= session_round st + max_connection cfg /\ trace st `prefix_of` trace st') as Hfin.
  { intros st' [A1 A2 A3 A4]. split_and!; [done|done|lia|lia|]. etrans; [|exact A4]. rewrite Htr. by eexists. }
  destruct (incoming_ok st2 fd a s2 add_ok Hw2 Ha2 Hi2) as (st3 & ok & -> & Hw3 & Hf3 & Hok). cbn [mbind option_bind]. destruct ok.
  - eexists. split; [done|]. by apply Hfin, after_framed.
  - destruct (Hok eq_refl) as [Ha3 Hc3]. destruct (w_conn _ _ Hw3 fd Ha3) as (a' & s3 & Hi3). pose proof (co_socket _ _ _ _ Hi3) as E. rewrite Hc3 in E. injection E as <-.
    destruct (abort_ok st2 st3 fd a s3 Hw3 Hr2 Hf3 Hi3 Ha3) as (st4 & -> & Haf). exists st4. split; [done|]. by apply Hfin.
Qed.

(** ** The write event *)

Lemma total_front x y : inv files true x -> inv files true y -> front_changed x y -> total y <= total x.
Proof.
  intros Hx Hy (b & b' & c & q & E1 & E2 & E3 & Hor). unfold total. rewrite E1, E2. destruct (iv_out _ _ _ Hx b E1) as [Hb _], (iv_out _ _ _ Hy b' E2) as [Hb' _].
  rewrite (bw_total _ _ _ Hb), (bw_total _ _ _ Hb'), E3. pose proof (bw_chunks _ _ _ Hb) as Hc. rewrite E3 in Hc. apply Forall_cons in Hc as [Hc _].
  assert (0 <= clength c) by (destruct Hc; simpl; lia). destruct Hor as [->|(c' & -> & El)]; simpl; lia.
Qed.

Lemma io_ok_handled ovf x y : io_ok ovf x -> inv files true y -> same_socket x y -> front_changed x y -> io_ok ovf y.
Proof.
  intros [I1 I2 I3 I4] Hy (Hs & _) Hf. pose proof (total_front x y I1 Hy Hf). split; [done|congruence|lia|]. intros ?. specialize (I4 ltac:(done)). lia.
Qed.

Lemma write_loop_ok cork_ok fuel s q ovf : io_ok ovf (io s) -> Forall (orderly files) (kernel (io s)) -> (queue_length (io s) + length (kernel (io s)) < fuel)%nat ->
  exists s' q' e, write_loop cork_ok fuel s q = Some (s', q', e) /\ s' = set_io s (io s') /\ io_ok ovf (io s') /\
    wire (io s') ++ pending (io s') = wire (io s) ++ pending (io s) /\ same_socket (io s) (io s').
Proof.
  revert s q. induction fuel as [|fuel IH]; intros s q Hio Hk Hf; [lia|]. cbn [write_loop].
  assert (s = set_io s (io s)) as Eself by (by destruct s).
  assert (forall e : write_end, exists s' q' e', Some (s, q, e) = Some (s', q', e') /\ s' = set_io s (io s') /\ io_ok ovf (io s') /\ wire (io s') ++ pending (io s') = wire (io s) ++ pending (io s) /\ same_socket (io s) (io s')) as Hstop
    by (intros e; eexists _, _, _; by split_and!).
  destruct (empty_buffer (out_buffer (io s))) eqn:Ee; [apply Hstop|]. destruct (out_buffer (io s)) as [b|] eqn:Eo; [|done]. cbn [mbind option_bind].
  destruct (queue_ b) as [|c q0] eqn:Eq; [simpl in Ee; by rewrite Eq in Ee|]. cbn [head mbind option_bind].
  destruct (iv_out _ _ _ (io_inv _ _ Hio) b Eo) as [Hbw _]. pose proof (bw_chunks _ _ _ Hbw) as Hc. rewrite Eq in Hc. apply Forall_cons in Hc as [Hc _].
  (* one chunk *)
  assert (forall x r, handled files true (io s) x r -> same_socket (io s) x -> front_changed (io s) x -> forall q1,
    exists s' q' e, (if r <? 0 then if close_wait x then Some (set_io s x, q, WError) else if send_wait x then Some (set_io s x, q, WDone) else write_loop cork_ok fuel (set_io s x) q
      else write_loop cork_ok fuel (set_io s x) q1) = Some (s', q', e) /\ s' = set_io s (io s') /\ io_ok ovf (io s') /\
      wire (io s') ++ pending (io s') = wire (io s) ++ pending (io s) /\ same_socket (io s) (io s')) as Hone.
  { intros x r [Hi Hb Hkx _ Hres _ _] Hsm Hfr q1. pose proof (io_ok_handled _ _ _ Hio Hi Hsm Hfr) as Hiox. destruct Hres as [(-> & _ & Hlt)|(-> & Hw)].
    - cbn [SW_OK Z.ltb Z.compare]. destruct (IH (set_io s x) q1) as (s' & q' & e & E & Es' & Hio' & Hb' & Hs'); [done|by eapply orderly_suffix|cbn [set_io io]; lia|].
      exists s', q', e. split; [exact E|]. cbn [set_io io] in *. split_and!; [rewrite Es' at 1; done|done|congruence|by eapply same_socket_trans].
    - cbn [SW_ERR Z.ltb Z.compare]. destruct (close_wait x); [eexists _, _, _; split; [done|]; by split_and!|].
      destruct Hw as [?|[-> _]]; [done|]. eexists _, _, _. split; [done|]. by split_and!. }
  destruct Hc as [len off m size|t size|size Hsv]; cbn [ctype].
  - destruct (handle_send_ok files true (io s) b _ q0 len off m size (io_inv _ _ Hio) Hk Eo Eq eq_refl) as (x & r & E & Hh). rewrite E. cbn [mbind option_bind].
    destruct (handle_send_frame files _ _ _ _ _ _ Hk Eo Eq E) as [Hsm Hfr]. pose proof Hfr as (? & b' & ? & ? & _ & Eb' & _). rewrite Eb'. cbn [mbind option_bind].
    destruct (r <? 0) eqn:Er; specialize (Hone x r Hh Hsm Hfr (total_length b')); by rewrite Er in Hone.
  - destruct (handle_sendfile_ok files true cork_ok (io s) b _ q0 t size (io_inv _ _ Hio) Hk Eo Eq eq_refl) as (x & r & E & Hh). rewrite E. cbn [mbind option_bind].
    destruct (handle_sendfile_frame files cork_ok _ _ _ _ _ _ Hk Eo Eq E) as [Hsm Hfr]. by apply Hone.
  - apply Hstop.
Qed.

Lemma on_write_ok cork_ok st a s ks : winv None st -> rest st -> get_socket st a = Some s -> Forall (orderly files) ks -> exists st', on_write cfg cork_ok st a ks = Some st' /\ after st st'.
Proof.
  intros Hw Hr Hg Hk. unfold on_write. rewrite Hg. cbn [mbind option_bind]. destruct (live_conn st a s Hw Hr Hg) as (i & Hi & Ha). rewrite (co_sfd _ _ _ _ Hi).
  rewrite get_connection_in by (pose proof (co_index _ _ _ _ Hi); lia). rewrite Ha, (co_notify _ _ _ _ Hi). cbn [negb]. set (s0 := set_io s _).
  destruct (write_loop_ok cork_ok (S (queue_length (io s0) + length ks)) s0 (send_queued_bytes (conn_at st i)) (has (conn_at st i) f_overflow)) as (s1 & q & e & E & Es1 & Hio1 & Hb1 & Hsm1);
    [apply io_ok_kernel, Hi|done|cbn [s0 set_io io with_kernel kernel]; lia|].
  rewrite E. cbn [mbind option_bind]. set (st1 := put_socket a s1 _). set (c1 := set_queued (recv_queued_bytes (conn_at st i)) q (conn_at st i)).
  assert (touched st st1 i a c1 s1 []) as Ht by (eapply touched_put, (touched_upd _ _ _ _ _ _ _ (fun c => set_queued (recv_queued_bytes c) q c)), touched_refl, Hi).
  assert ((sfd s1, object s1, freed s1) = (sfd s, object s, freed s)) as Eself by (by rewrite Es1).
  destruct (winv_mild st st1 i a s c1 s1 [] []) as [Hw1 Hf1]; try done; [by rewrite app_nil_r|by left|]. apply winv_unflight in Hw1.
  pose proof (touched_conn _ _ _ _ _ _ _ Ht) as Ec1. assert (active (conn_at st1 i) = true /\ csocket (conn_at st1 i) = Some a) as [Ha1 Hc1] by (rewrite Ec1; split; [done|apply Hi]).
  destruct (w_conn _ _ Hw1 i Ha1) as (a' & s' & Hi1). pose proof (co_socket _ _ _ _ Hi1) as X. rewrite Hc1 in X. injection X as <-.
  assert (s' = s1) as -> by (pose proof (co_sock _ _ _ _ Hi1) as X; rewrite (t_sock _ _ _ _ _ _ _ Ht), list_lookup_insert_eq in X by (eapply lookup_lt_Some, Hi); congruence).
  pose proof (after_framed _ _ Hr Hw1 Hf1) as Haf. clearbody st1. destruct e.
  - set (st2 := if has (conn_at st1 i) f_overflow && _ then _ else st1). set (st3 := if onBufferEmpty cfg && _ && _ then _ else st2).
    assert (exists c3 es, touched st1 st3 i a c3 s1 es /\ mild (conn_at st1 i) c3 /\ io_ok (has c3 f_overflow) (io s1) /\
      (es = [] \/ (exists e, es = [e] /\ (e = EvBufferFull (session_id (conn_at st1 i)) \/ e = EvBufferEmpty (session_id (conn_at st1 i)))) /\ has (conn_at st1 i) f_closed = false)) as (c3 & es & T3 & M3 & O3 & He3).
    { assert (exists c2, touched st1 st2 i a c2 s1 [] /\ mild (conn_at st1 i) c2 /\ io_ok (has c2 f_overflow) (io s1)) as (c2 & T2 & M2 & O2).
      { unfold st2. destruct (_ && _) eqn:Eb; [|exists (conn_at st1 i); split_and!; [by apply touched_refl|done|apply Hi1]]. exists (set_flag f_overflow false (conn_at st1 i)).
        split_and!; [by apply touched_upd, touched_refl|by apply mild_flag|]. rewrite set_flag_eq. apply andb_prop in Eb as [_ Eb%Z.ltb_lt]. destruct (co_io _ _ _ _ Hi1) as [J1 J2 J3 J4].
        split; [done|done|done|]. intros _. unfold out_length in Eb. unfold total. lia. }
      unfold st3. clearbody st2. destruct (_ && _ && _); [|exists c2, []; auto]. pose proof (touched_upd _ _ _ _ _ _ _ (set_flag f_high_watermark false) T2) as T4.
      pose proof (touched_conn _ _ _ _ _ _ _ T4) as E4. pose proof M2 as [[= A1 A2 A3 A4 A5] Hh]. unfold notify_buffer. rewrite E4. cbn [set_flag active session_id]. rewrite A1, Ha1, A3. cbn [negb orb].
      rewrite set_flag_same by done. rewrite (Hh f_closed) by done. exists (set_flag f_high_watermark false c2). destruct (has (conn_at st1 i) f_closed) eqn:Ecd.
      - exists []. split_and!; [done|by apply mild_flag|by rewrite set_flag_same|by left].
      - exists [EvBufferEmpty (session_id (conn_at st1 i))]. split_and!; [apply (touched_emit _ _ _ _ _ _ [] _ T4)|by apply mild_flag|by rewrite set_flag_same|right; eauto]. }
    clearbody st3. destruct (winv_mild st1 st3 i a s1 c3 s1 es [] Hw1 Ha1 Hi1 T3 M3) as [Hw3 Hf3]; [done|done|by rewrite app_nil_r|done|]. apply winv_unflight in Hw3.
    pose proof (after_framed _ _ (af_rest _ _ Haf) Hw3 Hf3) as Haf3. destruct (_ && _ && _); [|eexists; split; [done|by eapply after_trans]].
    pose proof (touched_conn _ _ _ _ _ _ _ T3) as Ec3. pose proof M3 as [[= A1 A2 A3 A4 A5] _]. assert (active (conn_at st3 i) = true /\ csocket (conn_at st3 i) = Some a) as [Ha3 Hc3] by (rewrite Ec3, A1, A4; done).
    destruct (w_conn _ _ Hw3 i Ha3) as (a' & s' & Hi3). pose proof (co_socket _ _ _ _ Hi3) as X. rewrite Hc3 in X. injection X as <-.
    assert (s' = s1) as -> by (pose proof (co_sock _ _ _ _ Hi3) as X; rewrite (t_sock _ _ _ _ _ _ _ T3), list_lookup_insert_eq in X by (eapply lookup_lt_Some, Hi1); congruence).
    destruct (winv_events st3 i a s1 true false (removed (io s1)) Hw3 Ha3 Hi3) as [Hw4 Hf4]. eexists. split; [done|]. eapply after_trans; [exact Haf|]. eapply after_trans; [exact Haf3|].
    apply after_framed; [apply Haf3|done|done].
  - destruct (close_again st st1 i a Hw1 Hf1 Ha1 Hc1 Hr) as (st2 & E2 & Haf2). eauto.
  - destruct (on_close_ok st1 a s1 Hw1 (af_rest _ _ Haf) (get_socket_ok _ _ _ _ Hi1)) as (st2 & -> & Haf2). exists st2. split; [done|by eapply after_trans].
Qed.

(** ** Runs *)

(** What may happen: the session ids of other workers are below [R] when they take them;
    TLS goes with receiving at once. *)
Definition op_ok (R : Z) (o : op) : Prop :=
  match o with
  | OAccept _ tls _ _ => tls = true -> enable_delay_receive cfg = false
  | ORead _ _ _ | OHup _ => True
  | OWrite _ ks => Forall (orderly files) ks
  | OCall c => call_ok c
  | OTake id _ _ => 0 <= id <= R
  | OGive id => 0 <= id
  | OFds _ _ => fds = false
  end.

(** Other workers change sessions that are not of this one. *)
Lemma winv_sessions st l r : winv None st -> session_round st <= r ->
  (forall i, active (conn_at st i) = true -> l !! session_index (session_id (conn_at st i)) = session_list st !! session_index (session_id (conn_at st i))) ->
  winv None (with_sessions st l r).
Proof.
  intros Hw Hr Hl. pose proof Hw as [W1 W2 W3 W4 W5 W6 W7 W8]. split; try done; [cbn; lia| |].
  - intros i Hi. destruct (W2 i Hi) as (a & s & Hc). exists a, s. apply (conn_ok_ext st); try done. by apply Hl.
  - intros id a Hin. destruct (W4 id a Hin) as [? Hs]. split; [cbn; lia|done].
Qed.

Lemma slot_apart st i k : winv None st -> active (conn_at st i) = true ->
  sess_fd (default no_session (session_list st !! k)) = 0 \/ sess_reactor (default no_session (session_list st !! k)) <> worker_id cfg ->
  session_index (session_id (conn_at st i)) <> k.
Proof.
  intros Hw Ha Hs <-. destruct (w_conn _ _ Hw i Ha) as (a & s & Hi). rewrite (co_session _ _ _ _ Hi) in Hs. pose proof (co_index _ _ _ _ Hi). simpl in Hs. destruct Hs; [lia|done].
Qed.

Lemma watched_socket st a : watched st a = true -> exists s, get_socket st a = Some s.
Proof. unfold watched. destruct (get_socket st a); [eauto|done]. Qed.

Lemma server_step_ok cork_ok R st o : 0 < listen_fd cfg -> winv None st -> rest st -> session_round st + max_connection cfg < 2 ^ 63 -> op_ok R o ->
  exists st', step cfg cork_ok st o = Some st' /\ winv None st' /\ rest st' /\ session_round st' <= Z.max R (session_round st + max_connection cfg).
Proof.
  intros Hl Hw Hr Hround Ho. assert (forall st', after st st' -> winv None st' /\ rest st' /\ session_round st' <= Z.max R (session_round st + max_connection cfg)) as Hfin.
  { intros st' [A1 A2 A3 A4]. split_and!; [done|done|lia]. }
  pose proof (Hfin st (after_refl st Hw Hr)) as Hsame.
  assert (forall st', (exists st1, Some st' = Some st1 /\ winv None st1 /\ rest st1 /\ session_round st1 <= Z.max R (session_round st + max_connection cfg)) <->
    winv None st' /\ rest st' /\ session_round st' <= Z.max R (session_round st + max_connection cfg)) as Hsome.
  { intros st'. split; [by intros (? & [= <-] & ?)|eauto]. }
  destruct o as [fd tls ssl_ok add_ok|a hs r|a ks|a|c|id fd reactor|id|mn mx]; cbn [step op_ok] in *.
  - destruct (fd_free cfg st fd) eqn:Ef; [|by apply Hsome]. destruct (server_accept_ok st fd tls ssl_ok add_ok Hw Hr Ef Ho Hround) as (st' & -> & ? & ? & ? & _). apply Hsome. split_and!; [done|done|lia].
  - destruct (watched st a) eqn:Ew; [|by apply Hsome]. destruct (watched_socket _ _ Ew) as [s Hs]. destruct (on_read_ok st a s hs r Hw Hr Hs Hl) as (st' & -> & Haf). by apply Hsome, Hfin.
  - destruct (watched st a) eqn:Ew; [|by apply Hsome]. destruct (watched_socket _ _ Ew) as [s Hs]. destruct (on_write_ok cork_ok st a s ks Hw Hr Hs Ho) as (st' & -> & Haf). by apply Hsome, Hfin.
  - destruct (watched st a) eqn:Ew; [|by apply Hsome]. destruct (watched_socket _ _ Ew) as [s Hs]. destruct (on_close_ok st a s Hw Hr Hs) as (st' & -> & Haf). by apply Hsome, Hfin.
  - destruct (do_call_ok st c Hw Ho) as (st' & -> & Hw' & Hf). apply Hsome, Hfin. by apply after_framed.
  - rewrite get_session_total by lia. cbn [mbind option_bind]. destruct (_ && _ && _ && _) eqn:Eb; [|by apply Hsome]. apply Hsome.
    apply andb_prop in Eb as [Eb _]. apply andb_prop in Eb as [Eb _]. apply andb_prop in Eb as [E1%Z.ltb_lt E2%Z.eqb_eq]. split_and!; [|done|cbn; lia]. apply winv_sessions; [done|lia|].
    intros i Hi. rewrite lookup_insert_ne; [done|]. apply not_eq_sym, slot_apart; [done|done|by left].
  - rewrite get_session_total by lia. cbn [mbind option_bind]. destruct (_ && _) eqn:Eb; [|by apply Hsome]. apply Hsome. apply andb_prop in Eb as [E1%Z.eqb_eq E2%negb_true_iff%Z.eqb_neq].
    split_and!; [|done|cbn; lia]. apply winv_sessions; [done|lia|]. intros i Hi. rewrite lookup_insert_ne; [done|]. apply not_eq_sym, slot_apart; [done|done|by right].
  - apply Hsome. split_and!; [|done|cbn; lia]. destruct Hw as [W1 W2 W3 W4 W5 W6 W7 W8]. split; try done; [|congruence].
    intros i Hi. destruct (W2 i Hi) as (a & s & Hc). exists a, s. by apply (conn_ok_ext st).
Qed.

Lemma run_worker_ok cork_ok R st prog : 0 < listen_fd cfg -> winv None st -> rest st -> session_round st <= R -> R + Z.of_nat (length prog) * max_connection cfg < 2 ^ 63 ->
  Forall (op_ok R) prog -> exists st', run cfg cork_ok st prog = Some st' /\ winv None st' /\ rest st'.
Proof.
  intros Hl. assert (forall r, winv None st -> rest st -> session_round st <= r -> R <= r -> r + Z.of_nat (length prog) * max_connection cfg < 2 ^ 63 -> Forall (op_ok R) prog ->
    exists st', run cfg cork_ok st prog = Some st' /\ winv None st' /\ rest st') as Hall; [|intros; by apply (Hall R)].
  revert st. induction prog as [|o prog IH]; intros st r Hw Hr Hb HR Hbound Hp; cbn [run]; [by exists st|]. apply Forall_cons in Hp as [Ho Hp]. cbn [length] in Hbound.
  destruct (server_step_ok cork_ok R st o Hl Hw Hr) as (st1 & -> & Hw1 & Hr1 & Hb1); [nia|done|]. cbn [mbind option_bind]. apply (IH st1 (r + max_connection cfg)); try done; lia.
Qed.

Lemma start_winv round : 0 <= round -> winv None (start cfg round) /\ rest (start cfg round).
Proof.
  intros Hr. assert (forall i, active (conn_at (start cfg round) i) = false) as Hno.
  { intros i. unfold conn_at, start. cbn [connection_list]. destruct (decide (i = listen_fd cfg)) as [->|Hne]; [by rewrite lookup_singleton_eq|by rewrite lookup_singleton_ne]. }
  split; [|done]. split; try done.
  - intros i Hi. by rewrite Hno in Hi.
  - by intros id a ?%not_elem_of_nil.
  - by intros id a id' a' ?%not_elem_of_nil.
  - intros id _. split; [constructor|]. by intros (r & ?%not_elem_of_nil).
  - intros pre e post id E. by destruct pre.
  - intros _. split; [cbn; lia|]. intros i Hi. by rewrite Hno in Hi.
Qed.
End invariant.

(** ** Iterating over the connections *)

Lemma seqZ_snoc_l fd n : seqZ fd (Z.of_nat (S n)) = fd :: seqZ (fd + 1) (Z.of_nat n).
Proof. rewrite (seqZ_cons fd) by lia. f_equal. f_equal; lia. Qed.

Lemma visit_filter cfg n st fd :
  visit cfg n st fd = filter (fun i => is_valid_connection st (get_connection cfg i) = true) (seqZ fd (Z.of_nat n)).
Proof.
  revert fd. induction n as [|n IH]; intros fd; [done|]. rewrite seqZ_snoc_l. cbn [visit]. rewrite filter_cons, <- IH. case_decide as Hd.
  - by rewrite Hd.
  - by destruct (is_valid_connection st (get_connection cfg fd)).
Qed.

(** The connections that a program sees, and the sessions of those from [fd] on. *)
Definition listed (cfg : Config) (st : State) (i : Z) : bool :=
  match get_connection_for_iterator cfg st i with Some j => 0 <? session_id (conn_at st j) | None => false end.
Definition sessions_from (cfg : Config) (st : State) (fd : Z) : list Z :=
  session_id ∘ conn_at st <$> filter (fun i => listed cfg st i = true) (seqZ fd (max_fd st - fd + 1)).

Lemma client_loop_take cfg n st fd k : 0 < k ->
  client_loop cfg n st fd k = take (Z.to_nat k) (session_id ∘ conn_at st <$> filter (fun i => listed cfg st i = true) (seqZ fd (Z.of_nat n))).
Proof.
  revert fd k. induction n as [|n IH]; intros fd k Hk; [cbn; by destruct (Z.to_nat k)|]. rewrite seqZ_snoc_l. cbn [client_loop]. rewrite filter_cons.
  assert (listed cfg st fd = match get_connection_for_iterator cfg st fd with Some j => 0 <? session_id (conn_at st j) | None => false end) as El by done.
  destruct (get_connection_for_iterator cfg st fd) as [i|] eqn:Ei.
  - assert (i = fd) as ->. { unfold get_connection_for_iterator in Ei. destruct (get_connection cfg fd) as [j|] eqn:Ej; [|done]. apply get_connection_Some in Ej as ->.
      repeat case_match; congruence. }
    destruct (Z.ltb_spec 0 (session_id (conn_at st fd))).
    + rewrite decide_True by congruence. cbn [fmap list_fmap]. replace (Z.to_nat k) with (S (Z.to_nat (k - 1))) by lia. cbn [take]. f_equal.
      destruct (Z.leb_spec (k - 1) 0); [by replace (Z.to_nat (k - 1)) with 0%nat by lia|]. by apply IH; lia.
    + rewrite decide_False by congruence. destruct (Z.leb_spec k 0); [lia|]. by apply IH.
  - rewrite decide_False by congruence. destruct (Z.leb_spec k 0); [lia|]. by apply IH.
Qed.

(** ** Theorems *)

(** A server whose settings fit: the session list is large enough, the worker's number
    fits the sessions, the output of a connection stays below 4 GB, and the callbacks
    make proper calls. *)
Record server_ok (cfg : Config) (files : bool) (L : Z) : Prop := {
  sv_max : 0 < max_connection cfg <= SW_SESSION_LIST_SIZE;
  sv_worker : 0 <= worker_id cfg < 256;
  sv_listen : 0 < listen_fd cfg;
  sv_buffer : 0 < socket_buffer_size cfg;
  sv_length : 0 < L;
  sv_total : socket_buffer_size cfg + 2 * L < 2 ^ 32;
  sv_connect : forall cb, onConnect cfg = Some cb -> forall tr id, 0 <= id -> Forall (call_ok files L) (cb tr id);
  sv_receive : forall tr id d, 0 <= id -> Forall (call_ok files L) (onReceive cfg tr id d);
  sv_close : forall cb, onClose cfg = Some cb -> forall tr id, 0 <= id -> Forall (call_ok files L) (cb tr id);
}.

Lemma run_from_start `{Allocator} cfg cork_ok files fds L R round prog : server_ok cfg files L -> 0 <= round <= R ->
  R + Z.of_nat (length prog) * max_connection cfg < 2 ^ 63 -> Forall (op_ok cfg files fds L R) prog ->
  exists st, run cfg cork_ok (start cfg round) prog = Some st /\ winv cfg files fds (socket_buffer_size cfg) L None st.
Proof.
  intros [V1 V2 V3 V4 V5 V6 V7 V8 V9] Hr Hb Hp. destruct (start_winv cfg files fds (socket_buffer_size cfg) L round) as [Hw Hre]; [lia|].
  destruct (run_worker_ok cfg files fds (socket_buffer_size cfg) L V1 V2 V4 V5 V6 eq_refl V9 V7 V8 cork_ok R (start cfg round) prog) as (st & E & Hw' & _); try done; [cbn; lia|]. eauto.
Qed.


(** C27: the iterations of a worker that has the range of descriptors for itself.
    [foreach_connection] visits exactly the open connections, in the order of their
    descriptors; [get_client_list] gives the first sessions, or those after a given one,
    of the connections that the program may see; from the start it leaves out the lowest
    descriptor of the range.  The conditions are those of [server_ok] and [op_ok], as for the sessions, and
    that no other worker changes the range. *)
Theorem foreach_connection_complete `{Allocator} cfg cork_ok files L R round prog : server_ok cfg files L -> 0 <= round <= R ->
  R + Z.of_nat (length prog) * max_connection cfg < 2 ^ 63 -> Forall (op_ok cfg files true L R) prog ->
  exists st, run cfg cork_ok (start cfg round) prog = Some st /\
    foreach_connection cfg st = filter (fun i => active (conn_at st i) = true) (seqZ (min_fd st) (max_fd st - min_fd st + 1)) /\
    (forall i, active (conn_at st i) = true -> i ∈ foreach_connection cfg st) /\
    (forall k, 0 < k -> get_client_list cfg st 0 k = Some (Some (take (Z.to_nat k) (sessions_from cfg st (min_fd st + 1))))) /\
    (forall k i, 0 < k -> listed cfg st i = true -> get_client_list cfg st (session_id (conn_at st i)) k = Some (Some (take (Z.to_nat k) (sessions_from cfg st (i + 1))))).
Proof.
  intros Hs Hr Hb Hp. destruct (run_from_start cfg cork_ok files true L R round prog Hs Hr Hb Hp) as (st & E & Hw). pose proof (sv_max _ _ _ Hs) as Hmax.
  destruct (w_fds _ _ _ _ _ _ _ Hw eq_refl) as [Hmm Hrange]. assert (forall i, is_valid_connection st (get_connection cfg i) = true <-> active (conn_at st i) = true) as Hval.
  { intros i. split; [|by apply (valid_active _ _ _ _ _ Hmax _ _ _ Hw)]. unfold is_valid_connection. destruct (get_connection cfg i) as [j|] eqn:Ej; [|done].
    apply get_connection_Some in Ej as ->. by destruct (csocket (conn_at st i)). }
  assert (foreach_connection cfg st = filter (fun i => active (conn_at st i) = true) (seqZ (min_fd st) (max_fd st - min_fd st + 1))) as Hfe.
  { unfold foreach_connection. rewrite visit_filter, Z2Nat.id by lia. apply list_filter_iff. done. }
  assert (forall fd k, 0 < k -> (if max_fd st <=? fd then Some (Some []) else Some (Some (client_loop cfg (Z.to_nat (max_fd st - fd)) st (fd + 1) k))) =
    Some (Some (take (Z.to_nat k) (sessions_from cfg st (fd + 1))))) as Hlist.
  { intros fd k Hk. unfold sessions_from. destruct (Z.leb_spec (max_fd st) fd).
    - rewrite seqZ_nil by lia. rewrite filter_nil. by destruct (Z.to_nat k).
    - rewrite client_loop_take by done. rewrite Z2Nat.id by lia. repeat f_equal. lia. }
  exists st. split_and!; [done|done| | |].
  - intros i Hi. rewrite Hfe. apply list_elem_of_filter. split; [done|]. apply elem_of_seqZ. specialize (Hrange i Hi). lia.
  - intros k Hk. unfold get_client_list. cbn [Z.eqb mbind option_bind]. by apply Hlist.
  - intros k i Hk Hl. unfold listed, get_connection_for_iterator in Hl. destruct (get_connection cfg i) as [j|] eqn:Ej; [|done]. apply get_connection_Some in Ej as ->.
    destruct (active (conn_at st i)) eqn:Ha; [|done]. cbn [andb] in Hl. destruct (has (conn_at st i) f_closed); [done|]. cbn [negb] in Hl.
    destruct (has (conn_at st i) f_ssl && negb (has (conn_at st i) f_ssl_ready)) eqn:Essl; [done|]. destruct (w_conn _ _ _ _ _ _ _ Hw i Ha) as (a & s & Hi).
    unfold get_client_list, get_connection_verify. pose proof (co_id _ _ _ _ _ _ _ _ Hi). destruct (Z.eqb_spec (session_id (conn_at st i)) 0); [lia|].
    rewrite (verify_open _ _ _ _ _ Hmax _ st i Hw Ha). cbn [mbind option_bind]. rewrite Essl. cbn [mbind option_bind]. rewrite (co_fd _ _ _ _ _ _ _ _ Hi). by apply Hlist.
Qed.

(** A server that answers what it receives, sends a last message to session 1 when
    another one is closed, and closes that one as well; it is given two connections, of
    which the first one takes its output in pieces and the second one hangs up. *)
Definition demo_server : Config :=
  mkConfig 64 1 20 10 5 false 3 (Some (fun _ _ => [])) (fun _ id d => [CSend id [1; 2; 3; 4; 5] [Sent 2]])
    (Some (fun _ id => if id =? 101 then [] else [CSend 101 [7] []; CClose 101 false])) true true.
Definition demo_ops : list ServerBase.op :=
  [OAccept 5 false true true; ORead 0 HsWait (RData [9]); OTake 102 4 0; OAccept 6 false true true; ORead 1 HsWait (RData [9]); OCall (CPause 101); OCall (CSend 77 [1] []);
   OWrite 0 [Sent 1]; OHup 1; OWrite 0 [Sent 9; Sent 9]; OAccept 6 false true true; OGive 102].

Lemma demo_server_ok : server_ok demo_server false 10.
Proof.
  split; try done.
  - intros cb [= <-] tr id Hid. constructor.
  - intros tr id d Hid. constructor; [|constructor]. cbn. split_and!; [done|done|done|]. by repeat constructor.
  - intros cb [= <-] tr id Hid. destruct (id =? 101); repeat constructor; done.
Qed.

Lemma demo_server_ops_ok : Forall (op_ok demo_server false false 10 1000) demo_ops.
Proof. repeat constructor; done. Qed.


Lemma demo_ops_alone : Forall (op_ok demo_server false true 10 1000) demo_ops.
Proof. repeat constructor; done. Qed.

Lemma foreach_connection_complete_witness : exists st, ServerBase.run demo_server true (start demo_server 100) demo_ops = Some st /\
  foreach_connection demo_server st = filter (fun i => active (conn_at st i) = true) (seqZ (min_fd st) (max_fd st - min_fd st + 1)).
Proof.
  destruct (foreach_connection_complete demo_server true false 10 1000 100 demo_ops demo_server_ok) as (st & E & Hf & _); [done|vm_compute; done|apply demo_ops_alone|].
  exact (ex_intro _ st (conj E Hf)).
Defined.

(** What the example does: the sessions 101, 103 and 104 are given out; the callback of the
    close of 103 sends to 101 and closes it, which waits for its output. *)
Lemma demo_outcome : (st ← ServerBase.run demo_server true (start demo_server 100) demo_ops;
    Some (trace st, (fun s => (freed s, wire (io s))) <$> sockets st, foreach_connection demo_server st)) =
  Some ([EvAccept 101 0; EvConnect 101; EvReceive 101 [9]; EvSend 101 [1; 2; 3; 4; 5] true; EvAccept 103 1; EvConnect 103; EvReceive 103 [9];
         EvSend 103 [1; 2; 3; 4; 5] true; EvForward 0 77; EvPeerClosed 103; EvClose 103 1; EvSend 101 [7] true; EvClose 101 (-1); EvAccept 104 2; EvConnect 104],
        [(true, [1; 2; 3; 4; 5; 7]); (true, [1; 2]); (false, [])], [6]).
Proof. vm_compute. reflexivity. Qed.

(** ** Where the code does not do what it means to *)

(** A negative session id is an index before the session list. *)
Lemma negative_session st id : - SW_SESSION_LIST_SIZE < id < 0 -> get_session st id = None.
Proof.
  intros Hid. unfold get_session, session_index.
  assert (Z.rem id SW_SESSION_LIST_SIZE = id) as ->; [|by destruct (Z.leb_spec 0 id); [lia|]].
  replace id with (- - id) at 1 by lia. rewrite Z.rem_opp_l by done. rewrite Z.rem_small by lia. lia.
Qed.

Definition plain_server (worker : Z) (delay : bool) (connect : list event -> Z -> list call) : Config :=
  mkConfig 64 worker 20 10 5 delay 3 (Some connect) (fun _ _ _ => []) None false false.

(** With TLS and delayed receiving, a connection that the callback of its begin closes is
    closed a second time. *)
Lemma closed_twice : let cfg := plain_server 1 true (fun _ id => [CClose id false]) in
  ServerBase.run cfg true (start cfg 100) [OAccept 5 true true true; ORead 0 HsReady RAgain] = None.
Proof. vm_compute. reflexivity. Qed.

(** Receiving that was paused goes on when the output is sent. *)
Lemma pause_undone : let cfg := plain_server 1 false (fun _ _ => []) in
  (st ← ServerBase.run cfg true (start cfg 100) [OAccept 5 false true true; OCall (CSend 101 [1; 2] []); OCall (CPause 101)]; Some ((ev_read ∘ io) <$> sockets st)) = Some [false] /\
  (st ← ServerBase.run cfg true (start cfg 100) [OAccept 5 false true true; OCall (CSend 101 [1; 2] []); OCall (CPause 101); OWrite 0 [Sent 2]]; Some ((ev_read ∘ io) <$> sockets st)) = Some [true].
Proof. vm_compute. done. Qed.

(** The list of the clients leaves out the connection with the lowest descriptor. *)
Lemma lowest_not_listed : let cfg := plain_server 1 false (fun _ _ => []) in
  (st ← ServerBase.run cfg true (start cfg 100) [OAccept 2 false true true; OAccept 5 false true true]; Some (foreach_connection cfg st, get_client_list cfg st 0 10)) =
  Some ([2; 5], Some (Some [102])).
Proof. vm_compute. reflexivity. Qed.

(** When another worker closes its highest descriptor, which lowers the shared limit,
    connections of this one are not visited any more. *)
Lemma other_worker_hides : let cfg := plain_server 1 false (fun _ _ => []) in
  (st ← ServerBase.run cfg true (start cfg 100) [OAccept 5 false true true; OFds 3 4]; Some (active (conn_at st 5), foreach_connection cfg st)) = Some (true, []).
Proof. vm_compute. reflexivity. Qed.

(** The sessions of worker 256 are taken for those of worker 0. *)
Lemma worker_256 : let cfg := plain_server 256 false (fun _ _ => []) in
  (st ← ServerBase.run cfg true (start cfg 100) [OAccept 5 false true true; OCall (CSend 101 [1] [Sent 1])]; Some (trace st)) =
  Some [EvAccept 101 0; EvConnect 101; EvForward 0 101].
Proof. vm_compute. reflexivity. Qed.

(** The counter of session ids is written after the lock was released: when the write of
    another worker puts it back, a session id is given a second time. *)
Lemma session_id_again : let cfg := plain_server 1 false (fun _ _ => []) in
  (st ← ServerBase.run cfg true (start cfg 100) [OTake 101 4 0; OAccept 5 false true true; OCall (CClose 102 true)];
   st ← ServerBase.run cfg true (with_sessions st (session_list st) 101) [OAccept 5 false true true]; Some (trace st)) =
  Some [EvAccept 102 0; EvConnect 102; EvAccept 102 1; EvConnect 102].
Proof. vm_compute. reflexivity. Qed.
