(* ===== verification/Dispatch.v ===== *)
(** * Between the reactor threads and the worker processes

    A server in process mode: [Server::schedule_worker] ([src/server/master.cc]) chooses
    the worker for what a connection or a datagram brings, [ProcessFactory::dispatch]
    ([src/server/process.cc]) puts it into the pipe of that worker, and
    [ProcessFactory::finish] puts what a worker sends into the pipe that the reactor of
    the connection reads.  A pipe is the list of the messages that were written to it; the
    messages themselves are cut and put together by [MessageBus.v]. *)

From S2P Require Import Prelude Hash Str Protocol OutBuffer Connections.

(** ** Definitions *)

Inductive DispatchMode := DISPATCH_ROUND | DISPATCH_FDMOD | DISPATCH_IDLE_WORKER | DISPATCH_IPMOD | DISPATCH_UIDMOD
  | DISPATCH_USERFUNC | DISPATCH_CO_CONN_LB | DISPATCH_CO_REQ_LB | DISPATCH_CONCURRENT_LB.
#[export] Instance DispatchMode_eq_dec : EqDecision DispatchMode.
Proof. solve_decision. Defined.
Definition DISPATCH_RESULT_USERFUNC_FALLBACK : Z := -3.

(** The events of a server; [ev_other] stands for those that neither function knows *)
Inductive ServerEvent := ev_recv_data | ev_recv_dgram | ev_send_data | ev_send_file | ev_close | ev_connect
  | ev_pause_recv | ev_resume_recv | ev_buffer_full | ev_buffer_empty | ev_other (n : Z).
#[export] Instance ServerEvent_eq_dec : EqDecision ServerEvent.
Proof. solve_decision. Defined.

(** [network::Address]: whether the type is an IPv4 one, and the bytes of the union *)
Record Address := mkAddr { inet4 : bool; abytes : list Z }.

(** The fields of a connection that only the dispatch uses *)
Record Bound := mkBound { bworker : Z; buid : Z; binfo : Address }.
Definition no_bound : Bound := mkBound 0 0 (mkAddr false (repeat 0 28)).

Record Worker := mkWorker { coroutine_num : Z; concurrency : Z; idle : bool; dispatch_count : Z }.

Record Message := mkMessage { mtype : ServerEvent; mfd : Z; mserver : Z; mreactor : Z; mdata : list Z }.

(** The server with its pipes, and what was given to them ([inbox], [outbox]) *)
Record PServer := mkPServer {
  conns : State;
  bounds : gmap Z Bound;
  workers : list Worker;
  worker_round_id : Z;
  scheduler_warning : bool;
  to_worker : list (list Message);
  to_reactor : list (list Message);
  inbox : list Message;
  outbox : list Message;
}.
Definition with_bounds s b := mkPServer (conns s) b (workers s) (worker_round_id s) (scheduler_warning s) (to_worker s) (to_reactor s) (inbox s) (outbox s).
Definition with_conn_list s c := mkPServer c (bounds s) (workers s) (worker_round_id s) (scheduler_warning s) (to_worker s) (to_reactor s) (inbox s) (outbox s).
Definition with_workers s w := mkPServer (conns s) (bounds s) w (worker_round_id s) (scheduler_warning s) (to_worker s) (to_reactor s) (inbox s) (outbox s).
Definition with_round s r := mkPServer (conns s) (bounds s) (workers s) r (scheduler_warning s) (to_worker s) (to_reactor s) (inbox s) (outbox s).
Definition with_warning s := mkPServer (conns s) (bounds s) (workers s) (worker_round_id s) true (to_worker s) (to_reactor s) (inbox s) (outbox s).
Definition with_inbox s p l := mkPServer (conns s) (bounds s) (workers s) (worker_round_id s) (scheduler_warning s) p (to_reactor s) l (outbox s).
Definition with_outbox s p l := mkPServer (conns s) (bounds s) (workers s) (worker_round_id s) (scheduler_warning s) (to_worker s) p (inbox s) l.
Definition bound_at (s : PServer) (fd : Z) : Bound := default no_bound (bounds s !! fd).

(** [Server::get_lowest_load_worker_id] and [get_lowest_concurrent_worker_id] *)
Fixpoint lowest_loop (ws : list Z) (i best min : Z) : Z :=
  match ws with [] => best | w :: ws => if w <? min then lowest_loop ws (i + 1) i w else lowest_loop ws (i + 1) best min end.
Definition lowest (ws : list Z) : option Z := match ws with [] => None | w :: ws => Some (lowest_loop ws 1 0 w) end.
Definition get_lowest_load_worker_id (s : PServer) : option Z := lowest (coroutine_num <$> workers s).
Definition get_lowest_concurrent_worker_id (s : PServer) : option Z := lowest (concurrency <$> workers s).

(** [sw_atomic_fetch_add] on the round *)
Definition next_round (s : PServer) : PServer * Z := (with_round s (u32 (worker_round_id s + 1)), worker_round_id s).

(** [Server::get_idle_worker_id] *)
Fixpoint idle_loop (n : nat) (s : PServer) (key : Z) : option (PServer * Z) :=
  match n with
  | O => Some (with_warning s, key)
  | S n =>
      let '(s, r) := next_round s in
      if zlen (workers s) =? 0 then None else
      let key := r mod zlen (workers s) in
      w ← workers s !! Z.to_nat key;
      if idle w then Some (s, key) else idle_loop n s key
  end.
Definition get_idle_worker_id (s : PServer) : option (PServer * Z) := idle_loop (S (length (workers s))) s 0.

(** The key of an address: [ntohl(sin_addr)], or the hash of the whole [sockaddr_in6] *)
Definition addr_key (a : Address) : option Z :=
  if inet4 a then
    a0 ← abytes a !! 4%nat; a1 ← abytes a !! 5%nat; a2 ← abytes a !! 6%nat; a3 ← abytes a !! 7%nat;
    Some (a0 * 2 ^ 24 + a1 * 2 ^ 16 + a2 * 2 ^ 8 + a3)
  else d ← zsub (abytes a) 0 28; h ← swoole_hash_php d; Some (u32 h).

Section dispatch.
Context (cfg : Config) (dispatch_mode : DispatchMode) (dispatch_func : option (PServer -> Z -> Z)).
Context (reactor_num : Z).

Definition is_hash_dispatch_mode : bool :=
  match dispatch_mode with DISPATCH_FDMOD | DISPATCH_IPMOD | DISPATCH_CO_CONN_LB => true | _ => false end.

Definition modulo (s : PServer) (key : Z) : option Z := if zlen (workers s) =? 0 then None else Some (u32 key mod zlen (workers s)).

(** [Server::schedule_worker]; [packet] is the address in the datagram *)
Definition schedule_mode (s : PServer) (fd : Z) (packet : option Address) : option (PServer * Z) :=
  match dispatch_mode with
  | DISPATCH_ROUND => let '(s, key) := next_round s in k ← modulo s key; Some (s, k)
  | DISPATCH_FDMOD => k ← modulo s fd; Some (s, k)
  | DISPATCH_IPMOD =>
      a ← match get_connection cfg fd with None => packet | Some i => Some (binfo (bound_at s i)) end;
      key ← addr_key a; k ← modulo s key; Some (s, k)
  | DISPATCH_UIDMOD =>
      let key := match get_connection cfg fd with None => fd | Some i => if buid (bound_at s i) =? 0 then fd else buid (bound_at s i) end in
      k ← modulo s key; Some (s, k)
  | DISPATCH_CO_CONN_LB =>
      match get_connection cfg fd with
      | None => k ← modulo s fd; Some (s, k)
      | Some i =>
          let b := bound_at s i in
          if bworker b <? 0 then
            k ← get_lowest_load_worker_id s;
            Some (with_bounds s (<[i := mkBound k (buid b) (binfo b)]> (bounds s)), k)
          else Some (s, bworker b)
      end
  | DISPATCH_CO_REQ_LB => k ← get_lowest_load_worker_id s; Some (s, k)
  | DISPATCH_CONCURRENT_LB => k ← get_lowest_concurrent_worker_id s; Some (s, k)
  | DISPATCH_IDLE_WORKER | DISPATCH_USERFUNC => get_idle_worker_id s
  end.
Definition schedule_worker (s : PServer) (fd : Z) (packet : option Address) : option (PServer * Z) :=
  match dispatch_func with
  | Some f => if f s fd =? DISPATCH_RESULT_USERFUNC_FALLBACK then schedule_mode s fd packet else Some (s, f s fd)
  | None => schedule_mode s fd packet
  end.

Definition is_stream_event (t : ServerEvent) : bool := match t with ev_recv_dgram | ev_other _ => false | _ => true end.

(** What a reactor thread has for a worker *)
Record Task := mkTask_ { ttype : ServerEvent; tfd : Z; tserver : Z; treactor : Z; tdata : list Z; tpacket : option Address }.

(** A message in a pipe: [None] is a worker that does not exist *)
Definition push (pipes : list (list Message)) (k : Z) (m : Message) : option (list (list Message)) :=
  p ← zget pipes k; zset pipes k (p ++ [m]).
Definition count_dispatch (s : PServer) (k : Z) : option PServer :=
  w ← zget (workers s) k; ws ← zset (workers s) k (mkWorker (coroutine_num w) (concurrency w) (idle w) (dispatch_count w + 1)); Some (with_workers s ws).

(** [ProcessFactory::dispatch]; [written] is the result of the write to the pipe *)
Definition dispatch (s : PServer) (t : Task) (written : bool) : option (PServer * bool) :=
  let fd := s32 (tfd t) in
  '(s, k) ← schedule_worker s fd (tpacket t);
  if k <? 0 then Some (s, false) else
  let target :=
    if is_stream_event (ttype t) then
      match get_connection cfg fd with
      | None => None
      | Some i =>
          let c := conn_at (conns s) i in
          if negb (active c) then None else
          if has c f_closed && negb ((if decide (ttype t = ev_close) then true else false) && has c f_close_force) then None else
          Some (mkMessage (ttype t) (session_id c) (server_fd c) (treactor t) (tdata t))
      end
    else Some (mkMessage (ttype t) (tfd t) (tserver t) (treactor t) (tdata t)) in
  match target with
  | None => Some (s, false)
  | Some m =>
      let k := u16 k in
      s ← (if decide (ttype t = ev_recv_data) then count_dispatch s k else Some s);
      if written then pipes ← push (to_worker s) k m; Some (with_inbox s pipes (inbox s ++ [m]), true)
      else _ ← zget (to_worker s) k; Some (s, false)
  end.

(** [Server::get_reactor_pipe_socket]: the worker whose pipe is used; [reactor_pipe_num]
    is set by [create_process_factory] *)
Definition reactor_pipe_num (s : PServer) : Z := u16 (zlen (workers s) / reactor_num).
Definition get_reactor_pipe_socket (s : PServer) (id reactor : Z) : option Z :=
  if reactor_pipe_num s =? 0 then None else Some (u16 (reactor + s32 (Z.rem id (reactor_pipe_num s)) * reactor_num)).

(** What a worker sends: [ProcessFactory::finish] *)
Definition finish (s : PServer) (send_yield : bool) (limit : Z) (me : Z) (t : ServerEvent) (id : Z) (d : list Z) (written : bool) : option (PServer * bool) :=
  if limit <? zlen d then Some (s, false) else
  i ← (if decide (t = ev_close) then get_connection_verify_no_ssl cfg (conns s) id else get_connection_verify cfg (conns s) id);
  match i with
  | None => Some (s, false)
  | Some i =>
      let c := conn_at (conns s) i in
      if (has c f_closed || has c f_peer_closed) && (if decide (t = ev_close) then false else true) then Some (s, false) else
      if has c f_overflow && (if decide (t = ev_send_data \/ t = ev_send_file) then true else false) then
        if send_yield && is_hash_dispatch_mode then '(s, _) ← schedule_worker s (cfd c) None; Some (s, false) else Some (s, false)
      else
        let m := mkMessage t id me (reactor_id c) d in
        k ← get_reactor_pipe_socket s id (reactor_id c);
        if written then pipes ← push (to_reactor s) k m; Some (with_outbox s pipes (outbox s ++ [m]), true)
        else _ ← zget (to_reactor s) k; Some (s, false)
  end.
End dispatch.

(** ** Lemmas *)

(** The messages of a session *)
Definition about (id : Z) (m : Message) : bool := is_stream_event (mtype m) && (mfd m =? id).
Definition of_session (id : Z) (l : list Message) : list Message := filter (about id) l.

(** All messages of session [id] are in pipe [w], in their order. *)
Definition routed (pipes : list (list Message)) (log : list Message) (id w : Z) : Prop :=
  0 <= w < zlen pipes /\ forall k p, pipes !! k = Some p -> of_session id p = if decide (Z.of_nat k = w) then of_session id log else [].

Lemma push_ok pipes k m : 0 <= k < zlen pipes -> exists p, pipes !! Z.to_nat k = Some p /\ push pipes k m = Some (<[Z.to_nat k := p ++ [m]]> pipes).
Proof.
  intros Hk. destruct (lookup_lt_is_Some_2 pipes (Z.to_nat k)) as [p Hp]; [lia|]. exists p. split; [done|].
  unfold push. assert (zget pipes k = Some p) as -> by (unfold zget; destruct (Z.leb_spec 0 k); [done|lia]). cbn [mbind option_bind]. by rewrite zset_in_bounds by lia.
Qed.

Lemma of_session_snoc id l m : of_session id (l ++ [m]) = of_session id l ++ (if about id m then [m] else []).
Proof.
  unfold of_session. rewrite filter_app. f_equal. destruct (about id m) eqn:E.
  - rewrite filter_cons_True by (by rewrite E). done.
  - rewrite filter_cons_False by (rewrite E; by intros []). done.
Qed.

Lemma routed_push pipes log id w k m p : routed pipes log id w -> 0 <= k < zlen pipes -> pipes !! Z.to_nat k = Some p -> (about id m = true -> k = w) ->
  routed (<[Z.to_nat k := p ++ [m]]> pipes) (log ++ [m]) id w.
Proof.
  intros [Hw Hr] Hk Hp Hm. split; [by rewrite length_insert|]. intros j q. rewrite list_lookup_insert_Some, !of_session_snoc.
  intros [(<- & <- & _)|[Hj Hq]].
  - rewrite of_session_snoc, (Hr _ _ Hp). destruct (about id m); [rewrite !decide_True by (specialize (Hm eq_refl); lia); done|]. rewrite !app_nil_r. done.
  - rewrite (Hr _ _ Hq). case_decide; [|done]. destruct (about id m); [|by rewrite app_nil_r]. specialize (Hm eq_refl). lia.
Qed.

(** A session without messages may have any worker. *)
Lemma routed_fresh pipes log id w w' : routed pipes log id w -> of_session id log = [] -> 0 <= w' < zlen pipes -> routed pipes log id w'.
Proof. intros [_ Hr] E Hw'. split; [done|]. intros k p Hp. rewrite (Hr _ _ Hp), E. by repeat case_decide. Qed.

Lemma routed_empty n id : 0 < n -> routed (repeat [] (Z.to_nat n)) [] id 0.
Proof.
  intros Hn. split; [rewrite repeat_length; lia|]. intros k p Hp%list_elem_of_lookup_2. apply list_elem_of_In, repeat_spec in Hp as ->. by case_decide.
Qed.

(** The worker with the lowest number: the first one that has it. *)
Lemma lowest_loop_ok ws pre best min : pre !! Z.to_nat best = Some min -> 0 <= best < zlen pre -> (forall j x, pre !! j = Some x -> min <= x /\ (x = min -> Z.to_nat best <= j)%nat) ->
  let k := lowest_loop ws (zlen pre) best min in 0 <= k < zlen (pre ++ ws) /\ exists x, (pre ++ ws) !! Z.to_nat k = Some x /\ forall j y, (pre ++ ws) !! j = Some y -> x <= y /\ (y = x -> Z.to_nat k <= j)%nat.
Proof.
  revert pre best min. induction ws as [|w ws IH]; intros pre best min Hb Hr Hm k; subst k; cbn [lowest_loop].
  - rewrite app_nil_r. split; [done|]. by exists min.
  - rewrite (cons_middle w pre ws), app_assoc. replace (zlen pre + 1) with (zlen (pre ++ [w])) by (rewrite length_app; cbn; lia).
    destruct (Z.ltb_spec w min) as [Hlt|Hge]; apply IH.
    + rewrite Nat2Z.id. by rewrite list_lookup_middle.
    + rewrite length_app. cbn. lia.
    + intros j x. rewrite Nat2Z.id. rewrite lookup_app_Some, list_lookup_singleton_Some. intros [Hj|(Hl & Hj & <-)]; [destruct (Hm _ _ Hj); lia|lia].
    + by apply lookup_app_l_Some.
    + rewrite length_app. cbn. lia.
    + intros j x. rewrite lookup_app_Some, list_lookup_singleton_Some. intros [Hj|(Hl & Hj & <-)]; [by apply Hm|lia].
Qed.
Lemma lowest_ok ws : ws <> [] -> exists k x, lowest ws = Some k /\ 0 <= k < zlen ws /\ ws !! Z.to_nat k = Some x /\ forall j y, ws !! j = Some y -> x <= y /\ (y = x -> Z.to_nat k <= j)%nat.
Proof.
  destruct ws as [|w ws]; [done|]. intros _. cbn [lowest]. destruct (lowest_loop_ok ws [w] 0 w) as (Hr & x & Hx & Hm); [done|done|intros [|j] y; cbn; [intros [= <-]; lia|done]|].
  by exists (lowest_loop ws 1 0 w), x.
Qed.

(** ** What happens to a server *)

Section process.
Context (cfg : Config) (dispatch_mode : DispatchMode) (reactor_num n : Z).
Hypothesis Hn : 0 < n < 2 ^ 16.
Hypothesis Hreactors : 0 < reactor_num <= n.
Hypothesis Hmax : 0 < max_connection cfg < 2 ^ 31.

Definition addr_ok (a : Address) : Prop := 28 <= zlen (abytes a).
Definition set_connection (s : PServer) (fd : Z) (c : Connection) (b : Bound) : PServer :=
  with_bounds (with_conn_list s (with_conns (conns s) (<[fd := c]> (connection_list (conns s))))) (<[fd := b]> (bounds s)).

(** A connection stays, or a new one comes with a session that was not used before and no
    worker, at the reactor of its descriptor. *)
Definition kept (s : PServer) (fd : Z) (c : Connection) (b : Bound) : Prop :=
  let c0 := conn_at (conns s) fd in
  active c0 = true /\ session_id c = session_id c0 /\ cfd c = cfd c0 /\ reactor_id c = reactor_id c0 /\ bworker b = bworker (bound_at s fd) /\ binfo b = binfo (bound_at s fd).
Definition opened (s : PServer) (fd : Z) (c : Connection) (b : Bound) : Prop :=
  cfd c = fd /\ 0 <= session_id c /\ reactor_id c = fd mod reactor_num /\ bworker b = -1 /\
  (forall fd', fd' <> fd -> active (conn_at (conns s) fd') = true -> session_id (conn_at (conns s) fd') <> session_id c) /\
  of_session (session_id c) (inbox s) = [] /\ of_session (session_id c) (outbox s) = [].

(** Messages in both directions, from anybody and in any order, while connections come,
    go and change, the list of sessions changes, and the workers report their load. *)
Inductive pstep : PServer -> PServer -> Prop :=
  | ps_dispatch s t written s' r : dispatch cfg dispatch_mode None s t written = Some (s', r) -> pstep s s'
  | ps_finish s yld limit me t id d written s' r : finish cfg dispatch_mode None reactor_num s yld limit me t id d written = Some (s', r) -> pstep s s'
  | ps_worker s k w : pstep s (with_workers s (<[k := w]> (workers s)))
  | ps_sessions s m r : pstep s (with_conn_list s (with_sessions (conns s) m r))
  | ps_connection s fd c b : 0 <= fd < max_connection cfg -> addr_ok (binfo b) -> bworker b < n ->
      (active c = true -> kept s fd c b \/ opened s fd c b) -> pstep s (set_connection s fd c b).

(** A server that starts *)
Record starts (s : PServer) : Prop := {
  st_workers : zlen (workers s) = n;
  st_inactive fd : active (conn_at (conns s) fd) = false;
  st_bounds : bounds s = ∅;
  st_to_worker : to_worker s = repeat [] (Z.to_nat n);
  st_to_reactor : to_reactor s = repeat [] (Z.to_nat n);
  st_inbox : inbox s = [];
  st_outbox : outbox s = [];
}.

(** The worker of the connection at [fd] is [w], or it has no worker and no messages. *)
Definition target (s : PServer) (fd w : Z) : Prop :=
  match dispatch_mode with
  | DISPATCH_FDMOD => u32 fd mod n = w
  | DISPATCH_IPMOD => exists key, addr_key (binfo (bound_at s fd)) = Some key /\ u32 key mod n = w
  | DISPATCH_CO_CONN_LB => bworker (bound_at s fd) = w
  | _ => False
  end.
Definition goes (s : PServer) (fd w : Z) : Prop :=
  target s fd w \/ dispatch_mode = DISPATCH_CO_CONN_LB /\ bworker (bound_at s fd) < 0 /\ of_session (session_id (conn_at (conns s) fd)) (inbox s) = [].
Definition reactor_pipe (id fd : Z) : Z := fd mod reactor_num + id mod (n / reactor_num) * reactor_num.

Record pinv (s : PServer) : Prop := {
  pi_workers : zlen (workers s) = n;
  pi_to_worker : zlen (to_worker s) = n;
  pi_to_reactor : zlen (to_reactor s) = n;
  pi_addr fd : addr_ok (binfo (bound_at s fd));
  pi_bound fd : bworker (bound_at s fd) < n;
  pi_conn fd : active (conn_at (conns s) fd) = true -> 0 <= fd < max_connection cfg /\ cfd (conn_at (conns s) fd) = fd /\ 0 <= session_id (conn_at (conns s) fd) /\ reactor_id (conn_at (conns s) fd) = fd mod reactor_num;
  pi_unique fd fd' : active (conn_at (conns s) fd) = true -> active (conn_at (conns s) fd') = true -> session_id (conn_at (conns s) fd) = session_id (conn_at (conns s) fd') -> fd = fd';
  pi_in id : exists w, routed (to_worker s) (inbox s) id w /\ forall fd, active (conn_at (conns s) fd) = true -> session_id (conn_at (conns s) fd) = id -> goes s fd w;
  pi_out id : exists w, routed (to_reactor s) (outbox s) id w /\ forall fd, active (conn_at (conns s) fd) = true -> session_id (conn_at (conns s) fd) = id -> reactor_pipe id fd = w;
}.

Lemma addr_key_ok a : addr_ok a -> exists key, addr_key a = Some key.
Proof.
  unfold addr_ok, addr_key. intros Ha. destruct (inet4 a).
  - destruct (lookup_lt_is_Some_2 (abytes a) 4) as [x0 ->]; [lia|]. destruct (lookup_lt_is_Some_2 (abytes a) 5) as [x1 ->]; [lia|].
    destruct (lookup_lt_is_Some_2 (abytes a) 6) as [x2 ->]; [lia|]. destruct (lookup_lt_is_Some_2 (abytes a) 7) as [x3 ->]; [lia|]. by eexists.
  - destruct (zsub_in_bounds (abytes a) 0 28) as [d ->]; [lia|lia|lia|]. cbn [mbind option_bind]. rewrite hash_php_eq. by eexists.
Qed.

Lemma modulo_ok s key : pinv s -> modulo s key = Some (u32 key mod n) /\ 0 <= u32 key mod n < n.
Proof. intros Hi. unfold modulo. rewrite (pi_workers _ Hi). destruct (Z.eqb_spec n 0); [lia|]. split; [done|]. apply Z.mod_pos_bound. lia. Qed.

Lemma get_connection_at fd : 0 <= fd < max_connection cfg -> get_connection cfg fd = Some fd.
Proof. intros Hf. unfold get_connection. rewrite uN_small by (unfold fits; lia). destruct (Z.leb_spec (max_connection cfg) fd); [lia|done]. Qed.

Lemma lowest_load_ok s : pinv s -> exists k, get_lowest_load_worker_id s = Some k /\ 0 <= k < n.
Proof.
  intros Hi. pose proof (pi_workers _ Hi) as Hw. destruct (lowest_ok (coroutine_num <$> workers s)) as (k & x & E & Hk & _); [by destruct (workers s); [cbn in Hw; lia|]|].
  exists k. split; [done|]. rewrite length_fmap in Hk. lia.
Qed.

Lemma starts_inv s : starts s -> is_hash_dispatch_mode dispatch_mode = true -> pinv s.
Proof.
  intros [Hw Hc Hb Htw Htr Hin Hout] Hm. split; try done.
  - rewrite Htw, repeat_length. lia.
  - rewrite Htr, repeat_length. lia.
  - intros fd. unfold bound_at. by rewrite Hb.
  - intros fd. unfold bound_at. rewrite Hb, lookup_empty. cbn. lia.
  - intros fd. by rewrite Hc.
  - intros fd fd'. by rewrite Hc.
  - intros id. exists 0. split; [|intros fd; by rewrite Hc]. rewrite Htw, Hin. apply routed_empty; lia.
  - intros id. exists 0. split; [|intros fd; by rewrite Hc]. rewrite Htr, Hout. apply routed_empty; lia.
Qed.

Lemma bound_at_insert s fd b i : bound_at (with_bounds s (<[fd := b]> (bounds s))) i = if decide (i = fd) then b else bound_at s i.
Proof. unfold bound_at. cbn. case_decide as E; [subst; by rewrite lookup_insert_eq|by rewrite lookup_insert_ne by congruence]. Qed.

(** A connection gets its worker. *)
Lemma assign_inv s fd k : pinv s -> dispatch_mode = DISPATCH_CO_CONN_LB -> bworker (bound_at s fd) < 0 -> 0 <= k < n ->
  pinv (with_bounds s (<[fd := mkBound k (buid (bound_at s fd)) (binfo (bound_at s fd))]> (bounds s))).
Proof.
  intros Hi Hm Hneg Hk. set (s' := with_bounds s _). assert (forall i, bound_at s' i = if decide (i = fd) then mkBound k (buid (bound_at s fd)) (binfo (bound_at s fd)) else bound_at s i) as Hb by (intros; apply bound_at_insert).
  pose proof (pi_to_worker _ Hi) as Hl. split; try apply Hi.
  - intros i. rewrite Hb. case_decide; apply Hi.
  - intros i. rewrite Hb. case_decide; [cbn; lia|apply Hi].
  - intros id. destruct (pi_in _ Hi id) as (w & Hr & Hg). unfold goes, target in *. rewrite Hm in *.
    destruct (decide (active (conn_at (conns s) fd) = true /\ session_id (conn_at (conns s) fd) = id)) as [[Ha Hs]|Hno].
    + exists k. split; [|intros i Hai Hsi; left; rewrite Hb, decide_True; [done|apply (pi_unique _ Hi); cbn in *; congruence]].
      destruct (Hg fd Ha Hs) as [E|(_ & _ & E)]; [destruct Hr; lia|]. rewrite Hs in E. eapply routed_fresh; [done|done|cbn; lia].
    + exists w. split; [done|]. intros i Hai Hsi. rewrite Hb. case_decide as E; [subst i; by destruct Hno|]. by apply Hg.
Qed.

Lemma target_goes s fd k w : 0 <= k -> target s fd k -> goes s fd w -> w = k.
Proof.
  unfold goes, target. intros Hk Ht [Hg|(Hm & Hb & _)]; [|rewrite Hm in Ht; lia]. destruct dispatch_mode; try done; [congruence| |congruence].
  destruct Ht as (? & E & <-), Hg as (? & E' & <-). rewrite E in E'. by injection E' as ->.
Qed.

Lemma schedule_inv s fd pk s' k : is_hash_dispatch_mode dispatch_mode = true -> pinv s -> schedule_worker cfg dispatch_mode None s fd pk = Some (s', k) ->
  pinv s' /\ 0 <= k < n /\ conns s' = conns s /\ (forall i, get_connection cfg fd = Some i -> target s' i k).
Proof.
  intros Hh Hi. cbn [schedule_worker]. unfold schedule_mode. destruct (modulo_ok s fd Hi) as [Em Hm].
  assert (forall i, get_connection cfg fd = Some i -> i = fd) as Hfd by (intros i; unfold get_connection; case_match; congruence).
  unfold is_hash_dispatch_mode in Hh. unfold target. destruct dispatch_mode eqn:Emode; try done.
  - rewrite Em. cbn [mbind option_bind]. intros [= <- <-]. split_and!; try done; try lia. by intros i ->%Hfd.
  - destruct (get_connection cfg fd) as [i|] eqn:Eg.
    + destruct (addr_key_ok _ (pi_addr _ Hi i)) as [key Ek]. cbn [mbind option_bind]. rewrite Ek. cbn [mbind option_bind]. destruct (modulo_ok s key Hi) as [-> ?]. cbn [mbind option_bind].
      intros [= <- <-]. split_and!; try done; try lia. intros j [= <-]. by exists key.
    + destruct pk as [a|]; [|done]. cbn [mbind option_bind]. destruct (addr_key a) as [key|]; [|done]. cbn [mbind option_bind]. destruct (modulo_ok s key Hi) as [-> ?]. cbn [mbind option_bind]. intros [= <- <-]. split_and!; done || lia.
  - destruct (get_connection cfg fd) as [i|] eqn:Eg.
    + destruct (Z.ltb_spec (bworker (bound_at s i)) 0) as [Hneg|Hpos].
      * destruct (lowest_load_ok s Hi) as (k0 & -> & Hk0). cbn [mbind option_bind]. intros [= <- <-]. split; [by apply assign_inv|]. split; [done|]. split; [done|].
        intros j [= <-]. by rewrite bound_at_insert, decide_True by done.
      * intros [= <- <-]. split; [done|]. split; [split; [done|apply Hi]|]. split; [done|]. by intros j [= <-].
    + rewrite Em. cbn [mbind option_bind]. intros [= <- <-]. split_and!; done || lia.
Qed.

Lemma workers_inv s ws : length ws = length (workers s) -> pinv s -> pinv (with_workers s ws).
Proof. intros Hl [Hw]. split; try done. cbn. by rewrite Hl. Qed.

Lemma count_dispatch_ok s k : pinv s -> 0 <= k < n -> exists ws, count_dispatch s k = Some (with_workers s ws) /\ length ws = length (workers s).
Proof.
  intros Hi Hk. unfold count_dispatch. destruct (zget_in_bounds (workers s) k) as [w ->]; [by rewrite (pi_workers _ Hi)|]. cbn [mbind option_bind].
  destruct (zset_in (workers s) k (mkWorker (coroutine_num w) (concurrency w) (idle w) (dispatch_count w + 1))) as (ws & -> & Hl); [by rewrite (pi_workers _ Hi)|]. by exists ws.
Qed.

Lemma inbox_inv s k m p : pinv s -> 0 <= k < n -> to_worker s !! Z.to_nat k = Some p ->
  (is_stream_event (mtype m) = true -> exists i, active (conn_at (conns s) i) = true /\ session_id (conn_at (conns s) i) = mfd m /\ target s i k) ->
  pinv (with_inbox s (<[Z.to_nat k := p ++ [m]]> (to_worker s)) (inbox s ++ [m])).
Proof.
  intros Hi Hk Hp Hm. pose proof (pi_to_worker _ Hi) as Hl. split; try (by destruct Hi); [cbn [to_worker to_reactor with_inbox with_outbox]; by rewrite length_insert|].
  intros id. destruct (pi_in _ Hi id) as (w & Hr & Hg). exists w.
  assert (about id m = true -> exists i, active (conn_at (conns s) i) = true /\ session_id (conn_at (conns s) i) = id /\ target s i k) as Ha.
  { intros [Hs Hid%Z.eqb_eq]%andb_true_iff. rewrite <- Hid. by apply Hm. }
  split.
  - apply routed_push; try done; [by rewrite Hl|]. intros (i & Hai & Hsi & Ht)%Ha. symmetry. eapply target_goes; [|done|by apply Hg]. lia.
  - intros fd Haf Hsf. destruct (Hg fd Haf Hsf) as [Ht|(Hmo & Hb & He)]; [by left|]. right. split; [done|]. split; [done|]. cbn [inbox conns with_inbox] in Hsf |- *. rewrite Hsf in He |- *. rewrite of_session_snoc, He.
    destruct (about id m); [|done]. destruct (Ha eq_refl) as (i & Hai & Hsi & Ht). assert (i = fd) as -> by (apply (pi_unique _ Hi); [done|done|congruence]). unfold target in Ht. rewrite Hmo in Ht. cbn in Hb. lia.
Qed.

Lemma outbox_inv s k m p : pinv s -> 0 <= k < n -> to_reactor s !! Z.to_nat k = Some p ->
  (exists i, active (conn_at (conns s) i) = true /\ session_id (conn_at (conns s) i) = mfd m /\ reactor_pipe (mfd m) i = k) ->
  pinv (with_outbox s (<[Z.to_nat k := p ++ [m]]> (to_reactor s)) (outbox s ++ [m])).
Proof.
  intros Hi Hk Hp (i & Hai & Hsi & Hpipe). pose proof (pi_to_reactor _ Hi) as Hl. split; try (by destruct Hi); [cbn [to_worker to_reactor with_inbox with_outbox]; by rewrite length_insert|].
  intros id. destruct (pi_out _ Hi id) as (w & Hr & Hg). exists w. split; [|done]. apply routed_push; try done; [by rewrite Hl|].
  intros [_ <-%Z.eqb_eq]%andb_true_iff. rewrite <- Hpipe. by apply Hg.
Qed.

Lemma dispatch_inv s t written s' r : is_hash_dispatch_mode dispatch_mode = true -> pinv s -> dispatch cfg dispatch_mode None s t written = Some (s', r) -> pinv s'.
Proof.
  intros Hh Hi. unfold dispatch. destruct (schedule_worker _ _ _ _ _ _) as [[s1 k]|] eqn:Es; [|done]. cbn [mbind option_bind].
  destruct (schedule_inv _ _ _ _ _ Hh Hi Es) as (Hi1 & Hk & _ & Ht). destruct (Z.ltb_spec k 0); [lia|].
  match goal with |- context [match ?x with Some m => _ | None => Some (s1, false) end] => destruct x as [m|] eqn:Em end; [|by intros [= <- <-]].
  assert (is_stream_event (mtype m) = true -> exists i, active (conn_at (conns s1) i) = true /\ session_id (conn_at (conns s1) i) = mfd m /\ target s1 i k) as Hm.
  { destruct (is_stream_event (ttype t)) eqn:Est; [|by injection Em as <-; cbn; rewrite Est].
    destruct (get_connection cfg (s32 (tfd t))) as [i|]; [|done]. destruct (active (conn_at (conns s1) i)) eqn:Ea; [|done]. cbn in Em. destruct (_ && _); [done|]. injection Em as <-.
    intros _. exists i. split; [done|]. split; [done|]. by apply Ht. }
  rewrite uN_small by (unfold fits; lia).
  assert (exists ws, (if decide (ttype t = ev_recv_data) then count_dispatch s1 k else Some s1) = Some (with_workers s1 ws) /\ length ws = length (workers s1)) as (ws & -> & Hws).
  { destruct (decide (ttype t = ev_recv_data)); [by apply count_dispatch_ok|]. exists (workers s1). by destruct s1. }
  cbn [mbind option_bind]. pose proof (workers_inv s1 ws Hws Hi1) as Hi2. destruct (push_ok (to_worker (with_workers s1 ws)) k m) as (p & Hp & Epush); [by rewrite (pi_to_worker _ Hi2)|].
  destruct written.
  - rewrite Epush. cbn [mbind option_bind]. intros [= <- <-]. exact (inbox_inv (with_workers s1 ws) k m p Hi2 Hk Hp Hm).
  - destruct (zget _ _); [|done]. by intros [= <- <-].
Qed.

Lemma reactor_pipe_ok s id fd : pinv s -> 0 <= id -> get_reactor_pipe_socket reactor_num s id (fd mod reactor_num) = Some (reactor_pipe id fd) /\ 0 <= reactor_pipe id fd < n /\
  reactor_pipe id fd mod reactor_num = fd mod reactor_num.
Proof.
  intros Hi Hid. unfold get_reactor_pipe_socket, reactor_pipe_num, reactor_pipe. rewrite (pi_workers _ Hi).
  assert (0 < n / reactor_num) as Hq by (apply Z.div_str_pos; lia). assert (n / reactor_num <= n) as Hq' by (apply Z.div_le_upper_bound; nia).
  rewrite (uN_small 16 (n / reactor_num)) by (unfold fits; lia). destruct (Z.eqb_spec (n / reactor_num) 0); [lia|].
  rewrite Z.rem_mod_nonneg by lia. pose proof (Z.mod_pos_bound id (n / reactor_num) Hq) as Hm. rewrite sN_small by lia. pose proof (Z.mod_pos_bound fd reactor_num ltac:(lia)) as Hf.
  pose proof (Z.mul_div_le n reactor_num ltac:(lia)) as Hle.
  assert (0 <= fd mod reactor_num + id mod (n / reactor_num) * reactor_num < n) as Hr by nia.
  split; [by rewrite uN_small by (unfold fits; lia)|]. split; [done|]. by rewrite Z.mod_add, Z.mod_mod by lia.
Qed.

Lemma verified s id i : get_connection_verify_no_ssl cfg (conns s) id = Some (Some i) \/ get_connection_verify cfg (conns s) id = Some (Some i) ->
  active (conn_at (conns s) i) = true /\ session_id (conn_at (conns s) i) = id.
Proof.
  assert (get_connection_verify_no_ssl cfg (conns s) id = Some (Some i) -> active (conn_at (conns s) i) = true /\ session_id (conn_at (conns s) i) = id) as Hv.
  { unfold get_connection_verify_no_ssl, get_session. destruct (Z.leb_spec 0 (session_index id)) as [Hs|]; [|done]. cbn [mbind option_bind].
    destruct (get_connection cfg _) as [j|]; [|done]. destruct (active (conn_at (conns s) j)) eqn:Ea; [|done]. cbn [negb]. destruct (_ || _) eqn:E; [done|]. intros [= <-].
    apply orb_false_iff in E as [_ E%negb_false_iff%Z.eqb_eq]. done. }
  intros [?|Hc]; [by apply Hv|]. apply Hv. unfold get_connection_verify in Hc. destruct (get_connection_verify_no_ssl cfg (conns s) id) as [[j|]|]; try done. cbn [mbind option_bind] in Hc. destruct (_ && _); [done|]. by injection Hc as ->.
Qed.

Lemma finish_inv s yld limit me t id d written s' r : is_hash_dispatch_mode dispatch_mode = true -> pinv s ->
  finish cfg dispatch_mode None reactor_num s yld limit me t id d written = Some (s', r) -> pinv s'.
Proof.
  intros Hh Hi. unfold finish. destruct (limit <? zlen d); [by intros [= <- <-]|].
  assert (forall i, (if decide (t = ev_close) then get_connection_verify_no_ssl cfg (conns s) id else get_connection_verify cfg (conns s) id) = Some (Some i) ->
    active (conn_at (conns s) i) = true /\ session_id (conn_at (conns s) i) = id) as Hv by (intros i E; apply verified; case_decide; auto).
  destruct (if decide (t = ev_close) then _ else _) as [[i|]|]; [|by intros [= <- <-]|done]. destruct (Hv i eq_refl) as [Ha Hs]. cbn [mbind option_bind].
  destruct (pi_conn _ Hi i Ha) as (Hfd & Hcfd & Hid & Hrid). rewrite Hs in Hid.
  destruct (_ && _); [by intros [= <- <-]|]. destruct (_ && _).
  - destruct (_ && _); [|by intros [= <- <-]]. destruct (schedule_worker _ _ _ _ _ _) as [[s1 k]|] eqn:Es; [|done]. cbn [mbind option_bind]. intros [= <- <-]. by eapply schedule_inv.
  - rewrite Hrid. destruct (reactor_pipe_ok s id i Hi Hid) as (-> & Hk & _). cbn [mbind option_bind]. set (m := mkMessage _ _ _ _ _).
    destruct (push_ok (to_reactor s) (reactor_pipe id i) m) as (p & Hp & Epush); [by rewrite (pi_to_reactor _ Hi)|]. destruct written.
    + rewrite Epush. cbn [mbind option_bind]. intros [= <- <-]. apply outbox_inv; try done. by exists i.
    + destruct (zget _ _); [|done]. by intros [= <- <-].
Qed.

(** The other steps *)
Lemma set_connection_at s fd c b i : conn_at (conns (set_connection s fd c b)) i = (if decide (i = fd) then c else conn_at (conns s) i) /\
  bound_at (set_connection s fd c b) i = (if decide (i = fd) then b else bound_at s i).
Proof.
  split; [|apply (bound_at_insert (with_conn_list s _))]. unfold conn_at. cbn. case_decide as E; [subst; by rewrite lookup_insert_eq|by rewrite lookup_insert_ne by congruence].
Qed.

Lemma target_some s fd : addr_ok (binfo (bound_at s fd)) -> is_hash_dispatch_mode dispatch_mode = true -> dispatch_mode <> DISPATCH_CO_CONN_LB -> exists w, target s fd w /\ 0 <= w < n.
Proof.
  intros Ha Hh Hne. unfold target. assert (forall x, 0 <= x mod n < n) as Hm by (intros; apply Z.mod_pos_bound; lia). destruct dispatch_mode; try done; [by eauto|].
  destruct (addr_key_ok _ Ha) as [key Ek]. eauto.
Qed.

Lemma goes_same s s' i w : binfo (bound_at s' i) = binfo (bound_at s i) -> bworker (bound_at s' i) = bworker (bound_at s i) ->
  session_id (conn_at (conns s') i) = session_id (conn_at (conns s) i) -> inbox s' = inbox s -> goes s i w -> goes s' i w.
Proof. unfold goes, target. by intros -> -> -> ->. Qed.

Lemma connection_inv s fd c b : is_hash_dispatch_mode dispatch_mode = true -> pinv s -> 0 <= fd < max_connection cfg -> addr_ok (binfo b) -> bworker b < n ->
  (active c = true -> kept s fd c b \/ opened s fd c b) -> pinv (set_connection s fd c b).
Proof.
  intros Hh Hi Hfd Ha Hb Hact. set (s' := set_connection s fd c b).
  assert (conn_at (conns s') fd = c /\ bound_at s' fd = b) as [Hc Hbo] by (destruct (set_connection_at s fd c b fd) as [E1 E2]; rewrite decide_True in E1 by done; rewrite decide_True in E2 by done; done).
  assert (forall i, i <> fd -> conn_at (conns s') i = conn_at (conns s) i /\ bound_at s' i = bound_at s i) as Hne by (intros i Hne; destruct (set_connection_at s fd c b i) as [E1 E2]; rewrite decide_False in E1 by done; rewrite decide_False in E2 by done; done).
  pose proof (pi_to_worker _ Hi) as Hlw. pose proof (pi_to_reactor _ Hi) as Hlr.
  assert (forall i, addr_ok (binfo (bound_at s' i))) as Hadr by (intros i; destruct (decide (i = fd)) as [->|E]; [by rewrite Hbo|rewrite (proj2 (Hne i E)); apply Hi]).
  split; try (by destruct Hi).
  - intros i. destruct (decide (i = fd)) as [->|E]; [by rewrite Hbo|rewrite (proj2 (Hne i E)); apply Hi].
  - intros i. destruct (decide (i = fd)) as [->|E]; [|rewrite (proj1 (Hne i E)); by apply pi_conn]. rewrite Hc. intros Hac.
    destruct (Hact Hac) as [(Ha0 & -> & -> & -> & _)|(-> & ? & -> & _)]; [by apply pi_conn|done].
  - assert (forall i, i <> fd -> active (conn_at (conns s) i) = true -> active c = true -> session_id (conn_at (conns s) i) <> session_id c) as Hdiff.
    { intros i E Hai Hac. destruct (Hact Hac) as [(Ha0 & -> & _)|(_ & _ & _ & _ & Hu & _)]; [|by apply Hu]. intros Hs. by apply E, (pi_unique _ Hi). }
    intros i j. destruct (decide (i = fd)) as [->|Ei], (decide (j = fd)) as [->|Ej]; rewrite ?Hc, ?(proj1 (Hne _ Ei)), ?(proj1 (Hne _ Ej)); try done; [| |by apply (pi_unique _ Hi)].
    + intros Hac Haj Hs. by destruct (Hdiff j Ej Haj Hac).
    + intros Hai Hac Hs. by destruct (Hdiff i Ei Hai Hac).
  - intros id. destruct (pi_in _ Hi id) as (w & Hr & Hg).
    assert (forall i, i <> fd -> active (conn_at (conns s') i) = true -> session_id (conn_at (conns s') i) = id -> goes s' i w) as Hother.
    { intros i E. destruct (Hne i E) as [Eq1 Eq2]. rewrite Eq1. intros. apply (goes_same s); rewrite ?Eq1, ?Eq2; try done. by apply Hg. }
    assert (forall w', routed (to_worker s) (inbox s) id w' -> (active c = true -> session_id c = id -> goes s' fd w') ->
      (w' = w \/ forall i, i <> fd -> active (conn_at (conns s) i) = true -> session_id (conn_at (conns s) i) <> id) ->
      exists w, routed (to_worker s') (inbox s') id w /\ forall i, active (conn_at (conns s') i) = true -> session_id (conn_at (conns s') i) = id -> goes s' i w) as Hdone.
    { intros w' Hr' Hfd' Hor. exists w'. split; [done|]. intros i. destruct (decide (i = fd)) as [->|E]; [by rewrite Hc|]. intros Hai Hsi. destruct Hor as [->|Hno]; [by apply Hother|].
      rewrite (proj1 (Hne i E)) in Hai, Hsi. by destruct (Hno i E Hai). }
    destruct (decide (active c = true /\ session_id c = id)) as [[Hac Hsc]|Hno]; [|apply (Hdone w Hr); [intros Hac Hsc; by destruct Hno|by left]].
    destruct (Hact Hac) as [(Ha0 & Es & _ & _ & Eb & Ea)|(_ & _ & _ & Eb & Hu & He & _)].
    + apply (Hdone w Hr); [|by left]. intros _ _. apply (goes_same s); rewrite ?Hc, ?Hbo; try done. apply Hg; congruence.
    + rewrite Hsc in *. destruct (decide (dispatch_mode = DISPATCH_CO_CONN_LB)) as [Hmo|Hmo].
      * apply (Hdone w Hr); [|by left]. intros _ _. right. split; [done|]. rewrite Hbo, Hc, Hsc. split; [lia|done].
      * destruct (target_some s' fd (Hadr fd) Hh Hmo) as (w' & Ht & Hw'). apply (Hdone w'); [eapply routed_fresh; [done|done|lia]|by left|by right].
  - intros id. destruct (pi_out _ Hi id) as (w & Hr & Hg).
    destruct (decide (active c = true /\ session_id c = id)) as [[Hac Hsc]|Hno].
    + destruct (Hact Hac) as [(Ha0 & Es & _)|(_ & H0 & _ & _ & Hu & _ & He)].
      * exists w. split; [done|]. intros i. destruct (decide (i = fd)) as [->|E]; [intros _ _; apply Hg; congruence|rewrite (proj1 (Hne i E)); by apply Hg].
      * exists (reactor_pipe id fd). rewrite Hsc in *. destruct (reactor_pipe_ok s id fd Hi H0) as (_ & Hk & _). split; [eapply routed_fresh; [done|done|cbn; lia]|].
        intros i. destruct (decide (i = fd)) as [->|E]; [done|]. rewrite (proj1 (Hne i E)). intros Hai Hsi. by destruct (Hu i E Hai).
    + exists w. split; [done|]. intros i. destruct (decide (i = fd)) as [->|E]; [rewrite Hc; intros; by destruct Hno|rewrite (proj1 (Hne i E)); by apply Hg].
Qed.

Lemma sessions_inv s m r : pinv s -> pinv (with_conn_list s (with_sessions (conns s) m r)).
Proof. intros Hi. by destruct Hi. Qed.

Lemma reachable_inv s s' : is_hash_dispatch_mode dispatch_mode = true -> pinv s -> rtc pstep s s' -> pinv s'.
Proof.
  intros Hh Hi Hr. induction Hr as [|s s1 s2 Hs _ IH]; [done|]. apply IH. inversion Hs; subst.
  - by eapply dispatch_inv.
  - by eapply finish_inv.
  - apply workers_inv; [by rewrite length_insert|done].
  - by apply sessions_inv.
  - by apply connection_inv.
Qed.

(** What a reactor dispatches is about a connection, or has the address of a datagram. *)
Definition task_ok (t : Task) : Prop := 0 <= s32 (tfd t) < max_connection cfg \/ exists a, tpacket t = Some a /\ addr_ok a.

Lemma schedule_some s fd pk : is_hash_dispatch_mode dispatch_mode = true -> pinv s -> 0 <= fd < max_connection cfg \/ (exists a, pk = Some a /\ addr_ok a) ->
  exists s' k, schedule_worker cfg dispatch_mode None s fd pk = Some (s', k).
Proof.
  intros Hh Hi Hok. cbn [schedule_worker]. unfold schedule_mode. destruct (modulo_ok s fd Hi) as [Em _]. unfold is_hash_dispatch_mode in Hh. destruct dispatch_mode eqn:Emode; try done.
  - rewrite Em. cbn [mbind option_bind]. by eexists _, _.
  - assert (exists a, match get_connection cfg fd with None => pk | Some i => Some (binfo (bound_at s i)) end = Some a /\ addr_ok a) as (a & -> & Ha).
    { destruct (get_connection cfg fd) as [i|] eqn:Eg; [eexists; split; [done|apply Hi]|]. destruct Hok as [Hr|?]; [|done]. by rewrite get_connection_at in Eg. }
    cbn [mbind option_bind]. destruct (addr_key_ok a Ha) as [key ->]. cbn [mbind option_bind]. destruct (modulo_ok s key Hi) as [-> _]. by eexists _, _.
  - destruct (get_connection cfg fd) as [i|]; [|rewrite Em; by eexists _, _]. destruct (_ <? 0); [|by eexists _, _]. destruct (lowest_load_ok s Hi) as (k & -> & _). by eexists _, _.
Qed.

Lemma dispatch_some s t written : is_hash_dispatch_mode dispatch_mode = true -> pinv s -> task_ok t -> is_Some (dispatch cfg dispatch_mode None s t written).
Proof.
  intros Hh Hi Hok. unfold dispatch. destruct (schedule_some s (s32 (tfd t)) (tpacket t) Hh Hi Hok) as (s1 & k & Es). rewrite Es. cbn [mbind option_bind].
  destruct (schedule_inv _ _ _ _ _ Hh Hi Es) as (Hi1 & Hk & _). destruct (Z.ltb_spec k 0); [lia|].
  match goal with |- context [match ?x with Some m => _ | None => Some (s1, false) end] => destruct x as [m|] end; [|done]. rewrite uN_small by (unfold fits; lia).
  assert (exists ws, (if decide (ttype t = ev_recv_data) then count_dispatch s1 k else Some s1) = Some (with_workers s1 ws)) as (ws & ->).
  { destruct (decide (ttype t = ev_recv_data)); [destruct (count_dispatch_ok s1 k Hi1 Hk) as (ws & -> & _); by exists ws|]. exists (workers s1). by destruct s1. }
  cbn [mbind option_bind]. change (to_worker (with_workers s1 ws)) with (to_worker s1). destruct written.
  - destruct (push_ok (to_worker s1) k m) as (p & _ & ->); [by rewrite (pi_to_worker _ Hi1)|done].
  - destruct (zget_in_bounds (to_worker s1) k) as [p ->]; [by rewrite (pi_to_worker _ Hi1)|done].
Qed.

Lemma finish_some s yld limit me t id d written : is_hash_dispatch_mode dispatch_mode = true -> pinv s -> 0 <= id ->
  is_Some (finish cfg dispatch_mode None reactor_num s yld limit me t id d written).
Proof.
  intros Hh Hi Hid. unfold finish. destruct (limit <? zlen d); [done|].
  assert (exists o, (if decide (t = ev_close) then get_connection_verify_no_ssl cfg (conns s) id else get_connection_verify cfg (conns s) id) = Some o /\
    forall i, o = Some i -> active (conn_at (conns s) i) = true /\ session_id (conn_at (conns s) i) = id) as (o & -> & Hv).
  { assert (is_Some (get_connection_verify_no_ssl cfg (conns s) id)) as [o Ho].
    { unfold get_connection_verify_no_ssl, get_session, session_index. rewrite Z.rem_mod_nonneg by (unfold SW_SESSION_LIST_SIZE; lia).
      pose proof (Z.mod_pos_bound id SW_SESSION_LIST_SIZE ltac:(done)). destruct (Z.leb_spec 0 (id mod SW_SESSION_LIST_SIZE)); [|lia]. cbn [mbind option_bind].
      destruct (get_connection cfg _); [|done]. destruct (negb _); [done|]. by destruct (_ || _). }
    assert (is_Some (get_connection_verify cfg (conns s) id)) as [o' Ho'] by (unfold get_connection_verify; rewrite Ho; cbn [mbind option_bind]; destruct o; [by destruct (_ && _)|done]).
    case_decide; eexists; (split; [done|]); intros i ->; apply verified; auto. }
  cbn [mbind option_bind]. destruct o as [i|]; [|done]. destruct (Hv i eq_refl) as [Ha Hs]. destruct (pi_conn _ Hi i Ha) as (Hfd & Hcfd & _ & Hrid). rewrite Hcfd.
  destruct (_ && _); [done|]. destruct (_ && _).
  - destruct (_ && _); [|done]. destruct (schedule_some s i None Hh Hi (or_introl Hfd)) as (s1 & k & ->). done.
  - rewrite Hrid. destruct (reactor_pipe_ok s id i Hi Hid) as (-> & Hk & _). cbn [mbind option_bind]. set (m := mkMessage _ _ _ _ _). destruct written.
    + destruct (push_ok (to_reactor s) (reactor_pipe id i) m) as (p & _ & ->); [by rewrite (pi_to_reactor _ Hi)|done].
    + destruct (zget_in_bounds (to_reactor s) (reactor_pipe id i)) as [p ->]; [by rewrite (pi_to_reactor _ Hi)|done].
Qed.
End process.

(** ** The search for an idle worker *)

Lemma idle_loop_ok m s key i w : 0 <= worker_round_id s -> worker_round_id s + Z.of_nat m <= 2 ^ 32 - 1 -> workers s <> [] -> 0 <= i < Z.of_nat m ->
  workers s !! Z.to_nat ((worker_round_id s + i) mod zlen (workers s)) = Some w -> idle w = true ->
  exists s' k w', idle_loop m s key = Some (s', k) /\ workers s !! Z.to_nat k = Some w' /\ idle w' = true /\ 0 <= k < zlen (workers s) /\ scheduler_warning s' = scheduler_warning s.
Proof.
  revert s key i. induction m as [|m IH]; intros s key i H0 Hm Hne Hi Hw Hid; [lia|]. cbn [idle_loop next_round]. change (workers (with_round _ _)) with (workers s).
  assert (0 < zlen (workers s)) as Hpos by (destruct (workers s); [done|cbn; lia]). destruct (Z.eqb_spec (zlen (workers s)) 0); [lia|].
  pose proof (Z.mod_pos_bound (worker_round_id s) (zlen (workers s)) Hpos) as Hk.
  destruct (lookup_lt_is_Some_2 (workers s) (Z.to_nat (worker_round_id s mod zlen (workers s)))) as [w0 Hw0]; [lia|]. rewrite Hw0. cbn [mbind option_bind].
  destruct (idle w0) eqn:E0; [by eexists _, _, w0|].
  assert (i <> 0) as Hi0 by (intros ->; rewrite Z.add_0_r, Hw0 in Hw; congruence).
  assert (u32 (worker_round_id s + 1) = worker_round_id s + 1) as Eu by (apply uN_small; unfold fits; lia).
  apply (IH (with_round s (u32 (worker_round_id s + 1))) _ (i - 1)); cbn [worker_round_id workers with_round]; rewrite ?Eu; try done; try lia.
  by replace (worker_round_id s + 1 + (i - 1)) with (worker_round_id s + i) by lia.
Qed.

(** An idle worker is found when there is one and the counter does not wrap around. *)
Lemma idle_worker_found s j w : 0 <= worker_round_id s -> worker_round_id s + zlen (workers s) + 1 <= 2 ^ 32 - 1 -> workers s !! j = Some w -> idle w = true ->
  exists s' k w', get_idle_worker_id s = Some (s', k) /\ workers s !! Z.to_nat k = Some w' /\ idle w' = true /\ 0 <= k < zlen (workers s) /\ scheduler_warning s' = scheduler_warning s.
Proof.
  intros H0 Hm Hj Hid. pose proof (lookup_lt_Some _ _ _ Hj) as Hlt. assert (workers s <> []) as Hne by (by intros E; rewrite E in Hj).
  pose proof (Z.mod_pos_bound (Z.of_nat j - worker_round_id s) (zlen (workers s)) ltac:(lia)) as Hi.
  apply (idle_loop_ok _ s 0 ((Z.of_nat j - worker_round_id s) mod zlen (workers s)) w); try done; try lia.
  rewrite Z.add_mod_idemp_r by lia. replace (worker_round_id s + (Z.of_nat j - worker_round_id s)) with (Z.of_nat j) by lia. by rewrite Z.mod_small, Nat2Z.id by lia.
Qed.

(** ** Properties *)

(** C20: a server of processes that binds connections to workers (by descriptor, by
    address, or by the load at the first message), without a dispatch function of the
    program.  In every state that it reaches, while connections and sessions come and go
    and the load changes, both ways of a message work for every task and every answer:
    no worker that does not exist is asked.  Every session has one worker, whose pipe
    has all messages of the session in the order in which they were dispatched and no
    other pipe has any; and one pipe for the answers, again with all of them in order,
    which is one that the reactor of the connection reads.  Conditions: less than 2^16
    workers, at most as many reactors as workers, session ids that are not negative, and
    tasks of a descriptor below max_connection or with an address. *)
Theorem dispatch_in_order cfg dispatch_mode reactor_num n s0 s id :
  0 < n < 2 ^ 16 -> 0 < reactor_num <= n -> 0 < max_connection cfg < 2 ^ 31 -> is_hash_dispatch_mode dispatch_mode = true ->
  starts n s0 -> rtc (pstep cfg dispatch_mode reactor_num n) s0 s ->
  (forall t written, task_ok cfg t -> is_Some (dispatch cfg dispatch_mode None s t written)) /\
  (forall yld limit me t id' d written, 0 <= id' -> is_Some (finish cfg dispatch_mode None reactor_num s yld limit me t id' d written)) /\
  (exists w, routed (to_worker s) (inbox s) id w) /\
  exists k, routed (to_reactor s) (outbox s) id k /\
    forall fd, active (conn_at (conns s) fd) = true -> session_id (conn_at (conns s) fd) = id -> k mod reactor_num = reactor_id (conn_at (conns s) fd).
Proof.
  intros Hn Hr Hm Hh Hs Hrtc. assert (pinv cfg dispatch_mode reactor_num n s) as Hi by (by eapply reachable_inv; [..|done]; try done; apply starts_inv).
  split; [intros; by eapply dispatch_some|]. split; [intros; by eapply finish_some|]. split; [destruct (pi_in _ _ _ _ _ Hi id) as (w & ? & _); by exists w|].
  destruct (pi_out _ _ _ _ _ Hi id) as (k & Hk & Hp). exists k. split; [done|]. intros fd Ha Hs'. destruct (pi_conn _ _ _ _ _ Hi fd Ha) as (_ & _ & Hid & ->). rewrite <- (Hp fd Ha Hs').
  rewrite Hs' in Hid. by eapply reactor_pipe_ok.
Qed.

Definition demo_config : Config := mkConfig 100 0 1000 800 100 false 3 None (fun _ _ _ => []) None false false.
Definition demo_server : PServer := mkPServer (mkState ∅ ∅ 0 0 0 0 0 0 0 [] []) ∅ (repeat (mkWorker 7 0 true 0) 2) 0 false (repeat [] 2) (repeat [] 2) [] [].
Definition demo_open : PServer :=
  set_connection demo_server 5 (mkConn true 5 1 1 0 0 None 3 (fun _ => false)) (mkBound (-1) 0 (mkAddr true (repeat 1 28))).
Definition demo_task (d : list Z) : Task := mkTask_ ev_recv_data 5 0 1 d None.
Definition demo_state : option PServer :=
  '(s, _) ← dispatch demo_config DISPATCH_CO_CONN_LB None demo_open (demo_task [10]) true;
  '(s, _) ← dispatch demo_config DISPATCH_CO_CONN_LB None (with_workers s (<[0%nat := mkWorker 9 0 true 1]> (workers s))) (demo_task [20]) true; Some s.

Lemma dispatch_in_order_witness : exists s w, demo_state = Some s /\ routed (to_worker s) (inbox s) 1 w /\ mdata <$> of_session 1 (inbox s) = [[10]; [20]].
Proof.
  eexists. assert (forall s, demo_state = Some s -> rtc (pstep demo_config DISPATCH_CO_CONN_LB 2 2) demo_server s) as Hr.
  { intros s. unfold demo_state. destruct (dispatch _ _ _ demo_open _ _) as [[s1 r1]|] eqn:E1; [|done]. cbn [mbind option_bind].
    destruct (dispatch _ _ _ _ (demo_task [20]) _) as [[s2 r2]|] eqn:E2; [|done]. cbn [mbind option_bind]. intros [= <-].
    apply (rtc_l _ _ demo_open); [apply (ps_connection _ _ _ _ demo_server 5)|]; [cbn; lia|unfold addr_ok; cbn; lia|cbn; lia| |].
    - intros _. right. split_and!; try done. 
    - eapply rtc_l; [by eapply ps_dispatch|]. eapply rtc_l; [by eapply ps_worker|]. eapply rtc_l; [by eapply ps_dispatch|apply rtc_refl]. }
  destruct (dispatch_in_order demo_config DISPATCH_CO_CONN_LB 2 2 demo_server _ 1 ltac:(lia) ltac:(lia) ltac:(cbn; lia) eq_refl ltac:(by split) (Hr _ ltac:(vm_compute; reflexivity))) as (_ & _ & (w & Hw) & _).
  exists w. split; [vm_compute; reflexivity|]. split; [exact Hw|]. reflexivity.
Defined.

(** ** Where the code does not do what it means to *)

(** With an IPv6 address the key is the hash of the whole socket address, with the port:
    two connections of one client go to two workers. *)
Definition ipv6 (port : Z) : Address := mkAddr false ([10; 0; port / 256; port mod 256; 0; 0; 0; 0; 32; 1; 13; 184] ++ repeat 0 11 ++ [1; 0; 0; 0; 0]).
Lemma ipv6_port_counts : (k ← addr_key (ipv6 40000); Some (k mod 4)) <> (k ← addr_key (ipv6 40001); Some (k mod 4)).
Proof. vm_compute. discriminate. Qed.

(** When the counter wraps around, workers are skipped unless their number divides 2^32:
    the one idle worker is not found. *)
Definition idle_last : PServer :=
  mkPServer (mkState ∅ ∅ 0 0 0 0 0 0 0 [] []) ∅ (repeat (mkWorker 0 0 false 0) 5 ++ [mkWorker 0 0 true 0]) (2 ^ 32 - 4) false [] [] [] [].
Lemma idle_worker_skipped : (r ← get_idle_worker_id idle_last; Some (scheduler_warning r.1, r.2)) = Some (true, 2).
Proof. vm_compute. reflexivity. Qed.
