(* ===== verification/CStr.v ===== *)
(** * What the sources use of the C library's strings and numbers

    Bytes are in a list, a pointer into it is an index; reading outside of the list has
    no result.  The functions read a byte only when the ones before it do not end the
    comparison or the number, as in C.  [str] writes a literal of the sources as its
    bytes. *)

From Stdlib Require Import String Ascii.
From S2P Require Import Prelude.

(** ** Definitions *)

Fixpoint str (s : string) : list Z :=
  match s with EmptyString => [] | String c s => Z.of_N (N_of_ascii c) :: str s end.

Definition CR : Z := 13.
Definition LF : Z := 10.
Definition SP : Z := 32.
Definition CRLF : list Z := [CR; LF].

(** [ctype.h] in the C locale *)
Definition isspace (c : Z) : bool := (c =? 32) || (9 <=? c) && (c <=? 13).
Definition isdigit (c : Z) : bool := (48 <=? c) && (c <=? 57).
Definition isupper (c : Z) : bool := (65 <=? c) && (c <=? 90).
Definition islower (c : Z) : bool := (97 <=? c) && (c <=? 122).
Definition isalnum (c : Z) : bool := isdigit c || isupper c || islower c.
Definition isxdigit (c : Z) : bool := isdigit c || (65 <=? c) && (c <=? 70) || (97 <=? c) && (c <=? 102).
Definition tolower (c : Z) : Z := if isupper c then c + 32 else c.

(** [strncasecmp(m + p, lit, |lit|) == 0] and [strncmp(m + p, lit, |lit|) == 0], for a
    literal without a null byte *)
Fixpoint strncaseeq (m : list Z) (p : Z) (lit : list Z) : option bool :=
  match lit with
  | [] => Some true
  | c :: lit => x ← zget m p; if tolower x =? tolower c then strncaseeq m (p + 1) lit else Some false
  end.
Fixpoint strneq (m : list Z) (p : Z) (lit : list Z) : option bool :=
  match lit with
  | [] => Some true
  | c :: lit => x ← zget m p; if x =? c then strneq m (p + 1) lit else Some false
  end.
(** [memcmp(m + p, lit, |lit|) == 0]: all bytes may be read *)
Definition memeq (m : list Z) (p : Z) (lit : list Z) : option bool :=
  d ← zsub m p (zlen lit); Some (bool_decide (d = lit)).
(** [swoole_str_istarts_with] *)
Definition istarts_with (m : list Z) (p plen : Z) (lit : list Z) : option bool :=
  if zlen lit <=? plen then strncaseeq m p lit else Some false.

(** [memchr(m + p, c, n)]: the index of the first one, if any *)
Fixpoint memchr_loop (n : nat) (m : list Z) (p c : Z) : option (option Z) :=
  match n with
  | O => Some None
  | S n => x ← zget m p; if x =? c then Some (Some p) else memchr_loop n m (p + 1) c
  end.
Definition memchr (m : list Z) (p c n : Z) : option (option Z) := memchr_loop (Z.to_nat n) m p c.

(** [strchr(m + p, c)] and [strlen(m + p)]: the scan ends at a null byte *)
Fixpoint strchr_loop (l : list Z) (p c : Z) : option (option Z) :=
  match l with
  | [] => None
  | x :: l => if x =? c then Some (Some p) else if x =? 0 then Some None else strchr_loop l (p + 1) c
  end.
Definition strchr (m : list Z) (p c : Z) : option (option Z) :=
  if 0 <=? p then strchr_loop (drop (Z.to_nat p) m) p c else None.
Fixpoint strlen_loop (l : list Z) : option Z :=
  match l with [] => None | x :: l => if x =? 0 then Some 0 else n ← strlen_loop l; Some (n + 1) end.
Definition strlen (m : list Z) (p : Z) : option Z := if 0 <=? p then strlen_loop (drop (Z.to_nat p) m) else None.

(** [memmem(m, n, lit, |lit|) != nullptr] *)
Fixpoint memmem_loop (n : nat) (m : list Z) (p : Z) (lit : list Z) : option bool :=
  match n with
  | O => Some false
  | S n => b ← memeq m p lit; if b : bool then Some true else memmem_loop n m (p + 1) lit
  end.
Definition memmem (m : list Z) (n : Z) (lit : list Z) : option bool := memmem_loop (Z.to_nat (n - zlen lit + 1)) m 0 lit.

(** The numbers of [strtol], [strtoul] and [strtoull]: white space, a sign, for base 16
    the prefix [0x], digits.  The result is the sign, the value of the digits, and the
    index behind them; without a digit there is no number and the index is the start *)
Definition digit_value (c : Z) : option Z :=
  if isdigit c then Some (c - 48) else
  if isupper c then Some (c - 65 + 10) else
  if islower c then Some (c - 97 + 10) else None.
Definition digit (base c : Z) : option Z := d ← digit_value c; if d <? base then Some d else None.

Fixpoint skip_spaces (l : list Z) (p : Z) : option (list Z * Z) :=
  match l with
  | [] => None
  | c :: l' => if isspace c then skip_spaces l' (p + 1) else Some (l, p)
  end.
Fixpoint digits (base : Z) (l : list Z) (p value : Z) : option (Z * Z) :=
  match l with
  | [] => None
  | c :: l => match digit base c with Some d => digits base l (p + 1) (value * base + d) | None => Some (value, p) end
  end.
Definition scan_sign (l : list Z) (p : Z) : option (bool * list Z * Z) :=
  match l with
  | [] => None
  | c :: l' => Some (if c =? 45 then (true, l', p + 1) else if c =? 43 then (false, l', p + 1) else (false, l, p))
  end.
Definition scan_prefix (base : Z) (l : list Z) (p : Z) : option (list Z * Z) :=
  match l with
  | [] => None
  | c :: l' =>
      if (base =? 16) && (c =? 48) then
        match l' with
        | [] => None
        | x :: l'' =>
            if (x =? 120) || (x =? 88) then
              match l'' with [] => None | d :: _ => Some (match digit 16 d with Some _ => (l'', p + 2) | None => (l, p) end) end
            else Some (l, p)
        end
      else Some (l, p)
  end.
Definition strto (base : Z) (m : list Z) (p : Z) : option (bool * Z * Z) :=
  if 0 <=? p then
    '(l, q) ← skip_spaces (drop (Z.to_nat p) m) p;
    '(neg, l, q) ← scan_sign l q;
    '(l, q) ← scan_prefix base l q;
    '(value, e) ← digits base l q 0;
    Some (if e =? q then (false, 0, p) else (neg, value, e))
  else None.

Definition LONG_MAX : Z := 2 ^ 63 - 1.
Definition ULONG_MAX : Z := 2 ^ 64 - 1.

(** The value and the index behind it *)
Definition strtol (base : Z) (m : list Z) (p : Z) : option (Z * Z) :=
  '(neg, v, e) ← strto base m p;
  Some (if neg : bool then Z.max (- v) (- LONG_MAX - 1) else Z.min v LONG_MAX, e).
Definition strtoul (base : Z) (m : list Z) (p : Z) : option (Z * Z) :=
  '(neg, v, e) ← strto base m p;
  Some (if ULONG_MAX <? v then ULONG_MAX else if neg : bool then u64 (- v) else v, e).

(** Decimal digits, as [std::to_string] and [%zu] print them; the fuel is the number of
    binary digits *)
Fixpoint print_loop (fuel : nat) (base n : Z) (acc : list Z) : list Z :=
  let d := n mod base in
  let acc := (if d <? 10 then 48 + d else 97 + d - 10) :: acc in
  match fuel with
  | O => acc
  | S fuel => if n / base =? 0 then acc else print_loop fuel base (n / base) acc
  end.
Definition print_number (base n : Z) : list Z := print_loop (Z.to_nat (Z.log2 n)) base n [].
Definition to_string (n : Z) : list Z := if n <? 0 then 45 :: print_number 10 (- n) else print_number 10 n.

(** [%.*s]: a null byte ends the text, a negative precision counts as none *)
Fixpoint c_text (l : list Z) : list Z := match l with [] => [] | c :: l => if c =? 0 then [] else c :: c_text l end.
Definition precise_text (n : Z) (l : list Z) : list Z := c_text (if n <? 0 then l else take (Z.to_nat n) l).

(** ** Lemmas *)

Lemma tolower_lower c : isupper (tolower c) = false.
Proof. unfold tolower, isupper. destruct (Z.leb_spec 65 c), (Z.leb_spec c 90); cbn [andb]; bool_cases; done || lia. Qed.

Lemma digit_char base d : 10 <= base <= 16 -> 0 <= d < base -> digit base (if d <? 10 then 48 + d else 97 + d - 10) = Some d.
Proof.
  intros Hb Hd. unfold digit, digit_value, isdigit, isupper, islower.
  destruct (Z.ltb_spec d 10); bool_cases; cbn [andb mbind option_bind]; try lia; bool_cases; try lia; f_equal; lia.
Qed.

Lemma digit_bounds base c d : digit base c = Some d -> 0 <= d < base.
Proof.
  unfold digit, digit_value, isdigit, isupper, islower. intros H. bool_cases; cbn [andb mbind option_bind] in H; try done; bool_cases; simplify_eq; lia.
Qed.

(** The printed digits of a number, and reading them back. *)
Definition digit_string (base n : Z) (ds : list Z) : Prop :=
  ds <> [] /\ Forall (fun c => exists d, digit base c = Some d) ds /\
  forall l p v, digits base (ds ++ l) p v = digits base l (p + zlen ds) (v * base ^ zlen ds + n).

Lemma digit_string_one base d : 10 <= base <= 16 -> 0 <= d < base -> digit_string base d [if d <? 10 then 48 + d else 97 + d - 10].
Proof.
  intros Hb Hd. pose proof (digit_char base d Hb Hd) as Hc. split_and!; [done|repeat constructor; eauto|].
  intros l p v. cbn [app digits length]. rewrite Hc. change (Z.of_nat 1) with 1. by rewrite Z.pow_1_r.
Qed.

Lemma digit_string_snoc base n d ds : 10 <= base <= 16 -> 0 <= d < base -> digit_string base n ds ->
  digit_string base (n * base + d) (ds ++ [if d <? 10 then 48 + d else 97 + d - 10]).
Proof.
  intros Hb Hd (Hne & Hf & Hds). destruct (digit_string_one base d Hb Hd) as (_ & Hf1 & H1). split_and!.
  - intros Hx%app_nil. naive_solver.
  - apply Forall_app. by split.
  - intros l p v. rewrite <- app_assoc, Hds, H1, length_app. cbn [length]. f_equal; [lia|]. rewrite Nat2Z.inj_add, Z.pow_add_r by lia. change (Z.of_nat 1) with 1. rewrite Z.pow_1_r. lia.
Qed.

Lemma print_loop_digits fuel base n acc : 10 <= base <= 16 -> 0 <= n < base ^ Z.of_nat (S fuel) ->
  exists ds, print_loop fuel base n acc = ds ++ acc /\ digit_string base n ds.
Proof.
  intros Hb. revert n acc. induction fuel as [|fuel IH]; intros n acc Hn; cbn [print_loop].
  - change (Z.of_nat 1) with 1 in Hn. rewrite Z.pow_1_r in Hn. rewrite Z.mod_small by lia. eexists [_]. split; [done|]. by apply digit_string_one.
  - pose proof (Z.mod_pos_bound n base ltac:(lia)) as Hm. pose proof (Z.div_mod n base ltac:(lia)) as Hdm.
    destruct (Z.eqb_spec (n / base) 0) as [E|E].
    + eexists [_]. split; [done|]. replace n with (n mod base) at 1 by lia. by apply digit_string_one.
    + destruct (IH (n / base) ((if n mod base <? 10 then 48 + n mod base else 97 + n mod base - 10) :: acc)) as (ds & -> & Hds).
      { split; [apply Z.div_pos; lia|]. apply Z.div_lt_upper_bound; [lia|]. rewrite <- Z.pow_succ_r by lia.
        replace (Z.succ (Z.of_nat (S fuel))) with (Z.of_nat (S (S fuel))) by lia. apply Hn. }
      exists (ds ++ [if n mod base <? 10 then 48 + n mod base else 97 + n mod base - 10]). split; [by rewrite <- app_assoc|].
      replace n with (n / base * base + n mod base) at 1 by lia. by apply digit_string_snoc.
Qed.

Lemma print_number_digits base n : 10 <= base <= 16 -> 0 <= n -> digit_string base n (print_number base n).
Proof.
  intros Hb Hn. unfold print_number. destruct (print_loop_digits (Z.to_nat (Z.log2 n)) base n [] Hb) as (ds & -> & Hds); [|by rewrite app_nil_r].
  split; [done|]. rewrite Nat2Z.inj_succ, Z2Nat.id by apply Z.log2_nonneg. destruct (decide (n = 0)) as [->|Hne].
  { apply Z.pow_pos_nonneg; simpl; lia. }
  pose proof (Z.log2_spec n ltac:(lia)) as [_ Hlog]. eapply Z.lt_le_trans; [exact Hlog|]. apply Z.pow_le_mono_l. lia.
Qed.

Lemma digit_not_space base c d : digit base c = Some d -> isspace c = false /\ (c =? 45) = false /\ (c =? 43) = false.
Proof.
  unfold digit, digit_value, isdigit, isupper, islower, isspace. intros H.
  assert (48 <= c) as Hc by (bool_cases; cbn [andb mbind option_bind] in H; done || lia). clear H. split_and!; bool_cases; cbn [andb orb]; done || lia.
Qed.

(** A printed number, followed by something that is not a digit, is read back. *)
Lemma strto_number base m n l1 c l2 : base = 10 \/ base = 16 -> 0 <= n -> digit base c = None -> c <> 120 -> c <> 88 ->
  m = l1 ++ print_number base n ++ c :: l2 -> strto base m (zlen l1) = Some (false, n, zlen l1 + zlen (print_number base n)).
Proof.
  intros Hb Hn Hc Hx HX ->. destruct (print_number_digits base n ltac:(lia) Hn) as (Hne & Hf & Hds). unfold strto.
  destruct (Z.leb_spec 0 (zlen l1)); [|lia]. rewrite Nat2Z.id, drop_app_length. set (ds := print_number base n) in *.
  destruct ds as [|d0 ds'] eqn:Eds; [done|]. pose proof Hf as Hf'. apply Forall_cons in Hf' as [[v0 Hv0] Hf']. destruct (digit_not_space _ _ _ Hv0) as (Hs & Hm & Hp).
  cbn [app skip_spaces]. rewrite Hs. cbn [mbind option_bind scan_sign]. rewrite Hm, Hp. cbn [mbind option_bind].
  assert (scan_prefix base (d0 :: ds' ++ c :: l2) (zlen l1) = Some (d0 :: ds' ++ c :: l2, zlen l1)) as ->.
  { cbn [scan_prefix]. destruct ((base =? 16) && (d0 =? 48)); [|done]. destruct ds' as [|d1 ds'']; cbn [app].
    - destruct (Z.eqb_spec c 120), (Z.eqb_spec c 88); done.
    - apply Forall_cons in Hf' as [[v1 Hv1] _]. assert ((d1 =? 120) || (d1 =? 88) = false) as ->; [|done].
      assert (d1 <> 120 /\ d1 <> 88) as [H120 H88] by (split; intros ->; destruct Hb as [-> | ->]; vm_compute in Hv1; done).
      by destruct (Z.eqb_spec d1 120), (Z.eqb_spec d1 88). }
  cbn [mbind option_bind]. change (d0 :: ds' ++ c :: l2) with ((d0 :: ds') ++ c :: l2). rewrite Hds. cbn [digits]. rewrite Hc. cbn [mbind option_bind].
  destruct (Z.eqb_spec (zlen l1 + zlen (d0 :: ds')) (zlen l1)); [cbn [length] in *; lia|]. do 2 f_equal.
Qed.

Lemma c_text_id l : (0 ∉ l) -> c_text l = l.
Proof.
  induction l as [|c l IH]; [done|]. intros [Hc Hl]%not_elem_of_cons. cbn [c_text]. destruct (Z.eqb_spec c 0); [congruence|]. by rewrite IH.
Qed.

Lemma to_string_positive n : 0 <= n -> to_string n = print_number 10 n.
Proof. intros H. unfold to_string. by rewrite (proj2 (Z.ltb_ge _ _)) by lia. Qed.
