(* ===== verification/Utils.v ===== *)
(** * Utilities of the core

    Functions of [src/core/base.cc], [include/swoole.h] and [include/swoole_util.h] that
    stand alone: numbers as text, divisors, the comparison of versions, random numbers
    without bias, waiting with growing pauses, bitmaps, searches in text, the creation of
    directories, and deferred tasks. *)

From S2P Require Import Prelude CStr.

(** ** Definitions *)

(** [swoole_dec2hex]: a buffer of 64 digits, written from its end *)
Definition digit_of (d : Z) : Z := if d <? 10 then 48 + d else 87 + d.
Fixpoint dec_loop (room : nat) (value base : Z) (text : list Z) : list Z :=
  match room with
  | O => text
  | S room => let text := digit_of (value mod base) :: text in if value / base =? 0 then text else dec_loop room (value / base) base text
  end.
Definition swoole_dec2hex (value base : Z) : option (list Z) := if (1 <? base) && (base <? 37) then Some (dec_loop 64 value base []) else None.

(** [swoole_hex2dec]: the value, and the number of bytes that were read *)
Definition toupper (c : Z) : Z := if islower c then c - 32 else c.
Fixpoint hex_loop (l : list Z) (p value : Z) : option (Z * Z) :=
  match l with
  | [] => None
  | c :: l =>
      if isdigit c then hex_loop l (p + 1) (u64 (value * 16 + (c - 48))) else
      let c := toupper c in
      if isupper c then hex_loop l (p + 1) (u64 (value * 16 + (c - 65) + 10)) else Some (value, p)
  end.
Definition swoole_hex2dec (hex : list Z) : option (Z * Z) :=
  prefix ← strncaseeq hex 0 [48; 120];
  if prefix : bool then hex_loop (drop 2 hex) 2 0 else hex_loop hex 0 0.

(** [swoole_common_divisor] and [swoole_common_multiple] *)
Fixpoint divisor_loop (fuel : nat) (u v : Z) : option Z :=
  match fuel with O => None | S fuel => if v =? 0 then Some u else divisor_loop fuel v (u mod v) end.
Definition swoole_common_divisor (u v : Z) : option Z := if (0 <? u) && (0 <? v) then divisor_loop 66 u v else None.
Fixpoint multiple_loop (fuel : nat) (m_cup n_cup : Z) : option Z :=
  match fuel with O => None | S fuel => let res := m_cup mod n_cup in if res =? 0 then Some n_cup else multiple_loop fuel n_cup res end.
Definition swoole_common_multiple (u v : Z) : option Z :=
  if (0 <? u) && (0 <? v) then g ← multiple_loop 65 u v; Some (u32 (u * v) / g) else None.

(** [swoole_version_compare] *)
Fixpoint version_loop (fuel : nat) (m1 m2 : list Z) (p1 p2 : Z) : option Z :=
  match fuel with O => None | S fuel =>
    '(ver1, t1) ← strtoul 10 m1 p1;
    '(ver2, t2) ← strtoul 10 m2 p2;
    if ver1 <? ver2 then Some (-1) else
    if ver2 <? ver1 then Some 1 else
    c1 ← zget m1 t1; c2 ← zget m2 t2;
    if (c1 =? 0) && (c2 =? 0) then Some 0 else
    if c1 =? 0 then Some (-1) else
    if c2 =? 0 then Some 1 else version_loop fuel m1 m2 (t1 + 1) (t2 + 1)
  end.
Definition swoole_version_compare (m1 m2 : list Z) : option Z := version_loop (S (length m1 + length m2)) m1 m2 0 0.

(** [swoole_system_random]: [None] is a failed assertion or a division by zero; [bytes] are
    the numbers that are read, and no more of them is a failed read *)
Definition UINT_MAX : Z := 2 ^ 32 - 1.
Definition random_limit (range : Z) : Z := UINT_MAX - UINT_MAX mod range.
Fixpoint random_loop (bytes : list Z) (limit range : Z) : option Z :=
  match bytes with [] => None | x :: bytes => if x <? limit then Some (x mod range) else random_loop bytes limit range end.
Definition swoole_system_random (min max : Z) (bytes : list Z) : option Z :=
  let range := u32 (max - min + 1) in
  if negb (min <? max) then None else
  if range =? 0 then None else
  Some (match random_loop bytes (random_limit range) range with Some r => s32 (min + r) | None => -1 end).

(** [sw_wait_for]: [answers] are the results of the function; the result with the pauses,
    in milliseconds *)
Definition INT_MAX : Z := 2 ^ 31 - 1.
Fixpoint wait_loop (fuel : nat) (answers : nat -> bool) (i : nat) (timeout_ms sleep_msec : Z) (pauses : list Z) : option (bool * list Z) :=
  match fuel with O => None | S fuel =>
    if timeout_ms <? 0 then Some (false, pauses) else
    if answers i then Some (true, pauses) else
    let pauses := pauses ++ [sleep_msec] in
    let sleep_msec := sleep_msec * 2 in
    if (0 <? timeout_ms) && (timeout_ms - sleep_msec <? 0) then wait_loop fuel answers (S i) 0 timeout_ms pauses
    else wait_loop fuel answers (S i) (timeout_ms - sleep_msec) sleep_msec pauses
  end.
Definition sw_wait_for (answers : nat -> bool) (timeout_ms : Z) : option (bool * list Z) :=
  wait_loop 35 answers 0 (if timeout_ms <? 0 then INT_MAX else timeout_ms) 1 [].

(** [BitMap] *)
Record BitMap := mkBitMap { array_ : list Z; n_bits_ : Z }.
Definition get_array_size (n_bits : Z) : Z := (n_bits + 63) / 64 * 8.
Definition get_offset (b : BitMap) (i : Z) : option Z := if i <? n_bits_ b then Some (Z.shiftr i 6) else None.
Definition to_int (i offset : Z) : Z := u64 (Z.shiftl 1 (i - Z.shiftl offset 6)).
Definition bm_clear (b : BitMap) : BitMap := mkBitMap (repeat 0 (Z.to_nat (get_array_size (n_bits_ b)))) (n_bits_ b).
Definition bm_set (b : BitMap) (i : Z) : option BitMap :=
  off ← get_offset b i; w ← zget (array_ b) off; a ← zset (array_ b) off (Z.lor w (to_int i off)); Some (mkBitMap a (n_bits_ b)).
Definition bm_unset (b : BitMap) (i : Z) : option BitMap :=
  off ← get_offset b i; w ← zget (array_ b) off; a ← zset (array_ b) off (Z.land w (u64 (Z.lnot (to_int i off)))); Some (mkBitMap a (n_bits_ b)).
Definition bm_get (b : BitMap) (i : Z) : option bool :=
  off ← get_offset b i; w ← zget (array_ b) off; Some (negb (Z.land w (to_int i off) =? 0)).

(** [swoole_strncasestr] and [swoole_strrnpos] *)
Fixpoint casestr_loop (n : nat) (m : list Z) (p : Z) (needle : list Z) : option (option Z) :=
  match n with
  | O => Some None
  | S n =>
      c ← zget m p; c0 ← zget needle 0;
      found ← (if c =? c0 then strncaseeq m p needle else Some false);
      if found : bool then Some (Some p) else casestr_loop n m (p + 1) needle
  end.
Definition swoole_strncasestr (m : list Z) (len : Z) (needle : list Z) : option (option Z) :=
  if zlen needle =? 0 then None else
  if zlen needle <=? len then casestr_loop (Z.to_nat (u32 (len - zlen needle + 1))) m 0 needle else Some None.

Fixpoint rpos_loop (i : nat) (m needle : list Z) : option Z :=
  match i with
  | O => Some (-1)
  | S j =>
      c ← zget m (Z.of_nat i); c0 ← zget needle 0;
      found ← (if c =? c0 then memeq m (Z.of_nat i) needle else Some false);
      if found : bool then Some (Z.of_nat i) else rpos_loop j m needle
  end.
Definition swoole_strrnpos (m needle : list Z) (length : Z) : option Z :=
  if zlen needle =? 0 then None else rpos_loop (Z.to_nat (u32 (length - zlen needle))) m needle.

(** [swoole_mkdir_recursive]: [tmp] has room for [path_max] bytes; the paths that it looks
    at, which it makes when they do not exist; [makes] is what [mkdir] says *)
Fixpoint mkdir_loop (n : nat) (i : Z) (tmp : list Z) (exists_ makes : list Z -> bool) (made : list (list Z)) : option (bool * list (list Z)) :=
  match n with
  | O => Some (true, made)
  | S n =>
      c ← zget tmp i;
      if c =? 47 then
        let path := take (Z.to_nat i) tmp in
        if exists_ path then mkdir_loop n (i + 1) tmp exists_ makes made else
        if makes path then mkdir_loop n (i + 1) tmp exists_ makes (made ++ [path]) else Some (false, made)
      else mkdir_loop n (i + 1) tmp exists_ makes made
  end.
Definition swoole_mkdir_recursive (path_max : Z) (dir : list Z) (exists_ makes : list Z -> bool) : option (bool * list (list Z)) :=
  let len := zlen dir in
  if path_max <? len + 1 then Some (false, []) else
  tmp ← zblit (repeat 0 (Z.to_nat path_max)) 0 (dir ++ [0]);
  c ← zget dir (len - 1);
  '(tmp, len) ← (if c =? 47 then Some (tmp, len) else tmp ← zblit tmp len [47; 0]; Some (tmp, len + 1));
  mkdir_loop (Z.to_nat (len - 1)) 1 tmp exists_ makes [].

(** [DeferTask]: [adds] are the tasks that a task defers when it is called.  The destructor
    calls the task on top and then takes away the one on top. *)
Fixpoint defer_loop (fuel : nat) (adds : Z -> list Z) (stack : list Z) (called : list Z) : option (list Z) :=
  match fuel with O => None | S fuel =>
    match stack with
    | [] => Some called
    | d :: _ => defer_loop fuel adds (tail (rev (adds d) ++ stack)) (called ++ [d])
    end
  end.

(** ** Lemmas *)

Lemma digit_roundtrip d l p value : 0 <= d < 16 -> hex_loop (digit_of d :: l) p value = hex_loop l (p + 1) (u64 (value * 16 + d)).
Proof.
  intros Hd. cbn [hex_loop]. unfold digit_of, isdigit, toupper, islower, isupper. destruct (Z.ltb_spec d 10).
  - destruct (Z.leb_spec 48 (48 + d)), (Z.leb_spec (48 + d) 57); try lia. cbn [andb]. do 2 f_equal. lia.
  - destruct (Z.leb_spec (87 + d) 57); [lia|]. rewrite andb_false_r. destruct (Z.leb_spec 97 (87 + d)), (Z.leb_spec (87 + d) 122); try lia. cbn [andb].
    destruct (Z.leb_spec 65 (87 + d - 32)), (Z.leb_spec (87 + d - 32) 90); try lia. cbn [andb]. do 2 f_equal. lia.
Qed.

Lemma dec_loop_read room v acc p : 0 <= v < 2 ^ 64 -> v < 16 ^ Z.of_nat room -> (0 < room)%nat -> exists ds, dec_loop room v 16 acc = ds ++ acc /\ ds <> [] /\
  Forall (fun c => c <> 120 /\ c <> 88) ds /\ hex_loop (ds ++ acc) p 0 = hex_loop acc (p + zlen ds) v.
Proof.
  revert v acc p. induction room as [|room IH]; intros v acc p Hv Hr Hpos; [lia|]. cbn [dec_loop]. pose proof (Z.mod_pos_bound v 16 ltac:(lia)) as Hm. pose proof (Z.div_mod v 16 ltac:(lia)) as Hdm.
  assert (digit_of (v mod 16) <> 120 /\ digit_of (v mod 16) <> 88) as Hx by (unfold digit_of; destruct (Z.ltb_spec (v mod 16) 10); lia).
  destruct (Z.eqb_spec (v / 16) 0) as [E|E].
  - exists [digit_of (v mod 16)]. split; [done|]. split; [done|]. split; [by apply Forall_singleton|]. cbn [app]. rewrite digit_roundtrip by done. cbn [length]. f_equal. rewrite uN_small by (unfold fits; lia). lia.
  - assert (0 <= v / 16) by (apply Z.div_pos; lia). assert (0 < room)%nat by (destruct room; [cbn in Hr; lia|lia]).
    assert (v / 16 < 16 ^ Z.of_nat room) by (apply Z.div_lt_upper_bound; [lia|]; rewrite Nat2Z.inj_succ, Z.pow_succ_r in Hr by lia; lia).
    destruct (IH (v / 16) (digit_of (v mod 16) :: acc) p ltac:(lia) ltac:(done) ltac:(done)) as (ds & -> & Hne & Hds & Hl).
    exists (ds ++ [digit_of (v mod 16)]). rewrite <- !app_assoc. split; [done|]. split; [by destruct ds|]. split; [apply Forall_app; split; [done|by apply Forall_singleton]|].
    cbn [app]. rewrite Hl, digit_roundtrip by done. rewrite length_app. cbn [length]. f_equal; [lia|]. rewrite uN_small by (unfold fits; lia). lia.
Qed.

(** Every number can be printed in hexadecimal and read again. *)
Lemma hex_roundtrip v rest : 0 <= v < 2 ^ 64 -> exists ds, swoole_dec2hex v 16 = Some ds /\ ds <> [] /\ swoole_hex2dec (ds ++ 0 :: rest) = Some (v, zlen ds).
Proof.
  intros Hv. destruct (dec_loop_read 64 v [] 0 Hv) as (ds & E & Hne & Hds & _); [change (16 ^ Z.of_nat 64) with (2 ^ 256); lia|lia|]. rewrite app_nil_r in E.
  assert (dec_loop 64 v 16 (0 :: rest) = ds ++ 0 :: rest) as E'.
  { assert (forall room v acc acc', dec_loop room v 16 (acc ++ acc') = dec_loop room v 16 acc ++ acc') as Happ.
    { clear. intros room. induction room as [|room IH]; intros v acc acc'; [done|]. cbn [dec_loop]. destruct (_ =? 0); [done|]. apply (IH _ (_ :: acc)). }
    by rewrite <- E, <- Happ. }
  exists ds. split; [unfold swoole_dec2hex; cbn [andb]; by rewrite E|]. split; [done|]. unfold swoole_hex2dec.
  destruct (dec_loop_read 64 v (0 :: rest) 0 Hv) as (ds' & E'' & _ & _ & Hl); [change (16 ^ Z.of_nat 64) with (2 ^ 256); lia|lia|]. rewrite E' in E''. apply app_inv_tail in E'' as <-.
  assert (strncaseeq (ds ++ 0 :: rest) 0 [48; 120] = Some false) as ->; [|cbn [mbind option_bind]; rewrite Hl; reflexivity].
  assert (exists b l c, ds ++ 0 :: rest = c :: b :: l /\ tolower b <> 120) as (b & l & c & -> & Hb).
  { destruct ds as [|c [|b ds]]; [done|by exists 0, rest, c|]. exists b, (ds ++ 0 :: rest), c. split; [done|]. apply Forall_cons in Hds as [_ [[? ?] _]%Forall_cons]. unfold tolower. destruct (isupper b); lia. }
  cbn [strncaseeq]. change (zget (c :: b :: l) 0) with (Some c). change (zget (c :: b :: l) (0 + 1)) with (Some b). cbn [mbind option_bind].
  destruct (tolower c =? tolower 48); [|done]. change (tolower 120) with 120. by destruct (Z.eqb_spec (tolower b) 120).
Qed.

(** The greatest common divisor *)
Lemma mod_half u v : 0 < v -> 0 < u mod v -> 2 * (v mod (u mod v)) < v.
Proof.
  intros Hv Hr. pose proof (Z.mod_pos_bound u v Hv). pose proof (Z.mod_pos_bound v (u mod v) Hr). pose proof (Z.div_mod v (u mod v) ltac:(lia)).
  assert (1 <= v / (u mod v)) by (apply Z.div_le_lower_bound; lia). nia.
Qed.
Lemma divisor_loop_ok k u v : 0 <= u -> 0 <= v < 2 ^ Z.of_nat k -> divisor_loop (2 * k + 2) u v = Some (Z.gcd u v).
Proof.
  revert u v. induction k as [|k IH]; intros u v Hu Hv.
  - assert (v = 0) as -> by (cbn in Hv; lia). cbn. by rewrite Z.gcd_0_r, Z.abs_eq.
  - replace (2 * S k + 2)%nat with (S (S (2 * k + 2))) by lia. cbn [divisor_loop]. destruct (Z.eqb_spec v 0) as [->|Hv0]; [by rewrite Z.gcd_0_r, Z.abs_eq|].
    pose proof (Z.mod_pos_bound u v ltac:(lia)) as Hm. assert (Z.gcd v (u mod v) = Z.gcd u v) as Hg by (rewrite Z.gcd_comm, Z.gcd_mod by lia; apply Z.gcd_comm).
    destruct (Z.eqb_spec (u mod v) 0) as [E|E]; [by rewrite <- Hg, E, Z.gcd_0_r, Z.abs_eq by lia|].
    pose proof (mod_half u v ltac:(lia) ltac:(lia)). pose proof (Z.mod_pos_bound v (u mod v) ltac:(lia)). rewrite Nat2Z.inj_succ, Z.pow_succ_r in Hv by lia.
    rewrite IH by lia. f_equal. rewrite <- Hg. rewrite Z.gcd_comm, Z.gcd_mod by lia. apply Z.gcd_comm.
Qed.
Lemma common_divisor_ok u v : 0 < u < 2 ^ 32 -> 0 < v < 2 ^ 32 -> swoole_common_divisor u v = Some (Z.gcd u v).
Proof.
  intros Hu Hv. unfold swoole_common_divisor. destruct (Z.ltb_spec 0 u), (Z.ltb_spec 0 v); try lia. cbn [andb]. apply (divisor_loop_ok 32); [lia|]. change (2 ^ Z.of_nat 32) with (2 ^ 32). lia.
Qed.

Lemma multiple_loop_divisor fuel u v : v <> 0 -> multiple_loop fuel u v = divisor_loop (S fuel) u v.
Proof.
  revert u v. induction fuel as [|fuel IH]; intros u v Hv; cbn [multiple_loop divisor_loop]; (destruct (Z.eqb_spec v 0); [done|]); [done|].
  destruct (Z.eqb_spec (u mod v) 0) as [E|E]; [done|]. rewrite IH by done. cbn [divisor_loop]. by destruct (Z.eqb_spec (u mod v) 0).
Qed.
(** The least common multiple, when the product fits *)
Lemma common_multiple_ok u v : 0 < u -> 0 < v -> u * v < 2 ^ 32 -> swoole_common_multiple u v = Some (Z.lcm u v).
Proof.
  intros Hu Hv Huv. unfold swoole_common_multiple. destruct (Z.ltb_spec 0 u), (Z.ltb_spec 0 v); try lia. cbn [andb]. rewrite multiple_loop_divisor by lia.
  rewrite (divisor_loop_ok 32) by (change (2 ^ Z.of_nat 32) with (2 ^ 32); nia). cbn [mbind option_bind]. f_equal. rewrite uN_small by (unfold fits; nia).
  assert (0 < Z.gcd u v) as Hg by (pose proof (Z.gcd_nonneg u v); assert (Z.gcd u v <> 0) by (intros [? _]%Z.gcd_eq_0; lia); lia). unfold Z.lcm.
  rewrite Z.divide_div_mul_exact by (lia || apply Z.gcd_divide_r). rewrite Z.abs_eq; [done|]. apply Z.mul_nonneg_nonneg; [lia|]. apply Z.div_pos; lia.
Qed.

(** Numbers in a text with a terminator *)
Lemma skip_spaces_in u p : exists u' q, skip_spaces (u ++ [0]) p = Some (u' ++ [0], q) /\ q + zlen u' = p + zlen u /\ p <= q.
Proof.
  revert p. induction u as [|c u IH]; intros p; cbn [skip_spaces app]; [exists [], p; cbn; split; [done|lia]|].
  destruct (isspace c); [|exists (c :: u), p; split; [done|lia]]. destruct (IH (p + 1)) as (u' & q & -> & ? & ?). exists u', q. cbn [length]. split; [done|lia].
Qed.
Lemma digits_in u p v : exists v' e, digits 10 (u ++ [0]) p v = Some (v', e) /\ p <= e <= p + zlen u.
Proof.
  revert p v. induction u as [|c u IH]; intros p v; cbn [digits app]; [exists v, p; cbn; split; [done|lia]|].
  destruct (digit 10 c) as [d|]; [|exists v, p; cbn; split; [done|lia]]. destruct (IH (p + 1) (v * 10 + d)) as (v' & e & -> & ?). exists v', e. cbn [length]. split; [done|lia].
Qed.
Lemma strtoul_in t p : 0 <= p <= zlen t -> exists v e, strtoul 10 (t ++ [0]) p = Some (v, e) /\ p <= e <= zlen t.
Proof.
  intros Hp. unfold strtoul, strto. destruct (Z.leb_spec 0 p); [|lia]. rewrite drop_app_le by lia. destruct (skip_spaces_in (drop (Z.to_nat p) t) p) as (u & q & -> & Hq & Hle). rewrite length_drop in Hq. cbn [mbind option_bind].
  assert (exists neg u' q', scan_sign (u ++ [0]) q = Some (neg, u' ++ [0], q') /\ q' + zlen u' = q + zlen u /\ q <= q') as (neg & u' & q' & -> & Hq' & Hle').
  { destruct u as [|c u]; [by exists false, [], q|]. cbn [scan_sign app]. destruct (c =? 45); [exists true, u, (q + 1); cbn [length]; split; [done|lia]|]. destruct (c =? 43); [exists false, u, (q + 1); cbn [length]; split; [done|lia]|]. by exists false, (c :: u), q. }
  cbn [mbind option_bind]. assert (scan_prefix 10 (u' ++ [0]) q' = Some (u' ++ [0], q')) as -> by by destruct u'. cbn [mbind option_bind].
  destruct (digits_in u' q' 0) as (v & e & -> & He). cbn [mbind option_bind]. destruct (e =? q'); eexists _, _; (split; [done|]); lia.
Qed.

(** The comparison of versions ends, and is antisymmetric. *)
Lemma version_loop_ends fuel t1 t2 p1 p2 : 0 <= p1 <= zlen t1 -> 0 <= p2 <= zlen t2 ->
  zlen t1 - p1 < Z.of_nat fuel -> exists r, version_loop fuel (t1 ++ [0]) (t2 ++ [0]) p1 p2 = Some r.
Proof.
  revert p1 p2. induction fuel as [|fuel IH]; intros p1 p2 Hp1 Hp2 Hf; [lia|]. cbn [version_loop].
  destruct (strtoul_in t1 p1 Hp1) as (v1 & e1 & -> & He1). destruct (strtoul_in t2 p2 Hp2) as (v2 & e2 & -> & He2). cbn [mbind option_bind].
  assert (forall t e, 0 <= e <= zlen t -> exists c, zget (t ++ [0]) e = Some c /\ (e = zlen t -> c = 0)) as Hc.
  { intros t e He. destruct (zget_in_bounds (t ++ [0]) e) as [c Hz]; [rewrite length_app; cbn; lia|]. exists c. split; [done|]. intros ->. rewrite zget_app_r, Z.sub_diag in Hz by lia. by injection Hz. }
  destruct (v1 <? v2); [by eexists|]. destruct (v2 <? v1); [by eexists|]. destruct (Hc t1 e1 ltac:(lia)) as (c1 & -> & Hc1). destruct (Hc t2 e2 ltac:(lia)) as (c2 & -> & Hc2). cbn [mbind option_bind].
  destruct (Z.eqb_spec c1 0), (Z.eqb_spec c2 0); cbn [andb]; try by eexists. apply IH; lia.
Qed.
Lemma version_loop_swap fuel m1 m2 p1 p2 r : version_loop fuel m1 m2 p1 p2 = Some r -> version_loop fuel m2 m1 p2 p1 = Some (- r).
Proof.
  revert p1 p2. induction fuel as [|fuel IH]; intros p1 p2; [done|]. cbn [version_loop]. destruct (strtoul 10 m1 p1) as [[v1 t1]|], (strtoul 10 m2 p2) as [[v2 t2]|]; cbn [mbind option_bind]; try done.
  destruct (Z.ltb_spec v1 v2), (Z.ltb_spec v2 v1); try lia; [by intros [= <-]|by intros [= <-]|].
  destruct (zget m1 t1) as [c1|], (zget m2 t2) as [c2|]; cbn [mbind option_bind]; try done.
  destruct (Z.eqb_spec c1 0), (Z.eqb_spec c2 0); cbn [andb]; try by intros [= <-]. apply IH.
Qed.

Lemma version_compare_ok t1 t2 : exists r, swoole_version_compare (t1 ++ [0]) (t2 ++ [0]) = Some r /\ swoole_version_compare (t2 ++ [0]) (t1 ++ [0]) = Some (- r).
Proof.
  unfold swoole_version_compare. destruct (version_loop_ends (S (length (t1 ++ [0]) + length (t2 ++ [0]))) t1 t2 0 0) as [r E]; [lia|lia|rewrite !length_app; lia|].
  exists r. split; [done|]. rewrite Nat.add_comm. by apply version_loop_swap.
Qed.

(** The numbers that are accepted: for each result the same number of them *)
Lemma random_uniform range r x : 0 < range <= UINT_MAX -> 0 <= r < range ->
  (0 <= x < random_limit range /\ x mod range = r <-> exists q, 0 <= q < UINT_MAX / range /\ x = q * range + r).
Proof.
  intros Hr Hx. unfold random_limit. pose proof (Z.div_mod UINT_MAX range ltac:(lia)) as Hd. split.
  - intros [Hl <-]. exists (x / range). pose proof (Z.div_mod x range ltac:(lia)). pose proof (Z.mod_pos_bound x range ltac:(lia)). split; [split; [apply Z.div_pos; lia|nia]|lia].
  - intros (q & Hq & ->). split; [nia|]. rewrite Z.add_comm, Z.mod_add by lia. by apply Z.mod_small.
Qed.
Lemma random_in_range min max bytes r : - 2 ^ 31 <= min -> max < 2 ^ 31 -> swoole_system_random min max bytes = Some r -> Forall (fun x => 0 <= x <= UINT_MAX) bytes -> r = -1 \/ min <= r <= max.
Proof.
  intros Hmin Hmax. unfold swoole_system_random. destruct (Z.ltb_spec min max); [|done]. cbn [negb]. destruct (Z.eqb_spec (u32 (max - min + 1)) 0) as [|H0]; [done|]. intros [= <-] Hb.
  destruct (random_loop _ _ _) as [k|] eqn:E; [right|by left].
  assert (u32 (max - min + 1) = max - min + 1) as Eu by (unfold uN in *; destruct (decide (max - min + 1 = 2 ^ 32)) as [F|F]; [by rewrite F in H0|apply Z.mod_small; lia]).
  rewrite Eu in *. assert (0 <= k < max - min + 1) as Hk.
  { clear Hmin Hmax. generalize dependent (random_limit (max - min + 1)). intros lim. induction bytes as [|x bytes IH]; [done|]. cbn [random_loop]. destruct (x <? lim); [intros [= <-]; apply Z.mod_pos_bound; lia|].
    intros E. apply IH; [by apply Forall_cons in Hb as [_ ?]|done]. }
  rewrite sN_small by lia. lia.
Qed.

(** Waiting: without an answer the pauses take one millisecond more than the timeout. *)
Definition total (l : list Z) : Z := foldr Z.add 0 l.
Lemma pauses_app l k : total (l ++ k) = total l + total k.
Proof. induction l as [|x l IH]; cbn; [done|]. unfold total in *. lia. Qed.
Definition waited (answers : nat -> bool) (pauses : list Z) (left : Z) (res : option (bool * list Z)) : Prop :=
  exists b l, res = Some (b, l) /\ total l <= total pauses + left /\ (b = false -> total l = total pauses + left) /\ (b = true -> exists j, answers j = true).

Lemma wait_last fuel answers i s pauses : 0 < s -> waited answers pauses s (wait_loop (S (S fuel)) answers i 0 s pauses).
Proof.
  intros Hs. cbn [wait_loop]. change (0 <? 0) with false. cbn [andb]. destruct (answers i) eqn:Ea; [exists true, pauses; split_and!; try done; [lia|by exists i]|].
  destruct (Z.ltb_spec (0 - s * 2) 0); [|lia]. exists false, (pauses ++ [s]). rewrite pauses_app. cbn. split_and!; try done; lia.
Qed.
Lemma wait_turn m answers i t s pauses : 0 < s -> 0 < t ->
  (t < s * 2 -> waited answers (pauses ++ [s]) t (wait_loop m answers (S i) 0 t (pauses ++ [s]))) ->
  (s * 2 <= t -> waited answers (pauses ++ [s]) t (wait_loop m answers (S i) (t - s * 2) (s * 2) (pauses ++ [s]))) ->
  waited answers pauses (s + t) (wait_loop (S m) answers i t s pauses).
Proof.
  intros Hs Ht Hlast Hmore. cbn [wait_loop]. destruct (Z.ltb_spec t 0); [lia|]. destruct (answers i) eqn:Ea; [exists true, pauses; split_and!; try done; [lia|by exists i]|].
  assert (forall res, waited answers (pauses ++ [s]) t res -> waited answers pauses (s + t) res) as Hstep.
  { intros res (b & l & -> & H1 & H2 & H3). exists b, l. rewrite pauses_app in *. cbn in *. split_and!; try done; [lia|]. intros Hb. specialize (H2 Hb). lia. }
  destruct (Z.ltb_spec 0 t); [|lia]. cbn [andb]. destruct (Z.ltb_spec (t - s * 2) 0); apply Hstep; [apply Hlast|apply Hmore]; lia.
Qed.
Lemma wait_loop_ok k answers i t s pauses : 0 < s -> 0 <= t < s * 2 ^ Z.of_nat k -> waited answers pauses (s + t) (wait_loop (3 + k) answers i t s pauses).
Proof.
  revert i t s pauses. induction k as [|k IH]; intros i t s pauses Hs Ht.
  - destruct (decide (t = 0)) as [->|Ht0]; [rewrite Z.add_0_r; by apply wait_last|]. apply wait_turn; [done|lia|intros; apply wait_last; lia|cbn in Ht; lia].
  - destruct (decide (t = 0)) as [->|Ht0]; [rewrite Z.add_0_r; by apply wait_last|]. replace (3 + S k)%nat with (S (3 + k)) by lia.
    apply wait_turn; [done|lia|intros; apply wait_last; lia|]. intros Hle. rewrite Nat2Z.inj_succ, Z.pow_succ_r in Ht by lia.
    replace t with (s * 2 + (t - s * 2)) at 1 by lia. apply IH; [lia|nia].
Qed.
Lemma wait_for_ok answers t : t <= INT_MAX -> exists b l, sw_wait_for answers t = Some (b, l) /\ (b = true -> exists j, answers j = true) /\
  let T := if t <? 0 then INT_MAX else t in total l <= T + 1 /\ (b = false -> total l = T + 1).
Proof.
  intros Ht. unfold sw_wait_for. set (T := if t <? 0 then INT_MAX else t). assert (0 <= T <= INT_MAX) as HT by (unfold T, INT_MAX in *; destruct (Z.ltb_spec t 0); lia).
  destruct (wait_loop_ok 32 answers 0 T 1 []) as (b & l & E & H1 & H2 & H3); [lia|change (2 ^ Z.of_nat 32) with (2 ^ 32); unfold INT_MAX in HT; lia|].
  exists b, l. split; [done|]. split; [done|]. cbn in H1, H2 |- *. split; [lia|]. intros Hb. specialize (H2 Hb). lia.
Qed.

(** ** Bitmaps are sets of numbers *)

Record bm_wf (b : BitMap) : Prop := {
  bm_bits : 0 < n_bits_ b;
  bm_size : zlen (array_ b) = get_array_size (n_bits_ b);
  bm_words : Forall (fits 64) (array_ b);
}.
Definition bit_at (b : BitMap) (i : Z) : bool := match zget (array_ b) (Z.shiftr i 6) with Some w => Z.testbit w (i mod 64) | None => false end.

Lemma bm_index b i : bm_wf b -> 0 <= i < n_bits_ b -> get_offset b i = Some (i / 64) /\ to_int i (i / 64) = 2 ^ (i mod 64) /\ 0 <= i / 64 < zlen (array_ b) /\ Z.shiftr i 6 = i / 64 /\ 0 <= i mod 64 < 64.
Proof.
  intros [Hn Hs _] Hi. pose proof (Z.mod_pos_bound i 64 ltac:(lia)) as Hm. pose proof (Z.div_mod i 64 ltac:(lia)) as Hd.
  assert (Z.shiftr i 6 = i / 64) as E6 by (rewrite Z.shiftr_div_pow2 by lia; done).
  split; [unfold get_offset; rewrite E6; by destruct (Z.ltb_spec i (n_bits_ b)); [|lia]|]. split.
  - unfold to_int. rewrite (Z.shiftl_mul_pow2 (i / 64)) by lia. replace (i - i / 64 * 2 ^ 6) with (i mod 64) by lia. rewrite Z.shiftl_mul_pow2 by lia. rewrite Z.mul_1_l. apply uN_small.
    unfold fits. pose proof (Z.pow_lt_mono_r 2 (i mod 64) 64 ltac:(lia) ltac:(lia) ltac:(lia)). pose proof (Z.pow_pos_nonneg 2 (i mod 64) ltac:(lia) ltac:(lia)). lia.
  - split; [|done]. rewrite Hs. unfold get_array_size. assert (i / 64 < (n_bits_ b + 63) / 64) by (apply Z.div_lt_upper_bound; [lia|]; pose proof (Z.div_mod (n_bits_ b + 63) 64 ltac:(lia)); pose proof (Z.mod_pos_bound (n_bits_ b + 63) 64 ltac:(lia)); lia).
    assert (0 <= i / 64) by (apply Z.div_pos; lia). lia.
Qed.

Lemma bm_get_ok b i : bm_wf b -> 0 <= i < n_bits_ b -> bm_get b i = Some (bit_at b i).
Proof.
  intros Hb Hi. destruct (bm_index b i Hb Hi) as (E & Et & Ho & E6 & Hm). unfold bm_get, bit_at. rewrite E, E6. cbn [mbind option_bind]. rewrite Et.
  destruct (zget_in_bounds (array_ b) (i / 64) Ho) as [w ->]. cbn [mbind option_bind]. f_equal. destruct (Z.eqb_spec (Z.land w (2 ^ (i mod 64))) 0) as [Ez|Ez].
  - cbn. apply (f_equal (fun x => Z.testbit x (i mod 64))) in Ez. rewrite Z.land_spec, Z.pow2_bits_true, andb_true_r, Z.bits_0 in Ez by lia. done.
  - cbn. destruct (Z.testbit w (i mod 64)) eqn:Ew; [done|]. destruct Ez. apply Z.bits_inj'. intros k Hk. rewrite Z.land_spec, Z.bits_0.
    destruct (decide (k = i mod 64)) as [->|Hne]; [by rewrite Ew|]. by rewrite Z.pow2_bits_false, andb_false_r by lia.
Qed.

(** A word of the array is replaced: only the bits of that word change. *)
Lemma bm_update b i w f : bm_wf b -> 0 <= i < n_bits_ b -> zget (array_ b) (i / 64) = Some w -> fits 64 f -> exists a, zset (array_ b) (i / 64) f = Some a /\ bm_wf (mkBitMap a (n_bits_ b)) /\
  forall j, 0 <= j < n_bits_ b -> bit_at (mkBitMap a (n_bits_ b)) j = if decide (j / 64 = i / 64) then Z.testbit f (j mod 64) else bit_at b j.
Proof.
  intros Hb Hi Hw Hf. destruct (bm_index b i Hb Hi) as (_ & _ & Ho & _). exists (<[Z.to_nat (i / 64) := f]> (array_ b)).
  pose proof (zset_in_bounds (array_ b) (i / 64) f Ho) as Hset. split; [done|]. split.
  - destruct Hb as [Hn Hs Hws]. split; cbn; [done|by rewrite length_insert|by apply Forall_insert].
  - intros j Hj. destruct (bm_index b j Hb Hj) as (_ & _ & _ & E6 & _). unfold bit_at. cbn [array_]. rewrite E6. case_decide as E; [by rewrite E, (zget_zset_eq _ _ _ _ Hset)|]. by rewrite (zget_zset_ne _ _ _ _ _ Hset) by congruence.
Qed.

Lemma same_bit i j : 0 <= i -> 0 <= j -> j / 64 = i / 64 -> (j mod 64 = i mod 64 <-> j = i).
Proof. intros. pose proof (Z.div_mod i 64 ltac:(lia)). pose proof (Z.div_mod j 64 ltac:(lia)). split; [lia|by intros ->]. Qed.

Lemma fits_high x k : fits 64 x -> 64 <= k -> Z.testbit x k = false.
Proof. intros Hx Hk. rewrite <- (uN_small 64 x Hx). unfold uN. by apply Z.mod_pow2_bits_high. Qed.
Lemma fits_bits x : (forall k, 64 <= k -> Z.testbit x k = false) -> fits 64 x.
Proof.
  intros Hx. replace x with (u64 x); [by apply uN_fits|]. apply Z.bits_inj'. intros k Hk. unfold uN. destruct (decide (k < 64)); [by rewrite Z.mod_pow2_bits_low|].
  rewrite Z.mod_pow2_bits_high by lia. symmetry. apply Hx. lia.
Qed.

(** Setting and unsetting *)
Lemma bm_change b i v : bm_wf b -> 0 <= i < n_bits_ b -> exists b', (if v : bool then bm_set b i else bm_unset b i) = Some b' /\ bm_wf b' /\ n_bits_ b' = n_bits_ b /\
  forall j, 0 <= j < n_bits_ b -> bit_at b' j = if decide (j = i) then v else bit_at b j.
Proof.
  intros Hb Hi. destruct (bm_index b i Hb Hi) as (E & Et & Ho & E6 & Hm). destruct (zget_in_bounds (array_ b) (i / 64) Ho) as [w Hw].
  assert (fits 64 w) as Hfw by (pose proof (bm_words _ Hb) as Hws; unfold zget in Hw; destruct (0 <=? _); [|done]; by eapply Forall_lookup_1 in Hws).
  set (f := if v then Z.lor w (2 ^ (i mod 64)) else Z.land w (u64 (Z.lnot (2 ^ (i mod 64))))).
  assert (forall k, 0 <= k < 64 -> Z.testbit f k = if decide (k = i mod 64) then v else Z.testbit w k) as Hbits.
  { intros k Hk. unfold f, uN. destruct v; [rewrite Z.lor_spec|rewrite Z.land_spec, Z.mod_pow2_bits_low, Z.lnot_spec by lia]; (case_decide as Ek; [subst k; rewrite Z.pow2_bits_true by lia|rewrite Z.pow2_bits_false by lia]).
    all: cbn; by rewrite ?orb_true_r, ?orb_false_r, ?andb_false_r, ?andb_true_r. }
  assert (fits 64 f) as Hf.
  { apply fits_bits. intros k Hk. unfold f. destruct v; [rewrite Z.lor_spec, Z.pow2_bits_false, (fits_high w) by (done || lia); done|]. by rewrite Z.land_spec, (fits_high w). }
  destruct (bm_update b i w f Hb Hi Hw Hf) as (a & Ea & Hwf & Hat). exists (mkBitMap a (n_bits_ b)). split; [|split; [done|split; [done|]]].
  - unfold f in Ea. destruct v; unfold bm_set, bm_unset; rewrite E; cbn [mbind option_bind]; rewrite Hw; cbn [mbind option_bind]; rewrite Et, Ea; done.
  - intros j Hj. rewrite (Hat j Hj). destruct (bm_index b j Hb Hj) as (_ & _ & _ & Ej & Hmj). case_decide as Eo; [|by rewrite decide_False by congruence].
    rewrite Hbits by done. unfold bit_at. rewrite Ej, Eo, Hw. pose proof (same_bit i j ltac:(lia) ltac:(lia) Eo). by repeat case_decide; intuition.
Qed.

(** The creation of directories stays inside of its memory when the slash has room. *)
Lemma mkdir_loop_some n i tmp exists_ makes made : 0 <= i -> i + Z.of_nat n <= zlen tmp -> is_Some (mkdir_loop n i tmp exists_ makes made).
Proof.
  revert i made. induction n as [|n IH]; intros i made Hi Hn; [done|]. cbn [mkdir_loop]. destruct (zget_in_bounds tmp i) as [c ->]; [lia|]. cbn [mbind option_bind].
  destruct (c =? 47); [destruct (exists_ _); [apply IH; lia|destruct (makes _); [apply IH; lia|done]]|apply IH; lia].
Qed.
Lemma mkdir_safe path_max dir exists_ makes : dir <> [] -> zlen dir + 2 <= path_max -> is_Some (swoole_mkdir_recursive path_max dir exists_ makes).
Proof.
  intros Hne Hl. assert (0 < zlen dir) as Hpos by (destruct dir; [done|cbn; lia]). unfold swoole_mkdir_recursive. destruct (Z.ltb_spec path_max (zlen dir + 1)); [lia|].
  assert (forall (m : list Z) o d, 0 <= o -> o + zlen d <= zlen m -> exists m', zblit m o d = Some m' /\ length m' = length m) as Hblit.
  { intros m o d Ho Hd. destruct (zblit_in_bounds m o d Ho Hd) as [m' E]. exists m'. split; [done|]. by eapply zblit_length. }
  destruct (Hblit (repeat 0 (Z.to_nat path_max)) 0 (dir ++ [0])) as (tmp & -> & Htmp); [lia|rewrite repeat_length, length_app; cbn; lia|]. cbn [mbind option_bind]. rewrite repeat_length in Htmp.
  destruct (zget_in_bounds dir (zlen dir - 1)) as [c ->]; [lia|]. cbn [mbind option_bind]. destruct (c =? 47); [cbn [mbind option_bind]; apply mkdir_loop_some; lia|].
  destruct (Hblit tmp (zlen dir) [47; 0]) as (tmp' & -> & Htmp'); [lia|cbn; lia|]. cbn [mbind option_bind]. apply mkdir_loop_some; lia.
Qed.

(** ** Where the code does not do what it means to *)

(** Letters behind F are read as hexadecimal digits. *)
Lemma hex_reads_letters : swoole_hex2dec [49; 122; 0] = Some (51, 2).
Proof. reflexivity. Qed.

(** The product in the least common multiple is computed with 32 bits. *)
Lemma multiple_wraps : swoole_common_multiple 65536 131072 = Some 0 /\ Z.lcm 65536 131072 = 131072.
Proof. split; vm_compute; reflexivity. Qed.

(** The search from the end never looks at the start; the search without case compares the
    first letter with it. *)
Lemma start_not_searched : swoole_strrnpos [97; 98; 99] [97; 98] 3 = Some (-1).
Proof. reflexivity. Qed.
Lemma first_letter_case : swoole_strncasestr [80; 69; 82] 3 [112; 101; 114] = Some None /\ swoole_strncasestr [112; 69; 82] 3 [112; 101; 114] = Some (Some 0).
Proof. split; reflexivity. Qed.

(** The slash at the end of a path of the greatest length goes behind the memory. *)
Lemma path_overflows : swoole_mkdir_recursive 8 [47; 97; 98; 99; 47; 100; 101] (fun _ => true) (fun _ => true) = None.
Proof. reflexivity. Qed.

(** A task that defers another one is called again and again, the other one never. *)
Lemma defer_never_ends fuel called : defer_loop fuel (fun _ => [2]) [1] called = None.
Proof. revert called. induction fuel as [|fuel IH]; intros called; [done|]. apply IH. Qed.

(** The widest range of random numbers divides by zero. *)
Lemma random_divides_by_zero bytes : swoole_system_random (- 2 ^ 31) (2 ^ 31 - 1) bytes = None.
Proof. reflexivity. Qed.
