(* ===== verification/CoSocket.v ===== *)
(** * The socket of a coroutine

    Receiving with [src/coroutine/socket.cc]: [recv], [recv_all], [recv_with_buffer],
    [recv_line] and [recv_packet] with its protocols, and sending with [send] and
    [send_all], without TLS and for one coroutine per direction.  A call of the kernel that finds nothing makes the coroutine wait; what
    it finds is a script, as in [Protocol.v], and what it waits for another one: an
    event, perhaps with a hang-up, or something that breaks the wait (a timeout, a
    cancellation, a close). *)

From Stdlib Require Import Ascii.
From S2P Require Import Prelude MemPool Str Protocol LengthProtocol Mqtt Http2 WebSocket Port CStr.

(** ** Definitions *)

Definition SW_BUFFER_SIZE_BIG : Z := 65536.

Inductive wait := Ready (hup : bool) | Broken (closed : bool).

(** What the functions use of the socket, with the environment.  [avail] is
    [is_available]: the socket is not closed and no close waits for it. *)
Record CoSock := mkCo {
  rbuf : option Str;
  avail : bool;
  kernel_nobufs : bool;
  event_hup : bool;
  cinput : list Z;
  cscript : list answer;
  waits : list wait;
}.
Definition with_rbuf c b := mkCo (Some b) (avail c) (kernel_nobufs c) (event_hup c) (cinput c) (cscript c) (waits c).
Definition with_input c i s := mkCo (rbuf c) (avail c) (kernel_nobufs c) (event_hup c) i s (waits c).
Definition with_nobufs c v := mkCo (rbuf c) (avail c) v (event_hup c) (cinput c) (cscript c) (waits c).
Definition with_waits c a h w := mkCo (rbuf c) a (kernel_nobufs c) h (cinput c) (cscript c) w.

(** [network::Socket::recv] of at most [n] bytes, with its treatment of a hang-up;
    bytes, or the error *)
Definition kernel_recv (c : CoSock) (n : Z) : (errno + list Z) * CoSock :=
  match cscript c with
  | [] => (if n =? 0 then inr [] else inl EAGAIN, c)
  | Fail e :: sc => (inl e, with_input c (cinput c) sc)
  | Shut :: sc => (inr [], with_input c (cinput c) sc)
  | Take k :: sc =>
      if n =? 0 then (inr [], with_input c (cinput c) sc) else
      match cinput c with
      | [] => (inl EAGAIN, with_input c [] sc)
      | _ =>
          let m := Z.to_nat (Z.min (Z.max 1 k) n) in
          (inr (take m (cinput c)), with_input c (drop m (cinput c)) sc)
      end
  end.
Definition is_wait (r : ReturnCode) : bool := match r with SW_WAIT => true | _ => false end.
Definition sys_recv (c : CoSock) (n : Z) : option ((errno + list Z) * CoSock) :=
  match kernel_recv c n with
  | (inr d, c) => Some (inr d, c)
  | (inl e, c) =>
      r ← catch_error e;
      let c := match e with ENOBUFS => with_nobufs c true | _ => c end in
      Some (if is_wait r && event_hup c then inr [] else inl e, c)
  end.

(** [Socket::wait_event] without a barrier: whether to go on *)
Definition wait_event (c : CoSock) : CoSock * bool :=
  if kernel_nobufs c then (with_nobufs c false, avail c) else
  match waits c with
  | [] => (c, false)
  | Ready hup :: ws => (with_waits c (avail c) (event_hup c || hup) ws, true)
  | Broken closed :: ws => (with_waits c (avail c && negb closed) (event_hup c) ws, false)
  end.

(** [Socket::recv]: [None] is the result [-1], no bytes the result 0 *)
Fixpoint recv_loop (fuel : nat) (c : CoSock) (n : Z) : option (CoSock * option (list Z)) :=
  match fuel with O => None | S fuel =>
    '(r, c) ← sys_recv c n;
    match r with
    | inr d => Some (c, Some d)
    | inl e =>
        r ← catch_error e;
        if is_wait r then let '(c, go) := wait_event c in if go : bool then recv_loop fuel c n else Some (c, None) else Some (c, None)
    end
  end.
Definition co_recv (c : CoSock) (n : Z) : option (CoSock * option (list Z)) :=
  if avail c then recv_loop (length (cscript c) + length (waits c) + 2) c n else Some (c, None).

(** [Socket::recv_all]: the coroutine waits once, while each event calls the barrier;
    [neg] is [retval < 0] *)
Fixpoint barrier (ws : list wait) (c : CoSock) (n : Z) (got : list Z) (neg : bool) : option (CoSock * list Z * bool) :=
  match ws with
  | [] => Some (with_waits c (avail c) (event_hup c) [], got, neg)
  | Broken closed :: ws => Some (with_waits c (avail c && negb closed) (event_hup c) ws, got, neg)
  | Ready hup :: ws =>
      let c := with_waits c (avail c) (event_hup c || hup) ws in
      '(r, c) ← sys_recv c (n - zlen got);
      match r with
      | inl e => r ← catch_error e; if is_wait r && negb (event_hup c) then barrier ws c n got true else Some (c, got, true)
      | inr [] => Some (c, got, false)
      | inr d => if (zlen (got ++ d) <? n) && negb (event_hup c) then barrier ws c n (got ++ d) false else Some (c, got ++ d, false)
      end
  end.
Definition wait_all (c : CoSock) (n : Z) (got : list Z) : option (CoSock * option (list Z)) :=
  '(c, got, neg) ← (if kernel_nobufs c then Some (with_nobufs c false, got, true) else barrier (waits c) c n got true);
  Some (c, if neg && bool_decide (got = []) then None else Some got).
Definition recv_all (c : CoSock) (n : Z) : option (CoSock * option (list Z)) :=
  if negb (avail c) then Some (c, None) else
  '(r, c) ← sys_recv c n;
  match r with
  | inr d => if (zlen d =? 0) || (zlen d =? n) then Some (c, Some d) else wait_all c n d
  | inl e => r ← catch_error e; if is_wait r then wait_all c n [] else Some (c, None)
  end.

Section co_socket.
Context `{Allocator}.

(** [Socket::get_read_buffer] *)
Definition get_read_buffer (c : CoSock) : CoSock * Str :=
  match rbuf c with Some b => (c, b) | None => let b := alloc SW_BUFFER_SIZE_BIG in (with_rbuf c b, b) end.

(** [Socket::recv_with_buffer]: the bytes for the caller *)
Definition recv_with_buffer (c : CoSock) (n : Z) : option (CoSock * option (list Z)) :=
  if negb (avail c) then Some (c, None) else
  let '(c, b) := get_read_buffer c in
  let bytes := u64 (slen b - soff b) in
  if n <=? bytes then
    d ← zsub (mem b) (soff b) n;
    Some (with_rbuf c (with_offset b (soff b + n)), Some d)
  else
    d0 ← (if 0 <? bytes then zsub (mem b) (soff b) bytes else Some []);
    let b := if 0 <? bytes then with_offset b (soff b + bytes) else b in
    b ← (if ssize b / 2 <=? soff b then reduce b (soff b) else Some b);
    '(c, r) ← co_recv (with_rbuf c b) (ssize b - slen b);
    match r with
    | None | Some [] => Some (c, if 0 <? bytes then Some d0 else r)
    | Some d =>
        b ← store b d;
        let k := Z.min (n - bytes) (slen b - soff b) in
        d1 ← zsub (mem b) (soff b) k;
        Some (with_rbuf c (with_offset b (soff b + k)), Some (d0 ++ d1))
    end.

(** [Socket::recv_line] into the memory [u] of the caller: the result, and the memory *)
Fixpoint line_loop (fuel : nat) (c : CoSock) (u : list Z) (n m maxlen : Z) : option (CoSock * Z * list Z) :=
  match fuel with O => None | S fuel =>
    ch ← zget u n;
    if negb (ch =? LF) && negb (ch =? CR) && (n <? maxlen) then
      let n := if 0 <? m then n + 1 else n in
      if n <? maxlen then
        '(c, r) ← recv_with_buffer c 1;
        match r with
        | None => Some (c, -1, u)
        | Some [] => Some (c, n, u)
        | Some d => u ← zblit u n d; line_loop fuel c u n (zlen d) maxlen
        end
      else line_loop fuel c u n m maxlen
    else Some (c, if n <? maxlen then n + 1 else n, u)
  end.
Definition recv_line (c : CoSock) (u : list Z) (maxlen : Z) : option (CoSock * Z * list Z) :=
  u ← zset u 0 0; line_loop (Z.to_nat maxlen + 2) c u 0 0 maxlen.

(** [Socket::recv_packet_with_eof_protocol] *)
Fixpoint eof_packet (fuel : nat) (eof : list Z) (max : Z) (c : CoSock) (search : bool) : option (CoSock * Z) :=
  match fuel with O => None | S fuel =>
    b ← rbuf c;
    if search then
      pos ← strnstr (mem b) 0 (slen b) eof;
      match pos with
      | Some p => Some (with_rbuf c (with_offset b (p + zlen eof)), p + zlen eof)
      | None =>
          if slen b =? max then Some (with_rbuf c (clear b), -1) else
          b ← (if (slen b =? ssize b) && (ssize b <? max) then extend b (Z.min (ssize b * 2) max) else Some b);
          eof_packet fuel eof max (with_rbuf c b) false
      end
    else
      '(c, r) ← co_recv c (Z.min (ssize b - slen b) SW_BUFFER_SIZE_BIG);
      match r with
      | None => Some (with_rbuf c (clear b), -1)
      | Some [] => Some (with_rbuf c (clear b), 0)
      | Some d => b ← store b d; eof_packet fuel eof max (with_rbuf c b) (zlen eof <=? slen b)
      end
  end.
Definition recv_packet_with_eof_protocol (eof : list Z) (max : Z) (c : CoSock) : option (CoSock * Z) :=
  b ← rbuf c; eof_packet (2 * length (cscript c) + 3) eof max c (0 <? slen b).
End co_socket.

(** The length function as the coroutine calls it: [hf_start] is the length of the header
    in the settings, [hf_custom] says that it is a function of the program
    ([package_length_size] and [package_length_type] are 0), [hf_need] is what
    [PacketLength::header_len] says when the length is not found. *)
Class HeaderFunc `{LengthFunc} := {
  hf_start : Z;
  hf_custom : bool;
  hf_need : list Z -> Z;
  hf_start_ok : 0 < hf_start <= lf_header;
  hf_need_ok l : Forall byte l -> l <> [] -> lf_get l = Some 0 -> zlen l <= lf_header ->
    let n := if hf_need l =? 0 then hf_start else hf_need l in
    hf_start <= n <= lf_header /\ zlen l <= n /\ (zlen l < lf_header -> zlen l < n);
}.

Section co_packet.
Context `{Allocator} (start : Z) (custom : bool) (get : list Z -> option Z) (need : list Z -> Z) (max : Z).

(** [Socket::recv_packet_with_length_protocol], with the labels [_recv_header] and
    [_get_length] *)
Fixpoint length_packet (fuel : nat) (c : CoSock) (header_len : Z) (get_length : bool) : option (CoSock * Z) :=
  match fuel with O => None | S fuel =>
    b ← rbuf c;
    if get_length then
      buf ← zsub (mem b) 0 (slen b);
      packet_len ← get buf;
      if packet_len <? 0 then Some (c, 0) else
      if packet_len =? 0 then length_packet fuel c (if need buf =? 0 then header_len else need buf) false else
      if max <? packet_len then Some (with_rbuf c (clear b), -1) else
      let b := with_offset b packet_len in
      if packet_len <=? slen b then Some (with_rbuf c b, packet_len) else
      b ← (if ssize b <? packet_len then extend b packet_len else Some b);
      '(c, r) ← recv_all (with_rbuf c b) (packet_len - slen b);
      match r with
      | None => Some (c, -1)
      | Some [] => Some (c, 0)
      | Some d => b ← store b d; Some (with_rbuf c b, if slen b =? packet_len then packet_len else 0)
      end
    else
      '(c, r) ← co_recv c (u64 (header_len - slen b));
      match r with
      | None => Some (c, -1)
      | Some [] => Some (c, 0)
      | Some d => b ← store b d; length_packet fuel (with_rbuf c b) header_len true
      end
  end.
Definition recv_packet_with_length_protocol (c : CoSock) : option (CoSock * Z) :=
  b ← rbuf c;
  length_packet (2 * length (cscript c) + 3) c start ((0 <? slen b) && ((start <=? slen b) || custom)).

(** [Socket::recv_packet]; the timer can be started *)
Inductive mode := MLength | MEof (eof : list Z) | MPlain.
Definition recv_packet (md : mode) (c : CoSock) : option (CoSock * Z) :=
  if negb (avail c) then Some (c, -1) else
  let '(c, b) := get_read_buffer c in
  b ← (if 0 <? soff b then reduce b (soff b) else Some b);
  let c := with_rbuf c b in
  '(c, r) ← (match md with
             | MLength => recv_packet_with_length_protocol c
             | MEof eof => recv_packet_with_eof_protocol eof max c
             | MPlain =>
                 '(c, r) ← co_recv c (ssize b);
                 match r with
                 | None => Some (c, -1)
                 | Some [] => Some (c, 0)
                 | Some d => m ← zblit (mem b) 0 d; Some (with_rbuf c (mkStr m (zlen d) (ssize b) (zlen d) (sallocator b)), zlen d)
                 end
             end);
  b ← rbuf c;
  Some (if r <=? 0 then with_rbuf c (clear b) else c, r).

(** What the program does with a packet: it copies it, or takes the memory
    ([Socket::pop_packet]) *)
Definition take_packet (c : CoSock) (r : Z) (pop_ : bool) : option (CoSock * list Z) :=
  b ← rbuf c;
  if pop_ then
    '(m, b) ← pop b SW_BUFFER_SIZE_BIG;
    p ← zsub m 0 r; Some (with_rbuf c b, p)
  else p ← zsub (mem b) 0 r; Some (c, p).

(** Calls of the program, one after the other, until one has no data; a line goes to memory
    of [room] bytes *)
Inductive cop := CPacket (pop_ : bool) | CBuffer (n : Z) | CLine (room maxlen : Z).
Definition co_step (md : mode) (c : CoSock) (o : cop) : option (CoSock * list Z) :=
  match o with
  | CPacket pop_ => '(c, r) ← recv_packet md c; if r <=? 0 then Some (c, []) else take_packet c r pop_
  | CBuffer n => '(c, r) ← recv_with_buffer c n; Some (c, default [] r)
  | CLine room maxlen => '(c, r, u) ← recv_line c (fresh room) maxlen; Some (c, take (Z.to_nat r) u)
  end.
Fixpoint co_run (md : mode) (c : CoSock) (ops : list cop) : option (CoSock * list (list Z)) :=
  match ops with
  | [] => Some (c, [])
  | o :: ops => '(c, d) ← co_step md c o; if decide (d = []) then Some (c, []) else '(c, ds) ← co_run md c ops; Some (c, d :: ds)
  end.
End co_packet.

(** A new socket *)
Definition new_co (st : list Z) (sc : list answer) (ws : list wait) : CoSock := mkCo None true false false st sc ws.

(** ** Sending *)

(** What the kernel says to [send]: it takes at most [k] bytes, or fails. *)
Inductive space := Room (k : Z) | Full (e : errno).
Record CoOut := mkCoOut {
  cwire : list Z;
  oavail : bool;
  onobufs : bool;
  ohup : bool;
  kernel : list space;
  owaits : list wait;
}.
Definition with_wire o w k := mkCoOut w (oavail o) (onobufs o) (ohup o) k (owaits o).
Definition with_onobufs o v := mkCoOut (cwire o) (oavail o) v (ohup o) (kernel o) (owaits o).
Definition with_owaits o a h w := mkCoOut (cwire o) a (onobufs o) h (kernel o) w.

(** [network::Socket::send] and [catch_write_error] of its error: the result, and whether
    to wait *)
Definition co_sys_send (o : CoOut) (d : list Z) : option (CoOut * Z * bool) :=
  match kernel o with
  | [] => Some (if decide (d = []) then (o, 0, false) else (o, -1, true))
  | Room k :: ks => let m := Z.min (Z.max 1 k) (zlen d) in Some (with_wire o (cwire o ++ take (Z.to_nat m) d) ks, m, false)
  | Full e :: ks =>
      r ← catch_error e;
      let o := with_wire o (cwire o) ks in
      Some (match e with ENOBUFS => with_onobufs o true | _ => o end, -1, is_wait r)
  end.
Definition wait_writable (o : CoOut) : CoOut * bool :=
  if onobufs o then (with_onobufs o false, oavail o) else
  match owaits o with
  | [] => (o, false)
  | Ready hup :: ws => (with_owaits o (oavail o) (ohup o || hup) ws, true)
  | Broken closed :: ws => (with_owaits o (oavail o && negb closed) (ohup o) ws, false)
  end.

(** [Socket::send]; the copy of the bytes that [wait_event] may make holds the same bytes *)
Fixpoint send_loop (fuel : nat) (o : CoOut) (d : list Z) : option (CoOut * Z) :=
  match fuel with O => None | S fuel =>
    '(o, r, w) ← co_sys_send o d;
    if (r <? 0) && w then let '(o, go) := wait_writable o in if go : bool then send_loop fuel o d else Some (o, r) else Some (o, r)
  end.
Definition co_send (o : CoOut) (d : list Z) : option (CoOut * Z) :=
  if oavail o then send_loop (length (kernel o) + length (owaits o) + 2) o d else Some (o, -1).

(** The barrier of [Socket::send_all], called by every event; [neg] is [retval < 0] *)
Fixpoint send_barrier (ws : list wait) (o : CoOut) (d : list Z) (total : Z) (neg : bool) : option (CoOut * Z * bool) :=
  match ws with
  | [] => Some (with_owaits o (oavail o) (ohup o) [], total, neg)
  | Broken closed :: ws => Some (with_owaits o (oavail o && negb closed) (ohup o) ws, total, neg)
  | Ready hup :: ws =>
      '(o, r, w) ← co_sys_send (with_owaits o (oavail o) (ohup o || hup) ws) (drop (Z.to_nat total) d);
      let total := if 0 <? r then total + r else total in
      if (((r <? 0) && w) || ((0 <? r) && (total <? zlen d))) && negb (ohup o) then send_barrier ws o d total (r <? 0) else Some (o, total, r <? 0)
  end.
Definition send_all (o : CoOut) (d : list Z) : option (CoOut * Z) :=
  if negb (oavail o) then Some (o, -1) else
  '(o, r, w) ← co_sys_send o d;
  if (r =? 0) || (r =? zlen d) then Some (o, r) else
  if (r <? 0) && negb w then Some (o, r) else
  let total := if 0 <? r then r else 0 in
  '(o, total, neg) ← (if onobufs o then Some (with_onobufs o false, total, true) else send_barrier (owaits o) o d total true);
  Some (o, if neg && (total =? 0) then -1 else total).

(** ** Lemmas *)

(** What a call leaves behind that took the bytes [d] from the network. *)
Record moved (c c' : CoSock) (d : list Z) : Prop := {
  mv_buf : rbuf c' = rbuf c;
  mv_input : d ++ cinput c' = cinput c;
  mv_script : cscript c' `suffix_of` cscript c;
}.

Definition is_take (a : answer) : bool := match a with Take _ => true | _ => false end.

(** An environment that always goes on: enough bytes and events, no error. *)
Record plenty (c : CoSock) : Prop := {
  pl_avail : avail c = true;
  pl_nobufs : kernel_nobufs c = false;
  pl_hup : event_hup c = false;
  pl_script : Forall benign (cscript c);
  pl_takes : (length (cinput c) <= length (filter is_take (cscript c)))%nat;
  pl_waits : Forall (fun w => w = Ready false) (waits c);
  pl_events : (length (cscript c) <= length (waits c))%nat;
}.

Lemma moved_trans c c1 c2 d d1 : moved c c1 d -> moved c1 c2 d1 -> moved c c2 (d ++ d1).
Proof. intros [Hb Hi Hs] [Hb' Hi' Hs']. split; [congruence|by rewrite <- app_assoc, Hi'|by etrans]. Qed.

Lemma moved_sane c c' d : moved c c' d -> Forall sane (cscript c) -> Forall sane (cscript c').
Proof. intros [_ _ [u E]] Hs. rewrite E in Hs. by apply Forall_app in Hs as []. Qed.

Lemma benign_sane sc : Forall benign sc -> Forall sane sc.
Proof. intros Hb. apply (Forall_impl benign); [done|]. intros [| |e]; try done. by destruct e. Qed.

Lemma sane_catch e : e <> EFAULT -> is_Some (catch_error e).
Proof. destruct e; try done; by eexists. Qed.

Lemma kernel_recv_cases c n : 0 <= n -> exists r c', kernel_recv c n = (r, c') /\ avail c' = avail c /\ kernel_nobufs c' = kernel_nobufs c /\
  event_hup c' = event_hup c /\ waits c' = waits c /\
  match r with
  | inl e => moved c c' [] /\ (Forall sane (cscript c) -> e <> EFAULT) /\ (e = EAGAIN \/ (length (cscript c') < length (cscript c))%nat)
  | inr d => moved c c' d /\ zlen d <= n /\ (d <> [] -> exists a, cscript c = a :: cscript c')
  end.
Proof.
  intros Hn. unfold kernel_recv. destruct (cscript c) as [|[k| |e] sc] eqn:Es.
  - eexists _, c. split; [done|]. do 4 (split; [done|]). destruct (n =? 0); (split; [by split|]); split; try done; by left.
  - destruct (Z.eqb_spec n 0) as [->|]; [|destruct (cinput c) as [|x i] eqn:Ei].
    + eexists _, _. split; [done|]. do 4 (split; [done|]). split; [|done]. split; cbn; try done. rewrite Es. by apply suffix_cons_r.
    + eexists _, _. split; [done|]. do 4 (split; [done|]). split; [|by split; [|left]]. split; cbn; try done. rewrite Es. by apply suffix_cons_r.
    + eexists _, _. split; [done|]. do 4 (split; [done|]). split_and!.
      * split; cbn; [done| |rewrite Es; by apply suffix_cons_r]. by rewrite take_drop.
      * rewrite length_take. lia.
      * intros _. by eexists.
  - eexists _, _. split; [done|]. do 4 (split; [done|]). split; [|done]. split; cbn; try done. rewrite Es. by apply suffix_cons_r.
  - eexists _, _. split; [done|]. do 4 (split; [done|]). split; [|split; [intros [He _]%Forall_cons ->; by apply He|right; cbn; lia]].
    split; cbn; try done. rewrite Es. by apply suffix_cons_r.
Qed.

Lemma sys_recv_ok c n : 0 <= n -> Forall sane (cscript c) -> exists r c', sys_recv c n = Some (r, c') /\ avail c' = avail c /\ waits c' = waits c /\
  (length (cscript c') + (if kernel_nobufs c' then 1 else 0) <= length (cscript c) + (if kernel_nobufs c then 1 else 0))%nat /\
  match r with
  | inl e => moved c c' [] /\ is_Some (catch_error e)
  | inr d => moved c c' d /\ zlen d <= n /\ (d <> [] -> exists a, cscript c = a :: cscript c')
  end.
Proof.
  intros Hn Hs. unfold sys_recv. destruct (kernel_recv_cases c n Hn) as ([e|d] & c' & -> & Ha & Hnb & Hh & Hw & Hr).
  - destruct Hr as (Hm & He & Hlt). destruct (sane_catch e (He Hs)) as [rc Erc]. rewrite Erc. cbn [mbind option_bind]. eexists _, _. split; [done|].
    assert (moved c (match e with ENOBUFS => with_nobufs c' true | _ => c' end) []) as Hm' by (destruct Hm; destruct e; by split).
    pose proof (suffix_length _ _ (mv_script _ _ _ Hm)). split; [by destruct e|]. split; [by destruct e|].
    split; [destruct e; cbn; rewrite ?Hnb; try lia; destruct Hlt as [?|?]; [done|destruct (kernel_nobufs c); lia]|]. destruct (is_wait rc && event_hup _); [|by split]. split_and!; [done|done|done].
  - exists (inr d), c'. do 3 (split; [done|]). split; [|done]. rewrite Hnb. pose proof (suffix_length _ _ (mv_script _ _ _ (proj1 Hr))). lia.
Qed.

(** With plenty to come, bytes or a pause. *)
Definition slack (c : CoSock) : Prop := cscript c = [] \/ (length (cscript c) < length (waits c))%nat.

Lemma sys_recv_plenty c n : 0 < n -> plenty c -> exists r c', sys_recv c n = Some (r, c') /\ plenty c' /\ slack c' /\
  (cinput c <> [] -> (length (cscript c') < length (waits c'))%nat) /\ (r = inl EAGAIN \/ exists d, r = inr d /\ d <> []) .
Proof.
  intros Hn [Ha Hb Hh Hs Ht Hw He]. unfold sys_recv, kernel_recv, slack. destruct (cscript c) as [|a sc] eqn:Es.
  { destruct (Z.eqb_spec n 0); [lia|]. cbn [catch_error mbind option_bind is_wait andb]. rewrite Hh. destruct (cinput c) eqn:Ei; [|cbn in Ht; lia]. exists (inl EAGAIN), c. rewrite Es. split_and!; auto; [|done].
    split; try done; rewrite ?Es, ?Ei; done || (cbn; lia). }
  apply Forall_cons in Hs as [Hba Hbs]. cbn [length] in He. destruct a as [k| |e]; [|done|].
  - rewrite filter_cons_True in Ht by done. destruct (Z.eqb_spec n 0); [lia|]. destruct (cinput c) as [|x i] eqn:Ei; cbn [length] in Ht.
    + cbn [catch_error mbind option_bind is_wait andb]. change (event_hup (with_input c [] sc)) with (event_hup c). rewrite Hh. eexists _, _. split; [done|]. split_and!; [split; cbn; done || lia|right; cbn; lia|done|by left].
    + eexists _, _. split; [done|]. destruct (Z.to_nat (Z.min (Z.max 1 k) n)) as [|m] eqn:Em; [lia|]. cbn [take drop]. split_and!; [|right; cbn; lia|cbn; lia|right; by eexists].
      split; cbn; try done; [rewrite length_drop; lia|lia].
  - destruct e; try done. cbn [catch_error mbind option_bind is_wait andb]. change (event_hup (with_input c (cinput c) sc)) with (event_hup c). rewrite Hh.
    rewrite filter_cons_False in Ht by (cbn; tauto). eexists _, _. split; [done|]. split_and!; [split; cbn; done || lia|right; cbn; lia|cbn; lia|by left].
Qed.

(** What the next call sees of a wait. *)
Lemma wait_event_ok c : exists c' go, wait_event c = (c', go) /\ rbuf c' = rbuf c /\ cinput c' = cinput c /\ cscript c' = cscript c /\
  (go = true -> (length (waits c') + (if kernel_nobufs c' then 1 else 0) < length (waits c) + (if kernel_nobufs c then 1 else 0))%nat) /\
  (plenty c -> slack c -> plenty c' /\ ((length (cscript c) < length (waits c))%nat -> go = true)).
Proof.
  unfold wait_event, slack. destruct (kernel_nobufs c) eqn:En.
  - eexists _, _. split; [done|]. do 3 (split; [done|]). split; [cbn; lia|]. intros []. congruence.
  - destruct (waits c) as [|[hup|closed] ws] eqn:Ew.
    + eexists _, _. split; [done|]. do 3 (split; [done|]). split; [done|]. intros Hp _. split; [done|cbn; lia].
    + eexists _, _. split; [done|]. do 3 (split; [done|]). split; [cbn; rewrite En; lia|]. intros [Ha Hb Hh Hs Ht Hw He] Hl. rewrite Ew in *.
      apply Forall_cons in Hw as [[= ->] Hw]. cbn [length] in *. split; [|done]. split; cbn; try done; [by rewrite Hh|destruct Hl as [-> |Hl]; cbn; lia].
    + eexists _, _. split; [done|]. do 3 (split; [done|]). split; [done|]. intros [_ _ _ _ _ Hw _]. rewrite Ew in Hw. by apply Forall_cons in Hw as [? _].
Qed.

(** A result of [recv]: the bytes come from the network, and with plenty to come there
    are some. *)
Definition recv_result (c : CoSock) (n : Z) (c' : CoSock) (r : option (list Z)) : Prop :=
  moved c c' (default [] r) /\ zlen (default [] r) <= n /\ (default [] r <> [] -> (length (cscript c') < length (cscript c))%nat) /\
  (0 < n -> plenty c -> plenty c' /\ (cinput c <> [] -> exists d, r = Some d /\ d <> [])).

Lemma co_recv_loop_ok fuel c n : 0 <= n -> Forall sane (cscript c) ->
  (length (cscript c) + length (waits c) + (if kernel_nobufs c then 1 else 0) < fuel)%nat ->
  exists c' r, recv_loop fuel c n = Some (c', r) /\ recv_result c n c' r.
Proof.
  intros Hn. revert c. induction fuel as [|fuel IH]; intros c Hs Hf; [lia|]. cbn [recv_loop].
  destruct (sys_recv_ok c n Hn Hs) as (r & c1 & E & Ha & Hw & Hle & Hr). rewrite E. cbn [mbind option_bind].
  assert (0 < n -> plenty c -> plenty c1 /\ slack c1 /\ (cinput c <> [] -> (length (cscript c1) < length (waits c1))%nat) /\ (r = inl EAGAIN \/ exists d, r = inr d /\ d <> [])) as Hpl.
  { intros Hpos Hp. destruct (sys_recv_plenty c n Hpos Hp) as (r' & c'' & E' & ?). rewrite E in E'. by injection E' as <- <-. }
  destruct r as [e|d].
  - destruct Hr as [Hm [rc Erc]]. rewrite Erc. cbn [mbind option_bind]. destruct (is_wait rc) eqn:Eis.
    + destruct (wait_event_ok c1) as (c2 & go & E2 & Hb2 & Hi2 & Hs2 & Hdec & Hgo). rewrite E2. assert (moved c c2 []) as Hm2 by (destruct Hm; split; congruence).
      destruct go.
      * assert (cscript c1 `suffix_of` cscript c) as Hsuf by apply Hm.
        destruct (IH c2) as (c' & r & Er & Hm3 & Hl3 & Hd3 & Hp3); [by rewrite Hs2; eapply moved_sane|specialize (Hdec eq_refl); rewrite Hs2, Hw in *; lia|].
        exists c', r. split; [done|]. split; [by apply (moved_trans _ _ _ _ _ Hm2 Hm3)|]. split; [done|]. split.
        -- intros Hd. specialize (Hd3 Hd). rewrite Hs2 in Hd3. pose proof (suffix_length _ _ Hsuf). lia.
        -- intros Hpos Hp. destruct (Hpl Hpos Hp) as (Hp1 & Hsl & _). destruct (Hgo Hp1 Hsl) as [Hp2 _]. destruct (Hp3 Hpos Hp2) as [Hp' Hex]. split; [done|]. intros Hi. apply Hex. rewrite Hi2. destruct Hm as [_ Hmi _]. cbn in Hmi. congruence.
      * exists c2, None. split; [done|]. split; [done|]. split; [done|]. split; [done|]. intros Hpos Hp. destruct (Hpl Hpos Hp) as (Hp1 & Hsl & Hlt & _). destruct (Hgo Hp1 Hsl) as [Hp2 Hg]. split; [done|]. intros Hi. by specialize (Hg (Hlt Hi)).
    + exists c1, None. split; [done|]. split; [done|]. split; [done|]. split; [done|]. intros Hpos Hp. destruct (Hpl Hpos Hp) as (_ & _ & _ & [[= ->]|(? & ? & _)]); [|done]. by injection Erc as <-.
  - exists c1, (Some d). split; [done|]. destruct Hr as (Hm & Hl & Hd). split; [done|]. split; [done|]. split.
    + cbn. intros Hne. destruct (Hd Hne) as [a Ea]. rewrite Ea. cbn. lia.
    + intros Hpos Hp. destruct (Hpl Hpos Hp) as (Hp1 & _ & _ & [?|(d' & [= <-] & ?)]); [done|]. split; [done|]. by exists d.
Qed.

Lemma co_recv_ok c n : 0 <= n -> Forall sane (cscript c) -> exists c' r, co_recv c n = Some (c', r) /\ recv_result c n c' r.
Proof.
  intros Hn Hs. unfold co_recv. destruct (avail c) eqn:Ea.
  - apply co_recv_loop_ok; [done|done|]. destruct (kernel_nobufs c); lia.
  - exists c, None. split; [done|]. split; [by split|]. split; [done|]. split; [done|]. intros _ []. congruence.
Qed.

(** Bytes or a pause, in one statement for the barrier and for the call before it. *)
Lemma sys_recv_step c n : 0 <= n -> Forall sane (cscript c) -> exists r c', sys_recv c n = Some (r, c') /\ avail c' = avail c /\ waits c' = waits c /\
  moved c c' (match r with inl _ => [] | inr d => d end) /\
  match r with inl e => is_Some (catch_error e) | inr d => zlen d <= n end /\
  (0 < n -> plenty c -> cinput c <> [] -> plenty c' /\ (length (cscript c') < length (waits c'))%nat /\ (r = inl EAGAIN \/ exists d, r = inr d /\ d <> [])).
Proof.
  intros Hn Hs. destruct (sys_recv_ok c n Hn Hs) as (r & c1 & E & Ha & Hw & _ & Hr). exists r, c1. split_and!; try done.
  - by destruct r; destruct Hr.
  - destruct r; [by destruct Hr|by destruct Hr as (_ & ? & _)].
  - intros Hpos Hp Hi. destruct (sys_recv_plenty c n Hpos Hp) as (r' & c'' & E' & Hp' & _ & Hl & Hc). rewrite E in E'. injection E' as <- <-. split_and!; auto.
Qed.

Lemma plenty_event c hup ws : plenty c -> waits c = Ready hup :: ws -> (length (cscript c) < length (waits c))%nat -> plenty (with_waits c (avail c) (event_hup c || hup) ws).
Proof.
  intros [Ha Hb Hh Hs Ht Hw He] Ew Hl. rewrite Ew in *. apply Forall_cons in Hw as [[= ->] Hw]. cbn [length] in Hl. split; cbn; try done; [by rewrite Hh|lia].
Qed.

Lemma moved_waits c c' d a h ws : moved (with_waits c a h ws) c' d -> moved c c' d.
Proof. by intros []. Qed.

Lemma barrier_ok ws c n got neg : Forall sane (cscript c) -> zlen got <= n -> exists c' d neg', barrier ws c n got neg = Some (c', got ++ d, neg') /\
  moved c c' d /\ zlen (got ++ d) <= n /\
  (plenty c -> waits c = ws -> (length (cscript c) < length ws)%nat -> zlen got < n -> n - zlen got <= zlen (cinput c) -> plenty c' /\ zlen (got ++ d) = n).
Proof.
  revert c got neg. induction ws as [|[hup|closed] ws IH]; intros c got neg Hs Hg; cbn [barrier].
  - exists (with_waits c (avail c) (event_hup c) []), [], neg. rewrite app_nil_r. split; [done|]. split; [by split|]. split; [done|]. cbn. lia.
  - set (c1 := with_waits c (avail c) (event_hup c || hup) ws). destruct (sys_recv_step c1 (n - zlen got) ltac:(lia) Hs) as (r & c2 & E & Ha & Hw & Hm & Hr & Hpl). rewrite E. cbn [mbind option_bind].
    assert (Forall sane (cscript c2)) as Hs2 by (by eapply moved_sane). apply moved_waits in Hm.
    assert (plenty c -> waits c = Ready hup :: ws -> (length (cscript c) < length (Ready hup :: ws))%nat -> zlen got < n -> n - zlen got <= zlen (cinput c) ->
      plenty c2 /\ waits c2 = ws /\ (length (cscript c2) < length ws)%nat /\ (r = inl EAGAIN \/ exists d, r = inr d /\ d <> [])) as Hgo.
    { intros Hp Ew Hl Hlt Hn. rewrite <- Ew in Hl. destruct (Hpl ltac:(lia) (plenty_event _ _ _ Hp Ew Hl)) as (Hp2 & Hl2 & Hc); [intros Ei; change (cinput c = []) in Ei; rewrite Ei in Hn; cbn in Hn; lia|].
      rewrite Hw in *. done. }
    destruct r as [e|d].
    + destruct Hr as [rc Erc]. rewrite Erc. cbn [mbind option_bind]. destruct (is_wait rc && negb (event_hup c2)) eqn:Ec.
      * destruct (IH c2 got true Hs2 Hg) as (c' & d & neg' & -> & Hm' & Hl' & Hp'). exists c', d, neg'. split; [done|]. split; [by apply (moved_trans _ _ _ [] _ Hm)|]. split; [done|].
        intros Hp Ew Hl Hlt Hn. destruct (Hgo Hp Ew Hl Hlt Hn) as (Hp2 & Ew2 & Hl2 & _). apply Hp'; try done. destruct Hm as [_ Hi _]. cbn in Hi. congruence.
      * exists c2, [], true. rewrite app_nil_r. split; [done|]. split; [done|]. split; [done|]. intros Hp Ew Hl Hlt Hn. destruct (Hgo Hp Ew Hl Hlt Hn) as (Hp2 & _ & _ & [[= ->]|(? & ? & _)]); [|done].
        injection Erc as <-. by rewrite (pl_hup _ Hp2) in Ec.
    + destruct d as [|x d].
      * exists c2, [], false. rewrite app_nil_r. split; [done|]. split; [done|]. split; [done|]. intros Hp Ew Hl Hlt Hn. by destruct (Hgo Hp Ew Hl Hlt Hn) as (_ & _ & _ & [?|(? & [= <-] & ?)]).
      * set (dx := x :: d) in *. assert (zlen (got ++ dx) <= n) as Hgd by (rewrite length_app; lia). destruct ((zlen (got ++ dx) <? n) && negb (event_hup c2)) eqn:Ec.
        -- destruct (IH c2 (got ++ dx) false Hs2 Hgd) as (c' & d' & neg' & -> & Hm' & Hl' & Hp'). exists c', (dx ++ d'), neg'. rewrite app_assoc. split; [done|].
           split; [by apply (moved_trans _ _ _ _ _ Hm)|]. split; [done|]. intros Hp Ew Hl Hlt Hn. destruct (Hgo Hp Ew Hl Hlt Hn) as (Hp2 & Ew2 & Hl2 & _).
           apply andb_true_iff in Ec as [?%Z.ltb_lt _]. apply Hp'; try done. destruct Hm as [_ Hi _]. rewrite <- Hi in Hn. rewrite length_app in *. lia.
        -- exists c2, dx, false. split; [done|]. split; [done|]. split; [done|]. intros Hp Ew Hl Hlt Hn. destruct (Hgo Hp Ew Hl Hlt Hn) as (Hp2 & _). split; [done|].
           rewrite (pl_hup _ Hp2), andb_true_r in Ec. apply Z.ltb_ge in Ec. lia.
  - exists (with_waits c (avail c && negb closed) (event_hup c) ws), [], neg. rewrite app_nil_r. split; [done|]. split; [by split|]. split; [done|]. intros [_ _ _ _ _ Hw _] Ew. rewrite Ew in Hw. by apply Forall_cons in Hw as [? _].
Qed.

Lemma wait_all_ok c n got : Forall sane (cscript c) -> zlen got <= n -> exists c' r d, wait_all c n got = Some (c', r) /\ default [] r = got ++ d /\ moved c c' d /\ zlen (got ++ d) <= n /\
  (plenty c -> (length (cscript c) < length (waits c))%nat -> zlen got < n -> n - zlen got <= zlen (cinput c) -> plenty c' /\ zlen (got ++ d) = n).
Proof.
  intros Hs Hg. unfold wait_all. assert (forall neg (l : list Z), default [] (if neg && bool_decide (l = []) then None else Some l) = l) as Hdef.
  { intros neg l. destruct neg, (bool_decide_reflect (l = [])); by subst. }
  destruct (kernel_nobufs c) eqn:En.
  - cbn [mbind option_bind]. eexists _, _, []. split; [done|]. rewrite app_nil_r, Hdef. split; [done|]. split; [by split|]. split; [done|]. intros []. congruence.
  - destruct (barrier_ok (waits c) c n got true Hs Hg) as (c' & d & neg & -> & Hm & Hl & Hp). cbn [mbind option_bind]. eexists _, _, d. split; [done|]. rewrite Hdef. split_and!; try done.
    intros Hpl Hlt. by apply Hp.
Qed.

Lemma recv_all_ok c n : 0 < n -> Forall sane (cscript c) -> exists c' r, recv_all c n = Some (c', r) /\ moved c c' (default [] r) /\ zlen (default [] r) <= n /\
  (plenty c -> n <= zlen (cinput c) -> plenty c' /\ exists d, r = Some d /\ zlen d = n).
Proof.
  intros Hn Hs. unfold recv_all. destruct (avail c) eqn:Ea; cbn [negb].
  2:{ exists c, None. split; [done|]. split; [by split|]. split; [cbn; lia|]. intros []. congruence. }
  destruct (sys_recv_step c n ltac:(lia) Hs) as (r & c1 & E & _ & _ & Hm & Hr & Hpl). rewrite E. cbn [mbind option_bind]. assert (Forall sane (cscript c1)) as Hs1 by by eapply moved_sane.
  assert (plenty c -> n <= zlen (cinput c) -> plenty c1 /\ (length (cscript c1) < length (waits c1))%nat /\ (r = inl EAGAIN \/ exists d, r = inr d /\ d <> [])) as Hgo.
  { intros Hp Hl. apply Hpl; [lia|done|]. intros Ei. rewrite Ei in Hl. cbn in Hl. lia. }
  assert (forall got, zlen got <= n -> moved c c1 got -> exists c' r, wait_all c1 n got = Some (c', r) /\ moved c c' (default [] r) /\ zlen (default [] r) <= n /\
    (plenty c1 -> (length (cscript c1) < length (waits c1))%nat -> zlen got < n -> n <= zlen (cinput c) -> plenty c' /\ exists d, r = Some d /\ zlen d = n)) as Hall.
  { intros got Hg Hmg. destruct (wait_all_ok c1 n got Hs1 Hg) as (c' & r' & d & -> & Er & Hm' & Hl' & Hp'). exists c', r'. split; [done|]. rewrite Er. split; [by apply (moved_trans _ _ _ _ _ Hmg)|].
    split; [done|]. intros Hp1 Hlt Hgn Hin. destruct Hp' as [Hpc Hd]; [done|done|done|destruct Hmg as [_ Hi _]; rewrite <- Hi, length_app in Hin; lia|]. split; [done|].
    destruct r' as [d'|]; cbn in Er; [subst; eauto|]. rewrite <- Er in Hd. cbn in Hd. lia. }
  destruct r as [e|d].
  - destruct Hr as [rc Erc]. rewrite Erc. cbn [mbind option_bind]. destruct (is_wait rc) eqn:Ew.
    + destruct (Hall [] ltac:(cbn; lia) Hm) as (c' & r' & -> & Hm' & Hl' & Hp'). exists c', r'. split_and!; try done. intros Hp Hin. destruct (Hgo Hp Hin) as (Hp1 & Hlt & _). by apply Hp'.
    + exists c1, None. split; [done|]. split; [done|]. split; [cbn; lia|]. intros Hp Hin. destruct (Hgo Hp Hin) as (_ & _ & [[= ->]|(? & ? & _)]); [|done]. by injection Erc as <-.
  - destruct (Z.eqb_spec (zlen d) 0) as [E0|E0]; [|destruct (Z.eqb_spec (zlen d) n) as [E1|E1]]; cbn [orb].
    + exists c1, (Some d). split; [done|]. split; [done|]. split; [done|]. intros Hp Hin. destruct (Hgo Hp Hin) as (_ & _ & [?|(? & [= <-] & ?)]); [done|]. by destruct d.
    + exists c1, (Some d). split; [done|]. split; [done|]. split; [done|]. intros Hp Hin. destruct (Hgo Hp Hin) as (Hp1 & _). eauto.
    + destruct (Hall d ltac:(lia) Hm) as (c' & r' & -> & Hm' & Hl' & Hp'). exists c', r'. split_and!; try done. intros Hp Hin. destruct (Hgo Hp Hin) as (Hp1 & Hlt & _). apply Hp'; try done. lia.
Qed.

(** ** Packets with a length *)

Section co_length.
Context `{Allocator} `{HeaderFunc} (max : Z).
Hypothesis Hmax : 0 <= max < 2 ^ 31.
Hypothesis Hheader : lf_header <= SW_BUFFER_SIZE_BIG.

(** The buffer when a packet is looked for; at [_get_length] there are bytes in it. *)
Record at_header (c : CoSock) (b : Str) (hl : Z) (get_length : bool) : Prop := {
  ah_buf : rbuf c = Some b;
  ah_wf : str_wf b;
  ah_off : soff b = 0;
  ah_size : lf_header <= ssize b;
  ah_len : slen b <= lf_header;
  ah_script : Forall sane (cscript c);
  ah_bytes : Forall byte (contents b ++ cinput c);
  ah_hl : hf_start <= hl <= lf_header;
  ah_label : if get_length then 0 < slen b /\ (slen b <= hl \/ hl = hf_start) else slen b <= hl;
}.

(** What a call with the result [r] leaves: a packet at the front of the buffer. *)
Record packet_out (b : Str) (c c' : CoSock) (r : Z) (b' : Str) : Prop := {
  po_buf : rbuf c' = Some b';
  po_wf : str_wf b';
  po_size : ssize b <= ssize b';
  po_script : Forall sane (cscript c');
  po_packet : 0 < r -> soff b' = r /\ r <= slen b' <= Z.max r lf_header /\ contents b' ++ cinput c' = contents b ++ cinput c /\
    next_frame max (contents b ++ cinput c) = Some (Z.to_nat r);
}.
Definition packet_result (b : Str) (c : CoSock) (strict : bool) (res : option (CoSock * Z)) : Prop :=
  exists c' r b', res = Some (c', r) /\ packet_out b c c' r b' /\
    (forall k, strict = true -> plenty c -> next_frame max (contents b ++ cinput c) = Some k -> plenty c' /\ 0 < r).

Lemma failed_out b c c' r b' : rbuf c' = Some b' -> str_wf b' -> ssize b <= ssize b' -> Forall sane (cscript c') -> r <= 0 -> packet_out b c c' r b'.
Proof. intros. split; try done. lia. Qed.

Lemma contents_frame b i k : str_wf b -> next_frame max (contents b ++ i) = Some k -> lf_get (contents b) = Some 0 -> Forall byte (contents b ++ i) -> i <> [] /\ slen b < lf_header.
Proof.
  intros Hwf (Hg & Hk & _)%next_frame_Some Hz Hb. split.
  - intros ->. rewrite app_nil_r in Hg. rewrite Hz in Hg. injection Hg as E. lia.
  - rewrite <- (contents_length b Hwf). destruct (decide (zlen (contents b) < lf_header)) as [|Hge]; [done|]. rewrite lf_enough, Hz in Hg by (done || lia). injection Hg as E. lia.
Qed.

(** The rest of a packet whose length is known. *)
Lemma body_ok c b hl r : at_header c b hl true -> lf_get (contents b) = Some r -> slen b < r <= max ->
  packet_result b c true (
    b ← (if ssize (with_offset b r) <? r then extend (with_offset b r) r else Some (with_offset b r));
    '(c, o) ← recv_all (with_rbuf c b) (r - slen b);
    match o with
    | None => Some (c, -1)
    | Some [] => Some (c, 0)
    | Some d => b ← store b d; Some (with_rbuf c b, if slen b =? r then r else 0)
    end).
Proof.
  intros [Eb Hwf Ho Hs Hl Hsc Hby Hhl Hlab] Hg Hr. pose proof lf_header_pos. assert (str_wf (with_offset b r)) as Hwf0 by (apply with_offset_wf; [done|lia]).
  destruct (extend_len max Hmax (with_offset b r) r Hwf0 ltac:(lia)) as (b1 & E1 & [Hwf1 Hc1 Hl1 Ho1] & Hs1 & Hs1'). rewrite E1. cbn [mbind option_bind].
  change (slen (with_offset b r)) with (slen b) in *. change (soff (with_offset b r)) with r in *. change (contents (with_offset b r)) with (contents b) in *. change (ssize (with_offset b r)) with (ssize b) in *.
  rewrite Hl1. destruct (recv_all_ok (with_rbuf c b1) (r - slen b) ltac:(lia) Hsc) as (c' & o & -> & Hm & Hz & Hp). cbn [mbind option_bind]. pose proof (moved_sane _ _ _ Hm Hsc) as Hsc'.
  pose proof (mv_input _ _ _ Hm) as Hi. change (cinput (with_rbuf c b1)) with (cinput c) in Hi. pose proof (contents_length b Hwf) as Hcl.
  assert (forall k, plenty c -> next_frame max (contents b ++ cinput c) = Some k -> plenty c' /\ exists d, o = Some d /\ zlen d = r - slen b) as Hgo.
  { intros k Hpl (Hgk & Hk & _)%next_frame_Some. assert (Z.of_nat k = r) as Ek by (rewrite (lf_stable _ (cinput c) r) in Hgk by (done || lia); congruence). rewrite length_app in Hk.
    destruct Hp as [Hpl' Hd]; [by destruct Hpl|cbn; lia|]. by split. }
  destruct o as [[|x d]|]; cbn [from_option] in Hm, Hz, Hi; unfold id in Hm, Hz, Hi.
  - exists c', 0, b1. split; [done|]. split; [apply failed_out; try done; apply Hm|]. intros k _ Hpl Hf. destruct (Hgo k Hpl Hf) as (_ & d' & [= <-] & Hd). cbn in Hd. lia.
  - cbn [mbind option_bind]. set (dx := x :: d) in *. destruct (store_ok b1 dx Hwf1 ltac:(lia)) as (b2 & -> & Hwf2 & Hc2 & Ho2 & Hl2 & Hs2). cbn [mbind option_bind]. eexists _, _, b2. split; [done|].
    assert (plenty c' -> plenty (with_rbuf c' b2)) as Hplb by by intros []. destruct (Z.eqb_spec (slen b2) r) as [E2|E2].
    + split; [|intros k _ Hpl Hf; split; [by apply Hplb, (Hgo k)|lia]]. split; cbn [rbuf with_rbuf cscript cinput]; try done; [lia|]. intros _. rewrite Hc2, Hc1. rewrite <- app_assoc, Hi.
      split; [congruence|]. split; [lia|]. split; [done|]. apply next_frame_Some. rewrite Z2Nat.id by lia. split; [by apply lf_stable; [|done|lia]|]. rewrite length_app.
      rewrite <- Hi, length_app in *. lia.
    + split; [apply failed_out; cbn [rbuf with_rbuf cscript]; done || lia|]. intros k _ Hpl Hf. destruct (Hgo k Hpl Hf) as (_ & d' & [= <-] & Hd). lia.
  - exists c', (-1), b1. split; [done|]. split; [apply failed_out; try done; apply Hm|]. intros k _ Hpl Hf. by destruct (Hgo k Hpl Hf) as (_ & d' & ? & Hd).
Qed.

Lemma header_store c b hl d c' b' : at_header c b hl false -> moved c c' d -> zlen d <= hl - slen b -> d <> [] -> store b d = Some b' ->
  str_wf b' -> contents b' = contents b ++ d -> soff b' = soff b -> slen b' = slen b + zlen d -> ssize b' = ssize b -> at_header (with_rbuf c' b') b' hl true.
Proof.
  intros [Eb Hwf Ho Hs Hl Hsc Hby Hhl Hlab] Hm Hz Hd _ Hwf' Hc' Ho' Hl' Hs'. pose proof (st_len _ Hwf). split; cbn [rbuf with_rbuf cscript cinput]; try done; try lia.
  - by eapply moved_sane.
  - rewrite Hc', <- app_assoc, (mv_input _ _ _ Hm). done.
  - destruct d; [done|cbn [length] in *; lia].
Qed.

Lemma length_packet_ok fuel c b hl gl : at_header c b hl gl -> (2 * length (cscript c) + (if gl then 2 else 1) < fuel)%nat ->
  (gl = false -> cinput c <> [] -> slen b < hl \/ ~ exists k, next_frame max (contents b ++ cinput c) = Some k) ->
  packet_result b c (gl || negb (bool_decide (cinput c = []))) (length_packet lf_get hf_need max fuel c hl gl).
Proof.
  revert c b hl gl. induction fuel as [|fuel IH]; intros c b hl gl Hat Hf Hstrict; [lia|]. pose proof Hat as [Eb Hwf Ho Hs Hl Hsc Hby Hhl Hlab]. cbn [length_packet]. rewrite Eb. cbn [mbind option_bind].
  pose proof (contents_length b Hwf) as Hcl. pose proof (st_len _ Hwf). pose proof lf_header_pos. unfold SW_BUFFER_SIZE_BIG in Hheader. destruct gl.
  - destruct Hlab as [Hpos Hlab]. rewrite (contents_sub b 0 (slen b)) by (done || lia). cbn [mbind option_bind]. change (Z.to_nat 0) with 0%nat. rewrite drop_0, take_ge by lia.
    assert (Forall byte (contents b)) as Hbc by by apply Forall_app in Hby as []. assert (contents b <> []) as Hne by (intros Hn; rewrite Hn in Hcl; cbn in Hcl; lia).
    destruct (lf_total (contents b) Hbc Hne) as [r Hr]. rewrite Hr. cbn [mbind option_bind]. destruct (Z.ltb_spec r 0).
    { exists c, 0, b. split; [done|]. split; [by apply failed_out|]. intros k _ _ (Hg & ? & _)%next_frame_Some. rewrite (lf_stable _ _ r) in Hg by (done || lia). injection Hg as ->. lia. }
    destruct (Z.eqb_spec r 0) as [->|].
    { destruct (hf_need_ok (contents b) Hbc Hne Hr ltac:(lia)) as (Hn1 & Hn2 & Hn3). rewrite Hcl in Hn2, Hn3. set (hl' := if hf_need (contents b) =? 0 then hl else hf_need (contents b)).
      assert (hf_start <= hl' <= lf_header /\ slen b <= hl' /\ (slen b < lf_header -> slen b < hl')) as (H1' & H2' & H3').
      { unfold hl'. destruct (hf_need (contents b) =? 0); [|done]. split_and!; lia. }
      destruct (IH c b hl' false) as (c' & r' & b' & E & Hout & Hgo); [by split|lia| |].
      { intros _ _. destruct (decide (slen b < lf_header)); [left; auto|right]. intros [k Hfr]. by destruct (contents_frame b (cinput c) k Hwf Hfr Hr Hby). }
      exists c', r', b'. split; [done|]. split; [done|]. intros k _ Hpl Hfr. apply (Hgo k); try done. cbn [orb]. case_bool_decide as Hi; [|done]. by destruct (contents_frame b (cinput c) k Hwf Hfr Hr Hby). }
    destruct (Z.ltb_spec max r).
    { exists (with_rbuf c (clear b)), (-1), (clear b). split; [done|]. split; [apply failed_out; try done; by apply clear_ok|]. intros k _ _ (Hg & _ & ?)%next_frame_Some. rewrite (lf_stable _ _ r) in Hg by (done || lia). injection Hg as ->. lia. }
    change (slen (with_offset b r)) with (slen b). destruct (Z.leb_spec r (slen b)).
    { exists (with_rbuf c (with_offset b r)), r, (with_offset b r). split; [done|]. split.
      - split; cbn [rbuf with_rbuf cscript cinput]; try done; [apply with_offset_wf; [done|lia]|]. intros _. change (contents (with_offset b r)) with (contents b). cbn [soff slen with_offset]. split_and!; try done; [lia|].
        apply next_frame_Some. rewrite length_app, Z2Nat.id by lia. split; [by apply lf_stable; [|done|lia]|]. lia.
      - intros k _ Hpl _. split; [by destruct Hpl|lia]. }
    by apply (body_ok c b hl r Hat Hr).
  - rewrite u64_id by lia. destruct (co_recv_ok c (hl - slen b) ltac:(lia) Hsc) as (c' & o & -> & Hm & Hz & Hd & Hp). cbn [mbind option_bind]. pose proof (moved_sane _ _ _ Hm Hsc) as Hsc'.
    assert (forall k, cinput c <> [] -> plenty c -> next_frame max (contents b ++ cinput c) = Some k -> plenty c' /\ exists d, o = Some d /\ d <> []) as Hgo.
    { intros k Hi Hpl Hfr. destruct Hp as [Hpl' Hex]; [destruct (Hstrict eq_refl Hi) as [|Hno]; [lia|]; destruct Hno; by exists k|done|]. split; [done|by apply Hex]. }
    destruct o as [[|x d]|]; cbn [from_option] in Hm, Hz, Hd; unfold id in Hm, Hz, Hd; cbn [orb].
    + exists c', 0, b. split; [done|]. split; [apply failed_out; try done; rewrite (mv_buf _ _ _ Hm); done|]. intros k Hb Hpl Hfr. case_bool_decide as Hi; [done|]. by destruct (Hgo k Hi Hpl Hfr) as (_ & d & [= <-] & ?).
    + set (dx := x :: d) in *. destruct (store_ok b dx Hwf ltac:(lia)) as (b' & Es & Hwf' & Hc' & Ho' & Hl' & Hs'). rewrite Es. cbn [mbind option_bind].
      assert (at_header (with_rbuf c' b') b' hl true) as Hat' by by apply (header_store c b hl dx). pose proof (Hd ltac:(done)).
      destruct (IH (with_rbuf c' b') b' hl true Hat') as (c2 & r & b2 & E & [Q1 Q2 Q3 Q4 Q5] & Hg2); [cbn [cscript with_rbuf]; lia|done|]. exists c2, r, b2. split; [done|].
      assert (contents b' ++ cinput (with_rbuf c' b') = contents b ++ cinput c) as Est by (cbn [cinput with_rbuf]; rewrite Hc', <- app_assoc, (mv_input _ _ _ Hm); done). rewrite Est in *.
      split; [split; try done; lia|]. intros k Hb Hpl Hfr. case_bool_decide as Hi; [done|]. apply (Hg2 k); [done| |done]. destruct (Hgo k Hi Hpl Hfr) as [Hpl' _]. by destruct Hpl'.
    + exists c', (-1), b. split; [done|]. split; [apply failed_out; try done; rewrite (mv_buf _ _ _ Hm); done|]. intros k Hb Hpl Hfr. case_bool_decide as Hi; [done|]. by destruct (Hgo k Hi Hpl Hfr) as (_ & d & ? & ?).
Qed.
End co_length.

(** *** Between the calls *)

(** What the program can still read of the buffer. *)
Definition buffered (c : CoSock) : list Z := match rbuf c with Some b => drop (Z.to_nat (soff b)) (contents b) | None => [] end.

Definition MAX_BUFFER : Z := 2 ^ 31.
Record waiting (c : CoSock) (R : list Z) : Prop := {
  wa_buf b : rbuf c = Some b -> str_wf b /\ SW_BUFFER_SIZE_BIG <= ssize b /\ 0 <= soff b <= slen b /\ slen b <= MAX_BUFFER;
  wa_rest : buffered c ++ cinput c = R;
  wa_bytes : Forall byte R;
  wa_script : Forall sane (cscript c);
}.

Lemma aligned8_small n : 0 <= n <= MAX_BUFFER -> aligned8 n <= MAX_BUFFER.
Proof.
  unfold MAX_BUFFER. intros Hn. destruct (aligned8_spec n) as [Hd Hb]. destruct (decide (aligned8 n <= 2 ^ 31)) as [|Hgt]; [done|]. exfalso. destruct Hb as [q Eq]. rewrite Eq in *. change (2 ^ 31) with (268435456 * 8) in *. lia.
Qed.

Section between.
Context `{Allocator}.

Lemma new_co_waiting st sc ws : Forall byte st -> Forall sane sc -> waiting (new_co st sc ws) st.
Proof. intros. by split. Qed.

Lemma get_buffer_ok c R : waiting c R -> exists b, get_read_buffer c = (with_rbuf c b, b) /\ str_wf b /\ SW_BUFFER_SIZE_BIG <= ssize b /\ 0 <= soff b <= slen b /\
  slen b <= MAX_BUFFER /\ drop (Z.to_nat (soff b)) (contents b) = buffered c.
Proof.
  intros Hw. unfold get_read_buffer, buffered. destruct (rbuf c) as [b|] eqn:Eb.
  - exists b. destruct (wa_buf _ _ Hw b Eb) as (? & ? & ? & ?). split; [destruct c; cbn in *; by subst|]. split_and!; done || lia.
  - destruct (alloc_wf SW_BUFFER_SIZE_BIG) as (Hwf & Hc & Hs); [done|]. eexists. split; [done|]. by split_and!.
Qed.

Lemma front_ok c R : waiting c R -> exists b0 b, get_read_buffer c = (with_rbuf c b0, b0) /\ (if 0 <? soff b0 then reduce b0 (soff b0) else Some b0) = Some b /\
  str_wf b /\ soff b = 0 /\ SW_BUFFER_SIZE_BIG <= ssize b /\ ssize b = ssize b0 /\ slen b <= MAX_BUFFER /\ contents b = buffered c.
Proof.
  intros Hw. destruct (get_buffer_ok c R Hw) as (b0 & E & Hwf & Hs & Ho & Hl & Hc). exists b0. destruct (Z.ltb_spec 0 (soff b0)).
  - destruct (reduce_ok b0 (soff b0) Hwf ltac:(lia)) as (b & Er & Hwf' & Hc' & Hs' & Ho' & Hl'). exists b. destruct (Z.eqb_spec (soff b0) 0); [lia|]. split_and!; try done; try lia. congruence.
  - exists b0. assert (soff b0 = 0) as E0 by lia. split_and!; try done. rewrite <- Hc, E0. done.
Qed.

Lemma pop_size b n m b' : 0 < n -> 0 <= soff b -> slen b <= MAX_BUFFER -> n <= MAX_BUFFER -> pop b n = Some (m, b') -> n <= ssize b' <= MAX_BUFFER /\ slen b' = slen b - soff b.
Proof.
  unfold MAX_BUFFER, pop. intros Hn Ho Hl Hm. destruct (Z.ltb_spec (slen b) (soff b)); [done|]. destruct (negb (sallocator b)); [done|].
  set (k := if slen b - soff b =? 0 then n else Z.max (slen b - soff b) n). intros E. destruct (if 0 <? slen b - soff b then _ else _) as [m'|]; [|done]. injection E as _ <-. cbn.
  assert (n <= k <= 2 ^ 31) as Hk by (unfold k; destruct (Z.eqb_spec (slen b - soff b) 0); lia). destruct (aligned_bound k) as (-> & ? & _); [unfold max_len; lia|].
  pose proof (aligned8_small k ltac:(unfold MAX_BUFFER; lia)). unfold MAX_BUFFER in *. lia.
Qed.

(** The program takes the packet that a call of [recv_packet] has found. *)
Lemma take_packet_ok c b r pop_ : rbuf c = Some b -> str_wf b -> SW_BUFFER_SIZE_BIG <= ssize b -> soff b = r -> 0 < r <= slen b -> slen b <= MAX_BUFFER ->
  exists c', take_packet c r pop_ = Some (c', take (Z.to_nat r) (contents b)) /\ buffered c' = drop (Z.to_nat r) (contents b) /\ (plenty c -> plenty c') /\
    cinput c' = cinput c /\ cscript c' = cscript c /\
    forall b', rbuf c' = Some b' -> str_wf b' /\ SW_BUFFER_SIZE_BIG <= ssize b' /\ (ssize b <= MAX_BUFFER -> ssize b' <= MAX_BUFFER) /\ 0 <= soff b' <= slen b' /\ slen b' <= MAX_BUFFER.
Proof.
  intros Eb Hwf Hs Ho Hr Hl. unfold take_packet. rewrite Eb. cbn [mbind option_bind]. assert (zsub (mem b) 0 r = Some (take (Z.to_nat r) (contents b))) as Hsub by (rewrite (contents_sub b 0 r) by (done || lia); done).
  destruct pop_.
  - unfold SW_BUFFER_SIZE_BIG in *. destruct (pop_ok b 65536 Hwf) as (b' & E & Hwf' & Hc & Ho' & Hpos); [lia|lia|unfold max_len, MAX_BUFFER in *; lia|done|]. rewrite E. cbn [mbind option_bind]. rewrite Hsub. cbn [mbind option_bind].
    destruct (pop_size b 65536 _ _ ltac:(lia) ltac:(lia) Hl ltac:(done) E) as [Hsz Hlen]. eexists. split; [done|]. split; [unfold buffered; cbn; rewrite Ho', Hc, Ho; done|]. split; [by intros []|]. do 2 (split; [done|]). cbn. intros ? [= <-]. split_and!; done || lia.
  - rewrite Hsub. cbn [mbind option_bind]. exists c. split; [done|]. split; [unfold buffered; rewrite Eb, Ho; done|]. do 3 (split; [done|]). rewrite Eb. intros ? [= <-]. split_and!; done || lia.
Qed.
End between.

(** *** The packets of a stream *)

Section co_length_run.
Context `{Allocator} `{HeaderFunc} (max : Z).
Hypothesis Hmax : 0 <= max < 2 ^ 31.
Hypothesis Hheader : lf_header <= SW_BUFFER_SIZE_BIG.

Lemma length_step c R pop_ : waiting c R -> zlen (buffered c) < lf_header -> exists c' d, co_step hf_start hf_custom lf_get hf_need max MLength c (CPacket pop_) = Some (c', d) /\
  (d <> [] -> waiting c' (drop (length d) R) /\ zlen (buffered c') < lf_header /\ next_frame max R = Some (length d) /\ d = take (length d) R) /\
  (forall k, plenty c -> next_frame max R = Some k -> hf_custom = true \/ hf_start <= Z.of_nat k -> plenty c' /\ d <> []).
Proof.
  intros Hw Hlen. pose proof hf_start_ok. cbn [co_step]. unfold recv_packet. destruct (avail c) eqn:Ea; cbn [negb].
  2:{ cbn [mbind option_bind]. exists c, []. split; [done|]. split; [done|]. intros k []. congruence. }
  destruct (front_ok c R Hw) as (b0 & b & -> & -> & Hwf & Ho & Hs & _ & Hl & Hc). cbn [mbind option_bind]. change (with_rbuf (with_rbuf c b0) b) with (with_rbuf c b).
  unfold recv_packet_with_length_protocol. cbn [rbuf with_rbuf mbind option_bind]. pose proof (contents_length b Hwf) as Hcl. rewrite Hc in Hcl. pose proof (wa_rest _ _ Hw) as HR. pose proof (wa_bytes _ _ Hw) as HB.
  set (gl := (0 <? slen b) && ((hf_start <=? slen b) || hf_custom)). set (c1 := with_rbuf c b). unfold SW_BUFFER_SIZE_BIG, MAX_BUFFER in *.
  assert (at_header c1 b hf_start gl) as Hat.
  { split; cbn; try done; try lia; [apply Hw|rewrite Hc; by subst R|]. unfold gl. destruct (Z.ltb_spec 0 (slen b)), (Z.leb_spec hf_start (slen b)), hf_custom; cbn; lia. }
  destruct (length_packet_ok max Hmax Hheader (2 * length (cscript c1) + 3) c1 b hf_start gl Hat) as (c2 & r & b2 & -> & [Q1 Q2 Q3 Q4 Q5] & Hgo).
  { destruct gl; lia. }
  { intros Eg _. left. unfold gl in Eg. destruct (Z.ltb_spec 0 (slen b)), (Z.leb_spec hf_start (slen b)), hf_custom; cbn in Eg; done || lia. }
  cbn [mbind option_bind]. rewrite Q1. cbn [mbind option_bind]. change (cinput c1) with (cinput c) in *. rewrite Hc, HR in *.
  assert (forall k, plenty c -> next_frame max R = Some k -> hf_custom = true \/ hf_start <= Z.of_nat k -> plenty c2 /\ 0 < r) as Hprog.
  { intros k Hp Hf Hk. apply (Hgo k); [|by destruct Hp|done]. destruct gl eqn:Eg; [done|]. cbn [orb]. case_bool_decide as Ei; [|done]. exfalso.
    apply next_frame_Some in Hf as (_ & Hkl & _). rewrite <- HR, Ei, app_nil_r in Hkl. unfold gl in Eg. destruct (Z.ltb_spec 0 (slen b)), (Z.leb_spec hf_start (slen b)), hf_custom; cbn in Eg; done || lia. }
  destruct (Z.leb_spec r 0).
  { eexists _, []. destruct (Z.leb_spec r 0); [|lia]. split; [done|]. split; [done|]. intros k Hp Hf Hk. destruct (Hprog k Hp Hf Hk). lia. }
  destruct (Z.leb_spec r 0); [lia|]. destruct (Q5 ltac:(lia)) as (Qo & Ql & Qs & Qf). pose proof (proj1 (next_frame_Some _ _ _) Qf) as (_ & _ & Hrm). destruct (take_packet_ok c2 b2 r pop_ Q1 Q2) as (c3 & -> & Hb3 & Hp3 & Hi3 & Hs3 & Hw3); [unfold SW_BUFFER_SIZE_BIG; lia|done|lia|unfold MAX_BUFFER; lia|].
  pose proof (contents_length b2 Q2) as Hcl2. assert (length (take (Z.to_nat r) (contents b2)) = Z.to_nat r) as Hlr by (rewrite length_take; lia). exists c3, (take (Z.to_nat r) (contents b2)). split; [done|]. rewrite Hlr. split.
  - intros _. split_and!; try done.
    + split; [|rewrite Hb3, Hi3, <- Qs; by rewrite drop_app_le by lia|by apply Forall_drop|by rewrite Hs3]. intros b' Eb'. by destruct (Hw3 b' Eb') as (? & ? & _ & ? & ?).
    + rewrite Hb3, length_drop. lia.
    + rewrite <- Qs. by rewrite take_app_le by lia.
  - intros k Hp Hf Hk. split; [by apply Hp3, (Hprog k)|]. intros E. rewrite E in Hlr. cbn in Hlr. lia.
Qed.

Lemma length_run_ok c R pops : waiting c R -> zlen (buffered c) < lf_header -> exists c' ps, co_run hf_start hf_custom lf_get hf_need max MLength c (CPacket <$> pops) = Some (c', ps) /\
  ps `prefix_of` (len_frames max R).1 /\
  (plenty c -> Forall (fun p => hf_custom = true \/ hf_start <= zlen p) (len_frames max R).1 -> ps = take (length pops) (len_frames max R).1).
Proof.
  revert c R. induction pops as [|pop_ pops IH]; intros c R Hw Hl; cbn [co_run fmap list_fmap].
  { exists c, []. split; [done|]. split; [apply prefix_nil|done]. }
  destruct (length_step c R pop_ Hw Hl) as (c1 & d & -> & Hd & Hp). cbn [mbind option_bind]. case_decide as E.
  - exists c1, []. split; [done|]. split; [apply prefix_nil|]. intros Hpl Hfr. cbn [length]. rewrite len_frames_eq in *. destruct (next_frame max R) as [k|] eqn:Ef; [|done].
    cbn [fst] in Hfr. apply Forall_cons in Hfr as [Hk _]. apply next_frame_Some in Ef as (_ & ? & _). rewrite length_take in Hk. by destruct (Hp k Hpl eq_refl ltac:(destruct Hk; [by left|right; lia])).
  - destruct (Hd E) as (Hw1 & Hl1 & Hf & Ed). destruct (IH c1 (drop (length d) R) Hw1 Hl1) as (c2 & ps & -> & Hpre & Hall). cbn [mbind option_bind]. exists c2, (d :: ps). split; [done|].
    rewrite (len_frames_cut _ _ _ Hf). cbn [fst]. rewrite <- Ed. split; [by apply prefix_cons|]. intros Hpl [Hk Hfr]%Forall_cons. cbn [length take]. f_equal. apply Hall; [|done]. by apply (Hp (length d)).
Qed.
End co_length_run.

(** ** Packets with an end mark, and reading through the buffer *)

Lemma reserve_size `{Allocator} b n b' : reserve b n = Some b' -> ssize b' = u64 (aligned8 n).
Proof. unfold reserve. destruct (ssize b =? 0); [by intros [= <-]|]. destruct (negb (sallocator b)); [done|]. by intros [= <-]. Qed.

Section co_eof.
Context `{Allocator} (eof : list Z) (max : Z).
Hypothesis Heof : 1 <= zlen eof <= 8.
Hypothesis Hmax : 0 < max <= MAX_BUFFER.

Record at_mark (c : CoSock) (b : Str) : Prop := {
  am_buf : rbuf c = Some b;
  am_wf : str_wf b;
  am_off : soff b = 0;
  am_size : SW_BUFFER_SIZE_BIG <= ssize b <= MAX_BUFFER;
  am_script : Forall sane (cscript c);
}.
Record mark_out (b : Str) (c c' : CoSock) (r : Z) (b' : Str) : Prop := {
  mo_buf : rbuf c' = Some b';
  mo_wf : str_wf b';
  mo_size : SW_BUFFER_SIZE_BIG <= ssize b' <= MAX_BUFFER;
  mo_script : Forall sane (cscript c');
  mo_packet : 0 < r -> soff b' = r /\ r <= slen b' /\ contents b' ++ cinput c' = contents b ++ cinput c /\
    exists i, find eof (contents b ++ cinput c) = Some i /\ r = Z.of_nat i + zlen eof;
}.
Definition mark_result (b : Str) (c : CoSock) (res : option (CoSock * Z)) : Prop :=
  exists c' r b', res = Some (c', r) /\ mark_out b c c' r b' /\
    (plenty c -> 0 < r -> plenty c') /\ (forall i, plenty c -> find eof (contents b ++ cinput c) = Some i -> Z.of_nat i + zlen eof <= max -> 0 < r).

Lemma mark_failed b c c' r b' : rbuf c' = Some b' -> str_wf b' -> SW_BUFFER_SIZE_BIG <= ssize b' <= MAX_BUFFER -> Forall sane (cscript c') -> r <= 0 -> mark_out b c c' r b'.
Proof. intros. split; try done. lia. Qed.

Lemma eof_cons : eof <> [].
Proof. intros ->. cbn in Heof. lia. Qed.

(** A mark that is not in the buffer ends behind it. *)
Lemma mark_behind b i k : str_wf b -> find eof (contents b) = None -> find eof (contents b ++ i) = Some k -> i <> [] /\ slen b < Z.of_nat k + zlen eof.
Proof.
  intros Hwf Hn Hf. split; [intros ->; rewrite app_nil_r in Hf; congruence|]. apply find_Some in Hf as [Hm _]. pose proof (find_tail _ _ _ _ Hn Hm eof_cons). rewrite <- (contents_length b Hwf). lia.
Qed.

Lemma grow_ok b : str_wf b -> SW_BUFFER_SIZE_BIG <= ssize b <= MAX_BUFFER -> soff b = 0 ->
  exists b', (if (slen b =? ssize b) && (ssize b <? max) then extend b (Z.min (ssize b * 2) max) else Some b) = Some b' /\ resized b b' /\
    SW_BUFFER_SIZE_BIG <= ssize b' <= MAX_BUFFER /\ (slen b' < ssize b' \/ max <= slen b').
Proof.
  intros Hwf Hs Ho. pose proof (st_len _ Hwf). unfold SW_BUFFER_SIZE_BIG, MAX_BUFFER in *. destruct (Z.eqb_spec (slen b) (ssize b)), (Z.ltb_spec (ssize b) max); cbn [andb].
  - unfold extend. destruct (Z.ltb_spec (ssize b) (Z.min (ssize b * 2) max)); [|lia]. destruct (reserve_ok b (Z.min (ssize b * 2) max) Hwf) as (b' & E & Hr & Hn); [lia|unfold max_len; lia|]. exists b'. split; [done|]. split; [done|].
    destruct (aligned_bound (Z.min (ssize b * 2) max)) as (Ea & _); [unfold max_len; lia|]. pose proof (reserve_size _ _ _ E) as Es. rewrite Ea in Es. pose proof (aligned8_small (Z.min (ssize b * 2) max)) as Hsm. unfold MAX_BUFFER in Hsm.
    pose proof (rz_len _ _ Hr). lia.
  - exists b. split; [done|]. split; [by apply resized_refl|]. lia.
  - exists b. split; [done|]. split; [by apply resized_refl|]. lia.
  - exists b. split; [done|]. split; [by apply resized_refl|]. lia.
Qed.

Lemma eof_packet_ok fuel c b (search : bool) : at_mark c b -> (2 * length (cscript c) + (if search then 2 else 1) < fuel)%nat ->
  (search = false -> find eof (contents b) = None /\ (slen b < ssize b \/ max <= slen b)) -> mark_result b c (eof_packet fuel eof max c search).
Proof.
  revert c b search. induction fuel as [|fuel IH]; intros c b search Hat Hf Hnone; [lia|]. pose proof Hat as [Eb Hwf Ho Hs Hsc]. cbn [eof_packet]. rewrite Eb. cbn [mbind option_bind].
  pose proof (contents_length b Hwf) as Hcl. pose proof (st_len _ Hwf) as Hsl. unfold SW_BUFFER_SIZE_BIG, MAX_BUFFER in *. destruct search.
  - pose proof (strnstr_spec b 0 eof Hwf ltac:(lia) ltac:(lia) ltac:(lia)) as Hstr. rewrite Z.sub_0_r in Hstr. rewrite Hstr. change (Z.to_nat 0) with 0%nat. rewrite drop_0. cbn [mbind option_bind].
    destruct (find eof (contents b)) as [i|] eqn:Ef; cbn [fmap option_fmap option_map].
    + pose proof (find_app _ _ (cinput c) _ eof_cons Ef) as Ef'. pose proof (find_Some _ _ _ Ef) as [Hm _]. destruct (match_at_length _ _ _ Hm) as [Hle|]; [|by destruct eof_cons]. rewrite Z.add_0_l.
      exists (with_rbuf c (with_offset b (Z.of_nat i + zlen eof))), (Z.of_nat i + zlen eof), (with_offset b (Z.of_nat i + zlen eof)). split; [done|]. split.
      * split; cbn [rbuf with_rbuf cscript cinput]; try done; [apply with_offset_wf; [done|lia]|]. intros _. cbn [soff slen with_offset]. split; [done|]. split; [lia|]. split; [done|]. by exists i.
      * split; [intros Hp _; by destruct Hp|intros; lia].
    + destruct (Z.eqb_spec (slen b) max) as [Em|Em].
      * exists (with_rbuf c (clear b)), (-1), (clear b). split; [done|]. split; [apply mark_failed; try done; by apply clear_ok|]. split; [lia|]. intros i _ Hi Hle. pose proof (mark_behind b (cinput c) i Hwf Ef Hi). lia.
      * destruct (grow_ok b Hwf Hs Ho) as (b' & -> & [Hwf' Hc' Hl' Ho'] & Hs' & Hroom). cbn [mbind option_bind].
        destruct (IH (with_rbuf c b') b' false) as (c2 & r & b2 & E & [Q1 Q2 Q3 Q4 Q5] & Hgp & Hgo); [split; try done; congruence|cbn [cscript with_rbuf]; lia|intros _; rewrite Hc'; split; [done|lia]|].
        rewrite Hc' in *. change (cinput (with_rbuf c b')) with (cinput c) in *. assert (plenty c -> plenty (with_rbuf c b')) as Hpb by by intros []. exists c2, r, b2. split; [done|]. split; [by split|]. split; [auto|]. intros i Hp. by apply Hgo, Hpb.
  - destruct (Hnone eq_refl) as [Ef Hroom]. destruct (co_recv_ok c (Z.min (ssize b - slen b) 65536) ltac:(lia) Hsc) as (c' & o & -> & Hm & Hz & Hd & Hp). cbn [mbind option_bind]. pose proof (moved_sane _ _ _ Hm Hsc) as Hsc'.
    assert (forall i, plenty c -> find eof (contents b ++ cinput c) = Some i -> Z.of_nat i + zlen eof <= max -> plenty c' /\ exists d, o = Some d /\ d <> []) as Hgo.
    { intros i Hpl Hi Hle. destruct (mark_behind b (cinput c) i Hwf Ef Hi) as [Hne Hlt]. destruct Hp as [Hpl' Hex]; [lia|done|]. split; [done|by apply Hex]. }
    destruct o as [[|x d]|]; cbn [from_option] in Hm, Hz, Hd; unfold id in Hm, Hz, Hd.
    + exists (with_rbuf c' (clear b)), 0, (clear b). split; [done|]. split; [apply mark_failed; try done; by apply clear_ok|]. split; [lia|]. intros i Hpl Hi Hle. by destruct (Hgo i Hpl Hi Hle) as (_ & d & [= <-] & ?).
    + set (dx := x :: d) in *. destruct (store_ok b dx Hwf ltac:(lia)) as (b' & Es & Hwf' & Hc' & Ho' & Hl' & Hs'). rewrite Es. cbn [mbind option_bind]. pose proof (Hd ltac:(done)).
      destruct (IH (with_rbuf c' b') b' (zlen eof <=? slen b')) as (c2 & r & b2 & E & [Q1 Q2 Q3 Q4 Q5] & Hgp & Hg2); [split; cbn [rbuf with_rbuf cscript]; unfold SW_BUFFER_SIZE_BIG, MAX_BUFFER; done || lia|cbn [cscript with_rbuf]; destruct (zlen eof <=? slen b'); lia| |].
      { intros Hsh%Z.leb_gt. pose proof (contents_length b' Hwf'). split; [apply find_short; lia|lia]. }
      assert (contents b' ++ cinput (with_rbuf c' b') = contents b ++ cinput c) as Est by (cbn [cinput with_rbuf]; rewrite Hc', <- app_assoc, (mv_input _ _ _ Hm); done). rewrite Est in *.
      assert (plenty c -> plenty (with_rbuf c' b')) as Hpb by (intros Hpl; destruct Hp as [[] _]; [unfold dx in Hz; cbn [length] in Hz; lia|done|by split]).
      exists c2, r, b2. split; [done|]. split; [by split|]. split; [auto|]. intros i Hpl Hi Hle. apply (Hg2 i); auto.
    + exists (with_rbuf c' (clear b)), (-1), (clear b). split; [done|]. split; [apply mark_failed; try done; by apply clear_ok|]. split; [lia|]. intros i Hpl Hi Hle. by destruct (Hgo i Hpl Hi Hle) as (_ & d & ? & ?).
Qed.

(** The state between two calls in this mode. *)
Record reading (c : CoSock) (R : list Z) : Prop := {
  rd_waiting : waiting c R;
  rd_small b : rbuf c = Some b -> ssize b <= MAX_BUFFER;
}.

Lemma reading_intro c b R : rbuf c = Some b -> str_wf b -> SW_BUFFER_SIZE_BIG <= ssize b <= MAX_BUFFER -> 0 <= soff b <= slen b ->
  drop (Z.to_nat (soff b)) (contents b) ++ cinput c = R -> Forall byte R -> Forall sane (cscript c) -> reading c R.
Proof.
  intros Eb Hwf Hs Ho HR HB Hsc. pose proof (st_len _ Hwf). split; [split; try done|]; [|unfold buffered; by rewrite Eb|]; rewrite Eb; intros ? [= <-]; [|lia]. split_and!; done || lia.
Qed.

Lemma get_reading c R : reading c R -> exists b, get_read_buffer c = (with_rbuf c b, b) /\ str_wf b /\ SW_BUFFER_SIZE_BIG <= ssize b <= MAX_BUFFER /\ 0 <= soff b <= slen b /\
  drop (Z.to_nat (soff b)) (contents b) ++ cinput c = R.
Proof.
  intros [Hw Hsm]. destruct (get_buffer_ok c R Hw) as (b & E & Hwf & Hs & Ho & Hl & Hb). exists b. split_and!; try done; try lia; [|rewrite Hb; apply Hw].
  unfold get_read_buffer in E. destruct (rbuf c) as [b'|]; [injection E as _ ->; by apply Hsm|]. injection E as <-. unfold SW_BUFFER_SIZE_BIG. cbn. unfold uN, aligned8. vm_compute. done.
Qed.

(** The buffer behind the bytes that were in it, with room for more. *)
Lemma make_room b : str_wf b -> SW_BUFFER_SIZE_BIG <= ssize b -> 0 <= soff b <= slen b ->
  let b1 := if 0 <? slen b - soff b then with_offset b (soff b + (slen b - soff b)) else b in
  exists b2, (if ssize b1 / 2 <=? soff b1 then reduce b1 (soff b1) else Some b1) = Some b2 /\ str_wf b2 /\ ssize b2 = ssize b /\ soff b2 = slen b2 /\ slen b2 < ssize b2.
Proof.
  intros Hwf Hs Ho b1. unfold SW_BUFFER_SIZE_BIG in *. assert (str_wf b1 /\ soff b1 = slen b /\ slen b1 = slen b /\ ssize b1 = ssize b) as (Hwf1 & Ho1 & Hl1 & Hs1).
  { unfold b1. destruct (Z.ltb_spec 0 (slen b - soff b)); [|split_and!; done || lia]. cbn. split_and!; try done; [apply with_offset_wf; [done|lia]|lia]. }
  pose proof (st_len _ Hwf). rewrite Ho1, Hs1. destruct (Z.leb_spec (ssize b / 2) (slen b)).
  - destruct (reduce_ok b1 (slen b) Hwf1 ltac:(lia)) as (b2 & -> & Hwf2 & Hc2 & Hs2 & Ho2 & Hl2). exists b2. assert (0 < slen b) by (apply Z.lt_le_trans with (ssize b / 2); [apply Z.div_str_pos; lia|done]).
    destruct (Z.eqb_spec (slen b) 0); [lia|]. split_and!; done || lia.
  - exists b1. split_and!; try done; [lia|]. pose proof (Z.div_lt_upper_bound (ssize b) 2 (ssize b) ltac:(lia) ltac:(lia)). lia.
Qed.

Lemma recv_with_buffer_ok c R n : 0 < n -> reading c R -> exists c' r, recv_with_buffer c n = Some (c', r) /\ zlen (default [] r) <= n /\ default [] r `prefix_of` R /\
  reading c' (drop (length (default [] r)) R) /\ (plenty c -> plenty c' /\ (R <> [] -> default [] r <> [])).
Proof.
  intros Hn Hrd. unfold recv_with_buffer. destruct (avail c) eqn:Ea; cbn [negb].
  2:{ exists c, None. split; [done|]. split; [cbn; lia|]. split; [apply prefix_nil|]. split; [done|]. intros []. congruence. }
  destruct (get_reading c R Hrd) as (b & -> & Hwf & Hs & Ho & HR). pose proof (st_len _ Hwf) as Hsl. pose proof (contents_length b Hwf) as Hcl. unfold SW_BUFFER_SIZE_BIG, MAX_BUFFER in *.
  assert (Forall byte R) as HB by apply Hrd. assert (Forall sane (cscript c)) as Hsc by apply Hrd. rewrite u64_id by lia. set (o := Z.to_nat (soff b)) in *.
  destruct (Z.leb_spec n (slen b - soff b)).
  - rewrite (contents_sub b (soff b) n) by (done || lia). cbn [mbind option_bind]. fold o. eexists _, _. split; [done|]. cbn [from_option id].
    assert (length (take (Z.to_nat n) (drop o (contents b))) = Z.to_nat n) as Hl by (rewrite length_take, length_drop; lia). rewrite Hl. split; [lia|]. split; [rewrite <- HR; apply prefix_app_r, prefix_take|]. split.
    + apply (reading_intro _ (with_offset b (soff b + n))); try done; [apply with_offset_wf; [done|lia]|cbn; lia| |by apply Forall_drop]. cbn [soff with_offset cinput with_rbuf]. change (contents (with_offset b (soff b + n))) with (contents b).
      rewrite <- HR, drop_app_le by (rewrite length_drop; lia). rewrite drop_drop. do 2 f_equal. lia.
    + intros Hp. split; [by destruct Hp|]. intros _ E. rewrite E in Hl. cbn in Hl. lia.
  - set (d0 := drop o (contents b)) in *. assert (zlen d0 = slen b - soff b) as Hd0 by (unfold d0; rewrite length_drop; lia).
    assert ((if 0 <? slen b - soff b then zsub (mem b) (soff b) (slen b - soff b) else Some []) = Some d0) as ->.
    { destruct (Z.ltb_spec 0 (slen b - soff b)); [rewrite contents_sub by (done || lia); fold o; fold d0; by rewrite take_ge by lia|]. destruct d0; [done|cbn [length] in Hd0; lia]. }
    cbn [mbind option_bind]. destruct (make_room b Hwf ltac:(unfold SW_BUFFER_SIZE_BIG; lia) Ho) as (b2 & E2 & Hwf2 & Hs2 & Ho2 & Hl2). rewrite E2. cbn [mbind option_bind].
    change (with_rbuf (with_rbuf c b) b2) with (with_rbuf c b2). pose proof (st_len _ Hwf2). pose proof (contents_length b2 Hwf2) as Hcl2.
    destruct (co_recv_ok (with_rbuf c b2) (ssize b2 - slen b2) ltac:(lia) Hsc) as (c' & r & -> & Hm & Hz & _ & Hp). cbn [mbind option_bind]. pose proof (moved_sane _ _ _ Hm Hsc) as Hsc'.
    pose proof (mv_input _ _ _ Hm) as Hi. change (cinput (with_rbuf c b2)) with (cinput c) in *. assert (plenty c -> plenty (with_rbuf c b2)) as Hpb by by intros [].
    assert (default [] r = [] -> exists c1 r1, (Some (c', if 0 <? slen b - soff b then Some d0 else r) = Some (c1, r1)) /\ zlen (default [] r1) <= n /\ default [] r1 `prefix_of` R /\
      reading c1 (drop (length (default [] r1)) R) /\ (plenty c -> plenty c1 /\ (R <> [] -> default [] r1 <> []))) as Hnone.
    { intros Er. rewrite Er in Hi. cbn [app] in Hi. assert (default [] (if 0 <? slen b - soff b then Some d0 else r) = d0) as Ed.
      { destruct (Z.ltb_spec 0 (slen b - soff b)); [done|]. rewrite Er. destruct d0; [done|cbn [length] in Hd0; lia]. }
      eexists _, _. split; [done|]. rewrite Ed. split; [lia|]. rewrite <- HR. split; [by apply prefix_app_r|]. rewrite drop_app_length. split.
      - apply (reading_intro _ b2); try done; [apply Hm|unfold SW_BUFFER_SIZE_BIG, MAX_BUFFER; lia|lia|rewrite drop_ge by lia; by rewrite Hi|]. rewrite <- HR in HB. by apply Forall_app in HB as [].
      - intros Hpl. destruct Hp as [Hpl' Hex]; [lia|by apply Hpb|]. split; [done|]. intros Hne Hd. destruct Hex as (d & -> & Hd'); [|done]. by rewrite Hd in Hne. }
    destruct r as [[|x d]|]; [by apply Hnone| |by apply Hnone]. clear Hnone. cbn [from_option] in Hm, Hz, Hi. unfold id in Hm, Hz, Hi. set (dx := x :: d) in *.
    destruct (store_ok b2 dx Hwf2 ltac:(lia)) as (b3 & -> & Hwf3 & Hc3 & Ho3 & Hl3 & Hs3). cbn [mbind option_bind]. replace (slen b3 - soff b3) with (zlen dx) by lia. set (k := Z.min (n - (slen b - soff b)) (zlen dx)).
    assert (drop (Z.to_nat (soff b3)) (contents b3) = dx) as Hdx by (rewrite Hc3, Ho3, Ho2; rewrite <- Hcl2, Nat2Z.id; apply drop_app_length).
    assert (0 < k <= zlen dx) as Hk by (unfold k, dx; cbn [length]; lia). rewrite (contents_sub b3 (soff b3) k) by (done || lia). rewrite Hdx. cbn [mbind option_bind]. eexists _, _. split; [done|]. cbn [from_option]. unfold id.
    assert (length (d0 ++ take (Z.to_nat k) dx) = (length d0 + Z.to_nat k)%nat) as Hlen by (rewrite length_app, length_take; lia). rewrite Hlen. split; [unfold k; lia|]. rewrite <- HR, <- Hi.
    split; [apply prefix_app, prefix_app_r, prefix_take|]. rewrite <- drop_drop, drop_app_length. split.
    + apply (reading_intro _ (with_offset b3 (soff b3 + k))); try done; [apply with_offset_wf; [done|lia]|cbn; unfold SW_BUFFER_SIZE_BIG, MAX_BUFFER; lia|cbn; lia| |].
      * cbn [soff with_offset cinput with_rbuf]. change (contents (with_offset b3 (soff b3 + k))) with (contents b3). rewrite Z2Nat.inj_add, <- drop_drop, Hdx by lia. by rewrite drop_app_le by lia.
      * rewrite <- HR, <- Hi in HB. apply Forall_drop. by apply Forall_app in HB as [].
    + intros Hpl. split; [|intros _; destruct d0; [cbn [app]; destruct (Z.to_nat k) eqn:Ek; [lia|done]|done]]. destruct Hp as [Hpl' _]; [lia|by apply Hpb|]. by destruct Hpl'.
Qed.

Abbreviation eof_step := (co_step 0 false (fun _ => None) (fun _ => 0) max (MEof eof)).

Lemma mark_step c R pop_ : reading c R -> exists c' d, eof_step c (CPacket pop_) = Some (c', d) /\
  (d <> [] -> reading c' (drop (length d) R) /\ d = take (length d) R /\ exists i, find eof R = Some i /\ zlen d = Z.of_nat i + zlen eof) /\
  (plenty c -> d <> [] -> plenty c') /\ (forall i, plenty c -> find eof R = Some i -> Z.of_nat i + zlen eof <= max -> d <> []).
Proof.
  intros [Hw Hsm]. cbn [co_step]. unfold recv_packet. destruct (avail c) eqn:Ea; cbn [negb].
  2:{ cbn [mbind option_bind]. exists c, []. split; [done|]. split; [done|]. split; [done|]. intros k []. congruence. }
  destruct (get_reading c R ltac:(by split)) as (bx & Ex & _ & Hsx & _). destruct (front_ok c R Hw) as (b0 & b & Eb & Er & Hwf & Ho & Hs & Hs0 & Hl & Hc). rewrite Ex in Eb. injection Eb as _ <-.
  rewrite Ex, Er. cbn [mbind option_bind]. change (with_rbuf (with_rbuf c bx) b) with (with_rbuf c b).
  unfold recv_packet_with_eof_protocol. cbn [rbuf with_rbuf mbind option_bind]. pose proof (wa_rest _ _ Hw) as HR. set (c1 := with_rbuf c b). pose proof (contents_length b Hwf) as Hcl. pose proof (st_len _ Hwf).
  destruct (eof_packet_ok (2 * length (cscript c1) + 3) c1 b (0 <? slen b)) as (c2 & r & b2 & -> & [Q1 Q2 Q3 Q4 Q5] & Hgp & Hgo).
  { split; try done; [lia|apply Hw]. }
  { destruct (0 <? slen b); lia. }
  { intros Hz%Z.ltb_ge. unfold SW_BUFFER_SIZE_BIG in *. split; [apply find_short; lia|lia]. }
  cbn [mbind option_bind]. rewrite Q1. cbn [mbind option_bind]. change (cinput c1) with (cinput c) in *. rewrite Hc, HR in *.
  assert (plenty c -> plenty c1) as Hp1 by by intros []. destruct (Z.leb_spec r 0).
  { eexists _, []. destruct (Z.leb_spec r 0); [|lia]. split; [done|]. split; [done|]. split; [done|]. intros i Hp Hf Hk. pose proof (Hgo i (Hp1 Hp) Hf Hk). lia. }
  destruct (Z.leb_spec r 0); [lia|]. destruct (Q5 ltac:(lia)) as (Qo & Ql & Qs & i & Qf & Qr). pose proof (st_len _ Q2).
  destruct (take_packet_ok c2 b2 r pop_ Q1 Q2) as (c3 & E3 & Hb3 & Hp3 & Hi3 & Hs3 & Hw3); [lia|done|lia|lia|]. rewrite E3. clear E3.
  pose proof (contents_length b2 Q2) as Hcl2. assert (length (take (Z.to_nat r) (contents b2)) = Z.to_nat r) as Hlr by (rewrite length_take; lia). exists c3, (take (Z.to_nat r) (contents b2)). split; [done|]. rewrite Hlr. split.
  - intros _. split_and!.
    + split; [split; [|rewrite Hb3, Hi3, <- Qs; by rewrite drop_app_le by lia|apply Forall_drop, Hw|by rewrite Hs3]|]; intros b' Eb'; destruct (Hw3 b' Eb') as (? & ? & Hsm' & ? & ?); [done|]. apply Hsm'. lia.
    + rewrite <- Qs. by rewrite take_app_le by lia.
    + exists i. split; [done|lia].
  - split; [auto|]. intros k Hp Hf Hk E. rewrite E in Hlr. cbn in Hlr. lia.
Qed.

(** A line: bytes up to the first line end, or as many as the caller has room for. *)
Definition is_newline (x : Z) : bool := (x =? LF) || (x =? CR).
Definition complete_line (maxlen : Z) (R : list Z) : Prop := maxlen <= zlen R \/ exists x, x ∈ R /\ is_newline x = true.
Definition line_out (R : list Z) (maxlen : Z) (c' : CoSock) (d : list Z) : Prop :=
  d <> [] -> reading c' (drop (length d) R) /\ d = take (length d) R /\ zlen d <= maxlen /\ Forall (fun x => is_newline x = false) (removelast d).

Lemma line_end c u n R maxlen : 0 <= n < maxlen -> maxlen < zlen u -> reading c (drop (Z.to_nat (n + 1)) R) -> n + 1 <= zlen R ->
  take (Z.to_nat (n + 1)) u = take (Z.to_nat (n + 1)) R -> Forall (fun x => is_newline x = false) (take (Z.to_nat n) u) -> line_out R maxlen c (take (Z.to_nat (n + 1)) u).
Proof.
  intros Hn Hu Hrd HR Et Hf _. rewrite Z2Nat.inj_add in * by lia. change (Z.to_nat 1) with 1%nat in *. assert (length (take (Z.to_nat n + 1) u) = (Z.to_nat n + 1)%nat) as Hl by (rewrite length_take; lia). rewrite Hl. split_and!; try done; [lia|].
  destruct (lookup_lt_is_Some_2 u (Z.to_nat n)) as [x Ex]; [lia|]. rewrite Nat.add_1_r, (take_S_r _ _ _ Ex), removelast_last. done.
Qed.

Lemma line_loop_ok fuel c u n R maxlen : 0 <= n < maxlen -> maxlen < zlen u -> reading c (drop (Z.to_nat (n + 1)) R) -> n + 1 <= zlen R ->
  take (Z.to_nat (n + 1)) u = take (Z.to_nat (n + 1)) R -> Forall (fun x => is_newline x = false) (take (Z.to_nat n) u) -> (Z.to_nat (maxlen - n) < fuel)%nat ->
  exists c' r u', line_loop fuel c u n 1 maxlen = Some (c', r, u') /\ line_out R maxlen c' (take (Z.to_nat r) u') /\ maxlen < zlen u' /\
    (plenty c -> plenty c' /\ (complete_line maxlen R -> 0 < r <= maxlen)).
Proof.
  revert c u n. induction fuel as [|fuel IH]; intros c u n Hn Hu Hrd HR Et Hf Hfuel; [lia|]. cbn [line_loop]. destruct (zget_in_bounds u n) as (x & Ex); [lia|]. rewrite Ex. cbn [mbind option_bind].
  pose proof (line_end c u n R maxlen Hn Hu Hrd HR Et Hf) as Hend. assert (u !! Z.to_nat n = Some x) as Ex' by (unfold zget in Ex; destruct (Z.leb_spec 0 n); [done|lia]).
  assert (take (Z.to_nat (n + 1)) u = take (Z.to_nat n) u ++ [x]) as Etx by (rewrite Z2Nat.inj_add, Nat.add_1_r by lia; by apply take_S_r).
  destruct (Z.ltb_spec n maxlen); [|lia]. rewrite andb_true_r, <- negb_orb. fold (is_newline x). destruct (is_newline x) eqn:Enl; cbn [negb].
  { exists c, (n + 1), u. split; [done|]. split; [done|]. split; [done|]. intros Hp. split; [done|intros _; lia]. }
  cbn [Z.ltb Z.compare]. destruct (Z.ltb_spec (n + 1) maxlen).
  2:{ assert (n + 1 = maxlen) as Em by lia. destruct fuel as [|fuel]; [lia|]. cbn [line_loop]. destruct (zget_in_bounds u (n + 1)) as (y & ->); [lia|]. cbn [mbind option_bind]. destruct (Z.ltb_spec (n + 1) maxlen); [lia|]. rewrite andb_false_r.
      exists c, (n + 1), u. split; [done|]. split; [done|]. split; [done|]. intros Hp. split; [done|intros _; lia]. }
  destruct (recv_with_buffer_ok c _ 1 ltac:(lia) Hrd) as (c' & r & -> & Hz & Hpre & Hrd' & Hp'). cbn [mbind option_bind].
  assert (plenty c -> complete_line maxlen R -> default [] r <> []) as Hgo.
  { intros Hp Hcom. apply Hp'; [done|]. intros Erest. assert (R = take (Z.to_nat n) u ++ [x]) as ER by (rewrite <- Etx, Et; rewrite <- (take_drop (Z.to_nat (n + 1)) R) at 1; by rewrite Erest, app_nil_r).
    destruct Hcom as [Hle|(y & Hy & Hnl)]; [apply (f_equal length) in Erest; rewrite length_drop in Erest; cbn in Erest; lia|]. rewrite ER in Hy. apply elem_of_app in Hy as [Hy|Hy%list_elem_of_singleton]; [|congruence].
    rewrite Forall_forall in Hf. by rewrite (Hf y Hy) in Hnl. }
  destruct r as [[|y d]|].
  - exists c', (n + 1), u. split; [done|]. split; [by apply (line_end c' u n R maxlen)|]. split; [done|]. intros Hp. split; [by apply Hp'|]. intros Hcom. by destruct (Hgo Hp Hcom).
  - assert (d = []) as -> by (destruct d; [done|cbn in Hz; lia]). cbn in Hz, Hpre, Hrd'. destruct (zblit_in_bounds u (n + 1) [y]) as (u' & Hb); [lia|cbn; lia|]. rewrite Hb. cbn [mbind option_bind]. change (zlen [y]) with 1.
    pose proof (zblit_length _ _ _ _ Hb) as Hlu. assert (R !! Z.to_nat (n + 1) = Some y) as Hy by (destruct Hpre as [t Et']; rewrite <- (Nat.add_0_r (Z.to_nat (n + 1))), <- lookup_drop, Et'; done).
    assert (take (Z.to_nat (n + 1)) u' = take (Z.to_nat (n + 1)) u /\ u' !! Z.to_nat (n + 1) = Some y) as [Etu Eyu].
    { apply zblit_Some in Hb as (_ & _ & ->). assert (length (take (Z.to_nat (n + 1)) u) = Z.to_nat (n + 1)) as Hlt by (rewrite length_take; lia). split; [by rewrite take_app_le, take_ge by lia|]. rewrite lookup_app_r by lia. by rewrite Hlt, Nat.sub_diag. }
    pose proof (lookup_lt_Some _ _ _ Hy). destruct (IH c' u' (n + 1)) as (c2 & r2 & u2 & -> & Ho & Hu2 & Hp2); [lia|lia| |lia| |rewrite Etu, Etx; apply Forall_app; split; [done|by constructor]|lia|].
    + rewrite drop_drop in Hrd'. replace (Z.to_nat (n + 1 + 1)) with (Z.to_nat (n + 1) + 1)%nat by lia. done.
    + replace (Z.to_nat (n + 1 + 1)) with (S (Z.to_nat (n + 1))) by lia. rewrite (take_S_r _ _ _ Eyu), (take_S_r _ _ _ Hy), Etu, Et. done.
    + exists c2, r2, u2. split; [done|]. split; [done|]. split; [done|]. intros Hp. by apply Hp2, Hp'.
  - exists c', (-1), u. split; [done|]. split; [done|]. split; [done|]. intros Hp. split; [by apply Hp'|]. intros Hcom. by destruct (Hgo Hp Hcom).
Qed.

Lemma line_step c R room maxlen : 0 < maxlen < room -> reading c R -> exists c' d, eof_step c (CLine room maxlen) = Some (c', d) /\ line_out R maxlen c' d /\
  (plenty c -> plenty c' /\ (complete_line maxlen R -> d <> [])).
Proof.
  intros Hm Hrd. cbn [co_step]. unfold recv_line. pose proof (fresh_length room ltac:(lia)) as Hfl. set (u0 := fresh room) in *. assert (exists u, zset u0 0 0 = Some u) as (u & Hu) by (rewrite zset_in_bounds by lia; by eexists). rewrite Hu. cbn [mbind option_bind].
  pose proof (zset_length _ _ _ _ Hu) as Hul. pose proof (zget_zset_eq _ _ _ _ Hu) as Hu0. replace (Z.to_nat maxlen + 2)%nat with (S (Z.to_nat maxlen + 1)) by lia. remember (Z.to_nat maxlen + 1)%nat as f1 eqn:Ef1. cbn [line_loop]. rewrite Hu0. cbn [mbind option_bind].
  change (negb (0 =? LF) && negb (0 =? CR)) with true. cbn [andb Z.ltb Z.compare]. destruct (Z.ltb_spec 0 maxlen); [|lia].
  destruct (recv_with_buffer_ok c R 1 ltac:(lia) Hrd) as (c' & r & -> & Hz & Hpre & Hrd' & Hp'). cbn [mbind option_bind].
  assert (complete_line maxlen R -> R <> []) as Hne by (intros [?|(x & Hx & _)] ->; [cbn in *; lia|by apply not_elem_of_nil in Hx]).
  destruct r as [[|y d]|].
  - exists c', []. split; [done|]. split; [done|]. intros Hp. destruct (Hp' Hp) as [Hpc Hd]. split; [done|]. intros Hcom. by destruct (Hd (Hne Hcom)).
  - assert (d = []) as -> by (destruct d; [done|cbn in Hz; lia]). cbn in Hpre, Hrd'. destruct (zblit_in_bounds u 0 [y]) as (u' & Hb); [lia|cbn; lia|]. rewrite Hb. cbn [mbind option_bind]. change (zlen [y]) with 1. pose proof (zblit_length _ _ _ _ Hb) as Hlu.
    destruct Hpre as [t ->]. assert (take 1 u' = [y]) as Et by (apply zblit_Some in Hb as (_ & _ & ->); done).
    destruct (line_loop_ok f1 c' u' 0 ([y] ++ t) maxlen) as (c2 & r2 & u2 & -> & Ho & Hu2 & Hp2); [lia|lia|done|cbn; lia|done|constructor|lia|]. cbn [mbind option_bind].
    exists c2, (take (Z.to_nat r2) u2). split; [done|]. split; [done|]. intros Hp. destruct (Hp' Hp) as [Hpc _]. destruct (Hp2 Hpc) as [? Hr]. split; [done|]. intros Hcom E%(f_equal length). specialize (Hr Hcom). rewrite length_take in E. cbn in E. lia.
  - exists c', []. split; [done|]. split; [done|]. intros Hp. destruct (Hp' Hp) as [Hpc Hd]. split; [done|]. intros Hcom. by destruct (Hd (Hne Hcom)).
Qed.

(** What a call may give of the stream, and what it waits for. *)
Definition cut_ok (o : cop) (R d : list Z) : Prop :=
  d = take (length d) R /\
  match o with
  | CPacket _ => exists i, find eof R = Some i /\ zlen d = Z.of_nat i + zlen eof
  | CBuffer n => zlen d <= n
  | CLine _ maxlen => zlen d <= maxlen /\ Forall (fun x => is_newline x = false) (removelast d)
  end.
Definition ready_for (o : cop) (R : list Z) : Prop :=
  match o with
  | CPacket _ => exists i, find eof R = Some i /\ Z.of_nat i + zlen eof <= max
  | CBuffer n => R <> []
  | CLine _ maxlen => complete_line maxlen R
  end.
Definition cop_ok (o : cop) : Prop := match o with CPacket _ => True | CBuffer n => 0 < n | CLine room maxlen => 0 < maxlen < room end.

(** The pieces are what the calls cut off, one after the other. *)
Fixpoint served (ops : list cop) (R : list Z) (ds : list (list Z)) : Prop :=
  match ds, ops with
  | [], _ => True
  | d :: ds, o :: ops => d <> [] /\ cut_ok o R d /\ served ops (drop (length d) R) ds
  | _, [] => False
  end.

Lemma eof_step_ok c R o : cop_ok o -> reading c R -> exists c' d, eof_step c o = Some (c', d) /\ (d <> [] -> reading c' (drop (length d) R) /\ cut_ok o R d) /\
  (plenty c -> (d <> [] -> plenty c') /\ (ready_for o R -> d <> [])).
Proof.
  intros Ho Hrd. destruct o as [pop_|n|room maxlen].
  - destruct (mark_step c R pop_ Hrd) as (c' & d & -> & Hd & Hpp & Hp). exists c', d. split; [done|]. split.
    + intros Hne. destruct (Hd Hne) as (? & ? & ?). done.
    + intros Hpl. split; [auto|]. intros (i & Hf & Hle). by apply (Hp i).
  - destruct (recv_with_buffer_ok c R n Ho Hrd) as (c' & r & E & Hz & [t ->] & Hrd' & Hp). cbn [co_step]. rewrite E. cbn [mbind option_bind]. exists c', (default [] r). split; [done|]. split; [|intros Hpl; destruct (Hp Hpl); auto].
    intros _. split; [done|]. split; [by rewrite take_app_length|done].
  - destruct (line_step c R room maxlen Ho Hrd) as (c' & d & -> & Hd & Hp). exists c', d. split; [done|]. split; [|intros Hpl; destruct (Hp Hpl); auto]. intros Hne. destruct (Hd Hne) as (? & ? & ? & ?). done.
Qed.

Lemma eof_run_ok c R ops : Forall cop_ok ops -> reading c R -> exists c' ds, co_run 0 false (fun _ => None) (fun _ => 0) max (MEof eof) c ops = Some (c', ds) /\ served ops R ds /\
  (plenty c -> match ops !! length ds with Some o => ~ ready_for o (drop (length (concat ds)) R) | None => True end).
Proof.
  intros Hops. revert c R. induction Hops as [|o ops Ho Hops IH]; intros c R Hrd; cbn [co_run]; [by exists c, []|].
  destruct (eof_step_ok c R o Ho Hrd) as (c1 & d & -> & Hd & Hp). cbn [mbind option_bind]. case_decide as E.
  - exists c1, []. split; [done|]. split; [done|]. cbn. intros Hpl Hre. by apply (Hp Hpl) in Hre.
  - destruct (Hd E) as [Hrd1 Hcut]. destruct (IH c1 _ Hrd1) as (c2 & ds & -> & Hs & Hp2). cbn [mbind option_bind]. exists c2, (d :: ds). split; [done|]. split; [done|].
    intros Hpl. cbn [length lookup list_lookup concat]. rewrite length_app, <- drop_drop. apply Hp2. by apply (Hp Hpl).
Qed.
End co_eof.

(** ** The length functions of the clients *)

(** WebSocket: the settings say two bytes, and the function asks for more. *)
Definition websocket_need (l : list Z) : Z := match get_package_length_impl l (zlen l) with Some (h, _) => h | None => 0 end.

Lemma websocket_need_ok l : Forall byte l -> l <> [] -> Port.get_package_length l = Some 0 -> zlen l <= 14 ->
  let n := if websocket_need l =? 0 then 2 else websocket_need l in 2 <= n <= 14 /\ zlen l <= n /\ (zlen l < 14 -> zlen l < n).
Proof.
  intros Hb Hne. unfold Port.get_package_length, websocket_need. assert (0 < zlen l) as Hpos by (destruct l; [done|cbn; lia]).
  assert (forall h v, 0 < h < 2 ^ 32 -> 0 <= v < 2 ^ 64 -> (s64 v <? 0) = false -> s64 (h + v) <> 0) as Hsum.
  { intros h v Hh Hv Hs%Z.ltb_ge E0. unfold sN in *. pose proof (Z.mod_pos_bound (v + 2 ^ (64 - 1)) (2 ^ 64) ltac:(lia)). pose proof (Z.div_mod (h + v + 2 ^ (64 - 1)) (2 ^ 64) ltac:(lia)). pose proof (Z.div_mod (v + 2 ^ (64 - 1)) (2 ^ 64) ltac:(lia)). lia. }
  assert (forall (mk : bool) h v, (h = 2 \/ h = 4 \/ h = 10) -> h <= zlen l -> 0 <= v < 2 ^ 64 -> forall p,
    (let header_len := if mk then h + SW_WEBSOCKET_MASK_LEN else h in if mk && (zlen l <? header_len) then Some (header_len, 0) else if s64 v <? 0 then Some (header_len, -1) else Some (header_len, s64 (header_len + v))) = Some p ->
    p.2 = 0 -> 2 <= p.1 <= 14 /\ zlen l < p.1) as Hfin.
  { intros mk h v Hh Hhl Hv p. unfold SW_WEBSOCKET_MASK_LEN. cbv zeta. destruct mk; cbn [andb].
    - destruct (Z.ltb_spec (zlen l) (h + 4)); [intros [= <-] _; cbn; lia|]. destruct (s64 v <? 0) eqn:Es; [by intros [= <-]|]. intros [= <-] E0. by apply Hsum in E0; [|lia|..].
    - destruct (s64 v <? 0) eqn:Es; [by intros [= <-]|]. intros [= <-] E0. by apply Hsum in E0; [|lia|..]. }
  destruct (get_package_length_impl l (zlen l)) as [[h t]|] eqn:E; [|done]. cbn [mbind option_bind]. intros [= ->] Hl. cbv zeta.
  enough (h = 0 /\ zlen l < 2 \/ 2 <= h <= 14 /\ zlen l < h) by (destruct (Z.eqb_spec h 0); lia).
  unfold get_package_length_impl, SW_WEBSOCKET_HEADER_LEN in E. destruct (Z.ltb_spec (zlen l) 2); [left; split; [congruence|lia]|]. right.
  destruct (zget_in_bounds l 1) as (b1 & Hb1); [lia|]. rewrite Hb1 in E. cbn [mbind option_bind] in E.
  assert (forall n v, 0 <= ntoh n v < 256 ^ Z.of_nat n) as Hn.
  { intros n k. unfold ntoh. pose proof (le_value_bounds (rev (le_bytes n k)) (Forall_rev (le_bytes_byte n k))) as Hv. by rewrite length_rev, le_bytes_length in Hv. }
  destruct (Z.land b1 127 =? SW_WEBSOCKET_EXT16_LENGTH); [|destruct (Z.land b1 127 =? SW_WEBSOCKET_EXT64_LENGTH)].
  - destruct (Z.ltb_spec (zlen l) (2 + 2)); [injection E as <-; lia|]. destruct (load 2 l 2) as [v|] eqn:Ev; [|done]. cbn [mbind option_bind] in E. pose proof (Hn 2%nat v). apply (Hfin _ (2 + 2) (ntoh 2 v)) in E; [done|lia|lia|cbn in *; lia|done].
  - destruct (Z.ltb_spec (zlen l) (2 + 8)); [injection E as <-; lia|]. destruct (load 8 l 2) as [v|] eqn:Ev; [|done]. cbn [mbind option_bind] in E. pose proof (Hn 8%nat v). apply (Hfin _ (2 + 8) (ntoh 8 v)) in E; [done|lia|lia|cbn in *; lia|done].
  - apply (Hfin _ 2 (Z.land b1 127)) in E; [done|lia|lia| |done]. rewrite land_127. pose proof (Z.mod_pos_bound b1 128 ltac:(lia)). lia.
Qed.

Definition websocket_header : @HeaderFunc websocket_length.
Proof. refine {| hf_start := SW_WEBSOCKET_HEADER_LEN; hf_custom := false; hf_need := websocket_need |}; [done|]. intros l Hb Hne Hg Hl. by apply websocket_need_ok. Defined.

Definition http2_header : @HeaderFunc http2_length.
Proof.
  refine {| hf_start := SW_HTTP2_FRAME_HEADER_SIZE; hf_custom := false; hf_need := fun _ => 0 |}; [done|]. intros l Hb Hne Hg Hl. cbv zeta. change (0 =? 0) with true. cbv iota.
  change lf_header with SW_HTTP2_FRAME_HEADER_SIZE in *. done.
Defined.

Definition mqtt_header : @HeaderFunc mqtt_length.
Proof.
  refine {| hf_start := 5; hf_custom := false; hf_need := fun _ => 0 |}; [done|]. intros l Hb Hne Hg Hl. cbv zeta. change (0 =? 0) with true. cbv iota.
  change lf_header with 5 in *. done.
Defined.

(** With the default function a length of zero sets the header length to the size of the
    length alone. *)
Definition default_need (p : LengthConfig) (l : list Z) : Z :=
  if zlen l <? package_length_offset p + package_length_size p then package_length_offset p + package_length_size p else package_length_size p.
Definition default_header (p : LengthConfig) (Hp : length_config_ok p) (Hz : package_length_offset p = 0 \/ 0 < package_body_offset p) : @HeaderFunc (default_length p Hp).
Proof.
  pose proof (lf_header_pos (LengthFunc := default_length p Hp)) as Hpos. change lf_header with (package_length_offset p + package_length_size p) in Hpos.
  refine {| hf_start := package_length_offset p + package_length_size p; hf_custom := false; hf_need := default_need p |}; [change (@lf_header (default_length p Hp)) with (package_length_offset p + package_length_size p); lia|].
  intros l Hb Hne Hg Hl. change (@lf_header (default_length p Hp)) with (package_length_offset p + package_length_size p) in *. cbv zeta. unfold default_need.
  destruct (Z.ltb_spec (zlen l) (package_length_offset p + package_length_size p)) as [|Hge].
  - destruct (Z.eqb_spec (package_length_offset p + package_length_size p) 0); lia.
  - destruct Hz as [E|Hbo]; [rewrite E in *; destruct (Z.eqb_spec (package_length_size p) 0); lia|]. by destruct (default_finds_length p Hp Hbo l Hb Hge).
Defined.

(** A function of the program ([package_length_func]): the header is as long as a message
    between processes can be, and the function is asked with any number of bytes. *)
Definition SW_IPC_BUFFER_SIZE : Z := 8192 - 40.
Definition custom_length (f : LengthFunc) (Hf : @lf_header f <= SW_IPC_BUFFER_SIZE) : LengthFunc.
Proof.
  refine {| lf_header := SW_IPC_BUFFER_SIZE; lf_get := @lf_get f |}; [done|apply lf_total|apply lf_stable|].
  intros l m Hb Hl. apply lf_enough; [done|]. lia.
Defined.
Definition custom_header (f : LengthFunc) (Hf : @lf_header f <= SW_IPC_BUFFER_SIZE) : @HeaderFunc (custom_length f Hf).
Proof.
  refine {| hf_start := SW_IPC_BUFFER_SIZE; hf_custom := true; hf_need := fun _ => 0 |}; [done|]. intros l Hb Hne Hg Hl. cbv zeta. change (0 =? 0) with true. cbv iota.
  change (@lf_header (custom_length f Hf)) with SW_IPC_BUFFER_SIZE in *. done.
Defined.

(** ** Lemmas on sending *)

(** The kernel took the first [r] bytes of [d]. *)
Record took (o o' : CoOut) (d : list Z) (r : Z) : Prop := {
  tk_range : 0 <= r <= zlen d;
  tk_wire : cwire o' = cwire o ++ take (Z.to_nat r) d;
  tk_kernel : kernel o' `suffix_of` kernel o;
}.
Definition taken (r : Z) : Z := Z.max 0 r.
Definition writable (a : space) : Prop := match a with Full EFAULT => False | _ => True end.
Definition open_out (o : CoOut) : Prop := oavail o = true /\ onobufs o = false /\ ohup o = false /\ Forall (fun w => w = Ready false) (owaits o) /\
  Forall (fun a => match a with Room _ | Full EAGAIN => True | _ => False end) (kernel o).

Lemma co_sys_send_ok o d : Forall writable (kernel o) -> exists o' r w, co_sys_send o d = Some (o', r, w) /\ took o o' d (taken r) /\ -1 <= r /\ owaits o' = owaits o /\
  (kernel o <> [] -> length (kernel o) = S (length (kernel o'))) /\ (kernel o = [] -> o' = o) /\ (d <> [] -> r <> 0) /\
  (r < 0 -> open_out o -> w = true) /\ (open_out o -> open_out o').
Proof.
  intros Hk. unfold co_sys_send, taken, open_out. destruct (kernel o) as [|[k|e] ks] eqn:Ek.
  - case_decide as Hd; eexists _, _, _; (split; [done|]); rewrite ?Ek; split_and!; try done; try lia; split; cbn; rewrite ?app_nil_r, ?Ek; done || (by exists []) || lia.
  - eexists _, _, _. split; [done|]. cbn. split_and!; try done; try lia.
    + split; cbn; [lia|do 2 f_equal; lia|rewrite Ek; by exists [Room k]].
    + intros Hd. destruct d; [done|]. cbn. lia.
    + intros (? & ? & ? & ? & [? ?]%Forall_cons). done.
  - apply Forall_cons in Hk as [He Hk]. destruct (sane_catch e) as [c Hc]; [by destruct e|]. rewrite Hc. cbn [mbind option_bind].
    eexists _, _, _. split; [done|]. split_and!; try done; try lia.
    + split; [lia|by destruct e; cbn; rewrite app_nil_r|rewrite Ek; exists [Full e]; by destruct e].
    + by destruct e.
    + by destruct e.
    + intros _ (? & ? & ? & ? & [He' ?]%Forall_cons). destruct e; try done. by injection Hc as <-.
    + intros (? & ? & ? & ? & [He' ?]%Forall_cons). by destruct e.
Qed.

Definition is_room (a : space) : bool := match a with Room _ => true | Full _ => false end.
Definition rooms (o : CoOut) : nat := length (filter is_room (kernel o)).

Lemma co_sys_send_rooms o d o' r w : co_sys_send o d = Some (o', r, w) -> d <> [] -> (length d <= rooms o)%nat ->
  (length (drop (Z.to_nat (taken r)) d) <= rooms o')%nat /\ kernel o <> [].
Proof.
  unfold co_sys_send, rooms, taken. intros E Hd Hr. assert (length d <> 0)%nat by by destruct d. destruct (kernel o) as [|[k|e] ks]; [cbn in Hr; lia| |].
  - injection E as <- <- <-. rewrite filter_cons_True in Hr by done. cbn [length kernel with_wire] in Hr |- *. rewrite length_drop. split; [lia|done].
  - rewrite filter_cons_False in Hr by (cbn; tauto). destruct (catch_error e); [|done]. injection E as <- <- <-. rewrite length_drop. split; [destruct e; cbn [kernel with_wire with_onobufs]; lia|done].
Qed.

Lemma took_writable o o' d t : took o o' d t -> Forall writable (kernel o) -> Forall writable (kernel o').
Proof. intros [_ _ [l E]]. rewrite E. by intros [_ ?]%Forall_app. Qed.

Lemma took_trans o o1 o2 d a b : took o o1 d a -> took o1 o2 (drop (Z.to_nat a) d) b -> took o o2 d (a + b).
Proof.
  intros [Ha Hw Hs] [Hb Hw' Hs']. rewrite length_drop in Hb. split; [lia| |by etrans].
  rewrite Hw', Hw, <- app_assoc, take_take_drop. do 2 f_equal. lia.
Qed.

Lemma co_send_loop_ok fuel o d : Forall writable (kernel o) -> (length (kernel o) + length (owaits o) + (if onobufs o then 1 else 0) < fuel)%nat ->
  exists o' r, send_loop fuel o d = Some (o', r) /\ -1 <= r /\ took o o' d (taken r).
Proof.
  revert o. induction fuel as [|fuel IH]; intros o Hk Hf; [lia|]. cbn [send_loop].
  destruct (co_sys_send_ok o d Hk) as (o1 & r & w & -> & Ht & Hr & Hw & Hn & Hnil & _). cbn [mbind option_bind].
  destruct ((r <? 0) && w) eqn:Ew; [|by eexists _, _]. apply andb_true_iff in Ew as [Hneg%Z.ltb_lt _].
  assert (taken r = 0) as E0 by (unfold taken; lia). rewrite E0 in Ht.
  assert (forall o2, cwire o2 = cwire o1 -> kernel o2 = kernel o1 -> took o o2 d 0) as Hsame by (intros o2 E E'; destruct Ht; split; congruence).
  assert (forall o2, cwire o2 = cwire o1 -> kernel o2 = kernel o1 -> (length (kernel o2) + length (owaits o2) + (if onobufs o2 then 1 else 0) < fuel)%nat ->
    exists o' r', send_loop fuel o2 d = Some (o', r') /\ -1 <= r' /\ took o o' d (taken r')) as Hgo.
  { intros o2 E E' Hf2. destruct (IH o2) as (o' & r' & -> & Hr' & Ht'); [rewrite E'; by eapply took_writable|done|]. exists o', r'. split; [done|]. split; [done|].
    change (taken r') with (0 + taken r'). eapply took_trans; [by apply Hsame|done]. }
  assert (length (kernel o1) + (if onobufs o1 then 1 else 0) <= length (kernel o) + (if onobufs o then 1 else 0))%nat as Hle.
  { destruct (decide (kernel o = [])) as [E|E]; [by rewrite (Hnil E)|]. apply Hn in E. destruct (onobufs o1), (onobufs o); lia. }
  unfold wait_writable. destruct (onobufs o1) eqn:Eb.
  - destruct (oavail o1); [apply Hgo; cbn; try done; rewrite Hw; lia|]. eexists _, _. split; [done|]. rewrite E0. split; [done|]. by apply Hsame.
  - destruct (owaits o1) as [|[hup|cl] ws] eqn:Ews; [eexists _, _; split; [done|]; rewrite E0; by split| |].
    + apply Hgo; cbn; try done. rewrite Eb. rewrite <- Hw in Hf. cbn in Hf. lia.
    + eexists _, _. split; [done|]. rewrite E0. split; [done|]. by apply Hsame.
Qed.

Lemma co_send_ok o d : Forall writable (kernel o) -> exists o' r, co_send o d = Some (o', r) /\ -1 <= r /\ took o o' d (taken r).
Proof.
  intros Hk. unfold co_send. destruct (oavail o); [apply co_send_loop_ok; [done|destruct (onobufs o); lia]|].
  eexists _, _. split; [done|]. split; [done|]. split; [unfold taken; lia|by cbn; rewrite app_nil_r|done].
Qed.

Lemma send_barrier_ok ws o d total neg : Forall writable (kernel o) -> 0 <= total <= zlen d ->
  exists o' t n, send_barrier ws o d total neg = Some (o', total + t, n) /\ took o o' (drop (Z.to_nat total) d) t /\
    (open_out (with_owaits o (oavail o) (ohup o) ws) -> (length (drop (Z.to_nat total) d) <= rooms o)%nat -> (length (kernel o) <= length ws)%nat -> total + t = zlen d).
Proof.
  revert o total neg. induction ws as [|[hup|cl] ws IH]; intros o total neg Hk Ht; cbn [send_barrier].
  - eexists _, 0, _. rewrite Z.add_0_r. split; [done|]. split; [split; cbn; [lia|by rewrite app_nil_r|done]|]. intros _ Hr Hl. rewrite length_drop in Hr. unfold rooms in Hr. destruct (kernel o); cbn in *; lia.
  - set (o0 := with_owaits _ _ _ ws). assert (forall o' dd t, took o0 o' dd t -> took o o' dd t) as H0 by (intros o' dd t [? ? ?]; by split).
    set (dd := drop (Z.to_nat total) d).
    destruct (co_sys_send_ok o0 dd Hk) as (o1 & r & w & Es & Htk & Hr & Hw & Hn & _ & Hnz & Hwt & Hop). rewrite Es. cbn [mbind option_bind].
    assert ((if 0 <? r then total + r else total) = total + taken r) as -> by (unfold taken; destruct (Z.ltb_spec 0 r); lia).
    assert (zlen dd = zlen d - total) as Hld by (unfold dd; rewrite length_drop; lia). pose proof (tk_range _ _ _ _ Htk) as Hrg.
    assert (drop (Z.to_nat (taken r)) dd = drop (Z.to_nat (total + taken r)) d) as Hdr by (unfold dd; rewrite drop_drop; f_equal; lia).
    destruct (_ && _) eqn:Ec.
    + destruct (IH o1 (total + taken r) (r <? 0)) as (o' & t & n & -> & Ht' & Hall); [by eapply took_writable|lia|]. exists o', (taken r + t), n. rewrite Z.add_assoc. split; [done|]. split.
      { apply H0. eapply took_trans; [done|]. by rewrite Hdr. }
      intros Ho Hro Hle. destruct (decide (dd = [])) as [Edd|Hdd]; [pose proof (tk_range _ _ _ _ Ht') as Hrt; rewrite length_drop in Hrt; rewrite Edd in Hld, Hrg; cbn in Hld, Hrg; lia|]. assert (open_out o0 /\ hup = false) as [Ho0 ->].
      { destruct Ho as (? & ? & ? & [E ?]%Forall_cons & ?). injection E as ->. split; [split_and!; try done; cbn in *; by rewrite orb_false_r|done]. }
      destruct (co_sys_send_rooms _ _ _ _ _ Es Hdd Hro) as [Hro1 Hk0]. apply Hn in Hk0. cbn in Hle, Hk0. apply Hall; [|by rewrite <- Hdr|lia].
      specialize (Hop Ho0). destruct Hop as (? & ? & ? & Hws & ?). rewrite Hw in Hws. by split_and!.
    + exists o1, (taken r), (r <? 0). split; [done|]. split; [by apply H0|]. intros Ho Hro Hle. destruct (decide (dd = [])) as [Edd|Hdd]; [rewrite Edd in Hld, Hrg; cbn in Hld, Hrg; lia|]. specialize (Hnz Hdd).
      assert (open_out o0) as Ho0. { destruct Ho as (? & ? & ? & [E ?]%Forall_cons & ?). injection E as ->. split_and!; try done; cbn in *; by rewrite orb_false_r. }
      destruct (Hop Ho0) as (_ & _ & Eh & _). rewrite Eh, andb_true_r in Ec. apply orb_false_iff in Ec as [Ec1 Ec2].
      destruct (Z.ltb_spec r 0) as [Hn0|]; [rewrite (Hwt Hn0 Ho0) in Ec1; done|]. unfold taken in *. destruct (Z.ltb_spec 0 r); [|lia]. apply Z.ltb_ge in Ec2. lia.
  - eexists _, 0, _. rewrite Z.add_0_r. split; [done|]. split; [split; cbn; [lia|by rewrite app_nil_r|done]|]. intros (_ & _ & _ & [E _]%Forall_cons & _). done.
Qed.

(** [send_all]: what it reports is what was sent; with room to come it sends everything. *)
Lemma send_all_ok o d : Forall writable (kernel o) -> exists o' r, send_all o d = Some (o', r) /\ -1 <= r /\ took o o' d (taken r) /\
  (open_out o -> d <> [] -> (length d <= rooms o)%nat -> (length (kernel o) <= S (length (owaits o)))%nat -> r = zlen d).
Proof.
  intros Hk. unfold send_all. destruct (oavail o) eqn:Ea; cbn [negb].
  2: { eexists _, _. split; [done|]. split; [done|]. split; [split; unfold taken; cbn; [lia|by rewrite app_nil_r|done]|]. intros (? & _). congruence. }
  destruct (co_sys_send_ok o d Hk) as (o1 & r & w & Es & Htk & Hr & Hw & Hn & Hnil & Hnz & Hwt & Hop). rewrite Es. cbn [mbind option_bind]. pose proof (tk_range _ _ _ _ Htk) as Hrg.
  destruct ((r =? 0) || (r =? zlen d)) eqn:E1.
  { exists o1, r. split; [done|]. split; [done|]. split; [done|]. intros _ _ _ _. apply orb_true_iff in E1 as [E%Z.eqb_eq|E%Z.eqb_eq]; [|done].
    destruct d; [done|]. by destruct Hnz. }
  apply orb_false_iff in E1 as [E0%Z.eqb_neq E1%Z.eqb_neq]. destruct ((r <? 0) && negb w) eqn:E2.
  { exists o1, r. split; [done|]. split; [done|]. split; [done|]. intros Ho _ _ _. apply andb_true_iff in E2 as [E2%Z.ltb_lt E3]. rewrite (Hwt E2 Ho) in E3. done. }
  assert ((if 0 <? r then r else 0) = taken r) as -> by (unfold taken; destruct (Z.ltb_spec 0 r); lia).
  assert (exists o2 t n, (if onobufs o1 then Some (with_onobufs o1 false, taken r, true) else send_barrier (owaits o1) o1 d (taken r) true) = Some (o2, taken r + t, n) /\
    took o1 o2 (drop (Z.to_nat (taken r)) d) t /\ (open_out o -> (length d <= rooms o)%nat -> (length (kernel o) <= S (length (owaits o)))%nat -> taken r + t = zlen d)) as (o2 & t & n & -> & Ht2 & Hall).
  { destruct (onobufs o1) eqn:Eb.
    - eexists _, 0, _. rewrite Z.add_0_r. split; [done|]. split; [split; cbn; [lia|by rewrite app_nil_r|done]|]. intros Ho. destruct (Hop Ho) as (_ & ? & _). congruence.
    - destruct (send_barrier_ok (owaits o1) o1 d (taken r) true) as (o2 & t & n & -> & ? & Hall); [by eapply took_writable|lia|]. exists o2, t, n. split; [done|]. split; [done|].
      intros Ho Hro Hle. destruct (decide (d = [])) as [->|Hd]; [pose proof (tk_range o1 o2 _ t ltac:(done)) as Hrt; rewrite length_drop in Hrt; cbn in *; lia|].
      destruct (co_sys_send_rooms _ _ _ _ _ Es Hd Hro) as [? Hk0]. apply Hn in Hk0. apply Hall; [by destruct o1; apply Hop|done|rewrite Hw; lia]. }
  cbn [mbind option_bind]. pose proof (tk_range _ _ _ _ Ht2) as Hrt. pose proof (took_trans _ _ _ _ _ _ Htk Ht2) as Ht3.
  destruct (n && (taken r + t =? 0)) eqn:En.
  - apply andb_true_iff in En as [_ En%Z.eqb_eq]. eexists _, _. split; [done|]. split; [done|]. change (taken (-1)) with 0. rewrite <- En. split; [done|].
    intros Ho Hd Hro Hle. specialize (Hall Ho Hro Hle). destruct d; [done|cbn in Hall; lia].
  - eexists _, _. split; [done|]. split; [lia|]. replace (taken (taken r + t)) with (taken r + t) by (unfold taken; lia). split; [done|]. intros Ho _. by apply Hall.
Qed.

(** ** Properties *)

(** C15: packets with a length on the socket of a coroutine, with any length function that
    keeps its contract.  Whatever bytes come, however the network cuts them, whatever
    errors, hang-ups and timeouts there are, [recv_packet] stays inside of its buffer and
    returns; the packets of the calls up to the first failure are the first ones of the
    stream, whether the program copies them or takes the buffer.  When bytes and events
    go on to come and no packet is shorter than the header, every call gets the next
    packet; for a length function of the program, which is asked with fewer bytes than the
    header has, the packets may be shorter.  Conditions: the header fits into the 64 KB of
    the buffer, the limit of packets is below 2 GB, and [recv] does not fail with EFAULT,
    which ends the process. *)
Theorem co_packets_delivered `{Allocator} `{HeaderFunc} max st sc ws pops :
  0 <= max < 2 ^ 31 -> lf_header <= SW_BUFFER_SIZE_BIG -> Forall byte st -> Forall sane sc ->
  exists c ps, co_run hf_start hf_custom lf_get hf_need max MLength (new_co st sc ws) (CPacket <$> pops) = Some (c, ps) /\ ps `prefix_of` (len_frames max st).1 /\
    (plenty (new_co st sc ws) -> Forall (fun p => hf_custom = true \/ hf_start <= zlen p) (len_frames max st).1 -> ps = take (length pops) (len_frames max st).1).
Proof.
  intros Hmax Hh Hst Hsc. apply length_run_ok; [done|done|by apply new_co_waiting|]. pose proof lf_header_pos. cbn. lia.
Qed.

Definition two_frames : list Z := [129; 1; 65; 129; 2; 66; 67].
Definition slow_script : list answer := [Take 1; Fail EAGAIN; Take 1; Take 1; Fail EAGAIN; Take 2; Take 1; Take 1; Take 1; Take 1].
Lemma co_packets_delivered_witness : exists c,
  co_run 2 false Port.get_package_length websocket_need 1000 MLength (new_co two_frames slow_script (repeat (Ready false) 12)) (CPacket <$> [false; true]) = Some (c, [[129; 1; 65]; [129; 2; 66; 67]]).
Proof.
  destruct (co_packets_delivered (H1 := websocket_header) 1000 two_frames slow_script (repeat (Ready false) 12) [false; true]) as (c & ps & E & _ & Hp).
  - lia.
  - vm_compute. done.
  - by repeat constructor.
  - by repeat constructor.
  - exists c. etransitivity; [exact E|]. rewrite Hp; [reflexivity| |].
    + split; [reflexivity|reflexivity|reflexivity|repeat constructor|vm_compute; lia|repeat constructor|vm_compute; lia].
    + assert ((len_frames 1000 two_frames).1 = [[129; 1; 65]; [129; 2; 66; 67]]) as -> by reflexivity. repeat apply Forall_cons_2; [right; vm_compute; discriminate|right; vm_compute; discriminate|constructor].
Defined.

(** C18: packets with an end mark, lines and plain reads on one socket, mixed as the program
    likes.  Whatever the network does, the calls stay inside of their buffers and return;
    up to the first call that fails (what a failed call leaves is not said) their results
    are consecutive pieces of the stream: a packet goes up to the first mark, a line has no
    line end but at its end, nothing is longer than what was asked for.  When bytes and
    events go on to come, a call fails only when what it waits for is not in the rest of
    the stream: a packet within the limit, a line end or as many bytes as the line may
    have, a byte.  Conditions: lines get memory with at least one byte more than their
    limit, as the PHP method gives it ([line_overread] shows why), reads ask for at least
    one byte, the mark has 1 to 8 bytes, the limit of packets is at most 2 GB, and [recv]
    does not fail with EFAULT, which ends the process. *)
Theorem co_reads_in_order `{Allocator} eof max st sc ws ops :
  1 <= zlen eof <= 8 -> 0 < max <= MAX_BUFFER -> Forall byte st -> Forall sane sc -> Forall cop_ok ops ->
  exists c ds, co_run 0 false (fun _ => None) (fun _ => 0) max (MEof eof) (new_co st sc ws) ops = Some (c, ds) /\ served eof ops st ds /\
    (plenty (new_co st sc ws) -> match ops !! length ds with Some o => ~ ready_for eof max o (drop (length (concat ds)) st) | None => True end).
Proof. intros Heof Hmax Hst Hsc Hops. by apply eof_run_ok. Qed.

Definition mixed_ops : list cop := [CLine 9 8; CPacket true; CBuffer 2; CPacket false].
Lemma co_reads_in_order_witness : exists c ds,
  co_run 0 false (fun _ => None) (fun _ => 0) 100 (MEof [13; 10]) (new_co [72; 10; 65; 13; 10; 1; 2; 3; 66; 13; 10] (repeat (Take 3) 12) (repeat (Ready false) 12)) mixed_ops = Some (c, ds) /\
  served [13; 10] mixed_ops [72; 10; 65; 13; 10; 1; 2; 3; 66; 13; 10] ds.
Proof.
  destruct (co_reads_in_order [13; 10] 100 [72; 10; 65; 13; 10; 1; 2; 3; 66; 13; 10] (repeat (Take 3) 12) (repeat (Ready false) 12) mixed_ops) as (c & ds & E & Hs & _).
  - cbn. lia.
  - vm_compute. done.
  - by repeat constructor.
  - by repeat constructor.
  - by repeat constructor.
  - exact (ex_intro _ c (ex_intro _ ds (conj E Hs))).
Defined.

(** What the example reads. *)
Lemma mixed_reads : (r ← co_run 0 false (fun _ => None) (fun _ => 0) 100 (MEof [13; 10]) (new_co [72; 10; 65; 13; 10; 1; 2; 3; 66; 13; 10] (repeat (Take 3) 12) (repeat (Ready false) 12)) mixed_ops; Some r.2) =
  Some [[72; 10]; [65; 13; 10]; [1; 2]; [3; 66; 13; 10]].
Proof. vm_compute. reflexivity. Qed.

(** ** Where the code does not do what it means to *)

(** A length of zero that is not at the start of the header makes the size of the next
    [recv] wrap around: what the peer sends goes behind the buffer. *)
Definition offset_config : LengthConfig := mkLength "N"%char 4 4 0.
Lemma zero_length_wraps : co_run 8 false (LengthProtocol.default_length_func offset_config) (default_need offset_config) 1000 MLength
  (new_co (repeat 0 (Z.to_nat 70000)) [Take 8; Take 69000] []) [CPacket false] = None.
Proof. vm_compute. reflexivity. Qed.

(** Two short MQTT packets arrive together: the second one is in the buffer, but the call
    waits for a whole header, and throws it away when nothing more comes. *)
Lemma short_packet_lost : (r ← co_run 5 false (fun l => Mqtt.get_package_length l (zlen l)) (fun _ => 0) 1000 MLength (new_co [208; 0; 208; 0] [Take 4] []) [CPacket false; CPacket false];
    Some (r.2, buffered r.1, cinput r.1)) = Some ([[208; 0]], [], []).
Proof. vm_compute. reflexivity. Qed.

(** With a function of the program both are delivered. *)
Lemma short_packet_custom : (r ← co_run SW_IPC_BUFFER_SIZE true (fun l => Mqtt.get_package_length l (zlen l)) (fun _ => 0) 1000 MLength (new_co [208; 0; 208; 0] [Take 4] []) [CPacket false; CPacket false];
    Some r.2) = Some [[208; 0]; [208; 0]].
Proof. vm_compute. reflexivity. Qed.

(** Without a protocol, [recv_packet] overwrites what other calls left in the buffer. *)
Lemma plain_packet_overwrites : (r ← co_run 0 false (fun _ => None) (fun _ => 0) 100 MPlain (new_co [1; 2; 3; 4; 5] [Take 3; Take 2] []) [CBuffer 1; CPacket false]; Some r.2) = Some [[1]; [4; 5]].
Proof. vm_compute. reflexivity. Qed.

(** A packet that is longer than [package_max_length] is delivered when it comes at once. *)
Lemma long_packet_accepted : (r ← co_run 0 false (fun _ => None) (fun _ => 0) 4 (MEof [10]) (new_co [1; 2; 3; 4; 5; 6; 10] [Take 7] []) [CPacket false]; Some r.2) = Some [[1; 2; 3; 4; 5; 6; 10]].
Proof. vm_compute. reflexivity. Qed.

(** A line that fills the memory of the caller makes the loop read one byte behind it. *)
Lemma line_overread : recv_line (new_co [1; 2] [Take 2] []) [0; 0] 2 = None.
Proof. vm_compute. reflexivity. Qed.

(** The kernel was out of buffers once: [send] tries again after a pause, [send_all] gives
    up after the pause. *)
Definition nobufs_once : CoOut := mkCoOut [] true false false [Full ENOBUFS; Room 3] [Ready false; Ready false].
Lemma nobufs_gives_up : (r ← send_all nobufs_once [1; 2; 3]; Some (cwire r.1, r.2)) = Some ([], -1) /\
  (r ← co_send nobufs_once [1; 2; 3]; Some (cwire r.1, r.2)) = Some ([1; 2; 3], 3).
Proof. split; vm_compute; reflexivity. Qed.
