(* ===== verification/StrFormat.v ===== *)
(** * Formatted text in the string buffer

    What [String] prints: [format_impl] with [format] and [append_format] of
    [include/swoole_string.h], [append(int)] and [append_random_bytes] of
    [src/core/string.cc], and the functions of [src/core/base.cc] behind them,
    [sw_snprintf] and [swoole_itoa].  The text that the format and its arguments give is
    a parameter. *)

From S2P Require Import Prelude MemPool Str Protocol CStr Base64.

(** ** Definitions *)

(** [sw_snprintf(m + p, size, ...)]: the new memory and the result *)
Definition sw_snprintf (m : list Z) (p size : Z) (text : list Z) : option (list Z * Z) :=
  if size =? 0 then Some (m, zlen text) else
  let t := take (Z.to_nat (size - 1)) text in
  m ← zblit m p (t ++ [0]); Some (m, zlen t).

(** The digits, the last one first, and the exchange of both ends *)
Fixpoint itoa_loop (fuel : nat) (buf : list Z) (i nn : Z) : option (list Z * Z) :=
  buf ← zset buf i (nn mod 10 + 48);
  if nn / 10 =? 0 then Some (buf, i + 1) else
  match fuel with O => None | S fuel => itoa_loop fuel buf (i + 1) (nn / 10) end.
Fixpoint swap_loop (fuel : nat) (buf : list Z) (i j : Z) : option (list Z) :=
  if i <? j then
    match fuel with
    | O => None
    | S fuel =>
        a ← zget buf i;
        b ← zget buf j;
        buf ← zset buf i b;
        buf ← zset buf j a;
        swap_loop fuel buf (i + 1) (j - 1)
    end
  else Some buf.
Definition swoole_itoa (buf : list Z) (value : Z) : option (list Z * Z) :=
  let sign_mask := Z.shiftr value 63 in
  let nn := u64 (Z.lxor (value + sign_mask) sign_mask) in
  '(buf, i) ← itoa_loop 20 buf 0 nn;
  buf ← zset buf i 45;
  let i := i + Z.land sign_mask 1 in
  buf ← zset buf i 0;
  buf ← swap_loop 20 buf 0 (i - 1);
  buf ← zset buf i 0;
  Some (buf, i).

Section format.
Context `{Allocator}.

Definition format_impl (append_ grow_ : bool) (s : Str) (text : list Z) : option (Str * Z) :=
  let size := zlen text in
  if size =? 0 then Some (s, 0) else
  let size := size + 1 in
  let new_size := if append_ then u64 (slen s + size) else size in
  new_size ← (if grow_ then align_loop 64 (u64 (aligned8 (u64 (ssize s * 2)))) new_size else Some new_size);
  if append_ then
    s ← (if u64 (ssize s - slen s) <? size then reserve s new_size else Some s);
    '(m, n) ← sw_snprintf (mem s) (slen s) (u64 (ssize s - slen s)) text;
    Some (mkStr m (u64 (slen s + n)) (ssize s) (soff s) (sallocator s), n)
  else
    s ← (if ssize s <? size then reserve s new_size else Some s);
    '(m, n) ← sw_snprintf (mem s) 0 (ssize s) text;
    Some (mkStr m n (ssize s) (soff s) (sallocator s), n).
(** "This function replaces the entire string instead of appending content." *)
Definition format_string (s : Str) (text : list Z) : option (Str * Z) := format_impl false false s text.
Definition append_format (s : Str) (text : list Z) : option (Str * Z) := format_impl true false s text.

(** [String::append(int)]; [stack] is what was in its array *)
Definition append_int (stack : list Z) (s : Str) (value : Z) : option Str :=
  '(buf, s_len) ← swoole_itoa stack value;
  s ← reserve_for s (u64 (slen s + s_len));
  d ← zsub buf 0 s_len;
  m ← zblit (mem s) (slen s) d;
  Some (mkStr m (u64 (slen s + s_len)) (ssize s) (soff s) (sallocator s)).

(** [random] is what [swoole_random_bytes] writes *)
Definition append_random_bytes (pagesize : Z) (random : list Z) (s : Str) (n : Z) (base64 : bool) : option (Str * bool) :=
  let base_encode_size := BASE64_ENCODE_OUT_SIZE n + 1 in
  let new_size := u64 (slen s + n + (if base64 then base_encode_size else 0)) in
  s ← (if ssize s <? new_size then reserve s (size_align (u64 (new_size * 2)) pagesize) else Some s);
  m ← zblit (mem s) (slen s) (take (Z.to_nat n) random);
  if negb (zlen random =? n) then Some (mkStr m (slen s) (ssize s) (soff s) (sallocator s), false) else
  '(m, n) ← (if base64 then
               d ← zsub m (slen s) n;
               '(out, n) ← base64_encode d (fresh base_encode_size);
               e ← zsub out 0 n;
               m ← zblit m (slen s) e;
               Some (m, n)
             else Some (m, n));
  Some (mkStr m (u64 (slen s + n)) (ssize s) (soff s) (sallocator s), true).
End format.

(** ** Numbers *)

(** The digits of a number, the last one first *)
Definition digits_of (n : Z) : list Z := rev (print_number 10 n).

Lemma print_loop_fuel f1 f2 n acc : 0 <= n < 10 ^ Z.of_nat (S f1) -> n < 10 ^ Z.of_nat (S f2) -> print_loop f1 10 n acc = print_loop f2 10 n acc.
Proof.
  revert f2 n acc. induction f1 as [|f1 IH]; intros f2 n acc H1 H2; destruct f2 as [|f2]; cbn [print_loop]; try done.
  - rewrite Z.div_small by (change (Z.of_nat 1) with 1 in H1; lia). done.
  - rewrite Z.div_small by (change (Z.of_nat 1) with 1 in H2; lia). done.
  - case_match; [done|]. apply IH; [split; [apply Z.div_pos; lia|]|]; apply Z.div_lt_upper_bound; try lia; rewrite <- Z.pow_succ_r by lia.
    + replace (Z.succ (Z.of_nat (S f1))) with (Z.of_nat (S (S f1))) by lia. lia.
    + replace (Z.succ (Z.of_nat (S f2))) with (Z.of_nat (S (S f2))) by lia. lia.
Qed.

(** What [swap_loop] does between [i] and [j] *)
Lemma swap_loop_rev fuel : forall pre l post, (length l <= 2 * fuel + 1)%nat ->
  swap_loop fuel (pre ++ l ++ post) (zlen pre) (zlen pre + zlen l - 1) = Some (pre ++ rev l ++ post).
Proof.
  induction fuel as [|fuel IH]; intros pre l post Hl; cbn [swap_loop].
  - rewrite (proj2 (Z.ltb_ge _ _)) by lia. destruct l as [|a [|b l]]; [done..|cbn in Hl; lia].
  - destruct l as [|a l]; [rewrite (proj2 (Z.ltb_ge _ _)) by (cbn; lia); done|].
    destruct l as [|b l _] using rev_ind; [rewrite (proj2 (Z.ltb_ge _ _)) by (cbn; lia); done|].
    cbn [length] in Hl. rewrite length_app in Hl. cbn [length] in Hl. cbn [length]. rewrite length_app. cbn [length].
    rewrite (proj2 (Z.ltb_lt _ _)) by lia.
    replace (zlen pre + Z.of_nat (S (length l + 1)) - 1) with (zlen (pre ++ a :: l)) by (rewrite length_app; cbn [length]; lia).
    replace (pre ++ (a :: l ++ [b]) ++ post) with (pre ++ a :: l ++ b :: post) by (cbn [app]; by rewrite <- app_assoc).
    assert (zget (pre ++ a :: l ++ b :: post) (zlen pre) = Some a) as -> by (rewrite zget_app_r, Z.sub_diag by lia; done).
    assert (zget (pre ++ a :: l ++ b :: post) (zlen (pre ++ a :: l)) = Some b) as ->.
    { change (pre ++ a :: l ++ b :: post) with (pre ++ (a :: l) ++ b :: post). rewrite app_assoc, zget_app_r, Z.sub_diag by lia. done. }
    cbn [mbind option_bind]. rewrite zset_app. cbn [mbind option_bind].
    change (pre ++ b :: l ++ b :: post) with (pre ++ (b :: l) ++ b :: post). rewrite app_assoc.
    replace (zlen (pre ++ a :: l)) with (zlen (pre ++ b :: l)) by (rewrite !length_app; done). rewrite zset_app. cbn [mbind option_bind].
    specialize (IH (pre ++ [b]) l (a :: post)). rewrite length_app in IH. cbn [length] in IH.
    replace ((pre ++ b :: l) ++ a :: post) with ((pre ++ [b]) ++ l ++ a :: post) by (by rewrite <- !app_assoc).
    replace (zlen pre + 1) with (Z.of_nat (length pre + 1)) by lia.
    replace (zlen (pre ++ b :: l) - 1) with (Z.of_nat (length pre + 1) + zlen l - 1) by (rewrite length_app; cbn [length]; lia).
    rewrite IH by lia. f_equal. cbn [rev]. rewrite rev_app_distr. cbn [rev app]. rewrite <- !app_assoc. done.
Qed.

Lemma print_number_fuel f n : 0 <= n < 10 ^ Z.of_nat (S f) -> print_number 10 n = print_loop f 10 n [].
Proof.
  intros Hn. unfold print_number. apply print_loop_fuel; [|lia]. split; [lia|]. rewrite Nat2Z.inj_succ, Z2Nat.id by apply Z.log2_nonneg.
  destruct (decide (n = 0)) as [->|Hne]; [apply Z.pow_pos_nonneg; simpl; lia|].
  pose proof (Z.log2_spec n ltac:(lia)) as [_ Hlog]. eapply Z.lt_le_trans; [exact Hlog|]. apply Z.pow_le_mono_l. lia.
Qed.

Lemma print_loop_app fuel n acc : print_loop fuel 10 n acc = print_loop fuel 10 n [] ++ acc.
Proof.
  revert n acc. induction fuel as [|fuel IH]; intros n acc; cbn [print_loop]; [done|]. case_match; [done|].
  rewrite IH, (IH _ [_]), <- app_assoc. done.
Qed.

Lemma print_loop_length fuel n : (length (print_loop fuel 10 n []) <= S fuel)%nat.
Proof.
  revert n. induction fuel as [|fuel IH]; intros n; cbn [print_loop]; [cbn; lia|]. case_match; [cbn; lia|].
  rewrite print_loop_app, length_app. specialize (IH (n / 10)). cbn [length]. lia.
Qed.

Lemma print_loop_positive fuel n : ~ (length (print_loop fuel 10 n []) <= 0)%nat.
Proof. destruct fuel; cbn [print_loop]; [cbn; lia|]. case_match; [cbn; lia|]. rewrite print_loop_app, length_app. cbn. lia. Qed.

Lemma itoa_loop_ok fuel : forall pre rest n, 0 <= n < 10 ^ Z.of_nat (S fuel) -> (length (print_loop fuel 10 n []) <= length rest)%nat ->
  let ds := print_loop fuel 10 n [] in
  itoa_loop fuel (pre ++ rest) (zlen pre) n = Some (pre ++ rev ds ++ drop (length ds) rest, zlen pre + zlen ds).
Proof.
  induction fuel as [|fuel IH]; intros pre rest n Hn Hl ds; subst ds; (destruct rest as [|x rest]; [by apply print_loop_positive in Hl|]); cbn [itoa_loop print_loop] in *.
  - rewrite zset_app. cbn [mbind option_bind]. change (Z.of_nat 1) with 1 in Hn. rewrite Z.div_small, Z.eqb_refl, Z.mod_small by lia.
    destruct (Z.ltb_spec n 10); [|lia]. cbn [rev app length drop]. rewrite drop_0, (Z.add_comm n). done.
  - rewrite zset_app. cbn [mbind option_bind]. pose proof (Z.mod_pos_bound n 10 ltac:(lia)). destruct (Z.ltb_spec (n mod 10) 10); [|lia].
    rewrite (Z.add_comm (n mod 10)) in *. set (c := 48 + n mod 10) in *. destruct (n / 10 =? 0).
    { cbn [rev app length drop]. rewrite drop_0. done. }
    rewrite print_loop_app, length_app in Hl. cbn [length] in Hl.
    rewrite (print_loop_app fuel (n / 10) [c]), rev_app_distr, length_app. cbn [rev app length].
    specialize (IH (pre ++ [c]) rest (n / 10)). cbv zeta in IH. rewrite length_app in IH. cbn [length] in IH.
    replace (pre ++ c :: rest) with ((pre ++ [c]) ++ rest) by (by rewrite <- app_assoc). replace (zlen pre + 1) with (Z.of_nat (length pre + 1)) by lia.
    rewrite IH; [| |lia].
    + rewrite <- app_assoc, (Nat.add_1_r (length (print_loop _ _ _ _))). cbn [app drop]. f_equal. f_equal. lia.
    + split; [apply Z.div_pos; lia|]. apply Z.div_lt_upper_bound; [lia|]. rewrite <- Z.pow_succ_r by lia.
      replace (Z.succ (Z.of_nat (S fuel))) with (Z.of_nat (S (S fuel))) by lia. apply Hn.
Qed.

(** The text of a number, with its null byte, in a buffer that is large enough *)
Lemma swoole_itoa_ok buf v : - 2 ^ 63 < v < 2 ^ 63 -> zlen (to_string v) < zlen buf ->
  exists rest, swoole_itoa buf v = Some (to_string v ++ 0 :: rest, zlen (to_string v)).
Proof.
  intros Hv Hl. unfold swoole_itoa. set (mask := Z.shiftr v 63).
  assert (exists neg : bool, mask = (if neg then -1 else 0) /\ u64 (Z.lxor (v + mask) mask) = Z.abs v /\ to_string v = (if neg then [45] else []) ++ print_number 10 (Z.abs v))
    as (neg & Hm & Hnn & Et).
  { unfold mask, to_string. rewrite Z.shiftr_div_pow2 by lia. destruct (Z.ltb_spec v 0) as [Hneg|Hpos].
    - exists true. replace (v / 2 ^ 63) with (-1) by (apply Z.div_unique with (v + 2 ^ 63); lia).
      rewrite Z.lxor_m1_r, <- (Z.abs_neq v) by lia. split; [done|]. split; [|done]. rewrite u64_id; unfold Z.lnot; lia.
    - exists false. rewrite Z.div_small by lia. rewrite Z.lxor_0_r, Z.add_0_r, Z.abs_eq by lia. split; [done|]. split; [|done]. apply u64_id. lia. }
  rewrite Hnn. rewrite (print_number_fuel 20) in Et by lia. set (ds := print_loop 20 10 (Z.abs v) []) in *. rewrite Et in Hl |- *. rewrite length_app in Hl |- *.
  assert (Hds : (length ds < length buf)%nat) by (destruct neg; cbn [length] in *; lia).
  pose proof (itoa_loop_ok 20 [] buf (Z.abs v)) as Hi. cbv zeta in Hi. fold ds in Hi. cbn [app length] in Hi. change (Z.of_nat 0) with 0 in Hi. rewrite Hi by lia.
  cbn [mbind option_bind]. rewrite Z.add_0_l. destruct (drop (length ds) buf) as [|x rest] eqn:Ed.
  { apply (f_equal length) in Ed. rewrite length_drop in Ed. cbn [length] in Ed. lia. }
  replace (zlen ds) with (zlen (rev ds)) by (by rewrite length_rev). rewrite zset_app. cbn [mbind option_bind]. rewrite Hm.
  assert (Hsw : forall l y post, (length l <= 41)%nat -> swap_loop 20 (l ++ y :: post) 0 (zlen l - 1) = Some (rev l ++ y :: post)) by
    (intros l y post Hll; exact (swap_loop_rev 20 [] l (y :: post) Hll)).
  pose proof (print_loop_length 20 (Z.abs v)) as Hpl. fold ds in Hpl. destruct neg.
  - destruct rest as [|y rest]; [apply (f_equal length) in Ed; rewrite length_drop in Ed; cbn [length] in *; lia|].
    change (Z.land (-1) 1) with 1. replace (zlen (rev ds) + 1) with (zlen (rev ds ++ [45])) by (rewrite length_app; cbn [length]; lia).
    replace (rev ds ++ 45 :: y :: rest) with ((rev ds ++ [45]) ++ y :: rest) by (by rewrite <- app_assoc). rewrite zset_app. cbn [mbind option_bind].
    rewrite Hsw by (rewrite length_app, length_rev; cbn [length]; lia). cbn [mbind option_bind]. rewrite rev_app_distr, rev_involutive. cbn [rev app].
    replace (zlen (rev ds ++ [45])) with (zlen (45 :: ds)) by (rewrite length_app, length_rev; cbn [length]; lia).
    change (45 :: ds ++ 0 :: rest) with ((45 :: ds) ++ 0 :: rest). rewrite zset_app. cbn [mbind option_bind]. exists rest. do 2 f_equal.
  - change (Z.land 0 1) with 0. rewrite Z.add_0_r, zset_app. cbn [mbind option_bind]. rewrite Hsw by (rewrite length_rev; lia). cbn [mbind option_bind].
    rewrite rev_involutive, length_rev, zset_app. cbn [mbind option_bind app length]. by exists rest.
Qed.

(** ** Text *)

Section proof.
Context `{Allocator}.

Lemma sw_snprintf_fits m p size text : 0 <= p -> zlen text < size -> p + size <= zlen m ->
  exists m1 m2, sw_snprintf m p size text = Some (m1, zlen text) /\ zblit m p text = Some m2 /\ length m1 = length m /\
    take (Z.to_nat (p + zlen text)) m1 = take (Z.to_nat (p + zlen text)) m2.
Proof.
  intros Hp Hs Hm. unfold sw_snprintf. destruct (Z.eqb_spec size 0); [lia|]. rewrite take_ge by lia.
  destruct (zblit_in_bounds m p (text ++ [0])) as [m1 E1]; [lia|rewrite length_app; cbn [length]; lia|].
  destruct (zblit_in_bounds m p text) as [m2 E2]; [lia..|]. rewrite E1. exists m1, m2. split; [done|]. split; [done|].
  split; [by eapply zblit_length|]. apply zblit_Some in E1 as (_ & _ & ->). apply zblit_Some in E2 as (_ & _ & ->).
  rewrite !(take_app_ge (take _ _)) by (rewrite length_take; lia). f_equal. rewrite length_take, Nat.min_l by lia.
  replace (Z.to_nat (p + zlen text) - Z.to_nat p)%nat with (length text) by lia. rewrite <- app_assoc. by rewrite !take_app_length.
Qed.

(** [append_format] adds the text, [format] leaves nothing else *)
Lemma format_impl_ok append_ s text : str_wf s -> text <> [] -> slen s + zlen text + 1 <= max_len ->
  exists s', format_impl append_ false s text = Some (s', zlen text) /\ str_wf s' /\
    contents s' = (if append_ then contents s ++ text else text) /\ soff s' = soff s.
Proof.
  intros Hwf Hne Hb. pose proof (st_len _ Hwf) as Hl. pose proof (st_size _ Hwf) as Hsz. pose proof (st_mem _ Hwf) as Hmem. unfold format_impl.
  assert (0 < zlen text) by (destruct text; [done|cbn [length]; lia]). destruct (Z.eqb_spec (zlen text) 0); [lia|]. unfold max_len in Hb. cbn [mbind option_bind].
  destruct append_.
  - rewrite !u64_id by lia.
    assert (exists s1, (if ssize s - slen s <? zlen text + 1 then reserve s (slen s + (zlen text + 1)) else Some s) = Some s1 /\ resized s s1 /\ slen s + zlen text + 1 <= ssize s1)
      as (s1 & -> & [Hwf1 Hc1 Hl1 Ho1] & Hs1).
    { destruct (Z.ltb_spec (ssize s - slen s) (zlen text + 1)).
      - destruct (reserve_ok s (slen s + (zlen text + 1))) as (s1 & -> & ? & ?); [done|lia|unfold max_len; lia|]. exists s1. split_and!; [done|done|lia].
      - exists s. split_and!; [done|by apply resized_refl|lia]. }
    cbn [mbind option_bind]. pose proof (st_size _ Hwf1). pose proof (st_len _ Hwf1). pose proof (st_mem _ Hwf1). rewrite u64_id by lia.
    destruct (sw_snprintf_fits (mem s1) (slen s1) (ssize s1 - slen s1) text) as (m1 & m2 & -> & E2 & Em & Et); [lia..|]. cbn [mbind option_bind]. rewrite u64_id by lia.
    eexists. split; [done|]. split; [constructor; cbn [mem slen ssize soff sallocator]; try apply Hwf1; lia|]. split; [|done].
    destruct (blit_contents s1 (slen s1) text m2 (slen s1 + zlen text)) as [_ Ec]; [done|lia|done|lia|].
    unfold contents in Ec at 1. unfold contents at 1. cbn [mem slen] in *. rewrite Et, Ec, Hc1. pose proof (contents_length _ Hwf). rewrite take_ge, drop_ge, app_nil_r by lia. done.
  - assert (exists s1, (if ssize s <? zlen text + 1 then reserve s (zlen text + 1) else Some s) = Some s1 /\ str_wf s1 /\ soff s1 = soff s /\ zlen text + 1 <= ssize s1)
      as (s1 & -> & Hwf1 & Ho1 & Hs1).
    { destruct (Z.ltb_spec (ssize s) (zlen text + 1)).
      - destruct (reserve_ok s (zlen text + 1)) as (s1 & -> & [] & ?); [done|lia|unfold max_len; lia|]. exists s1. split_and!; [done|done|done|lia].
      - exists s. split_and!; [done|done|done|lia]. }
    cbn [mbind option_bind]. pose proof (st_mem _ Hwf1).
    destruct (sw_snprintf_fits (mem s1) 0 (ssize s1) text) as (m1 & m2 & -> & E2 & Em & Et); [lia..|]. cbn [mbind option_bind].
    eexists. split; [done|]. split; [constructor; cbn [mem slen ssize soff sallocator]; try apply Hwf1; lia|]. split; [|done].
    unfold contents. cbn [mem slen]. rewrite Z.add_0_l in Et. rewrite Et. apply zblit_Some in E2 as (_ & _ & ->). rewrite take_0, Nat2Z.id. cbn [app]. by rewrite take_app_length.
Qed.

(** [append(int)] adds the digits of the number *)
Lemma append_int_ok stack s v : zlen stack = 16 -> - 2 ^ 31 <= v < 2 ^ 31 -> str_wf s -> slen s + 16 <= max_len ->
  exists s', append_int stack s v = Some s' /\ str_wf s' /\ contents s' = contents s ++ to_string v.
Proof.
  intros Hst Hv Hwf Hb. assert (Ht : zlen (to_string v) <= 11).
  { unfold to_string. destruct (Z.ltb_spec v 0); rewrite (print_number_fuel 9) by lia; pose proof (print_loop_length 9); cbn [length]; [specialize (H1 (- v))|specialize (H1 v)]; lia. }
  unfold append_int. destruct (swoole_itoa_ok stack v) as (rest & E); [lia|lia|]. rewrite E. cbn [mbind option_bind].
  destruct (append_ok s (to_string v)) as (s' & Ea & Hwf' & Hc & _); [done|lia|]. exists s'. rewrite <- Ea. unfold append. split; [|done].
  destruct (reserve_for _ _) as [s1|]; [|done]. cbn [mbind option_bind].
  assert (zsub (to_string v ++ 0 :: rest) 0 (zlen (to_string v)) = Some (to_string v)) as -> by exact (zsub_app [] (to_string v) (0 :: rest)). done.
Qed.
(** [append_random_bytes] adds the random bytes, or what they are in Base64, or nothing *)
Lemma append_random_bytes_ok pagesize random s n base64 : 0 < pagesize -> Forall byte random -> 0 <= n -> zlen random <= n ->
  str_wf s -> 2 * (slen s + 3 * n + 5) + pagesize <= max_len ->
  exists s', append_random_bytes pagesize random s n base64 = Some (s', bool_decide (zlen random = n)) /\ str_wf s' /\
    contents s' = contents s ++ (if bool_decide (zlen random = n) then if base64 then code random else random else []).
Proof.
  intros Hp Hr Hn Hrn Hwf Hb. unfold max_len in Hb. pose proof (st_len _ Hwf) as Hl. pose proof (st_size _ Hwf). unfold append_random_bytes.
  assert (He : 0 <= BASE64_ENCODE_OUT_SIZE n <= 2 * n + 4) by (unfold BASE64_ENCODE_OUT_SIZE; pose proof (Z.div_mod (n + 2) 3); pose proof (Z.mod_pos_bound (n + 2) 3); lia).
  set (new_size := slen s + n + (if base64 then BASE64_ENCODE_OUT_SIZE n + 1 else 0)).
  assert (Hns : slen s + n + (if base64 then BASE64_ENCODE_OUT_SIZE n + 1 else 0) = new_size /\ slen s + n <= new_size <= slen s + 3 * n + 5) by (subst new_size; destruct base64; lia).
  rewrite (u64_id new_size), (u64_id (new_size * 2)) by lia.
  assert (exists s1, (if ssize s <? new_size then reserve s (size_align (new_size * 2) pagesize) else Some s) = Some s1 /\ resized s s1 /\ new_size <= ssize s1)
    as (s1 & -> & [Hwf1 Hc1 Hl1 Ho1] & Hs1).
  { destruct (Z.ltb_spec (ssize s) new_size); [|exists s; split_and!; [done|by apply resized_refl|lia]].
    assert (new_size * 2 < size_align (new_size * 2) pagesize <= new_size * 2 + pagesize) by (unfold size_align; pose proof (Z.mod_pos_bound (new_size * 2) pagesize); lia). destruct (reserve_ok s (size_align (new_size * 2) pagesize)) as (s1 & -> & ? & ?); [done|lia|unfold max_len; lia|].
    exists s1. split_and!; [done|done|lia]. }
  cbn [mbind option_bind]. pose proof (st_mem _ Hwf1). rewrite (take_ge random) by lia.
  destruct (zblit_in_bounds (mem s1) (slen s1) random) as [m Em]; [lia..|]. rewrite Em. cbn [mbind option_bind]. pose proof (zblit_length _ _ _ _ Em).
  pose proof (contents_length _ Hwf) as Hcl. pose proof (contents_length _ Hwf1) as Hcl1.
  assert (Hadd : forall d m', zblit (mem s1) (slen s1) d = Some m' ->
    str_wf (mkStr m' (slen s1 + zlen d) (ssize s1) (soff s1) (sallocator s1)) /\ contents (mkStr m' (slen s1 + zlen d) (ssize s1) (soff s1) (sallocator s1)) = contents s ++ d).
  { intros d m' Ed. destruct (blit_contents s1 (slen s1) d m' (slen s1 + zlen d)) as [Hw Ec]; [done|pose proof (st_len _ Hwf1); lia|done|lia|]. split; [done|].
    rewrite Ec, Hc1, take_ge, drop_ge, app_nil_r by lia. done. }
  pose proof (st_size _ Hwf1). destruct (Z.eqb_spec (zlen random) n) as [<-|Hne]; cbn [negb].
  2:{ rewrite bool_decide_false by done. eexists. split; [done|]. destruct (Hadd random m Em) as [Hw Ec]. rewrite app_nil_r. split.
      - constructor; cbn [mem slen ssize soff sallocator]; try apply Hwf1; lia.
      - rewrite <- Hc1. unfold contents. cbn [mem slen]. apply zblit_Some in Em as (_ & _ & ->). rewrite take_app_le by (rewrite length_take; lia). rewrite take_take. f_equal. lia. }
  rewrite bool_decide_true by done. destruct base64; cbn [mbind option_bind].
  2:{ rewrite u64_id by lia. eexists. split; [done|]. by apply Hadd. }
  rewrite (zsub_zblit _ _ _ _ Em). cbn [mbind option_bind]. pose proof (code_length (length random) random (le_n _)) as Hcode.
  destruct (encode_spec random (fresh (BASE64_ENCODE_OUT_SIZE (zlen random) + 1))) as [r Er]; [done|pose proof (fresh_length (BASE64_ENCODE_OUT_SIZE (zlen random) + 1)); unfold BASE64_ENCODE_OUT_SIZE in *; lia|].
  rewrite Er. cbn [mbind option_bind]. assert (zsub (code random ++ 0 :: r) 0 (zlen (code random)) = Some (code random)) as -> by exact (zsub_app [] (code random) (0 :: r)).
  cbn [mbind option_bind]. assert (Hce : zlen (code random) = BASE64_ENCODE_OUT_SIZE (zlen random)) by (unfold BASE64_ENCODE_OUT_SIZE; lia).
  destruct (zblit_in_bounds (mem s1) (slen s1) (code random)) as [m2 E2]; [lia..|].
  destruct (zblit_in_bounds m (slen s1) (code random)) as [m3 E3]; [lia..|]. rewrite E3. cbn [mbind option_bind]. rewrite u64_id by lia.
  destruct (Hadd _ _ E2) as [Hw Ec]. eexists. split; [done|]. pose proof (zblit_length _ _ _ _ E3). split.
  - constructor; cbn [mem slen ssize soff sallocator]; try apply Hw; lia.
  - rewrite <- Ec. unfold contents. cbn [mem slen]. apply zblit_Some in E2 as (_ & _ & ->). apply zblit_Some in E3 as (_ & _ & ->).
    assert (take (Z.to_nat (slen s1)) m = take (Z.to_nat (slen s1)) (mem s1)) as ->.
    { apply zblit_Some in Em as (_ & _ & ->). rewrite take_app_le by (rewrite length_take; lia). rewrite take_take. f_equal. lia. }
    rewrite !(app_assoc (take _ _)). rewrite !take_app_length' by (rewrite length_app, length_take; lia). done.
Qed.
End proof.
