(* ===== verification/Multipart.v ===== *)
(** * Multipart form data

    [thirdparty/multipart_parser.c]: the state machine that takes the body of a form
    apart and calls back with the headers and the data of its parts.  The callbacks are
    one function on events, which get the data with the index where it lies in the
    buffer; what they return can pause or stop the parser.  [tail] is the memory from
    the array [boundary] to the end of the object: the array is followed by the fields
    [error_expected] and [error_unexpected] and by what [multipart_parser_init]
    allocates behind the structure. *)

From stdpp Require Import strings.
From S2P Require Import Prelude CStr.

(** ** Definitions *)

Inductive state :=
  | s_uninitialized | s_start | s_start_boundary | s_header_field_start | s_header_field | s_headers_almost_done
  | s_header_value_start | s_header_value | s_header_value_almost_done | s_part_data_start | s_part_data
  | s_part_data_almost_boundary | s_part_data_boundary | s_part_data_almost_end | s_part_data_end
  | s_part_data_final_hyphen | s_end.

Inductive multipart_error :=
  | MPPE_OK | MPPE_PAUSED | MPPE_UNKNOWN | MPPE_BOUNDARY_END_NO_CRLF | MPPE_BAD_START_BOUNDARY
  | MPPE_INVALID_HEADER_FIELD_CHAR | MPPE_INVALID_HEADER_VALUE_CHAR | MPPE_BAD_PART_END | MPPE_END_BOUNDARY_NO_DASH
  | MPPE_HEADER_VALUE_INCOMPLETE.
Definition MPPE_ERROR : Z := -1.

(** [struct multipart_parser] without the fields of the user *)
Record multipart_parser := mkParser {
  index : Z;
  error_i : Z;
  boundary_length : Z;
  pstate : state;
  error_reason : multipart_error;
  tail : list Z;
}.
Definition with_index p i := mkParser i (error_i p) (boundary_length p) (pstate p) (error_reason p) (tail p).
Definition with_state p s := mkParser (index p) (error_i p) (boundary_length p) s (error_reason p) (tail p).
Definition with_tail p t := mkParser (index p) (error_i p) (boundary_length p) (pstate p) (error_reason p) t.

(** The size of [boundary], and what follows it in the structure of 208 bytes *)
Definition BOUNDARY_SIZE : Z := 153.
Definition STRUCT_TAIL : Z := 158.
Definition put_error_expected p c : option multipart_parser := t ← zset (tail p) BOUNDARY_SIZE c; Some (with_tail p t).
Definition put_error_unexpected p c : option multipart_parser := t ← zset (tail p) (BOUNDARY_SIZE + 1) c; Some (with_tail p t).

(** [multipart_parser_init] *)
Definition multipart_parser_init (boundary : list Z) : option multipart_parser :=
  let n := zlen boundary in
  t ← zblit (repeat 0 (Z.to_nat (STRUCT_TAIL + n + n + 9 + 4))) 0 [45; 45];
  t ← zblit t 2 boundary;
  t ← zset t (2 + n) 0;
  let p := mkParser 0 0 (u8 (n + 2)) s_start MPPE_OK t in
  p ← put_error_unexpected p 0;
  put_error_expected p 0.

Inductive event :=
  | on_header_field (at_ : Z) (d : list Z)
  | on_header_value (at_ : Z) (d : list Z)
  | on_part_data (d : list Z)
  | on_part_data_begin
  | on_headers_complete
  | on_part_data_end
  | on_body_end.

Section parser.
Context {U : Type} (emit : U -> event -> option (U * Z)).

(** One turn of the loop goes on with the parser, the user and [mark], or returns *)
Inductive outcome := Next (p : multipart_parser) (u : U) (mark : Z) | Return (p : multipart_parser) (u : U) (r : Z).

(** [NOTIFY_CB] and [EMIT_DATA_CB] *)
Definition callback (p : multipart_parser) (u : U) (e : event) (r : Z) (k : U -> option outcome) : option outcome :=
  '(u, ret) ← emit u e;
  if ret =? 1 then Some (Return p u r) else if negb (ret =? 0) then Some (Return p u MPPE_ERROR) else k u.

(** [ERROR_OUT] and [ERROR_EXPECT] *)
Definition error_out (p : multipart_parser) (u : U) (i c : Z) (reason : multipart_error) : option outcome :=
  p ← put_error_unexpected p c;
  Some (Return (mkParser (index p) i (boundary_length p) (pstate p) reason (tail p)) u MPPE_ERROR).
Definition error_expect (p : multipart_parser) (u : U) (i c : Z) (reason : multipart_error) (ch : Z) : option outcome :=
  p ← put_error_expected p ch; error_out p u i c reason.

(** [buf + from, length] of the callbacks *)
Definition slice (buf : list Z) (from n : Z) : option (list Z) := zsub buf from n.

(** From the label [data_rollback] on *)
Definition part_data (buf : list Z) (p : multipart_parser) (u : U) (mark i c : Z) (is_last : bool) : option outcome :=
  let mark_end := i + 1 in
  if c =? CR then
    let k u := Some (Next (with_state p s_part_data_almost_boundary) u i) in
    if 0 <? mark_end - mark - 1 then d ← slice buf mark (mark_end - mark - 1); callback p u (on_part_data d) (i + 1) k else k u
  else if is_last then d ← slice buf mark (mark_end - mark); callback p u (on_part_data d) (i + 1) (fun u => Some (Next p u mark))
  else Some (Next p u mark).

Definition start_boundary (p : multipart_parser) (u : U) (mark i c : Z) : option outcome :=
  if index p =? boundary_length p then
    if c =? 45 then Some (Next (with_index (with_state p s_part_data_final_hyphen) (index p + 1)) u mark)
    else if negb (c =? CR) then error_expect p u i c MPPE_BOUNDARY_END_NO_CRLF CR
    else Some (Next (with_index p (index p + 1)) u mark)
  else if index p =? boundary_length p + 1 then
    if negb (c =? LF) then error_expect p u i c MPPE_BOUNDARY_END_NO_CRLF LF
    else
      let p := with_state (with_index p 0) s_header_field_start in
      callback p u on_part_data_begin (i + 1) (fun u => Some (Next p u mark))
  else
    b ← zget (tail p) (index p);
    if negb (c =? b) then error_expect p u i c MPPE_BAD_START_BOUNDARY b
    else Some (Next (with_index p (index p + 1)) u mark).

Definition header_field (buf : list Z) (p : multipart_parser) (u : U) (mark i c : Z) (is_last : bool) : option outcome :=
  let last_one := d ← slice buf mark (i - mark + 1); callback p u (on_header_field mark d) (i + 1) (fun u => Some (Next p u mark)) in
  if c =? CR then Some (Next (with_state p s_headers_almost_done) u mark)
  else if c =? 45 then if is_last then last_one else Some (Next p u mark)
  else if c =? 58 then
    let p := with_state p s_header_value_start in
    d ← slice buf mark (i - mark); callback p u (on_header_field mark d) (i + 1) (fun u => Some (Next p u mark))
  else
    let cl := Z.lor c 32 in
    if (cl <? 97) || (122 <? cl) then p ← put_error_unexpected p c; error_out p u i c MPPE_INVALID_HEADER_FIELD_CHAR
    else if is_last then last_one else Some (Next p u mark).

Definition header_value (buf : list Z) (p : multipart_parser) (u : U) (mark i c : Z) (is_last : bool) : option outcome :=
  if c =? CR then
    let p := with_state p s_header_value_almost_done in
    d ← slice buf mark (i - mark); callback p u (on_header_value mark d) (i + 1) (fun u => Some (Next p u mark))
  else if is_last then error_expect p u i c MPPE_HEADER_VALUE_INCOMPLETE CR
  else Some (Next p u mark).

(** The switch; [char] is signed, which matters in the comparison of letters *)
Definition turn (buf : list Z) (p : multipart_parser) (u : U) (mark i c : Z) (is_last : bool) : option outcome :=
  match pstate p with
  | s_start => start_boundary (with_state (with_index p 0) s_start_boundary) u mark i c
  | s_start_boundary => start_boundary p u mark i c
  | s_header_field_start => header_field buf (with_state p s_header_field) u i i c is_last
  | s_header_field => header_field buf p u mark i c is_last
  | s_headers_almost_done =>
      if negb (c =? LF) then error_expect p u i c MPPE_INVALID_HEADER_VALUE_CHAR LF
      else Some (Next (with_state p s_part_data_start) u mark)
  | s_header_value_start =>
      if c =? 32 then Some (Next p u mark) else header_value buf (with_state p s_header_value) u i i c is_last
  | s_header_value => header_value buf p u mark i c is_last
  | s_header_value_almost_done =>
      if negb (c =? LF) then error_expect p u i c MPPE_INVALID_HEADER_VALUE_CHAR LF
      else Some (Next (with_state p s_header_field_start) u mark)
  | s_part_data_start =>
      let p := with_state p s_part_data in
      callback p u on_headers_complete i (fun u => part_data buf p u i i c is_last)
  | s_part_data => part_data buf p u mark i c is_last
  | s_part_data_almost_boundary =>
      if negb (c =? LF) then
        callback p u (on_part_data [CR]) (i + 1) (fun u => part_data buf (with_state p s_part_data) u i i c is_last)
      else Some (Next (with_index (with_state p s_part_data_boundary) 0) u mark)
  | s_part_data_boundary =>
      b ← zget (tail p) (index p);
      if negb (b =? c) then
        callback p u (on_part_data CRLF) (i + 1) (fun u =>
          let k u := part_data buf (with_state p s_part_data) u i i c is_last in
          if 0 <? index p then d ← zsub (tail p) 0 (index p); callback p u (on_part_data d) (i + 1) k else k u)
      else
        let p := with_index p (index p + 1) in
        Some (Next (if index p =? boundary_length p then with_state p s_part_data_almost_end else p) u mark)
  | s_part_data_almost_end =>
      if c =? 45 then
        let p := with_state p s_part_data_final_hyphen in
        callback p u on_part_data_end (i + 1) (fun u => Some (Next p u mark))
      else if c =? CR then
        let p := with_state p s_part_data_end in
        callback p u on_part_data_end (i + 1) (fun u => Some (Next p u mark))
      else error_out p u i c MPPE_BAD_PART_END
  | s_part_data_final_hyphen =>
      if c =? 45 then
        let p := with_state p s_end in
        callback p u on_body_end i (fun u => Some (Next p u mark))
      else error_expect p u i c MPPE_END_BOUNDARY_NO_DASH 45
  | s_part_data_end =>
      if c =? LF then
        let p := with_state p s_header_field_start in
        callback p u on_part_data_begin (i + 1) (fun u => Some (Next p u mark))
      else error_expect p u i c MPPE_END_BOUNDARY_NO_DASH 45
  | s_end => Some (Next p u mark)
  | s_uninitialized => error_out p u i c MPPE_UNKNOWN
  end.

(** [multipart_parser_execute]; [rest] is the number of bytes that are left *)
Fixpoint execute_loop (rest : nat) (buf : list Z) (p : multipart_parser) (u : U) (mark i : Z) : option (multipart_parser * U * Z) :=
  match rest with
  | O => Some (p, u, i)
  | S rest =>
      c ← zget buf i;
      o ← turn buf p u mark i c (i =? zlen buf - 1);
      match o with
      | Next p u mark => execute_loop rest buf p u mark (i + 1)
      | Return p u r => Some (p, u, r)
      end
  end.
Definition multipart_parser_execute (p : multipart_parser) (u : U) (buf : list Z) : option (multipart_parser * U * Z) :=
  execute_loop (length buf) buf p u 0 0.
End parser.
Arguments outcome : clear implicits.

(** ** Memory safety *)

Create HintDb multipart.

(** The parser works on its boundary, and compares inside of it. *)
Record parser_ok (p : multipart_parser) : Prop := {
  po_tail : BOUNDARY_SIZE + 2 <= zlen (tail p);
  po_length : 0 < boundary_length p < zlen (tail p);
  po_index : 0 <= index p;
  po_start : pstate p = s_start_boundary -> index p <= boundary_length p + 1;
  po_boundary : pstate p = s_part_data_boundary -> index p < boundary_length p;
}.

Section safety.
Context {U : Type} (emit : U -> event -> option (U * Z)).
Hypothesis emit_total : forall u e, exists u' r, emit u e = Some (u', r).

Definition outcome_ok (i : Z) (o : outcome U) : Prop :=
  match o with
  | Next p _ mark => parser_ok p /\ 0 <= mark <= i + 1
  | Return p _ r => parser_ok p /\ (r = MPPE_ERROR \/ i <= r <= i + 1)
  end.

Lemma put_error_ok p c : parser_ok p ->
  (exists p', put_error_expected p c = Some p' /\ parser_ok p' /\ pstate p' = pstate p /\ index p' = index p) /\
  (exists p', put_error_unexpected p c = Some p' /\ parser_ok p' /\ pstate p' = pstate p /\ index p' = index p).
Proof.
  intros [Ht Hl Hi Hs Hb]. unfold put_error_expected, put_error_unexpected, BOUNDARY_SIZE in *.
  split; [destruct (zset_in (tail p) 153 c) as (t & -> & El); [lia|]|destruct (zset_in (tail p) (153 + 1) c) as (t & -> & El); [lia|]];
    cbn [mbind option_bind]; eexists; (split; [done|]); (split; [|done]);
    split; cbn [with_tail tail boundary_length index pstate]; rewrite ?El; done.
Qed.

Lemma callback_ok p u e r k i : parser_ok p -> i <= r <= i + 1 -> (forall u, exists o, k u = Some o /\ outcome_ok i o) ->
  exists o, callback emit p u e r k = Some o /\ outcome_ok i o.
Proof.
  intros Hp Hr Hk. unfold callback. destruct (emit_total u e) as (u' & ret & ->). cbn [mbind option_bind].
  destruct (ret =? 1); [eexists; split; [done|]; split; [done|by right]|].
  destruct (negb (ret =? 0)); [eexists; split; [done|]; split; [done|by left]|]. apply Hk.
Qed.

Lemma error_out_ok p u i c reason : parser_ok p -> exists o, error_out (U := U) p u i c reason = Some o /\ outcome_ok i o.
Proof.
  intros Hp. unfold error_out. destruct (put_error_ok p c Hp) as (_ & p' & -> & Hp' & _). cbn [mbind option_bind].
  eexists. split; [done|]. split; [|by left]. by destruct Hp'.
Qed.

Lemma error_expect_ok p u i c reason ch : parser_ok p -> exists o, error_expect (U := U) p u i c reason ch = Some o /\ outcome_ok i o.
Proof.
  intros Hp. unfold error_expect. destruct (put_error_ok p ch Hp) as ((p' & -> & Hp' & _) & _). cbn [mbind option_bind]. by apply error_out_ok.
Qed.

(** Changes of the state that leave the comparison. *)
Lemma with_state_ok p s : parser_ok p -> s <> s_start_boundary -> s <> s_part_data_boundary -> parser_ok (with_state p s).
Proof. intros [? ? ? ? ?] ? ?. by split. Qed.

Lemma next_ok p u mark i : parser_ok p -> 0 <= mark <= i + 1 -> exists o : outcome U, Some (Next p u mark) = Some o /\ outcome_ok i o.
Proof. intros. eexists. by split. Qed.

#[local] Hint Resolve next_ok error_out_ok error_expect_ok with_state_ok : multipart.

Lemma slice_ok buf mark n : 0 <= mark -> 0 <= n -> mark + n <= zlen buf -> exists d, slice buf mark n = Some d.
Proof. intros. by apply zsub_in_bounds. Qed.

Lemma part_data_ok buf p u mark i c is_last : parser_ok p -> 0 <= mark <= i -> i < zlen buf ->
  exists o, part_data emit buf p u mark i c is_last = Some o /\ outcome_ok i o.
Proof.
  intros Hp Hm Hi. unfold part_data. destruct (c =? CR).
  - assert (forall u, exists o : outcome U, Some (Next (with_state p s_part_data_almost_boundary) u i) = Some o /\ outcome_ok i o) as Hk
      by (intros; apply next_ok; [by apply with_state_ok|lia]).
    destruct (Z.ltb_spec 0 (i + 1 - mark - 1)); [|apply Hk]. destruct (slice_ok buf mark (i + 1 - mark - 1)) as [d ->]; [lia..|].
    cbn [mbind option_bind]. by apply callback_ok; [|lia|].
  - destruct is_last; [|apply next_ok; [done|lia]]. destruct (slice_ok buf mark (i + 1 - mark)) as [d ->]; [lia..|].
    cbn [mbind option_bind]. apply callback_ok; [done|lia|]. intros. apply next_ok; [done|lia].
Qed.

Lemma header_field_ok buf p u mark i c is_last : parser_ok p -> 0 <= mark <= i -> i < zlen buf ->
  exists o, header_field emit buf p u mark i c is_last = Some o /\ outcome_ok i o.
Proof.
  intros Hp Hm Hi. assert (forall s, s <> s_start_boundary -> s <> s_part_data_boundary -> parser_ok (with_state p s)) as Hst by auto with multipart.
  assert (exists o, (d ← slice buf mark (i - mark + 1); callback emit p u (on_header_field mark d) (i + 1) (fun u => Some (Next p u mark))) = Some o /\ outcome_ok i o) as Hlast.
  { destruct (slice_ok buf mark (i - mark + 1)) as [d ->]; [lia..|]. cbn [mbind option_bind]. apply callback_ok; [done|lia|]. intros. apply next_ok; [done|lia]. }
  unfold header_field. destruct (c =? CR); [apply next_ok; [by apply Hst|lia]|]. destruct (c =? 45); [destruct is_last; [done|apply next_ok; [done|lia]]|].
  destruct (c =? 58).
  { destruct (slice_ok buf mark (i - mark)) as [d ->]; [lia..|]. cbn [mbind option_bind]. apply callback_ok; [by apply Hst|lia|].
    intros. apply next_ok; [by apply Hst|lia]. }
  destruct ((_ <? 97) || _).
  { destruct (put_error_ok p c Hp) as (_ & p' & -> & Hp' & _). cbn [mbind option_bind]. by apply error_out_ok. }
  destruct is_last; [done|]. apply next_ok; [done|lia].
Qed.

Lemma header_value_ok buf p u mark i c is_last : parser_ok p -> 0 <= mark <= i -> i < zlen buf ->
  exists o, header_value emit buf p u mark i c is_last = Some o /\ outcome_ok i o.
Proof.
  intros Hp Hm Hi. unfold header_value. destruct (c =? CR).
  { destruct (slice_ok buf mark (i - mark)) as [d ->]; [lia..|]. cbn [mbind option_bind]. apply callback_ok; [by apply with_state_ok|lia|].
    intros. apply next_ok; [by apply with_state_ok|lia]. }
  destruct is_last; [by apply error_expect_ok|]. apply next_ok; [done|lia].
Qed.

Lemma start_boundary_ok p u mark i c : parser_ok p -> pstate p = s_start_boundary -> 0 <= mark <= i ->
  exists o, start_boundary emit p u mark i c = Some o /\ outcome_ok i o.
Proof.
  intros Hp Hs Hm. pose proof Hp as [Ht Hl Hi Hst Hb]. specialize (Hst Hs). unfold start_boundary.
  destruct (Z.eqb_spec (index p) (boundary_length p)) as [E|E].
  - destruct (c =? 45).
    { apply next_ok; [|lia]. split; cbn [with_index with_state tail boundary_length index pstate]; done || lia. }
    destruct (negb (c =? CR)); [by apply error_expect_ok|]. apply next_ok; [|lia].
    split; cbn [with_index tail boundary_length index pstate]; rewrite ?Hs; done || lia.
  - destruct (Z.eqb_spec (index p) (boundary_length p + 1)) as [E'|E'].
    + destruct (negb (c =? LF)); [by apply error_expect_ok|]. apply callback_ok; [by split|lia|]. intros. apply next_ok; [by split|lia].
    + destruct (zget_in_bounds (tail p) (index p)) as [b ->]; [lia|]. cbn [mbind option_bind]. destruct (negb (c =? b)); [by apply error_expect_ok|].
      apply next_ok; [|lia]. split; cbn [with_index tail boundary_length index pstate]; rewrite ?Hs; done || lia.
Qed.

Lemma turn_ok buf p u mark i c is_last : parser_ok p -> 0 <= mark <= i -> i < zlen buf ->
  exists o, turn emit buf p u mark i c is_last = Some o /\ outcome_ok i o.
Proof.
  intros Hp Hm Hi. pose proof Hp as [Ht Hl Hx Hst Hb].
  assert (forall s, s <> s_start_boundary -> s <> s_part_data_boundary -> parser_ok (with_state p s)) as Hw by auto with multipart.
  unfold turn. destruct (pstate p) eqn:Es.
  - by apply error_out_ok.
  - apply start_boundary_ok; [|done|done]. split; cbn [with_index with_state tail boundary_length index pstate]; done || lia.
  - by apply start_boundary_ok.
  - apply header_field_ok; [by apply Hw|lia|done].
  - by apply header_field_ok.
  - destruct (negb (c =? LF)); [by apply error_expect_ok|]. apply next_ok; [by apply Hw|lia].
  - destruct (c =? 32); [apply next_ok; [done|lia]|]. apply header_value_ok; [by apply Hw|lia|done].
  - by apply header_value_ok.
  - destruct (negb (c =? LF)); [by apply error_expect_ok|]. apply next_ok; [by apply Hw|lia].
  - apply callback_ok; [by apply Hw|lia|]. intros. apply part_data_ok; [by apply Hw|lia|done].
  - by apply part_data_ok.
  - destruct (negb (c =? LF)).
    + apply callback_ok; [done|lia|]. intros. apply part_data_ok; [by apply Hw|lia|done].
    + apply next_ok; [|lia]. split; cbn [with_index with_state tail boundary_length index pstate]; done || lia.
  - specialize (Hb eq_refl). destruct (zget_in_bounds (tail p) (index p)) as [b ->]; [lia|]. cbn [mbind option_bind]. destruct (negb (b =? c)).
    + apply callback_ok; [done|lia|]. intros u'. assert (forall u, exists o, part_data emit buf (with_state p s_part_data) u i i c is_last = Some o /\ outcome_ok i o) as Hk
        by (intros; apply part_data_ok; [by apply Hw|lia|done]).
      destruct (Z.ltb_spec 0 (index p)); [|apply Hk]. destruct (zsub_in_bounds (tail p) 0 (index p)) as [d ->]; [lia..|]. cbn [mbind option_bind].
      apply callback_ok; [done|lia|apply Hk].
    + apply next_ok; [|lia]. cbn [with_index index boundary_length]. destruct (Z.eqb_spec (index p + 1) (boundary_length p));
        (split; cbn [with_index with_state tail boundary_length index pstate]; rewrite ?Es; done || lia).
  - destruct (c =? 45); [apply callback_ok; [by apply Hw|lia|]; intros; apply next_ok; [by apply Hw|lia]|].
    destruct (c =? CR); [apply callback_ok; [by apply Hw|lia|]; intros; apply next_ok; [by apply Hw|lia]|]. by apply error_out_ok.
  - destruct (c =? LF); [apply callback_ok; [by apply Hw|lia|]; intros; apply next_ok; [by apply Hw|lia]|]. by apply error_expect_ok.
  - destruct (c =? 45); [apply callback_ok; [by apply Hw|lia|]; intros; apply next_ok; [by apply Hw|lia]|]. by apply error_expect_ok.
  - apply next_ok; [done|lia].
Qed.

Lemma execute_loop_ok rest buf p u mark i : parser_ok p -> 0 <= mark <= i -> i + Z.of_nat rest = zlen buf ->
  exists p' u' r, execute_loop emit rest buf p u mark i = Some (p', u', r) /\ parser_ok p' /\ (r = MPPE_ERROR \/ 0 <= r <= zlen buf).
Proof.
  revert p u mark i. induction rest as [|rest IH]; intros p u mark i Hp Hm Hi; cbn [execute_loop].
  { exists p, u, i. split_and!; [done|done|right; lia]. }
  destruct (zget_in_bounds buf i) as [c ->]; [lia|]. cbn [mbind option_bind].
  destruct (turn_ok buf p u mark i c (i =? zlen buf - 1) Hp Hm ltac:(lia)) as (o & -> & Ho). cbn [mbind option_bind].
  destruct o as [p' u' mark'|p' u' r]; destruct Ho as [Hp' Ho].
  - apply IH; [done|lia|lia].
  - exists p', u', r. split_and!; [done|done|]. destruct Ho as [?|?]; [by left|right; lia].
Qed.
End safety.

Lemma init_ok boundary : zlen boundary <= 253 -> exists p, multipart_parser_init boundary = Some p /\ parser_ok p.
Proof.
  intros Hn. unfold multipart_parser_init, STRUCT_TAIL. set (n := zlen boundary) in *. set (m := repeat 0 _).
  assert (zlen m = 158 + n + n + 9 + 4) as Hm by (unfold m; rewrite repeat_length; lia).
  destruct (zblit_in_bounds m 0 [45; 45]) as [t1 E1]; [lia|simpl; lia|]. rewrite E1. pose proof (zblit_length _ _ _ _ E1). cbn [mbind option_bind].
  destruct (zblit_in_bounds t1 2 boundary) as [t2 E2]; [lia|lia|]. rewrite E2. pose proof (zblit_length _ _ _ _ E2). cbn [mbind option_bind].
  destruct (zset_in t2 (2 + n) 0) as (t3 & -> & Hl3); [lia|]. cbn [mbind option_bind]. rewrite uN_small by (unfold fits; lia).
  set (p := mkParser 0 0 (n + 2) s_start MPPE_OK t3).
  assert (parser_ok p) as Hp by (split; unfold BOUNDARY_SIZE; cbn [tail boundary_length index pstate p]; done || lia).
  destruct (put_error_ok p 0 Hp) as (_ & p1 & -> & Hp1 & _). cbn [mbind option_bind]. destruct (put_error_ok p1 0 Hp1) as ((p2 & -> & Hp2 & _) & _). by exists p2.
Qed.

(** ** What the parser reads *)

(** The callbacks, with the data of a part byte by byte. *)
Inductive item := A_begin | A_field (d : list Z) | A_value (d : list Z) | A_complete | A_byte (c : Z) | A_end | A_body_end.
Definition items (e : event) : list item :=
  match e with
  | on_header_field _ d => [A_field d]
  | on_header_value _ d => [A_value d]
  | on_part_data d => A_byte <$> d
  | on_part_data_begin => [A_begin]
  | on_headers_complete => [A_complete]
  | on_part_data_end => [A_end]
  | on_body_end => [A_body_end]
  end.
Definition trace (u : list event) : list item := concat (items <$> u).
Definition record (u : list event) (e : event) : option (list event * Z) := Some (u ++ [e], 0).

(** The same machine on single bytes, without buffers: [acc] is what was read of the
    current header name or value. *)
Definition data_step (p : multipart_parser) (c : Z) : multipart_parser * list item :=
  if c =? CR then (with_state p s_part_data_almost_boundary, []) else (with_state p s_part_data, [A_byte c]).
Definition start_step (p : multipart_parser) (c : Z) : option (multipart_parser * list Z * list item) :=
  if index p =? boundary_length p then
    if c =? 45 then Some (with_index (with_state p s_part_data_final_hyphen) (index p + 1), [], [])
    else if c =? CR then Some (with_index p (index p + 1), [], []) else None
  else if index p =? boundary_length p + 1 then
    if c =? LF then Some (with_state (with_index p 0) s_header_field_start, [], [A_begin]) else None
  else b ← zget (tail p) (index p); if c =? b then Some (with_index p (index p + 1), [], []) else None.
Definition field_step (p : multipart_parser) (acc : list Z) (c : Z) : option (multipart_parser * list Z * list item) :=
  if c =? CR then Some (with_state p s_headers_almost_done, [], [])
  else if c =? 45 then Some (p, acc ++ [c], [])
  else if c =? 58 then Some (with_state p s_header_value_start, [], [A_field acc])
  else if (Z.lor c 32 <? 97) || (122 <? Z.lor c 32) then None else Some (p, acc ++ [c], []).
Definition value_step (p : multipart_parser) (acc : list Z) (c : Z) : option (multipart_parser * list Z * list item) :=
  if c =? CR then Some (with_state p s_header_value_almost_done, [], [A_value acc]) else Some (p, acc ++ [c], []).
Definition byte_step (p : multipart_parser) (acc : list Z) (c : Z) : option (multipart_parser * list Z * list item) :=
  let data x := Some ((data_step p c).1, [], x ++ (data_step p c).2) in
  match pstate p with
  | s_start => start_step (with_state (with_index p 0) s_start_boundary) c
  | s_start_boundary => start_step p c
  | s_header_field_start => field_step (with_state p s_header_field) [] c
  | s_header_field => field_step p acc c
  | s_headers_almost_done => if c =? LF then Some (with_state p s_part_data_start, [], []) else None
  | s_header_value_start => if c =? 32 then Some (p, [], []) else value_step (with_state p s_header_value) [] c
  | s_header_value => value_step p acc c
  | s_header_value_almost_done => if c =? LF then Some (with_state p s_header_field_start, [], []) else None
  | s_part_data_start => data [A_complete]
  | s_part_data => data []
  | s_part_data_almost_boundary =>
      if c =? LF then Some (with_index (with_state p s_part_data_boundary) 0, [], []) else data [A_byte CR]
  | s_part_data_boundary =>
      b ← zget (tail p) (index p);
      if b =? c then
        let p := with_index p (index p + 1) in
        Some (if index p =? boundary_length p then with_state p s_part_data_almost_end else p, [], [])
      else d ← zsub (tail p) 0 (index p); data (A_byte <$> CRLF ++ d)
  | s_part_data_almost_end =>
      if c =? 45 then Some (with_state p s_part_data_final_hyphen, [], [A_end])
      else if c =? CR then Some (with_state p s_part_data_end, [], [A_end]) else None
  | s_part_data_final_hyphen => if c =? 45 then Some (with_state p s_end, [], [A_body_end]) else None
  | s_part_data_end => if c =? LF then Some (with_state p s_header_field_start, [], [A_begin]) else None
  | s_end => Some (p, [], [])
  | s_uninitialized => None
  end.
Fixpoint byte_steps (p : multipart_parser) (acc : list Z) (l : list Z) : option (multipart_parser * list Z * list item) :=
  match l with
  | [] => Some (p, acc, [])
  | c :: l => '(p, acc, t) ← byte_step p acc c; '(p, acc, t') ← byte_steps p acc l; Some (p, acc, t ++ t')
  end.

(** A cut in these states breaks a header. *)
Definition in_header (p : multipart_parser) : bool := match pstate p with s_header_field | s_header_value => true | _ => false end.

Lemma trace_snoc u e : trace (u ++ [e]) = trace u ++ items e.
Proof. unfold trace. rewrite fmap_app, concat_app. simpl. by rewrite app_nil_r. Qed.

(** The state of the loop at [i] and of the machine on bytes, which made the items [t]. *)
Definition unsent (buf : list Z) (p : multipart_parser) (mark i : Z) : list item :=
  match pstate p with s_part_data => A_byte <$> take (Z.to_nat (i - mark)) (drop (Z.to_nat mark) buf) | _ => [] end.
Record related (buf : list Z) (p : multipart_parser) (acc : list Z) (t : list item) (u : list event) (mark i : Z) : Prop := {
  re_mark : 0 <= mark <= i;
  re_trace : trace u ++ unsent buf p mark i = t;
  re_acc : in_header p = true -> acc = take (Z.to_nat (i - mark)) (drop (Z.to_nat mark) buf);
}.

Lemma take_snoc (buf : list Z) mark i c : 0 <= mark <= i -> zget buf i = Some c ->
  take (Z.to_nat (i + 1 - mark)) (drop (Z.to_nat mark) buf) = take (Z.to_nat (i - mark)) (drop (Z.to_nat mark) buf) ++ [c].
Proof.
  intros Hm Hc. replace (Z.to_nat (i + 1 - mark)) with (S (Z.to_nat (i - mark))) by lia.
  erewrite take_S_r; [done|]. rewrite lookup_drop. unfold zget in Hc. destruct (Z.leb_spec 0 i); [|done]. rewrite <- Hc. f_equal. lia.
Qed.

Lemma slice_take buf mark n : 0 <= mark -> 0 <= n -> mark + n <= zlen buf -> slice buf mark n = Some (take (Z.to_nat n) (drop (Z.to_nat mark) buf)).
Proof. intros. apply zsub_Some. split_and!; done || lia. Qed.

Lemma with_state_id p s : pstate p = s -> with_state p s = p.
Proof. intros <-. by destruct p. Qed.

Lemma unsent_nil buf p i : unsent buf p i i = [].
Proof. unfold unsent. rewrite Z.sub_diag. simpl. by destruct (pstate p). Qed.

Lemma part_data_related buf p u mark i c last T : pstate p = s_part_data -> 0 <= mark <= i -> zget buf i = Some c ->
  trace u ++ (A_byte <$> take (Z.to_nat (i - mark)) (drop (Z.to_nat mark) buf)) = T ->
  exists u' mark', part_data record buf p u mark i c last = Some (Next (data_step p c).1 u' mark') /\
    (if last then trace u' = T ++ (data_step p c).2 else related buf (data_step p c).1 [] (T ++ (data_step p c).2) u' mark' (i + 1)).
Proof.
  intros Hp Hm Hc HT. pose proof (zget_Some_bounds _ _ _ Hc) as Hi. unfold part_data, data_step. destruct (c =? CR); cbn [fst snd].
  - replace (i + 1 - mark - 1) with (i - mark) by lia.
    assert (forall u', trace u' = T -> exists u'' mark', Some (Next (with_state p s_part_data_almost_boundary) u' i) = Some (Next (with_state p s_part_data_almost_boundary) u'' mark') /\
      (if last then trace u'' = T ++ [] else related buf (with_state p s_part_data_almost_boundary) [] (T ++ []) u'' mark' (i + 1))) as Hk.
    { intros u' <-. exists u', i. rewrite app_nil_r. split; [done|]. destruct last; [done|]. split; [lia|by rewrite app_nil_r|done]. }
    destruct (Z.ltb_spec 0 (i - mark)) as [Hlt|Hge].
    + rewrite slice_take by lia. cbn [mbind option_bind callback record]. apply Hk. rewrite trace_snoc. exact HT.
    + apply Hk. replace (i - mark) with 0 in HT by lia. simpl in HT. by rewrite app_nil_r in HT.
  - rewrite with_state_id by done. destruct last.
    + replace (i + 1 - mark) with (i + 1 - mark) by lia. rewrite slice_take by lia. cbn [mbind option_bind callback record]. eexists _, _. split; [done|].
      rewrite trace_snoc. cbn [items]. rewrite take_snoc with (c := c) by done. rewrite fmap_app, app_assoc, HT. done.
    + eexists _, _. split; [done|]. split; [lia| |unfold in_header; by rewrite Hp]. unfold unsent. rewrite Hp, take_snoc with (c := c) by done.
      rewrite fmap_app, app_assoc, HT. done.
Qed.

(** What is to be shown of one turn. *)
Definition simulates (buf : list Z) (o : option (outcome (list event))) (p' : multipart_parser) (acc' : list Z) (t' : list item) (i : Z) (last : bool) : Prop :=
  exists u' mark', o = Some (Next p' u' mark') /\ (if last then trace u' = t' else related buf p' acc' t' u' mark' (i + 1)).

(** Nothing is unsent and there is no header name or value. *)
Lemma simulates_plain buf p' acc' u' mark' i last : pstate p' <> s_part_data -> in_header p' = false -> 0 <= mark' <= i + 1 ->
  simulates buf (Some (Next p' u' mark')) p' acc' (trace u') i last.
Proof.
  intros Hp Hh Hm. exists u', mark'. split; [done|]. destruct last; [done|]. split; [done| |congruence].
  unfold unsent. destruct (pstate p'); try done; by rewrite app_nil_r.
Qed.

Lemma simulates_event buf p' acc' u e mark' i last : pstate p' <> s_part_data -> in_header p' = false -> 0 <= mark' <= i + 1 ->
  simulates buf (Some (Next p' (u ++ [e]) mark')) p' acc' (trace u ++ items e) i last.
Proof. rewrite <- trace_snoc. apply simulates_plain. Qed.

Lemma simulates_header buf p acc u mark i c last : in_header p = true -> 0 <= mark <= i -> zget buf i = Some c ->
  acc = take (Z.to_nat (i - mark)) (drop (Z.to_nat mark) buf) -> last = false -> simulates buf (Some (Next p u mark)) p (acc ++ [c]) (trace u) i last.
Proof.
  intros Hh Hm Hc -> ->. exists u, mark. split; [done|]. split; [lia| |intros _; by rewrite take_snoc with (c := c)].
  unfold unsent. unfold in_header in Hh. destruct (pstate p); try done; by rewrite app_nil_r.
Qed.

Lemma field_related buf p acc u mark i c p' acc' t' last : pstate p = s_header_field -> 0 <= mark <= i -> zget buf i = Some c ->
  acc = take (Z.to_nat (i - mark)) (drop (Z.to_nat mark) buf) -> field_step p acc c = Some (p', acc', t') -> (last = true -> in_header p' = false) ->
  simulates buf (header_field record buf p u mark i c last) p' acc' (trace u ++ t') i last.
Proof.
  intros Hp Hm Hc Ha Hf Hl. pose proof (zget_Some_bounds _ _ _ Hc) as Hi. assert (in_header p = true) as Hh by (unfold in_header; by rewrite Hp).
  assert (p' = p -> last = false) as Hlast by (intros ->; destruct last; [specialize (Hl eq_refl); congruence|done]).
  unfold field_step in Hf. unfold header_field. destruct (c =? CR).
  { simplify_eq. rewrite app_nil_r. apply simulates_plain; [done|done|lia]. }
  destruct (c =? 45); [simplify_eq; rewrite app_nil_r, (Hlast eq_refl); by apply (simulates_header _ _ _ _ _ _ _ false)|].
  destruct (c =? 58).
  { simplify_eq. rewrite slice_take by lia. cbn [mbind option_bind callback record]. apply (simulates_event _ _ _ _ (on_header_field mark _)); [done|done|lia]. }
  destruct (_ || _); [done|]. simplify_eq. rewrite app_nil_r, (Hlast eq_refl). by apply (simulates_header _ _ _ _ _ _ _ false).
Qed.

Lemma value_related buf p acc u mark i c p' acc' t' last : pstate p = s_header_value -> 0 <= mark <= i -> zget buf i = Some c ->
  acc = take (Z.to_nat (i - mark)) (drop (Z.to_nat mark) buf) -> value_step p acc c = Some (p', acc', t') -> (last = true -> in_header p' = false) ->
  simulates buf (header_value record buf p u mark i c last) p' acc' (trace u ++ t') i last.
Proof.
  intros Hp Hm Hc Ha Hf Hl. pose proof (zget_Some_bounds _ _ _ Hc) as Hi. assert (in_header p = true) as Hh by (unfold in_header; by rewrite Hp).
  unfold value_step in Hf. unfold header_value. destruct (c =? CR).
  - simplify_eq. rewrite slice_take by lia. cbn [mbind option_bind callback record]. apply (simulates_event _ _ _ _ (on_header_value mark _)); [done|done|lia].
  - simplify_eq. rewrite app_nil_r. destruct last; [specialize (Hl eq_refl); congruence|]. by apply (simulates_header _ _ _ _ _ _ _ false).
Qed.

Lemma start_related buf p u mark i c p' acc' t' last : pstate p = s_start_boundary -> 0 <= mark <= i -> start_step p c = Some (p', acc', t') ->
  simulates buf (start_boundary record p u mark i c) p' acc' (trace u ++ t') i last.
Proof.
  intros Hp Hm Hs. unfold start_step in Hs. unfold start_boundary. destruct (index p =? boundary_length p).
  - destruct (c =? 45); [simplify_eq; rewrite app_nil_r; apply simulates_plain; [done|done|lia]|]. destruct (c =? CR); [|done]. cbn [negb].
    simplify_eq. rewrite app_nil_r. apply simulates_plain; [cbn [with_index pstate]; congruence|unfold in_header; cbn [with_index pstate]; by rewrite Hp|lia].
  - destruct (index p =? boundary_length p + 1).
    + destruct (c =? LF); [|done]. cbn [negb]. simplify_eq. cbn [callback record mbind option_bind]. apply (simulates_event _ _ _ _ on_part_data_begin); [done|done|lia].
    + destruct (zget (tail p) (index p)) as [b|]; [|done]. cbn [mbind option_bind] in *. destruct (c =? b); [|done]. cbn [negb]. simplify_eq. rewrite app_nil_r.
      apply simulates_plain; [cbn [with_index pstate]; congruence|unfold in_header; cbn [with_index pstate]; by rewrite Hp|lia].
Qed.

Lemma data_related buf p u mark i c last T : pstate p = s_part_data -> 0 <= mark <= i -> zget buf i = Some c ->
  trace u ++ (A_byte <$> take (Z.to_nat (i - mark)) (drop (Z.to_nat mark) buf)) = T ->
  simulates buf (part_data record buf p u mark i c last) (data_step p c).1 [] (T ++ (data_step p c).2) i last.
Proof. intros. by apply part_data_related. Qed.

(** Data that starts at [i]. *)
Lemma data_related_here buf p u i c last : zget buf i = Some c -> 0 <= i ->
  simulates buf (part_data record buf (with_state p s_part_data) u i i c last) (data_step p c).1 [] (trace u ++ (data_step p c).2) i last.
Proof.
  intros Hc Hi. replace (data_step p c) with (data_step (with_state p s_part_data) c) by (unfold data_step; by destruct (c =? CR)).
  apply data_related; [done|lia|done|]. rewrite Z.sub_diag. simpl. by rewrite app_nil_r.
Qed.

(** The parser on a buffer does what the machine on bytes does. *)
Lemma turn_related buf p acc t u mark i c p' acc' t' last :
  related buf p acc t u mark i -> zget buf i = Some c -> byte_step p acc c = Some (p', acc', t') -> (last = true -> in_header p' = false) ->
  simulates buf (turn record buf p u mark i c last) p' acc' (t ++ t') i last.
Proof.
  intros [Hm Ht Ha] Hc Hb Hl. pose proof (zget_Some_bounds _ _ _ Hc) as Hi.
  assert (pstate p <> s_part_data -> t = trace u) as Hts.
  { intros Hne. rewrite <- Ht. unfold unsent. destruct (pstate p); try done; by rewrite app_nil_r. }
  assert (take (Z.to_nat (i - i)) (drop (Z.to_nat i) buf) = []) as Hnil by (by rewrite Z.sub_diag).
  unfold byte_step in Hb. unfold turn. destruct (pstate p) eqn:Es; try (rewrite Hts by done; clear Hts); [done|..].
  - by apply start_related.
  - by apply start_related.
  - apply (field_related buf _ []); try done; lia.
  - apply (field_related buf _ acc); try done. apply Ha. unfold in_header. by rewrite Es.
  - destruct (c =? LF); [|done]. cbn [negb]. simplify_eq. rewrite app_nil_r. apply simulates_plain; [done|done|lia].
  - destruct (c =? 32); [simplify_eq; rewrite app_nil_r; apply simulates_plain; [congruence|unfold in_header; by rewrite Es|lia]|].
    apply (value_related buf _ []); try done; lia.
  - apply (value_related buf _ acc); try done. apply Ha. unfold in_header. by rewrite Es.
  - destruct (c =? LF); [|done]. cbn [negb]. simplify_eq. rewrite app_nil_r. apply simulates_plain; [done|done|lia].
  - simplify_eq. cbn [callback record mbind option_bind]. rewrite app_assoc. change [A_complete] with (items on_headers_complete). rewrite <- trace_snoc. by apply data_related_here; [|lia].
  - simplify_eq. unfold unsent. rewrite Es. by apply data_related.
  - destruct (c =? LF); cbn [negb]; simplify_eq.
    + rewrite app_nil_r. apply simulates_plain; [done|done|lia].
    + cbn [callback record mbind option_bind]. rewrite app_assoc. change [A_byte CR] with (items (on_part_data [CR])). rewrite <- trace_snoc. by apply data_related_here; [|lia].
  - destruct (zget (tail p) (index p)) as [b|]; [|done]. cbn [mbind option_bind] in *. destruct (b =? c); cbn [negb] in *.
    + simplify_eq. rewrite app_nil_r. cbn [with_index index boundary_length]. destruct (index p + 1 =? boundary_length p);
        apply simulates_plain; cbn [with_index with_state pstate]; try done; try lia; [congruence|unfold in_header; cbn [with_index pstate]; by rewrite Es].
    + destruct (zsub (tail p) 0 (index p)) as [d|] eqn:Ed; [|done]. cbn [mbind option_bind callback record] in *. simplify_eq.
      pose proof (zsub_length _ _ _ _ Ed) as Hd. destruct (Z.ltb_spec 0 (index p)).
      * cbn [mbind option_bind callback record]. rewrite fmap_app, !app_assoc.
        change (A_byte <$> CRLF) with (items (on_part_data CRLF)). change (A_byte <$> d) with (items (on_part_data d)). rewrite <- !trace_snoc.
        by apply data_related_here; [|lia].
      * assert (d = []) as -> by (destruct d; [done|simpl in Hd; lia]). rewrite app_nil_r, app_assoc.
        change (A_byte <$> CRLF) with (items (on_part_data CRLF)). rewrite <- trace_snoc. by apply data_related_here; [|lia].
  - destruct (c =? 45); [|destruct (c =? CR); [|done]]; simplify_eq; cbn [callback record mbind option_bind];
      (apply (simulates_event _ _ _ _ on_part_data_end); [done|done|lia]).
  - destruct (c =? LF); [|done]. simplify_eq. cbn [callback record mbind option_bind]. apply (simulates_event _ _ _ _ on_part_data_begin); [done|done|lia].
  - destruct (c =? 45); [|done]. simplify_eq. cbn [callback record mbind option_bind]. apply (simulates_event _ _ _ _ on_body_end); [done|done|lia].
  - simplify_eq. rewrite app_nil_r. apply simulates_plain; [congruence|unfold in_header; by rewrite Es|lia].
Qed.

Lemma byte_steps_app p acc l1 l2 : byte_steps p acc (l1 ++ l2) =
  '(p, acc, t) ← byte_steps p acc l1; '(p, acc, t') ← byte_steps p acc l2; Some (p, acc, t ++ t').
Proof.
  revert p acc. induction l1 as [|c l1 IH]; intros p acc; cbn [byte_steps app mbind option_bind].
  { by destruct (byte_steps p acc l2) as [[[? ?] ?]|]. }
  destruct (byte_step p acc c) as [[[p1 a1] t1]|]; [|done]. cbn [mbind option_bind]. rewrite IH.
  destruct (byte_steps p1 a1 l1) as [[[p2 a2] t2]|]; [|done]. cbn [mbind option_bind].
  destruct (byte_steps p2 a2 l2) as [[[p3 a3] t3]|]; [|done]. cbn [mbind option_bind]. by rewrite app_assoc.
Qed.

Lemma execute_loop_related buf rest p acc t u mark i p' acc' t' :
  related buf p acc t u mark i -> i + Z.of_nat rest = zlen buf -> (0 < rest)%nat ->
  byte_steps p acc (drop (Z.to_nat i) buf) = Some (p', acc', t') -> in_header p' = false ->
  exists u', execute_loop record rest buf p u mark i = Some (p', u', zlen buf) /\ trace u' = t ++ t'.
Proof.
  revert p acc t u mark i t'. induction rest as [|rest IH]; intros p acc t u mark i t' Hr Hi Hpos Hb Hh; [lia|].
  pose proof (re_mark _ _ _ _ _ _ _ Hr) as Hm. cbn [execute_loop]. destruct (zget_in_bounds buf i) as [c Hc]; [lia|]. rewrite Hc. cbn [mbind option_bind].
  assert (drop (Z.to_nat i) buf = c :: drop (Z.to_nat (i + 1)) buf) as Hd.
  { unfold zget in Hc. destruct (Z.leb_spec 0 i); [|done]. replace (Z.to_nat (i + 1)) with (S (Z.to_nat i)) by lia. by apply drop_S. }
  rewrite Hd in Hb. cbn [byte_steps] in Hb. destruct (byte_step p acc c) as [[[p1 a1] t1]|] eqn:E1; [|done]. cbn [mbind option_bind] in Hb.
  destruct (byte_steps p1 a1 _) as [[[p2 a2] t2]|] eqn:E2; [|done]. cbn [mbind option_bind] in Hb. simplify_eq.
  destruct (Z.eqb_spec i (zlen buf - 1)) as [El|Hne].
  - rewrite drop_ge in E2 by lia. cbn [byte_steps] in E2. injection E2 as <- <- <-.
    destruct (turn_related buf p acc t u mark i c p1 a1 t1 true Hr Hc E1 (fun _ => Hh)) as (u' & mark' & -> & Ht). cbn [mbind option_bind].
    replace rest with O by lia. cbn [execute_loop]. exists u'. rewrite app_nil_r. split; [|done]. do 2 f_equal. lia.
  - destruct (turn_related buf p acc t u mark i c p1 a1 t1 false Hr Hc E1 ltac:(done)) as (u' & mark' & -> & Ht). cbn [mbind option_bind].
    rewrite app_assoc. eapply IH; [done|lia|lia|done|done].
Qed.

(** A buffer that does not end inside of a header. *)
Lemma execute_related buf p u p' acc' t : in_header p = false -> byte_steps p [] buf = Some (p', acc', t) -> in_header p' = false ->
  exists u', multipart_parser_execute record p u buf = Some (p', u', zlen buf) /\ trace u' = trace u ++ t.
Proof.
  intros Hp Hb Hp'. unfold multipart_parser_execute. destruct (decide (buf = [])) as [->|Hne].
  - simpl in Hb. simplify_eq. exists u. by rewrite app_nil_r.
  - assert (0 < length buf)%nat by (destruct buf; simpl; [done|lia]). eapply execute_loop_related; [|lia|lia|done|done].
    split; [lia|by rewrite unsent_nil, app_nil_r|congruence].
Qed.

(** Between the headers there is nothing to keep. *)
Lemma byte_step_acc p acc c p' acc' t : byte_step p acc c = Some (p', acc', t) -> in_header p' = false -> acc' = [].
Proof.
  unfold byte_step, start_step, field_step, value_step. intros Hb Hh.
  destruct (pstate p) eqn:Es; repeat (case_match; simplify_option_eq); try done; (by simplify_eq/=) || (unfold in_header in Hh; by rewrite Es in Hh).
Qed.

(** The body comes in several buffers; the caller stops when one is not parsed. *)
Fixpoint execute_all {U} (emit : U -> event -> option (U * Z)) (p : multipart_parser) (u : U) (bufs : list (list Z)) : option (multipart_parser * U * bool) :=
  match bufs with
  | [] => Some (p, u, true)
  | buf :: bufs => '(p, u, n) ← multipart_parser_execute emit p u buf; if n =? zlen buf then execute_all emit p u bufs else Some (p, u, false)
  end.

(** No buffer ends inside of the name or the value of a header. *)
Definition cut_ok (p : multipart_parser) (bufs : list (list Z)) : Prop :=
  forall n p' acc t, byte_steps p [] (concat (take n bufs)) = Some (p', acc, t) -> in_header p' = false.

Lemma byte_steps_acc p l p' acc' t : byte_steps p [] l = Some (p', acc', t) -> in_header p' = false -> acc' = [].
Proof.
  destruct (decide (l = [])) as [->|Hne]; [by intros [= _ <- _]|]. destruct (exists_last Hne) as (l0 & c & ->). rewrite byte_steps_app.
  destruct (byte_steps p [] l0) as [[[p1 a1] t1]|]; [|done]. cbn [mbind option_bind byte_steps].
  destruct (byte_step p1 a1 c) as [[[p2 a2] t2]|] eqn:E; [|done]. cbn [mbind option_bind]. intros [= <- <- _] Hh. by eapply byte_step_acc.
Qed.

Lemma execute_all_related bufs p u p' acc' t : cut_ok p bufs -> byte_steps p [] (concat bufs) = Some (p', acc', t) ->
  exists u', execute_all record p u bufs = Some (p', u', true) /\ trace u' = trace u ++ t.
Proof.
  revert p u t. induction bufs as [|buf bufs IH]; intros p u t Hcut Hb.
  { simpl in Hb. simplify_eq. exists u. by rewrite app_nil_r. }
  cbn [concat] in Hb. rewrite byte_steps_app in Hb. destruct (byte_steps p [] buf) as [[[p1 a1] t1]|] eqn:E1; [|done]. cbn [mbind option_bind] in Hb.
  destruct (byte_steps p1 a1 (concat bufs)) as [[[p2 a2] t2]|] eqn:E2; [|done]. cbn [mbind option_bind] in Hb. simplify_eq.
  assert (in_header p = false) as Hp by (apply (Hcut O p [] []); done).
  assert (in_header p1 = false) as Hp1 by (apply (Hcut 1%nat p1 a1 t1); simpl; by rewrite app_nil_r).
  pose proof (byte_steps_acc _ _ _ _ _ E1 Hp1) as ->. destruct (execute_related buf p u p1 [] t1 Hp E1 Hp1) as (u1 & Hx & Ht1).
  destruct (IH p1 u1 t2) as (u2 & Hx2 & Ht2).
  - intros n q acc t Hq. apply (Hcut (S n) q acc (t1 ++ t)). simpl. rewrite byte_steps_app, E1. cbn [mbind option_bind]. by rewrite Hq.
  - done.
  - exists u2. cbn [execute_all]. rewrite Hx. cbn [mbind option_bind]. rewrite Z.eqb_refl, Hx2. split; [done|]. by rewrite Ht2, Ht1, app_assoc.
Qed.

(** ** The form as it is written *)

Section form.
Variable boundary : list Z.
Definition delim : list Z := [45; 45] ++ boundary.
Definition pattern : list Z := CRLF ++ delim.

Record part := mkPart { headers : list (list Z * list Z); body : list Z }.
Definition render_header (h : list Z * list Z) : list Z := h.1 ++ [58; 32] ++ h.2 ++ CRLF.
Definition render_part (x : part) : list Z := CRLF ++ concat (render_header <$> headers x) ++ CRLF ++ body x ++ pattern.
Definition render (l : list part) : list Z := delim ++ concat (render_part <$> l) ++ [45; 45].

Definition header_items (h : list Z * list Z) : list item := [A_field h.1; A_value h.2].
Definition part_items (x : part) : list item :=
  [A_begin] ++ concat (header_items <$> headers x) ++ [A_complete] ++ (A_byte <$> body x) ++ [A_end].
Definition form_items (l : list part) : list item := concat (part_items <$> l) ++ [A_body_end].

Definition field_char (c : Z) : bool := (c =? 45) || ((97 <=? Z.lor c 32) && (Z.lor c 32 <=? 122)).
Definition header_ok (h : list Z * list Z) : Prop := Forall (fun c => field_char c = true) h.1 /\ (CR ∉ h.2) /\ head h.2 <> Some 32.
Definition part_ok (x : part) : Prop := Forall header_ok (headers x) /\ forall a b, body x <> a ++ pattern ++ b.
Definition boundary_ok : Prop := zlen boundary <= 151 /\ CR ∉ boundary.

Definition on_delim (p : multipart_parser) : Prop := boundary_length p = zlen delim /\ zsub (tail p) 0 (zlen delim) = Some delim.
(** [m] bytes of the pattern were read. *)
Definition pending (p : multipart_parser) (m : nat) : Prop :=
  on_delim p /\
  match m with
  | O => pstate p = s_part_data
  | 1%nat => pstate p = s_part_data_almost_boundary
  | S (S k) => if decide (k = length delim) then pstate p = s_part_data_almost_end else pstate p = s_part_data_boundary /\ index p = Z.of_nat k
  end.

Lemma delim_tail p k c : on_delim p -> delim !! k = Some c -> zget (tail p) (Z.of_nat k) = Some c.
Proof.
  intros [_ Hd] Hk. pose proof (lookup_lt_Some _ _ _ Hk). rewrite <- (Z.add_0_l (Z.of_nat k)), (zsub_zget _ _ _ _ _ Hd) by lia.
  unfold zget. destruct (Z.leb_spec 0 (Z.of_nat k)); [|lia]. by rewrite Nat2Z.id.
Qed.

Lemma delim_prefix p k : on_delim p -> (k <= length delim)%nat -> zsub (tail p) 0 (Z.of_nat k) = Some (take k delim).
Proof.
  intros [_ Hd] Hk. change 0 with (0 + 0) at 1. rewrite <- (zsub_zsub _ _ _ _ 0 (Z.of_nat k) Hd) by lia.
  apply zsub_Some. split_and!; [lia..|]. by rewrite Nat2Z.id.
Qed.

Lemma data_pending p c : on_delim p -> pending (data_step p c).1 (if c =? CR then 1 else 0).
Proof. intros Hd. unfold data_step. by destruct (c =? CR). Qed.

Lemma pending_match p m c : pending p m -> pattern !! m = Some c -> exists p', byte_step p [] c = Some (p', [], []) /\ pending p' (S m).
Proof.
  intros [Hd Hm] Hc. unfold byte_step. destruct m as [|[|k]].
  - simpl in Hc. simplify_eq. rewrite Hm. eexists. split; [done|]. by apply data_pending.
  - simpl in Hc. simplify_eq. rewrite Hm. eexists. split; [done|]. split; [done|]. by rewrite decide_False.
  - change (pattern !! S (S k)) with (delim !! k) in Hc. pose proof (lookup_lt_Some _ _ _ Hc). rewrite decide_False in Hm by lia. destruct Hm as [Es Hi]. rewrite Es.
    rewrite Hi, (delim_tail p k c Hd Hc). cbn [mbind option_bind]. rewrite Z.eqb_refl. eexists. split; [done|].
    cbn [with_index index boundary_length]. rewrite (proj1 Hd). destruct (decide (S k = length delim)) as [Hk|Hk].
    + rewrite (proj2 (Z.eqb_eq _ _)) by lia. split; [by destruct Hd|]. by rewrite decide_True.
    + rewrite (proj2 (Z.eqb_neq _ _)) by lia. split; [by destruct Hd|]. rewrite decide_False by done. split; [done|]. simpl. lia.
Qed.

Lemma pending_mismatch p m c : pending p m -> (m < length pattern)%nat -> pattern !! m <> Some c ->
  exists p', byte_step p [] c = Some (p', [], (A_byte <$> take m pattern) ++ (data_step p c).2) /\ pending p' (if c =? CR then 1 else 0).
Proof.
  intros [Hd Hm] Hl Hc. unfold byte_step. destruct m as [|[|k]].
  - rewrite Hm. eexists. split; [done|]. by apply data_pending.
  - simpl in Hc. rewrite Hm. rewrite (proj2 (Z.eqb_neq _ _)) by congruence. eexists. split; [done|]. by apply data_pending.
  - change (pattern !! S (S k)) with (delim !! k) in Hc. assert (k < length delim)%nat as Hk by (simpl in *; lia).
    rewrite decide_False in Hm by lia. destruct Hm as [-> Hi]. destruct (lookup_lt_is_Some_2 _ _ Hk) as [b Hb].
    rewrite Hi, (delim_tail p k b Hd Hb). cbn [mbind option_bind]. rewrite (proj2 (Z.eqb_neq _ _)) by congruence.
    rewrite (delim_prefix p k Hd) by lia. cbn [mbind option_bind]. eexists. split; [done|]. by apply data_pending.
Qed.

Hypothesis Hb : boundary_ok.

Lemma pattern_CR k : pattern !! k = Some CR -> k = O.
Proof.
  destruct Hb as [_ Hcr]. destruct k as [|[|[|[|k]]]]; try done. intros Hk. exfalso. apply Hcr. by apply (list_elem_of_lookup_2 _ k).
Qed.

(** The pattern does not overlap itself. *)
Lemma pattern_overlap m (l b : list Z) : take m pattern ++ l = b ++ pattern -> (m <= length pattern)%nat -> (length b < m)%nat -> b = [].
Proof.
  intros E Hm Hl. assert (take m pattern !! length b = Some CR) as Hk.
  - rewrite <- (lookup_app_l _ l) by (rewrite length_take; lia). by rewrite E, lookup_app_r, Nat.sub_diag by lia.
  - apply lookup_take_Some in Hk as [Hk _]. apply pattern_CR in Hk. by destruct b.
Qed.

(** The data of a part ends at the first pattern. *)
Lemma body_read l p m b : pending p m -> (m < length pattern)%nat -> take m pattern ++ l = b ++ pattern -> (forall x y, b <> x ++ pattern ++ y) ->
  exists p', byte_steps p [] l = Some (p', [], A_byte <$> b) /\ pending p' (length pattern).
Proof.
  revert p m b. induction l as [|c l IH]; intros p m b Hp Hm E Hno.
  { apply (f_equal length) in E. rewrite !length_app, length_take in E. cbn [length] in E. lia. }
  cbn [byte_steps]. destruct (decide (pattern !! m = Some c)) as [Hc|Hc].
  - destruct (pending_match p m c Hp Hc) as (p1 & -> & Hp1). cbn [mbind option_bind].
    assert (take (S m) pattern ++ l = b ++ pattern) as E' by (rewrite (take_S_r _ _ _ Hc), <- app_assoc; exact E).
    destruct (decide (S m = length pattern)) as [Hend|Hend].
    + assert (b = []) as ->.
      { destruct (decide (length b < S m)%nat); [by eapply pattern_overlap; [done|lia|]|]. exfalso.
        rewrite firstn_all2 in E' by lia. apply (Hno [] (take (length b - length pattern) l)).
        apply (f_equal (take (length b))) in E'. rewrite (take_app_length b), take_app_ge in E' by lia. done. }
      change ([] ++ pattern) with pattern in E'. rewrite firstn_all2 in E' by lia. assert (l = []) as -> by (apply (f_equal length) in E'; rewrite length_app in E'; destruct l; cbn [length] in E'; [done|lia]).
      exists p1. rewrite <- Hend. done.
    + destruct (IH p1 (S m) b Hp1 ltac:(lia) E' Hno) as (p2 & -> & Hp2). by exists p2.
  - destruct (pending_mismatch p m c Hp Hm Hc) as (p1 & -> & Hp1). cbn [mbind option_bind].
    assert (m <= length b)%nat as Hlen.
    { destruct (decide (length b < m)%nat) as [Hlt|]; [|lia]. assert (b = []) as -> by (by eapply pattern_overlap; [done|lia|]). exfalso. apply Hc.
      simpl in E. rewrite <- E, lookup_app_r, length_take_le, Nat.sub_diag by (rewrite ?length_take; lia). done. }
    assert (exists b', b = take m pattern ++ b' /\ c :: l = b' ++ pattern) as (b' & -> & E').
    { exists (drop m b). assert (take m b = take m pattern) as Et.
      { apply (f_equal (take m)) in E. rewrite take_app_length' in E by (rewrite length_take; lia). by rewrite take_app_le in E by lia. }
      split; [by rewrite <- Et, take_drop|]. apply (f_equal (drop m)) in E. rewrite drop_app_length' in E by (rewrite length_take; lia).
      by rewrite drop_app_le in E by lia. }
    unfold data_step. destruct (Z.eqb_spec c CR) as [->|Hcr]; cbn [fst snd].
    + destruct (IH p1 1%nat b' Hp1 ltac:(simpl; lia) E') as (p2 & -> & Hp2).
      { intros x y ->. apply (Hno (take m pattern ++ x) y). by rewrite <- app_assoc. }
      exists p2. cbn [mbind option_bind]. split; [|done]. by rewrite app_nil_r, fmap_app.
    + destruct b' as [|c' b']; [injection E' as -> _; done|]. injection E' as <- E'.
      destruct (IH p1 O b' Hp1 ltac:(simpl; lia) E') as (p2 & -> & Hp2).
      { intros x y ->. apply (Hno (take m pattern ++ c :: x) y). rewrite <- app_assoc. done. }
      exists p2. cbn [mbind option_bind]. split; [|done]. by rewrite fmap_app, <- app_assoc.
Qed.

(** The pieces of a part. *)
Lemma field_read f p acc : pstate p = s_header_field -> Forall (fun c => field_char c = true) f ->
  byte_steps p acc f = Some (p, acc ++ f, []).
Proof.
  intros Hs. revert acc. induction f as [|c f IH]; intros acc Hf; cbn [byte_steps]; [by rewrite app_nil_r|].
  inversion Hf as [|? ? Hc Hf']; subst. unfold byte_step. rewrite Hs. unfold field_step. unfold field_char in Hc.
  assert ((c =? CR) = false) as -> by (apply Z.eqb_neq; intros ->; done). assert ((c =? 58) = false) as -> by (apply Z.eqb_neq; intros ->; done).
  destruct (c =? 45).
  - cbn [mbind option_bind]. rewrite IH by done. by rewrite <- app_assoc.
  - simpl in Hc. apply andb_true_iff in Hc as [K1%Z.leb_le K2%Z.leb_le]. rewrite (proj2 (Z.ltb_ge _ _)), (proj2 (Z.ltb_ge _ _)) by lia.
    cbn [orb mbind option_bind]. rewrite IH by done. by rewrite <- app_assoc.
Qed.

Lemma value_read v p acc : pstate p = s_header_value -> (CR ∉ v) -> byte_steps p acc v = Some (p, acc ++ v, []).
Proof.
  intros Hs. revert acc. induction v as [|c v IH]; intros acc Hv; cbn [byte_steps]; [by rewrite app_nil_r|].
  apply not_elem_of_cons in Hv as [Hc Hv]. unfold byte_step. rewrite Hs. unfold value_step.
  rewrite (proj2 (Z.eqb_neq _ _)) by done. cbn [mbind option_bind]. rewrite IH by done. by rewrite <- app_assoc.
Qed.

Definition reads (p : multipart_parser) (l : list Z) (p' : multipart_parser) (t : list item) : Prop := byte_steps p [] l = Some (p', [], t).
Lemma reads_app p l1 p1 t1 l2 p2 t2 : reads p l1 p1 t1 -> reads p1 l2 p2 t2 -> reads p (l1 ++ l2) p2 (t1 ++ t2).
Proof. unfold reads. intros E1 E2. rewrite byte_steps_app, E1. cbn [mbind option_bind]. by rewrite E2. Qed.

(** Parsers at the same place of the same form. *)
Definition at_state (p : multipart_parser) (s : state) : Prop := on_delim p /\ pstate p = s.

Lemma header_read p h : at_state p s_header_field_start -> header_ok h ->
  exists p', reads p (render_header h) p' (header_items h) /\ at_state p' s_header_field_start.
Proof.
  intros [Hd Hs] (Hf & Hv & Hsp). destruct h as [f v]. cbn [fst snd] in *. unfold render_header, header_items. cbn [fst snd].
  set (p1 := with_state p s_header_field). set (p2 := with_state p s_header_value_start). set (p3 := with_state p s_header_value).
  assert (reads p (f ++ [58; 32]) p2 [A_field f]) as R1.
  { unfold reads. replace (byte_steps p [] (f ++ [58; 32])) with (byte_steps p1 [] (f ++ [58; 32])) by (by destruct f; simpl; unfold byte_step; rewrite Hs).
    rewrite byte_steps_app, field_read by done. done. }
  assert (exists p', reads p2 (v ++ CRLF) p' [A_value v] /\ at_state p' s_header_field_start) as (p4 & R2 & Hp4).
  { exists (with_state (with_state p3 s_header_value_almost_done) s_header_field_start). split; [|done]. unfold reads.
    replace (byte_steps p2 [] (v ++ CRLF)) with (byte_steps p3 [] (v ++ CRLF)).
    - rewrite byte_steps_app, value_read by done. done.
    - destruct v as [|c v]; [done|]. cbn [byte_steps app]. f_equal. unfold byte_step. cbn [pstate p2 p3 with_state]. rewrite (proj2 (Z.eqb_neq c 32)); [done|]. simpl in Hsp. congruence. }
  exists p4. split; [|done]. replace (f ++ [58; 32] ++ v ++ CRLF) with ((f ++ [58; 32]) ++ v ++ CRLF) by (by rewrite <- app_assoc).
  apply (reads_app _ _ _ _ _ _ _ R1 R2).
Qed.

Lemma headers_read hs p : at_state p s_header_field_start -> Forall header_ok hs ->
  exists p', reads p (concat (render_header <$> hs)) p' (concat (header_items <$> hs)) /\ at_state p' s_header_field_start.
Proof.
  revert p. induction hs as [|h hs IH]; intros p Hp Hh; [by exists p|]. inversion Hh; subst.
  destruct (header_read p h) as (p1 & R1 & Hp1); [done..|]. destruct (IH p1) as (p2 & R2 & Hp2); [done..|]. exists p2. split; [|done].
  by apply (reads_app _ _ p1).
Qed.

(** From the end of the headers to the end of the data. *)
Lemma content_read p b : at_state p s_header_field_start -> (forall x y, b <> x ++ pattern ++ y) ->
  exists p', reads p (CRLF ++ b ++ pattern) p' ([A_complete] ++ (A_byte <$> b)) /\ at_state p' s_part_data_almost_end.
Proof.
  intros [Hd Hs] Hno. set (p1 := with_state (with_state (with_state p s_header_field) s_headers_almost_done) s_part_data_start).
  assert (reads p CRLF p1 []) as R1 by (unfold reads; simpl; unfold byte_step; by rewrite Hs).
  destruct (body_read (b ++ pattern) (with_state p1 s_part_data) O b) as (p2 & E2 & Hd2 & Hp2); [done|simpl; lia|done|done|].
  exists p2. split; [|split; [done|change (length pattern) with (S (S (length delim))) in Hp2; cbv beta iota in Hp2; by rewrite decide_True in Hp2]]. apply (reads_app _ _ p1 []); [done|]. unfold reads.
  destruct (b ++ pattern) as [|c l] eqn:El; [by destruct b|]. cbn [byte_steps] in E2 |- *. change (byte_step (with_state p1 s_part_data) [] c) with (Some ((data_step (with_state p1 s_part_data) c).1, @nil Z, [] ++ (data_step (with_state p1 s_part_data) c).2)) in E2.
  change (byte_step p1 [] c) with (Some ((data_step p1 c).1, @nil Z, [A_complete] ++ (data_step p1 c).2)). cbn [mbind option_bind app] in E2 |- *.
  replace (data_step (with_state p1 s_part_data) c) with (data_step p1 c) in E2 by (unfold data_step; by destruct (c =? CR)).
  destruct (byte_steps (data_step p1 c).1 [] l) as [[[q a] t]|]; [|done]. cbn [mbind option_bind] in E2 |- *. injection E2 as -> -> <-. done.
Qed.

(** A part, after the CRLF that follows the delimiter. *)
Lemma part_read p x : at_state p s_header_field_start -> part_ok x ->
  exists p', reads p (concat (render_header <$> headers x) ++ CRLF ++ body x ++ pattern) p' (concat (header_items <$> headers x) ++ [A_complete] ++ (A_byte <$> body x)) /\
    at_state p' s_part_data_almost_end.
Proof.
  intros Hp [Hh Hno]. destruct (headers_read (headers x) p) as (p1 & R1 & Hp1); [done..|]. destruct (content_read p1 (body x)) as (p2 & R2 & Hp2); [done..|].
  exists p2. split; [|done]. by apply (reads_app _ _ p1).
Qed.

Lemma parts_read l p : at_state p s_part_data_almost_end -> Forall part_ok l ->
  exists p', reads p (concat (render_part <$> l) ++ [45; 45]) p' ([A_end] ++ form_items l) /\ at_state p' s_end.
Proof.
  revert p. induction l as [|x l IH]; intros p [Hd Hs] Hl.
  { eexists. split; [unfold reads; cbn; unfold byte_step; rewrite Hs; done|done]. }
  inversion Hl; subst. set (p1 := with_state (with_state p s_part_data_end) s_header_field_start).
  assert (reads p CRLF p1 [A_end; A_begin]) as R1 by (unfold reads; cbn; unfold byte_step; by rewrite Hs).
  destruct (part_read p1 x) as (p2 & R2 & Hp2); [done..|]. destruct (IH p2) as (p3 & R3 & Hp3); [done..|]. exists p3. split; [|done].
  pose proof (reads_app _ _ _ _ _ _ _ R1 (reads_app _ _ _ _ _ _ _ R2 R3)) as R. revert R. unfold form_items, part_items, render_part.
  cbn [fmap list_fmap concat]. by rewrite <- !app_assoc.
Qed.

(** The first delimiter. *)
Lemma start_read k p : (k <= length delim)%nat -> at_state p s_start ->
  exists p', reads p (take k delim) p' [] /\ on_delim p' /\ (k = O /\ p' = p \/ (0 < k)%nat /\ pstate p' = s_start_boundary /\ index p' = Z.of_nat k).
Proof.
  intros Hk [Hd Hs]. induction k as [|k IH]; [exists p; split_and!; [done|apply Hd..|by left]|].
  destruct IH as (p1 & R1 & Hd1 & Hor); [lia|]. destruct (lookup_lt_is_Some_2 delim k) as [c Hc]; [lia|].
  exists (with_index (with_state p1 s_start_boundary) (Z.of_nat (S k))). split_and!; [|apply Hd1..|right; split_and!; [lia|done..]].
  rewrite (take_S_r _ _ _ Hc). apply (reads_app _ _ p1 []); [done|]. unfold reads. cbn [byte_steps].
  pose proof (delim_tail p1 k c Hd1 Hc) as Hg. destruct Hd1 as [Hl1 _].
  assert (byte_step p1 [] c = start_step (with_index (with_state p1 s_start_boundary) (Z.of_nat k)) c) as ->.
  { unfold byte_step. destruct Hor as [[-> ->]|(_ & Hs1 & Hi)]; [by rewrite Hs|]. rewrite Hs1. f_equal. destruct p1; simpl in *. by subst. }
  unfold start_step. cbn [index boundary_length tail with_index with_state]. rewrite Hg. cbn [mbind option_bind].
  rewrite Z.eqb_refl, !(proj2 (Z.eqb_neq _ _)) by lia. unfold with_index, with_state. simpl. do 4 f_equal. lia.
Qed.

(** The whole form. *)
Lemma form_read p l : at_state p s_start -> Forall part_ok l -> exists p', reads p (render l) p' (form_items l) /\ at_state p' s_end.
Proof.
  intros Hp Hl. destruct (start_read (length delim) p ltac:(done) Hp) as (p1 & R1 & Hd1 & Hor). rewrite firstn_all in R1.
  destruct Hor as [[? _]|(_ & Hs1 & Hi1)]; [done|]. pose proof (proj1 Hd1) as Hn.
  destruct l as [|x l].
  - set (p2 := with_index (with_state p1 s_part_data_final_hyphen) (index p1 + 1)). exists (with_state p2 s_end). split; [|by destruct Hd1].
    assert (byte_step p1 [] 45 = Some (p2, [], [])) as E by (unfold byte_step, start_step, p2; by rewrite Hs1, Hi1, Hn, Z.eqb_refl).
    apply (reads_app _ _ p1 []); [done|]. change (reads p1 [45; 45] (with_state p2 s_end) [A_body_end]). unfold reads. cbn [byte_steps]. by rewrite E.
  - inversion Hl; subst. set (p2 := with_state (with_index (with_index p1 (index p1 + 1)) 0) s_header_field_start).
    assert (byte_step p1 [] CR = Some (with_index p1 (index p1 + 1), [], [])) as E1
      by (unfold byte_step, start_step; by rewrite Hs1, Hi1, Hn, Z.eqb_refl).
    assert (byte_step (with_index p1 (index p1 + 1)) [] LF = Some (p2, [], [A_begin])) as E2.
    { unfold byte_step, start_step, p2. cbn [pstate index boundary_length with_index]. rewrite Hs1, Hi1, Hn, Z.eqb_refl.
      by rewrite (proj2 (Z.eqb_neq _ _)) by lia. }
    assert (reads p1 CRLF p2 [A_begin]) as R2 by (unfold reads; cbn [byte_steps CRLF]; rewrite E1; cbn [mbind option_bind]; by rewrite E2).
    destruct (part_read p2 x) as (p3 & R3 & Hp3); [by split|done|]. destruct (parts_read l p3) as (p4 & R4 & Hp4); [done..|]. exists p4. split; [|done].
    pose proof (reads_app _ _ _ _ _ _ _ R1 (reads_app _ _ _ _ _ _ _ R2 (reads_app _ _ _ _ _ _ _ R3 R4))) as R. revert R. unfold render, form_items, part_items, render_part.
    cbn [fmap list_fmap concat]. by rewrite <- !app_assoc.
Qed.

Lemma init_delim : exists p, multipart_parser_init boundary = Some p /\ at_state p s_start.
Proof.
  destruct Hb as [Hn _]. unfold multipart_parser_init, STRUCT_TAIL. set (n := zlen boundary) in *. set (m := repeat 0 _).
  assert (zlen m = 158 + n + n + 9 + 4) as Hm by (unfold m; rewrite repeat_length; lia).
  destruct (zblit_in_bounds m 0 [45; 45]) as [t1 E1]; [lia|simpl; lia|]. rewrite E1. pose proof (zblit_length _ _ _ _ E1). cbn [mbind option_bind].
  destruct (zblit_in_bounds t1 2 boundary) as [t2 E2]; [lia|lia|]. rewrite E2. pose proof (zblit_length _ _ _ _ E2). cbn [mbind option_bind].
  pose proof (zsub_zblit _ _ _ _ (zblit_zblit m 0 [45; 45] boundary t1 t2 E1 E2)) as Ht2. fold delim in Ht2.
  assert (zlen delim = n + 2) as Hdl by (unfold delim; rewrite length_app; simpl; lia).
  assert (forall t i x, zsub t 0 (zlen delim) = Some delim -> zlen delim <= i -> i < zlen t -> exists t', zset t i x = Some t' /\ zlen t' = zlen t /\ zsub t' 0 (zlen delim) = Some delim) as Hset.
  { intros t i x Ht Hi Hl. destruct (zset_in t i x) as (t' & E & El); [lia|]. exists t'. rewrite E. split_and!; [done|lia|].
    rewrite zset_zblit in E. rewrite (zsub_zblit_ne _ _ _ _ 0 (zlen delim) E); [done|left; lia]. }
  destruct (Hset t2 (2 + n) 0) as (t3 & -> & Hl3 & Ht3); [done|lia|lia|]. cbn [mbind option_bind]. rewrite uN_small by (unfold fits; lia).
  unfold put_error_unexpected, put_error_expected, BOUNDARY_SIZE. cbn [tail].
  destruct (Hset t3 (153 + 1) 0) as (t4 & -> & Hl4 & Ht4); [done|lia|lia|]. cbn [mbind option_bind with_tail tail].
  destruct (Hset t4 153 0) as (t5 & -> & Hl5 & Ht5); [done|lia|lia|]. eexists. split; [done|]. split; [|done]. split; [simpl; lia|done].
Qed.
End form.

(** ** The claims *)

(** C22: the parser of multipart bodies stays inside of its buffer and of its copy of the
    boundary on every input, however the input is cut and whatever the callbacks answer,
    and it always returns.  Conditions: the boundary has at most 253 bytes, and the callbacks
    return. *)
Theorem multipart_parser_safe {U} (emit : U -> event -> option (U * Z)) boundary bufs u :
  (forall u e, exists u' r, emit u e = Some (u', r)) -> zlen boundary <= 253 ->
  exists p, multipart_parser_init boundary = Some p /\ exists r, execute_all emit p u bufs = Some r.
Proof.
  intros He Hn. destruct (init_ok boundary Hn) as (p & -> & Hp). exists p. split; [done|]. revert p u Hp.
  induction bufs as [|buf bufs IH]; intros p u Hp; [by eexists|]. cbn [execute_all]. unfold multipart_parser_execute.
  destruct (execute_loop_ok emit He (length buf) buf p u 0 0 Hp) as (p' & u' & r & -> & Hp' & _); [lia..|]. cbn [mbind option_bind].
  destruct (r =? zlen buf); [by apply IH|by eexists].
Qed.


Definition form_example : list part := [mkPart [(str "Name", str "v")] (str "x" ++ CRLF ++ str "y"); mkPart [] []].
Lemma form_example_ok : Forall (part_ok (str "AB")) form_example.
Proof.
  assert (forall l, (length l < 6)%nat -> forall a b : list Z, l <> a ++ pattern (str "AB") ++ b) as Hno
    by (intros l Hl a b ->; rewrite !length_app in Hl; simpl in Hl; lia).
  constructor; [|constructor; [|constructor]]; (split; [|apply Hno; simpl; lia]); [|constructor]. constructor; [|constructor].
  split_and!; [by repeat constructor|by apply (bool_decide_unpack _)|done].
Qed.

Lemma multipart_parser_safe_witness :
  exists p, multipart_parser_init (str "AB") = Some p /\ exists r, execute_all record p [] [str "--AB"; CRLF; [0; 255]] = Some r.
Proof. apply (multipart_parser_safe record (str "AB") _ []); [intros u e; by eexists _, _|simpl; lia]. Defined.

(** The condition on the cut holds in the example, where the cut is inside of the delimiter of the data. *)
Lemma form_example_cut p : multipart_parser_init (str "AB") = Some p -> cut_ok p [take 25 (render (str "AB") form_example); drop 25 (render (str "AB") form_example)].
Proof.
  intros Hp. vm_compute in Hp. injection Hp as <-. intros [|[|n]] p' acc t; [by intros [= <-]|vm_compute; by intros [= <-]|].
  cbn [take]. rewrite firstn_nil. vm_compute. by intros [= <-].
Qed.


(** A boundary of 152 bytes reaches the fields behind the array: [multipart_parser_init]
    itself overwrites it, and the form that uses it is refused. *)
Lemma long_boundary_refused : exists p p' u,
  multipart_parser_init (repeat 97 152) = Some p /\
  multipart_parser_execute record p [] (render (repeat 97 152) []) = Some (p', u, MPPE_ERROR) /\ error_i p' = 153.
Proof. eexists _, _, _. split; [vm_compute; reflexivity|]. split; [vm_compute; reflexivity|reflexivity]. Qed.

(** A boundary of 254 bytes makes the length 0. *)
Lemma boundary_length_wraps : exists p, multipart_parser_init (repeat 97 254) = Some p /\ boundary_length p = 0.
Proof. eexists. split; [vm_compute; reflexivity|reflexivity]. Qed.
