(* ===== verification/HttpText.v ===== *)
(** * The texts of HTTP

    The functions of [src/protocol/http.cc] on pieces of a request: the escapes of URLs
    ([url_encode], [url_decode]), cookies and the parameters of headers ([parse_cookie],
    [parse_multipart_boundary]), the names of methods and of status codes. *)

From stdpp Require Import strings.
From S2P Require Import Prelude CStr.

(** ** Definitions *)

(** *** Escapes *)

Definition PERCENT : Z := 37.

(** [char] is signed *)
Definition unreserved (c : Z) : bool :=
  let c := s8 c in
  negb (((c <? 48) && negb (c =? 45) && negb (c =? 46)) || ((c <? 65) && (57 <? c)) || ((90 <? c) && (c <? 97) && negb (c =? 95)) ||
        ((122 <? c) && negb (c =? 126))).
Definition hexchars : list Z := str "0123456789ABCDEF".

Section url_encode.
(** What [sw_malloc] returns *)
Context (fresh : Z -> list Z).
Fixpoint url_encode_loop (s : list Z) (ret : list Z) (y : Z) : option (list Z * Z) :=
  match s with
  | [] => Some (ret, y)
  | c :: s =>
      ret ← zset ret y c;
      if unreserved c then url_encode_loop s ret (y + 1)
      else
        hi ← zget hexchars (Z.shiftr c 4);
        lo ← zget hexchars (Z.land c 15);
        ret ← zset ret y PERCENT;
        ret ← zset ret (y + 1) hi;
        ret ← zset ret (y + 2) lo;
        url_encode_loop s ret (y + 3)
  end.
(** The new string, with its null byte *)
Definition url_encode (s : list Z) : option (list Z) :=
  '(ret, y) ← url_encode_loop s (fresh (zlen s * 3)) 0;
  ret ← zset ret y 0;
  zsub ret 0 (y + 1).
End url_encode.

Definition url_htoi (s : list Z) (p : Z) : option Z :=
  c ← zget s p;
  let c := if isupper c then tolower c else c in
  let value := (if (48 <=? c) && (c <=? 57) then c - 48 else c - 97 + 10) * 16 in
  c ← zget s (p + 1);
  let c := if isupper c then tolower c else c in
  Some (value + (if (48 <=? c) && (c <=? 57) then c - 48 else c - 97 + 10)).

(** [url_decode] in the memory [m] that begins with the string; [len] is what is left
    after [len--] *)
Fixpoint url_decode_loop (fuel : nat) (m : list Z) (data dest len : Z) : option (list Z * Z) :=
  match fuel with
  | O => None
  | S fuel =>
      if len =? 0 then Some (m, dest) else
      let len := len - 1 in
      c ← zget m data;
      if c =? 43 then m ← zset m dest 32; url_decode_loop fuel m (data + 1) (dest + 1) len
      else
        esc ← (if (c =? PERCENT) && (2 <=? len) then
                 c1 ← zget m (data + 1);
                 if isxdigit c1 then c2 ← zget m (data + 2); Some (isxdigit c2) else Some false
               else Some false);
        if esc : bool then
          v ← url_htoi m (data + 1);
          m ← zset m dest (u8 v);
          url_decode_loop fuel m (data + 3) (dest + 1) (len - 2)
        else m ← zset m dest c; url_decode_loop fuel m (data + 1) (dest + 1) len
  end.
Definition url_decode (m : list Z) (len : Z) : option (list Z * Z) :=
  '(m, dest) ← url_decode_loop (S (Z.to_nat len)) m 0 0 len;
  m ← zset m dest 0;
  Some (m, dest).

(** *** Cookies and parameters *)

Definition SW_STACK_BUFFER_SIZE : Z := 65536.

(** [strtok_r] on ';' with all its calls: the tokens of the string *)
Definition c_string (l : list Z) : list Z := match list_find (fun c => c = 0) l with Some (i, _) => take i l | None => l end.
Fixpoint strtok (fuel : nat) (l : list Z) : list (list Z) :=
  match fuel with
  | O => []
  | S fuel =>
      match l with
      | [] => []
      | c :: l' =>
          if c =? 59 then strtok fuel l'
          else match list_find (fun c => c = 59) l with Some (i, _) => take i l :: strtok fuel (drop (S i) l) | None => [l] end
      end
  end.

Fixpoint skip_space (l : list Z) : list Z := match l with c :: l' => if isspace c then skip_space l' else l | [] => [] end.

Section parse_cookie.
(** The callback, which says whether to go on *)
Context {U : Type} (cb : U -> list Z -> list Z -> option (U * bool)).
Fixpoint cookie_loop (tokens : list (list Z)) (u : U) : option U :=
  match tokens with
  | [] => Some u
  | token :: tokens =>
      let key := skip_space token in
      match list_find (fun c => c = 61) key with
      | Some (O, _) => cookie_loop tokens u
      | Some (S i, _) => '(u, go) ← cb u (take (S i) key) (drop (S (S i)) key); if go : bool then cookie_loop tokens u else Some u
      | None => if bool_decide (key = []) then cookie_loop tokens u else '(u, go) ← cb u key []; if go : bool then cookie_loop tokens u else Some u
      end
  end.
Definition parse_cookie (at_ : list Z) (u : U) : option U :=
  if zlen at_ <? SW_STACK_BUFFER_SIZE then let c := c_string at_ in cookie_loop (strtok (S (length c)) c) u else None.
End parse_cookie.

(** The result is where the boundary is and how long *)
Fixpoint boundary_loop (fuel : nat) (at_ : list Z) (offset : Z) : option (option Z) :=
  match fuel with
  | O => None
  | S fuel =>
      if offset <? zlen at_ then
        c ← zget at_ offset;
        if (c =? SP) || (c =? 59) then boundary_loop fuel at_ (offset + 1)
        else
          found ← (if offset + 9 <=? zlen at_ then istarts_with at_ offset (zlen at_ - offset) (str "boundary=") else Some false);
          if found : bool then Some (Some (offset + 9))
          else
            d ← memchr at_ offset 59 (zlen at_ - offset);
            match d with None => Some None | Some d => boundary_loop fuel at_ d end
      else Some (Some offset)
  end.
Definition parse_multipart_boundary (at_ : list Z) (offset : Z) : option (option (Z * Z)) :=
  o ← boundary_loop (S (Z.to_nat (2 * (zlen at_ - offset)))) at_ offset;
  match o with
  | None => Some None
  | Some offset =>
      if zlen at_ <=? offset then Some None else
      let boundary_len := s32 (zlen at_ - offset) in
      semicolon ← (if 0 <? boundary_len then memchr at_ offset 59 boundary_len else Some None);
      let boundary_len := match semicolon with Some e => e - offset | None => boundary_len end in
      if boundary_len <=? 0 then Some None else
      quoted ← (if 2 <=? boundary_len then
                  a ← zget at_ offset;
                  if a =? 34 then b ← zget at_ (offset + boundary_len - 1); Some (b =? 34) else Some false
                else Some false);
      if quoted : bool then
        let boundary_len := boundary_len - 2 in
        Some (if boundary_len <=? 0 then None else Some (offset + 1, boundary_len))
      else Some (Some (offset, boundary_len))
  end.

(** *** Methods and status codes *)

Definition method_strings : list (list Z) :=
  str <$> ["DELETE"; "GET"; "HEAD"; "POST"; "PUT"; "PATCH"; "CONNECT"; "OPTIONS"; "TRACE"; "COPY"; "LOCK"; "MKCOL"; "MOVE";
           "PROPFIND"; "PROPPATCH"; "UNLOCK"; "REPORT"; "MKACTIVITY"; "CHECKOUT"; "MERGE"; "M-SEARCH"; "NOTIFY";
           "SUBSCRIBE"; "UNSUBSCRIBE"; "PURGE"; "QUERY"; "PRI"].
Definition SW_HTTP_PRI : Z := 27.

Fixpoint get_method_loop (strings : list (list Z)) (i : Z) (s : list Z) : Z :=
  match strings with
  | [] => -1
  | m :: strings => if bool_decide (tolower <$> m = tolower <$> s) then i + 1 else get_method_loop strings (i + 1) s
  end.
Definition get_method (s : list Z) : Z := get_method_loop method_strings 0 s.
Definition get_method_string (method : Z) : option (list Z) :=
  if (method <=? 0) || (SW_HTTP_PRI <? method) then None else zget method_strings (method - 1).

Definition list_of_status_code : list Z :=
  [100; 101; 102; 103; 200; 201; 202; 203; 204; 205; 206; 207; 208; 226; 300; 301; 302; 303; 304; 305; 306; 307; 308;
   400; 401; 402; 403; 404; 405; 406; 407; 408; 409; 410; 411; 412; 413; 414; 415; 416; 417; 418; 421;
   422; 423; 424; 425; 426; 428; 429; 431; 451; 500; 501; 502; 503; 504; 505; 506; 507; 508; 510; 511; -1] ++ repeat 0 64.
Definition get_status_message (code : Z) : list Z :=
  match code with
  | 100 => str "100 Continue" | 101 => str "101 Switching Protocols" | 102 => str "102 Processing" | 103 => str "103 Early Hints"
  | 201 => str "201 Created" | 202 => str "202 Accepted" | 203 => str "203 Non-Authoritative Information" | 204 => str "204 No Content"
  | 205 => str "205 Reset Content" | 206 => str "206 Partial Content" | 207 => str "207 Multi-Status" | 208 => str "208 Already Reported"
  | 226 => str "226 IM Used" | 300 => str "300 Multiple Choices" | 301 => str "301 Moved Permanently" | 302 => str "302 Found"
  | 303 => str "303 See Other" | 304 => str "304 Not Modified" | 305 => str "305 Use Proxy" | 306 => str "306 (Unused)"
  | 307 => str "307 Temporary Redirect" | 308 => str "308 Permanent Redirect" | 400 => str "400 Bad Request" | 401 => str "401 Unauthorized"
  | 402 => str "402 Payment Required" | 403 => str "403 Forbidden" | 404 => str "404 Not Found" | 405 => str "405 Method Not Allowed"
  | 406 => str "406 Not Acceptable" | 407 => str "407 Proxy Authentication Required" | 408 => str "408 Request Timeout" | 409 => str "409 Conflict"
  | 410 => str "410 Gone" | 411 => str "411 Length Required" | 412 => str "412 Precondition Failed" | 413 => str "413 Payload Too Large"
  | 414 => str "414 URI Too Long" | 415 => str "415 Unsupported Media Type" | 416 => str "416 Range Not Satisfiable"
  | 417 => str "417 Expectation Failed" | 418 => str "418 I'm a teapot" | 421 => str "421 Misdirected Request"
  | 422 => str "422 Unprocessable Entity" | 423 => str "423 Locked" | 424 => str "424 Failed Dependency" | 425 => str "425 Too Early"
  | 426 => str "426 Upgrade Required" | 428 => str "428 Precondition Required" | 429 => str "429 Too Many Requests"
  | 431 => str "431 Request Header Fields Too Large" | 451 => str "451 Unavailable For Legal Reasons" | 500 => str "500 Internal Server Error"
  | 501 => str "501 Not Implemented" | 502 => str "502 Bad Gateway" | 503 => str "503 Service Unavailable" | 504 => str "504 Gateway Timeout"
  | 505 => str "505 HTTP Version Not Supported" | 506 => str "506 Variant Also Negotiates" | 507 => str "507 Insufficient Storage"
  | 508 => str "508 Loop Detected" | 510 => str "510 Not Extended" | 511 => str "511 Network Authentication Required"
  | 200 | 0 => str "200 OK"
  | _ => to_string code ++ str " Unknown Status"
  end.

(** ** Escapes *)

Definition hex_value (c : Z) : Z := if (48 <=? tolower c) && (tolower c <=? 57) then tolower c - 48 else tolower c - 97 + 10.
(** What [url_decode] means and what [url_encode] should write *)
Fixpoint decode (l : list Z) : list Z :=
  match l with
  | [] => []
  | c :: l =>
      if c =? 43 then 32 :: decode l else
      match l with
      | h1 :: h2 :: l' => if (c =? PERCENT) && isxdigit h1 && isxdigit h2 then u8 (hex_value h1 * 16 + hex_value h2) :: decode l' else c :: decode l
      | _ => c :: decode l
      end
  end.
Definition hexchar (d : Z) : Z := if d <? 10 then 48 + d else 65 + d - 10.
Definition escape (c : Z) : list Z := if unreserved c then [c] else [PERCENT; hexchar (Z.shiftr c 4); hexchar (Z.land c 15)].
Definition encode (s : list Z) : list Z := concat (escape <$> s).

Lemma nibbles c : byte c -> 0 <= Z.shiftr c 4 < 16 /\ 0 <= Z.land c 15 < 16 /\ Z.shiftr c 4 * 16 + Z.land c 15 = c.
Proof.
  unfold byte. intros Hc. rewrite Z.shiftr_div_pow2 by lia. change 15 with (Z.ones 4). rewrite Z.land_ones by lia.
  change (2 ^ 4) with 16. pose proof (Z.div_mod c 16). pose proof (Z.mod_pos_bound c 16). split_and!; try lia.
Qed.

(** All digits are tried. *)
Lemma nibble_cases (P : Z -> bool) d : forallb P (seqZ 0 16) = true -> 0 <= d < 16 -> P d = true.
Proof. intros Hf Hd. rewrite forallb_forall in Hf. apply Hf. apply list_elem_of_In, elem_of_seqZ. lia. Qed.

Lemma hexchars_get d : 0 <= d < 16 -> zget hexchars d = Some (hexchar d).
Proof. intros Hd. exact (bool_decide_eq_true_1 _ (nibble_cases (fun d => bool_decide (zget hexchars d = Some (hexchar d))) d eq_refl Hd)). Qed.

Lemma hexchar_value d : 0 <= d < 16 -> isxdigit (hexchar d) = true /\ hex_value (hexchar d) = d.
Proof.
  intros Hd. exact (bool_decide_eq_true_1 _ (nibble_cases (fun d => bool_decide (isxdigit (hexchar d) = true /\ hex_value (hexchar d) = d)) d eq_refl Hd)).
Qed.

Lemma unreserved_plain c : byte c -> unreserved c = true -> c <> 43 /\ c <> PERCENT.
Proof. intros Hc Hu. split; intros ->; vm_compute in Hu; done. Qed.

(** Decoding what was encoded, up to the next byte. *)
Lemma decode_encode s : Forall byte s -> decode (encode s) = s.
Proof.
  induction 1 as [|c s Hc Hs IH]; [done|]. unfold encode in *. cbn [fmap list_fmap concat]. unfold escape at 1. destruct (unreserved c) eqn:Hu.
  - destruct (unreserved_plain c Hc Hu) as [H1 H2]. cbn [app decode]. rewrite (proj2 (Z.eqb_neq c 43)), (proj2 (Z.eqb_neq c PERCENT)) by done. cbn [andb].
    destruct (concat (escape <$> s)) as [|h1 [|h2 l]]; by rewrite IH.
  - destruct (nibbles c Hc) as (Hh & Hl & Hv). destruct (hexchar_value _ Hh) as (X1 & V1), (hexchar_value _ Hl) as (X2 & V2).
    cbn [app decode]. rewrite X1, X2, V1, V2, Hv. cbn [Z.eqb PERCENT andb]. change (37 =? 43) with false. cbn [Z.eqb Pos.eqb andb]. rewrite IH.
    rewrite uN_small by (unfold fits; unfold byte in Hc; lia). done.
Qed.

(** *** Encoding *)

Lemma zset_again (l l1 : list Z) i a b : zset l i a = Some l1 -> zset l1 i b = zset l i b.
Proof.
  unfold zset. destruct ((0 <=? i) && (i <? zlen l)) eqn:E; [|done]. intros [= <-]. rewrite length_insert, E. by rewrite list_insert_insert_eq.
Qed.

Section encoding.
Context (fresh : Z -> list Z).
Hypothesis fresh_size : forall n, 0 <= n -> zlen (fresh n) = n.

Lemma encode_length s : zlen s <= zlen (encode s) <= 3 * zlen s.
Proof.
  unfold encode. induction s as [|c s IH]; [done|]. cbn [fmap list_fmap concat length]. rewrite length_app.
  assert (length (escape c) = 1 \/ length (escape c) = 3)%nat by (unfold escape; destruct (unreserved c); auto). lia.
Qed.

Lemma url_encode_loop_ok s ret y : Forall byte s -> 0 <= y -> y + 3 * zlen s <= zlen ret ->
  exists ret', url_encode_loop s ret y = Some (ret', y + zlen (encode s)) /\ zlen ret' = zlen ret /\
    take (Z.to_nat (y + zlen (encode s))) ret' = take (Z.to_nat y) ret ++ encode s.
Proof.
  revert ret y. induction s as [|c s IH]; intros ret y Hs Hy Hl.
  { exists ret. cbn [url_encode_loop encode fmap list_fmap concat length]. rewrite Z.add_0_r, app_nil_r. done. }
  inversion Hs as [|? ? Hc Hs']; subst. cbn [length] in Hl. cbn [url_encode_loop]. unfold encode. cbn [fmap list_fmap concat]. fold (encode s).
  assert (forall e ret1, zblit ret y e = Some ret1 -> zlen e = 1 \/ zlen e = 3 ->
    exists ret', url_encode_loop s ret1 (y + zlen e) = Some (ret', y + zlen (e ++ encode s)) /\ zlen ret' = zlen ret /\
      take (Z.to_nat (y + zlen (e ++ encode s))) ret' = take (Z.to_nat y) ret ++ e ++ encode s) as Hgo.
  { intros e ret1 E He. pose proof (zblit_length _ _ _ _ E) as El. destruct (IH ret1 (y + zlen e)) as (ret' & -> & Hl' & Ht); [done|lia|rewrite El; lia|].
    exists ret'. rewrite length_app, Nat2Z.inj_add, Z.add_assoc. split_and!; [done|congruence|]. rewrite Ht, app_assoc. f_equal.
    apply zblit_Some in E as (? & ? & ->). rewrite app_assoc, take_app_length'; [done|]. rewrite length_app, length_take. lia. }
  unfold escape. rewrite zset_zblit. destruct (zblit_in_bounds ret y [c]) as [ret1 E1]; [lia|simpl; lia|]. rewrite E1. cbn [mbind option_bind].
  destruct (unreserved c).
  { apply (Hgo [c]); [done|by left]. }
  destruct (nibbles c Hc) as (Hh & Hlo & _). rewrite !hexchars_get by done. cbn [mbind option_bind]. pose proof (zblit_length _ _ _ _ E1) as L1.
  destruct (zblit_in_bounds ret y [PERCENT; hexchar (Z.shiftr c 4); hexchar (Z.land c 15)]) as [ret4 E4]; [lia|simpl; lia|].
  rewrite <- zset_zblit in E1. rewrite (zset_again _ _ _ _ PERCENT E1). destruct (zblit_in_bounds ret y [PERCENT]) as [ret2 E2]; [lia|simpl; lia|].
  rewrite zset_zblit, E2. cbn [mbind option_bind]. pose proof (zblit_length _ _ _ _ E2) as L2.
  destruct (zblit_in_bounds ret2 (y + 1) [hexchar (Z.shiftr c 4)]) as [ret3 E3]; [lia|simpl; lia|]. rewrite zset_zblit, E3. cbn [mbind option_bind].
  pose proof (zblit_length _ _ _ _ E3) as L3. pose proof (zblit_zblit _ _ _ _ _ _ E2 E3) as E23.
  destruct (zblit_in_bounds ret3 (y + 2) [hexchar (Z.land c 15)]) as [ret5 E5]; [lia|simpl; lia|]. rewrite zset_zblit, E5. cbn [mbind option_bind].
  apply (Hgo [PERCENT; hexchar (Z.shiftr c 4); hexchar (Z.land c 15)]); [|by right]. apply (zblit_zblit _ _ _ _ _ _ E23 E5).
Qed.

(** [url_encode] writes the encoded string, when something in it needs no escape; the
    memory is one byte too short when every byte is escaped. *)
Lemma encode_full s : existsb unreserved s = false <-> zlen (encode s) = 3 * zlen s.
Proof.
  unfold encode. induction s as [|c s IH]; [done|]. pose proof (encode_length s) as Hl. unfold encode in Hl. cbn [existsb fmap list_fmap concat length]. rewrite length_app.
  unfold escape at 1. destruct (unreserved c); cbn [orb length].
  - split; [done|lia].
  - rewrite IH. lia.
Qed.

Lemma url_encode_ok s : Forall byte s -> url_encode fresh s = if existsb unreserved s then Some (encode s ++ [0]) else None.
Proof.
  intros Hs. unfold url_encode. pose proof (encode_length s) as Hlen. pose proof (fresh_size (zlen s * 3) ltac:(lia)) as Hf.
  destruct (url_encode_loop_ok s (fresh (zlen s * 3)) 0 Hs) as (ret & -> & Hl & Ht); [lia|lia|]. cbn [mbind option_bind]. rewrite Z.add_0_l in *. simpl in Ht.
  destruct (existsb unreserved s) eqn:Ex.
  - assert (zlen (encode s) <> 3 * zlen s) by (intros E; apply encode_full in E; congruence).
    rewrite zset_zblit. destruct (zblit_in_bounds ret (zlen (encode s)) [0]) as [ret1 E1]; [lia|simpl; lia|]. rewrite E1. cbn [mbind option_bind].
    pose proof (zblit_length _ _ _ _ E1). apply zblit_Some in E1 as (_ & _ & ->). apply zsub_Some. split_and!; [lia|lia|simpl in *; lia|].
    rewrite drop_0, Ht, app_assoc, take_app_length'; [done|]. rewrite length_app. simpl. lia.
  - apply encode_full in Ex. rewrite Ex. unfold zset. rewrite Hl, Hf. destruct (Z.ltb_spec (3 * zlen s) (zlen s * 3)); [lia|]. by rewrite andb_false_r.
Qed.
End encoding.

(** *** Decoding in place *)

Lemma zget_drop (m : list Z) i c l : 0 <= i -> drop (Z.to_nat i) m = c :: l -> zget m i = Some c /\ i < zlen m /\ drop (Z.to_nat (i + 1)) m = l.
Proof.
  intros Hi E. assert (m !! Z.to_nat i = Some c) as Hl by (rewrite <- (Nat.add_0_r (Z.to_nat i)), <- lookup_drop, E; done).
  pose proof (lookup_lt_Some _ _ _ Hl). unfold zget. destruct (Z.leb_spec 0 i); [|lia]. split_and!; [done|lia|].
  replace (Z.to_nat (i + 1)) with (Z.to_nat i + 1)%nat by lia. by rewrite <- drop_drop, E.
Qed.

(** One byte is written, nothing behind it changes. *)
Lemma put_byte (m : list Z) dest v : 0 <= dest < zlen m ->
  exists m', zset m dest v = Some m' /\ zlen m' = zlen m /\ take (Z.to_nat (dest + 1)) m' = take (Z.to_nat dest) m ++ [v] /\
    forall n, dest < n -> drop (Z.to_nat n) m' = drop (Z.to_nat n) m.
Proof.
  intros Hd. rewrite zset_zblit. destruct (zblit_in_bounds m dest [v]) as [m' E]; [lia|simpl; lia|]. rewrite E. exists m'.
  pose proof (zblit_length _ _ _ _ E). apply zblit_Some in E as (? & ? & ->). split_and!; [done|lia| |].
  - simpl. rewrite cons_middle, app_assoc, take_app_length'; [done|]. rewrite length_app, length_take. simpl. lia.
  - intros n Hn. rewrite drop_app_ge by (rewrite length_take; lia). rewrite length_take, Nat.min_l by lia.
    replace (Z.to_nat n - Z.to_nat dest)%nat with (S (Z.to_nat n - Z.to_nat dest - 1))%nat by lia. simpl. rewrite drop_drop. f_equal. lia.
Qed.

Lemma hex_lower c : (if isupper c then tolower c else c) = tolower c.
Proof. unfold tolower. by destruct (isupper c). Qed.

Lemma url_decode_loop_ok fuel m data dest s rest : drop (Z.to_nat data) m = s ++ rest -> 0 <= dest <= data -> (length s < fuel)%nat ->
  exists m', url_decode_loop fuel m data dest (zlen s) = Some (m', dest + zlen (decode s)) /\ zlen m' = zlen m /\
    take (Z.to_nat (dest + zlen (decode s))) m' = take (Z.to_nat dest) m ++ decode s.
Proof.
  revert m data dest s. induction fuel as [|fuel IH]; intros m data dest s Hs Hd Hf; [lia|]. cbn [url_decode_loop]. destruct s as [|c s].
  { exists m. simpl. rewrite Z.add_0_r, app_nil_r. done. }
  rewrite (proj2 (Z.eqb_neq _ 0)) by (simpl; lia). cbn [length] in Hf. replace (zlen (c :: s) - 1) with (zlen s) by (simpl; lia).
  destruct (zget_drop m data c (s ++ rest)) as (-> & Hlt & Hs1); [lia|done|]. cbn [mbind option_bind].
  assert (forall v data' s', data < data' -> drop (Z.to_nat data') m = s' ++ rest -> (length s' < fuel)%nat ->
    exists m', (m1 ← zset m dest v; url_decode_loop fuel m1 data' (dest + 1) (zlen s')) = Some (m', dest + zlen (v :: decode s')) /\ zlen m' = zlen m /\
      take (Z.to_nat (dest + zlen (v :: decode s'))) m' = take (Z.to_nat dest) m ++ v :: decode s') as Hgo.
  { intros v data' s' Hlt' Hs' Hf'. destruct (put_byte m dest v) as (m1 & -> & Hl1 & Ht1 & Hdr); [lia|]. cbn [mbind option_bind].
    destruct (IH m1 data' (dest + 1) s') as (m' & -> & Hl' & Ht'); [rewrite Hdr by lia; done|lia|done|]. exists m'. cbn [length].
    replace (dest + Z.of_nat (S (length (decode s')))) with (dest + 1 + zlen (decode s')) by lia. split_and!; [done|lia|]. by rewrite Ht', Ht1, <- app_assoc. }
  cbn [decode]. destruct (c =? 43); [by apply Hgo; [lia| |lia]|].
  destruct s as [|h1 [|h2 s]].
  - rewrite andb_false_r. cbn [mbind option_bind]. by apply Hgo; [lia| |lia].
  - rewrite andb_false_r. cbn [mbind option_bind]. by apply Hgo; [lia| |lia].
  - rewrite (proj2 (Z.leb_le 2 _)) by (simpl; lia). rewrite andb_true_r. destruct (c =? PERCENT); cbn [andb mbind option_bind]; [|by apply Hgo; [lia| |lia]].
    destruct (zget_drop m (data + 1) h1 (h2 :: s ++ rest)) as (G1 & _ & Hs2); [lia|done|]. rewrite G1. cbn [mbind option_bind].
    destruct (isxdigit h1); cbn [andb mbind option_bind]; [|by apply Hgo; [lia| |lia]].
    replace (data + 1 + 1) with (data + 2) in Hs2 by lia. destruct (zget_drop m (data + 2) h2 (s ++ rest)) as (G2 & _ & Hs3); [lia|done|]. rewrite G2. cbn [mbind option_bind].
    destruct (isxdigit h2); [|by apply Hgo; [lia| |lia]]. unfold url_htoi. replace (data + 1 + 1) with (data + 2) by lia. rewrite G1, G2. cbn [mbind option_bind]. rewrite !hex_lower.
    fold (hex_value h1) (hex_value h2). replace (zlen (h1 :: h2 :: s) - 2) with (zlen s) by (simpl; lia). apply Hgo; [lia| |simpl in Hf; lia].
    replace (data + 3) with (data + 2 + 1) by lia. done.
Qed.

Lemma decode_length n s : (length s <= n)%nat -> (length (decode s) <= length s)%nat.
Proof.
  revert s. induction n as [|n IH]; intros [|c s] Hn; try (simpl in *; lia). cbn [length] in Hn. pose proof (IH s ltac:(lia)) as Hs.
  cbn [decode]. destruct (c =? 43); [cbn [length] in *; lia|]. destruct s as [|h1 [|h2 s]]; [cbn [length] in *; lia..|].
  destruct (_ && _); [|cbn [length] in *; lia]. pose proof (IH s ltac:(simpl in *; lia)). cbn [length] in *. lia.
Qed.

Lemma url_decode_ok s x rest : exists m', url_decode (s ++ x :: rest) (zlen s) = Some (m', zlen (decode s)) /\
  take (length (decode s)) m' = decode s /\ zget m' (zlen (decode s)) = Some 0 /\ zlen m' = zlen (s ++ x :: rest).
Proof.
  unfold url_decode. destruct (url_decode_loop_ok (S (Z.to_nat (zlen s))) (s ++ x :: rest) 0 0 s (x :: rest)) as (m & -> & Hl & Ht); [done|lia|lia|]. cbn [mbind option_bind].
  rewrite !Z.add_0_l in *. pose proof (decode_length (length s) s ltac:(done)) as Hd.
  destruct (put_byte m (zlen (decode s)) 0) as (m' & E & Hl' & Ht' & _); [rewrite Hl, length_app; simpl; lia|]. rewrite E. cbn [mbind option_bind].
  exists m'. split_and!; [done| |by eapply zget_zset_eq|lia]. rewrite Nat2Z.id in Ht. simpl in Ht. rewrite Nat2Z.id, Ht in Ht'.
  apply (f_equal (take (length (decode s)))) in Ht'. rewrite take_take, take_app_length, Nat.min_l in Ht' by lia. done.
Qed.

(** ** Parameters *)

Lemma memchr_loop_ok n m p c : 0 <= p -> p + Z.of_nat n <= zlen m ->
  exists r, memchr_loop n m p c = Some r /\ forall i, r = Some i -> p <= i < p + Z.of_nat n /\ zget m i = Some c.
Proof.
  revert p. induction n as [|n IH]; intros p Hp Hn; cbn [memchr_loop]; [by exists None|].
  destruct (zget_in_bounds m p) as [x Hx]; [lia|]. rewrite Hx. cbn [mbind option_bind]. destruct (Z.eqb_spec x c) as [->|].
  - exists (Some p). split; [done|]. intros i [= <-]. split; [lia|done].
  - destruct (IH (p + 1)) as (r & -> & Hr); [lia..|]. exists r. split; [done|]. intros i ->. destruct (Hr i eq_refl). split; [lia|done].
Qed.

Lemma memchr_ok m p c n : 0 <= p -> 0 <= n -> p + n <= zlen m ->
  exists r, memchr m p c n = Some r /\ forall i, r = Some i -> p <= i < p + n /\ zget m i = Some c.
Proof. intros. destruct (memchr_loop_ok (Z.to_nat n) m p c) as (r & E & Hr); [lia..|]. exists r. split; [done|]. intros i ->. destruct (Hr i eq_refl). split; [lia|done]. Qed.

Lemma strncaseeq_total m p lit : 0 <= p -> p + zlen lit <= zlen m -> exists b, strncaseeq m p lit = Some b.
Proof.
  revert p. induction lit as [|c lit IH]; intros p Hp Hl; cbn [strncaseeq]; [by eexists|]. cbn [length] in Hl.
  destruct (zget_in_bounds m p) as [x ->]; [lia|]. cbn [mbind option_bind]. destruct (_ =? _); [apply IH; lia|by eexists].
Qed.

Lemma boundary_loop_ok fuel at_ offset : 0 <= offset <= zlen at_ -> 2 * (zlen at_ - offset) < Z.of_nat fuel ->
  exists r, boundary_loop fuel at_ offset = Some r /\ forall o, r = Some o -> offset <= o.
Proof.
  revert offset. induction fuel as [|fuel IH]; intros offset Ho Hf; [lia|].
  cbn [boundary_loop]. destruct (Z.ltb_spec offset (zlen at_)) as [Hlt|Hge]; [|exists (Some offset); split; [done|by intros o [= <-]]].
  destruct (zget_in_bounds at_ offset) as [c Hc]; [lia|]. rewrite Hc. cbn [mbind option_bind].
  destruct ((c =? SP) || (c =? 59)) eqn:Ec.
  { destruct (IH (offset + 1)) as (r & -> & Hr); [lia..|]. exists r. split; [done|]. intros o ->. specialize (Hr o eq_refl). lia. }
  assert (exists b, (if offset + 9 <=? zlen at_ then istarts_with at_ offset (zlen at_ - offset) (str "boundary=") else Some false) = Some b) as [b ->].
  { destruct (Z.leb_spec (offset + 9) (zlen at_)); [|by eexists]. unfold istarts_with. destruct (_ <=? _); [|by eexists]. apply strncaseeq_total; [lia|simpl; lia]. }
  cbn [mbind option_bind]. destruct b; [exists (Some (offset + 9)); split; [done|intros o [= <-]; lia]|].
  destruct (memchr_ok at_ offset 59 (zlen at_ - offset)) as (r & -> & Hr); [lia..|]. cbn [mbind option_bind]. destruct r as [d|]; [|by exists None].
  destruct (Hr d eq_refl) as [Hd Hg]. assert (d <> offset) by (intros ->; rewrite Hc in Hg; simplify_eq; by rewrite orb_true_r in Ec).
  destruct (IH d) as (r & -> & Hr'); [lia..|]. exists r. split; [done|]. intros o ->. specialize (Hr' o eq_refl). lia.
Qed.

(** [parse_multipart_boundary] stays inside of the value, and so does what it finds. *)
Lemma parse_multipart_boundary_ok at_ offset : 0 <= offset <= zlen at_ -> zlen at_ < 2 ^ 31 ->
  exists r, parse_multipart_boundary at_ offset = Some r /\ forall o n, r = Some (o, n) -> offset <= o /\ 0 < n /\ o + n <= zlen at_.
Proof.
  intros Ho Hl. unfold parse_multipart_boundary. destruct (boundary_loop_ok (S (Z.to_nat (2 * (zlen at_ - offset)))) at_ offset) as (r & -> & Hr); [lia..|].
  cbn [mbind option_bind]. destruct r as [o|]; [|by exists None]. specialize (Hr o eq_refl). destruct (Z.leb_spec (zlen at_) o); [by exists None|].
  rewrite (sN_small 32) by lia. rewrite (proj2 (Z.ltb_lt 0 _)) by lia. destruct (memchr_ok at_ o 59 (zlen at_ - o)) as (sc & -> & Hsc); [lia..|]. cbn [mbind option_bind].
  set (n := match sc with Some e => e - o | None => zlen at_ - o end). assert (o + n <= zlen at_) as Hn.
  { unfold n. destruct sc as [e|]; [destruct (Hsc e eq_refl); lia|lia]. }
  clearbody n. destruct (Z.leb_spec n 0); [by exists None|].
  assert (exists b : bool, (if 2 <=? n then a ← zget at_ o; if a =? 34 then b ← zget at_ (o + n - 1); Some (b =? 34) else Some false else Some false) = Some b /\ (b = true -> 2 <= n)) as (q & -> & Hq).
  { destruct (Z.leb_spec 2 n); [|by exists false]. destruct (zget_in_bounds at_ o) as [a ->]; [lia|]. cbn [mbind option_bind]. destruct (a =? 34); [|by exists false].
    destruct (zget_in_bounds at_ (o + n - 1)) as [b ->]; [lia|]. by eexists. }
  cbn [mbind option_bind]. destruct q; [|eexists; split; [done|]; intros ? ? [= <- <-]; lia].
  specialize (Hq eq_refl). destruct (Z.leb_spec (n - 2) 0); eexists; (split; [done|]); [done|]. intros ? ? [= <- <-]. lia.
Qed.

(** *** Cookies *)

Lemma find_absent c (l : list Z) : (c ∉ l) -> list_find (fun x => x = c) l = None.
Proof. intros Hl. apply list_find_None. apply Forall_forall. intros x Hx ->. done. Qed.
Lemma find_sep c (l r : list Z) : (c ∉ l) -> list_find (fun x => x = c) (l ++ c :: r) = Some (length l, c).
Proof.
  intros Hl. apply list_find_Some. split_and!; [by apply list_lookup_middle|done|]. intros j y Hj Hlt ->. rewrite lookup_app_l in Hj by done.
  apply Hl. by eapply list_elem_of_lookup_2.
Qed.

Fixpoint join (ts : list (list Z)) : list Z :=
  match ts with [] => [] | [t] => t | t :: ts => t ++ 59 :: join ts end.

Lemma strtok_join ts fuel : Forall (fun t => t <> [] /\ (59 ∉ t)) ts -> (length (join ts) < fuel)%nat -> strtok fuel (join ts) = ts.
Proof.
  revert fuel. induction ts as [|t ts IH]; intros fuel Hts Hf; [by destruct fuel|]. inversion Hts as [|? ? [Hne Hni] Hts']; subst.
  destruct fuel as [|fuel]; [lia|]. destruct t as [|c t]; [done|]. assert ((c =? 59) = false) as Hc by (apply Z.eqb_neq; intros ->; apply Hni; left).
  destruct ts as [|t' ts].
  - cbn [join strtok]. by rewrite Hc, find_absent by done.
  - change (join ((c :: t) :: t' :: ts)) with (c :: (t ++ 59 :: join (t' :: ts))) in *. cbn [strtok]. rewrite Hc. change (c :: (t ++ 59 :: join (t' :: ts))) with ((c :: t) ++ 59 :: join (t' :: ts)).
    rewrite (find_sep 59), take_app_length, drop_app_ge by done || lia. replace (S (length (c :: t)) - length (c :: t))%nat with 1%nat by lia.
    cbn [drop]. f_equal. apply IH; [done|]. cbn [length] in Hf. rewrite length_app in Hf. cbn [length] in Hf. lia.
Qed.

Definition cookie_token (kv : list Z * list Z) : list Z := kv.1 ++ 61 :: kv.2.
Definition render_cookies (l : list (list Z * list Z)) : list Z :=
  match l with [] => [] | kv :: l => join (cookie_token kv :: ((fun kv => 32 :: cookie_token kv) <$> l)) end.
Definition cookie_ok (kv : list Z * list Z) : Prop :=
  (exists c k, kv.1 = c :: k /\ isspace c = false) /\ Forall (fun c => c <> 59 /\ c <> 61 /\ c <> 0) kv.1 /\ Forall (fun c => c <> 59 /\ c <> 0) kv.2.
Definition collect (l : list (list Z * list Z)) (k v : list Z) : option (list (list Z * list Z) * bool) := Some (l ++ [(k, v)], true).

Lemma cookie_loop_ok l u (f : list Z * list Z -> list Z) : (forall kv, f kv = cookie_token kv \/ f kv = 32 :: cookie_token kv) -> Forall cookie_ok l ->
  cookie_loop collect (f <$> l) u = Some (u ++ l).
Proof.
  intros Hf Hl. revert u. induction Hl as [|[k v] l Hkv Hl IH]; intros u; cbn [fmap list_fmap cookie_loop]; [by rewrite app_nil_r|].
  destruct Hkv as ((c & k' & Hk & Hc) & Hks & _). cbn [fst snd] in *.
  assert (skip_space (f (k, v)) = cookie_token (k, v)) as ->.
  { assert (skip_space (cookie_token (k, v)) = cookie_token (k, v)) as E by (unfold cookie_token; cbn [fst snd]; rewrite Hk; simpl; by rewrite Hc). by destruct (Hf (k, v)) as [->| ->]. }
  unfold cookie_token. cbn [fst snd]. rewrite find_sep.
  - rewrite Hk. cbn [length]. change (S (length k')) with (length (c :: k')). rewrite <- Hk, take_app_length. rewrite drop_app_ge by lia. replace (S (length k) - length k)%nat with 1%nat by lia.
    cbn [drop collect mbind option_bind]. rewrite IH, <- app_assoc. done.
  - intros Hin. rewrite Forall_forall in Hks. destruct (Hks 61 Hin) as (_ & Hne & _). done.
Qed.

Lemma cookie_token_chars c kv : cookie_ok kv -> c = 59 \/ c = 0 -> (c ∉ 32 :: cookie_token kv).
Proof.
  intros (_ & Hk & Hv) Hc Hin. unfold cookie_token in Hin. rewrite Forall_forall in Hk, Hv.
  rewrite elem_of_cons, elem_of_app, elem_of_cons in Hin. destruct Hin as [->|[Hin|[->|Hin]]]; [lia|apply Hk in Hin; lia|lia|apply Hv in Hin; lia].
Qed.

Lemma join_chars c ts : (c = 59 -> False) -> Forall (fun t => c ∉ t) ts -> (c ∉ join ts).
Proof.
  intros Hc Ht. induction Ht as [|t ts Ht Hts IH]; [apply not_elem_of_nil|]. destruct ts as [|t' ts]; [done|].
  change (join (t :: t' :: ts)) with (t ++ 59 :: join (t' :: ts)). rewrite elem_of_app, elem_of_cons. intros [?|[?|?]]; auto.
Qed.

(** The cookies of a header come to the callback as they were written. *)
Lemma cookie_roundtrip l : Forall cookie_ok l -> zlen (render_cookies l) < SW_STACK_BUFFER_SIZE -> parse_cookie collect (render_cookies l) [] = Some l.
Proof.
  intros Hl Hn. unfold parse_cookie. rewrite (proj2 (Z.ltb_lt _ _)) by done. destruct l as [|kv l]; [done|]. cbn [render_cookies] in *.
  set (ts := cookie_token kv :: ((fun kv => 32 :: cookie_token kv) <$> l)) in *.
  assert (forall c, c = 59 \/ c = 0 -> Forall (fun t => c ∉ t) ts) as Hch.
  { intros c Hc. inversion Hl as [|? ? Hkv Hl']; subst. constructor.
    - intros Hin. apply (cookie_token_chars c kv Hkv Hc). by right.
    - rewrite Forall_fmap. eapply Forall_impl; [exact Hl'|]. intros kv' Hkv'. by apply cookie_token_chars. }
  unfold c_string. rewrite find_absent by (apply join_chars; [lia|apply Hch; lia]).
  rewrite strtok_join; [|apply Forall_forall; intros t Ht; split; [|by apply (proj1 (Forall_forall _ _) (Hch 59 (or_introl eq_refl)))]|lia].
  - inversion Hl as [|? ? Hkv Hl']; subst. change ts with (([cookie_token kv]) ++ ((fun kv => 32 :: cookie_token kv) <$> l)).
    pose proof (cookie_loop_ok [kv] [] cookie_token ltac:(by left) ltac:(by constructor)) as E1.
    pose proof (cookie_loop_ok l [kv] (fun kv => 32 :: cookie_token kv) ltac:(by right) Hl') as E2. cbn [fmap list_fmap cookie_loop app] in E1 |- *. revert E1.
    destruct (list_find _ _) as [[[|i] x]|]; [intros E1; by simplify_eq| |]; cbn [collect mbind option_bind app].
    + intros [= E1]. rewrite E1. exact E2.
    + destruct (bool_decide _); [intros E1; by simplify_eq|]. intros [= E1]. by rewrite E1.
  - unfold ts in Ht. rewrite elem_of_cons, list_elem_of_fmap in Ht. destruct Ht as [->|(kv' & -> & _)]; [|done]. unfold cookie_token. by destruct (kv.1).
Qed.

(** ** Methods *)

(** Every method has its number, in any case of the letters. *)
Lemma method_roundtrip method s : get_method_string method = Some s -> get_method s = method.
Proof.
  unfold get_method_string, SW_HTTP_PRI. destruct (Z.leb_spec method 0), (Z.ltb_spec 27 method); cbn [orb]; try done. intros Hs.
  assert (forall k, (k < 27)%nat -> forall s, zget method_strings (Z.of_nat k) = Some s -> get_method s = Z.of_nat k + 1) as Hall.
  { intros k Hk. do 27 (destruct k as [|k]; [intros ? [= <-]; reflexivity|]). lia. }
  rewrite (Hall (Z.to_nat (method - 1)) ltac:(lia)); [lia|]. by rewrite Z2Nat.id by lia.
Qed.

(** ** The claims *)

(** What [url_encode] writes is what [url_decode] takes back, byte for byte, and
    both end the string with a null byte. *)
Theorem url_escape_roundtrip fresh s x rest : (forall n, 0 <= n -> zlen (fresh n) = n) -> Forall byte s -> existsb unreserved s = true ->
  exists e m, url_encode fresh s = Some (e ++ [0]) /\ url_decode (e ++ x :: rest) (zlen e) = Some (m, zlen s) /\ take (length s) m = s /\ zget m (zlen s) = Some 0.
Proof.
  intros Hf Hs Hu. destruct (url_decode_ok (encode s) x rest) as (m & E & Ht & Hz & _). rewrite decode_encode in * by done.
  exists (encode s), m. rewrite url_encode_ok, Hu by done. done.
Qed.

(** The memory of [url_encode] has no place for the null byte when every byte is escaped. *)
Lemma url_encode_overflow fresh s : (forall n, 0 <= n -> zlen (fresh n) = n) -> Forall byte s -> existsb unreserved s = false -> url_encode fresh s = None.
Proof. intros Hf Hs Hu. by rewrite url_encode_ok, Hu. Qed.
