(* ===== verification/HttpRequest.v ===== *)
(** * A request of HTTP/1

    [struct Request] of [src/protocol/http.cc]: what the reactor thread reads of a
    request to find where it ends.  The data is in the [String] of the connection; a
    pointer is the index of a byte in its memory, with the address of the memory where
    the code computes pointers from numbers that the peer sends. *)

From stdpp Require Import strings.
From S2P Require Import Prelude Str Protocol CStr Multipart HttpText.

(** ** Definitions *)

Definition SW_HTTP_VERSION_10 : Z := 1.
Definition SW_HTTP_VERSION_11 : Z := 2.
Definition SW_HTTP2_PRI_STRING : list Z := str "PRI * HTTP/2.0" ++ CRLF ++ CRLF ++ str "SM" ++ CRLF ++ CRLF.
Definition SW_HTTP_CHUNK_EOF : list Z := [48] ++ CRLF ++ CRLF.
Definition HEADER_EOF : list Z := CRLF ++ CRLF.

(** [struct FormData]; the parser has its file with it, here the number of the file *)
Record FormData := mkForm {
  multipart_boundary_buf : Z;
  multipart_boundary_len : Z;
  multipart_parser_ : option multipart_parser;
  fp : option nat;
  tmp_buffer : Str;
  upload_tmpfile : list Z;
  current_header_name : Z;
  current_header_name_len : Z;
  upload_filesize : Z;
  upload_max_filesize : Z;
}.
Definition new_form (buf len : Z) : FormData := mkForm buf len None None empty_string [] 0 0 0 0.

Record Request := mkRequest {
  method : Z;
  version : Z;
  excepted : bool;
  too_large : bool;
  unavailable : bool;
  header_parsed : bool;
  tried_to_dispatch : bool;
  multipart_header_parsed : bool;
  known_length : bool;
  keep_alive : bool;
  chunked : bool;
  nobody_chunked : bool;
  url_offset : Z;
  url_length : Z;
  max_length : Z;
  request_line_length : Z;
  header_length : Z;
  content_length : Z;
  form_data : option FormData;
}.

(** [Request::clean] and the constructor *)
Definition clean (r : Request) : Request :=
  mkRequest 0 0 false false false false false false false false false false 0 0 0 0 0 0 (form_data r).
Definition new_request : Request := mkRequest 0 0 false false false false false false false false false false 0 0 0 0 0 0 None.

(** Assignments *)
Definition set_line (r : Request) (m v uo ul rl : Z) : Request :=
  mkRequest m v (excepted r) (too_large r) (unavailable r) (header_parsed r) (tried_to_dispatch r) (multipart_header_parsed r) (known_length r) (keep_alive r)
    (chunked r) (nobody_chunked r) uo ul (max_length r) rl (header_length r) (content_length r) (form_data r).
Definition set_flags (r : Request) (ex tl un : bool) : Request :=
  mkRequest (method r) (version r) ex tl un (header_parsed r) (tried_to_dispatch r) (multipart_header_parsed r) (known_length r) (keep_alive r)
    (chunked r) (nobody_chunked r) (url_offset r) (url_length r) (max_length r) (request_line_length r) (header_length r) (content_length r) (form_data r).
Definition set_excepted (r : Request) : Request := set_flags r true (too_large r) (unavailable r).
Definition set_info (r : Request) (hp kl ka ch nc : bool) (cl : Z) (fd : option FormData) : Request :=
  mkRequest (method r) (version r) (excepted r) (too_large r) (unavailable r) hp (tried_to_dispatch r) (multipart_header_parsed r) kl ka
    ch nc (url_offset r) (url_length r) (max_length r) (request_line_length r) (header_length r) cl fd.
Definition set_progress (r : Request) (td mh : bool) (ml hl cl : Z) : Request :=
  mkRequest (method r) (version r) (excepted r) (too_large r) (unavailable r) (header_parsed r) td mh (known_length r) (keep_alive r)
    (chunked r) (nobody_chunked r) (url_offset r) (url_length r) ml (request_line_length r) hl cl (form_data r).
Definition set_form (r : Request) (fd : option FormData) : Request :=
  set_info r (header_parsed r) (known_length r) (keep_alive r) (chunked r) (nobody_chunked r) (content_length r) fd.
Definition set_header_length (r : Request) (n : Z) : Request :=
  set_progress r (tried_to_dispatch r) (multipart_header_parsed r) (max_length r) n (content_length r).

(** *** The request line *)

(** The methods but the last are compared in order *)
Fixpoint find_method (strings : list (list Z)) (m : list Z) (i : Z) : option (option (Z * Z)) :=
  match strings with
  | [] | [_] => Some None
  | s :: strings => b ← memeq m 0 s; if b : bool then Some (Some (i + 1, zlen s)) else find_method strings m (i + 1)
  end.

(** The loop over the rest of the line: what is in [state], [url_offset_] and
    [url_length_], and how it ends *)
Inductive line_end := L_end (version p : Z) | L_short | L_excepted.
Fixpoint line_loop (n : nat) (m : list Z) (p pe : Z) (state uo ul : Z) : option (line_end * Z * Z) :=
  match n with
  | O => Some (L_end 0 p, uo, ul)
  | S n =>
      c ← zget m p;
      if state =? 0 then
        if c =? SP then line_loop n m (p + 1) pe 0 uo ul else line_loop n m (p + 1) pe 1 p ul
      else if state =? 1 then
        if c =? SP then line_loop n m (p + 1) pe 2 uo (p - uo)
        else if (c =? CR) || (c =? LF) then Some (L_excepted, uo, ul)
        else line_loop n m (p + 1) pe 1 uo ul
      else
        if c =? SP then line_loop n m (p + 1) pe 2 uo ul
        else if pe - p <? 8 then Some (L_short, uo, ul)
        else
          b ← memeq m p (str "HTTP/1.1");
          if b : bool then Some (L_end SW_HTTP_VERSION_11 p, uo, ul)
          else
            b ← memeq m p (str "HTTP/1.0");
            if b : bool then Some (L_end SW_HTTP_VERSION_10 p, uo, ul) else Some (L_excepted, uo, ul)
  end.

Definition get_protocol (r : Request) (b : Str) : option (Request * Str * Z) :=
  if slen b <? 16 then Some (r, b, SW_ERR) else
  o ← find_method method_strings (mem b) 0;
  match o with
  | Some (m, n) =>
      '(e, uo, ul) ← line_loop (Z.to_nat (slen b - n)) (mem b) n (slen b) 0 (url_offset r) (url_length r);
      match e with
      | L_end v p =>
          let p := p + 8 in
          Some (set_line r m (if v =? 0 then version r else v) uo ul p, with_offset b p, SW_OK)
      | L_short => Some (set_line r m (version r) uo ul (request_line_length r), b, SW_ERR)
      | L_excepted => Some (set_excepted (set_line r m (version r) uo ul (request_line_length r)), b, SW_ERR)
      end
  | None =>
      pri ← memeq (mem b) 0 (str "PRI");
      if pri : bool then
        let r := set_line r SW_HTTP_PRI (version r) (url_offset r) (url_length r) (request_line_length r) in
        whole ← (if zlen SW_HTTP2_PRI_STRING <=? slen b then memeq (mem b) 0 SW_HTTP2_PRI_STRING else Some false);
        if whole : bool then Some (r, with_offset b (zlen SW_HTTP2_PRI_STRING), SW_OK) else Some (set_excepted r, b, SW_ERR)
      else Some (set_excepted r, b, SW_ERR)
  end.

(** *** The header *)

(** [get_header_length]; [n] is the number of places to look at *)
Fixpoint header_end_loop (n : nat) (m : list Z) (p : Z) : option (bool * Z) :=
  match n with
  | O => Some (false, p)
  | S n => b ← memeq m p HEADER_EOF; if b : bool then Some (true, p) else header_end_loop n m (p + 1)
  end.
Definition get_header_length (r : Request) (b : Str) : option (Request * Str * Z) :=
  '(found, p) ← header_end_loop (Z.to_nat (slen b - 4 + 1 - soff b)) (mem b) (soff b);
  if found : bool then let e := p + 4 in Some (set_header_length r e, with_offset b e, SW_OK) else Some (r, with_offset b p, SW_ERR).

(** [while ( *p == ' ') p++] *)
Fixpoint skip_sp (l : list Z) (p : Z) : option Z := match l with [] => None | c :: l => if c =? SP then skip_sp l (p + 1) else Some p end.
Definition skip_blanks (m : list Z) (p : Z) : option Z := skip_sp (drop (Z.to_nat p) m) p.

(** One header that begins at [p]; the result has the new [p] *)
Definition header_at (r : Request) (m : list Z) (p pe : Z) : option (Request * Z) :=
  let starts p lit := istarts_with m p (u64 (pe - p)) lit in
  is_length ← starts p (str "Content-Length:");
  if is_length : bool then
    p ← skip_blanks m (p + 15);
    '(n, _) ← strtoul 10 m p;
    Some (set_info r (header_parsed r) true (keep_alive r) (chunked r) (nobody_chunked r) n (form_data r), p)
  else
    is_connection ← starts p (str "Connection:");
    if is_connection : bool then
      p ← skip_blanks m (p + 11);
      ka ← starts p (str "keep-alive");
      Some (if ka : bool then set_info r (header_parsed r) (known_length r) true (chunked r) (nobody_chunked r) (content_length r) (form_data r) else r, p)
    else
      is_transfer ← starts p (str "Transfer-Encoding:");
      if is_transfer : bool then
        p ← skip_blanks m (p + 18);
        ch ← starts p (str "chunked");
        Some (if ch : bool then set_info r (header_parsed r) (known_length r) (keep_alive r) true (nobody_chunked r) (content_length r) (form_data r) else r, p)
      else
        is_type ← starts p (str "Content-Type:");
        if is_type : bool then
          p ← skip_blanks m (p + 13);
          mp ← starts p (str "multipart/form-data");
          if mp : bool then
            e ← strchr m p CR;
            let buf := p + 19 in
            e ← e;
            Some (set_info r (header_parsed r) (known_length r) (keep_alive r) (chunked r) (nobody_chunked r) (content_length r) (Some (new_form buf (u32 (e - buf)))), p)
          else Some (r, p)
        else Some (r, p).

Fixpoint header_loop (fuel : nat) (r : Request) (m : list Z) (p pe : Z) : option Request :=
  match fuel with
  | O => None
  | S fuel =>
      if p <? pe then
        a ← zget m (p - 1);
        start ← (if a =? LF then b ← zget m (p - 2); Some (b =? CR) else Some false);
        if start : bool then '(r, p) ← header_at r m p pe; header_loop fuel r m (p + 1) pe
        else header_loop fuel r m (p + 1) pe
      else Some r
  end.
Definition parse_header_info (r : Request) (b : Str) : option Request :=
  let p := request_line_length r + 2 in
  let pe := header_length r - 4 in
  r ← header_loop (S (Z.to_nat (pe - p))) r (mem b) p pe;
  Some (set_info r true (known_length r) (keep_alive r) (chunked r) (nobody_chunked r || (chunked r && known_length r && (content_length r =? 0)))
          (content_length r) (form_data r)).

(** *** The body *)

Section chunked.
(** The address of the memory of the buffer *)
Context (base : Z).
Inductive chunk_end := C_found (endptr : Z) | C_more | C_bad.
Fixpoint chunk_loop (fuel : nat) (m : list Z) (p pe : Z) : option chunk_end :=
  match fuel with
  | O => None
  | S fuel =>
      '(chunk_length, endptr) ← strtoul 16 m p;
      c ← zget m endptr;
      if negb (c =? CR) then Some C_bad
      else if chunk_length =? 0 then Some (C_found endptr)
      else
        let q := u64 (base + endptr + 2 + chunk_length + 2) in
        if q <? base + pe then chunk_loop fuel m (q - base) pe else Some C_more
  end.
Definition get_chunked_body_length (r : Request) (b : Str) : option (Request * Z) :=
  let p := soff b in
  let pe := slen b in
  more ← (if u64 (pe - p) <? zlen SW_HTTP_CHUNK_EOF then Some true
          else eof ← memeq (mem b) (pe - zlen SW_HTTP_CHUNK_EOF) SW_HTTP_CHUNK_EOF; Some (negb eof));
  if more : bool then Some (r, SW_ERR)
  else
    e ← chunk_loop (S (Z.to_nat (pe - p))) (mem b) p pe;
    match e with
    | C_found endptr =>
        Some (set_info r (header_parsed r) true (keep_alive r) (chunked r) (nobody_chunked r) (u64 (endptr - header_length r + 4)) (form_data r), SW_OK)
    | C_more => Some (r, SW_ERR)
    | C_bad => Some (set_excepted r, SW_ERR)
    end.
End chunked.

(** *** Looking up headers *)

Fixpoint expect_loop (fuel : nat) (m : list Z) (p pe : Z) : option bool :=
  match fuel with
  | O => Some false
  | S fuel =>
      if p <? pe then
        c ← zget m p;
        if (c =? CR) && (9 <? pe - p) then
          let p := p + 2 in
          b ← istarts_with m p (u64 (pe - p)) (str "Expect: ");
          if b : bool then let p := p + 8 in istarts_with m p (u64 (pe - p)) (str "100-continue")
          else expect_loop fuel m (p + 2) pe
        else expect_loop fuel m (p + 1) pe
      else Some false
  end.
Definition has_expect_header (b : Str) : option bool := expect_loop (S (Z.to_nat (slen b))) (mem b) 0 (slen b).

(** [state], [i], [is_error_header_name] and [buffer] of the loop *)
Fixpoint get_header_loop (fuel : nat) (m : list Z) (name : list Z) (p pe : Z) (state i : Z) (bad : bool) (start : Z) : option (list Z) :=
  match fuel with
  | O => Some []
  | S fuel =>
      if p <? pe then
        if state =? 0 then
          nl ← istarts_with m p (u64 (pe - p)) CRLF;
          if nl : bool then get_header_loop fuel m name (p + 1) pe 0 0 false start
          else
            hit ← (if bad then Some false else istarts_with m p (u64 (pe - p)) name);
            if hit : bool then
              c ← zget m (p + zlen name);
              if negb (c =? 58) || (1 <? i) then get_header_loop fuel m name (p + 1) pe 0 i true start
              else get_header_loop fuel m name (p + zlen name + 1) pe 1 (i + 1) bad start
            else get_header_loop fuel m name (p + 1) pe 0 (i + 1) bad start
        else if state =? 1 then
          c ← zget m p;
          if negb (isspace c) then get_header_loop fuel m name (p + 1) pe 2 i bad p else get_header_loop fuel m name (p + 1) pe 1 i bad start
        else
          nl ← istarts_with m p (u64 (pe - p)) CRLF;
          if nl : bool then zsub m start (p - start) else get_header_loop fuel m name (p + 1) pe 2 i bad start
      else Some []
  end.
Definition get_header (r : Request) (b : Str) (name : list Z) : option (list Z) :=
  let p := url_offset r + url_length r + 10 in
  get_header_loop (S (Z.to_nat (header_length r - p))) (mem b) name p (header_length r) 0 0 false 0.

(** ** Requests as they are written *)

Inductive header := H_plain (l : list Z) | H_length (n : Z) | H_connection (v : list Z) | H_chunked | H_type (v : list Z).
Record head := mkHead { q_method : Z; q_url : list Z; q_v11 : bool; q_headers : list header }.

Definition render_hdr (h : header) : list Z :=
  match h with
  | H_plain l => l
  | H_length n => str "Content-Length: " ++ to_string n
  | H_connection v => str "Connection: " ++ v
  | H_chunked => str "Transfer-Encoding: chunked"
  | H_type v => str "Content-Type: " ++ v
  end.
Definition http_version (q : head) : list Z := if q_v11 q then str "HTTP/1.1" else str "HTTP/1.0".
Definition method_name (q : head) : list Z := default [] (get_method_string (q_method q)).
Definition render_line (q : head) : list Z := method_name q ++ [SP] ++ q_url q ++ [SP] ++ http_version q.
(** The lines of the header, each with its end, and the empty one *)
Definition render_lines (ls : list (list Z)) : list Z := concat ((fun l => l ++ CRLF) <$> ls) ++ CRLF.
Definition head_lines (q : head) : list (list Z) := render_line q :: (render_hdr <$> q_headers q).
Definition render_head (q : head) : list Z := render_lines (head_lines q).

(** A line that is none of those that [parse_header_info] knows *)
Fixpoint starts_ci (lit l : list Z) : bool :=
  match lit, l with
  | [], _ => true
  | c :: lit, x :: l => (tolower x =? tolower c) && starts_ci lit l
  | _, [] => false
  end.
Definition known_names : list (list Z) := str <$> ["Content-Length:"; "Connection:"; "Transfer-Encoding:"; "Content-Type:"].
Definition value_ok (v : list Z) : Prop := (CR ∉ v) /\ exists c w, v = c :: w /\ c <> SP.
Definition header_ok (h : header) : Prop :=
  match h with
  | H_plain l => l <> [] /\ (CR ∉ l) /\ forallb (fun n => negb (starts_ci n l)) known_names = true
  | H_length n => 0 <= n < 2 ^ 64
  | H_connection v => value_ok v
  | H_chunked => True
  | H_type v => value_ok v /\ starts_ci (str "multipart/form-data") v = false
  end.
Definition url_char (c : Z) : Prop := c <> SP /\ c <> CR /\ c <> LF.
Record head_ok (q : head) : Prop := {
  ho_method : 1 <= q_method q < SW_HTTP_PRI;
  ho_url : q_url q <> [] /\ Forall url_char (q_url q);
  ho_headers : Forall header_ok (q_headers q);
}.

(** *** The request line *)

Fixpoint prefixb (s m : list Z) : bool :=
  match s, m with [], _ => true | c :: s, x :: m => (x =? c) && prefixb s m | _, [] => false end.

Lemma prefixb_take s m : (length s <= length m)%nat -> bool_decide (take (length s) m = s) = prefixb s m.
Proof.
  revert m. induction s as [|c s IH]; intros m Hl; [done|]. destruct m as [|x m]; [simpl in Hl; lia|]. cbn [length take prefixb] in *.
  rewrite <- IH by lia. destruct (Z.eqb_spec x c) as [->|Hne]; cbn [andb].
  - apply bool_decide_ext. split; [by intros [= ?]|congruence].
  - apply bool_decide_eq_false_2. congruence.
Qed.

Lemma memeq_here m1 m2 s : (length s <= length m2)%nat -> memeq (m1 ++ m2) (zlen m1) s = Some (prefixb s m2).
Proof.
  intros Hl. unfold memeq. rewrite <- prefixb_take by done.
  destruct (zsub_in_bounds (m1 ++ m2) (zlen m1) (zlen s)) as [d E]; [lia|lia|rewrite length_app; lia|]. rewrite E. cbn [mbind option_bind].
  apply zsub_Some in E as (_ & _ & _ & ->). by rewrite !Nat2Z.id, drop_app_length.
Qed.

Fixpoint find_prefix (strings : list (list Z)) (m : list Z) (i : Z) : option (Z * Z) :=
  match strings with
  | [] | [_] => None
  | s :: strings => if prefixb s m then Some (i + 1, zlen s) else find_prefix strings m (i + 1)
  end.
Lemma find_method_prefix strings m i : Forall (fun s => (length s <= length m)%nat) strings -> find_method strings m i = Some (find_prefix strings m i).
Proof.
  revert i. induction strings as [|s strings IH]; intros i Hs; [done|]. inversion Hs; subst. destruct strings as [|s' strings]; [done|].
  cbn [find_method find_prefix]. replace (memeq m 0 s) with (Some (prefixb s m)) by (symmetry; by apply (memeq_here [] m s)). cbn [mbind option_bind].
  destruct (prefixb s m); [done|]. by apply IH.
Qed.

Lemma method_strings_short : Forall (fun s => (length s <= 11)%nat) method_strings.
Proof. apply (bool_decide_unpack _). vm_compute. exact I. Qed.

Lemma method_name_cases (P : Z -> list Z -> bool) k : forallb (fun i => P i (default [] (get_method_string i))) (seqZ 1 26) = true -> 1 <= k < SW_HTTP_PRI -> P k (default [] (get_method_string k)) = true.
Proof. intros Hf Hk. rewrite forallb_forall in Hf. apply (Hf k). apply list_elem_of_In, elem_of_seqZ. unfold SW_HTTP_PRI in Hk. lia. Qed.

Lemma method_name_length q : head_ok q -> (3 <= length (method_name q) <= 11)%nat.
Proof.
  intros Hq. pose proof (method_name_cases (fun _ s => bool_decide (3 <= length s <= 11)%nat) (q_method q) eq_refl (ho_method q Hq)) as Hb.
  exact (bool_decide_eq_true_1 _ Hb).
Qed.

(** Bytes of the stream after the method do not matter. *)
Lemma find_prefix_method k rest : 1 <= k < SW_HTTP_PRI -> find_prefix method_strings (default [] (get_method_string k) ++ SP :: rest) 0 = Some (k, zlen (default [] (get_method_string k))).
Proof.
  intros Hk. unfold SW_HTTP_PRI in Hk. assert (exists n, (n < 26)%nat /\ k = Z.of_nat n + 1) as (n & Hn & ->) by (exists (Z.to_nat (k - 1)); lia).
  clear Hk. do 26 (destruct n as [|n]; [reflexivity|]). lia.
Qed.

Lemma zget_here (m1 m2 : list Z) c : zget (m1 ++ c :: m2) (zlen m1) = Some c.
Proof. rewrite zget_app_r by lia. by rewrite Z.sub_diag. Qed.

Lemma url_char_eqb c : url_char c -> (c =? SP) = false /\ ((c =? CR) || (c =? LF)) = false.
Proof. intros (K1 & K2 & K3). by rewrite !(proj2 (Z.eqb_neq _ _)). Qed.

(** Over the characters of the URL *)
Lemma line_loop_url w n m1 m2 pe uo ul : Forall url_char w ->
  line_loop (length w + n) (m1 ++ w ++ m2) (zlen m1) pe 1 uo ul = line_loop n (m1 ++ w ++ m2) (zlen m1 + zlen w) pe 1 uo ul.
Proof.
  revert m1. induction w as [|c w IH]; intros m1 Hw; [by rewrite Z.add_0_r|]. inversion Hw as [|? ? Hc Hw']; subst. cbn [length Nat.add line_loop app].
  rewrite zget_here. cbn [mbind option_bind Z.eqb]. destruct (url_char_eqb c Hc) as [-> ->].
  change (m1 ++ c :: (w ++ m2)) with (m1 ++ [c] ++ (w ++ m2)). rewrite app_assoc. replace (zlen m1 + 1) with (zlen (m1 ++ [c])) by (rewrite length_app; simpl; lia).
  rewrite IH by done. f_equal. rewrite length_app. simpl. lia.
Qed.

(** Up to the URL and over it, which begins at the index [n0 + 1] *)
Lemma line_loop_start meth u w n m2 pe uo ul : url_char u -> Forall url_char w ->
  line_loop (S (S (length w)) + n) (meth ++ SP :: u :: w ++ m2) (zlen meth) pe 0 uo ul =
  line_loop n (meth ++ SP :: u :: w ++ m2) (zlen meth + 2 + zlen w) pe 1 (zlen meth + 1) ul.
Proof.
  intros Hu Hw. cbn [Nat.add line_loop]. rewrite zget_here. cbn [mbind option_bind Z.eqb]. change (SP =? SP) with true. cbv iota.
  change (meth ++ SP :: u :: w ++ m2) with (meth ++ [SP] ++ u :: w ++ m2). rewrite app_assoc.
  replace (zlen meth + 1) with (zlen (meth ++ [SP])) by (rewrite length_app; simpl; lia). rewrite zget_here. cbn [mbind option_bind].
  destruct (url_char_eqb u Hu) as [-> _]. change ((meth ++ [SP]) ++ u :: w ++ m2) with ((meth ++ [SP]) ++ [u] ++ (w ++ m2)). rewrite app_assoc.
  replace (zlen (meth ++ [SP]) + 1) with (zlen ((meth ++ [SP]) ++ [u])) by (rewrite !length_app; simpl; lia).
  rewrite line_loop_url by done. f_equal. rewrite !length_app. simpl. lia.
Qed.

Lemma line_loop_space n m1 m2 pe uo ul : line_loop (S n) (m1 ++ SP :: m2) (zlen m1) pe 1 uo ul = line_loop n (m1 ++ SP :: m2) (zlen m1 + 1) pe 2 uo (zlen m1 - uo).
Proof. cbn [line_loop]. by rewrite zget_here. Qed.

Lemma http_version_ok q : length (http_version q) = 8%nat /\ exists t, http_version q = 72 :: t.
Proof. unfold http_version. destruct (q_v11 q); (split; [done|]); by eexists. Qed.

(** The version, which may be cut; [v] is what there is of it and of what follows *)
Lemma line_loop_version q n m1 v junk pe uo ul rest : v = take (length v) (http_version q ++ rest) -> v <> [] -> (0 < n)%nat -> pe = zlen m1 + zlen v ->
  line_loop n (m1 ++ v ++ junk) (zlen m1) pe 2 uo ul =
  Some (if zlen v <? 8 then L_short else L_end (if q_v11 q then SW_HTTP_VERSION_11 else SW_HTTP_VERSION_10) (zlen m1), uo, ul).
Proof.
  intros Hv Hne Hn ->. destruct n as [|n]; [lia|]. destruct (http_version_ok q) as [Hl (t & Ht)].
  assert (exists v', v = 72 :: v') as (v' & Ev) by (destruct v as [|x v]; [done|]; rewrite Ht in Hv; simpl in Hv; simplify_eq; by eexists).
  cbn [line_loop]. rewrite Ev at 1. cbn [app]. rewrite zget_here. cbn [mbind option_bind Z.eqb]. change (72 =? SP) with false. cbv iota.
  replace (zlen m1 + zlen v - zlen m1) with (zlen v) by lia. destruct (Z.ltb_spec (zlen v) 8); [done|].
  rewrite !memeq_here by (rewrite length_app; simpl; lia).
  assert (exists r, v = http_version q ++ r) as (r & ->) by (exists (drop 8 v); rewrite <- (take_drop 8 v) at 1; f_equal; rewrite Hv, take_take, Nat.min_l, take_app_length' by lia; done).
  unfold http_version. rewrite <- app_assoc. by destruct (q_v11 q).
Qed.

Lemma mem_contents s : str_wf s -> mem s = contents s ++ drop (Z.to_nat (slen s)) (mem s).
Proof. intros _. unfold contents. by rewrite take_drop. Qed.

(** What the request line says *)
Definition line_version (q : head) : Z := if q_v11 q then SW_HTTP_VERSION_11 else SW_HTTP_VERSION_10.
Definition is_prefix (y s : list Z) : Prop := y = take (length y) s.

Lemma render_line_length q : zlen (render_line q) = zlen (method_name q) + zlen (q_url q) + 10.
Proof. unfold render_line. rewrite !length_app. destruct (http_version_ok q) as [-> _]. simpl. lia. Qed.

(** The first part of the line is there: the method and at least a byte of the URL *)
Lemma line_parts q rest y : head_ok q -> 16 <= zlen y -> is_prefix y (render_line q ++ rest) ->
  exists u w z, y = method_name q ++ SP :: u :: w ++ z /\ url_char u /\ Forall url_char w /\
    ((zlen y <= zlen (method_name q) + 1 + zlen (q_url q) /\ z = []) \/
     (u :: w = q_url q /\ exists v, z = SP :: v /\ is_prefix v (http_version q ++ rest))).
Proof.
  intros Hq Hl Hy. pose proof (method_name_length q Hq) as Hm. destruct (ho_url q Hq) as [Hne Hurl]. destruct (q_url q) as [|u0 w0] eqn:Eu; [done|]. clear Hne.
  inversion Hurl as [|? ? Hu Hw]; subst. unfold is_prefix, render_line in *. rewrite Eu in Hy. rewrite <- !app_assoc in Hy.
  rewrite take_app_ge in Hy by lia. cbn [app] in Hy. destruct (length y - length (method_name q))%nat as [|[|k]] eqn:Ek; [lia..|]. cbn [take] in Hy.
  destruct (decide (k <= length w0)%nat) as [Hk|Hk].
  - rewrite take_app_le in Hy by lia. exists u0, (take k w0), []. rewrite app_nil_r. split_and!; [done|done|by apply Forall_take|left]. split; [simpl; lia|done].
  - rewrite take_app_ge in Hy by lia. destruct (k - length w0)%nat as [|j] eqn:Ej; [lia|]. cbn [take] in Hy.
    exists u0, w0, (SP :: take j (http_version q ++ rest)). split_and!; [done|done|done|right]. split; [done|]. eexists. split; [done|]. rewrite length_take. by rewrite take_min_length.
Qed.

Record line_read (q : head) (r : Request) (b : Str) (r' : Request) (b' : Str) (ret : Z) : Prop := {
  lr_request : exists v uo ul rl, r' = set_line r (q_method q) v uo ul rl /\
    (zlen (render_line q) <= slen b -> v = line_version q /\ uo = zlen (method_name q) + 1 /\ ul = zlen (q_url q));
  lr_result : (ret = SW_OK /\ b' = with_offset b (request_line_length r') /\ 0 <= request_line_length r' <= zlen (render_line q)) \/
    (ret = SW_ERR /\ b' = b /\ request_line_length r' = request_line_length r);
  lr_whole : zlen (render_line q) <= slen b -> ret = SW_OK /\ request_line_length r' = zlen (render_line q);
}.

(** [get_protocol] on any part of a request that has 16 bytes. *)
Lemma get_protocol_ok q r b rest : head_ok q -> str_wf b -> 16 <= slen b -> is_prefix (contents b) (render_line q ++ rest) ->
  exists r' b' ret, get_protocol r b = Some (r', b', ret) /\ line_read q r b r' b' ret.
Proof.
  intros Hq Hb Hl Hy. pose proof (contents_length b Hb) as Hlen. pose proof (mem_contents b Hb) as Hmem. set (junk := drop (Z.to_nat (slen b)) (mem b)) in *. clearbody junk.
  destruct (line_parts q rest (contents b) Hq ltac:(lia) Hy) as (u & w & z & Ey & Hu & Hw & Hz). pose proof (method_name_length q Hq) as Hm.
  pose proof (render_line_length q) as HL. unfold get_protocol. rewrite (proj2 (Z.ltb_ge _ _)) by done. rewrite Hmem, Ey.
  replace ((method_name q ++ SP :: u :: w ++ z) ++ junk) with (method_name q ++ SP :: u :: w ++ z ++ junk) by (by rewrite <- !app_assoc, !app_comm_cons, <- !app_assoc).
  assert (zlen (contents b) = zlen (method_name q) + 2 + zlen w + zlen z) as Hlz by (rewrite Ey, length_app; cbn [length]; rewrite length_app; lia).
  rewrite find_method_prefix by (eapply Forall_impl; [apply method_strings_short|]; intros x Hx; rewrite length_app; cbn [length]; rewrite !length_app; simpl in Hx; lia).
  pose proof (find_prefix_method (q_method q) (u :: w ++ z ++ junk) (ho_method q Hq)) as Hfind. fold (method_name q) in Hfind. rewrite Hfind. cbn [mbind option_bind].
  replace (Z.to_nat (slen b - zlen (method_name q))) with (S (S (length w)) + length z)%nat by lia. rewrite line_loop_start by done.
  assert (length (q_url q) = S (length w) \/ z = []) as Hsz by (destruct Hz as [[_ ->]|[<- _]]; [by right|by left]).
  destruct Hz as [[Hz ->]|(Eu & v & -> & Hv)].
  - cbn [length line_loop mbind option_bind]. eexists _, _, _. split; [done|]. cbn [Z.eqb]. split; [|left|]; cbn [request_line_length set_line].
    + eexists _, _, _, _. split; [done|]. lia.
    + split_and!; [done|done|simpl in Hlz; lia..].
    + lia.
  - assert (zlen (q_url q) = zlen w + 1) as Hlu by (rewrite <- Eu; simpl; lia). cbn [length] in Hlz |- *.
    replace (method_name q ++ SP :: u :: w ++ (SP :: v) ++ junk) with ((method_name q ++ SP :: u :: w) ++ SP :: v ++ junk) by (by rewrite <- app_assoc).
    replace (zlen (method_name q) + 2 + zlen w) with (zlen (method_name q ++ SP :: u :: w)) by (rewrite length_app; simpl; lia).
    rewrite line_loop_space. set (m1 := (method_name q ++ SP :: u :: w)). assert (zlen m1 = zlen (method_name q) + 2 + zlen w) as Hm1 by (unfold m1; rewrite length_app; simpl; lia).
    destruct v as [|v0 v'].
    + cbn [length line_loop mbind option_bind]. eexists _, _, _. split; [done|]. split; [|left|]; cbn [request_line_length set_line Z.eqb].
      * eexists _, _, _, _. split; [done|]. cbn [length] in *. lia.
      * split_and!; [done|done|simpl in Hlz; lia..].
      * simpl in Hlz. lia.
    + change (SP :: (v0 :: v') ++ junk) with ([SP] ++ (v0 :: v') ++ junk). rewrite app_assoc. replace (zlen m1 + 1) with (zlen (m1 ++ [SP])) by (rewrite length_app; simpl; lia).
      rewrite (line_loop_version q _ _ _ _ _ _ _ rest Hv) by (done || (cbn [length]; lia) || (rewrite length_app; cbn [length] in *; lia)). cbn [mbind option_bind].
      destruct (Z.ltb_spec (zlen (v0 :: v')) 8).
      * eexists _, _, _. split; [done|]. split; [|by right|]; [|lia]. eexists _, _, _, _. split; [done|]. lia.
      * rewrite length_app. cbn [length]. assert (line_version q <> 0) as Hv0 by (unfold line_version; by destruct (q_v11 q)). fold (line_version q).
        rewrite (proj2 (Z.eqb_neq _ 0)) by done. eexists _, _, _. split; [done|]. split; [|left|]; cbn [request_line_length set_line].
        -- eexists _, _, _, _. split; [done|]. intros _. split_and!; [done|done|lia].
        -- split_and!; [done|done|lia..].
        -- intros _. split; [done|]. lia.
Qed.

(** *** The end of the header *)

Definition line_ok (l : list Z) : Prop := l <> [] /\ (CR ∉ l).

Lemma render_lines_cons l ls : render_lines (l :: ls) = l ++ CRLF ++ render_lines ls.
Proof. unfold render_lines. cbn [fmap list_fmap concat]. by rewrite <- !app_assoc. Qed.

Lemma eof_unique ls i : Forall line_ok ls -> match_at HEADER_EOF (render_lines ls) i -> (i + 4 = length (render_lines ls))%nat.
Proof.
  intros Hls. revert i. induction Hls as [|l ls [Hne Hcr] Hls IH]; intros i Hm.
  { exfalso. apply (f_equal length) in Hm. rewrite length_take, length_drop in Hm.
    change (length HEADER_EOF) with 4%nat in Hm. change (length (render_lines [])) with 2%nat in Hm. lia. }
  assert (forall k, (k < 4)%nat -> render_lines (l :: ls) !! (i + k)%nat = HEADER_EOF !! k) as Hk.
  { intros k Hk. transitivity (take (length HEADER_EOF) (drop i (render_lines (l :: ls))) !! k); [by rewrite lookup_take_lt, lookup_drop by done|by rewrite Hm]. }
  rewrite render_lines_cons in *. destruct (decide (i < length l)%nat) as [Hi|Hi].
  { exfalso. specialize (Hk 0%nat ltac:(lia)). rewrite Nat.add_0_r, lookup_app_l in Hk by done. apply Hcr. by eapply list_elem_of_lookup_2. }
  destruct (decide (i < length l + 2)%nat) as [Hi2|Hi2].
  - assert (i = length l) as ->.
    { destruct (decide (i = length l)); [done|]. exfalso. specialize (Hk 0%nat ltac:(lia)). rewrite Nat.add_0_r, lookup_app_r in Hk by lia.
      replace (i - length l)%nat with 1%nat in Hk by lia. done. }
    specialize (Hk 2%nat ltac:(lia)). rewrite lookup_app_r in Hk by lia. replace (length l + 2 - length l)%nat with 2%nat in Hk by lia.
    cbn in Hk. destruct ls as [|l' ls]; [rewrite !length_app; simpl; lia|]. exfalso. inversion Hls as [|? ? [Hne' Hcr'] _]; subst.
    destruct l' as [|c l']; [done|]. rewrite render_lines_cons in Hk. simpl in Hk. simplify_eq. apply Hcr'. left.
  - rewrite length_app. change (length (CRLF ++ render_lines ls)) with (S (S (length (render_lines ls)))).
    rewrite <- (IH (i - length l - 2)%nat); [lia|]. unfold match_at in *. rewrite app_assoc, drop_app_ge in Hm by (rewrite length_app; simpl; lia).
    rewrite length_app in Hm. replace (i - length l - 2)%nat with (i - (length l + length CRLF))%nat by (simpl; lia). done.
Qed.

Lemma eof_at_end ls : ls <> [] -> match_at HEADER_EOF (render_lines ls) (length (render_lines ls) - 4).
Proof.
  intros Hne. destruct (exists_last Hne) as (ls' & l & ->). unfold render_lines. rewrite fmap_app, concat_app. cbn [fmap list_fmap concat].
  rewrite app_nil_r. set (a := concat _). clearbody a. replace ((a ++ l ++ CRLF) ++ CRLF) with ((a ++ l) ++ HEADER_EOF) by (by rewrite <- !app_assoc).
  unfold match_at. rewrite (length_app (a ++ l)). change (length HEADER_EOF) with 4%nat. rewrite drop_app_length' by lia. done.
Qed.

#[local] Instance match_at_dec d l i : Decision (match_at d l i).
Proof. unfold match_at. apply _. Defined.

Lemma memeq_match m p : 0 <= p -> p + 4 <= zlen m -> memeq m p HEADER_EOF = Some (bool_decide (match_at HEADER_EOF m (Z.to_nat p))).
Proof.
  intros Hp Hl. unfold memeq. destruct (zsub_in_bounds m p (zlen HEADER_EOF)) as [d E]; [lia|lia|simpl; lia|]. rewrite E. cbn [mbind option_bind].
  apply zsub_Some in E as (_ & _ & _ & ->). reflexivity.
Qed.

Lemma header_end_loop_ok n m p : 0 <= p -> p + Z.of_nat n + 3 <= zlen m ->
  exists found e, header_end_loop n m p = Some (found, e) /\ p <= e <= p + Z.of_nat n /\ (forall j, p <= j < e -> ~ match_at HEADER_EOF m (Z.to_nat j)) /\
    if found : bool then match_at HEADER_EOF m (Z.to_nat e) /\ e < p + Z.of_nat n else e = p + Z.of_nat n.
Proof.
  revert p. induction n as [|n IH]; intros p Hp Hl; cbn [header_end_loop].
  { exists false, p. split_and!; [done|lia|lia|intros; lia|lia]. }
  rewrite memeq_match by lia. cbn [mbind option_bind]. destruct (bool_decide_reflect (match_at HEADER_EOF m (Z.to_nat p))) as [Hm|Hm].
  - exists true, p. split_and!; [done|lia|lia|intros; lia|done|lia].
  - destruct (IH (p + 1)) as (found & e & -> & He & Hno & Hf); [lia..|]. exists found, e. split_and!; [done|lia|lia| |].
    + intros j Hj. destruct (decide (j = p)) as [->|]; [done|]. apply Hno. lia.
    + destruct found; [|lia]. destruct Hf. split; [done|lia].
Qed.

(** [get_header_length] with the part [y] of the stream in the buffer, the search
    having come to a place before the end of the header. *)
Lemma get_header_length_ok ls r b rest : Forall line_ok ls -> ls <> [] -> str_wf b -> is_prefix (contents b) (render_lines ls ++ rest) ->
  0 <= soff b <= zlen (render_lines ls) - 4 ->
  exists off, get_header_length r b = Some (if slen b <? zlen (render_lines ls) then (r, with_offset b off, SW_ERR)
    else (set_header_length r (zlen (render_lines ls)), with_offset b (zlen (render_lines ls)), SW_OK)) /\ 0 <= off <= zlen (render_lines ls) - 4.
Proof.
  intros Hls Hne Hb Hy Ho. pose proof (contents_length b Hb) as Hlen. pose proof (st_mem b Hb) as Hsz. pose proof (st_len b Hb) as Hl. set (H := render_lines ls) in *.
  assert (forall j, 0 <= j -> j + 4 <= zlen H -> j + 4 <= slen b -> match_at HEADER_EOF (mem b) (Z.to_nat j) <-> match_at HEADER_EOF H (Z.to_nat j)) as Hmatch.
  { intros j Hj Hj1 Hj2. unfold match_at. assert (take (length HEADER_EOF) (drop (Z.to_nat j) (mem b)) = take (length HEADER_EOF) (drop (Z.to_nat j) H)) as ->; [|done].
    rewrite !firstn_skipn_comm. f_equal. rewrite (mem_contents b Hb), take_app_le by (simpl; lia). rewrite Hy, take_take, Nat.min_l by (simpl; lia).
    rewrite take_app_le by (simpl; lia). done. }
  assert (match_at HEADER_EOF H (Z.to_nat (zlen H - 4))) as HH by (replace (Z.to_nat (zlen H - 4)) with (length H - 4)%nat by lia; by apply eof_at_end).
  unfold get_header_length. destruct (decide (slen b - 4 + 1 - soff b < 0)) as [Hneg|Hpos].
  { replace (Z.to_nat (slen b - 4 + 1 - soff b)) with O by lia. cbn [header_end_loop mbind option_bind]. exists (soff b). rewrite (proj2 (Z.ltb_lt _ _)) by lia. done. }
  destruct (header_end_loop_ok (Z.to_nat (slen b - 4 + 1 - soff b)) (mem b) (soff b)) as (found & e & -> & He & Hno & Hf); [lia..|]. cbn [mbind option_bind].
  rewrite Z2Nat.id in * by lia. destruct found.
  - destruct Hf as [Hm Hlt]. destruct (decide (zlen H - 4 < e)) as [Hfar|Hnear].
    + exfalso. apply (Hno (zlen H - 4)); [lia|]. apply Hmatch; [lia..|]. exact HH.
    + apply Hmatch in Hm; [|lia..]. pose proof (eof_unique ls _ Hls Hm) as Hu. fold H in Hu. rewrite (proj2 (Z.ltb_ge _ _)) by lia. exists 0. split; [|lia].
      replace (e + 4) with (zlen H) by lia. done.
  - exists e. destruct (Z.ltb_spec (slen b) (zlen H)); [split; [done|lia]|]. exfalso. apply (Hno (zlen H - 4)); [lia|]. apply Hmatch; [lia..|]. exact HH.
Qed.

(** *** The headers *)

Lemma tolower_CR c : c <> CR -> (13 =? tolower c) = false.
Proof. intros Hc. apply Z.eqb_neq. unfold tolower, isupper, CR in *. bool_cases; cbn [andb]; lia. Qed.

Lemma strncaseeq_line pre l rest lit : forallb (fun c => negb (c =? CR)) lit = true ->
  strncaseeq (pre ++ l ++ CR :: rest) (zlen pre) lit = Some (starts_ci lit l).
Proof.
  revert pre l. induction lit as [|c lit IH]; intros pre l Hc; [done|]. cbn [forallb] in Hc. apply andb_true_iff in Hc as [Hc%negb_true_iff%Z.eqb_neq Hlit].
  cbn [strncaseeq starts_ci]. destruct l as [|x l].
  - cbn [app]. rewrite zget_here. cbn [mbind option_bind]. change (tolower CR) with 13. by rewrite tolower_CR.
  - cbn [app]. rewrite zget_here. cbn [mbind option_bind]. destruct (_ =? _); [|done]. cbn [andb].
    replace (zlen pre + 1) with (zlen (pre ++ [x])) by (rewrite length_app; simpl; lia).
    rewrite <- (IH (pre ++ [x]) l Hlit). by rewrite <- app_assoc.
Qed.

Lemma starts_ci_length lit l : starts_ci lit l = true -> zlen lit <= zlen l.
Proof. revert l. induction lit as [|c lit IH]; intros [|x l]; cbn [starts_ci length]; try done; try lia. intros [_ E]%andb_true_iff. specialize (IH _ E). lia. Qed.

Lemma istarts_line pre l rest lit pe : forallb (fun c => negb (c =? CR)) lit = true -> zlen pre + zlen l <= pe < 2 ^ 64 ->
  istarts_with (pre ++ l ++ CR :: rest) (zlen pre) (u64 (pe - zlen pre)) lit = Some (starts_ci lit l).
Proof.
  intros Hlit Hpe. unfold istarts_with. rewrite u64_id by lia. rewrite strncaseeq_line by done. destruct (Z.leb_spec (zlen lit) (pe - zlen pre)); [done|].
  destruct (starts_ci lit l) eqn:E; [|done]. apply starts_ci_length in E. lia.
Qed.

(** [parse_header_info] on a header *)
Definition apply_header (r : Request) (h : header) : Request :=
  match h with
  | H_plain _ => r
  | H_length n => set_info r (header_parsed r) true (keep_alive r) (chunked r) (nobody_chunked r) n (form_data r)
  | H_connection v => set_info r (header_parsed r) (known_length r) (keep_alive r || starts_ci (str "keep-alive") v) (chunked r) (nobody_chunked r) (content_length r) (form_data r)
  | H_chunked => set_info r (header_parsed r) (known_length r) (keep_alive r) true (nobody_chunked r) (content_length r) (form_data r)
  | H_type _ => r
  end.

Lemma skip_blanks_one pre c rest : c <> SP -> skip_blanks (pre ++ SP :: c :: rest) (zlen pre) = Some (zlen pre + 1).
Proof. intros Hc. unfold skip_blanks. rewrite Nat2Z.id, drop_app_length. cbn [skip_sp]. change (SP =? SP) with true. by rewrite (proj2 (Z.eqb_neq _ _)) by done. Qed.

Lemma to_string_digits n : 0 <= n -> exists d ds, to_string n = d :: ds /\ to_string n = print_number 10 n /\ Forall (fun c => isdigit c = true) (to_string n).
Proof.
  intros Hn. assert (to_string n = print_number 10 n) as E by (unfold to_string; by rewrite (proj2 (Z.ltb_ge _ _)) by lia).
  destruct (print_number_digits 10 n ltac:(lia) Hn) as (Hne & Hd & _). rewrite E. destruct (print_number 10 n) as [|d ds]; [done|]. exists d, ds.
  split_and!; [done|done|]. eapply Forall_impl; [exact Hd|]. intros c [x Hx]. unfold digit, digit_value in Hx. destruct (isdigit c); [done|].
  destruct (isupper c) eqn:Eu.
  - unfold isupper in Eu. apply andb_true_iff in Eu as [?%Z.leb_le ?%Z.leb_le]. cbn [mbind option_bind] in Hx. by rewrite (proj2 (Z.ltb_ge _ _)) in Hx by lia.
  - destruct (islower c) eqn:El; [|done]. unfold islower in El. apply andb_true_iff in El as [?%Z.leb_le ?%Z.leb_le]. cbn [mbind option_bind] in Hx. by rewrite (proj2 (Z.ltb_ge _ _)) in Hx by lia.
Qed.

Lemma no_CR l : forallb (fun c => negb (c =? CR)) l = true -> (CR ∉ l).
Proof. intros Hf Hin. rewrite forallb_forall in Hf. apply list_elem_of_In in Hin. apply Hf in Hin. done. Qed.

Lemma hdr_line_ok h : header_ok h -> line_ok (render_hdr h).
Proof.
  assert (forall v lit, value_ok v -> forallb (fun c => negb (c =? CR)) lit = true -> lit <> [] -> line_ok (lit ++ v)) as Hv.
  { intros v lit [Hcr _] Hlit Hne. split; [by destruct lit|]. intros [Hin|Hin]%elem_of_app; [|done]. by apply (no_CR lit Hlit). }
  destruct h as [l|n|v| |v]; cbn [render_hdr header_ok].
  - intros (? & ? & _). by split.
  - intros Hn. split; [done|]. intros [Hin|Hin]%elem_of_app; [by apply (no_CR (str "Content-Length: ") eq_refl)|].
    destruct (to_string_digits n ltac:(lia)) as (d & ds & _ & _ & Hf). rewrite Forall_forall in Hf. apply Hf in Hin. done.
  - intros Hok. by apply Hv.
  - intros _. split; [done|]. by apply no_CR.
  - intros [Hok _]. by apply Hv.
Qed.

(** The value of a header, behind its name [l] and a blank *)
Lemma skip_blanks_at pre l c rest m n : m = pre ++ (l ++ SP :: c :: rest) -> c <> SP -> n = zlen l -> skip_blanks m (zlen pre + n) = Some (zlen pre + (zlen l + 1)).
Proof.
  intros -> Hc ->. rewrite app_assoc. replace (zlen pre + zlen l) with (zlen (pre ++ l)) by (rewrite length_app; lia). rewrite skip_blanks_one by done. f_equal. rewrite length_app. lia.
Qed.
Lemma istarts_at pre l v rest lit pe m n : m = pre ++ (l ++ v) ++ CR :: rest -> n = zlen l -> forallb (fun c => negb (c =? CR)) lit = true -> zlen pre + n + zlen v <= pe < 2 ^ 64 ->
  istarts_with m (zlen pre + n) (u64 (pe - (zlen pre + n))) lit = Some (starts_ci lit v).
Proof.
  intros -> -> Hlit Hpe. rewrite <- app_assoc, app_assoc. replace (zlen pre + zlen l) with (zlen (pre ++ l)) by (rewrite length_app; lia). apply istarts_line; [done|rewrite length_app; lia].
Qed.

Lemma header_at_ok h r pre rest pe : header_ok h -> zlen pre + zlen (render_hdr h) <= pe < 2 ^ 64 ->
  exists k, header_at r (pre ++ render_hdr h ++ CR :: rest) (zlen pre) pe = Some (apply_header r h, zlen pre + k) /\ 0 <= k <= zlen (render_hdr h).
Proof.
  intros Hh Hpe. assert (forall lit, forallb (fun c => negb (c =? CR)) lit = true ->
    istarts_with (pre ++ render_hdr h ++ CR :: rest) (zlen pre) (u64 (pe - zlen pre)) lit = Some (starts_ci lit (render_hdr h))) as N by (intros; by apply istarts_line).
  pose proof (N (str "Content-Length:") eq_refl) as N1. pose proof (N (str "Connection:") eq_refl) as N2.
  pose proof (N (str "Transfer-Encoding:") eq_refl) as N3. pose proof (N (str "Content-Type:") eq_refl) as N4. clear N.
  unfold header_at. rewrite N1. cbn [mbind option_bind]. destruct h as [l|n|v| |v]; cbn [render_hdr apply_header header_ok] in *.
  - destruct Hh as (_ & _ & Hk). cbn [known_names fmap list_fmap forallb] in Hk. repeat setoid_rewrite andb_true_iff in Hk. destruct Hk as (K1%negb_true_iff & K2%negb_true_iff & K3%negb_true_iff & K4%negb_true_iff & _).
    rewrite K1, N2. cbn [mbind option_bind]. rewrite K2, N3. cbn [mbind option_bind]. rewrite K3, N4. cbn [mbind option_bind]. rewrite K4. exists 0. rewrite Z.add_0_r. split; [done|lia].
  - clear N1 N2 N3 N4. destruct (to_string_digits n ltac:(lia)) as (d & ds & Ed & Ep & Hf). exists 16. split; [|rewrite length_app; simpl; lia].
    change (starts_ci (str "Content-Length:") (str "Content-Length: " ++ to_string n)) with true. cbv iota. rewrite Ed in Hf. inversion Hf as [|? ? Hd _]; subst.
    rewrite (skip_blanks_at pre (str "Content-Length:") d (ds ++ CR :: rest)) by (done || (intros ->; done) || (by rewrite Ed)). cbn [mbind option_bind].
    change (zlen (str "Content-Length:") + 1) with 16.
    pose proof (strto_number 10 (pre ++ (str "Content-Length: " ++ to_string n) ++ CR :: rest) n (pre ++ str "Content-Length: ") CR rest ltac:(by left) ltac:(lia) eq_refl ltac:(done) ltac:(done)) as E.
    unfold strtoul. replace (zlen pre + 16) with (zlen (pre ++ str "Content-Length: ")) by (rewrite length_app; simpl; lia). rewrite E by (by rewrite Ep, <- !app_assoc). cbn [mbind option_bind].
    unfold ULONG_MAX. rewrite (proj2 (Z.ltb_ge _ _)) by lia. done.
  - destruct Hh as [Hcr (c & w & -> & Hc)]. change (starts_ci (str "Content-Length:") (str "Connection: " ++ c :: w)) with false. cbv iota. rewrite N2. cbn [mbind option_bind].
    change (starts_ci (str "Connection:") (str "Connection: " ++ c :: w)) with true. cbv iota. exists 12. split; [|rewrite length_app; simpl; lia].
    rewrite (skip_blanks_at pre (str "Connection:") c (w ++ CR :: rest)) by done. cbn [mbind option_bind]. rewrite length_app in Hpe.
    rewrite (istarts_at pre (str "Connection: ") (c :: w) rest (str "keep-alive") pe) by (done || (simpl in *; lia)). cbn [mbind option_bind].
    destruct (starts_ci (str "keep-alive") (c :: w)); rewrite ?orb_true_r, ?orb_false_r; [done|by destruct r].
  - change (starts_ci (str "Content-Length:") (str "Transfer-Encoding: chunked")) with false. cbv iota. rewrite N2. cbn [mbind option_bind].
    change (starts_ci (str "Connection:") (str "Transfer-Encoding: chunked")) with false. cbv iota. rewrite N3. cbn [mbind option_bind].
    change (starts_ci (str "Transfer-Encoding:") (str "Transfer-Encoding: chunked")) with true. cbv iota. exists 19. split; [|simpl; lia].
    rewrite (skip_blanks_at pre (str "Transfer-Encoding:") 99 (str "hunked" ++ CR :: rest)) by done. cbn [mbind option_bind].
    rewrite (istarts_at pre (str "Transfer-Encoding: ") (str "chunked") rest (str "chunked") pe) by (done || (simpl in *; lia)). done.
  - destruct Hh as [[Hcr (c & w & -> & Hc)] Hmp]. change (starts_ci (str "Content-Length:") (str "Content-Type: " ++ c :: w)) with false. cbv iota. rewrite N2. cbn [mbind option_bind].
    change (starts_ci (str "Connection:") (str "Content-Type: " ++ c :: w)) with false. cbv iota. rewrite N3. cbn [mbind option_bind].
    change (starts_ci (str "Transfer-Encoding:") (str "Content-Type: " ++ c :: w)) with false. cbv iota. rewrite N4. cbn [mbind option_bind].
    change (starts_ci (str "Content-Type:") (str "Content-Type: " ++ c :: w)) with true. cbv iota. exists 14. split; [|rewrite length_app; simpl; lia].
    rewrite (skip_blanks_at pre (str "Content-Type:") c (w ++ CR :: rest)) by done. cbn [mbind option_bind]. rewrite length_app in Hpe.
    rewrite (istarts_at pre (str "Content-Type: ") (c :: w) rest (str "multipart/form-data") pe) by (done || (simpl in *; lia)). by rewrite Hmp.
Qed.

(** The loop from [p] ends with [R], if it has the fuel *)
Definition loops_to (m : list Z) (pe : Z) (r : Request) (p : Z) (R : Request) : Prop := forall fuel, pe - p < Z.of_nat fuel -> (0 < fuel)%nat -> header_loop fuel r m p pe = Some R.

Lemma loops_done m pe r p : pe <= p -> loops_to m pe r p r.
Proof. intros Hp [|fuel] Hf Hpos; [lia|]. cbn [header_loop]. by rewrite (proj2 (Z.ltb_ge _ _)) by lia. Qed.

Lemma loops_skip m pe r n p R : 2 <= p -> (forall j, p - 2 <= j < p + Z.of_nat n - 2 -> exists c, zget m j = Some c /\ c <> CR) -> p + Z.of_nat n - 1 <= zlen m ->
  loops_to m pe r (p + Z.of_nat n) R -> loops_to m pe r p R.
Proof.
  revert p. induction n as [|n IH]; intros p Hp Hno Hl HR; [by rewrite Z.add_0_r in HR|].
  assert (loops_to m pe r (p + 1) R) as H1. { apply IH; [lia|intros j Hj; apply Hno; lia|lia|]. replace (p + 1 + Z.of_nat n) with (p + Z.of_nat (S n)) by lia. done. }
  intros [|fuel] Hf Hpos; [lia|]. cbn [header_loop]. destruct (Z.ltb_spec p pe) as [Hlt|Hge].
  - destruct (zget_in_bounds m (p - 1)) as [a ->]; [lia|]. cbn [mbind option_bind]. destruct (Hno (p - 2)) as (c & -> & Hc); [lia|]. cbn [mbind option_bind].
    rewrite (proj2 (Z.eqb_neq c CR)) by done. destruct (a =? LF); cbn [mbind option_bind]; apply H1; lia.
  - specialize (H1 1%nat ltac:(lia) ltac:(lia)). cbn [header_loop] in H1. by rewrite (proj2 (Z.ltb_ge _ _)) in H1 by lia.
Qed.

Lemma loops_header m pe r p r' p' R : 2 <= p -> p < pe -> zget m (p - 2) = Some CR -> zget m (p - 1) = Some LF -> header_at r m p pe = Some (r', p') -> p <= p' ->
  loops_to m pe r' (p' + 1) R -> loops_to m pe r p R.
Proof.
  intros Hp Hpe Hcr Hlf Hh Hp' HR [|fuel] Hf Hpos; [lia|]. cbn [header_loop]. rewrite (proj2 (Z.ltb_lt _ _)), Hlf by lia. cbn [mbind option_bind].
  change (LF =? LF) with true. cbv iota. rewrite Hcr. cbn [mbind option_bind]. change (CR =? CR) with true. cbv iota. rewrite Hh. cbn [mbind option_bind]. apply HR; lia.
Qed.

Lemma line_not_CR (pre l rest : list Z) j : CR ∉ l -> zlen pre <= j < zlen pre + zlen l -> exists c, zget (pre ++ l ++ rest) j = Some c /\ c <> CR.
Proof.
  intros Hcr Hj. rewrite zget_app_r, zget_app_l by lia. destruct (zget_in_bounds l (j - zlen pre)) as [c Hc]; [lia|]. exists c. split; [done|].
  intros ->. apply Hcr. unfold zget in Hc. destruct (Z.leb_spec 0 (j - zlen pre)); [|done]. by eapply list_elem_of_lookup_2.
Qed.

Lemma render_lines_length ls : 2 <= zlen (render_lines ls).
Proof. unfold render_lines. rewrite length_app. simpl. lia. Qed.

Lemma headers_loop_ok hs pre junk r : Forall header_ok hs ->
  let m := (pre ++ CRLF) ++ render_lines (render_hdr <$> hs) ++ junk in
  let pe := zlen pre + zlen (render_lines (render_hdr <$> hs)) - 2 in pe < 2 ^ 64 ->
  loops_to m pe r (zlen pre + 2) (foldl apply_header r hs).
Proof.
  revert pre r. induction hs as [|h hs IH]; intros pre r Hh m pe Hpe.
  { apply loops_done. unfold pe. simpl. lia. }
  inversion Hh as [|? ? Hh1 Hhs]; subst. destruct (hdr_line_ok h Hh1) as [Hne Hcr]. pose proof (render_lines_length (render_hdr <$> hs)) as Hrl.
  cbn [fmap list_fmap] in m, pe. fold (render_hdr <$> hs) in m, pe. set (rest := CRLF ++ render_lines (render_hdr <$> hs) ++ junk) in *.
  assert (m = (pre ++ CRLF) ++ render_hdr h ++ rest) as Em by (unfold m, rest; by rewrite render_lines_cons, <- !app_assoc).
  assert (pe = zlen pre + zlen (render_hdr h) + zlen (render_lines (render_hdr <$> hs))) as Epe by (unfold pe; rewrite render_lines_cons, !length_app; simpl; lia).
  assert (0 < zlen (render_hdr h)) as Hpos by (destruct (render_hdr h); [done|simpl; lia]).
  assert (zlen (pre ++ CRLF) = zlen pre + 2) as Elen by (rewrite length_app; simpl; lia).
  destruct (header_at_ok h r (pre ++ CRLF) (LF :: render_lines (render_hdr <$> hs) ++ junk) pe Hh1) as (k & Hat & Hk); [lia|].
  change (CR :: LF :: render_lines (render_hdr <$> hs) ++ junk) with rest in Hat. rewrite <- Em, Elen in Hat.
  eapply loops_header; [lia|lia| | |exact Hat|lia|].
  { rewrite Em, <- app_assoc. replace (zlen pre + 2 - 2) with (zlen pre) by lia. apply zget_here. }
  { rewrite Em. replace (zlen pre + 2 - 1) with (zlen (pre ++ [CR])) by (rewrite length_app; simpl; lia). replace (pre ++ CRLF) with ((pre ++ [CR]) ++ [LF]) by (by rewrite <- app_assoc).
    rewrite <- app_assoc. apply zget_here. }
  apply (loops_skip _ _ _ (Z.to_nat (zlen (render_hdr h) - k + 1))); [lia| | |].
  - intros j Hj. destruct (decide (j = zlen pre + 1)) as [->|].
    + exists LF. split; [|done]. rewrite Em. replace (zlen pre + 1) with (zlen (pre ++ [CR])) by (rewrite length_app; simpl; lia).
      replace (pre ++ CRLF) with ((pre ++ [CR]) ++ [LF]) by (by rewrite <- app_assoc). rewrite <- app_assoc. apply zget_here.
    + rewrite Em. apply line_not_CR; [done|lia].
  - rewrite Em, !length_app. unfold rest. rewrite !length_app. simpl. lia.
  - replace (zlen pre + 2 + k + 1 + Z.of_nat (Z.to_nat (zlen (render_hdr h) - k + 1))) with (zlen (pre ++ CRLF ++ render_hdr h) + 2) by (rewrite !length_app; simpl; lia).
    specialize (IH (pre ++ CRLF ++ render_hdr h) (apply_header r h) Hhs). cbn zeta in IH.
    replace (((pre ++ CRLF ++ render_hdr h) ++ CRLF) ++ render_lines (render_hdr <$> hs) ++ junk) with m in IH by (rewrite Em; unfold rest; by rewrite <- !app_assoc).
    replace (zlen (pre ++ CRLF ++ render_hdr h) + zlen (render_lines (render_hdr <$> hs)) - 2) with pe in IH by (rewrite Epe, !length_app; simpl; lia). by apply IH.
Qed.

Lemma head_lines_ok q : head_ok q -> Forall line_ok (head_lines q).
Proof.
  intros Hq. constructor; [|apply Forall_fmap; eapply Forall_impl; [apply (ho_headers q Hq)|]; intros h; apply hdr_line_ok].
  pose proof (method_name_length q Hq). split; [unfold render_line; by destruct (method_name q)|]. unfold render_line. rewrite !elem_of_app. intros [Hin|[Hin|[Hin|[Hin|Hin]]]].
  - pose proof (method_name_cases (fun _ s => forallb (fun c => negb (c =? CR)) s) (q_method q) eq_refl (ho_method q Hq)) as Hb. by apply (no_CR _ Hb).
  - by apply (no_CR [SP] eq_refl).
  - destruct (ho_url q Hq) as [_ Hu]. rewrite Forall_forall in Hu. apply Hu in Hin. by destruct Hin as (_ & ? & _).
  - by apply (no_CR [SP] eq_refl).
  - unfold http_version in Hin. destruct (q_v11 q); [by apply (no_CR (str "HTTP/1.1") eq_refl)|by apply (no_CR (str "HTTP/1.0") eq_refl)].
Qed.

(** [parse_header_info] on a whole header, the line having been read up to some place. *)
Definition head_info (q : head) (r : Request) : Request :=
  let r := foldl apply_header r (q_headers q) in
  set_info r true (known_length r) (keep_alive r) (chunked r) (nobody_chunked r || (chunked r && known_length r && (content_length r =? 0))) (content_length r) (form_data r).

Lemma parse_header_info_ok q r b rest : head_ok q -> str_wf b -> is_prefix (contents b) (render_head q ++ rest) -> zlen (render_head q) <= slen b ->
  header_length r = zlen (render_head q) -> 0 <= request_line_length r <= zlen (render_line q) -> parse_header_info r b = Some (head_info q r).
Proof.
  intros Hq Hb Hy Hl Hh Hrl. pose proof (contents_length b Hb) as Hlen. pose proof (st_size b Hb). pose proof (st_len b Hb).
  assert (exists junk, mem b = render_head q ++ junk) as (junk & Em).
  { exists (drop (length (render_head q)) (mem b)). rewrite <- (take_drop (length (render_head q)) (mem b)) at 1. f_equal. rewrite (mem_contents b Hb), take_app_le, Hy, take_take, Nat.min_l, take_app_length by lia. done. }
  unfold parse_header_info. rewrite Hh. pose proof (head_lines_ok q Hq) as Hok. inversion Hok as [|? ? [_ Hcr] _]; subst.
  unfold render_head, head_lines in *. pose proof (headers_loop_ok (q_headers q) (render_line q) junk r (ho_headers q Hq)) as HL. cbn zeta in HL. rewrite render_lines_cons in *.
  set (R := render_lines (render_hdr <$> q_headers q)) in *. assert (zlen (render_line q ++ CRLF ++ R) = zlen (render_line q) + 2 + zlen R) as HR by (rewrite !length_app; simpl; lia). rewrite HR in *.
  replace ((render_line q ++ CRLF) ++ R ++ junk) with (mem b) in HL by (rewrite Em; by rewrite <- !app_assoc).
  replace (zlen (render_line q) + zlen R - 2) with (zlen (render_line q) + 2 + zlen R - 4) in HL by lia. specialize (HL ltac:(lia)).
  assert (loops_to (mem b) (zlen (render_line q) + 2 + zlen R - 4) r (request_line_length r + 2) (foldl apply_header r (q_headers q))) as HL'.
  { apply (loops_skip _ _ _ (Z.to_nat (zlen (render_line q) - request_line_length r))); [lia| |rewrite Em, !length_app; simpl; lia|].
    - intros j Hj. rewrite Em, <- !app_assoc. apply (line_not_CR [] (render_line q)); [done|simpl; lia].
    - by replace (request_line_length r + 2 + Z.of_nat (Z.to_nat (zlen (render_line q) - request_line_length r))) with (zlen (render_line q) + 2) by lia. }
  rewrite HL' by lia. done.
Qed.

(** *** Chunks *)

Definition render_chunk (d : list Z) : list Z := print_number 16 (zlen d) ++ CRLF ++ d ++ CRLF.
Definition render_chunks (cs : list (list Z)) : list Z := concat (render_chunk <$> cs) ++ SW_HTTP_CHUNK_EOF.

(** What was received ends like a body. *)
Definition ends_like_body (y : list Z) : Prop := exists w, y = w ++ SW_HTTP_CHUNK_EOF.

Lemma ends_last x c : ends_like_body (x ++ [c]) -> c = LF.
Proof. intros (w & E). change SW_HTTP_CHUNK_EOF with ([48; 13; 10; 13] ++ [LF]) in E. rewrite app_assoc in E. apply app_inj_2 in E as [_ E]; [congruence|done]. Qed.

Lemma ends_short x : ~ ends_like_body (x ++ [48; CR; LF]).
Proof. intros (w & E). change SW_HTTP_CHUNK_EOF with ([48; 13] ++ [LF; CR; LF]) in E. rewrite app_assoc in E. apply app_inj_2 in E as [_ E]; done. Qed.

Lemma hex_not_LF n : 0 <= n -> Forall (fun c => c <> LF) (print_number 16 n).
Proof. intros Hn. destruct (print_number_digits 16 n ltac:(lia) Hn) as (_ & Hd & _). eapply Forall_impl; [exact Hd|]. intros c [x Hx] ->. done. Qed.

Lemma take_last (x : list Z) k : (0 < k <= length x)%nat -> exists c, take k x = take (k - 1) x ++ [c] /\ c ∈ x.
Proof.
  intros Hk. destruct (lookup_lt_is_Some_2 x (k - 1)%nat) as [c Hc]; [lia|]. exists c. split; [|by eapply list_elem_of_lookup_2].
  replace k with (S (k - 1)) at 1 by lia. by apply take_S_r.
Qed.

Section chunks.
Context (base : Z).
Hypothesis base_pos : 0 <= base.

Lemma http_chunk_loop_ok cs fuel pre k junk : (0 < k <= length (render_chunks cs))%nat -> ends_like_body (pre ++ take k (render_chunks cs)) -> Forall (fun d => d <> []) cs ->
  base + zlen pre + zlen (render_chunks cs) < 2 ^ 64 -> (k < fuel)%nat ->
  chunk_loop base fuel (pre ++ take k (render_chunks cs) ++ junk) (zlen pre) (zlen pre + Z.of_nat k) =
  Some (if Z.of_nat k <? zlen (render_chunks cs) then C_more else C_found (zlen pre + zlen (render_chunks cs) - 4)).
Proof.
  revert fuel pre k. induction cs as [|d cs IH]; intros fuel pre k Hk Hend Hcs Hbase Hfuel; (destruct fuel as [|fuel]; [lia|]).
  - change (render_chunks []) with SW_HTTP_CHUNK_EOF in *. change (length SW_HTTP_CHUNK_EOF) with 5%nat in *. assert (k = 5%nat) as ->.
    { assert (k = 1 \/ k = 2 \/ k = 3 \/ k = 4 \/ k = 5)%nat as [->|[->|[->|[->| ->]]]] by lia; [..|done]; exfalso.
      - by apply ends_last in Hend.
      - change (take 2 SW_HTTP_CHUNK_EOF) with ([48] ++ [CR]) in Hend. rewrite app_assoc in Hend. by apply ends_last in Hend.
      - by apply (ends_short pre).
      - change (take 4 SW_HTTP_CHUNK_EOF) with ([48; CR; LF] ++ [CR]) in Hend. rewrite app_assoc in Hend. by apply ends_last in Hend. }
    cbn [chunk_loop]. unfold strtoul. pose proof (strto_number 16 (pre ++ take 5 SW_HTTP_CHUNK_EOF ++ junk) 0 pre CR ([LF; CR; LF] ++ junk) ltac:(by right) ltac:(lia) eq_refl ltac:(done) ltac:(done) ltac:(done)) as E.
    rewrite E. cbn [mbind option_bind]. change (zlen (print_number 16 0)) with 1. replace (zlen pre + 1) with (zlen (pre ++ [48])) by (rewrite length_app; simpl; lia).
    change (pre ++ take 5 SW_HTTP_CHUNK_EOF ++ junk) with (pre ++ [48] ++ CR :: [LF; CR; LF] ++ junk). rewrite app_assoc, zget_here. cbn [mbind option_bind].
    change (ULONG_MAX <? 0) with false. change (CR =? CR) with true. cbn [negb]. change (0 =? 0) with true. cbv iota. do 2 f_equal. rewrite length_app. simpl. lia.
  - inversion Hcs as [|? ? Hd Hcs']; subst. set (hx := print_number 16 (zlen d)) in *.
    assert (render_chunks (d :: cs) = hx ++ CRLF ++ d ++ CRLF ++ render_chunks cs) as ER by (unfold render_chunks, render_chunk; cbn [fmap list_fmap concat]; by rewrite <- !app_assoc).
    rewrite ER in *. assert (length hx < k)%nat as Hhx.
    { destruct (decide (length hx < k)%nat); [done|]. exfalso. rewrite take_app_le in Hend by lia. destruct (take_last hx k ltac:(lia)) as (c & Ec & Hc). rewrite Ec, app_assoc in Hend.
      apply ends_last in Hend. subst. pose proof (hex_not_LF (zlen d) ltac:(lia)) as Hf. rewrite Forall_forall in Hf. by apply (Hf LF). }
    assert (exists t, take k (hx ++ CRLF ++ d ++ CRLF ++ render_chunks cs) = hx ++ CR :: t) as (t & Et).
    { rewrite take_app_ge by lia. destruct (k - length hx)%nat eqn:Ek; [lia|]. by eexists. }
    assert (0 < zlen d) as Hdpos by (destruct d; [done|simpl; lia]).
    set (m := pre ++ take k _ ++ junk) in *. assert (m = pre ++ hx ++ CR :: t ++ junk) as Em by (unfold m; rewrite Et, <- app_assoc; done).
    cbn [chunk_loop]. unfold strtoul. rewrite (strto_number 16 m (zlen d) pre CR (t ++ junk) ltac:(by right) ltac:(lia) eq_refl ltac:(done) ltac:(done) Em). fold hx. cbn [mbind option_bind].
    rewrite !length_app in Hbase. change (length CRLF) with 2%nat in Hbase.
    replace (zlen pre + zlen hx) with (zlen (pre ++ hx)) by (rewrite length_app; lia). rewrite Em, app_assoc, zget_here, <- app_assoc, <- Em. cbn [mbind option_bind].
    unfold ULONG_MAX. rewrite (proj2 (Z.ltb_ge _ _)) by lia. change (CR =? CR) with true. cbn [negb]. rewrite (proj2 (Z.eqb_neq (zlen d) 0)) by lia.
    rewrite u64_id by (rewrite length_app; lia). set (pre' := pre ++ hx ++ CRLF ++ d ++ CRLF).
    assert (base + zlen (pre ++ hx) + 2 + zlen d + 2 = base + zlen pre') as -> by (unfold pre'; rewrite !length_app; simpl; lia).
    assert (zlen pre' = zlen pre + zlen hx + 2 + zlen d + 2) as Hpre' by (unfold pre'; rewrite !length_app; simpl; lia).
    destruct (Z.ltb_spec (base + zlen pre') (base + (zlen pre + Z.of_nat k))) as [Hlt|Hge].
    + replace (base + zlen pre' - base) with (zlen pre') by lia. set (k' := (k - (length hx + 2 + length d + 2))%nat).
      assert (take k (hx ++ CRLF ++ d ++ CRLF ++ render_chunks cs) = hx ++ CRLF ++ d ++ CRLF ++ take k' (render_chunks cs)) as Etk.
      { replace (hx ++ CRLF ++ d ++ CRLF ++ render_chunks cs) with ((hx ++ CRLF ++ d ++ CRLF) ++ render_chunks cs) by (by rewrite <- !app_assoc).
        rewrite take_app_ge by (rewrite !length_app; simpl; lia). rewrite <- !app_assoc. do 5 f_equal. rewrite !length_app. simpl. lia. }
      assert (m = pre' ++ take k' (render_chunks cs) ++ junk) as Em' by (unfold m, pre'; rewrite Etk; by rewrite <- !app_assoc).
      rewrite !length_app in Hk. change (length CRLF) with 2%nat in Hk. rewrite Em'. replace (zlen pre + Z.of_nat k) with (zlen pre' + Z.of_nat k') by lia. rewrite IH; [..|done| |]; [|lia| |lia|lia].
      * rewrite !length_app. change (length CRLF) with 2%nat. destruct (Z.ltb_spec (Z.of_nat k') (zlen (render_chunks cs))), (Z.ltb_spec (Z.of_nat k) (Z.of_nat (length hx + (2 + (length d + (2 + length (render_chunks cs))))))); try lia; [done|]. do 2 f_equal. lia.
      * rewrite Etk in Hend. unfold pre'. by rewrite <- !app_assoc.
    + rewrite !length_app. change (length CRLF) with 2%nat. assert (5 <= length (render_chunks cs))%nat by (unfold render_chunks; rewrite length_app; simpl; lia).
      by rewrite (proj2 (Z.ltb_lt _ _)) by lia.
Qed.

(** [get_chunked_body_length] waits until the whole body is there, wherever the stream
    was cut, and then knows its length. *)
Lemma get_chunked_body_length_ok cs r b H : str_wf b -> is_prefix (contents b) (H ++ render_chunks cs) -> soff b = zlen H -> header_length r = zlen H -> zlen H <= slen b ->
  Forall (fun d => d <> []) cs -> base + zlen H + zlen (render_chunks cs) < 2 ^ 64 ->
  get_chunked_body_length base r b =
    Some (if slen b <? zlen H + zlen (render_chunks cs) then (r, SW_ERR)
          else (set_info r (header_parsed r) true (keep_alive r) (chunked r) (nobody_chunked r) (zlen (render_chunks cs)) (form_data r), SW_OK)).
Proof.
  intros Hb Hy Ho Hh Hl Hcs Hbase. pose proof (contents_length b Hb) as Hlen. unfold get_chunked_body_length. rewrite Ho, u64_id by (pose proof (st_size b Hb); pose proof (st_len b Hb); lia).
  change (zlen SW_HTTP_CHUNK_EOF) with 5. assert (5 <= length (render_chunks cs))%nat as H5 by (unfold render_chunks; rewrite length_app; simpl; lia).
  destruct (Z.ltb_spec (slen b - zlen H) 5); [cbn [mbind option_bind]; by rewrite (proj2 (Z.ltb_lt _ _)) by lia|].
  assert (length (contents b) <= length (H ++ render_chunks cs))%nat as Hle by (rewrite Hy, length_take; lia). rewrite length_app in Hle.
  assert (contents b = H ++ take (Z.to_nat (slen b - zlen H)) (render_chunks cs)) as Ec by (rewrite Hy, take_app_ge by lia; do 2 f_equal; lia).
  set (k := Z.to_nat (slen b - zlen H)) in *. unfold memeq. destruct (zsub_in_bounds (mem b) (slen b - 5) (zlen SW_HTTP_CHUNK_EOF)) as [x E]; [lia|lia|pose proof (st_mem b Hb); pose proof (st_len b Hb); simpl; lia|].
  change (zlen SW_HTTP_CHUNK_EOF) with 5 in *. rewrite E. cbn [mbind option_bind].
  assert (contents b = take (Z.to_nat (slen b - 5)) (contents b) ++ x) as Ex.
  { rewrite <- (take_drop (Z.to_nat (slen b - 5)) (contents b)) at 1. f_equal. rewrite contents_sub in E by (done || lia). injection E as <-. rewrite take_ge; [done|]. rewrite length_drop. lia. }
  destruct (bool_decide_reflect (x = SW_HTTP_CHUNK_EOF)) as [->|Hne]; cbn [negb].
  - pose proof (http_chunk_loop_ok cs (S k) H k (drop (Z.to_nat (slen b)) (mem b)) ltac:(lia)) as HC. rewrite app_assoc, <- Ec, <- mem_contents in HC by done.
    replace (zlen H + Z.of_nat k) with (slen b) in HC by lia. rewrite HC; [|rewrite Ex; by eexists|done|lia|lia].
    cbn [mbind option_bind]. replace (slen b <? zlen H + zlen (render_chunks cs)) with (Z.of_nat k <? zlen (render_chunks cs)) by (bool_cases; done || lia).
    destruct (Z.ltb_spec (Z.of_nat k) (zlen (render_chunks cs))); [done|]. rewrite Hh, u64_id by (pose proof (st_size b Hb); pose proof (st_len b Hb); lia). do 4 f_equal. lia.
  - destruct (Z.ltb_spec (slen b) (zlen H + zlen (render_chunks cs))); [done|]. exfalso. apply Hne.
    rewrite take_ge in Ec by lia. rewrite Ec in Ex at 1. unfold render_chunks in Ex. rewrite app_assoc in Ex. symmetry in Ex. apply app_inj_2 in Ex as [_ ->]; [done|].
    pose proof (zsub_length _ _ _ _ E). simpl. lia.
Qed.
End chunks.

(** ** What a peer can do *)

(** The size of a chunk can wrap the pointer back to where it was: the loop does not end. *)
Definition spinning_body : list Z := str "ffffffffffffffec" ++ CRLF ++ SW_HTTP_CHUNK_EOF.
Lemma chunked_spins base fuel : 0 <= base < 2 ^ 63 -> chunk_loop base fuel spinning_body 0 (zlen spinning_body) = None.
Proof.
  intros Hb. induction fuel as [|fuel IH]; [done|]. cbn [chunk_loop].
  change (strtoul 16 spinning_body 0) with (Some (18446744073709551596, 16)). cbn [mbind option_bind]. change (zget spinning_body 16) with (Some CR). cbn [mbind option_bind].
  change (CR =? CR) with true. cbn [negb]. change (18446744073709551596 =? 0) with false. cbv iota.
  assert (u64 (base + 16 + 2 + 18446744073709551596 + 2) = base) as ->.
  { unfold uN. replace (base + 16 + 2 + 18446744073709551596 + 2) with (base + 1 * 2 ^ 64) by lia. rewrite Z.mod_add by lia. apply Z.mod_small. lia. }
  change (zlen spinning_body) with 23 in *. rewrite (proj2 (Z.ltb_lt base (base + 23))) by lia. by rewrite Z.sub_diag.
Qed.

Definition buffer_of (d : list Z) : Str := default empty_string (of_bytes d).

(** A request line that is cut inside of the URL counts as read: the URL stays empty,
    and the version unknown, whatever comes later. *)
Lemma url_cut_is_lost : exists r b, get_protocol new_request (buffer_of (str "GET /index.html?query")) = Some (r, b, SW_OK) /\
  method r = 2 /\ url_length r = 0 /\ version r = 0 /\ soff b = slen b + 8.
Proof. eexists _, _. split; [vm_compute; reflexivity|]. by vm_compute. Qed.

(** The number of an empty [Content-Length] is read from the body. *)
Lemma empty_length_reads_body : exists b r,
  let request := str "POST / HTTP/1.1" ++ CRLF ++ str "Content-Length:" ++ HEADER_EOF ++ str "42;" in
  b = buffer_of request /\ parse_header_info (set_header_length (set_line new_request 4 2 5 1 15) 36) b = Some r /\ content_length r = 42.
Proof. eexists _, _. split; [reflexivity|]. split; [vm_compute; reflexivity|reflexivity]. Qed.

(** A negative one wraps, and so does the length of the request. *)
Lemma negative_length_wraps : exists b r,
  let request := str "POST / HTTP/1.1" ++ CRLF ++ str "Content-Length: -1" ++ HEADER_EOF in
  b = buffer_of request /\ parse_header_info (set_header_length (set_line new_request 4 2 5 1 15) 39) b = Some r /\ content_length r = 2 ^ 64 - 1 /\
    u64 (header_length r + content_length r) = 38.
Proof. eexists _, _. split; [reflexivity|]. split; [vm_compute; reflexivity|done]. Qed.
