(* ===== verification/HttpForm.v ===== *)
(** * Forms with files

    The part of [src/protocol/http.cc] that takes apart the body of a large form while it
    comes in: the callbacks of the multipart parser ([multipart_on_*]), which write the
    parts without the data of the files into the buffer of the connection, and the files
    to disk; [init_multipart_parser], [parse_multipart_data] and
    [destroy_multipart_parser].  What the calls on files do is given by the lists of
    their answers. *)

From stdpp Require Import strings.
From S2P Require Import Prelude Str Protocol CStr Multipart HttpText HttpRequest.

(** ** Definitions *)

Definition SW_HTTP_UPLOAD_FILE : list Z := str "Swoole-Upload-File".
Definition SW_BUFFER_SIZE_BIG : Z := 65536.

(** [swoole_tmpfile] and [fdopen]: the name of the new file or the call that fails *)
Inductive tmp_answer := T_name (name : list Z) | T_tmpfile_fails | T_fdopen_fails.
(** [tmp_answers] and [write_answers] are what the calls will return; the files that were
    made, with their data and whether they are still there *)
Record Files := mkFiles { tmp_answers : list tmp_answer; write_answers : list Z; disk : list (list Z * bool) }.

(** What the callbacks change: the request with its form, and [multipart_buffer_], the
    buffer of the connection *)
Record FormState := mkFormState { fs_request : Request; fs_form : FormData; fs_buffer : Str; fs_files : Files }.

Section form.
Context `{Allocator}.

Definition with_fp (f : FormData) (x : option nat) (name : list Z) (size : Z) : FormData :=
  mkForm (multipart_boundary_buf f) (multipart_boundary_len f) (multipart_parser_ f) x (tmp_buffer f) name (current_header_name f) (current_header_name_len f) size
    (upload_max_filesize f).
Definition with_name (f : FormData) (p n : Z) : FormData :=
  mkForm (multipart_boundary_buf f) (multipart_boundary_len f) (multipart_parser_ f) (fp f) (tmp_buffer f) (upload_tmpfile f) p n (upload_filesize f) (upload_max_filesize f).
Definition with_parser (f : FormData) (p : multipart_parser) : FormData :=
  mkForm (multipart_boundary_buf f) (multipart_boundary_len f) (Some p) (fp f) (tmp_buffer f) (upload_tmpfile f) (current_header_name f) (current_header_name_len f)
    (upload_filesize f) (upload_max_filesize f).
Definition with_tmp (f : FormData) (b : Str) : FormData :=
  mkForm (multipart_boundary_buf f) (multipart_boundary_len f) (multipart_parser_ f) (fp f) b (upload_tmpfile f) (current_header_name f) (current_header_name_len f)
    (upload_filesize f) (upload_max_filesize f).

Definition append_all (b : Str) (ds : list (list Z)) : option Str := foldl (fun b d => b ← b; append b d) (Some b) ds.
Definition out (s : FormState) (ds : list (list Z)) : option FormState := b ← append_all (fs_buffer s) ds; Some (mkFormState (fs_request s) (fs_form s) b (fs_files s)).
Definition flags (s : FormState) (tl un : bool) : FormState := mkFormState (set_flags (fs_request s) true tl un) (fs_form s) (fs_buffer s) (fs_files s).

(** The callback of [multipart_on_header_value] for the parameters of the header *)
Definition on_parameter (s : FormState) (key value : list Z) : option (FormState * bool) :=
  if bool_decide (tolower <$> key = tolower <$> str "filename") then
    let f := fs_form s in
    match tmp_answers (fs_files s) with
    | [] => None
    | a :: answers =>
        let files := fs_files s in
        match a with
        | T_tmpfile_fails => Some (mkFormState (set_excepted (fs_request s)) (with_fp f (fp f) (upload_tmpfile f) 0) (fs_buffer s) (mkFiles answers (write_answers files) (disk files)), false)
        | T_fdopen_fails => Some (mkFormState (fs_request s) (with_fp f (fp f) (upload_tmpfile f) 0) (fs_buffer s) (mkFiles answers (write_answers files) (disk files ++ [([], true)])), false)
        | T_name name => Some (mkFormState (fs_request s) (with_fp f (Some (length (disk files))) name 0) (fs_buffer s) (mkFiles answers (write_answers files) (disk files ++ [([], true)])), false)
        end
    end
  else Some (s, true).

(** [fwrite]: how much of the data is written *)
Definition fwrite (files : Files) (n : nat) (d : list Z) : Files * Z :=
  let '(w, answers) := match write_answers files with [] => (zlen d, []) | w :: answers => (Z.min (zlen d) (Z.max 0 w), answers) end in
  (mkFiles (tmp_answers files) answers (alter (fun x => (x.1 ++ take (Z.to_nat w) d, x.2)) n (disk files)), w).

(** The callbacks; [m] is the memory of the buffer that is being parsed and [boundary]
    the boundary of the parser *)
Definition on_event (m boundary : list Z) (s : FormState) (e : event) : option (FormState * Z) :=
  let r := fs_request s in
  let f := fs_form s in
  match e with
  | on_header_field p d => Some (mkFormState r (with_name f p (zlen d)) (fs_buffer s) (fs_files s), 0)
  | on_header_value p d =>
      name ← zsub m (current_header_name f) (current_header_name_len f);
      s ← out s [name; str ": "; d; CRLF];
      s ← (if bool_decide (tolower <$> name = tolower <$> str "content-disposition") then parse_cookie on_parameter d s else Some s);
      Some (s, 0)
  | on_part_data d =>
      match fp f with
      | None =>
          if max_length r <? u64 (slen (fs_buffer s) + zlen d) then Some (flags s (too_large r) true, 1)
          else s ← out s [d]; Some (s, 0)
      | Some n =>
          let size := u64 (upload_filesize f + zlen d) in
          let s := mkFormState r (with_fp f (fp f) (upload_tmpfile f) size) (fs_buffer s) (fs_files s) in
          if upload_max_filesize f <? size then Some (flags s true (unavailable r), 1)
          else
            let '(files, w) := fwrite (fs_files s) n d in
            if negb (w =? zlen d) then Some (flags (mkFormState r (with_fp f None (upload_tmpfile f) size) (fs_buffer s) files) (too_large r) true, 1)
            else Some (mkFormState r (fs_form s) (fs_buffer s) files, 0)
      end
  | on_headers_complete =>
      s ← (match fp f with Some _ => out s [SW_HTTP_UPLOAD_FILE; str ": "; upload_tmpfile f] | None => Some s end);
      let s := mkFormState (set_progress r (tried_to_dispatch r) true (max_length r) (header_length r) (content_length r)) (fs_form s) (fs_buffer s) (fs_files s) in
      s ← out s [CRLF];
      Some (s, 0)
  | on_part_data_end =>
      let s := mkFormState (set_progress r (tried_to_dispatch r) false (max_length r) (header_length r) (content_length r)) f (fs_buffer s) (fs_files s) in
      s ← (match fp f with
           | Some _ => s ← out s [CRLF ++ SW_HTTP_UPLOAD_FILE]; Some (mkFormState (fs_request s) (with_fp f None (upload_tmpfile f) (upload_filesize f)) (fs_buffer s) (fs_files s))
           | None => Some s
           end);
      s ← out s [CRLF];
      Some (s, 0)
  | on_part_data_begin => s ← out s [boundary; CRLF]; Some (s, 0)
  | on_body_end =>
      s ← out s [boundary; str "--"];
      Some (mkFormState (set_progress r true (multipart_header_parsed r) (max_length r) (header_length r) (u64 (slen (fs_buffer s) - header_length r))) (fs_form s) (fs_buffer s) (fs_files s), 0)
  end.

(** [Request::init_multipart_parser]; [b] is the buffer of the connection *)
Definition init_multipart_parser (r : Request) (b : Str) (max_filesize : Z) : option (Request * Str * bool) :=
  f ← form_data r;
  at_ ← zsub (mem b) (multipart_boundary_buf f) (multipart_boundary_len f);
  o ← parse_multipart_boundary at_ 0;
  match o with
  | None => Some (r, b, false)
  | Some (offset, n) =>
      boundary ← zsub at_ offset n;
      p ← multipart_parser_init boundary;
      d ← zsub (mem b) (header_length r) (slen b - header_length r);
      tmp ← append (alloc SW_BUFFER_SIZE_BIG) d;
      let f := mkForm (multipart_boundary_buf f) (multipart_boundary_len f) (Some p) None tmp [] 0 0 0 max_filesize in
      Some (set_form r (Some f), mkStr (mem b) (header_length r) (ssize b) (soff b) (sallocator b), true)
  end.

(** [Request::destroy_multipart_parser]: the file that is open is removed *)
Definition destroy_multipart_parser (r : Request) (files : Files) : option (Request * Files) :=
  f ← form_data r;
  _ ← multipart_parser_ f;
  Some (set_form r None, match fp f with Some n => mkFiles (tmp_answers files) (write_answers files) (alter (fun x => (x.1, false)) n (disk files)) | None => files end).

(** [Request::parse_multipart_data] on the buffer of the form *)
Definition parse_multipart_data (r : Request) (b : Str) (files : Files) : option (Request * Str * Files * bool) :=
  f ← form_data r;
  p ← multipart_parser_ f;
  boundary ← zsub (tail p) 0 (boundary_length p);
  d ← zsub (mem (tmp_buffer f)) 0 (slen (tmp_buffer f));
  let r := set_flags r false (too_large r) (unavailable r) in
  '(p, s, n) ← multipart_parser_execute (on_event (mem (tmp_buffer f)) boundary) p (mkFormState r f b files) d;
  let f := with_parser (fs_form s) p in
  let r := fs_request s in
  Some (if n <? 0 then (set_form r (Some f), fs_buffer s, fs_files s, false)
        else if negb (n =? slen (tmp_buffer f)) then (set_form r (Some f), fs_buffer s, fs_files s, excepted r)
        else (set_form r (Some (with_tmp f (clear (tmp_buffer f)))), fs_buffer s, fs_files s, true)).
End form.
