(* ===== verification/HttpPort.v ===== *)
(** * HTTP/1 connections

    [ListenPort::readable_callback_http] of [src/server/port.cc]: what the reactor thread
    does when a connection of an HTTP port has data.  It receives, finds the requests in
    the stream, and gives them to the workers; it also answers what it refuses. *)

From stdpp Require Import strings.
From S2P Require Import Prelude MemPool Str Protocol CStr Multipart HttpText HttpRequest HttpForm.

(** ** Definitions *)

Definition SW_HTTP_HEADER_MAX_SIZE : Z := 65536.
Definition BAD_REQUEST_PACKET : list Z := str "HTTP/1.1 400 Bad Request" ++ HEADER_EOF.
Definition ENTITY_TOO_LARGE_PACKET : list Z := str "HTTP/1.1 413 Request Entity Too Large" ++ HEADER_EOF.
Definition UNAVAILABLE_PACKET : list Z := str "HTTP/1.1 503 Service Unavailable" ++ HEADER_EOF.
Definition CONTINUE_PACKET : list Z := str "HTTP/1.1 100 Continue" ++ HEADER_EOF.
Definition STATUS_HANDSHAKE : Z := 2.
Definition STATUS_ACTIVE : Z := 3.

(** The connection with its socket: [net] has the receive buffer, the packets that went to
    the workers and the network, [has_recv_buffer] is false when [recv_buffer] is null;
    [responses] is what was sent *)
Record HttpConn := mkHttp {
  net : Conn;
  has_recv_buffer : bool;
  object : option Request;
  websocket_status : Z;
  http_upgrade : bool;
  http2_stream : bool;
  responses : list (list Z);
  closed : bool;
  files : Files;
}.
Definition with_net c x := mkHttp x (has_recv_buffer c) (object c) (websocket_status c) (http_upgrade c) (http2_stream c) (responses c) (closed c) (files c).
Definition with_object c x := mkHttp (net c) (has_recv_buffer c) x (websocket_status c) (http_upgrade c) (http2_stream c) (responses c) (closed c) (files c).
Definition with_files c x := mkHttp (net c) (has_recv_buffer c) (object c) (websocket_status c) (http_upgrade c) (http2_stream c) (responses c) (closed c) x.
Definition respond c p := mkHttp (net c) (has_recv_buffer c) (object c) (websocket_status c) (http_upgrade c) (http2_stream c) (responses c ++ [p]) (closed c) (files c).
Definition with_recv_buffer c b has := mkHttp (with_buffer (net c) b) has (object c) (websocket_status c) (http_upgrade c) (http2_stream c) (responses c) (closed c) (files c).

(** How a turn ends: the callback returns, or goes on to [_recv_data] or [_parse], or calls
    [readable_callback_length] *)
Inductive http_next := N_return (c : HttpConn) | N_recv (c : HttpConn) (r : Request) | N_parse (c : HttpConn) (r : Request) | N_length (c : HttpConn).

Section port.
Context `{Allocator}.
(** The settings of the port and of the server, the address of the receive buffer,
    [Server::is_unavailable], [Server::select_static_handler] and what a worker's queue
    answers to a packet, with the flag [removed] *)
Context (package_max_length upload_max_size : Z) (open_http2_protocol enable_static_handler is_unavailable : bool) (base : Z).
Context (select_static_handler : Request -> list Z -> bool) (settings_frame : list Z).
Context (onPackage : list Z -> Z * bool).

(** [destroy_http_request], with the destructor of [Request] *)
Definition destroy_http_request (c : HttpConn) : option HttpConn :=
  match object c with
  | None => Some c
  | Some r =>
      match form_data r with
      | None => Some (with_object c None)
      | Some _ => '(_, fl) ← destroy_multipart_parser r (files c); Some (with_object (with_files c fl) None)
      end
  end.

(** The label [_close_fd], with the answers of the labels before it *)
Definition close_fd (c : HttpConn) (r : Request) : option http_next :=
  c ← destroy_http_request (with_object c (Some r));
  Some (N_return (mkHttp (net c) (has_recv_buffer c) (object c) (websocket_status c) (http_upgrade c) (http2_stream c) (responses c) true (files c))).
Definition refuse (c : HttpConn) (r : Request) (packet : list Z) : option http_next := close_fd (respond c packet) r.

(** [dispatch_request] *)
Definition dispatch_request (c : HttpConn) (data : list Z) : HttpConn * Z :=
  if is_unavailable then (respond c UNAVAILABLE_PACKET, SW_ERR)
  else let '(r, rm) := onPackage data in (with_net c (with_packet (net c) data (removed (net c) || rm)), r).

(** [request->buffer_] *)
Definition buffer_ (c : HttpConn) (r : Request) : Str :=
  match form_data r with Some f => match multipart_parser_ f with Some _ => tmp_buffer f | None => buffer (net c) end | None => buffer (net c) end.
Definition put_buffer (c : HttpConn) (r : Request) (b : Str) : HttpConn * Request :=
  match form_data r with
  | Some f => match multipart_parser_ f with Some _ => (c, set_form r (Some (with_tmp f b))) | None => (with_recv_buffer c b (has_recv_buffer c), r) end
  | None => (with_recv_buffer c b (has_recv_buffer c), r)
  end.

(** From the label [_recv_data] to [_parse] *)
Definition recv_data (c : HttpConn) (r : Request) : option http_next :=
  let b := buffer_ c r in
  let '(res, n) := recv (net c) (ssize b - slen b) in
  let c := with_net c n in
  match res with
  | inl e =>
      code ← catch_error e;
      match code with SW_CLOSE => close_fd c r | _ => Some (N_return (with_object c (Some r))) end
  | inr [] => close_fd c r
  | inr d =>
      b ← store b d;
      let '(c, r) := put_buffer c r b in
      Some (N_parse c r)
  end.

(** The request is whole: the end of the callback *)
Definition finish (c : HttpConn) (r : Request) (b : Str) (request_length : Z) : option http_next :=
  let n := if request_length <? slen b then request_length else slen b in
  let b := mkStr (mem b) n (ssize b) request_length (sallocator b) in
  let c := with_recv_buffer c b (has_recv_buffer c) in
  d ← zsub (mem b) 0 n;
  let '(c, ret) := dispatch_request c d in
  if ret <? 0 then close_fd c r
  else if removed (net c) then Some (N_return (with_object c (Some r)))
  else
    c ← destroy_http_request (with_object c (Some r));
    Some (N_return (if has_recv_buffer c && (SW_BUFFER_SIZE_BIG * 2 <? ssize (buffer (net c))) then with_recv_buffer c empty_string false
                    else with_recv_buffer c (clear (buffer (net c))) (has_recv_buffer c))).

(** A request without a body: it goes to the static files or to a worker, and what
    follows it in the buffer is the next one *)
Definition no_body (c : HttpConn) (r : Request) (b : Str) : option http_next :=
  let b := with_offset b (header_length r) in
  let c := with_recv_buffer c b (has_recv_buffer c) in
  d ← zsub (mem b) 0 (header_length r);
  let '(c, ret) := if enable_static_handler && select_static_handler r d then (c, SW_OK) else dispatch_request c d in
  if ret <? 0 then close_fd c r
  else if removed (net c) then Some (N_return (with_object c (Some r)))
  else if header_length r <? slen b then
    b ← reduce b (header_length r);
    Some (N_parse (with_recv_buffer c b (has_recv_buffer c)) (clean r))
  else
    c ← destroy_http_request (with_object c (Some r));
    Some (N_return (with_recv_buffer c (clear (buffer (net c))) (has_recv_buffer c))).

(** The rest of the request: chunks, or as many bytes as [Content-Length] says *)
Definition with_body (c : HttpConn) (r : Request) (b : Str) : option http_next :=
  if chunked r then
    '(r, ret) ← get_chunked_body_length base r b;
    if ret <? 0 then
      if excepted r then refuse c r BAD_REQUEST_PACKET
      else
        let request_length := ssize b + SW_BUFFER_SIZE_BIG in
        if package_max_length <? request_length then refuse c r ENTITY_TOO_LARGE_PACKET
        else
          b ← (if slen b =? ssize b then extend b request_length else Some b);
          Some (N_recv (with_recv_buffer c b (has_recv_buffer c)) r)
    else finish c r b (u64 (header_length r + content_length r))
  else
    let request_length := u64 (header_length r + content_length r) in
    if package_max_length <? request_length then refuse c r ENTITY_TOO_LARGE_PACKET
    else
      b ← (if ssize b <? request_length then extend b request_length else Some b);
      if slen b <? request_length then
        e ← has_expect_header b;
        let c := if e : bool then respond c CONTINUE_PACKET else c in
        Some (N_recv (with_recv_buffer c b (has_recv_buffer c)) r)
      else finish c r b request_length.

Definition set_tried (r : Request) (hl : Z) : Request := set_progress r true (multipart_header_parsed r) (max_length r) hl (content_length r).

(** After the headers and the form *)
Definition after_form (c : HttpConn) (r : Request) : option http_next :=
  let b := buffer_ c r in
  if tried_to_dispatch r then with_body c r b
  else if nobody_chunked r && (slen b <? header_length r + zlen SW_HTTP_CHUNK_EOF) then Some (N_recv c r)
  else
    let r := set_tried r (if nobody_chunked r then u32 (header_length r + zlen SW_HTTP_CHUNK_EOF) else header_length r) in
    if (content_length r =? 0) && (known_length r || negb (chunked r)) then no_body c r b else with_body c r b.

(** The form, if there is one: its data is parsed as far as it is there *)
Definition form_part (c : HttpConn) (r : Request) : option http_next :=
  match form_data r with
  | None => after_form c r
  | Some f =>
      let b := buffer_ c r in
      wait ← (if multipart_header_parsed r then Some false else found ← memmem (mem b) (slen b) HEADER_EOF; Some (negb found));
      if wait : bool then Some (N_return (with_object c (Some r)))
      else
        '(r, b, fl, ok) ← parse_multipart_data r (buffer (net c)) (files c);
        let c := with_files (with_recv_buffer c b (has_recv_buffer c)) fl in
        if negb ok then refuse c r BAD_REQUEST_PACKET
        else if too_large r then refuse c r ENTITY_TOO_LARGE_PACKET
        else if unavailable r then refuse c r UNAVAILABLE_PACKET
        else if negb (tried_to_dispatch r) then Some (N_return (with_object c (Some r)))
        else
          '(r, fl) ← destroy_multipart_parser r (files c);
          after_form (with_files c fl) r
  end.

(** The headers, when they are whole *)
Definition header_part (c : HttpConn) (r : Request) : option http_next :=
  let b := buffer_ c r in
  '(c, r, ret) ← (if header_length r =? 0 then '(r, b, ret) ← get_header_length r b; let '(c, r) := put_buffer c r b in Some (c, r, ret) else Some (c, r, SW_OK));
  let b := buffer_ c r in
  if ret <? 0 then if ssize b =? slen b then refuse c r BAD_REQUEST_PACKET else Some (N_recv c r)
  else if header_parsed r then form_part c r
  else
    r ← parse_header_info r b;
    let r := set_progress r (tried_to_dispatch r) (multipart_header_parsed r) package_max_length (header_length r) (content_length r) in
    match form_data r with
    | Some f =>
        if (0 <? upload_max_size) && (max_length r <? u64 (header_length r + content_length r)) then
          '(r, b, _) ← init_multipart_parser r b upload_max_size;
          form_part (with_recv_buffer c b (has_recv_buffer c)) r
        else form_part c (set_form r None)
    | None => form_part c r
    end.

(** From the label [_parse] on *)
Definition parse (c : HttpConn) (r : Request) : option http_next :=
  let b := buffer_ c r in
  '(c, r, ret) ← (if method r =? 0 then '(r, b, ret) ← get_protocol r b; let '(c, r) := put_buffer c r b in Some (c, r, ret) else Some (c, r, SW_OK));
  let b := buffer_ c r in
  if ret <? 0 then
    if negb (excepted r) && (slen b <? SW_HTTP_HEADER_MAX_SIZE) then Some (N_return (with_object c (Some r))) else refuse c r BAD_REQUEST_PACKET
  else if SW_HTTP_PRI <? method r then refuse c r BAD_REQUEST_PACKET
  else if method r =? SW_HTTP_PRI then
    if negb open_http2_protocol then refuse c r BAD_REQUEST_PACKET
    else
      let c := respond (mkHttp (net c) (has_recv_buffer c) (object c) (websocket_status c) (http_upgrade c) true (responses c) (closed c) (files c)) settings_frame in
      if slen b =? zlen SW_HTTP2_PRI_STRING then
        c ← destroy_http_request (with_object c (Some r));
        Some (N_return (with_recv_buffer c (clear b) (has_recv_buffer c)))
      else
        b ← reduce b (soff b);
        c ← destroy_http_request (with_object c (Some r));
        let c := with_recv_buffer c b (has_recv_buffer c) in
        Some (N_length (with_net c (with_skip (net c) true)))
  else header_part c r.

(** The jumps; a turn takes an answer of the network or a request of the buffer *)
Fixpoint http_loop (fuel : nat) (x : http_next) : option http_next :=
  match x with
  | N_recv c r => match fuel with O => None | S fuel => x ← recv_data c r; http_loop fuel x end
  | N_parse c r => match fuel with O => None | S fuel => x ← parse c r; http_loop fuel x end
  | x => Some x
  end.

Definition http_fuel (c : HttpConn) : nat := S (2 * length (script (net c)) + length (input (net c)) + Z.to_nat (slen (buffer (net c)))).

(** [readable_callback_http] *)
Definition readable_callback_http (c : HttpConn) : option http_next :=
  if STATUS_HANDSHAKE <=? websocket_status c then
    if http_upgrade c then Some (N_length c)
    else
      c ← destroy_http_request c;
      Some (N_length (mkHttp (net c) (has_recv_buffer c) (object c) STATUS_ACTIVE true (http2_stream c) (responses c) (closed c) (files c)))
  else if http2_stream c then Some (N_length c)
  else
    let r := default new_request (object c) in
    let c := with_object c (Some r) in
    let c := if has_recv_buffer c then c else with_recv_buffer c (alloc SW_BUFFER_SIZE_BIG) true in
    http_loop (http_fuel c) (N_recv c r).
End port.

(** The reactor calls it for every event of the connection. *)
Fixpoint http_events `{Allocator} (max up : Z) (h2 st un : bool) (base : Z) (sel : Request -> list Z -> bool) (frame : list Z) (onPackage : list Z -> Z * bool) (n : nat) (c : HttpConn) : option http_next :=
  match n with
  | O => Some (N_return c)
  | S n =>
      x ← readable_callback_http max up h2 st un base sel frame onPackage c;
      match x with N_return c => if closed c then Some x else http_events max up h2 st un base sel frame onPackage n c | x => Some x end
  end.

(** ** Streams of requests *)

Inductive body := B_none | B_length (d : list Z) | B_chunked (cs : list (list Z)).
Definition render_body (b : body) : list Z := match b with B_none => [] | B_length d => d | B_chunked cs => render_chunks cs end.
Definition render_request (x : head * body) : list Z := render_head x.1 ++ render_body x.2.
Definition stream (l : list (head * body)) : list Z := concat (render_request <$> l).

(** What the headers say: a length, whether to keep the connection, chunks, the length *)
Definition sum_header (s : bool * bool * bool * Z) (h : header) : bool * bool * bool * Z :=
  let '(kl, ka, ch, cl) := s in
  match h with
  | H_plain _ | H_type _ => s
  | H_length n => (true, ka, ch, n)
  | H_connection v => (kl, ka || starts_ci (str "keep-alive") v, ch, cl)
  | H_chunked => (kl, ka, true, cl)
  end.
Definition summary (q : head) : bool * bool * bool * Z := foldl sum_header (false, false, false, 0) (q_headers q).
Definition body_ok (q : head) (b : body) : Prop :=
  let '(kl, ka, ch, cl) := summary q in
  match b with
  | B_none => ch = false /\ cl = 0
  | B_length d => ch = false /\ cl = zlen d /\ 0 < zlen d
  | B_chunked cs => ch = true /\ kl = false /\ cl = 0 /\ Forall (fun d => d <> []) cs
  end.
Record request_ok (max : Z) (x : head * body) : Prop := {
  ro_head : head_ok x.1;
  ro_header : zlen (render_head x.1) <= SW_BUFFER_SIZE_BIG;
  ro_body : body_ok x.1 x.2;
  ro_length : zlen (render_request x) + (match x.2 with B_chunked _ => 3 * SW_BUFFER_SIZE_BIG | _ => 0 end) <= max;
}.
(** Only the last of the requests that are sent without waiting for answers has a body. *)
Fixpoint pipelined (l : list (head * body)) : Prop := match l with [] | [_] => True | x :: l => x.2 = B_none /\ pipelined l end.

Lemma sum_headers r hs : foldl apply_header r hs =
  let '(kl, ka, ch, cl) := foldl sum_header (known_length r, keep_alive r, chunked r, content_length r) hs in
  set_info r (header_parsed r) kl ka ch (nobody_chunked r) cl (form_data r).
Proof.
  revert r. induction hs as [|h hs IH]; intros r; cbn [foldl]; [by destruct r|]. rewrite IH. destruct h; cbn [apply_header sum_header set_info known_length keep_alive chunked content_length];
    destruct (foldl sum_header _ hs) as [[[kl ka] ch] cl]; reflexivity.
Qed.

Section delivery.
Context `{Allocator}.
Context (max up : Z) (h2 : bool) (base : Z) (sel : Request -> list Z -> bool) (frame : list Z) (onPackage : list Z -> Z * bool).
Hypothesis Hmax : max < 2 ^ 32.
Hypothesis Hbase : 0 <= base < 2 ^ 63.
Hypothesis Hpack : forall p, 0 <= (onPackage p).1 /\ (onPackage p).2 = false.


Ltac http_cbn := cbn [net has_recv_buffer object websocket_status http_upgrade http2_stream responses closed files with_net with_object with_files respond with_recv_buffer
  buffer recv_wait skip_recv removed packets input script with_buffer with_packet with_skip with_env] in *.

(** Where the request stands, with the buffer *)
Definition line_request (q : head) (v uo ul rl : Z) : Request := set_line new_request (q_method q) v uo ul rl.
Definition heading (q : head) (r : Request) (b : Str) : Prop :=
  (r = new_request /\ soff b = 0) \/
  (exists v uo ul rl, r = line_request q v uo ul rl /\ 0 <= soff b <= zlen (render_head q) - 4 /\ 0 <= rl <= zlen (render_line q)).
(** The request once its header is read *)
Definition read_request (q : head) (r : Request) : Request :=
  let r := head_info q (set_header_length r (zlen (render_head q))) in
  set_progress r (tried_to_dispatch r) (multipart_header_parsed r) max (header_length r) (content_length r).
Definition bodied (x : head * body) (r : Request) (b : Str) : Prop :=
  soff b = zlen (render_head x.1) /\ zlen (render_head x.1) <= slen b /\ x.2 <> B_none /\
  exists v uo ul rl, r = set_tried (read_request x.1 (line_request x.1 v uo ul rl)) (zlen (render_head x.1)).
Definition phase (l : list (head * body)) (r : Request) (b : Str) : Prop :=
  match l with [] => r = new_request /\ soff b = 0 | x :: _ => heading x.1 r b \/ bodied x r b end.

Record live (l : list (head * body)) (sent : list (list Z)) (c : HttpConn) : Prop := {
  lv_recv : has_recv_buffer c = true;
  lv_wf : str_wf (buffer (net c));
  lv_size : SW_BUFFER_SIZE_BIG <= ssize (buffer (net c)) <= 2 * SW_BUFFER_SIZE_BIG \/
    exists x, l = [x] /\ SW_BUFFER_SIZE_BIG <= ssize (buffer (net c)) < zlen (render_request x) + SW_BUFFER_SIZE_BIG;
  lv_stream : contents (buffer (net c)) ++ input (net c) = stream l;
  lv_packets : packets (net c) = sent;
  lv_open : removed (net c) = false /\ closed c = false /\ http2_stream c = false /\ websocket_status c < STATUS_HANDSHAKE;
  lv_responses : Forall (fun p => p = CONTINUE_PACKET) (responses c);
  lv_script : Forall benign (script (net c));
}.
Definition resting (l : list (head * body)) (b : Str) : Prop :=
  slen b < ssize b /\ match l with [] => True | x :: _ => slen b < zlen (render_request x) end.

Definition weight (c : HttpConn) : nat := 2 * length (script (net c)) + length (input (net c)) + Z.to_nat (slen (buffer (net c))).
Definition opened (c : HttpConn) : HttpConn := if has_recv_buffer c then c else with_recv_buffer c (alloc SW_BUFFER_SIZE_BIG) true.

(** A turn is good when it leads on to the rest [l2] of the requests, and comes closer to
    the end *)
Definition good (l : list (head * body)) (sent : list (list Z)) (w : nat) (x : http_next) : Prop :=
  exists l1 l2, l = l1 ++ l2 /\
    match x with
    | N_return c => live l2 (sent ++ (render_request <$> l1)) (opened c) /\ resting l2 (buffer (net (opened c))) /\ phase l2 (default new_request (object c)) (buffer (net (opened c)))
    | N_recv c r => live l2 (sent ++ (render_request <$> l1)) c /\ resting l2 (buffer (net c)) /\ phase l2 r (buffer (net c)) /\ (weight c < w)%nat
    | N_parse c r => live l2 (sent ++ (render_request <$> l1)) c /\ l2 <> [] /\ phase l2 r (buffer (net c)) /\ (S (weight c) < w)%nat
    | N_length _ => False
    end.

Definition requests_ok (l : list (head * body)) : Prop := Forall (request_ok max) l /\ pipelined l.

Lemma no_form q r b : heading q r b -> form_data r = None.
Proof. intros [[-> _]|(v & uo & ul & rl & -> & _)]; done. Qed.

Lemma read_request_fields q r : form_data r = None -> known_length r = false -> keep_alive r = false -> chunked r = false -> content_length r = 0 -> nobody_chunked r = false ->
  let '(kl, ka, ch, cl) := summary q in
  let r' := read_request q r in
  form_data r' = None /\ known_length r' = kl /\ chunked r' = ch /\ content_length r' = cl /\ nobody_chunked r' = ch && kl && (cl =? 0) /\ header_length r' = zlen (render_head q) /\
  header_parsed r' = true /\ method r' = method r /\ excepted r' = excepted r /\ tried_to_dispatch r' = tried_to_dispatch r.
Proof.
  intros Hf Hk Hka Hc Hcl Hn. unfold read_request, head_info. rewrite sum_headers. cbn [set_header_length set_progress known_length keep_alive chunked content_length]. rewrite Hk, Hka, Hc, Hcl.
  unfold summary. destruct (foldl sum_header _ _) as [[[kl ka] ch] cl].
  cbn [set_info set_progress set_header_length form_data known_length chunked content_length nobody_chunked header_length header_parsed method excepted tried_to_dispatch]. rewrite Hf, Hn. done.
Qed.

(** A whole request with a body is given to a worker. *)
Lemma finish_ok x sent c r : live [x] sent c -> contents (buffer (net c)) = render_request x -> form_data r = None ->
  exists c', finish false onPackage c r (buffer (net c)) (zlen (render_request x)) = Some (N_return c') /\ live [] (sent ++ [render_request x]) (opened c') /\ object c' = None /\ soff (buffer (net (opened c'))) = 0.
Proof.
  intros Hl Hc Hf. destruct Hl as [Hr Hwf Hsz Hst Hp (Hrm & Hcl & Hh2 & Hws) Hresp Hsc]. pose proof (contents_length _ Hwf) as Hlen. rewrite Hc in Hlen.
  unfold finish. rewrite Hlen, (proj2 (Z.ltb_ge _ _)) by lia. cbn [mem].
  assert (zsub (mem (buffer (net c))) 0 (slen (buffer (net c))) = Some (render_request x)) as ->.
  { rewrite contents_sub by (done || lia). rewrite Hc, drop_0, take_ge by lia. done. }
  cbn [mbind option_bind]. unfold dispatch_request. destruct (Hpack (render_request x)) as [Hp1 Hp2]. destruct (onPackage (render_request x)) as [ret rm]. cbn [fst snd] in *. subst rm.
  rewrite (proj2 (Z.ltb_ge ret 0)) by done. http_cbn. rewrite Hrm. cbn [orb]. unfold destroy_http_request. http_cbn. rewrite Hf. cbn [mbind option_bind]. http_cbn.
  assert (input (net c) = []) as Hin.
  { rewrite Hc in Hst. unfold stream in Hst. cbn [fmap list_fmap concat] in Hst. rewrite app_nil_r in Hst. rewrite <- (app_nil_r (render_request x)) in Hst at 2. by apply app_inv_head in Hst. }
  eexists. split; [done|]. rewrite Hr. cbn [andb ssize].
  destruct (Z.ltb_spec (SW_BUFFER_SIZE_BIG * 2) (ssize (buffer (net c)))) as [Hbig|Hsmall].
  - unfold opened. http_cbn. split; [|done]. destruct (alloc_wf SW_BUFFER_SIZE_BIG) as (Hwf' & Hc' & _); [unfold SW_BUFFER_SIZE_BIG, max_len; lia|].
    split; http_cbn; try done; [left; vm_compute; done|by rewrite Hp].
  - unfold opened. http_cbn. rewrite ?Hr. split; [|done]. destruct (clear_ok (mkStr (mem (buffer (net c))) (slen (buffer (net c))) (ssize (buffer (net c))) (zlen (render_request x)) (sallocator (buffer (net c))))) as [Hwf' Hc'].
    { destruct Hwf as [? ? ? ? Hnull ?]. split; cbn [mem slen ssize soff sallocator]; try done. intros E. lia. }
    split; http_cbn; try done; [left; cbn [ssize clear]; destruct Hsz as [?|(? & _ & ?)]; lia|by rewrite Hp].
Qed.

Lemma expect_loop_total fuel m p pe : 0 <= p -> pe <= zlen m -> pe < 2 ^ 64 -> exists b, expect_loop fuel m p pe = Some b.
Proof.
  intros Hp Hpe Hpe'. revert p Hp. induction fuel as [|fuel IH]; intros p Hp; cbn [expect_loop]; [by eexists|]. destruct (Z.ltb_spec p pe) as [Hlt|]; [|by eexists].
  destruct (zget_in_bounds m p) as [c ->]; [lia|]. cbn [mbind option_bind]. destruct ((c =? CR) && (9 <? pe - p)) eqn:E; [|apply IH; lia]. apply andb_true_iff in E as [_ E%Z.ltb_lt].
  assert (forall q lit, p <= q <= pe -> exists b, istarts_with m q (u64 (pe - q)) lit = Some b /\ (b = true -> q + zlen lit <= pe)) as Hi.
  { intros q lit Hq. unfold istarts_with. rewrite u64_id by lia. destruct (Z.leb_spec (zlen lit) (pe - q)); [|by exists false]. destruct (strncaseeq_total m q lit) as [b Hb]; [lia..|]. exists b. split; [done|lia]. }
  destruct (Hi (p + 2) (str "Expect: ")) as ([] & -> & Hb); [lia| |]; cbn [mbind option_bind].
  - specialize (Hb eq_refl). change (zlen (str "Expect: ")) with 8 in Hb. destruct (Hi (p + 2 + 8) (str "100-continue")) as (b & -> & _); [lia|]. by eexists.
  - apply IH. lia.
Qed.

Lemma extend_ok b n : str_wf b -> 0 < ssize b < n -> n <= max_len -> exists b', extend b n = Some b' /\ resized b b' /\ n <= ssize b' < n + 8.
Proof.
  intros Hwf Hn Hm. pose proof (st_len _ Hwf). unfold extend. rewrite (proj2 (Z.ltb_lt _ _)) by lia. destruct (reserve_ok b n) as (b' & E & Hr & Hge); [done|lia|lia|].
  exists b'. split_and!; [done|done|done|]. unfold reserve in E. rewrite (proj2 (Z.eqb_neq _ 0)) in E by lia. destruct (negb (sallocator b)); [done|]. injection E as <-. cbn [ssize].
  destruct (aligned_bound n) as (-> & _ & _); [lia|]. apply aligned8_spec.
Qed.

Lemma stream_one x : stream [x] = render_request x.
Proof. unfold stream. simpl. by rewrite app_nil_r. Qed.

Lemma live_prefix x l sent c : live (x :: l) sent c -> is_prefix (contents (buffer (net c))) (render_request x ++ stream l).
Proof. intros Hl. unfold is_prefix. pose proof (lv_stream _ _ _ Hl) as E. unfold stream in E |- *. cbn [fmap list_fmap concat] in E. by rewrite <- E, take_app_length. Qed.

(** The same connection with a larger buffer, perhaps with an answer. *)
Lemma live_resize x sent c b p : live [x] sent c -> resized (buffer (net c)) b -> SW_BUFFER_SIZE_BIG <= ssize b <= 2 * SW_BUFFER_SIZE_BIG \/ SW_BUFFER_SIZE_BIG <= ssize b < zlen (render_request x) + SW_BUFFER_SIZE_BIG ->
  Forall (fun p => p = CONTINUE_PACKET) p ->
  live [x] sent (mkHttp (with_buffer (net c) b) (has_recv_buffer c) (object c) (websocket_status c) (http_upgrade c) (http2_stream c) (responses c ++ p) (closed c) (files c)).
Proof.
  intros [Hr Hwf Hsz Hst Hp Hop Hresp Hsc] [Hw Hc Hl Ho] Hs Hf. split; http_cbn; try done.
  - destruct Hs; [by left|right; by eexists].
  - by rewrite Hc.
  - by apply Forall_app.
Qed.

(** Nothing is left to do. *)
Lemma idle_ok sent c : live [] sent c -> soff (buffer (net c)) = 0 -> resting [] (buffer (net c)) /\ phase [] new_request (buffer (net c)).
Proof.
  intros Hl Ho. split; [|by split]. split; [|done]. pose proof (lv_stream _ _ _ Hl) as E. apply app_nil in E as [E _]. pose proof (contents_length _ (lv_wf _ _ _ Hl)) as Hlen. rewrite E in Hlen. simpl in Hlen.
  destruct (lv_size _ _ _ Hl) as [?|(x & ? & _)]; [|done]. unfold SW_BUFFER_SIZE_BIG in *. lia.
Qed.

(** The body of the last request. *)
Lemma with_body_ok x sent c r : request_ok max x -> live [x] sent c -> bodied x r (buffer (net c)) ->
  exists y, with_body max false base onPackage c r (buffer (net c)) = Some y /\ good [x] sent (S (weight c)) y.
Proof.
  intros Hx Hl (Ho & Hhl & Hnb & v & uo & ul & rl & Er). pose proof (read_request_fields x.1 (line_request x.1 v uo ul rl) eq_refl eq_refl eq_refl eq_refl eq_refl eq_refl) as Hf.
  pose proof (ro_body _ _ Hx) as Hb. unfold body_ok in Hb. destruct (summary x.1) as [[[kl ka] ch] cl]. cbn zeta in Hf. destruct Hf as (F1 & F2 & F3 & F4 & F5 & F6 & F7 & F8 & F9 & F10).
  set (r0 := read_request x.1 (line_request x.1 v uo ul rl)) in *. pose proof (lv_wf _ _ _ Hl) as Hwf. pose proof (contents_length _ Hwf) as Hlen. pose proof (live_prefix _ _ _ _ Hl) as Hpre.
  change (stream []) with (@nil Z) in Hpre. rewrite app_nil_r in Hpre. pose proof (ro_length _ _ Hx) as Hlim. pose proof (ro_header _ _ Hx) as Hhead. unfold SW_BUFFER_SIZE_BIG in *.
  assert (form_data r = None) as Hform by (by rewrite Er). assert (zlen (contents (buffer (net c))) <= zlen (render_request x)) as Hle by (rewrite Hpre, length_take; lia).
  assert (zlen (render_request x) = zlen (render_head x.1) + zlen (render_body x.2)) as Hrl by (unfold render_request; rewrite length_app; lia).
  assert (slen (buffer (net c)) = zlen (render_request x) -> contents (buffer (net c)) = render_request x) as Hwhole by (intros E; rewrite Hpre, take_ge; [done|lia]).
  pose proof (st_len _ Hwf) as Hbl. assert (65536 <= ssize (buffer (net c))) as Hbig by (destruct (lv_size _ _ _ Hl) as [?|(? & _ & ?)]; unfold SW_BUFFER_SIZE_BIG in *; lia).
  assert (chunked r = ch) as Hch by (by rewrite Er). assert (header_length r = zlen (render_head x.1)) as Hhd by (by rewrite Er). assert (content_length r = cl) as Hcl by (by rewrite Er).
  unfold with_body. rewrite Hch, Hhd, Hcl. destruct (x.2) as [|d|cs] eqn:Ex; [done|..].
  - destruct Hb as (-> & -> & Hd). cbn [render_body] in Hrl. rewrite u64_id by lia. replace (zlen (render_head x.1) + zlen d) with (zlen (render_request x)) by lia. rewrite (proj2 (Z.ltb_ge _ _)) by lia.
    assert (exists b', (if ssize (buffer (net c)) <? zlen (render_request x) then extend (buffer (net c)) (zlen (render_request x)) else Some (buffer (net c))) = Some b' /\
      resized (buffer (net c)) b' /\ zlen (render_request x) <= ssize b' /\ (b' = buffer (net c) \/ slen (buffer (net c)) < zlen (render_request x) /\ 65536 <= ssize b' < zlen (render_request x) + 8)) as (b' & -> & Hres & Hge & Hor).
    { destruct (Z.ltb_spec (ssize (buffer (net c))) (zlen (render_request x))) as [Hlt|].
      - destruct (extend_ok (buffer (net c)) (zlen (render_request x))) as (b' & E & Hr & Hs); [done|lia|unfold max_len; lia|]. exists b'. split_and!; [done|done|lia|right; lia].
      - exists (buffer (net c)). split_and!; [done|by apply resized_refl|done|by left]. }
    cbn [mbind option_bind]. pose proof Hres as [Hw' Hc' Hl' Ho']. rewrite Hl'. destruct (Z.ltb_spec (slen (buffer (net c))) (zlen (render_request x))) as [Hmore|Hall].
    + destruct (expect_loop_total (S (Z.to_nat (slen b'))) (mem b') 0 (slen b')) as [e He]; [lia|pose proof (st_mem _ Hw'); pose proof (st_len _ Hw'); lia|pose proof (st_size _ Hw'); pose proof (st_len _ Hw'); lia|].
      unfold has_expect_header. rewrite He. cbn [mbind option_bind]. eexists. split; [done|]. exists [], [x]. split; [done|].
      pose proof (live_resize x sent c b' (if e then [CONTINUE_PACKET] else []) Hl Hres) as Hlive.
      assert ((if e then respond c CONTINUE_PACKET else c) = mkHttp (net c) (has_recv_buffer c) (object c) (websocket_status c) (http_upgrade c) (http2_stream c) (responses c ++ (if e then [CONTINUE_PACKET] else [])) (closed c) (files c)) as ->
        by (destruct e; [done|destruct c; http_cbn; by rewrite app_nil_r]).
      cbn [fmap list_fmap]. rewrite app_nil_r. split_and!.
      * apply Hlive; [|destruct e; by repeat constructor]. unfold SW_BUFFER_SIZE_BIG. destruct Hor as [->|?]; [|right; lia]. destruct (lv_size _ _ _ Hl) as [?|(x' & [= <-] & ?)]; unfold SW_BUFFER_SIZE_BIG in *; [left; lia|right; lia].
      * split; http_cbn; lia.
      * http_cbn. right. split_and!; [by rewrite Ho'|lia|by rewrite Ex|]. by exists v, uo, ul, rl.
      * unfold weight. http_cbn. lia.
    + destruct Hor as [->|?]; [|lia]. destruct (finish_ok x sent c r Hl) as (c' & -> & Hlive & Hobj & Hoff); [apply Hwhole; lia|done|]. eexists. split; [done|].
      exists [x], []. split; [done|]. rewrite Hobj. cbn [default]. split; [done|]. by apply (idle_ok _ _ Hlive).
  - destruct Hb as (-> & -> & -> & Hcs). cbn [render_body] in Hrl.
    rewrite (get_chunked_body_length_ok base ltac:(lia) cs r (buffer (net c)) (render_head x.1)); try done; [|by rewrite <- Ex in *; unfold render_request in Hpre; rewrite Ex in Hpre|lia].
    cbn [mbind option_bind]. rewrite <- Hrl. destruct (Z.ltb_spec (slen (buffer (net c))) (zlen (render_request x))) as [Hmore|Hall]; cbn [mbind option_bind].
    + change (SW_ERR <? 0) with true. cbv iota. assert (excepted r = false) as -> by (by rewrite Er). unfold SW_BUFFER_SIZE_BIG.
      assert (ssize (buffer (net c)) <= 2 * 65536 \/ ssize (buffer (net c)) < zlen (render_request x) + 65536) as Hs
        by (destruct (lv_size _ _ _ Hl) as [?|(x' & [= <-] & ?)]; unfold SW_BUFFER_SIZE_BIG in *; [left; lia|right; lia]).
      rewrite (proj2 (Z.ltb_ge _ _)) by lia.
      assert (exists b', (if slen (buffer (net c)) =? ssize (buffer (net c)) then extend (buffer (net c)) (ssize (buffer (net c)) + 65536) else Some (buffer (net c))) = Some b' /\
        resized (buffer (net c)) b' /\ slen b' < ssize b' /\ (SW_BUFFER_SIZE_BIG <= ssize b' <= 2 * SW_BUFFER_SIZE_BIG \/ SW_BUFFER_SIZE_BIG <= ssize b' < zlen (render_request x) + SW_BUFFER_SIZE_BIG)) as (b' & -> & Hres & Hlt & Hs').
      { unfold SW_BUFFER_SIZE_BIG. destruct (Z.eqb_spec (slen (buffer (net c))) (ssize (buffer (net c)))) as [Heq|Hne].
        - destruct (extend_ok (buffer (net c)) (ssize (buffer (net c)) + 65536)) as (b' & E & Hr & Hs2); [done|lia|unfold max_len; lia|]. exists b'. pose proof (rz_len _ _ Hr). split_and!; [done|done|lia|]. right.
          pose proof (st_align _ Hwf) as [q1 Hq1]. pose proof (st_align _ (rz_wf _ _ Hr)) as [q2 Hq2]. lia.
        - exists (buffer (net c)). split_and!; [done|by apply resized_refl|lia|]. destruct Hs; [left; lia|right; lia]. }
      cbn [mbind option_bind]. eexists. split; [done|]. exists [], [x]. split; [done|]. cbn [fmap list_fmap]. rewrite app_nil_r.
      pose proof (live_resize x sent c b' [] Hl Hres Hs' ltac:(constructor)) as Hlive. rewrite app_nil_r in Hlive. pose proof Hres as [Hw' Hc' Hl' Ho']. split_and!; [done| | |].
      * split; http_cbn; lia.
      * http_cbn. right. split_and!; [by rewrite Ho'|lia|by rewrite Ex|]. by exists v, uo, ul, rl.
      * unfold weight. http_cbn. lia.
    + change (SW_OK <? 0) with false. cbv iota. cbn [set_info header_length content_length]. rewrite Hhd, u64_id by lia. rewrite <- Hrl.
      destruct (finish_ok x sent c (set_info r (header_parsed r) true (keep_alive r) (chunked r) (nobody_chunked r) (zlen (render_chunks cs)) (form_data r)) Hl) as (c' & E & Hlive & Hobj & Hoff); [apply Hwhole; lia|done|].
      rewrite Hch in E. rewrite Hch. rewrite E. eexists. split; [done|]. exists [x], []. split; [done|]. rewrite Hobj. cbn [default]. split; [done|]. by apply (idle_ok _ _ Hlive).
Qed.

Lemma stream_cons x l : stream (x :: l) = render_request x ++ stream l.
Proof. done. Qed.

Lemma with_offset_ok b o : str_wf b -> 0 < ssize b -> str_wf (with_offset b o) /\ contents (with_offset b o) = contents b.
Proof. intros [? ? ? ? Hn ?] Hs. split; [|done]. split; cbn [with_offset mem slen ssize soff sallocator]; try done. lia. Qed.

Lemma live_head x l sent c : live (x :: l) sent c -> zlen (render_request x) <= slen (buffer (net c)) ->
  exists rest, contents (buffer (net c)) = render_request x ++ rest /\ rest ++ input (net c) = stream l.
Proof.
  intros Hl Hle. pose proof (lv_stream _ _ _ Hl) as E. pose proof (contents_length _ (lv_wf _ _ _ Hl)) as Hlen. rewrite stream_cons in E.
  exists (drop (length (render_request x)) (contents (buffer (net c)))). assert (take (length (render_request x)) (contents (buffer (net c))) = render_request x) as Et.
  { apply (f_equal (take (length (render_request x)))) in E. by rewrite take_app_length, take_app_le in E by lia. }
  rewrite <- Et at 1. rewrite take_drop. split; [done|]. apply (f_equal (drop (length (render_request x)))) in E. by rewrite drop_app_length, drop_app_le in E by lia.
Qed.

Lemma head_long q : head_ok q -> 16 <= zlen (render_head q).
Proof.
  intros Hq. unfold render_head, head_lines. rewrite render_lines_cons, length_app. pose proof (render_line_length q). pose proof (method_name_length q Hq). destruct (ho_url q Hq) as [Hu _].
  destruct (q_url q); [done|]. cbn [length] in *. rewrite length_app. pose proof (render_lines_length (render_hdr <$> q_headers q)). simpl. lia.
Qed.

(** A request without a body goes to a worker, and the next one is looked at. *)
Lemma no_body_ok x l sent c r : request_ok max x -> Forall (request_ok max) l -> x.2 = B_none -> live (x :: l) sent c -> header_length r = zlen (render_head x.1) -> zlen (render_head x.1) <= slen (buffer (net c)) -> form_data r = None ->
  exists y, no_body false false sel onPackage c r (buffer (net c)) = Some y /\ good (x :: l) sent (S (weight c)) y.
Proof.
  intros Hx Hlok Hnb Hl Hh Hle Hf. pose proof Hl as [Hr Hwf Hsz Hst Hp (Hrm & Hcl & Hh2 & Hws) Hresp Hsc]. pose proof (contents_length _ Hwf) as Hlen. pose proof (head_long _ (ro_head _ _ Hx)) as H16.
  assert (render_request x = render_head x.1) as Erq by (unfold render_request; rewrite Hnb; cbn [render_body]; by rewrite app_nil_r).
  destruct (live_head x l sent c Hl ltac:(by rewrite Erq)) as (rest & Ec & Erest). rewrite Erq in Ec.
  assert (SW_BUFFER_SIZE_BIG <= ssize (buffer (net c)) <= 2 * SW_BUFFER_SIZE_BIG) as Hsize.
  { destruct Hsz as [?|(x' & [= <- ->] & Hs)]; [done|]. rewrite Erq in Hs. pose proof (ro_header _ _ Hx). lia. }
  unfold no_body. rewrite Hh. cbn [andb mem with_offset slen ssize sallocator].
  assert (zsub (mem (buffer (net c))) 0 (zlen (render_head x.1)) = Some (render_head x.1)) as -> by (rewrite contents_sub, drop_0, Ec, Nat2Z.id, take_app_length by (done || lia); done).
  cbn [mbind option_bind]. unfold dispatch_request. destruct (Hpack (render_head x.1)) as [Hp1 Hp2]. destruct (onPackage (render_head x.1)) as [ret rm]. cbn [fst snd] in *. subst rm.
  rewrite (proj2 (Z.ltb_ge ret 0)) by done. http_cbn. rewrite Hrm. cbn [orb]. destruct (with_offset_ok (buffer (net c)) (zlen (render_head x.1)) Hwf) as [Hwo Hco]; [unfold SW_BUFFER_SIZE_BIG in *; lia|].
  destruct (Z.ltb_spec (zlen (render_head x.1)) (slen (buffer (net c)))) as [Hmore|Hend].
  - destruct (reduce_ok (with_offset (buffer (net c)) (zlen (render_head x.1))) (zlen (render_head x.1)) Hwo) as (b' & Hred & Hwb & Hcb & Hsb & Hob & Hlb); [cbn [with_offset slen]; lia|].
    rewrite Hred. cbn [mbind option_bind]. eexists. split; [done|]. exists [x], l. split; [done|]. cbn [ssize slen with_offset] in *.
    rewrite (proj2 (Z.eqb_neq _ 0)) in Hob by lia. rewrite Hco, Ec, Nat2Z.id, drop_app_length in Hcb. assert (l <> []) as Hne.
    { intros ->. change (stream []) with (@nil Z) in Erest. apply app_nil in Erest as [-> _]. rewrite app_nil_r in Ec. rewrite Ec in Hlen. lia. }
    split_and!.
    + split; http_cbn; try done; [left; by rewrite Hsb|by rewrite Hcb|rewrite Hp; cbn [fmap list_fmap]; by rewrite Erq].
    + done.
    + destruct l as [|x' l']; [done|]. left. left. split; [|done]. unfold clean. by rewrite Hf.
    + unfold weight. http_cbn. rewrite Hlb. lia.
  - unfold destroy_http_request. http_cbn. rewrite Hf. cbn [mbind option_bind]. http_cbn. eexists. split; [done|]. exists [x], l. split; [done|].
    assert (rest = []) as -> by (assert (length rest = 0)%nat by (apply (f_equal length) in Ec; rewrite length_app in Ec; lia); by destruct rest).
    destruct (clear_ok _ Hwo) as [Hwc Hcc]. unfold opened. http_cbn. rewrite Hr. http_cbn. split_and!.
    + split; http_cbn; try done; [by left|rewrite Hp; cbn [fmap list_fmap]; by rewrite Erq].
    + split; [cbn [clear with_offset slen ssize]; unfold SW_BUFFER_SIZE_BIG in *; lia|]. destruct l as [|x' l']; [done|]. inversion Hlok as [|? ? Hx' _]; subst.
      pose proof (head_long _ (ro_head _ _ Hx')). unfold render_request. rewrite length_app. cbn [clear with_offset slen]. lia.
    + cbn [default]. destruct l as [|x' l']; [done|]. left. left. done.
Qed.

#[local] Abbreviation go_after_form := (after_form max false false base sel onPackage).
#[local] Abbreviation go_header_part := (header_part max up false false base sel onPackage).

Lemma pipelined_last x l : pipelined (x :: l) -> x.2 <> B_none -> l = [].
Proof. destruct l as [|y l]; [done|]. intros [E _] Hne. done. Qed.

Lemma live_offset l sent c o : live l sent c -> live l sent (with_recv_buffer c (with_offset (buffer (net c)) o) (has_recv_buffer c)).
Proof.
  intros [Hr Hwf Hsz Hst Hp Hop Hresp Hsc]. assert (0 < ssize (buffer (net c))) as Hpos by (destruct Hsz as [?|(? & _ & ?)]; unfold SW_BUFFER_SIZE_BIG in *; lia).
  destruct (with_offset_ok _ o Hwf Hpos) as [Hw Hc]. split; http_cbn; try done.
Qed.

(** The header has just been read. *)
Lemma header_read_ok x l sent c v uo ul rl : requests_ok (x :: l) -> live (x :: l) sent c -> soff (buffer (net c)) = zlen (render_head x.1) -> zlen (render_head x.1) <= slen (buffer (net c)) ->
  exists y, go_after_form c (read_request x.1 (line_request x.1 v uo ul rl)) = Some y /\ good (x :: l) sent (S (weight c)) y.
Proof.
  intros [Hok Hpl] Hl Ho Hle. apply Forall_cons in Hok as [Hx Hlok].
  pose proof (read_request_fields x.1 (line_request x.1 v uo ul rl) eq_refl eq_refl eq_refl eq_refl eq_refl eq_refl) as Hf. pose proof (ro_body _ _ Hx) as Hb. unfold body_ok in Hb.
  destruct (summary x.1) as [[[kl ka] ch] cl]. cbn zeta in Hf. destruct Hf as (F1 & F2 & F3 & F4 & F5 & F6 & F7 & F8 & F9 & F10).
  set (r0 := read_request x.1 (line_request x.1 v uo ul rl)) in *. unfold after_form, buffer_. rewrite F1, F10, F5. cbn [line_request set_line new_request tried_to_dispatch].
  set (r1 := set_tried r0 _). destruct (x.2) as [|d|cs] eqn:Ex.
  - destruct Hb as [-> ->]. cbn [andb]. change (content_length r1) with (content_length r0). change (known_length r1) with (known_length r0). change (chunked r1) with (chunked r0). rewrite F4, F3, orb_true_r. cbn [Z.eqb andb].
    apply no_body_ok; try done.
  - destruct Hb as (-> & -> & Hd). cbn [andb] in *. change (content_length r1) with (content_length r0). rewrite F4, (proj2 (Z.eqb_neq _ 0)) by lia. cbn [andb].
    assert (l = []) as -> by (apply (pipelined_last x); [done|by rewrite Ex]). apply with_body_ok; [done|done|]. split_and!; [done|done|by rewrite Ex|]. exists v, uo, ul, rl. unfold r1. by rewrite F6.
  - destruct Hb as (-> & -> & -> & Hcs). cbn [andb] in *. change (content_length r1) with (content_length r0). change (known_length r1) with (known_length r0). change (chunked r1) with (chunked r0). rewrite F4, F2, F3. cbn [Z.eqb orb negb andb].
    assert (l = []) as -> by (apply (pipelined_last x); [done|by rewrite Ex]). apply with_body_ok; [done|done|]. split_and!; [done|done|by rewrite Ex|]. exists v, uo, ul, rl. unfold r1. by rewrite F6.
Qed.

Lemma stream_lines x l : render_request x ++ stream l = render_head x.1 ++ render_body x.2 ++ stream l.
Proof. unfold render_request. by rewrite <- app_assoc. Qed.

Lemma header_part_ok x l sent c r : requests_ok (x :: l) -> live (x :: l) sent c ->
  (exists v uo ul rl, r = line_request x.1 v uo ul rl /\ 0 <= soff (buffer (net c)) <= zlen (render_head x.1) - 4 /\ 0 <= rl <= zlen (render_line x.1)) \/ bodied x r (buffer (net c)) ->
  exists y, go_header_part c r = Some y /\ good (x :: l) sent (S (weight c)) y.
Proof.
  intros Hok Hl Hph. pose proof Hok as [Hokl Hpl]. apply Forall_cons in Hokl as [Hx Hlok]. pose proof (lv_wf _ _ _ Hl) as Hwf. pose proof (head_long _ (ro_head _ _ Hx)) as H16.
  pose proof (live_prefix _ _ _ _ Hl) as Hpre. rewrite stream_lines in Hpre. pose proof (ro_header _ _ Hx) as Hhd.
  assert (SW_BUFFER_SIZE_BIG <= ssize (buffer (net c))) as Hbig by (destruct (lv_size _ _ _ Hl) as [?|(? & _ & ?)]; lia).
  destruct Hph as [(v & uo & ul & rl & -> & Ho & Hrl)|Hbod].
  - set (r0 := line_request x.1 v uo ul rl) in *. assert (form_data r0 = None) as Ef by done. assert (header_length r0 = 0) as Eh by done. assert (header_parsed r0 = false) as Ep by done.
    assert (request_line_length r0 = rl) as Erl by done. pose proof (read_request_fields x.1 r0 eq_refl eq_refl eq_refl eq_refl eq_refl eq_refl) as Hf.
    unfold header_part, buffer_. rewrite Ef, Eh. cbn [Z.eqb]. destruct (get_header_length_ok (head_lines x.1) r0 (buffer (net c)) (render_body x.2 ++ stream l)) as (off & Hg & Hoff);
      [apply head_lines_ok, (ro_head _ _ Hx)|done|done|done|done|]. fold (render_head x.1) in Hg, Hoff. rewrite Hg. cbn [mbind option_bind].
    destruct (Z.ltb_spec (slen (buffer (net c))) (zlen (render_head x.1))) as [Hmore|Hall].
    + cbn [mbind option_bind]. unfold put_buffer. rewrite ?Ef. cbn [mbind option_bind]. rewrite ?Ef. change (SW_ERR <? 0) with true. cbv iota. http_cbn. cbn [with_offset ssize slen]. rewrite (proj2 (Z.eqb_neq _ _)) by lia. eexists. split; [done|].
      exists [], (x :: l). split; [done|]. cbn [fmap list_fmap]. rewrite app_nil_r. split_and!; [by apply live_offset| | |unfold weight; http_cbn; cbn [with_offset slen]; lia].
      * split; http_cbn; cbn [with_offset slen ssize]; [lia|]. unfold render_request. rewrite length_app. lia.
      * left. right. exists v, uo, ul, rl. http_cbn. done.
    + cbn [mbind option_bind]. set (r1 := set_header_length r0 (zlen (render_head x.1))). assert (form_data r1 = None) as Ef1 by done. unfold put_buffer. rewrite ?Ef1. cbn [mbind option_bind]. rewrite ?Ef1. change (SW_OK <? 0) with false. cbv iota.
      change (header_parsed r1) with (header_parsed r0). rewrite Ep. http_cbn. destruct (with_offset_ok (buffer (net c)) (zlen (render_head x.1)) Hwf) as [Hwo Hco]; [unfold SW_BUFFER_SIZE_BIG in *; lia|].
      rewrite (parse_header_info_ok x.1 r1 _ (render_body x.2 ++ stream l)); [|apply (ro_head _ _ Hx)|done|by rewrite Hco|exact Hall|done|exact Hrl]. cbn [mbind option_bind].
      change (set_progress (head_info x.1 r1) _ _ max _ _) with (read_request x.1 r0). destruct (summary x.1) as [[[kl ka] ch] cl]. cbn zeta in Hf. destruct Hf as (F1 & _). rewrite F1.
      unfold form_part. rewrite F1. apply (header_read_ok x l sent (with_recv_buffer c (with_offset (buffer (net c)) (zlen (render_head x.1))) (has_recv_buffer c))); [done|by apply live_offset|done|done].
  - pose proof Hbod as (Hso & Hhl & Hnb & v & uo & ul & rl & Er). pose proof (read_request_fields x.1 (line_request x.1 v uo ul rl) eq_refl eq_refl eq_refl eq_refl eq_refl eq_refl) as Hf.
    destruct (summary x.1) as [[[kl ka] ch] cl]. cbn zeta in Hf. destruct Hf as (F1 & F2 & F3 & F4 & F5 & F6 & F7 & F8 & F9 & F10). unfold header_part, buffer_.
    assert (header_length r = zlen (render_head x.1)) as Eh by (by rewrite Er). assert (form_data r = None) as Ef by (by rewrite Er). rewrite Eh, Ef, (proj2 (Z.eqb_neq _ 0)) by lia. cbn [mbind option_bind].
    rewrite Ef. change (SW_OK <? 0) with false. cbv iota. assert (header_parsed r = true) as -> by (by rewrite Er). unfold form_part. rewrite Ef. unfold after_form, buffer_. rewrite Ef.
    assert (tried_to_dispatch r = true) as -> by (by rewrite Er). assert (l = []) as -> by (by apply (pipelined_last x)). by apply with_body_ok.
Qed.

#[local] Abbreviation go_parse := (parse max up h2 false false base sel frame onPackage).
#[local] Abbreviation go_loop := (http_loop max up h2 false false base sel frame onPackage).

Lemma parse_ok x l sent c r : requests_ok (x :: l) -> live (x :: l) sent c -> phase (x :: l) r (buffer (net c)) ->
  exists y, go_parse c r = Some y /\ good (x :: l) sent (S (weight c)) y.
Proof.
  intros Hok Hl Hph. pose proof Hok as [Hokl _]. apply Forall_cons in Hokl as [Hx _]. pose proof (ro_head _ _ Hx) as Hq. pose proof (ho_method _ Hq) as Hmeth. unfold SW_HTTP_PRI in Hmeth.
  pose proof (lv_wf _ _ _ Hl) as Hwf. pose proof (head_long _ Hq) as H16. pose proof (ro_header _ _ Hx) as Hhd. unfold SW_BUFFER_SIZE_BIG in Hhd.
  assert (65536 <= ssize (buffer (net c))) as Hbig by (destruct (lv_size _ _ _ Hl) as [?|(? & _ & ?)]; unfold SW_BUFFER_SIZE_BIG in *; lia).
  assert ((SW_HTTP_PRI <? q_method x.1) = false) as Hm1 by (apply Z.ltb_ge; unfold SW_HTTP_PRI; lia). assert ((q_method x.1 =? SW_HTTP_PRI) = false) as Hm2 by (apply Z.eqb_neq; unfold SW_HTTP_PRI; lia).
  assert (zlen (render_line x.1) + 4 <= zlen (render_head x.1)) as Hline
    by (pose proof (render_lines_length (render_hdr <$> q_headers x.1)); unfold render_head, head_lines; rewrite render_lines_cons, !length_app; change (length CRLF) with 2%nat; lia).
  assert (forall r, heading x.1 r (buffer (net c)) -> slen (buffer (net c)) < zlen (render_head x.1) -> good (x :: l) sent (S (weight c)) (N_return (with_object c (Some r)))) as Hwait.
  { intros r' Hr' Hlt. exists [], (x :: l). split; [done|]. cbn [fmap list_fmap]. rewrite app_nil_r. unfold opened. http_cbn. rewrite (lv_recv _ _ _ Hl). http_cbn. split_and!.
    - destruct Hl. by split.
    - split; http_cbn; [lia|]. unfold render_request. rewrite length_app. lia.
    - cbn [default]. by left. }
  unfold parse, buffer_. destruct Hph as [[[-> Ho]|(v & uo & ul & rl & -> & Ho & Hrl)]|Hbod].
  - assert (form_data new_request = None) as Ef0 by done. rewrite Ef0. change (method new_request =? 0) with true. cbv iota. unfold put_buffer. destruct (Z.ltb_spec (slen (buffer (net c))) 16) as [Hshort|Hlong].
    + unfold get_protocol. rewrite (proj2 (Z.ltb_lt _ _)) by done. cbn [mbind option_bind]. rewrite ?Ef0. cbn [mbind option_bind]. rewrite ?Ef0. change (SW_ERR <? 0) with true. cbv iota. change (excepted new_request) with false. cbn [negb andb]. http_cbn.
      rewrite (proj2 (Z.ltb_lt _ SW_HTTP_HEADER_MAX_SIZE)) by (unfold SW_HTTP_HEADER_MAX_SIZE; lia).
      replace (with_recv_buffer c (buffer (net c)) (has_recv_buffer c)) with c by (destruct c as [[]]; done). eexists. split; [done|]. apply Hwait; [by left|lia].
    + pose proof (live_prefix _ _ _ _ Hl) as Hpre. rewrite stream_lines in Hpre. unfold render_head, head_lines in Hpre. rewrite render_lines_cons, <- !app_assoc in Hpre.
      destruct (get_protocol_ok x.1 new_request (buffer (net c)) _ Hq Hwf Hlong Hpre) as (r' & b' & ret & Hg & [(v & uo & ul & rl & Er & _) Hret Hwhole]). rewrite Hg. cbn [mbind option_bind].
      assert (form_data r' = None) as Ef by (by rewrite Er). rewrite ?Ef. cbn [mbind option_bind]. rewrite ?Ef. http_cbn.
      assert (request_line_length r' = rl) as Erl by (by rewrite Er). rewrite Erl in *.
      destruct Hret as [(-> & -> & Hrl)|(-> & -> & Hrl)].
      * change (SW_OK <? 0) with false. cbv iota. assert (method r' = q_method x.1) as -> by (by rewrite Er). rewrite Hm1, Hm2.
        apply (header_part_ok x l sent (with_recv_buffer c (with_offset (buffer (net c)) rl) (has_recv_buffer c))); [done|by apply live_offset|].
        left. exists v, uo, ul, rl. http_cbn. cbn [with_offset soff]. split_and!; done || lia.
      * change (SW_ERR <? 0) with true. cbv iota. assert (excepted r' = false) as -> by (by rewrite Er). cbn [negb andb].
        assert (slen (buffer (net c)) < zlen (render_line x.1)) as Hlt by (destruct (Z.lt_ge_cases (slen (buffer (net c))) (zlen (render_line x.1))) as [|Hge]; [done|]; by destruct (Hwhole Hge)).
        rewrite (proj2 (Z.ltb_lt _ SW_HTTP_HEADER_MAX_SIZE)) by (unfold SW_HTTP_HEADER_MAX_SIZE; lia).
        replace (with_recv_buffer c (buffer (net c)) (has_recv_buffer c)) with c by (destruct c as [[]]; done). eexists. split; [done|]. apply Hwait; [|lia].
        right. exists v, uo, ul, rl. rewrite Ho. split_and!; [done|lia|lia|cbn in Hrl; lia|cbn in Hrl; lia].
  - change (method (line_request x.1 v uo ul rl)) with (q_method x.1). rewrite (proj2 (Z.eqb_neq _ 0)) by lia. cbn [mbind option_bind]. change (SW_OK <? 0) with false. cbv iota.
    change (method (line_request x.1 v uo ul rl)) with (q_method x.1). rewrite Hm1, Hm2. apply header_part_ok; [done|done|]. left. by exists v, uo, ul, rl.
  - pose proof Hbod as (Hso & Hhl & Hnb & v & uo & ul & rl & Er). pose proof (read_request_fields x.1 (line_request x.1 v uo ul rl) eq_refl eq_refl eq_refl eq_refl eq_refl eq_refl) as Hf.
    destruct (summary x.1) as [[[kl ka] ch] cl]. cbn zeta in Hf. destruct Hf as (F1 & F2 & F3 & F4 & F5 & F6 & F7 & F8 & F9 & F10).
    assert (method r = q_method x.1) as Em by (by rewrite Er). rewrite Em, (proj2 (Z.eqb_neq _ 0)) by lia. cbn [mbind option_bind]. change (SW_OK <? 0) with false. cbv iota.
    rewrite Em, Hm1, Hm2. apply header_part_ok; [done|done|]. by right.
Qed.

Lemma phase_no_form l r b : phase l r b -> form_data r = None.
Proof.
  destruct l as [|x l]; [by intros [-> _]|]. intros [[[-> _]|(v & uo & ul & rl & -> & _)]|(_ & _ & _ & v & uo & ul & rl & ->)]; [done..|].
  pose proof (read_request_fields x.1 (line_request x.1 v uo ul rl) eq_refl eq_refl eq_refl eq_refl eq_refl eq_refl) as Hf. destruct (summary x.1) as [[[kl ka] ch] cl]. by destruct Hf.
Qed.

Lemma phase_store l r b b' : phase l r b -> soff b' = soff b -> slen b <= slen b' -> phase l r b'.
Proof.
  intros Hph Ho Hl. destruct l as [|x l]; [destruct Hph as [-> E]; split; [done|by rewrite Ho]|]. destruct Hph as [[[-> E]|(v & uo & ul & rl & -> & E & Hrl)]|(E & Hh & Hn & Hex)].
  - left. left. by rewrite Ho.
  - left. right. exists v, uo, ul, rl. by rewrite Ho.
  - right. split_and!; [by rewrite Ho|lia|done|done].
Qed.

Lemma recv_data_ok l sent c r : live l sent c -> resting l (buffer (net c)) -> phase l r (buffer (net c)) -> exists y, recv_data c r = Some y /\ good l sent (weight c) y.
Proof.
  intros Hl [Hroom Hrest] Hph. pose proof Hl as [Hr Hwf Hsz Hst Hp Hop Hresp Hsc]. pose proof (phase_no_form _ _ _ Hph) as Hf. unfold recv_data, buffer_. rewrite Hf.
  destruct (recv_cases (net c) (ssize (buffer (net c)) - slen (buffer (net c))) ltac:(lia) Hsc) as [(n & -> & E1 & E2 & E3 & E4 & E5 & E6 & E7)|(d & i & sc & -> & Hd & Hdl & Hin & Hsc' & Hlen)].
  - cbn [catch_error mbind option_bind]. eexists. split; [done|]. exists [], l. split; [done|]. cbn [fmap list_fmap]. rewrite app_nil_r. unfold opened. http_cbn. rewrite Hr. http_cbn. rewrite E1. split_and!.
    + split; http_cbn; try done; rewrite ?E1, ?E2, ?E3, ?E4; done.
    + done.
    + done.
  - destruct d as [|d0 d]; [done|]. destruct (store_ok (buffer (net c)) (d0 :: d) Hwf) as (b' & -> & Hw' & Hc' & Ho' & Hl' & Hs'); [lia|]. cbn [mbind option_bind]. unfold put_buffer. rewrite Hf. eexists. split; [done|].
    exists [], l. split; [done|]. cbn [fmap list_fmap]. rewrite app_nil_r. http_cbn. split_and!.
    + split; http_cbn; try done; [by rewrite Hs'|]. rewrite Hc', <- app_assoc. by rewrite Hin.
    + intros ->. change (stream []) with (@nil Z) in Hst. apply app_nil in Hst as [_ Hst]. rewrite Hst in Hin. done.
    + apply (phase_store _ _ (buffer (net c))); [done|done|cbn [length] in *; lia].
    + unfold weight. http_cbn. apply (f_equal length) in Hin. rewrite length_app in Hin. lia.
Qed.

Lemma requests_ok_suffix l1 l2 : requests_ok (l1 ++ l2) -> requests_ok l2.
Proof.
  intros [Hf Hp]. apply Forall_app in Hf as [_ Hf]. split; [done|]. induction l1 as [|x l1 IH]; [done|]. apply IH. cbn [app] in Hp. destruct (l1 ++ l2) as [|y l]; [done|]. by destruct Hp.
Qed.

Lemma good_trans l sent w x l1 l2 w' : l = l1 ++ l2 -> good l2 (sent ++ (render_request <$> l1)) w' x -> (w' <= w)%nat -> good l sent w x.
Proof.
  intros -> (m1 & m2 & -> & Hx) Hw. exists (l1 ++ m1), m2. split; [by rewrite app_assoc|]. rewrite fmap_app, app_assoc.
  destruct x as [c|c r|c r|c]; [done| | |done]; destruct Hx as (K1 & K2 & K3 & K4); (split_and!; [done|done|done|lia]).
Qed.

(** The loop ends, by returning to the reactor. *)
Lemma http_loop_ok fuel l sent w x : requests_ok l -> good l sent w x -> (w <= fuel)%nat -> exists c, go_loop fuel x = Some (N_return c) /\ good l sent w (N_return c).
Proof.
  revert l sent w x. induction fuel as [|fuel IH]; intros l sent w x Hok Hg Hw.
  { destruct Hg as (l1 & l2 & -> & Hx). destruct x as [c|c r|c r|c]; [exists c; split; [done|by exists l1, l2]|destruct Hx as (_ & _ & _ & ?); lia|destruct Hx as (_ & _ & _ & ?); lia|done]. }
  destruct Hg as (l1 & l2 & El & Hx). assert (requests_ok l2) as Hok2 by (subst; by eapply requests_ok_suffix). destruct x as [c|c r|c r|c].
  - exists c. split; [done|by exists l1, l2].
  - destruct Hx as (Hl & Hrest & Hph & Hwc). destruct (recv_data_ok l2 _ c r Hl Hrest Hph) as (y & E & Hy). cbn [http_loop]. rewrite E. cbn [mbind option_bind].
    destruct (IH l2 _ (weight c) y Hok2 Hy ltac:(lia)) as (c' & -> & Hc'). exists c'. split; [done|]. by eapply good_trans; [done|exact Hc'|lia].
  - destruct Hx as (Hl & Hne & Hph & Hwc). destruct l2 as [|x l2]; [done|]. destruct (parse_ok x l2 _ c r Hok2 Hl Hph) as (y & E & Hy). cbn [http_loop]. rewrite E. cbn [mbind option_bind].
    destruct (IH (x :: l2) _ (S (weight c)) y Hok2 Hy ltac:(lia)) as (c' & -> & Hc'). exists c'. split; [done|]. by eapply good_trans; [done|exact Hc'|lia].
  - done.
Qed.

#[local] Abbreviation go_callback := (readable_callback_http max up h2 false false base sel frame onPackage).
#[local] Abbreviation go_events := (http_events max up h2 false false base sel frame onPackage).

(** What holds between the events. *)
Definition between (l : list (head * body)) (sent : list (list Z)) (c : HttpConn) : Prop :=
  live l sent (opened c) /\ resting l (buffer (net (opened c))) /\ phase l (default new_request (object c)) (buffer (net (opened c))).

Lemma live_object l sent c o : live l sent c -> live l sent (with_object c o).
Proof. intros []. by split. Qed.

Lemma http_callback_ok l sent c : requests_ok l -> between l sent c -> exists c' l1 l2, go_callback c = Some (N_return c') /\ l = l1 ++ l2 /\ between l2 (sent ++ (render_request <$> l1)) c'.
Proof.
  intros Hok (Hl & Hrest & Hph). destruct (lv_open _ _ _ Hl) as (_ & _ & Hh2 & Hws). unfold readable_callback_http.
  assert (websocket_status (opened c) = websocket_status c) as Ew by (unfold opened; by destruct (has_recv_buffer c)). assert (http2_stream (opened c) = http2_stream c) as E2 by (unfold opened; by destruct (has_recv_buffer c)).
  rewrite (proj2 (Z.leb_gt _ _)) by lia. rewrite <- E2, Hh2. set (r := default new_request (object c)) in *.
  assert ((if has_recv_buffer (with_object c (Some r)) then with_object c (Some r) else with_recv_buffer (with_object c (Some r)) (alloc SW_BUFFER_SIZE_BIG) true) = with_object (opened c) (Some r)) as ->
    by (unfold opened; http_cbn; by destruct (has_recv_buffer c)).
  set (c1 := with_object (opened c) (Some r)). assert (live l sent c1) as Hl1 by (by apply live_object).
  destruct (http_loop_ok (http_fuel c1) l sent (S (weight c1)) (N_recv c1 r)) as (c' & -> & (l1 & l2 & El & Hc')); [done| |unfold http_fuel, weight; lia|].
  - exists [], l. split; [done|]. cbn [fmap list_fmap]. rewrite app_nil_r. split_and!; [done|done|done|lia].
  - exists c', l1, l2. done.
Qed.

Lemma events_ok n l sent c : requests_ok l -> between l sent c -> exists c' l1 l2, go_events n c = Some (N_return c') /\ l = l1 ++ l2 /\ between l2 (sent ++ (render_request <$> l1)) c'.
Proof.
  revert l sent c. induction n as [|n IH]; intros l sent c Hok Hb; [exists c, [], l; cbn [fmap list_fmap]; by rewrite app_nil_r|].
  cbn [http_events]. destruct (http_callback_ok l sent c Hok Hb) as (c1 & l1 & l2 & -> & -> & Hb1). cbn [mbind option_bind].
  assert (closed c1 = false) as -> by (destruct Hb1 as (Hl & _); destruct (lv_open _ _ _ Hl) as (_ & E & _); revert E; unfold opened; by destruct (has_recv_buffer c1)).
  destruct (IH l2 _ c1 ltac:(by eapply requests_ok_suffix) Hb1) as (c2 & m1 & m2 & -> & -> & Hb2). exists c2, (l1 ++ m1), m2. split_and!; [done|by rewrite app_assoc|]. by rewrite fmap_app, app_assoc.
Qed.
End delivery.

(** A new connection. *)
Definition new_http (st : list Z) (sc : list answer) (fl : Files) : HttpConn :=
  mkHttp (mkConn empty_string false false false [] st sc) false None 0 false false [] false fl.

Lemma new_http_between `{Allocator} max l sc fl : Forall (request_ok max) l -> Forall benign sc -> between max l [] (new_http (stream l) sc fl).
Proof.
  intros Hl Hsc. destruct (alloc_wf SW_BUFFER_SIZE_BIG) as (Hwf & Hc & _); [unfold SW_BUFFER_SIZE_BIG, max_len; lia|]. unfold between, opened, new_http. cbn [has_recv_buffer with_recv_buffer net with_buffer buffer object default]. split_and!.
  - split; cbn [net has_recv_buffer buffer input packets removed closed http2_stream websocket_status responses script]; try done. left. vm_compute. done.
  - split; [vm_compute; done|]. destruct l as [|x l]; [done|]. inversion Hl as [|? ? Hx _]; subst. pose proof (head_long _ (ro_head _ _ Hx)). unfold render_request. rewrite length_app. cbn [alloc slen]. lia.
  - destruct l as [|x l]; [done|]. left. by left.
Qed.

(** ** The claim *)


(** Two requests sent ahead of a third with chunks, cut in the middle of a line. *)
Definition example_requests : list (head * body) :=
  [(mkHead 2 (str "/index") true [H_plain (str "Host: a"); H_connection (str "keep-alive"); H_type (str "text/html")], B_none); (mkHead 2 (str "/x") false [], B_none);
   (mkHead 4 (str "/post") true [H_chunked], B_chunked [str "hello"; str "0" ++ HEADER_EOF])].
Lemma example_requests_ok : Forall (request_ok 1000000) example_requests.
Proof.
  assert (forall m u v hs, 1 <= m < SW_HTTP_PRI -> u <> [] -> forallb (fun c => negb (c =? SP) && negb (c =? CR) && negb (c =? LF)) u = true -> Forall header_ok hs -> head_ok (mkHead m u v hs)) as Hh.
  { intros m u v hs Hm Hu Hc Hhs. split; [done| |done]. split; [done|]. cbn [q_url]. rewrite forallb_forall in Hc. apply Forall_forall. intros c Hin%list_elem_of_In. apply Hc in Hin.
    apply andb_true_iff in Hin as [[E1%negb_true_iff%Z.eqb_neq E2%negb_true_iff%Z.eqb_neq]%andb_true_iff E3%negb_true_iff%Z.eqb_neq]. done. }
  repeat (apply Forall_cons; split); [..|constructor]; (split; [apply Hh; [done|done|reflexivity|]|vm_compute; done|vm_compute; auto|vm_compute; done]); cbn.
  - assert (value_ok (str "keep-alive") /\ value_ok (str "text/html")) as [V1 V2] by (split; (split; [by apply no_CR|by eexists _, _])).
    repeat apply Forall_cons_2; [|done|done|constructor]. split; [done|]. split; [by apply no_CR|done].
  - constructor.
  - by repeat constructor.
  - split_and!; try done. by repeat constructor.
Qed.


(** ** Forms with files *)

Definition example_form : list Z :=
  str "--AB" ++ CRLF ++ str "Content-Disposition: form-data; name=f; filename=x" ++ HEADER_EOF ++ repeat 120 300 ++ CRLF ++
  str "--AB" ++ CRLF ++ str "Content-Disposition: form-data; name=y" ++ HEADER_EOF ++ str "1" ++ CRLF ++ str "--AB--".
Definition form_header (content_type : list Z) : list Z :=
  str "POST / HTTP/1.1" ++ CRLF ++ str "Content-Type: " ++ content_type ++ CRLF ++ str "Content-Length: " ++ to_string (zlen example_form) ++ HEADER_EOF.
Definition example_form_type : list Z := str "multipart/form-data; boundary=AB".
Definition send_form (content_type : list Z) (sc : list answer) : option http_next :=
  http_events 400 10000 false false false 0 (fun _ _ => false) [] (fun _ => (0, false)) 20
    (new_http (form_header content_type ++ example_form) sc (mkFiles [T_name (str "/tmp/f")] [] [])).
(** What the worker gets: the name of the file is in the place of the data *)
Definition forwarded (name : list Z) : list Z :=
  form_header example_form_type ++ str "--AB" ++ CRLF ++ str "Content-Disposition: form-data; name=f; filename=x" ++ CRLF ++
  SW_HTTP_UPLOAD_FILE ++ str ": /tmp/f" ++ HEADER_EOF ++ SW_HTTP_UPLOAD_FILE ++ CRLF ++ str "--AB" ++ CRLF ++
  name ++ str ": form-data; name=y" ++ HEADER_EOF ++ str "1" ++ CRLF ++ str "--AB--".

Definition result_of (x : option http_next) : option (list (list Z) * list (list Z * bool) * list (list Z)) :=
  match x with Some (N_return c) => Some (packets (net c), disk (files c), responses c) | _ => None end.

(** A form that is cut in the data of a file reaches the worker, and the data the disk. *)
Lemma form_delivered : result_of (send_form example_form_type [Take 200; Take 1000]) = Some ([forwarded (str "Content-Disposition")], [(repeat 120 300, true)], []).
Proof. vm_compute. reflexivity. Qed.

(** Cut in the name of a header of the second part, the same form reaches the worker with
    another header; cut in the value, it is refused. *)
Lemma form_cut_in_header :
  result_of (send_form example_form_type [Take 464; Take 1000]) = Some ([forwarded (str "Disposition")], [(repeat 120 300, true)], []) /\
  result_of (send_form example_form_type [Take 480; Take 1000]) = Some ([], [(repeat 120 300, true)], [BAD_REQUEST_PACKET]).
Proof. vm_compute. split; reflexivity. Qed.

(** The result of [init_multipart_parser] is not looked at: without a boundary the parser
    is a null pointer when the data is parsed. *)
Lemma null_parser `{Allocator} r b fl f : form_data r = Some f -> multipart_parser_ f = None -> parse_multipart_data r b fl = None.
Proof. intros Hf Hp. unfold parse_multipart_data. rewrite Hf. cbn [mbind option_bind]. by rewrite Hp. Qed.
Lemma form_without_boundary : exists r b,
  let buf := buffer_of (form_header (str "multipart/form-data") ++ example_form) in
  let r0 := set_header_length (set_line new_request 4 2 5 1 15) (zlen (form_header (str "multipart/form-data"))) in
  (r1 ← parse_header_info r0 buf; init_multipart_parser r1 buf 10000) = Some (r, b, false) /\ is_Some (form_data r) /\ parse_multipart_data r b (mkFiles [] [] []) = None.
Proof. eexists _, _. split; [vm_compute; reflexivity|]. split; [by eexists|reflexivity]. Qed.
