(* ===== verification/Dns.v ===== *)
(** * Looking up names

    [src/network/dns.cc]: the DNS client of coroutines ([dns_lookup_impl_with_socket]
    with [domain_encode], [dns_skip_name], [dns_read_uint16], [parse_ip_address]), the
    search in the hosts file ([get_ip_by_hosts]) and the setting of the server
    ([swoole_set_dns_server]).  The exchange with the server is a function from the
    packet that is sent to the one that comes back. *)

From stdpp Require Import strings.
From S2P Require Import Prelude CStr.

(** ** Definitions *)

Definition SW_BUFFER_SIZE_STD : Z := 8192.
Definition SW_DNS_SERVER_PORT : Z := 53.
Definition SW_DNS_A_RECORD : Z := 1.
Definition SW_DNS_AAAA_RECORD : Z := 28.
Definition DOT : Z := 46.
Definition sizeof_RecordHeader : Z := 12.
Definition sizeof_Q_FLAGS : Z := 4.

(** *** Settings *)

Definition sw_atoi (m : list Z) (p : Z) : option Z := '(v, _) ← strtol 10 m p; Some (s32 v).
Definition verify_port (port : Z) (for_connect : bool) : bool :=
  if (port <? 0) || (65535 <? port) then false else negb (for_connect && (port =? 0)).

(** [swoole_strlcpy]: the new memory of [dest] *)
Definition swoole_strlcpy (dest src : list Z) (size : Z) : option (list Z) :=
  len ← strlen src 0;
  let n := Z.min len (size - 1) in
  d ← zsub src 0 n;
  m ← zblit dest 0 d;
  zset m n 0.

(** [stack] is what was in [dns_server_host], [server] has its null byte *)
Definition swoole_set_dns_server (stack server : list Z) : option (list Z * Z) :=
  host ← swoole_strlcpy stack server 32;
  colon ← strchr server 0 58;
  '(host, port) ← match colon with
                  | Some i =>
                      port ← sw_atoi server (i + 1);
                      host ← zset host i 0;
                      Some (host, if verify_port port true then port else SW_DNS_SERVER_PORT)
                  | None => Some (host, SW_DNS_SERVER_PORT)
                  end;
  n ← strlen host 0;
  name ← zsub host 0 n;
  Some (name, port).

(** *** The files of the system *)

(** [stream >> word] until the end *)
Fixpoint words (l : list Z) (cur : list Z) : list (list Z) :=
  match l with
  | [] => match cur with [] => [] | _ => [cur] end
  | c :: l => if isspace c then match cur with [] => words l [] | _ => cur :: words l [] end else words l (cur ++ [c])
  end.
(** The server of [resolv.conf]: [swoole_load_resolv_conf] *)
Fixpoint nameserver (lines : list (list Z)) : option (list Z) :=
  match lines with
  | [] => None
  | line :: lines =>
      match words line [] with
      | key :: value :: _ => if bool_decide (key = str "nameserver") then Some value else nameserver lines
      | _ => nameserver lines
      end
  end.
(** The outer option is the memory, the inner one whether a server was found *)
Definition swoole_load_resolv_conf (stack : list Z) (lines : list (list Z)) : option (option (list Z * Z)) :=
  match nameserver lines with
  | None => Some None
  | Some server => r ← swoole_set_dns_server stack (server ++ [0]); Some (Some r)
  end.

(** [line[ops] = 0] *)
Definition cut_comment (line : list Z) : list Z := match list_find (fun c => c = 35) line with Some (i, _) => <[i := 0]> line | None => line end.
Fixpoint get_ip_by_hosts (lines : list (list Z)) (search_domain : list Z) : list Z :=
  match lines with
  | [] => []
  | line :: lines =>
      let line := cut_comment line in
      let first := default 0 (line !! 0%nat) in
      if (first =? LF) || (first =? 0) || (first =? CR) then get_ip_by_hosts lines search_domain
      else
        match words line [] with
        | txtaddr :: ((_ :: _) as domains) => if bool_decide (search_domain ∈ domains) then txtaddr else get_ip_by_hosts lines search_domain
        | _ => get_ip_by_hosts lines search_domain
        end
  end.

(** *** Queries *)

(** [n] is the number of turns that are left; [dest] is at the index [base] of the packet *)
Fixpoint encode_loop (n : nat) (src packet : list Z) (src_len i label_start base dest_pos dest_len : Z) : option (option (list Z * Z)) :=
  match n with
  | O => Some (Some (packet, dest_pos))
  | S n =>
      go ← (if i =? src_len then Some false else c ← zget src i; Some (negb (c =? DOT)));
      if go : bool then encode_loop n src packet src_len (i + 1) label_start base dest_pos dest_len
      else
        let label_len := i - label_start in
        if (label_len =? 0) || (63 <? label_len) || (dest_len <=? dest_pos + label_len + 1) then Some None
        else
          packet ← zset packet (base + dest_pos) label_len;
          d ← zsub src label_start label_len;
          packet ← zblit packet (base + dest_pos + 1) d;
          encode_loop n src packet src_len (i + 1) (i + 1) base (dest_pos + 1 + label_len) dest_len
  end.
(** [src] has its null byte at [n] *)
Definition domain_encode (src : list Z) (n : Z) (packet : list Z) (base dest_len : Z) : option (option (list Z * Z)) :=
  bad ← (if n <=? 0 then Some true else c ← zget src n; Some ((c =? DOT) || (253 <? n)));
  if bad : bool then Some None
  else
    o ← encode_loop (S (Z.to_nat n)) src packet n 0 0 base 0 dest_len;
    match o with
    | None => Some None
    | Some (packet, dest_pos) =>
        if dest_len <=? dest_pos then Some None
        else packet ← zset packet (base + dest_pos) 0; Some (Some (packet, dest_pos + 1))
    end.

(** The packet that is sent, in its memory, and its length *)
Definition record_header (id : Z) : list Z := be_bytes 2 id ++ [1; 0] ++ be_bytes 2 1 ++ [0; 0; 0; 0; 0; 0].
Definition dns_query (stack domain : list Z) (id : Z) (inet6 : bool) : option (option (list Z * Z)) :=
  packet ← zblit stack 0 (record_header id);
  let steps := sizeof_RecordHeader in
  len ← strlen domain 0;
  o ← domain_encode domain (s32 len) packet steps (SW_BUFFER_SIZE_STD - steps);
  match o with
  | None => Some None
  | Some (packet, n) =>
      let steps := steps + n in
      if SW_BUFFER_SIZE_STD <? steps + sizeof_Q_FLAGS then Some None
      else
        packet ← zblit packet steps (be_bytes 2 (if inet6 then SW_DNS_AAAA_RECORD else SW_DNS_A_RECORD) ++ be_bytes 2 1);
        Some (Some (packet, steps + sizeof_Q_FLAGS))
  end.

(** *** Answers *)

Definition dns_read_uint16 (packet : list Z) (packet_len offset : Z) : option (option Z) :=
  if packet_len <? offset + 2 then Some None else d ← zsub packet offset 2; Some (Some (be_value d)).

(** [depth] is the number of turns that are left *)
Fixpoint skip_name_loop (depth : nat) (packet : list Z) (packet_len pos read_bytes : Z) (jumped : bool) (consumed : Z) : option (option Z) :=
  match depth with
  | O => Some None
  | S depth =>
      if packet_len <=? pos then Some None else
      length ← zget packet pos;
      let label_type := Z.land length 192 in
      if label_type =? 192 then
        if packet_len <=? pos + 1 then Some None else
        lo ← zget packet (pos + 1);
        let pointer := Z.lor (Z.shiftl (Z.land length 63) 8) lo in
        if packet_len <=? pointer then Some None
        else if jumped then skip_name_loop depth packet packet_len pointer read_bytes true consumed
        else skip_name_loop depth packet packet_len pointer (read_bytes + 2) true (read_bytes + 2)
      else if negb (label_type =? 0) || (63 <? length) then Some None
      else
        let pos := pos + 1 in
        let read_bytes := if jumped then read_bytes else read_bytes + 1 in
        if length =? 0 then Some (Some (if jumped then consumed else read_bytes))
        else if packet_len <? pos + length then Some None
        else skip_name_loop depth packet packet_len (pos + length) (if jumped then read_bytes else read_bytes + length) jumped consumed
  end.
Definition dns_skip_name (packet : list Z) (packet_len offset : Z) : option (option Z) :=
  skip_name_loop (Z.to_nat packet_len) packet packet_len offset 0 false 0.

Definition hex_digit (d : Z) : Z := if d <? 10 then 48 + d else 97 + d - 10.
Definition hex2 (c : Z) : list Z := [hex_digit (Z.shiftr c 4); hex_digit (Z.land c 15)].
Fixpoint colon_pairs (l : list Z) : list Z :=
  match l with
  | a :: b :: l => hex2 a ++ hex2 b ++ (match l with [] => [] | _ => [58] end) ++ colon_pairs l
  | _ => []
  end.
Definition parse_ip_address (inet6 : bool) (addr : list Z) : list Z :=
  if inet6 then colon_pairs addr
  else let n i := to_string (default 0 (addr !! i)) in n 0%nat ++ [DOT] ++ n 1%nat ++ [DOT] ++ n 2%nat ++ [DOT] ++ n 3%nat.

(** Over the questions: where the answers begin *)
Fixpoint skip_questions (n : nat) (packet : list Z) (packet_len steps : Z) : option (option Z) :=
  match n with
  | O => Some (Some steps)
  | S n =>
      o ← dns_skip_name packet packet_len steps;
      match o with
      | None => Some None
      | Some consumed =>
          let steps := steps + consumed in
          if packet_len <? steps + sizeof_Q_FLAGS then Some None else skip_questions n packet packet_len (steps + sizeof_Q_FLAGS)
      end
  end.

(** The answers: the addresses, and whether they were all well-formed *)
Fixpoint answers_loop (n : nat) (packet : list Z) (packet_len steps : Z) (result : list (list Z)) : option (list (list Z) * bool) :=
  match n with
  | O => Some (result, true)
  | S n =>
      let failed := Some (result, false) in
      o ← dns_skip_name packet packet_len steps;
      match o with
      | None => failed
      | Some consumed =>
          let steps := steps + consumed in
          if packet_len <? steps + 10 then failed else
          rr_type ← dns_read_uint16 packet packet_len steps;
          rdlength ← dns_read_uint16 packet packet_len (steps + 8);
          match rr_type, rdlength with
          | Some rr_type, Some rdlength =>
              let steps := steps + 10 in
              let next result := if 10 <=? zlen result then Some (result, true) else answers_loop n packet packet_len (steps + rdlength) result in
              if packet_len <? steps + rdlength then failed
              else if rr_type =? SW_DNS_A_RECORD then
                if negb (rdlength =? 4) then failed else a ← zsub packet steps 4; next (result ++ [parse_ip_address false a])
              else if rr_type =? SW_DNS_AAAA_RECORD then
                if negb (rdlength =? 16) then failed else a ← zsub packet steps 16; next (result ++ [parse_ip_address true a])
              else if rr_type =? 5 then
                o ← dns_skip_name packet packet_len steps;
                match o with
                | None => failed
                | Some cname_consumed => if rdlength <? cname_consumed then failed else next result
                end
              else next result
          | _, _ => failed
          end
      end
  end.

(** The packet that came back, in the memory [packet]; the result is the addresses and
    whether there is no error *)
Definition dns_parse (packet : list Z) (packet_len id : Z) : option (list (list Z) * bool) :=
  if packet_len <? sizeof_RecordHeader then Some ([], false) else
  rid ← zsub packet 0 2;
  if negb (be_value rid =? id) then Some ([], false) else
  qdcount ← zsub packet 4 2;
  ancount ← zsub packet 6 2;
  o ← skip_questions (Z.to_nat (be_value qdcount)) packet packet_len sizeof_RecordHeader;
  match o with
  | None => Some ([], false)
  | Some steps =>
      '(result, ok) ← answers_loop (Z.to_nat (be_value ancount)) packet packet_len steps [];
      Some (result, ok && negb (bool_decide (result = [])))
  end.

(** [dns_request_id] and the whole lookup; [exchange] is the server, which may not answer *)
Definition next_request_id (id : Z) : Z := let id := u16 (id + 1) in if id =? 65535 then 1 else id.
Definition dns_lookup (stack domain : list Z) (dns_request_id : Z) (inet6 : bool) (exchange : list Z -> option (list Z)) : option (list (list Z) * bool * Z) :=
  let id := dns_request_id in
  let next := next_request_id id in
  o ← dns_query stack domain id inet6;
  match o with
  | None => Some ([], false, next)
  | Some (packet, steps) =>
      query ← zsub packet 0 steps;
      match exchange query with
      | None | Some [] => Some ([], false, next)
      | Some response =>
          let d := take (Z.to_nat (SW_BUFFER_SIZE_STD - 1)) response in
          packet ← zblit packet 0 d;
          '(result, ok) ← dns_parse packet (zlen d) id;
          Some (result, ok, next)
      end
  end.

(** ** Names on the wire *)

(** The labels of a domain: what stands between its dots *)
Fixpoint split_dots (l cur : list Z) : list (list Z) :=
  match l with
  | [] => [cur]
  | c :: l => if c =? DOT then cur :: split_dots l [] else split_dots l (cur ++ [c])
  end.
Definition valid_label (l : list Z) : bool := (1 <=? zlen l) && (zlen l <=? 63).
Definition wire_labels (ls : list (list Z)) : list Z := concat (map (fun l => zlen l :: l) ls).
Definition valid_domain (d : list Z) : bool := (1 <=? zlen d) && (zlen d <=? 253) && forallb valid_label (split_dots d []).

(** [l] stands in the memory at [p] *)
Definition stands (m : list Z) (p : Z) (l : list Z) : Prop := zsub m p (zlen l) = Some l.

Lemma stands_app m p a b : stands m p (a ++ b) -> stands m p a /\ stands m (p + zlen a) b.
Proof.
  unfold stands. intros H. rewrite length_app, Nat2Z.inj_add in H.
  destruct (zsub_split m p (zlen a) (zlen b) (a ++ b)) as (r1 & r2 & E & H1 & H2); [lia|lia|done|].
  apply zsub_length in H1 as L1. apply app_inj_1 in E as [-> ->]; [done|lia].
Qed.
Lemma stands_cons m p c l : stands m p (c :: l) -> zget m p = Some c /\ stands m (p + 1) l.
Proof.
  intros H. apply (stands_app m p [c] l) in H as [H1 H2]. split; [|done].
  unfold stands in H1. rewrite <- (Z.add_0_r p). by rewrite (zsub_zget _ _ _ _ 0 H1) by (cbn; lia).
Qed.
Lemma stands_bounds m p l : stands m p l -> 0 <= p /\ p + zlen l <= zlen m.
Proof. unfold stands. intros H. apply zsub_Some in H. lia. Qed.

Lemma wire_split l cur : zlen (wire_labels (split_dots l cur)) = zlen cur + zlen l + 1.
Proof.
  revert cur. induction l as [|c l IH]; intros cur; cbn [split_dots].
  - unfold wire_labels. cbn. rewrite app_nil_r. lia.
  - case_match.
    + unfold wire_labels in *. cbn [map concat]. rewrite length_app, Nat2Z.inj_add, IH. cbn [length]. lia.
    + rewrite IH, length_app. cbn [length]. lia.
Qed.

(** ** Queries *)

Lemma encode_loop_ok src rest tail : forall (done cur packet : list Z) src_len base dest_len,
  src = done ++ cur ++ rest ++ tail -> src_len = zlen done + zlen cur + zlen rest -> 0 <= base ->
  base + src_len + 1 <= zlen packet -> src_len + 1 < dest_len ->
  encode_loop (S (length rest)) src packet src_len (zlen done + zlen cur) (zlen done) base (zlen done) dest_len =
  if forallb valid_label (split_dots rest cur)
  then packet ← zblit packet (base + zlen done) (wire_labels (split_dots rest cur)); Some (Some (packet, src_len + 1))
  else Some None.
Proof.
  induction rest as [|c rest IH]; intros done cur packet src_len base dest_len Hsrc Hlen Hb Hp Hd.
  - cbn [encode_loop split_dots forallb length] in *. rewrite (proj2 (Z.eqb_eq (zlen done + zlen cur) src_len)) by lia. cbn [mbind option_bind].
    replace (zlen done + zlen cur - zlen done) with (zlen cur) by lia. unfold valid_label at 1.
    destruct (Z.eqb_spec (zlen cur) 0), (Z.leb_spec 1 (zlen cur)); try lia; [done|]. cbn [orb andb].
    destruct (Z.ltb_spec 63 (zlen cur)), (Z.leb_spec (zlen cur) 63); try lia; [done|]. cbn [orb andb].
    rewrite (proj2 (Z.leb_gt _ _)) by lia. unfold wire_labels. cbn [map concat]. rewrite app_nil_r.
    change (zlen cur :: cur) with ([zlen cur] ++ cur).
    rewrite <- zblit_append by (cbn [length]; lia). rewrite zset_zblit. cbn [length].
    destruct (zblit packet (base + zlen done) [zlen cur]) as [m1|]; [|done]. cbn [mbind option_bind].
    rewrite Hsrc, zsub_app. cbn [mbind option_bind]. change (Z.of_nat 1) with 1.
    destruct (zblit m1 (base + zlen done + 1) cur); [|done]. cbn [mbind option_bind]. do 3 f_equal. lia.
  - cbn [encode_loop]. rewrite (proj2 (Z.eqb_neq (zlen done + zlen cur) src_len)) by (cbn [length] in *; lia).
    assert (Hc : zget src (zlen done + zlen cur) = Some c).
    { rewrite Hsrc, app_assoc, zget_app_r by (rewrite length_app; lia). rewrite length_app.
      replace (_ - _) with 0 by lia. done. }
    rewrite Hc. cbn [mbind option_bind split_dots]. destruct (Z.eqb_spec c DOT) as [->|Hdot]; cbn [negb].
    + replace (zlen done + zlen cur - zlen done) with (zlen cur) by lia. cbn [forallb]. unfold valid_label at 1.
      destruct (Z.eqb_spec (zlen cur) 0), (Z.leb_spec 1 (zlen cur)); try lia; [done|]. cbn [orb andb].
      destruct (Z.ltb_spec 63 (zlen cur)), (Z.leb_spec (zlen cur) 63); try lia; [done|]. cbn [orb andb length] in *.
      rewrite (proj2 (Z.leb_gt _ _)) by lia. change (wire_labels (cur :: split_dots rest [])) with (([zlen cur] ++ cur) ++ wire_labels (split_dots rest [])).
      assert (Hw := wire_split rest []). cbn [length] in Hw.
      rewrite zset_zblit. rewrite <- zblit_append by (rewrite ?length_app; cbn [length] in *; lia).
      rewrite <- zblit_append by (cbn [length]; lia). cbn [length].
      destruct (zblit_in_bounds packet (base + zlen done) [zlen cur]) as [m1 E1]; [lia|cbn [length]; lia|].
      rewrite E1. cbn [mbind option_bind]. rewrite Hsrc at 1. rewrite zsub_app. cbn [mbind option_bind]. change (Z.of_nat 1) with 1.
      apply zblit_length in E1. destruct (zblit_in_bounds m1 (base + zlen done + 1) cur) as [m2 E2]; [lia|lia|].
      rewrite E2. cbn [mbind option_bind]. apply zblit_length in E2.
      assert (Hdone : zlen (done ++ cur ++ [DOT]) = zlen done + zlen cur + 1) by (rewrite !length_app; cbn [length]; lia).
      specialize (IH (done ++ cur ++ [DOT]) [] m2 src_len base dest_len). rewrite Hdone in IH. cbn [length] in IH.
      replace (zlen done + zlen cur + 1 + Z.of_nat 0) with (zlen done + zlen cur + 1) in IH by lia.
      replace (zlen done + 1 + zlen cur) with (zlen done + zlen cur + 1) by lia.
      rewrite IH; [|rewrite Hsrc, <- !app_assoc; done|lia..]. case_match; [|done]. rewrite length_app. cbn [length].
      replace (base + (zlen done + zlen cur + 1)) with (base + zlen done + Z.of_nat (1 + length cur)) by lia. done.
    + specialize (IH done (cur ++ [c]) packet src_len base dest_len). rewrite length_app in IH. cbn [length] in *.
      replace (zlen done + zlen cur + 1) with (zlen done + Z.of_nat (length cur + 1)) by lia.
      apply IH; [by rewrite Hsrc, <- !app_assoc|lia..].
Qed.

Lemma strlen_zero d r : (0 ∉ d) -> strlen (d ++ 0 :: r) 0 = Some (zlen d).
Proof.
  unfold strlen. cbn [Z.leb Z.compare Z.to_nat]. rewrite drop_0. induction d as [|c d IH]; intros Hd; [done|].
  apply not_elem_of_cons in Hd as [Hc Hd]. cbn [app strlen_loop]. destruct (Z.eqb_spec c 0); [congruence|].
  rewrite IH by done. cbn. f_equal. lia.
Qed.

Definition type_class (inet6 : bool) : list Z := be_bytes 2 (if inet6 then SW_DNS_AAAA_RECORD else SW_DNS_A_RECORD) ++ be_bytes 2 1.
Definition query_bytes (d : list Z) (id : Z) (inet6 : bool) : list Z :=
  record_header id ++ (wire_labels (split_dots d []) ++ [0]) ++ type_class inet6.

Lemma record_header_length id : zlen (record_header id) = 12.
Proof. unfold record_header. by rewrite !length_app, !be_bytes_length. Qed.
Lemma type_class_length b : zlen (type_class b) = 4.
Proof. unfold type_class. by rewrite !length_app, !be_bytes_length. Qed.
Lemma query_length d id b : zlen (query_bytes d id b) = zlen d + 18.
Proof.
  unfold query_bytes. rewrite !length_app, !Nat2Z.inj_add, record_header_length, type_class_length, wire_split. cbn [length]. lia.
Qed.

(** The domain that is asked for: the length is an [int], so that of a name of 4 GB only the
    first bytes count *)
Definition queried (d : list Z) : option (list Z) :=
  let n := s32 (zlen d) in
  if (1 <=? n) && bool_decide (zget (d ++ [0]) n <> Some DOT) && valid_domain (take (Z.to_nat n) d) then Some (take (Z.to_nat n) d) else None.

Lemma queried_valid d e : queried d = Some e -> valid_domain e = true.
Proof. unfold queried. destruct (_ && _) eqn:E; [|done]. intros [= <-]. by apply andb_true_iff in E as [_ ?]. Qed.

Lemma valid_queried d : valid_domain d = true -> queried d = Some d.
Proof.
  intros Hv. unfold queried. pose proof Hv as Hl. unfold valid_domain in Hl. rewrite !andb_true_iff, !Z.leb_le in Hl. rewrite (sN_small 32) by lia.
  rewrite (proj2 (Z.leb_le _ _)) by lia. rewrite Nat2Z.id, firstn_all, Hv. rewrite zget_app_r, Z.sub_diag by lia. done.
Qed.

(** What is sent for a domain: the query, or nothing *)
Lemma dns_query_ok stack d id inet6 : zlen stack = SW_BUFFER_SIZE_STD -> (0 ∉ d) ->
  dns_query stack (d ++ [0]) id inet6 =
  match queried d with
  | Some e => packet ← zblit stack 0 (query_bytes e id inet6); Some (Some (packet, zlen (query_bytes e id inet6)))
  | None => Some None
  end.
Proof.
  intros Hs H0. unfold dns_query, queried.
  destruct (zblit_in_bounds stack 0 (record_header id)) as [m1 E1]; [lia|rewrite record_header_length, Hs; done|].
  pose proof (zblit_length _ _ _ _ E1) as L1. rewrite E1, strlen_zero by done. cbn [mbind option_bind]. unfold domain_encode.
  assert (s32 (zlen d) <= zlen d) as Hle by (unfold sN; pose proof (Z.mod_le (zlen d + 2 ^ (32 - 1)) (2 ^ 32)); lia). set (n := s32 (zlen d)) in *.
  destruct (Z.leb_spec n 0), (Z.leb_spec 1 n); try lia; [done|]. destruct (zget_in_bounds (d ++ [0]) n) as [c Hc]; [rewrite length_app; cbn [length]; lia|].
  rewrite Hc. cbn [mbind option_bind andb]. destruct (Z.eqb_spec c DOT) as [->|Hdot]; [by rewrite bool_decide_false by tauto|]. rewrite bool_decide_true by congruence. cbn [orb andb].
  set (e := take (Z.to_nat n) d). assert (n = zlen e) as Hn by (unfold e; rewrite length_take; lia). rewrite Hn. unfold valid_domain.
  rewrite (proj2 (Z.leb_le 1 (zlen e))) by lia. assert (HW := wire_split e []). cbn [length] in HW.
  destruct (Z.ltb_spec 253 (zlen e)), (Z.leb_spec (zlen e) 253); try lia; [done|]. cbn [andb]. rewrite Nat2Z.id.
  assert (HE := encode_loop_ok (d ++ [0]) e (drop (Z.to_nat n) d ++ [0]) [] [] m1 (zlen e) sizeof_RecordHeader (SW_BUFFER_SIZE_STD - sizeof_RecordHeader)).
  assert (Hd : d ++ [0] = e ++ drop (Z.to_nat n) d ++ [0]) by (unfold e; by rewrite app_assoc, take_drop).
  specialize (HE Hd). clear Hd Hc H0. clearbody e. clear Hn Hle. clearbody n. rename d into dom, e into d.
  unfold SW_BUFFER_SIZE_STD, sizeof_RecordHeader in *. change (zlen []) with 0 in HE. cbn [app] in HE. rewrite !Z.add_0_l in HE. rewrite HE by (done || lia). clear HE.
  destruct (forallb _ _); [|done]. cbn [mbind option_bind]. rewrite query_length, Z.add_0_r.
  destruct (zblit_in_bounds m1 12 (wire_labels (split_dots d []))) as [m2 E2]; [lia..|]. rewrite E2. cbn [mbind option_bind].
  rewrite (proj2 (Z.leb_gt _ _)) by lia. pose proof (zblit_length _ _ _ _ E2) as L2.
  destruct (zset_in m2 (12 + (zlen d + 1)) 0) as (m3 & E3 & L3); [lia|]. rewrite E3. cbn [mbind option_bind].
  unfold sizeof_Q_FLAGS. rewrite (proj2 (Z.ltb_ge _ _)) by lia. fold (type_class inet6).
  destruct (zblit_in_bounds m3 (12 + (zlen d + 1 + 1)) (type_class inet6)) as [m4 E4]; [lia|rewrite type_class_length; lia|].
  rewrite E4. cbn [mbind option_bind]. rewrite zset_zblit in E3.
  assert (E23 : zblit m1 12 (wire_labels (split_dots d []) ++ [0]) = Some m3).
  { eapply zblit_zblit; [done|]. rewrite HW. by replace (12 + (Z.of_nat 0 + zlen d + 1)) with (12 + (zlen d + 1)) by lia. }
  assert (E34 : zblit m1 12 ((wire_labels (split_dots d []) ++ [0]) ++ type_class inet6) = Some m4).
  { eapply zblit_zblit; [done|]. rewrite length_app, Nat2Z.inj_add, HW. cbn [length].
    by replace (12 + (Z.of_nat 0 + zlen d + 1 + Z.of_nat 1)) with (12 + (zlen d + 1 + 1)) by lia. }
  unfold query_bytes. rewrite (zblit_zblit stack 0 (record_header id) _ m1 m4 E1) by (by rewrite record_header_length).
  cbn [mbind option_bind]. do 3 f_equal. lia.
Qed.

(** ** Any answer is read in its bounds *)

Section safety.
Context (packet : list Z) (packet_len : Z) (Hbytes : Forall byte packet) (Hlen : 0 <= packet_len <= zlen packet).

Lemma skip_name_loop_safe depth : forall offset pos read_bytes (jumped : bool) consumed, 0 <= pos -> 0 <= read_bytes ->
  (jumped = false -> pos = offset + read_bytes /\ pos <= packet_len) ->
  (jumped = true -> 0 < consumed /\ offset + consumed <= packet_len) ->
  exists o, skip_name_loop depth packet packet_len pos read_bytes jumped consumed = Some o /\
    forall c, o = Some c -> 0 < c /\ offset + c <= packet_len.
Proof.
  induction depth as [|depth IH]; intros offset pos read_bytes jumped consumed Hp Hr Hn Hj; cbn [skip_name_loop]; [by exists None|].
  destruct (Z.leb_spec packet_len pos); [by exists None|].
  destruct (zget_in_bounds packet pos) as [len Hl]; [lia|]. rewrite Hl. cbn [mbind option_bind].
  pose proof (Forall_zget _ _ _ _ Hbytes Hl) as Hb.
  destruct (_ =? 192).
  - destruct (Z.leb_spec packet_len (pos + 1)); [by exists None|].
    destruct (zget_in_bounds packet (pos + 1)) as [lo Hlo]; [lia|]. rewrite Hlo. cbn [mbind option_bind].
    pose proof (Forall_zget _ _ _ _ Hbytes Hlo) as Hb'. case_match; [by exists None|].
    assert (0 <= Z.lor (Z.shiftl (Z.land len 63) 8) lo).
    { apply Z.lor_nonneg. split; [apply Z.shiftl_nonneg, Z.land_nonneg; lia|unfold byte in *; lia]. }
    destruct jumped; [specialize (Hj eq_refl)|specialize (Hn eq_refl)]; apply IH; intros; try discriminate; lia.
  - case_match; [by exists None|]. destruct (Z.eqb_spec len 0).
    + eexists. split; [done|]. intros c [= <-]. destruct jumped; [by apply Hj|]. specialize (Hn eq_refl). lia.
    + destruct (Z.ltb_spec packet_len (pos + 1 + len)); [by exists None|]. unfold byte in Hb.
      destruct jumped; [specialize (Hj eq_refl)|specialize (Hn eq_refl)]; apply IH; intros; try discriminate; lia.
Qed.

Lemma dns_skip_name_safe offset : 0 <= offset <= packet_len ->
  exists o, dns_skip_name packet packet_len offset = Some o /\ forall c, o = Some c -> 0 < c /\ offset + c <= packet_len.
Proof. intros H. apply skip_name_loop_safe; intros; try done; lia. Qed.

Lemma skip_questions_safe n : forall steps, 0 <= steps <= packet_len ->
  exists o, skip_questions n packet packet_len steps = Some o /\ forall s, o = Some s -> 0 <= s <= packet_len.
Proof.
  induction n as [|n IH]; intros steps Hs; cbn [skip_questions]; [eexists; split; [done|]; by intros s [= <-]|].
  destruct (dns_skip_name_safe steps Hs) as ([c|] & E & Hc); rewrite E; cbn [mbind option_bind]; [|by exists None].
  specialize (Hc _ eq_refl). unfold sizeof_Q_FLAGS. destruct (Z.ltb_spec packet_len (steps + c + 4)); [by exists None|]. apply IH. lia.
Qed.

Lemma dns_read_uint16_safe offset : 0 <= offset -> offset + 2 <= packet_len ->
  exists v, dns_read_uint16 packet packet_len offset = Some (Some v) /\ 0 <= v.
Proof.
  intros H0 H. unfold dns_read_uint16. rewrite (proj2 (Z.ltb_ge _ _)) by lia.
  destruct (zsub_in_bounds packet offset 2) as [d Hd]; [lia..|]. rewrite Hd. eexists. split; [done|].
  apply be_value_bounds. apply zsub_Some in Hd as (_ & _ & _ & ->). by apply Forall_take, Forall_drop.
Qed.

Lemma answers_loop_safe n : forall steps result, 0 <= steps <= packet_len -> zlen result < 10 ->
  exists r ok, answers_loop n packet packet_len steps result = Some (r, ok) /\ zlen r <= 10.
Proof.
  induction n as [|n IH]; intros steps result Hs Hr; cbn [answers_loop]; [do 2 eexists; split; [done|lia]|].
  assert (Hfail : exists r ok, Some (result, false) = Some (r, ok) /\ zlen r <= 10) by (do 2 eexists; split; [done|lia]).
  destruct (dns_skip_name_safe steps Hs) as ([c|] & E & Hc); rewrite E; cbn [mbind option_bind]; [|done].
  specialize (Hc _ eq_refl). destruct (Z.ltb_spec packet_len (steps + c + 10)); [done|].
  destruct (dns_read_uint16_safe (steps + c)) as (ty & Ht & Ht0); [lia..|]. destruct (dns_read_uint16_safe (steps + c + 8)) as (rd & Hrd & Hrd0); [lia..|].
  rewrite Ht, Hrd. cbn [mbind option_bind]. destruct (Z.ltb_spec packet_len (steps + c + 10 + rd)); [done|].
  assert (Hnext : forall result', zlen result' <= 10 -> exists r ok,
    (if 10 <=? zlen result' then Some (result', true) else answers_loop n packet packet_len (steps + c + 10 + rd) result') = Some (r, ok) /\ zlen r <= 10).
  { intros result' H'. destruct (Z.leb_spec 10 (zlen result')); [by do 2 eexists|]. apply IH; lia. }
  assert (Hadd : forall a, zlen (result ++ [a]) <= 10) by (intros a; rewrite length_app; cbn [length]; lia).
  destruct (ty =? SW_DNS_A_RECORD); [|destruct (ty =? SW_DNS_AAAA_RECORD); [|destruct (ty =? 5)]].
  - destruct (Z.eqb_spec rd 4); [|done]. destruct (zsub_in_bounds packet (steps + c + 10) 4) as [a Ha]; [lia..|]. rewrite Ha. by apply Hnext.
  - destruct (Z.eqb_spec rd 16); [|done]. destruct (zsub_in_bounds packet (steps + c + 10) 16) as [a Ha]; [lia..|]. rewrite Ha. by apply Hnext.
  - destruct (dns_skip_name_safe (steps + c + 10)) as ([c'|] & E' & _); [lia| |by rewrite E'].
    rewrite E'. cbn [mbind option_bind]. destruct (rd <? c'); [done|]. apply Hnext. lia.
  - apply Hnext. lia.
Qed.

Lemma dns_parse_safe id : exists r ok, dns_parse packet packet_len id = Some (r, ok) /\ zlen r <= 10 /\ (ok = true -> r <> []).
Proof.
  unfold dns_parse, sizeof_RecordHeader. destruct (Z.ltb_spec packet_len 12); [by exists [], false|].
  assert (Hz : forall off, 0 <= off <= 10 -> exists d, zsub packet off 2 = Some d) by (intros; apply zsub_in_bounds; lia).
  destruct (Hz 0 ltac:(lia)) as [rid ->]. cbn [mbind option_bind]. case_match; [by exists [], false|].
  destruct (Hz 4 ltac:(lia)) as [qd ->]. destruct (Hz 6 ltac:(lia)) as [an ->]. cbn [mbind option_bind].
  edestruct (skip_questions_safe (Z.to_nat (be_value qd)) 12) as ([s|] & -> & Hs); [lia| |by exists [], false]. cbn [mbind option_bind].
  destruct (answers_loop_safe (Z.to_nat (be_value an)) s []) as (r & ok & -> & Hr); [by apply Hs|cbn; lia|].
  cbn [mbind option_bind]. do 2 eexists. split_and!; [done|done|]. intros [_ Hn]%andb_true_iff. by apply negb_true_iff, bool_decide_eq_false in Hn.
Qed.
End safety.

(** ** Well-formed answers *)

(** A name of the answer: its labels, then the end or a pointer *)
Record name := Name { name_labels : list (list Z); name_pointer : option Z }.
Definition wire_name (n : name) : list Z :=
  wire_labels (name_labels n) ++ match name_pointer n with None => [0] | Some p => [192 + p / 256; p mod 256] end.
(** The labels have their lengths; a pointer leads to a whole name of the packet *)
Definition name_ok (packet : list Z) (n : name) : Prop :=
  Forall (fun l => valid_label l = true) (name_labels n) /\
  match name_pointer n with
  | None => True
  | Some p => 0 <= p < 16384 /\ exists ls, Forall (fun l => valid_label l = true) ls /\ stands packet p (wire_name (Name ls None))
  end.

(** A resource record *)
Record rr := RR { rr_name : name; rr_type : Z; rr_class_ttl : list Z; rr_data : list Z }.
Definition wire_rr (r : rr) : list Z :=
  wire_name (rr_name r) ++ be_bytes 2 (rr_type r) ++ rr_class_ttl r ++ be_bytes 2 (zlen (rr_data r)) ++ rr_data r.
Definition rr_ok (packet : list Z) (r : rr) : Prop :=
  name_ok packet (rr_name r) /\ 0 <= rr_type r < 65536 /\ zlen (rr_class_ttl r) = 6 /\ zlen (rr_data r) < 65536 /\
  (rr_type r = SW_DNS_A_RECORD -> zlen (rr_data r) = 4) /\ (rr_type r = SW_DNS_AAAA_RECORD -> zlen (rr_data r) = 16) /\
  (rr_type r = 5 -> exists n, name_ok packet n /\ rr_data r = wire_name n).
(** Its address *)
Definition rr_address (r : rr) : option (list Z) :=
  if rr_type r =? SW_DNS_A_RECORD then Some (parse_ip_address false (rr_data r))
  else if rr_type r =? SW_DNS_AAAA_RECORD then Some (parse_ip_address true (rr_data r)) else None.

(** An answer to the question [d]; [flags], [counts] and [more] are the parts that are not
    looked at *)
Definition response (id : Z) (d flags : list Z) (inet6 : bool) (rrs : list rr) (counts more : list Z) : list Z :=
  be_bytes 2 id ++ flags ++ be_bytes 2 1 ++ be_bytes 2 (zlen rrs) ++ counts ++
  ((wire_labels (split_dots d []) ++ [0]) ++ type_class inet6) ++ concat (map wire_rr rrs) ++ more.

Section answers.
Context (sent rest : list Z).
#[local] Abbreviation packet := (sent ++ rest).
#[local] Abbreviation packet_len := (zlen sent).

Lemma stands_in p l : stands sent p l -> stands packet p l.
Proof.
  unfold stands. intros (H1 & H2 & H3 & E)%zsub_Some. apply zsub_Some. rewrite length_app. split_and!; [lia..|].
  rewrite drop_app_le by lia. rewrite take_app_le by (rewrite length_drop; lia). done.
Qed.

Lemma wire_labels_length ls : Forall (fun l => valid_label l = true) ls -> 2 * zlen ls <= zlen (wire_labels ls).
Proof.
  induction 1 as [|l ls Hl _ IH]; [done|]. unfold wire_labels in *. cbn [map concat length]. rewrite length_app. cbn [length].
  unfold valid_label in Hl. lia.
Qed.

Lemma label_bits len : 0 <= len < 64 -> Z.land len 192 = 0 /\ Z.land (192 + len) 192 = 192 /\ Z.land (192 + len) 63 = len.
Proof.
  intros H. assert (E : forallb (fun n => let z := Z.of_nat n in
    (Z.land z 192 =? 0) && (Z.land (192 + z) 192 =? 192) && (Z.land (192 + z) 63 =? z)) (seq 0 64) = true) by done.
  rewrite forallb_forall in E. specialize (E (Z.to_nat len)). rewrite in_seq, Z2Nat.id in E by lia.
  specialize (E ltac:(lia)). rewrite !andb_true_iff, !Z.eqb_eq in E. tauto.
Qed.

(** Over the labels, then what follows them *)
Lemma skip_labels ls : forall depth pos read_bytes (jumped : bool) consumed,
  Forall (fun l => valid_label l = true) ls -> stands sent pos (wire_labels ls) ->
  skip_name_loop (length ls + depth) packet packet_len pos read_bytes jumped consumed =
  skip_name_loop depth packet packet_len (pos + zlen (wire_labels ls))
    (if jumped then read_bytes else read_bytes + zlen (wire_labels ls)) jumped consumed.
Proof.
  induction ls as [|l ls IH]; intros depth pos read_bytes jumped consumed Hls Hst.
  { change (zlen (wire_labels [])) with 0. rewrite !Z.add_0_r. by destruct jumped. }
  apply Forall_cons in Hls as [Hl Hls]. change (wire_labels (l :: ls)) with ((zlen l :: l) ++ wire_labels ls) in *.
  pose proof (stands_bounds _ _ _ Hst) as [_ Hp]. apply stands_app in Hst as [H1 H2]. apply stands_in, stands_cons in H1 as [Hget _].
  rewrite length_app, Nat2Z.inj_add in *. cbn [length Nat.add] in *.
  unfold valid_label in Hl. destruct (label_bits (zlen l)) as (E1 & _); [lia|]. cbn [skip_name_loop].
  rewrite (proj2 (Z.leb_gt packet_len pos)) by lia. rewrite Hget. cbn [mbind option_bind]. rewrite E1. cbn [Z.eqb negb orb].
  rewrite (proj2 (Z.ltb_ge 63 (zlen l))), (proj2 (Z.eqb_neq (zlen l) 0)), (proj2 (Z.ltb_ge packet_len (pos + 1 + zlen l))) by lia.
  replace (pos + Z.of_nat (S (length l))) with (pos + 1 + zlen l) in H2 by lia.
  rewrite IH by (done || lia). destruct jumped; f_equal; lia.
Qed.

Lemma skip_end depth pos read_bytes (jumped : bool) consumed : stands sent pos [0] ->
  skip_name_loop (S depth) packet packet_len pos read_bytes jumped consumed = Some (Some (if jumped then consumed else read_bytes + 1)).
Proof.
  intros H. pose proof (stands_bounds _ _ _ H) as [_ Hp]. cbn [length] in Hp. apply stands_in, stands_cons in H as [Hget _].
  cbn [skip_name_loop]. rewrite (proj2 (Z.leb_gt packet_len pos)) by lia. rewrite Hget. cbn. by destruct jumped.
Qed.

(** A name without a pointer *)
Lemma skip_whole ls depth pos read_bytes (jumped : bool) consumed : Forall (fun l => valid_label l = true) ls ->
  stands sent pos (wire_name (Name ls None)) -> (length ls < depth)%nat ->
  skip_name_loop depth packet packet_len pos read_bytes jumped consumed =
  Some (Some (if jumped then consumed else read_bytes + zlen (wire_name (Name ls None)))).
Proof.
  intros Hls [H1 H2]%stands_app Hd. cbn [name_labels name_pointer] in *. replace depth with (length ls + S (depth - length ls - 1))%nat by lia.
  rewrite skip_labels, skip_end by done. unfold wire_name. rewrite length_app. cbn [name_labels name_pointer length].
  destruct jumped; [done|]. do 2 f_equal. lia.
Qed.

Lemma dns_skip_name_ok n pos : name_ok sent n -> stands sent pos (wire_name n) ->
  dns_skip_name packet packet_len pos = Some (Some (zlen (wire_name n))).
Proof.
  intros [Hls Hptr] Hst. unfold dns_skip_name. pose proof (wire_labels_length _ Hls) as Hlen2.
  pose proof (stands_bounds _ _ _ Hst) as [Hp0 Hp]. rewrite Nat2Z.id.
  destruct n as [ls [p|]]; cbn [name_labels name_pointer] in *.
  2:{ unfold wire_name in Hp. rewrite length_app in Hp. cbn [name_labels name_pointer length] in Hp. rewrite skip_whole with (ls := ls); try done. lia. }
  destruct Hptr as (Hp' & ls' & Hls' & Hst'). pose proof (wire_labels_length _ Hls') as Hlen2'.
  pose proof (stands_bounds _ _ _ Hst') as [_ Hb']. unfold wire_name in Hst, Hp, Hb'. rewrite length_app in Hp, Hb'.
  cbn [name_labels name_pointer length] in *.
  apply stands_app in Hst as [H1 H2]. apply stands_in in H2 as H2'. apply stands_cons in H2' as [G1 G2]. apply stands_cons in G2 as [G2 _].
  replace (length sent) with (length ls + S (length sent - length ls - 1))%nat at 1 by lia. rewrite skip_labels by done.
  cbn [skip_name_loop]. rewrite (proj2 (Z.leb_gt packet_len _)) by lia. rewrite G1. cbn [mbind option_bind].
  destruct (label_bits (p / 256)) as (_ & E1 & E2); [split; [apply Z.div_pos|apply Z.div_lt_upper_bound]; lia|].
  rewrite E1, E2. cbn [Z.eqb Pos.eqb]. rewrite (proj2 (Z.leb_gt packet_len _)) by lia. rewrite G2. cbn [mbind option_bind].
  pose proof (Z.mod_pos_bound p 256 ltac:(lia)). rewrite lor_shiftl by (cbn; lia).
  replace (p mod 256 + 2 ^ 8 * (p / 256)) with p by (pose proof (Z.div_mod p 256); lia).
  rewrite (proj2 (Z.leb_gt packet_len p)) by lia. rewrite skip_whole with (ls := ls') by (done || lia).
  unfold wire_name. rewrite length_app. cbn [name_labels name_pointer length]. do 2 f_equal. lia.
Qed.

Lemma dns_read_uint16_ok v pos : 0 <= v < 65536 -> stands sent pos (be_bytes 2 v) -> dns_read_uint16 packet packet_len pos = Some (Some v).
Proof.
  intros Hv H. pose proof (stands_bounds _ _ _ H) as [_ Hp]. apply stands_in in H. unfold stands in H. rewrite be_bytes_length in *. change (Z.of_nat 2) with 2 in *.
  unfold dns_read_uint16. rewrite (proj2 (Z.ltb_ge _ _)) by lia. rewrite H. cbn [mbind option_bind]. by rewrite be_value_bytes by (cbn; lia).
Qed.

(** One record: its address is added *)
Lemma answers_step n r pos result : rr_ok sent r -> stands sent pos (wire_rr r) ->
  answers_loop (S n) packet packet_len pos result =
  let result := result ++ option_list (rr_address r) in
  if 10 <=? zlen result then Some (result, true) else answers_loop n packet packet_len (pos + zlen (wire_rr r)) result.
Proof.
  intros (Hn & Hty & Hct & Hd & HA & HAAAA & HC) Hst. pose proof (stands_bounds _ _ _ Hst) as [_ Hp].
  unfold wire_rr in Hst, Hp. rewrite !length_app, !be_bytes_length in Hp.
  apply stands_app in Hst as [S1 Hst]. apply stands_app in Hst as [S2 Hst]. apply stands_app in Hst as [_ Hst]. apply stands_app in Hst as [S3 S4].
  rewrite !be_bytes_length in *. set (c := zlen (wire_name (rr_name r))) in *.
  replace (pos + c + Z.of_nat 2 + zlen (rr_class_ttl r)) with (pos + c + 8) in * by lia.
  replace (pos + c + 8 + Z.of_nat 2) with (pos + c + 10) in * by lia.
  replace (pos + zlen (wire_rr r)) with (pos + c + 10 + zlen (rr_data r)) by (unfold wire_rr; rewrite !length_app, !be_bytes_length; lia).
  cbn [answers_loop]. rewrite (dns_skip_name_ok _ _ Hn S1). fold c. cbn [mbind option_bind].
  rewrite (proj2 (Z.ltb_ge packet_len (pos + c + 10))) by lia. rewrite (dns_read_uint16_ok _ _ Hty S2), (dns_read_uint16_ok (zlen (rr_data r)) _ ltac:(lia) S3).
  cbn [mbind option_bind]. rewrite (proj2 (Z.ltb_ge packet_len (pos + c + 10 + zlen (rr_data r)))) by lia.
  apply stands_in in S4 as S4'. unfold stands in S4'. unfold rr_address.
  destruct (Z.eqb_spec (rr_type r) SW_DNS_A_RECORD) as [E|_]; [rewrite (HA E) in *; cbn [Z.eqb Pos.eqb negb]; by rewrite S4'|].
  destruct (Z.eqb_spec (rr_type r) SW_DNS_AAAA_RECORD) as [E|_]; [rewrite (HAAAA E) in *; cbn [Z.eqb Pos.eqb negb]; by rewrite S4'|].
  cbn [option_list]. rewrite app_nil_r. destruct (Z.eqb_spec (rr_type r) 5) as [E|_]; [|done].
  destruct (HC E) as (nm & Hnm & Ed). rewrite Ed in S4 |- *. rewrite (dns_skip_name_ok _ _ Hnm S4). cbn [mbind option_bind]. by rewrite Z.ltb_irrefl.
Qed.

Lemma answers_loop_ok rrs : forall pos result, Forall (rr_ok sent) rrs -> stands sent pos (concat (map wire_rr rrs)) -> zlen result < 10 ->
  answers_loop (length rrs) packet packet_len pos result = Some (take 10 (result ++ omap rr_address rrs), true).
Proof.
  induction rrs as [|r rrs IH]; intros pos result Hok Hst Hr.
  { cbn. rewrite app_nil_r, take_ge by lia. done. }
  apply Forall_cons in Hok as [H Hok]. cbn [map concat] in Hst. apply stands_app in Hst as [S1 S2]. cbn [length].
  rewrite (answers_step _ r) by done. cbv zeta.
  assert (E : omap rr_address (r :: rrs) = option_list (rr_address r) ++ omap rr_address rrs) by (cbn; by destruct (rr_address r)).
  rewrite E, app_assoc. assert (zlen (option_list (rr_address r)) <= 1) by (destruct (rr_address r); cbn; lia).
  destruct (Z.leb_spec 10 (zlen (result ++ option_list (rr_address r)))) as [Hl|Hl]; [|by apply IH].
  rewrite length_app in Hl. rewrite take_app_length' by (rewrite length_app; lia). done.
Qed.
End answers.

(** The whole packet *)
Lemma dns_parse_ok rest id d flags inet6 rrs counts more : let sent := response id d flags inet6 rrs counts more in
  0 <= id < 65536 -> valid_domain d = true -> zlen flags = 2 -> zlen counts = 4 -> zlen rrs < 65536 -> Forall (rr_ok sent) rrs ->
  dns_parse (sent ++ rest) (zlen sent) id =
  let result := take 10 (omap rr_address rrs) in Some (result, negb (bool_decide (result = []))).
Proof.
  intros sent Hid Hd Hf Hc Hn Hok.
  assert (Hst : stands sent 0 sent).
  { unfold stands. apply zsub_Some. split_and!; [lia..|]. rewrite drop_0, Nat2Z.id. by rewrite take_ge by lia. }
  pose proof Hst as Hparts. unfold sent at 2 in Hparts. unfold response in Hparts.
  apply stands_app in Hparts as [S1 Hparts]. apply stands_app in Hparts as [_ Hparts]. apply stands_app in Hparts as [S2 Hparts].
  apply stands_app in Hparts as [S3 Hparts]. apply stands_app in Hparts as [_ Hparts]. apply stands_app in Hparts as [S4 Hparts].
  apply stands_app in Hparts as [S5 S6]. pose proof (stands_bounds _ _ _ S6) as [_ Hb]. apply stands_app in S4 as [S4 _].
  rewrite !length_app, !be_bytes_length, ?Nat2Z.inj_add, ?type_class_length, ?Hf, ?Hc in *.
  change (0 + Z.of_nat 2) with 2 in *. change (2 + 2) with 4 in *. change (4 + Z.of_nat 2) with 6 in *. change (6 + Z.of_nat 2) with 8 in *.
  change (8 + 4) with 12 in *.
  unfold dns_parse, sizeof_RecordHeader. rewrite (proj2 (Z.ltb_ge _ _)) by lia.
  assert (Hin := stands_in sent rest). unfold stands in Hin.
  apply Hin in S1. apply Hin in S2. apply Hin in S3. rewrite be_bytes_length in *. change (Z.of_nat 2) with 2 in *.
  rewrite S1. cbn [mbind option_bind]. rewrite be_value_bytes, Z.eqb_refl by (cbn; lia). cbn [negb].
  rewrite S2, S3. cbn [mbind option_bind]. rewrite !be_value_bytes by (cbn; lia).
  unfold valid_domain in Hd. rewrite !andb_true_iff in Hd. destruct Hd as [_ Hlab].
  assert (Hname : name_ok sent (Name (split_dots d []) None)).
  { split; [|done]. cbn. apply Forall_forall. intros l Hl. rewrite forallb_forall in Hlab. by apply Hlab, list_elem_of_In. }
  change (Z.to_nat 1) with 1%nat. cbn [skip_questions].
  rewrite (dns_skip_name_ok sent rest (Name (split_dots d []) None) 12 Hname S4). cbn [mbind option_bind]. unfold sizeof_Q_FLAGS, wire_name.
  cbn [name_labels name_pointer length]. rewrite length_app, Nat2Z.inj_add. rewrite (proj2 (Z.ltb_ge _ _)) by lia. rewrite Nat2Z.id.
  replace (12 + (zlen (wire_labels (split_dots d [])) + zlen [0]) + 4) with (12 + (zlen (wire_labels (split_dots d [])) + zlen [0] + 4)) by lia.
  cbn [mbind option_bind]. rewrite answers_loop_ok by (done || (cbn; lia)). done.
Qed.

(** ** Lookups *)

Lemma zblit_Forall (Q : Z -> Prop) m off d m' : zblit m off d = Some m' -> Forall Q m -> Forall Q d -> Forall Q m'.
Proof. intros (_ & _ & ->)%zblit_Some Hm Hd. rewrite !Forall_app. split_and!; [by apply Forall_take|done|by apply Forall_drop]. Qed.

Lemma split_dots_byte l cur : Forall byte l -> Forall byte cur -> Forall (Forall byte) (split_dots l cur).
Proof.
  revert cur. induction l as [|c l IH]; intros cur Hl Hc; cbn [split_dots]; [by constructor|].
  apply Forall_cons in Hl as [H Hl]. case_match; [constructor; [done|by apply IH]|]. apply IH; [done|]. apply Forall_app. by repeat constructor; try apply H.
Qed.

Lemma query_byte d id inet6 : Forall byte d -> valid_domain d = true -> Forall byte (query_bytes d id inet6).
Proof.
  intros Hd Hv. unfold query_bytes, record_header, type_class. rewrite !Forall_app. split_and!; try apply be_bytes_byte; try (repeat constructor; unfold byte; lia).
  unfold valid_domain in Hv. rewrite !andb_true_iff, forallb_forall in Hv. destruct Hv as [_ Hv].
  unfold wire_labels. apply Forall_concat, Forall_map, Forall_forall. intros l Hl. pose proof (split_dots_byte d [] Hd (Forall_nil_2 _)) as Hs.
  rewrite Forall_forall in Hs. constructor; [|by apply Hs]. specialize (Hv l (proj1 (list_elem_of_In _ _) Hl)). unfold valid_label in Hv. unfold byte. lia.
Qed.

(** C26: A lookup is safe whatever the server sends.  For any domain and any bytes that come
    back (names that point at themselves, lengths past the end, counts that lie), the lookup
    ends, reads and writes nothing out of the bounds of its packet, gives at most ten
    addresses, reports success only with an address, and moves on to the next request
    number. *)
Theorem dns_lookup_safe stack d id inet6 exchange : zlen stack = SW_BUFFER_SIZE_STD -> Forall byte stack -> Forall byte d -> (0 ∉ d) ->
  (forall q a, exchange q = Some a -> Forall byte a) ->
  exists r ok, dns_lookup stack (d ++ [0]) id inet6 exchange = Some (r, ok, next_request_id id) /\ zlen r <= 10 /\ (ok = true -> r <> []).
Proof.
  intros Hs Hsb Hdb Hd Hex. unfold dns_lookup. rewrite dns_query_ok by done.
  destruct (queried d) as [e|] eqn:He; cbn [mbind option_bind]; [|by exists [], false]. pose proof (queried_valid _ _ He) as Hv.
  assert (Forall byte e) as Heb by (unfold queried in He; destruct (_ && _); [injection He as <-; by apply Forall_take|done]).
  assert (Hq := query_length e id inet6). pose proof Hv as Hv'. unfold valid_domain in Hv'. rewrite !andb_true_iff, !Z.leb_le in Hv'.
  unfold SW_BUFFER_SIZE_STD in *. destruct (zblit_in_bounds stack 0 (query_bytes e id inet6)) as [m E]; [lia..|].
  rewrite E. cbn [mbind option_bind]. rewrite (zsub_zblit _ _ _ _ E). cbn [mbind option_bind].
  destruct (exchange _) as [[|b a]|] eqn:Ea; try by exists [], false. apply Hex in Ea. remember (b :: a) as answer.
  pose proof (zblit_length _ _ _ _ E) as L. assert (zlen (take (Z.to_nat (8192 - 1)) answer) <= 8191) by (rewrite length_take; lia).
  destruct (zblit_in_bounds m 0 (take (Z.to_nat (8192 - 1)) answer)) as [m' E']; [lia..|]. rewrite E'. cbn [mbind option_bind].
  pose proof (zblit_length _ _ _ _ E') as L'.
  destruct (dns_parse_safe m' (zlen (take (Z.to_nat (8192 - 1)) answer))) with (id := id) as (r & ok & -> & Hr); [|lia|].
  { eapply zblit_Forall; [done| |by apply Forall_take]. eapply zblit_Forall; [done..|]. by apply query_byte. }
  by exists r, ok.
Qed.

(** C39: A lookup finds what the server knows.  A valid domain is sent as one question
    (the labels with their lengths, the type and the class); when the server answers it
    with records (addresses, aliases and others, their names whole or compressed), the
    result is their addresses in their order, the first ten of them.  Conditions: the
    response fits the packet of 8 KB, and the names in its records are well formed. *)
Theorem dns_lookup_answers stack d id inet6 exchange flags rrs counts more :
  let sent := response id d flags inet6 rrs counts more in
  zlen stack = SW_BUFFER_SIZE_STD -> (0 ∉ d) -> valid_domain d = true -> 0 <= id < 65536 -> zlen flags = 2 -> zlen counts = 4 ->
  Forall (rr_ok sent) rrs -> zlen sent < SW_BUFFER_SIZE_STD -> exchange (query_bytes d id inet6) = Some sent ->
  let result := take 10 (omap rr_address rrs) in
  dns_lookup stack (d ++ [0]) id inet6 exchange = Some (result, negb (bool_decide (result = [])), next_request_id id).
Proof.
  intros sent Hs Hd Hv Hid Hf Hc Hok Hlen Hex result. unfold dns_lookup. rewrite dns_query_ok, (valid_queried d Hv) by done. cbn [mbind option_bind].
  assert (Hq := query_length d id inet6). pose proof Hv as Hv'. unfold valid_domain in Hv'. rewrite !andb_true_iff, !Z.leb_le in Hv'.
  unfold SW_BUFFER_SIZE_STD in *. destruct (zblit_in_bounds stack 0 (query_bytes d id inet6)) as [m E]; [lia..|].
  rewrite E. cbn [mbind option_bind]. rewrite (zsub_zblit _ _ _ _ E). cbn [mbind option_bind]. rewrite Hex.
  assert (Hmin : 4 * zlen rrs + 2 <= zlen sent).
  { unfold sent, response. rewrite !length_app, !be_bytes_length, !Nat2Z.inj_add. clear. induction rrs as [|r rrs IH]; [cbn; lia|].
    cbn [map concat]. unfold wire_rr at 1. rewrite !length_app, !be_bytes_length, !Nat2Z.inj_add. cbn [length] in *. lia. }
  destruct sent as [|b sent'] eqn:Es; [cbn in Hmin; lia|]. rewrite <- Es in *. rewrite take_ge by lia.
  pose proof (zblit_length _ _ _ _ E) as L. destruct (zblit_in_bounds m 0 sent) as [m' E']; [lia..|]. rewrite E'. cbn [mbind option_bind].
  apply zblit_Some in E' as (_ & _ & ->). rewrite take_0. cbn [app].
  unfold sent. rewrite dns_parse_ok by (done || lia). done.
Qed.

(** *** A lookup *)

Definition www : list Z := str "www.example.com".
Definition www_rrs : list rr :=
  [RR (Name [] (Some 12)) 5 [0; 1; 0; 0; 0; 60] (wire_name (Name [str "cdn"] (Some 16)));
   RR (Name [str "cdn"] (Some 16)) SW_DNS_A_RECORD [0; 1; 0; 0; 0; 60] [93; 184; 216; 34];
   RR (Name [str "example"; str "com"] None) SW_DNS_AAAA_RECORD [0; 1; 0; 0; 0; 60] [32; 1; 13; 184; 0; 0; 0; 0; 0; 0; 0; 0; 0; 0; 0; 1]].
Definition www_answer (id : Z) : list Z := response id www [129; 128] false www_rrs [0; 0; 0; 0] [].

Lemma www_ok id : Forall (rr_ok (www_answer id)) www_rrs.
Proof.
  assert (H16 : name_ok (www_answer id) (Name [str "cdn"] (Some 16))).
  { split; [by repeat constructor|]. cbn [name_pointer]. split; [done|]. exists [str "example"; str "com"]. split; [by repeat constructor|by vm_compute]. }
  assert (H12 : name_ok (www_answer id) (Name [] (Some 12))).
  { split; [by repeat constructor|]. cbn [name_pointer]. split; [done|]. exists [str "www"; str "example"; str "com"]. split; [by repeat constructor|by vm_compute]. }
  assert (H0 : name_ok (www_answer id) (Name [str "example"; str "com"] None)) by (split; [by repeat constructor|done]).
  apply Forall_cons. split; [|apply Forall_cons; split; [|apply Forall_cons; split; [|done]]]; unfold rr_ok; cbn [rr_name rr_type rr_class_ttl rr_data];
    split_and!; try done. intros _. by exists (Name [str "cdn"] (Some 16)).
Qed.

Lemma bytes_ok l : forallb (fun c => (0 <=? c) && (c <? 256)) l = true -> Forall byte l.
Proof. rewrite forallb_forall. intros H. apply Forall_forall. intros c Hc%list_elem_of_In%H. unfold byte. lia. Qed.

Lemma dns_lookup_safe_witness : exists r ok,
  dns_lookup (replicate (Z.to_nat 8192) 7) (www ++ [0]) 5 false (fun _ => Some (be_bytes 2 5 ++ [129; 128; 0; 1; 0; 1; 0; 0; 0; 0; 192; 12])) =
  Some (r, ok, 6) /\ zlen r <= 10 /\ (ok = true -> r <> []).
Proof.
  apply (dns_lookup_safe (replicate (Z.to_nat 8192) 7) www 5 false).
  - by rewrite length_replicate.
  - by apply Forall_replicate.
  - by apply bytes_ok.
  - by apply (bool_decide_unpack _).
  - intros q a [= <-]. by apply bytes_ok.
Defined.

Lemma dns_lookup_answers_witness :
  dns_lookup (replicate (Z.to_nat 8192) 7) (www ++ [0]) 5 false (fun _ => Some (www_answer 5)) =
  Some ([str "93.184.216.34"; str "2001:0db8:0000:0000:0000:0000:0000:0001"], true, 6).
Proof.
  refine (dns_lookup_answers (replicate (Z.to_nat 8192) 7) www 5 false (fun _ => Some (www_answer 5)) [129; 128] www_rrs [0; 0; 0; 0] [] _ _ _ _ _ _ _ _ _).
  - by rewrite length_replicate.
  - by apply (bool_decide_unpack _).
  - done.
  - done.
  - done.
  - done.
  - apply www_ok.
  - done.
  - done.
Defined.

(** ** The request numbers, the files *)

(** No request has the number 0 *)
Lemma next_request_id_ok id : 1 <= id < 65535 -> 1 <= next_request_id id < 65535.
Proof. intros H. unfold next_request_id, u16. rewrite Z.mod_small by lia. case_match; lia. Qed.

Lemma words_nonempty l cur : Forall (fun w => w <> []) (words l cur).
Proof.
  revert cur. induction l as [|c l IH]; intros cur; cbn [words]; [destruct cur; by repeat constructor|].
  case_match; [|apply IH]. destruct cur; [apply IH|]. constructor; [done|apply IH].
Qed.

(** A line with the domain gives its address, when no line above it has the domain *)
Lemma get_ip_by_hosts_first pre line post d : Forall (fun line => get_ip_by_hosts [line] d = []) pre ->
  get_ip_by_hosts [line] d <> [] -> get_ip_by_hosts (pre ++ line :: post) d = get_ip_by_hosts [line] d.
Proof.
  intros Hpre Hline. assert (Hone : forall l ls, get_ip_by_hosts (l :: ls) d =
    if bool_decide (get_ip_by_hosts [l] d = []) then get_ip_by_hosts ls d else get_ip_by_hosts [l] d).
  { intros l ls. cbn [get_ip_by_hosts]. case_match; [done|]. pose proof (words_nonempty (cut_comment l) []) as Hw.
    destruct (words _ _) as [|ip [|w ws]]; [done..|]. apply Forall_cons in Hw as [Hip _].
    destruct (bool_decide (d ∈ _)); [by rewrite bool_decide_false|done]. }
  induction Hpre as [|l pre Hl _ IH]; cbn [app]; rewrite Hone.
  - by rewrite bool_decide_false.
  - by rewrite bool_decide_true.
Qed.

(** What stands behind the mark of a comment is found all the same *)
Lemma hosts_comment_found : get_ip_by_hosts [str "10.0.0.1 one # was two"] (str "two") = str "10.0.0.1".
Proof. done. Qed.

(** The port of a server whose name is longer than 31 bytes is cut off out of the bounds of
    the copy *)
Lemma dns_server_overflow stack : zlen stack = 32 ->
  swoole_set_dns_server stack (str "resolver-number-one.dns.example.com:53" ++ [0]) = None.
Proof.
  intros H. do 32 (destruct stack as [|? stack]; [done|]). destruct stack; [|cbn in H; lia]. vm_compute. done.
Qed.
(** An IPv6 server is cut at its first colon *)
Lemma dns_server_ipv6 : swoole_set_dns_server (replicate 32 7) (str "2001:db8::1" ++ [0]) = Some (str "2001", 53).
Proof. done. Qed.
