(* ===== verification/LruCache.v ===== *)
(** * The cache of recently used values

    [include/swoole_lru_cache.h]: [LRUCache], which keeps the results of name lookups.  A
    [std::list] has the entries, the last used one first, and an [std::unordered_map] leads
    from a key to the iterator of its entry.  An iterator is the number that its node got
    when it was made; [None] is the use of an iterator whose node is gone.  The time is an
    input of each call. *)

From stdpp Require Import gmap.
From S2P Require Import Prelude.

(** ** Definitions *)

Section lru.
Context {V : Type}.

Record node := Node { node_id : Z; node_key : list Z; node_expire : Z; node_value : V }.
Record LRUCache := Cache { cache_map : gmap (list Z) Z; cache_list : list node; cache_capacity : Z; next_node : Z }.

Definition new_cache (capacity : Z) : LRUCache := Cache ∅ [] capacity 0.

(** The node of an iterator, and the list without it *)
Fixpoint take_out (it : Z) (l : list node) : option (node * list node) :=
  match l with
  | [] => None
  | n :: l => if node_id n =? it then Some (n, l) else '(m, l) ← take_out it l; Some (m, n :: l)
  end.

Definition get (key : list Z) (now : Z) (c : LRUCache) : option (LRUCache * option V) :=
  match cache_map c !! key with
  | None => Some (c, None)
  | Some it =>
      '(n, l) ← take_out it (cache_list c);
      if (node_expire n <? now) && (0 <? node_expire n) then Some (c, None)
      else Some (Cache (cache_map c) (n :: l) (cache_capacity c) (next_node c), Some (node_value n))
  end.

Definition set (key : list Z) (val : V) (expire now : Z) (c : LRUCache) : option LRUCache :=
  let expire_time := if expire <=? 0 then 0 else now + expire in
  match cache_map c !! key with
  | Some it =>
      '(n, l) ← take_out it (cache_list c);
      Some (Cache (cache_map c) (Node (node_id n) (node_key n) expire_time val :: l) (cache_capacity c) (next_node c))
  | None =>
      let size := zlen (cache_list c) in
      '(m, l) ← (if (size =? cache_capacity c) && (0 <? size)
                 then d ← last (cache_list c); Some (delete (node_key d) (cache_map c), removelast (cache_list c))
                 else Some (cache_map c, cache_list c));
      Some (Cache (<[key := next_node c]> m) (Node (next_node c) key expire_time val :: l) (cache_capacity c) (next_node c + 1))
  end.

Definition del (key : list Z) (c : LRUCache) : option LRUCache :=
  match cache_map c !! key with
  | None => Some c
  | Some it => '(_, l) ← take_out it (cache_list c); Some (Cache (delete key (cache_map c)) l (cache_capacity c) (next_node c))
  end.

Definition clear (c : LRUCache) : LRUCache := Cache ∅ [] (cache_capacity c) (next_node c).

(** Calls, one after the other, with what the [get]s returned *)
Inductive op := Get (key : list Z) (now : Z) | Set_ (key : list Z) (val : V) (expire now : Z) | Del (key : list Z) | Clear.
Definition call (o : op) (c : LRUCache) : option (LRUCache * option V) :=
  match o with
  | Get key now => get key now c
  | Set_ key val expire now => c ← set key val expire now c; Some (c, None)
  | Del key => c ← del key c; Some (c, None)
  | Clear => Some (clear c, None)
  end.
Fixpoint run (ops : list op) (c : LRUCache) : option (LRUCache * list (option V)) :=
  match ops with
  | [] => Some (c, [])
  | o :: ops => '(c, r) ← call o c; '(c, rs) ← run ops c; Some (c, r :: rs)
  end.

(** ** The contract: an association list in the order of use *)

#[local] Abbreviation entry := (list Z * (Z * V))%type.

Definition without (key : list Z) (l : list entry) : list entry := filter (fun e => e.1 <> key) l.
Fixpoint find (key : list Z) (l : list entry) : option (Z * V) :=
  match l with [] => None | (k, x) :: l => if decide (k = key) then Some x else find key l end.

Definition spec_call (capacity : Z) (o : op) (l : list entry) : list entry * option V :=
  match o with
  | Get key now =>
      match find key l with
      | Some (e, v) => if (e <? now) && (0 <? e) then (l, None) else ((key, (e, v)) :: without key l, Some v)
      | None => (l, None)
      end
  | Set_ key val expire now =>
      let x := (if expire <=? 0 then 0 else now + expire, val) in
      let l := if decide (key ∈ l.*1) then l else if (zlen l =? capacity) && (0 <? zlen l) then removelast l else l in
      ((key, x) :: without key l, None)
  | Del key => (without key l, None)
  | Clear => ([], None)
  end.
Fixpoint spec_run (capacity : Z) (ops : list op) (l : list entry) : list entry * list (option V) :=
  match ops with
  | [] => (l, [])
  | o :: ops => let '(l, r) := spec_call capacity o l in let '(l, rs) := spec_run capacity ops l in (l, r :: rs)
  end.

(** The entries of a cache *)
Definition entry_of (n : node) : entry := (node_key n, (node_expire n, node_value n)).
Definition entries (c : LRUCache) : list entry := map entry_of (cache_list c).

(** The map leads to the node of each key *)
Definition wf (c : LRUCache) : Prop :=
  NoDup (map node_key (cache_list c)) /\ NoDup (map node_id (cache_list c)) /\
  Forall (fun n => node_id n < next_node c) (cache_list c) /\
  (forall key it, cache_map c !! key = Some it <-> exists n, n ∈ cache_list c /\ node_key n = key /\ node_id n = it).

(** ** The cache keeps its contract *)

Lemma take_out_ok (l1 l2 : list node) n : NoDup (map node_id (l1 ++ n :: l2)) -> take_out (node_id n) (l1 ++ n :: l2) = Some (n, l1 ++ l2).
Proof.
  induction l1 as [|m l1 IH]; cbn [app map take_out]; intros Hn; [by rewrite Z.eqb_refl|].
  apply NoDup_cons in Hn as [Hm Hn]. rewrite map_app in Hm. cbn in Hm. apply not_elem_of_app in Hm as [_ Hm]. apply not_elem_of_cons in Hm as [Hm _].
  destruct (Z.eqb_spec (node_id m) (node_id n)); [done|]. by rewrite IH.
Qed.

Lemma without_notin key l : (key ∉ l.*1) -> without key l = l.
Proof.
  induction l as [|[k x] l IH]; [done|]. cbn [fmap list_fmap]. intros [Hk Hl]%not_elem_of_cons.
  unfold without in *. rewrite filter_cons_True by (cbn in *; congruence). by rewrite IH.
Qed.

Lemma entries_split (l1 l2 : list node) n : NoDup (map node_key (l1 ++ n :: l2)) ->
  let l := map entry_of (l1 ++ n :: l2) in
  without (node_key n) l = map entry_of (l1 ++ l2) /\ find (node_key n) l = Some (node_expire n, node_value n) /\ node_key n ∈ l.*1.
Proof.
  intros Hn l. subst l. induction l1 as [|m l1 IH]; cbn [app map] in *; apply NoDup_cons in Hn as [Hm Hn].
  - unfold without. rewrite filter_cons_False by (cbn; tauto). cbn [find entry_of]. rewrite decide_True by done. split_and!; [|done|by left].
    apply without_notin. rewrite list_elem_of_fmap. intros (e & Ee & He). apply Hm. apply list_elem_of_fmap in He as (x & -> & Hx).
    rewrite Ee. apply list_elem_of_fmap. by exists x.
  - destruct (IH Hn) as (E1 & E2 & E3). assert (node_key m <> node_key n).
    { intros E. apply Hm. rewrite E, map_app, elem_of_app. right. by left. }
    unfold without in *. rewrite filter_cons_True by (cbn; done). rewrite E1. cbn [find entry_of]. rewrite decide_False by done.
    split_and!; [done|done|by right].
Qed.

Lemma keys_entries (l : list node) : (map entry_of l).*1 = map node_key l.
Proof. induction l as [|n l IH]; [done|]. cbn in *. by rewrite IH. Qed.

(** A key of the cache stands in its list, another one does not *)
Lemma wf_lookup c key : wf c ->
  match cache_map c !! key with
  | Some it => exists l1 n l2, cache_list c = l1 ++ n :: l2 /\ node_key n = key /\ node_id n = it
  | None => key ∉ map node_key (cache_list c)
  end.
Proof.
  intros (_ & _ & _ & Hmap). destruct (cache_map c !! key) as [it|] eqn:E.
  - apply Hmap in E as (n & Hn & Hk & Hi). apply list_elem_of_split in Hn as (l1 & l2 & Hl). by exists l1, n, l2.
  - intros (n & Hk & Hn)%list_elem_of_fmap. assert (cache_map c !! key = Some (node_id n)) by (apply Hmap; by exists n). congruence.
Qed.

Lemma find_notin key (l : list node) : (key ∉ map node_key l) -> find key (map entry_of l) = None.
Proof.
  induction l as [|n l IH]; [done|]. cbn [map find entry_of]. intros [Hk Hl]%not_elem_of_cons. rewrite decide_False by done. by apply IH.
Qed.

(** A node moves to the front, with another value perhaps *)
Lemma wf_front c l1 n l2 e v : wf c -> cache_list c = l1 ++ n :: l2 ->
  wf (Cache (cache_map c) (Node (node_id n) (node_key n) e v :: l1 ++ l2) (cache_capacity c) (next_node c)).
Proof.
  intros (Hk & Hi & Hb & Hmap) E. rewrite E in *. unfold wf; cbn [cache_list cache_map next_node map node_key node_id].
  assert (P : Permutation (l1 ++ n :: l2) (n :: l1 ++ l2)) by (symmetry; apply Permutation_middle). split_and!.
  - by rewrite P in Hk.
  - by rewrite P in Hi.
  - rewrite P in Hb. by apply Forall_cons in Hb as [H Hb]; constructor.
  - intros key it. rewrite Hmap. setoid_rewrite P. split; intros (x & Hx & <- & <-); apply elem_of_cons in Hx as [->|Hx].
    + eexists. split; [by left|done].
    + exists x. split; [by right|done].
    + exists n. split; [by left|done].
    + exists x. split; [by right|done].
Qed.

(** A node goes away *)
Lemma wf_remove c l1 n l2 : wf c -> cache_list c = l1 ++ n :: l2 ->
  wf (Cache (delete (node_key n) (cache_map c)) (l1 ++ l2) (cache_capacity c) (next_node c)).
Proof.
  intros (Hk & Hi & Hb & Hmap) E. rewrite E in *. unfold wf; cbn [cache_list cache_map next_node].
  assert (P : Permutation (l1 ++ n :: l2) (n :: l1 ++ l2)) by (symmetry; apply Permutation_middle).
  rewrite P in Hk, Hi, Hb. cbn [map] in *. apply NoDup_cons in Hk as [Hkn Hk]. apply NoDup_cons in Hi as [_ Hi]. apply Forall_cons in Hb as [_ Hb].
  split_and!; [done..|]. intros key it. rewrite lookup_delete_Some, Hmap. setoid_rewrite P. split.
  - intros [Hne (x & Hx & <- & <-)]. apply elem_of_cons in Hx as [->|Hx]; [done|]. by exists x.
  - intros (x & Hx & <- & <-). split; [|exists x; split; [by right|done]]. intros E'. apply Hkn. rewrite E'. apply list_elem_of_fmap. by exists x.
Qed.

(** A new node *)
Lemma wf_add c key e v : wf c -> (key ∉ map node_key (cache_list c)) ->
  wf (Cache (<[key := next_node c]> (cache_map c)) (Node (next_node c) key e v :: cache_list c) (cache_capacity c) (next_node c + 1)).
Proof.
  intros (Hk & Hi & Hb & Hmap) Hkey. unfold wf; cbn [cache_list cache_map next_node map node_key node_id]. split_and!.
  - by constructor.
  - constructor; [|done]. intros (n & En & Hn)%list_elem_of_fmap. rewrite Forall_forall in Hb. specialize (Hb n Hn). lia.
  - constructor; [cbn; lia|]. eapply Forall_impl; [done|]. cbn. lia.
  - intros k it. rewrite lookup_insert_Some, Hmap. split.
    + intros [[<- <-]|[Hne (n & Hn & <- & <-)]]; [eexists; split; [by left|done]|]. exists n. split; [by right|done].
    + intros (n & Hn & <- & <-). apply elem_of_cons in Hn as [->|Hn]; [by left|]. right. split; [|by exists n].
      intros ->. apply Hkey, list_elem_of_fmap. by exists n.
Qed.

Lemma call_refines o c : wf c -> let '(l, r) := spec_call (cache_capacity c) o (entries c) in
  exists c', call o c = Some (c', r) /\ entries c' = l /\ cache_capacity c' = cache_capacity c /\ wf c'.
Proof.
  intros Hc. destruct o as [key now|key val expire now|key|]; cbn [call spec_call].
  - unfold get. pose proof (wf_lookup c key Hc) as Hl. destruct (cache_map c !! key) as [it|].
    + destruct Hl as (l1 & n & l2 & El & <- & <-). pose proof Hc as (Hk & Hi & _). unfold entries. rewrite El in *.
      destruct (entries_split l1 l2 n Hk) as (E1 & E2 & _). rewrite take_out_ok, E2 by done. cbn [mbind option_bind].
      destruct (_ && _); [by exists c; rewrite El|]. rewrite E1. eexists. split_and!; [done|done|done|].
      pose proof (wf_front c l1 n l2 (node_expire n) (node_value n) Hc El) as H. by destruct n.
    + unfold entries. rewrite find_notin by done. by exists c.
  - unfold set. pose proof (wf_lookup c key Hc) as Hl. destruct (cache_map c !! key) as [it|].
    + destruct Hl as (l1 & n & l2 & El & <- & <-). pose proof Hc as (Hk & Hi & _). unfold entries. rewrite El in *.
      destruct (entries_split l1 l2 n Hk) as (E1 & _ & E3). rewrite take_out_ok, decide_True, E1 by done. cbn [mbind option_bind].
      eexists. split_and!; [done|done|done|]. by apply wf_front.
    + rewrite decide_False by (unfold entries; by rewrite keys_entries). unfold entries. rewrite length_map.
      destruct (_ && (0 <? _)) eqn:Efull; cbn [mbind option_bind].
      * apply andb_true_iff in Efull as [_ Hpos]. destruct (cache_list c) as [|n l _] eqn:El using rev_ind; [done|].
        rewrite last_snoc. cbn [mbind option_bind]. rewrite removelast_last, map_app. cbn [map]. rewrite removelast_last.
        rewrite map_app in Hl. apply not_elem_of_app in Hl as [Hl _].
        pose proof (wf_remove c l n [] Hc El) as Hr. rewrite app_nil_r in Hr.
        rewrite without_notin by (by rewrite keys_entries). eexists. split_and!; [done|done|done|]. by apply (wf_add _ key _ _ Hr).
      * rewrite without_notin by (by rewrite keys_entries). eexists. split_and!; [done|done|done|]. by apply wf_add.
  - unfold del. pose proof (wf_lookup c key Hc) as Hl. destruct (cache_map c !! key) as [it|].
    + destruct Hl as (l1 & n & l2 & El & <- & <-). pose proof Hc as (Hk & Hi & _). unfold entries. rewrite El in *.
      destruct (entries_split l1 l2 n Hk) as (E1 & _ & _). rewrite take_out_ok, E1 by done. cbn [mbind option_bind].
      eexists. split_and!; [done|done|done|]. by apply (wf_remove c).
    + unfold entries. rewrite without_notin by (by rewrite keys_entries). by exists c.
  - exists (clear c). split_and!; try done. unfold wf. cbn. split_and!; try constructor; try set_solver.
Qed.

Lemma run_refines ops : forall c, wf c -> let '(l, rs) := spec_run (cache_capacity c) ops (entries c) in
  exists c', run ops c = Some (c', rs) /\ entries c' = l /\ cache_capacity c' = cache_capacity c /\ wf c'.
Proof.
  induction ops as [|o ops IH]; intros c Hc; cbn [run spec_run]; [by exists c|].
  pose proof (call_refines o c Hc) as H. destruct (spec_call _ o _) as [l r]. destruct H as (c1 & -> & <- & Ecap & Hc1). cbn [mbind option_bind].
  specialize (IH c1 Hc1). rewrite Ecap in IH. destruct (spec_run _ ops _) as [l' rs]. destruct IH as (c2 & -> & <- & Ecap2 & Hc2).
  exists c2. by rewrite Ecap2.
Qed.

Lemma new_cache_wf capacity : wf (new_cache capacity).
Proof. unfold wf. cbn. split_and!; try constructor; set_solver. Qed.

(** From a new cache, every call returns what the contract says *)
Lemma lru_cache_refines capacity ops :
  exists c, run ops (new_cache capacity) = Some (c, (spec_run capacity ops []).2) /\ entries c = (spec_run capacity ops []).1 /\ wf c.
Proof.
  pose proof (run_refines ops (new_cache capacity) (new_cache_wf capacity)) as H. cbn [new_cache cache_capacity entries cache_list map] in H.
  destruct (spec_run _ _ _) as [l rs]. destruct H as (c & E1 & E2 & _ & Hc). by exists c.
Qed.

(** ** What the cache has *)

(** The last value that was set, and when it expires *)
Definition update (key : list Z) (o : op) (x : option (Z * V)) : option (Z * V) :=
  match o with
  | Set_ k v e now => if decide (k = key) then Some (if e <=? 0 then 0 else now + e, v) else x
  | Del k => if decide (k = key) then None else x
  | Clear => None
  | Get _ _ => x
  end.
Definition last_set (key : list Z) (ops : list op) : option (Z * V) := foldl (fun x o => update key o x) None ops.

Lemma find_without key k l x : find key (without k l) = Some x -> find key l = Some x /\ key <> k.
Proof.
  induction l as [|[k' y] l IH]; [done|]. unfold without in *. destruct (decide (k' = k)) as [->|Hk].
  - rewrite filter_cons_False by (cbn; tauto). intros [Hf Hne]%IH. cbn [find]. by rewrite decide_False.
  - rewrite filter_cons_True by done. cbn [find]. destruct (decide (k' = key)) as [->|]; [by intros [= ->]|done].
Qed.
Lemma find_removelast key l x : find key (removelast l) = Some x -> find key l = Some x.
Proof.
  induction l as [|[k y] [|e l] IH]; [done|done|]. change (removelast ((k, y) :: e :: l)) with ((k, y) :: removelast (e :: l)).
  change (find key ((k, y) :: e :: l)) with (if decide (k = key) then Some y else find key (e :: l)). cbn [find].
  destruct (decide (k = key)); [done|]. apply IH.
Qed.

Lemma spec_call_last capacity o l key x z : (forall y, find key l = Some y -> z = Some y) ->
  find key (spec_call capacity o l).1 = Some x -> update key o z = Some x.
Proof.
  intros Hz. destruct o as [k now|k v e now|k|]; cbn [spec_call update fst].
  - destruct (find k l) as [[e v]|] eqn:Ek; cbn [fst]; [|apply Hz]. destruct (_ && _); cbn [fst]; [apply Hz|]. cbn [find].
    destruct (decide (k = key)) as [->|]; [intros [= <-]; by apply Hz|]. intros [H _]%find_without. by apply Hz.
  - cbn [find]. destruct (decide (k = key)) as [->|]; [done|]. intros [H _]%find_without. apply Hz.
    repeat case_match; [done|by apply find_removelast|done].
  - intros [H Hne]%find_without. rewrite decide_False by congruence. by apply Hz.
  - done.
Qed.

Lemma spec_run_app capacity ops1 ops2 l : spec_run capacity (ops1 ++ ops2) l =
  let '(l, rs1) := spec_run capacity ops1 l in let '(l, rs2) := spec_run capacity ops2 l in (l, rs1 ++ rs2).
Proof.
  revert l. induction ops1 as [|o ops1 IH]; intros l; cbn [app spec_run]; [by destruct (spec_run _ _ _)|].
  destruct (spec_call _ _ _) as [l1 r]. rewrite IH. destruct (spec_run _ ops1 _) as [l2 rs]. by destruct (spec_run _ ops2 _).
Qed.

Lemma spec_last capacity ops key x : find key (spec_run capacity ops []).1 = Some x -> last_set key ops = Some x.
Proof.
  revert x. induction ops as [|o ops IH] using rev_ind; intros x; [done|]. rewrite spec_run_app. cbn [spec_run].
  destruct (spec_run capacity ops []) as [l rs]. pose proof (spec_call_last capacity o l key x (last_set key ops) IH) as H.
  destruct (spec_call _ _ _) as [l' r]. cbn [fst] in *. unfold last_set in *. rewrite foldl_app. exact H.
Qed.

(** The keys that were used *)
Definition used (ops : list op) : list (list Z) := omap (fun o => match o with Get k _ | Set_ k _ _ _ => Some k | _ => None end) ops.
(** Calls that do not take a key away or set it *)
Definition spares (key : list Z) (o : op) : bool :=
  match o with Get _ _ => true | Set_ k _ _ _ | Del k => negb (bool_decide (k = key)) | Clear => false end.

(** [key] stands in the list with its value, and all before it were used *)
Definition recent (key : list Z) (x : Z * V) (ks : list (list Z)) (l : list entry) : Prop :=
  NoDup l.*1 /\ exists l1 l2, l = l1 ++ (key, x) :: l2 /\ l1.*1 ⊆ ks.

Lemma without_app k l1 l2 : without k (l1 ++ l2) = without k l1 ++ without k l2.
Proof. apply filter_app. Qed.
Lemma without_fst k l : (without k l).*1 = filter (fun x => x <> k) l.*1.
Proof.
  induction l as [|[k' x] l IH]; [done|]. unfold without in *. rewrite fmap_cons. destruct (decide (k' = k)).
  - rewrite !filter_cons_False by (cbn; tauto). done.
  - rewrite !filter_cons_True by done. by rewrite fmap_cons, IH.
Qed.
Lemma without_NoDup k l : NoDup l.*1 -> NoDup (without k l).*1 /\ (k ∉ (without k l).*1).
Proof. intros Hn. rewrite without_fst. split; [by apply NoDup_filter|]. intros [? _]%list_elem_of_filter. done. Qed.

Lemma recent_front key x ks k y l : recent key x ks l -> k <> key -> recent key x (k :: ks) ((k, y) :: without k l).
Proof.
  intros [Hn (l1 & l2 & -> & Hks)] Hk. split; [apply NoDup_cons; split; by apply without_NoDup|].
  exists ((k, y) :: without k l1), (without k l2). split.
  - rewrite without_app. cbn [app]. unfold without at 2. by rewrite filter_cons_True by (cbn; congruence).
  - rewrite fmap_cons, without_fst. intros z [->|[_ Hz]%list_elem_of_filter]%elem_of_cons; [by left|right; by apply Hks].
Qed.

Lemma recent_removelast key x ks l k : recent key x ks l -> (k ∉ l.*1) -> k <> key -> zlen (remove_dups (filter (fun z => z <> key) (k :: ks))) < zlen l ->
  recent key x ks (removelast l).
Proof.
  intros [Hn (l1 & l2 & -> & Hks)] Hk Hne Hlen. destruct l2 as [|e l2 _] using rev_ind.
  - exfalso. rewrite fmap_app in Hn, Hk. cbn in Hn, Hk. apply NoDup_app in Hn as (Hn1 & Hdis & _).
    assert (Hsub : (length (k :: l1.*1) <= length (remove_dups (filter (fun z => z <> key) (k :: ks))))%nat).
    { apply submseteq_length, NoDup_submseteq; [constructor; [set_solver|done]|]. intros z Hz. apply elem_of_remove_dups, list_elem_of_filter.
      apply elem_of_cons in Hz as [->|Hz]; [split; [done|by left]|]. split; [|right; by apply Hks]. intros ->. apply (Hdis _ Hz). by left. }
    rewrite length_app in Hlen. cbn [length] in *. rewrite length_fmap in Hsub. lia.
  - rewrite app_comm_cons, app_assoc in *. rewrite removelast_last. split; [|by exists l1, l2].
    rewrite fmap_app in Hn. by apply NoDup_app in Hn as [Hn _].
Qed.

Lemma recent_mono key x ks ks' l : recent key x ks l -> ks ⊆ ks' -> recent key x ks' l.
Proof. intros [Hn (l1 & l2 & E & Hks)] H. split; [done|]. exists l1, l2. split; [done|]. by etrans. Qed.
Lemma recent_find key x ks l : recent key x ks l -> find key l = Some x.
Proof.
  intros [Hn (l1 & l2 & -> & _)]. induction l1 as [|[k y] l1 IH]; cbn [app find]; [by rewrite decide_True|].
  cbn in Hn. apply NoDup_cons in Hn as [Hk Hn]. rewrite decide_False; [by apply IH|]. intros ->. apply Hk. rewrite fmap_app. set_solver.
Qed.

Lemma spec_call_recent capacity o l key x ks : recent key x ks l -> spares key o = true ->
  zlen (remove_dups (filter (fun z => z <> key) (used [o] ++ ks))) < capacity ->
  recent key x (used [o] ++ ks) (spec_call capacity o l).1.
Proof.
  intros Hr Hs Hlen. pose proof Hr as [Hn _]. destruct o as [k now|k v e now|k|]; cbn [spec_call spares used omap list_omap app] in *; [| | |done].
  - destruct (find k l) as [[e v]|] eqn:Ek; cbn [fst]; [|by eapply recent_mono; [done|set_solver]].
    destruct (_ && _); cbn [fst]; [by eapply recent_mono; [done|set_solver]|]. destruct (decide (k = key)) as [->|Hk]; [|by apply recent_front].
    rewrite (recent_find _ _ _ _ Hr) in Ek. injection Ek as ->. split; [apply NoDup_cons; split; by apply without_NoDup|].
    exists [], (without key l). split; [done|]. set_solver.
  - apply negb_true_iff, bool_decide_eq_false in Hs. cbn [fst]. apply recent_front; [|done]. destruct (decide (k ∈ l.*1)) as [|Hk]; [done|].
    destruct (Z.eqb_spec (zlen l) capacity) as [E|]; [|done]. cbn [andb]. case_match; [|done].
    apply (recent_removelast _ _ _ _ k); [done..|by rewrite E].
  - apply negb_true_iff, bool_decide_eq_false in Hs. destruct Hr as [_ (l1 & l2 & -> & Hks)]. split; [by apply without_NoDup|].
    exists (without k l1), (without k l2). split; [|rewrite without_fst; intros z [_ Hz]%list_elem_of_filter; by apply Hks].
    rewrite without_app. unfold without at 2. by rewrite filter_cons_True by (cbn; congruence).
Qed.

Lemma spec_run_recent capacity ops : forall l key x ks, recent key x ks l -> Forall (fun o => spares key o = true) ops ->
  zlen (remove_dups (filter (fun z => z <> key) (used ops ++ ks))) < capacity -> exists ks', recent key x ks' (spec_run capacity ops l).1.
Proof.
  induction ops as [|o ops IH]; intros l key x ks Hr Hs Hlen; cbn [spec_run]; [by exists ks|]. apply Forall_cons in Hs as [Ho Hs].
  assert (Hu : used (o :: ops) = used [o] ++ used ops) by (by destruct o).
  assert (Hmono : forall a b, a ⊆ b -> zlen (remove_dups (filter (fun z : list Z => z <> key) a)) <= zlen (remove_dups (filter (fun z => z <> key) b))).
  { intros a b Hab. apply Nat2Z.inj_le, submseteq_length, NoDup_submseteq; [apply NoDup_remove_dups|]. intros z.
    rewrite !elem_of_remove_dups, !list_elem_of_filter. set_solver. }
  pose proof (spec_call_recent capacity o l key x ks Hr Ho) as H. rewrite Hu in Hlen. destruct (spec_call capacity o l) as [l1 r]. cbn [fst] in *.
  destruct (IH l1 key x (used [o] ++ ks)) as [ks' H']; [|done| |].
  - apply H. eapply Z.le_lt_trans; [|exact Hlen]. apply Hmono. set_solver.
  - eapply Z.le_lt_trans; [|exact Hlen]. apply Hmono. set_solver.
  - exists ks'. by destruct (spec_run capacity ops l1).
Qed.

Lemma find_in key l x : find key l = Some x -> key ∈ l.*1.
Proof.
  induction l as [|[k y] l IH]; [done|]. cbn [find]. rewrite fmap_cons. destruct (decide (k = key)) as [->|]; [by left|]. intros H. right. by apply IH.
Qed.

(** The list never outgrows the capacity *)
Lemma spec_size capacity ops : 0 < capacity -> NoDup (spec_run capacity ops []).1.*1 /\ zlen (spec_run capacity ops []).1 <= capacity.
Proof.
  intros Hc. induction ops as [|o ops IH] using rev_ind; [split; [constructor|cbn; lia]|]. rewrite spec_run_app. cbn [spec_run].
  destruct (spec_run capacity ops []) as [l rs]. cbn [fst] in IH. destruct IH as [Hn Hlen].
  assert (Hle : forall k l, (length (without k l) <= length l)%nat) by (intros; apply length_filter).
  assert (Hlt : forall k l, k ∈ l.*1 -> (length (without k l) < length l)%nat).
  { intros k l' Hk. rewrite <- (length_fmap fst (without k l')), <- (length_fmap fst l'), without_fst. apply length_filter_lt with k; [done|]. tauto. }
  assert (Hnew : forall k y l', NoDup l'.*1 -> zlen (without k l') < capacity ->
    NoDup (((k, y) :: without k l').*1) /\ zlen ((k, y) :: without k l') <= capacity).
  { intros k y l' Hn' Hl'. rewrite fmap_cons. split; [apply NoDup_cons; split; by apply without_NoDup|cbn [length]; lia]. }
  destruct o as [k now|k v e now|k|]; cbn [spec_call].
  - destruct (find k l) as [[e v]|] eqn:Ek; cbn [fst]; [|done]. destruct (_ && _); cbn [fst]; [done|]. apply Hnew; [done|].
    apply find_in in Ek. specialize (Hlt k l Ek). lia.
  - cbn [fst]. destruct (decide (k ∈ l.*1)) as [Hk|Hk]; [apply Hnew; [done|]; specialize (Hlt k l Hk); lia|].
    destruct (Z.eqb_spec (zlen l) capacity) as [E|]; cbn [andb]; [|apply Hnew; [done|]; specialize (Hle k l); lia].
    rewrite (proj2 (Z.ltb_lt _ _)) by lia. destruct l as [|a l _] using rev_ind; [cbn in E; lia|]. rewrite removelast_last.
    rewrite fmap_app in Hn. apply NoDup_app in Hn as [Hn _]. apply Hnew; [done|]. specialize (Hle k l). rewrite length_app in E. cbn [length] in E. lia.
  - cbn [fst]. split; [by apply without_NoDup|]. specialize (Hle k l). lia.
  - cbn. split; [constructor|lia].
Qed.

(** C30: The cache keeps what is in use.  Whatever was called before, nothing is ever
    reached through an iterator whose entry is gone, and the cache does not outgrow its
    capacity.  After a key was set, and as long as it is not set again or taken away and
    fewer other keys than the capacity have been used since, a [get] finds its value
    until it expires.  Conditions: the capacity is positive, and the key is not set
    again or deleted meanwhile. *)
Theorem lru_cache_keeps capacity ops1 key v expire now ops2 now' : 0 < capacity -> Forall (fun o => spares key o = true) ops2 ->
  zlen (remove_dups (filter (fun k => k <> key) (used ops2))) < capacity -> expire <= 0 \/ now' <= now + expire ->
  exists c rs, run (ops1 ++ Set_ key v expire now :: ops2) (new_cache capacity) = Some (c, rs) /\ zlen (cache_list c) <= capacity /\
    exists c', get key now' c = Some (c', Some v).
Proof.
  intros Hcap Hs Hu Hexp. destruct (lru_cache_refines capacity (ops1 ++ Set_ key v expire now :: ops2)) as (c & Hrun & Hent & Hwf).
  exists c. eexists. split; [exact Hrun|]. destruct (spec_size capacity (ops1 ++ Set_ key v expire now :: ops2) Hcap) as [_ Hsize].
  rewrite <- Hent in Hsize. unfold entries in Hsize. rewrite length_map in Hsize. split; [done|].
  assert (Hfind : find key (entries c) = Some (if expire <=? 0 then 0 else now + expire, v)).
  { rewrite Hent, spec_run_app. destruct (spec_size capacity ops1 Hcap) as [Hn _]. destruct (spec_run capacity ops1 []) as [l rs1]. cbn [fst] in Hn.
    cbn [spec_run]. destruct (spec_call capacity (Set_ key v expire now) l) as [l1 r] eqn:E1.
    assert (Hr : recent key (if expire <=? 0 then 0 else now + expire, v) [] l1).
    { cbn [spec_call] in E1. injection E1 as <- _. set (l0 := if decide _ then l else _). assert (Hn0 : NoDup l0.*1).
      { unfold l0. repeat case_match; try done. destruct l as [|a l _] using rev_ind; [done|]. rewrite removelast_last. rewrite fmap_app in Hn. by apply NoDup_app in Hn as [Hn _]. }
      split; [apply NoDup_cons; split; by apply without_NoDup|]. exists [], (without key l0). split; [done|set_solver]. }
    destruct (spec_run_recent capacity ops2 l1 key _ [] Hr Hs) as [ks H]; [by rewrite app_nil_r|]. destruct (spec_run capacity ops2 l1) as [l2 rs2].
    by apply recent_find in H. }
  pose proof (call_refines (Get key now') c Hwf) as H. cbn [spec_call call] in H. rewrite Hfind in H.
  replace (_ && _) with false in H; [destruct H as (c' & H & _); by exists c'|]. symmetry. destruct (Z.leb_spec expire 0); lia.
Qed.

(** Nothing old is returned: a value that [get] finds is the last one that was set *)
Lemma lru_cache_fresh capacity ops key now c rs c' v : run ops (new_cache capacity) = Some (c, rs) -> get key now c = Some (c', Some v) ->
  exists e, last_set key ops = Some (e, v) /\ (e <= 0 \/ now <= e).
Proof.
  intros Hrun Hget. destruct (lru_cache_refines capacity ops) as (c1 & Hrun1 & Hent & Hwf). rewrite Hrun in Hrun1. injection Hrun1 as <- _.
  pose proof (call_refines (Get key now) c Hwf) as H. cbn [spec_call call] in H.
  destruct (find key (entries c)) as [[e w]|] eqn:Ef; [|destruct H as (c2 & E & _); congruence].
  destruct (_ && _) eqn:Ex; destruct H as (c2 & E & _); [congruence|]. rewrite Hget in E. injection E as _ <-.
  exists e. rewrite Hent in Ef. apply spec_last in Ef. split; [done|]. apply andb_false_iff in Ex. lia.
Qed.
End lru.

(** With room for two, a key that was read stays when a third one comes *)
Lemma lru_cache_keeps_witness : exists c rs,
  run ([Set_ [2] 20 0 0] ++ Set_ [1] 10 5 0 :: [Get [1] 3; Set_ [3] 30 0 4]) (new_cache 2) = Some (c, rs) /\ zlen (cache_list c) <= 2 /\
  exists c', get [1] 5 c = Some (c', Some 10).
Proof.
  apply (lru_cache_keeps 2 [Set_ [2] 20 0 0] [1] 10 5 0 [Get [1] 3; Set_ [3] 30 0 4] 5).
  - lia.
  - by repeat constructor.
  - by vm_compute.
  - lia.
Defined.
