(* ===== verification/Redis.v ===== *)
(** * Requests of Redis clients

    [src/protocol/redis.cc]: receiving a request ([recv_packet]), reading it ([parse], and
    the loop of [redis_onReceive] in [ext-src/swoole_redis_server.cc], which the server runs
    on what was received), the table of its handlers, and the replies ([format]).  The connection and its buffer are
    those of the other receive loops. *)

From stdpp Require Import strings gmap.
From S2P Require Import Prelude MemPool Str Protocol CStr StrFormat.

(** ** Definitions *)

Definition STAR : Z := 42.
Definition DOLLAR : Z := 36.
Definition COLON : Z := 58.

Inductive State := STATE_RECEIVE_TOTAL_LINE | STATE_RECEIVE_LENGTH | STATE_RECEIVE_STRING.

(** [redis::Request], the object of the connection *)
Record Request := mkRequest { state : State; n_lines_total : Z; n_lines_received : Z; n_bytes_total : Z; n_bytes_received : Z }.
Definition no_request : Request := mkRequest STATE_RECEIVE_TOTAL_LINE 0 0 0 0.
Definition total_line (r : Request) (n : Z) : Request := mkRequest STATE_RECEIVE_LENGTH n (n_lines_received r) (n_bytes_total r) (n_bytes_received r).
Definition string_of (r : Request) (n : Z) : Request := mkRequest STATE_RECEIVE_STRING (n_lines_total r) (n_lines_received r) n (n_bytes_received r).
Definition string_part (r : Request) (n : Z) : Request :=
  mkRequest (state r) (n_lines_total r) (n_lines_received r) (n_bytes_total r) (s32 (n_bytes_received r + n)).
Definition string_end (r : Request) : Request := mkRequest STATE_RECEIVE_LENGTH (n_lines_total r) (n_lines_received r + 1) 0 0.

(** The number behind the sign at [p], and what follows it; [Some None] is the null pointer *)
Definition get_number (m : list Z) (p : Z) : option (option (Z * Z)) :=
  '(ret, endptr) ← strtol 10 m (p + 1);
  eq ← strneq m endptr CRLF;
  Some (if eq : bool then Some (endptr + 2, s32 ret) else None).

(** One turn of the loop of [recv_packet] at [p], [off] is [buffer->offset]: on with another
    position, or a result *)
Inductive step := Next (r : Request) (off p : Z) | Failed (r : Request) (off : Z) | TooBig (r : Request) (off : Z)
  | Part (r : Request) (off : Z) | Complete (r : Request) (off : Z).

Definition string_case (r : Request) (off p pe : Z) : option step :=
  if pe - p <? n_bytes_total r - n_bytes_received r then Some (Part (string_part r (pe - p)) off)
  else
    let p := p + (n_bytes_total r + 2) in
    let r := string_end r in
    Some (if n_lines_received r =? n_lines_total r then Complete r pe else Next r pe p).
Definition length_case (m : list Z) (max_length : Z) (r : Request) (off p pe : Z) : option step :=
  c ← zget m p;
  if c =? DOLLAR then
    o ← get_number m p;
    Some (match o with
          | None => Failed r off
          | Some (p, ret) =>
              if ret <? 0 then Next r off p else if max_length <? ret + p then TooBig r off else Next (string_of r ret) off p
          end)
  else if c =? COLON then
    o ← get_number m p;
    Some (match o with None => Failed r off | Some (p, _) => Next r off p end)
  else string_case r off p pe.
Definition turn (m : list Z) (max_length : Z) (r : Request) (off p pe : Z) : option step :=
  match state r with
  | STATE_RECEIVE_TOTAL_LINE =>
      c ← zget m p;
      if c =? STAR then
        o ← get_number m p;
        Some (match o with None => Failed r off | Some (p, ret) => Next (total_line r ret) off p end)
      else length_case m max_length r off p pe
  | STATE_RECEIVE_LENGTH => length_case m max_length r off p pe
  | STATE_RECEIVE_STRING => string_case r off p pe
  end.
(** Every turn moves on by two bytes at least *)
Fixpoint turns (fuel : nat) (m : list Z) (max_length : Z) (r : Request) (off p pe : Z) : option step :=
  match fuel with
  | O => None
  | S fuel =>
      s ← turn m max_length r off p pe;
      match s with
      | Next r off p => if p <? pe then turns fuel m max_length r off p pe else Some (Failed r off)
      | s => Some s
      end
  end.

Record RedisConn := mkRedis { net : Conn; object : Request }.

Section recv.
Context `{Allocator} (package_max_length pagesize : Z) (onPackage : list Z -> Z * bool).

Definition redis_dispatch (c : Conn) (p : list Z) : Conn * Z := let '(r, rm) := onPackage p in (with_packet c p (removed c || rm), r).

(** More memory for a request that is not complete *)
Definition more_memory (b : Str) : option (option Str) :=
  if slen b =? ssize b then
    if ssize b <? package_max_length then
      let extend_size :=
        if package_max_length / 2 <=? ssize b then package_max_length
        else Z.min (size_align (u64 (ssize b * 2)) pagesize) package_max_length in
      b ← extend b extend_size; Some (Some b)
    else Some None
  else Some (Some b).

Fixpoint recv_loop (fuel : nat) (c : RedisConn) : option (RedisConn * Z) :=
  match fuel with
  | O => None
  | S fuel =>
      match recv (net c) (ssize (buffer (net c)) - slen (buffer (net c))) with
      | (inl e, n) => r ← recv_failed e; Some (mkRedis n (object c), r)
      | (inr [], n) => Some (mkRedis n (object c), SW_ERR)
      | (inr d, n) =>
          b ← store (buffer n) d;
          whole ← (if slen b <? 2 then Some false else strneq (mem b) (slen b - 2) CRLF);
          if whole : bool then
            s ← turns (S (Z.to_nat (slen b))) (mem b) package_max_length (object c) (soff b) 0 (slen b);
            let put off := with_buffer n (with_offset b off) in
            match s with
            | Part r off => Some (mkRedis (put off) r, SW_OK)
            | Complete r off =>
                p ← zsub (mem b) 0 (slen b);
                let '(n, code) := redis_dispatch (put off) p in
                if code <? 0 then Some (mkRedis n r, SW_ERR)
                else if removed n then Some (mkRedis n r, SW_OK)
                else Some (mkRedis (with_buffer n (clear (buffer n))) no_request, SW_OK)
            | Failed r off | TooBig r off => Some (mkRedis (put off) r, SW_ERR)
            | Next r off _ => None
            end
          else
            o ← more_memory b;
            match o with
            | None => Some (mkRedis (with_buffer n b) (object c), SW_ERR)
            | Some b => recv_loop fuel (mkRedis (with_buffer n b) (object c))
            end
      end
  end.
(** Every turn asks the script once *)
Definition recv_packet (c : RedisConn) : option (RedisConn * Z) := recv_loop (S (length (script (net c)))) c.

(** [ListenPort::readable_callback_redis] closes the connection after an error *)
Fixpoint redis_events (n : nat) (c : RedisConn) : option (RedisConn * Z) :=
  match n with
  | O => Some (c, SW_OK)
  | S n => '(c, r) ← recv_packet c; if r <? 0 then Some (c, r) else redis_events n c
  end.
End recv.

(** *** Reading a request *)

(** [redis::parse]; a null pointer is read behind each [get_number] that fails *)
Definition parse_string (m : list Z) (pe length p : Z) (result : list (list Z)) : option (list (list Z) * option Z) :=
  if u64 (pe - p) <? u64 (s32 (length + 2)) then Some (result, None)
  else d ← zsub m p length; Some (result ++ [d], Some (p + s32 (length + 2))).
Fixpoint parse_loop (fuel : nat) (m : list Z) (pe : Z) (s : State) (length p : Z) (result : list (list Z)) : option (list (list Z)) :=
  match fuel with
  | O => None
  | S fuel =>
      let next s length p result := if p <? pe then parse_loop fuel m pe s length p result else Some result in
      let string_ :=
        '(result, q) ← parse_string m pe length p result;
        match q with None => Some result | Some p => next STATE_RECEIVE_LENGTH length p result end in
      let length_ :=
        c ← zget m p;
        if c =? DOLLAR then
          o ← get_number m p;
          '(p, ret) ← o;
          if ret =? -1 then next s length p result else next STATE_RECEIVE_STRING ret p result
        else if c =? COLON then
          o ← get_number m p;
          '(p, ret) ← o;
          next s length p (result ++ [to_string ret])
        else string_ in
      match s with
      | STATE_RECEIVE_TOTAL_LINE =>
          c ← zget m p;
          if c =? STAR then o ← get_number m p; '(p, _) ← o; next STATE_RECEIVE_LENGTH length p result else length_
      | STATE_RECEIVE_LENGTH => length_
      | STATE_RECEIVE_STRING => string_
      end
  end.
Definition parse (m : list Z) (len : Z) : option (list (list Z)) :=
  parse_loop (S (Z.to_nat len)) m len STATE_RECEIVE_TOTAL_LINE 0 0 [].

(** The loop of [redis_onReceive]: the command, and the values that follow it *)
Inductive zval := Null | Long (n : Z) | Stringl (d : list Z).
Record Command := mkCommand { command : option (Z * Z); zparams : list zval }.
Definition receive_string (m : list Z) (length p : Z) (cmd : Command) : option Command :=
  match command cmd with
  | None => Some (mkCommand (Some (p, length)) (zparams cmd))
  | Some _ => d ← zsub m p length; Some (mkCommand (command cmd) (zparams cmd ++ [Stringl d]))
  end.
Definition add_param (cmd : Command) (z : zval) : Command := mkCommand (command cmd) (zparams cmd ++ [z]).
Fixpoint receive_loop (fuel : nat) (m : list Z) (pe : Z) (s : State) (length p : Z) (cmd : Command) : option Command :=
  match fuel with
  | O => None
  | S fuel =>
      let next s length p cmd := if p <? pe then receive_loop fuel m pe s length p cmd else Some cmd in
      let string_ := cmd ← receive_string m length p cmd; next STATE_RECEIVE_LENGTH length (p + s32 (length + 2)) cmd in
      let length_ :=
        c ← zget m p;
        if c =? DOLLAR then
          o ← get_number m p;
          '(p, ret) ← o;
          if ret =? -1 then next s length p (add_param cmd Null) else next STATE_RECEIVE_STRING ret p cmd
        else if c =? COLON then
          o ← get_number m p;
          '(p, ret) ← o;
          next s length p (add_param cmd (Long ret))
        else string_ in
      match s with
      | STATE_RECEIVE_TOTAL_LINE =>
          c ← zget m p;
          if c =? STAR then o ← get_number m p; '(p, _) ← o; next STATE_RECEIVE_LENGTH length p cmd else length_
      | STATE_RECEIVE_LENGTH => length_
      | STATE_RECEIVE_STRING => string_
      end
  end.
Definition SW_REDIS_MAX_COMMAND_SIZE : Z := 64.
(** [data] has its null byte behind it; the result is the name of the command and its
    parameters, [None] for a command that is too long *)
Definition redis_onReceive (data : list Z) : option (option (list Z * list zval)) :=
  let m := data ++ [0] in
  cmd ← receive_loop (S (S (2 * length data))) m (zlen data) STATE_RECEIVE_TOTAL_LINE 0 0 (mkCommand None []);
  let '(p, n) := default (0, 0) (command cmd) in
  Some (if SW_REDIS_MAX_COMMAND_SIZE <=? n then None else Some (precise_text n (drop (Z.to_nat p) m), zparams cmd)).

(** The table of the handlers.  Its keys are made in an array of 64 bytes: [setHandler], and
    the lookup of [redis_onReceive] for the name of a command *)
Definition handler_key (name : list Z) : option (list Z) :=
  '(m, n) ← sw_snprintf (repeat 0 (Z.to_nat SW_REDIS_MAX_COMMAND_SIZE)) 0 SW_REDIS_MAX_COMMAND_SIZE (str "_handler_" ++ name);
  key ← zsub m 0 n;
  Some (map tolower key).
Definition setHandler {A} (redis_handlers : gmap (list Z) A) (command : list Z) (callback : A) : option (gmap (list Z) A * bool) :=
  if (zlen command =? 0) || (SW_REDIS_MAX_COMMAND_SIZE <=? zlen command) then Some (redis_handlers, false)
  else key ← handler_key (c_text command); Some (<[key := callback]> redis_handlers, true).
Definition find_handler {A} (redis_handlers : gmap (list Z) A) (name : list Z) : option (option A) :=
  key ← handler_key name; Some (redis_handlers !! key).

(** *** Replies *)

Inductive ReplyType := REPLY_ERROR | REPLY_NIL | REPLY_STATUS | REPLY_INT | REPLY_STRING | REPLY_SET | REPLY_MAP.
Section replies.
Context `{Allocator}.
Definition format_nil (b : Str) : option Str := append b (str "$-1" ++ CRLF).
Definition format (b : Str) (type : ReplyType) (value : list Z) : option Str :=
  let text := precise_text (s32 (zlen value)) value in
  match type with
  | REPLY_STATUS => match value with [] => append b (str "+OK" ++ CRLF) | _ => '(b, _) ← format_string b (43 :: text ++ CRLF); Some b end
  | REPLY_ERROR => match value with [] => append b (str "-ERR" ++ CRLF) | _ => '(b, _) ← format_string b (45 :: text ++ CRLF); Some b end
  | REPLY_STRING =>
      match value with
      | [] => Some b
      | _ => '(b, _) ← format_string b (DOLLAR :: to_string (zlen value) ++ CRLF); b ← append b value; append b CRLF
      end
  | _ => Some b
  end.
Definition format_int (b : Str) (value : Z) : option Str := '(b, _) ← format_string b (COLON :: to_string value ++ CRLF); Some b.
End replies.

(** ** Requests *)

Definition render_arg (d : list Z) : list Z := DOLLAR :: to_string (zlen d) ++ CRLF ++ d ++ CRLF.
Definition render_request (args : list (list Z)) : list Z := STAR :: to_string (zlen args) ++ CRLF ++ concat (map render_arg args).

Lemma get_number_ok m l1 c n l2 p : 0 <= n < 2 ^ 31 -> m = l1 ++ c :: to_string n ++ CRLF ++ l2 -> p = zlen l1 ->
  get_number m p = Some (Some (p + 1 + zlen (to_string n) + 2, n)).
Proof.
  intros Hn Em ->. rewrite to_string_positive in * by lia. unfold get_number, strtol. set (ds := print_number 10 n) in *.
  assert (El : zlen (l1 ++ [c]) = zlen l1 + 1) by (rewrite length_app; cbn [length]; lia).
  assert (Em' : m = (l1 ++ [c]) ++ ds ++ CR :: LF :: l2) by (rewrite Em, <- app_assoc; done).
  rewrite <- El, (strto_number 10 m n (l1 ++ [c]) CR (LF :: l2)) by (done || lia). cbn [mbind option_bind].
  fold ds. rewrite El. assert (Hget : forall i, 0 <= i -> zget m (zlen l1 + 1 + zlen ds + i) = zget (CR :: LF :: l2) i).
  { intros i Hi. rewrite Em', app_assoc, zget_app_r by (rewrite !length_app; cbn [length]; lia). f_equal. rewrite !length_app. cbn [length]. lia. }
  unfold CRLF. cbn [strneq]. rewrite <- (Z.add_0_r (zlen l1 + 1 + zlen ds)) at 1. rewrite (Hget 0), (Hget 1) by lia.
  change (zget (CR :: LF :: l2) 0) with (Some CR). change (zget (CR :: LF :: l2) 1) with (Some LF). cbn [mbind option_bind].
  rewrite !Z.eqb_refl. rewrite Z.min_l by (unfold LONG_MAX; lia). by rewrite sN_small by lia.
Qed.

(** ** Receiving *)

Section requests.
Context (m : list Z) (max_length pe : Z) (Hpe : 0 <= pe <= max_length) (Hmax : max_length < 2 ^ 31 - 2).

Lemma turn_length r off pre d rest : state r = STATE_RECEIVE_LENGTH -> m = pre ++ render_arg d ++ rest -> zlen pre + zlen (render_arg d) <= pe ->
  turn m max_length r off (zlen pre) pe = Some (Next (string_of r (zlen d)) off (zlen pre + zlen (DOLLAR :: to_string (zlen d) ++ CRLF))).
Proof.
  intros Hs Hm Hp. unfold turn. rewrite Hs. unfold length_case. unfold render_arg in *.
  assert (Hget : zget m (zlen pre) = Some DOLLAR) by (rewrite Hm, zget_app_r, Z.sub_diag by lia; done).
  rewrite Hget. cbn [mbind option_bind]. change (DOLLAR =? DOLLAR) with true. cbn [length] in Hp. rewrite !length_app in Hp. change (length CRLF) with 2%nat in *.
  rewrite (get_number_ok m pre DOLLAR (zlen d) (d ++ CRLF ++ rest)) by (done || lia || (rewrite Hm; cbn [app]; by rewrite <- !app_assoc)).
  cbn [mbind option_bind length]. rewrite length_app. change (length CRLF) with 2%nat.
  rewrite (proj2 (Z.ltb_ge (zlen d) 0)) by lia. rewrite (proj2 (Z.ltb_ge max_length _)) by lia. do 2 f_equal. lia.
Qed.

Lemma turn_string r off p (d : list Z) : state r = STATE_RECEIVE_STRING -> n_bytes_total r = zlen d -> n_bytes_received r = 0 -> p + zlen d <= pe ->
  turn m max_length r off p pe =
  Some (if n_lines_received r + 1 =? n_lines_total r then Complete (string_end r) pe else Next (string_end r) pe (p + zlen d + 2)).
Proof.
  intros Hs Hb Hr Hp. unfold turn. rewrite Hs. unfold string_case. rewrite Hb, Hr, (proj2 (Z.ltb_ge _ _)) by lia. cbn [string_end n_lines_received n_lines_total].
  case_match; [done|]. do 2 f_equal. lia.
Qed.

Lemma render_arg_length d : zlen (render_arg d) = zlen (DOLLAR :: to_string (zlen d) ++ CRLF) + zlen d + 2.
Proof. unfold render_arg. cbn [length]. rewrite !length_app. change (length CRLF) with 2%nat. lia. Qed.

(** The strings that are left *)
Lemma turns_args args : forall fuel r off pre rest, args <> [] -> state r = STATE_RECEIVE_LENGTH -> n_bytes_received r = 0 ->
  n_lines_received r + zlen args = n_lines_total r -> m = pre ++ concat (map render_arg args) ++ rest ->
  pe = zlen pre + zlen (concat (map render_arg args)) -> (2 * length args <= fuel)%nat ->
  exists r', turns fuel m max_length r off (zlen pre) pe = Some (Complete r' pe).
Proof.
  induction args as [|d args IH]; intros fuel r off pre rest Hne Hs Hrec Hn Hm Hp Hf; [done|]. clear Hne.
  cbn [map concat] in *. rewrite length_app in Hp. destruct fuel as [|[|fuel]]; [cbn in Hf; lia..|]. cbn [turns]. cbn [length] in *.
  rewrite (turn_length r off pre d (concat (map render_arg args) ++ rest)) by (done || lia || by rewrite Hm, <- app_assoc). cbn [mbind option_bind].
  set (h := zlen (DOLLAR :: to_string (zlen d) ++ CRLF)). pose proof (render_arg_length d) as Hrl. fold h in Hrl.
  rewrite (proj2 (Z.ltb_lt (zlen pre + h) pe)) by lia. cbn [turns].
  rewrite (turn_string _ _ _ d) by (done || lia). cbn [mbind option_bind string_of n_lines_received n_lines_total].
  destruct args as [|d' args].
  - rewrite (proj2 (Z.eqb_eq _ _)) by (cbn in Hn; lia). by eexists.
  - rewrite (proj2 (Z.eqb_neq (n_lines_received r + 1) _)) by (cbn [length] in Hn; lia). cbn [mbind option_bind].
    replace (zlen pre + h + zlen d + 2) with (zlen (pre ++ render_arg d)) by (rewrite length_app; lia).
    pose proof (render_arg_length d') as Hrl'. cbn [map concat] in *. rewrite (length_app (render_arg d')) in Hp. cbn [length] in *.
    rewrite (proj2 (Z.ltb_lt _ pe)) by (rewrite length_app; lia).
    apply IH with rest; [done|done|done|cbn; lia|by rewrite Hm, <- !app_assoc|rewrite !length_app; lia|lia].
Qed.
End requests.

(** A whole request, at the start of the memory *)
Lemma render_args_length args : 2 * zlen args <= zlen (concat (map render_arg args)).
Proof.
  induction args as [|d args IH]; [done|]. cbn [map concat]. rewrite length_app. pose proof (render_arg_length d). cbn [length] in *. lia.
Qed.

Lemma turns_request m max_length off args rest : args <> [] -> zlen (render_request args) <= max_length -> max_length < 2 ^ 31 - 2 ->
  m = render_request args ++ rest -> let pe := zlen (render_request args) in
  exists r, turns (S (Z.to_nat pe)) m max_length no_request off 0 pe = Some (Complete r pe).
Proof.
  intros Hne Hlen Hmax Hm pe. cbn [turns]. unfold turn. cbn [no_request state].
  assert (Hget : zget m 0 = Some STAR) by by rewrite Hm. rewrite Hget. cbn [mbind option_bind]. change (STAR =? STAR) with true. cbv iota.
  pose proof (render_args_length args) as Hal. unfold pe, render_request in *. cbn [length] in *. rewrite !length_app in *. change (length CRLF) with 2%nat in *.
  rewrite (get_number_ok m [] STAR (zlen args) (concat (map render_arg args) ++ rest) 0) by (done || lia || (rewrite Hm; cbn [app]; by rewrite <- !app_assoc)).
  cbn [mbind option_bind]. destruct args as [|d args]; [done|]. cbn [length] in *. rewrite (proj2 (Z.ltb_lt _ _)) by lia.
  set (pre := STAR :: to_string (Z.of_nat (S (length args))) ++ CRLF).
  replace (0 + 1 + zlen (to_string (Z.of_nat (S (length args)))) + 2) with (zlen pre) by (unfold pre; cbn [length]; rewrite length_app; change (length CRLF) with 2%nat; lia).
  eapply (turns_args m max_length _) with (args := d :: args) (rest := rest); try done.
  - rewrite Hm. unfold pre. cbn [app]. by rewrite <- !app_assoc.
  - unfold pre. cbn [length]. rewrite length_app. change (length CRLF) with 2%nat. lia.
  - cbn [length]. lia.
Qed.

(** ** Delivery *)

Definition ends_line (l : list Z) : bool := (2 <=? zlen l) && bool_decide (drop (length l - 2) l = CRLF).

(** The size of a buffer of [size] bytes that has [l] of a request: a full one grows *)
Definition grown (package_max_length pagesize size : Z) (l : list Z) : Z :=
  if zlen l =? size then
    aligned8 (if package_max_length / 2 <=? size then package_max_length else Z.min (size_align (size * 2) pagesize) package_max_length)
  else size.

(** How a request may arrive in a buffer of [size] bytes: [got] is there, [left] comes in the
    pieces of the list, with pauses; a piece is not longer than the room of the buffer, and one
    in the middle does not end behind the end of a line.  In the end the buffer has the size
    [size'] *)
Inductive arrives (package_max_length pagesize size' : Z) : Z -> list Z -> list Z -> list (option (list Z)) -> Prop :=
  | arrives_pause size got left evs : arrives package_max_length pagesize size' size got left evs -> arrives package_max_length pagesize size' size got left (None :: evs)
  | arrives_piece size got p left evs : p <> [] -> left <> [] -> zlen (got ++ p) <= size -> ends_line (got ++ p) = false ->
      arrives package_max_length pagesize size' (grown package_max_length pagesize size (got ++ p)) (got ++ p) left evs ->
      arrives package_max_length pagesize size' size got (p ++ left) (Some p :: evs)
  | arrives_last got p : p <> [] -> zlen (got ++ p) <= size' -> arrives package_max_length pagesize size' size' got p [Some p].

Definition answer_of (e : option (list Z)) : answer := match e with None => Fail EAGAIN | Some p => Take (zlen p) end.

Lemma ends_line_strneq m l rest : m = l ++ rest -> 2 <= zlen l -> strneq m (zlen l - 2) CRLF = Some (ends_line l).
Proof.
  intros -> Hl. unfold ends_line. rewrite (proj2 (Z.leb_le _ _) Hl). cbn [andb].
  assert (E : exists l1 x y, l = l1 ++ [x; y]).
  { destruct l as [|y l _] using rev_ind; [cbn in Hl; lia|]. destruct l as [|x l _] using rev_ind; [cbn in Hl; lia|]. exists l, x, y. by rewrite <- app_assoc. }
  destruct E as (l1 & x & y & ->). rewrite length_app. cbn [length]. replace (length l1 + 2 - 2)%nat with (length l1) by lia.
  rewrite drop_app_length. replace (Z.of_nat (length l1 + 2) - 2) with (zlen l1) by lia. unfold CRLF. cbn [strneq].
  rewrite <- app_assoc.
  assert (G0 : zget (l1 ++ [x; y] ++ rest) (zlen l1) = Some x) by (rewrite zget_app_r, Z.sub_diag by lia; done).
  assert (G1 : zget (l1 ++ [x; y] ++ rest) (zlen l1 + 1) = Some y) by (rewrite zget_app_r by lia; by replace (zlen l1 + 1 - zlen l1) with 1 by lia).
  rewrite G0. cbn [mbind option_bind]. destruct (Z.eqb_spec x CR) as [->|Hx]; [|by rewrite bool_decide_false by congruence].
  rewrite G1. cbn [mbind option_bind].
  destruct (Z.eqb_spec y LF) as [->|Hy]; [by rewrite bool_decide_true|by rewrite bool_decide_false by congruence].
Qed.

Lemma render_ends_line args : args <> [] -> ends_line (render_request args) = true.
Proof.
  intros Hne. assert (E : exists l, render_request args = l ++ CRLF).
  { destruct args as [|d args _] using rev_ind; [done|]. unfold render_request. rewrite map_app, concat_app. cbn [map concat]. rewrite app_nil_r. unfold render_arg at 2.
    exists (STAR :: to_string (zlen (args ++ [d])) ++ CRLF ++ concat (map render_arg args) ++ DOLLAR :: to_string (zlen d) ++ CRLF ++ d).
    cbn [app]. rewrite <- !app_assoc. cbn [app]. by rewrite <- !app_assoc. }
  destruct E as [l ->]. unfold ends_line. rewrite length_app. change (length CRLF) with 2%nat.
  replace (length l + 2 - 2)%nat with (length l) by lia. rewrite drop_app_length, bool_decide_true by done. rewrite (proj2 (Z.leb_le _ _)) by lia. done.
Qed.

Section delivery.
Context `{Allocator} (package_max_length pagesize : Z) (onPackage : list Z -> Z * bool).
Context (Hmax : package_max_length < 2 ^ 31 - 2) (Hpage : 0 < pagesize <= 2 ^ 20) (Hon : forall p, 0 <= (onPackage p).1 /\ (onPackage p).2 = false).

(** A connection that has [got] of a request *)
Record waits (size : Z) (got i : list Z) (sc : list answer) (ps : list (list Z)) (c : RedisConn) : Prop := {
  w_wf : str_wf (buffer (net c));
  w_size : ssize (buffer (net c)) = size;
  w_got : contents (buffer (net c)) = got;
  w_object : object c = no_request;
  w_removed : removed (net c) = false;
  w_input : input (net c) = i;
  w_script : script (net c) = sc;
  w_packets : packets (net c) = ps;
}.

Lemma recv_piece (c : Conn) p i sc n : p <> [] -> zlen p <= n -> script c = Take (zlen p) :: sc -> input c = p ++ i -> recv c n = (inr p, with_env c i sc).
Proof.
  intros Hp Hn Hs Hi. unfold recv. rewrite Hs, Hi. destruct p as [|x p]; [done|]. destruct (Z.eqb_spec n 0); [cbn [length] in *; lia|].
  cbn [app]. change (x :: p ++ i) with ((x :: p) ++ i). replace (Z.to_nat (Z.min (Z.max 1 (zlen (x :: p))) n)) with (length (x :: p)) by (cbn [length] in *; lia).
  by rewrite take_app_length, drop_app_length.
Qed.

Lemma more_memory_ok b : str_wf b -> 0 < slen b < package_max_length -> exists b',
  more_memory package_max_length pagesize b = Some (Some b') /\ resized b b' /\ ssize b' = grown package_max_length pagesize (ssize b) (contents b).
Proof.
  intros Hwf Hl. pose proof (st_len _ Hwf). unfold more_memory, grown. rewrite (contents_length _ Hwf). destruct (Z.eqb_spec (slen b) (ssize b)) as [E|E].
  - rewrite (proj2 (Z.ltb_lt (ssize b) _)), (u64_id (ssize b * 2)) by lia. set (e := if _ <=? ssize b then _ else _).
    assert (ssize b < e <= package_max_length) as He.
    { unfold e, size_align. pose proof (Z.mod_pos_bound (ssize b * 2) pagesize ltac:(lia)). destruct (Z.leb_spec (package_max_length / 2) (ssize b)); lia. }
    unfold extend. rewrite (proj2 (Z.ltb_lt (ssize b) e)) by lia. destruct (reserve_ok b e Hwf) as (b' & E' & Hr & _); [lia|unfold max_len; lia|].
    rewrite E'. exists b'. split_and!; [done|done|]. unfold reserve in E'. rewrite (proj2 (Z.eqb_neq (ssize b) 0)) in E' by lia. destruct (negb _); [done|]. injection E' as <-. cbn.
    apply aligned_bound. unfold max_len. lia.
  - exists b. split_and!; [done|by apply resized_refl|done].
Qed.

Lemma recv_loop_ok size size' args got left evs : arrives package_max_length pagesize size' size got left evs -> args <> [] -> got ++ left = render_request args ->
  zlen (render_request args) <= package_max_length ->
  forall fuel c i sc ps, waits size got (left ++ i) (map answer_of evs ++ sc) ps c -> (length evs <= fuel)%nat ->
  exists c', recv_loop package_max_length pagesize onPackage fuel c = Some (c', SW_OK) /\
    (waits size' [] i sc (ps ++ [render_request args]) c' \/
     exists size1 got' left' evs', arrives package_max_length pagesize size' size1 got' left' evs' /\ got' ++ left' = render_request args /\ (length evs' < length evs)%nat /\
       length (filter (fun e => e = None) evs) = S (length (filter (fun e => e = None) evs')) /\ waits size1 got' (left' ++ i) (map answer_of evs' ++ sc) ps c').
Proof.
  intros Harr Hne. induction Harr as [size got left evs Harr IH|size got p left evs Hp Hl Hroom Hend Harr IH|got p Hp Hroom]; intros Hreq Hlen fuel c i sc ps Hw Hf; destruct fuel as [|fuel]; try (cbn in Hf; lia);
    destruct Hw as [Hwf Hs Hgot Hobj Hrem Hin Hsc Hps]; cbn [map app answer_of recv_loop] in *.
  - unfold recv. rewrite Hsc. cbn [recv_failed catch_error mbind option_bind]. eexists. split; [done|]. right. exists size, got, left, evs. split_and!; try done.
    by constructor.
  - pose proof (contents_length _ Hwf) as Hcl. rewrite Hgot in Hcl. assert (Hrl : zlen got + zlen p + zlen left = zlen (render_request args)) by (rewrite <- Hreq, !length_app; lia).
    assert (0 < zlen left) by (destruct left; [done|cbn; lia]). assert (0 < zlen p) by (destruct p; [done|cbn; lia]). rewrite length_app in Hroom.
    rewrite (recv_piece (net c) p (left ++ i) (map answer_of evs ++ sc)); [|done|lia|done|by rewrite Hin, <- app_assoc].
    destruct p as [|x p]; [done|]. destruct (store_ok (buffer (net c)) (x :: p) Hwf) as (b & Eb & Hwb & Hcb & Hob & Hlb & Hsb); [lia|].
    cbn [with_env buffer]. rewrite Eb. cbn [mbind option_bind]. pose proof (contents_length _ Hwb) as Hclb.
    assert (Ewhole : (if slen b <? 2 then Some false else strneq (mem b) (slen b - 2) CRLF) = Some false).
    { destruct (Z.ltb_spec (slen b) 2); [done|]. rewrite <- Hclb, Hcb, Hgot. rewrite (ends_line_strneq (mem b) (got ++ x :: p) (drop (Z.to_nat (slen b)) (mem b))); [by rewrite Hend| |].
      - rewrite <- Hgot, <- Hcb. unfold contents. by rewrite take_drop.
      - rewrite <- Hgot, <- Hcb. lia. }
    rewrite Ewhole. cbn [mbind option_bind]. destruct (more_memory_ok b Hwb) as (b' & -> & [Hwb' Hcb' _ _] & Hsb'); [lia|]. cbn [mbind option_bind].
    destruct (IH ltac:(by rewrite <- app_assoc) Hlen fuel (mkRedis (with_buffer (with_env (net c) (left ++ i) (map answer_of evs ++ sc)) b') (object c)) i sc ps) as (c' & E & Hc'); [|cbn in Hf; lia|].
    + constructor; cbn; try done; [by rewrite Hsb', Hsb, Hs, Hcb, Hgot|by rewrite Hcb', Hcb, Hgot].
    + exists c'. split; [exact E|]. destruct Hc' as [Hc'|(size1 & got' & left' & evs' & G1 & G2 & G3 & G4 & G5)]; [by left|right]. exists size1, got', left', evs'. split_and!; try done. cbn. lia.
  - pose proof (contents_length _ Hwf) as Hcl. rewrite Hgot in Hcl. assert (Hrl : zlen got + zlen p = zlen (render_request args)) by (rewrite <- Hreq, !length_app; lia). rewrite length_app in Hroom.
    rewrite (recv_piece (net c) p i sc); [|done|lia|done|done].
    destruct p as [|x p]; [done|]. destruct (store_ok (buffer (net c)) (x :: p) Hwf) as (b & Eb & Hwb & Hcb & Hob & Hlb & Hsb); [lia|].
    cbn [with_env buffer]. rewrite Eb. cbn [mbind option_bind]. pose proof (contents_length _ Hwb) as Hclb. rewrite Hgot, Hreq in Hcb.
    assert (Hmem : mem b = render_request args ++ drop (Z.to_nat (slen b)) (mem b)) by (rewrite <- Hcb; unfold contents; by rewrite take_drop).
    assert (H2 : 2 <= slen b) by (rewrite <- Hclb, Hcb; pose proof (render_ends_line args Hne) as He; unfold ends_line in He; lia).
    rewrite (proj2 (Z.ltb_ge (slen b) 2)) by done. assert (Hsl : slen b = zlen (render_request args)) by (rewrite <- Hclb; by rewrite Hcb).
    rewrite Hsl, (ends_line_strneq (mem b) (render_request args) _ Hmem) by lia. rewrite render_ends_line by done. cbn [mbind option_bind].
    destruct (turns_request (mem b) package_max_length (soff b) args _ Hne Hlen Hmax Hmem) as [r Er]. rewrite Hobj, Er. cbn [mbind option_bind].
    rewrite (contents_sub b 0 (zlen (render_request args)) Hwb) by lia. rewrite drop_0, Hcb, take_ge by lia. cbn [mbind option_bind].
    unfold redis_dispatch. destruct (onPackage (render_request args)) as [code rm] eqn:Eon. destruct (Hon (render_request args)) as [Hc0 Hrm]. rewrite Eon in Hc0, Hrm. cbn in Hc0, Hrm. subst rm.
    rewrite (proj2 (Z.ltb_ge code 0)) by done. cbn [with_packet removed with_buffer with_env buffer]. rewrite Hrem. cbn [orb].
    eexists. split; [done|]. left. destruct (clear_ok (with_offset b (zlen (render_request args)))) as [Hw' Hc']; [|].
    + destruct Hwb. constructor; cbn; try done. intros E0. lia.
    + constructor; cbn; try done; [by rewrite Hsb|by rewrite Hps].
Qed.

Lemma events_request size' args : args <> [] -> zlen (render_request args) <= package_max_length ->
  forall k size got left evs c i sc ps n, (length evs <= k)%nat -> arrives package_max_length pagesize size' size got left evs -> got ++ left = render_request args ->
  waits size got (left ++ i) (map answer_of evs ++ sc) ps c -> (length (filter (fun e => e = None) evs) < n)%nat ->
  exists c' n', redis_events package_max_length pagesize onPackage n c = redis_events package_max_length pagesize onPackage n' c' /\
    (n <= n' + S (length (filter (fun e => e = None) evs)))%nat /\ waits size' [] i sc (ps ++ [render_request args]) c'.
Proof.
  intros Hne Hlen. induction k as [|k IH]; intros size got left evs c i sc ps n Hk Harr Hreq Hw Hn.
  { destruct evs; [inversion Harr|cbn in Hk; lia]. }
  destruct n as [|n]; [lia|]. cbn [redis_events]. unfold recv_packet.
  destruct (recv_loop_ok size size' args got left evs Harr Hne Hreq Hlen (S (length (script (net c)))) c i sc ps Hw) as (c1 & E & Hc1).
  { rewrite (w_script _ _ _ _ _ _ Hw), length_app, length_map. lia. }
  rewrite E. cbn [mbind option_bind]. change (SW_OK <? 0) with false. cbv iota. destruct Hc1 as [Hc1|(size1 & got' & left' & evs' & Harr' & Hreq' & Hl & Hcount & Hw')].
  - exists c1, n. split_and!; [done|lia|done].
  - destruct (IH size1 got' left' evs' c1 i sc ps n) as (c2 & n2 & E2 & Hn2 & Hc2); [lia|done|done|done|lia|]. exists c2, n2. rewrite Hcount. split_and!; [done|lia|done].
Qed.

(** Requests with the pieces and pauses in which they arrive *)
Inductive traffic : Z -> list (list (list Z) * list (option (list Z))) -> Prop :=
  | traffic_nil size : traffic size []
  | traffic_cons size size' t ts : t.1 <> [] -> zlen (render_request t.1) <= package_max_length ->
      arrives package_max_length pagesize size' size [] (render_request t.1) t.2 -> traffic size' ts -> traffic size (t :: ts).
Definition stream (ts : list (list (list Z) * list (option (list Z)))) : list Z := concat (map (fun t => render_request t.1) ts).
Definition answers (ts : list (list (list Z) * list (option (list Z)))) : list answer := concat (map (fun t => map answer_of t.2) ts).
(** One call for each request and each pause *)
Definition calls (ts : list (list (list Z) * list (option (list Z)))) : nat := sum_list (map (fun t => S (length (filter (fun e => e = None) t.2))) ts).

Lemma events_idle n size ps c : waits size [] [] [] ps c -> exists c', redis_events package_max_length pagesize onPackage n c = Some (c', SW_OK) /\ waits size [] [] [] ps c'.
Proof.
  revert c. induction n as [|n IH]; intros c Hw; cbn [redis_events]; [by exists c|]. unfold recv_packet. pose proof (w_script _ _ _ _ _ _ Hw) as Hs. rewrite Hs. cbn [length recv_loop].
  unfold recv. rewrite Hs. cbn. destruct c as [c o]. apply IH. exact Hw.
Qed.

Lemma events_traffic ts : forall size n c ps, traffic size ts -> waits size [] (stream ts) (answers ts) ps c -> (calls ts <= n)%nat ->
  exists c', redis_events package_max_length pagesize onPackage n c = Some (c', SW_OK) /\ packets (net c') = ps ++ map (fun t => render_request t.1) ts.
Proof.
  induction ts as [|[args evs] ts IH]; intros size n c ps Hts Hw Hn.
  - destruct (events_idle n size ps c Hw) as (c' & E & Hc'). exists c'. split; [done|]. cbn. rewrite app_nil_r. apply Hc'.
  - inversion Hts as [|? size' ? ? Hne Hlen Harr Hts']; subst. cbn [fst snd] in *. change (calls ((args, evs) :: ts)) with (S (length (filter (fun e => e = None) evs)) + calls ts)%nat in Hn.
    change (stream ((args, evs) :: ts)) with (render_request args ++ stream ts) in Hw. change (answers ((args, evs) :: ts)) with (map answer_of evs ++ answers ts) in Hw.
    destruct (events_request size' args Hne Hlen (length evs) size [] (render_request args) evs c (stream ts) (answers ts) ps n) as (c1 & n1 & E1 & Hn1 & Hc1); [lia|done|done|done|lia|].
    destruct (IH size' n1 c1 _ Hts' Hc1) as (c2 & E2 & Hp2); [lia|]. exists c2. rewrite E1, E2, Hp2. split; [done|]. cbn [map fst]. by rewrite <- app_assoc.
Qed.

Lemma traffic_requests size ts : traffic size ts -> Forall (fun t => t.1 <> [] /\ zlen (render_request t.1) <= package_max_length) ts.
Proof. induction 1; by constructor. Qed.
End delivery.

(** ** Reading what was received *)

Section reading.
Context (m : list Z) (pe : Z) (Hpe : pe < 2 ^ 31 - 2).

Lemma zget_arg pre d rest : m = pre ++ render_arg d ++ rest -> zget m (zlen pre) = Some DOLLAR.
Proof. intros ->. rewrite zget_app_r, Z.sub_diag by lia. done. Qed.

Lemma get_number_arg pre d rest : m = pre ++ render_arg d ++ rest -> zlen pre + zlen (render_arg d) <= pe ->
  get_number m (zlen pre) = Some (Some (zlen pre + zlen (DOLLAR :: to_string (zlen d) ++ CRLF), zlen d)).
Proof.
  intros Hm Hp. pose proof (render_arg_length d). unfold render_arg in Hm.
  rewrite (get_number_ok m pre DOLLAR (zlen d) (d ++ CRLF ++ rest)) by (done || lia || (rewrite Hm; cbn [app]; by rewrite <- !app_assoc)).
  do 3 f_equal. cbn [length]. rewrite length_app. change (length CRLF) with 2%nat. lia.
Qed.

Lemma zsub_arg pre d rest : m = pre ++ render_arg d ++ rest -> zsub m (zlen pre + zlen (DOLLAR :: to_string (zlen d) ++ CRLF)) (zlen d) = Some d.
Proof.
  intros Hm. assert (E : m = (pre ++ DOLLAR :: to_string (zlen d) ++ CRLF) ++ d ++ (CRLF ++ rest)).
  { rewrite Hm. unfold render_arg. rewrite <- !app_assoc. cbn [app]. by rewrite <- !app_assoc. }
  rewrite E at 1. rewrite <- Nat2Z.inj_add, <- length_app. apply zsub_app.
Qed.

Lemma parse_args args : forall fuel length_ result pre rest, m = pre ++ concat (map render_arg args) ++ rest -> pe = zlen pre + zlen (concat (map render_arg args)) ->
  args <> [] -> (2 * length args <= fuel)%nat -> parse_loop fuel m pe STATE_RECEIVE_LENGTH length_ (zlen pre) result = Some (result ++ args).
Proof.
  induction args as [|d args IH]; intros fuel length_ result pre rest Hm Hp Hne Hf; [done|]. clear Hne. cbn [map concat length] in *. rewrite length_app in Hp.
  destruct fuel as [|[|fuel]]; [lia..|]. cbn [parse_loop]. rewrite <- app_assoc in Hm. pose proof (render_arg_length d) as Hrl.
  rewrite (zget_arg pre d _ Hm). cbn [mbind option_bind]. change (DOLLAR =? DOLLAR) with true. cbv iota.
  rewrite (get_number_arg pre d _ Hm) by lia. cbn [mbind option_bind]. set (h := zlen (DOLLAR :: to_string (zlen d) ++ CRLF)) in *.
  rewrite (proj2 (Z.eqb_neq (zlen d) (-1))), (proj2 (Z.ltb_lt (zlen pre + h) pe)) by lia. cbn [parse_loop].
  assert (0 <= h) by (unfold h; lia).  unfold parse_string. rewrite (u64_id (pe - (zlen pre + h))) by lia. rewrite (sN_small 32 (zlen d + 2)) by lia. rewrite (u64_id (zlen d + 2)) by lia.
  rewrite (proj2 (Z.ltb_ge (pe - (zlen pre + h)) (zlen d + 2))) by lia. pose proof (zsub_arg pre d _ Hm) as Hsub. fold h in Hsub. rewrite Hsub. cbn [mbind option_bind].
  destruct args as [|d' args].
  - rewrite (proj2 (Z.ltb_ge _ _)) by (cbn [map concat length] in Hp; lia). done.
  - pose proof (render_arg_length d') as Hrl'. rewrite (proj2 (Z.ltb_lt _ _)) by (cbn [map concat] in Hp; rewrite length_app in Hp; lia).
    replace (zlen pre + h + (zlen d + 2)) with (zlen (pre ++ render_arg d)) by (rewrite length_app; lia).
    rewrite (IH fuel _ _ (pre ++ render_arg d) rest); [by rewrite <- app_assoc|by rewrite Hm, <- !app_assoc|rewrite length_app; lia|done|cbn [length] in *; lia].
Qed.

Lemma receive_args args : forall fuel length_ cmd ps pre rest, m = pre ++ concat (map render_arg args) ++ rest -> pe = zlen pre + zlen (concat (map render_arg args)) ->
  args <> [] -> (2 * length args <= fuel)%nat ->
  receive_loop fuel m pe STATE_RECEIVE_LENGTH length_ (zlen pre) (mkCommand (Some cmd) ps) = Some (mkCommand (Some cmd) (ps ++ map Stringl args)).
Proof.
  induction args as [|d args IH]; intros fuel length_ cmd ps pre rest Hm Hp Hne Hf; [done|]. clear Hne. cbn [map concat length] in *. rewrite length_app in Hp.
  destruct fuel as [|[|fuel]]; [lia..|]. cbn [receive_loop]. rewrite <- app_assoc in Hm. pose proof (render_arg_length d) as Hrl.
  rewrite (zget_arg pre d _ Hm). cbn [mbind option_bind]. change (DOLLAR =? DOLLAR) with true. cbv iota.
  rewrite (get_number_arg pre d _ Hm) by lia. cbn [mbind option_bind]. set (h := zlen (DOLLAR :: to_string (zlen d) ++ CRLF)) in *.
  rewrite (proj2 (Z.eqb_neq (zlen d) (-1))), (proj2 (Z.ltb_lt (zlen pre + h) pe)) by lia. cbn [receive_loop].
  unfold receive_string. cbn [command zparams]. rewrite (sN_small 32 (zlen d + 2)) by lia. pose proof (zsub_arg pre d _ Hm) as Hsub. fold h in Hsub. rewrite Hsub. cbn [mbind option_bind].
  destruct args as [|d' args].
  - rewrite (proj2 (Z.ltb_ge _ _)) by (cbn [map concat length] in Hp; lia). done.
  - pose proof (render_arg_length d') as Hrl'. rewrite (proj2 (Z.ltb_lt _ _)) by (cbn [map concat] in Hp; rewrite length_app in Hp; lia).
    replace (zlen pre + h + (zlen d + 2)) with (zlen (pre ++ render_arg d)) by (rewrite length_app; lia).
    rewrite (IH fuel _ _ _ (pre ++ render_arg d) rest); [by rewrite <- app_assoc|by rewrite Hm, <- !app_assoc|rewrite length_app; lia|done|cbn [length] in *; lia].
Qed.
End reading.

Lemma request_head args rest : exists pre, render_request args ++ rest = pre ++ concat (map render_arg args) ++ rest /\
  zlen pre = 1 + zlen (to_string (zlen args)) + 2 /\ zlen (render_request args) = zlen pre + zlen (concat (map render_arg args)).
Proof.
  exists (STAR :: to_string (zlen args) ++ CRLF). unfold render_request. cbn [app length]. rewrite <- !app_assoc, !length_app. change (length CRLF) with 2%nat. split_and!; [done|lia..].
Qed.

Lemma parse_request args : args <> [] -> zlen (render_request args) < 2 ^ 31 - 2 -> parse (render_request args) (zlen (render_request args)) = Some args.
Proof.
  intros Hne Hlen. destruct (request_head args []) as (pre & Em & Hpre & Hpe). rewrite !app_nil_r in Em. unfold parse. cbn [parse_loop].
  pose proof (render_args_length args) as Hal. change (zget (render_request args) 0) with (Some STAR). cbn [mbind option_bind]. change (STAR =? STAR) with true. cbv iota.
  rewrite (get_number_ok _ [] STAR (zlen args) (concat (map render_arg args)) 0) by (done || lia).
  cbn [mbind option_bind]. replace (0 + 1 + zlen (to_string (zlen args)) + 2) with (zlen pre) by lia.
  rewrite (proj2 (Z.ltb_lt _ _)) by (destruct args; [done|cbn [length] in *; lia]). apply (parse_args _ _ Hlen args) with []; [by rewrite app_nil_r|done|done|lia].
Qed.

(** A reply is a string without a line of the total *)
Lemma parse_arg d : zlen (render_arg d) < 2 ^ 31 - 2 -> parse (render_arg d) (zlen (render_arg d)) = Some [d].
Proof.
  intros Hlen. assert (Em : render_arg d = [] ++ render_arg d ++ []) by (by rewrite app_nil_r). unfold parse.
  transitivity (parse_loop (S (Z.to_nat (zlen (render_arg d)))) (render_arg d) (zlen (render_arg d)) STATE_RECEIVE_LENGTH 0 0 []).
  - cbn [parse_loop]. pose proof (zget_arg _ [] d [] Em) as Hg. change (zlen []) with 0 in Hg. rewrite Hg. cbn [mbind option_bind].
    change (DOLLAR =? STAR) with false. change (DOLLAR =? DOLLAR) with true. cbv iota.
    pose proof (get_number_arg _ _ Hlen [] d [] Em) as Hn. change (zlen []) with 0 in Hn. rewrite Hn by lia. cbn [mbind option_bind].
    rewrite (proj2 (Z.eqb_neq (zlen d) (-1))) by lia. done.
  - apply (parse_args _ _ Hlen [d]) with (pre := []) (rest := []); [cbn [map concat app]; by rewrite app_nil_r|cbn [map concat]; rewrite app_nil_r; done|done|].
    pose proof (render_arg_length d). cbn [length] in *. lia.
Qed.

Lemma receive_request name params : (0 ∉ name) -> zlen name < SW_REDIS_MAX_COMMAND_SIZE -> zlen (render_request (name :: params)) < 2 ^ 31 - 2 ->
  redis_onReceive (render_request (name :: params)) = Some (Some (name, map Stringl params)).
Proof.
  intros H0 Hname Hlen. unfold redis_onReceive. set (args := name :: params) in *. destruct (request_head args [0]) as (pre & Em & Hpre & Hpe).
  pose proof (render_args_length args) as Hal. set (m := render_request args ++ [0]) in *.
  remember (S (2 * length (render_request args))) as f1 eqn:Ef. cbn [receive_loop]. change (zget m 0) with (Some STAR). cbn [mbind option_bind]. change (STAR =? STAR) with true. cbv iota.
  rewrite (get_number_ok m [] STAR (zlen args) (concat (map render_arg args) ++ [0]) 0); [|lia|unfold m, render_request; cbn [app]; by rewrite <- !app_assoc|done].
  cbn [mbind option_bind]. replace (0 + 1 + zlen (to_string (zlen args)) + 2) with (zlen pre) by lia.
  assert (Hargs : concat (map render_arg args) = render_arg name ++ concat (map render_arg params)) by done. rewrite Hargs, length_app in Hpe.
  rewrite Hargs, <- app_assoc in Em. pose proof (render_arg_length name) as Hrl. set (h := zlen (DOLLAR :: to_string (zlen name) ++ CRLF)) in *.
  assert (3 <= h) by (unfold h; cbn [length]; rewrite length_app; change (length CRLF) with 2%nat; lia).
  rewrite (proj2 (Z.ltb_lt (zlen pre) _)) by lia. destruct f1 as [|f2]; [lia|]. cbn [receive_loop].
  rewrite (zget_arg m pre name _ Em). cbn [mbind option_bind]. change (DOLLAR =? DOLLAR) with true. cbv iota.
  rewrite (get_number_arg m _ Hlen pre name _ Em) by lia. fold h. cbn [mbind option_bind].
  rewrite (proj2 (Z.eqb_neq (zlen name) (-1))), (proj2 (Z.ltb_lt (zlen pre + h) _)) by lia. destruct f2 as [|f3]; [lia|]. cbn [receive_loop receive_string command zparams mbind option_bind].
  rewrite (sN_small 32 (zlen name + 2)) by lia.
  assert (Hname' : precise_text (zlen name) (drop (Z.to_nat (zlen pre + h)) m) = name).
  { pose proof (zsub_arg m pre name _ Em) as Hsub. fold h in Hsub. apply zsub_Some in Hsub as (_ & _ & _ & Hsub). unfold precise_text.
    rewrite (proj2 (Z.ltb_ge _ _)) by lia. rewrite <- Hsub. by apply c_text_id. }
  destruct params as [|d params].
  - rewrite (proj2 (Z.ltb_ge _ _)) by (cbn [map concat length] in Hpe; lia). cbn [mbind option_bind default command from_option id].
    rewrite (proj2 (Z.leb_gt _ _)) by done. by rewrite Hname'.
  - pose proof (render_arg_length d) as Hrd. rewrite (proj2 (Z.ltb_lt _ _)) by (cbn [map concat] in Hpe; rewrite length_app in Hpe; lia).
    replace (zlen pre + h + (zlen name + 2)) with (zlen (pre ++ render_arg name)) by (rewrite length_app; lia).
    rewrite (receive_args m _ Hlen (d :: params)) with (rest := [0]); [|by rewrite Em, <- !app_assoc|rewrite length_app; lia|done|].
    2:{ assert (length args = S (length (d :: params))) by done. rewrite Hargs, length_app in Hal. lia. }
    cbn [mbind option_bind default command from_option id]. rewrite (proj2 (Z.leb_gt _ _)) by done. by rewrite Hname'.
Qed.

(** The handlers: of a name only 54 bytes are kept *)
Lemma handler_key_eq name : handler_key name = Some (str "_handler_" ++ map tolower (take 54 name)).
Proof.
  unfold handler_key, sw_snprintf. change (SW_REDIS_MAX_COMMAND_SIZE =? 0) with false. cbv iota.
  assert (take (Z.to_nat (SW_REDIS_MAX_COMMAND_SIZE - 1)) (str "_handler_" ++ name) = str "_handler_" ++ take 54 name) as -> by done.
  set (t := str "_handler_" ++ take 54 name). assert (zlen t <= 63) as Ht by (unfold t; rewrite length_app, length_take; change (length (str "_handler_")) with 9%nat; lia).
  destruct (zblit_in_bounds (repeat 0 (Z.to_nat SW_REDIS_MAX_COMMAND_SIZE)) 0 (t ++ [0])) as [m Hm]; [lia|rewrite length_app, repeat_length; change (length [0]) with 1%nat; unfold SW_REDIS_MAX_COMMAND_SIZE; lia|].
  rewrite Hm. cbn [mbind option_bind]. apply zblit_Some in Hm as (_ & _ & ->). change (Z.to_nat 0) with 0%nat. rewrite take_0, <- app_assoc.
  rewrite (zsub_app [] t). cbn [mbind option_bind]. unfold t. by rewrite map_app.
Qed.

(** A handler is found under its name, in capitals or not, and no other one is touched, when
    the names have at most 54 bytes *)
Lemma handler_found {A} (redis_handlers : gmap (list Z) A) command callback name : command <> [] -> zlen command <= 54 -> zlen name <= 54 -> (0 ∉ command) ->
  exists hs, setHandler redis_handlers command callback = Some (hs, true) /\
    if decide (map tolower name = map tolower command) then find_handler hs name = Some (Some callback) else find_handler hs name = find_handler redis_handlers name.
Proof.
  intros Hne Hc Hn H0. unfold setHandler, find_handler. assert (0 < zlen command) by (destruct command; [done|cbn; lia]).
  rewrite (proj2 (Z.eqb_neq _ _)), (proj2 (Z.leb_gt SW_REDIS_MAX_COMMAND_SIZE _)) by (unfold SW_REDIS_MAX_COMMAND_SIZE; lia). cbn [orb].
  rewrite !handler_key_eq, (c_text_id command) by done. rewrite !take_ge by lia. cbn [mbind option_bind]. eexists. split; [done|]. case_decide as E.
  - by rewrite E, lookup_insert_eq.
  - by rewrite lookup_insert_ne by (intros ?%app_inv_head; congruence).
Qed.

(** C29: Redis requests reach their handler.  Requests of binary strings, none longer than
    [package_max_length] (below 2 GB), are sent one after the other, the next one when the one
    before has been received; each arrives in pieces, with pauses, of which the last one ends
    with the request and no other one ends behind a line ([cut_behind_line]); a piece is at
    most as long as the room of the buffer, which grows for a request that does not fit.  [recv]
    does not fail, and the program takes the packets and does not close the connection.  Then
    no call fails, the server gets each request whole, once and in order; [redis::parse] reads
    from it exactly its strings, and [redis_onReceive] the command and exactly its parameters
    when the command has less than 64 bytes and no null byte. *)
Theorem redis_requests_delivered `{Allocator} (package_max_length pagesize : Z) (onPackage : list Z -> Z * bool)
    (size : Z) ts n c :
  package_max_length < 2 ^ 31 - 2 -> 0 < pagesize <= 2 ^ 20 -> (forall p, 0 <= (onPackage p).1 /\ (onPackage p).2 = false) ->
  traffic package_max_length pagesize size ts -> waits size [] (stream ts) (answers ts) [] c -> (calls ts <= n)%nat ->
  exists c', redis_events package_max_length pagesize onPackage n c = Some (c', SW_OK) /\
    map (fun p => parse p (zlen p)) (packets (net c')) = map (fun t => Some t.1) ts /\
    Forall2 (fun t p => forall name params, t.1 = name :: params -> (0 ∉ name) -> zlen name < SW_REDIS_MAX_COMMAND_SIZE ->
      redis_onReceive p = Some (Some (name, map Stringl params))) ts (packets (net c')).
Proof.
  intros Hmax Hpage Hon Hts Hw Hn. destruct (events_traffic package_max_length pagesize onPackage Hmax Hpage Hon ts size n c [] Hts Hw Hn) as (c' & E & Hp).
  apply traffic_requests in Hts. exists c'. cbn [app] in Hp. rewrite Hp. split; [done|]. rewrite map_map. split.
  - apply map_ext_in. intros t Ht%list_elem_of_In. rewrite Forall_forall in Hts. destruct (Hts t Ht) as (Hne & Hlen). apply parse_request; [done|lia].
  - clear -Hts Hmax. induction Hts as [|t ts (_ & Hlen) _ IH]; cbn [map]; constructor; [|done]. intros name params Et H0 Hname. rewrite Et in *.
    apply receive_request; [done|done|lia].
Qed.

(** *** A connection *)

(** The buffer of 64 bytes, [pieces] come one by one *)
Definition redis_conn (pieces : list (list Z)) : RedisConn :=
  mkRedis (mkConn (alloc 64) false false false [] (concat pieces) (map (fun p => Take (zlen p)) pieces)) no_request.
Definition redis_call (c : RedisConn) : option (RedisConn * Z) := recv_packet 8192 4096 (fun _ => (0, false)) c.

Definition demo_traffic : list (list (list Z) * list (option (list Z))) :=
  [([str "SET"; str "k"; [13; 10]], [None; Some (str "*3"); None; Some (CRLF ++ str "$3" ++ CRLF ++ str "SE");
      Some (str "T" ++ CRLF ++ str "$1" ++ CRLF ++ str "k" ++ CRLF ++ str "$2" ++ CRLF ++ CRLF ++ CRLF)]);
   ([str "GET"; str "k"], [Some (render_request [str "GET"; str "k"])]);
   ([str "ECHO"; repeat 46 60], [Some (take 64 (render_request [str "ECHO"; repeat 46 60])); Some (drop 64 (render_request [str "ECHO"; repeat 46 60]))])].

Lemma redis_requests_delivered_witness : exists c',
  redis_events 8192 4096 (fun _ => (0, false)) 5 (mkRedis (mkConn (alloc 64) false false false [] (stream demo_traffic) (answers demo_traffic)) no_request) = Some (c', SW_OK) /\
  map (fun p => parse p (zlen p)) (packets (net c')) = map (fun t => Some t.1) demo_traffic /\
  Forall2 (fun t p => forall name params, t.1 = name :: params -> (0 ∉ name) -> zlen name < SW_REDIS_MAX_COMMAND_SIZE ->
    redis_onReceive p = Some (Some (name, map Stringl params))) demo_traffic (packets (net c')).
Proof.
  apply (redis_requests_delivered 8192 4096 (fun _ => (0, false)) 64).
  - lia.
  - lia.
  - done.
  - apply (traffic_cons _ _ 64 64); [done|done| |apply (traffic_cons _ _ 64 64); [done|done| |apply (traffic_cons _ _ 64 4096); [done|done| |apply traffic_nil]]]; cbn [fst snd].
    + apply arrives_pause. apply (arrives_piece _ _ _ _ [] (str "*3") (CRLF ++ str "$3" ++ CRLF ++ str "SE" ++ str "T" ++ CRLF ++ str "$1" ++ CRLF ++ str "k" ++ CRLF ++ str "$2" ++ CRLF ++ CRLF ++ CRLF)); [done..|].
      apply arrives_pause. apply (arrives_piece _ _ _ _ _ (CRLF ++ str "$3" ++ CRLF ++ str "SE") (str "T" ++ CRLF ++ str "$1" ++ CRLF ++ str "k" ++ CRLF ++ str "$2" ++ CRLF ++ CRLF ++ CRLF)); [done..|].
      by apply arrives_last.
    + by apply arrives_last.
    + rewrite <- (take_drop 64 (render_request _)) at 1. apply arrives_piece; [done..|]. by apply arrives_last.
  - destruct (alloc_wf 64) as (Hw & Hc & _); [unfold max_len; lia|]. by constructor.
  - apply Nat.leb_le. by vm_compute.
Defined.

(** ** What else a client may send *)

(** Longer names are cut: two commands that differ behind the 54th byte have one handler *)
Lemma handler_cut {A} (redis_handlers : gmap (list Z) A) callback : let name x := repeat 97 54 ++ [x] in
  exists hs, setHandler redis_handlers (name 98) callback = Some (hs, true) /\ find_handler hs (name 99) = Some (Some callback).
Proof.
  intros name. unfold setHandler, find_handler. change ((zlen (name 98) =? 0) || (SW_REDIS_MAX_COMMAND_SIZE <=? zlen (name 98))) with false. cbv iota.
  rewrite !handler_key_eq. cbn [mbind option_bind]. eexists. split; [done|]. by rewrite lookup_insert_eq.
Qed.

(** A piece that ends behind a line closes the connection, although the request goes on *)
Lemma cut_behind_line : exists c, redis_call (redis_conn [str "*1" ++ CRLF; str "$4" ++ CRLF ++ str "PING" ++ CRLF]) = Some (c, SW_ERR).
Proof. eexists. vm_compute. done. Qed.
(** A string that arrives in parts that end with line ends is delivered before it is complete:
    20 bytes are announced, 16 have come *)
Definition two_parts : list (list Z) := [str "*1" ++ CRLF ++ str "$20" ++ CRLF ++ str "12345678" ++ CRLF; str "1234" ++ CRLF].
Lemma part_delivered : match redis_call (redis_conn two_parts) with
  | Some (c, _) => match redis_call c with Some (c, r) => (packets (net c), r) = ([concat two_parts], SW_OK) | None => False end
  | None => False
  end.
Proof. vm_compute. done. Qed.
(** Requests that arrive together are one packet, in which the second one is taken for strings
    of the first one, the last of them behind the end *)
Definition ping : list Z := render_request [str "PING"].
Lemma pipeline_is_one : match redis_call (redis_conn [ping ++ ping]) with Some (c, _) => packets (net c) = [ping ++ ping] | None => False end.
Proof. vm_compute. done. Qed.
Lemma pipeline_misread : redis_onReceive (ping ++ ping) = None /\ parse (ping ++ ping) (zlen (ping ++ ping)) = Some [str "PING"; str "*1" ++ CRLF; CRLF ++ str "PI"].
Proof. by vm_compute. Qed.
(** An integer or a nil among the strings is not counted *)
Lemma integer_refused : match redis_call (redis_conn [str "*2" ++ CRLF ++ render_arg (str "GET") ++ str ":5" ++ CRLF]) with Some (c, r) => r = SW_ERR | None => False end.
Proof. vm_compute. done. Qed.
(** A sign without a number at the end of the memory: [strtol] takes the line end for blanks
    and reads on behind it *)
Lemma number_overread : get_number (str "*1" ++ CRLF ++ str "$" ++ CRLF) 4 = None.
Proof. done. Qed.
(** What follows a complete request is delivered with it.  A sign without a number makes the
    server read through the null pointer, a length without its string makes it copy what is
    behind the packet *)
Definition bad_number : list Z := ping ++ str "$x" ++ CRLF.
Definition bad_length : list Z := ping ++ str "$1000" ++ CRLF ++ CRLF.
Lemma bad_delivered : Forall (fun d => match redis_call (redis_conn [d]) with Some (c, r) => (packets (net c), r) = ([d], SW_OK) | None => False end) [bad_number; bad_length].
Proof. repeat constructor; by vm_compute. Qed.
Lemma bad_number_crashes : redis_onReceive bad_number = None /\ parse bad_number (zlen bad_number) = None.
Proof. by vm_compute. Qed.
Lemma bad_length_overreads : redis_onReceive bad_length = None /\ parse bad_length (zlen bad_length) = Some [str "PING"].
Proof. by vm_compute. Qed.
(** ** Replies *)

(** A string is its length and its bytes; what was in the buffer is lost *)
Lemma format_bulk `{Allocator} b d : str_wf b -> d <> [] -> zlen d < 2 ^ 31 -> slen b < 2 ^ 60 ->
  exists b', format b REPLY_STRING d = Some b' /\ str_wf b' /\ contents b' = render_arg d.
Proof.
  intros Hb Hd Hl Hs. unfold format. destruct d as [|c d]; [done|]. remember (c :: d) as e.
  assert (Ht : zlen (to_string (zlen e)) <= 10).
  { rewrite to_string_positive, (print_number_fuel 9) by lia. pose proof (print_loop_length 9 (zlen e)). lia. }
  unfold format_string. destruct (format_impl_ok false b (DOLLAR :: to_string (zlen e) ++ CRLF)) as (b1 & -> & Hw1 & Hc1 & _); [done|done| |].
  { cbn [length]. rewrite length_app. unfold max_len. cbn [length CRLF]. lia. }
  cbn [mbind option_bind]. pose proof (contents_length _ Hw1) as Hl1. rewrite Hc1 in Hl1. cbn [length] in Hl1. rewrite length_app in Hl1. cbn [length CRLF] in Hl1.
  destruct (append_ok b1 e) as (b2 & -> & Hw2 & Hc2 & Hl2 & _); [done|unfold max_len; lia|]. cbn [mbind option_bind].
  destruct (append_ok b2 CRLF) as (b3 & -> & Hw3 & Hc3 & _); [done|unfold max_len; cbn [length CRLF]; lia|].
  exists b3. split_and!; [done|done|]. rewrite Hc3, Hc2, Hc1. unfold render_arg. cbn [app]. by rewrite <- !app_assoc.
Qed.

(** A client that reads the reply gets the string *)
Lemma reply_roundtrip `{Allocator} b d : str_wf b -> d <> [] -> zlen d < 2 ^ 31 - 20 -> slen b < 2 ^ 60 ->
  exists b', format b REPLY_STRING d = Some b' /\ parse (contents b') (slen b') = Some [d].
Proof.
  intros Hb Hd Hl Hs. destruct (format_bulk b d Hb Hd) as (b' & E & Hw & Hc); [lia|done|]. exists b'. split; [done|].
  rewrite <- (contents_length _ Hw), Hc. apply parse_arg. rewrite render_arg_length. cbn [length]. rewrite length_app. cbn [length CRLF].
  rewrite to_string_positive, (print_number_fuel 9) by lia. pose proof (print_loop_length 9 (zlen d)). lia.
Qed.

(** The empty string has no reply, and a reply behind another one replaces it, unless it is
    nil, or a status or an error without a text *)
Definition after (b : option Str) (f : Str -> option Str) : option (list Z) := b ← b; b ← f b; Some (contents b).
Lemma empty_reply `{Allocator} b : format b REPLY_STRING [] = Some b.
Proof. done. Qed.
Lemma reply_replaces : let ok := format (alloc 64) REPLY_STATUS [] in
  after ok (fun b => format_int b 5) = Some (str ":5" ++ CRLF) /\ after ok (fun b => format b REPLY_STRING (str "x")) = Some (str "$1" ++ CRLF ++ str "x" ++ CRLF) /\
  after ok format_nil = Some (str "+OK" ++ CRLF ++ str "$-1" ++ CRLF).
Proof. by vm_compute. Qed.
