(* ===== verification/Socks5.v ===== *)
(** * Connections through a SOCKS5 proxy

    [src/protocol/socks5.cc] and [Socket::socks5_handshake] of [src/coroutine/socket.cc] (the
    same loop is in [Client] of [src/network/client.cc]): the negotiation with the proxy over
    the packet buffer of 512 bytes.  The proxy is a function of what it was sent.  [None] is an
    access out of bounds, or fuel that is used up. *)

From stdpp Require Import strings.
From S2P Require Import Prelude CStr.

(** ** Definitions *)

Inductive State := STATE_WAIT | STATE_HANDSHAKE | STATE_AUTH | STATE_CONNECT | STATE_READY.
Definition VERSION_CODE : Z := 5.
Definition METHOD_NO_AUTH : Z := 0.
Definition METHOD_AUTH : Z := 2.

(** How a socket type is taken: IPv4, IPv6 or something else *)
Inductive Family := inet4 | inet6 | other.

Record Socks5Proxy := mkProxy {
  state : State; method : Z; dns_tunnel : bool; username : list Z; password : list Z;
  target_host : list Z; target_port : Z; socket_type : Family; buf : list Z;
}.
Definition with_state (x : Socks5Proxy) (s : State) : Socks5Proxy :=
  mkProxy s (method x) (dns_tunnel x) (username x) (password x) (target_host x) (target_port x) (socket_type x) (buf x).
Definition with_method (x : Socks5Proxy) (m : Z) : Socks5Proxy :=
  mkProxy (state x) m (dns_tunnel x) (username x) (password x) (target_host x) (target_port x) (socket_type x) (buf x).
Definition with_buf (x : Socks5Proxy) (b : list Z) : Socks5Proxy :=
  mkProxy (state x) (method x) (dns_tunnel x) (username x) (password x) (target_host x) (target_port x) (socket_type x) b.

(** The target is set when the connection is made *)
Definition create (socket_type : Family) (user pwd stack host : list Z) (port : Z) : option Socks5Proxy :=
  if (250 <? zlen user) || (250 <? zlen pwd) then None
  else
    let auth := negb (zlen user =? 0) && negb (zlen pwd =? 0) in
    Some (mkProxy STATE_WAIT 0 true (if auth then user else []) (if auth then pwd else []) host port socket_type stack).

Definition pack_negotiate_request (x : Socks5Proxy) : option (Socks5Proxy * Z) :=
  b ← zset (buf x) 0 VERSION_CODE;
  b ← zset b 1 1;
  let m := if zlen (username x) =? 0 then METHOD_NO_AUTH else METHOD_AUTH in
  b ← zset b 2 m;
  Some (with_buf (with_method x m) b, 3).

Definition pack_auth_request (x : Socks5Proxy) : option (Socks5Proxy * Z) :=
  b ← zset (buf x) 0 1;
  b ← zset b 1 (u8 (zlen (username x)));
  let p := 2 in
  '(b, p) ← (if zlen (username x) =? 0 then Some (b, p) else b ← zblit b p (username x); Some (b, p + zlen (username x)));
  b ← zset b p (u8 (zlen (password x)));
  let p := p + 1 in
  '(b, p) ← (if zlen (password x) =? 0 then Some (b, p) else b ← zblit b p (password x); Some (b, p + zlen (password x)));
  Some (with_buf x b, p).

(** The outer option is the memory, the inner one [SW_ERR] *)
Section handshake.
Context (assign : Family -> list Z -> option (list Z)).

Definition pack_connect_request (x : Socks5Proxy) : option (Socks5Proxy * option Z) :=
  b ← zblit (buf x) 0 [VERSION_CODE; 1; 0];
  let p := 3 in
  o ← (if dns_tunnel x then
         if 255 <? zlen (target_host x) then Some (inl b)
         else
           b ← zset b p 3;
           b ← zset b (p + 1) (u8 (zlen (target_host x)));
           let p := p + 2 in
           b ← zblit b p (target_host x);
           Some (inr (b, p + zlen (target_host x)))
       else
         match assign (socket_type x) (target_host x) with
         | None => Some (inl b)
         | Some addr =>
             match socket_type x with
             | inet4 => b ← zset b p 1; b ← zblit b (p + 1) addr; Some (inr (b, p + 1 + zlen addr))
             | inet6 => b ← zset b p 4; b ← zblit b (p + 1) addr; Some (inr (b, p + 1 + zlen addr))
             | other => Some (inl b)
             end
         end);
  match o with
  | inl b => Some (with_buf x b, None)
  | inr (b, p) => b ← zblit b p (be_bytes 2 (u16 (target_port x))); Some (with_buf x b, Some (p + 2))
  end.

(** What was sent so far goes with the proxy; [send] is the result of a call *)
Context (send : list (list Z) -> list Z -> Z).

Definition send_buf (x : Socks5Proxy) (sent : list (list Z)) (len : Z) : option (Socks5Proxy * list (list Z) * Z) :=
  d ← zsub (buf x) 0 len; Some (x, sent ++ [d], send sent d).

Definition send_connect_request (x : Socks5Proxy) (sent : list (list Z)) : option (Socks5Proxy * list (list Z) * bool) :=
  '(x, len) ← pack_connect_request (with_state x STATE_CONNECT);
  match len with
  | None => Some (x, sent, false)
  | Some len => '(x, sent, r) ← send_buf x sent len; Some (x, sent, r =? len)
  end.

(** [rbuf] is the memory, [rlen] bytes of it were received *)
Definition handshake (x : Socks5Proxy) (sent : list (list Z)) (rbuf : list Z) (rlen : Z) : option (Socks5Proxy * list (list Z) * bool) :=
  if rlen <? 2 then Some (x, sent, false) else
  resp_version ← zget rbuf 0;
  resp_result ← zget rbuf 1;
  match state x with
  | STATE_HANDSHAKE =>
      if negb (resp_version =? VERSION_CODE) then Some (x, sent, false)
      else if negb (method x =? resp_result) then Some (x, sent, false)
      else if method x =? METHOD_AUTH then
        '(x, len) ← pack_auth_request x;
        '(x, sent, r) ← send_buf (with_state x STATE_AUTH) sent len;
        Some (x, sent, r =? len)
      else send_connect_request x sent
  | STATE_AUTH =>
      if negb (resp_version =? 1) then Some (x, sent, false)
      else if negb (resp_result =? 0) then Some (x, sent, false)
      else send_connect_request x sent
  | STATE_CONNECT =>
      if negb (resp_version =? VERSION_CODE) then Some (x, sent, false)
      else if resp_result =? 0 then Some (with_state x STATE_READY, sent, true)
      else Some (x, sent, false)
  | _ => Some (x, sent, true)
  end.

(** [recv_] is what a call of [recv] finds after what was sent, nothing for an error or the
    end; it has 512 bytes of room *)
Context (recv_ : list (list Z) -> list Z).

Fixpoint handshake_loop (fuel : nat) (x : Socks5Proxy) (sent : list (list Z)) (recv_buf : list Z) : option (Socks5Proxy * list (list Z) * bool) :=
  match fuel with
  | O => None
  | S fuel =>
      let d := take 512 (recv_ sent) in
      m ← zblit recv_buf 0 d;
      if 0 <? zlen d then
        '(x, sent, ok) ← handshake x sent m (zlen d);
        if ok : bool then
          match state x with
          | STATE_READY => Some (x, sent, true)
          | _ => handshake_loop fuel x sent m
          end
        else Some (x, sent, false)
      else Some (x, sent, false)
  end.
(** Every turn leads to a later state: four are enough *)
Definition socks5_handshake (x : Socks5Proxy) (recv_buf : list Z) : option (Socks5Proxy * list (list Z) * bool) :=
  '(x, len) ← pack_negotiate_request x;
  '(x, sent, r) ← send_buf x [] len;
  if r <? 0 then Some (x, sent, false)
  else handshake_loop 4 (with_state x STATE_HANDSHAKE) sent recv_buf.
End handshake.

(** ** The packets *)

Definition negotiate_packet (auth : bool) : list Z := [VERSION_CODE; 1; if auth then METHOD_AUTH else METHOD_NO_AUTH].
Definition auth_packet (user pwd : list Z) : list Z := [1; zlen user] ++ user ++ [zlen pwd] ++ pwd.
Definition connect_packet (host : list Z) (port : Z) : list Z := [VERSION_CODE; 1; 0; 3; zlen host] ++ host ++ be_bytes 2 (u16 port).
Definition has_auth (user pwd : list Z) : bool := negb (zlen user =? 0) && negb (zlen pwd =? 0).
Definition packets (user pwd host : list Z) (port : Z) : list (list Z) :=
  [negotiate_packet (has_auth user pwd)] ++ (if has_auth user pwd then [auth_packet user pwd] else []) ++ [connect_packet host port].
(** What a proxy that agrees answers to them, in the first two bytes *)
Definition replies (user pwd : list Z) : list (list Z) :=
  [[VERSION_CODE; if has_auth user pwd then METHOD_AUTH else METHOD_NO_AUTH]] ++ (if has_auth user pwd then [[1; 0]] else []) ++ [[VERSION_CODE; 0]].

(** One write behind the others *)
Lemma put_next (m a m1 : list Z) off b : zblit m 0 a = Some m1 -> off = zlen a -> zlen a + zlen b <= zlen m ->
  exists m2, zblit m1 off b = Some m2 /\ zblit m 0 (a ++ b) = Some m2.
Proof.
  intros E -> H. assert (A := zblit_append m 0 a b ltac:(lia) ltac:(lia)). rewrite E in A. cbn [mbind option_bind] in A.
  destruct (zblit_in_bounds m 0 (a ++ b)) as [m2 E2]; [lia|rewrite length_app; lia|]. exists m2. by rewrite E2 in A.
Qed.
Lemma put_written (m d m1 : list Z) : zblit m 0 d = Some m1 -> zlen m = 512 -> zlen m1 = 512 /\ zsub m1 0 (zlen d) = Some d.
Proof. intros E Hm. split; [apply zblit_length in E; lia|by eapply zsub_zblit]. Qed.

Lemma pack_negotiate_ok x : zlen (buf x) = 512 -> let auth := negb (zlen (username x) =? 0) in
  exists b, pack_negotiate_request x = Some (with_buf (with_method x (if auth then METHOD_AUTH else METHOD_NO_AUTH)) b, 3) /\
    zlen b = 512 /\ zsub b 0 3 = Some (negotiate_packet auth).
Proof.
  intros Hb auth. unfold pack_negotiate_request. rewrite zset_zblit. destruct (zblit_in_bounds (buf x) 0 [VERSION_CODE]) as [m1 E1]; [lia|cbn; lia|]. rewrite E1.
  cbn [mbind option_bind]. rewrite zset_zblit. destruct (put_next _ _ _ 1 [1] E1) as (m2 & -> & E2); [done|cbn; lia|]. cbn [mbind option_bind]. rewrite zset_zblit.
  replace (if zlen (username x) =? 0 then METHOD_NO_AUTH else METHOD_AUTH) with (if auth then METHOD_AUTH else METHOD_NO_AUTH) by (unfold auth; by destruct (_ =? 0)).
  destruct (put_next _ _ _ 2 [if auth then METHOD_AUTH else METHOD_NO_AUTH] E2) as (m3 & -> & E3); [done|cbn; lia|]. cbn [mbind option_bind].
  exists m3. split; [done|]. exact (put_written _ _ _ E3 Hb).
Qed.

Lemma put_optional (b u : list Z) p : 0 <= p <= zlen b ->
  (if zlen u =? 0 then Some (b, p) else b ← zblit b p u; Some (b, p + zlen u)) = (b ← zblit b p u; Some (b, p + zlen u)).
Proof.
  intros Hp. destruct u as [|c u]; [|done]. cbn [length]. change (Z.of_nat 0 =? 0) with true. cbv iota.
  assert (E : zblit b p [] = Some b). { apply zblit_Some. cbn [length]. split_and!; [lia|lia|]. rewrite Nat.add_0_r. cbn [app]. by rewrite take_drop. }
  rewrite E. cbn [mbind option_bind]. by rewrite Z.add_0_r.
Qed.

Lemma u8_small z : 0 <= z <= 255 -> u8 z = z.
Proof. intros. apply uN_small. unfold fits. lia. Qed.

Lemma pack_auth_ok x : zlen (buf x) = 512 -> zlen (username x) <= 250 -> zlen (password x) <= 250 ->
  exists b, pack_auth_request x = Some (with_buf x b, zlen (auth_packet (username x) (password x))) /\
    zlen b = 512 /\ zsub b 0 (zlen (auth_packet (username x) (password x))) = Some (auth_packet (username x) (password x)).
Proof.
  intros Hb Hu Hp. unfold pack_auth_request. set (u := username x) in *. set (w := password x) in *.
  rewrite zset_zblit. destruct (zblit_in_bounds (buf x) 0 [1]) as [m1 E1]; [lia|cbn; lia|]. rewrite E1. cbn [mbind option_bind]. rewrite zset_zblit, !u8_small by lia.
  destruct (put_next _ _ _ 1 [zlen u] E1) as (m2 & -> & E2); [done|cbn; lia|]. cbn [mbind option_bind].
  destruct (put_written _ _ _ E2 Hb) as [L2 _]. rewrite put_optional by lia.
  destruct (put_next _ _ _ 2 u E2) as (m3 & -> & E3); [done|cbn [app length]; lia|]. cbn [mbind option_bind]. rewrite zset_zblit.
  destruct (put_next _ _ _ (2 + zlen u) [zlen w] E3) as (m4 & -> & E4); [cbn [app length]; lia|cbn [app length]; lia|]. cbn [mbind option_bind].
  destruct (put_written _ _ _ E4 Hb) as [L4 _]. rewrite put_optional by lia.
  destruct (put_next _ _ _ (2 + zlen u + 1) w E4) as (m5 & -> & E5); [rewrite length_app; cbn [app length]; lia|rewrite length_app; cbn [app length]; lia|]. cbn [mbind option_bind].
  assert (Epk : ((([1] ++ [zlen u]) ++ u) ++ [zlen w]) ++ w = auth_packet u w) by (unfold auth_packet; by rewrite <- !app_assoc).
  replace (2 + zlen u + 1 + zlen w) with (zlen (auth_packet u w)) by (unfold auth_packet; rewrite !length_app; cbn [length]; lia).
  exists m5. split; [done|]. rewrite Epk in E5. exact (put_written _ _ _ E5 Hb).
Qed.

Lemma pack_connect_ok assign x : zlen (buf x) = 512 -> dns_tunnel x = true -> zlen (target_host x) <= 255 ->
  let pk := connect_packet (target_host x) (target_port x) in
  exists b, pack_connect_request assign x = Some (with_buf x b, Some (zlen pk)) /\ zlen b = 512 /\ zsub b 0 (zlen pk) = Some pk.
Proof.
  intros Hb Hd Hh pk. unfold pack_connect_request. rewrite Hd. set (h := target_host x) in *.
  destruct (zblit_in_bounds (buf x) 0 [VERSION_CODE; 1; 0]) as [m1 E1]; [lia|cbn; lia|]. rewrite E1. cbn [mbind option_bind].
  rewrite (proj2 (Z.ltb_ge 255 (zlen h))) by lia. rewrite zset_zblit, u8_small by lia.
  destruct (put_next _ _ _ 3 [3] E1) as (m2 & -> & E2); [done|cbn; lia|]. cbn [mbind option_bind]. rewrite zset_zblit.
  destruct (put_next _ _ _ (3 + 1) [zlen h] E2) as (m3 & -> & E3); [done|cbn; lia|]. cbn [mbind option_bind].
  destruct (put_next _ _ _ (3 + 2) h E3) as (m4 & -> & E4); [done|cbn [app length]; lia|]. cbn [mbind option_bind].
  destruct (put_next _ _ _ (3 + 2 + zlen h) (be_bytes 2 (u16 (target_port x))) E4) as (m5 & -> & E5); [cbn [app length]; lia|rewrite be_bytes_length; cbn [app length]; lia|].
  cbn [mbind option_bind]. replace (3 + 2 + zlen h + 2) with (zlen pk) by (unfold pk, connect_packet; rewrite !length_app, be_bytes_length; cbn [length]; lia).
  assert (Epk : ((([VERSION_CODE; 1; 0] ++ [3]) ++ [zlen h]) ++ h) ++ be_bytes 2 (u16 (target_port x)) = pk) by (unfold pk, connect_packet; by rewrite <- !app_assoc).
  exists m5. split; [done|]. rewrite Epk in E5. exact (put_written _ _ _ E5 Hb).
Qed.

(** ** The negotiation *)

Section negotiation.
Context (assign : Family -> list Z -> option (list Z)) (send : list (list Z) -> list Z -> Z) (recv_ : list (list Z) -> list Z).
Context (Hsend : forall sent d, send sent d = zlen d).

(** The first two bytes of an answer *)
Definition answers (sent : list (list Z)) (r : list Z) : bool := bool_decide (take 2 (recv_ sent) = r).

(** What does not change *)
Record same (x y : Socks5Proxy) : Prop := {
  same_tunnel : dns_tunnel y = true; same_user : username y = username x; same_pwd : password y = password x;
  same_host : target_host y = target_host x; same_port : target_port y = target_port x; same_buf : zlen (buf y) = 512;
}.

Lemma take_two (l : list Z) a b : zget l 0 = Some a -> zget l 1 = Some b -> take 2 l = [a; b].
Proof. destruct l as [|x [|y l]]; [done|done|]. intros [= ->] [= ->]. done. Qed.

(** A turn: too short, or the first two bytes decide *)
Lemma turn_cases sent recv_buf : zlen recv_buf = 512 -> let d := take 512 (recv_ sent) in
  exists m, zblit recv_buf 0 d = Some m /\ zlen m = 512 /\
    (zlen d < 2 /\ (forall a b, answers sent [a; b] = false) \/
     2 <= zlen d /\ exists a b, zget m 0 = Some a /\ zget m 1 = Some b /\ forall a' b', answers sent [a'; b'] = (a =? a') && (b =? b')).
Proof.
  intros Hr d. assert (Hd : zlen d <= 512) by (unfold d; rewrite length_take; lia).
  destruct (zblit_in_bounds recv_buf 0 d) as [m E]; [lia..|]. exists m. split; [done|]. pose proof (zblit_length _ _ _ _ E). split; [lia|].
  assert (T2 : take 2 (recv_ sent) = take 2 d) by (unfold d; rewrite take_take; done).
  destruct (Z.lt_decidable (zlen d) 2) as [Hs|Hs]; [left|right].
  - split; [done|]. intros a b. apply bool_decide_eq_false. rewrite T2. intros E2. apply (f_equal length) in E2. rewrite length_take in E2. cbn [length] in E2. lia.
  - split; [lia|]. destruct (zget_in_bounds d 0) as [a Ha]; [lia|]. destruct (zget_in_bounds d 1) as [b Hb]; [lia|]. exists a, b.
    pose proof (zsub_zblit _ _ _ _ E) as Hz. pose proof (zsub_zget _ _ _ _ 0 Hz ltac:(lia)) as G0. pose proof (zsub_zget _ _ _ _ 1 Hz ltac:(lia)) as G1.
    rewrite Z.add_0_l in G0, G1. split_and!; [congruence|congruence|]. intros a' b'. unfold answers. rewrite T2, (take_two d a b Ha Hb).
    destruct (Z.eqb_spec a a'), (Z.eqb_spec b b'); cbn [andb]; (apply bool_decide_eq_true; congruence) || (apply bool_decide_eq_false; congruence).
Qed.

Lemma send_buf_ok x sent pk : zsub (buf x) 0 (zlen pk) = Some pk -> send_buf send x sent (zlen pk) = Some (x, sent ++ [pk], zlen pk).
Proof. intros E. unfold send_buf. rewrite E. cbn [mbind option_bind]. by rewrite Hsend. Qed.

(** From the state that waits for the answer to the connect request *)
Lemma connect_turn fuel x sent recv_buf : state x = STATE_CONNECT -> zlen recv_buf = 512 ->
  exists x', handshake_loop assign send recv_ (S fuel) x sent recv_buf = Some (x', sent, answers sent [VERSION_CODE; 0]) /\
    (answers sent [VERSION_CODE; 0] = true -> state x' = STATE_READY).
Proof.
  intros Hs Hr. cbn [handshake_loop]. destruct (turn_cases sent recv_buf Hr) as (m & -> & Hm & Hc). cbn [mbind option_bind]. unfold handshake.
  destruct Hc as [[Hd Ha]|(Hd & a & b & G0 & G1 & Ha)].
  - rewrite Ha. exists x. destruct (0 <? _); [|done]. by rewrite (proj2 (Z.ltb_lt _ 2) Hd).
  - rewrite (proj2 (Z.ltb_lt 0 _)), (proj2 (Z.ltb_ge _ 2)) by lia. rewrite G0, G1, Hs, Ha. cbn [mbind option_bind].
    destruct (a =? VERSION_CODE); cbn [negb andb mbind option_bind]; [|by exists x]. destruct (b =? 0); cbn [mbind option_bind with_state state]; [|by exists x]. eexists. split; done.
Qed.

(** The connect request is sent, then answered *)
Lemma connect_request fuel x0 x sent recv_buf : same x0 x -> zlen (target_host x0) <= 255 -> zlen recv_buf = 512 ->
  let sent' := sent ++ [connect_packet (target_host x0) (target_port x0)] in
  exists x' ok, ('(x, sent, ok) ← send_connect_request assign send x sent;
     if ok : bool then match state x with STATE_READY => Some (x, sent, true) | _ => handshake_loop assign send recv_ (S fuel) x sent recv_buf end
     else Some (x, sent, false)) = Some (x', sent', ok) /\ ok = answers sent' [VERSION_CODE; 0] /\ (ok = true -> state x' = STATE_READY).
Proof.
  intros [Ht Hu Hp Hh Hpo Hb] H255 Hr sent'. unfold send_connect_request. rewrite <- Hh in H255.
  destruct (pack_connect_ok assign (with_state x STATE_CONNECT) Hb Ht H255) as (b & -> & Lb & Hz). cbn [mbind option_bind].
  change (target_host (with_state x STATE_CONNECT)) with (target_host x) in *. change (target_port (with_state x STATE_CONNECT)) with (target_port x) in *.
  rewrite send_buf_ok by done. cbn [mbind option_bind]. rewrite Z.eqb_refl. cbn [with_buf with_state state]. rewrite Hh, Hpo. fold sent'.
  destruct (connect_turn fuel (with_buf (with_state x STATE_CONNECT) b) sent' recv_buf) as (x' & E & Hx'); [done|done|].
  exists x', (answers sent' [VERSION_CODE; 0]). split_and!; [exact E|done|done].
Qed.

(** From the state that waits for the answer to the user and the password *)
Lemma auth_turn fuel x0 x sent recv_buf : same x0 x -> zlen (target_host x0) <= 255 -> state x = STATE_AUTH -> zlen recv_buf = 512 ->
  let sent' := sent ++ [connect_packet (target_host x0) (target_port x0)] in
  exists x' s' ok, handshake_loop assign send recv_ (S (S fuel)) x sent recv_buf = Some (x', s', ok) /\
    ok = answers sent [1; 0] && answers sent' [VERSION_CODE; 0] /\ s' = (if answers sent [1; 0] then sent' else sent) /\ (ok = true -> state x' = STATE_READY).
Proof.
  intros Hsame H255 Hs Hr sent'. remember (S fuel) as fuel'. cbn [handshake_loop]. destruct (turn_cases sent recv_buf Hr) as (m & -> & Hm & Hc). cbn [mbind option_bind]. unfold handshake.
  destruct Hc as [[Hd Ha]|(Hd & a & b & G0 & G1 & Ha)].
  - rewrite Ha. exists x, sent, false. destruct (0 <? _); [|done]. by rewrite (proj2 (Z.ltb_lt _ 2) Hd).
  - rewrite (proj2 (Z.ltb_lt 0 _)), (proj2 (Z.ltb_ge _ 2)) by lia. rewrite G0, G1, Hs, Ha. cbn [mbind option_bind].
    destruct (a =? 1); cbn [negb andb mbind option_bind]; [|by exists x, sent, false]. destruct (b =? 0); cbn [negb mbind option_bind]; [|by exists x, sent, false].
    subst fuel'. destruct (connect_request fuel x0 x sent m Hsame H255 Hm) as (x' & ok & E & Hok & Hx'). exists x', sent', ok. split_and!; done.
Qed.
(** From the first answer on *)
Lemma first_turn fuel x0 x sent recv_buf (auth : bool) : same x0 x -> zlen (target_host x0) <= 255 -> zlen (username x0) <= 250 -> zlen (password x0) <= 250 ->
  state x = STATE_HANDSHAKE -> method x = (if auth then METHOD_AUTH else METHOD_NO_AUTH) -> zlen recv_buf = 512 ->
  let s1 := if auth then sent ++ [auth_packet (username x0) (password x0)] else sent in
  let s2 := s1 ++ [connect_packet (target_host x0) (target_port x0)] in
  let r0 := answers sent [VERSION_CODE; method x] in
  let r1 := if auth then answers s1 [1; 0] else true in
  exists x' s' ok, handshake_loop assign send recv_ (S (S (S fuel))) x sent recv_buf = Some (x', s', ok) /\
    ok = r0 && r1 && answers s2 [VERSION_CODE; 0] /\ s' = (if r0 then if r1 then s2 else s1 else sent) /\ (ok = true -> state x' = STATE_READY).
Proof.
  intros Hsame H255 Hu Hp Hs Hmeth Hr s1 s2 r0 r1. remember (S (S fuel)) as fuel'. cbn [handshake_loop]. destruct (turn_cases sent recv_buf Hr) as (m & -> & Hm & Hc).
  cbn [mbind option_bind]. unfold handshake. destruct Hc as [[Hd Ha]|(Hd & a & b & G0 & G1 & Ha)].
  { unfold r0. rewrite Ha. exists x, sent, false. destruct (0 <? _); [|done]. by rewrite (proj2 (Z.ltb_lt _ 2) Hd). }
  rewrite (proj2 (Z.ltb_lt 0 _)), (proj2 (Z.ltb_ge _ 2)) by lia. unfold r0. rewrite G0, G1, Hs, Ha. cbn [mbind option_bind].
  destruct (a =? VERSION_CODE); cbn [negb andb mbind option_bind]; [|by exists x, sent, false]. rewrite (Z.eqb_sym b).
  destruct (method x =? b); cbn [negb andb mbind option_bind]; [|by exists x, sent, false]. rewrite Hmeth. subst fuel'. destruct auth.
  - change (METHOD_AUTH =? METHOD_AUTH) with true. cbv iota. pose proof Hsame as [Ht Eu Ep Eh Epo Hb]. rewrite <- Eu in Hu. rewrite <- Ep in Hp.
    destruct (pack_auth_ok x Hb Hu Hp) as (b' & -> & Lb & Hz). cbn [mbind option_bind]. rewrite send_buf_ok by done. cbn [mbind option_bind]. rewrite Z.eqb_refl.
    change (state (with_state (with_buf x b') STATE_AUTH)) with STATE_AUTH. cbv iota. rewrite Eu, Ep.
    destruct (auth_turn fuel x0 (with_state (with_buf x b') STATE_AUTH) s1 m) as (x' & s' & ok & E & Hok & Hs' & Hx'); [by constructor|done|done|done|].
    exists x', s', ok. split_and!; done.
  - change (METHOD_NO_AUTH =? METHOD_AUTH) with false. cbv iota.
    destruct (connect_request (S fuel) x0 x sent m Hsame H255 Hm) as (x' & ok & E & Hok & Hx'). exists x', s2, ok. split_and!; done.
Qed.
End negotiation.

Lemma all_cons (P : nat -> list Z -> Prop) a l : (forall i r, (a :: l) !! i = Some r -> P i r) <-> P 0%nat a /\ forall i r, l !! i = Some r -> P (S i) r.
Proof.
  split; [intros Hall; split; [by apply Hall|intros i r Hi; by apply Hall]|]. intros [H0 Hall] [|i] r Hi; [by injection Hi as <-|by apply Hall].
Qed.
Lemma all_nil (P : nat -> list Z -> Prop) : (forall i r, [] !! i = Some r -> P i r) <-> True.
Proof. done. Qed.

(** C37: The negotiation with a SOCKS5 proxy.  Whatever bytes the proxy answers, the
    negotiation ends within three answers and stays in its two buffers, for every user
    and password that [create] takes and every host of up to 255 bytes.  It sends the
    packets of the protocol in their order: the offer, the user and the password if
    there are any, the request with the host and the port.  It succeeds exactly when
    each of the answers agrees.  Conditions: the packets are sent completely, the user
    and the password are ones that create takes, and the host has at most 255 bytes. *)
Theorem socks5_negotiation assign send recv_ fam user pwd stack host port recv_buf x :
  (forall sent d, send sent d = zlen d) -> create fam user pwd stack host port = Some x -> zlen stack = 512 -> zlen host <= 255 -> zlen recv_buf = 512 ->
  let ps := packets user pwd host port in
  exists x' sent ok, socks5_handshake assign send recv_ x recv_buf = Some (x', sent, ok) /\ sent `prefix_of` ps /\
    (ok = true <-> forall i r, replies user pwd !! i = Some r -> take 2 (recv_ (take (S i) ps)) = r) /\
    (ok = true -> sent = ps /\ state x' = STATE_READY).
Proof.
  intros Hsend Hc Hst Hh Hr ps. unfold create in Hc. destruct (Z.ltb_spec 250 (zlen user)) as [|Hu]; [done|]. destruct (Z.ltb_spec 250 (zlen pwd)) as [|Hp]; [done|].
  cbn [orb] in Hc. change (negb (zlen user =? 0) && negb (zlen pwd =? 0)) with (has_auth user pwd) in Hc. set (auth := has_auth user pwd) in *.
  injection Hc as <-. set (x := mkProxy _ _ _ _ _ _ _ _ _).
  assert (Ha : negb (zlen (username x) =? 0) = auth).
  { unfold x, auth, has_auth. cbn [username]. destruct (zlen user =? 0) eqn:E0, (zlen pwd =? 0); cbn [negb andb]; rewrite ?E0; done. }
  unfold socks5_handshake. destruct (pack_negotiate_ok x Hst) as (b & -> & Lb & Hz). rewrite Ha in *. cbn [mbind option_bind].
  change 3 with (zlen (negotiate_packet auth)). rewrite send_buf_ok by done. cbn [mbind option_bind app].
  rewrite (proj2 (Z.ltb_ge (zlen (negotiate_packet auth)) 0)) by lia. set (y := with_state _ STATE_HANDSHAKE).
  destruct (first_turn assign send recv_ Hsend 1 x y [negotiate_packet auth] recv_buf auth) as (x' & s' & ok & E & Hok & Hs' & Hx').
  - by constructor.
  - done.
  - unfold x. cbn [username]. destruct auth; cbn; lia.
  - unfold x. cbn [password]. destruct auth; cbn; lia.
  - done.
  - done.
  - done.
  - exists x', s', ok. split; [exact E|]. unfold ps, packets, replies. fold auth. change (method y) with (if auth then METHOD_AUTH else METHOD_NO_AUTH) in *.
    unfold x in Hok, Hs'. cbn [username password target_host target_port] in Hok, Hs'. clear E.
    unfold answers in *. subst s'. destruct auth; cbn [app] in *; rewrite !all_cons, all_nil; cbn [take] in *.
    + split_and!; [repeat case_match; eexists; cbn [app]; done|rewrite Hok, !andb_true_iff, !bool_decide_eq_true; tauto|]. intros Hok'. pose proof Hok' as H'.
      rewrite Hok, !andb_true_iff, !bool_decide_eq_true in H'. destruct H' as [[H1 H2] _]. rewrite !bool_decide_true by done. split; [done|by apply Hx'].
    + split_and!; [repeat case_match; eexists; cbn [app]; done|rewrite Hok, !andb_true_iff, !bool_decide_eq_true; tauto|]. intros Hok'. pose proof Hok' as H'.
      rewrite Hok, !andb_true_iff, !bool_decide_eq_true in H'. destruct H' as [[H1 _] _]. rewrite !bool_decide_true by done. split; [done|by apply Hx'].
Qed.

(** *** Witnesses *)

Definition alice : list Z := str "alice".
Definition demo_proxy (sent : list (list Z)) : list Z :=
  match length sent with 1%nat => [5; 2] | 2%nat => [1; 0] | _ => [5; 0; 0; 1; 127; 0; 0; 1; 4; 56] end.

Lemma socks5_negotiation_witness : let ps := packets alice (str "pw") (str "example.com") 443 in
  exists x' sent ok,
    socks5_handshake (fun _ _ => None) (fun _ d => zlen d) demo_proxy
      (mkProxy STATE_WAIT 0 true alice (str "pw") (str "example.com") 443 inet4 (replicate 512 0)) (replicate 512 0) = Some (x', sent, ok) /\
    sent `prefix_of` ps /\
    (ok = true <-> forall i r, replies alice (str "pw") !! i = Some r -> take 2 (demo_proxy (take (S i) ps)) = r) /\
    (ok = true -> sent = ps /\ state x' = STATE_READY).
Proof.
  apply (socks5_negotiation (fun _ _ => None) (fun _ d => zlen d) demo_proxy inet4 alice (str "pw") (replicate 512 0) (str "example.com") 443 (replicate 512 0)).
  - done.
  - done.
  - done.
  - done.
  - done.
Defined.

(** The last answer is taken for complete after two bytes, and what comes with it is lost:
    the rest of the answer may be read as data of the target, data of the target may be
    dropped as a part of the answer *)
Lemma connect_reply_unmeasured assign send x sent d : state x = STATE_CONNECT ->
  handshake assign send x sent ([5; 0] ++ d) (2 + zlen d) = Some (with_state x STATE_READY, sent, true).
Proof. intros Hs. unfold handshake. rewrite (proj2 (Z.ltb_ge _ _)) by lia. cbn. by rewrite Hs. Qed.
