(* ===== verification/HttpProxy.v ===== *)
(** * Connections through an HTTP proxy

    [HttpProxy] of [src/protocol/http.cc]: the request for a connection and the check of the
    answer.  [None] is an access out of bounds, or fuel that is used up. *)

From stdpp Require Import strings.
From S2P Require Import Prelude CStr StrFormat Base64.

(** ** Definitions *)

Record HttpProxy := mkHttpProxy { username : list Z; password : list Z; target_host : list Z; target_port : Z }.
Definition create (user pwd host : list Z) (port : Z) : HttpProxy :=
  let auth := negb (zlen user =? 0) && negb (zlen pwd =? 0) in
  mkHttpProxy (if auth then user else []) (if auth then pwd else []) host port.

Definition text_of (d : list Z) : list Z := precise_text (zlen d) (d ++ [0]).

(** [auth_buf] and [encode_buf] are the arrays on the stack *)
Definition get_auth_str (x : HttpProxy) (auth_buf encode_buf : list Z) : option (list Z) :=
  '(m, n) ← sw_snprintf auth_buf 0 256 (text_of (username x) ++ [58] ++ text_of (password x));
  d ← zsub m 0 n;
  '(e, _) ← base64_encode d encode_buf;
  len ← strlen e 0;
  zsub e 0 len.

Definition proxy_fmt (x : HttpProxy) (host_name : list Z) : list Z :=
  str "CONNECT " ++ text_of (target_host x) ++ [58] ++ to_string (target_port x) ++ str " HTTP/1.1" ++ CRLF ++
  str "Host: " ++ text_of host_name ++ [58] ++ to_string (target_port x) ++ CRLF ++
  str "User-Agent: Swoole/6.3.0RC1" ++ CRLF ++ str "Proxy-Connection: Keep-Alive" ++ CRLF.
(** [send_buffer] is its memory *)
Definition pack (x : HttpProxy) (host_name auth_buf encode_buf send_buffer : list Z) : option (list Z * Z) :=
  if negb (zlen (password x) =? 0) then
    auth_str ← get_auth_str x auth_buf encode_buf;
    sw_snprintf send_buffer 0 (zlen send_buffer)
      (proxy_fmt x host_name ++ str "Proxy-Authorization: Basic " ++ text_of auth_str ++ CRLF ++ CRLF)
  else sw_snprintf send_buffer 0 (zlen send_buffer) (proxy_fmt x host_name ++ CRLF).

Definition HANDSHAKE_RESPONSE : list Z := str "HTTP/1.1 200 Connection established" ++ CRLF.

(** [state] is the local variable *)
Fixpoint handshake_loop (fuel : nat) (m : list Z) (len p : Z) (state : Z) : option bool :=
  match fuel with
  | O => None
  | S fuel =>
      if len <=? p then Some false
      else if state =? 0 then
        a ← istarts_with m p (len - p) (str "HTTP/1.1");
        b ← (if a : bool then Some true else istarts_with m p (len - p) (str "HTTP/1.0"));
        if b : bool then handshake_loop fuel m len (p + 8 + 1) 1 else Some false
      else if state =? 1 then
        c ← zget m p;
        if isspace c then handshake_loop fuel m len (p + 1) 1
        else
          b ← istarts_with m p (len - p) (str "200");
          if b : bool then handshake_loop fuel m len (p + 3 + 1) 2 else Some false
      else Some true
  end.
(** The fuel is the number of bytes *)
Definition handshake (m : list Z) (len : Z) : option bool :=
  if len <? zlen HANDSHAKE_RESPONSE then Some false else handshake_loop (S (Z.to_nat len)) m len 0 0.

(** ** Lemmas *)

Lemma istarts_with_safe m p n lit : 0 <= p -> p + n <= zlen m -> exists b, istarts_with m p n lit = Some b.
Proof.
  intros Hp Hn. unfold istarts_with. destruct (Z.leb_spec (zlen lit) n) as [Hl|]; [|by eexists]. clear -Hp Hl Hn.
  assert (Hb : p + zlen lit <= zlen m) by lia. clear Hl Hn. revert p Hp Hb. induction lit as [|c lit IH]; intros p Hp Hb; cbn [strncaseeq]; [by eexists|].
  cbn [length] in Hb. destruct (zget_in_bounds m p) as [x ->]; [lia|]. cbn [mbind option_bind]. destruct (_ =? _); [|by eexists]. apply IH; lia.
Qed.

(** Any answer is read in its bounds *)
Lemma handshake_loop_safe m len : len <= zlen m -> forall fuel p state, 0 <= p -> (Z.to_nat (len - p) < fuel)%nat -> exists b, handshake_loop fuel m len p state = Some b.
Proof.
  intros Hm. induction fuel as [|fuel IH]; intros p state Hp Hf; [lia|]. cbn [handshake_loop]. destruct (Z.leb_spec len p); [by eexists|].
  destruct (state =? 0).
  - destruct (istarts_with_safe m p (len - p) (str "HTTP/1.1")) as [a ->]; [lia..|]. cbn [mbind option_bind].
    assert (Hb : exists b, (if a then Some true else istarts_with m p (len - p) (str "HTTP/1.0")) = Some b) by (destruct a; [by eexists|apply istarts_with_safe; lia]).
    destruct Hb as [b ->]. cbn [mbind option_bind]. destruct b; [|by eexists]. apply IH; lia.
  - destruct (state =? 1); [|by eexists]. destruct (zget_in_bounds m p) as [c ->]; [lia|]. cbn [mbind option_bind]. destruct (isspace c); [apply IH; lia|].
    destruct (istarts_with_safe m p (len - p) (str "200")) as [b ->]; [lia..|]. cbn [mbind option_bind]. destruct b; [|by eexists]. apply IH; lia.
Qed.
Lemma handshake_safe m len : 0 <= len <= zlen m -> exists b, handshake m len = Some b.
Proof. intros H. unfold handshake. destruct (_ <? _); [by eexists|]. apply handshake_loop_safe; lia. Qed.

(** The answer of a proxy that agrees, whatever its headers *)
Lemma handshake_agreed rest : handshake (HANDSHAKE_RESPONSE ++ rest) (zlen (HANDSHAKE_RESPONSE ++ rest)) = Some true.
Proof.
  unfold handshake. rewrite (proj2 (Z.ltb_ge _ _)) by (rewrite length_app; lia).
  assert (Hlen : zlen (HANDSHAKE_RESPONSE ++ rest) = 37 + zlen rest) by (rewrite length_app; change (length HANDSHAKE_RESPONSE) with 37%nat; lia). rewrite Hlen.
  set (n := zlen rest). assert (0 <= n) by lia. set (m := HANDSHAKE_RESPONSE ++ rest). destruct (Z.to_nat (37 + n)) as [|[|[|f]]] eqn:Ef; [lia..|].
  assert (Hi : forall p lit, zlen lit <= 37 - p -> istarts_with m p (37 + n - p) lit = strncaseeq m p lit) by (intros; unfold istarts_with; by rewrite (proj2 (Z.leb_le _ _)) by lia).
  cbn [handshake_loop]. rewrite (proj2 (Z.leb_gt (37 + n) 0)) by lia. change (0 =? 0) with true. cbv iota. rewrite (Hi 0 (str "HTTP/1.1")) by (cbn; lia).
  change (strncaseeq m 0 (str "HTTP/1.1")) with (Some true). cbn [mbind option_bind]. change (0 + 8 + 1) with 9. rewrite (proj2 (Z.leb_gt (37 + n) 9)) by lia.
  change (1 =? 0) with false. change (1 =? 1) with true. cbv iota. change (zget m 9) with (Some 50). cbn [mbind option_bind]. change (isspace 50) with false. cbv iota.
  rewrite (Hi 9 (str "200")) by (cbn; lia). change (strncaseeq m 9 (str "200")) with (Some true). cbn [mbind option_bind]. change (9 + 3 + 1) with 13.
  rewrite (proj2 (Z.leb_gt (37 + n) 13)) by lia. done.
Qed.

(** A user and a password of more than 254 bytes together are cut, and the proxy gets others *)
Lemma long_credentials_cut : exists e, get_auth_str (create (replicate 200 97) (replicate 60 98) [] 0) (replicate 256 0) (replicate 512 0) = Some e /\
  e = code (take 255 (replicate 200 97 ++ [58] ++ replicate 60 98)).
Proof. eexists. split; vm_compute; done. Qed.
