(* ===== verification/StaticHandler.v ===== *)
(** * Serving files: which file is served

    [src/server/static_handler.cc] and [include/swoole_static_handler.h]: from the URL of a
    request to the name of a file ([try_serve], [apply_rewrite_rules], [set_filename],
    [try_serve_index_file]) and the page with the files of a directory ([make_index_page]).
    The name is in an array of [PATH_MAX] bytes.  The file system is a parameter: [lstat],
    [realpath] and the names in a directory; so are regular expressions.  [None] is an access
    out of bounds. *)

From stdpp Require Import strings.
From S2P Require Import Prelude CStr HttpText MimeType.

(** ** Definitions *)

Definition PATH_MAX : Z := 4096.
Definition SLASH : Z := 47.
Definition SW_HTTP_OK : Z := 200.
Definition SW_HTTP_NOT_FOUND : Z := 404.

Inductive Kind := Regular | Directory | Link | Special.
Record Stat := mkStat { st_kind : Kind; st_size : Z; st_mtime : Z }.

Record RewriteRule := mkRule { rule_pattern : list Z; rule_replacement : list Z; rule_is_regex : bool }.

(** What the handler reads of the server *)
Record Settings := mkSettings {
  document_root : list Z; locations : list (list Z); http_index_files : list (list Z); http_autoindex : bool;
  rewrite_rules : list RewriteRule; mime_types : Types;
}.
Definition add_rewrite_rule (s : Settings) (pattern replacement : list Z) : Settings :=
  let tilde i := match pattern !! i with Some c => c =? 126 | None => false end in
  let rule :=
    if (2 <=? zlen pattern) && tilde 0%nat && tilde (length pattern - 1)%nat
    then mkRule (take (length pattern - 2) (drop 1 pattern)) replacement true
    else mkRule pattern replacement false in
  mkSettings (document_root s) (locations s) (http_index_files s) (http_autoindex s) (rewrite_rules s ++ [rule]) (mime_types s).
(** A set: the order is not observed *)
Definition add_static_handler_location (s : Settings) (location : list Z) : Settings :=
  mkSettings (document_root s) (if bool_decide (location ∈ locations s) then locations s else locations s ++ [location])
    (http_index_files s) (http_autoindex s) (rewrite_rules s) (mime_types s).
Definition add_static_handler_index_files (s : Settings) (file : list Z) : Settings :=
  mkSettings (document_root s) (locations s) (if bool_decide (file ∈ http_index_files s) then http_index_files s else http_index_files s ++ [file])
    (http_autoindex s) (rewrite_rules s) (mime_types s).

Record Handler := mkHandler {
  request_url : list Z; dir_path : list Z; dir_files : list (list Z); index_file : list Z;
  l_filename : Z; filename : list Z; file_stat : Stat; last_ : bool; status_code : Z;
}.
(** [stack] and [st] are what was in [filename] and [file_stat] *)
Definition new_handler (url stack : list Z) (st : Stat) : Handler := mkHandler url [] [] [] 0 stack st false SW_HTTP_OK.

Definition with_url h u := mkHandler u (dir_path h) (dir_files h) (index_file h) (l_filename h) (filename h) (file_stat h) (last_ h) (status_code h).
Definition with_dir h d := mkHandler (request_url h) d (dir_files h) (index_file h) (l_filename h) (filename h) (file_stat h) (last_ h) (status_code h).
Definition with_files h f := mkHandler (request_url h) (dir_path h) f (index_file h) (l_filename h) (filename h) (file_stat h) (last_ h) (status_code h).
Definition with_index h f := mkHandler (request_url h) (dir_path h) (dir_files h) f (l_filename h) (filename h) (file_stat h) (last_ h) (status_code h).
Definition with_name h m n := mkHandler (request_url h) (dir_path h) (dir_files h) (index_file h) n m (file_stat h) (last_ h) (status_code h).
Definition with_stat h s := mkHandler (request_url h) (dir_path h) (dir_files h) (index_file h) (l_filename h) (filename h) s (last_ h) (status_code h).
Definition with_last h l := mkHandler (request_url h) (dir_path h) (dir_files h) (index_file h) (l_filename h) (filename h) (file_stat h) l (status_code h).
Definition with_status h c := mkHandler (request_url h) (dir_path h) (dir_files h) (index_file h) (l_filename h) (filename h) (file_stat h) (last_ h) c.

Definition catch_error (h : Handler) : Handler * bool := if last_ h then (with_status h SW_HTTP_NOT_FOUND, true) else (h, false).
Definition is_dir (h : Handler) : bool := match st_kind (file_stat h) with Directory => true | _ => false end.
Definition is_link (h : Handler) : bool := match st_kind (file_stat h) with Link => true | _ => false end.
Definition is_file (h : Handler) : bool := match st_kind (file_stat h) with Regular => true | _ => false end.
Definition has_index_file (h : Handler) : bool := negb (bool_decide (index_file h = [])).

(** The string in an array *)
Definition c_name (m : list Z) : option (list Z) := n ← strlen m 0; zsub m 0 n.

(** [swoole_strnpos(filename, l_filename, "..") == -1] *)
Fixpoint strnpos_loop (n : nat) (m : list Z) (p : Z) (needle : list Z) : option bool :=
  match n with
  | O => Some false
  | S n => b ← memeq m p needle; if b : bool then Some true else strnpos_loop n m (p + 1) needle
  end.
Definition is_absolute_path (h : Handler) : option bool :=
  found ← strnpos_loop (Z.to_nat (l_filename h - 2 + 1)) (filename h) 0 (str "..");
  Some (negb found).

Section serve.
Context (serv : Settings) (lstat : list Z -> option Stat) (realpath : list Z -> option (list Z)) (readdir : list Z -> option (list (list Z))).
(** [regex_search] then [regex_replace] with a pattern: nothing when there is no match or the
    pattern is not one *)
Context (regex_rewrite : list Z -> list Z -> list Z -> option (list Z)).

Fixpoint apply_rules (rules : list RewriteRule) (url : list Z) : option (list Z) :=
  match rules with
  | [] => None
  | r :: rules =>
      if rule_is_regex r then
        match regex_rewrite (rule_pattern r) (rule_replacement r) url with
        | Some u => if bool_decide (u = url) then apply_rules rules url else Some u
        | None => apply_rules rules url
        end
      else if bool_decide (take (length (rule_pattern r)) url = rule_pattern r)
      then Some (rule_replacement r ++ drop (length (rule_pattern r)) url)
      else apply_rules rules url
  end.
Definition apply_rewrite_rules (h : Handler) : Handler * bool :=
  match apply_rules (rewrite_rules serv) (request_url h) with Some u => (with_url h u, true) | None => (h, false) end.

(** [abs_path] is an array of [PATH_MAX] bytes *)
Definition get_absolute_path (h : Handler) : option (Handler * bool) :=
  name ← c_name (filename h);
  match realpath name with
  | None => Some (h, false)
  | Some abs_path =>
      let abs_path_len := zlen abs_path in
      if PATH_MAX <=? abs_path_len then Some (h, false)
      else m ← zblit (filename h) 0 (abs_path ++ [0]); Some (with_name h m abs_path_len, true)
  end.
Definition is_located_in_document_root (h : Handler) : option bool :=
  let n := zlen (document_root serv) in
  if l_filename h <=? n then Some false
  else
    c ← zget (filename h) n;
    if c =? SLASH then strneq (filename h) 0 (document_root serv) else Some false.

(** [lstat(filename, &file_stat)]: what was there stays after an error *)
Definition stat_name (h : Handler) : option (Handler * bool) :=
  name ← c_name (filename h);
  Some (match lstat name with Some s => (with_stat h s, true) | None => (h, false) end).

(** The location has to be one of the settings, if there are any *)
Fixpoint any_location (url : list Z) (ls : list (list Z)) : option bool :=
  match ls with
  | [] => Some false
  | l :: ls => b ← istarts_with (url ++ [0]) 0 (zlen url) l; r ← any_location url ls; Some (b || r)
  end.

(** What follows once the name is known to exist *)
Definition check_path (h : Handler) : option (Handler * bool) :=
  abs ← is_absolute_path h;
  if abs : bool then
    if is_link h then
      '(h, ok) ← get_absolute_path h;
      if ok : bool then stat_name h else Some (h, false)
    else Some (h, true)
  else
    '(h, ok) ← get_absolute_path h;
    if ok : bool then inside ← is_located_in_document_root h; Some (h, inside) else Some (h, false).

Definition accept (h : Handler) : option (Handler * bool) :=
  if negb (bool_decide (http_index_files serv = [])) && is_dir h then Some (h, true)
  else if http_autoindex serv && is_dir h then Some (h, true)
  else
    name ← c_name (filename h);
    if negb (exists_ (mime_types serv) name) && negb (last_ h) then Some (h, false)
    else Some (h, is_file h).

Definition url_path (url : list Z) : option Z :=
  q ← memchr url 0 63 (zlen url);
  q ← match q with Some i => Some (Some i) | None => memchr url 0 35 (zlen url) end;
  Some (default (zlen url) q).

(** The path is put behind the root, decoded and looked up *)
Definition build_name (h : Handler) (url : list Z) (n : Z) : option (Handler * bool) :=
  let l_document_root := zlen (document_root serv) in
  d ← zsub url 0 n;
  m ← zblit (filename h) l_document_root d;
  m ← zset m (l_document_root + n) 0;
  let h := with_dir h d in
  '(m, l) ← url_decode m (l_document_root + n);
  m ← zset m l 0;
  stat_name (with_name h m l).

Definition try_serve (h : Handler) : option (Handler * bool) :=
  let '(h, _) := apply_rewrite_rules h in
  let url := request_url h in
  n ← url_path url;
  let l_document_root := zlen (document_root serv) in
  m ← zblit (filename h) 0 (document_root serv);
  let h := with_name h m (l_filename h) in
  '(h, go) ← (match locations serv with
              | [] => Some (h, true)
              | ls => any ← any_location url ls; let h := with_last h (last_ h || any) in Some (h, last_ h)
              end);
  if negb go then Some (h, false)
  else if PATH_MAX <=? l_document_root + n then Some (catch_error h)
  else
    '(h, ok) ← build_name h url n;
    if negb ok then Some (catch_error h)
    else
      '(h, ok) ← check_path h;
      if negb ok then Some (catch_error h) else accept h.

(** *** Directories *)

(** [intersection] *)
Definition intersection_ (vec1 vec2 : list (list Z)) : list Z := match list_find (fun f => f ∈ vec2) vec1 with Some (_, f) => f | None => [] end.

Definition get_dir_files (h : Handler) : option (Handler * bool) :=
  if negb (bool_decide (dir_files h = [])) then Some (h, true)
  else if negb (is_dir h) then Some (h, false)
  else
    name ← c_name (filename h);
    match readdir name with None => Some (h, false) | Some fs => Some (with_files h fs, true) end.

Definition set_filename (h : Handler) (f : list Z) : option (Handler * bool) :=
  c ← zget (filename h) (l_filename h);
  let separator_len := if c =? SLASH then 0 else 1 in
  if PATH_MAX <=? l_filename h + separator_len + zlen f then Some (h, false)
  else
    m ← (if separator_len =? 1 then zset (filename h) (l_filename h) SLASH else Some (filename h));
    m ← zblit m (l_filename h + separator_len) (f ++ [0]);
    '(h, ok) ← stat_name (with_name h m (l_filename h));
    Some (h, ok && is_file h).

Definition try_serve_index_file (h : Handler) : option (Handler * bool) :=
  if negb (bool_decide (http_index_files serv = [])) && is_dir h then
    '(h, ok) ← get_dir_files h;
    if negb ok then Some (h, false)
    else
      let h := with_index h (intersection_ (http_index_files serv) (dir_files h)) in
      '(h, ok) ← (if has_index_file h then set_filename h (index_file h) else Some (h, true));
      if negb ok then Some (h, false)
      else Some (h, has_index_file h || http_autoindex serv)
  else Some (h, true).
End serve.

(** *** The page of a directory *)

Definition escape_char (c : Z) : list Z :=
  if c =? 38 then str "&amp;" else if c =? 60 then str "&lt;" else if c =? 62 then str "&gt;" else
  if c =? 34 then str "&quot;" else if c =? 39 then str "&#39;" else [c].
Definition html_escape (value : list Z) : list Z := concat (map escape_char value).

Definition percent_char (c : Z) : list Z :=
  if isalnum c || (c =? 45) || (c =? 46) || (c =? 95) || (c =? 126) then [c]
  else [PERCENT; hexchar (Z.shiftr c 4); hexchar (Z.land c 15)].
Definition percent_encode_path_segment (value : list Z) : list Z := concat (map percent_char value).

Definition SW_HTTP_PAGE_CSS : list Z := str "<style> body { padding: 0.5em; line-height: 2; } h1 { font-size: 1.5em; padding-bottom: 0.3em; border-bottom: 1px solid #ccc; } ul { list-style-type: disc; } footer { border-top: 1px solid #ccc; } a { color: #0969da; } </style>".
Definition SW_HTTP_POWER_BY : list Z := str "<footer><i>Powered by Swoole</i></footer>".
Definition QUOTE : Z := 34.
Definition TAB : Z := 9.

Definition index_entry (escaped_dir_path dir_file : list Z) : list Z :=
  [TAB; TAB] ++ str "<li><a href=" ++ [QUOTE] ++ c_text (escaped_dir_path ++ percent_encode_path_segment dir_file) ++ [QUOTE] ++ str ">" ++
  c_text (html_escape dir_file) ++ str "</a></li>" ++ [LF].
(** What is added to the buffer; [back] of the empty string has no result *)
Definition make_index_page (readdir : list Z -> option (list (list Z))) (h : Handler) : option (Handler * list Z) :=
  '(h, _) ← get_dir_files readdir h;
  c ← last (dir_path h);
  let h := with_dir h (if c =? SLASH then dir_path h else dir_path h ++ [SLASH]) in
  let escaped_dir_path := html_escape (dir_path h) in
  let shown f := negb (bool_decide (f = str ".") || bool_decide (dir_path h = [SLASH]) && bool_decide (f = str "..")) in
  Some (h,
    str "<html>" ++ [LF] ++ str "<head>" ++ [LF] ++ [TAB] ++ str "<meta charset='UTF-8'>" ++ [LF] ++ str "<title>Index of " ++
    c_text escaped_dir_path ++ str "</title></head>" ++ [LF] ++ str "<body>" ++ [LF] ++ SW_HTTP_PAGE_CSS ++ str "<h1>Index of " ++
    c_text escaped_dir_path ++ str "</h1>" ++ [TAB] ++ str "<ul>" ++ [LF] ++
    concat (map (index_entry escaped_dir_path) (filter shown (dir_files h))) ++
    [TAB] ++ str "</ul>" ++ [LF] ++ SW_HTTP_POWER_BY ++ str "</body>" ++ [LF] ++ str "</html>" ++ [LF]).

(** ** Names *)

(** The array has the string [l] *)
Definition holds (m l : list Z) : Prop := zlen m = PATH_MAX /\ take (length l) m = l /\ zget m (zlen l) = Some 0.

Lemma strlen_text l r : strlen (l ++ 0 :: r) 0 = Some (zlen (c_text l)) /\ take (length (c_text l)) (l ++ 0 :: r) = c_text l.
Proof.
  unfold strlen. cbn [Z.leb Z.compare Z.to_nat]. rewrite drop_0. induction l as [|c l [IH1 IH2]]; [done|]. cbn [app strlen_loop c_text].
  destruct (Z.eqb_spec c 0); [done|]. rewrite IH1. cbn [mbind option_bind length take]. split; [f_equal; lia|by rewrite IH2].
Qed.

Lemma holds_split m l : holds m l -> exists r, m = l ++ 0 :: r.
Proof.
  intros (Hm & Ht & Hg). exists (drop (S (length l)) m). rewrite <- (take_drop (length l) m) at 1. rewrite Ht. f_equal.
  apply drop_S. unfold zget in Hg. destruct (Z.leb_spec 0 (zlen l)); [|done]. by rewrite Nat2Z.id in Hg.
Qed.
Lemma holds_name m l : holds m l -> c_name m = Some (c_text l).
Proof.
  intros Hh. destruct (holds_split m l Hh) as [r ->]. destruct (strlen_text l r) as [E Ht]. unfold c_name. rewrite E. cbn [mbind option_bind].
  pose proof (f_equal length Ht) as Hl. rewrite length_take in Hl.
  apply zsub_Some. split_and!; [lia|lia|lia|]. rewrite drop_0, Nat2Z.id. done.
Qed.
Lemma holds_length m l : holds m l -> zlen l < PATH_MAX.
Proof. intros (Hm & _ & Hg). apply zget_Some_bounds in Hg. lia. Qed.

Definition dots : list Z := [46; 46].
Definition dotdot (l : list Z) : Prop := exists a b, l = a ++ dots ++ b.

Lemma c_text_prefix l : exists r, l = c_text l ++ r.
Proof. induction l as [|c l [r IH]]; [by exists []|]. cbn [c_text]. destruct (c =? 0); [by exists (c :: l)|]. exists r. cbn. by rewrite <- IH. Qed.
Lemma dotdot_text l : dotdot (c_text l) -> dotdot l.
Proof. intros (a & b & E). destruct (c_text_prefix l) as [r ->]. rewrite E. exists a, (b ++ r). by rewrite <- !app_assoc. Qed.

Lemma strnpos_loop_ok n : forall m p, 0 <= p -> p + Z.of_nat n + 1 <= zlen m ->
  exists b, strnpos_loop n m p dots = Some b /\ (b = false -> forall i, 0 <= i < Z.of_nat n -> zsub m (p + i) 2 <> Some dots).
Proof.
  induction n as [|n IH]; intros m p Hp Hm; cbn [strnpos_loop]; [exists false; split; [done|lia]|].
  unfold memeq. change (zlen dots) with 2. destruct (zsub_in_bounds m p 2) as [d Hd]; [lia..|]. rewrite Hd. cbn [mbind option_bind].
  case_bool_decide as Hdot; [by exists true|]. destruct (IH m (p + 1)) as (b & -> & Hb); [lia..|]. exists b. split; [done|]. intros Hf i Hi.
  destruct (decide (i = 0)) as [->|]; [rewrite Z.add_0_r, Hd; congruence|]. replace (p + i) with (p + 1 + (i - 1)) by lia. apply Hb; [done|lia].
Qed.

Lemma is_absolute_path_ok h l : holds (filename h) l -> l_filename h = zlen l ->
  exists b, is_absolute_path h = Some b /\ (b = true -> ~ dotdot l).
Proof.
  intros Hh Hl. pose proof (holds_length _ _ Hh) as Hlen. pose proof Hh as (Hm & _ & _). unfold is_absolute_path. rewrite Hl. change (str "..") with dots.
  destruct (strnpos_loop_ok (Z.to_nat (zlen l - 2 + 1)) (filename h) 0) as (b & -> & Hb); [lia|lia|]. exists (negb b). split; [done|].
  intros Hn (x & y & E). destruct b; [done|]. destruct (holds_split _ _ Hh) as [r Em]. apply (Hb eq_refl (zlen x)).
  - apply (f_equal length) in E. rewrite !length_app in E. change (length dots) with 2%nat in E. lia.
  - rewrite Em, E, Z.add_0_l, <- !app_assoc. change 2 with (zlen dots). apply zsub_app.
Qed.

Lemma strneq_prefix lit : forall m p, 0 <= p -> p + zlen lit <= zlen m ->
  exists b, strneq m p lit = Some b /\ (b = true -> take (length lit) (drop (Z.to_nat p) m) = lit).
Proof.
  induction lit as [|c lit IH]; intros m p Hp Hm; cbn [strneq]; [by exists true|]. cbn [length] in Hm. destruct (zget_in_bounds m p) as [x Hx]; [lia|]. rewrite Hx. cbn [mbind option_bind].
  destruct (Z.eqb_spec x c) as [->|]; [|by exists false]. destruct (IH m (p + 1)) as (b & -> & Hb); [lia|lia|]. exists b. split; [done|]. intros Ht.
  unfold zget in Hx. destruct (Z.leb_spec 0 p); [|done]. rewrite (drop_S _ _ _ Hx). cbn [length take]. f_equal. specialize (Hb Ht). by rewrite Z2Nat.inj_add in Hb by lia; rewrite Nat.add_1_r in Hb.
Qed.

(** ** A file that is served is where it may be *)

Section confined.
Context (serv : Settings) (lstat : list Z -> option Stat) (realpath : list Z -> option (list Z)) (regex_rewrite : list Z -> list Z -> list Z -> option (list Z)).
Context (Hreal : forall n a, realpath n = Some a -> (0 ∉ a)).
#[local] Abbreviation root := (document_root serv).

(** The string in the array, and its length *)
Definition named (h : Handler) (l : list Z) : Prop := holds (filename h) l /\ l_filename h = zlen l.

Lemma get_absolute_path_ok h l : named h l ->
  exists h' ok, get_absolute_path realpath h = Some (h', ok) /\ last_ h' = last_ h /\ status_code h' = status_code h /\ file_stat h' = file_stat h /\
    (ok = true -> exists a, realpath (c_text l) = Some a /\ named h' a).
Proof.
  intros [Hh Hl]. unfold get_absolute_path. rewrite (holds_name _ _ Hh). cbn [mbind option_bind]. pose proof Hh as (Hm & _ & _).
  destruct (realpath (c_text l)) as [a|] eqn:Ea; [|by exists h, false]. destruct (Z.leb_spec PATH_MAX (zlen a)); [by exists h, false|].
  destruct (zblit_in_bounds (filename h) 0 (a ++ [0])) as [m E]; [lia|rewrite length_app; cbn [length]; lia|]. rewrite E. cbn [mbind option_bind].
  eexists _, true. split; [done|]. split_and!; [done..|]. intros _. exists a. split; [done|]. split; [|done]. cbn [with_name filename].
  apply zblit_Some in E as (_ & _ & ->). rewrite take_0. cbn [app]. rewrite <- app_assoc. split_and!.
  - rewrite length_app. cbn [length app]. rewrite length_drop, length_app. cbn [length]. lia.
  - by rewrite take_app_length.
  - rewrite zget_app_r, Z.sub_diag by lia. done.
Qed.

Lemma is_located_ok h l : named h l -> exists b, is_located_in_document_root serv h = Some b /\ (b = true -> (root ++ [SLASH]) `prefix_of` l).
Proof.
  intros [Hh Hl]. unfold is_located_in_document_root. rewrite Hl. destruct (Z.leb_spec (zlen l) (zlen root)); [by exists false|].
  destruct (holds_split _ _ Hh) as [r Em]. destruct (zget_in_bounds (filename h) (zlen root)) as [c Hc]; [rewrite Em, length_app; lia|]. rewrite Hc. cbn [mbind option_bind].
  destruct (Z.eqb_spec c SLASH) as [->|]; [|by exists false]. destruct (strneq_prefix root (filename h) 0) as (b & -> & Hb); [lia|rewrite Em, length_app; lia|].
  exists b. split; [done|]. intros Ht. specialize (Hb Ht). rewrite drop_0, Em, take_app_le in Hb by lia. rewrite Em, zget_app_l in Hc by lia.
  exists (drop (S (length root)) l). rewrite <- (take_drop (length root) l) at 1. rewrite Hb, <- app_assoc. f_equal. cbn [app]. apply drop_S.
  unfold zget in Hc. destruct (Z.leb_spec 0 (zlen root)); [|done]. by rewrite Nat2Z.id in Hc.
Qed.

Lemma stat_name_ok h l : named h l -> stat_name lstat h =
  Some (match lstat (c_text l) with Some s => (with_stat h s, true) | None => (h, false) end).
Proof. intros [Hh _]. unfold stat_name. by rewrite (holds_name _ _ Hh). Qed.

(** What [check_path] lets through for the name [l] with what [lstat] found *)
Inductive passes (l : list Z) (s : Stat) : list Z -> Stat -> Prop :=
  | pass_plain : ~ dotdot l -> st_kind s <> Link -> passes l s l s
  | pass_link a s' : ~ dotdot l -> st_kind s = Link -> realpath (c_text l) = Some a -> lstat a = Some s' -> passes l s a s'
  | pass_dots a : realpath (c_text l) = Some a -> (root ++ [SLASH]) `prefix_of` a -> passes l s a s.

Lemma check_path_ok h l : named h l ->
  exists h' ok, check_path serv lstat realpath h = Some (h', ok) /\ last_ h' = last_ h /\ status_code h' = status_code h /\
    (ok = true -> exists l', named h' l' /\ passes l (file_stat h) l' (file_stat h')).
Proof.
  intros Hn. unfold check_path. destruct (is_absolute_path_ok h l) as (b & -> & Hb); [apply Hn..|]. cbn [mbind option_bind].
  destruct (get_absolute_path_ok h l Hn) as (h1 & ok & E & L1 & S1 & F1 & H1). destruct b.
  - destruct (is_link h) eqn:El; unfold is_link in El.
    + rewrite E. cbn [mbind option_bind]. destruct ok; [|by exists h1, false]. destruct (H1 eq_refl) as (a & Ea & Ha). rewrite (stat_name_ok h1 a Ha).
      rewrite (c_text_id a) by (by eapply Hreal). destruct (lstat a) as [s'|] eqn:Es; [|by exists h1, false]. exists (with_stat h1 s'), true. split_and!; try done.
      intros _. exists a. split; [done|]. constructor 2; try done; [by apply Hb|]. by destruct (st_kind (file_stat h)).
    + exists h, true. split_and!; try done. intros _. exists l. split; [done|]. constructor; [by apply Hb|]. intros Ek. by rewrite Ek in El.
  - rewrite E. cbn [mbind option_bind]. destruct ok; [|by exists h1, false]. destruct (H1 eq_refl) as (a & Ea & Ha).
    destruct (is_located_ok h1 a Ha) as (b & -> & Hin). cbn [mbind option_bind]. exists h1, b. split_and!; try done. intros Hbt. exists a. split; [done|]. rewrite F1. constructor 3; [done|by apply Hin].
Qed.

Lemma accept_ok h l : named h l -> exists ok, accept serv h = Some (h, ok) /\ (ok = true -> is_file h = true \/ is_dir h = true).
Proof using.
  intros [Hh _]. unfold accept. destruct (is_dir h); [rewrite !andb_true_r; destruct (negb _); [exists true; split; [done|by right]|]; destruct (http_autoindex serv); [exists true; split; [done|by right]|]|rewrite !andb_false_r];
    rewrite (holds_name _ _ Hh); cbn [mbind option_bind]; (destruct (_ && _); [by exists false|]; eexists; split; [done|intros; by left]).
Qed.

Lemma any_location_ok url ls : exists b, any_location url ls = Some b.
Proof.
  induction ls as [|l ls [b IH]]; cbn [any_location]; [by eexists|]. rewrite IH.
  assert (E : exists x, istarts_with (url ++ [0]) 0 (zlen url) l = Some x).
  { unfold istarts_with. destruct (Z.leb_spec (zlen l) (zlen url)); [|by eexists]. apply strncaseeq_total; [lia|]. rewrite length_app. lia. }
  destruct E as [x ->]. by eexists.
Qed.

(** The path of a URL, and what is left of a path that begins with a slash *)
Lemma url_path_ok url : exists n, url_path url = Some n /\ 0 <= n <= zlen url /\ forall r, url = SLASH :: r -> 1 <= n.
Proof.
  unfold url_path. destruct (memchr_ok url 0 63 (zlen url)) as (q & -> & Hq); [lia..|]. cbn [mbind option_bind].
  destruct (memchr_ok url 0 35 (zlen url)) as (q' & E' & Hq'); [lia..|].
  assert (Hpos : forall i c, zget url i = Some c -> c <> SLASH -> 0 <= i -> forall r, url = SLASH :: r -> 1 <= i).
  { intros i c Hg Hc Hi r ->. destruct (decide (i = 0)) as [->|]; [|lia]. injection Hg as <-. done. }
  destruct q as [i|]; cbn [mbind option_bind]; [destruct (Hq i eq_refl) as [Hi Hg]|rewrite E'; cbn [mbind option_bind]; destruct q' as [i|]; [destruct (Hq' i eq_refl) as [Hi Hg]|]]; eexists; (split; [done|]); cbn.
  - split; [lia|]. by apply (Hpos i 63); [|done|lia].
  - split; [lia|]. by apply (Hpos i 35); [|done|lia].
  - split; [lia|]. intros r ->. cbn [length]. lia.
Qed.

Lemma decode_plain a d : (43 ∉ a) -> (PERCENT ∉ a) -> decode (a ++ d) = a ++ decode d.
Proof.
  induction a as [|c a IH]; [done|]. intros [H1 Ha1]%not_elem_of_cons [H2 Ha2]%not_elem_of_cons. cbn [app decode]. destruct (Z.eqb_spec c 43); [congruence|].
  destruct (Z.eqb_spec c PERCENT); [congruence|]. cbn [andb]. rewrite <- IH by done. by destruct (a ++ d) as [|? [|? ?]].
Qed.

(** The name, and its last check *)
Inductive allowed (name : list Z) (s : Stat) : Prop :=
  | allowed_plain : (root ++ [SLASH]) `prefix_of` name -> ~ dotdot name -> lstat name = Some s -> st_kind s <> Link -> allowed name s
  | allowed_link link s0 : (root ++ [SLASH]) `prefix_of` link -> ~ dotdot link -> lstat link = Some s0 -> st_kind s0 = Link ->
      realpath link = Some name -> lstat name = Some s -> allowed name s
  | allowed_resolved path : realpath path = Some name -> lstat path = Some s -> (root ++ [SLASH]) `prefix_of` name -> allowed name s.

Lemma c_text_plain a l : (0 ∉ a) -> c_text (a ++ l) = a ++ c_text l.
Proof.
  induction a as [|c a IH]; [done|]. intros [Hc Ha]%not_elem_of_cons. cbn [app c_text]. destruct (Z.eqb_spec c 0); [congruence|]. by rewrite IH.
Qed.

Lemma passes_allowed x s l' s' : (0 ∉ root) -> let l := root ++ SLASH :: x in
  lstat (c_text l) = Some s -> passes l s l' s' -> allowed (c_text l') s'.
Proof.
  intros H0 l Hs Hp. assert (Hpre : (root ++ [SLASH]) `prefix_of` c_text l).
  { exists (c_text x). unfold l. rewrite c_text_plain by done. by rewrite <- app_assoc. }
  inversion Hp; subst.
  - constructor; [done| |done|done]. intros Hd. by apply dotdot_text in Hd.
  - rewrite (c_text_id l') by (by eapply Hreal). econstructor 2; try done. intros Hd. by apply dotdot_text in Hd.
  - rewrite (c_text_id l') by (by eapply Hreal). by econstructor 3.
Qed.

Lemma build_name_ok h url n : zlen (filename h) = PATH_MAX -> take (length root) (filename h) = root -> (43 ∉ root) -> (PERCENT ∉ root) ->
  0 <= n <= zlen url -> zlen root + n < PATH_MAX -> let l := root ++ decode (take (Z.to_nat n) url) in
  exists h' ok, build_name serv lstat h url n = Some (h', ok) /\ named h' l /\ last_ h' = last_ h /\ status_code h' = status_code h /\
    (ok = true -> lstat (c_text l) = Some (file_stat h')).
Proof.
  intros Hm Ht H43 H37 Hn Hlen l. unfold build_name. set (d := take (Z.to_nat n) url) in *. assert (Hd : zlen d = n) by (unfold d; rewrite length_take; lia).
  assert (Ez : zsub url 0 n = Some d) by (apply zsub_Some; split_and!; [lia..|by rewrite drop_0]). rewrite Ez. cbn [mbind option_bind].
  assert (Em : filename h = root ++ drop (length root) (filename h)) by (rewrite <- Ht at 1; by rewrite take_drop).
  destruct (zblit_in_bounds (filename h) (zlen root) d) as [m1 E1]; [lia..|]. rewrite E1. cbn [mbind option_bind]. pose proof (zblit_length _ _ _ _ E1) as L1.
  destruct (zset_in m1 (zlen root + n) 0) as (m2 & E2 & L2); [lia|]. rewrite E2. cbn [mbind option_bind].
  assert (Em2 : exists rest, m2 = (root ++ d) ++ 0 :: rest).
  { rewrite zset_zblit in E2. apply zblit_Some in E2 as (_ & _ & ->). apply zblit_Some in E1 as (_ & _ & ->). eexists. cbn [app]. f_equal.
    rewrite Nat2Z.id, Ht. rewrite <- Hd, <- Nat2Z.inj_add, Nat2Z.id, app_assoc, <- length_app. apply take_app_length. }
  destruct Em2 as [rest ->]. destruct (url_decode_ok (root ++ d) 0 rest) as (m3 & E3 & Ht3 & Hg3 & L3).
  rewrite <- Hd, <- Nat2Z.inj_add, <- length_app, E3. cbn [mbind option_bind]. rewrite decode_plain in * by done. fold l in E3, Ht3, Hg3 |- *.
  assert (E4 : zset m3 (zlen l) 0 = Some m3).
  { rewrite zset_zblit. pose proof (zget_Some_bounds _ _ _ Hg3). apply zblit_Some. cbn [length]. split_and!; [lia|lia|]. rewrite Nat2Z.id, Nat.add_1_r.
    rewrite <- (take_drop (length l) m3) at 1. f_equal. apply drop_S. unfold zget in Hg3. destruct (Z.leb_spec 0 (zlen l)); [|lia]. by rewrite Nat2Z.id in Hg3. }
  rewrite E4. cbn [mbind option_bind]. assert (Hnamed : named (with_name (with_dir h d) m3 (zlen l)) l).
  { split; [|done]. cbn. split_and!; [|done|done]. rewrite L3. lia. }
  rewrite (stat_name_ok _ _ Hnamed). destruct (lstat (c_text l)) as [st|] eqn:Es; eexists _, _; (split; [done|]); split_and!; done.
Qed.

Lemma catch_error_ok h : exists h' ok, Some (catch_error h) = Some (h', ok) /\ (ok = true -> status_code h' = SW_HTTP_NOT_FOUND).
Proof. unfold catch_error. destruct (last_ h); eexists _, _; (split; [done|]); done. Qed.
End confined.

(** C16: A file that is served lies where it may.  For a URL that begins with a slash (after
    the rewriting) and a document root that has no plus and no percent sign, since the root is
    decoded together with the URL ([root_decoded]), no null byte, and is shorter than the
    array, and paths of the system without null bytes, whatever dots, escapes and null bytes
    the URL has and whatever the file system is: the handler stays in the array of the name,
    and when it serves, it answers "not found" or it has the name of an existing file or
    directory.  That name begins with the root and a slash and has no two dots, or it is where
    a link of such a name leads, or it is a resolved path below the root. *)
Theorem static_file_confined serv lstat realpath regex_rewrite url stack st :
  (forall n a, realpath n = Some a -> (0 ∉ a)) -> let root := document_root serv in
  (0 ∉ root) -> (43 ∉ root) -> (PERCENT ∉ root) -> zlen root < PATH_MAX -> zlen stack = PATH_MAX ->
  (exists r, default url (apply_rules regex_rewrite (rewrite_rules serv) url) = SLASH :: r) ->
  exists h ok, try_serve serv lstat realpath regex_rewrite (new_handler url stack st) = Some (h, ok) /\
    (ok = true -> status_code h = SW_HTTP_NOT_FOUND \/
      status_code h = SW_HTTP_OK /\ (is_file h = true \/ is_dir h = true) /\
      exists name, c_name (filename h) = Some name /\ allowed serv lstat realpath name (file_stat h)).
Proof.
  intros Hreal root H0 H43 H37 Hroot Hst [r Hurl]. unfold try_serve, apply_rewrite_rules. cbn [new_handler request_url].
  set (h1 := match apply_rules _ _ _ with Some u => _ | None => _ end).
  assert (Hh1 : exists hh b, h1 = (hh, b) /\ request_url hh = SLASH :: r /\ filename hh = stack /\ status_code hh = SW_HTTP_OK).
  { unfold h1. destruct (apply_rules _ _ _) as [u|]; eexists _, _; (split; [done|]); cbn in Hurl; split_and!; done. }
  destruct Hh1 as (h2 & b & -> & Eurl & Ef & Es). rewrite Eurl. destruct (url_path_ok (SLASH :: r)) as (n & -> & Hn & Hn1). specialize (Hn1 r eq_refl). cbn [mbind option_bind].
  rewrite Ef. destruct (zblit_in_bounds stack 0 root) as [m E]; [lia..|]. fold root. rewrite E. cbn [mbind option_bind].
  pose proof (zblit_length _ _ _ _ E) as Lm. assert (Tm : take (length root) m = root).
  { apply zblit_Some in E as (_ & _ & ->). rewrite take_0. cbn [app]. apply take_app_length. }
  set (h3 := with_name h2 m (l_filename h2)). set (loc := match locations serv with [] => _ | _ => _ end).
  assert (Hloc : exists h4 go, loc = Some (h4, go) /\ filename h4 = m /\ status_code h4 = SW_HTTP_OK).
  { unfold loc. destruct (locations serv) as [|l0 ls]; [by eexists _, _|]. destruct (any_location_ok (SLASH :: r) (l0 :: ls)) as [any ->]. cbn [mbind option_bind]. by eexists _, _. }
  destruct Hloc as (h4 & go & -> & Ef4 & Es4). cbn [mbind option_bind]. destruct go; cbn [negb]; [|by eexists _, _].
  destruct (Z.leb_spec PATH_MAX (zlen root + n)) as [|Hlen].
  { destruct (catch_error_ok h4) as (h5 & ok & E5 & Hok). exists h5, ok. split; [done|]. intros; left; auto. }
  destruct (build_name_ok serv lstat h4 (SLASH :: r) n) as (h5 & ok & E5 & Hn5 & _ & Es5 & Hok5); [rewrite Ef4; lia|by rewrite Ef4|done|done|done|done|].
  rewrite E5. cbn [mbind option_bind]. destruct ok; cbn [negb].
  2:{ destruct (catch_error_ok h5) as (h6 & ok & E6 & Hok). exists h6, ok. split; [done|]. intros; left; auto. }
  specialize (Hok5 eq_refl). set (l := document_root serv ++ decode (take (Z.to_nat n) (SLASH :: r))) in *.
  destruct (check_path_ok serv lstat realpath Hreal h5 l Hn5) as (h6 & ok & E6 & _ & Es6 & Hok6). rewrite E6. cbn [mbind option_bind]. destruct ok; cbn [negb].
  2:{ destruct (catch_error_ok h6) as (h7 & ok & E7 & Hok). exists h7, ok. split; [done|]. intros; left; auto. }
  destruct (Hok6 eq_refl) as (l' & Hn6 & Hpass). destruct (accept_ok serv h6 l' Hn6) as (ok & E7 & Hok7). exists h6, ok. split; [done|]. intros Ht. right.
  split; [congruence|]. split; [by apply Hok7|]. exists (c_text l'). split; [apply holds_name, Hn6|].
  assert (Hl : exists x, l = root ++ SLASH :: x).
  { unfold l. replace (Z.to_nat n) with (S (Z.to_nat (n - 1))) by lia. cbn [take]. exists (decode (take (Z.to_nat (n - 1)) r)). f_equal.
    apply (decode_plain [SLASH]); by intros ?%list_elem_of_singleton. }
  destruct Hl as [x El]. rewrite El in *. by eapply passes_allowed.
Qed.

(** *** A file and a link *)

Definition www : Settings := mkSettings (str "/srv/www") [] [] false [] map_.
Definition demo_lstat (name : list Z) : option Stat :=
  if bool_decide (name = str "/srv/www/a b.txt") then Some (mkStat Regular 10 0) else
  if bool_decide (name = str "/srv/www-private/key.txt") then Some (mkStat Regular 20 0) else None.

Lemma static_file_confined_witness : exists h ok,
  try_serve www demo_lstat (fun _ => None) (fun _ _ _ => None) (new_handler (str "/a%20b.txt?x=1") (replicate (Z.to_nat 4096) 7) (mkStat Special 0 0)) = Some (h, ok) /\
  (ok = true -> status_code h = SW_HTTP_NOT_FOUND \/
    status_code h = SW_HTTP_OK /\ (is_file h = true \/ is_dir h = true) /\
    exists name, c_name (filename h) = Some name /\ allowed www demo_lstat (fun _ => None) name (file_stat h)).
Proof.
  apply (static_file_confined www demo_lstat (fun _ => None) (fun _ _ _ => None) (str "/a%20b.txt?x=1")).
  - done.
  - by apply (bool_decide_unpack _).
  - by apply (bool_decide_unpack _).
  - by apply (bool_decide_unpack _).
  - done.
  - by rewrite length_replicate.
  - by eexists.
Defined.

(** A URL without a slash leads out of the root, into a directory whose name begins like it *)
Lemma sibling_served : match try_serve www demo_lstat (fun _ => None) (fun _ _ _ => None) (new_handler (str "-private/key.txt") (replicate (Z.to_nat 4096) 7) (mkStat Special 0 0)) with
  | Some (h, ok) => (ok, status_code h, c_name (filename h)) = (true, SW_HTTP_OK, Some (str "/srv/www-private/key.txt"))
  | None => False
  end.
Proof. vm_compute. done. Qed.

(** A root with a plus sign or an escape is decoded with the URL: no file of it is found *)
Lemma root_decoded : match try_serve (mkSettings (str "/srv/c++") [] [] false [] map_)
    (fun name => if bool_decide (name = str "/srv/c++/a.txt") then Some (mkStat Regular 10 0) else None) (fun _ => None) (fun _ _ _ => None)
    (new_handler (str "/a.txt") (replicate (Z.to_nat 4096) 7) (mkStat Special 0 0)) with
  | Some (h, ok) => (ok, c_name (filename h)) = (false, Some (str "/srv/c  /a.txt"))
  | None => False
  end.
Proof. vm_compute. done. Qed.

(** ** Index files *)

(** The name of an index file is put behind the directory within the array *)
Lemma set_filename_ok lstat h l f : named h l -> exists h' ok, set_filename lstat h f = Some (h', ok) /\
  (ok = true -> exists s, lstat (c_text (l ++ SLASH :: f)) = Some s /\ st_kind s = Regular /\ c_name (filename h') = Some (c_text (l ++ SLASH :: f))).
Proof.
  intros [Hh Hl]. pose proof Hh as (Hm & _ & Hg). destruct (holds_split _ _ Hh) as [r Em]. unfold set_filename. rewrite Hl, Hg. cbn [mbind option_bind].
  change (0 =? SLASH) with false. cbv iota zeta. destruct (Z.leb_spec PATH_MAX (zlen l + 1 + zlen f)) as [|Hlen]; [by exists h, false|]. change (1 =? 1) with true. cbv iota.
  destruct (zset_in (filename h) (zlen l) SLASH) as (m1 & E1 & L1); [rewrite Em, length_app; cbn [length]; lia|]. rewrite E1. cbn [mbind option_bind].
  destruct (zblit_in_bounds m1 (zlen l + 1) (f ++ [0])) as [m2 E2]; [lia|rewrite length_app; cbn [length]; lia|]. rewrite E2. cbn [mbind option_bind].
  assert (Hn : holds m2 (l ++ SLASH :: f)).
  { rewrite zset_zblit in E1. pose proof (zblit_zblit _ _ _ _ _ _ E1 E2) as E. rewrite Em in E. apply zblit_Some in E as (_ & _ & E). rewrite Nat2Z.id, take_app_length in E.
    apply zblit_length in E2. set (tail := drop _ (l ++ 0 :: r)) in E.
    assert (E' : m2 = (l ++ SLASH :: f) ++ 0 :: tail) by (rewrite E, <- !app_assoc; done).
    rewrite E'. split_and!; [rewrite <- E'; lia|apply take_app_length|]. rewrite zget_app_r, Z.sub_diag by lia. done. }
  unfold stat_name. cbn [with_name filename]. rewrite (holds_name _ _ Hn). cbn [mbind option_bind].
  destruct (lstat (c_text (l ++ SLASH :: f))) as [s|] eqn:Es; cbn [mbind option_bind]; eexists _, _; (split; [done|]); [|done].
  cbn [andb with_stat filename is_file file_stat]. unfold is_file. cbn [file_stat with_stat]. destruct (st_kind s) eqn:Ek; [|done..]. intros _. exists s. split_and!; [done|done|]. by apply holds_name.
Qed.

(** Escaped names have no signs of HTML *)
Lemma html_escape_plain value : Forall (fun c => c <> 60 /\ c <> 62 /\ c <> 34 /\ c <> 39) (html_escape value).
Proof.
  unfold html_escape. induction value as [|x value IH]; cbn [map concat]; [done|]. apply Forall_app. split; [|done]. unfold escape_char.
  repeat case_match; try (apply Forall_forall; intros c Hc; repeat (apply elem_of_cons in Hc as [->|Hc]; [done|]); by apply not_elem_of_nil in Hc).
  repeat constructor; intros ->; done.
Qed.

(** A name of a directory is decoded as it was *)
Lemma percent_char_escape c : byte c -> percent_char c = escape c.
Proof.
  intros Hc. unfold percent_char, escape.
  assert (E : forallb (fun c => Bool.eqb (unreserved c) (isalnum c || (c =? 45) || (c =? 46) || (c =? 95) || (c =? 126))) (seqZ 0 256) = true) by (by vm_compute).
  rewrite forallb_forall in E. specialize (E c). rewrite <- list_elem_of_In, elem_of_seqZ in E. unfold byte in Hc. specialize (E ltac:(lia)). apply eqb_prop in E. by rewrite E.
Qed.
Lemma percent_encode_decode value : Forall byte value -> decode (percent_encode_path_segment value) = value.
Proof.
  intros Hv. rewrite <- (decode_encode value Hv) at 2. f_equal. unfold percent_encode_path_segment, encode. f_equal. apply map_ext_in. intros c Hc%list_elem_of_In.
  rewrite Forall_forall in Hv. by apply percent_char_escape, Hv.
Qed.
