(* ===== verification/StaticRange.v ===== *)
(** * Serving files: which bytes are sent

    [StaticHandler::parse_range] of [src/server/static_handler.cc] and what
    [Server::select_static_handler] sends: the header, the parts of the file and the headers
    between them.  The [Range] header is a string with its null byte; the dates, the type and
    the random boundary are inputs.  [None] is an access out of bounds, or fuel that is used
    up. *)

From stdpp Require Import strings.
From S2P Require Import Prelude CStr HttpText StaticHandler HttpProxy.

(** ** Definitions *)

Definition SIZE_MAX : Z := 2 ^ 64 - 1.
Definition SW_HTTP_PARTIAL_CONTENT : Z := 206.
Definition SW_HTTP_RANGE_NOT_SATISFIABLE : Z := 416.
Definition SW_HTTP_SERVER_PART_HEADER : Z := 256.
Definition COMMA : Z := 44.
Definition MINUS : Z := 45.

Record Task := mkTask { offset : Z; task_length : Z; part_header : list Z }.
Record Range := mkRange { tasks : list Task; content_length : Z; range_status : Z; end_part : list Z }.

(** Over the blanks at [p] *)
Fixpoint blanks (fuel : nat) (m : list Z) (p : Z) : option Z :=
  match fuel with O => None | S fuel => c ← zget m p; if c =? SP then blanks fuel m (p + 1) else Some p end.
(** The digits at [p]; [Some None] is a number that is too large *)
Definition cutoff : Z := SIZE_MAX / 10.
Definition cutlim : Z := SIZE_MAX mod 10.
Fixpoint number (fuel : nat) (m : list Z) (p v : Z) : option (option (Z * Z)) :=
  match fuel with
  | O => None
  | S fuel =>
      c ← zget m p;
      if isdigit c then
        if (cutoff <=? v) && ((cutoff <? v) || (cutlim <? c - 48)) then Some None
        else number fuel m (p + 1) (v * 10 + (c - 48))
      else Some (Some (v, p))
  end.

Section parse_range.
Context (filesize : Z) (boundary mimetype : list Z) (m : list Z).
#[local] Abbreviation fuel := (S (length m)).

(** The last position of a range, or the length of a suffix *)
Definition range_end (p start : Z) (suffix : bool) : option (option (Z * Z * Z)) :=
  c ← zget m p;
  if negb (isdigit c) then Some None else
  o ← number fuel m p 0;
  match o with
  | None => Some None
  | Some (end_, p) =>
      p ← blanks fuel m p;
      c ← zget m p;
      if negb ((c =? COMMA) || (c =? 0) || (c =? CR)) then Some None
      else
        let '(start, end_) :=
          if suffix then (if end_ <? filesize then filesize - end_ else 0, u64 (filesize - 1)) else (start, end_) in
        Some (Some (start, if filesize <=? end_ then filesize else end_ + 1, p))
  end.
(** One range: its start, its end and where it ends in the header; [Some None] is not satisfiable *)
Definition one_range (p : Z) : option (option (Z * Z * Z)) :=
  p ← blanks fuel m p;
  c ← zget m p;
  if c =? MINUS then range_end (p + 1) 0 true
  else if negb (isdigit c) then Some None
  else
    o ← number fuel m p 0;
    match o with
    | None => Some None
    | Some (start, p) =>
        p ← blanks fuel m p;
        c ← zget m p;
        if negb (c =? MINUS) then Some None
        else
          p ← blanks fuel m (p + 1);
          c ← zget m p;
          if (c =? COMMA) || (c =? 0) then Some (Some (start, filesize, p)) else range_end p start false
    end.

(** [sw_snprintf] into [part_header] *)
Definition make_part_header (first : bool) (start end_ : Z) : list Z :=
  take (Z.to_nat (SW_HTTP_SERVER_PART_HEADER - 1))
    ((if first then [] else CRLF) ++ str "--" ++ c_text boundary ++ CRLF ++ str "Content-Type: " ++ c_text mimetype ++ CRLF ++
     str "Content-Range: bytes " ++ to_string start ++ [MINUS] ++ to_string (end_ - 1) ++ str "/" ++ to_string filesize ++ CRLF ++ CRLF).

(** [size] is the sum of the lengths; the second result is false after an error *)
Fixpoint range_loop (n : nat) (p size : Z) (ts : list Task) (len : Z) : option (list Task * Z * bool) :=
  match n with
  | O => None
  | S n =>
      o ← one_range p;
      match o with
      | None => Some (ts, len, false)
      | Some (start, end_, p) =>
          let next size ts len :=
            c ← zget m p;
            if negb (c =? COMMA) then Some (ts, len, true)
            else
              c ← zget m (p + 1);
              if (c =? CR) || (c =? 0) then Some (ts, len, true) else range_loop n (p + 1) size ts len in
          if start <? end_ then
            if SIZE_MAX - (end_ - start) <? size then Some (ts, len, false)
            else
              let h := make_part_header (bool_decide (ts = [])) start end_ in
              next (size + (end_ - start)) (ts ++ [mkTask start (end_ - start) h]) (u64 (len + (zlen h + (end_ - start))))
          else if start =? 0 then Some (ts, len, true)
          else next size ts len
      end
  end.

Definition whole_file (status : Z) : Range := mkRange [mkTask 0 filesize []] filesize status [].

Definition range_result : option Range :=
  let none := Some (whole_file SW_HTTP_OK) in
  c ← zget m 0;
  if c =? 0 then none else
  n ← strlen m 0;
  bytes ← istarts_with m 0 n (str "bytes=");
  if negb bytes then none else
  '(ts, len, ok) ← range_loop fuel 6 0 [] 0;
  Some (if negb ok then mkRange ts len SW_HTTP_RANGE_NOT_SATISFIABLE []
        else
          match ts with
          | [] => whole_file SW_HTTP_OK
          | [t] => mkRange ts (task_length t) SW_HTTP_PARTIAL_CONTENT []
          | _ =>
              let e := CRLF ++ str "--" ++ boundary ++ str "--" ++ CRLF in
              mkRange ts (u64 (len + zlen e)) SW_HTTP_PARTIAL_CONTENT e
          end).

(** [modified_range] is the answer of [is_modified_range] to the [If-Range] header; an error
    and a header of another unit return before it is asked *)
Definition parse_range (modified_range : bool) : option Range :=
  r ← range_result;
  bytes ← (c ← zget m 0; if c =? 0 then Some true else n ← strlen m 0; istarts_with m 0 n (str "bytes="));
  Some (if modified_range && bytes && negb (range_status r =? SW_HTTP_RANGE_NOT_SATISFIABLE) then whole_file SW_HTTP_OK else r).
End parse_range.

(** *** The response *)

(** [send_to_connection]: bytes, a part of the file, or the end *)
Inductive Response := SendData (d : list Z) | SendFile (off len : Z) | SendClose.

Record Headers := mkHeaders { keep_alive : bool; is_head : bool; date_str : list Z; date_last_modified : list Z }.

Definition content_type (r : Range) (boundary mimetype : list Z) : list Z :=
  match tasks r with _ :: _ :: _ => str "multipart/byteranges; boundary=" ++ boundary | _ => mimetype end.

(** [sw_snprintf] into [header_buffer] *)
Definition response_header (q : Headers) (r : Range) (filesize : Z) (boundary mimetype : list Z) : list Z :=
  let header_stream :=
    match tasks r with
    | [t] => if range_status r =? SW_HTTP_PARTIAL_CONTENT
             then str "Content-Range: bytes " ++ to_string (offset t) ++ [MINUS] ++ to_string (u64 (task_length t + offset t - 1)) ++ str "/" ++ to_string filesize ++ CRLF
             else str "Accept-Ranges: bytes" ++ CRLF
    | _ => []
    end in
  take 1023
    (str "HTTP/1.1 " ++ get_status_message (range_status r) ++ CRLF ++
     str "Connection: " ++ (if keep_alive q then str "keep-alive" else str "close") ++ CRLF ++
     str "Content-Length: " ++ to_string (if is_head q then 0 else content_length r) ++ CRLF ++
     str "Content-Type: " ++ (if is_head q then mimetype else content_type r boundary mimetype) ++ CRLF ++
     header_stream ++ str "Date: " ++ date_str q ++ CRLF ++ str "Last-Modified: " ++ date_last_modified q ++ CRLF ++
     str "Server: swoole-http-server" ++ CRLF ++ CRLF).

Definition part_responses (t : Task) : list Response := [SendData (c_text (part_header t)); SendFile (offset t) (task_length t)].
Definition response_body (r : Range) : list Response :=
  match tasks r with
  | [] => []
  | [t] => if 0 <? task_length t then [SendFile (offset t) (task_length t)] else []
  | ts => concat (map part_responses ts) ++ [SendData (end_part r)]
  end.
Definition send_file (q : Headers) (r : Range) (filesize : Z) (boundary mimetype : list Z) : list Response :=
  [SendData (response_header q r filesize boundary mimetype)] ++ (if is_head q then [] else response_body r) ++ (if keep_alive q then [] else [SendClose]).

(** What the peer gets *)
Definition sent_bytes (file : list Z) (x : Response) : list Z :=
  match x with SendData d => d | SendFile off len => take (Z.to_nat len) (drop (Z.to_nat off) file) | SendClose => [] end.

(** ** Any header is read in its bounds *)

Section safety.
Context (filesize : Z) (boundary mimetype : list Z) (r : list Z) (Hr0 : (0 ∉ r)) (Hfile : 0 <= filesize < 2 ^ 63).
#[local] Abbreviation m := (r ++ [0]).
#[local] Abbreviation hlen := (zlen r).

Lemma get_header p : 0 <= p <= hlen -> exists c, zget m p = Some c /\ (c = 0 <-> p = hlen).
Proof.
  intros Hp. destruct (decide (p = hlen)) as [->|Hne].
  - exists 0. split; [|done]. rewrite zget_app_r, Z.sub_diag by lia. done.
  - destruct (zget_in_bounds r p) as [c Hc]; [lia|]. exists c. rewrite zget_app_l by lia. split; [done|]. split; [|lia]. intros ->. exfalso. apply Hr0.
    unfold zget in Hc. destruct (0 <=? p); [|done]. by eapply list_elem_of_lookup_2.
Qed.

Lemma blanks_ok fuel : forall p, 0 <= p <= hlen -> (Z.to_nat (hlen - p) < fuel)%nat -> exists p', blanks fuel m p = Some p' /\ p <= p' <= hlen.
Proof.
  induction fuel as [|fuel IH]; intros p Hp Hf; [lia|]. cbn [blanks]. destruct (get_header p Hp) as (c & -> & Hc). cbn [mbind option_bind].
  destruct (Z.eqb_spec c SP) as [->|]; [|exists p; split; [done|lia]]. assert (p <> hlen) by (intros E; apply Hc in E; unfold SP in E; lia).
  destruct (IH (p + 1)) as (p' & -> & Hp'); [lia..|]. exists p'. split; [done|lia].
Qed.

Lemma number_ok fuel : forall p v, 0 <= p <= hlen -> (Z.to_nat (hlen - p) < fuel)%nat -> 0 <= v <= SIZE_MAX ->
  exists o, number fuel m p v = Some o /\ forall v' p', o = Some (v', p') -> 0 <= v' <= SIZE_MAX /\ p <= p' <= hlen.
Proof.
  induction fuel as [|fuel IH]; intros p v Hp Hf Hv; [lia|]. cbn [number]. destruct (get_header p Hp) as (c & -> & Hc). cbn [mbind option_bind].
  destruct (isdigit c) eqn:Ed; [|eexists; split; [done|]; intros v' p' [= <- <-]; split; [done|lia]]. unfold isdigit in Ed. assert (p <> hlen) by (intros E; apply Hc in E; subst; done).
  destruct ((cutoff <=? v) && _) eqn:Ecut; [by exists None|]. destruct (IH (p + 1) (v * 10 + (c - 48))) as (o & -> & Ho); [lia|lia| |].
  - unfold cutoff, cutlim, SIZE_MAX in *. change ((2 ^ 64 - 1) / 10) with 1844674407370955161 in Ecut. change ((2 ^ 64 - 1) mod 10) with 5 in Ecut. lia.
  - exists o. split; [done|]. intros v' p' E. destruct (Ho v' p' E). split; [done|lia].
Qed.

(** What a range may be *)
Definition sound_range (p : Z) (x : Z * Z * Z) : Prop := let '(s, e, p') := x in 0 <= s <= SIZE_MAX /\ 0 <= e <= filesize /\ p <= p' <= hlen.

Lemma header_fuel p : 0 <= p -> (Z.to_nat (hlen - p) < S (length m))%nat.
Proof. intros. rewrite length_app. lia. Qed.

Lemma suffix_end : (if filesize <=? u64 (filesize - 1) then filesize else u64 (filesize - 1) + 1) = filesize.
Proof.
  destruct (decide (filesize = 0)) as [->|]; [done|]. rewrite (uN_small 64) by (unfold fits; lia). rewrite (proj2 (Z.leb_gt _ _)) by lia. lia.
Qed.

Lemma range_end_ok p start suffix : 0 <= p <= hlen -> 0 <= start <= SIZE_MAX ->
  exists o, range_end filesize m p start suffix = Some o /\ forall x, o = Some x -> sound_range p x.
Proof.
  intros Hp Hs. unfold range_end. destruct (get_header p Hp) as (c & -> & _). cbn [mbind option_bind]. destruct (isdigit c); cbn [negb]; [|by exists None].
  destruct (number_ok (S (length m)) p 0) as (o & -> & Ho); [done|apply header_fuel; lia|unfold SIZE_MAX; lia|]. cbn [mbind option_bind].
  destruct o as [[e p1]|]; [|by exists None]. destruct (Ho _ _ eq_refl) as [He Hp1]. destruct (blanks_ok (S (length m)) p1) as (p2 & -> & Hp2); [lia|apply header_fuel; lia|].
  cbn [mbind option_bind]. destruct (get_header p2) as (c2 & -> & _); [lia|]. cbn [mbind option_bind]. destruct (negb _); [by exists None|].
  destruct suffix; eexists; (split; [done|]); intros x [= <-]; unfold sound_range; [rewrite suffix_end|]; unfold SIZE_MAX in *; split_and!; try lia; case_match; lia.
Qed.

Lemma one_range_ok p : 0 <= p <= hlen -> exists o, one_range filesize m p = Some o /\ forall x, o = Some x -> sound_range p x.
Proof.
  intros Hp. unfold one_range. destruct (blanks_ok (S (length m)) p) as (p1 & -> & Hp1); [lia|apply header_fuel; lia|]. cbn [mbind option_bind].
  destruct (get_header p1) as (c1 & -> & Hc1); [lia|]. cbn [mbind option_bind]. destruct (Z.eqb_spec c1 MINUS) as [->|].
  { assert (p1 <> hlen) by (intros E; apply Hc1 in E; unfold MINUS in E; lia).
    destruct (range_end_ok (p1 + 1) 0 true) as (o & -> & Ho); [lia|unfold SIZE_MAX; lia|]. exists o. split; [done|]. intros [[s e] q] E. specialize (Ho _ E). unfold sound_range in *. lia. }
  destruct (isdigit c1); cbn [negb]; [|by exists None].
  destruct (number_ok (S (length m)) p1 0) as (o & -> & Ho); [lia|apply header_fuel; lia|unfold SIZE_MAX; lia|]. cbn [mbind option_bind].
  destruct o as [[s p2]|]; [|by exists None]. destruct (Ho _ _ eq_refl) as [Hs Hp2]. destruct (blanks_ok (S (length m)) p2) as (p3 & -> & Hp3); [lia|apply header_fuel; lia|].
  cbn [mbind option_bind]. destruct (get_header p3) as (c3 & -> & Hc3); [lia|]. cbn [mbind option_bind]. destruct (Z.eqb_spec c3 MINUS) as [->|]; cbn [negb]; [|by exists None].
  assert (p3 <> hlen) by (intros E; apply Hc3 in E; unfold MINUS in E; lia).
  destruct (blanks_ok (S (length m)) (p3 + 1)) as (p4 & -> & Hp4); [lia|apply header_fuel; lia|]. cbn [mbind option_bind].
  destruct (get_header p4) as (c4 & -> & _); [lia|]. cbn [mbind option_bind]. destruct (_ || _).
  - eexists. split; [done|]. intros x [= <-]. unfold sound_range. lia.
  - destruct (range_end_ok p4 s false) as (o & -> & Ho'); [lia|done|]. exists o. split; [done|]. intros [[s' e] q] E. specialize (Ho' _ E). unfold sound_range in *. lia.
Qed.

(** *** The tasks *)

Definition task_ok (t : Task) : Prop := 0 <= offset t /\ 0 < task_length t /\ offset t + task_length t <= filesize /\ zlen (part_header t) <= 255 /\ (0 ∉ part_header t).
Definition total (ts : list Task) : Z := foldr (fun t s => zlen (part_header t) + task_length t + s) 0 ts.

Lemma total_app a b : total (a ++ b) = total a + total b.
Proof. induction a as [|t a IH]; cbn [app total foldr]; [done|]. unfold total in *. lia. Qed.
Lemma total_bound ts : Forall task_ok ts -> 0 <= total ts <= zlen ts * (filesize + 255).
Proof. induction 1 as [|t ts (H1 & H2 & H3 & H4 & _) _ IH]; cbn [total foldr length]; [lia|]. unfold total in *. lia. Qed.

Lemma to_string_nonzero x : 0 <= x -> (0 ∉ to_string x).
Proof.
  intros Hx H0. unfold to_string in H0. rewrite (proj2 (Z.ltb_ge _ _)) in H0 by lia. destruct (print_number_digits 10 x ltac:(lia) Hx) as (_ & Hf & _).
  rewrite Forall_forall in Hf. destruct (Hf 0 H0) as [v Hv]. done.
Qed.
Lemma c_text_nonzero l : (0 ∉ c_text l).
Proof. induction l as [|c l IH]; cbn [c_text]; [apply not_elem_of_nil|]. destruct (Z.eqb_spec c 0); [apply not_elem_of_nil|]. apply not_elem_of_cons. split; [congruence|done]. Qed.

Lemma part_header_ok first s e : 0 <= s -> s < e -> zlen (make_part_header filesize boundary mimetype first s e) <= 255 /\ (0 ∉ make_part_header filesize boundary mimetype first s e).
Proof.
  intros Hs He. unfold make_part_header. split; [rewrite length_take; unfold SW_HTTP_SERVER_PART_HEADER; lia|].
  assert (Hz : forall l : list Z, forallb (fun c => negb (c =? 0)) l = true -> (0 ∉ l)) by (intros l Hl H; rewrite forallb_forall in Hl; apply list_elem_of_In, Hl in H; done).
  intros H. apply elem_of_take in H as (i & H & _). apply list_elem_of_lookup_2 in H. revert H. rewrite !elem_of_app.
  pose proof (c_text_nonzero boundary). pose proof (c_text_nonzero mimetype). pose proof (to_string_nonzero s Hs). pose proof (to_string_nonzero (e - 1) ltac:(lia)).
  pose proof (to_string_nonzero filesize ltac:(lia)). intros H'. repeat (destruct H' as [H'|H']; [try done; by destruct first; apply Hz in H'|]). by apply Hz in H'.
Qed.

Lemma range_loop_ok k : forall p size ts len, 0 <= p <= hlen -> (Z.to_nat (hlen - p) < k)%nat -> Forall task_ok ts -> zlen ts <= p -> (hlen + 1) * (filesize + 255) < 2 ^ 64 -> len = total ts -> 0 <= size ->
  exists ts' len' ok, range_loop filesize boundary mimetype m k p size ts len = Some (ts', len', ok) /\ Forall task_ok ts' /\ len' = total ts' /\ zlen ts' <= hlen + 1.
Proof.
  induction k as [|k IH]; intros p size ts len Hp Hk Hts Hcount Hmax Hlen Hsize; [lia|]. cbn [range_loop].
  destruct (one_range_ok p Hp) as (o & -> & Ho). cbn [mbind option_bind]. destruct o as [[[s e] q]|]; [|eexists _, _, _; split; [done|]; split_and!; [done|done|lia]].
  destruct (Ho _ eq_refl) as (Hs & He & Hq).
  assert (Hnext : forall size ts len, Forall task_ok ts -> zlen ts <= p + 1 -> len = total ts -> 0 <= size -> exists ts' len' ok,
    (c ← zget m q; if negb (c =? COMMA) then Some (ts, len, true)
     else c ← zget m (q + 1); if (c =? CR) || (c =? 0) then Some (ts, len, true) else range_loop filesize boundary mimetype m k (q + 1) size ts len) = Some (ts', len', ok) /\
    Forall task_ok ts' /\ len' = total ts' /\ zlen ts' <= hlen + 1).
  { clear Hts Hcount Hlen Hsize. intros size' ts' len' Hts Hcount Hlen Hsize. destruct (get_header q) as (c & -> & Hc); [lia|]. cbn [mbind option_bind].
    destruct (Z.eqb_spec c COMMA) as [->|]; cbn [negb]; [|eexists _, _, _; split; [done|]; split_and!; [done|done|lia]].
    assert (q <> hlen) by (intros E; apply Hc in E; unfold COMMA in E; lia). destruct (get_header (q + 1)) as (c' & -> & _); [lia|]. cbn [mbind option_bind].
    destruct (_ || _); [eexists _, _, _; split; [done|]; split_and!; [done|done|lia]|]. apply IH; try done; lia. }
  destruct (Z.ltb_spec s e) as [Hse|].
  - destruct (_ <? size); [eexists _, _, _; split; [done|]; split_and!; [done|done|lia]|]. cbv zeta.
    set (h := make_part_header filesize boundary mimetype (bool_decide (ts = [])) s e).
    destruct (part_header_ok (bool_decide (ts = [])) s e) as [Hh1 Hh2]; [lia..|]. fold h in Hh1, Hh2.
    assert (Ht : Forall task_ok (ts ++ [mkTask s (e - s) h])) by (apply Forall_app; split; [done|]; apply Forall_singleton; unfold task_ok; cbn; split_and!; lia || done).
    assert (El : len + (zlen h + (e - s)) = total (ts ++ [mkTask s (e - s) h])) by (rewrite total_app, Hlen; cbn; lia).
    pose proof (total_bound _ Ht) as Hb. rewrite length_app in Hb. cbn [length] in Hb.
    apply Hnext; [done|rewrite length_app; cbn [length]; lia| |lia]. rewrite El. rewrite (uN_small 64); [done|]. unfold fits. split; [lia|]. eapply Z.le_lt_trans; [apply Hb|]. eapply Z.le_lt_trans; [|exact Hmax].
    apply Z.mul_le_mono_nonneg_r; lia.
  - destruct (s =? 0); [eexists _, _, _; split; [done|]; split_and!; [done|done|lia]|]. apply Hnext; [done|lia|done|done].
Qed.
End safety.

Lemma body_bytes file ts : Forall (task_ok (zlen file)) ts -> zlen (concat (map (sent_bytes file) (concat (map part_responses ts)))) = total ts.
Proof.
  induction 1 as [|t ts (H1 & H2 & H3 & _ & H5) _ IH]; [done|]. cbn [map concat part_responses app sent_bytes total foldr]. rewrite !length_app, !Nat2Z.inj_add, IH.
  rewrite c_text_id by done. rewrite length_take, length_drop. fold (total ts). lia.
Qed.

(** C32: What is announced is what is sent.  For any bytes in the [Range] header:
    reading it ends and stays in the header, every part that is sent lies in the file,
    and unless the range is refused, the body (the parts of the file with the headers
    between them) has exactly the length that the response announces.  Conditions: a
    boundary of at most 64 bytes, and a file and a header for which the total length
    fits 64 bits. *)
Theorem range_response_consistent file boundary mimetype r modified : (0 ∉ r) -> zlen boundary <= 64 ->
  zlen file < 2 ^ 63 -> (zlen r + 1) * (zlen file + 255) + 100 < 2 ^ 64 ->
  exists R, parse_range (zlen file) boundary mimetype (r ++ [0]) modified = Some R /\
    Forall (fun t => 0 <= offset t /\ offset t + task_length t <= zlen file) (tasks R) /\
    (range_status R <> SW_HTTP_RANGE_NOT_SATISFIABLE -> zlen (concat (map (sent_bytes file) (response_body R))) = content_length R).
Proof.
  intros Hr0 Hbd Hfile Hmax.
  assert (Hwhole : forall st, Forall (fun t => 0 <= offset t /\ offset t + task_length t <= zlen file) (tasks (whole_file (zlen file) st)) /\
    zlen (concat (map (sent_bytes file) (response_body (whole_file (zlen file) st)))) = zlen file).
  { intros st. split; [apply Forall_singleton; cbn; lia|]. cbn. destruct (Z.ltb_spec 0 (zlen file)); cbn; [|lia]. rewrite app_nil_r, drop_0, Nat2Z.id, take_ge by lia. done. }
  assert (Hres : exists R, range_result (zlen file) boundary mimetype (r ++ [0]) = Some R /\
    Forall (fun t => 0 <= offset t /\ offset t + task_length t <= zlen file) (tasks R) /\
    (range_status R <> SW_HTTP_RANGE_NOT_SATISFIABLE -> zlen (concat (map (sent_bytes file) (response_body R))) = content_length R)).
  { unfold range_result. destruct (get_header r Hr0 0) as (c & -> & _); [lia|]. cbn [mbind option_bind].
    destruct (c =? 0); [eexists; split; [done|]; destruct (Hwhole SW_HTTP_OK); done|].
    destruct (strlen_text r []) as [E _]. rewrite c_text_id in E by done. rewrite E. cbn [mbind option_bind].
    destruct (istarts_with_safe (r ++ [0]) 0 (zlen r) (str "bytes=")) as [b Eb]; [lia|rewrite length_app; lia|]. rewrite Eb. cbn [mbind option_bind].
    destruct b; cbn [negb]; [|eexists; split; [done|]; destruct (Hwhole SW_HTTP_OK); done].
    assert (6 <= zlen r) by (unfold istarts_with in Eb; change (zlen (str "bytes=")) with 6 in Eb; destruct (Z.leb_spec 6 (zlen r)); [lia|done]).
    destruct (range_loop_ok (zlen file) boundary mimetype r Hr0 ltac:(lia) (S (length (r ++ [0]))) 6 0 [] 0) as (ts & len & ok & -> & Hts & Hlen & Hcount); [lia|apply header_fuel; lia|done|cbn; lia|lia|done|lia|].
    cbn [mbind option_bind].
    assert (Hin : Forall (fun t => 0 <= offset t /\ offset t + task_length t <= zlen file) ts) by (eapply Forall_impl; [exact Hts|]; intros t (H1 & H2 & H3 & _); lia).
    destruct ok; cbn [negb]; [|eexists; split; [done|]; split; [done|]; done].
    destruct ts as [|t [|t2 ts]]; eexists; (split; [done|]); [destruct (Hwhole SW_HTTP_OK); done| |].
    - split; [done|]. intros _. apply Forall_singleton in Hts as (H1 & H2 & H3 & _). unfold response_body. cbn [tasks content_length]. rewrite (proj2 (Z.ltb_lt _ _)) by lia. cbn [map concat sent_bytes].
      rewrite app_nil_r, length_take, length_drop. lia.
    - split; [done|]. intros _. unfold response_body. cbn [tasks content_length end_part]. rewrite map_app, concat_app, length_app, Nat2Z.inj_add, body_bytes by done. cbn [map concat sent_bytes]. rewrite app_nil_r.
      rewrite Hlen. pose proof (total_bound (zlen file) _ Hts) as Hb. rewrite !length_app. change (length CRLF) with 2%nat. change (length (str "--")) with 2%nat. rewrite (uN_small 64); [lia|]. unfold fits.
      assert (zlen (t :: t2 :: ts) * (zlen file + 255) <= (zlen r + 1) * (zlen file + 255)) by (apply Z.mul_le_mono_nonneg_r; lia). lia. }
  destruct Hres as (R & E & Hin & Hlen). unfold parse_range. rewrite E. cbn [mbind option_bind].
  assert (Hb : exists b, (c ← zget (r ++ [0]) 0; if c =? 0 then Some true else n ← strlen (r ++ [0]) 0; istarts_with (r ++ [0]) 0 n (str "bytes=")) = Some b).
  { destruct (get_header r Hr0 0) as (c & -> & _); [lia|]. cbn [mbind option_bind]. destruct (c =? 0); [by eexists|]. destruct (strlen_text r []) as [E' _]. rewrite c_text_id in E' by done. rewrite E'. cbn [mbind option_bind].
    apply istarts_with_safe; [lia|rewrite length_app; lia]. }
  destruct Hb as [b ->]. cbn [mbind option_bind]. destruct (_ && _); [|by exists R]. eexists. split; [done|]. destruct (Hwhole SW_HTTP_OK). done.
Qed.

(** ** Well-formed ranges *)

Inductive spec := FromTo (a b : Z) | From (a : Z) | Suffix (k : Z).
Definition render_spec (x : spec) : list Z :=
  match x with FromTo a b => to_string a ++ [MINUS] ++ to_string b | From a => to_string a ++ [MINUS] | Suffix k => MINUS :: to_string k end.
Definition render_ranges (xs : list spec) : list Z :=
  str "bytes=" ++ match xs with [] => [] | x :: xs => render_spec x ++ concat (map (fun x => COMMA :: render_spec x) xs) end.
Definition spec_ok (x : spec) : Prop :=
  match x with FromTo a b => 0 <= a < 2 ^ 63 /\ 0 <= b < 2 ^ 63 | From a => 0 <= a < 2 ^ 63 | Suffix k => 0 <= k < 2 ^ 63 end.
(** The first byte and the one behind the last, in a file of this size *)
Definition resolve (filesize : Z) (x : spec) : Z * Z :=
  match x with
  | FromTo a b => (a, Z.min (b + 1) filesize)
  | From a => (a, filesize)
  | Suffix k => (Z.max 0 (filesize - k), filesize)
  end.
(** The part of the file, when there is one *)
Definition part (filesize : Z) (x : spec) : option (Z * Z) := let '(s, e) := resolve filesize x in if s <? e then Some (s, e - s) else None.

Section ranges.
Context (filesize : Z) (m : list Z) (Hfile : 0 < filesize < 2 ^ 62).

(** [number] reads what [digits] reads *)
Lemma number_digits l : forall fuel p v v' e, drop (Z.to_nat p) m = l -> 0 <= p -> (length l < fuel)%nat -> digits 10 l p v = Some (v', e) -> 0 <= v -> v' <= SIZE_MAX ->
  v <= v' /\ number fuel m p v = Some (Some (v', e)).
Proof.
  induction l as [|c l IH]; intros fuel p v v' e Hl Hp Hf Hd Hv Hmax; [done|]. destruct fuel as [|fuel]; [cbn in Hf; lia|]. destruct (zget_drop m p c l Hp Hl) as (Hg & _ & Hl').
  cbn [digits] in Hd. cbn [number]. rewrite Hg. cbn [mbind option_bind]. unfold digit, digit_value in Hd. destruct (isdigit c) eqn:Ec.
  - assert (Hc := Ec). unfold isdigit in Hc. cbn [mbind option_bind] in Hd. rewrite (proj2 (Z.ltb_lt (c - 48) 10)) in Hd by lia.
    destruct (IH fuel (p + 1) (v * 10 + (c - 48)) v' e) as [Hle E]; [done|lia|cbn in Hf; lia|done|lia|done|]. split; [lia|].
    replace ((cutoff <=? v) && ((cutoff <? v) || (cutlim <? c - 48))) with false; [done|]. symmetry. unfold cutoff, cutlim, SIZE_MAX in *.
    change ((2 ^ 64 - 1) / 10) with 1844674407370955161. change ((2 ^ 64 - 1) mod 10) with 5. lia.
  - destruct (isupper c) eqn:Eu; [|destruct (islower c) eqn:El]; cbn [mbind option_bind] in Hd; unfold isupper, islower in *; try (rewrite (proj2 (Z.ltb_ge _ 10)) in Hd by lia); injection Hd as <- <-; split; done || lia.
Qed.

Lemma isdigit_first x l : 0 <= x -> exists c l', to_string x ++ l = c :: l' /\ isdigit c = true.
Proof.
  intros Hx. rewrite to_string_positive by done. destruct (print_number_digits 10 x ltac:(lia) Hx) as (Hne & Hf & _). destruct (print_number 10 x) as [|c ds]; [done|]. exists c, (ds ++ l).
  split; [done|]. apply Forall_cons in Hf as [[d Hd] _]. unfold digit, digit_value in Hd. destruct (isdigit c) eqn:Ec; [done|].
  destruct (isupper c) eqn:Eu; [|destruct (islower c) eqn:El]; cbn [mbind option_bind] in Hd; unfold isupper, islower in *; try done; rewrite (proj2 (Z.ltb_ge _ 10)) in Hd by lia; done.
Qed.

Lemma number_at pre x c rest : 0 <= x < 2 ^ 63 -> m = pre ++ to_string x ++ c :: rest -> isdigit c = false -> digit 10 c = None ->
  number (S (length m)) m (zlen pre) 0 = Some (Some (x, zlen pre + zlen (to_string x))).
Proof.
  intros Hx Hm Hc Hc'. destruct (print_number_digits 10 x ltac:(lia) ltac:(lia)) as (_ & _ & Hd). rewrite to_string_positive in * by lia.
  destruct (number_digits (print_number 10 x ++ c :: rest) (S (length m)) (zlen pre) 0 x (zlen pre + zlen (print_number 10 x))) as [_ E]; try done; try lia.
  - rewrite Hm, Nat2Z.id. apply drop_app_length.
  - rewrite Hm, !length_app. lia.
  - rewrite Hd. cbn [digits]. rewrite Hc'. done.
  - unfold SIZE_MAX. lia.
Qed.

Lemma blanks_at fuel p c : zget m p = Some c -> c <> SP -> blanks (S fuel) m p = Some p.
Proof. intros Hg Hc. cbn [blanks]. rewrite Hg. cbn [mbind option_bind]. by rewrite (proj2 (Z.eqb_neq c SP)). Qed.

Lemma zget_mid (pre l : list Z) c : zget (pre ++ c :: l) (zlen pre) = Some c.
Proof. rewrite zget_app_r, Z.sub_diag by lia. done. Qed.

(** The end of a range, before a comma or the end of the header *)
Lemma range_end_at pre x c rest start suffix : 0 <= x < 2 ^ 63 -> m = pre ++ to_string x ++ c :: rest -> c = COMMA \/ c = 0 ->
  range_end filesize m (zlen pre) start suffix =
  Some (Some (let '(s, e) := if suffix then (Z.max 0 (filesize - x), filesize) else (start, Z.min (x + 1) filesize) in (s, e, zlen pre + zlen (to_string x)))).
Proof.
  intros Hx Hm Hc. unfold range_end. destruct (isdigit_first x (c :: rest) ltac:(lia)) as (d & l & Ed & Hd).
  assert (Hg : zget m (zlen pre) = Some d) by (rewrite Hm, Ed; apply zget_mid). rewrite Hg. cbn [mbind option_bind]. rewrite Hd. cbn [negb].
  rewrite (number_at pre x c rest) by (done || (destruct Hc as [-> | ->]; done)). cbn [mbind option_bind].
  assert (Hg2 : zget m (zlen pre + zlen (to_string x)) = Some c) by (rewrite Hm, app_assoc, <- Nat2Z.inj_add, <- length_app; apply zget_mid).
  rewrite (blanks_at _ _ c) by (done || (destruct Hc as [-> | ->]; done)). cbn [mbind option_bind]. rewrite Hg2. cbn [mbind option_bind].
  replace ((c =? COMMA) || (c =? 0) || (c =? CR)) with true by (destruct Hc as [-> | ->]; done). cbn [negb].
  destruct suffix.
  - rewrite (suffix_end filesize) by lia. do 3 f_equal. f_equal. destruct (Z.ltb_spec x filesize); lia.
  - do 3 f_equal. f_equal. destruct (Z.leb_spec filesize x); lia.
Qed.

Lemma one_range_at pre x c rest : spec_ok x -> m = pre ++ render_spec x ++ c :: rest -> c = COMMA \/ c = 0 ->
  one_range filesize m (zlen pre) = Some (Some (let '(s, e) := resolve filesize x in (s, e, zlen pre + zlen (render_spec x)))).
Proof.
  intros Hx Hm Hc. unfold one_range. destruct x as [a b|a|k]; cbn [render_spec spec_ok resolve] in *.
  - destruct (isdigit_first a ([MINUS] ++ to_string b ++ c :: rest) ltac:(lia)) as (d & l & Ed & Hd). rewrite <- !app_assoc in Hm.
    assert (Hg : zget m (zlen pre) = Some d) by (rewrite Hm, Ed; apply zget_mid). assert (d <> SP /\ d <> MINUS) as [H1 H2] by (split; intros ->; done).
    rewrite (blanks_at _ _ d) by done. cbn [mbind option_bind]. rewrite Hg. cbn [mbind option_bind]. rewrite (proj2 (Z.eqb_neq d MINUS)), Hd by done. cbn [negb].
    rewrite (number_at pre a MINUS (to_string b ++ c :: rest)) by (done || lia). cbn [mbind option_bind].
    assert (Hm2 : m = (pre ++ to_string a) ++ MINUS :: to_string b ++ c :: rest) by (rewrite Hm, <- app_assoc; done).
    assert (Hg2 : zget m (zlen pre + zlen (to_string a)) = Some MINUS) by (rewrite Hm2, <- Nat2Z.inj_add, <- length_app; apply zget_mid).
    rewrite (blanks_at _ _ MINUS) by done. cbn [mbind option_bind]. rewrite Hg2. cbn [mbind option_bind]. change (MINUS =? MINUS) with true. cbn [negb].
    destruct (isdigit_first b (c :: rest) ltac:(lia)) as (d2 & l2 & Ed2 & Hd2). assert (Hm3 : m = (pre ++ to_string a ++ [MINUS]) ++ to_string b ++ c :: rest) by (rewrite Hm, <- !app_assoc; done).
    replace (zlen pre + zlen (to_string a) + 1) with (zlen (pre ++ to_string a ++ [MINUS])) by (rewrite !length_app; cbn [length]; lia).
    assert (Hg3 : zget m (zlen (pre ++ to_string a ++ [MINUS])) = Some d2) by (rewrite Hm3, Ed2; apply zget_mid). assert (d2 <> SP /\ d2 <> COMMA /\ d2 <> 0) as (H3 & H4 & H5) by (split_and!; intros ->; done).
    rewrite (blanks_at _ _ d2) by done. cbn [mbind option_bind]. rewrite Hg3. cbn [mbind option_bind]. rewrite (proj2 (Z.eqb_neq d2 COMMA)), (proj2 (Z.eqb_neq d2 0)) by done. cbn [orb].
    rewrite (range_end_at _ b c rest) by (done || lia). do 3 f_equal. rewrite !length_app. cbn [length]. lia.
  - destruct (isdigit_first a ([MINUS] ++ c :: rest) ltac:(lia)) as (d & l & Ed & Hd). rewrite <- !app_assoc in Hm.
    assert (Hg : zget m (zlen pre) = Some d) by (rewrite Hm, Ed; apply zget_mid). assert (d <> SP /\ d <> MINUS) as [H1 H2] by (split; intros ->; done).
    rewrite (blanks_at _ _ d) by done. cbn [mbind option_bind]. rewrite Hg. cbn [mbind option_bind]. rewrite (proj2 (Z.eqb_neq d MINUS)), Hd by done. cbn [negb].
    rewrite (number_at pre a MINUS (c :: rest)) by (done || lia). cbn [mbind option_bind].
    assert (Hm2 : m = (pre ++ to_string a) ++ MINUS :: c :: rest) by (rewrite Hm, <- app_assoc; done).
    assert (Hg2 : zget m (zlen pre + zlen (to_string a)) = Some MINUS) by (rewrite Hm2, <- Nat2Z.inj_add, <- length_app; apply zget_mid).
    rewrite (blanks_at _ _ MINUS) by done. cbn [mbind option_bind]. rewrite Hg2. cbn [mbind option_bind]. change (MINUS =? MINUS) with true. cbn [negb].
    assert (Hm3 : m = (pre ++ to_string a ++ [MINUS]) ++ c :: rest) by (rewrite Hm, <- !app_assoc; done).
    replace (zlen pre + zlen (to_string a) + 1) with (zlen (pre ++ to_string a ++ [MINUS])) by (rewrite !length_app; cbn [length]; lia).
    assert (Hg3 : zget m (zlen (pre ++ to_string a ++ [MINUS])) = Some c) by (rewrite Hm3; apply zget_mid).
    rewrite (blanks_at _ _ c) by (done || (destruct Hc as [-> | ->]; done)). cbn [mbind option_bind]. rewrite Hg3. cbn [mbind option_bind].
    replace ((c =? COMMA) || (c =? 0)) with true by (destruct Hc as [-> | ->]; done). do 3 f_equal. rewrite !length_app. cbn [length]. lia.
  - assert (Hg : zget m (zlen pre) = Some MINUS) by (rewrite Hm; apply zget_mid). rewrite (blanks_at _ _ MINUS) by done. cbn [mbind option_bind]. rewrite Hg. cbn [mbind option_bind].
    change (MINUS =? MINUS) with true. cbv iota. replace (zlen pre + 1) with (zlen (pre ++ [MINUS])) by (rewrite length_app; cbn [length]; lia).
    rewrite (range_end_at (pre ++ [MINUS]) k c rest) by (done || lia || (rewrite Hm, <- app_assoc; done)). do 3 f_equal. rewrite !length_app. cbn [length]. lia.
Qed.

Lemma render_spec_positive x : spec_ok x -> 0 < zlen (render_spec x).
Proof. destruct x; cbn [render_spec]; intros _; rewrite ?length_app; cbn [length]; rewrite ?length_app; lia. Qed.
Lemma resolve_bounds x : spec_ok x -> 0 <= (resolve filesize x).1 /\ 0 < (resolve filesize x).2 <= filesize.
Proof. destruct x; cbn [spec_ok resolve fst snd]; lia. Qed.

Definition task_part (t : Task) : Z * Z := (offset t, task_length t).
Definition tail (xs : list spec) : list Z := concat (map (fun x => COMMA :: render_spec x) xs).

Lemma render_spec_first x l : spec_ok x -> exists c l', render_spec x ++ l = c :: l' /\ c <> CR /\ c <> 0.
Proof.
  destruct x as [a b|a|k]; cbn [render_spec spec_ok]; intros Hx.
  - destruct (isdigit_first a (([MINUS] ++ to_string b) ++ l) ltac:(lia)) as (c & l' & E & Hc). exists c, l'. rewrite <- app_assoc. split_and!; [done|intros ->; done..].
  - destruct (isdigit_first a ([MINUS] ++ l) ltac:(lia)) as (c & l' & E & Hc). exists c, l'. rewrite <- app_assoc. split_and!; [done|intros ->; done..].
  - by eexists _, _.
Qed.

(** The first of the ranges, and the others *)
Lemma range_loop_at boundary mimetype xs : forall x k pre ts size len, spec_ok x -> Forall spec_ok xs -> m = pre ++ render_spec x ++ tail xs ++ [0] ->
  (length xs < k)%nat -> 0 <= size <= zlen pre * filesize -> zlen m * filesize < 2 ^ 64 ->
  exists ts' len', range_loop filesize boundary mimetype m k (zlen pre) size ts len = Some (ts ++ ts', len', true) /\ map task_part ts' = omap (part filesize) (x :: xs).
Proof.
  induction xs as [|y xs IH]; intros x k pre ts size len Hx Hxs Hm Hk Hsize Hmax; (destruct k as [|k]; [cbn in Hk; lia|]); cbn [range_loop].
  - cbn [tail concat map app] in Hm. rewrite (one_range_at pre x 0 []) by (done || tauto). cbn [mbind option_bind]. pose proof (resolve_bounds x Hx) as Hres.
    cbn [omap list_omap]. unfold part. destruct (resolve filesize x) as [s e]. cbn [fst snd] in Hres.
    assert (Hg : zget m (zlen pre + zlen (render_spec x)) = Some 0) by (rewrite Hm, app_assoc, <- Nat2Z.inj_add, <- length_app; apply zget_mid). rewrite Hg. cbn [mbind option_bind].
    change (0 =? COMMA) with false. cbn [negb]. assert (Hlm : zlen pre + 1 <= zlen m) by (rewrite Hm, !length_app; cbn [length]; lia). destruct (Z.ltb_spec s e).
    + rewrite (proj2 (Z.ltb_ge _ size)); [by eexists [_], _|]. unfold SIZE_MAX. nia.
    + rewrite (proj2 (Z.eqb_neq s 0)) by lia. exists [], len. by rewrite app_nil_r.
  - apply Forall_cons in Hxs as [Hy Hxs]. change (tail (y :: xs)) with ((COMMA :: render_spec y) ++ tail xs) in Hm. cbn [app] in Hm. rewrite <- app_assoc in Hm.
    rewrite (one_range_at pre x COMMA (render_spec y ++ tail xs ++ [0])) by (done || tauto). cbn [mbind option_bind]. pose proof (resolve_bounds x Hx) as Hres. pose proof (render_spec_positive x Hx) as Hpos.
    change (omap (part filesize) (x :: y :: xs)) with (match part filesize x with Some z => z :: omap (part filesize) (y :: xs) | None => omap (part filesize) (y :: xs) end).
    unfold part at 1. destruct (resolve filesize x) as [s e]. cbn [fst snd] in Hres.
    assert (Hg : zget m (zlen pre + zlen (render_spec x)) = Some COMMA) by (rewrite Hm, app_assoc, <- Nat2Z.inj_add, <- length_app; apply zget_mid). rewrite Hg. cbn [mbind option_bind].
    change (COMMA =? COMMA) with true. cbn [negb]. set (pre' := pre ++ render_spec x ++ [COMMA]). assert (Hm' : m = pre' ++ render_spec y ++ tail xs ++ [0]) by (unfold pre'; rewrite Hm, <- !app_assoc; done).
    replace (zlen pre + zlen (render_spec x) + 1) with (zlen pre') by (unfold pre'; rewrite !length_app; cbn [length]; lia).
    destruct (render_spec_first y (tail xs ++ [0]) Hy) as (c & l & Ec & Hc1 & Hc2). assert (Hg2 : zget m (zlen pre') = Some c) by (rewrite Hm', Ec; apply zget_mid). rewrite Hg2. cbn [mbind option_bind].
    rewrite (proj2 (Z.eqb_neq c CR)), (proj2 (Z.eqb_neq c 0)) by done. cbn [orb]. assert (Hlm : zlen pre' + 1 <= zlen m) by (rewrite Hm', !length_app; cbn [length]; lia).
    assert (Hlp : zlen pre + 2 <= zlen pre') by (unfold pre'; rewrite !length_app; cbn [length]; lia).
    destruct (Z.ltb_spec s e).
    + rewrite (proj2 (Z.ltb_ge _ size)) by (unfold SIZE_MAX; nia).
      edestruct (IH y k pre') as (ts' & len' & E & Hts'); [done|done|done|cbn in Hk; lia| |done|]; [|rewrite E; eexists (_ :: ts'), len'; rewrite <- app_assoc; split; [done|cbn [map]; by rewrite Hts']]. nia.
    + rewrite (proj2 (Z.eqb_neq s 0)) by lia. apply IH; try done; [cbn in Hk; lia|nia].
Qed.
End ranges.

Lemma render_spec_nonzero x : spec_ok x -> (0 ∉ render_spec x).
Proof.
  destruct x as [a b|a|k]; cbn [render_spec spec_ok]; intros Hx; rewrite ?elem_of_cons, ?elem_of_app, ?list_elem_of_singleton.
  - pose proof (to_string_nonzero a ltac:(lia)). pose proof (to_string_nonzero b ltac:(lia)). unfold MINUS. intros [|[|]]; done.
  - pose proof (to_string_nonzero a ltac:(lia)). unfold MINUS. intros [|]; done.
  - pose proof (to_string_nonzero k ltac:(lia)). unfold MINUS. intros [|]; done.
Qed.

Lemma render_ranges_nonzero x xs : spec_ok x -> Forall spec_ok xs -> (0 ∉ render_ranges (x :: xs)).
Proof.
  intros Hx Hxs. unfold render_ranges. rewrite !not_elem_of_app. split; [by apply (bool_decide_unpack _)|]. split; [by apply render_spec_nonzero|].
  induction Hxs as [|y xs Hy _ IH]; cbn [map concat]; [apply not_elem_of_nil|]. rewrite not_elem_of_app. split; [|done]. apply not_elem_of_cons. split; [done|by apply render_spec_nonzero].
Qed.

(** The parts of the file in a response *)
Definition file_parts (xs : list Response) : list (Z * Z) := omap (fun x => match x with SendFile o l => Some (o, l) | _ => None end) xs.

Lemma file_parts_body ts : file_parts (concat (map part_responses ts)) = map task_part ts.
Proof. induction ts as [|t ts IH]; [done|]. cbn. unfold file_parts in IH. by rewrite IH. Qed.

(** A request for ranges gets them.  For a header with any number of ranges (from a byte to
    another one, from a byte on, or the last bytes) of a file that is not empty: if one of them
    has bytes of the file, the response is partial content and sends exactly the ranges that
    have some, in their order, each cut at the end of the file; if none has, the whole file. *)
Theorem ranges_served filesize boundary mimetype x xs : 0 < filesize < 2 ^ 62 -> spec_ok x -> Forall spec_ok xs ->
  let h := render_ranges (x :: xs) in let parts := omap (part filesize) (x :: xs) in
  (zlen h + 1) * filesize < 2 ^ 64 ->
  exists R, parse_range filesize boundary mimetype (h ++ [0]) false = Some R /\
    if bool_decide (parts = []) then range_status R = SW_HTTP_OK /\ file_parts (response_body R) = [(0, filesize)]
    else range_status R = SW_HTTP_PARTIAL_CONTENT /\ file_parts (response_body R) = parts.
Proof.
  intros Hfile Hx Hxs h parts Hmax.
  assert (Hm : h ++ [0] = str "bytes=" ++ render_spec x ++ tail xs ++ [0]) by (unfold h, render_ranges; rewrite <- !app_assoc; done).
  destruct (range_loop_at filesize (h ++ [0]) Hfile boundary mimetype xs x (S (length (h ++ [0]))) (str "bytes=") [] 0 0 Hx Hxs Hm) as (ts & len & E & Hts).
  { rewrite Hm, !length_app. assert (length xs <= length (tail xs))%nat; [|lia]. clear. induction xs as [|y xs IH]; [done|]. change (tail (y :: xs)) with ((COMMA :: render_spec y) ++ tail xs). rewrite length_app. cbn [length]. lia. }
  { lia. }
  { rewrite length_app. cbn [length]. lia. }
  change (zlen (str "bytes=")) with 6 in E. cbn [app] in E. fold parts in Hts.
  assert (H0 : (0 ∉ h)) by (by apply render_ranges_nonzero).
  destruct (strlen_text h []) as [El _]. rewrite c_text_id in El by done.
  assert (Hb : istarts_with (h ++ [0]) 0 (zlen h) (str "bytes=") = Some true).
  { unfold istarts_with. rewrite (proj2 (Z.leb_le _ _)) by (unfold h, render_ranges; rewrite length_app; lia). rewrite Hm. done. }
  assert (Hc : zget (h ++ [0]) 0 = Some 98) by (rewrite Hm; done).
  unfold parse_range, range_result. rewrite Hc. cbn [mbind option_bind]. change (98 =? 0) with false. cbv iota. rewrite El. cbn [mbind option_bind]. rewrite Hb. cbn [mbind option_bind negb]. rewrite E. cbn [mbind option_bind negb andb].
  eexists. split; [done|]. rewrite <- Hts. destruct ts as [|t [|t2 ts]]; cbn [map].
  - rewrite bool_decide_true by done. split; [done|]. unfold response_body, whole_file. cbn [tasks task_length]. rewrite (proj2 (Z.ltb_lt 0 filesize)) by lia. done.
  - rewrite bool_decide_false by done. split; [done|]. unfold response_body. cbn [tasks].
    assert (Hp : 0 < task_length t). { cbn [map] in Hts. assert (Hin : task_part t ∈ parts) by (rewrite <- Hts; by left). unfold parts in Hin. apply list_elem_of_omap in Hin as (z & _ & Hz). unfold part in Hz. destruct (resolve filesize z) as [s e]. destruct (Z.ltb_spec s e); [|done]. injection Hz as ? ?. lia. }
    rewrite (proj2 (Z.ltb_lt 0 _)) by done. done.
  - rewrite bool_decide_false by done. split; [done|]. unfold response_body. cbn [tasks]. unfold file_parts. rewrite omap_app. fold (file_parts (concat (map part_responses (t :: t2 :: ts)))). rewrite file_parts_body. cbn. by rewrite app_nil_r.
Qed.

Definition html : list Z := str "text/html".
Definition boundary_ : list Z := str "SwooleBoundary0123456789abcdefghijklmn".

Lemma range_response_consistent_witness : exists R, parse_range 100 boundary_ html (str "bytes=0-9, -5,x" ++ [0]) false = Some R /\
  Forall (fun t => 0 <= offset t /\ offset t + task_length t <= 100) (tasks R) /\
  (range_status R <> SW_HTTP_RANGE_NOT_SATISFIABLE -> zlen (concat (map (sent_bytes (replicate 100 7)) (response_body R))) = content_length R).
Proof.
  apply (range_response_consistent (replicate 100 7) boundary_ html (str "bytes=0-9, -5,x") false).
  - by apply (bool_decide_unpack _).
  - done.
  - done.
  - done.
Defined.

Lemma ranges_served_witness : exists R, parse_range 100 boundary_ html (str "bytes=0-9,200-300,90-,-5" ++ [0]) false = Some R /\
  range_status R = SW_HTTP_PARTIAL_CONTENT /\ file_parts (response_body R) = [(0, 10); (90, 10); (95, 5)].
Proof.
  apply (ranges_served 100 boundary_ html (FromTo 0 9) [FromTo 200 300; From 90; Suffix 5]).
  - lia.
  - cbn. lia.
  - repeat constructor; cbn; lia.
  - done.
Defined.

(** A header whose second range is refused: one part of two bytes is sent, but the length that
    is announced counts the header of the part too *)
Lemma refused_range_length : match parse_range 100 boundary_ html (str "bytes=0-1,x" ++ [0]) false with
  | Some R => range_status R = SW_HTTP_RANGE_NOT_SATISFIABLE /\
      zlen (concat (map (sent_bytes (replicate 100 7)) (response_body R))) = 2 /\ content_length R = 101
  | None => False
  end.
Proof. vm_compute. done. Qed.
(** A range behind the end of the file is answered with the whole file *)
Lemma unsatisfiable_range_whole : match parse_range 100 boundary_ html (str "bytes=200-300" ++ [0]) false with
  | Some R => range_status R = SW_HTTP_OK /\ file_parts (response_body R) = [(0, 100)]
  | None => False
  end.
Proof. vm_compute. done. Qed.
